(* ===== verification/_CoqProject ===== *)
-Q . S2P
Prelude.v
BitLoops.v
PyList.v
Present.v
RomCipher.v
Secded.v
SecdedCode.v
Trace.v
Reg.v
Gpr.v
Flags.v
Wsr.v
Csr.v
Dmem.v
LoopStack.v
ExtRegs.v
State.v
Isa.v
StateWf.v
Insn.v
InsnSafe.v
StateStep.v
InsnSpec.v
Stats.v
Sim.v
SimProps.v
ComponentProps.v
PyStr.v
Yaml.v
BitRanges.v
BoolLiteral.v
EncodingScheme.v
Encoding.v
Operand.v
InsnYaml.v
OtbnIsa.v
Decode.v
DecodeProps.v
EncodingProps.v
RomMem.v
Vmem.v
RomElf.v
RomScramble.v
RomProps.v
RgLib.v
RgField.v
RgRegister.v
RgBlock.v
RgIp.v
RgSafe.v
RgLayout.v
RgOtbn.v
OtbnElf.v
OtbnElfProps.v
RgProps.v
Scheduler.v
SchedInv.v
SchedOps.v
SchedLoop.v
SchedProps.v
KnownMem.v
RigProgram.v
RigProgramFacts.v
RigProps.v
RigModel.v
RigModelProps.v
RigSim.v
OtpCommon.v
LcStEnc.v
LcStEncFacts.v
LcProps.v
OtpMemMap.v
OtpMapFacts.v
OtpMemImg.v
OtpProps.v
Tlgen.v
TlValidate.v
TlFacts.v
TlElab.v
TlProps.v
