(* ===== verification/Prelude.v ===== *)
(** * Verification of OpenTitan's Python tools: the OTBN simulator, instruction encodings, the
    register generator, the ROM image tools, the SECDED generator, the dvsim scheduler, the
    random instruction generator, the OTP tools and the TileLink crossbar generator

    The development models nine groups of Python programs of the repository.  Every definition
    translates the source it names; "src" paths below are relative to the repository.  Theorems
    are named by file: the files [...Props] hold the properties, the others what they rest on.

    ** The OTBN instruction set simulator (hw/ip/otbn/dv/otbnsim/sim)

    One file per component.  A component is a record with the attributes of the Python class
    and one definition per method, in the error monad [res] (pure methods) or in the state and
    error monad [M] (methods that change the object).  Staged updates are kept apart from
    committed values as in the source, and [commit] and [abort] write or drop them.
    - [Trace]: the trace entries (trace.py) and error bits (err_bits.py).
    - [Reg], [Gpr]: registers and register files with staged writes (reg.py); the narrow
      register file with the call stack at x1 (gpr.py).
    - [Flags], [Wsr], [Csr]: flag groups, wide status registers and the CSR window on both.
    - [Dmem], [LoopStack], [ExtRegs]: data memory, hardware loops, external registers.
    - [State]: [OTBNState] (state.py), which owns all of them; [Isa]: helpers of isa.py.
    - [Insn]: the 52 instruction classes of insn.py, one constructor of [insn] each, with
      [X_init] and [X_execute] per class [X]; [Stats]: [ExecutionStats] (stats.py).
    - [Sim]: [OTBNSim] (sim.py): [step] and [run].  [run] is a loop without a bound in the
      source; the model takes fuel and returns [None] when it runs out.  The safety theorem
      holds for every fuel, and the termination theorem gives a fuel that is enough.
    - [OtbnElf]: loading an ELF file into the simulator (elf.py) and building it.
    The theory: [StateWf] has the invariant of the core, the relation between the state before
    an instruction and the states inside it, and the proof rules; [InsnSafe] shows that every
    instruction runs to completion and only stages its effects; [StateStep] follows a cycle;
    [InsnSpec] says what instructions compute, in modular arithmetic.
    [SimProps] has the theorems on whole steps and runs: no assertion of the simulator fails
    while the statistics are off ([run_safe]), straight-line programs end, the invariant is kept, a
    fault leaves the architectural state apart from the loop stack as it was, the results of ALU,
    wide, multiply-accumulate and modular instructions.  [ComponentProps] has those of single components.  [OtbnElfProps] joins the
    loader, the decoder and the simulator: bytes reach their addresses, and a file that fills the
    instruction memory with supported instructions runs without an exception ([elf_run_safe]).

    ** Instruction encodings (hw/ip/otbn/util/shared, hw/ip/otbn/dv/otbnsim/sim/decode.py)

    - [PyStr], [Yaml]: Python strings and numerals, dictionaries with insertion order,
      parsed YAML and its checks (yaml_parse_helpers.py).
    - [BitRanges], [BoolLiteral], [EncodingScheme], [Encoding], [Operand], [InsnYaml]: the
      files of the same names; [OtbnIsa]: the data of the YAML files; [Decode]: decode.py.
    [EncodingProps] and [DecodeProps] show that assembling and decoding are inverse to each
    other, that every word decodes (four kinds of operands that decode are not supported by the simulator,
    [unsupported]), that encodings are disjoint, that schemes partition the word
    and their resolution terminates (the fuel is one more than the number of schemes, enough
    because a scheme that is being resolved is not entered again), and the round trips and
    ranges of operands.

    ** The register generator (util/reggen)

    - [RgLib]: the checks on hjson values (lib.py), parameters and their expansion
      (params.py); [RgField]: access types, bits, enumerations and fields; [RgRegister]:
      registers, multi-registers and windows; [RgBlock]: signals, alerts and register blocks;
      [RgIp]: inter-module signals, bus interfaces and whole IP descriptions.
    - [RgOtbn]: the clients in the OTBN tools (otbn_reggen.py, mem_layout.py) and the register
      arguments of the simulator, with the tree of otbn.hjson.
    [RgSafe] shows for each constructor that it returns a well-formed object or raises
    [ValueError]; [RgLayout] lifts this to blocks and IP descriptions, with the
    layout invariant.  [RgProps] draws consequences and has the properties: the address
    map of an accepted description, the list of entries and gaps, the copies of a
    multi-register, reset values and that the simulator reads them.

    ** The ROM image tools (hw/ip/rom_ctrl/util)

    - [RomCipher]: the substitution and permutation network and the reduced PRINCE cipher of
      scramble_image.py; [RomMem], [Vmem]: mem.py; [RomElf]: what loading an ELF file does;
      [RomScramble]: the class [Scrambler] and the script.
    - [Present]: util/design/lib/Present.py.
    [RomProps] shows that a scrambled image reads back through the equation of the hardware,
    that bytes of an ELF file reach their addresses, the VMEM round trip, that the ciphers are
    invertible, and that the check bits of [add_ecc32] miss double errors.

    ** The SECDED generator (util/design/secded_gen.py)

    - [Secded]: configuration check, Hsiao and Hamming matrices, bit masks.  The search for a
      Hsiao code retries until a random choice fits; the model takes fuel and returns [None]
      when it runs out, since no bound follows from [random.shuffle] being a permutation.
    - [SecdedCode]: what the generated encoder and decoder compute.
    [RomProps] shows single error correction and double error detection for both kinds.

    ** The job scheduler (util/dvsim/Scheduler.py)

    - [Scheduler]: the state of the class as a record, one definition per method, and the main
      loop.  A job is a number; launchers, timer, interrupts and the order in which a set is
      visited are the environment.  Loops over circular lists and work lists take fuel and
      return [OutOfFuel], which the theorems exclude: a round through the targets polls a job,
      and every job is cancelled once.
    [SchedInv] has the statuses and [_scheduled], [SchedOps] the invariant of the whole state and
    each operation, [SchedLoop] dispatching, polling, killing and a turn of the main loop with
    its measure.  [SchedProps] shows that nothing raises and no job starts before the
    dependencies it needs have passed ([scheduler_safe]), that the scheduler ends
    ([scheduler_ends]) and that an interrupt ends it, for plans described by [plan_ok]; two
    examples show what happens outside of it and with the limit of parallel jobs.

    ** The random instruction generator (hw/ip/otbn/dv/rig/rig)

    - [KnownMem]: which addresses of a memory have values (known_mem.py), and the choice of a
      target for a load or store.  The loop of Euclid's algorithm takes fuel; the absolute value
      of its second argument is enough, since it bounds the remainders.
    - [RigProgram]: the class [Program] of program.py, sections of instructions and the choice of
      branch targets.
    - [RigModel]: instructions with their JSON form (program.py, util/shared/lsu_desc.py) and the
      abstract machine that follows the generated program (model.py).
    [RigProgramFacts] has the invariants.  [RigProps] shows
    that known memory implements sets of addresses, that targets are legal, and that adding
    instructions keeps the sections apart; [RigModelProps] that merging two models is sound;
    [RigSim] that the register values the model claims to know are those that the simulator
    computes.

    ** The OTP tools (util/design/lib)

    - [OtpCommon]: common.py, and the random module: its answers are functions of the seed and
      the number of calls since.
    - [LcStEnc]: the encoding of the life cycle states (LcStEnc.py).  A pair of words is searched
      for at random; the model takes fuel and raises [OutOfFuel], which stays a possible outcome
      in the theorems, since nothing bounds how long unlucky numbers can go on.
    - [OtpMemMap]: the memory map (OtpMemMap.py); [OtpMemImg]: the memory image (OtpMemImg.py),
      with values merged into the map, scrambling with [Present], digests and the hex file.
    [LcStEncFacts] has bit strings, the error correcting code and the search for words,
    [OtpMapFacts] the layout of a map.  [LcProps] shows that the words are valid, far apart and
    incremental ([lc_words_generated]) and what this means for states ([lc_encode_order]).
    [OtpProps] shows the layout of an accepted map, that a streamed partition reads back, and
    that an accepted image is written without an exception, as valid code words of the bytes of
    its partitions ([otp_image_file]); descriptions with explicit offsets are left out there, and
    an example shows what goes wrong with them.

    ** The TileLink crossbar generator (util/tlgen)

    - [Tlgen]: nodes and edges (item.py), the class [Xbar] (xbar.py) and the elaboration
      (elaborate.py).  Nodes and edges are positions in the lists of the crossbar, so that what the
      source shares is shared.  [process_node] follows the graph that it changes and takes fuel: 5
      is enough, because a host needs at most a host FIFO, a 1:N socket, a device FIFO and an M:1
      socket below each other.
    - [TlValidate]: the checks of the keys of a description and the crossbar built from it
      (validate.py, with reggen/validate.py), and the address arithmetic (lib.py).
    [TlFacts] has the graphs and what inserting a node does, [TlElab] the invariant of the
    elaboration.  [TlProps] shows that a description that passes the checks is elaborated and still
    connects what it connected ([description_elaborated]), the shape of the result
    ([elaborate_legal]), that the devices of a host are found below its socket
    ([elaborated_devices]) and that merging address ranges takes no foreign address
    ([simplify_addr_sound]).  A device all of whose hosts have no other device is an exception
    that an example shows.

    ** Shared files

    This file has Python integers, exceptions, the two monads and their proof rules, and the
    automation on bits and comparisons; [BitLoops] and [PyList] have limbs of an integer,
    loops that build integers, and Python lists.

    ** Parameters

    Code outside the repository is an argument: the results of [random.getrandbits] and
    [random.shuffle] (only that a shuffle permutes its argument is assumed) and the choices of the
    random instruction generator (only that they are in range is assumed), the segments that
    pyelftools reads from an ELF file, the trees that the hjson and YAML loaders return (the
    data of OTBN is given in [OtbnIsa] and [RgOtbn]), the values the environment supplies to
    RND, the answers of the launchers of dvsim, and cSHAKE128 for the tokens of the life cycle.

    ** Not modelled

    Text for people (disassembly, with the check in it that an instruction object is only
    disassembled at one address, printed traces, documentation, the statistics analyser,
    error messages: of an exception only the class is kept), file and process handling, the
    text protocol of stepped.py, the assembly syntax of instruction descriptions (syntax.py),
    the printing of SystemVerilog and C in secded_gen.py and in the gen_ files and [_asdict]
    methods of reggen, the tables of OtpMemMap.py and the literals of common.py for templates,
    the snippets of the random instruction generator, the generators that render templates
    (topgen, ipgen, and the templates of tlgen), and the programs that start others (the rest of
    dvsim, the assembler and linker wrappers). *)

From Stdlib Require Export Lia.
From stdpp Require Export strings base tactics numbers gmap option list.

#[global] Open Scope Z_scope.

(** * Python integers

    Python integers are unbounded, so they are [Z].  [<<], [>>], [&], [|], [^]
    and [~] on them are the two's complement operations of [Z]; shifts are
    written with stdpp's [≪] and [≫]. *)

Declare Scope py_scope.
Delimit Scope py_scope with py.
Infix ".&" := Z.land (at level 38, left associativity) : py_scope.
Infix ".^" := Z.lxor (at level 39, left associativity) : py_scope.
Infix ".|" := Z.lor (at level 40, left associativity) : py_scope.
Notation "~. a" := (Z.lnot a) (at level 35, right associativity) : py_scope.
#[global] Open Scope py_scope.

(** [(1 << w) - 1]. *)
Definition mask (w : Z) : Z := (1 ≪ w) - 1.

(** [0 <= v < (1 << w)], the range check the simulator writes as an assertion. *)
Definition fits (w v : Z) : bool := (0 <=? v) && (v <? 1 ≪ w).

Definition in_bits (w v : Z) : Prop := 0 ≤ v < 2 ^ w.

(** Python's truth value of an integer, and [int] of a boolean. *)
Definition truthy (v : Z) : bool := negb (v =? 0).
Definition Z_of_bool (b : bool) : Z := if b then 1 else 0.

(** * Exceptions

    A Python call either returns or raises.  Only the class of the exception
    is kept; the message is not modelled.  [OutOfFuel] is not a Python exception: a
    loop that the model bounds ends with it when the bound is used up. *)

Inductive exn : Set :=
  | AssertionError
  | RuntimeError
  | ValueError
  | KeyError
  | IndexError
  | DecodeError
  | NotImplementedError
  | NameError
  | AttributeError
  | StructError
  | StopIteration
  | ZeroDivisionError
  | TypeError
  | OverflowError
  | SystemExit
  | OutOfFuel.

Inductive res (A : Type) : Type :=
  | Ok (a : A)
  | Err (e : exn).
Arguments Ok {_} _.
Arguments Err {_} _.

#[global] Instance exn_eq_dec : EqDecision exn.
Proof. solve_decision. Defined.

#[global] Instance res_ret : MRet res := fun A a => Ok a.
#[global] Instance res_bind : MBind res := fun A B k m =>
  match m with Ok a => k a | Err e => Err e end.
#[global] Instance res_fmap : FMap res := fun A B f m =>
  match m with Ok a => Ok (f a) | Err e => Err e end.

(** [assert b]. *)
Definition py_assert (b : bool) : res () :=
  if b then Ok () else Err AssertionError.

Definition of_option {A} (e : exn) (o : option A) : res A :=
  match o with Some a => Ok a | None => Err e end.

(** [for x in l: acc = f(acc, x)] where the body may raise. *)
Fixpoint foldM {A B} (f : B → A → res B) (acc : B) (l : list A) : res B :=
  match l with
  | [] => Ok acc
  | x :: l => acc' ← f acc x; foldM f acc' l
  end.

(** [[f(x) for x in l]] where [f] may raise. *)
Fixpoint mapR {A B} (f : A → res B) (l : list A) : res (list B) :=
  match l with
  | [] => Ok []
  | x :: l => y ← f x; ys ← mapR f l; Ok (y :: ys)
  end.

(** * Stateful code

    A method that mutates an object of type [S] and may raise.  An exception
    ends the program (the entry points catch nothing raised by the model), so
    the state it leaves behind is not kept. *)

Definition M (S A : Type) : Type := S → res (A * S).

#[global] Instance M_ret {S} : MRet (M S) := fun A a s => Ok (a, s).
#[global] Instance M_bind {S} : MBind (M S) := fun A B k m s =>
  match m s with Ok (a, s') => k a s' | Err e => Err e end.

Definition gets {S A} (f : S → A) : M S A := fun s => Ok (f s, s).
Definition modify {S} (f : S → S) : M S () := fun s => Ok ((), f s).
Definition lift {S A} (r : res A) : M S A := fun s => a ← r; Ok (a, s).
Definition assertM {S} (b : bool) : M S () := lift (py_assert b).
Definition raise {S A} (e : exn) : M S A := fun _ => Err e.

(** A method call on a component [T] held in a field of [S]. *)
Definition zoom {S T A} (get : S → T) (put : T → S → S) (m : M T A) : M S A :=
  fun s => '(a, t) ← m (get s); Ok (a, put t s).

(** * Reasoning about stateful code *)

(** [m] started in a state satisfying [P] returns, and its result and final
    state satisfy [Q]: in particular it raises nothing. *)
Definition hoare {S A} (P : S → Prop) (m : M S A) (Q : A → S → Prop) : Prop :=
  ∀ s, P s → ∃ a s', m s = Ok (a, s') ∧ Q a s'.

Create HintDb otbn.

Section hoare_rules.
Context {S : Type}.
Implicit Types P : S → Prop.

Lemma hoare_ret {A} P (Q : A → S → Prop) a :
  (∀ s, P s → Q a s) → hoare P (mret a) Q.
Proof. intros H s Hs. exists a, s. split; [done | auto]. Qed.

Lemma hoare_bind {A B} P (m : M S A) Q (k : A → M S B) R :
  hoare P m Q → (∀ a, hoare (Q a) (k a) R) → hoare P (m ≫= k) R.
Proof.
  intros Hm Hk s Hs. destruct (Hm s Hs) as (a & s' & E & HQ).
  destruct (Hk a s' HQ) as (b & s'' & E' & HR).
  exists b, s''. split; [| done]. unfold mbind, M_bind. by rewrite E.
Qed.

Lemma hoare_weaken {A} P P' (m : M S A) Q Q' :
  hoare P' m Q' → (∀ s, P s → P' s) → (∀ a s, Q' a s → Q a s) → hoare P m Q.
Proof.
  intros Hm HP HQ s Hs. destruct (Hm s (HP s Hs)) as (a & s' & ? & ?).
  exists a, s'. auto.
Qed.

Lemma hoare_gets {A} P (f : S → A) (Q : A → S → Prop) :
  (∀ s, P s → Q (f s) s) → hoare P (gets f) Q.
Proof. intros H s Hs. exists (f s), s. auto. Qed.

Lemma hoare_modify P (f : S → S) (Q : () → S → Prop) :
  (∀ s, P s → Q () (f s)) → hoare P (modify f) Q.
Proof. intros H s Hs. exists (), (f s). auto. Qed.

Lemma hoare_assert P b (Q : () → S → Prop) :
  (∀ s, P s → b = true ∧ Q () s) → hoare P (assertM b) Q.
Proof.
  intros H s Hs. destruct (H s Hs) as [-> HQ]. exists (), s. auto.
Qed.

Lemma hoare_if {A} P (b : bool) (m1 m2 : M S A) Q :
  (b = true → hoare P m1 Q) → (b = false → hoare P m2 Q) →
  hoare P (if b then m1 else m2) Q.
Proof. destruct b; auto. Qed.

Lemma hoare_zoom {T A} (get : S → T) put P (PT : T → Prop) (m : M T A) QT Q :
  hoare PT m QT → (∀ s, P s → PT (get s)) →
  (∀ s a t, P s → QT a t → Q a (put t s)) →
  hoare P (zoom get put m) Q.
Proof.
  intros Hm HP HQ s Hs. destruct (Hm _ (HP s Hs)) as (a & t & E & Ht).
  exists a, (put t s). unfold zoom. rewrite E. split; [done | eauto].
Qed.
End hoare_rules.

(** * Lists of fallible computations *)

Lemma mapR_ok {A B} (f : A → res B) (l : list A) :
  (∀ x, x ∈ l → ∃ y, f x = Ok y) → ∃ ys, mapR f l = Ok ys.
Proof.
  induction l as [| x l IH]; intros H; [by exists [] |]. cbn [mapR].
  destruct (H x) as [y ->]; [by left |].
  destruct IH as [ys E]; [intros; apply H; by right |].
  exists (y :: ys). cbn. by rewrite E.
Qed.

Lemma mapR_Ok_fmap {A B} (f : A → res B) (g : A → B) (l : list A) :
  (∀ x, x ∈ l → f x = Ok (g x)) → mapR f l = Ok (g <$> l).
Proof.
  induction l as [| x l IH]; intros H; [done |]. cbn [mapR].
  rewrite (H x) by (by left). cbn. rewrite IH; [done |]. intros; apply H; by right.
Qed.

(** * Inverting a computation that returned *)

Lemma bind_Ok_inv {A B} (m : res A) (k : A → res B) b :
  m ≫= k = Ok b → ∃ a, m = Ok a ∧ k a = Ok b.
Proof. destruct m as [a |]; [by exists a | done]. Qed.

Lemma py_assert_inv b u : py_assert b = Ok u → b = true.
Proof. by destruct b. Qed.

Lemma of_option_inv {A} e (o : option A) a : of_option e o = Ok a → o = Some a.
Proof. destruct o; [by intros [= ->] | done]. Qed.

(** A loop that returned: an invariant of the elements seen so far holds of all. *)
Lemma foldM_ind_prefix {A B} (P : list A → B → Prop) (f : B → A → res B) b0 l b :
  P [] b0 →
  (∀ pre x post acc acc', l = pre ++ x :: post → P pre acc → f acc x = Ok acc' → P (pre ++ [x]) acc') →
  foldM f b0 l = Ok b → P l b.
Proof.
  intros H0 Hstep.
  enough (∀ pre rest acc, l = pre ++ rest → P pre acc → foldM f acc rest = Ok b → P l b)
    as H by (by apply (H [])).
  clear H0 b0. intros pre rest. revert pre.
  induction rest as [| x rest IH]; intros pre acc Hl Hp; cbn [foldM].
  - intros [= <-]. by rewrite Hl, app_nil_r.
  - intros (acc' & Ex & Er)%bind_Ok_inv. eapply (IH (pre ++ [x])); [| by eapply Hstep | done].
    by rewrite <- app_assoc.
Qed.

Lemma foldM_ind {A B} (P : list A → B → Prop) (f : B → A → res B) b0 l b :
  P [] b0 →
  (∀ pre x acc acc', x ∈ l → P pre acc → f acc x = Ok acc' → P (pre ++ [x]) acc') →
  foldM f b0 l = Ok b → P l b.
Proof.
  intros H0 Hstep. apply foldM_ind_prefix; [done |]. intros pre x post acc acc' ->.
  apply Hstep. apply elem_of_app. right. by left.
Qed.

Lemma foldM_app {A B} (f : B → A → res B) b l1 l2 :
  foldM f b (l1 ++ l2) = foldM f b l1 ≫= fun b' => foldM f b' l2.
Proof.
  revert b. induction l1 as [| x l1 IH]; intros b; cbn [app foldM]; [done |].
  destruct (f b x) as [b' | e]; [| done]. apply IH.
Qed.

(** Invert the hypotheses saying that a bind, an assertion or a lookup returned. *)
Ltac inv_ok :=
  repeat match goal with
  | H : _ ≫= _ = Ok _ |- _ => apply bind_Ok_inv in H as (? & ? & H)
  | H : py_assert _ = Ok _ |- _ => apply py_assert_inv in H
  | H : of_option _ _ = Ok _ |- _ => apply of_option_inv in H
  | H : Err _ = Ok _ |- _ => discriminate H
  | H : Ok _ = Ok _ |- _ => injection H as H; subst
  | H : context [let '(_, _) := ?p in _] |- _ => is_var p; destruct p
  end.

(** * Tactics *)

(** Decide every integer comparison of the goal that [lia] can decide. *)
Ltac zbool :=
  repeat (match goal with
  | |- context [Z.leb ?a ?b] =>
      first [ rewrite (proj2 (Z.leb_le a b)) by lia
            | rewrite (proj2 (Z.leb_gt a b)) by lia ]
  | |- context [Z.ltb ?a ?b] =>
      first [ rewrite (proj2 (Z.ltb_lt a b)) by lia
            | rewrite (proj2 (Z.ltb_ge a b)) by lia ]
  | |- context [Z.eqb ?a ?b] =>
      first [ rewrite (proj2 (Z.eqb_eq a b)) by lia
            | rewrite (proj2 (Z.eqb_neq a b)) by lia ]
  end; cbn [andb orb negb]).

(** Split on the first integer comparison of the goal. *)
Ltac zcase :=
  match goal with
  | |- context [Z.leb ?a ?b] => destruct (Z.leb_spec a b)
  | |- context [Z.ltb ?a ?b] => destruct (Z.ltb_spec a b)
  | |- context [Z.eqb ?a ?b] => destruct (Z.eqb_spec a b)
  end; cbn [andb orb negb]; try lia.

(** * Machine-width integers *)

Section bits.
Lemma mask_ones w : 0 ≤ w → mask w = Z.ones w.
Proof. intros. unfold mask. rewrite Z.ones_equiv, Z.shiftl_1_l. lia. Qed.

Lemma land_mask v w : 0 ≤ w → v .& mask w = v `mod` 2 ^ w.
Proof. intros. rewrite mask_ones by done. by apply Z.land_ones. Qed.

Lemma in_bits_mask v w : 0 ≤ w → in_bits w (v .& mask w).
Proof.
  intros. rewrite land_mask by done. apply Z.mod_pos_bound. lia.
Qed.

Lemma fits_spec w v : 0 ≤ w → fits w v = true ↔ in_bits w v.
Proof.
  intros. unfold fits, in_bits. rewrite Z.shiftl_1_l.
  rewrite andb_true_iff, Z.leb_le, Z.ltb_lt. done.
Qed.

Lemma in_bits_0 w : 0 ≤ w → in_bits w 0.
Proof. unfold in_bits. lia. Qed.

Lemma in_bits_weaken w w' v : 0 ≤ w ≤ w' → in_bits w v → in_bits w' v.
Proof.
  unfold in_bits. intros. pose proof (Z.pow_le_mono_r 2 w w'). lia.
Qed.

(** A value fits in [w] bits when no bit at or above [w] is set. *)
Lemma in_bits_testbit w v :
  0 ≤ w → in_bits w v ↔ 0 ≤ v ∧ ∀ i, w ≤ i → Z.testbit v i = false.
Proof.
  intros Hw. unfold in_bits. split.
  - intros [? Hlt]. split; [done |]. intros i Hi.
    destruct (decide (v = 0)) as [-> | ]; [apply Z.bits_0 |].
    apply Z.bits_above_log2; [done |].
    apply Z.log2_lt_pow2; [lia |].
    pose proof (Z.pow_le_mono_r 2 w i). lia.
  - intros [? Hbits]. split; [done |].
    destruct (decide (v = 0)) as [-> | ]; [lia |].
    apply Z.log2_lt_pow2; [lia |].
    destruct (decide (w ≤ Z.log2 v)) as [Hle |]; [| lia].
    specialize (Hbits _ Hle). rewrite Z.bit_log2 in Hbits by lia. done.
Qed.

Lemma in_bits_lor w a b : 0 ≤ w → in_bits w a → in_bits w b → in_bits w (a .| b).
Proof.
  intros Hw. rewrite !in_bits_testbit by done. intros [? Ha] [? Hb].
  split; [by apply Z.lor_nonneg |]. intros i Hi.
  by rewrite Z.lor_spec, Ha, Hb.
Qed.

Lemma in_bits_land_l w a b : 0 ≤ w → in_bits w a → in_bits w (a .& b).
Proof.
  intros Hw. rewrite !in_bits_testbit by done. intros [? Ha].
  split; [apply Z.land_nonneg; by left |]. intros i Hi.
  by rewrite Z.land_spec, Ha.
Qed.

Lemma in_bits_land_r w a b : 0 ≤ w → in_bits w b → in_bits w (a .& b).
Proof. intros. rewrite Z.land_comm. by apply in_bits_land_l. Qed.

Lemma in_bits_lxor w a b : 0 ≤ w → in_bits w a → in_bits w b → in_bits w (a .^ b).
Proof.
  intros Hw. rewrite !in_bits_testbit by done. intros [? Ha] [? Hb].
  split; [apply Z.lxor_nonneg; tauto |]. intros i Hi.
  by rewrite Z.lxor_spec, Ha, Hb.
Qed.

Lemma in_bits_shiftr w n v : 0 ≤ w → 0 ≤ n → in_bits w v → in_bits w (v ≫ n).
Proof.
  intros Hw Hn. rewrite !in_bits_testbit by done. intros [? Hv].
  split; [by apply Z.shiftr_nonneg |]. intros i Hi.
  rewrite Z.shiftr_spec by lia. apply Hv. lia.
Qed.

Lemma in_bits_shiftl w n v : 0 ≤ w → 0 ≤ n → in_bits w v → in_bits (w + n) (v ≪ n).
Proof.
  intros Hw Hn [? Hv]. unfold in_bits. rewrite Z.shiftl_mul_pow2 by done.
  rewrite Z.pow_add_r by done. nia.
Qed.

Lemma testbit_mask w i : 0 ≤ w → Z.testbit (mask w) i = (0 <=? i) && (i <? w).
Proof.
  intros. rewrite mask_ones by done. destruct (Z.leb_spec 0 i).
  - cbn [andb]. destruct (Z.ltb_spec i w).
    + by apply Z.ones_spec_low.
    + by apply Z.ones_spec_high.
  - by apply Z.testbit_neg_r.
Qed.

Lemma testbit_in_bits w v i : in_bits w v → 0 ≤ w ≤ i → Z.testbit v i = false.
Proof. intros Hv ?. apply in_bits_testbit in Hv as [_ Hv]; [apply Hv; lia | lia]. Qed.

Lemma testbit_shiftl v n i :
  0 ≤ i → Z.testbit (v ≪ n) i = Z.testbit v (i - n).
Proof. apply Z.shiftl_spec. Qed.

Lemma testbit_shiftr v n i :
  0 ≤ i → Z.testbit (v ≫ n) i = Z.testbit v (i + n).
Proof. apply Z.shiftr_spec. Qed.

Lemma testbit_neg v i : i < 0 → Z.testbit v i = false.
Proof. apply Z.testbit_neg_r. Qed.

(** Two integers are equal when they agree on every bit. *)
Lemma Z_bits_eq a b : (∀ i, 0 ≤ i → Z.testbit a i = Z.testbit b i) → a = b.
Proof. apply Z.bits_inj'. Qed.

Lemma truthy_bit0 v : truthy (v .& 1) = Z.testbit v 0.
Proof.
  unfold truthy. change 1 with (Z.ones 1). rewrite Z.land_ones by lia.
  by rewrite Z.bit0_odd, <- Z.negb_even, Zeven_mod.
Qed.

Lemma truthy_bit v i : 0 ≤ i → truthy ((v ≫ i) .& 1) = Z.testbit v i.
Proof. intros. rewrite truthy_bit0, testbit_shiftr by lia. by rewrite Z.add_0_l. Qed.

Lemma mask_in_bits w v : 0 ≤ w → in_bits w v → v .& mask w = v.
Proof. intros ? [? ?]. rewrite land_mask by done. by apply Z.mod_small. Qed.
End bits.

#[export] Hint Rewrite Z.land_spec Z.lor_spec Z.lxor_spec Z.lnot_spec testbit_shiftl
  testbit_shiftr testbit_mask Z.bits_0 using lia : testbit.

(** Reduce an equation of integers to one about an arbitrary bit [i], push
    [Z.testbit] through the bit operations and decide the comparisons with the
    bit index that arithmetic decides. *)
Ltac bitwise i :=
  apply Z_bits_eq; intros i ?; autorewrite with testbit.

(** Close a boolean identity between bits by cases on the bits. *)
Ltac bits_cases :=
  repeat match goal with |- context [Z.testbit ?v ?i] => destruct (Z.testbit v i) end;
  done.

#[export] Hint Resolve in_bits_0 in_bits_mask in_bits_lor in_bits_land_l in_bits_lxor
  in_bits_shiftr : otbn.
#[export] Hint Extern 1 (0 ≤ _) => lia : otbn.
