(* ===== verification/BitLoops.v ===== *)
(** Little-endian limbs: an integer as a list of [n]-bit pieces, least significant first, shared by the
    data memory (32-bit words of a 256-bit word, bytes of a 32-bit word) and the nibble-wise ciphers.
    Loops that build an integer bit by bit or nibble by nibble, as the ciphers write them:
    [for i in ...: ret |= val << dst] and the same with [+=]. *)

From S2P Require Import Prelude.

(** Piece [j] of [v]. *)
Definition limb (n v j : Z) : Z := (v ≫ (n * j)) .& mask n.

Definition limbs_split (n k v : Z) : list Z := limb n v <$> seqZ 0 k.

Definition limbs_join (n : Z) (us : list Z) : Z :=
  foldr (fun u acc => (acc ≪ n) .| u) 0 us.

Section limbs.
Context (n : Z) (Hn : 0 < n).

Lemma limb_bits v j : in_bits n (limb n v j).
Proof. apply in_bits_mask. lia. Qed.

Lemma testbit_limb v j i :
  0 ≤ i → Z.testbit (limb n v j) i = (i <? n) && Z.testbit v (i + n * j).
Proof.
  intros. unfold limb. autorewrite with testbit. zbool. by rewrite andb_comm.
Qed.

Lemma limbs_split_lookup k v i :
  limbs_split n k v !! i =
    if decide (Z.of_nat i < k) then Some (limb n v (Z.of_nat i)) else None.
Proof.
  unfold limbs_split. rewrite list_lookup_fmap. case_decide.
  - by rewrite lookup_seqZ_lt by lia.
  - by rewrite lookup_seqZ_ge by lia.
Qed.

Lemma limbs_split_length k v : 0 ≤ k → length (limbs_split n k v) = Z.to_nat k.
Proof. intros. unfold limbs_split. by rewrite length_fmap, length_seqZ. Qed.

Lemma limbs_split_bits k v : Forall (in_bits n) (limbs_split n k v).
Proof. apply Forall_fmap, Forall_true. intros. apply limb_bits. Qed.

Lemma testbit_limbs_join us i :
  Forall (in_bits n) us → 0 ≤ i →
  Z.testbit (limbs_join n us) i =
    from_option (fun u => Z.testbit u (i `mod` n)) false (us !! Z.to_nat (i `div` n)).
Proof.
  intros Hus. revert i. induction Hus as [| u us Hu Hus IH]; intros i Hi.
  - simpl. by rewrite Z.bits_0.
  - cbn [limbs_join foldr]. rewrite Z.lor_spec, testbit_shiftl by lia.
    destruct (decide (i < n)) as [Hlt | Hge].
    + rewrite testbit_neg by lia. rewrite Z.div_small, Z.mod_small by lia. done.
    + rewrite (testbit_in_bits n u) by (done || lia). rewrite orb_false_r.
      rewrite IH by lia.
      assert (E : i = i - n + 1 * n) by lia.
      rewrite (f_equal (fun z => z `div` n) E), (f_equal (fun z => z `mod` n) E : i `mod` n = _).
      rewrite Z.div_add, Z.mod_add by lia.
      rewrite Z.add_1_r, Z2Nat.inj_succ by (apply Z.div_pos; lia). done.
Qed.

Lemma limbs_join_nonneg us : Forall (in_bits n) us → 0 ≤ limbs_join n us.
Proof.
  induction 1 as [| u us [Hu _] _ IH]; [done |].
  cbn [limbs_join foldr]. apply Z.lor_nonneg. split; [by apply Z.shiftl_nonneg | done].
Qed.

Lemma limbs_join_bits us k :
  Forall (in_bits n) us → Z.of_nat (length us) ≤ k → in_bits (n * k) (limbs_join n us).
Proof.
  intros Hus Hlen. apply in_bits_testbit; [nia |].
  split; [by apply limbs_join_nonneg |]. intros i Hi.
  rewrite testbit_limbs_join by (done || nia).
  rewrite lookup_ge_None_2; [done |].
  assert (k ≤ i `div` n) by (apply Z.div_le_lower_bound; lia). lia.
Qed.

(** Splitting what was joined gives the pieces back, and conversely. *)
Lemma limbs_split_join us :
  Forall (in_bits n) us → limbs_split n (Z.of_nat (length us)) (limbs_join n us) = us.
Proof.
  intros Hus. apply list_eq. intros i. rewrite limbs_split_lookup.
  case_decide as Hi; [| by rewrite lookup_ge_None_2 by lia].
  destruct (lookup_lt_is_Some_2 us i) as [u Hu]; [lia |]. rewrite Hu. f_equal.
  apply Z_bits_eq. intros b Hb. rewrite testbit_limb by done.
  assert (Hub : in_bits n u) by (by eapply Forall_lookup_1).
  destruct (Z.ltb_spec b n); cbn [andb].
  - rewrite testbit_limbs_join by (done || nia).
    replace (b + n * Z.of_nat i) with (b + Z.of_nat i * n) by lia.
    rewrite Z.div_add, Z.mod_add, Z.div_small, Z.mod_small by lia.
    rewrite Z.add_0_l, Nat2Z.id, Hu. done.
  - by rewrite (testbit_in_bits n u) by (done || lia).
Qed.

Lemma limbs_join_split k v :
  0 ≤ k → in_bits (n * k) v → limbs_join n (limbs_split n k v) = v.
Proof.
  intros Hk Hv. apply Z_bits_eq. intros i Hi.
  rewrite testbit_limbs_join by (done || apply limbs_split_bits).
  rewrite limbs_split_lookup.
  assert (0 ≤ i `div` n) by (apply Z.div_pos; lia).
  pose proof (Z.mod_pos_bound i n Hn). pose proof (Z.div_mod i n).
  case_decide as Hlt; rewrite Z2Nat.id in * by lia; cbn [from_option].
  - rewrite testbit_limb by lia. zbool. f_equal. lia.
  - symmetry. apply (testbit_in_bits (n * k)); [done | nia].
Qed.

(** Equality of two values of [k] limbs, limb by limb. *)
Lemma limbs_ext k v v' :
  0 ≤ k → in_bits (n * k) v → in_bits (n * k) v' →
  (∀ j, 0 ≤ j < k → limb n v j = limb n v' j) → v = v'.
Proof.
  intros Hk Hv Hv' H. rewrite <- (limbs_join_split k v), <- (limbs_join_split k v') by done.
  f_equal. apply list_eq. intros i. rewrite !limbs_split_lookup.
  case_decide; [| done]. f_equal. apply H. lia.
Qed.

(** Replacing one limb of a joined list. *)
Lemma limb_join us i :
  Forall (in_bits n) us → 0 ≤ i < Z.of_nat (length us) →
  Some (limb n (limbs_join n us) i) = us !! Z.to_nat i.
Proof.
  intros Hus Hi. rewrite <- (limbs_split_join us Hus) at 2.
  rewrite limbs_split_lookup. by rewrite decide_True, Z2Nat.id by lia.
Qed.
End limbs.

(** [for u in reversed(us): acc = (acc << n) | u] *)
Lemma foldl_reverse_join n us :
  foldl (fun acc u => (acc ≪ n) .| u) 0 (reverse us) = limbs_join n us.
Proof.
  unfold limbs_join. induction us as [| u us IH]; [done |].
  rewrite reverse_cons, foldl_app, IH. done.
Qed.

(** * Bits one by one *)

(** [for i in l: acc |= val(i) << dst(i)] *)
Definition or_loop (val dst : Z → Z) (acc : Z) (l : list Z) : Z :=
  foldl (fun acc i => acc .| (val i ≪ dst i)) acc l.

(** [for i in l: acc += val(i) << dst(i)] *)
Definition add_loop (val dst : Z → Z) (acc : Z) (l : list Z) : Z :=
  foldl (fun acc i => acc + (val i ≪ dst i)) acc l.

(** Bit [i] of [v] as an integer: [(v >> i) & 1]. *)
Definition bit (v i : Z) : Z := (v ≫ i) .& 1.

(** * Loops in general *)

Lemma res_bind_Ok {A B} (a : A) (k : A → res B) : (Ok a ≫= k) = k a.
Proof. done. Qed.

(** A loop whose body raises nothing. *)
Lemma foldM_Ok {A B} (f : B → A → res B) (g : B → A → B) acc l :
  (∀ acc x, x ∈ l → f acc x = Ok (g acc x)) → foldM f acc l = Ok (foldl g acc l).
Proof.
  revert acc. induction l as [| x l IH]; intros acc H; cbn [foldM foldl]; [done |].
  rewrite H by (by left). apply IH. intros; apply H; by right.
Qed.

(** The same for an invariant of the accumulator. *)
Lemma foldM_Ok_inv {A B} (P : B → Prop) (f : B → A → res B) (g : B → A → B) acc l :
  P acc → (∀ acc x, x ∈ l → P acc → f acc x = Ok (g acc x) ∧ P (g acc x)) →
  foldM f acc l = Ok (foldl g acc l) ∧ P (foldl g acc l).
Proof.
  revert acc. induction l as [| x l IH]; intros acc Hp H; cbn [foldM foldl]; [done |].
  destruct (H acc x ltac:(by left) Hp) as [E Hp']. rewrite E.
  apply IH; [done |]. intros; apply H; [by right | done].
Qed.

Lemma existsb_none {A} (p : A → bool) l : (∀ x, x ∈ l → p x = false) → existsb p l = false.
Proof.
  induction l as [| x l IH]; intros H; cbn [existsb]; [done |].
  rewrite (H x) by (by left). apply IH. intros; apply H; by right.
Qed.

Lemma existsb_one {A} (p : A → bool) l k :
  k ∈ l → (∀ x, x ∈ l → x = k ∨ p x = false) → existsb p l = p k.
Proof.
  induction l as [| x l IH]; intros Hk H; [by apply elem_of_nil in Hk |]. cbn [existsb].
  destruct (H x ltac:(by left)) as [-> | E].
  - destruct (p k) eqn:Ek; [done |]. apply existsb_none. intros y Hy.
    destruct (H y ltac:(by right)) as [-> | ?]; done.
  - rewrite E. apply elem_of_cons in Hk as [-> | Hk].
    + rewrite E. cbn. apply existsb_none. intros y Hy.
      destruct (H y ltac:(by right)) as [-> | ?]; done.
    + apply IH; [done |]. intros; apply H; by right.
Qed.

(** * Bits of the result *)

Lemma testbit_bit v i j : 0 ≤ i → Z.testbit (bit v i) j = (j =? 0) && Z.testbit v i.
Proof.
  intros Hi. unfold bit. destruct (Z.ltb_spec j 0).
  - rewrite testbit_neg by lia. by zbool.
  - change 1 with (mask 1). autorewrite with testbit.
    destruct (Z.eqb_spec j 0) as [-> |]; cbn [andb].
    + by rewrite Z.add_0_l, andb_true_r.
    + zbool. by rewrite andb_false_r.
Qed.

Lemma bit_in_bits v i : in_bits 1 (bit v i).
Proof. apply (in_bits_mask _ 1). lia. Qed.

Lemma testbit_or_loop val dst acc l j :
  0 ≤ j →
  Z.testbit (or_loop val dst acc l) j =
    Z.testbit acc j || existsb (fun i => Z.testbit (val i) (j - dst i)) l.
Proof.
  intros Hj. revert acc. unfold or_loop.
  induction l as [| i l IH]; intros acc; cbn [foldl existsb]; [by rewrite orb_false_r |].
  rewrite IH, Z.lor_spec, testbit_shiftl by done. by rewrite orb_assoc.
Qed.

Lemma or_loop_ext val val' dst dst' acc l :
  (∀ i, i ∈ l → val i = val' i ∧ dst i = dst' i) →
  or_loop val dst acc l = or_loop val' dst' acc l.
Proof.
  revert acc. unfold or_loop. induction l as [| i l IH]; intros acc H; cbn [foldl]; [done |].
  destruct (H i) as [-> ->]; [by left |]. apply IH. intros; apply H; by right.
Qed.

Lemma or_loop_in_bits w val dst acc l :
  0 ≤ w → in_bits w acc → (∀ i, i ∈ l → 0 ≤ dst i ∧ in_bits w (val i ≪ dst i)) →
  in_bits w (or_loop val dst acc l).
Proof.
  intros Hw. revert acc. unfold or_loop.
  induction l as [| i l IH]; intros acc Ha H; cbn [foldl]; [done |].
  apply IH; [| intros; apply H; by right]. apply in_bits_lor; [done | done |].
  apply H. by left.
Qed.

(** Moving single bits: bit [j] of the result is the bit that was sent there. *)
Lemma testbit_or_bits v src dst acc l j k :
  0 ≤ j → (∀ i, i ∈ l → 0 ≤ src i) →
  k ∈ l → dst k = j → (∀ i, i ∈ l → dst i = j → i = k) →
  Z.testbit (or_loop (fun i => bit v (src i)) dst acc l) j =
    Z.testbit acc j || Z.testbit v (src k).
Proof.
  intros Hj Hsrc Hk Hd Hu. rewrite testbit_or_loop by done. f_equal.
  rewrite (existsb_one _ _ k); [| done |].
  - rewrite testbit_bit by auto. by zbool.
  - intros i Hi. rewrite testbit_bit by auto.
    destruct (Z.eqb_spec (j - dst i) 0); [left; apply Hu; [done | lia] | by right].
Qed.

(** A bit that nothing is sent to. *)
Lemma testbit_or_bits_none v src dst acc l j :
  0 ≤ j → (∀ i, i ∈ l → 0 ≤ src i ∧ dst i ≠ j) →
  Z.testbit (or_loop (fun i => bit v (src i)) dst acc l) j = Z.testbit acc j.
Proof.
  intros Hj H. rewrite testbit_or_loop by done. rewrite existsb_none, orb_false_r; [done |].
  intros i Hi. destruct (H i Hi). rewrite testbit_bit by done. by zbool.
Qed.

(** Building limb by limb. *)
Lemma testbit_or_limbs n val k acc j :
  0 < n → 0 ≤ j → (∀ i, 0 ≤ i < k → in_bits n (val i)) →
  Z.testbit (or_loop val (fun i => n * i) acc (seqZ 0 k)) j =
    Z.testbit acc j || (j <? n * k) && Z.testbit (val (j `div` n)) (j `mod` n).
Proof.
  intros Hn Hj Hv. rewrite testbit_or_loop by done. f_equal.
  pose proof (Z.mod_pos_bound j n Hn). pose proof (Z.div_mod j n ltac:(lia)).
  assert (0 ≤ j `div` n) by (apply Z.div_pos; lia).
  assert (Hout : ∀ i, i ∈ seqZ 0 k → i = j `div` n ∨ Z.testbit (val i) (j - n * i) = false).
  { intros i Hi%elem_of_seqZ. destruct (Z.lt_trichotomy i (j `div` n)) as [Hlt | [-> | Hgt]].
    - right. apply (testbit_in_bits n); [apply Hv; lia | nia].
    - by left.
    - right. apply testbit_neg. nia. }
  destruct (Z.ltb_spec j (n * k)); cbn [andb].
  - rewrite (existsb_one _ _ (j `div` n)); [f_equal; lia | apply elem_of_seqZ; nia | done].
  - apply existsb_none. intros i Hi.
    destruct (Hout i Hi) as [-> | ?]; [apply elem_of_seqZ in Hi; nia | done].
Qed.

Lemma or_loop_join n val k :
  0 < n → 0 ≤ k → (∀ i, 0 ≤ i < k → in_bits n (val i)) →
  or_loop val (fun i => n * i) 0 (seqZ 0 k) = limbs_join n (val <$> seqZ 0 k).
Proof.
  intros Hn Hk Hv.
  assert (Hf : Forall (in_bits n) (val <$> seqZ 0 k)).
  { apply Forall_fmap, Forall_forall. intros i Hi%elem_of_seqZ. apply Hv. lia. }
  apply Z_bits_eq. intros j Hj. rewrite testbit_or_limbs, Z.bits_0 by done. cbn [orb].
  rewrite testbit_limbs_join by done. rewrite list_lookup_fmap.
  pose proof (Z.mod_pos_bound j n Hn). pose proof (Z.div_mod j n ltac:(lia)).
  assert (0 ≤ j `div` n) by (apply Z.div_pos; lia).
  destruct (Z.ltb_spec j (n * k)); cbn [andb].
  - rewrite lookup_seqZ_lt by nia. cbn. by rewrite Z2Nat.id by lia.
  - rewrite lookup_seqZ_ge by nia. done.
Qed.

(** A loop with two such assignments in its body. *)
Lemma or_loop_two v1 d1 v2 d2 acc l :
  foldl (fun acc i => (acc .| (v1 i ≪ d1 i)) .| (v2 i ≪ d2 i)) acc l =
  or_loop v2 d2 (or_loop v1 d1 acc l) l.
Proof.
  apply Z_bits_eq. intros j Hj. rewrite !testbit_or_loop by done. revert acc.
  induction l as [| i l IH]; intros acc; cbn [foldl existsb]; [by rewrite !orb_false_r |].
  rewrite IH, !Z.lor_spec, !testbit_shiftl by done.
  repeat match goal with
  | |- context [existsb ?p l] => destruct (existsb p l)
  | |- context [Z.testbit ?v ?i] => destruct (Z.testbit v i)
  end; done.
Qed.

(** * Sums of disjoint parts *)

Lemma add_disjoint a b : a .& b = 0 → a + b = a .| b.
Proof. intros H. rewrite Z.add_nocarry_lxor by done. by apply Z.lxor_lor. Qed.

Lemma add_loop_or_loop val dst acc l :
  (∀ pre i post, l = pre ++ i :: post → or_loop val dst acc pre .& (val i ≪ dst i) = 0) →
  add_loop val dst acc l = or_loop val dst acc l.
Proof.
  induction l as [| i l IH] using rev_ind; intros H; [done |].
  unfold add_loop, or_loop in *. rewrite !foldl_app. cbn [foldl].
  rewrite IH; [by apply add_disjoint, (H l i []) |].
  intros pre x post ->. apply (H pre x (post ++ [i])). by rewrite <- app_assoc.
Qed.

(** Parts of [n] bits at multiples of [n] do not overlap. *)
Lemma add_loop_limbs n val k :
  0 < n → 0 ≤ k → (∀ i, 0 ≤ i < k → in_bits n (val i)) →
  add_loop val (fun i => n * i) 0 (seqZ 0 k) = limbs_join n (val <$> seqZ 0 k).
Proof.
  intros Hn Hk Hv. rewrite <- or_loop_join by done. apply add_loop_or_loop.
  intros pre i post E.
  assert (Hi : i = Z.of_nat (length pre) ∧ i < k ∧ pre = seqZ 0 i).
  { assert (El : seqZ 0 k !! length pre = Some i) by (by rewrite E, list_lookup_middle).
    apply lookup_seqZ in El as [-> Hlt]. split_and!; [lia | lia |].
    trans (take (length pre) (seqZ 0 k)); [by rewrite E, take_app_length |].
    apply list_eq. intros m. destruct (decide (m < length pre)%nat).
    - rewrite lookup_take_lt, !lookup_seqZ_lt by lia. f_equal; lia.
    - rewrite lookup_take_ge, lookup_seqZ_ge by lia. done. }
  destruct Hi as (Hi & Hlt & ->). rewrite or_loop_join; [| done | lia | intros; apply Hv; lia].
  apply Z_bits_eq. intros j Hj. autorewrite with testbit.
  destruct (Z.ltb_spec j (n * i)); [by rewrite (testbit_neg _ (j - n * i)), andb_false_r by lia |].
  rewrite (testbit_in_bits (n * i)); [done | | nia].
  apply limbs_join_bits; [done | | rewrite length_fmap, length_seqZ; lia].
  apply Forall_fmap, Forall_forall. intros x Hx%elem_of_seqZ. apply Hv. lia.
Qed.

(** Single bits sent to distinct places do not overlap. *)
Lemma add_loop_bits v src dst l :
  (∀ i, i ∈ l → 0 ≤ src i) → NoDup (dst <$> l) →
  add_loop (fun i => bit v (src i)) dst 0 l = or_loop (fun i => bit v (src i)) dst 0 l.
Proof.
  intros Hs Hnd. apply add_loop_or_loop. intros pre i post ->.
  apply Z_bits_eq. intros j Hj. autorewrite with testbit.
  rewrite testbit_bit by (apply Hs, elem_of_app; right; by left).
  destruct (Z.eqb_spec (j - dst i) 0) as [Ej |]; cbn [andb]; [| by rewrite andb_false_r].
  rewrite testbit_or_bits_none, Z.bits_0; [done | done |].
  intros x Hx. split; [apply Hs, elem_of_app; by left |]. intros Ex.
  rewrite fmap_app in Hnd. apply NoDup_app in Hnd as (_ & Hnd & _).
  apply (Hnd (dst x)); [by apply list_elem_of_fmap_2 |].
  replace (dst x) with (dst i) by lia. by left.
Qed.
