(* ===== verification/PyList.v ===== *)
(** Python lists and integers: indexing with negative indices, [list.index],
    [int.bit_length], loops over the indices of a list, and lookup tables. *)

From stdpp Require Import sorting.
From S2P Require Import Prelude.

(** [l[i]]: a negative index counts from the end. *)
Definition py_nth {A} (l : list A) (i : Z) : res A :=
  let j := if i <? 0 then i + Z.of_nat (length l) else i in
  if j <? 0 then Err IndexError else of_option IndexError (l !! Z.to_nat j).

(** [int.bit_length] *)
Definition bit_length (n : Z) : Z := if n =? 0 then 0 else Z.log2 (Z.abs n) + 1.

(** [l.index(x)] *)
Definition py_index (l : list Z) (x : Z) : res Z :=
  of_option ValueError ((fun p => Z.of_nat (fst p)) <$> list_find (x =.) l).

Lemma py_nth_nat {A} (l : list A) (i : nat) x : l !! i = Some x → py_nth l (Z.of_nat i) = Ok x.
Proof. intros H. unfold py_nth. zbool. by rewrite Nat2Z.id, H. Qed.

Lemma py_nth_pos {A} (l : list A) i x :
  0 ≤ i → l !! Z.to_nat i = Some x → py_nth l i = Ok x.
Proof. intros Hi H. rewrite <- (Z2Nat.id i) by done. by apply py_nth_nat. Qed.

Lemma py_nth_neg {A} (l : list A) (i : nat) x :
  reverse l !! i = Some x → py_nth l (- Z.of_nat i - 1) = Ok x.
Proof.
  intros H. pose proof (lookup_lt_Some _ _ _ H) as Hlt. rewrite length_reverse in Hlt.
  unfold py_nth. zbool. rewrite reverse_lookup in H by done.
  replace (Z.to_nat _) with (length l - S i)%nat by lia. by rewrite H.
Qed.

Lemma py_nth_Ok {A} (l : list A) i x :
  py_nth l i = Ok x → x ∈ l.
Proof.
  unfold py_nth. case_match; [done |]. intros Hl%of_option_inv. by eapply list_elem_of_lookup_2.
Qed.

(** [for i in range(n): st = g(st, l[i])] *)
Lemma foldM_nth {A B} (g : B → A → B) (l : list A) st (n : nat) :
  (n ≤ length l)%nat →
  foldM (fun st i => x ← py_nth l i; Ok (g st x)) st (seqZ 0 (Z.of_nat n)) =
  Ok (foldl g st (take n l)).
Proof.
  induction n as [| n IH]; intros Hn; [done |].
  rewrite seqZ_S, foldM_app, IH by lia. cbn [mbind res_bind foldM].
  destruct (lookup_lt_is_Some_2 l n) as [x Hx]; [lia |].
  rewrite Z.add_0_l, (py_nth_nat l n x Hx). cbn.
  by rewrite (take_S_r l n x Hx), foldl_app.
Qed.

(** [for i in range(n): st = g(st, l[-i - 1])] *)
Lemma foldM_nth_neg {A B} (g : B → A → B) (l : list A) st (n : nat) :
  (n ≤ length l)%nat →
  foldM (fun st i => x ← py_nth l (- i - 1); Ok (g st x)) st (seqZ 0 (Z.of_nat n)) =
  Ok (foldl g st (take n (reverse l))).
Proof.
  induction n as [| n IH]; intros Hn; [done |].
  rewrite seqZ_S, foldM_app, IH by lia. cbn [mbind res_bind foldM].
  destruct (lookup_lt_is_Some_2 (reverse l) n) as [x Hx]; [rewrite length_reverse; lia |].
  rewrite Z.add_0_l, (py_nth_neg l n x Hx). cbn.
  by rewrite (take_S_r _ n x Hx), foldl_app.
Qed.

Lemma foldM_ext {A B} (f g : B → A → res B) acc l :
  (∀ acc x, f acc x = g acc x) → foldM f acc l = foldM g acc l.
Proof.
  intros H. revert acc. induction l as [| x l IH]; intros acc; cbn [foldM]; [done |].
  rewrite H. destruct (g acc x); [apply IH | done].
Qed.

(** * Lookup tables *)

(** Entry [i] of a table. *)
Definition at_table (t : list Z) (i : Z) : Z := default 0 (t !! Z.to_nat i).

(** [t] and [t'] are tables of [n] entries below [n] that undo each other. *)
Definition inverse_tables (n : Z) (t t' : list Z) : Prop :=
  Z.of_nat (length t) = n ∧ Z.of_nat (length t') = n ∧
  ∀ i, 0 ≤ i < n → 0 ≤ at_table t i < n ∧ 0 ≤ at_table t' i < n ∧
    at_table t' (at_table t i) = i ∧ at_table t (at_table t' i) = i.

Lemma inverse_tables_sym n t t' : inverse_tables n t t' → inverse_tables n t' t.
Proof. intros (H1 & H2 & H). split_and!; [done | done |]. intros i Hi. destruct (H i Hi) as (?&?&?&?). done. Qed.

Definition inverse_tablesb (n : Z) (t t' : list Z) : bool :=
  (Z.of_nat (length t) =? n) && (Z.of_nat (length t') =? n) &&
  forallb (fun i => (0 <=? at_table t i) && (at_table t i <? n) &&
    (0 <=? at_table t' i) && (at_table t' i <? n) &&
    (at_table t' (at_table t i) =? i) && (at_table t (at_table t' i) =? i)) (seqZ 0 n).

Lemma inverse_tablesb_sound n t t' : inverse_tablesb n t t' = true → inverse_tables n t t'.
Proof.
  unfold inverse_tablesb. rewrite !andb_true_iff, !Z.eqb_eq, forallb_forall.
  intros [[H1 H2] H]. split_and!; [done | done |]. intros i Hi.
  specialize (H i). rewrite <- list_elem_of_In, elem_of_seqZ in H. specialize (H ltac:(lia)).
  rewrite !andb_true_iff, !Z.leb_le, !Z.ltb_lt, !Z.eqb_eq in H. lia.
Qed.

Section tables.
Context (n : Z) (t t' : list Z) (Hinv : inverse_tables n t t').

Lemma nth_table i : 0 ≤ i < n → py_nth t i = Ok (at_table t i).
Proof.
  intros Hi. destruct Hinv as (Hl & _ & _).
  destruct (lookup_lt_is_Some_2 t (Z.to_nat i)) as [x Hx]; [lia |].
  unfold at_table. rewrite Hx. by apply py_nth_pos; [lia |].
Qed.

Lemma table_bits i : n = 16 → 0 ≤ i < 16 → in_bits 4 (at_table t i).
Proof. intros -> Hi. destruct Hinv as (_ & _ & H). destruct (H i Hi). unfold in_bits. lia. Qed.
End tables.

(** ** [l.sort(key=...)], which is stable *)

Section sort.
Context {A : Type} (key : A → Z).

Fixpoint insert_by (x : A) (l : list A) : list A :=
  match l with
  | [] => [x]
  | y :: l => if key x <? key y then x :: y :: l else y :: insert_by x l
  end.
Definition sort_by (l : list A) : list A := foldl (fun acc x => insert_by x acc) [] l.

Lemma insert_by_perm x l : insert_by x l ≡ₚ x :: l.
Proof.
  induction l as [| y l IH]; cbn [insert_by]; [done |].
  destruct (_ <? _); [done |]. rewrite IH. apply perm_swap.
Qed.

Lemma sort_by_perm l : sort_by l ≡ₚ l.
Proof.
  unfold sort_by. induction l as [| x l IH] using rev_ind; [done |].
  rewrite foldl_app. cbn [foldl]. rewrite insert_by_perm, IH. by rewrite Permutation_app_comm.
Qed.

Lemma insert_by_elem x l y : y ∈ insert_by x l ↔ y = x ∨ y ∈ l.
Proof. by rewrite insert_by_perm, elem_of_cons. Qed.

Lemma sort_by_elem l y : y ∈ sort_by l ↔ y ∈ l.
Proof. by rewrite sort_by_perm. Qed.

Lemma insert_by_sorted x l :
  StronglySorted (fun a b => key a ≤ key b) l → StronglySorted (fun a b => key a ≤ key b) (insert_by x l).
Proof.
  induction 1 as [| y l Hs IH Hy]; cbn [insert_by].
  - constructor; [constructor | by apply Forall_nil].
  - destruct (Z.ltb_spec (key x) (key y)) as [Hlt | Hge].
    + constructor; [by constructor |]. apply Forall_cons. split; [lia |].
      eapply Forall_impl; [exact Hy |]. intros z Hz. cbn in Hz. lia.
    + constructor; [done |]. apply Forall_forall. intros z [-> | Hz]%insert_by_elem; [done |].
      rewrite Forall_forall in Hy. by apply Hy.
Qed.

Lemma sort_by_sorted l : StronglySorted (fun a b => key a ≤ key b) (sort_by l).
Proof.
  unfold sort_by. induction l as [| x l IH] using rev_ind; [constructor |].
  rewrite foldl_app. cbn [foldl]. by apply insert_by_sorted.
Qed.

(** A list that is sorted stays as it is. *)
Lemma sort_by_id l : StronglySorted (fun a b => key a ≤ key b) l → sort_by l = l.
Proof.
  unfold sort_by. induction l as [| x l IH] using rev_ind; intros Hs; [done |].
  assert (StronglySorted (fun a b => key a ≤ key b) l ∧ Forall (fun y => key y ≤ key x) l) as [Hl Hx].
  { clear IH. induction l as [| y l IH]; [by split; [constructor | apply Forall_nil] |].
    apply StronglySorted_inv in Hs as [Hs Hy]. destruct (IH Hs) as [? ?].
    apply Forall_app in Hy as [Hy [Hyx _]%Forall_cons]. split; by constructor. }
  rewrite foldl_app, IH by done. cbn [foldl]. clear -Hx.
  induction Hx as [| y l Hy _ IH]; [done |]. cbn [insert_by app]. zbool. by rewrite IH.
Qed.
End sort.

Lemma seqZ_sorted a n : StronglySorted Z.lt (seqZ a n).
Proof.
  destruct (Z.le_ge_cases 0 n) as [Hn | Hn].
  - rewrite <- (Z2Nat.id n) by done. generalize (Z.to_nat n). clear. intros n. revert a.
    induction n as [| n IH]; intros a; [constructor |].
    rewrite seqZ_cons by lia. constructor; [by replace (Z.pred (Z.of_nat (S n))) with (Z.of_nat n) by lia |].
    apply Forall_forall. intros x Hx%elem_of_seqZ. lia.
  - rewrite seqZ_nil by lia. constructor.
Qed.
