(* ===== verification/Present.v ===== *)
(** The PRESENT block cipher (util/design/lib/Present.py): key schedule, encryption and
    decryption of 64-bit blocks, and the proof that they are inverse to each other. *)

From S2P Require Import Prelude BitLoops PyList.

Definition Sbox : list Z :=
  [0xc; 0x5; 0x6; 0xb; 0x9; 0x0; 0xa; 0xd; 0x3; 0xe; 0xf; 0x8; 0x4; 0x7; 0x1; 0x2].

Definition PBox : list Z :=
  [0; 16; 32; 48; 1; 17; 33; 49; 2; 18; 34; 50; 3; 19; 35; 51; 4; 20; 36; 52;
   5; 21; 37; 53; 6; 22; 38; 54; 7; 23; 39; 55; 8; 24; 40; 56; 9; 25; 41; 57;
   10; 26; 42; 58; 11; 27; 43; 59; 12; 28; 44; 60; 13; 29; 45; 61; 14; 30; 46;
   62; 15; 31; 47; 63].

(** [[l.index(x) for x in range(n)]]; the tables contain every index, see [Sbox_inv_total]
    and [PBox_inv_total]. *)
Definition inverse_table (l : list Z) (n : Z) : list Z :=
  match mapR (py_index l) (seqZ 0 n) with Ok t => t | Err _ => [] end.
Definition Sbox_inv : list Z := inverse_table Sbox 16.
Definition PBox_inv : list Z := inverse_table PBox 64.

(** ** Key schedule *)

Definition round_key80 (st : list Z * Z) (i : Z) : res (list Z * Z) :=
  let '(roundkeys, key) := st in
  let roundkeys := roundkeys ++ [key ≫ 16] in
  let key := ((key .& (2 ^ 19 - 1)) ≪ 61) + (key ≫ 19) in
  s ← py_nth Sbox (key ≫ 76);
  let key := (s ≪ 76) + (key .& (2 ^ 76 - 1)) in
  Ok (roundkeys, key .^ (i ≪ 15)).

Definition generateRoundkeys80 (key rounds : Z) : res (list Z) :=
  '(roundkeys, _) ← foldM round_key80 ([], key) (seqZ 1 rounds);
  Ok roundkeys.

Definition round_key128 (st : list Z * Z) (i : Z) : res (list Z * Z) :=
  let '(roundkeys, key) := st in
  let roundkeys := roundkeys ++ [key ≫ 64] in
  let key := ((key .& (2 ^ 67 - 1)) ≪ 61) + (key ≫ 67) in
  s1 ← py_nth Sbox (key ≫ 124);
  s2 ← py_nth Sbox ((key ≫ 120) .& 0xF);
  let key := (s1 ≪ 124) + (s2 ≪ 120) + (key .& (2 ^ 120 - 1)) in
  Ok (roundkeys, key .^ (i ≪ 62)).

Definition generateRoundkeys128 (key rounds : Z) : res (list Z) :=
  '(roundkeys, _) ← foldM round_key128 ([], key) (seqZ 1 rounds);
  Ok roundkeys.

(** ** Layers *)

Definition addRoundKey (state roundkey : Z) : Z := state .^ roundkey.

Definition sub_nibble (box : list Z) (state output i : Z) : res Z :=
  s ← py_nth box ((state ≫ (i * 4)) .& 0xF);
  Ok (output + (s ≪ (i * 4))).

Definition sBoxLayer (state : Z) : res Z := foldM (sub_nibble Sbox state) 0 (seqZ 0 16).
Definition sBoxLayer_dec (state : Z) : res Z := foldM (sub_nibble Sbox_inv state) 0 (seqZ 0 16).

Definition move_bit (box : list Z) (state output i : Z) : res Z :=
  p ← py_nth box i;
  Ok (output + (((state ≫ i) .& 0x01) ≪ p)).

Definition pLayer (state : Z) : res Z := foldM (move_bit PBox state) 0 (seqZ 0 64).
Definition pLayer_dec (state : Z) : res Z := foldM (move_bit PBox_inv state) 0 (seqZ 0 64).

(** ** The cipher *)

Record Present := mkPresent { pr_rounds : Z; pr_roundkeys : list Z }.

Module Present.
Definition init (key rounds keylen : Z) : res Present :=
  if (keylen =? 80) && (key <? 2 ^ 80) then
    ks ← generateRoundkeys80 key rounds; Ok (mkPresent rounds ks)
  else if (keylen =? 128) && (key <? 2 ^ 128) then
    ks ← generateRoundkeys128 key rounds; Ok (mkPresent rounds ks)
  else Err ValueError.

Definition encrypt (block : Z) (p : Present) : res Z :=
  state ← foldM (fun state i =>
    k ← py_nth (pr_roundkeys p) i;
    s ← sBoxLayer (addRoundKey state k);
    pLayer s) block (seqZ 0 (pr_rounds p - 1));
  k ← py_nth (pr_roundkeys p) (-1);
  Ok (addRoundKey state k).

Definition decrypt (block : Z) (p : Present) : res Z :=
  state ← foldM (fun state i =>
    k ← py_nth (pr_roundkeys p) (- i - 1);
    s ← pLayer_dec (addRoundKey state k);
    sBoxLayer_dec s) block (seqZ 0 (pr_rounds p - 1));
  k ← py_nth (pr_roundkeys p) 0;
  Ok (addRoundKey state k).
End Present.

(** The examples of the module's documentation. *)
Example present80 :
  (p ← Present.init 0 32 80; Present.encrypt 0 p) = Ok 0x5579c1387b228445.
Proof. by vm_compute. Qed.
Example present128 :
  (p ← Present.init 0x0123456789abcdef0123456789abcdef 32 128;
   Present.encrypt 0x0123456789abcdef p) = Ok 0xe9d28685e671dd6.
Proof. by vm_compute. Qed.

(** ** The layers as functions *)

Definition sub_layer (box : list Z) (x : Z) : Z :=
  limbs_join 4 ((fun i => at_table box (limb 4 x i)) <$> seqZ 0 16).

Definition move_layer (box : list Z) (x : Z) : Z :=
  or_loop (fun i => bit x i) (at_table box) 0 (seqZ 0 64).

Lemma Sbox_inverse : inverse_tables 16 Sbox Sbox_inv.
Proof. apply inverse_tablesb_sound. by vm_compute. Qed.
Lemma PBox_inverse : inverse_tables 64 PBox PBox_inv.
Proof. apply inverse_tablesb_sound. by vm_compute. Qed.

Lemma Sbox_inv_total : mapR (py_index Sbox) (seqZ 0 16) = Ok Sbox_inv.
Proof. by vm_compute. Qed.
Lemma PBox_inv_total : mapR (py_index PBox) (seqZ 0 64) = Ok PBox_inv.
Proof. by vm_compute. Qed.

(** ** Substitution *)

Section substitution.
Context (t t' : list Z) (Hinv : inverse_tables 16 t t').

Lemma limb4_range x i : 0 ≤ limb 4 x i < 16.
Proof. apply (limb_bits 4 ltac:(lia)). Qed.

Lemma sub_layer_eq x : foldM (sub_nibble t x) 0 (seqZ 0 16) = Ok (sub_layer t x).
Proof.
  unfold sub_layer. rewrite <- add_loop_limbs; [| lia | lia |].
  - apply foldM_Ok. intros acc i _. unfold sub_nibble. rewrite !(Z.mul_comm i 4).
    change 0xF with (mask 4). change (_ .& mask 4) with (limb 4 x i).
    by rewrite (nth_table 16 t t') by (done || apply limb4_range).
  - intros i _. apply (table_bits 16 t t'); [done | done | apply limb4_range].
Qed.

Lemma sub_layer_Forall x :
  Forall (in_bits 4) ((fun i => at_table t (limb 4 x i)) <$> seqZ 0 16).
Proof.
  apply Forall_fmap, Forall_true. intros i.
  apply (table_bits 16 t t'); [done | done | apply limb4_range].
Qed.

Lemma sub_layer_bits x : in_bits 64 (sub_layer t x).
Proof. apply (limbs_join_bits 4 ltac:(lia) _ 16); [apply sub_layer_Forall | done]. Qed.

Lemma limb_sub_layer x i : 0 ≤ i < 16 → limb 4 (sub_layer t x) i = at_table t (limb 4 x i).
Proof.
  intros Hi. apply Some_inj. unfold sub_layer.
  rewrite (limb_join 4 ltac:(lia)); [| apply sub_layer_Forall | rewrite length_fmap, length_seqZ; lia].
  rewrite list_lookup_fmap, lookup_seqZ_lt by lia. cbn. do 3 f_equal. lia.
Qed.
End substitution.

Lemma sub_layer_inv t t' x :
  inverse_tables 16 t t' → in_bits 64 x → sub_layer t' (sub_layer t x) = x.
Proof.
  intros Hinv Hx. apply (limbs_ext 4 ltac:(lia) 16); [lia | | done |].
  - apply (sub_layer_bits t' t). by apply inverse_tables_sym.
  - intros i Hi. rewrite (limb_sub_layer t' t), (limb_sub_layer t t') by (done || by apply inverse_tables_sym).
    destruct Hinv as (_ & _ & H). apply (H (limb 4 x i)), limb4_range.
Qed.

(** ** Permutation *)

Section permutation.
Context (t t' : list Z) (Hinv : inverse_tables 64 t t').

Lemma testbit_move_layer x j :
  0 ≤ j → Z.testbit (move_layer t x) j = (j <? 64) && Z.testbit x (at_table t' j).
Proof.
  intros Hj. destruct Hinv as (_ & _ & H). unfold move_layer. destruct (Z.ltb_spec j 64).
  - destruct (H j ltac:(lia)) as (_ & Hr & _ & E).
    rewrite (testbit_or_bits x (fun i => i) _ _ _ j (at_table t' j)); [by rewrite Z.bits_0 | done | | | done |].
    + intros i Hi%elem_of_seqZ. lia.
    + apply elem_of_seqZ. lia.
    + intros i Hi%elem_of_seqZ <-. destruct (H i ltac:(lia)) as (_ & _ & ? & _). done.
  - rewrite (testbit_or_bits_none x (fun i => i)); [by rewrite Z.bits_0 | done |].
    intros i Hi%elem_of_seqZ. destruct (H i ltac:(lia)). lia.
Qed.

Lemma move_layer_bits x : in_bits 64 (move_layer t x).
Proof.
  apply in_bits_testbit; [lia |]. split.
  - apply Z.bits_iff_nonneg_ex. exists 64. intros j Hj. rewrite testbit_move_layer by lia. by zbool.
  - intros j Hj. rewrite testbit_move_layer by lia. by zbool.
Qed.

Lemma table_NoDup : NoDup (at_table t <$> seqZ 0 64).
Proof.
  destruct Hinv as (_ & _ & H). apply NoDup_fmap_2_strong; [| apply NoDup_seqZ].
  intros i j Hi%elem_of_seqZ Hj%elem_of_seqZ E.
  destruct (H i ltac:(lia)) as (_ & _ & Ei & _), (H j ltac:(lia)) as (_ & _ & Ej & _). congruence.
Qed.

Lemma move_layer_eq x : foldM (move_bit t x) 0 (seqZ 0 64) = Ok (move_layer t x).
Proof.
  unfold move_layer. rewrite <- (add_loop_bits x (fun i => i)); [| intros i Hi%elem_of_seqZ; lia | apply table_NoDup].
  apply foldM_Ok. intros acc i Hi%elem_of_seqZ. unfold move_bit.
  by rewrite (nth_table 64 t t') by (done || lia).
Qed.
End permutation.

Lemma move_layer_inv t t' x :
  inverse_tables 64 t t' → in_bits 64 x → move_layer t' (move_layer t x) = x.
Proof.
  intros Hinv Hx. apply Z_bits_eq. intros j Hj.
  rewrite (testbit_move_layer t' t) by (done || by apply inverse_tables_sym).
  destruct (Z.ltb_spec j 64) as [Hlt | Hge]; cbn [andb].
  - destruct Hinv as (Hl & Hl' & H). destruct (H j ltac:(lia)) as (Hr & _ & E & _).
    rewrite (testbit_move_layer t t') by (done || lia). zbool. by rewrite E.
  - symmetry. apply (testbit_in_bits 64); [done | lia].
Qed.

(** The layers of the cipher. *)
Lemma sBoxLayer_eq x : sBoxLayer x = Ok (sub_layer Sbox x).
Proof. exact (sub_layer_eq _ _ Sbox_inverse x). Qed.
Lemma sBoxLayer_dec_eq x : sBoxLayer_dec x = Ok (sub_layer Sbox_inv x).
Proof. exact (sub_layer_eq _ _ (inverse_tables_sym _ _ _ Sbox_inverse) x). Qed.
Lemma pLayer_eq x : pLayer x = Ok (move_layer PBox x).
Proof. exact (move_layer_eq _ _ PBox_inverse x). Qed.
Lemma pLayer_dec_eq x : pLayer_dec x = Ok (move_layer PBox_inv x).
Proof. exact (move_layer_eq _ _ (inverse_tables_sym _ _ _ PBox_inverse) x). Qed.

#[local] Opaque Sbox Sbox_inv PBox PBox_inv sub_layer move_layer sBoxLayer sBoxLayer_dec pLayer
  pLayer_dec.

(** ** Rounds *)

Definition enc_round (state k : Z) : Z := move_layer PBox (sub_layer Sbox (addRoundKey state k)).
Definition dec_round (state k : Z) : Z :=
  sub_layer Sbox_inv (move_layer PBox_inv (addRoundKey state k)).

Lemma addRoundKey_twice x k : addRoundKey (addRoundKey x k) k = x.
Proof. unfold addRoundKey. by rewrite Z.lxor_assoc, Z.lxor_nilpotent, Z.lxor_0_r. Qed.

Lemma addRoundKey_bits x k : in_bits 64 x → in_bits 64 k → in_bits 64 (addRoundKey x k).
Proof. intros. by apply in_bits_lxor. Qed.

Lemma enc_round_bits x k : in_bits 64 (enc_round x k).
Proof. apply (move_layer_bits _ _ PBox_inverse). Qed.

Lemma dec_round_bits x k : in_bits 64 (dec_round x k).
Proof. apply (sub_layer_bits _ Sbox), inverse_tables_sym, Sbox_inverse. Qed.

(** Undoing a round, before the key of the next one and after its own. *)
Lemma dec_enc_round x k k' :
  in_bits 64 x → in_bits 64 k → dec_round (addRoundKey (enc_round x k) k') k' = addRoundKey x k.
Proof.
  intros. unfold dec_round, enc_round. rewrite addRoundKey_twice.
  rewrite (move_layer_inv _ _ _ PBox_inverse) by apply (sub_layer_bits _ _ Sbox_inverse).
  apply (sub_layer_inv _ _ _ Sbox_inverse). by apply addRoundKey_bits.
Qed.

Lemma enc_dec_round y k k' :
  in_bits 64 y → in_bits 64 k' →
  enc_round (addRoundKey (dec_round y k') k) k = addRoundKey y k'.
Proof.
  intros. unfold dec_round, enc_round. rewrite addRoundKey_twice.
  rewrite (sub_layer_inv _ _ _ (inverse_tables_sym _ _ _ Sbox_inverse))
    by apply (move_layer_bits _ _ (inverse_tables_sym _ _ _ PBox_inverse)).
  apply (move_layer_inv _ _ _ (inverse_tables_sym _ _ _ PBox_inverse)). by apply addRoundKey_bits.
Qed.

(** Encryption and decryption with the round keys [k :: ks]. *)
Fixpoint enc_with (state k : Z) (ks : list Z) {struct ks} : Z :=
  match ks with
  | [] => addRoundKey state k
  | k' :: ks => enc_with (enc_round state k) k' ks
  end.
Definition dec_with (block k : Z) (ks : list Z) : Z :=
  addRoundKey (foldr (fun k state => dec_round state k) block ks) k.

Lemma enc_with_bits x k ks :
  in_bits 64 x → in_bits 64 k → Forall (in_bits 64) ks → in_bits 64 (enc_with x k ks).
Proof.
  revert x k. induction ks as [| k' ks IH]; intros x k Hx Hk Hks; cbn [enc_with].
  - by apply addRoundKey_bits.
  - inv Hks. apply IH; [apply enc_round_bits | done | done].
Qed.

Lemma dec_state_bits c ks :
  in_bits 64 c → in_bits 64 (foldr (fun k state => dec_round state k) c ks).
Proof. destruct ks; intros; [done | apply dec_round_bits]. Qed.

Lemma dec_enc_with x k ks :
  in_bits 64 x → in_bits 64 k → Forall (in_bits 64) ks → dec_with (enc_with x k ks) k ks = x.
Proof.
  intros Hx Hk Hks. unfold dec_with.
  enough (foldr (fun k state => dec_round state k) (enc_with x k ks) ks = addRoundKey x k)
    as -> by apply addRoundKey_twice.
  revert x k Hx Hk. induction Hks as [| k' ks Hk' Hks IH]; intros x k Hx Hk; [done |].
  cbn [foldr enc_with]. rewrite IH by (done || apply enc_round_bits). by apply dec_enc_round.
Qed.

Lemma enc_dec_with c k ks :
  in_bits 64 c → in_bits 64 k → Forall (in_bits 64) ks → enc_with (dec_with c k ks) k ks = c.
Proof.
  intros Hc Hk Hks. unfold dec_with. revert k Hk.
  induction Hks as [| k' ks Hk' Hks IH]; intros k Hk; cbn [foldr enc_with].
  - apply addRoundKey_twice.
  - rewrite enc_dec_round by (done || by apply dec_state_bits). by apply IH.
Qed.

Lemma enc_body st k : (s ← sBoxLayer (addRoundKey st k); pLayer s) = Ok (enc_round st k).
Proof. rewrite sBoxLayer_eq. cbn [mbind res_bind]. rewrite pLayer_eq. reflexivity. Qed.

Lemma dec_body st k : (s ← pLayer_dec (addRoundKey st k); sBoxLayer_dec s) = Ok (dec_round st k).
Proof. rewrite pLayer_dec_eq. cbn [mbind res_bind]. rewrite sBoxLayer_dec_eq. reflexivity. Qed.

Lemma last_cons (k k' : Z) ks : List.last (k' :: ks) k = List.last ks k'.
Proof. revert k k'. induction ks as [| a ks IH]; intros k k'; [done |].
  change (List.last (a :: ks) k = List.last (a :: ks) k'). by rewrite !IH.
Qed.

Lemma foldl_reverse {A B} (f : B → A → B) b l :
  foldl f b (reverse l) = foldr (fun x acc => f acc x) b l.
Proof. induction l as [| x l IH]; [done |]. rewrite reverse_cons, foldl_app, IH. done. Qed.

Lemma foldl_enc_with x k ks :
  addRoundKey (foldl enc_round x (take (length ks) (k :: ks))) (List.last ks k) = enc_with x k ks.
Proof.
  revert x k. induction ks as [| k' ks IH]; intros x k; [done |].
  cbn [length take foldl enc_with]. by rewrite last_cons, <- IH.
Qed.

Lemma py_nth_last (k : Z) ks : py_nth (k :: ks) (-1) = Ok (List.last ks k).
Proof.
  apply (py_nth_neg _ 0). revert k. induction ks as [| k' ks IH]; intros k; [done |].
  rewrite reverse_cons, lookup_app_l by (rewrite length_reverse; cbn; lia).
  by rewrite IH, last_cons.
Qed.

(** The two loops over the round keys, for any round functions. *)
Lemma enc_loop (body : Z → Z → res Z) (f : Z → Z → Z) block k ks :
  (∀ st k, body st k = Ok (f st k)) →
  (state ← foldM (fun st i => k' ← py_nth (k :: ks) i; body st k') block
     (seqZ 0 (Z.of_nat (S (length ks)) - 1));
   k' ← py_nth (k :: ks) (-1); Ok (addRoundKey state k')) =
  Ok (addRoundKey (foldl f block (take (length ks) (k :: ks))) (List.last ks k)).
Proof.
  intros Hb. replace (Z.of_nat (S (length ks)) - 1) with (Z.of_nat (length ks)) by lia.
  rewrite (foldM_ext _ (fun st i => k' ← py_nth (k :: ks) i; Ok (f st k'))).
  - rewrite foldM_nth by (cbn; lia). cbn [mbind res_bind]. by rewrite py_nth_last.
  - intros st i. destruct (py_nth (k :: ks) i); [apply Hb | done].
Qed.

Lemma dec_loop (body : Z → Z → res Z) (f : Z → Z → Z) block k ks :
  (∀ st k, body st k = Ok (f st k)) →
  (state ← foldM (fun st i => k' ← py_nth (k :: ks) (- i - 1); body st k') block
     (seqZ 0 (Z.of_nat (S (length ks)) - 1));
   k' ← py_nth (k :: ks) 0; Ok (addRoundKey state k')) =
  Ok (addRoundKey (foldr (fun k st => f st k) block ks) k).
Proof.
  intros Hb. replace (Z.of_nat (S (length ks)) - 1) with (Z.of_nat (length ks)) by lia.
  rewrite (foldM_ext _ (fun st i => k' ← py_nth (k :: ks) (- i - 1); Ok (f st k'))).
  - rewrite foldM_nth_neg by (cbn; lia).
    rewrite reverse_cons, take_app_le, take_ge by (rewrite length_reverse; lia).
    cbn [mbind res_bind]. by rewrite foldl_reverse.
  - intros st i. destruct (py_nth (k :: ks) (- i - 1)); [apply Hb | done].
Qed.

Lemma encrypt_eq block k ks :
  Present.encrypt block (mkPresent (Z.of_nat (S (length ks))) (k :: ks)) = Ok (enc_with block k ks).
Proof. rewrite <- foldl_enc_with. exact (enc_loop _ enc_round block k ks enc_body). Qed.

Lemma decrypt_eq block k ks :
  Present.decrypt block (mkPresent (Z.of_nat (S (length ks))) (k :: ks)) = Ok (dec_with block k ks).
Proof. exact (dec_loop _ dec_round block k ks dec_body). Qed.

(** ** The key schedule *)

(** Rotation of an [a + b]-bit key by [a] to the right. *)
Lemma rotate_bits a b key :
  0 ≤ a → 0 ≤ b → in_bits (a + b) key →
  in_bits (a + b) (((key .& (2 ^ a - 1)) ≪ b) + (key ≫ a)).
Proof.
  intros Ha Hb [H0 H1]. rewrite Z.sub_1_r, <- Z.ones_equiv, Z.land_ones by lia.
  rewrite Z.shiftl_mul_pow2, Z.shiftr_div_pow2 by lia. unfold in_bits.
  rewrite Z.pow_add_r in * by lia.
  pose proof (Z.mod_pos_bound key (2 ^ a) ltac:(lia)).
  assert (0 ≤ key / 2 ^ a < 2 ^ b) by (split; [apply Z.div_pos | apply Z.div_lt_upper_bound]; lia).
  nia.
Qed.

Lemma shiftr_fits a b key : 0 ≤ a → 0 ≤ b → in_bits (a + b) key → in_bits b (key ≫ a).
Proof.
  intros Ha Hb [H0 H1]. rewrite Z.shiftr_div_pow2 by lia. rewrite Z.pow_add_r in H1 by lia.
  split; [apply Z.div_pos; lia | apply Z.div_lt_upper_bound; lia].
Qed.

Lemma concat_bits a b hi lo :
  0 ≤ a → 0 ≤ b → in_bits b hi → in_bits (a + b) ((hi ≪ a) + (lo .& (2 ^ a - 1))).
Proof.
  intros Ha Hb [H0 H1]. rewrite Z.sub_1_r, <- Z.ones_equiv, Z.land_ones by lia.
  rewrite Z.shiftl_mul_pow2 by lia. unfold in_bits. rewrite Z.pow_add_r by lia.
  pose proof (Z.mod_pos_bound lo (2 ^ a) ltac:(lia)). nia.
Qed.

Lemma Sbox_nth v : in_bits 4 v → ∃ s, py_nth Sbox v = Ok s ∧ in_bits 4 s.
Proof.
  intros Hv. eexists. split; [by apply (nth_table 16 _ _ Sbox_inverse) |].
  by apply (table_bits 16 _ _ Sbox_inverse).
Qed.

(** One round of a schedule, on a key of [w] bits whose top 64 bits are the round key. *)
Definition schedule_ok (w : Z) (round : list Z * Z → Z → res (list Z * Z)) : Prop :=
  ∀ ks key i, in_bits w key → 0 ≤ i < 2 ^ 64 →
    ∃ k key', round (ks, key) i = Ok (ks ++ [k], key') ∧ in_bits 64 k ∧ in_bits w key'.

Lemma schedule80 : schedule_ok 80 round_key80.
Proof.
  intros ks key i Hkey Hi. unfold round_key80.
  pose proof (rotate_bits 19 61 key ltac:(lia) ltac:(lia) Hkey) as Hr.
  set (r := _ + (key ≫ 19)) in *. change (19 + 61) with 80 in Hr.
  destruct (Sbox_nth (r ≫ 76)) as (s & E & Hs); [by apply (shiftr_fits 76 4) |].
  rewrite E. cbn [mbind res_bind]. do 2 eexists. split; [done |]. split.
  - by apply (shiftr_fits 16 64).
  - apply in_bits_lxor; [lia | by apply (concat_bits 76 4) |].
    apply (in_bits_weaken (64 + 15)); [lia | by apply in_bits_shiftl].
Qed.

Lemma schedule128 : schedule_ok 128 round_key128.
Proof.
  intros ks key i Hkey Hi. unfold round_key128.
  pose proof (rotate_bits 67 61 key ltac:(lia) ltac:(lia) Hkey) as Hr.
  set (r := _ + (key ≫ 67)) in *. change (67 + 61) with 128 in Hr.
  destruct (Sbox_nth (r ≫ 124)) as (s1 & E1 & Hs1); [by apply (shiftr_fits 124 4) |].
  destruct (Sbox_nth ((r ≫ 120) .& 0xF)) as (s2 & E2 & Hs2); [by apply (in_bits_mask _ 4) |].
  rewrite E1, E2. cbn [mbind res_bind]. do 2 eexists. split; [done |]. split.
  - by apply (shiftr_fits 64 64).
  - apply in_bits_lxor; [lia | |].
    + replace ((s1 ≪ 124) + (s2 ≪ 120)) with (((s1 ≪ 4) + s2) ≪ 120)
        by (rewrite !Z.shiftl_mul_pow2 by lia; lia).
      apply (concat_bits 120 8); [lia | lia |]. unfold in_bits in *.
      rewrite Z.shiftl_mul_pow2 by lia. lia.
    + apply (in_bits_weaken (64 + 62)); [lia | by apply in_bits_shiftl].
Qed.

Lemma schedule_keys w round key (n : nat) :
  schedule_ok w round → in_bits w key → Z.of_nat n < 2 ^ 64 →
  ∃ ks key', foldM round ([], key) (seqZ 1 (Z.of_nat n)) = Ok (ks, key') ∧
    length ks = n ∧ Forall (in_bits 64) ks ∧ in_bits w key'.
Proof.
  intros Hr Hkey. induction n as [| n IH]; intros Hn.
  - exists [], key. done.
  - destruct IH as (ks & key1 & E & Hl & Hks & Hkey1); [lia |].
    destruct (Hr ks key1 (1 + Z.of_nat n) Hkey1) as (k & key2 & E2 & Hk & Hkey2); [lia |].
    exists (ks ++ [k]), key2. rewrite seqZ_S, foldM_app, E. cbn [mbind res_bind foldM].
    rewrite E2. cbn [mbind res_bind foldM]. split_and!; [done | rewrite length_app; cbn; lia | | done].
    by apply Forall_app; split; [| apply Forall_singleton].
Qed.

(** A cipher object that the constructor returns: as many round keys of 64 bits as rounds. *)
Lemma present_init_ok key rounds keylen :
  keylen = 80 ∨ keylen = 128 → in_bits keylen key → 1 ≤ rounds < 2 ^ 64 →
  ∃ k ks, Present.init key rounds keylen = Ok (mkPresent (Z.of_nat (S (length ks))) (k :: ks)) ∧
    Forall (in_bits 64) (k :: ks) ∧ rounds = Z.of_nat (S (length ks)).
Proof.
  intros Hlen Hkey Hr.
  assert (∃ round, schedule_ok keylen round ∧
    Present.init key rounds keylen =
      ('(roundkeys, _) ← foldM round ([], key) (seqZ 1 rounds); Ok (mkPresent rounds roundkeys)))
    as (round & Hs & ->).
  { unfold Present.init. destruct Hkey as [_ Hlt]. destruct Hlen as [-> | ->].
    - exists round_key80. split; [apply schedule80 |]. zbool. unfold generateRoundkeys80.
      by destruct (foldM round_key80 ([], key) (seqZ 1 rounds)) as [[? ?] |].
    - exists round_key128. split; [apply schedule128 |]. zbool. unfold generateRoundkeys128.
      by destruct (foldM round_key128 ([], key) (seqZ 1 rounds)) as [[? ?] |]. }
  destruct (schedule_keys keylen round key (Z.to_nat rounds)) as (ks & key' & E & Hl & Hks & _);
    [done | done | lia |].
  rewrite Z2Nat.id in E by lia. rewrite E. cbn [mbind res_bind].
  destruct ks as [| k ks]; [cbn in Hl; lia |]. cbn [length] in Hl.
  exists k, ks. rewrite Hl, Z2Nat.id by lia. split_and!; [done | done | lia].
Qed.
