(* ===== verification/RomCipher.v ===== *)
(** The ciphers of the ROM scrambler (rom_ctrl/util/scramble_image.py): the substitution
    layer, the substitution-permutation network and the reduced PRINCE cipher. *)

From S2P Require Import Prelude BitLoops PyList.

Definition PRINCE_SBOX4 : list Z :=
  [0xb; 0xf; 0x3; 0x2; 0xa; 0xc; 0x9; 0x1; 0x6; 0x7; 0x8; 0x0; 0xe; 0x5; 0xd; 0x4].
Definition PRINCE_SBOX4_INV : list Z :=
  [0xb; 0x7; 0x3; 0x2; 0xf; 0xd; 0x8; 0x9; 0xa; 0x6; 0x4; 0x0; 0x5; 0xe; 0xc; 0x1].
Definition PRESENT_SBOX4 : list Z :=
  [0xc; 0x5; 0x6; 0xb; 0x9; 0x0; 0xa; 0xd; 0x3; 0xe; 0xf; 0x8; 0x4; 0x7; 0x1; 0x2].
Definition PRESENT_SBOX4_INV : list Z :=
  [0x5; 0xe; 0xf; 0x8; 0xc; 0x1; 0x2; 0xd; 0xb; 0x4; 0x6; 0x3; 0x0; 0x7; 0x9; 0xa].
Definition PRINCE_SHIFT_ROWS64 : list Z :=
  [0x4; 0x9; 0xe; 0x3; 0x8; 0xd; 0x2; 0x7; 0xc; 0x1; 0x6; 0xb; 0x0; 0x5; 0xa; 0xf].
Definition PRINCE_SHIFT_ROWS64_INV : list Z :=
  [0xc; 0x9; 0x6; 0x3; 0x0; 0xd; 0xa; 0x7; 0x4; 0x1; 0xe; 0xb; 0x8; 0x5; 0x2; 0xf].
Definition PRINCE_ROUND_CONSTS : list Z :=
  [0x0000000000000000; 0x13198a2e03707344; 0xa4093822299f31d0; 0x082efa98ec4e6c89;
   0x452821e638d01377; 0xbe5466cf34e90c6c; 0x7ef84f78fd955cb1; 0x85840851f1ac43aa;
   0xc882d32f25323c54; 0x64a51195e0e3610d; 0xd3b5a399ca0c2399; 0xc0ac29b7c97c50dd].
Definition PRINCE_SHIFT_ROWS_CONSTS : list Z := [0x7bde; 0xbde7; 0xde7b; 0xe7bd].

(** [assert 0 <= v < (1 << w)] *)
Definition assert_fits (w v : Z) : res () := py_assert (fits w v).

Definition sbox (data width : Z) (coeffs : list Z) : res Z :=
  py_assert (0 <=? width);;
  assert_fits width data;;
  let full_mask := (1 ≪ width) - 1 in
  let sbox_mask := (1 ≪ (4 * (width / 4))) - 1 in
  foldM (fun ret i =>
    let nibble := (data ≫ (4 * i)) .& 0xf in
    sb_nibble ← py_nth coeffs nibble;
    Ok (ret .| (sb_nibble ≪ (4 * i))))
    (data .& (full_mask .& ~. sbox_mask)) (seqZ 0 (width / 4)).

(** ** Substitution-permutation network *)

(** [for i in range(width): rev |= bit(data, i) << (width - 1 - i)] *)
Definition reverse_bits (width data : Z) : Z :=
  or_loop (fun i => (data ≫ i) .& 1) (fun i => width - 1 - i) 0 (seqZ 0 width).

(** The even bits of [data] go to the lower half, the odd ones to the upper half; the top
    bit of an odd width stays. *)
Definition butterfly (width data : Z) : Z :=
  let full_mask := (1 ≪ width) - 1 in
  let bfly_mask := (1 ≪ (2 * (width / 2))) - 1 in
  foldl (fun data_bfly i =>
    let data_bfly := data_bfly .| (((data ≫ (2 * i)) .& 1) ≪ i) in
    data_bfly .| (((data ≫ (2 * i + 1)) .& 1) ≪ (width / 2 + i)))
    (data .& (full_mask .& ~. bfly_mask)) (seqZ 0 (width / 2)).

Definition butterfly_inv (width data : Z) : Z :=
  let full_mask := (1 ≪ width) - 1 in
  let bfly_mask := (1 ≪ (2 * (width / 2))) - 1 in
  foldl (fun data_bfly i =>
    let data_bfly := data_bfly .| (((data ≫ i) .& 1) ≪ (2 * i)) in
    data_bfly .| (((data ≫ (i + width / 2)) .& 1) ≪ (2 * i + 1)))
    (data .& (full_mask .& ~. bfly_mask)) (seqZ 0 (width / 2)).

Definition subst_perm_enc (data key width num_rounds : Z) : res Z :=
  py_assert (0 <=? width);;
  assert_fits width data;;
  assert_fits width key;;
  data ← foldM (fun data _ =>
    let data_xor := data .^ key in
    data_sbox ← sbox data_xor width PRESENT_SBOX4;
    let data_rev := reverse_bits width data_sbox in
    Ok (butterfly width data_rev)) data (seqZ 0 num_rounds);
  Ok (data .^ key).

Definition subst_perm_dec (data key width num_rounds : Z) : res Z :=
  py_assert (0 <=? width);;
  assert_fits width data;;
  assert_fits width key;;
  data ← foldM (fun data _ =>
    let data_xor := data .^ key in
    let data_bfly := butterfly_inv width data_xor in
    let data_rev := reverse_bits width data_bfly in
    sbox data_rev width PRESENT_SBOX4_INV) data (seqZ 0 num_rounds);
  Ok (data .^ key).

(** ** PRINCE *)

Definition prince_nibble_red16 (data : Z) : res Z :=
  assert_fits 16 data;;
  let nib0 := (data ≫ 0) .& 0xf in
  let nib1 := (data ≫ 4) .& 0xf in
  let nib2 := (data ≫ 8) .& 0xf in
  let nib3 := (data ≫ 12) .& 0xf in
  Ok (nib0 .^ nib1 .^ nib2 .^ nib3).

Definition mult_nibble (blk_idx data_hw start_sr_idx ret nibble_idx : Z) : res Z :=
  let sr_idx := (start_sr_idx + 3 - nibble_idx) `mod` 4 in
  sr_const ← py_nth PRINCE_SHIFT_ROWS_CONSTS sr_idx;
  nibble ← prince_nibble_red16 (data_hw .& sr_const);
  Ok (ret .| (nibble ≪ (16 * blk_idx + 4 * nibble_idx))).

Definition prince_mult_prime (data : Z) : res Z :=
  assert_fits 64 data;;
  foldM (fun ret blk_idx =>
    let data_hw := (data ≫ (16 * blk_idx)) .& 0xffff in
    let start_sr_idx := if (blk_idx =? 0) || (blk_idx =? 3) then 0 else 1 in
    foldM (mult_nibble blk_idx data_hw start_sr_idx) ret (seqZ 0 4)) 0 (seqZ 0 4).

Definition prince_shiftrows (data : Z) (inv : bool) : res Z :=
  assert_fits 64 data;;
  let shifts := if inv then PRINCE_SHIFT_ROWS64_INV else PRINCE_SHIFT_ROWS64 in
  foldM (fun ret nibble_idx =>
    src_nibble_idx ← py_nth shifts nibble_idx;
    let src_nibble := (data ≫ (4 * src_nibble_idx)) .& 0xf in
    Ok (ret .| (src_nibble ≪ (4 * nibble_idx)))) 0 (seqZ 0 (64 / 4)).

Definition prince_fwd_round (rc key data : Z) : res Z :=
  assert_fits 64 rc;;
  assert_fits 64 key;;
  assert_fits 64 data;;
  data ← sbox data 64 PRINCE_SBOX4;
  data ← prince_mult_prime data;
  data ← prince_shiftrows data false;
  Ok (data .^ rc .^ key).

Definition prince_inv_round (rc key data : Z) : res Z :=
  assert_fits 64 rc;;
  assert_fits 64 key;;
  assert_fits 64 data;;
  let data := data .^ key .^ rc in
  data ← prince_shiftrows data true;
  data ← prince_mult_prime data;
  sbox data 64 PRINCE_SBOX4_INV.

Definition prince (data key num_rounds_half : Z) : res Z :=
  assert_fits 64 data;;
  assert_fits 128 key;;
  py_assert ((0 <=? num_rounds_half) && (num_rounds_half <=? 5));;
  let k1 := key .& ((1 ≪ 64) - 1) in
  let k0 := key ≫ 64 in
  let k0_rot1 := ((k0 .& 1) ≪ 63) .| (k0 ≫ 1) in
  let k0_prime := k0_rot1 .^ (k0 ≫ 63) in
  rc0 ← py_nth PRINCE_ROUND_CONSTS 0;
  let data := data .^ k0 .^ k1 .^ rc0 in
  data ← foldM (fun data hri =>
    let round_idx := 1 + hri in
    rc ← py_nth PRINCE_ROUND_CONSTS round_idx;
    let rk := if truthy (round_idx .& 1) then k0 else k1 in
    prince_fwd_round rc rk data) data (seqZ 0 num_rounds_half);
  data ← sbox data 64 PRINCE_SBOX4;
  data ← prince_mult_prime data;
  data ← sbox data 64 PRINCE_SBOX4_INV;
  data ← foldM (fun data hri =>
    let round_idx := 11 - num_rounds_half + hri in
    rc ← py_nth PRINCE_ROUND_CONSTS round_idx;
    let rk := if truthy (round_idx .& 1) then k1 else k0 in
    prince_inv_round rc rk data) data (seqZ 0 num_rounds_half);
  rc11 ← py_nth PRINCE_ROUND_CONSTS 11;
  Ok (data .^ rc11 .^ k1 .^ k0_prime).

(** ** The substitution layer *)

Lemma assert_fits_ok w v : 0 ≤ w → in_bits w v → assert_fits w v = Ok ().
Proof. intros Hw Hv. unfold assert_fits. by rewrite (proj2 (fits_spec w v Hw) Hv). Qed.

Definition sbox_layer (width : Z) (t : list Z) (data : Z) : Z :=
  or_loop (fun i => at_table t (limb 4 data i)) (fun i => 4 * i)
    (data .& (mask width .& ~. mask (4 * (width / 4)))) (seqZ 0 (width / 4)).

Lemma present_tables : inverse_tables 16 PRESENT_SBOX4 PRESENT_SBOX4_INV.
Proof. apply inverse_tablesb_sound. by vm_compute. Qed.
Lemma prince_tables : inverse_tables 16 PRINCE_SBOX4 PRINCE_SBOX4_INV.
Proof. apply inverse_tablesb_sound. by vm_compute. Qed.
Lemma shiftrows_tables : inverse_tables 16 PRINCE_SHIFT_ROWS64 PRINCE_SHIFT_ROWS64_INV.
Proof. apply inverse_tablesb_sound. by vm_compute. Qed.

Lemma limb4_lt x i : 0 ≤ limb 4 x i < 16.
Proof. apply (limb_bits 4 ltac:(lia)). Qed.

Section sbox.
Context (width : Z) (Hw : 0 ≤ width) (t t' : list Z) (Hinv : inverse_tables 16 t t').

Lemma sbox_eq data : in_bits width data → sbox data width t = Ok (sbox_layer width t data).
Proof.
  intros Hd. unfold sbox. zbool. cbn [py_assert mbind res_bind].
  rewrite assert_fits_ok by done. cbn [mbind res_bind]. apply foldM_Ok.
  intros acc i _. change 0xf with (mask 4). change (_ .& mask 4) with (limb 4 data i).
  by rewrite (nth_table 16 t t') by (done || apply limb4_lt).
Qed.

Lemma testbit_sbox data j :
  in_bits width data → 0 ≤ j →
  Z.testbit (sbox_layer width t data) j =
    if j <? 4 * (width / 4) then Z.testbit (at_table t (limb 4 data (j / 4))) (j `mod` 4)
    else Z.testbit data j.
Proof.
  intros Hd Hj. assert (0 ≤ width / 4) by (apply Z.div_pos; lia).
  unfold sbox_layer. rewrite testbit_or_limbs; [| lia | done |].
  2: { intros. apply (table_bits 16 t t'); [done | done | apply limb4_lt]. }
  autorewrite with testbit. destruct (Z.ltb_spec j (4 * (width / 4))); cbn [andb negb].
  - zbool. cbn. by rewrite !andb_false_r.
  - rewrite orb_false_r. zbool. destruct (Z.ltb_spec j width).
    + by rewrite !andb_true_r.
    + by rewrite (testbit_in_bits width data) by (done || lia).
Qed.

Lemma sbox_layer_bits data : in_bits width data → in_bits width (sbox_layer width t data).
Proof.
  intros Hd. apply in_bits_testbit; [done |]. pose proof (Z.mul_div_le width 4 ltac:(lia)).
  assert (Hj : ∀ j, width ≤ j → Z.testbit (sbox_layer width t data) j = false).
  { intros j Hj. rewrite testbit_sbox by (done || lia). zbool.
    apply (testbit_in_bits width); [done | lia]. }
  split; [| done]. apply Z.bits_iff_nonneg_ex. exists width. intros j Hlt. apply Hj. lia.
Qed.

Lemma limb_sbox data i :
  in_bits width data → 0 ≤ i < width / 4 →
  limb 4 (sbox_layer width t data) i = at_table t (limb 4 data i).
Proof.
  intros Hd Hi. apply Z_bits_eq. intros j Hj. rewrite testbit_limb by lia.
  destruct (Z.ltb_spec j 4); cbn [andb].
  - rewrite testbit_sbox by (done || lia). zbool.
    replace (j + 4 * i) with (j + i * 4) by lia.
    by rewrite Z.div_add, Z.mod_add, Z.div_small, Z.mod_small, Z.add_0_l by lia.
  - symmetry. apply (testbit_in_bits 4); [| lia].
    apply (table_bits 16 t t'); [done | done | apply limb4_lt].
Qed.
End sbox.

Lemma sbox_layer_inv width t t' data :
  0 ≤ width → inverse_tables 16 t t' → in_bits width data →
  sbox_layer width t' (sbox_layer width t data) = data.
Proof.
  intros Hw Hinv Hd. pose proof (inverse_tables_sym _ _ _ Hinv) as Hinv'.
  assert (Hs : in_bits width (sbox_layer width t data)) by (by eapply sbox_layer_bits).
  apply Z_bits_eq. intros j Hj. rewrite (testbit_sbox width Hw t' t) by done.
  destruct (Z.ltb_spec j (4 * (width / 4))) as [Hlt | Hge].
  - assert (0 ≤ j / 4 < width / 4) by (split; [apply Z.div_pos | apply Z.div_lt_upper_bound]; lia).
    rewrite (limb_sbox width Hw t t') by done.
    destruct Hinv as (_ & _ & Ht). destruct (Ht (limb 4 data (j / 4)) (limb4_lt _ _)) as (_ & _ & -> & _).
    pose proof (Z.mod_pos_bound j 4 ltac:(lia)). pose proof (Z.div_mod j 4 ltac:(lia)).
    rewrite testbit_limb by lia. zbool. f_equal. lia.
  - rewrite (testbit_sbox width Hw t t') by done. by zbool.
Qed.

(** ** Bit permutations *)

Lemma testbit_reverse width data j :
  0 ≤ j → Z.testbit (reverse_bits width data) j = (j <? width) && Z.testbit data (width - 1 - j).
Proof.
  intros Hj. unfold reverse_bits. change (fun i => (data ≫ i) .& 1) with (fun i => bit data i).
  destruct (Z.ltb_spec j width); cbn [andb].
  - rewrite (testbit_or_bits data (fun i => i) _ _ _ j (width - 1 - j)); [by rewrite Z.bits_0 | done | | | lia |].
    + intros i Hi%elem_of_seqZ. lia.
    + apply elem_of_seqZ. lia.
    + intros. lia.
  - rewrite (testbit_or_bits_none data (fun i => i)); [by rewrite Z.bits_0 | done |].
    intros i Hi%elem_of_seqZ. lia.
Qed.

Section butterfly.
Context (width : Z) (Hw : 0 ≤ width).

Lemma half_le : 2 * (width / 2) ≤ width ≤ 2 * (width / 2) + 1 ∧ 0 ≤ width / 2.
Proof. Z.to_euclidean_division_equations. lia. Qed.

Lemma testbit_top data j :
  in_bits width data → 0 ≤ j →
  Z.testbit (data .& (mask width .& ~. mask (2 * (width / 2)))) j =
    negb (j <? 2 * (width / 2)) && Z.testbit data j.
Proof.
  intros Hd Hj. pose proof half_le. autorewrite with testbit. zbool.
  destruct (Z.ltb_spec j width); cbn [andb].
  - apply andb_comm.
  - rewrite (testbit_in_bits width data) by (done || lia). by rewrite ?andb_false_l, ?andb_false_r.
Qed.

Lemma testbit_butterfly data j :
  in_bits width data → 0 ≤ j →
  Z.testbit (butterfly width data) j =
    if j <? width / 2 then Z.testbit data (2 * j)
    else if j <? 2 * (width / 2) then Z.testbit data (2 * (j - width / 2) + 1)
    else Z.testbit data j.
Proof.
  intros Hd Hj. pose proof half_le. unfold butterfly. rewrite or_loop_two.
  change (fun i => (data ≫ (2 * i)) .& 1) with (fun i => bit data (2 * i)).
  change (fun i => (data ≫ (2 * i + 1)) .& 1) with (fun i => bit data (2 * i + 1)).
  assert (Hin : ∀ i, i ∈ seqZ 0 (width / 2) → 0 ≤ i < width / 2) by (intros i Hi%elem_of_seqZ; lia).
  destruct (Z.ltb_spec j (width / 2)); [| destruct (Z.ltb_spec j (2 * (width / 2)))].
  - rewrite (testbit_or_bits_none data (fun i => 2 * i + 1)); [| done | intros i ?%Hin; lia].
    rewrite (testbit_or_bits data (fun i => 2 * i) (fun i => i) _ _ j j);
      [| done | intros i ?%Hin; lia | apply elem_of_seqZ; lia | done | done].
    rewrite testbit_top by done. by zbool.
  - rewrite (testbit_or_bits data (fun i => 2 * i + 1) (fun i => width / 2 + i) _ _ j (j - width / 2));
      [| done | intros i ?%Hin; lia | apply elem_of_seqZ; lia | lia | lia].
    rewrite (testbit_or_bits_none data (fun i => 2 * i)); [| done | intros i ?%Hin; lia].
    rewrite testbit_top by done. by zbool.
  - rewrite (testbit_or_bits_none data (fun i => 2 * i + 1)); [| done | intros i ?%Hin; lia].
    rewrite (testbit_or_bits_none data (fun i => 2 * i)); [| done | intros i ?%Hin; lia].
    rewrite testbit_top by done. by zbool.
Qed.

Lemma testbit_butterfly_inv data j :
  in_bits width data → 0 ≤ j →
  Z.testbit (butterfly_inv width data) j =
    if j <? 2 * (width / 2) then
      Z.testbit data (if j `mod` 2 =? 0 then j / 2 else j / 2 + width / 2)
    else Z.testbit data j.
Proof.
  intros Hd Hj. pose proof half_le. unfold butterfly_inv. rewrite or_loop_two.
  change (fun i => (data ≫ i) .& 1) with (fun i => bit data i).
  change (fun i => (data ≫ (i + width / 2)) .& 1) with (fun i => bit data (i + width / 2)).
  assert (Hin : ∀ i, i ∈ seqZ 0 (width / 2) → 0 ≤ i < width / 2) by (intros i Hi%elem_of_seqZ; lia).
  pose proof (Z.mod_pos_bound j 2 ltac:(lia)). pose proof (Z.div_mod j 2 ltac:(lia)).
  destruct (Z.ltb_spec j (2 * (width / 2))); [destruct (Z.eqb_spec (j `mod` 2) 0) |].
  - rewrite (testbit_or_bits_none data (fun i => i + width / 2)); [| done | intros i ?%Hin; lia].
    rewrite (testbit_or_bits data (fun i => i) (fun i => 2 * i) _ _ j (j / 2));
      [| done | intros i ?%Hin; lia | apply elem_of_seqZ; lia | lia | lia].
    rewrite testbit_top by done. by zbool.
  - rewrite (testbit_or_bits data (fun i => i + width / 2) (fun i => 2 * i + 1) _ _ j (j / 2));
      [| done | intros i ?%Hin; lia | apply elem_of_seqZ; lia | lia | lia].
    rewrite (testbit_or_bits_none data (fun i => i)); [| done | intros i ?%Hin; lia].
    rewrite testbit_top by done. by zbool.
  - rewrite (testbit_or_bits_none data (fun i => i + width / 2)); [| done | intros i ?%Hin; lia].
    rewrite (testbit_or_bits_none data (fun i => i)); [| done | intros i ?%Hin; lia].
    rewrite testbit_top by done. by zbool.
Qed.
End butterfly.

(** ** The network *)

Definition scatter (width data : Z) : Z := butterfly width (reverse_bits width data).
Definition gather (width data : Z) : Z := reverse_bits width (butterfly_inv width data).

(** An integer without bits at or above [width], given bit by bit. *)
Lemma in_bits_high width v :
  0 ≤ width → (∀ j, width ≤ j → Z.testbit v j = false) → in_bits width v.
Proof.
  intros Hw H. apply in_bits_testbit; [done |]. split; [| done].
  apply Z.bits_iff_nonneg_ex. exists width. intros j Hj. apply H. lia.
Qed.

Section network.
Context (width : Z) (Hw : 0 ≤ width).

Lemma reverse_in_bits data : in_bits width (reverse_bits width data).
Proof. apply in_bits_high; [done |]. intros j Hj. rewrite testbit_reverse by lia. by zbool. Qed.

Lemma reverse_reverse data :
  in_bits width data → reverse_bits width (reverse_bits width data) = data.
Proof.
  intros Hd. apply Z_bits_eq. intros j Hj. rewrite testbit_reverse by done.
  destruct (Z.ltb_spec j width); cbn [andb].
  - rewrite testbit_reverse by lia. zbool. f_equal. lia.
  - symmetry. apply (testbit_in_bits width); [done | lia].
Qed.

Lemma butterfly_in_bits data : in_bits width data → in_bits width (butterfly width data).
Proof.
  intros Hd. apply in_bits_high; [done |]. intros j Hj. pose proof (half_le width).
  rewrite testbit_butterfly by (done || lia). zbool. apply (testbit_in_bits width); [done | lia].
Qed.

Lemma butterfly_inv_in_bits data : in_bits width data → in_bits width (butterfly_inv width data).
Proof.
  intros Hd. apply in_bits_high; [done |]. intros j Hj. pose proof (half_le width).
  rewrite testbit_butterfly_inv by (done || lia). zbool. apply (testbit_in_bits width); [done | lia].
Qed.

Lemma butterfly_inv_butterfly data :
  in_bits width data → butterfly_inv width (butterfly width data) = data.
Proof.
  intros Hd. pose proof (half_le width Hw). apply Z_bits_eq. intros j Hj.
  rewrite testbit_butterfly_inv by (done || by apply butterfly_in_bits).
  pose proof (Z.mod_pos_bound j 2 ltac:(lia)). pose proof (Z.div_mod j 2 ltac:(lia)).
  destruct (Z.ltb_spec j (2 * (width / 2))); [destruct (Z.eqb_spec (j `mod` 2) 0) |];
    rewrite testbit_butterfly by (done || lia); zbool; f_equal; lia.
Qed.

Lemma butterfly_butterfly_inv data :
  in_bits width data → butterfly width (butterfly_inv width data) = data.
Proof.
  intros Hd. pose proof (half_le width Hw). apply Z_bits_eq. intros j Hj.
  rewrite testbit_butterfly by (done || by apply butterfly_inv_in_bits).
  destruct (Z.ltb_spec j (width / 2)); [| destruct (Z.ltb_spec j (2 * (width / 2)))];
    rewrite testbit_butterfly_inv by (done || lia); zbool; [| | done].
  - replace (2 * j) with (0 + j * 2) by lia. rewrite Z.mod_add, Z.div_add by lia.
    cbn. f_equal.
  - replace (2 * (j - width / 2) + 1) with (1 + (j - width / 2) * 2) by lia.
    rewrite Z.mod_add, Z.div_add, (Z.div_small 1 2), (Z.mod_small 1 2) by lia. zbool. f_equal. lia.
Qed.

Lemma gather_scatter data : in_bits width data → gather width (scatter width data) = data.
Proof.
  intros. unfold gather, scatter. rewrite butterfly_inv_butterfly by apply reverse_in_bits.
  by apply reverse_reverse.
Qed.

Lemma scatter_gather data : in_bits width data → scatter width (gather width data) = data.
Proof.
  intros. unfold gather, scatter. rewrite reverse_reverse by (by apply butterfly_inv_in_bits).
  by apply butterfly_butterfly_inv.
Qed.

Lemma scatter_bits data : in_bits width (scatter width data).
Proof. apply butterfly_in_bits, reverse_in_bits. Qed.
Lemma gather_bits data : in_bits width (gather width data).
Proof. apply reverse_in_bits. Qed.

Context (key : Z) (Hkey : in_bits width key).

Definition sp_round (data : Z) : Z := scatter width (sbox_layer width PRESENT_SBOX4 (data .^ key)).
Definition sp_round_inv (data : Z) : Z :=
  sbox_layer width PRESENT_SBOX4_INV (gather width (data .^ key)).

Lemma lxor_twice a b : (a .^ b) .^ b = a.
Proof. by rewrite Z.lxor_assoc, Z.lxor_nilpotent, Z.lxor_0_r. Qed.

Lemma sp_round_undo data : in_bits width data → sp_round_inv (sp_round data .^ key) = data .^ key.
Proof.
  intros Hd. assert (in_bits width (data .^ key)) by (by apply in_bits_lxor).
  unfold sp_round, sp_round_inv. rewrite lxor_twice, gather_scatter.
  - by apply (sbox_layer_inv _ _ _ _ Hw present_tables).
  - by apply (sbox_layer_bits _ Hw _ _ present_tables).
Qed.

Lemma sp_round_redo data : in_bits width data → sp_round (sp_round_inv data .^ key) = data .^ key.
Proof.
  intros Hd. unfold sp_round, sp_round_inv. rewrite lxor_twice.
  rewrite (sbox_layer_inv _ _ _ _ Hw (inverse_tables_sym _ _ _ present_tables)) by apply gather_bits.
  apply scatter_gather. by apply in_bits_lxor.
Qed.

Lemma sp_round_bits data : in_bits width (sp_round data).
Proof. apply scatter_bits. Qed.
Lemma sp_round_inv_bits data : in_bits width (sp_round_inv data).
Proof.
  apply (sbox_layer_bits _ Hw _ _ (inverse_tables_sym _ _ _ present_tables)), gather_bits.
Qed.

Lemma iter_bits f (n : nat) data :
  (∀ x, in_bits width (f x)) → in_bits width data → in_bits width (Nat.iter n f data).
Proof. intros Hf Hd. destruct n; [done | apply Hf]. Qed.

Lemma foldl_iter {A} (f : Z → Z) x (l : list A) :
  foldl (fun d _ => f d) x l = Nat.iter (length l) f x.
Proof.
  revert x. induction l as [| a l IH]; intros x; [done |]. cbn [foldl length].
  by rewrite IH, <- Nat.iter_succ_r.
Qed.

Lemma foldM_iter (f : Z → Z → res Z) (g : Z → Z) n data :
  (∀ x i, in_bits width x → f x i = Ok (g x)) → (∀ x, in_bits width (g x)) →
  in_bits width data → foldM f data (seqZ 0 n) = Ok (Nat.iter (Z.to_nat n) g data).
Proof.
  intros Hf Hg Hd.
  destruct (foldM_Ok_inv (in_bits width) f (fun d _ => g d) data (seqZ 0 n) Hd) as [E _].
  - intros x i _ Hx. by rewrite Hf.
  - by rewrite E, foldl_iter, length_seqZ.
Qed.

Lemma subst_perm_enc_eq data num_rounds :
  in_bits width data →
  subst_perm_enc data key width num_rounds =
    Ok (Nat.iter (Z.to_nat num_rounds) sp_round data .^ key).
Proof.
  intros Hd. unfold subst_perm_enc. zbool. cbn [py_assert mbind res_bind].
  rewrite !assert_fits_ok by done. cbn [mbind res_bind].
  rewrite (foldM_iter _ sp_round); [done | | apply sp_round_bits | done].
  intros x i Hx. by rewrite (sbox_eq _ Hw _ _ present_tables) by (by apply in_bits_lxor).
Qed.

Lemma subst_perm_dec_eq data num_rounds :
  in_bits width data →
  subst_perm_dec data key width num_rounds =
    Ok (Nat.iter (Z.to_nat num_rounds) sp_round_inv data .^ key).
Proof.
  intros Hd. unfold subst_perm_dec. zbool. cbn [py_assert mbind res_bind].
  rewrite !assert_fits_ok by done. cbn [mbind res_bind].
  rewrite (foldM_iter _ sp_round_inv); [done | | apply sp_round_inv_bits | done].
  intros x i Hx. apply (sbox_eq _ Hw _ _ (inverse_tables_sym _ _ _ present_tables)), gather_bits.
Qed.

Lemma sp_iter_undo (n : nat) data :
  in_bits width data →
  Nat.iter n sp_round_inv (Nat.iter n sp_round data .^ key) = data .^ key.
Proof.
  intros Hd. induction n as [| n IH]; [done |].
  rewrite Nat.iter_succ_r, (Nat.iter_succ _ sp_round), sp_round_undo; [done |].
  by apply iter_bits; [apply sp_round_bits |].
Qed.

Lemma sp_iter_redo (n : nat) data :
  in_bits width data →
  Nat.iter n sp_round (Nat.iter n sp_round_inv data .^ key) = data .^ key.
Proof.
  intros Hd. induction n as [| n IH]; [done |].
  rewrite Nat.iter_succ_r, (Nat.iter_succ _ sp_round_inv), sp_round_redo; [done |].
  by apply iter_bits; [apply sp_round_inv_bits |].
Qed.

(** Decryption undoes encryption and the other way round. *)
Lemma subst_perm_dec_enc data n :
  in_bits width data →
  ∃ c, subst_perm_enc data key width n = Ok c ∧ in_bits width c ∧
    subst_perm_dec c key width n = Ok data.
Proof.
  intros Hd. rewrite subst_perm_enc_eq by done. eexists. split; [done |].
  assert (in_bits width (Nat.iter (Z.to_nat n) sp_round data .^ key)).
  { apply in_bits_lxor; [done | | done]. by apply iter_bits; [apply sp_round_bits |]. }
  split; [done |]. by rewrite subst_perm_dec_eq, sp_iter_undo, lxor_twice.
Qed.

Lemma subst_perm_enc_dec data n :
  in_bits width data →
  ∃ c, subst_perm_dec data key width n = Ok c ∧ in_bits width c ∧
    subst_perm_enc c key width n = Ok data.
Proof.
  intros Hd. rewrite subst_perm_dec_eq by done. eexists. split; [done |].
  assert (in_bits width (Nat.iter (Z.to_nat n) sp_round_inv data .^ key)).
  { apply in_bits_lxor; [done | | done]. by apply iter_bits; [apply sp_round_inv_bits |]. }
  split; [done |]. by rewrite subst_perm_enc_eq, sp_iter_redo, lxor_twice.
Qed.
End network.

(** ** The layers of PRINCE *)

Lemma or_loop_shift val dst s acc l :
  0 ≤ s → (∀ i, i ∈ l → 0 ≤ dst i) →
  or_loop val (fun i => s + dst i) acc l = acc .| (or_loop val dst 0 l ≪ s).
Proof.
  intros Hs Hd. apply Z_bits_eq. intros j Hj.
  rewrite testbit_or_loop, Z.lor_spec, testbit_shiftl by done. f_equal.
  destruct (Z.ltb_spec j s).
  - rewrite (testbit_neg _ (j - s)) by lia. apply existsb_none. intros i Hi.
    apply testbit_neg. pose proof (Hd i Hi). lia.
  - rewrite testbit_or_loop, Z.bits_0 by lia. cbn [orb]. clear Hd. induction l as [| i l IH]; [done |].
    cbn [existsb]. rewrite IH. do 2 f_equal. lia.
Qed.

(** The constant of an output nibble, and the sum of the masked nibbles. *)
Definition sr_const (start nibble_idx : Z) : Z :=
  at_table PRINCE_SHIFT_ROWS_CONSTS ((start + 3 - nibble_idx) `mod` 4).
Definition fold16 (x : Z) : Z :=
  limb 4 x 0 .^ limb 4 x 1 .^ limb 4 x 2 .^ limb 4 x 3.
Definition mix_block (start x : Z) : Z :=
  limbs_join 4 ((fun n => fold16 (x .& sr_const start n)) <$> seqZ 0 4).
Definition block_start (b : Z) : Z := if (b =? 0) || (b =? 3) then 0 else 1.
Definition mult_layer (data : Z) : Z :=
  limbs_join 16 ((fun b => mix_block (block_start b) (limb 16 data b)) <$> seqZ 0 4).
Definition shift_layer (shifts : list Z) (data : Z) : Z :=
  limbs_join 4 ((fun i => limb 4 data (at_table shifts i)) <$> seqZ 0 16).

Lemma fold16_bits x : in_bits 4 (fold16 x).
Proof. unfold fold16. repeat (apply in_bits_lxor; [lia | | apply limb_bits; lia]). apply limb_bits. lia. Qed.

Lemma sr_const_bits start n : in_bits 16 (sr_const start n).
Proof.
  unfold sr_const. pose proof (Z.mod_pos_bound (start + 3 - n) 4 ltac:(lia)).
  set (k := _ `mod` 4) in *. clearbody k.
  assert (k = 0 ∨ k = 1 ∨ k = 2 ∨ k = 3) as [-> | [-> | [-> | ->]]] by lia; by vm_compute.
Qed.

Lemma nth_sr_const start n :
  py_nth PRINCE_SHIFT_ROWS_CONSTS ((start + 3 - n) `mod` 4) = Ok (sr_const start n).
Proof.
  unfold sr_const. pose proof (Z.mod_pos_bound (start + 3 - n) 4 ltac:(lia)).
  set (k := _ `mod` 4) in *. clearbody k.
  assert (k = 0 ∨ k = 1 ∨ k = 2 ∨ k = 3) as [-> | [-> | [-> | ->]]] by lia; by vm_compute.
Qed.

Lemma red16_eq x : in_bits 16 x → prince_nibble_red16 x = Ok (fold16 x).
Proof. intros Hx. unfold prince_nibble_red16. by rewrite assert_fits_ok by (done || lia). Qed.

Lemma mix_block_bits start x : in_bits 16 (mix_block start x).
Proof.
  apply (limbs_join_bits 4 ltac:(lia) _ 4); [| done].
  apply Forall_fmap, Forall_true. intros. apply fold16_bits.
Qed.

Lemma mult_block_eq b x start acc :
  0 ≤ b → in_bits 16 x →
  foldM (mult_nibble b x start) acc (seqZ 0 4) = Ok (acc .| (mix_block start x ≪ (16 * b))).
Proof.
  intros Hb Hx. unfold mix_block. rewrite <- or_loop_join by (lia || (intros; apply fold16_bits)).
  rewrite <- or_loop_shift; [| lia | intros i Hi%elem_of_seqZ; lia].
  apply foldM_Ok. intros acc' i _. unfold mult_nibble. rewrite nth_sr_const. cbn [mbind res_bind].
  rewrite red16_eq; [done |]. by apply in_bits_land_l.
Qed.

Lemma prince_mult_prime_eq data : in_bits 64 data → prince_mult_prime data = Ok (mult_layer data).
Proof.
  intros Hd. unfold prince_mult_prime. rewrite assert_fits_ok by (done || lia). cbn [mbind res_bind].
  unfold mult_layer. rewrite <- or_loop_join by (lia || (intros; apply mix_block_bits)).
  apply foldM_Ok. intros acc b Hb%elem_of_seqZ.
  apply mult_block_eq; [lia |]. apply (in_bits_mask _ 16). lia.
Qed.

Lemma mult_layer_Forall data :
  Forall (in_bits 16) ((fun b => mix_block (block_start b) (limb 16 data b)) <$> seqZ 0 4).
Proof.
  apply Forall_fmap, Forall_true. intros b.
  exact (mix_block_bits (block_start b) (limb 16 data b)).
Qed.

Lemma mult_layer_bits data : in_bits 64 (mult_layer data).
Proof. apply (limbs_join_bits 16 ltac:(lia) _ 4); [apply mult_layer_Forall | done]. Qed.

Lemma limb_mult_layer data b :
  0 ≤ b < 4 → limb 16 (mult_layer data) b = mix_block (block_start b) (limb 16 data b).
Proof.
  intros Hb. apply Some_inj. unfold mult_layer.
  rewrite (limb_join 16 ltac:(lia)); [| apply mult_layer_Forall | done].
  rewrite list_lookup_fmap, lookup_seqZ_lt by lia. cbn [fmap option_fmap option_map].
  by rewrite Z.add_0_l, Z2Nat.id by lia.
Qed.

(** A block as a function from its bits to its bits: each output bit is the sum of the bits
    at the same place of three of the four nibbles. *)
Definition mix_bits (start : Z) (f : Z → bool) (j : Z) : bool :=
  let c := sr_const start (j / 4) in
  let b := j `mod` 4 in
  let part k := f (b + 4 * k) && Z.testbit c (b + 4 * k) in
  xorb (xorb (xorb (part 0) (part 1)) (part 2)) (part 3).

Lemma testbit_mix_block start x j :
  0 ≤ j < 16 → Z.testbit (mix_block start x) j = mix_bits start (Z.testbit x) j.
Proof.
  intros Hj. pose proof (Z.mod_pos_bound j 4 ltac:(lia)).
  assert (0 ≤ j / 4 < 4) by (split; [apply Z.div_pos | apply Z.div_lt_upper_bound]; lia).
  unfold mix_block.
  rewrite testbit_limbs_join; [| lia | apply Forall_fmap, Forall_true; intros; apply fold16_bits | lia].
  rewrite list_lookup_fmap, lookup_seqZ_lt by lia. cbn [fmap option_fmap option_map from_option].
  rewrite Z.add_0_l, Z2Nat.id by lia. unfold fold16, mix_bits.
  rewrite !Z.lxor_spec, !testbit_limb by lia. zbool. by rewrite !Z.land_spec.
Qed.

Lemma mix_bits_ext start f g j :
  0 ≤ j < 16 → (∀ i, 0 ≤ i < 16 → f i = g i) → mix_bits start f j = mix_bits start g j.
Proof.
  intros Hj H. pose proof (Z.mod_pos_bound j 4 ltac:(lia)). unfold mix_bits. by rewrite !H by lia.
Qed.

Lemma mix_bits_twice start f j :
  start = 0 ∨ start = 1 → 0 ≤ j < 16 → mix_bits start (mix_bits start f) j = f j.
Proof.
  intros Hs Hj. assert (Hin : j ∈ seqZ 0 16) by (apply elem_of_seqZ; lia).
  change (seqZ 0 16) with [0; 1; 2; 3; 4; 5; 6; 7; 8; 9; 10; 11; 12; 13; 14; 15] in Hin.
  rewrite !elem_of_cons, elem_of_nil in Hin.
  destruct Hs as [-> | ->]; destruct_or! Hin; subst; try done; vm_compute;
    repeat match goal with |- context [f ?k] => destruct (f k) end; done.
Qed.

Lemma mix_block_twice start x :
  start = 0 ∨ start = 1 → in_bits 16 x → mix_block start (mix_block start x) = x.
Proof.
  intros Hs Hx. apply Z_bits_eq. intros j Hj. destruct (Z.ltb_spec j 16).
  - rewrite testbit_mix_block by lia.
    rewrite (mix_bits_ext _ _ (mix_bits start (Z.testbit x))); [by apply mix_bits_twice | lia |].
    intros i Hi. by apply testbit_mix_block.
  - by rewrite !(testbit_in_bits 16) by (done || apply mix_block_bits || lia).
Qed.

(** M' is an involution. *)
Lemma mult_layer_twice data : in_bits 64 data → mult_layer (mult_layer data) = data.
Proof.
  intros Hd. apply (limbs_ext 16 ltac:(lia) 4); [lia | apply mult_layer_bits | done |].
  intros b Hb. rewrite !limb_mult_layer by done. apply mix_block_twice.
  - unfold block_start. destruct ((b =? 0) || (b =? 3)); [by left | by right].
  - apply limb_bits. lia.
Qed.

Section shiftrows.
Context (t t' : list Z) (Hinv : inverse_tables 16 t t').

Lemma shift_layer_Forall data : Forall (in_bits 4) ((fun i => limb 4 data (at_table t i)) <$> seqZ 0 16).
Proof. apply Forall_fmap, Forall_true. intros. apply limb_bits. lia. Qed.

Lemma shift_layer_bits data : in_bits 64 (shift_layer t data).
Proof. apply (limbs_join_bits 4 ltac:(lia) _ 16); [apply shift_layer_Forall | done]. Qed.

Lemma limb_shift_layer data i :
  0 ≤ i < 16 → limb 4 (shift_layer t data) i = limb 4 data (at_table t i).
Proof.
  intros Hi. apply Some_inj. unfold shift_layer.
  rewrite (limb_join 4 ltac:(lia)); [| apply shift_layer_Forall | done].
  rewrite list_lookup_fmap, lookup_seqZ_lt by lia. cbn [fmap option_fmap option_map].
  by rewrite Z.add_0_l, Z2Nat.id by lia.
Qed.

Lemma shift_layer_inv data : in_bits 64 data → shift_layer t' (shift_layer t data) = data.
Proof.
  intros Hd. apply (limbs_ext 4 ltac:(lia) 16); [lia | | done |].
  - apply (limbs_join_bits 4 ltac:(lia) _ 16); [| done].
    apply Forall_fmap, Forall_true. intros. apply limb_bits. lia.
  - intros i Hi. destruct Hinv as (_ & _ & H). destruct (H i Hi) as (_ & ? & _ & E).
    unfold shift_layer at 1. apply Some_inj.
    rewrite (limb_join 4 ltac:(lia)); [| apply Forall_fmap, Forall_true; intros; apply limb_bits; lia | done].
    rewrite list_lookup_fmap, lookup_seqZ_lt by lia. cbn [fmap option_fmap option_map].
    by rewrite Z.add_0_l, Z2Nat.id, limb_shift_layer, E by lia.
Qed.

Lemma shiftrows_loop data :
  foldM (fun ret nibble_idx =>
    src_nibble_idx ← py_nth t nibble_idx;
    let src_nibble := (data ≫ (4 * src_nibble_idx)) .& 0xf in
    Ok (ret .| (src_nibble ≪ (4 * nibble_idx)))) 0 (seqZ 0 (64 / 4)) = Ok (shift_layer t data).
Proof.
  change (64 / 4) with 16. unfold shift_layer.
  rewrite <- or_loop_join by (lia || (intros; apply limb_bits; lia)).
  apply foldM_Ok. intros acc i Hi%elem_of_seqZ. by rewrite (nth_table 16 t t') by (done || lia).
Qed.
End shiftrows.

Lemma prince_shiftrows_eq data inv :
  in_bits 64 data →
  prince_shiftrows data inv =
    Ok (shift_layer (if inv then PRINCE_SHIFT_ROWS64_INV else PRINCE_SHIFT_ROWS64) data).
Proof.
  intros Hd. unfold prince_shiftrows. rewrite assert_fits_ok by (done || lia). cbn [mbind res_bind].
  destruct inv.
  - apply (shiftrows_loop _ _ (inverse_tables_sym _ _ _ shiftrows_tables)).
  - apply (shiftrows_loop _ _ shiftrows_tables).
Qed.

(** ** Rounds *)

Definition fwd_round (rc key data : Z) : Z :=
  shift_layer PRINCE_SHIFT_ROWS64 (mult_layer (sbox_layer 64 PRINCE_SBOX4 data)) .^ rc .^ key.
Definition inv_round (rc key data : Z) : Z :=
  sbox_layer 64 PRINCE_SBOX4_INV
    (mult_layer (shift_layer PRINCE_SHIFT_ROWS64_INV (data .^ key .^ rc))).

Lemma prince_sbox_bits data : in_bits 64 data → in_bits 64 (sbox_layer 64 PRINCE_SBOX4 data).
Proof. by apply (sbox_layer_bits 64 ltac:(lia) _ _ prince_tables). Qed.
Lemma prince_sbox_inv_bits data : in_bits 64 data → in_bits 64 (sbox_layer 64 PRINCE_SBOX4_INV data).
Proof. by apply (sbox_layer_bits 64 ltac:(lia) _ _ (inverse_tables_sym _ _ _ prince_tables)). Qed.

#[local] Opaque sbox_layer mult_layer shift_layer.

Section rounds.
Context (rc key : Z) (Hrc : in_bits 64 rc) (Hkey : in_bits 64 key).

Lemma prince_fwd_round_eq data :
  in_bits 64 data → prince_fwd_round rc key data = Ok (fwd_round rc key data).
Proof.
  intros Hd. unfold prince_fwd_round, fwd_round.
  rewrite !assert_fits_ok, !res_bind_Ok by (done || lia).
  rewrite (sbox_eq 64 ltac:(lia) _ _ prince_tables), res_bind_Ok by done.
  rewrite prince_mult_prime_eq, res_bind_Ok by (by apply prince_sbox_bits).
  rewrite prince_shiftrows_eq, res_bind_Ok by apply mult_layer_bits. reflexivity.
Qed.

Lemma prince_inv_round_eq data :
  in_bits 64 data → prince_inv_round rc key data = Ok (inv_round rc key data).
Proof.
  intros Hd. unfold prince_inv_round, inv_round.
  rewrite !assert_fits_ok, !res_bind_Ok by (done || lia).
  rewrite prince_shiftrows_eq, res_bind_Ok by (repeat (apply in_bits_lxor; [lia | | done]); done).
  rewrite prince_mult_prime_eq, res_bind_Ok by apply shift_layer_bits.
  apply (sbox_eq 64 ltac:(lia) _ _ (inverse_tables_sym _ _ _ prince_tables)), mult_layer_bits.
Qed.

Lemma fwd_round_bits data : in_bits 64 (fwd_round rc key data).
Proof. unfold fwd_round. repeat (apply in_bits_lxor; [lia | | done]). apply shift_layer_bits. Qed.

Lemma inv_round_bits data : in_bits 64 (inv_round rc key data).
Proof. apply prince_sbox_inv_bits, mult_layer_bits. Qed.

Lemma inv_fwd_round data : in_bits 64 data → inv_round rc key (fwd_round rc key data) = data.
Proof.
  intros Hd. unfold inv_round, fwd_round. rewrite !lxor_twice.
  rewrite (shift_layer_inv _ _ shiftrows_tables) by apply mult_layer_bits.
  rewrite mult_layer_twice by (by apply prince_sbox_bits).
  by apply (sbox_layer_inv 64 _ _ _ ltac:(lia) prince_tables).
Qed.

Lemma fwd_inv_round data : in_bits 64 data → fwd_round rc key (inv_round rc key data) = data.
Proof.
  intros Hd. unfold inv_round, fwd_round.
  rewrite (sbox_layer_inv 64 _ _ _ ltac:(lia) (inverse_tables_sym _ _ _ prince_tables))
    by apply mult_layer_bits.
  rewrite mult_layer_twice by apply shift_layer_bits.
  rewrite (shift_layer_inv _ _ (inverse_tables_sym _ _ _ shiftrows_tables)); [by rewrite !lxor_twice |].
  repeat (apply in_bits_lxor; [lia | | done]). done.
Qed.
End rounds.

(** ** Permutations of the 64-bit words *)

(** [f] returns a 64-bit word on every 64-bit word, a different one on different words. *)
Record perm64 (f : Z → res Z) : Prop := {
  perm_total x : in_bits 64 x → ∃ y, f x = Ok y ∧ in_bits 64 y;
  perm_inj x x' y : in_bits 64 x → in_bits 64 x' → f x = Ok y → f x' = Ok y → x = x';
}.

Lemma perm64_ret : perm64 Ok.
Proof. split; [eauto | congruence]. Qed.

Lemma perm64_ext f g : (∀ x, in_bits 64 x → f x = g x) → perm64 g → perm64 f.
Proof.
  intros E [Ht Hi]. split.
  - intros x Hx. rewrite E by done. auto.
  - intros x x' y Hx Hx'. rewrite !E by done. eauto.
Qed.

Lemma perm64_bind f g : perm64 f → perm64 g → perm64 (fun x => y ← f x; g y).
Proof.
  intros [Hft Hfi] [Hgt Hgi]. split.
  - intros x Hx. destruct (Hft x Hx) as (y & -> & Hy). by apply Hgt.
  - intros x x' z Hx Hx'. destruct (Hft x Hx) as (y & E & Hy), (Hft x' Hx') as (y' & E' & Hy').
    rewrite E, E'. cbn [mbind res_bind]. intros Hz Hz'.
    apply (Hfi _ _ y Hx Hx' E). by rewrite (Hgi _ _ z Hy Hy' Hz Hz').
Qed.

Lemma perm64_foldM {A} (f : Z → A → res Z) l :
  (∀ i, i ∈ l → perm64 (fun x => f x i)) → perm64 (fun x => foldM f x l).
Proof.
  induction l as [| i l IH]; intros H; cbn [foldM]; [apply perm64_ret |].
  apply (perm64_bind (fun x => f x i)); [apply H; by left |]. apply IH. intros; apply H; by right.
Qed.

(** A function with an inverse. *)
Lemma perm64_inverse f g g' :
  (∀ x, in_bits 64 x → f x = Ok (g x)) → (∀ x, in_bits 64 x → in_bits 64 (g x)) →
  (∀ x, in_bits 64 x → g' (g x) = x) → perm64 f.
Proof.
  intros Hf Hg Hinv. split.
  - intros x Hx. exists (g x). auto.
  - intros x x' y Hx Hx'. rewrite !Hf by done. intros [= <-] [= E].
    by rewrite <- (Hinv x Hx), <- (Hinv x' Hx'), E.
Qed.

Lemma perm64_xor k : in_bits 64 k → perm64 (fun x => Ok (x .^ k)).
Proof.
  intros Hk. apply (perm64_inverse _ (fun x => x .^ k) (fun x => x .^ k)); [done | |].
  - intros x Hx. by apply in_bits_lxor.
  - intros x _. apply lxor_twice.
Qed.

Lemma perm64_fwd rc key : in_bits 64 rc → in_bits 64 key → perm64 (prince_fwd_round rc key).
Proof.
  intros Hrc Hk. apply (perm64_inverse _ (fwd_round rc key) (inv_round rc key)).
  - intros x Hx. by apply prince_fwd_round_eq.
  - intros x _. by apply fwd_round_bits.
  - intros x Hx. by apply inv_fwd_round.
Qed.

Lemma perm64_inv rc key : in_bits 64 rc → in_bits 64 key → perm64 (prince_inv_round rc key).
Proof.
  intros Hrc Hk. apply (perm64_inverse _ (inv_round rc key) (fwd_round rc key)).
  - intros x Hx. by apply prince_inv_round_eq.
  - intros x _. by apply inv_round_bits.
  - intros x Hx. by apply fwd_inv_round.
Qed.

Lemma perm64_sbox t t' : inverse_tables 16 t t' → perm64 (fun x => sbox x 64 t).
Proof.
  intros Hinv. apply (perm64_inverse _ (sbox_layer 64 t) (sbox_layer 64 t')).
  - intros x Hx. by apply (sbox_eq 64 ltac:(lia) _ t').
  - intros x Hx. by apply (sbox_layer_bits 64 ltac:(lia) _ t').
  - intros x Hx. by apply (sbox_layer_inv 64 _ _ _ ltac:(lia) Hinv).
Qed.

Lemma perm64_mult : perm64 prince_mult_prime.
Proof.
  apply (perm64_inverse _ mult_layer mult_layer).
  - intros x Hx. by apply prince_mult_prime_eq.
  - intros x _. apply mult_layer_bits.
  - intros x Hx. by apply mult_layer_twice.
Qed.

Lemma round_const i :
  0 ≤ i < 12 → ∃ rc, py_nth PRINCE_ROUND_CONSTS i = Ok rc ∧ in_bits 64 rc.
Proof.
  intros Hi. destruct (lookup_lt_is_Some_2 PRINCE_ROUND_CONSTS (Z.to_nat i)) as [rc E]; [cbn; lia |].
  exists rc. split; [apply py_nth_pos; [lia | done] |].
  assert (Hf : Forall (in_bits 64) PRINCE_ROUND_CONSTS) by (apply (bool_decide_unpack _); by vm_compute).
  by apply (Forall_lookup_1 _ _ _ _ Hf E).
Qed.

(** For every key and number of rounds, PRINCE permutes the 64-bit words. *)
Lemma prince_perm key n :
  in_bits 128 key → 0 ≤ n ≤ 5 → perm64 (fun data => prince data key n).
Proof.
  intros Hkey Hn.
  set (k1 := key .& ((1 ≪ 64) - 1)). set (k0 := key ≫ 64).
  set (k0p := (((k0 .& 1) ≪ 63) .| (k0 ≫ 1)) .^ (k0 ≫ 63)).
  assert (Hk1 : in_bits 64 k1) by (apply (in_bits_mask _ 64); lia).
  assert (Hk0 : in_bits 64 k0).
  { destruct Hkey as [H0 H1]. unfold k0. rewrite Z.shiftr_div_pow2 by lia.
    split; [apply Z.div_pos; lia | apply Z.div_lt_upper_bound; lia]. }
  assert (Hk0p : in_bits 64 k0p).
  { apply in_bits_lxor; [lia | | by apply in_bits_shiftr; [lia | lia |]].
    apply in_bits_lor; [lia | | by apply in_bits_shiftr; [lia | lia |]].
    apply (in_bits_shiftl 1 63); [lia | lia |]. apply (in_bits_mask _ 1). lia. }
  destruct (round_const 0 ltac:(lia)) as (rc0 & E0 & Hrc0).
  destruct (round_const 11 ltac:(lia)) as (rc11 & E11 & Hrc11).
  eapply perm64_ext.
  { intros x Hx. unfold prince. rewrite !assert_fits_ok by (done || lia). zbool.
    cbn [py_assert mbind res_bind andb]. rewrite E0. cbn [mbind res_bind].
    fold k1 k0 k0p. reflexivity. }
  apply (perm64_bind (fun x => foldM _ (x .^ k0 .^ k1 .^ rc0) _)).
  { apply (perm64_bind (fun x => Ok (x .^ k0 .^ k1 .^ rc0)) (fun y => foldM _ y (seqZ 0 n))).
    - apply (perm64_bind (fun x => Ok (x .^ k0 .^ k1)) (fun x => Ok (x .^ rc0))); [| by apply perm64_xor].
      by apply (perm64_bind (fun x => Ok (x .^ k0)) (fun x => Ok (x .^ k1))); apply perm64_xor.
    - apply perm64_foldM. intros i Hi%elem_of_seqZ. cbv zeta.
      destruct (round_const (1 + i) ltac:(lia)) as (rc & -> & Hrc). cbn [mbind res_bind].
      apply perm64_fwd; [done | by destruct (truthy _)]. }
  apply perm64_bind; [by apply (perm64_sbox _ _ prince_tables) |].
  apply perm64_bind; [apply perm64_mult |].
  apply perm64_bind; [by apply (perm64_sbox _ _ (inverse_tables_sym _ _ _ prince_tables)) |].
  apply perm64_bind.
  { apply perm64_foldM. intros i Hi%elem_of_seqZ. cbv zeta.
    destruct (round_const (11 - n + i) ltac:(lia)) as (rc & -> & Hrc). cbn [mbind res_bind].
    apply perm64_inv; [done | by destruct (truthy _)]. }
  rewrite E11. cbn [mbind res_bind].
  apply (perm64_bind (fun x => Ok (x .^ rc11 .^ k1)) (fun x => Ok (x .^ k0p))); [| by apply perm64_xor].
  by apply (perm64_bind (fun x => Ok (x .^ rc11)) (fun x => Ok (x .^ k1))); apply perm64_xor.
Qed.
