(* ===== verification/Secded.v ===== *)
(** The generator of SECDED codes (util/design/secded_gen.py): the Hsiao and Hamming
    parity matrices and the bit masks that the generated encoders and decoders use.
    Writing the SystemVerilog and C files is not modelled. *)

From stdpp Require Import sorting.
From S2P Require Import Prelude BitLoops PyList.

(** A row of the parity matrix: the positions of its ones. *)
Notation code := (list Z) (only parsing).

Definition _RND_SEED : Z := 123.

(** [itertools.combinations(l, r)] *)
Fixpoint combinations (r : nat) (l : list Z) : list code :=
  match r, l with
  | O, _ => [[]]
  | S _, [] => []
  | S r', x :: l => (cons x <$> combinations r' l) ++ combinations r l
  end.

(** [range(a, b, 2)] *)
Definition range2 (a b : Z) : list Z := (fun i => a + 2 * i) <$> seqZ 0 ((b - a + 1) / 2).

(** [int(math.ceil(float(a) / b))] *)
Definition ceil_div (a b : Z) : Z := - ((- a) / b).

(** [l[i] += d] *)
Definition py_add_at (l : list Z) (i d : Z) : res (list Z) :=
  x ← py_nth l i;
  let j := if i <? 0 then i + Z.of_nat (length l) else i in
  Ok (<[Z.to_nat j := x + d]> l).

(** [l[0:n]] *)
Definition py_take {A} (l : list A) (n : Z) : list A :=
  if n <? 0 then take (Z.to_nat (Z.of_nat (length l) + n)) l else take (Z.to_nat n) l.

Fixpoint paritysize_from (k : Z) (ms : list Z) : Z :=
  match ms with
  | [] => -1
  | m :: ms => if k + m + 1 <=? 2 ^ m then m + 1 else paritysize_from k ms
  end.
Definition min_paritysize (k : Z) : Z := paritysize_from k (seqZ 2 8).

(** The loop of [ideal_fanin], which it leaves when nothing more is needed. *)
Fixpoint ideal_fanin_from (m : Z) (selects : list Z) (fanin needed : Z) : Z :=
  match selects with
  | [] => fanin
  | select :: selects =>
      let combinations := combinations (Z.to_nat select) (seqZ 0 m) in
      let len := Z.of_nat (length combinations) in
      let '(fanin, needed) :=
        if len <=? needed then (fanin + ceil_div (len * select) m, needed - len)
        else (fanin + ceil_div (needed * select) m, 0) in
      if needed =? 0 then fanin else ideal_fanin_from m selects fanin needed
  end.
Definition ideal_fanin (k m : Z) : Z := ideal_fanin_from m (range2 3 (m + 1)) 0 k.

Definition calc_fanin (width : Z) (codes : list code) : res (list Z) :=
  foldM (fun fanins i => foldM (fun fanins e => py_add_at fanins e 1) fanins i)
    (replicate (Z.to_nat width) 0) codes.

Definition calc_bitmasks (k m : Z) (codes : list code) (dec : bool) : res (list Z) :=
  fanin_masks ← foldM (fun masks '(i, c) =>
      foldM (fun masks j => py_add_at masks j (1 ≪ Z.of_nat i)) masks c)
    (replicate (Z.to_nat m) 0) (imap pair codes);
  if dec then
    foldM (fun masks j => py_add_at masks j (1 ≪ (k + j))) fanin_masks (seqZ 0 m)
  else Ok fanin_masks.

Definition calc_syndrome (code : code) : Z := foldl (fun acc x => acc + 2 ^ x) 0 code.

Definition is_pow2 (n : Z) : bool := ((n .& (n - 1)) =? 0) && negb (n =? 0).
Definition is_odd (n : Z) : bool := 0 <? n `mod` 2.

(** A configuration: data bits, parity bits, type of code. *)
Record cfg := mkCfg { cfg_k : Z; cfg_m : Z; cfg_code_type : string }.

(** The number of problems [verify] reports for one configuration. *)
Definition verify_cfg (c : cfg) : Z :=
  Z_of_bool ((cfg_k c <=? 1) || (120 <? cfg_k c)) +
  Z_of_bool ((cfg_m c <=? 1) || (20 <? cfg_m c)) +
  Z_of_bool (cfg_m c <? min_paritysize (cfg_k c)) +
  Z_of_bool (negb (String.eqb (cfg_code_type c) "hsiao" || String.eqb (cfg_code_type c) "hamming")).
Definition verify (cfgs : list cfg) : Z := foldl (fun error c => error + verify_cfg c) 0 cfgs.

(** ** Hsiao codes

    [shuffle n] is what call number [n] of [random.shuffle], after the generator was seeded,
    makes of a list. *)

Section hsiao.
Context (shuffle : nat → list code → list code).

(** The search for a subset of the candidates within the ideal fan-in; [None] when the fuel
    runs out. *)
Fixpoint find_subset (fuel n : nat) (candidate : list code) (required_row m fanin_ideal : Z)
    (fanins : list Z) : res (option (list code)) :=
  match fuel with
  | O => Ok None
  | S fuel =>
      let candidate := shuffle n candidate in
      let subset := py_take candidate required_row in
      subset_fanins ← calc_fanin m subset;
      ideal ← foldM (fun (ideal : bool) i =>
        if negb ideal then Ok false
        else
          f ← py_nth fanins i;
          g ← py_nth subset_fanins i;
          Ok (negb (fanin_ideal <? f + g))) true (seqZ 0 m);
      if (ideal : bool) then Ok (Some subset)
      else find_subset fuel (S n) candidate required_row m fanin_ideal fanins
  end.

(** The loop over the number of ones in a row. *)
Fixpoint hsiao_steps (fuel : nat) (steps : list Z) (m fanin_ideal : Z) (codes : list code)
    (required_row : Z) : res (option (list code)) :=
  match steps with
  | [] => Ok (Some codes)
  | step :: steps =>
      let candidate := combinations (Z.to_nat step) (seqZ 0 m) in
      let len := Z.of_nat (length candidate) in
      if len <=? required_row then
        let codes := codes ++ candidate in
        let required_row := required_row - len in
        if required_row =? 0 then Ok (Some codes)
        else hsiao_steps fuel steps m fanin_ideal codes required_row
      else
        fanins ← calc_fanin m codes;
        (* with nothing required the loop body never binds [subset] *)
        if required_row =? 0 then Err NameError
        else
          subset ← find_subset fuel 0 candidate required_row m fanin_ideal fanins;
          Ok (option_map (fun subset => codes ++ subset) subset)
  end.

Definition _hsiao_code (fuel : nat) (k m : Z) : res (option (list code)) :=
  hsiao_steps fuel (range2 3 (m + 1)) m (ideal_fanin k m) [] k.
End hsiao.

(** ** Hamming codes *)

Definition hamming_row (m pos : Z) : code :=
  filter (fun p =>
    let parity_pos := 2 ^ p in
    let parity_chk := (pos - pos `mod` parity_pos) / parity_pos in
    is_odd parity_chk || (p =? m - 1) = true) (seqZ 0 m).

Definition _hamming_code (k m : Z) : list code :=
  let n := k + m in
  (hamming_row m <$> filter (fun pos => is_pow2 pos || (pos =? n) = false) (seqZ 1 n))
  ++ replicate (Z.to_nat (m - 1)) [m - 1].

Definition gen_code (shuffle : nat → list code → list code) (fuel : nat) (codetype : string)
    (k m : Z) : res (option (list code)) :=
  if String.eqb codetype "hsiao" then _hsiao_code shuffle fuel k m
  else if String.eqb codetype "hamming" then Ok (Some (_hamming_code k m))
  else Err KeyError.

(** ** Combinations *)

(** A row with [r] ones among the positions [l]: sorted, without repetition. *)
Lemma combinations_spec r l c :
  StronglySorted Z.lt l → c ∈ combinations r l →
  length c = r ∧ StronglySorted Z.lt c ∧ Forall (fun x => x ∈ l) c.
Proof.
  intros Hl. revert r c. induction Hl as [| x l Hl IH Hx]; intros [| r] c Hc; cbn in Hc.
  - apply list_elem_of_singleton in Hc as ->. repeat constructor.
  - by apply elem_of_nil in Hc.
  - apply list_elem_of_singleton in Hc as ->. repeat constructor.
  - apply elem_of_app in Hc as [Hc | Hc].
    + apply list_elem_of_fmap in Hc as (c' & -> & Hc'). destruct (IH _ _ Hc') as (Hlen & Hs & Hf).
      split_and!; [cbn; lia | |].
      * constructor; [done |]. eapply Forall_impl; [exact Hf |]. intros y Hy.
        by eapply Forall_forall in Hx.
      * constructor; [by left |]. eapply Forall_impl; [exact Hf |]. intros y Hy. by right.
    + destruct (IH _ _ Hc) as (Hlen & Hs & Hf). split_and!; [done | done |].
      eapply Forall_impl; [exact Hf |]. intros y Hy. by right.
Qed.

Lemma combinations_NoDup r l : StronglySorted Z.lt l → NoDup (combinations r l).
Proof.
  intros Hl. revert r. induction Hl as [| x l Hl IH Hx]; intros [| r]; cbn [combinations].
  - apply NoDup_singleton.
  - constructor.
  - apply NoDup_singleton.
  - apply NoDup_app. split_and!; [| | apply IH].
    + apply NoDup_fmap_2; [| apply IH]. by intros ? ? [= ->].
    + intros c (c' & -> & Hc')%list_elem_of_fmap Hc.
      destruct (combinations_spec _ _ _ Hl Hc) as (_ & _ & Hf). inversion Hf as [| ? ? Hin].
      eapply Forall_forall in Hx; [| exact Hin]. lia.
Qed.

(** The number of combinations, and of those of odd size. *)
Fixpoint binom (n r : nat) : nat :=
  match r, n with
  | O, _ => 1
  | S _, O => 0
  | S r', S n => binom n r' + binom n r
  end.

Lemma length_combinations r l : length (combinations r l) = binom (length l) r.
Proof.
  revert r. induction l as [| x l IH]; intros [| r]; cbn [combinations binom length]; [done .. |].
  by rewrite length_app, length_fmap, !IH.
Qed.

Lemma binom_0 n r : (n < r)%nat → binom n r = 0%nat.
Proof.
  revert r. induction n as [| n IH]; intros [| r] H; cbn; [lia | done | lia |].
  rewrite !IH by lia. done.
Qed.

Definition odds (n K : nat) : nat := sum_list_with (fun i => binom n (2 * i + 1)) (seq 0 K).
Definition evens (n K : nat) : nat := sum_list_with (fun i => binom n (2 * i)) (seq 0 K).

Lemma odds_snoc n K : odds n (S K) = (odds n K + binom n (2 * K + 1))%nat.
Proof. unfold odds. rewrite seq_S, sum_list_with_app, Nat.add_0_l. cbn [sum_list_with]. lia. Qed.
Lemma evens_snoc n K : evens n (S K) = (evens n K + binom n (2 * K))%nat.
Proof. unfold evens. rewrite seq_S, sum_list_with_app, Nat.add_0_l. cbn [sum_list_with]. lia. Qed.

Lemma odds_S n K : odds (S n) K = (odds n K + evens n K)%nat.
Proof.
  induction K as [| K IH]; [done |]. rewrite !odds_snoc, evens_snoc, IH.
  rewrite Nat.add_1_r. cbn [binom]. rewrite <- Nat.add_1_r. lia.
Qed.

Lemma evens_S n K : evens (S n) (S K) = (evens n (S K) + odds n K)%nat.
Proof.
  induction K as [| K IH]; [by destruct n |].
  rewrite (evens_snoc (S n)), IH, (evens_snoc n (S K)), odds_snoc.
  replace (2 * S K)%nat with (S (2 * K + 1)) by lia. cbn [binom]. lia.
Qed.

Lemma odds_evens n K : (n ≤ 2 * K + 1)%nat → (odds n (S K) + evens n (S K) = 2 ^ n)%nat.
Proof.
  induction n as [| n IH]; intros Hn.
  - unfold odds, evens. clear. induction K as [| K IH]; [done |].
    rewrite seq_S, !sum_list_with_app, Nat.add_0_l. cbn [sum_list_with]. rewrite !binom_0 by lia. lia.
  - rewrite odds_S, evens_S. pose proof (odds_snoc n K) as E. rewrite binom_0 in E by lia.
    specialize (IH ltac:(lia)). cbn [Nat.pow]. lia.
Qed.

Lemma Zodd_of_nat n : Z.odd (Z.of_nat n) = Nat.odd n.
Proof.
  induction n as [| n IH]; [done |].
  by rewrite Nat2Z.inj_succ, Z.odd_succ, <- Z.negb_odd, IH, Nat.odd_succ, <- Nat.negb_odd.
Qed.

(** ** The rows of a Hsiao code *)

Record row_ok (m : Z) (c : code) : Prop := {
  row_sorted : StronglySorted Z.lt c;
  row_range : Forall (fun x => 0 ≤ x < m) c;
  row_odd : Nat.odd (length c) = true;
  row_weight : (3 ≤ length c)%nat;
}.

Lemma py_add_at_ok l i d x :
  0 ≤ i → l !! Z.to_nat i = Some x → py_add_at l i d = Ok (<[Z.to_nat i := x + d]> l).
Proof.
  intros Hi Hx. unfold py_add_at. rewrite (py_nth_pos l i x) by done. cbn [mbind res_bind]. by zbool.
Qed.

Lemma add_all_ok m (d : Z) (c : code) (l : list Z) :
  Z.of_nat (length l) = m → Forall (fun x => 0 ≤ x < m) c →
  ∃ l', foldM (fun l e => py_add_at l e d) l c = Ok l' ∧ Z.of_nat (length l') = m.
Proof.
  intros Hl Hc. revert l Hl. induction Hc as [| x c Hx Hc IH]; intros l Hl; [by exists l |].
  destruct (lookup_lt_is_Some_2 l (Z.to_nat x)) as [v Hv]; [lia |].
  cbn [foldM]. rewrite (py_add_at_ok l x d v) by (done || lia). apply IH.
  by rewrite length_insert.
Qed.

Lemma calc_fanin_ok m codes :
  0 ≤ m → Forall (Forall (fun x => 0 ≤ x < m)) codes →
  ∃ f, calc_fanin m codes = Ok f ∧ Z.of_nat (length f) = m.
Proof.
  intros Hm Hc. unfold calc_fanin.
  assert (Hl : Z.of_nat (length (replicate (Z.to_nat m) 0)) = m) by (rewrite length_replicate; lia).
  revert Hl. generalize (replicate (Z.to_nat m) 0).
  induction Hc as [| c codes Hc Hcs IH]; intros l Hl; cbn [foldM]; [by exists l |].
  destruct (add_all_ok m 1 c l Hl Hc) as (l' & -> & Hl'). by apply IH.
Qed.

Section hsiao_rows.
Context (shuffle : nat → list code → list code) (Hshuffle : ∀ n l, shuffle n l ≡ₚ l).
Context (m : Z) (Hm : 0 ≤ m).

Lemma rows_range codes : Forall (row_ok m) codes → Forall (Forall (fun x => 0 ≤ x < m)) codes.
Proof. intros H. eapply Forall_impl; [exact H |]. by intros c [_ ? _ _]. Qed.

Lemma find_subset_ok fuel n candidate required ideal fanins :
  0 ≤ required ≤ Z.of_nat (length candidate) → NoDup candidate →
  Forall (row_ok m) candidate → Z.of_nat (length fanins) = m →
  ∃ r, find_subset shuffle fuel n candidate required m ideal fanins = Ok r ∧
    ∀ s, r = Some s → NoDup s ∧ s ⊆ candidate ∧ Z.of_nat (length s) = required.
Proof.
  intros Hr. revert n candidate Hr. induction fuel as [| fuel IH]; intros n cand Hr Hnd Hrows Hf;
    cbn [find_subset]; [by exists None |].
  pose proof (Hshuffle n cand) as Hp. set (c := shuffle n cand) in *. clearbody c.
  assert (Hlen : length c = length cand) by (by apply Permutation_length).
  assert (Hnd' : NoDup c) by (by rewrite Hp).
  assert (Hrows' : Forall (row_ok m) c) by (by rewrite Hp).
  assert (Htake : py_take c required = take (Z.to_nat required) c) by (unfold py_take; by zbool).
  rewrite Htake.
  destruct (calc_fanin_ok m (take (Z.to_nat required) c) Hm) as (g & -> & Hg).
  { by apply rows_range, Forall_take. }
  cbn [mbind res_bind].
  assert (∃ b, foldM (fun (ideal0 : bool) i =>
    if negb ideal0 then Ok false
    else f ← py_nth fanins i; g0 ← py_nth g i; Ok (negb (ideal <? f + g0))) true (seqZ 0 m) = Ok b)
    as [b ->].
  { assert (Hin : ∀ i, i ∈ seqZ 0 m → 0 ≤ i < m) by (intros i ?%elem_of_seqZ; lia). revert Hin.
    generalize true. induction (seqZ 0 m) as [| i l IHl]; intros b Hin; cbn [foldM]; [by eexists |].
    destruct b; cbn [negb]; [| apply IHl; intros; apply Hin; by right].
    pose proof (Hin i ltac:(by left)).
    destruct (lookup_lt_is_Some_2 fanins (Z.to_nat i)) as [x Hx]; [lia |].
    destruct (lookup_lt_is_Some_2 g (Z.to_nat i)) as [y Hy]; [lia |].
    rewrite (py_nth_pos fanins i x), (py_nth_pos g i y) by (done || lia). cbn [mbind res_bind].
    apply IHl. intros; apply Hin; by right. }
  cbn [mbind res_bind]. destruct b.
  - eexists. split; [done |]. intros s [= <-]. split_and!.
    + eapply sublist_NoDup; [done | apply sublist_take].
    + intros x Hx. rewrite <- Hp. eapply subseteq_take. exact Hx.
    + rewrite length_take. lia.
  - destruct (IH (S n) c) as (r & E & Hr'); [lia | done | done | done |].
    exists r. split; [done |]. intros s Hs. destruct (Hr' s Hs) as (? & Hsub & ?).
    split_and!; [done | | done]. intros x Hx. rewrite <- Hp. by apply Hsub.
Qed.

(** How many rows the steps offer. *)
Definition available (steps : list Z) : Z :=
  foldr (fun s acc => Z.of_nat (length (combinations (Z.to_nat s) (seqZ 0 m))) + acc) 0 steps.

Lemma candidate_rows step :
  3 ≤ step → Z.odd step = true →
  NoDup (combinations (Z.to_nat step) (seqZ 0 m)) ∧
  Forall (fun c => row_ok m c ∧ Z.of_nat (length c) = step) (combinations (Z.to_nat step) (seqZ 0 m)).
Proof.
  intros Hs Ho. split; [apply combinations_NoDup, seqZ_sorted |].
  apply Forall_forall. intros c Hc.
  destruct (combinations_spec _ _ _ (seqZ_sorted 0 m) Hc) as (Hl & Hsort & Hin).
  split; [| lia]. split; [done | | | lia].
  - eapply Forall_impl; [exact Hin |]. intros x Hx%elem_of_seqZ. lia.
  - rewrite Hl. rewrite <- Ho. rewrite <- (Z2Nat.id step) at 2 by lia.
    generalize (Z.to_nat step). clear. intros n.
    by rewrite Zodd_of_nat.
Qed.

Definition code_ok (codes : list code) : Prop := NoDup codes ∧ Forall (row_ok m) codes.

Lemma hsiao_steps_ok fuel steps ideal codes required :
  StronglySorted Z.lt steps → Forall (fun s => 3 ≤ s ∧ Z.odd s = true) steps →
  (∀ c s, c ∈ codes → s ∈ steps → Z.of_nat (length c) < s) →
  code_ok codes → 0 < required →
  ∃ r, hsiao_steps shuffle fuel steps m ideal codes required = Ok r ∧
    ∀ codes', r = Some codes' → code_ok codes' ∧
      (required ≤ available steps →
       Z.of_nat (length codes') = Z.of_nat (length codes) + required).
Proof.
  intros Hsort. revert codes required.
  induction Hsort as [| step steps Hsort IH Hlt]; intros codes required Hodd Hbelow [Hnd Hrows] Hpos;
    cbn [hsiao_steps available foldr].
  { eexists. split; [done |]. intros codes' [= <-]. split; [done | lia]. }
  apply Forall_cons in Hodd as [[Hge Ho] Hodd].
  destruct (candidate_rows step Hge Ho) as [Hcnd Hcrows].
  set (cand := combinations (Z.to_nat step) (seqZ 0 m)) in *. clearbody cand.
  assert (Hdisj : ∀ c, c ∈ codes → c ∉ cand).
  { intros c Hc Hc'. eapply Forall_forall in Hcrows as [_ Hl]; [| exact Hc'].
    specialize (Hbelow c step Hc ltac:(by left)). lia. }
  assert (Hcr : Forall (row_ok m) cand) by (eapply Forall_impl; [exact Hcrows | by intros c [? _]]).
  destruct (Z.leb_spec (Z.of_nat (length cand)) required) as [Hall | Hsome].
  - assert (Hok : code_ok (codes ++ cand)).
    { split; [by apply NoDup_app | by apply Forall_app]. }
    destruct (Z.eqb_spec (required - Z.of_nat (length cand)) 0).
    + eexists. split; [done |]. intros codes' [= <-]. split; [done |]. rewrite length_app. lia.
    + destruct (IH (codes ++ cand) (required - Z.of_nat (length cand))) as (r & E & Hr);
        [done | | done | lia |].
      * intros c s [Hc | Hc]%elem_of_app Hs; [apply Hbelow; [done | by right] |].
        eapply Forall_forall in Hcrows as [_ Hl]; [| exact Hc].
        eapply Forall_forall in Hlt; [| exact Hs]. lia.
      * exists r. split; [done |]. intros codes' Hc. destruct (Hr codes' Hc) as [? Hlen].
        split; [done |]. intros ?. rewrite Hlen, length_app by (unfold available; lia). lia.
  - destruct (calc_fanin_ok m codes Hm (rows_range codes Hrows)) as (f & -> & Hf).
    cbn [mbind res_bind]. destruct (Z.eqb_spec required 0); [lia |].
    destruct (find_subset_ok fuel 0 cand required ideal f) as (r & -> & Hr); [lia | done | done | done |].
    cbn [mbind res_bind]. eexists. split; [done |]. intros codes' Hc.
    destruct r as [sub |]; [| done]. injection Hc as <-.
    destruct (Hr sub eq_refl) as (Hsnd & Hsub & Hlen). split.
    + split; [apply NoDup_app; split_and!; [done | | done] |].
      * intros c Hc Hc'. by apply (Hdisj c Hc), Hsub.
      * apply Forall_app. split; [done |]. apply Forall_forall. intros c Hc.
        eapply Forall_forall in Hcr; [exact Hcr | by apply Hsub].
    + intros _. rewrite length_app. lia.
Qed.
End hsiao_rows.

Lemma range2_elem a b x : x ∈ range2 a b → ∃ i, 0 ≤ i ∧ x = a + 2 * i ∧ x < b + 1.
Proof.
  unfold range2. intros (i & -> & Hi%elem_of_seqZ)%list_elem_of_fmap. exists i.
  split_and!; [lia | done |]. pose proof (Z.mul_div_le (b - a + 1) 2 ltac:(lia)). lia.
Qed.

Lemma range2_sorted a b : StronglySorted Z.lt (range2 a b).
Proof.
  unfold range2. induction (seqZ_sorted 0 ((b - a + 1) / 2)) as [| x l Hl IH Hx]; [constructor |].
  cbn [fmap list_fmap]. constructor; [done |]. apply Forall_fmap. eapply Forall_impl; [exact Hx |].
  cbn. lia.
Qed.

(** All the rows of odd weight at least three. *)
Lemma available_all m : 1 ≤ m → available m (range2 3 (m + 1)) = 2 ^ (m - 1) - m.
Proof.
  intros Hm. set (n := Z.to_nat (m - 1)). set (K := Z.to_nat ((m - 1) / 2)).
  assert (HK : 0 ≤ (m - 1) / 2) by (apply Z.div_pos; lia).
  assert (Hav : ∀ j, available m ((fun i => 3 + 2 * i) <$> seqZ 0 (Z.of_nat j)) =
    Z.of_nat (odds (S n) (S j)) - m).
  { intros j. unfold available. induction j as [| j IH].
    - assert (Hb : ∀ a, binom a 1 = a).
      { intros a. induction a as [| a IHa]; [done |]. cbn [binom]. rewrite IHa. by destruct a. }
      replace (odds (S n) 1) with (S n); [change (0 = Z.of_nat (S n) - m); unfold n; lia |].
      rewrite odds_snoc, (Hb (S n) : binom (S n) (2 * 0 + 1) = _). done.
    - rewrite seqZ_S, fmap_app, foldr_app, odds_snoc. cbn [foldr fmap list_fmap].
      assert (Hacc : ∀ l acc, foldr (fun s acc => Z.of_nat (length (combinations (Z.to_nat s) (seqZ 0 m))) + acc) acc l
        = foldr (fun s acc => Z.of_nat (length (combinations (Z.to_nat s) (seqZ 0 m))) + acc) 0 l + acc).
      { clear. intros l acc. induction l as [| s l IH]; cbn [foldr]; [lia |]. rewrite IH. lia. }
      rewrite Hacc, IH, length_combinations, length_seqZ.
      replace (Z.to_nat (3 + 2 * (0 + Z.of_nat j))) with (2 * S j + 1)%nat by lia.
      replace (Z.to_nat m) with (S n) by (unfold n; lia). lia. }
  unfold range2. replace ((m + 1 - 3 + 1) / 2) with (Z.of_nat K)
    by (unfold K; rewrite Z2Nat.id by done; f_equal; lia).
  rewrite Hav, odds_S, odds_evens.
  - rewrite Nat2Z.inj_pow. unfold n. rewrite Z2Nat.id by lia. done.
  - unfold n, K. Z.to_euclidean_division_equations. lia.
Qed.

(** What the generator returns for a configuration with enough parity bits: [k] different
    rows of odd weight. *)
Lemma hsiao_code_ok shuffle fuel k m :
  (∀ n l, shuffle n l ≡ₚ l) → 1 ≤ k → 1 ≤ m → k + m ≤ 2 ^ (m - 1) →
  ∃ r, _hsiao_code shuffle fuel k m = Ok r ∧
    ∀ codes, r = Some codes → code_ok m codes ∧ Z.of_nat (length codes) = k.
Proof.
  intros Hs Hk Hm Hkm. unfold _hsiao_code.
  destruct (hsiao_steps_ok shuffle Hs m ltac:(lia) fuel (range2 3 (m + 1)) (ideal_fanin k m) [] k)
    as (r & E & Hr).
  - apply range2_sorted.
  - apply Forall_forall. intros x (i & ? & -> & _)%range2_elem. split; [lia |].
    replace (3 + 2 * i) with (2 * (1 + i) + 1) by lia. apply Z.odd_spec. by exists (1 + i).
  - intros c s Hc. by apply elem_of_nil in Hc.
  - split; constructor.
  - lia.
  - exists r. split; [done |]. intros codes Hc. destruct (Hr codes Hc) as [? Hlen].
    split; [done |]. rewrite Hlen; [cbn; lia |]. rewrite available_all by done. lia.
Qed.
