(* ===== verification/SecdedCode.v ===== *)
(** What the generated encoders and decoders do: single errors are corrected and double
    errors detected.  The functions below are the assignments that [print_enc] and
    [print_dec] write, on integers instead of SystemVerilog vectors. *)

From stdpp Require Import sorting.
From S2P Require Import Prelude BitLoops PyList Secded.

(** ** Sums of bits *)

(** The exclusive or of [f 0 .. f (n - 1)]. *)
Definition xsum (n : Z) (f : Z → bool) : bool := foldr xorb false (f <$> seqZ 0 n).

(** [^x] for an [n]-bit vector. *)
Definition parity (n x : Z) : bool := xsum n (Z.testbit x).

Lemma xsum_ext n f g : (∀ i, 0 ≤ i < n → f i = g i) → xsum n f = xsum n g.
Proof.
  intros H. unfold xsum. f_equal. apply list_fmap_ext. intros i x Hx.
  apply lookup_seqZ in Hx as [-> ?]. apply H. lia.
Qed.

Lemma xsum_xorb n f g : xsum n (fun i => xorb (f i) (g i)) = xorb (xsum n f) (xsum n g).
Proof.
  unfold xsum. induction (seqZ 0 n) as [| i l IH]; cbn [fmap list_fmap foldr]; [done |].
  rewrite IH. destruct (f i), (g i), (foldr xorb false (f <$> l)), (foldr xorb false (g <$> l)); done.
Qed.

Lemma xsum_false n f : (∀ i, 0 ≤ i < n → f i = false) → xsum n f = false.
Proof.
  intros H. rewrite (xsum_ext n f (fun _ => false)) by done. unfold xsum.
  induction (seqZ 0 n); [done |]. by cbn.
Qed.

Lemma xsum_split n a f : 0 ≤ a ≤ n → xsum n f = xorb (xsum a f) (xsum (n - a) (fun i => f (a + i))).
Proof.
  intros Ha. unfold xsum. replace n with (a + (n - a)) at 1 by lia.
  rewrite seqZ_app, fmap_app, foldr_app by lia. rewrite Z.add_0_l.
  assert (Hacc : ∀ l b, foldr xorb b (f <$> l) = xorb (foldr xorb false (f <$> l)) b).
  { clear. intros l b. induction l as [| x l IH]; [by destruct b |].
    cbn [fmap list_fmap foldr]. rewrite IH. by rewrite xorb_assoc. }
  rewrite Hacc. f_equal.
  replace (seqZ a (n - a)) with (Z.add a <$> seqZ 0 (n - a)) by (rewrite fmap_add_seqZ; f_equal; lia).
  by rewrite <- list_fmap_compose.
Qed.

Lemma xsum_single n a f :
  0 ≤ a < n → (∀ i, 0 ≤ i < n → i ≠ a → f i = false) → xsum n f = f a.
Proof.
  intros Ha Hf. rewrite (xsum_split n a) by lia. rewrite (xsum_false a) by (intros; apply Hf; lia).
  rewrite (xsum_split (n - a) 1) by lia.
  rewrite (xsum_false (n - a - 1)) by (intros; apply Hf; lia).
  unfold xsum. change (seqZ 0 1) with [0]. cbn [fmap list_fmap foldr].
  by rewrite !xorb_false_r, xorb_false_l, Z.add_0_r.
Qed.

Lemma parity_lxor n x y : parity n (x .^ y) = xorb (parity n x) (parity n y).
Proof.
  unfold parity. rewrite <- xsum_xorb. apply xsum_ext. intros. apply Z.lxor_spec.
Qed.

(** ** Integers from lists of bits *)

Definition of_bits (bs : list bool) : Z := limbs_join 1 (Z_of_bool <$> bs).

Lemma bools_in_bits bs : Forall (in_bits 1) (Z_of_bool <$> bs).
Proof. apply Forall_fmap, Forall_true. by intros []. Qed.

Lemma testbit_of_bits bs i :
  0 ≤ i → Z.testbit (of_bits bs) i = default false (bs !! Z.to_nat i).
Proof.
  intros Hi. unfold of_bits. rewrite testbit_limbs_join by (lia || apply bools_in_bits).
  rewrite Z.mod_1_r, Z.div_1_r, list_lookup_fmap. by destruct (bs !! Z.to_nat i) as [[] |].
Qed.

Lemma of_bits_in_bits bs : in_bits (Z.of_nat (length bs)) (of_bits bs).
Proof.
  replace (Z.of_nat (length bs)) with (1 * Z.of_nat (length bs)) by lia.
  apply limbs_join_bits; [lia | apply bools_in_bits | by rewrite length_fmap].
Qed.

Lemma in_bits_disjoint w a b : 0 ≤ w → in_bits w a → a .& (b ≪ w) = 0.
Proof.
  intros Hw Ha. apply Z_bits_eq. intros i Hi. autorewrite with testbit.
  destruct (Z.ltb_spec i w); [by rewrite (testbit_neg b), andb_false_r by lia |].
  by rewrite (testbit_in_bits w a) by (done || lia).
Qed.

Lemma testbit_Z_of_bool b i : Z.testbit (Z_of_bool b) i = (i =? 0) && b.
Proof.
  destruct b; cbn [Z_of_bool]; rewrite ?andb_true_r, ?andb_false_r; [| apply Z.bits_0].
  destruct (Z.eqb_spec i 0) as [-> |]; [done |]. destruct (Z.ltb_spec i 0); [by apply testbit_neg |].
  apply (testbit_in_bits 1 1); [done | lia].
Qed.

Lemma of_bits_snoc bs b :
  of_bits (bs ++ [b]) = of_bits bs + (Z_of_bool b ≪ Z.of_nat (length bs)).
Proof.
  pose proof (of_bits_in_bits bs). rewrite add_disjoint by (apply in_bits_disjoint; [lia | done]).
  apply Z_bits_eq. intros i Hi.
  rewrite Z.lor_spec, testbit_shiftl, !testbit_of_bits, testbit_Z_of_bool by done.
  destruct (Z.ltb_spec i (Z.of_nat (length bs))).
  - rewrite lookup_app_l by lia. zbool. by rewrite orb_false_r.
  - rewrite lookup_app_r, (lookup_ge_None_2 bs) by lia. cbn [default orb].
    destruct (Z.eqb_spec (i - Z.of_nat (length bs)) 0).
    + by replace (Z.to_nat i - length bs)%nat with 0%nat by lia.
    + by rewrite lookup_ge_None_2 by (cbn; lia).
Qed.

(** ** The masks *)

(** Adding to the entries at the positions [c]. *)
Lemma add_each (d : Z → Z) (c : code) (l : list Z) :
  NoDup c → Forall (fun x => 0 ≤ x < Z.of_nat (length l)) c →
  foldM (fun l e => py_add_at l e (d e)) l c =
  Ok (imap (fun j x => if bool_decide (Z.of_nat j ∈ c) then x + d (Z.of_nat j) else x) l).
Proof.
  intros Hnd. revert l. induction Hnd as [| e c He Hnd IH]; intros l Hc; cbn [foldM].
  - f_equal. symmetry. rewrite <- (list_fmap_id l) at 2. rewrite <- (imap_const id). by apply imap_ext.
  - apply Forall_cons in Hc as [Hr Hc].
    destruct (lookup_lt_is_Some_2 l (Z.to_nat e)) as [x Hx]; [lia |].
    rewrite (py_add_at_ok l e (d e) x) by (done || lia). rewrite res_bind_Ok, IH by (by rewrite length_insert).
    f_equal. apply list_eq. intros i. rewrite !list_lookup_imap.
    destruct (decide (i = Z.to_nat e)) as [-> | Hne].
    + rewrite list_lookup_insert_eq, Hx by lia. cbn. rewrite Z2Nat.id by lia.
      rewrite (bool_decide_eq_false_2 (e ∈ c)), (bool_decide_eq_true_2 (e ∈ e :: c)) by (done || by left).
      done.
    + rewrite list_lookup_insert_ne by done. destruct (l !! i); [| done]. cbn.
      do 2 f_equal. rewrite (bool_decide_ext (Z.of_nat i ∈ c) (Z.of_nat i ∈ e :: c)); [done |].
      rewrite elem_of_cons. split; [by right |]. intros [? |]; [lia | done].
Qed.

(** The rows with a one at position [j], as a bit mask. *)
Definition row_mask (codes : list code) (j : Z) : Z :=
  of_bits ((fun c => bool_decide (j ∈ c)) <$> codes).

Definition rows_fit (m : Z) (codes : list code) : Prop :=
  Forall (fun c => NoDup c ∧ Forall (fun x => 0 ≤ x < m) c) codes.

Lemma enc_masks_eq k m codes :
  0 ≤ m → rows_fit m codes → calc_bitmasks k m codes false = Ok (row_mask codes <$> seqZ 0 m).
Proof.
  intros Hm Hfit. unfold calc_bitmasks.
  enough (foldM (fun masks '(i, c) => foldM (fun masks j => py_add_at masks j (1 ≪ Z.of_nat i)) masks c)
    (replicate (Z.to_nat m) 0) (imap pair codes) = Ok (row_mask codes <$> seqZ 0 m)) as -> by done.
  induction codes as [| c codes IH] using rev_ind.
  - cbn [imap foldM]. f_equal. apply list_eq. intros i. rewrite list_lookup_fmap.
    destruct (decide (Z.of_nat i < m)).
    + rewrite lookup_replicate_2, lookup_seqZ_lt by lia. done.
    + rewrite lookup_ge_None_2, lookup_seqZ_ge by (rewrite ?length_replicate; lia). done.
  - apply Forall_app in Hfit as [Hfit [[Hnd Hr] _]%Forall_cons].
    rewrite imap_app. cbn [imap]. rewrite foldM_app, (IH Hfit). cbn [mbind res_bind foldM].
    rewrite (add_each (fun _ => 1 ≪ Z.of_nat (length codes + 0))); [| done |].
    2: { rewrite length_fmap, length_seqZ, Z2Nat.id by done. done. }
    rewrite res_bind_Ok, Nat.add_0_r. f_equal. apply list_eq. intros i.
    rewrite list_lookup_imap, !list_lookup_fmap. destruct (decide (Z.of_nat i < m)).
    + rewrite lookup_seqZ_lt by lia. cbn [fmap option_fmap option_map]. f_equal.
      unfold row_mask. rewrite fmap_app. cbn [fmap list_fmap]. rewrite of_bits_snoc, length_fmap.
      rewrite Z.add_0_l. destruct (bool_decide _); cbn [Z_of_bool]; [done |].
      by rewrite Z.shiftl_0_l, Z.add_0_r.
    + rewrite lookup_seqZ_ge by lia. done.
Qed.

Definition dec_mask (k : Z) (codes : list code) (j : Z) : Z := row_mask codes j + (1 ≪ (k + j)).

Lemma dec_masks_eq k m codes :
  0 ≤ m → rows_fit m codes → calc_bitmasks k m codes true = Ok (dec_mask k codes <$> seqZ 0 m).
Proof.
  intros Hm Hfit. pose proof (enc_masks_eq k m codes Hm Hfit) as E.
  unfold calc_bitmasks in E |- *. apply bind_Ok_inv in E as (masks & -> & [= ->]). cbn [mbind res_bind].
  rewrite (add_each (fun j => 1 ≪ (k + j))); [| apply NoDup_seqZ |].
  2: { apply Forall_forall. intros j Hj%elem_of_seqZ. rewrite length_fmap, length_seqZ. lia. }
  f_equal. apply list_eq. intros i. rewrite list_lookup_imap, !list_lookup_fmap.
  destruct (decide (Z.of_nat i < m)).
  - rewrite lookup_seqZ_lt by lia. cbn [fmap option_fmap option_map]. rewrite Z.add_0_l.
    rewrite bool_decide_eq_true_2 by (apply elem_of_seqZ; lia). done.
  - rewrite lookup_seqZ_ge by lia. done.
Qed.

(** ** Encoder and decoder *)

(** [data_o = data_i; data_o[k + j] = ^(data_o & mask_j)] for each [j] in turn. *)
Definition encode_word (n k : Z) (masks : list Z) (data : Z) : Z :=
  foldl (fun d '(j, mask) => d .| (Z_of_bool (parity n (d .& mask)) ≪ (k + Z.of_nat j))) data
    (imap pair masks).

(** [syndrome_o[j] = ^(data_i & mask_j)] *)
Definition syndrome (n : Z) (masks : list Z) (word : Z) : Z :=
  of_bits ((fun mask => parity n (word .& mask)) <$> masks).

(** The decoder's outputs: the corrected data and the flags for single and double errors.
    [single] reads the flag for a single error off the syndrome: the parity of the syndrome for
    a Hsiao code, its top bit for a Hamming code. *)
Definition decode_word (single : Z → bool) (n k : Z) (codes : list code) (masks : list Z)
    (word : Z) : Z * bool * bool :=
  let s := syndrome n masks word in
  let data := of_bits ((fun i => xorb (s =? calc_syndrome (codes !!! Z.to_nat i))
                                   (Z.testbit word i)) <$> seqZ 0 k) in
  (data, single s, negb (single s) && negb (s =? 0)).

Lemma land_agree a x y f :
  0 ≤ a → in_bits a f → (∀ i, 0 ≤ i < a → Z.testbit x i = Z.testbit y i) → x .& f = y .& f.
Proof.
  intros Ha Hf H. apply Z_bits_eq. intros i Hi. rewrite !Z.land_spec.
  destruct (Z.ltb_spec i a); [by rewrite H | by rewrite (testbit_in_bits a f), !andb_false_r by (done || lia)].
Qed.

Lemma encode_word_spec n k f (M : nat) data :
  0 ≤ k → in_bits k data → (∀ j, 0 ≤ j < Z.of_nat M → in_bits (k + j) (f j)) →
  let w := encode_word n k (f <$> seqZ 0 (Z.of_nat M)) data in
  in_bits (k + Z.of_nat M) w ∧ (∀ i, 0 ≤ i < k → Z.testbit w i = Z.testbit data i) ∧
  ∀ j, 0 ≤ j < Z.of_nat M → Z.testbit w (k + j) = parity n (w .& f j).
Proof.
  intros Hk Hd. induction M as [| M IH]; intros Hf.
  - cbv zeta. change (encode_word n k (f <$> seqZ 0 (Z.of_nat 0)) data) with data.
    rewrite Z.add_0_r. split_and!; [done | done | lia].
  - destruct IH as (Hb & Hlow & Hpar); [intros; apply Hf; lia |]. cbv zeta.
    unfold encode_word in *. rewrite seqZ_S, fmap_app, imap_app, foldl_app, Z.add_0_l.
    set (w := foldl _ data (imap pair (f <$> seqZ 0 (Z.of_nat M)))) in *. clearbody w.
    cbn [fmap list_fmap imap foldl]. rewrite Nat.add_0_r, length_fmap, length_seqZ, Nat2Z.id.
    set (b := parity n (w .& f (Z.of_nat M))). set (w' := w .| _).
    assert (Hw' : ∀ i, 0 ≤ i → Z.testbit w' i = Z.testbit w i || (i =? k + Z.of_nat M) && b).
    { intros i Hi. unfold w'. rewrite Z.lor_spec, testbit_shiftl, testbit_Z_of_bool by done.
      do 2 f_equal. by destruct (Z.eqb_spec (i - (k + Z.of_nat M)) 0), (Z.eqb_spec i (k + Z.of_nat M)); lia. }
    assert (Hagree : ∀ i, 0 ≤ i < k + Z.of_nat M → Z.testbit w' i = Z.testbit w i).
    { intros i Hi. rewrite Hw' by lia. zbool. by rewrite orb_false_r. }
    split_and!.
    + apply in_bits_lor; [lia | apply (in_bits_weaken (k + Z.of_nat M)); [lia | done] |].
      replace (k + Z.of_nat (S M)) with (1 + (k + Z.of_nat M)) by lia.
      apply in_bits_shiftl; [lia | lia |]. by destruct b.
    + intros i Hi. rewrite Hagree by lia. by apply Hlow.
    + intros j Hj. rewrite (land_agree (k + j) w' w); [| lia | by apply Hf | intros; apply Hagree; lia].
      destruct (decide (j = Z.of_nat M)) as [-> |].
      * rewrite Hw' by lia. rewrite (testbit_in_bits (k + Z.of_nat M) w) by (done || lia). by zbool.
      * rewrite Hagree by lia. apply Hpar. lia.
Qed.

Lemma testbit_syndrome n masks word j :
  0 ≤ j → Z.testbit (syndrome n masks word) j =
    default false ((fun mask => parity n (word .& mask)) <$> masks !! Z.to_nat j).
Proof. intros Hj. unfold syndrome. by rewrite testbit_of_bits, list_lookup_fmap. Qed.

Lemma syndrome_lxor n masks x y :
  syndrome n masks (x .^ y) = syndrome n masks x .^ syndrome n masks y.
Proof.
  apply Z_bits_eq. intros j Hj. rewrite Z.lxor_spec, !testbit_syndrome by done.
  destruct (masks !! Z.to_nat j) as [mask |]; [cbn | done].
  rewrite <- parity_lxor. f_equal. apply Z_bits_eq. intros i Hi.
  rewrite !Z.land_spec, !Z.lxor_spec, !Z.land_spec. bits_cases.
Qed.

(** The syndrome of an error in bit [a]. *)
Definition column (masks : list Z) (a : Z) : Z := of_bits ((fun mask => Z.testbit mask a) <$> masks).

Lemma testbit_shl1 a i : 0 ≤ a → Z.testbit (1 ≪ a) i = (i =? a).
Proof.
  intros Ha. destruct (Z.ltb_spec i 0); [rewrite testbit_neg by done; by zbool |].
  rewrite testbit_shiftl by done. rewrite (testbit_Z_of_bool true), andb_true_r.
  by destruct (Z.eqb_spec (i - a) 0), (Z.eqb_spec i a); lia.
Qed.

Lemma syndrome_one n masks a : 0 ≤ a < n → syndrome n masks (1 ≪ a) = column masks a.
Proof.
  intros Ha. unfold syndrome, column. f_equal. apply list_fmap_ext. intros j mask _.
  unfold parity. rewrite (xsum_single n a); [| done |].
  - rewrite Z.land_spec, testbit_shl1 by lia. by zbool.
  - intros i Hi Hne. rewrite Z.land_spec, testbit_shl1 by lia. by zbool.
Qed.

Section secded.
Context (single : Z → bool) (k m : Z) (codes : list code).
Context (Hk : 0 ≤ k) (Hm : 0 ≤ m).
Context (Hsingle : ∀ x y, single (x .^ y) = xorb (single x) (single y)).
Context (Hlow : ∀ j, 0 ≤ j < m → in_bits (k + j) (row_mask codes j)).

Definition enc_masks : list Z := row_mask codes <$> seqZ 0 m.
Definition dec_masks : list Z := dec_mask k codes <$> seqZ 0 m.

Context (Hcol : ∀ a, 0 ≤ a < k + m → single (column dec_masks a) = true).
Context (Hinj : ∀ a b, 0 ≤ a < k + m → 0 ≤ b < k + m → column dec_masks a = column dec_masks b → a = b).
Context (Hsyn : ∀ i, 0 ≤ i < k → calc_syndrome (codes !!! Z.to_nat i) = column dec_masks i).

Lemma single_0 : single 0 = false.
Proof. specialize (Hsingle 0 0). rewrite Z.lxor_0_r in Hsingle. by destruct (single 0). Qed.

(** A code word has syndrome zero. *)
Lemma encode_syndrome data :
  in_bits k data → syndrome (k + m) dec_masks (encode_word (k + m) k enc_masks data) = 0.
Proof.
  intros Hd. pose proof (encode_word_spec (k + m) k (row_mask codes) (Z.to_nat m) data Hk Hd) as H.
  rewrite Z2Nat.id in H by done. destruct (H Hlow) as (Hb & _ & Hpar). fold enc_masks in *. clear H.
  set (w := encode_word _ _ _ _) in *. clearbody w.
  apply Z_bits_eq. intros j Hj. rewrite testbit_syndrome, Z.bits_0 by done. unfold dec_masks.
  rewrite list_lookup_fmap. destruct (decide (j < m)); [| by rewrite lookup_seqZ_ge by lia].
  rewrite lookup_seqZ_lt by lia. rewrite Z.add_0_l, Z2Nat.id by lia. cbn [fmap option_fmap option_map default].
  unfold dec_mask. pose proof (Hlow j ltac:(lia)) as Hr.
  assert (E : row_mask codes j + (1 ≪ (k + j)) = row_mask codes j .^ (1 ≪ (k + j))).
  { rewrite Z.add_nocarry_lxor; [done |]. apply in_bits_disjoint; [lia | done]. }
  assert (E2 : w .& (row_mask codes j .^ (1 ≪ (k + j))) = (w .& row_mask codes j) .^ (w .& (1 ≪ (k + j)))).
  { apply Z_bits_eq. intros i Hi. rewrite !Z.land_spec, !Z.lxor_spec, !Z.land_spec. bits_cases. }
  rewrite E, E2, parity_lxor, <- Hpar by lia. unfold parity.
  rewrite (xsum_single (k + m) (k + j)); [| lia |].
  - rewrite Z.land_spec, testbit_shl1 by lia. zbool. rewrite andb_true_r. apply xorb_nilpotent.
  - intros i Hi Hne. rewrite Z.land_spec, testbit_shl1 by lia. zbool. apply andb_false_r.
Qed.

Lemma of_bits_testbit v (f : Z → bool) :
  in_bits k v → (∀ i, 0 ≤ i < k → f i = Z.testbit v i) → of_bits (f <$> seqZ 0 k) = v.
Proof.
  intros Hv Hf. apply Z_bits_eq. intros i Hi. rewrite testbit_of_bits, list_lookup_fmap by done.
  destruct (decide (i < k)).
  - rewrite lookup_seqZ_lt by lia. cbn. rewrite Z2Nat.id by lia. apply Hf. lia.
  - rewrite lookup_seqZ_ge by lia. cbn. symmetry. apply (testbit_in_bits k); [done | lia].
Qed.

Lemma column_nonzero a : 0 ≤ a < k + m → column dec_masks a ≠ 0.
Proof. intros Ha E. pose proof (Hcol a Ha) as H. rewrite E, single_0 in H. done. Qed.

(** No error: the data comes back and no error is flagged. *)
Lemma decode_no_error data :
  in_bits k data →
  decode_word single (k + m) k codes dec_masks (encode_word (k + m) k enc_masks data) = (data, false, false).
Proof.
  intros Hd. unfold decode_word. rewrite encode_syndrome by done. rewrite single_0. cbn [negb andb].
  rewrite Z.eqb_refl. cbn [negb]. do 2 f_equal. apply of_bits_testbit; [done |]. intros i Hi.
  rewrite Hsyn by done. pose proof (column_nonzero i ltac:(lia)). zbool. rewrite xorb_false_l.
  pose proof (encode_word_spec (k + m) k (row_mask codes) (Z.to_nat m) data Hk Hd) as H1.
  rewrite Z2Nat.id in H1 by done. destruct (H1 Hlow) as (_ & Hlo & _). by apply Hlo.
Qed.

(** One flipped bit: the data is corrected and a single error is flagged. *)
Lemma decode_single_error data a :
  in_bits k data → 0 ≤ a < k + m →
  decode_word single (k + m) k codes dec_masks (encode_word (k + m) k enc_masks data .^ (1 ≪ a)) =
    (data, true, false).
Proof.
  intros Hd Ha. unfold decode_word.
  rewrite syndrome_lxor, encode_syndrome, syndrome_one, Z.lxor_0_l by done.
  rewrite Hcol by done. cbn [negb andb]. do 2 f_equal. apply of_bits_testbit; [done |]. intros i Hi.
  rewrite Hsyn by done. rewrite Z.lxor_spec, testbit_shl1 by lia.
  pose proof (encode_word_spec (k + m) k (row_mask codes) (Z.to_nat m) data Hk Hd) as H1.
  rewrite Z2Nat.id in H1 by done. destruct (H1 Hlow) as (_ & Hlo & _). fold enc_masks in Hlo.
  rewrite Hlo by done. destruct (Z.eqb_spec i a) as [-> | Hne].
  - rewrite Z.eqb_refl. by destruct (Z.testbit data a).
  - destruct (Z.eqb_spec (column dec_masks a) (column dec_masks i)) as [E |].
    + apply Hinj in E; lia.
    + by rewrite xorb_false_l, xorb_false_r.
Qed.

(** Two flipped bits: a double error is flagged. *)
Lemma decode_double_error data a b :
  in_bits k data → 0 ≤ a < k + m → 0 ≤ b < k + m → a ≠ b →
  ∃ d, decode_word single (k + m) k codes dec_masks
    (encode_word (k + m) k enc_masks data .^ (1 ≪ a) .^ (1 ≪ b)) = (d, false, true).
Proof.
  intros Hd Ha Hb Hne. unfold decode_word.
  rewrite !syndrome_lxor, encode_syndrome, !syndrome_one, Z.lxor_0_l by done.
  rewrite Hsingle, !Hcol by done. cbn [xorb negb andb]. eexists. do 2 f_equal.
  destruct (Z.eqb_spec (column dec_masks a .^ column dec_masks b) 0) as [E |]; [| done].
  apply Z.lxor_eq in E. by apply Hinj in E.
Qed.
End secded.

(** ** Hsiao codes are SECDED codes *)

Lemma calc_syndrome_spec (c : code) :
  NoDup c → Forall (fun x => 0 ≤ x) c →
  0 ≤ calc_syndrome c ∧ ∀ j, 0 ≤ j → Z.testbit (calc_syndrome c) j = bool_decide (j ∈ c).
Proof.
  unfold calc_syndrome. induction c as [| x c IH] using rev_ind; intros Hnd Hp.
  - split; [done |]. intros j Hj. cbn [foldl]. rewrite Z.bits_0.
    symmetry. apply bool_decide_eq_false_2, not_elem_of_nil.
  - apply NoDup_app in Hnd as (Hnd & Hx & _). apply Forall_app in Hp as [Hp [Hx0 _]%Forall_cons].
    destruct (IH Hnd Hp) as [H0 Hbits]. rewrite foldl_app. cbn [foldl].
    set (s := foldl _ 0 c) in *. clearbody s. rewrite <- Z.shiftl_1_l.
    rewrite add_disjoint.
    + split; [apply Z.lor_nonneg; split; [done | apply Z.shiftl_nonneg; lia] |]. intros j Hj.
      rewrite Z.lor_spec, Hbits, testbit_shl1 by done.
      destruct (Z.eqb_spec j x) as [-> |].
      * rewrite orb_true_r. symmetry. apply bool_decide_eq_true_2. apply elem_of_app. right. by left.
      * rewrite orb_false_r. apply bool_decide_ext. rewrite elem_of_app, list_elem_of_singleton. tauto.
    + apply Z_bits_eq. intros j Hj. rewrite Z.land_spec, Hbits, testbit_shl1, Z.bits_0 by done.
      destruct (Z.eqb_spec j x) as [-> |]; [| apply andb_false_r].
      rewrite bool_decide_eq_false_2; [done |]. intros Hc. apply (Hx x Hc). by left.
Qed.

(** The parity of a row is that of its number of ones. *)
Lemma xsum_row m (c : code) :
  NoDup c → Forall (fun x => 0 ≤ x < m) c →
  xsum m (fun j => bool_decide (j ∈ c)) = Nat.odd (length c).
Proof.
  intros Hnd. induction Hnd as [| x c Hx Hnd IH]; intros Hr.
  - apply xsum_false. intros. apply bool_decide_eq_false_2, not_elem_of_nil.
  - apply Forall_cons in Hr as [Hx0 Hr].
    rewrite (xsum_ext _ _ (fun j => xorb (j =? x) (bool_decide (j ∈ c)))).
    + rewrite xsum_xorb, IH, (xsum_single m x) by (done || (intros; by zbool)).
      rewrite Z.eqb_refl. cbn [length]. rewrite Nat.odd_succ, <- Nat.negb_odd. by destruct (Nat.odd _).
    + intros j Hj. destruct (Z.eqb_spec j x) as [-> |].
      * rewrite (bool_decide_eq_true_2 (x ∈ x :: c)), (bool_decide_eq_false_2 (x ∈ c)) by (done || by left).
        done.
      * rewrite xorb_false_l. apply bool_decide_ext. rewrite elem_of_cons. tauto.
Qed.

Lemma row_NoDup m c : row_ok m c → NoDup c.
Proof.
  intros [Hs _ _ _]. induction Hs as [| x c Hs IH Hx]; constructor; [| done].
  intros Hin. eapply Forall_forall in Hx; [| exact Hin]. lia.
Qed.

#[local] Instance Zlt_antisymm : AntiSymm (=) Z.lt.
Proof. intros x y. lia. Qed.

(** Rows with the same ones are the same row. *)
Lemma row_ext m c c' :
  row_ok m c → row_ok m c' → (∀ j, 0 ≤ j < m → j ∈ c ↔ j ∈ c') → c = c'.
Proof.
  intros Hc Hc' H. apply (StronglySorted_unique Z.lt); [apply Hc | apply Hc' |].
  apply NoDup_Permutation; [by eapply row_NoDup .. |]. intros j. split; intros Hj.
  - apply H; [| done]. pose proof (row_range _ _ Hc) as Hr. by eapply Forall_forall in Hr.
  - apply H; [| done]. pose proof (row_range _ _ Hc') as Hr. by eapply Forall_forall in Hr.
Qed.

Section hsiao.
Context (k m : Z) (codes : list code).
Context (Hk : 1 ≤ k) (Hm : 1 ≤ m) (Hok : code_ok m codes) (Hlen : Z.of_nat (length codes) = k).

Lemma hsiao_rows_fit : rows_fit m codes.
Proof.
  destruct Hok as [_ Hrows]. eapply Forall_impl; [exact Hrows |]. intros c Hc.
  split; [by eapply row_NoDup | apply Hc].
Qed.

Lemma hsiao_row i : 0 ≤ i < k → ∃ c, codes !! Z.to_nat i = Some c ∧ row_ok m c.
Proof.
  intros Hi. destruct (lookup_lt_is_Some_2 codes (Z.to_nat i)) as [c Hc]; [lia |].
  exists c. split; [done |]. destruct Hok as [_ Hrows]. by eapply Forall_lookup_1.
Qed.

Lemma hsiao_row_mask j : in_bits k (row_mask codes j).
Proof. rewrite <- Hlen. rewrite <- (length_fmap (fun c => bool_decide (j ∈ c)) codes). apply of_bits_in_bits. Qed.

Lemma testbit_hsiao_mask a j :
  0 ≤ a → 0 ≤ j →
  Z.testbit (dec_mask k codes j) a =
    if a <? k then bool_decide (j ∈ codes !!! Z.to_nat a) else a =? k + j.
Proof.
  intros Ha Hj. unfold dec_mask. pose proof (hsiao_row_mask j) as Hr.
  rewrite add_disjoint by (apply in_bits_disjoint; [lia | by apply (in_bits_weaken k); [lia |]]).
  rewrite Z.lor_spec, testbit_shl1 by lia. destruct (Z.ltb_spec a k).
  - zbool. rewrite orb_false_r. unfold row_mask. rewrite testbit_of_bits, list_lookup_fmap by done.
    destruct (hsiao_row a) as (c & Hc & _); [lia |]. by rewrite (list_lookup_total_correct _ _ _ Hc), Hc.
  - by rewrite (testbit_in_bits k (row_mask codes j)) by (done || lia).
Qed.

Lemma testbit_hsiao_column a j :
  0 ≤ a → 0 ≤ j < m →
  Z.testbit (column (dec_masks k m codes) a) j =
    if a <? k then bool_decide (j ∈ codes !!! Z.to_nat a) else a =? k + j.
Proof.
  intros Ha Hj. unfold column, dec_masks. rewrite testbit_of_bits, !list_lookup_fmap by lia.
  rewrite lookup_seqZ_lt by lia. cbn [fmap option_fmap option_map default].
  rewrite Z.add_0_l, Z2Nat.id by lia. apply testbit_hsiao_mask; lia.
Qed.

Lemma hsiao_column_bits a : in_bits m (column (dec_masks k m codes) a).
Proof.
  unfold column. pose proof (of_bits_in_bits ((fun mask => Z.testbit mask a) <$> dec_masks k m codes)) as H.
  unfold dec_masks in H at 1. by rewrite !length_fmap, length_seqZ, Z2Nat.id in H by lia.
Qed.

Lemma hsiao_column_odd a : 0 ≤ a < k + m → parity m (column (dec_masks k m codes) a) = true.
Proof.
  intros Ha. unfold parity. destruct (Z.ltb_spec a k) as [Hlt | Hge].
  - rewrite (xsum_ext _ _ (fun j => bool_decide (j ∈ codes !!! Z.to_nat a))).
    + destruct (hsiao_row a) as (c & Hc & Hrow); [lia |]. rewrite (list_lookup_total_correct _ _ _ Hc).
      rewrite xsum_row; [apply Hrow | by eapply row_NoDup | apply Hrow].
    + intros j Hj. rewrite testbit_hsiao_column by lia. by zbool.
  - rewrite (xsum_single m (a - k)); [| lia |].
    + rewrite testbit_hsiao_column by lia. by zbool.
    + intros j Hj Hne. rewrite testbit_hsiao_column by lia. by zbool.
Qed.

Lemma hsiao_column_inj a b :
  0 ≤ a < k + m → 0 ≤ b < k + m →
  column (dec_masks k m codes) a = column (dec_masks k m codes) b → a = b.
Proof.
  assert (Hmixed : ∀ a b, 0 ≤ a < k → k ≤ b < k + m →
    column (dec_masks k m codes) a ≠ column (dec_masks k m codes) b).
  { clear a b. intros a b Ha Hb E. destruct (hsiao_row a) as (c & Hc & Hrow); [lia |].
    pose proof (row_weight _ _ Hrow) as Hw. pose proof (row_NoDup _ _ Hrow) as Hnd.
    destruct c as [| x [| y c]]; [cbn in Hw; lia .. |].
    pose proof (row_range _ _ Hrow) as [Hx [Hy _]%Forall_cons]%Forall_cons.
    apply NoDup_cons in Hnd as [Hnin _].
    assert (∀ z, z = x ∨ z = y → z = b - k) as Hz.
    { intros z Hz. assert (Hzr : 0 ≤ z < m) by (destruct Hz; lia).
      pose proof (f_equal (fun v => Z.testbit v z) E) as Eb. cbv beta in Eb.
      rewrite !testbit_hsiao_column in Eb by lia. rewrite (list_lookup_total_correct _ _ _ Hc) in Eb.
      rewrite (proj2 (Z.ltb_lt a k)), (proj2 (Z.ltb_ge b k)) in Eb by lia.
      rewrite bool_decide_eq_true_2 in Eb by (destruct Hz; subst; [by left | right; by left]).
      symmetry in Eb. apply Z.eqb_eq in Eb. lia. }
    apply Hnin. rewrite (Hz x), <- (Hz y) by auto. by left. }
  intros Ha Hb E.
  assert (Ebits : ∀ j, 0 ≤ j < m → Z.testbit (column (dec_masks k m codes) a) j =
    Z.testbit (column (dec_masks k m codes) b) j) by (intros; by rewrite E).
  destruct (Z.ltb_spec a k), (Z.ltb_spec b k).
  - destruct (hsiao_row a) as (c & Hc & Hrow), (hsiao_row b) as (c' & Hc' & Hrow'); [lia .. |].
    assert (c = c') as <-.
    { apply (row_ext m); [done | done |]. intros j Hj. specialize (Ebits j Hj).
      rewrite !testbit_hsiao_column in Ebits by lia.
      rewrite (list_lookup_total_correct _ _ _ Hc), (list_lookup_total_correct _ _ _ Hc') in Ebits.
      rewrite !(proj2 (Z.ltb_lt _ k)) in Ebits by lia.
      rewrite <- (bool_decide_eq_true (j ∈ c)), <- (bool_decide_eq_true (j ∈ c')), Ebits. done. }
    destruct Hok as [Hnd _]. pose proof (NoDup_lookup _ _ _ _ Hnd Hc Hc'). lia.
  - by destruct (Hmixed a b ltac:(lia) ltac:(lia)).
  - by destruct (Hmixed b a ltac:(lia) ltac:(lia)).
  - specialize (Ebits (a - k) ltac:(lia)). rewrite !testbit_hsiao_column in Ebits by lia.
    rewrite !(proj2 (Z.ltb_ge _ k)) in Ebits by lia.
    rewrite (proj2 (Z.eqb_eq a _)) in Ebits by lia. symmetry in Ebits. apply Z.eqb_eq in Ebits. lia.
Qed.

Lemma hsiao_syndrome i :
  0 ≤ i < k → calc_syndrome (codes !!! Z.to_nat i) = column (dec_masks k m codes) i.
Proof.
  intros Hi. destruct (hsiao_row i) as (c & Hc & Hrow); [lia |].
  pose proof (row_range _ _ Hrow) as Hrange.
  destruct (calc_syndrome_spec c) as [H0 Hbits];
    [by eapply row_NoDup | eapply Forall_impl; [exact Hrange | by cbn; lia] |].
  rewrite (list_lookup_total_correct _ _ _ Hc). apply Z_bits_eq. intros j Hj. rewrite Hbits by done.
  destruct (Z.ltb_spec j m).
  - rewrite testbit_hsiao_column by lia. zbool. by rewrite (list_lookup_total_correct _ _ _ Hc).
  - rewrite (testbit_in_bits m) by (apply hsiao_column_bits || lia).
    apply bool_decide_eq_false_2. intros Hin. eapply Forall_forall in Hrange; [| exact Hin]. lia.
Qed.
End hsiao.

(** ** Single error correction, double error detection *)

Definition corrects (single : Z → bool) (k m : Z) (codes : list code) (enc dec : list Z) : Prop :=
  ∀ data, in_bits k data →
    let word := encode_word (k + m) k enc data in
    let decode := decode_word single (k + m) k codes dec in
    decode word = (data, false, false) ∧
    (∀ a, 0 ≤ a < k + m → decode (word .^ (1 ≪ a)) = (data, true, false)) ∧
    (∀ a b, 0 ≤ a < k + m → 0 ≤ b < k + m → a ≠ b →
       ∃ d, decode (word .^ (1 ≪ a) .^ (1 ≪ b)) = (d, false, true)).

Lemma secded_corrects single k m codes :
  0 ≤ k → 0 ≤ m → (∀ x y, single (x .^ y) = xorb (single x) (single y)) →
  (∀ j, 0 ≤ j < m → in_bits (k + j) (row_mask codes j)) →
  (∀ a, 0 ≤ a < k + m → single (column (dec_masks k m codes) a) = true) →
  (∀ a b, 0 ≤ a < k + m → 0 ≤ b < k + m →
     column (dec_masks k m codes) a = column (dec_masks k m codes) b → a = b) →
  (∀ i, 0 ≤ i < k → calc_syndrome (codes !!! Z.to_nat i) = column (dec_masks k m codes) i) →
  corrects single k m codes (enc_masks m codes) (dec_masks k m codes).
Proof.
  intros ??????? data Hd. cbv zeta. split_and!.
  - by apply decode_no_error.
  - intros a Ha. by apply decode_single_error.
  - intros a b Ha Hb Hne. by apply decode_double_error.
Qed.

Lemma hsiao_corrects k m codes :
  1 ≤ k → 1 ≤ m → code_ok m codes → Z.of_nat (length codes) = k →
  corrects (parity m) k m codes (enc_masks m codes) (dec_masks k m codes).
Proof.
  intros Hk Hm Hok Hlen. apply secded_corrects; [lia | lia | intros; apply parity_lxor | | | |].
  - intros j Hj. apply (in_bits_weaken k); [lia |]. by apply hsiao_row_mask.
  - intros a Ha. by apply hsiao_column_odd.
  - intros a b Ha Hb. by apply hsiao_column_inj.
  - intros i Hi. by apply hsiao_syndrome.
Qed.

(** ** Hamming codes with the smallest number of parity bits

    The conditions, as a check that is evaluated for every number of data bits that the
    generator accepts. *)

Definition rows_fitb (m : Z) (codes : list code) : bool :=
  bool_decide (rows_fit m codes).

Definition hamming_check (k : Z) : bool :=
  let m := min_paritysize k in
  let codes := _hamming_code k m in
  let columns := column (dec_masks k m codes) <$> seqZ 0 (k + m) in
  (1 <=? m) &&
  rows_fitb m codes &&
  forallb (fun j => fits (k + j) (row_mask codes j)) (seqZ 0 m) &&
  forallb (fun c => Z.testbit c (m - 1)) columns &&
  bool_decide (NoDup columns) &&
  forallb (fun '(i, c) => calc_syndrome c =? default 0 (columns !! i)) (imap pair (take (Z.to_nat k) codes)) &&
  (k <=? Z.of_nat (length codes)).

Lemma hamming_checked k : 2 ≤ k ≤ 120 → hamming_check k = true.
Proof.
  intros Hk. assert (H : forallb hamming_check (seqZ 2 119) = true) by (vm_compute; reflexivity).
  rewrite forallb_forall in H. apply H, list_elem_of_In, elem_of_seqZ. lia.
Qed.

#[local] Opaque _hamming_code min_paritysize.

Lemma hamming_corrects k :
  2 ≤ k ≤ 120 →
  let m := min_paritysize k in
  let codes := _hamming_code k m in
  rows_fit m codes ∧ 1 ≤ m ∧
  corrects (fun s => Z.testbit s (m - 1)) k m codes (enc_masks m codes) (dec_masks k m codes).
Proof.
  intros Hk. pose proof (hamming_checked k Hk) as H. cbv zeta. unfold hamming_check in H.
  set (m := min_paritysize k) in *. set (codes := _hamming_code k m) in *.
  set (columns := column (dec_masks k m codes) <$> seqZ 0 (k + m)) in *.
  apply andb_prop in H as [H Hlen]. apply andb_prop in H as [H Hsyn]. apply andb_prop in H as [H Hnd].
  apply andb_prop in H as [H Hcol]. apply andb_prop in H as [H Hlow]. apply andb_prop in H as [Hm Hfit].
  apply Z.leb_le in Hm, Hlen. apply bool_decide_eq_true in Hnd, Hfit.
  rewrite forallb_forall in Hlow, Hcol, Hsyn.
  assert (Hat : ∀ a, 0 ≤ a < k + m → columns !! Z.to_nat a = Some (column (dec_masks k m codes) a)).
  { intros a Ha. unfold columns. rewrite list_lookup_fmap, lookup_seqZ_lt by lia. cbn. do 2 f_equal. lia. }
  split_and!; [done | done |]. apply secded_corrects; [lia | lia | intros; apply Z.lxor_spec | | | |].
  - intros j Hj. apply fits_spec; [lia |]. apply Hlow, list_elem_of_In, elem_of_seqZ. lia.
  - intros a Ha. apply Hcol, list_elem_of_In. by eapply list_elem_of_lookup_2, Hat.
  - intros a b Ha Hb E. pose proof (Hat a Ha) as Ea. rewrite E in Ea.
    pose proof (NoDup_lookup _ _ _ _ Hnd Ea (Hat b Hb)). lia.
  - intros i Hi. destruct (lookup_lt_is_Some_2 codes (Z.to_nat i)) as [c Hc]; [lia |].
    rewrite (list_lookup_total_correct _ _ _ Hc).
    assert (Hin : (Z.to_nat i, c) ∈ imap pair (take (Z.to_nat k) codes)).
    { apply elem_of_lookup_imap. exists (Z.to_nat i), c. split; [done |]. apply lookup_take_Some. split; [done | lia]. }
    apply list_elem_of_In, Hsyn, Z.eqb_eq in Hin. by rewrite Hin, Hat by lia.
Qed.
