(* ===== verification/Trace.v ===== *)
(** Trace entries of the OTBN simulator (otbnsim/sim/trace.py and the [Trace*]
    classes of the component files) and the error bits of err_bits.py. *)

From stdpp Require Import pretty.
From S2P Require Import Prelude.

(** * Error bits (err_bits.py) *)

Module err_bits.
Definition BAD_DATA_ADDR : Z := 1 ≪ 0.
Definition BAD_INSN_ADDR : Z := 1 ≪ 1.
Definition CALL_STACK : Z := 1 ≪ 2.
Definition ILLEGAL_INSN : Z := 1 ≪ 3.
Definition LOOP : Z := 1 ≪ 4.
Definition FATAL_IMEM : Z := 1 ≪ 5.
Definition FATAL_DMEM : Z := 1 ≪ 6.
Definition FATAL_REG : Z := 1 ≪ 7.
End err_bits.

(** * Values of a flag group: the four booleans of a [FlagReg] *)

Record flag_vals := mkFlags { fC : bool; fM : bool; fL : bool; fZ : bool }.

#[global] Instance flag_vals_eq_dec : EqDecision flag_vals.
Proof. solve_decision. Defined.

(** * Trace entries: one constructor per subclass of [Trace] *)

Inductive Trace : Type :=
  | TraceRegister (name : string) (width new_value : Z)
  | TracePC (pc : Z)
  | TraceDmemStore (addr value : Z) (is_wide : bool)
  | TraceLoopStart (iterations bodysize : Z)
  | TraceLoopIteration (iteration total : Z)
  | TraceExtRegChange (name op : string) (written : Z) (from_hw : bool) (new_value : Z)
  | TraceWSR (wsr_name : string) (new_value : Z)
  | TraceFlags (group : Z) (value : flag_vals).

#[global] Instance Trace_eq_dec : EqDecision Trace.
Proof. solve_decision. Defined.

(** ['{}{:02}'.format(pfx, idx)] for a non-negative [idx]. *)
Definition reg_name (pfx : string) (idx : Z) : string :=
  pfx +:+ (if idx <? 10 then "0" else "") +:+ pretty idx.
