(* ===== verification/Reg.v ===== *)
(** Registers and register files (otbnsim/sim/reg.py).

    A [Reg] has a committed value and an optional staged one.  A [RegFile] is
    the list of its registers and the set of indices written since the last
    commit; [commit] and [abort] only visit the registers of that set. *)

From stdpp Require Import sorting.
From S2P Require Import Prelude Trace.

(** * One register *)

Record Reg := mkReg { rg_width : Z; rg_uval : Z; rg_next_uval : option Z }.

Module Reg.
(** The constructor [Reg(parent, idx, width, uval)]; parent and index are
    kept by the register file. *)
Definition init (width uval : Z) : res Reg :=
  py_assert (0 <=? width);;
  py_assert ((0 <=? uval) && (uval <? 1 ≪ width));;
  Ok (mkReg width uval None).

Definition read_unsigned (r : Reg) : Z := rg_uval r.

Definition write_unsigned (v : Z) (r : Reg) : res Reg :=
  py_assert ((0 <=? v) && (v <? 1 ≪ rg_width r));;
  Ok (mkReg (rg_width r) (rg_uval r) (Some v)).

Definition read_next (r : Reg) : option Z := rg_next_uval r.

(** [uval - (1 << width if uval >> (width - 1) else 0)], for a value that
    has been read with [read_unsigned]. *)
Definition to_signed (width uval : Z) : Z :=
  uval - (if truthy (uval ≫ (width - 1)) then 1 ≪ width else 0).

Definition read_signed (r : Reg) : Z := to_signed (rg_width r) (read_unsigned r).

Definition read_unsigned_inverted (r : Reg) : Z :=
  read_unsigned r .^ mask (rg_width r).

(** The unsigned value [write_signed] stores for [ival]. *)
Definition of_signed (width ival : Z) : res Z :=
  py_assert ((- (1 ≪ (width - 1)) <=? ival) && (ival <? 1 ≪ (width - 1)));;
  Ok (if ival <? 0 then (1 ≪ width) + ival else ival).

Definition write_signed (ival : Z) (r : Reg) : res Reg :=
  uval ← of_signed (rg_width r) ival; write_unsigned uval r.

Definition commit (r : Reg) : Reg :=
  mkReg (rg_width r) (default (rg_uval r) (rg_next_uval r)) None.

Definition abort (r : Reg) : Reg := mkReg (rg_width r) (rg_uval r) None.

(** The signed view of a stored value is its two's complement reading. *)
Lemma to_signed_eq w v :
  0 < w → in_bits w v → to_signed w v = if v <? 2 ^ (w - 1) then v else v - 2 ^ w.
Proof.
  intros Hw [Hlo Hhi]. unfold to_signed, truthy.
  rewrite Z.shiftr_div_pow2, Z.shiftl_1_l by lia.
  assert (0 < 2 ^ (w - 1)) by lia.
  destruct (Z.ltb_spec v (2 ^ (w - 1))).
  - rewrite Z.div_small by lia. simpl. lia.
  - assert (1 ≤ v `div` 2 ^ (w - 1)) by (apply Z.div_le_lower_bound; lia).
    destruct (Z.eqb_spec (v `div` 2 ^ (w - 1)) 0); simpl; lia.
Qed.

Lemma reg_to_signed_range w v :
  0 < w → in_bits w v → - 2 ^ (w - 1) ≤ to_signed w v < 2 ^ (w - 1).
Proof.
  intros Hw Hv. rewrite to_signed_eq by done. destruct Hv.
  assert (2 ^ w = 2 * 2 ^ (w - 1)) by (rewrite <- Z.pow_succ_r by lia; f_equal; lia).
  destruct (Z.ltb_spec v (2 ^ (w - 1))); lia.
Qed.

Lemma of_signed_ok w i :
  0 < w → - 2 ^ (w - 1) ≤ i < 2 ^ (w - 1) →
  of_signed w i = Ok (i `mod` 2 ^ w) ∧ in_bits w (i `mod` 2 ^ w).
Proof.
  intros Hw Hi. unfold of_signed. rewrite !Z.shiftl_1_l.
  assert (2 ^ w = 2 * 2 ^ (w - 1)) by (rewrite <- Z.pow_succ_r by lia; f_equal; lia).
  rewrite (proj2 (Z.leb_le (- 2 ^ (w - 1)) i)), (proj2 (Z.ltb_lt i (2 ^ (w - 1)))) by lia.
  simpl. split; [| apply Z.mod_pos_bound; lia]. f_equal.
  destruct (Z.ltb_spec i 0).
  - rewrite <- (Z.mod_small (2 ^ w + i) (2 ^ w)) by lia.
    by rewrite Z.add_comm, <- (Z.mul_1_l (2 ^ w)) at 1; rewrite Z.mod_add by lia.
  - by rewrite Z.mod_small by lia.
Qed.

(** A register whose committed and staged values fit its width. *)
Definition wf (w : Z) (r : Reg) : Prop :=
  rg_width r = w ∧ in_bits w (rg_uval r) ∧ from_option (in_bits w) True (rg_next_uval r).
End Reg.

(** * A register file *)

Record RegFile := mkRegFile {
  rf_name_pfx : string;
  rf_width : Z;
  rf_registers : list Reg;
  rf_pending_writes : gset Z
}.

Module RegFile.
Definition init (name_pfx : string) (width depth : Z) : res RegFile :=
  py_assert (0 <=? width);;
  py_assert (0 <=? depth);;
  regs ← mapR (fun _ => Reg.init width 0) (seqZ 0 depth);
  Ok (mkRegFile name_pfx width regs ∅).

Definition in_range (idx : Z) (rf : RegFile) : bool :=
  (0 <=? idx) && (idx <? Z.of_nat (length (rf_registers rf))).

Definition set_registers (regs : list Reg) (rf : RegFile) : RegFile :=
  mkRegFile (rf_name_pfx rf) (rf_width rf) regs (rf_pending_writes rf).

Definition set_pending (p : gset Z) (rf : RegFile) : RegFile :=
  mkRegFile (rf_name_pfx rf) (rf_width rf) (rf_registers rf) p.

Definition mark_written (idx : Z) (rf : RegFile) : res RegFile :=
  py_assert (in_range idx rf);;
  Ok (set_pending ({[ idx ]} ∪ rf_pending_writes rf) rf).

Definition get_reg (idx : Z) (rf : RegFile) : res Reg :=
  py_assert (in_range idx rf);;
  of_option IndexError (rf_registers rf !! Z.to_nat idx).

(** [rf.get_reg(idx).read_unsigned()] *)
Definition read_unsigned (idx : Z) : M RegFile Z := fun rf =>
  r ← get_reg idx rf; Ok (Reg.read_unsigned r, rf).

Definition read_signed (idx : Z) : M RegFile Z := fun rf =>
  r ← get_reg idx rf; Ok (Reg.read_signed r, rf).

(** [rf.get_reg(idx).write_unsigned(v)]: the register stages the value and
    reports itself to its parent. *)
Definition write_unsigned (idx v : Z) : M RegFile () := fun rf =>
  r ← get_reg idx rf;
  r' ← Reg.write_unsigned v r;
  rf' ← mark_written idx (set_registers (<[Z.to_nat idx := r']> (rf_registers rf)) rf);
  Ok ((), rf').

Definition write_signed (idx v : Z) : M RegFile () := fun rf =>
  r ← get_reg idx rf;
  uval ← Reg.of_signed (rg_width r) v;
  write_unsigned idx uval rf.

(** [sorted(self._pending_writes)] *)
Definition sorted_pending (rf : RegFile) : list Z :=
  merge_sort Z.le (elements (rf_pending_writes rf)).

(** The body of [changes], with [self.get_reg(idx).read_next()] as an argument
    because [GPRs] overrides [get_reg]. *)
Definition changes_with (next : Z → res (option Z)) (rf : RegFile) : res (list Trace) :=
  mapR (fun idx =>
    py_assert (in_range idx rf);;
    next_val ← next idx;
    v ← of_option AssertionError next_val;
    Ok (TraceRegister (reg_name (rf_name_pfx rf) idx) (rf_width rf) v))
    (sorted_pending rf).

Definition changes (rf : RegFile) : res (list Trace) :=
  changes_with (fun idx => r ← get_reg idx rf; Ok (Reg.read_next r)) rf.

(** [for idx in self._pending_writes: self._registers[idx].f()] *)
Definition visit_pending (f : Reg → Reg) (rf : RegFile) : res (list Reg) :=
  foldM (fun regs idx =>
    py_assert ((0 <=? idx) && (idx <? Z.of_nat (length regs)));;
    Ok (alter f (Z.to_nat idx) regs))
    (rf_registers rf) (elements (rf_pending_writes rf)).

Definition commit (rf : RegFile) : res RegFile :=
  regs ← visit_pending Reg.commit rf;
  Ok (set_pending ∅ (set_registers regs rf)).

Definition abort (rf : RegFile) : res RegFile :=
  regs ← visit_pending Reg.abort rf;
  Ok (set_pending ∅ (set_registers regs rf)).

Definition peek_unsigned_values (rf : RegFile) : list Z :=
  map Reg.read_unsigned (rf_registers rf).

(** Every register is well formed, every pending index names a register, and
    only pending registers have a staged value. *)
Record wf (w n : Z) (rf : RegFile) : Prop := {
  wf_width : rf_width rf = w;
  wf_len : Z.of_nat (length (rf_registers rf)) = n;
  wf_regs : Forall (Reg.wf w) (rf_registers rf);
  wf_pending : ∀ i, i ∈ rf_pending_writes rf → 0 ≤ i < n;
  wf_clean : ∀ i r, rf_registers rf !! i = Some r →
    Z.of_nat i ∉ rf_pending_writes rf → rg_next_uval r = None
}.

(** Every pending register has a staged value. *)
Definition staged (rf : RegFile) : Prop :=
  ∀ i, i ∈ rf_pending_writes rf →
    ∃ r, rf_registers rf !! Z.to_nat i = Some r ∧ is_Some (rg_next_uval r).

(** The committed value of a register, and the one a commit would leave. *)
Definition value (rf : RegFile) (i : Z) : Z :=
  from_option rg_uval 0 (rf_registers rf !! Z.to_nat i).
Definition next_value (rf : RegFile) (i : Z) : Z :=
  from_option (fun r => default (rg_uval r) (rg_next_uval r)) 0
    (rf_registers rf !! Z.to_nat i).

(** ** Visiting the pending registers *)

Lemma visit_foldM f (l : list Z) regs :
  NoDup l → (∀ i, i ∈ l → 0 ≤ i < Z.of_nat (length regs)) →
  ∃ regs', foldM (fun regs idx =>
      py_assert ((0 <=? idx) && (idx <? Z.of_nat (length regs)));;
      Ok (alter f (Z.to_nat idx) regs)) regs l = Ok regs' ∧
    length regs' = length regs ∧
    ∀ i, regs' !! i = (if decide (Z.of_nat i ∈ l) then f else @id Reg) <$> regs !! i.
Proof.
  revert regs. induction l as [| x l IH]; intros regs Hnd Hr; cbn [foldM].
  - exists regs. split; [done |]. split; [done |]. intros i.
    case_decide as Hi; [by apply not_elem_of_nil in Hi |]. by destruct (regs !! i).
  - apply NoDup_cons in Hnd as [Hx Hnd].
    assert (Hb : 0 ≤ x < Z.of_nat (length regs)) by (apply Hr; left).
    zbool. simpl.
    destruct (IH (alter f (Z.to_nat x) regs)) as (regs' & E & Hlen & Hl); [done | |].
    { intros i Hi. rewrite length_alter. apply Hr. by right. }
    exists regs'. split; [exact E |]. rewrite length_alter in Hlen.
    split; [done |]. intros i. rewrite Hl.
    destruct (decide (i = Z.to_nat x)) as [-> | Hne].
    + rewrite list_lookup_alter_eq, Z2Nat.id by lia.
      destruct (decide (x ∈ l)) as [| _]; [done |].
      destruct (decide (x ∈ x :: l)) as [_ | []]; [| by left].
      by destruct (regs !! Z.to_nat x).
    + rewrite list_lookup_alter_ne by done.
      destruct (decide (Z.of_nat i ∈ l)) as [Hi | Hi];
        destruct (decide (Z.of_nat i ∈ x :: l)) as [Hi' | Hi']; try done.
      * destruct Hi'. by right.
      * apply elem_of_cons in Hi' as [? | ?]; [lia | done].
Qed.

Section wf_lemmas.
Context (w n : Z) (Hw : 0 ≤ w).

Lemma visit_pending_spec f rf :
  wf w n rf →
  ∃ regs', visit_pending f rf = Ok regs' ∧
    length regs' = length (rf_registers rf) ∧
    ∀ i, regs' !! i =
      (if decide (Z.of_nat i ∈ rf_pending_writes rf) then f else @id Reg)
        <$> rf_registers rf !! i.
Proof.
  intros Hwf. destruct (visit_foldM f (elements (rf_pending_writes rf))
    (rf_registers rf)) as (regs' & E & Hlen & Hl).
  - apply NoDup_elements.
  - intros i Hi%elem_of_elements. rewrite (wf_len _ _ _ Hwf).
    by apply (wf_pending _ _ _ Hwf).
  - exists regs'. split; [exact E |]. split; [done |]. intros i. rewrite Hl.
    destruct (decide (Z.of_nat i ∈ elements (rf_pending_writes rf))) as [Hi | Hi];
      rewrite elem_of_elements in Hi; by case_decide.
Qed.

(** Visiting the pending registers is the same as visiting all of them, for
    a visit that does nothing to a register with no staged value. *)
Lemma visit_pending_all f rf :
  wf w n rf → (∀ r, rg_next_uval r = None → f r = r) →
  visit_pending f rf = Ok (f <$> rf_registers rf).
Proof.
  intros Hwf Hf. destruct (visit_pending_spec f rf Hwf) as (regs' & E & _ & Hl).
  rewrite E. f_equal. apply list_eq. intros i. rewrite Hl, list_lookup_fmap.
  destruct (rf_registers rf !! i) as [r |] eqn:Hr; [| done]. simpl.
  case_decide as Hi; [done |]. simpl. unfold id.
  rewrite Hf; [done |]. by eapply (wf_clean _ _ _ Hwf).
Qed.

Lemma regfile_commit_clean r : rg_next_uval r = None → Reg.commit r = r.
Proof. destruct r as [? ? o]. simpl. by intros ->. Qed.

Lemma regfile_abort_clean r : rg_next_uval r = None → Reg.abort r = r.
Proof. destruct r as [? ? o]. simpl. by intros ->. Qed.

Lemma commit_all rf :
  wf w n rf →
  commit rf = Ok (mkRegFile (rf_name_pfx rf) (rf_width rf)
                    (Reg.commit <$> rf_registers rf) ∅).
Proof.
  intros Hwf. unfold commit.
  by rewrite (visit_pending_all Reg.commit rf Hwf regfile_commit_clean).
Qed.

Lemma abort_all rf :
  wf w n rf →
  abort rf = Ok (mkRegFile (rf_name_pfx rf) (rf_width rf)
                   (Reg.abort <$> rf_registers rf) ∅).
Proof.
  intros Hwf. unfold abort.
  by rewrite (visit_pending_all Reg.abort rf Hwf regfile_abort_clean).
Qed.

Lemma wf_map f rf :
  wf w n rf → (∀ r, Reg.wf w r → Reg.wf w (f r) ∧ rg_next_uval (f r) = None) →
  wf w n (mkRegFile (rf_name_pfx rf) (rf_width rf) (f <$> rf_registers rf) ∅).
Proof.
  intros [Hrw Hlen Hregs _ _] Hf. split; simpl.
  - done.
  - by rewrite length_fmap.
  - apply Forall_fmap. eapply Forall_impl; [exact Hregs |]. intros r Hr. by apply Hf.
  - set_solver.
  - intros i r. rewrite list_lookup_fmap. intros (r' & Hr' & ->)%fmap_Some _.
    apply Hf. by eapply Forall_lookup_1 in Hr'.
Qed.

Lemma Reg_wf_commit r : Reg.wf w r → Reg.wf w (Reg.commit r) ∧ rg_next_uval (Reg.commit r) = None.
Proof.
  intros (? & ? & ?). unfold Reg.wf. simpl. destruct (rg_next_uval r); auto.
Qed.

Lemma Reg_wf_abort r : Reg.wf w r → Reg.wf w (Reg.abort r) ∧ rg_next_uval (Reg.abort r) = None.
Proof. intros (? & ? & ?). by unfold Reg.wf. Qed.

Lemma regfile_commit_wf rf : wf w n rf → ∃ rf', commit rf = Ok rf' ∧ wf w n rf'.
Proof. intros H. eexists. split; [by apply commit_all |]. apply wf_map, Reg_wf_commit; done. Qed.

Lemma regfile_abort_wf rf : wf w n rf → ∃ rf', abort rf = Ok rf' ∧ wf w n rf'.
Proof. intros H. eexists. split; [by apply abort_all |]. apply wf_map, Reg_wf_abort; done. Qed.

Lemma get_reg_wf idx rf :
  wf w n rf → 0 ≤ idx < n →
  ∃ r, get_reg idx rf = Ok r ∧ rf_registers rf !! Z.to_nat idx = Some r ∧ Reg.wf w r.
Proof.
  intros Hwf Hi. unfold get_reg, in_range. rewrite (wf_len _ _ _ Hwf).
  zbool. simpl.
  destruct (lookup_lt_is_Some_2 (rf_registers rf) (Z.to_nat idx)) as [r Hr].
  { pose proof (wf_len _ _ _ Hwf). lia. }
  exists r. rewrite Hr. split; [done |]. split; [done |].
  eapply Forall_lookup_1; [apply Hwf | done].
Qed.

(** The staged write, spelled out. *)
Lemma write_unsigned_eq idx v rf :
  wf w n rf → 0 ≤ idx < n → in_bits w v →
  write_unsigned idx v rf =
    Ok ((), mkRegFile (rf_name_pfx rf) (rf_width rf)
              (alter (fun r => mkReg (rg_width r) (rg_uval r) (Some v))
                 (Z.to_nat idx) (rf_registers rf))
              ({[ idx ]} ∪ rf_pending_writes rf)).
Proof.
  intros Hwf Hi Hv. destruct (get_reg_wf idx rf Hwf Hi) as (r & E & Hl & Hr).
  unfold write_unsigned. rewrite E. simpl.
  assert (Hf : (0 <=? v) && (v <? 1 ≪ rg_width r) = true).
  { destruct Hr as [-> _]. by apply fits_spec. }
  unfold Reg.write_unsigned. rewrite Hf. simpl.
  unfold mark_written, in_range, set_registers. simpl.
  rewrite length_insert, (wf_len _ _ _ Hwf).
  zbool. simpl.
  unfold set_pending. simpl. do 3 f_equal.
  apply list_eq. intros j. destruct (decide (j = Z.to_nat idx)) as [-> | Hne].
  - rewrite list_lookup_insert_eq by (by eapply lookup_lt_Some).
    by rewrite list_lookup_alter_eq, Hl.
  - by rewrite list_lookup_insert_ne, list_lookup_alter_ne.
Qed.

Lemma write_unsigned_wf idx v rf :
  wf w n rf → 0 ≤ idx < n → in_bits w v →
  wf w n (mkRegFile (rf_name_pfx rf) (rf_width rf)
            (alter (fun r => mkReg (rg_width r) (rg_uval r) (Some v))
               (Z.to_nat idx) (rf_registers rf))
            ({[ idx ]} ∪ rf_pending_writes rf)).
Proof.
  intros [Hrw Hlen Hregs Hp Hc] Hi Hv. split; simpl.
  - done.
  - by rewrite length_alter.
  - apply Forall_alter; [done |]. intros r _ (? & ? & _). by unfold Reg.wf.
  - set_solver by lia.
  - intros j r Hj Hnot. rewrite list_lookup_alter_ne in Hj by set_solver by lia.
    apply (Hc j); [done | set_solver].
Qed.

Lemma write_unsigned_staged idx v rf :
  wf w n rf → 0 ≤ idx < n → staged rf →
  staged (mkRegFile (rf_name_pfx rf) (rf_width rf)
            (alter (fun r => mkReg (rg_width r) (rg_uval r) (Some v))
               (Z.to_nat idx) (rf_registers rf))
            ({[ idx ]} ∪ rf_pending_writes rf)).
Proof.
  intros Hwf Hi Hs i. simpl. intros Hin.
  destruct (decide (i = idx)) as [-> | Hne].
  - destruct (get_reg_wf idx rf Hwf Hi) as (r & _ & Hl & _).
    rewrite list_lookup_alter_eq, Hl. simpl. eauto.
  - assert (Hin' : i ∈ rf_pending_writes rf) by set_solver.
    pose proof (wf_pending _ _ _ Hwf _ Hin').
    rewrite list_lookup_alter_ne by lia. by apply Hs.
Qed.

Lemma read_unsigned_eq idx rf :
  wf w n rf → 0 ≤ idx < n → read_unsigned idx rf = Ok (value rf idx, rf).
Proof.
  intros Hwf Hi. destruct (get_reg_wf idx rf Hwf Hi) as (r & E & Hl & _).
  unfold read_unsigned, value. by rewrite E, Hl.
Qed.

Lemma regfile_value_in_bits idx rf : wf w n rf → 0 ≤ idx < n → in_bits w (value rf idx).
Proof.
  intros Hwf Hi. destruct (get_reg_wf idx rf Hwf Hi) as (r & _ & Hl & Hr).
  unfold value. rewrite Hl. apply Hr.
Qed.

Lemma regfile_write_unsigned_ok idx v rf :
  wf w n rf → 0 ≤ idx < n → in_bits w v →
  ∃ rf', write_unsigned idx v rf = Ok ((), rf') ∧ wf w n rf' ∧
    (staged rf → staged rf') ∧
    (∀ i, value rf' i = value rf i) ∧
    (∀ i, 0 ≤ i → next_value rf' i = if decide (i = idx) then v else next_value rf i).
Proof.
  intros Hwf Hi Hv. eexists. split; [by apply write_unsigned_eq |].
  split; [by apply write_unsigned_wf |]. split; [by apply write_unsigned_staged |].
  destruct (get_reg_wf idx rf Hwf Hi) as (r & _ & Hl & _).
  unfold value, next_value. cbn. split; intros i.
  - destruct (decide (Z.to_nat i = Z.to_nat idx)) as [-> | ?].
    + by rewrite list_lookup_alter_eq, Hl.
    + by rewrite list_lookup_alter_ne.
  - intros ?. case_decide as Hc.
    + subst. by rewrite list_lookup_alter_eq, Hl.
    + by rewrite list_lookup_alter_ne by lia.
Qed.

Lemma changes_with_ok next rf :
  wf w n rf → (∀ i, i ∈ rf_pending_writes rf → ∃ v, next i = Ok (Some v)) →
  ∃ l, changes_with next rf = Ok l.
Proof.
  intros Hwf Hn. apply mapR_ok. intros i.
  unfold sorted_pending. rewrite merge_sort_Permutation, elem_of_elements.
  intros Hi. unfold in_range. rewrite (wf_len _ _ _ Hwf).
  pose proof (wf_pending _ _ _ Hwf _ Hi). zbool.
  destruct (Hn i Hi) as [v ->]. by eexists.
Qed.

Lemma regfile_changes_ok rf : wf w n rf → staged rf → ∃ l, changes rf = Ok l.
Proof.
  intros Hwf Hs. apply changes_with_ok; [done |]. intros i Hi.
  destruct (get_reg_wf i rf Hwf) as (r & -> & Hl & _).
  { by apply (wf_pending _ _ _ Hwf). }
  destruct (Hs i Hi) as (r' & Hl' & [v Hv]). simplify_eq. simpl.
  unfold Reg.read_next. rewrite Hv. eauto.
Qed.
End wf_lemmas.
End RegFile.
