(* ===== verification/Gpr.v ===== *)
(** The narrow register file (otbnsim/sim/gpr.py): x0 reads as zero and ignores
    writes, x1 is the call stack, the others are registers of a [RegFile].

    The call stack is a list with its top at the head (the Python list has its
    top at the end), so [stack[-1]] is the head and [append] is [cons]. *)

From S2P Require Import Prelude Trace Reg.

Record CallStackReg := mkCSR {
  cs_uval : Z;
  cs_next_uval : option Z;
  cs_stack : list Z;
  cs_saw_read : bool
}.

Record GPRs := mkGPRs {
  gp_file : RegFile;
  gp_x1 : CallStackReg;
  gp_err_flag : bool
}.

Module CallStackReg.
Definition stack_depth : Z := 8.

Definition init : CallStackReg := mkCSR 0 None [] false.

(** [read_unsigned(backdoor=True)] *)
Definition read_backdoor (c : CallStackReg) : Z :=
  match cs_stack c with [] => 0xcafef00d | v :: _ => v end.

(** [read_unsigned()]: the value, whether the parent's error flag is to be
    raised, and the register after the read. *)
Definition read_unsigned (c : CallStackReg) : Z * bool * CallStackReg :=
  match cs_stack c with
  | [] => (0, true, c)
  | v :: _ => (v, false, mkCSR (cs_uval c) (cs_next_uval c) (cs_stack c) true)
  end.

Definition write_unsigned (v : Z) (c : CallStackReg) : res CallStackReg :=
  py_assert ((0 <=? v) && (v <? 1 ≪ 32));;
  Ok (mkCSR (cs_uval c) (Some v) (cs_stack c) (cs_saw_read c)).

(** Does [post_insn] raise the parent's error flag? *)
Definition post_insn (c : CallStackReg) : bool :=
  match cs_next_uval c with
  | Some _ => negb (cs_saw_read c) && (Z.of_nat (length (cs_stack c)) =? 8)
  | None => false
  end.

Definition commit (c : CallStackReg) : res CallStackReg :=
  stack ← (if cs_saw_read c
           then py_assert (negb (bool_decide (cs_stack c = [])));; Ok (tail (cs_stack c))
           else Ok (cs_stack c));
  stack' ← match cs_next_uval c with
           | Some v => py_assert (Z.of_nat (length stack) <=? 8);; Ok (v :: stack)
           | None => Ok stack
           end;
  Ok (mkCSR (default (cs_uval c) (cs_next_uval c)) None stack' false).

Definition abort (c : CallStackReg) : CallStackReg :=
  mkCSR (cs_uval c) None (cs_stack c) false.

Record wf (c : CallStackReg) : Prop := {
  wf_uval : in_bits 32 (cs_uval c);
  wf_next : from_option (in_bits 32) True (cs_next_uval c);
  wf_stack : Forall (in_bits 32) (cs_stack c);
  wf_depth : Z.of_nat (length (cs_stack c)) ≤ stack_depth;
  wf_read : cs_saw_read c = true → cs_stack c ≠ []
}.
End CallStackReg.

Module GPRs.
Definition set_file (f : RegFile) (g : GPRs) : GPRs := mkGPRs f (gp_x1 g) (gp_err_flag g).
Definition set_x1 (c : CallStackReg) (g : GPRs) : GPRs := mkGPRs (gp_file g) c (gp_err_flag g).
Definition set_err (b : bool) (g : GPRs) : GPRs := mkGPRs (gp_file g) (gp_x1 g) b.

Definition init : res GPRs :=
  file ← RegFile.init "x" 32 32;
  Ok (mkGPRs file CallStackReg.init false).

(** [gprs.get_reg(idx).read_unsigned()], through the overridden [get_reg]. *)
Definition read_unsigned (idx : Z) : M GPRs Z :=
  if idx =? 0 then mret 0
  else if idx =? 1 then fun g =>
    let '(v, err, c) := CallStackReg.read_unsigned (gp_x1 g) in
    Ok (v, set_err (err || gp_err_flag g) (set_x1 c g))
  else zoom gp_file set_file (RegFile.read_unsigned idx).

(** [gprs.get_reg(idx).read_signed()]; registers are 32 bits wide. *)
Definition read_signed (idx : Z) : M GPRs Z :=
  v ← read_unsigned idx; mret (Reg.to_signed 32 v).

(** [gprs.get_reg(idx).write_unsigned(v)]; a write to x0 goes to a fresh
    register that nothing refers to. *)
Definition write_unsigned (idx v : Z) : M GPRs () :=
  if idx =? 0 then assertM ((0 <=? v) && (v <? 1 ≪ 32))
  else if idx =? 1 then fun g =>
    c ← CallStackReg.write_unsigned v (gp_x1 g);
    f ← RegFile.mark_written 1 (gp_file g);
    Ok ((), set_file f (set_x1 c g))
  else zoom gp_file set_file (RegFile.write_unsigned idx v).

Definition write_signed (idx v : Z) : M GPRs () :=
  uval ← lift (Reg.of_signed 32 v); write_unsigned idx uval.

(** [gprs.get_reg(idx).read_next()] *)
Definition read_next (g : GPRs) (idx : Z) : res (option Z) :=
  if idx =? 0 then Ok None
  else if idx =? 1 then Ok (cs_next_uval (gp_x1 g))
  else r ← RegFile.get_reg idx (gp_file g); Ok (Reg.read_next r).

Definition changes (g : GPRs) : res (list Trace) :=
  RegFile.changes_with (read_next g) (gp_file g).

(** The call stack, bottom first. *)
Definition peek_call_stack (g : GPRs) : list Z := reverse (cs_stack (gp_x1 g)).

(** Inherited from [RegFile]: it walks the underlying registers, so entry 1
    is the unused register behind x1. *)
Definition peek_unsigned_values (g : GPRs) : list Z :=
  RegFile.peek_unsigned_values (gp_file g).

Definition post_insn (g : GPRs) : GPRs :=
  if CallStackReg.post_insn (gp_x1 g) then set_err true g else g.

Definition err_bits (g : GPRs) : Z :=
  if gp_err_flag g then err_bits.CALL_STACK else 0.

Definition commit (g : GPRs) : res GPRs :=
  f ← RegFile.commit (gp_file g);
  py_assert (negb (gp_err_flag g));;
  c ← CallStackReg.commit (gp_x1 g);
  Ok (set_x1 c (set_file f g)).

Definition abort (g : GPRs) : res GPRs :=
  f ← RegFile.abort (gp_file g);
  Ok (mkGPRs f (CallStackReg.abort (gp_x1 g)) false).

(** The staged part of the file agrees with the pending set. *)
Definition staged (g : GPRs) : Prop :=
  ∀ i, i ∈ rf_pending_writes (gp_file g) → ∃ v, read_next g i = Ok (Some v).

Record wf (g : GPRs) : Prop := {
  wf_file : RegFile.wf 32 32 (gp_file g);
  wf_x1 : CallStackReg.wf (gp_x1 g);
  wf_staged : staged g;
  wf_dead : rf_registers (gp_file g) !! 1%nat = Some (mkReg 32 0 None)
}.

(** The value the program sees in register [idx], with no side effect. *)
Definition value (g : GPRs) (idx : Z) : Z :=
  if idx =? 0 then 0
  else if idx =? 1 then match cs_stack (gp_x1 g) with [] => 0 | v :: _ => v end
  else from_option rg_uval 0 (rf_registers (gp_file g) !! Z.to_nat idx).

(** ** Reads *)

Lemma read_unsigned_value idx g :
  wf g → 0 ≤ idx < 32 →
  ∃ g', read_unsigned idx g = Ok (value g idx, g') ∧ wf g' ∧
    gp_file g' = gp_file g ∧ cs_stack (gp_x1 g') = cs_stack (gp_x1 g) ∧
    cs_next_uval (gp_x1 g') = cs_next_uval (gp_x1 g) ∧
    (∀ i, value g' i = value g i).
Proof.
  intros Hwf Hi. unfold read_unsigned, value.
  destruct (Z.eqb_spec idx 0) as [-> | H0]; [by exists g |].
  destruct (Z.eqb_spec idx 1) as [-> | H1].
  - unfold CallStackReg.read_unsigned.
    destruct (cs_stack (gp_x1 g)) as [| v st] eqn:Est; eexists; (split; [done |]);
      simpl; rewrite ?Est; (split; [| by unfold value; cbn; rewrite ?Est]).
    + destruct Hwf; by split.
    + destruct Hwf as [? [] Hst ?]. rewrite Est in *.
      split; simpl; [done | by split | | done].
      intros i Hin. destruct (Hst i Hin) as [v' Hv']. exists v'.
      by rewrite <- Hv'; unfold read_next.
  - destruct (RegFile.get_reg_wf 32 32 idx (gp_file g)) as (r & E & Hl & Hr);
      [apply Hwf | done |].
    exists g. unfold zoom, RegFile.read_unsigned. rewrite E, Hl. simpl.
    destruct g; done.
Qed.

Lemma gprs_value_in_bits g idx : wf g → 0 ≤ idx < 32 → in_bits 32 (value g idx).
Proof.
  intros Hwf Hi. unfold value.
  destruct (Z.eqb_spec idx 0); [by apply in_bits_0 |].
  destruct (Z.eqb_spec idx 1).
  - destruct (cs_stack (gp_x1 g)) eqn:Est; [by apply in_bits_0 |].
    pose proof (CallStackReg.wf_stack _ (wf_x1 _ Hwf)) as Hst.
    rewrite Est in Hst. by apply Forall_cons in Hst as [? _].
  - destruct (RegFile.get_reg_wf 32 32 idx (gp_file g)) as (r & E & Hl & Hr);
      [apply Hwf | done |]. rewrite Hl. apply Hr.
Qed.

(** ** Writes *)

Lemma wf_set_file f g :
  wf g → RegFile.wf 32 32 f →
  rf_registers f !! 1%nat = Some (mkReg 32 0 None) →
  staged (set_file f g) → wf (set_file f g).
Proof. by intros [] ? ? ?. Qed.

Lemma gprs_write_unsigned_ok idx v g :
  wf g → 0 ≤ idx < 32 → in_bits 32 v →
  ∃ g', write_unsigned idx v g = Ok ((), g') ∧ wf g' ∧
    gp_err_flag g' = gp_err_flag g ∧ (∀ i, value g' i = value g i) ∧
    cs_stack (gp_x1 g') = cs_stack (gp_x1 g) ∧
    cs_saw_read (gp_x1 g') = cs_saw_read (gp_x1 g).
Proof.
  intros Hwf Hi Hv. unfold write_unsigned.
  assert (Hfit : (0 <=? v) && (v <? 1 ≪ 32) = true) by (by apply fits_spec).
  destruct (Z.eqb_spec idx 0) as [-> | H0].
  { exists g. unfold assertM, lift. rewrite Hfit. done. }
  destruct (Z.eqb_spec idx 1) as [-> | H1].
  - unfold CallStackReg.write_unsigned. rewrite Hfit. simpl.
    unfold RegFile.mark_written, RegFile.in_range.
    rewrite (RegFile.wf_len _ _ _ (wf_file _ Hwf)). simpl.
    eexists. split; [done |].
    destruct Hwf as [[] [] Hst ?]. split; [| done].
    split; simpl; [split; simpl; [done .. | set_solver by lia | set_solver] |
                   by split; simpl | | done].
    intros i Hin. destruct (decide (i = 1)) as [-> | Hne]; [by exists v |].
    destruct (Hst i) as [v' Hv']; [set_solver |]. exists v'.
    rewrite <- Hv'. unfold read_next. by zbool.
  - unfold zoom. rewrite (RegFile.write_unsigned_eq 32 32) by (done || apply Hwf).
    cbn. eexists. split; [done |].
    assert (Hl : ∀ i, i ≠ Z.to_nat idx →
      alter (fun r => mkReg (rg_width r) (rg_uval r) (Some v)) (Z.to_nat idx)
        (rf_registers (gp_file g)) !! i = rf_registers (gp_file g) !! i)
      by (intros; by apply list_lookup_alter_ne).
    destruct (RegFile.get_reg_wf 32 32 idx (gp_file g)) as (r & E & Hr & _);
      [apply Hwf | done |].
    split.
    + apply wf_set_file; [done | by apply RegFile.write_unsigned_wf; [| apply Hwf | ..] | |].
      { cbn [rf_registers]. rewrite Hl by lia. apply Hwf. }
      intros i. cbn [gp_file set_file rf_pending_writes]. intros Hin. unfold read_next.
      destruct (decide (i = idx)) as [-> | Hne].
      * zbool. unfold RegFile.get_reg, RegFile.in_range. cbn [rf_registers gp_file set_file].
        rewrite length_alter, (RegFile.wf_len _ _ _ (wf_file _ Hwf)). zbool. simpl.
        rewrite list_lookup_alter_eq, Hr. by exists v.
      * destruct (wf_staged _ Hwf i) as [v' Hv']; [set_solver |]. exists v'.
        assert (0 ≤ i < 32) by (apply (RegFile.wf_pending _ _ _ (wf_file _ Hwf)); set_solver).
        rewrite <- Hv'. unfold read_next. destruct (i =? 0), (i =? 1); [done .. |].
        unfold RegFile.get_reg, RegFile.in_range. cbn [rf_registers gp_file set_file].
        rewrite length_alter. by rewrite Hl by lia.
    + split; [done |]. split; [| done]. intros i. unfold value. cbn.
      destruct (i =? 0), (i =? 1); [done .. |].
      destruct (decide (Z.to_nat i = Z.to_nat idx)) as [-> | Hne].
      * by rewrite list_lookup_alter_eq, Hr.
      * by rewrite Hl.
Qed.

(** ** Commit and abort *)

Definition committed (g : GPRs) : GPRs :=
  mkGPRs (mkRegFile (rf_name_pfx (gp_file g)) (rf_width (gp_file g))
            (Reg.commit <$> rf_registers (gp_file g)) ∅)
    (mkCSR (default (cs_uval (gp_x1 g)) (cs_next_uval (gp_x1 g))) None
       (option_list (cs_next_uval (gp_x1 g)) ++
        (if cs_saw_read (gp_x1 g) then tail (cs_stack (gp_x1 g)) else cs_stack (gp_x1 g)))
       false)
    (gp_err_flag g).

Definition aborted (g : GPRs) : GPRs :=
  mkGPRs (mkRegFile (rf_name_pfx (gp_file g)) (rf_width (gp_file g))
            (Reg.abort <$> rf_registers (gp_file g)) ∅)
    (CallStackReg.abort (gp_x1 g)) false.

Lemma gprs_abort_eq g : wf g → abort g = Ok (aborted g).
Proof.
  intros Hwf. unfold abort. by rewrite (RegFile.abort_all 32 32) by apply Hwf.
Qed.

Lemma aborted_wf g : wf g → wf (aborted g).
Proof.
  intros [? [] ? Hd]. split; simpl.
  - by apply RegFile.wf_map, RegFile.Reg_wf_abort.
  - by split.
  - intros i. simpl. set_solver.
  - by rewrite list_lookup_fmap, Hd.
Qed.

(** The call stack does not overflow when the error flag is clear after
    [post_insn], which is what [commit] requires. *)
Lemma gprs_commit_eq g :
  wf g → gp_err_flag (post_insn g) = false → commit g = Ok (committed g) ∧ wf (committed g).
Proof.
  intros [Hf [] Hst Hd] Herr. unfold post_insn in Herr.
  destruct (CallStackReg.post_insn (gp_x1 g)) eqn:Ep; [done |].
  unfold CallStackReg.stack_depth in *. split.
  - unfold commit. rewrite (RegFile.commit_all 32 32) by done. cbn.
    rewrite Herr. cbn. unfold CallStackReg.commit, committed.
    destruct (cs_saw_read (gp_x1 g)) eqn:Er.
    + rewrite bool_decide_false by auto. cbn.
      destruct (cs_next_uval (gp_x1 g)); cbn; [| done].
      rewrite (proj2 (Z.leb_le _ 8)); [done |].
      destruct (cs_stack (gp_x1 g)); simpl in *; lia.
    + cbn. destruct (cs_next_uval (gp_x1 g)); cbn; [| done].
      by rewrite (proj2 (Z.leb_le _ 8)).
  - split; simpl.
    + by apply RegFile.wf_map, RegFile.Reg_wf_commit.
    + unfold CallStackReg.post_insn in Ep.
      assert (Ht : Forall (in_bits 32) (tail (cs_stack (gp_x1 g)))).
      { destruct (cs_stack (gp_x1 g)); [done | by apply Forall_cons in wf_stack as []]. }
      destruct (cs_next_uval (gp_x1 g)) as [v |], (cs_saw_read (gp_x1 g));
        split; simpl in *; unfold CallStackReg.stack_depth in *; try done; try by constructor.
      * destruct (cs_stack (gp_x1 g)); simpl in *; [by destruct wf_read | lia].
      * apply Z.eqb_neq in Ep. lia.
      * destruct (cs_stack (gp_x1 g)); simpl in *; lia.
    + intros i. simpl. set_solver.
    + by rewrite list_lookup_fmap, Hd.
Qed.

Lemma post_insn_wf g : wf g → wf (post_insn g).
Proof. intros []. unfold post_insn. by destruct (CallStackReg.post_insn _). Qed.

Lemma gprs_changes_ok g : wf g → ∃ l, changes g = Ok l.
Proof. intros Hwf. apply (RegFile.changes_with_ok 32 32); apply Hwf. Qed.

(** Stack effect of one instruction on the call stack, at commit: a read pops,
    a write pushes, both together replace the top. *)
Lemma committed_stack g :
  peek_call_stack (committed g) =
    reverse (if cs_saw_read (gp_x1 g) then tail (cs_stack (gp_x1 g)) else cs_stack (gp_x1 g))
    ++ option_list (cs_next_uval (gp_x1 g)).
Proof.
  unfold peek_call_stack, committed. cbn [gp_x1 cs_stack].
  rewrite reverse_app. by destruct (cs_next_uval (gp_x1 g)).
Qed.
End GPRs.
