(* ===== verification/Flags.v ===== *)
(** Flag groups (otbnsim/sim/flags.py): two groups of the flags C, M, L and Z,
    with staged updates and a dirty bit that lets [commit] and [abort] skip
    clean groups. *)

From S2P Require Import Prelude Trace.

Record FlagReg := mkFlagReg { fr_vals : flag_vals; fr_new_val : option flag_vals }.

Record FlagGroups := mkFlagGroups {
  fg_group0 : FlagReg;
  fg_group1 : FlagReg;
  fg_dirty : bool
}.

Module FlagReg.
Definition init (C M L Z : bool) : FlagReg := mkFlagReg (mkFlags C M L Z) None.

Definition set_flags (other : flag_vals) (f : FlagReg) : FlagReg :=
  mkFlagReg (fr_vals f) (Some other).

Definition get_by_name (name : string) (f : FlagReg) : res bool :=
  if decide (name = "C") then Ok (fC (fr_vals f))
  else if decide (name = "M") then Ok (fM (fr_vals f))
  else if decide (name = "L") then Ok (fL (fr_vals f))
  else if decide (name = "Z") then Ok (fZ (fr_vals f))
  else Err AssertionError.

Definition FLAG_NAMES : list string := ["C"; "M"; "L"; "Z"].

Definition get_by_idx (idx : Z) (f : FlagReg) : res bool :=
  py_assert ((0 <=? idx) && (idx <=? 3));;
  name ← of_option IndexError (FLAG_NAMES !! Z.to_nat idx);
  get_by_name name f.

Definition changes (group : Z) (f : FlagReg) : list Trace :=
  match fr_new_val f with None => [] | Some v => [TraceFlags group v] end.

Definition commit (f : FlagReg) : FlagReg :=
  mkFlagReg (default (fr_vals f) (fr_new_val f)) None.

Definition abort (f : FlagReg) : FlagReg := mkFlagReg (fr_vals f) None.

(** The flags as a 4-bit number, ZLMC. *)
Definition read_vals (v : flag_vals) : Z :=
  (Z_of_bool (fZ v) ≪ 3) .| (Z_of_bool (fL v) ≪ 2) .|
  (Z_of_bool (fM v) ≪ 1) .| (Z_of_bool (fC v) ≪ 0).

Definition read_unsigned (f : FlagReg) : Z := read_vals (fr_vals f).

Definition mlz_for_result (C : bool) (result : Z) : flag_vals :=
  mkFlags C (truthy ((result ≫ 255) .& 1)) (truthy (result .& 1)) (result =? 0).

Definition from_bits (value : Z) : res flag_vals :=
  py_assert (0 <=? value);;
  Ok (mkFlags (truthy ((value ≫ 0) .& 1)) (truthy ((value ≫ 1) .& 1))
              (truthy ((value ≫ 2) .& 1)) (truthy ((value ≫ 3) .& 1))).

Definition write_unsigned (value : Z) (f : FlagReg) : res FlagReg :=
  py_assert (0 <=? value);;
  v ← from_bits value;
  Ok (set_flags v f).
End FlagReg.

Module FlagGroups.
Definition init : FlagGroups :=
  mkFlagGroups (FlagReg.init false false false false)
               (FlagReg.init false false false false) false.

Definition getitem (key : Z) (g : FlagGroups) : res FlagReg :=
  py_assert ((0 <=? key) && (key <=? 1));;
  Ok (if key =? 0 then fg_group0 g else fg_group1 g).

Definition setitem (key : Z) (value : flag_vals) (g : FlagGroups) : res FlagGroups :=
  py_assert ((0 <=? key) && (key <=? 1));;
  Ok (if key =? 0
      then mkFlagGroups (FlagReg.set_flags value (fg_group0 g)) (fg_group1 g) true
      else mkFlagGroups (fg_group0 g) (FlagReg.set_flags value (fg_group1 g)) true).

Definition changes (g : FlagGroups) : list Trace :=
  FlagReg.changes 0 (fg_group0 g) ++ FlagReg.changes 1 (fg_group1 g).

Definition commit (g : FlagGroups) : FlagGroups :=
  if fg_dirty g
  then mkFlagGroups (FlagReg.commit (fg_group0 g)) (FlagReg.commit (fg_group1 g)) false
  else mkFlagGroups (fg_group0 g) (fg_group1 g) false.

Definition abort (g : FlagGroups) : FlagGroups :=
  if fg_dirty g
  then mkFlagGroups (FlagReg.abort (fg_group0 g)) (FlagReg.abort (fg_group1 g)) false
  else mkFlagGroups (fg_group0 g) (fg_group1 g) false.

Definition read_unsigned (g : FlagGroups) : Z :=
  (FlagReg.read_unsigned (fg_group1 g) ≪ 4) .| (FlagReg.read_unsigned (fg_group0 g) ≪ 0).

Definition write_unsigned (value : Z) (g : FlagGroups) : res FlagGroups :=
  py_assert (0 <=? value);;
  g0 ← FlagReg.write_unsigned ((value ≫ 0) .& mask 4) (fg_group0 g);
  g1 ← FlagReg.write_unsigned ((value ≫ 4) .& mask 4) (fg_group1 g);
  Ok (mkFlagGroups g0 g1 true).

(** A clean object has nothing staged. *)
Definition wf (g : FlagGroups) : Prop :=
  fg_dirty g = false → fr_new_val (fg_group0 g) = None ∧ fr_new_val (fg_group1 g) = None.

Lemma flags_init_wf : wf init.
Proof. done. Qed.

(** The dirty bit only saves work: [commit] commits both groups. *)
Lemma flags_commit_eq g :
  wf g →
  commit g = mkFlagGroups (FlagReg.commit (fg_group0 g)) (FlagReg.commit (fg_group1 g)) false.
Proof.
  destruct g as [[v0 n0] [v1 n1] []]; unfold wf, commit, FlagReg.commit; simpl; [done |].
  by intros [-> ->].
Qed.

Lemma flags_abort_eq g :
  wf g →
  abort g = mkFlagGroups (FlagReg.abort (fg_group0 g)) (FlagReg.abort (fg_group1 g)) false.
Proof.
  destruct g as [[v0 n0] [v1 n1] []]; unfold wf, abort, FlagReg.abort; simpl; [done |].
  by intros [-> ->].
Qed.

Lemma flags_commit_wf g : wf g → wf (commit g).
Proof. intros H. rewrite flags_commit_eq by done. done. Qed.

Lemma flags_abort_wf g : wf g → wf (abort g).
Proof. intros H. rewrite flags_abort_eq by done. done. Qed.

Lemma getitem_ok key g : 0 ≤ key ≤ 1 → ∃ f, getitem key g = Ok f.
Proof. intros. unfold getitem. zbool. by eexists. Qed.

(** Writing a group stages a value and leaves the committed flags alone. *)
Definition same_vals (g g' : FlagGroups) : Prop :=
  fr_vals (fg_group0 g') = fr_vals (fg_group0 g) ∧
  fr_vals (fg_group1 g') = fr_vals (fg_group1 g).

Lemma setitem_ok key v g :
  0 ≤ key ≤ 1 → ∃ g', setitem key v g = Ok g' ∧ wf g' ∧ same_vals g g'.
Proof.
  intros. unfold setitem. zbool. cbn.
  eexists. split; [done |]. by destruct (key =? 0).
Qed.

Lemma flags_write_unsigned_ok value g :
  0 ≤ value → ∃ g', write_unsigned value g = Ok g' ∧ wf g' ∧ same_vals g g'.
Proof.
  intros Hv. unfold write_unsigned, FlagReg.write_unsigned, FlagReg.from_bits.
  assert (∀ n, 0 ≤ (value ≫ n) .& mask 4) by (intros; apply in_bits_mask; lia).
  rewrite !(proj2 (Z.leb_le 0 _)) by done. cbn. by eexists.
Qed.

Lemma read_vals_bits v : in_bits 4 (FlagReg.read_vals v).
Proof. by destruct v as [[] [] [] []]. Qed.

Lemma from_bits_read_vals v : FlagReg.from_bits (FlagReg.read_vals v) = Ok v.
Proof. by destruct v as [[] [] [] []]. Qed.

Lemma read_unsigned_bits g : in_bits 8 (read_unsigned g).
Proof.
  unfold read_unsigned, FlagReg.read_unsigned.
  destruct (fr_vals (fg_group0 g)) as [[] [] [] []],
    (fr_vals (fg_group1 g)) as [[] [] [] []]; done.
Qed.

(** Reading the flags and writing them back stages the flags that are there. *)
Lemma write_read_unsigned g :
  write_unsigned (read_unsigned g) g =
    Ok (mkFlagGroups (FlagReg.set_flags (fr_vals (fg_group0 g)) (fg_group0 g))
          (FlagReg.set_flags (fr_vals (fg_group1 g)) (fg_group1 g)) true).
Proof.
  unfold write_unsigned, read_unsigned, FlagReg.write_unsigned, FlagReg.read_unsigned.
  destruct (fr_vals (fg_group0 g)) as [[] [] [] []],
    (fr_vals (fg_group1 g)) as [[] [] [] []]; done.
Qed.
End FlagGroups.
