(* ===== verification/Wsr.v ===== *)
(** Wide status registers (otbnsim/sim/wsr.py): MOD and ACC are plain staged
    256-bit registers; RND holds a value supplied by the environment that is
    consumed by the instruction that reads it. *)

From S2P Require Import Prelude Trace.

Record DumbWSR := mkDumb { dw_name : string; dw_value : Z; dw_next_value : option Z }.

Record RandWSR := mkRand {
  rw_random_value : option Z;
  rw_random_value_read : bool;
  rw_pending_request : bool
}.

Record WSRFile := mkWSRs { wsr_MOD : DumbWSR; wsr_RND : RandWSR; wsr_ACC : DumbWSR }.

Module DumbWSR.
Definition init (name : string) : DumbWSR := mkDumb name 0 None.

Definition read_unsigned (d : DumbWSR) : Z := dw_value d.

Definition write_unsigned (value : Z) (d : DumbWSR) : res DumbWSR :=
  py_assert ((0 <=? value) && (value <? 1 ≪ 256));;
  Ok (mkDumb (dw_name d) (dw_value d) (Some value)).

Definition commit (d : DumbWSR) : DumbWSR :=
  mkDumb (dw_name d) (default (dw_value d) (dw_next_value d)) None.

Definition abort (d : DumbWSR) : DumbWSR := mkDumb (dw_name d) (dw_value d) None.

Definition changes (d : DumbWSR) : list Trace :=
  match dw_next_value d with Some v => [TraceWSR (dw_name d) v] | None => [] end.

Definition wf (d : DumbWSR) : Prop :=
  in_bits 256 (dw_value d) ∧ from_option (in_bits 256) True (dw_next_value d).
End DumbWSR.

Module RandWSR.
Definition init : RandWSR := mkRand None false false.

Definition read_unsigned : M RandWSR Z := fun r =>
  match rw_random_value r with
  | None => Err AssertionError
  | Some v => Ok (v, mkRand (Some v) true (rw_pending_request r))
  end.

Definition read_u32 : M RandWSR Z := v ← read_unsigned; mret (v .& mask 32).

(** Writes by an instruction are ignored. *)
Definition write_unsigned (value : Z) (r : RandWSR) : res RandWSR := Ok r.

Definition commit (r : RandWSR) : RandWSR :=
  if rw_random_value_read r then mkRand None false false
  else mkRand (rw_random_value r) false (rw_pending_request r).

(** Inherited from [WSR]: nothing is undone. *)
Definition abort (r : RandWSR) : RandWSR := r.

Definition changes (r : RandWSR) : list Trace := [].

(** Signal intent to read; [True] when a value is available.  The test is the
    truth value of the integer, so a stored zero counts as unavailable. *)
Definition request_value : M RandWSR bool := fun r =>
  if from_option truthy false (rw_random_value r) then Ok (true, r)
  else Ok (false, mkRand (rw_random_value r) (rw_random_value_read r) true).

Definition set_unsigned (value : Z) (r : RandWSR) : res RandWSR :=
  py_assert ((0 <=? value) && (value <? 1 ≪ 256));;
  Ok (mkRand (Some value) (rw_random_value_read r) (rw_pending_request r)).

Definition wf (r : RandWSR) : Prop :=
  from_option (in_bits 256) True (rw_random_value r).
End RandWSR.

Module WSRFile.
Definition set_MOD (d : DumbWSR) (w : WSRFile) : WSRFile := mkWSRs d (wsr_RND w) (wsr_ACC w).
Definition set_RND (r : RandWSR) (w : WSRFile) : WSRFile := mkWSRs (wsr_MOD w) r (wsr_ACC w).
Definition set_ACC (d : DumbWSR) (w : WSRFile) : WSRFile := mkWSRs (wsr_MOD w) (wsr_RND w) d.

Definition init : WSRFile :=
  mkWSRs (DumbWSR.init "MOD") RandWSR.init (DumbWSR.init "ACC").

Definition write_MOD (value : Z) : M WSRFile () := fun w =>
  d ← DumbWSR.write_unsigned value (wsr_MOD w); Ok ((), set_MOD d w).

Definition write_ACC (value : Z) : M WSRFile () := fun w =>
  d ← DumbWSR.write_unsigned value (wsr_ACC w); Ok ((), set_ACC d w).

(** [self._wsr_for_idx(idx).read_unsigned()] *)
Definition read_at_idx (idx : Z) : M WSRFile Z :=
  assertM ((0 <=? idx) && (idx <=? 2));;
  if idx =? 0 then gets (fun w => DumbWSR.read_unsigned (wsr_MOD w))
  else if idx =? 1 then zoom wsr_RND set_RND RandWSR.read_unsigned
  else gets (fun w => DumbWSR.read_unsigned (wsr_ACC w)).

Definition write_at_idx (idx value : Z) : M WSRFile () :=
  assertM ((0 <=? idx) && (idx <=? 2));;
  if idx =? 0 then write_MOD value
  else if idx =? 1 then fun w => r ← RandWSR.write_unsigned value (wsr_RND w); Ok ((), set_RND r w)
  else write_ACC value.

Definition commit (w : WSRFile) : WSRFile :=
  mkWSRs (DumbWSR.commit (wsr_MOD w)) (RandWSR.commit (wsr_RND w)) (DumbWSR.commit (wsr_ACC w)).

Definition abort (w : WSRFile) : WSRFile :=
  mkWSRs (DumbWSR.abort (wsr_MOD w)) (RandWSR.abort (wsr_RND w)) (DumbWSR.abort (wsr_ACC w)).

Definition changes (w : WSRFile) : list Trace :=
  DumbWSR.changes (wsr_MOD w) ++ RandWSR.changes (wsr_RND w) ++ DumbWSR.changes (wsr_ACC w).

Record wf (w : WSRFile) : Prop := {
  wf_MOD : DumbWSR.wf (wsr_MOD w);
  wf_RND : RandWSR.wf (wsr_RND w);
  wf_ACC : DumbWSR.wf (wsr_ACC w)
}.

Lemma wsrs_init_wf : wf init.
Proof. by repeat split; simpl. Qed.

Lemma dumb_commit_wf d : DumbWSR.wf d → DumbWSR.wf (DumbWSR.commit d).
Proof. intros []. unfold DumbWSR.wf; simpl. by destruct (dw_next_value d). Qed.

Lemma dumb_abort_wf d : DumbWSR.wf d → DumbWSR.wf (DumbWSR.abort d).
Proof. intros []. done. Qed.

Lemma wsrs_commit_wf w : wf w → wf (commit w).
Proof.
  intros [? Hr ?]. split; simpl; [by apply dumb_commit_wf | | by apply dumb_commit_wf].
  unfold RandWSR.commit. by destruct (rw_random_value_read _).
Qed.

Lemma wsrs_abort_wf w : wf w → wf (abort w).
Proof. intros []. split; by try apply dumb_abort_wf. Qed.

(** What an instruction may have changed: staged values, the read mark. *)
Definition same_values (w w' : WSRFile) : Prop :=
  dw_value (wsr_MOD w') = dw_value (wsr_MOD w) ∧
  dw_value (wsr_ACC w') = dw_value (wsr_ACC w) ∧
  rw_random_value (wsr_RND w') = rw_random_value (wsr_RND w).

Lemma dumb_write_ok value d :
  DumbWSR.wf d → in_bits 256 value →
  DumbWSR.write_unsigned value d = Ok (mkDumb (dw_name d) (dw_value d) (Some value)) ∧
  DumbWSR.wf (mkDumb (dw_name d) (dw_value d) (Some value)).
Proof.
  intros [? ?] Hv. unfold DumbWSR.write_unsigned.
  rewrite (proj2 (fits_spec 256 value ltac:(lia)) Hv : _ && _ = true). done.
Qed.

Lemma write_MOD_ok value w :
  wf w → in_bits 256 value → ∃ w', write_MOD value w = Ok ((), w') ∧ wf w' ∧ same_values w w'.
Proof.
  intros Hwf Hv. unfold write_MOD.
  destruct (dumb_write_ok value (wsr_MOD w)) as [-> Hw]; [apply Hwf | done |].
  eexists. split; [done |]. destruct Hwf. split; [by split | done].
Qed.

Lemma write_ACC_ok value w :
  wf w → in_bits 256 value → ∃ w', write_ACC value w = Ok ((), w') ∧ wf w' ∧ same_values w w'.
Proof.
  intros Hwf Hv. unfold write_ACC.
  destruct (dumb_write_ok value (wsr_ACC w)) as [-> Hw]; [apply Hwf | done |].
  eexists. split; [done |]. destruct Hwf. split; [by split | done].
Qed.

Lemma read_at_idx_ok idx w :
  wf w → 0 ≤ idx ≤ 2 → (idx = 1 → is_Some (rw_random_value (wsr_RND w))) →
  ∃ v w', read_at_idx idx w = Ok (v, w') ∧ in_bits 256 v ∧ wf w' ∧ same_values w w'.
Proof.
  intros Hwf Hi Hr. unfold read_at_idx, assertM, lift, mbind, M_bind. zbool. simpl.
  destruct (Z.eqb_spec idx 0); [eexists _, w; split; [done |]; split; [apply Hwf | done] |].
  destruct (Z.eqb_spec idx 1) as [-> |];
    [| eexists _, w; split; [done |]; split; [apply Hwf | done]].
  destruct Hr as [v Hv]; [done |]. unfold zoom, RandWSR.read_unsigned. rewrite Hv.
  pose proof (wf_RND _ Hwf) as HR. unfold RandWSR.wf in HR. rewrite Hv in HR.
  eexists _, _. split; [done |]. split; [done |]. destruct Hwf. split; [by split |].
  by repeat split; simpl.
Qed.

Lemma write_at_idx_ok idx value w :
  wf w → 0 ≤ idx ≤ 2 → in_bits 256 value →
  ∃ w', write_at_idx idx value w = Ok ((), w') ∧ wf w' ∧ same_values w w'.
Proof.
  intros Hwf Hi Hv. unfold write_at_idx, assertM, lift, mbind, M_bind. zbool. simpl.
  destruct (idx =? 0); [by apply write_MOD_ok |].
  destruct (idx =? 1); [| by apply write_ACC_ok].
  eexists. split; [done |]. destruct w, Hwf. split; [by split | done].
Qed.
End WSRFile.
