(* ===== verification/Csr.v ===== *)
(** Control and status registers (otbnsim/sim/csr.py): a 32-bit window onto the
    flag groups, the MOD WSR and the RND WSR. *)

From S2P Require Import Prelude Trace Flags Wsr.

Record CSRFile := mkCSRFile { csr_flags : FlagGroups }.

Module CSRFile.
Definition init : CSRFile := mkCSRFile FlagGroups.init.

Definition _get_field (field_idx field_size val : Z) : Z :=
  (val ≫ (field_size * field_idx)) .& mask field_size.

Definition _set_field (field_idx field_size field_val old_val : Z) : res Z :=
  py_assert ((0 <=? field_val) && (field_val <? 1 ≪ field_size));;
  Ok ((old_val .& ~. (mask field_size ≪ (field_size * field_idx)))
      .| (field_val ≪ (field_size * field_idx))).

(** [csrs.read_unsigned(wsrs, idx)] *)
Definition read_unsigned (c : CSRFile) (idx : Z) : M WSRFile Z :=
  if (0x7c0 <=? idx) && (idx <=? 0x7c1) then
    mret (_get_field (idx - 0x7c0) 4 (FlagGroups.read_unsigned (csr_flags c)))
  else if idx =? 0x7c8 then
    mret (FlagGroups.read_unsigned (csr_flags c))
  else if (0x7d0 <=? idx) && (idx <=? 0x7d7) then
    gets (fun w => _get_field (idx - 0x7d0) 32 (DumbWSR.read_unsigned (wsr_MOD w)))
  else if idx =? 0xfc0 then
    zoom wsr_RND WSRFile.set_RND RandWSR.read_u32
  else if idx =? 0xfc1 then mret 0
  else raise RuntimeError.

Definition write_flags (value : Z) : M (CSRFile * WSRFile) () := fun '(c, w) =>
  f ← FlagGroups.write_unsigned value (csr_flags c); Ok ((), (mkCSRFile f, w)).

(** [csrs.write_unsigned(wsrs, idx, value)] *)
Definition write_unsigned (idx value : Z) : M (CSRFile * WSRFile) () :=
  assertM ((0 <=? value) && (value <? 1 ≪ 32));;
  if (0x7c0 <=? idx) && (idx <=? 0x7c1) then
    old ← gets (fun '(c, _) => FlagGroups.read_unsigned (csr_flags c));
    new ← lift (_set_field (idx - 0x7c0) 4 (value .& 0xf) old);
    write_flags new
  else if idx =? 0x7c8 then write_flags value
  else if (0x7d0 <=? idx) && (idx <=? 0x7d7) then
    old ← gets (fun '(_, w) => DumbWSR.read_unsigned (wsr_MOD w));
    new ← lift (_set_field (idx - 0x7d0) 32 value old);
    zoom snd (fun w p => (fst p, w)) (WSRFile.write_MOD new)
  else if (idx =? 0xfc0) || (idx =? 0xfc1) then mret ()
  else raise RuntimeError.

(** The CSR indices that [read_unsigned] and [write_unsigned] know. *)
Definition known (idx : Z) : bool :=
  ((0x7c0 <=? idx) && (idx <=? 0x7c1)) || (idx =? 0x7c8) ||
  ((0x7d0 <=? idx) && (idx <=? 0x7d7)) || (idx =? 0xfc0) || (idx =? 0xfc1).

(** ** Fields *)

Definition set_field (field_idx field_size field_val old_val : Z) : Z :=
  (old_val .& ~. (mask field_size ≪ (field_size * field_idx)))
  .| (field_val ≪ (field_size * field_idx)).

Lemma _set_field_ok i n v old :
  0 ≤ n → in_bits n v → _set_field i n v old = Ok (set_field i n v old).
Proof.
  intros Hn Hv. unfold _set_field.
  by rewrite (proj2 (fits_spec n v Hn) Hv : _ && _ = true).
Qed.

Lemma get_field_bits i n v : 0 ≤ n → in_bits n (_get_field i n v).
Proof. intros. by apply in_bits_mask. Qed.

Lemma testbit_set_field i n v old k :
  0 ≤ i → 0 ≤ n → 0 ≤ k → in_bits n v →
  Z.testbit (set_field i n v old) k =
    if (n * i <=? k) && (k <? n * i + n) then Z.testbit v (k - n * i) else Z.testbit old k.
Proof.
  intros Hi Hn Hk Hv. unfold set_field. autorewrite with testbit.
  assert (0 ≤ n * i) by lia.
  destruct (Z.leb_spec (n * i) k); cbn [andb].
  - destruct (Z.ltb_spec k (n * i + n)).
    + zbool. by rewrite andb_false_r.
    + zbool. rewrite (testbit_in_bits n v) by (done || lia).
      by rewrite andb_true_r, orb_false_r.
  - rewrite (testbit_neg v) by lia. zbool. by rewrite andb_true_r, orb_false_r.
Qed.

Lemma testbit_get_field i n v k :
  0 ≤ n → 0 ≤ k → Z.testbit (_get_field i n v) k = (k <? n) && Z.testbit v (k + n * i).
Proof.
  intros. unfold _get_field. autorewrite with testbit. zbool. by rewrite andb_comm.
Qed.

(** Reading back a field that was set gives its value, and other fields are
    unaffected. *)
Lemma get_set_field i j n v old :
  0 ≤ i → 0 ≤ j → 0 < n → in_bits n v →
  _get_field j n (set_field i n v old) = if decide (i = j) then v else _get_field j n old.
Proof.
  intros Hi Hj Hn Hv. apply Z_bits_eq. intros k Hk.
  rewrite testbit_get_field, testbit_set_field by (done || nia).
  case_decide as Hij.
  - subst j. destruct (Z.ltb_spec k n).
    + zbool. f_equal. lia.
    + cbn [andb]. by rewrite (testbit_in_bits n v) by (done || lia).
  - rewrite testbit_get_field by lia. destruct (Z.ltb_spec k n); [| done].
    cbn [andb]. destruct (Z.leb_spec (n * i) (k + n * j)); [| done].
    destruct (Z.ltb_spec (k + n * j) (n * i + n)); [| done].
    exfalso. apply Hij. nia.
Qed.

Lemma set_field_bits i n v old w :
  0 ≤ i → 0 < n → n * i + n ≤ w → in_bits n v → in_bits w old →
  in_bits w (set_field i n v old).
Proof.
  intros Hi Hn Hw Hv Hold. apply in_bits_testbit; [nia |]. split.
  - unfold set_field. apply Z.lor_nonneg. split.
    + apply Z.land_nonneg. left. apply Hold.
    + apply Z.shiftl_nonneg, Hv.
  - intros k Hk. rewrite testbit_set_field by (done || nia).
    rewrite (proj2 (Z.ltb_ge k (n * i + n))), andb_false_r by lia. apply (testbit_in_bits w); [done | nia].
Qed.

(** ** Reads and writes on well-formed components *)

Lemma read_unsigned_ok c idx w :
  WSRFile.wf w → known idx = true →
  (idx = 0xfc0 → is_Some (rw_random_value (wsr_RND w))) →
  ∃ v w', read_unsigned c idx w = Ok (v, w') ∧ in_bits 32 v ∧
    WSRFile.wf w' ∧ WSRFile.same_values w w'.
Proof.
  intros Hwf Hk Hr. unfold known in Hk. unfold read_unsigned.
  pose proof (FlagGroups.read_unsigned_bits (csr_flags c)) as Hfl.
  destruct ((0x7c0 <=? idx) && (idx <=? 0x7c1)).
  { eexists _, w. split; [done |]. split; [| done].
    apply (in_bits_weaken 4); [lia |]. by apply get_field_bits. }
  destruct (idx =? 0x7c8).
  { eexists _, w. split; [done |]. split; [by apply (in_bits_weaken 8) | done]. }
  destruct ((0x7d0 <=? idx) && (idx <=? 0x7d7)).
  { eexists _, w. split; [done |]. split; [by apply get_field_bits | done]. }
  destruct (Z.eqb_spec idx 0xfc0) as [-> |].
  { destruct Hr as [v Hv]; [done |].
    unfold zoom, RandWSR.read_u32, mbind, M_bind, RandWSR.read_unsigned. rewrite Hv. cbn.
    pose proof (WSRFile.wf_RND _ Hwf) as HR. unfold RandWSR.wf in HR. rewrite Hv in HR.
    eexists _, _. split; [done |]. split; [by apply in_bits_mask |].
    destruct Hwf. split; [by split | by repeat split]. }
  destruct (idx =? 0xfc1); [| done].
  eexists _, w. split; [done |]. split; [by apply in_bits_0 | done].
Qed.

Lemma write_flags_ok value c w :
  0 ≤ value → WSRFile.wf w →
  ∃ c', write_flags value (c, w) = Ok ((), (c', w)) ∧ FlagGroups.wf (csr_flags c') ∧
    FlagGroups.same_vals (csr_flags c) (csr_flags c').
Proof.
  intros Hv Hw. unfold write_flags.
  destruct (FlagGroups.flags_write_unsigned_ok value (csr_flags c)) as (f & -> & ? & ?); [done |].
  by eexists.
Qed.

Lemma csrs_write_unsigned_ok idx value c w :
  FlagGroups.wf (csr_flags c) → WSRFile.wf w → in_bits 32 value → known idx = true →
  ∃ c' w', write_unsigned idx value (c, w) = Ok ((), (c', w')) ∧
    FlagGroups.wf (csr_flags c') ∧ WSRFile.wf w' ∧
    FlagGroups.same_vals (csr_flags c) (csr_flags c') ∧ WSRFile.same_values w w'.
Proof.
  intros Hf Hw Hv Hk. unfold known in Hk.
  unfold write_unsigned, assertM, lift, gets, mbind, M_bind.
  rewrite (proj2 (fits_spec 32 value ltac:(lia)) Hv : _ && _ = true). cbn -[write_flags _set_field].
  pose proof (FlagGroups.read_unsigned_bits (csr_flags c)) as Hfl.
  destruct ((0x7c0 <=? idx) && (idx <=? 0x7c1)) eqn:E1.
  { apply andb_true_iff in E1 as [?%Z.leb_le ?%Z.leb_le].
    rewrite _set_field_ok; [cbn -[write_flags set_field] | lia | apply (in_bits_mask value 4); lia].
    destruct (write_flags_ok (set_field (idx - 1984) 4 (value .& 15)
      (FlagGroups.read_unsigned (csr_flags c))) c w) as (c' & -> & ? & ?); [| done | ].
    - apply (set_field_bits _ _ _ _ 8); [lia | lia | lia | | done].
      apply (in_bits_mask value 4); lia.
    - by exists c', w. }
  destruct (idx =? 0x7c8).
  { destruct (write_flags_ok value c w) as (c' & -> & ? & ?); [apply Hv | done |].
    by exists c', w. }
  destruct ((0x7d0 <=? idx) && (idx <=? 0x7d7)) eqn:E2.
  { apply andb_true_iff in E2 as [?%Z.leb_le ?%Z.leb_le].
    rewrite _set_field_ok by (done || lia). unfold zoom. cbn -[WSRFile.write_MOD set_field].
    destruct (WSRFile.write_MOD_ok (set_field (idx - 2000) 32 value
      (DumbWSR.read_unsigned (wsr_MOD w))) w) as (w' & -> & ? & ?); [done | |].
    - apply set_field_bits; [lia .. | done |]. apply (WSRFile.wf_MOD _ Hw).
    - by exists c, w'. }
  rewrite !orb_false_l in Hk. rewrite Hk. by exists c, w.
Qed.
End CSRFile.
