(* ===== verification/Dmem.v ===== *)
(** The data memory (otbnsim/sim/dmem.py): an array of 256-bit words with a log
    of staged stores, written back by [commit].  Bytes are integers of 8 bits. *)

From S2P Require Import Prelude BitLoops Trace.

Record store := mkStore { st_addr : Z; st_value : Z; st_is_wide : bool }.

Record Dmem := mkDmem {
  dm_data : list Z;
  dm_trace : list store;
  dm_err_flag : bool;
  dm_load_begun : bool;
  dm_load_ready : bool
}.

Module Dmem.
Definition set_data (l : list Z) (d : Dmem) : Dmem :=
  mkDmem l (dm_trace d) (dm_err_flag d) (dm_load_begun d) (dm_load_ready d).
Definition set_trace (t : list store) (d : Dmem) : Dmem :=
  mkDmem (dm_data d) t (dm_err_flag d) (dm_load_begun d) (dm_load_ready d).
Definition set_err (b : bool) (d : Dmem) : Dmem :=
  mkDmem (dm_data d) (dm_trace d) b (dm_load_begun d) (dm_load_ready d).

Definition len (d : Dmem) : Z := Z.of_nat (length (dm_data d)).

(** [uninit]: 0xdeadbeef, eight times. *)
Definition uninit : Z :=
  foldl (fun acc _ => (acc ≪ 32) .| 0xdeadbeef) 0 (seqZ 0 (32 / 4)).

(** The constructor; [dmem_size] is the size of the DMEM window of otbn.hjson. *)
Definition init (dmem_size : Z) : res Dmem :=
  if 1024 * 1024 <? dmem_size then Err RuntimeError
  else if truthy (dmem_size `mod` 32) then Err RuntimeError
  else Ok (mkDmem (replicate (Z.to_nat (dmem_size / 32)) uninit) [] false false false).

Definition _get_u32s (idx : Z) (d : Dmem) : res (list Z) :=
  py_assert ((0 <=? idx) && (idx <? len d));;
  word ← of_option IndexError (dm_data d !! Z.to_nat idx);
  py_assert ((0 <=? word) && (word <=? 1 ≪ 256));;
  Ok (map (fun subidx => (word ≫ (32 * subidx)) .& mask 32) (seqZ 0 8)).

Definition _set_u32s (idx : Z) (u32s : list Z) (d : Dmem) : res Dmem :=
  py_assert ((0 <=? idx) && (idx <? len d));;
  py_assert (Z.of_nat (length u32s) =? 8);;
  u256 ← foldM (fun u256 u32 =>
           py_assert ((0 <=? u32) && (u32 <=? mask 32));;
           Ok ((u256 ≪ 32) .| u32)) 0 (reverse u32s);
  Ok (set_data (<[Z.to_nat idx := u256]> (dm_data d)) d).

(** [struct.iter_unpack('<I', data)] *)
Fixpoint iter_unpack_le32 (data : list Z) : res (list Z) :=
  match data with
  | [] => Ok []
  | b0 :: b1 :: b2 :: b3 :: data =>
      us ← iter_unpack_le32 data;
      Ok ((b0 .| (b1 ≪ 8) .| (b2 ≪ 16) .| (b3 ≪ 24)) :: us)
  | _ => Err StructError
  end.

(** [struct.pack('<{}I', u32s)] *)
Definition pack_le32 (u32s : list Z) : list Z :=
  u32s ≫= (fun u => limbs_split 8 4 u).

(** The loop of [load_le_words] over the enumerated words. *)
Fixpoint load_u32s (idx32 : Z) (acc us : list Z) (d : Dmem) : res (list Z * Dmem) :=
  match us with
  | [] => Ok (acc, d)
  | u :: us =>
      let acc := acc ++ [u] in
      if Z.of_nat (length acc) =? 8 then
        d' ← _set_u32s (idx32 / 8) acc d;
        load_u32s (idx32 + 1) [] us d'
      else load_u32s (idx32 + 1) acc us d
  end.

(** [data + b'0' * (32 - (len(data) % 32))]: the padding byte is the
    character zero, 0x30. *)
Definition pad (data : list Z) : list Z :=
  let m := Z.of_nat (length data) `mod` 32 in
  if truthy m then data ++ replicate (Z.to_nat (32 - m)) 0x30 else data.

Definition load_le_words (data : list Z) : M Dmem () := fun d =>
  if 32 * len d <? Z.of_nat (length data) then Err ValueError
  else
    us ← iter_unpack_le32 (pad data);
    '(acc, d') ← load_u32s 0 [] us d;
    py_assert (bool_decide (acc = []));;
    Ok ((), d').

Definition dump_le_words (d : Dmem) : res (list Z) :=
  u32s ← mapR (fun idx => _get_u32s idx d) (seqZ 0 (len d));
  Ok (pack_le32 (concat u32s)).

Definition load_u256 (addr : Z) : M Dmem Z := fun d =>
  py_assert (0 <=? addr);;
  if truthy (addr .& 31) then Ok (0, set_err true d)
  else
    let word_addr := addr / 32 in
    if len d <=? word_addr then Ok (0, set_err true d)
    else v ← of_option IndexError (dm_data d !! Z.to_nat word_addr); Ok (v, d).

Definition store_u256 (addr value : Z) : M Dmem () := fun d =>
  py_assert (0 <=? addr);;
  py_assert ((0 <=? value) && (value <? 1 ≪ 256));;
  if truthy (addr .& 31) then Ok ((), set_err true d)
  else
    let word_addr := addr / 32 in
    if len d <=? word_addr then Ok ((), set_err true d)
    else Ok ((), set_trace (dm_trace d ++ [mkStore addr value true]) d).

Definition load_u32 (addr : Z) : M Dmem Z := fun d =>
  py_assert (0 <=? addr);;
  if truthy (addr .& 3) then Ok (0, set_err true d)
  else if len d <=? (addr + 3) / 32 then Ok (0, set_err true d)
  else
    let idx32 := addr / 4 in
    let idxW := idx32 / 8 in
    let offW := idx32 `mod` 8 in
    us ← _get_u32s idxW d;
    u ← of_option IndexError (us !! Z.to_nat offW);
    Ok (u, d).

Definition store_u32 (addr value : Z) : M Dmem () := fun d =>
  py_assert (0 <=? addr);;
  py_assert ((0 <=? value) && (value <=? mask 32));;
  if truthy (addr .& 3) then Ok ((), set_err true d)
  else if len d <=? (addr + 3) / 32 then Ok ((), set_err true d)
  else Ok ((), set_trace (dm_trace d ++ [mkStore addr value false]) d).

Definition err_bits (d : Dmem) : Z := if dm_err_flag d then err_bits.BAD_DATA_ADDR else 0.

Definition changes (d : Dmem) : list Trace :=
  map (fun s => TraceDmemStore (st_addr s) (st_value s) (st_is_wide s)) (dm_trace d).

Definition _commit_store (d : Dmem) (item : store) : res Dmem :=
  if st_is_wide item then
    py_assert ((0 <=? st_value item) && (st_value item <? 1 ≪ 256));;
    let idx := st_addr item / 32 in
    if idx <? len d
    then Ok (set_data (<[Z.to_nat idx := st_value item]> (dm_data d)) d)
    else Err IndexError
  else
    let idx32 := st_addr item / 4 in
    let idxW := idx32 / 8 in
    let offW := idx32 `mod` 8 in
    u32s ← _get_u32s idxW d;
    py_assert ((0 <=? st_value item) && (st_value item <=? mask 32));;
    _set_u32s idxW (<[Z.to_nat offW := st_value item]> u32s) d.

(** The [stalled] argument of the Python method is not used by its body. *)
Definition commit (stalled : bool) (d : Dmem) : res Dmem :=
  py_assert (negb (dm_err_flag d));;
  let d := mkDmem (dm_data d) (dm_trace d) (dm_err_flag d) false (dm_load_begun d) in
  d' ← foldM _commit_store d (dm_trace d);
  Ok (set_trace [] d').

Definition abort (d : Dmem) : Dmem := set_err false (set_trace [] d).

Definition in_progress_load_complete (d : Dmem) : bool := dm_load_ready d.

Definition begin_load (d : Dmem) : Dmem :=
  mkDmem (dm_data d) (dm_trace d) (dm_err_flag d) true (dm_load_ready d).

(** ** Well-formed memories *)

Definition store_ok (n : Z) (s : store) : Prop :=
  0 ≤ st_addr s ∧ st_addr s / 32 < n ∧
  if st_is_wide s then in_bits 256 (st_value s) ∧ st_addr s `mod` 32 = 0
  else in_bits 32 (st_value s) ∧ st_addr s `mod` 4 = 0.

Record wf (d : Dmem) : Prop := {
  wf_data : Forall (in_bits 256) (dm_data d);
  wf_trace : Forall (store_ok (len d)) (dm_trace d)
}.

Lemma lookup_data d i :
  wf d → 0 ≤ i < len d → ∃ w, dm_data d !! Z.to_nat i = Some w ∧ in_bits 256 w.
Proof.
  intros Hwf Hi. destruct (lookup_lt_is_Some_2 (dm_data d) (Z.to_nat i)) as [w Hw].
  { unfold len in Hi. lia. }
  exists w. split; [done |]. by eapply Forall_lookup_1; [apply Hwf |].
Qed.

Lemma get_u32s_ok idx d w :
  0 ≤ idx < len d → dm_data d !! Z.to_nat idx = Some w → in_bits 256 w →
  _get_u32s idx d = Ok (limbs_split 32 8 w).
Proof.
  intros Hi Hw Hb. unfold _get_u32s. zbool. rewrite Hw. cbn [mbind res_bind of_option py_assert].
  assert (1 ≪ 256 = 2 ^ 256) by done. unfold in_bits in Hb. by zbool.
Qed.

Lemma foldM_join us acc :
  Forall (in_bits 32) us →
  foldM (fun u256 u32 =>
    py_assert ((0 <=? u32) && (u32 <=? mask 32));; Ok ((u256 ≪ 32) .| u32)) acc us
  = Ok (foldl (fun acc u => (acc ≪ 32) .| u) acc us).
Proof.
  intros Hus. revert acc. induction Hus as [| u us [Hlo Hhi] _ IH]; intros acc; [done |].
  cbn [foldM foldl]. assert (mask 32 = 2 ^ 32 - 1) by done. zbool.
  cbn [mbind res_bind py_assert]. apply IH.
Qed.

Lemma set_u32s_ok idx us d :
  0 ≤ idx < len d → Forall (in_bits 32) us → length us = 8%nat →
  _set_u32s idx us d = Ok (set_data (<[Z.to_nat idx := limbs_join 32 us]> (dm_data d)) d).
Proof.
  intros Hi Hus Hlen. unfold _set_u32s. zbool. cbn [mbind res_bind py_assert].
  rewrite foldM_join by (by apply Forall_reverse).
  cbn [mbind res_bind]. by rewrite foldl_reverse_join.
Qed.

(** ** Staged stores written back *)

(** Replace 32-bit piece [off] of a 256-bit word. *)
Definition set_u32 (off v w : Z) : Z :=
  limbs_join 32 (<[Z.to_nat off := v]> (limbs_split 32 8 w)).

Definition apply_store (data : list Z) (s : store) : list Z :=
  if st_is_wide s then <[Z.to_nat (st_addr s / 32) := st_value s]> data
  else alter (set_u32 ((st_addr s / 4) `mod` 8) (st_value s))
         (Z.to_nat (st_addr s / 4 / 8)) data.

Lemma set_u32_bits off v w : in_bits 32 v → in_bits 256 (set_u32 off v w).
Proof.
  intros Hv. apply (limbs_join_bits 32 ltac:(lia) _ 8).
  - apply Forall_insert; [apply limbs_split_bits; lia | done].
  - by rewrite length_insert, limbs_split_length.
Qed.

Lemma apply_store_bits n data s :
  Forall (in_bits 256) data → store_ok n s → Forall (in_bits 256) (apply_store data s).
Proof.
  intros Hd (_ & _ & Hs). unfold apply_store. destruct (st_is_wide s).
  - apply Forall_insert; [done | apply Hs].
  - apply Forall_alter; [done |]. intros. apply set_u32_bits, Hs.
Qed.

Lemma apply_store_length data s : length (apply_store data s) = length data.
Proof.
  unfold apply_store. destruct (st_is_wide s); [apply length_insert | apply length_alter].
Qed.

Lemma div4_div8 a : a / 4 / 8 = a / 32.
Proof. by rewrite Z.div_div by lia. Qed.

Lemma commit_store_ok d s :
  Forall (in_bits 256) (dm_data d) → store_ok (len d) s →
  _commit_store d s = Ok (set_data (apply_store (dm_data d) s) d).
Proof.
  intros Hd (Ha & Hr & Hs). unfold _commit_store, apply_store.
  destruct (st_is_wide s).
  - destruct Hs as [Hv _]. rewrite (proj2 (fits_spec 256 _ ltac:(lia)) Hv : _ && _ = true).
    cbn [mbind res_bind py_assert]. by zbool.
  - destruct Hs as [Hv _]. assert (0 ≤ st_addr s / 32) by (apply Z.div_pos; lia).
    rewrite div4_div8.
    destruct (lookup_lt_is_Some_2 (dm_data d) (Z.to_nat (st_addr s / 32))) as [w Hw].
    { unfold len in Hr. lia. }
    assert (in_bits 256 w) by (by eapply Forall_lookup_1).
    rewrite (get_u32s_ok _ d w) by done. cbn [mbind res_bind].
    assert (mask 32 = 2 ^ 32 - 1) by done. pose proof Hv as [? ?]. zbool.
    cbn [mbind res_bind py_assert].
    rewrite set_u32s_ok; [| done | | by rewrite length_insert, limbs_split_length].
    + do 2 f_equal. apply list_eq. intros j.
      destruct (decide (j = Z.to_nat (st_addr s / 32))) as [-> | Hne].
      * rewrite list_lookup_insert_eq by (by eapply lookup_lt_Some).
        by rewrite list_lookup_alter_eq, Hw.
      * by rewrite list_lookup_insert_ne, list_lookup_alter_ne.
    + apply Forall_insert; [apply limbs_split_bits; lia | done].
Qed.

Definition written (d : Dmem) : list Z := foldl apply_store (dm_data d) (dm_trace d).

Lemma foldM_commit_store d l :
  Forall (in_bits 256) (dm_data d) → Forall (store_ok (len d)) l →
  foldM _commit_store d l = Ok (set_data (foldl apply_store (dm_data d) l) d) ∧
  Forall (in_bits 256) (foldl apply_store (dm_data d) l) ∧
  length (foldl apply_store (dm_data d) l) = length (dm_data d).
Proof.
  intros Hd Hl. revert d Hd Hl. induction l as [| s l IH]; intros d Hd Hl; cbn [foldM foldl].
  - split; [by destruct d | done].
  - apply Forall_cons in Hl as [Hs Hl].
    rewrite commit_store_ok by done. cbn [mbind res_bind].
    destruct (IH (set_data (apply_store (dm_data d) s) d)) as (E & Hb & Hn).
    + by eapply apply_store_bits.
    + unfold len in *. simpl. by rewrite apply_store_length.
    + split; [exact E |]. split; [done |]. simpl in Hn. rewrite Hn. apply apply_store_length.
Qed.

(** [commit] applies the stores in order, forgets them, and moves the load
    handshake forward. *)
Lemma dmem_commit_eq st d :
  wf d → dm_err_flag d = false →
  commit st d = Ok (mkDmem (written d) [] false false (dm_load_begun d)) ∧
  wf (mkDmem (written d) [] false false (dm_load_begun d)) ∧
  length (written d) = length (dm_data d).
Proof.
  intros [Hd Ht] He. unfold commit. rewrite He. cbn [negb py_assert mbind res_bind dm_trace].
  destruct (foldM_commit_store
    (mkDmem (dm_data d) (dm_trace d) false false (dm_load_begun d)) (dm_trace d))
    as (E & Hb & Hn); [done | done |].
  rewrite E. cbn. split; [done |]. split; [by split | done].
Qed.

Lemma dmem_abort_wf d : wf d → wf (abort d).
Proof. intros []. by split. Qed.

(** ** Loads and stores *)

Lemma truthy_land_pow2 a k : 0 ≤ k → truthy (a .& mask k) = negb (a `mod` 2 ^ k =? 0).
Proof. intros. unfold truthy. by rewrite land_mask. Qed.

Definition aligned_u32 (addr : Z) (d : Dmem) : bool :=
  (addr `mod` 4 =? 0) && (addr / 32 <? len d).
Definition aligned_u256 (addr : Z) (d : Dmem) : bool :=
  (addr `mod` 32 =? 0) && (addr / 32 <? len d).

Lemma div32_plus3 addr : addr `mod` 4 = 0 → (addr + 3) / 32 = addr / 32.
Proof. intros. Z.to_euclidean_division_equations. lia. Qed.

Lemma check_u32 {A} addr d (x y : A) :
  (if truthy (addr .& 3) then x else if len d <=? (addr + 3) / 32 then x else y)
  = if aligned_u32 addr d then y else x.
Proof.
  unfold aligned_u32. change 3 with (mask 2) at 1.
  rewrite truthy_land_pow2 by lia. change (2 ^ 2) with 4.
  destruct (Z.eqb_spec (addr `mod` 4) 0); cbn [negb andb]; [| done].
  rewrite div32_plus3 by done. rewrite Z.leb_antisym. by destruct (addr / 32 <? len d).
Qed.

Lemma check_u256 {A} addr d (x y : A) :
  (if truthy (addr .& 31) then x else if len d <=? addr / 32 then x else y)
  = if aligned_u256 addr d then y else x.
Proof.
  unfold aligned_u256. change 31 with (mask 5).
  rewrite truthy_land_pow2 by lia. change (2 ^ 5) with 32.
  destruct (Z.eqb_spec (addr `mod` 32) 0); cbn [negb andb]; [| done].
  rewrite Z.leb_antisym. by destruct (addr / 32 <? len d).
Qed.

(** 32-bit word number [i] of the memory. *)
Definition word32 (data : list Z) (i : Z) : option Z :=
  (fun w => limb 32 w (i `mod` 8)) <$> data !! Z.to_nat (i / 8).

Lemma load_u32_eq addr d :
  wf d → 0 ≤ addr →
  load_u32 addr d =
    if aligned_u32 addr d then Ok (default 0 (word32 (dm_data d) (addr / 4)), d)
    else Ok (0, set_err true d).
Proof.
  intros Hwf Ha. unfold load_u32. zbool. cbn [py_assert mbind res_bind].
  rewrite check_u32. destruct (aligned_u32 addr d) eqn:Eal; [| done].
  apply andb_true_iff in Eal as [_ Hlt%Z.ltb_lt].
  assert (0 ≤ addr / 32) by (apply Z.div_pos; lia).
  destruct (lookup_data d (addr / 32) Hwf) as (w & Hw & Hb); [lia |].
  unfold word32. rewrite div4_div8.
  rewrite (get_u32s_ok _ d w) by (done || lia). cbn [mbind res_bind].
  pose proof (Z.mod_pos_bound (addr / 4) 8 ltac:(lia)).
  rewrite limbs_split_lookup, decide_True by lia.
  rewrite Z2Nat.id by lia. by rewrite Hw.
Qed.

Lemma load_u256_eq addr d :
  wf d → 0 ≤ addr →
  load_u256 addr d =
    if aligned_u256 addr d then Ok (default 0 (dm_data d !! Z.to_nat (addr / 32)), d)
    else Ok (0, set_err true d).
Proof.
  intros Hwf Ha. unfold load_u256. zbool. cbn [py_assert mbind res_bind].
  rewrite check_u256. destruct (aligned_u256 addr d) eqn:Eal; [| done].
  apply andb_true_iff in Eal as [_ Hlt%Z.ltb_lt].
  assert (0 ≤ addr / 32) by (apply Z.div_pos; lia).
  destruct (lookup_data d (addr / 32) Hwf) as (w & -> & Hb); [lia | done].
Qed.

Lemma store_u32_eq addr v d :
  0 ≤ addr → in_bits 32 v →
  store_u32 addr v d =
    Ok ((), if aligned_u32 addr d then set_trace (dm_trace d ++ [mkStore addr v false]) d
            else set_err true d).
Proof.
  intros Ha [? ?]. unfold store_u32. assert (mask 32 = 2 ^ 32 - 1) by done. zbool.
  cbn [py_assert mbind res_bind]. rewrite check_u32. by destruct (aligned_u32 addr d).
Qed.

Lemma store_u256_eq addr v d :
  0 ≤ addr → in_bits 256 v →
  store_u256 addr v d =
    Ok ((), if aligned_u256 addr d then set_trace (dm_trace d ++ [mkStore addr v true]) d
            else set_err true d).
Proof.
  intros Ha Hv. unfold store_u256. zbool. cbn [py_assert mbind res_bind].
  rewrite (proj2 (fits_spec 256 v ltac:(lia)) Hv : _ && _ = true).
  cbn [py_assert mbind res_bind]. rewrite check_u256. by destruct (aligned_u256 addr d).
Qed.

Lemma wf_set_err b d : wf d → wf (set_err b d).
Proof. intros []. by split. Qed.

Lemma wf_store d s : wf d → store_ok (len d) s → wf (set_trace (dm_trace d ++ [s]) d).
Proof. intros [] ?. split; [done |]. simpl. apply Forall_app. auto. Qed.

Lemma store_u32_wf addr v d :
  wf d → 0 ≤ addr → in_bits 32 v →
  wf (if aligned_u32 addr d then set_trace (dm_trace d ++ [mkStore addr v false]) d
      else set_err true d).
Proof.
  intros Hwf Ha Hv. destruct (aligned_u32 addr d) eqn:E; [| by apply wf_set_err].
  apply andb_true_iff in E as [?%Z.eqb_eq ?%Z.ltb_lt]. apply wf_store; [done |].
  by repeat split; try apply Hv.
Qed.

Lemma store_u256_wf addr v d :
  wf d → 0 ≤ addr → in_bits 256 v →
  wf (if aligned_u256 addr d then set_trace (dm_trace d ++ [mkStore addr v true]) d
      else set_err true d).
Proof.
  intros Hwf Ha Hv. destruct (aligned_u256 addr d) eqn:E; [| by apply wf_set_err].
  apply andb_true_iff in E as [?%Z.eqb_eq ?%Z.ltb_lt]. apply wf_store; [done |].
  by repeat split; try apply Hv.
Qed.

Lemma word32_bits data i v : word32 data i = Some v → in_bits 32 v.
Proof. intros (w & _ & ->)%fmap_Some. apply limb_bits. lia. Qed.

Lemma load_u32_bits data i : in_bits 32 (default 0 (word32 data i)).
Proof.
  destruct (word32 data i) eqn:E; [by eapply word32_bits | by apply in_bits_0].
Qed.

(** ** The memory as an array of 32-bit words *)

Lemma limb_set_u32 off v w j :
  0 ≤ off < 8 → 0 ≤ j < 8 → in_bits 32 v →
  limb 32 (set_u32 off v w) j = if decide (j = off) then v else limb 32 w j.
Proof.
  intros Ho Hj Hv. apply (inj Some). unfold set_u32.
  rewrite limb_join; [| lia | | by rewrite length_insert, limbs_split_length].
  - destruct (decide (j = off)) as [-> | Hne].
    + by rewrite list_lookup_insert_eq by (rewrite limbs_split_length; lia).
    + rewrite list_lookup_insert_ne by lia.
      rewrite limbs_split_lookup, decide_True, Z2Nat.id by lia. done.
  - apply Forall_insert; [apply limbs_split_bits; lia | done].
Qed.

Lemma word32_u32 data s i :
  store_ok (Z.of_nat (length data)) s → st_is_wide s = false → 0 ≤ i →
  word32 (apply_store data s) i =
    if decide (i = st_addr s / 4) then Some (st_value s) else word32 data i.
Proof.
  intros (Ha & Hr & Hs) Hw Hi. unfold apply_store, word32. rewrite Hw in *.
  destruct Hs as [Hv Hm]. rewrite div4_div8.
  assert (0 ≤ st_addr s / 32) by (apply Z.div_pos; lia).
  assert (0 ≤ st_addr s / 4) by (apply Z.div_pos; lia).
  assert (st_addr s / 32 = st_addr s / 4 / 8) as E8 by (symmetry; apply div4_div8).
  pose proof (Z.mod_pos_bound i 8). pose proof (Z.mod_pos_bound (st_addr s / 4) 8).
  destruct (decide (i / 8 = st_addr s / 32)) as [Heq | Hne].
  - rewrite Heq, list_lookup_alter_eq.
    destruct (lookup_lt_is_Some_2 data (Z.to_nat (st_addr s / 32))) as [w ->]; [lia |].
    simpl. rewrite limb_set_u32 by (done || lia).
    pose proof (Z.div_mod i 8). pose proof (Z.div_mod (st_addr s / 4) 8).
    repeat case_decide; [done | lia .. | done].
  - assert (0 ≤ i / 8) by (apply Z.div_pos; lia).
    rewrite list_lookup_alter_ne by lia. rewrite decide_False; [done |]. intros ->. lia.
Qed.

Lemma word32_u256 data s i :
  store_ok (Z.of_nat (length data)) s → st_is_wide s = true → 0 ≤ i →
  word32 (apply_store data s) i =
    if decide (i / 8 = st_addr s / 32) then Some (limb 32 (st_value s) (i `mod` 8))
    else word32 data i.
Proof.
  intros (Ha & Hr & Hs) Hw Hi. unfold apply_store, word32. rewrite Hw in *.
  assert (0 ≤ st_addr s / 32) by (apply Z.div_pos; lia).
  assert (0 ≤ i / 8) by (apply Z.div_pos; lia).
  case_decide as Hc.
  - rewrite Hc, list_lookup_insert_eq by lia. done.
  - by rewrite list_lookup_insert_ne by lia.
Qed.

(** ** Loading and dumping byte strings *)

Lemma pack_u32 b0 b1 b2 b3 :
  Forall (in_bits 8) [b0; b1; b2; b3] →
  limbs_split 8 4 (b0 .| (b1 ≪ 8) .| (b2 ≪ 16) .| (b3 ≪ 24)) = [b0; b1; b2; b3] ∧
  in_bits 32 (b0 .| (b1 ≪ 8) .| (b2 ≪ 16) .| (b3 ≪ 24)).
Proof.
  intros Hb. assert (E : b0 .| (b1 ≪ 8) .| (b2 ≪ 16) .| (b3 ≪ 24) =
    limbs_join 8 [b0; b1; b2; b3]).
  { cbn [limbs_join foldr]. rewrite Z.shiftl_0_l, Z.lor_0_l.
    rewrite !Z.shiftl_lor, !Z.shiftl_shiftl by lia.
    change (8 + 8) with 16. change (8 + 16) with 24. bitwise i. bits_cases. }
  rewrite E. split; [by apply (limbs_split_join 8 ltac:(lia) [b0; b1; b2; b3]) |].
  by apply (limbs_join_bits 8 ltac:(lia) _ 4).
Qed.

Lemma iter_unpack_ok k data :
  length data = (4 * k)%nat → Forall (in_bits 8) data →
  ∃ us, iter_unpack_le32 data = Ok us ∧ length us = k ∧ Forall (in_bits 32) us ∧
    pack_le32 us = data.
Proof.
  revert data. induction k as [| k IH]; intros data Hlen Hb.
  - exists []. by destruct data.
  - destruct data as [| b0 [| b1 [| b2 [| b3 data]]]]; try (simpl in Hlen; lia).
    destruct (IH data) as (us & E & Hl & Hus & Hp); [simpl in Hlen; lia | |].
    { by repeat (apply Forall_cons in Hb as [_ Hb]). }
    destruct (pack_u32 b0 b1 b2 b3) as [Hs Hi].
    { by apply (Forall_app _ [b0; b1; b2; b3]) in Hb as [? _]. }
    cbn [iter_unpack_le32]. rewrite E. cbn [mbind res_bind].
    eexists. split; [done |]. split; [simpl; by rewrite Hl |].
    split; [by constructor |]. unfold pack_le32 in *. cbn [mbind list_bind].
    rewrite Hs. cbn [app]. do 4 f_equal. exact Hp.
Qed.

Lemma load_u32s_step j us8 us d :
  length us8 = 8%nat →
  load_u32s (8 * j) [] (us8 ++ us) d =
    d' ← _set_u32s j us8 d; load_u32s (8 * (j + 1)) [] us d'.
Proof.
  intros Hl. do 8 (destruct us8 as [| ? us8]; [done |]). destruct us8; [| done].
  cbn [load_u32s app length]. cbn -[_set_u32s load_u32s Z.add Z.mul].
  replace ((8 * j + 1 + 1 + 1 + 1 + 1 + 1 + 1) / 8) with j;
    [| symmetry; Z.to_euclidean_division_equations; lia].
  replace (8 * j + 1 + 1 + 1 + 1 + 1 + 1 + 1 + 1) with (8 * (j + 1)) by lia.
  done.
Qed.

(** The words assembled from [8 * k] pieces replace [k] words of memory. *)
Lemma load_u32s_ok k j us d :
  length us = (8 * k)%nat → Forall (in_bits 32) us → 0 ≤ j → j + Z.of_nat k ≤ len d →
  ∃ ws, load_u32s (8 * j) [] us d = Ok ([], set_data
      (take (Z.to_nat j) (dm_data d) ++ ws ++ drop (Z.to_nat j + k) (dm_data d)) d) ∧
    length ws = k ∧ (ws ≫= limbs_split 32 8) = us ∧ Forall (in_bits 256) ws.
Proof.
  revert j us d. induction k as [| k IH]; intros j us d Hlen Hus Hj Hr.
  - exists []. destruct us; [| done]. cbn [load_u32s app]. split; [| done].
    rewrite Nat.add_0_r, take_drop. by destruct d.
  - rewrite <- (take_drop 8 us), load_u32s_step by (rewrite length_take; lia).
    assert (H8 : length (take 8 us) = 8%nat) by (rewrite length_take; lia).
    assert (Hb8 : Forall (in_bits 32) (take 8 us)) by (by apply Forall_take).
    rewrite set_u32s_ok by (done || lia). cbn [mbind res_bind].
    set (w := limbs_join 32 (take 8 us)).
    destruct (IH (j + 1) (drop 8 us)
      (set_data (<[Z.to_nat j := w]> (dm_data d)) d)) as (ws & E & Hl & Hs & Hb).
    + rewrite length_drop. lia.
    + by apply Forall_drop.
    + lia.
    + unfold len in *. simpl. rewrite length_insert. lia.
    + exists (w :: ws). unfold len in Hr. split.
      * rewrite E. f_equal. f_equal. unfold set_data. cbn [dm_data].
        f_equal. replace (Z.to_nat (j + 1)) with (S (Z.to_nat j)) by lia.
        rewrite (take_S_r _ _ w) by (apply list_lookup_insert_eq; lia).
        rewrite take_insert_ge by lia. rewrite drop_insert_lt by lia.
        rewrite <- app_assoc. by rewrite Nat.add_succ_r.
      * split; [simpl; by rewrite Hl |]. split.
        -- cbn [mbind list_bind] in *. unfold w.
           pose proof (limbs_split_join 32 ltac:(lia) (take 8 us) Hb8) as Hsj.
           rewrite H8 in Hsj. change (Z.of_nat 8) with 8 in Hsj.
           rewrite Hsj, Hs. by rewrite take_drop.
        -- constructor; [| done]. apply (limbs_join_bits 32 ltac:(lia) _ 8); [done | lia].
Qed.

Lemma pad_spec data :
  ∃ k, length (pad data) = (32 * k)%nat ∧
    (32 * k < length data + 32)%nat ∧ take (length data) (pad data) = data.
Proof.
  unfold pad, truthy. pose proof (Z.mod_pos_bound (Z.of_nat (length data)) 32 ltac:(lia)).
  pose proof (Z.div_mod (Z.of_nat (length data)) 32 ltac:(lia)).
  destruct (Z.eqb_spec (Z.of_nat (length data) `mod` 32) 0); cbn [negb].
  - exists (Z.to_nat (Z.of_nat (length data) / 32)).
    split; [lia |]. split; [lia |]. by rewrite take_ge by lia.
  - exists (S (Z.to_nat (Z.of_nat (length data) / 32))).
    rewrite length_app, length_replicate. split; [lia |]. split; [lia |].
    rewrite take_app_le by lia. by rewrite take_ge by lia.
Qed.

Lemma pad_bits data : Forall (in_bits 8) data → Forall (in_bits 8) (pad data).
Proof.
  intros. unfold pad. case_match; [| done]. apply Forall_app. split; [done |].
  by apply Forall_replicate.
Qed.

Lemma dump_eq d :
  wf d → dump_le_words d = Ok (pack_le32 (dm_data d ≫= limbs_split 32 8)).
Proof.
  intros Hwf. unfold dump_le_words.
  rewrite (mapR_Ok_fmap _ (fun i => limbs_split 32 8 (default 0 (dm_data d !! Z.to_nat i)))).
  - cbn [mbind res_bind]. do 2 f_equal.
    transitivity (concat (limbs_split 32 8 <$> dm_data d)).
    + f_equal. apply list_eq. intros i. rewrite !list_lookup_fmap.
      destruct (decide (i < length (dm_data d))%nat).
      * rewrite lookup_seqZ_lt by (unfold len; lia). simpl.
        rewrite Z.add_0_l, Nat2Z.id. destruct (lookup_lt_is_Some_2 (dm_data d) i) as [w Hw]; [done |].
        by rewrite Hw.
      * rewrite lookup_seqZ_ge by (unfold len; lia).
        by rewrite (lookup_ge_None_2 (dm_data d)) by lia.
    + clear. induction (dm_data d) as [| x l IH]; [done |].
      cbn. by rewrite IH.
  - intros i [? ?]%elem_of_seqZ.
    destruct (lookup_data d i Hwf) as (w & Hw & Hb); [lia |].
    rewrite (get_u32s_ok i d w) by (done || lia). by rewrite Hw.
Qed.

Lemma pack_le32_app l l' : pack_le32 (l ++ l') = pack_le32 l ++ pack_le32 l'.
Proof. apply bind_app. Qed.

Lemma pack_split_length l :
  length (pack_le32 (l ≫= limbs_split 32 8)) = (32 * length l)%nat.
Proof.
  induction l as [| x l IH]; [done |]. cbn [mbind list_bind].
  rewrite pack_le32_app, length_app, IH. cbn [length].
  replace (length (pack_le32 (limbs_split 32 8 x))) with 32%nat by done. lia.
Qed.

Lemma load_le_words_ok data d :
  wf d → Forall (in_bits 8) data → Z.of_nat (length data) ≤ 32 * len d →
  ∃ ws, load_le_words data d =
      Ok ((), set_data (ws ++ drop (length ws) (dm_data d)) d) ∧
    (length ws ≤ length (dm_data d))%nat ∧
    Forall (in_bits 256) ws ∧ pack_le32 (ws ≫= limbs_split 32 8) = pad data.
Proof.
  intros Hwf Hb Hlen. unfold load_le_words. rewrite (proj2 (Z.ltb_ge _ _)) by lia.
  destruct (pad_spec data) as (k & Hk & Hk' & _).
  destruct (iter_unpack_ok (8 * k) (pad data)) as (us & -> & Hl & Hus & Hp);
    [lia | by apply pad_bits |].
  cbn [mbind res_bind]. unfold len in Hlen.
  destruct (load_u32s_ok k 0 us d) as (ws & E & Hlw & Hs & Hws);
    [done | done | lia | unfold len; lia |].
  change (8 * 0) with 0 in E. rewrite E. cbn [mbind res_bind].
  exists ws. rewrite bool_decide_true by done. cbn [py_assert mbind res_bind].
  split; [by rewrite Hlw |]. split; [lia |]. split; [done |]. by rewrite Hs.
Qed.

Lemma pack_drop (ws l : list Z) :
  (length ws ≤ length l)%nat →
  drop (32 * length ws) (pack_le32 (l ≫= limbs_split 32 8)) =
  pack_le32 (drop (length ws) l ≫= limbs_split 32 8).
Proof.
  intros Hl. rewrite <- (take_drop (length ws) l) at 1.
  rewrite bind_app, pack_le32_app, drop_app_length'; [done |].
  rewrite pack_split_length, length_take. lia.
Qed.

(** Loading bytes and dumping the memory. *)
Lemma load_dump_ok data d
  (Hwf : wf d) (Hbytes : Forall (in_bits 8) data)
  (Hfits : Z.of_nat (length data) ≤ 32 * len d) :
  ∃ l old, load_le_words data d = Ok ((), set_data l d) ∧ length l = length (dm_data d) ∧
    wf (set_data l d) ∧ dump_le_words d = Ok old ∧
    dump_le_words (set_data l d) = Ok (pad data ++ drop (length (pad data)) old).
Proof.
  destruct (load_le_words_ok data d Hwf Hbytes Hfits) as (ws & E & Hlen & Hws & Hp).
  assert (Hwf' : wf (set_data (ws ++ drop (length ws) (dm_data d)) d)).
  { destruct Hwf as [Hd Ht]. split; cbn.
    - apply Forall_app. split; [done |]. by apply Forall_drop.
    - unfold len in *. cbn. rewrite length_app, length_drop.
      by replace (length ws + (length (dm_data d) - length ws))%nat with (length (dm_data d)) by lia. }
  eexists _, _. split_and!; [exact E | | done | by apply dump_eq |].
  { rewrite length_app, length_drop. lia. }
  rewrite dump_eq by done. cbn [set_data dm_data].
  rewrite bind_app, pack_le32_app, Hp. do 2 f_equal.
  rewrite <- Hp, pack_split_length. by rewrite pack_drop.
Qed.
End Dmem.
