(* ===== verification/LoopStack.v ===== *)
(** Hardware loops (otbnsim/sim/loop.py).  The stack is a list with its top at
    the head. *)

From S2P Require Import Prelude Trace.

Record LoopLevel := mkLevel {
  ll_loop_count : Z;
  ll_restarts_left : Z;
  ll_start_addr : Z;
  ll_last_addr : Z
}.

Record LoopStack := mkLoopStack {
  ls_stack : list LoopLevel;
  ls_trace : list Trace;
  ls_err_flag : bool;
  ls_pop_stack_on_commit : bool
}.

Module LoopLevel.
Definition init (start_addr insn_count restarts : Z) : res LoopLevel :=
  py_assert (0 <=? start_addr);;
  py_assert (0 <? insn_count);;
  py_assert (0 <=? restarts);;
  Ok (mkLevel (1 + restarts) restarts start_addr (start_addr + 4 * insn_count - 4)).

Definition get_loop_insn_addr (l : LoopLevel) : res Z :=
  py_assert (4 <=? ll_start_addr l);; Ok (ll_start_addr l - 4).

Definition wf (l : LoopLevel) : Prop :=
  0 ≤ ll_restarts_left l < ll_loop_count l ∧
  0 ≤ ll_start_addr l ≤ ll_last_addr l.

Lemma level_init_ok start n r :
  0 ≤ start → 0 < n → 0 ≤ r →
  init start n r = Ok (mkLevel (1 + r) r start (start + 4 * n - 4)).
Proof. intros. unfold init. by zbool. Qed.
End LoopLevel.

Module LoopStack.
Definition stack_depth : Z := 8.

Definition init : LoopStack := mkLoopStack [] [] false false.

Definition set_stack (st : list LoopLevel) (l : LoopStack) : LoopStack :=
  mkLoopStack st (ls_trace l) (ls_err_flag l) (ls_pop_stack_on_commit l).
Definition set_err (b : bool) (l : LoopStack) : LoopStack :=
  mkLoopStack (ls_stack l) (ls_trace l) b (ls_pop_stack_on_commit l).

Definition start_loop (start_addr loop_count insn_count : Z) : M LoopStack () := fun l =>
  py_assert (0 <=? start_addr);;
  py_assert (0 <? insn_count);;
  py_assert (0 <? loop_count);;
  level ← LoopLevel.init start_addr insn_count (loop_count - 1);
  Ok ((), mkLoopStack (level :: ls_stack l)
            (ls_trace l ++ [TraceLoopStart loop_count insn_count])
            ((Z.of_nat (length (ls_stack l)) =? stack_depth) || ls_err_flag l)
            (ls_pop_stack_on_commit l)).

Definition is_last_insn_in_loop_body (pc : Z) (l : LoopStack) : bool :=
  match ls_stack l with [] => false | top :: _ => pc =? ll_last_addr top end.

Definition check_insn (pc : Z) (insn_affects_control : bool) (l : LoopStack) : LoopStack :=
  if is_last_insn_in_loop_body pc l && insn_affects_control then set_err true l else l.

Definition step (pc : Z) : M LoopStack (option Z) := fun l =>
  match ls_stack l with
  | top :: below =>
      if pc =? ll_last_addr top then
        py_assert (0 <=? ll_restarts_left top);;
        let loop_idx := ll_loop_count top - ll_restarts_left top in
        let trace := ls_trace l ++ [TraceLoopIteration loop_idx (ll_loop_count top)] in
        if ll_restarts_left top =? 0 then
          Ok (None, mkLoopStack (top :: below) trace (ls_err_flag l) true)
        else
          let top' := mkLevel (ll_loop_count top) (ll_restarts_left top - 1)
                        (ll_start_addr top) (ll_last_addr top) in
          Ok (Some (ll_start_addr top),
              mkLoopStack (top' :: below) trace (ls_err_flag l) false)
      else Ok (None, mkLoopStack (ls_stack l) (ls_trace l) (ls_err_flag l) false)
  | [] => Ok (None, mkLoopStack (ls_stack l) (ls_trace l) (ls_err_flag l) false)
  end.

Definition err_bits (l : LoopStack) : Z := if ls_err_flag l then err_bits.LOOP else 0.

Definition changes (l : LoopStack) : list Trace := ls_trace l.

Definition commit (l : LoopStack) : res LoopStack :=
  py_assert (negb (ls_err_flag l));;
  stack ← (if ls_pop_stack_on_commit l
           then match ls_stack l with [] => Err IndexError | _ :: below => Ok below end
           else Ok (ls_stack l));
  Ok (mkLoopStack stack [] (ls_err_flag l) (ls_pop_stack_on_commit l)).

(** [abort] forgets the trace and the error flag.  The stack itself is not
    staged, so a level pushed or an iteration counted stays. *)
Definition abort (l : LoopStack) : LoopStack :=
  mkLoopStack (ls_stack l) [] false (ls_pop_stack_on_commit l).

(** ** Well-formed stacks *)

Record wf (l : LoopStack) : Prop := {
  wf_levels : Forall LoopLevel.wf (ls_stack l);
  wf_depth : Z.of_nat (length (ls_stack l)) ≤ stack_depth ∨ ls_err_flag l = true
}.

Lemma loops_init_wf : wf init.
Proof. split; [done | by left]. Qed.

Lemma start_loop_ok start count n l :
  wf l → 0 ≤ start → 0 < count → 0 < n →
  ∃ l', start_loop start count n l = Ok ((), l') ∧ wf l' ∧
    ls_stack l' = mkLevel count (count - 1) start (start + 4 * n - 4) :: ls_stack l ∧
    (ls_err_flag l' = false → Z.of_nat (length (ls_stack l)) < stack_depth ∧ ls_err_flag l = false).
Proof.
  intros [Hl Hd] ? ? ?. unfold start_loop. zbool. cbn [py_assert mbind res_bind].
  rewrite LoopLevel.level_init_ok by lia. cbn [mbind res_bind].
  replace (1 + (count - 1)) with count by lia.
  eexists. split; [done |]. unfold stack_depth in *. split; [| split; [done |]]; cbn.
  - split; cbn.
    + constructor; [| done]. unfold LoopLevel.wf; cbn. lia.
    + destruct (Z.eqb_spec (Z.of_nat (length (ls_stack l))) 8); cbn [orb]; [by right |].
      destruct Hd as [? | ->]; [left; unfold stack_depth; lia | by right].
  - intros [?%Z.eqb_neq ?]%orb_false_iff. split; [| done].
    unfold stack_depth. destruct Hd; [lia | congruence].
Qed.

Lemma check_insn_wf pc b l : wf l → wf (check_insn pc b l).
Proof. intros []. unfold check_insn. case_match; split; cbn; auto. Qed.

Lemma loops_step_ok pc l :
  wf l →
  ∃ r l', step pc l = Ok (r, l') ∧ wf l' ∧ ls_err_flag l' = ls_err_flag l ∧
    ll_start_addr <$> ls_stack l' = ll_start_addr <$> ls_stack l ∧
    (ls_pop_stack_on_commit l' = true → ls_stack l' ≠ []) ∧
    from_option (fun a => 0 ≤ a ∧ a ∈ ll_start_addr <$> ls_stack l) True r.
Proof.
  intros [Hl Hd]. unfold step. destruct (ls_stack l) as [| top below] eqn:Est.
  { eexists _, _. split; [done |]. split; [split; cbn; auto | done]. }
  apply Forall_cons in Hl as [(Hr & Ha) Hl].
  destruct (Z.eqb_spec pc (ll_last_addr top)) as [-> |].
  - zbool. cbn [py_assert mbind res_bind].
    destruct (Z.eqb_spec (ll_restarts_left top) 0); eexists _, _; (split; [done |]).
    + split; [split; cbn; [by constructor | done] | done].
    + split; [split; cbn; [| done] |].
      * constructor; [| done]. unfold LoopLevel.wf; cbn. lia.
      * repeat split; cbn; auto with lia. left.
  - eexists _, _. split; [done |]. rewrite ?Est.
    split; [split; cbn; [by constructor | done] | done].
Qed.

Lemma loops_commit_ok l :
  wf l → ls_err_flag l = false → (ls_pop_stack_on_commit l = true → ls_stack l ≠ []) →
  ∃ l', commit l = Ok l' ∧ wf l' ∧ ls_err_flag l' = false ∧
    ls_stack l' = (if ls_pop_stack_on_commit l then tail (ls_stack l) else ls_stack l).
Proof.
  intros [Hl Hd] He Hp. unfold commit. rewrite He. cbn [negb py_assert mbind res_bind].
  destruct Hd as [Hd | ?]; [| congruence].
  destruct (ls_pop_stack_on_commit l).
  - destruct (ls_stack l) as [| top below]; [by destruct (Hp eq_refl) |].
    cbn. eexists. split; [done |]. apply Forall_cons in Hl as [_ Hl].
    split; [split; cbn in *; [done | left; lia] | done].
  - cbn. eexists. split; [done |]. split; [split; cbn; auto | done].
Qed.

(** ** Iterating a loop *)

(** Executing the last instruction of the body: [step] then [commit]. *)
Definition visit (l : LoopStack) (pc : Z) : res (option Z * LoopStack) :=
  '(r, l1) ← step pc l; l2 ← commit l1; Ok (r, l2).

(** [k] visits of [pc], with the jump each of them takes. *)
Fixpoint visits (k : nat) (pc : Z) (l : LoopStack) : res (list (option Z) * LoopStack) :=
  match k with
  | O => Ok ([], l)
  | S k => '(r, l1) ← visit l pc; '(rs, l2) ← visits k pc l1; Ok (r :: rs, l2)
  end.

Lemma visit_restart c r a b below t p :
  0 < r →
  visit (mkLoopStack (mkLevel c r a b :: below) t false p) b =
    Ok (Some a, mkLoopStack (mkLevel c (r - 1) a b :: below) [] false false).
Proof.
  intros. unfold visit, step. cbn [ls_stack ll_last_addr ll_restarts_left].
  rewrite Z.eqb_refl. zbool. cbn [py_assert mbind res_bind]. by zbool.
Qed.

Lemma visit_last c a b below t p :
  visit (mkLoopStack (mkLevel c 0 a b :: below) t false p) b =
    Ok (None, mkLoopStack below [] false true).
Proof.
  unfold visit, step. cbn [ls_stack ll_last_addr ll_restarts_left].
  by rewrite Z.eqb_refl.
Qed.

(** A level with [r] restarts left jumps back [r] times and then leaves. *)
Lemma visits_level r c a b below t p :
  visits (S r) b (mkLoopStack (mkLevel c (Z.of_nat r) a b :: below) t false p) =
    Ok (replicate r (Some a) ++ [None], mkLoopStack below [] false true).
Proof.
  revert t p. induction r as [| r IH]; intros t p.
  - cbn [visits]. change (Z.of_nat 0) with 0. by rewrite visit_last.
  - cbn [visits]. rewrite visit_restart by lia. cbn [mbind res_bind].
    replace (Z.of_nat (S r) - 1) with (Z.of_nat r) by lia.
    specialize (IH [] false). cbn [visits] in IH.
    destruct (visit _ b) as [[r1 l1] |]; cbn [mbind res_bind] in *; [| done].
    destruct (visits r b l1) as [[rs l2] |]; cbn [mbind res_bind] in *; [| done].
    by injection IH as -> ->.
Qed.
End LoopStack.
