(* ===== verification/ExtRegs.v ===== *)
(** The externally visible registers (otbnsim/sim/ext_regs.py): fields with a
    committed and a staged value, software access types, and the trace of
    staged changes that tells [commit] whether there is anything to do. *)

From S2P Require Import Prelude Trace.

(** What the constructors read from a reggen field: the attributes [name],
    [bits.width()], [bits.lsb], [resval] and [swaccess.key]. *)
Record Field := mkField {
  f_name : string;
  f_width : Z;
  f_lsb : Z;
  f_resval : option Z;
  f_swaccess : string
}.

Record RGField := mkRGField {
  fd_name : string;
  fd_width : Z;
  fd_lsb : Z;
  fd_value : Z;
  fd_w1c : bool;
  fd_read_only : bool;
  fd_read_zero : bool;
  fd_next_value : Z
}.

Record OTBNExtRegs := mkExtRegs {
  er_regs : gmap string (list RGField);
  er_trace : list Trace
}.

Module RGField.
Definition init (f : Field) : res RGField :=
  let reset_value := default 0 (f_resval f) in
  py_assert (bool_decide (f_swaccess f ∈ ["rw1c"; "rw"; "wo"; "r0w1c"; "ro"]));;
  py_assert (0 <? f_width f);;
  py_assert (0 <=? f_lsb f);;
  Ok (mkRGField (f_name f) (f_width f) (f_lsb f) reset_value
        (bool_decide (f_swaccess f ∈ ["rw1c"; "r0w1c"]))
        (bool_decide (f_swaccess f = "ro"))
        (bool_decide (f_swaccess f ∈ ["wo"; "r0w1c"]))
        reset_value).

Definition set_next (v : Z) (f : RGField) : RGField :=
  mkRGField (fd_name f) (fd_width f) (fd_lsb f) (fd_value f)
    (fd_w1c f) (fd_read_only f) (fd_read_zero f) v.

Definition _next_sw_read (f : RGField) : Z :=
  if fd_read_zero f then 0 else fd_next_value f.

Definition write (value : Z) (from_hw : bool) : M RGField Z := fun f =>
  py_assert (0 <=? value);;
  let masked := value .& mask (fd_width f) in
  let f' :=
    if fd_read_only f && negb from_hw then f
    else if fd_w1c f && negb from_hw then set_next (fd_next_value f .& ~. masked) f
    else set_next masked f in
  Ok (_next_sw_read f', f').

Definition set_bits (value : Z) : M RGField Z := fun f =>
  let masked := value .& mask (fd_width f) in
  let f' := set_next (fd_next_value f .| masked) f in
  Ok (_next_sw_read f', f').

Definition clear_bits (value : Z) : M RGField Z := fun f =>
  let f' := set_next (fd_next_value f .& ~. value) f in
  Ok (_next_sw_read f', f').

Definition read (from_hw : bool) (f : RGField) : Z :=
  if fd_read_zero f && negb from_hw then 0 else fd_value f.

Definition commit (f : RGField) : RGField :=
  mkRGField (fd_name f) (fd_width f) (fd_lsb f) (fd_next_value f)
    (fd_w1c f) (fd_read_only f) (fd_read_zero f) (fd_next_value f).

Definition abort (f : RGField) : RGField := set_next (fd_value f) f.

Record wf (f : RGField) : Prop := {
  wf_width : 0 < fd_width f;
  wf_lsb : 0 ≤ fd_lsb f;
  wf_value : in_bits (fd_width f) (fd_value f);
  wf_next : in_bits (fd_width f) (fd_next_value f)
}.

(** Nothing is staged. *)
Definition clean (f : RGField) : Prop := fd_next_value f = fd_value f.

(** A staged update: well formed again, same committed value. *)
Definition staged (f f' : RGField) : Prop :=
  wf f' ∧ abort f' = abort f.

Lemma set_next_wf v f : wf f → in_bits (fd_width f) v → staged f (set_next v f).
Proof. intros [] ?. split; [by split | done]. Qed.

Lemma rgfield_write_ok value hw f :
  wf f → 0 ≤ value → ∃ v f', write value hw f = Ok (v, f') ∧ staged f f' ∧ 0 ≤ v.
Proof.
  intros Hwf Hv. unfold write. zbool. cbn [py_assert mbind res_bind].
  pose proof (wf_width _ Hwf).
  assert (Hst : staged f (if fd_read_only f && negb hw then f
    else if fd_w1c f && negb hw
      then set_next (fd_next_value f .& ~. (value .& mask (fd_width f))) f
      else set_next (value .& mask (fd_width f)) f)).
  { destruct (fd_read_only f && negb hw); [by split |].
    destruct (fd_w1c f && negb hw); apply set_next_wf; try done.
    - apply in_bits_land_l; [lia | apply Hwf].
    - apply in_bits_mask. lia. }
  eexists _, _. split; [done |]. split; [done |].
  unfold _next_sw_read. destruct (fd_read_zero _); [done | apply Hst].
Qed.

Lemma rgfield_set_bits_ok value f :
  wf f → ∃ v f', set_bits value f = Ok (v, f') ∧ staged f f' ∧ 0 ≤ v.
Proof.
  intros Hwf. pose proof (wf_width _ Hwf).
  assert (Hst : staged f (set_next (fd_next_value f .| (value .& mask (fd_width f))) f)).
  { apply set_next_wf; [done |].
    apply in_bits_lor; [lia | apply Hwf | apply in_bits_mask; lia]. }
  eexists _, _. split; [done |]. split; [done |].
  unfold _next_sw_read. destruct (fd_read_zero _); [done | apply Hst].
Qed.

Lemma rgfield_clear_bits_ok value f :
  wf f → ∃ v f', clear_bits value f = Ok (v, f') ∧ staged f f' ∧ 0 ≤ v.
Proof.
  intros Hwf. pose proof (wf_width _ Hwf).
  assert (Hst : staged f (set_next (fd_next_value f .& ~. value) f)).
  { apply set_next_wf; [done |]. apply in_bits_land_l; [lia | apply Hwf]. }
  eexists _, _. split; [done |]. split; [done |].
  unfold _next_sw_read. destruct (fd_read_zero _); [done | apply Hst].
Qed.

Lemma rgfield_commit_wf f : wf f → wf (commit f) ∧ clean (commit f).
Proof. intros []. by split. Qed.

Lemma rgfield_abort_wf f : wf f → wf (abort f) ∧ clean (abort f).
Proof. intros []. by split. Qed.

Lemma rgfield_commit_clean f : clean f → commit f = f.
Proof. destruct f. unfold clean, commit. cbn. by intros ->. Qed.

Lemma rgfield_abort_clean f : clean f → abort f = f.
Proof. destruct f. unfold clean, abort, set_next. cbn. by intros ->. Qed.
End RGField.

(** A register is the list of its fields. *)
Module RGReg.
Definition init (fields : list Field) : res (list RGField) := mapR RGField.init fields.

(** The loop of [_apply_fields], from the value gathered so far. *)
Fixpoint apply_fields (func : Z → M RGField Z) (value new_val : Z)
    (fields : list RGField) : res (Z * list RGField) :=
  match fields with
  | [] => Ok (new_val, [])
  | field :: fields =>
      '(field_new_val, field') ← func (value ≫ fd_lsb field) field;
      '(v, fields') ← apply_fields func value (new_val .| (field_new_val ≪ fd_lsb field)) fields;
      Ok (v, field' :: fields')
  end.

Definition write (value : Z) (from_hw : bool) : M (list RGField) Z := fun r =>
  py_assert (0 <=? value);;
  apply_fields (fun fv => RGField.write fv from_hw) value 0 r.

Definition set_bits (value : Z) : M (list RGField) Z := fun r =>
  py_assert (0 <=? value);;
  apply_fields RGField.set_bits value 0 r.

Definition clear_bits (value : Z) : M (list RGField) Z := fun r =>
  py_assert (0 <=? value);;
  apply_fields RGField.clear_bits value 0 r.

Definition read (from_hw : bool) (r : list RGField) : Z :=
  foldl (fun value field => value .| (RGField.read from_hw field ≪ fd_lsb field)) 0 r.

Definition commit (r : list RGField) : list RGField := map RGField.commit r.
Definition abort (r : list RGField) : list RGField := map RGField.abort r.

Definition wf (r : list RGField) : Prop := Forall RGField.wf r.
Definition clean (r : list RGField) : Prop := Forall RGField.clean r.

Lemma apply_fields_ok func value acc r :
  (∀ v f, 0 ≤ v → RGField.wf f →
    ∃ x f', func v f = Ok (x, f') ∧ RGField.staged f f' ∧ 0 ≤ x) →
  0 ≤ value → wf r →
  ∃ x r', apply_fields func value acc r = Ok (x, r') ∧ wf r' ∧ abort r' = abort r.
Proof.
  intros Hf Hv Hr. revert acc. induction Hr as [| f r Hfw Hr IH]; intros acc.
  { exists acc, []. split; [done |]. split; [constructor | done]. }
  cbn [apply_fields]. destruct (Hf (value ≫ fd_lsb f) f) as (x & f' & -> & [Hw Ha] & _);
    [by apply Z.shiftr_nonneg | done |].
  cbn [mbind res_bind].
  destruct (IH (acc .| (x ≪ fd_lsb f))) as (y & r' & -> & Hwr & Har). cbn [mbind res_bind].
  eexists _, _. split; [done |]. split; [by constructor |].
  unfold abort in *. cbn [map]. by rewrite Ha, Har.
Qed.

(** Reads see committed values only. *)
Lemma read_abort hw r : read hw (abort r) = read hw r.
Proof.
  unfold read, abort. generalize 0 as acc. induction r as [| f r IH]; intros acc; [done |].
  cbn [map foldl]. by rewrite IH.
Qed.

Lemma read_nonneg hw r : wf r → 0 ≤ read hw r.
Proof.
  intros Hr. unfold read. assert (H0 : 0 ≤ 0) by done. revert H0.
  generalize 0 at 2 4 as acc. induction Hr as [| f r Hf Hr IH]; intros acc Hacc; [done |].
  cbn [foldl]. apply IH. apply Z.lor_nonneg. split; [done |].
  apply Z.shiftl_nonneg. unfold RGField.read.
  destruct (fd_read_zero f && negb hw); [done | apply Hf].
Qed.
End RGReg.

Module OTBNExtRegs.
(** The constructor, from the flat registers of the block that reggen
    loads: each a name and its fields. *)
Definition init (flat_regs : list (string * list Field)) : res OTBNExtRegs :=
  regs ← foldM (fun (regs : gmap string (list RGField)) '(name, fields) =>
           py_assert (bool_decide (regs !! name = None));;
           r ← RGReg.init fields;
           Ok (<[name := r]> regs)) ∅ flat_regs;
  Ok (mkExtRegs regs []).

Definition _get_reg (name : string) (e : OTBNExtRegs) : res (list RGField) :=
  of_option ValueError (er_regs e !! name).

(** Run a register operation and record the change. *)
Definition update (name op : string) (value : Z) (from_hw : bool)
    (m : M (list RGField) Z) : M OTBNExtRegs () := fun e =>
  py_assert (0 <=? value);;
  r ← _get_reg name e;
  '(new_val, r') ← m r;
  Ok ((), mkExtRegs (<[name := r']> (er_regs e))
            (er_trace e ++ [TraceExtRegChange name op value from_hw new_val])).

Definition write (name : string) (value : Z) (from_hw : bool) : M OTBNExtRegs () :=
  update name "=" value from_hw (RGReg.write value from_hw).

Definition set_bits (name : string) (value : Z) : M OTBNExtRegs () :=
  update name "|=" value true (RGReg.set_bits value).

Definition clear_bits (name : string) (value : Z) : M OTBNExtRegs () :=
  update name "&= ~" value true (RGReg.clear_bits value).

Definition read (name : string) (from_hw : bool) (e : OTBNExtRegs) : res Z :=
  r ← _get_reg name e; Ok (RGReg.read from_hw r).

Definition changes (e : OTBNExtRegs) : list Trace := er_trace e.

Definition commit (e : OTBNExtRegs) : OTBNExtRegs :=
  match er_trace e with
  | [] => e
  | _ => mkExtRegs (RGReg.commit <$> er_regs e) []
  end.

Definition abort (e : OTBNExtRegs) : OTBNExtRegs :=
  mkExtRegs (RGReg.abort <$> er_regs e) [].

Record wf (e : OTBNExtRegs) : Prop := {
  wf_regs : map_Forall (fun _ r => RGReg.wf r) (er_regs e);
  wf_clean : er_trace e = [] → map_Forall (fun _ r => RGReg.clean r) (er_regs e)
}.

(** The registers the simulator itself accesses exist. *)
Definition has_core_regs (e : OTBNExtRegs) : Prop :=
  Forall (fun n => is_Some (er_regs e !! n)) ["STATUS"; "INTR_STATE"; "ERR_BITS"; "START_ADDR"].

(** The committed view: what an [abort] goes back to. *)
Definition committed (e : OTBNExtRegs) : gmap string (list RGField) := RGReg.abort <$> er_regs e.

Lemma update_ok name op value hw (m : M (list RGField) Z) e :
  wf e → 0 ≤ value → is_Some (er_regs e !! name) →
  (∀ r, RGReg.wf r → ∃ x r', m r = Ok (x, r') ∧ RGReg.wf r' ∧ RGReg.abort r' = RGReg.abort r) →
  ∃ e', update name op value hw m e = Ok ((), e') ∧ wf e' ∧ committed e' = committed e ∧
    (∀ n, is_Some (er_regs e !! n) → is_Some (er_regs e' !! n)).
Proof.
  intros Hwf Hv [r Hr] Hm. unfold update, _get_reg. zbool. rewrite Hr.
  cbn [py_assert mbind res_bind of_option].
  destruct (Hm r) as (x & r' & -> & Hw & Ha); [by eapply (wf_regs _ Hwf) |].
  cbn [mbind res_bind]. eexists. split; [done |]. split; [split; cbn |split].
  - apply map_Forall_insert_2; [done | apply Hwf].
  - intros ?. by destruct (er_trace e).
  - unfold committed. cbn. rewrite fmap_insert, Ha. apply insert_id.
    by rewrite lookup_fmap, Hr.
  - cbn. intros n Hn. destruct (decide (name = n)) as [-> |].
    + by rewrite lookup_insert_eq.
    + by rewrite lookup_insert_ne.
Qed.

Lemma ext_write_ok name value hw e :
  wf e → 0 ≤ value → is_Some (er_regs e !! name) →
  ∃ e', write name value hw e = Ok ((), e') ∧ wf e' ∧ committed e' = committed e ∧
    (∀ n, is_Some (er_regs e !! n) → is_Some (er_regs e' !! n)).
Proof.
  intros ? ? ?. apply update_ok; try done. intros r Hr. unfold RGReg.write. zbool.
  cbn [py_assert mbind res_bind]. apply RGReg.apply_fields_ok; [| done | done].
  intros. by apply RGField.rgfield_write_ok.
Qed.

Lemma ext_set_bits_ok name value e :
  wf e → 0 ≤ value → is_Some (er_regs e !! name) →
  ∃ e', set_bits name value e = Ok ((), e') ∧ wf e' ∧ committed e' = committed e ∧
    (∀ n, is_Some (er_regs e !! n) → is_Some (er_regs e' !! n)).
Proof.
  intros ? ? ?. apply update_ok; try done. intros r Hr. unfold RGReg.set_bits. zbool.
  cbn [py_assert mbind res_bind]. apply RGReg.apply_fields_ok; [| done | done].
  intros. by apply RGField.rgfield_set_bits_ok.
Qed.

Lemma ext_clear_bits_ok name value e :
  wf e → 0 ≤ value → is_Some (er_regs e !! name) →
  ∃ e', clear_bits name value e = Ok ((), e') ∧ wf e' ∧ committed e' = committed e ∧
    (∀ n, is_Some (er_regs e !! n) → is_Some (er_regs e' !! n)).
Proof.
  intros ? ? ?. apply update_ok; try done. intros r Hr. unfold RGReg.clear_bits. zbool.
  cbn [py_assert mbind res_bind]. apply RGReg.apply_fields_ok; [| done | done].
  intros. by apply RGField.rgfield_clear_bits_ok.
Qed.

Lemma reg_commit_clean r : RGReg.clean r → RGReg.commit r = r.
Proof.
  unfold RGReg.commit. induction 1 as [| f r Hf _ IH]; [done |]. cbn.
  by rewrite RGField.rgfield_commit_clean, IH.
Qed.

(** Skipping the registers when the trace is empty changes nothing. *)
Lemma ext_commit_eq e : wf e → commit e = mkExtRegs (RGReg.commit <$> er_regs e) [].
Proof.
  intros Hwf. unfold commit. destruct (er_trace e) eqn:Et; [| done].
  destruct e as [regs tr]. cbn in *. subst. f_equal. symmetry.
  apply map_eq. intros n. rewrite lookup_fmap. destruct (regs !! n) as [r |] eqn:Er; [| done].
  cbn. f_equal. apply reg_commit_clean. by eapply (wf_clean _ Hwf).
Qed.

Lemma ext_commit_wf e : wf e → wf (commit e).
Proof.
  intros Hwf. rewrite ext_commit_eq by done. split; cbn.
  - intros n r. rewrite lookup_fmap. intros (r' & Hr' & ->)%fmap_Some.
    apply Forall_fmap, (Forall_impl RGField.wf); [by eapply (wf_regs _ Hwf) |].
    intros f Hf. by apply RGField.rgfield_commit_wf.
  - intros _ n r. rewrite lookup_fmap. intros (r' & Hr' & ->)%fmap_Some.
    apply Forall_fmap, Forall_true. done.
Qed.

Lemma ext_abort_wf e : wf e → wf (abort e).
Proof.
  intros Hwf. split; cbn.
  - intros n r. rewrite lookup_fmap. intros (r' & Hr' & ->)%fmap_Some.
    apply Forall_fmap, (Forall_impl RGField.wf); [by eapply (wf_regs _ Hwf) |].
    intros f Hf. by apply RGField.rgfield_abort_wf.
  - intros _ n r. rewrite lookup_fmap. intros (r' & Hr' & ->)%fmap_Some.
    apply Forall_fmap, Forall_true. done.
Qed.

Lemma core_regs_abort e : has_core_regs e → has_core_regs (abort e).
Proof.
  intros H. eapply Forall_impl; [exact H |]. cbn. intros n ?. by rewrite lookup_fmap, fmap_is_Some.
Qed.

Lemma core_regs_commit e : wf e → has_core_regs e → has_core_regs (commit e).
Proof.
  intros Hw H. rewrite ext_commit_eq by done. eapply Forall_impl; [exact H |]. cbn.
  intros n ?. by rewrite lookup_fmap, fmap_is_Some.
Qed.

Lemma core_regs_mono e e' :
  (∀ n, is_Some (er_regs e !! n) → is_Some (er_regs e' !! n)) →
  has_core_regs e → has_core_regs e'.
Proof. intros Hm H. eapply Forall_impl; [exact H |]. cbn. intros. by apply Hm. Qed.

(** ** Construction *)

Definition field_ok (f : Field) : Prop :=
  f_swaccess f ∈ ["rw1c"; "rw"; "wo"; "r0w1c"; "ro"] ∧ 0 < f_width f ∧ 0 ≤ f_lsb f ∧
  in_bits (f_width f) (default 0 (f_resval f)).

Definition regs_ok (flat_regs : list (string * list Field)) : Prop :=
  NoDup flat_regs.*1 ∧ Forall (fun r => Forall field_ok (snd r)) flat_regs.

#[global] Instance field_ok_dec f : Decision (field_ok f).
Proof. unfold field_ok, in_bits. apply _. Defined.
#[global] Instance regs_ok_dec flat_regs : Decision (regs_ok flat_regs).
Proof. unfold regs_ok. apply _. Defined.

Lemma reg_init_ok fields :
  Forall field_ok fields →
  ∃ r, RGReg.init fields = Ok r ∧ RGReg.wf r ∧ RGReg.clean r.
Proof.
  unfold RGReg.init. induction 1 as [| f fields (Ha & Hw & Hl & Hb) _ IH].
  { exists []. split; [done |]. split; constructor. }
  destruct IH as (r & E & Hr & Hc). cbn [mapR].
  assert (∃ g, RGField.init f = Ok g ∧ RGField.wf g ∧ RGField.clean g) as (g & -> & Hg & Hgc).
  { unfold RGField.init.
    rewrite (bool_decide_true (f_swaccess f ∈ ["rw1c"; "rw"; "wo"; "r0w1c"; "ro"])) by done.
    zbool. eexists. split; [done |]. split; [by split | done]. }
  cbn [mbind res_bind]. rewrite E. eexists. split; [done |]. split; by constructor.
Qed.

Lemma ext_init_ok flat_regs :
  regs_ok flat_regs →
  ∃ e, init flat_regs = Ok e ∧ wf e ∧ er_trace e = [] ∧
    ∀ n, n ∈ flat_regs.*1 → is_Some (er_regs e !! n).
Proof.
  intros [Hnd Hf]. unfold init.
  assert (H : ∀ (acc : gmap string (list RGField)) l,
    NoDup l.*1 → Forall (fun r => Forall field_ok (snd r)) l →
    (∀ n, n ∈ l.*1 → acc !! n = None) →
    map_Forall (fun _ r => RGReg.wf r ∧ RGReg.clean r) acc →
    ∃ m, foldM (fun (regs : gmap string (list RGField)) '(name, fields) =>
           py_assert (bool_decide (regs !! name = None));;
           r ← RGReg.init fields; Ok (<[name := r]> regs)) acc l = Ok m ∧
      map_Forall (fun _ r => RGReg.wf r ∧ RGReg.clean r) m ∧
      (∀ n, n ∈ l.*1 ∨ is_Some (acc !! n) → is_Some (m !! n))).
  { clear. intros acc l. revert acc. induction l as [| [n fs] l IH]; intros acc Hnd Hf Hn Hacc.
    { exists acc. split; [done |]. split; [done |]. intros n [[]%elem_of_nil | ?]; done. }
    apply NoDup_cons in Hnd as [Hnl Hnd]. apply Forall_cons in Hf as [Hf Hfs].
    cbn [foldM]. rewrite bool_decide_true by (apply Hn; left). cbn [py_assert mbind res_bind].
    destruct (reg_init_ok fs Hf) as (r & -> & Hr & Hc). cbn [mbind res_bind].
    destruct (IH (<[n := r]> acc)) as (m & E & Hm & Hin); [done | done | | |].
    { intros n' Hn'. rewrite lookup_insert_ne by (intros ->; done). apply Hn. by right. }
    { by apply map_Forall_insert_2. }
    exists m. split; [exact E |]. split; [done |]. intros n' [[-> | Hn']%elem_of_cons | Hs].
    - apply Hin. right. by rewrite lookup_insert_eq.
    - apply Hin. by left.
    - apply Hin. right. destruct (decide (n = n')) as [-> |].
      + by rewrite lookup_insert_eq.
      + by rewrite lookup_insert_ne. }
  destruct (H ∅ flat_regs Hnd Hf) as (m & -> & Hm & Hin);
    [intros; apply lookup_empty | apply map_Forall_empty |].
  eexists. split; [done |]. split; [| split; [done |]; intros n Hn; apply Hin; by left].
  split; cbn; [| intros _]; intros n r Hr; by apply (Hm n r Hr).
Qed.
End OTBNExtRegs.
