(* ===== verification/State.v ===== *)
(** The state of the simulated core (otbnsim/sim/state.py): the components, the
    program counter with its staged override, the stall and halt flags. *)

From S2P Require Import Prelude Trace Reg Gpr Flags Wsr Csr Dmem.
From S2P Require Import LoopStack ExtRegs.

Record OTBNState := mkState {
  s_gprs : GPRs;
  s_wdrs : RegFile;
  s_wsrs : WSRFile;
  s_csrs : CSRFile;
  s_pc : Z;
  s_pc_next_override : option Z;
  s_imem_size : Z;
  s_dmem : Dmem;
  s_non_insn_stall : bool;
  s_start_stall : bool;
  s_urnd_stall : bool;
  s_loop_stack : LoopStack;
  s_ext_regs : OTBNExtRegs;
  s_running : bool;
  s_err_bits : Z;
  s_pending_halt : bool;
  s_new_rnd_data : option Z;
  s_urnd_reseed_complete : bool
}.

Module OTBNState.
(** ** Field updates *)

Definition set_gprs (x : GPRs) (s : OTBNState) : OTBNState :=
  mkState x (s_wdrs s) (s_wsrs s) (s_csrs s) (s_pc s) (s_pc_next_override s) (s_imem_size
    s) (s_dmem s) (s_non_insn_stall s) (s_start_stall s) (s_urnd_stall s) (s_loop_stack s)
    (s_ext_regs s) (s_running s) (s_err_bits s) (s_pending_halt s) (s_new_rnd_data s)
    (s_urnd_reseed_complete s).
Definition set_wdrs (x : RegFile) (s : OTBNState) : OTBNState :=
  mkState (s_gprs s) x (s_wsrs s) (s_csrs s) (s_pc s) (s_pc_next_override s) (s_imem_size
    s) (s_dmem s) (s_non_insn_stall s) (s_start_stall s) (s_urnd_stall s) (s_loop_stack s)
    (s_ext_regs s) (s_running s) (s_err_bits s) (s_pending_halt s) (s_new_rnd_data s)
    (s_urnd_reseed_complete s).
Definition set_wsrs (x : WSRFile) (s : OTBNState) : OTBNState :=
  mkState (s_gprs s) (s_wdrs s) x (s_csrs s) (s_pc s) (s_pc_next_override s) (s_imem_size
    s) (s_dmem s) (s_non_insn_stall s) (s_start_stall s) (s_urnd_stall s) (s_loop_stack s)
    (s_ext_regs s) (s_running s) (s_err_bits s) (s_pending_halt s) (s_new_rnd_data s)
    (s_urnd_reseed_complete s).
Definition set_csrs (x : CSRFile) (s : OTBNState) : OTBNState :=
  mkState (s_gprs s) (s_wdrs s) (s_wsrs s) x (s_pc s) (s_pc_next_override s) (s_imem_size
    s) (s_dmem s) (s_non_insn_stall s) (s_start_stall s) (s_urnd_stall s) (s_loop_stack s)
    (s_ext_regs s) (s_running s) (s_err_bits s) (s_pending_halt s) (s_new_rnd_data s)
    (s_urnd_reseed_complete s).
Definition set_pc (x : Z) (s : OTBNState) : OTBNState :=
  mkState (s_gprs s) (s_wdrs s) (s_wsrs s) (s_csrs s) x (s_pc_next_override s)
    (s_imem_size s) (s_dmem s) (s_non_insn_stall s) (s_start_stall s) (s_urnd_stall s)
    (s_loop_stack s) (s_ext_regs s) (s_running s) (s_err_bits s) (s_pending_halt s)
    (s_new_rnd_data s) (s_urnd_reseed_complete s).
Definition set_pc_next_override (x : option Z) (s : OTBNState) : OTBNState :=
  mkState (s_gprs s) (s_wdrs s) (s_wsrs s) (s_csrs s) (s_pc s) x (s_imem_size s) (s_dmem
    s) (s_non_insn_stall s) (s_start_stall s) (s_urnd_stall s) (s_loop_stack s)
    (s_ext_regs s) (s_running s) (s_err_bits s) (s_pending_halt s) (s_new_rnd_data s)
    (s_urnd_reseed_complete s).
Definition set_dmem (x : Dmem) (s : OTBNState) : OTBNState :=
  mkState (s_gprs s) (s_wdrs s) (s_wsrs s) (s_csrs s) (s_pc s) (s_pc_next_override s)
    (s_imem_size s) x (s_non_insn_stall s) (s_start_stall s) (s_urnd_stall s)
    (s_loop_stack s) (s_ext_regs s) (s_running s) (s_err_bits s) (s_pending_halt s)
    (s_new_rnd_data s) (s_urnd_reseed_complete s).
Definition set_non_insn_stall (x : bool) (s : OTBNState) : OTBNState :=
  mkState (s_gprs s) (s_wdrs s) (s_wsrs s) (s_csrs s) (s_pc s) (s_pc_next_override s)
    (s_imem_size s) (s_dmem s) x (s_start_stall s) (s_urnd_stall s) (s_loop_stack s)
    (s_ext_regs s) (s_running s) (s_err_bits s) (s_pending_halt s) (s_new_rnd_data s)
    (s_urnd_reseed_complete s).
Definition set_start_stall (x : bool) (s : OTBNState) : OTBNState :=
  mkState (s_gprs s) (s_wdrs s) (s_wsrs s) (s_csrs s) (s_pc s) (s_pc_next_override s)
    (s_imem_size s) (s_dmem s) (s_non_insn_stall s) x (s_urnd_stall s) (s_loop_stack s)
    (s_ext_regs s) (s_running s) (s_err_bits s) (s_pending_halt s) (s_new_rnd_data s)
    (s_urnd_reseed_complete s).
Definition set_urnd_stall (x : bool) (s : OTBNState) : OTBNState :=
  mkState (s_gprs s) (s_wdrs s) (s_wsrs s) (s_csrs s) (s_pc s) (s_pc_next_override s)
    (s_imem_size s) (s_dmem s) (s_non_insn_stall s) (s_start_stall s) x (s_loop_stack s)
    (s_ext_regs s) (s_running s) (s_err_bits s) (s_pending_halt s) (s_new_rnd_data s)
    (s_urnd_reseed_complete s).
Definition set_loop_stack (x : LoopStack) (s : OTBNState) : OTBNState :=
  mkState (s_gprs s) (s_wdrs s) (s_wsrs s) (s_csrs s) (s_pc s) (s_pc_next_override s)
    (s_imem_size s) (s_dmem s) (s_non_insn_stall s) (s_start_stall s) (s_urnd_stall s) x
    (s_ext_regs s) (s_running s) (s_err_bits s) (s_pending_halt s) (s_new_rnd_data s)
    (s_urnd_reseed_complete s).
Definition set_ext_regs (x : OTBNExtRegs) (s : OTBNState) : OTBNState :=
  mkState (s_gprs s) (s_wdrs s) (s_wsrs s) (s_csrs s) (s_pc s) (s_pc_next_override s)
    (s_imem_size s) (s_dmem s) (s_non_insn_stall s) (s_start_stall s) (s_urnd_stall s)
    (s_loop_stack s) x (s_running s) (s_err_bits s) (s_pending_halt s) (s_new_rnd_data s)
    (s_urnd_reseed_complete s).
Definition set_running (x : bool) (s : OTBNState) : OTBNState :=
  mkState (s_gprs s) (s_wdrs s) (s_wsrs s) (s_csrs s) (s_pc s) (s_pc_next_override s)
    (s_imem_size s) (s_dmem s) (s_non_insn_stall s) (s_start_stall s) (s_urnd_stall s)
    (s_loop_stack s) (s_ext_regs s) x (s_err_bits s) (s_pending_halt s) (s_new_rnd_data s)
    (s_urnd_reseed_complete s).
Definition set_err_bits (x : Z) (s : OTBNState) : OTBNState :=
  mkState (s_gprs s) (s_wdrs s) (s_wsrs s) (s_csrs s) (s_pc s) (s_pc_next_override s)
    (s_imem_size s) (s_dmem s) (s_non_insn_stall s) (s_start_stall s) (s_urnd_stall s)
    (s_loop_stack s) (s_ext_regs s) (s_running s) x (s_pending_halt s) (s_new_rnd_data s)
    (s_urnd_reseed_complete s).
Definition set_pending_halt (x : bool) (s : OTBNState) : OTBNState :=
  mkState (s_gprs s) (s_wdrs s) (s_wsrs s) (s_csrs s) (s_pc s) (s_pc_next_override s)
    (s_imem_size s) (s_dmem s) (s_non_insn_stall s) (s_start_stall s) (s_urnd_stall s)
    (s_loop_stack s) (s_ext_regs s) (s_running s) (s_err_bits s) x (s_new_rnd_data s)
    (s_urnd_reseed_complete s).
Definition set_new_rnd_data (x : option Z) (s : OTBNState) : OTBNState :=
  mkState (s_gprs s) (s_wdrs s) (s_wsrs s) (s_csrs s) (s_pc s) (s_pc_next_override s)
    (s_imem_size s) (s_dmem s) (s_non_insn_stall s) (s_start_stall s) (s_urnd_stall s)
    (s_loop_stack s) (s_ext_regs s) (s_running s) (s_err_bits s) (s_pending_halt s) x
    (s_urnd_reseed_complete s).
Definition set_urnd_reseed_complete (x : bool) (s : OTBNState) : OTBNState :=
  mkState (s_gprs s) (s_wdrs s) (s_wsrs s) (s_csrs s) (s_pc s) (s_pc_next_override s)
    (s_imem_size s) (s_dmem s) (s_non_insn_stall s) (s_start_stall s) (s_urnd_stall s)
    (s_loop_stack s) (s_ext_regs s) (s_running s) (s_err_bits s) (s_pending_halt s)
    (s_new_rnd_data s) x.

(** ** Method calls on the components *)

Definition on_gprs {A} (m : M GPRs A) : M OTBNState A := zoom s_gprs set_gprs m.
Definition on_wdrs {A} (m : M RegFile A) : M OTBNState A := zoom s_wdrs set_wdrs m.
Definition on_wsrs {A} (m : M WSRFile A) : M OTBNState A := zoom s_wsrs set_wsrs m.
Definition on_dmem {A} (m : M Dmem A) : M OTBNState A := zoom s_dmem set_dmem m.
Definition on_loop_stack {A} (m : M LoopStack A) : M OTBNState A :=
  zoom s_loop_stack set_loop_stack m.
Definition on_ext_regs {A} (m : M OTBNExtRegs A) : M OTBNState A :=
  zoom s_ext_regs set_ext_regs m.

(** A method that returns nothing, as a function on the component. *)
Definition method {T} (f : T → res T) : M T () := fun t => t' ← f t; Ok ((), t').

(** ** The constructor *)

(** [imem_size] and [dmem_size] come from the memory layout, [flat_regs] from
    the register block, both loaded from otbn.hjson. *)
Definition init (imem_size dmem_size : Z) (flat_regs : list (string * list Field)) :
    res OTBNState :=
  gprs ← GPRs.init;
  wdrs ← RegFile.init "w" 256 32;
  dmem ← Dmem.init dmem_size;
  ext_regs ← OTBNExtRegs.init flat_regs;
  Ok (mkState gprs wdrs WSRFile.init CSRFile.init 0 None imem_size dmem
        false false false LoopStack.init ext_regs false 0 false None false).

(** ** Program counter and loops *)

Definition get_next_pc (s : OTBNState) : Z :=
  match s_pc_next_override s with Some p => p | None => s_pc s + 4 end.

Definition set_next_pc (next_pc : Z) : M OTBNState () :=
  modify (set_pc_next_override (Some next_pc)).

Definition set_rnd_data (rnd_data : Z) : M OTBNState () :=
  modify (set_new_rnd_data (Some rnd_data)).

Definition mark_urnd_reseed_complete : M OTBNState () :=
  modify (set_urnd_reseed_complete true).

Definition loop_start (iterations bodysize : Z) : M OTBNState () :=
  pc ← gets s_pc;
  on_loop_stack (LoopStack.start_loop (pc + 4) iterations bodysize).

Definition loop_step : M OTBNState () :=
  pc ← gets s_pc;
  back_pc ← on_loop_stack (LoopStack.step pc);
  match back_pc with Some p => set_next_pc p | None => mret () end.

Definition in_loop (s : OTBNState) : bool :=
  negb (bool_decide (length (ls_stack (s_loop_stack s)) = 0%nat)).

(** ** Trace *)

Definition changes (s : OTBNState) : res (list Trace) :=
  c ← GPRs.changes (s_gprs s);
  w ← RegFile.changes (s_wdrs s);
  Ok (c ++ (if s_pc_next_override s then [TracePC (get_next_pc s)] else [])
      ++ Dmem.changes (s_dmem s)
      ++ LoopStack.changes (s_loop_stack s)
      ++ OTBNExtRegs.changes (s_ext_regs s)
      ++ WSRFile.changes (s_wsrs s)
      ++ FlagGroups.changes (csr_flags (s_csrs s))
      ++ w).

(** ** Commit and abort *)

Definition commit_ext_regs : M OTBNState () :=
  modify (fun s => set_ext_regs (OTBNExtRegs.commit (s_ext_regs s)) s).

(** [if self._new_rnd_data: ...]: the truth value of an optional integer. *)
Definition take_rnd_data : M OTBNState () :=
  d ← gets s_new_rnd_data;
  match d with
  | Some v =>
      if truthy v then
        on_wsrs (zoom wsr_RND WSRFile.set_RND (method (RandWSR.set_unsigned v)));;
        modify (set_new_rnd_data None)
      else mret ()
  | None => mret ()
  end.

Definition commit_insn : M OTBNState () :=
  on_gprs (method GPRs.commit);;
  modify (fun s => set_pc (get_next_pc s) s);;
  modify (set_pc_next_override None);;
  on_loop_stack (method LoopStack.commit);;
  commit_ext_regs;;
  modify (fun s => set_wsrs (WSRFile.commit (s_wsrs s)) s);;
  modify (fun s => set_csrs (mkCSRFile (FlagGroups.commit (csr_flags (s_csrs s)))) s);;
  on_wdrs (method RegFile.commit).

Definition commit (sim_stalled : bool) : M OTBNState () :=
  pending_halt ← gets s_pending_halt;
  if (pending_halt : bool) then commit_ext_regs
  else
    err_bits ← gets s_err_bits;
    assertM (err_bits =? 0);;
    take_rnd_data;;
    urnd_stall ← gets s_urnd_stall;
    if (urnd_stall : bool) then
      modify (fun s => if s_urnd_reseed_complete s then set_urnd_stall false s else s)
    else
      modify (fun s =>
        if s_start_stall s then
          set_ext_regs (OTBNExtRegs.commit (s_ext_regs s))
            (set_non_insn_stall false (set_start_stall false s))
        else s);;
      on_dmem (method (Dmem.commit sim_stalled));;
      if sim_stalled then mret () else commit_insn.

Definition _abort : M OTBNState () :=
  on_gprs (method GPRs.abort);;
  modify (set_pc_next_override None);;
  modify (fun s => set_dmem (Dmem.abort (s_dmem s)) s);;
  modify (fun s => set_loop_stack (LoopStack.abort (s_loop_stack s)) s);;
  modify (fun s => set_ext_regs (OTBNExtRegs.abort (s_ext_regs s)) s);;
  modify (fun s => set_wsrs (WSRFile.abort (s_wsrs s)) s);;
  modify (fun s => set_csrs (mkCSRFile (FlagGroups.abort (csr_flags (s_csrs s)))) s);;
  on_wdrs (method RegFile.abort).

(** ** Starting and stopping *)

Definition get_start_addr (s : OTBNState) : res Z :=
  OTBNExtRegs.read "START_ADDR" true (s_ext_regs s).

Definition start : M OTBNState () :=
  on_ext_regs (OTBNExtRegs.set_bits "STATUS" (1 ≪ 0));;
  modify (fun s =>
    set_urnd_reseed_complete false (set_err_bits 0 (set_pending_halt false
      (set_non_insn_stall true (set_urnd_stall true (set_start_stall true
        (set_running true s)))))));;
  addr ← (fun s => a ← get_start_addr s; Ok (a, s));
  modify (set_pc addr);;
  modify (set_csrs CSRFile.init);;
  modify (set_wsrs WSRFile.init);;
  modify (set_loop_stack LoopStack.init).

Definition stop : M OTBNState () :=
  _abort;;
  on_ext_regs (OTBNExtRegs.set_bits "INTR_STATE" (1 ≪ 0));;
  on_ext_regs (OTBNExtRegs.clear_bits "STATUS" (1 ≪ 0));;
  e ← gets s_err_bits;
  on_ext_regs (OTBNExtRegs.write "ERR_BITS" e true);;
  modify (set_running false).

(** ** Flags *)

Definition get_flags (fg : Z) : M OTBNState FlagReg := fun s =>
  f ← FlagGroups.getitem fg (csr_flags (s_csrs s)); Ok (f, s).

Definition set_flags (fg : Z) (flags : flag_vals) : M OTBNState () := fun s =>
  f ← FlagGroups.setitem fg flags (csr_flags (s_csrs s));
  Ok ((), set_csrs (mkCSRFile f) s).

Definition set_mlz_flags (fg result : Z) : M OTBNState () :=
  f ← get_flags fg;
  set_flags fg (FlagReg.mlz_for_result (fC (fr_vals f)) result).

(** ** Before and after an instruction *)

Definition pre_insn (insn_affects_control : bool) : M OTBNState () :=
  modify (fun s =>
    set_loop_stack (LoopStack.check_insn (s_pc s) insn_affects_control (s_loop_stack s)) s).

Definition or_err_bits (e : Z) (s : OTBNState) : OTBNState :=
  set_err_bits (s_err_bits s .| e) s.

Definition check_next_pc : M OTBNState () :=
  next_pc ← gets get_next_pc;
  imem_size ← gets s_imem_size;
  assertM (0 <=? next_pc);;
  modify (fun s => if truthy (next_pc .& 3) then or_err_bits err_bits.BAD_INSN_ADDR s else s);;
  modify (fun s => if imem_size <=? next_pc then or_err_bits err_bits.BAD_INSN_ADDR s else s).

Definition post_insn : M OTBNState () :=
  check_next_pc;;
  loop_step;;
  modify (fun s => set_gprs (GPRs.post_insn (s_gprs s)) s);;
  modify (fun s => or_err_bits (GPRs.err_bits (s_gprs s) .| Dmem.err_bits (s_dmem s)
                                .| LoopStack.err_bits (s_loop_stack s)) s);;
  modify (fun s => if truthy (s_err_bits s) then set_pending_halt true s else s).

(** ** CSRs *)

Definition read_csr (idx : Z) : M OTBNState Z := fun s =>
  on_wsrs (CSRFile.read_unsigned (s_csrs s) idx) s.

Definition write_csr (idx value : Z) : M OTBNState () :=
  zoom (fun s => (s_csrs s, s_wsrs s)) (fun p s => set_csrs (fst p) (set_wsrs (snd p) s))
    (CSRFile.write_unsigned idx value).

Definition peek_call_stack (s : OTBNState) : list Z := GPRs.peek_call_stack (s_gprs s).

Definition stop_at_end_of_cycle (e : Z) : M OTBNState () :=
  modify (or_err_bits e);; modify (set_pending_halt true).
End OTBNState.
