(* ===== verification/Isa.v ===== *)
(** Helpers shared by the instruction classes (otbnsim/sim/isa.py). *)

From S2P Require Import Prelude Trace Reg Gpr Wsr Csr Dmem State.

(** [OTBNInsn.to_2s_complement] *)
Definition to_2s_complement (value : Z) : res Z :=
  py_assert ((- (1 ≪ 31) <=? value) && (value <? 1 ≪ 31));;
  Ok (if value <? 0 then (1 ≪ 32) + value else value).

Definition logical_byte_shift (value shift_type shift_bytes : Z) : res Z :=
  py_assert ((0 <=? value) && (value <=? mask 256));;
  py_assert ((0 <=? shift_type) && (shift_type <=? 1));;
  py_assert (0 <=? shift_bytes);;
  let shift_bits := 8 * shift_bytes in
  let shifted := if shift_type =? 0 then value ≪ shift_bits else value ≫ shift_bits in
  Ok (shifted .& mask 256).

Definition extract_quarter_word (value qwsel : Z) : res Z :=
  py_assert ((0 <=? value) && (value <? 1 ≪ 256));;
  py_assert ((0 <=? qwsel) && (qwsel <=? 3));;
  Ok ((value ≫ (qwsel * 64)) .& mask 64).

(** Register accesses as the instructions write them:
    [state.gprs.get_reg(i).read_unsigned()] and so on. *)
Definition gpr_read (i : Z) : M OTBNState Z := OTBNState.on_gprs (GPRs.read_unsigned i).
Definition gpr_read_signed (i : Z) : M OTBNState Z := OTBNState.on_gprs (GPRs.read_signed i).
Definition gpr_write (i v : Z) : M OTBNState () := OTBNState.on_gprs (GPRs.write_unsigned i v).
Definition gpr_write_signed (i v : Z) : M OTBNState () := OTBNState.on_gprs (GPRs.write_signed i v).
Definition wdr_read (i : Z) : M OTBNState Z := OTBNState.on_wdrs (RegFile.read_unsigned i).
Definition wdr_write (i v : Z) : M OTBNState () := OTBNState.on_wdrs (RegFile.write_unsigned i v).

(** [OTBNLDInsn.pre_execute]: a load stalls for the cycle in which it begins. *)
Definition load_pre_execute : M OTBNState bool :=
  ready ← gets (fun s => Dmem.in_progress_load_complete (s_dmem s));
  if (ready : bool) then mret true
  else
    modify (fun s => OTBNState.set_dmem (Dmem.begin_load (s_dmem s)) s);;
    mret false.

(** [state.wsrs.RND.request_value()] *)
Definition rnd_request_value : M OTBNState bool :=
  OTBNState.on_wsrs (zoom wsr_RND WSRFile.set_RND RandWSR.request_value).

(** ** Arithmetic meaning of the helpers *)

Lemma to_2s_complement_ok v :
  - 2 ^ 31 ≤ v < 2 ^ 31 → to_2s_complement v = Ok (v `mod` 2 ^ 32).
Proof. intros H. by apply (Reg.of_signed_ok 32 v). Qed.

Lemma logical_byte_shift_ok v st sb :
  in_bits 256 v → 0 ≤ st ≤ 1 → 0 ≤ sb →
  ∃ r, logical_byte_shift v st sb = Ok r ∧ in_bits 256 r ∧
    r = if st =? 0 then (v * 2 ^ (8 * sb)) `mod` 2 ^ 256 else v / 2 ^ (8 * sb).
Proof.
  intros Hv Hst Hsb. unfold logical_byte_shift. pose proof Hv as [? ?].
  assert (mask 256 = 2 ^ 256 - 1) as Em by done.
  rewrite (proj2 (Z.leb_le 0 v)), (proj2 (Z.leb_le v (mask 256))) by lia.
  rewrite (proj2 (Z.leb_le 0 st)), (proj2 (Z.leb_le st 1)), (proj2 (Z.leb_le 0 sb)) by lia.
  cbn [andb py_assert mbind res_bind]. eexists. split; [done |].
  split; [by apply in_bits_mask |]. destruct (st =? 0).
  - by rewrite land_mask, Z.shiftl_mul_pow2 by lia.
  - rewrite mask_in_bits; [| lia | apply in_bits_shiftr; [lia .. | done]].
    by rewrite Z.shiftr_div_pow2 by lia.
Qed.

Lemma extract_quarter_word_ok v q :
  in_bits 256 v → 0 ≤ q ≤ 3 →
  ∃ r, extract_quarter_word v q = Ok r ∧ in_bits 64 r ∧ r = (v / 2 ^ (64 * q)) `mod` 2 ^ 64.
Proof.
  intros Hv Hq. unfold extract_quarter_word.
  rewrite (proj2 (fits_spec 256 v ltac:(lia)) Hv : _ && _ = true). zbool.
  cbn [py_assert mbind res_bind]. eexists. split; [done |].
  split; [by apply in_bits_mask |].
  rewrite land_mask, Z.shiftr_div_pow2 by lia. by rewrite (Z.mul_comm q).
Qed.
