(* ===== verification/StateWf.v ===== *)
(** The invariant of the simulated core, the relation between the state before
    an instruction and the states its [execute] method passes through, and the
    proof rules the instructions are checked with. *)

From S2P Require Import Prelude Trace Reg Gpr Flags Wsr Csr Dmem.
From S2P Require Import LoopStack ExtRegs State Isa.

Import OTBNState.

(** * The invariant *)

Record wf (s : OTBNState) : Prop := {
  wf_gprs : GPRs.wf (s_gprs s);
  wf_wdrs : RegFile.wf 256 32 (s_wdrs s);
  wf_wdrs_staged : RegFile.staged (s_wdrs s);
  wf_wsrs : WSRFile.wf (s_wsrs s);
  wf_flags : FlagGroups.wf (csr_flags (s_csrs s));
  wf_pc : 0 ≤ s_pc s;
  wf_next_pc : from_option (fun p => 0 ≤ p) True (s_pc_next_override s);
  wf_dmem : Dmem.wf (s_dmem s);
  wf_loop : LoopStack.wf (s_loop_stack s);
  wf_ext : OTBNExtRegs.wf (s_ext_regs s);
  wf_core_regs : OTBNExtRegs.has_core_regs (s_ext_regs s);
  wf_err_bits : 0 ≤ s_err_bits s;
  wf_rnd : from_option (in_bits 256) True (s_new_rnd_data s)
}.

(** * What an instruction leaves alone

    Instructions stage their results; until the commit, everything that is
    architecturally visible except the loop stack is as it was. *)

Definition wdr (s : OTBNState) (i : Z) : Z := RegFile.value (s_wdrs s) i.
Definition gpr (s : OTBNState) (i : Z) : Z := GPRs.value (s_gprs s) i.

(** The start addresses of the active loops. *)
Definition loop_starts (s : OTBNState) : list Z := ll_start_addr <$> ls_stack (s_loop_stack s).

(** Which control state an instruction may change. *)
Record control := mkControl { may_loop : bool; may_jump : bool }.

Definition plain : control := mkControl false false.
Definition jumps : control := mkControl false true.

Record same (c : control) (s0 s : OTBNState) : Prop := {
  same_gpr : ∀ i, gpr s i = gpr s0 i;
  same_call_stack : peek_call_stack s = peek_call_stack s0;
  same_wdr : ∀ i, wdr s i = wdr s0 i;
  same_wsrs : WSRFile.same_values (s_wsrs s0) (s_wsrs s);
  same_flags : FlagGroups.same_vals (csr_flags (s_csrs s0)) (csr_flags (s_csrs s));
  same_pc : s_pc s = s_pc s0;
  same_imem_size : s_imem_size s = s_imem_size s0;
  same_data : dm_data (s_dmem s) = dm_data (s_dmem s0);
  same_load : dm_load_begun (s_dmem s) = dm_load_begun (s_dmem s0) ∧
              dm_load_ready (s_dmem s) = dm_load_ready (s_dmem s0);
  same_stalls : s_non_insn_stall s = s_non_insn_stall s0 ∧
                s_start_stall s = s_start_stall s0 ∧ s_urnd_stall s = s_urnd_stall s0;
  same_ext : s_ext_regs s = s_ext_regs s0;
  same_running : s_running s = s_running s0;
  same_rnd : s_new_rnd_data s = s_new_rnd_data s0;
  same_loops : may_loop c = false → loop_starts s = loop_starts s0;
  same_next : may_jump c = false → s_pc_next_override s = s_pc_next_override s0;
  (** an error bit is only set together with the pending halt *)
  same_err : (s_err_bits s = s_err_bits s0 ∧ s_pending_halt s = s_pending_halt s0) ∨
             s_pending_halt s = true
}.

#[global] Instance same_preorder c : PreOrder (same c).
Proof.
  split.
  - intros s. split; try done; by left.
  - intros x y z [] []. split; try by etransitivity; eauto.
    + unfold WSRFile.same_values in *. intuition congruence.
    + unfold FlagGroups.same_vals in *. intuition congruence.
    + intuition congruence.
    + intuition congruence.
    + intuition congruence.
    + intuition congruence.
    + naive_solver congruence.
Qed.

Lemma same_weaken c c' s0 s :
  same c s0 s → (may_loop c = true → may_loop c' = true) →
  (may_jump c = true → may_jump c' = true) → same c' s0 s.
Proof.
  intros [] Hl Hj. split; auto.
  - intros E. apply same_loops0. destruct (may_loop c); [by rewrite Hl in E | done].
  - intros E. apply same_next0. destruct (may_jump c); [by rewrite Hj in E | done].
Qed.

(** * Proof rules

    [safe c s0 m Q]: from any well-formed state that agrees with [s0], [m] returns
    a value satisfying [Q], in a well-formed state that still agrees with [s0]. *)

Definition safe {A} (c : control) (s0 : OTBNState) (m : M OTBNState A) (Q : A → Prop) : Prop :=
  hoare (fun s => wf s ∧ same c s0 s) m (fun a s => (wf s ∧ same c s0 s) ∧ Q a).

Section rules.
Context (c : control) (s0 : OTBNState).

Lemma safe_ret {A} (a : A) (Q : A → Prop) : Q a → safe c s0 (mret a) Q.
Proof. intros H. by apply hoare_ret. Qed.

Lemma safe_bind {A B} (m : M OTBNState A) (k : A → M OTBNState B) Q R :
  safe c s0 m Q → (∀ a, Q a → safe c s0 (k a) R) → safe c s0 (m ≫= k) R.
Proof.
  intros Hm Hk. eapply hoare_bind; [exact Hm |]. intros a s [Hs Ha].
  by apply (Hk a Ha).
Qed.

Lemma safe_weaken {A} (m : M OTBNState A) (Q R : A → Prop) :
  safe c s0 m Q → (∀ a, Q a → R a) → safe c s0 m R.
Proof. intros Hm H. eapply hoare_weaken; [exact Hm | done |]. naive_solver. Qed.

Lemma safe_if {A} (b : bool) (m1 m2 : M OTBNState A) Q :
  (b = true → safe c s0 m1 Q) → (b = false → safe c s0 m2 Q) →
  safe c s0 (if b then m1 else m2) Q.
Proof. apply hoare_if. Qed.

Lemma safe_lift {A} (r : res A) (Q : A → Prop) :
  (∃ a, r = Ok a ∧ Q a) → safe c s0 (lift r) Q.
Proof. intros (a & -> & Ha) s Hs. by exists a, s. Qed.

Lemma safe_modify (f : OTBNState → OTBNState) :
  (∀ s, wf s → wf (f s) ∧ same c s (f s)) → safe c s0 (modify f) (fun _ => True).
Proof.
  intros H s [Hw Hs]. eexists _, _. split; [done |]. destruct (H s Hw).
  split; [| done]. split; [done |]. by transitivity s.
Qed.

Lemma safe_gets {A} (f : OTBNState → A) (Q : A → Prop) :
  (∀ s, wf s → same c s0 s → Q (f s)) → safe c s0 (gets f) Q.
Proof. intros H s [Hw Hs]. exists (f s), s. auto. Qed.

(** A component method that leaves the component well formed and related. *)
Lemma safe_zoom {T A} (get : OTBNState → T) put (m : M T A) (Q : A → Prop) :
  (∀ s, wf s → same c s0 s →
     ∃ a t, m (get s) = Ok (a, t) ∧ wf (put t s) ∧ same c s (put t s) ∧ Q a) →
  safe c s0 (zoom get put m) Q.
Proof.
  intros H s [Hw Hs]. destruct (H s Hw Hs) as (a & t & E & Hw' & Hs' & Ha).
  exists a, (put t s). unfold zoom. rewrite E. split; [done |].
  split; [| done]. split; [done |]. by transitivity s.
Qed.
End rules.

(** ** Component updates *)

Lemma wf_set_gprs g s : wf s → GPRs.wf g → wf (set_gprs g s).
Proof. intros [] ?. by split. Qed.
Lemma wf_set_wdrs w s : wf s → RegFile.wf 256 32 w → RegFile.staged w → wf (set_wdrs w s).
Proof. intros [] ? ?. by split. Qed.
Lemma wf_set_wsrs w s : wf s → WSRFile.wf w → wf (set_wsrs w s).
Proof. intros [] ?. by split. Qed.
Lemma wf_set_csrs c s : wf s → FlagGroups.wf (csr_flags c) → wf (set_csrs c s).
Proof. intros [] ?. by split. Qed.
Lemma wf_set_dmem d s : wf s → Dmem.wf d → wf (set_dmem d s).
Proof. intros [] ?. by split. Qed.
Lemma wf_set_loop_stack l s : wf s → LoopStack.wf l → wf (set_loop_stack l s).
Proof. intros [] ?. by split. Qed.
Lemma wf_set_next p s : wf s → from_option (fun p => 0 ≤ p) True p → wf (set_pc_next_override p s).
Proof. intros [] ?. by split. Qed.
Lemma wf_or_err_bits e s : wf s → 0 ≤ e → wf (or_err_bits e s).
Proof. intros [] ?. split; try done. cbn. by apply Z.lor_nonneg. Qed.

Lemma same_set_gprs c g s :
  (∀ i, GPRs.value g i = gpr s i) → cs_stack (gp_x1 g) = cs_stack (gp_x1 (s_gprs s)) →
  same c s (set_gprs g s).
Proof.
  intros Hv Hst. split; try done; [| by left].
  unfold peek_call_stack, GPRs.peek_call_stack. cbn. by rewrite Hst.
Qed.

(** ** Register accesses *)

Section accesses.
Context (c : control) (s0 : OTBNState).

Lemma safe_gpr_read i :
  0 ≤ i < 32 → safe c s0 (gpr_read i) (fun v => v = gpr s0 i ∧ in_bits 32 v).
Proof.
  intros Hi. apply safe_zoom. intros s Hw Hs.
  destruct (GPRs.read_unsigned_value i (s_gprs s)) as (g & E & Hg & _ & Hst & _ & Hv);
    [apply Hw | done |].
  eexists _, g. split; [exact E |]. split; [by apply wf_set_gprs |].
  split; [by apply same_set_gprs |]. split; [by apply (same_gpr _ _ _ Hs) |].
  apply GPRs.gprs_value_in_bits; [apply Hw | done].
Qed.

Lemma safe_gpr_read_signed i :
  0 ≤ i < 32 →
  safe c s0 (gpr_read_signed i)
    (fun v => v = Reg.to_signed 32 (gpr s0 i) ∧ - 2 ^ 31 ≤ v < 2 ^ 31).
Proof.
  intros Hi. apply safe_zoom. intros s Hw Hs.
  destruct (GPRs.read_unsigned_value i (s_gprs s)) as (g & E & Hg & _ & Hst & _ & Hv);
    [apply Hw | done |].
  eexists _, g. split; [unfold GPRs.read_signed, mbind, M_bind; by rewrite E |].
  split; [by apply wf_set_gprs |]. split; [by apply same_set_gprs |]. split.
  - by rewrite <- (same_gpr _ _ _ Hs).
  - apply (Reg.reg_to_signed_range 32); [lia |]. apply GPRs.gprs_value_in_bits; [apply Hw | done].
Qed.

Lemma safe_gpr_write i v :
  0 ≤ i < 32 → in_bits 32 v → safe c s0 (gpr_write i v) (fun _ => True).
Proof.
  intros Hi Hv. apply safe_zoom. intros s Hw Hs.
  destruct (GPRs.gprs_write_unsigned_ok i v (s_gprs s)) as (g & E & Hg & _ & Hval & Hst & _);
    [apply Hw | done | done |].
  eexists _, g. split; [exact E |]. split; [by apply wf_set_gprs |].
  split; [by apply same_set_gprs | done].
Qed.

Lemma safe_gpr_write_signed i v :
  0 ≤ i < 32 → - 2 ^ 31 ≤ v < 2 ^ 31 → safe c s0 (gpr_write_signed i v) (fun _ => True).
Proof.
  intros Hi Hv s Hs. destruct (Reg.of_signed_ok 32 v) as [E Hb]; [lia | done |].
  destruct (safe_gpr_write i (v `mod` 2 ^ 32) Hi Hb s Hs) as (a & s' & E' & H).
  exists a, s'. split; [| done]. rewrite <- E'. unfold gpr_write_signed, gpr_write, on_gprs, zoom.
  unfold GPRs.write_signed, lift, mbind, M_bind. by rewrite E.
Qed.

Lemma safe_wdr_read i :
  0 ≤ i < 32 → safe c s0 (wdr_read i) (fun v => v = wdr s0 i ∧ in_bits 256 v).
Proof.
  intros Hi. apply safe_zoom. intros s Hw Hs. eexists _, (s_wdrs s).
  split; [by apply (RegFile.read_unsigned_eq 256 32); [apply Hw | ] |].
  destruct s. split; [done |]. split; [done |]. split; [apply (same_wdr _ _ _ Hs) |].
  apply (RegFile.regfile_value_in_bits 256 32); [apply Hw | done].
Qed.

Lemma safe_wdr_write i v :
  0 ≤ i < 32 → in_bits 256 v → safe c s0 (wdr_write i v) (fun _ => True).
Proof.
  intros Hi Hv. apply safe_zoom. intros s Hw Hs.
  destruct (RegFile.regfile_write_unsigned_ok 256 32 ltac:(lia) i v (s_wdrs s))
    as (w & E & Hwf & Hst & Hval & _); [apply Hw | done | done |].
  eexists _, w. split; [exact E |]. split; [apply wf_set_wdrs; [done .. | apply Hst, Hw] |].
  split; [| done]. split; try done; by left.
Qed.

(** ** WSRs, CSRs and flags *)

Lemma safe_on_wsrs {A} (m : M WSRFile A) (Q : A → Prop) :
  (∀ w, WSRFile.wf w → rw_random_value (wsr_RND w) = rw_random_value (wsr_RND (s_wsrs s0)) →
     ∃ a w', m w = Ok (a, w') ∧ Q a ∧ WSRFile.wf w' ∧ WSRFile.same_values w w') →
  safe c s0 (on_wsrs m) Q.
Proof.
  intros H. apply safe_zoom. intros s Hw Hs.
  destruct (H (s_wsrs s)) as (a & w & E & Ha & Hww & Hsv); [apply Hw | |].
  { apply (same_wsrs _ _ _ Hs). }
  eexists _, w. split; [exact E |]. split; [by apply wf_set_wsrs |].
  split; [| done]. split; try done; by left.
Qed.

Lemma safe_write_ACC v :
  in_bits 256 v → safe c s0 (on_wsrs (WSRFile.write_ACC v)) (fun _ => True).
Proof.
  intros. apply safe_on_wsrs. intros w Hw _.
  destruct (WSRFile.write_ACC_ok v w) as (w' & ? & ? & ?); eauto 10.
Qed.

Lemma safe_read_wsr i :
  0 ≤ i ≤ 2 → (i = 1 → is_Some (rw_random_value (wsr_RND (s_wsrs s0)))) →
  safe c s0 (on_wsrs (WSRFile.read_at_idx i)) (in_bits 256).
Proof.
  intros ? Hr. apply safe_on_wsrs. intros w Hw Hrv.
  destruct (WSRFile.read_at_idx_ok i w) as (v & w' & ? & ? & ? & ?); eauto 10.
  by rewrite Hrv.
Qed.

Lemma safe_write_wsr i v :
  0 ≤ i ≤ 2 → in_bits 256 v → safe c s0 (on_wsrs (WSRFile.write_at_idx i v)) (fun _ => True).
Proof.
  intros ? ?. apply safe_on_wsrs. intros w Hw _.
  destruct (WSRFile.write_at_idx_ok i v w) as (w' & ? & ? & ?); eauto 10.
Qed.

Lemma safe_read_csr i :
  CSRFile.known i = true → (i = 0xfc0 → is_Some (rw_random_value (wsr_RND (s_wsrs s0)))) →
  safe c s0 (read_csr i) (in_bits 32).
Proof.
  intros Hk Hr s [Hw Hs].
  destruct (safe_on_wsrs (CSRFile.read_unsigned (s_csrs s) i) (in_bits 32)) with (s := s)
    as (a & s' & ? & ?); [| done | by exists a, s'].
  intros w Hww Hrv.
  destruct (CSRFile.read_unsigned_ok (s_csrs s) i w) as (v & w' & ? & ? & ? & ?);
    [done | done | by rewrite Hrv | eauto 10].
Qed.

Lemma safe_write_csr i v :
  CSRFile.known i = true → in_bits 32 v → safe c s0 (write_csr i v) (fun _ => True).
Proof.
  intros Hk Hv. apply safe_zoom. intros s Hw Hs.
  destruct (CSRFile.csrs_write_unsigned_ok i v (s_csrs s) (s_wsrs s))
    as (f & w & E & ? & ? & ? & ?); [apply Hw | apply Hw | done | done |].
  eexists _, (f, w). split; [exact E |]. cbn.
  split; [apply wf_set_csrs; [by apply wf_set_wsrs | done] |]. split; [| done].
  split; try done; by left.
Qed.

Lemma safe_get_flags fg : 0 ≤ fg ≤ 1 → safe c s0 (get_flags fg) (fun _ => True).
Proof.
  intros Hfg s [Hw Hs]. unfold get_flags.
  destruct (FlagGroups.getitem_ok fg (csr_flags (s_csrs s)) Hfg) as [f ->]. by exists f, s.
Qed.

Lemma safe_set_flags fg v : 0 ≤ fg ≤ 1 → safe c s0 (set_flags fg v) (fun _ => True).
Proof.
  intros Hfg s [Hw Hs]. unfold set_flags.
  destruct (FlagGroups.setitem_ok fg v (csr_flags (s_csrs s)) Hfg) as (f & -> & ? & ?).
  eexists _, _. split; [done |]. split; [| done]. split; [by apply wf_set_csrs |].
  transitivity s; [done |]. split; try done; by left.
Qed.

Lemma safe_set_mlz_flags fg r : 0 ≤ fg ≤ 1 → safe c s0 (set_mlz_flags fg r) (fun _ => True).
Proof.
  intros. eapply safe_bind; [by apply safe_get_flags |]. intros. by apply safe_set_flags.
Qed.

(** ** Data memory *)

Lemma safe_on_dmem {A} (m : M Dmem A) (Q : A → Prop) :
  (∀ d, Dmem.wf d → ∃ a d', m d = Ok (a, d') ∧ Dmem.wf d' ∧ Q a ∧ dm_data d' = dm_data d ∧
     dm_load_begun d' = dm_load_begun d ∧ dm_load_ready d' = dm_load_ready d) →
  safe c s0 (on_dmem m) Q.
Proof.
  intros H. apply safe_zoom. intros s Hw Hs.
  destruct (H (s_dmem s)) as (a & d & E & Hd & Ha & ? & ? & ?); [apply Hw |].
  eexists _, d. split; [exact E |]. split; [by apply wf_set_dmem |].
  split; [| done]. split; try done; by left.
Qed.

Lemma safe_load_u32 a : 0 ≤ a → safe c s0 (on_dmem (Dmem.load_u32 a)) (in_bits 32).
Proof.
  intros. apply safe_on_dmem. intros d Hd. rewrite Dmem.load_u32_eq by done.
  destruct (Dmem.aligned_u32 a d); eexists _, _; (split; [done |]).
  - split; [done |]. split; [apply Dmem.load_u32_bits | done].
  - split; [by apply Dmem.wf_set_err |]. split; [by apply in_bits_0 | done].
Qed.

Lemma safe_load_u256 a : 0 ≤ a → safe c s0 (on_dmem (Dmem.load_u256 a)) (in_bits 256).
Proof.
  intros. apply safe_on_dmem. intros d Hd. rewrite Dmem.load_u256_eq by done.
  destruct (Dmem.aligned_u256 a d) eqn:E; eexists _, _; (split; [done |]).
  - split; [done |]. split; [| done].
    apply andb_true_iff in E as [_ ?%Z.ltb_lt]. assert (0 ≤ a / 32) by (apply Z.div_pos; lia).
    by destruct (Dmem.lookup_data d (a / 32) Hd) as (w & -> & Hb).
  - split; [by apply Dmem.wf_set_err |]. split; [by apply in_bits_0 | done].
Qed.

Lemma safe_store_u32 a v :
  0 ≤ a → in_bits 32 v → safe c s0 (on_dmem (Dmem.store_u32 a v)) (fun _ => True).
Proof.
  intros. apply safe_on_dmem. intros d Hd. rewrite Dmem.store_u32_eq by done.
  eexists _, _. split; [done |]. split; [by apply Dmem.store_u32_wf |].
  by destruct (Dmem.aligned_u32 a d).
Qed.

Lemma safe_store_u256 a v :
  0 ≤ a → in_bits 256 v → safe c s0 (on_dmem (Dmem.store_u256 a v)) (fun _ => True).
Proof.
  intros. apply safe_on_dmem. intros d Hd. rewrite Dmem.store_u256_eq by done.
  eexists _, _. split; [done |]. split; [by apply Dmem.store_u256_wf |].
  by destruct (Dmem.aligned_u256 a d).
Qed.

(** ** Control flow *)

Lemma safe_set_next_pc p :
  may_jump c = true → 0 ≤ p → safe c s0 (set_next_pc p) (fun _ => True).
Proof.
  intros Hc ?. apply safe_modify. intros s Hw. split; [by apply wf_set_next |].
  split; try done; [by rewrite Hc | by left].
Qed.

Lemma safe_loop_start k n :
  may_loop c = true → 0 < k → 0 < n → safe c s0 (loop_start k n) (fun _ => True).
Proof.
  intros Hc Hk Hn s [Hw Hs]. unfold loop_start, on_loop_stack, zoom, gets, mbind, M_bind.
  pose proof (wf_pc _ Hw).
  destruct (LoopStack.start_loop_ok (s_pc s + 4) k n (s_loop_stack s)) as (l & -> & Hl & _);
    [apply Hw | lia .. |].
  eexists _, _. split; [done |]. split; [| done]. split; [by apply wf_set_loop_stack |].
  transitivity s; [done |]. split; try done; [by rewrite Hc | by left].
Qed.

Lemma safe_stop e : 0 ≤ e → safe c s0 (stop_at_end_of_cycle e) (fun _ => True).
Proof.
  intros He s [Hw Hs]. eexists _, _. split; [done |]. split; [| done]. split.
  - pose proof (wf_or_err_bits e s Hw He) as []. by split.
  - transitivity s; [done |]. split; try done. by right.
Qed.
End accesses.
