(* ===== verification/Insn.v ===== *)
(** The instruction classes (otbnsim/sim/insn.py): one constructor of [insn] per
    class, holding the attributes its [__init__] stores, and per class the
    constructor [X_init] from operand values and the method [X_execute]. *)

From S2P Require Import Prelude Trace Reg Gpr Flags Wsr Csr Dmem.
From S2P Require Import LoopStack State Isa.

Inductive insn : Set :=
  | ADD (grd grs1 grs2 : Z)
  | ADDI (grd grs1 imm : Z)
  | LUI (grd imm : Z)
  | SUB (grd grs1 grs2 : Z)
  | SLL (grd grs1 grs2 : Z)
  | SLLI (grd grs1 shamt : Z)
  | SRL (grd grs1 grs2 : Z)
  | SRLI (grd grs1 shamt : Z)
  | SRA (grd grs1 grs2 : Z)
  | SRAI (grd grs1 shamt : Z)
  | AND (grd grs1 grs2 : Z)
  | ANDI (grd grs1 imm : Z)
  | OR (grd grs1 grs2 : Z)
  | ORI (grd grs1 imm : Z)
  | XOR (grd grs1 grs2 : Z)
  | XORI (grd grs1 imm : Z)
  | LW (grd offset grs1 : Z)
  | SW (grs2 offset grs1 : Z)
  | BEQ (grs1 grs2 offset : Z)
  | BNE (grs1 grs2 offset : Z)
  | JAL (grd offset : Z)
  | JALR (grd grs1 offset : Z)
  | CSRRS (grd csr grs1 : Z)
  | CSRRW (grd csr grs1 : Z)
  | ECALL
  | LOOP (grs bodysize : Z)
  | LOOPI (iterations bodysize : Z)
  | BNADD (wrd wrs1 wrs2 shift_type shift_bytes flag_group : Z)
  | BNADDC (wrd wrs1 wrs2 shift_type shift_bytes flag_group : Z)
  | BNADDI (wrd wrs imm flag_group : Z)
  | BNADDM (wrd wrs1 wrs2 : Z)
  | BNMULQACC (zero_acc wrs1 wrs1_qwsel wrs2 wrs2_qwsel acc_shift_imm : Z)
  | BNMULQACCWO (zero_acc wrd wrs1 wrs1_qwsel wrs2 wrs2_qwsel acc_shift_imm flag_group : Z)
  | BNMULQACCSO (zero_acc wrd wrd_hwsel wrs1 wrs1_qwsel wrs2 wrs2_qwsel acc_shift_imm flag_group : Z)
  | BNSUB (wrd wrs1 wrs2 shift_type shift_bytes flag_group : Z)
  | BNSUBB (wrd wrs1 wrs2 shift_type shift_bytes flag_group : Z)
  | BNSUBI (wrd wrs imm flag_group : Z)
  | BNSUBM (wrd wrs1 wrs2 : Z)
  | BNAND (wrd wrs1 wrs2 shift_type shift_bytes flag_group : Z)
  | BNOR (wrd wrs1 wrs2 shift_type shift_bytes flag_group : Z)
  | BNNOT (wrd wrs shift_type shift_bytes flag_group : Z)
  | BNXOR (wrd wrs1 wrs2 shift_type shift_bytes flag_group : Z)
  | BNRSHI (wrd wrs1 wrs2 imm : Z)
  | BNSEL (wrd wrs1 wrs2 flag_group flag : Z)
  | BNCMP (wrs1 wrs2 shift_type shift_bytes flag_group : Z)
  | BNCMPB (wrs1 wrs2 shift_type shift_bytes flag_group : Z)
  | BNLID (grd grd_inc offset grs1 grs1_inc : Z)
  | BNSID (grs2 grs2_inc offset grs1 grs1_inc : Z)
  | BNMOV (wrd wrs : Z)
  | BNMOVR (grd grd_inc grs grs_inc : Z)
  | BNWSRR (wrd wsr : Z)
  | BNWSRW (wsr wrs : Z)
  | IllegalInsn (raw : Z).

(** * Constructors *)

(** [op_vals[name]] *)
Definition op_val (op_vals : gmap string Z) (name : string) : res Z :=
  of_option KeyError (op_vals !! name).

Definition ADD_init (op_vals : gmap string Z) : res insn :=
  grd ← op_val op_vals "grd";
  grs1 ← op_val op_vals "grs1";
  grs2 ← op_val op_vals "grs2";
  Ok (ADD grd grs1 grs2).

Definition ADDI_init (op_vals : gmap string Z) : res insn :=
  grd ← op_val op_vals "grd";
  grs1 ← op_val op_vals "grs1";
  imm ← op_val op_vals "imm";
  Ok (ADDI grd grs1 imm).

Definition LUI_init (op_vals : gmap string Z) : res insn :=
  grd ← op_val op_vals "grd";
  imm ← op_val op_vals "imm";
  Ok (LUI grd imm).

Definition SUB_init (op_vals : gmap string Z) : res insn :=
  grd ← op_val op_vals "grd";
  grs1 ← op_val op_vals "grs1";
  grs2 ← op_val op_vals "grs2";
  Ok (SUB grd grs1 grs2).

Definition SLL_init (op_vals : gmap string Z) : res insn :=
  grd ← op_val op_vals "grd";
  grs1 ← op_val op_vals "grs1";
  grs2 ← op_val op_vals "grs2";
  Ok (SLL grd grs1 grs2).

Definition SLLI_init (op_vals : gmap string Z) : res insn :=
  grd ← op_val op_vals "grd";
  grs1 ← op_val op_vals "grs1";
  shamt ← op_val op_vals "shamt";
  Ok (SLLI grd grs1 shamt).

Definition SRL_init (op_vals : gmap string Z) : res insn :=
  grd ← op_val op_vals "grd";
  grs1 ← op_val op_vals "grs1";
  grs2 ← op_val op_vals "grs2";
  Ok (SRL grd grs1 grs2).

Definition SRLI_init (op_vals : gmap string Z) : res insn :=
  grd ← op_val op_vals "grd";
  grs1 ← op_val op_vals "grs1";
  shamt ← op_val op_vals "shamt";
  Ok (SRLI grd grs1 shamt).

Definition SRA_init (op_vals : gmap string Z) : res insn :=
  grd ← op_val op_vals "grd";
  grs1 ← op_val op_vals "grs1";
  grs2 ← op_val op_vals "grs2";
  Ok (SRA grd grs1 grs2).

Definition SRAI_init (op_vals : gmap string Z) : res insn :=
  grd ← op_val op_vals "grd";
  grs1 ← op_val op_vals "grs1";
  shamt ← op_val op_vals "shamt";
  Ok (SRAI grd grs1 shamt).

Definition AND_init (op_vals : gmap string Z) : res insn :=
  grd ← op_val op_vals "grd";
  grs1 ← op_val op_vals "grs1";
  grs2 ← op_val op_vals "grs2";
  Ok (AND grd grs1 grs2).

Definition ANDI_init (op_vals : gmap string Z) : res insn :=
  grd ← op_val op_vals "grd";
  grs1 ← op_val op_vals "grs1";
  imm ← op_val op_vals "imm";
  Ok (ANDI grd grs1 imm).

Definition OR_init (op_vals : gmap string Z) : res insn :=
  grd ← op_val op_vals "grd";
  grs1 ← op_val op_vals "grs1";
  grs2 ← op_val op_vals "grs2";
  Ok (OR grd grs1 grs2).

Definition ORI_init (op_vals : gmap string Z) : res insn :=
  grd ← op_val op_vals "grd";
  grs1 ← op_val op_vals "grs1";
  imm ← op_val op_vals "imm";
  Ok (ORI grd grs1 imm).

Definition XOR_init (op_vals : gmap string Z) : res insn :=
  grd ← op_val op_vals "grd";
  grs1 ← op_val op_vals "grs1";
  grs2 ← op_val op_vals "grs2";
  Ok (XOR grd grs1 grs2).

Definition XORI_init (op_vals : gmap string Z) : res insn :=
  grd ← op_val op_vals "grd";
  grs1 ← op_val op_vals "grs1";
  imm ← op_val op_vals "imm";
  Ok (XORI grd grs1 imm).

Definition LW_init (op_vals : gmap string Z) : res insn :=
  grd ← op_val op_vals "grd";
  offset ← op_val op_vals "offset";
  grs1 ← op_val op_vals "grs1";
  Ok (LW grd offset grs1).

Definition SW_init (op_vals : gmap string Z) : res insn :=
  grs2 ← op_val op_vals "grs2";
  offset ← op_val op_vals "offset";
  grs1 ← op_val op_vals "grs1";
  Ok (SW grs2 offset grs1).

Definition BEQ_init (op_vals : gmap string Z) : res insn :=
  grs1 ← op_val op_vals "grs1";
  grs2 ← op_val op_vals "grs2";
  offset ← op_val op_vals "offset";
  Ok (BEQ grs1 grs2 offset).

Definition BNE_init (op_vals : gmap string Z) : res insn :=
  grs1 ← op_val op_vals "grs1";
  grs2 ← op_val op_vals "grs2";
  offset ← op_val op_vals "offset";
  Ok (BNE grs1 grs2 offset).

Definition JAL_init (op_vals : gmap string Z) : res insn :=
  grd ← op_val op_vals "grd";
  offset ← op_val op_vals "offset";
  Ok (JAL grd offset).

Definition JALR_init (op_vals : gmap string Z) : res insn :=
  grd ← op_val op_vals "grd";
  grs1 ← op_val op_vals "grs1";
  offset ← op_val op_vals "offset";
  Ok (JALR grd grs1 offset).

Definition CSRRS_init (op_vals : gmap string Z) : res insn :=
  grd ← op_val op_vals "grd";
  csr ← op_val op_vals "csr";
  grs1 ← op_val op_vals "grs1";
  Ok (CSRRS grd csr grs1).

Definition CSRRW_init (op_vals : gmap string Z) : res insn :=
  grd ← op_val op_vals "grd";
  csr ← op_val op_vals "csr";
  grs1 ← op_val op_vals "grs1";
  Ok (CSRRW grd csr grs1).

Definition ECALL_init (op_vals : gmap string Z) : res insn :=
  Ok ECALL.

Definition LOOP_init (op_vals : gmap string Z) : res insn :=
  grs ← op_val op_vals "grs";
  bodysize ← op_val op_vals "bodysize";
  Ok (LOOP grs bodysize).

Definition LOOPI_init (op_vals : gmap string Z) : res insn :=
  iterations ← op_val op_vals "iterations";
  bodysize ← op_val op_vals "bodysize";
  Ok (LOOPI iterations bodysize).

Definition BNADD_init (op_vals : gmap string Z) : res insn :=
  wrd ← op_val op_vals "wrd";
  wrs1 ← op_val op_vals "wrs1";
  wrs2 ← op_val op_vals "wrs2";
  shift_type ← op_val op_vals "shift_type";
  shift_bits ← op_val op_vals "shift_bits";
  flag_group ← op_val op_vals "flag_group";
  Ok (BNADD wrd wrs1 wrs2 shift_type (shift_bits / 8) flag_group).

Definition BNADDC_init (op_vals : gmap string Z) : res insn :=
  wrd ← op_val op_vals "wrd";
  wrs1 ← op_val op_vals "wrs1";
  wrs2 ← op_val op_vals "wrs2";
  shift_type ← op_val op_vals "shift_type";
  shift_bits ← op_val op_vals "shift_bits";
  flag_group ← op_val op_vals "flag_group";
  Ok (BNADDC wrd wrs1 wrs2 shift_type (shift_bits / 8) flag_group).

Definition BNADDI_init (op_vals : gmap string Z) : res insn :=
  wrd ← op_val op_vals "wrd";
  wrs ← op_val op_vals "wrs";
  imm ← op_val op_vals "imm";
  flag_group ← op_val op_vals "flag_group";
  Ok (BNADDI wrd wrs imm flag_group).

Definition BNADDM_init (op_vals : gmap string Z) : res insn :=
  wrd ← op_val op_vals "wrd";
  wrs1 ← op_val op_vals "wrs1";
  wrs2 ← op_val op_vals "wrs2";
  Ok (BNADDM wrd wrs1 wrs2).

Definition BNMULQACC_init (op_vals : gmap string Z) : res insn :=
  zero_acc ← op_val op_vals "zero_acc";
  wrs1 ← op_val op_vals "wrs1";
  wrs1_qwsel ← op_val op_vals "wrs1_qwsel";
  wrs2 ← op_val op_vals "wrs2";
  wrs2_qwsel ← op_val op_vals "wrs2_qwsel";
  acc_shift_imm ← op_val op_vals "acc_shift_imm";
  Ok (BNMULQACC zero_acc wrs1 wrs1_qwsel wrs2 wrs2_qwsel acc_shift_imm).

Definition BNMULQACCWO_init (op_vals : gmap string Z) : res insn :=
  zero_acc ← op_val op_vals "zero_acc";
  wrd ← op_val op_vals "wrd";
  wrs1 ← op_val op_vals "wrs1";
  wrs1_qwsel ← op_val op_vals "wrs1_qwsel";
  wrs2 ← op_val op_vals "wrs2";
  wrs2_qwsel ← op_val op_vals "wrs2_qwsel";
  acc_shift_imm ← op_val op_vals "acc_shift_imm";
  flag_group ← op_val op_vals "flag_group";
  Ok (BNMULQACCWO zero_acc wrd wrs1 wrs1_qwsel wrs2 wrs2_qwsel acc_shift_imm flag_group).

Definition BNMULQACCSO_init (op_vals : gmap string Z) : res insn :=
  zero_acc ← op_val op_vals "zero_acc";
  wrd ← op_val op_vals "wrd";
  wrd_hwsel ← op_val op_vals "wrd_hwsel";
  wrs1 ← op_val op_vals "wrs1";
  wrs1_qwsel ← op_val op_vals "wrs1_qwsel";
  wrs2 ← op_val op_vals "wrs2";
  wrs2_qwsel ← op_val op_vals "wrs2_qwsel";
  acc_shift_imm ← op_val op_vals "acc_shift_imm";
  flag_group ← op_val op_vals "flag_group";
  Ok (BNMULQACCSO zero_acc wrd wrd_hwsel wrs1 wrs1_qwsel wrs2 wrs2_qwsel acc_shift_imm flag_group).

Definition BNSUB_init (op_vals : gmap string Z) : res insn :=
  wrd ← op_val op_vals "wrd";
  wrs1 ← op_val op_vals "wrs1";
  wrs2 ← op_val op_vals "wrs2";
  shift_type ← op_val op_vals "shift_type";
  shift_bits ← op_val op_vals "shift_bits";
  flag_group ← op_val op_vals "flag_group";
  Ok (BNSUB wrd wrs1 wrs2 shift_type (shift_bits / 8) flag_group).

Definition BNSUBB_init (op_vals : gmap string Z) : res insn :=
  wrd ← op_val op_vals "wrd";
  wrs1 ← op_val op_vals "wrs1";
  wrs2 ← op_val op_vals "wrs2";
  shift_type ← op_val op_vals "shift_type";
  shift_bits ← op_val op_vals "shift_bits";
  flag_group ← op_val op_vals "flag_group";
  Ok (BNSUBB wrd wrs1 wrs2 shift_type (shift_bits / 8) flag_group).

Definition BNSUBI_init (op_vals : gmap string Z) : res insn :=
  wrd ← op_val op_vals "wrd";
  wrs ← op_val op_vals "wrs";
  imm ← op_val op_vals "imm";
  flag_group ← op_val op_vals "flag_group";
  Ok (BNSUBI wrd wrs imm flag_group).

Definition BNSUBM_init (op_vals : gmap string Z) : res insn :=
  wrd ← op_val op_vals "wrd";
  wrs1 ← op_val op_vals "wrs1";
  wrs2 ← op_val op_vals "wrs2";
  Ok (BNSUBM wrd wrs1 wrs2).

Definition BNAND_init (op_vals : gmap string Z) : res insn :=
  wrd ← op_val op_vals "wrd";
  wrs1 ← op_val op_vals "wrs1";
  wrs2 ← op_val op_vals "wrs2";
  shift_type ← op_val op_vals "shift_type";
  shift_bits ← op_val op_vals "shift_bits";
  flag_group ← op_val op_vals "flag_group";
  Ok (BNAND wrd wrs1 wrs2 shift_type (shift_bits / 8) flag_group).

Definition BNOR_init (op_vals : gmap string Z) : res insn :=
  wrd ← op_val op_vals "wrd";
  wrs1 ← op_val op_vals "wrs1";
  wrs2 ← op_val op_vals "wrs2";
  shift_type ← op_val op_vals "shift_type";
  shift_bits ← op_val op_vals "shift_bits";
  flag_group ← op_val op_vals "flag_group";
  Ok (BNOR wrd wrs1 wrs2 shift_type (shift_bits / 8) flag_group).

Definition BNNOT_init (op_vals : gmap string Z) : res insn :=
  wrd ← op_val op_vals "wrd";
  wrs ← op_val op_vals "wrs";
  shift_type ← op_val op_vals "shift_type";
  shift_bits ← op_val op_vals "shift_bits";
  flag_group ← op_val op_vals "flag_group";
  Ok (BNNOT wrd wrs shift_type (shift_bits / 8) flag_group).

Definition BNXOR_init (op_vals : gmap string Z) : res insn :=
  wrd ← op_val op_vals "wrd";
  wrs1 ← op_val op_vals "wrs1";
  wrs2 ← op_val op_vals "wrs2";
  shift_type ← op_val op_vals "shift_type";
  shift_bits ← op_val op_vals "shift_bits";
  flag_group ← op_val op_vals "flag_group";
  Ok (BNXOR wrd wrs1 wrs2 shift_type (shift_bits / 8) flag_group).

Definition BNRSHI_init (op_vals : gmap string Z) : res insn :=
  wrd ← op_val op_vals "wrd";
  wrs1 ← op_val op_vals "wrs1";
  wrs2 ← op_val op_vals "wrs2";
  imm ← op_val op_vals "imm";
  Ok (BNRSHI wrd wrs1 wrs2 imm).

Definition BNSEL_init (op_vals : gmap string Z) : res insn :=
  wrd ← op_val op_vals "wrd";
  wrs1 ← op_val op_vals "wrs1";
  wrs2 ← op_val op_vals "wrs2";
  flag_group ← op_val op_vals "flag_group";
  flag ← op_val op_vals "flag";
  Ok (BNSEL wrd wrs1 wrs2 flag_group flag).

Definition BNCMP_init (op_vals : gmap string Z) : res insn :=
  wrs1 ← op_val op_vals "wrs1";
  wrs2 ← op_val op_vals "wrs2";
  shift_type ← op_val op_vals "shift_type";
  shift_bits ← op_val op_vals "shift_bits";
  flag_group ← op_val op_vals "flag_group";
  Ok (BNCMP wrs1 wrs2 shift_type (shift_bits / 8) flag_group).

Definition BNCMPB_init (op_vals : gmap string Z) : res insn :=
  wrs1 ← op_val op_vals "wrs1";
  wrs2 ← op_val op_vals "wrs2";
  shift_type ← op_val op_vals "shift_type";
  shift_bits ← op_val op_vals "shift_bits";
  flag_group ← op_val op_vals "flag_group";
  Ok (BNCMPB wrs1 wrs2 shift_type (shift_bits / 8) flag_group).

Definition BNLID_init (op_vals : gmap string Z) : res insn :=
  grd ← op_val op_vals "grd";
  grd_inc ← op_val op_vals "grd_inc";
  offset ← op_val op_vals "offset";
  grs1 ← op_val op_vals "grs1";
  grs1_inc ← op_val op_vals "grs1_inc";
  if truthy grd_inc && truthy grs1_inc then Err DecodeError
  else Ok (BNLID grd grd_inc offset grs1 grs1_inc).

Definition BNSID_init (op_vals : gmap string Z) : res insn :=
  grs2 ← op_val op_vals "grs2";
  grs2_inc ← op_val op_vals "grs2_inc";
  offset ← op_val op_vals "offset";
  grs1 ← op_val op_vals "grs1";
  grs1_inc ← op_val op_vals "grs1_inc";
  if truthy grs1_inc && truthy grs2_inc then Err DecodeError
  else Ok (BNSID grs2 grs2_inc offset grs1 grs1_inc).

Definition BNMOV_init (op_vals : gmap string Z) : res insn :=
  wrd ← op_val op_vals "wrd";
  wrs ← op_val op_vals "wrs";
  Ok (BNMOV wrd wrs).

Definition BNMOVR_init (op_vals : gmap string Z) : res insn :=
  grd ← op_val op_vals "grd";
  grd_inc ← op_val op_vals "grd_inc";
  grs ← op_val op_vals "grs";
  grs_inc ← op_val op_vals "grs_inc";
  if truthy grd_inc && truthy grs_inc then Err DecodeError
  else Ok (BNMOVR grd grd_inc grs grs_inc).

Definition BNWSRR_init (op_vals : gmap string Z) : res insn :=
  wrd ← op_val op_vals "wrd";
  wsr ← op_val op_vals "wsr";
  Ok (BNWSRR wrd wsr).

Definition BNWSRW_init (op_vals : gmap string Z) : res insn :=
  wsr ← op_val op_vals "wsr";
  wrs ← op_val op_vals "wrs";
  Ok (BNWSRW wsr wrs).

(** * Execution *)

Import OTBNState.

(** ** Base instructions *)

Definition ADD_execute (grd grs1 grs2 : Z) : M OTBNState () :=
  val1 ← gpr_read grs1;
  val2 ← gpr_read grs2;
  gpr_write grd ((val1 + val2) .& mask 32).

Definition ADDI_execute (grd grs1 imm : Z) : M OTBNState () :=
  val1 ← gpr_read grs1;
  gpr_write grd ((val1 + imm) .& mask 32).

Definition LUI_execute (grd imm : Z) : M OTBNState () :=
  gpr_write grd (imm ≪ 12).

Definition SUB_execute (grd grs1 grs2 : Z) : M OTBNState () :=
  val1 ← gpr_read grs1;
  val2 ← gpr_read grs2;
  gpr_write grd ((val1 - val2) .& mask 32).

Definition SLL_execute (grd grs1 grs2 : Z) : M OTBNState () :=
  val1 ← gpr_read grs1;
  v2 ← gpr_read grs2;
  let val2 := v2 .& 0x1f in
  gpr_write grd ((val1 ≪ val2) .& mask 32).

Definition SLLI_execute (grd grs1 shamt : Z) : M OTBNState () :=
  val1 ← gpr_read grs1;
  gpr_write grd ((val1 ≪ shamt) .& mask 32).

Definition SRL_execute (grd grs1 grs2 : Z) : M OTBNState () :=
  val1 ← gpr_read grs1;
  v2 ← gpr_read grs2;
  let val2 := v2 .& 0x1f in
  gpr_write grd (val1 ≫ val2).

Definition SRLI_execute (grd grs1 shamt : Z) : M OTBNState () :=
  val1 ← gpr_read grs1;
  gpr_write grd (val1 ≫ shamt).

Definition SRA_execute (grd grs1 grs2 : Z) : M OTBNState () :=
  val1 ← gpr_read_signed grs1;
  v2 ← gpr_read grs2;
  let val2 := v2 .& 0x1f in
  gpr_write_signed grd (val1 ≫ val2).

Definition SRAI_execute (grd grs1 shamt : Z) : M OTBNState () :=
  val1 ← gpr_read_signed grs1;
  gpr_write_signed grd (val1 ≫ shamt).

Definition AND_execute (grd grs1 grs2 : Z) : M OTBNState () :=
  val1 ← gpr_read grs1;
  val2 ← gpr_read grs2;
  gpr_write grd (val1 .& val2).

Definition ANDI_execute (grd grs1 imm : Z) : M OTBNState () :=
  val1 ← gpr_read grs1;
  val2 ← lift (to_2s_complement imm);
  gpr_write grd (val1 .& val2).

Definition OR_execute (grd grs1 grs2 : Z) : M OTBNState () :=
  val1 ← gpr_read grs1;
  val2 ← gpr_read grs2;
  gpr_write grd (val1 .| val2).

Definition ORI_execute (grd grs1 imm : Z) : M OTBNState () :=
  val1 ← gpr_read grs1;
  val2 ← lift (to_2s_complement imm);
  gpr_write grd (val1 .| val2).

Definition XOR_execute (grd grs1 grs2 : Z) : M OTBNState () :=
  val1 ← gpr_read grs1;
  val2 ← gpr_read grs2;
  gpr_write grd (val1 .^ val2).

Definition XORI_execute (grd grs1 imm : Z) : M OTBNState () :=
  val1 ← gpr_read grs1;
  val2 ← lift (to_2s_complement imm);
  gpr_write grd (val1 .^ val2).

Definition LW_execute (grd offset grs1 : Z) : M OTBNState () :=
  base ← gpr_read grs1;
  let addr := (base + offset) .& mask 32 in
  result ← on_dmem (Dmem.load_u32 addr);
  gpr_write grd result.

Definition SW_execute (grs2 offset grs1 : Z) : M OTBNState () :=
  base ← gpr_read grs1;
  let addr := (base + offset) .& mask 32 in
  value ← gpr_read grs2;
  on_dmem (Dmem.store_u32 addr value).

Definition BEQ_execute (grs1 grs2 offset : Z) : M OTBNState () :=
  val1 ← gpr_read grs1;
  val2 ← gpr_read grs2;
  if val1 =? val2 then set_next_pc offset else mret ().

Definition BNE_execute (grs1 grs2 offset : Z) : M OTBNState () :=
  val1 ← gpr_read grs1;
  val2 ← gpr_read grs2;
  if negb (val1 =? val2) then set_next_pc offset else mret ().

Definition JAL_execute (grd offset : Z) : M OTBNState () :=
  let mask32 := mask 32 in
  pc ← gets s_pc;
  let link_pc := (pc + 4) .& mask32 in
  gpr_write grd link_pc;;
  set_next_pc (offset .& mask32).

Definition JALR_execute (grd grs1 offset : Z) : M OTBNState () :=
  val1 ← gpr_read grs1;
  pc ← gets s_pc;
  let link_pc := (pc + 4) .& mask 32 in
  gpr_write grd link_pc;;
  set_next_pc ((val1 + offset) .& mask 32).

Definition CSRRS_pre_execute (csr : Z) : M OTBNState bool :=
  if csr =? 0xfc0 then rnd_request_value else mret true.

Definition CSRRS_execute (grd csr grs1 : Z) : M OTBNState () :=
  old_val ← read_csr csr;
  bits_to_set ← gpr_read grs1;
  let new_val := old_val .| bits_to_set in
  gpr_write grd old_val;;
  if negb (grs1 =? 0) then write_csr csr new_val else mret ().

Definition CSRRW_pre_execute (grd csr : Z) : M OTBNState bool :=
  if (csr =? 0xfc0) && negb (grd =? 0) then rnd_request_value else mret true.

Definition CSRRW_execute (grd csr grs1 : Z) : M OTBNState () :=
  new_val ← gpr_read grs1;
  (if negb (grd =? 0) then
     old_val ← read_csr csr;
     gpr_write grd old_val
   else mret ());;
  write_csr csr new_val.

Definition ECALL_execute : M OTBNState () := stop_at_end_of_cycle 0.

Definition LOOP_execute (grs bodysize : Z) : M OTBNState () :=
  num_iters ← gpr_read grs;
  if num_iters =? 0 then stop_at_end_of_cycle err_bits.LOOP
  else loop_start num_iters bodysize.

Definition LOOPI_execute (iterations bodysize : Z) : M OTBNState () :=
  loop_start iterations bodysize.

(** ** Big number instructions *)

(** The end of every additive instruction: mask the full result to 256 bits and
    take the carry from bit 256. *)
Definition masked_and_flags (full_result : Z) : Z * flag_vals :=
  let masked_result := full_result .& mask 256 in
  let carry_flag := truthy ((full_result ≫ 256) .& 1) in
  (masked_result, FlagReg.mlz_for_result carry_flag masked_result).

Definition BNADD_execute (wrd wrs1 wrs2 shift_type shift_bytes flag_group : Z) : M OTBNState () :=
  a ← wdr_read wrs1;
  b ← wdr_read wrs2;
  b_shifted ← lift (logical_byte_shift b shift_type shift_bytes);
  let '(masked_result, flags) := masked_and_flags (a + b_shifted) in
  wdr_write wrd masked_result;;
  set_flags flag_group flags.

Definition BNADDC_execute (wrd wrs1 wrs2 shift_type shift_bytes flag_group : Z) : M OTBNState () :=
  a ← wdr_read wrs1;
  b ← wdr_read wrs2;
  b_shifted ← lift (logical_byte_shift b shift_type shift_bytes);
  f ← get_flags flag_group;
  let carry := Z_of_bool (fC (fr_vals f)) in
  let '(masked_result, flags) := masked_and_flags (a + b_shifted + carry) in
  wdr_write wrd masked_result;;
  set_flags flag_group flags.

Definition BNADDI_execute (wrd wrs imm flag_group : Z) : M OTBNState () :=
  a ← wdr_read wrs;
  let '(masked_result, flags) := masked_and_flags (a + imm) in
  wdr_write wrd masked_result;;
  set_flags flag_group flags.

Definition BNADDM_execute (wrd wrs1 wrs2 : Z) : M OTBNState () :=
  a ← wdr_read wrs1;
  b ← wdr_read wrs2;
  let result := a + b in
  mod_val ← gets (fun s => DumbWSR.read_unsigned (wsr_MOD (s_wsrs s)));
  let result := if mod_val <=? result then result - mod_val else result in
  wdr_write wrd (result .& mask 256).

(** The accumulation common to the three BN.MULQACC classes. *)
Definition mulqacc (zero_acc wrs1 wrs1_qwsel wrs2 wrs2_qwsel acc_shift_imm : Z) : M OTBNState Z :=
  a ← wdr_read wrs1;
  b ← wdr_read wrs2;
  a_qw ← lift (extract_quarter_word a wrs1_qwsel);
  b_qw ← lift (extract_quarter_word b wrs2_qwsel);
  let mul_res := a_qw * b_qw in
  acc ← gets (fun s => DumbWSR.read_unsigned (wsr_ACC (s_wsrs s)));
  let acc := if truthy zero_acc then 0 else acc in
  let acc := acc + (mul_res ≪ acc_shift_imm) in
  mret (acc .& mask 256).

Definition BNMULQACC_execute (zero_acc wrs1 wrs1_qwsel wrs2 wrs2_qwsel acc_shift_imm : Z) :
    M OTBNState () :=
  truncated ← mulqacc zero_acc wrs1 wrs1_qwsel wrs2 wrs2_qwsel acc_shift_imm;
  on_wsrs (WSRFile.write_ACC truncated).

Definition BNMULQACCWO_execute
    (zero_acc wrd wrs1 wrs1_qwsel wrs2 wrs2_qwsel acc_shift_imm flag_group : Z) :
    M OTBNState () :=
  truncated ← mulqacc zero_acc wrs1 wrs1_qwsel wrs2 wrs2_qwsel acc_shift_imm;
  wdr_write wrd truncated;;
  on_wsrs (WSRFile.write_ACC truncated);;
  set_mlz_flags flag_group truncated.

Definition BNMULQACCSO_execute
    (zero_acc wrd wrd_hwsel wrs1 wrs1_qwsel wrs2 wrs2_qwsel acc_shift_imm flag_group : Z) :
    M OTBNState () :=
  truncated ← mulqacc zero_acc wrs1 wrs1_qwsel wrs2 wrs2_qwsel acc_shift_imm;
  let lo_part := truncated .& mask 128 in
  let hi_part := truncated ≫ 128 in
  let hw_shift := 128 * wrd_hwsel in
  let hw_mask := mask 128 ≪ hw_shift in
  old_wrd ← wdr_read wrd;
  let new_wrd := (old_wrd .& ~. hw_mask) .| (lo_part ≪ hw_shift) in
  wdr_write wrd new_wrd;;
  on_wsrs (WSRFile.write_ACC hi_part);;
  f ← get_flags flag_group;
  let old_flags := fr_vals f in
  let new_flags :=
    if truthy wrd_hwsel then
      mkFlags (fC old_flags) (truthy ((lo_part ≫ 127) .& 1)) (fL old_flags)
              (fZ old_flags && (lo_part =? 0))
    else
      mkFlags (fC old_flags) (fM old_flags) (truthy (lo_part .& 1)) (lo_part =? 0) in
  set_flags flag_group new_flags.

Definition BNSUB_execute (wrd wrs1 wrs2 shift_type shift_bytes flag_group : Z) : M OTBNState () :=
  a ← wdr_read wrs1;
  b ← wdr_read wrs2;
  b_shifted ← lift (logical_byte_shift b shift_type shift_bytes);
  let '(masked_result, flags) := masked_and_flags (a - b_shifted) in
  wdr_write wrd masked_result;;
  set_flags flag_group flags.

Definition BNSUBB_execute (wrd wrs1 wrs2 shift_type shift_bytes flag_group : Z) : M OTBNState () :=
  a ← wdr_read wrs1;
  b ← wdr_read wrs2;
  b_shifted ← lift (logical_byte_shift b shift_type shift_bytes);
  f ← get_flags flag_group;
  let borrow := Z_of_bool (fC (fr_vals f)) in
  let '(masked_result, flags) := masked_and_flags (a - b_shifted - borrow) in
  wdr_write wrd masked_result;;
  set_flags flag_group flags.

Definition BNSUBI_execute (wrd wrs imm flag_group : Z) : M OTBNState () :=
  a ← wdr_read wrs;
  let '(masked_result, flags) := masked_and_flags (a - imm) in
  wdr_write wrd masked_result;;
  set_flags flag_group flags.

Definition BNSUBM_execute (wrd wrs1 wrs2 : Z) : M OTBNState () :=
  a ← wdr_read wrs1;
  b ← wdr_read wrs2;
  mod_val ← gets (fun s => DumbWSR.read_unsigned (wsr_MOD (s_wsrs s)));
  let diff := a - b in
  let diff := if diff <? 0 then diff + mod_val else diff in
  wdr_write wrd (diff .& mask 256).

Definition BNAND_execute (wrd wrs1 wrs2 shift_type shift_bytes flag_group : Z) : M OTBNState () :=
  a ← wdr_read wrs1;
  b ← wdr_read wrs2;
  b_shifted ← lift (logical_byte_shift b shift_type shift_bytes);
  let result := a .& b_shifted in
  wdr_write wrd result;;
  set_mlz_flags flag_group result.

Definition BNOR_execute (wrd wrs1 wrs2 shift_type shift_bytes flag_group : Z) : M OTBNState () :=
  a ← wdr_read wrs1;
  b ← wdr_read wrs2;
  b_shifted ← lift (logical_byte_shift b shift_type shift_bytes);
  let result := a .| b_shifted in
  wdr_write wrd result;;
  set_mlz_flags flag_group result.

Definition BNNOT_execute (wrd wrs shift_type shift_bytes flag_group : Z) : M OTBNState () :=
  a ← wdr_read wrs;
  a_shifted ← lift (logical_byte_shift a shift_type shift_bytes);
  let result := a_shifted .^ mask 256 in
  wdr_write wrd result;;
  set_mlz_flags flag_group result.

Definition BNXOR_execute (wrd wrs1 wrs2 shift_type shift_bytes flag_group : Z) : M OTBNState () :=
  a ← wdr_read wrs1;
  b ← wdr_read wrs2;
  b_shifted ← lift (logical_byte_shift b shift_type shift_bytes);
  let result := a .^ b_shifted in
  wdr_write wrd result;;
  set_mlz_flags flag_group result.

Definition BNRSHI_execute (wrd wrs1 wrs2 imm : Z) : M OTBNState () :=
  a ← wdr_read wrs1;
  b ← wdr_read wrs2;
  wdr_write wrd ((((a ≪ 256) .| b) ≫ imm) .& mask 256).

Definition BNSEL_execute (wrd wrs1 wrs2 flag_group flag : Z) : M OTBNState () :=
  f ← get_flags flag_group;
  flag_is_set ← lift (FlagReg.get_by_idx flag f);
  let wrs := if (flag_is_set : bool) then wrs1 else wrs2 in
  value ← wdr_read wrs;
  wdr_write wrd value.

Definition BNCMP_execute (wrs1 wrs2 shift_type shift_bytes flag_group : Z) : M OTBNState () :=
  a ← wdr_read wrs1;
  b ← wdr_read wrs2;
  b_shifted ← lift (logical_byte_shift b shift_type shift_bytes);
  let '(_, flags) := masked_and_flags (a - b_shifted) in
  set_flags flag_group flags.

Definition BNCMPB_execute (wrs1 wrs2 shift_type shift_bytes flag_group : Z) : M OTBNState () :=
  a ← wdr_read wrs1;
  b ← wdr_read wrs2;
  b_shifted ← lift (logical_byte_shift b shift_type shift_bytes);
  f ← get_flags flag_group;
  let borrow := Z_of_bool (fC (fr_vals f)) in
  let '(_, flags) := masked_and_flags (a - b_shifted - borrow) in
  set_flags flag_group flags.

Definition BNLID_execute (grd grd_inc offset grs1 grs1_inc : Z) : M OTBNState () :=
  grs1_val ← gpr_read grs1;
  let addr := (grs1_val + offset) .& mask 32 in
  grd_val ← gpr_read grd;
  if 31 <? grd_val then stop_at_end_of_cycle err_bits.ILLEGAL_INSN
  else
    let wrd := grd_val .& 0x1f in
    value ← on_dmem (Dmem.load_u256 addr);
    wdr_write wrd value;;
    (if truthy grd_inc then gpr_write grd (grd_val + 1) else mret ());;
    (if truthy grs1_inc then gpr_write grs1 ((grs1_val + 32) .& mask 32) else mret ()).

Definition BNSID_execute (grs2 grs2_inc offset grs1 grs1_inc : Z) : M OTBNState () :=
  grs1_val ← gpr_read grs1;
  let addr := (grs1_val + offset) .& mask 32 in
  grs2_val ← gpr_read grs2;
  if 31 <? grs2_val then stop_at_end_of_cycle err_bits.ILLEGAL_INSN
  else
    let wrs := grs2_val .& 0x1f in
    wrs_val ← wdr_read wrs;
    on_dmem (Dmem.store_u256 addr wrs_val);;
    (if truthy grs1_inc then gpr_write grs1 ((grs1_val + 32) .& mask 32) else mret ());;
    (if truthy grs2_inc then gpr_write grs2 (grs2_val + 1) else mret ()).

Definition BNMOV_execute (wrd wrs : Z) : M OTBNState () :=
  value ← wdr_read wrs;
  wdr_write wrd value.

Definition BNMOVR_execute (grd grd_inc grs grs_inc : Z) : M OTBNState () :=
  grd_val ← gpr_read grd;
  grs_val ← gpr_read grs;
  if 31 <? grd_val then stop_at_end_of_cycle err_bits.ILLEGAL_INSN
  else if 31 <? grs_val then stop_at_end_of_cycle err_bits.ILLEGAL_INSN
  else
    let wrd := grd_val .& 0x1f in
    let wrs := grs_val .& 0x1f in
    value ← wdr_read wrs;
    wdr_write wrd value;;
    (if truthy grd_inc then gpr_write grd (grd_val + 1) else mret ());;
    (if truthy grs_inc then gpr_write grs (grs_val + 1) else mret ()).

Definition BNWSRR_pre_execute (wsr : Z) : M OTBNState bool :=
  if wsr =? 0x1 then rnd_request_value else mret true.

Definition BNWSRR_execute (wrd wsr : Z) : M OTBNState () :=
  val ← on_wsrs (WSRFile.read_at_idx wsr);
  wdr_write wrd val.

Definition BNWSRW_execute (wsr wrs : Z) : M OTBNState () :=
  val ← wdr_read wrs;
  on_wsrs (WSRFile.write_at_idx wsr val).

(** [decode.py]: anything that does not decode. *)
Definition IllegalInsn_execute : M OTBNState () := stop_at_end_of_cycle err_bits.ILLEGAL_INSN.

(** * Dispatch *)

(** The [execute] method of an instruction object. *)
Definition execute (i : insn) : M OTBNState () :=
  match i with
  | ADD grd grs1 grs2 => ADD_execute grd grs1 grs2
  | ADDI grd grs1 imm => ADDI_execute grd grs1 imm
  | LUI grd imm => LUI_execute grd imm
  | SUB grd grs1 grs2 => SUB_execute grd grs1 grs2
  | SLL grd grs1 grs2 => SLL_execute grd grs1 grs2
  | SLLI grd grs1 shamt => SLLI_execute grd grs1 shamt
  | SRL grd grs1 grs2 => SRL_execute grd grs1 grs2
  | SRLI grd grs1 shamt => SRLI_execute grd grs1 shamt
  | SRA grd grs1 grs2 => SRA_execute grd grs1 grs2
  | SRAI grd grs1 shamt => SRAI_execute grd grs1 shamt
  | AND grd grs1 grs2 => AND_execute grd grs1 grs2
  | ANDI grd grs1 imm => ANDI_execute grd grs1 imm
  | OR grd grs1 grs2 => OR_execute grd grs1 grs2
  | ORI grd grs1 imm => ORI_execute grd grs1 imm
  | XOR grd grs1 grs2 => XOR_execute grd grs1 grs2
  | XORI grd grs1 imm => XORI_execute grd grs1 imm
  | LW grd offset grs1 => LW_execute grd offset grs1
  | SW grs2 offset grs1 => SW_execute grs2 offset grs1
  | BEQ grs1 grs2 offset => BEQ_execute grs1 grs2 offset
  | BNE grs1 grs2 offset => BNE_execute grs1 grs2 offset
  | JAL grd offset => JAL_execute grd offset
  | JALR grd grs1 offset => JALR_execute grd grs1 offset
  | CSRRS grd csr grs1 => CSRRS_execute grd csr grs1
  | CSRRW grd csr grs1 => CSRRW_execute grd csr grs1
  | ECALL => ECALL_execute
  | LOOP grs n => LOOP_execute grs n
  | LOOPI k n => LOOPI_execute k n
  | BNADD wrd wrs1 wrs2 st sb fg => BNADD_execute wrd wrs1 wrs2 st sb fg
  | BNADDC wrd wrs1 wrs2 st sb fg => BNADDC_execute wrd wrs1 wrs2 st sb fg
  | BNADDI wrd wrs imm fg => BNADDI_execute wrd wrs imm fg
  | BNADDM wrd wrs1 wrs2 => BNADDM_execute wrd wrs1 wrs2
  | BNMULQACC z wrs1 q1 wrs2 q2 sh => BNMULQACC_execute z wrs1 q1 wrs2 q2 sh
  | BNMULQACCWO z wrd wrs1 q1 wrs2 q2 sh fg => BNMULQACCWO_execute z wrd wrs1 q1 wrs2 q2 sh fg
  | BNMULQACCSO z wrd hw wrs1 q1 wrs2 q2 sh fg => BNMULQACCSO_execute z wrd hw wrs1 q1 wrs2 q2 sh fg
  | BNSUB wrd wrs1 wrs2 st sb fg => BNSUB_execute wrd wrs1 wrs2 st sb fg
  | BNSUBB wrd wrs1 wrs2 st sb fg => BNSUBB_execute wrd wrs1 wrs2 st sb fg
  | BNSUBI wrd wrs imm fg => BNSUBI_execute wrd wrs imm fg
  | BNSUBM wrd wrs1 wrs2 => BNSUBM_execute wrd wrs1 wrs2
  | BNAND wrd wrs1 wrs2 st sb fg => BNAND_execute wrd wrs1 wrs2 st sb fg
  | BNOR wrd wrs1 wrs2 st sb fg => BNOR_execute wrd wrs1 wrs2 st sb fg
  | BNNOT wrd wrs st sb fg => BNNOT_execute wrd wrs st sb fg
  | BNXOR wrd wrs1 wrs2 st sb fg => BNXOR_execute wrd wrs1 wrs2 st sb fg
  | BNRSHI wrd wrs1 wrs2 imm => BNRSHI_execute wrd wrs1 wrs2 imm
  | BNSEL wrd wrs1 wrs2 fg flag => BNSEL_execute wrd wrs1 wrs2 fg flag
  | BNCMP wrs1 wrs2 st sb fg => BNCMP_execute wrs1 wrs2 st sb fg
  | BNCMPB wrs1 wrs2 st sb fg => BNCMPB_execute wrs1 wrs2 st sb fg
  | BNLID grd di offset grs1 i1 => BNLID_execute grd di offset grs1 i1
  | BNSID grs2 i2 offset grs1 i1 => BNSID_execute grs2 i2 offset grs1 i1
  | BNMOV wrd wrs => BNMOV_execute wrd wrs
  | BNMOVR grd di grs si => BNMOVR_execute grd di grs si
  | BNWSRR wrd wsr => BNWSRR_execute wrd wsr
  | BNWSRW wsr wrs => BNWSRW_execute wsr wrs
  | IllegalInsn _ => IllegalInsn_execute
  end.

(** The [pre_execute] method: false stalls the simulation for a cycle. *)
Definition pre_execute (i : insn) : M OTBNState bool :=
  match i with
  | LW _ _ _ | BNLID _ _ _ _ _ => load_pre_execute
  | CSRRS _ csr _ => CSRRS_pre_execute csr
  | CSRRW grd csr _ => CSRRW_pre_execute grd csr
  | BNWSRR _ wsr => BNWSRR_pre_execute wsr
  | _ => mret true
  end.

(** The class variable [affects_control]. *)
Definition affects_control (i : insn) : bool :=
  match i with
  | BEQ _ _ _ | BNE _ _ _ | JAL _ _ | JALR _ _ _ | LOOP _ _ | LOOPI _ _ => true
  | _ => false
  end.
