(* ===== verification/InsnSafe.v ===== *)
(** Every instruction with operands in range runs to completion, keeps the
    invariant, and until the commit leaves the architectural state alone. *)

From S2P Require Import Prelude Trace Reg Gpr Flags Wsr Csr Dmem.
From S2P Require Import LoopStack ExtRegs State Isa StateWf Insn.

Import OTBNState.

(** * Operands in range *)

Definition between (lo hi v : Z) : bool := (lo <=? v) && (v <=? hi).
Definition is_reg : Z → bool := between 0 31.

(** What the encoding of each instruction guarantees of its operand values, with
    two additions: the index of a CSR or WSR exists, and a loop count, a loop
    body and a branch target are such that no assertion of the simulator can
    fail on them. *)
Definition valid (i : insn) : bool :=
  match i with
  | ADD d a b | SUB d a b | SLL d a b | SRL d a b | SRA d a b | AND d a b | OR d a b
  | XOR d a b => is_reg d && is_reg a && is_reg b
  | ADDI d a _ => is_reg d && is_reg a
  | ANDI d a imm | ORI d a imm | XORI d a imm =>
      is_reg d && is_reg a && between (-2048) 2047 imm
  | LUI d imm => is_reg d && between 0 0xfffff imm
  | SLLI d a sh | SRLI d a sh | SRAI d a sh => is_reg d && is_reg a && between 0 31 sh
  | LW r _ a | SW r _ a => is_reg r && is_reg a
  | BEQ a b target | BNE a b target => is_reg a && is_reg b && (0 <=? target)
  | JAL d _ => is_reg d
  | JALR d a _ => is_reg d && is_reg a
  | CSRRS d csr a | CSRRW d csr a => is_reg d && is_reg a && CSRFile.known csr
  | ECALL | IllegalInsn _ => true
  | LOOP a n => is_reg a && (0 <? n)
  | LOOPI k n => (0 <? k) && (0 <? n)
  | BNADD d a b st sb fg | BNADDC d a b st sb fg | BNSUB d a b st sb fg
  | BNSUBB d a b st sb fg | BNAND d a b st sb fg | BNOR d a b st sb fg
  | BNXOR d a b st sb fg =>
      is_reg d && is_reg a && is_reg b && between 0 1 st && between 0 31 sb && between 0 1 fg
  | BNNOT d a st sb fg | BNCMP d a st sb fg | BNCMPB d a st sb fg =>
      is_reg d && is_reg a && between 0 1 st && between 0 31 sb && between 0 1 fg
  | BNADDI d a imm fg | BNSUBI d a imm fg =>
      is_reg d && is_reg a && between 0 1023 imm && between 0 1 fg
  | BNADDM d a b | BNSUBM d a b => is_reg d && is_reg a && is_reg b
  | BNMULQACC _ a qa b qb sh =>
      is_reg a && between 0 3 qa && is_reg b && between 0 3 qb && between 0 192 sh
  | BNMULQACCWO _ d a qa b qb sh fg =>
      is_reg d && is_reg a && between 0 3 qa && is_reg b && between 0 3 qb &&
      between 0 192 sh && between 0 1 fg
  | BNMULQACCSO _ d hw a qa b qb sh fg =>
      is_reg d && between 0 1 hw && is_reg a && between 0 3 qa && is_reg b &&
      between 0 3 qb && between 0 192 sh && between 0 1 fg
  | BNRSHI d a b imm => is_reg d && is_reg a && is_reg b && between 0 255 imm
  | BNSEL d a b fg flag =>
      is_reg d && is_reg a && is_reg b && between 0 1 fg && between 0 3 flag
  | BNLID r _ _ a _ | BNSID r _ _ a _ => is_reg r && is_reg a
  | BNMOV d a => is_reg d && is_reg a
  | BNMOVR d _ a _ => is_reg d && is_reg a
  | BNWSRR d w => is_reg d && between 0 2 w
  | BNWSRW w a => between 0 2 w && is_reg a
  end.

(** An instruction that reads RND runs only once a value is there. *)
Definition rnd_ready (i : insn) (s : OTBNState) : Prop :=
  match i with
  | CSRRS _ csr _ => csr = 0xfc0 → is_Some (rw_random_value (wsr_RND (s_wsrs s)))
  | CSRRW d csr _ => csr = 0xfc0 → d ≠ 0 → is_Some (rw_random_value (wsr_RND (s_wsrs s)))
  | BNWSRR _ w => w = 1 → is_Some (rw_random_value (wsr_RND (s_wsrs s)))
  | _ => True
  end.

(** The instructions that push a loop. *)
Definition is_loop (i : insn) : bool :=
  match i with LOOP _ _ | LOOPI _ _ => true | _ => false end.

(** The instructions that set the next program counter. *)
Definition is_jump (i : insn) : bool :=
  match i with BEQ _ _ _ | BNE _ _ _ | JAL _ _ | JALR _ _ _ => true | _ => false end.

Definition insn_control (i : insn) : control := mkControl (is_loop i) (is_jump i).

(** * Ranges of intermediate results *)

Section helpers.
Context (c : control) (s0 : OTBNState).

Lemma safe_shift v st sb :
  in_bits 256 v → 0 ≤ st ≤ 1 → 0 ≤ sb →
  safe c s0 (lift (logical_byte_shift v st sb)) (in_bits 256).
Proof.
  intros. apply safe_lift.
  destruct (logical_byte_shift_ok v st sb) as (r & ? & ? & _); eauto.
Qed.

Lemma safe_quarter v q :
  in_bits 256 v → 0 ≤ q ≤ 3 → safe c s0 (lift (extract_quarter_word v q)) (in_bits 64).
Proof.
  intros. apply safe_lift.
  destruct (extract_quarter_word_ok v q) as (r & ? & ? & _); eauto.
Qed.

Lemma safe_2s_complement v :
  - 2 ^ 31 ≤ v < 2 ^ 31 → safe c s0 (lift (to_2s_complement v)) (in_bits 32).
Proof.
  intros. apply safe_lift. exists (v `mod` 2 ^ 32).
  split; [by apply to_2s_complement_ok |]. by apply Z.mod_pos_bound.
Qed.

Lemma safe_flag k f : 0 ≤ k ≤ 3 → safe c s0 (lift (FlagReg.get_by_idx k f)) (fun _ => True).
Proof.
  intros. apply safe_lift.
  assert (k = 0 ∨ k = 1 ∨ k = 2 ∨ k = 3) as [-> | [-> | [-> | ->]]] by lia; by eexists.
Qed.
End helpers.

Lemma shiftr_range v n lo hi : lo ≤ 0 < hi → 0 ≤ n → lo ≤ v < hi → lo ≤ v ≫ n < hi.
Proof.
  intros Hr Hn Hv. rewrite Z.shiftr_div_pow2 by done.
  assert (0 < 2 ^ n) by lia. split.
  - apply Z.div_le_lower_bound; nia.
  - apply Z.div_lt_upper_bound; nia.
Qed.

Lemma lxor_mask_bits v w : 0 ≤ w → in_bits w v → in_bits w (v .^ mask w).
Proof.
  intros Hw Hv. apply in_bits_lxor; [done .. |]. unfold in_bits, mask.
  rewrite Z.shiftl_1_l. lia.
Qed.

Lemma half_word_bits v lo hw :
  0 ≤ hw ≤ 1 → in_bits 256 v → in_bits 128 lo →
  in_bits 256 ((v .& ~. (mask 128 ≪ (128 * hw))) .| (lo ≪ (128 * hw))).
Proof.
  intros Hhw Hv Hlo. apply in_bits_lor; [lia | by apply in_bits_land_l |].
  apply (in_bits_weaken (128 + 128 * hw)); [lia |]. apply in_bits_shiftl; [lia .. | done].
Qed.

Lemma land_1f_reg v : 0 ≤ v .& 0x1f < 32.
Proof. apply (in_bits_mask v 5). lia. Qed.

Lemma land_1f_nonneg v : 0 ≤ v .& 0x1f.
Proof. apply land_1f_reg. Qed.

Lemma lui_bits imm : 0 ≤ imm ≤ 0xfffff → in_bits 32 (imm ≪ 12).
Proof. intros. apply (in_bits_shiftl 20 12); [lia .. |]. unfold in_bits. lia. Qed.

#[export] Hint Resolve lxor_mask_bits half_word_bits land_1f_reg land_1f_nonneg
  lui_bits : otbn.

(** * The instructions *)

Create HintDb insn.
#[export] Hint Unfold ADD_execute ADDI_execute LUI_execute SUB_execute SLL_execute
  SLLI_execute SRL_execute SRLI_execute SRA_execute SRAI_execute AND_execute ANDI_execute
  OR_execute ORI_execute XOR_execute XORI_execute LW_execute SW_execute BEQ_execute
  BNE_execute JAL_execute JALR_execute CSRRS_pre_execute CSRRS_execute CSRRW_pre_execute
  CSRRW_execute ECALL_execute LOOP_execute LOOPI_execute BNADD_execute BNADDC_execute
  BNADDI_execute BNADDM_execute BNMULQACC_execute BNMULQACCWO_execute BNMULQACCSO_execute
  BNSUB_execute BNSUBB_execute BNSUBI_execute BNSUBM_execute BNAND_execute BNOR_execute
  BNNOT_execute BNXOR_execute BNRSHI_execute BNSEL_execute BNCMP_execute BNCMPB_execute
  BNLID_execute BNSID_execute BNMOV_execute BNMOVR_execute BNWSRR_pre_execute
  BNWSRR_execute BNWSRW_execute IllegalInsn_execute pre_execute masked_and_flags : insn.

(** Break a validity check into the ranges it states. *)
Ltac ranges :=
  unfold valid, is_reg, between in *;
  repeat match goal with
  | H : _ && _ = true |- _ => apply andb_true_iff in H as [? ?]
  | H : (_ <=? _) = true |- _ => apply Z.leb_le in H
  | H : (_ <? _) = true |- _ => apply Z.ltb_lt in H
  | H : (_ <? _) = false |- _ => apply Z.ltb_ge in H
  | H : (_ =? _) = true |- _ => apply Z.eqb_eq in H
  | H : (_ =? _) = false |- _ => apply Z.eqb_neq in H
  | H : negb _ = true |- _ => apply negb_true_iff in H
  | H : _ ∧ _ |- _ => destruct H
  end.

(** Side conditions: ranges of registers and of values. *)
Ltac bounds :=
  cbv beta in *; ranges; try match goal with |- context [if ?b then _ else _] => destruct b end;
  first
    [ done
    | lia
    | apply in_bits_mask; lia
    | apply shiftr_range; solve [lia | apply land_1f_nonneg]
    | solve [eauto 4 with otbn]
    | unfold in_bits in *; lia ].

(** The accumulation shared by the BN.MULQACC instructions. *)
Lemma safe_mulqacc c s0 z a qa b qb sh :
  0 ≤ a < 32 → 0 ≤ b < 32 → 0 ≤ qa ≤ 3 → 0 ≤ qb ≤ 3 → 0 ≤ sh →
  safe c s0 (mulqacc z a qa b qb sh) (in_bits 256).
Proof.
  intros. unfold mulqacc. eapply safe_bind; [by apply safe_wdr_read | intros ? [_ ?]].
  eapply safe_bind; [by apply safe_wdr_read | intros ? [_ ?]].
  eapply safe_bind; [by apply safe_quarter | intros ? ?].
  eapply safe_bind; [by apply safe_quarter | intros ? ?].
  eapply safe_bind; [by apply (safe_gets _ _ _ (fun _ => True)) | intros ? _].
  apply safe_ret, in_bits_mask. lia.
Qed.

(** One step of an [execute] body. *)
Ltac safe_step :=
  match goal with
  | |- safe _ _ (_ ≫= _) _ => eapply safe_bind; [| intros ? ?]
  | |- safe _ _ (if _ then _ else _) _ => apply safe_if; intros ?; ranges
  | |- safe _ _ (mret _) _ => apply safe_ret; first [exact I | bounds]
  | |- safe _ _ (gets _) _ => apply (safe_gets _ _ _ (fun _ => True)); done
  | |- safe _ _ _ _ => first [ apply safe_gpr_read | apply safe_gpr_read_signed
                            | apply safe_gpr_write | apply safe_gpr_write_signed
                            | apply safe_wdr_read | apply safe_wdr_write
                            | apply safe_shift | apply safe_quarter
                            | apply safe_2s_complement | apply safe_flag
                            | apply safe_write_ACC | apply safe_read_wsr
                            | apply safe_write_wsr | apply safe_read_csr
                            | apply safe_write_csr | apply safe_get_flags
                            | apply safe_set_flags | apply safe_set_mlz_flags
                            | apply safe_load_u32 | apply safe_load_u256
                            | apply safe_store_u32 | apply safe_store_u256
                            | apply safe_set_next_pc | apply safe_loop_start
                            | apply safe_stop | apply safe_mulqacc ]; try bounds
  end.

Ltac safe_insn := autounfold with insn; cbv beta zeta iota; repeat safe_step.

Section instructions.
Context (s0 : OTBNState).

Lemma execute_safe i :
  valid i = true → rnd_ready i s0 → safe (insn_control i) s0 (execute i) (fun _ => True).
Proof.
  intros Hv Hr. destruct i; cbn [execute valid rnd_ready] in *; ranges; safe_insn.
Qed.
End instructions.
