(* ===== verification/StateStep.v ===== *)
(** The life of one simulated cycle: what [pre_execute], [pre_insn], [post_insn],
    [stop] and [commit] do to a well-formed state. *)

From S2P Require Import Prelude Trace Reg Gpr Flags Wsr Csr Dmem.
From S2P Require Import LoopStack ExtRegs State Isa StateWf Insn InsnSafe.

Import OTBNState.

(** * After the instruction *)

(** The condition under which [check_next_pc] raises BAD_INSN_ADDR. *)
Definition next_pc_bad (s : OTBNState) : bool :=
  truthy (get_next_pc s .& 3) || (s_imem_size s <=? get_next_pc s).

Lemma get_next_pc_nonneg s : wf s → 0 ≤ get_next_pc s.
Proof.
  intros Hw. pose proof (wf_pc _ Hw). pose proof (wf_next_pc _ Hw) as Hn.
  unfold get_next_pc. destruct (s_pc_next_override s); [done | lia].
Qed.

Lemma check_next_pc_eq s :
  wf s →
  check_next_pc s = Ok ((), if next_pc_bad s then or_err_bits err_bits.BAD_INSN_ADDR s else s).
Proof.
  intros Hw. pose proof (get_next_pc_nonneg s Hw). unfold check_next_pc, next_pc_bad.
  unfold gets, modify, assertM, lift, mbind, M_bind. zbool. cbn -[Z.land Z.leb].
  destruct (truthy _), (s_imem_size s <=? _); cbn [orb]; try done.
  do 2 f_equal. unfold or_err_bits, set_err_bits; cbn. f_equal.
  by rewrite <- Z.lor_assoc, Z.lor_diag.
Qed.

(** The parts of the state in which instructions stage their results. *)
Record same_staged (s s' : OTBNState) : Prop := {
  ss_file : gp_file (s_gprs s') = gp_file (s_gprs s);
  ss_x1 : gp_x1 (s_gprs s') = gp_x1 (s_gprs s);
  ss_wdrs : s_wdrs s' = s_wdrs s;
  ss_wsrs : s_wsrs s' = s_wsrs s;
  ss_csrs : s_csrs s' = s_csrs s;
  ss_dmem : s_dmem s' = s_dmem s
}.

#[global] Instance same_staged_preorder : PreOrder same_staged.
Proof. split; [by intros s |]. intros a b c [] []. split; congruence. Qed.

(** No component reports an error, and the loop stack can be committed. *)
Record committable (s : OTBNState) : Prop := {
  cm_err_bits : s_err_bits s = 0;
  cm_gprs : gp_err_flag (GPRs.post_insn (s_gprs s)) = false;
  cm_dmem : dm_err_flag (s_dmem s) = false;
  cm_loop : ls_err_flag (s_loop_stack s) = false;
  cm_pop : ls_pop_stack_on_commit (s_loop_stack s) = true → ls_stack (s_loop_stack s) ≠ []
}.

Lemma loop_step_ok s :
  wf s →
  ∃ r l s', LoopStack.step (s_pc s) (s_loop_stack s) = Ok (r, l) ∧
    loop_step s = Ok ((), s') ∧ wf s' ∧ same jumps s s' ∧ same_staged s s' ∧
    s_gprs s' = s_gprs s ∧ s_loop_stack s' = l ∧
    s_err_bits s' = s_err_bits s ∧ s_pending_halt s' = s_pending_halt s ∧
    s_pc_next_override s' = (if r then r else s_pc_next_override s) ∧
    (ls_pop_stack_on_commit l = true → ls_stack l ≠ []).
Proof.
  intros Hw. destruct (LoopStack.loops_step_ok (s_pc s) (s_loop_stack s))
    as (r & l & E & Hl & He & Hsts & Hp & Hr); [apply Hw |].
  unfold loop_step, on_loop_stack, zoom, gets, mbind, M_bind. rewrite E. cbn.
  assert (Hwl : wf (set_loop_stack l s)) by (by apply wf_set_loop_stack).
  assert (Hsl : same jumps s (set_loop_stack l s)) by (split; try done; by left).
  destruct r as [p |]; eexists _, _, _; (split; [done |]); (split; [done |]).
  - split; [apply wf_set_next; [done | apply Hr] |]. split; [split; try done; by left |]. by split.
  - done.
Qed.

Lemma or_err_false a b c e : a .| (b .| c .| e) = 0 → a = 0 ∧ b = 0 ∧ c = 0 ∧ e = 0.
Proof. rewrite !Z.lor_eq_0_iff. tauto. Qed.

Lemma post_insn_idem g : gp_err_flag (GPRs.post_insn g) = false → GPRs.post_insn g = g.
Proof. unfold GPRs.post_insn. by destruct (CallStackReg.post_insn _). Qed.

(** The end of [post_insn]: gather the error bits and decide whether to halt. *)
Definition gather (s : OTBNState) : OTBNState :=
  let s1 := set_gprs (GPRs.post_insn (s_gprs s)) s in
  let s2 := or_err_bits (GPRs.err_bits (s_gprs s1) .| Dmem.err_bits (s_dmem s1)
                         .| LoopStack.err_bits (s_loop_stack s1)) s1 in
  if truthy (s_err_bits s2) then set_pending_halt true s2 else s2.

Lemma gather_ok s :
  wf s → (ls_pop_stack_on_commit (s_loop_stack s) = true → ls_stack (s_loop_stack s) ≠ []) →
  wf (gather s) ∧ same jumps s (gather s) ∧ same_staged s (gather s) ∧
  s_pc_next_override (gather s) = s_pc_next_override s ∧
  s_loop_stack (gather s) = s_loop_stack s ∧
  (s_pending_halt (gather s) = false → committable (gather s)) ∧
  (s_err_bits (gather s) = 0 → s_pending_halt (gather s) = s_pending_halt s ∧ s_err_bits s = 0).
Proof.
  intros Hw Hp. set (g := GPRs.post_insn (s_gprs s)).
  set (e := GPRs.err_bits g .| Dmem.err_bits (s_dmem s) .| LoopStack.err_bits (s_loop_stack s)).
  assert (0 ≤ e).
  { unfold e, GPRs.err_bits, Dmem.err_bits, LoopStack.err_bits.
    by destruct (gp_err_flag g), (dm_err_flag _), (ls_err_flag _). }
  assert (Hg : GPRs.wf g) by (apply GPRs.post_insn_wf, Hw).
  assert (Hx : gp_file g = gp_file (s_gprs s) ∧ gp_x1 g = gp_x1 (s_gprs s))
    by (unfold g, GPRs.post_insn; by destruct (CallStackReg.post_insn _)).
  assert (Hw2 : wf (or_err_bits e (set_gprs g s))) by (apply wf_or_err_bits; [by apply wf_set_gprs | done]).
  assert (Hss : same_staged s (or_err_bits e (set_gprs g s))) by (by destruct Hx; split).
  assert (Hsm : ∀ b, (s_err_bits s .| e = 0 → b = s_pending_halt s) →
    (s_err_bits s .| e ≠ 0 → b = true) →
    same jumps s (set_pending_halt b (or_err_bits e (set_gprs g s)))).
  { intros b Hb0 Hb1. destruct Hx as [Hx1 Hx2]. split; try done.
    - intros i. unfold gpr, GPRs.value. cbn. by rewrite Hx1, Hx2.
    - unfold peek_call_stack, GPRs.peek_call_stack. cbn. by rewrite Hx2.
    - cbn. destruct (decide (s_err_bits s .| e = 0)) as [E0 | ?]; [left | right; auto].
      rewrite E0, Hb0 by done. apply Z.lor_eq_0_iff in E0 as [-> _]. done. }
  unfold gather. cbn. fold g. fold e. unfold truthy.
  destruct (Z.eqb_spec (s_err_bits s .| e) 0) as [E0 | Ne]; cbn [negb].
  - split; [done |]. split; [by destruct s; apply (Hsm _ (fun _ => eq_refl)) |].
    repeat (split; [done |]). split; [| intros [? ?]%Z.lor_eq_0_iff; done]. intros _. split; try done.
    all: unfold e, GPRs.err_bits, Dmem.err_bits, LoopStack.err_bits in E0;
      apply or_err_false in E0 as (? & ? & ? & ?); cbn.
    + assert (gp_err_flag g = false) by (by destruct (gp_err_flag g)).
      unfold g. by rewrite (post_insn_idem (s_gprs s)).
    + by destruct (dm_err_flag _).
    + by destruct (ls_err_flag _).
  - split; [by destruct Hw2; split |]. split; [by apply Hsm |].
    split; [by destruct Hss; split |]. repeat (split; [done |]). done.
Qed.

Lemma post_insn_eq s s' :
  loop_step (if next_pc_bad s then or_err_bits err_bits.BAD_INSN_ADDR s else s) = Ok ((), s') →
  wf s → post_insn s = Ok ((), gather s').
Proof.
  intros E Hw. unfold post_insn, mbind, M_bind. rewrite check_next_pc_eq by done.
  by rewrite E.
Qed.

Lemma same_after_error e s s' :
  same jumps (or_err_bits e s) s' → s_pending_halt s' = true → same jumps s s'.
Proof. intros [] ?. split; try done. by right. Qed.

(** [post_insn] never raises.  It leaves the staged results alone, and unless it
    decides to halt the state can be committed. *)
Lemma post_insn_ok s :
  wf s →
  ∃ r l s', LoopStack.step (s_pc s) (s_loop_stack s) = Ok (r, l) ∧
    post_insn s = Ok ((), s') ∧ wf s' ∧ same jumps s s' ∧ same_staged s s' ∧
    s_loop_stack s' = l ∧
    s_pc_next_override s' = (if r then r else s_pc_next_override s) ∧
    (s_pending_halt s' = false →
      committable s' ∧ next_pc_bad s = false ∧ s_pending_halt s = false).
Proof.
  intros Hw. set (s1 := if next_pc_bad s then or_err_bits err_bits.BAD_INSN_ADDR s else s).
  assert (Hw1 : wf s1) by (unfold s1; destruct (next_pc_bad s); [by apply wf_or_err_bits | done]).
  destruct (loop_step_ok s1 Hw1) as (r & l & s2 & El & E2 & Hw2 & Hs2 & Hst2 & _ & Hl & _ & Hph & Hov & Hp).
  rewrite <- Hl in Hp. destruct (gather_ok s2 Hw2 Hp) as (Hw3 & Hs3 & Hst3 & Hov3 & Hl3 & Hcm & Herr).
  exists r, l, (gather s2).
  assert (E1 : s_pc s1 = s_pc s ∧ s_loop_stack s1 = s_loop_stack s ∧
    s_pc_next_override s1 = s_pc_next_override s ∧ s_pending_halt s1 = s_pending_halt s ∧
    same_staged s s1) by (unfold s1; by destruct (next_pc_bad s)).
  destruct E1 as (E1a & E1b & E1c & E1d & Hst1).
  rewrite E1a, E1b in El. split; [done |]. split; [by apply post_insn_eq |].
  split; [done |].
  assert (Hs : same jumps s1 (gather s2)) by (by transitivity s2).
  assert (Hbad : next_pc_bad s = true → s_pending_halt (gather s2) = true).
  { intros Hb. destruct (s_pending_halt (gather s2)) eqn:Eph; [done |]. exfalso.
    destruct (Herr (cm_err_bits _ (Hcm eq_refl))) as [_ E0].
    destruct (same_err _ _ _ Hs2) as [[E0' _] | Eh].
    - rewrite E0 in E0'. unfold s1 in E0'. rewrite Hb in E0'. cbn in E0'.
      symmetry in E0'. apply Z.lor_eq_0_iff in E0' as [_ ?]. done.
    - destruct (Herr (cm_err_bits _ (Hcm eq_refl))) as [E4 _]. congruence. }
  split; [| split; [| split; [| split]]].
  - destruct (next_pc_bad s) eqn:Eb; unfold s1 in Hs; [| done].
    eapply same_after_error; eauto.
  - transitivity s1; [done |]. by transitivity s2.
  - congruence.
  - rewrite Hov3, Hov, E1c. done.
  - intros Eph. specialize (Hcm Eph). split; [done |]. split.
    + destruct (next_pc_bad s); [| done]. by rewrite Hbad in Eph.
    + destruct (Herr (cm_err_bits _ Hcm)) as [E4 _]. congruence.
Qed.

(** * Commit *)

(** Nothing is staged and no component holds an error. *)
Record clean (s : OTBNState) : Prop := {
  cl_file : rf_pending_writes (gp_file (s_gprs s)) = ∅;
  cl_x1 : cs_next_uval (gp_x1 (s_gprs s)) = None ∧ cs_saw_read (gp_x1 (s_gprs s)) = false;
  cl_gprs_err : gp_err_flag (s_gprs s) = false;
  cl_wdrs : rf_pending_writes (s_wdrs s) = ∅;
  cl_dmem : dm_trace (s_dmem s) = [] ∧ dm_err_flag (s_dmem s) = false;
  cl_flags : fr_new_val (fg_group0 (csr_flags (s_csrs s))) = None ∧
             fr_new_val (fg_group1 (csr_flags (s_csrs s))) = None;
  cl_wsrs : dw_next_value (wsr_MOD (s_wsrs s)) = None ∧ dw_next_value (wsr_ACC (s_wsrs s)) = None;
  cl_next_pc : s_pc_next_override s = None;
  cl_loop : ls_err_flag (s_loop_stack s) = false
}.

Lemma take_rnd_data_ok s :
  wf s →
  ∃ r d, take_rnd_data s = Ok ((), set_new_rnd_data d (set_wsrs (WSRFile.set_RND r (s_wsrs s)) s)) ∧
    rw_pending_request r = rw_pending_request (wsr_RND (s_wsrs s)) ∧
    wf (set_new_rnd_data d (set_wsrs (WSRFile.set_RND r (s_wsrs s)) s)).
Proof.
  intros Hw. assert (Hid : s = set_new_rnd_data (s_new_rnd_data s)
    (set_wsrs (WSRFile.set_RND (wsr_RND (s_wsrs s)) (s_wsrs s)) s))
    by (by destruct s as [? ? [] *]).
  unfold take_rnd_data, gets, mbind, M_bind. pose proof (wf_rnd _ Hw) as Hr.
  destruct (s_new_rnd_data s) as [v |] eqn:Ed.
  - destruct (truthy v); [| exists (wsr_RND (s_wsrs s)), (Some v); rewrite <- Hid; done].
    cbn in Hr. unfold on_wsrs, zoom, method, RandWSR.set_unsigned.
    rewrite (proj2 (fits_spec 256 v ltac:(lia)) Hr : _ && _ = true). cbn.
    eexists _, None. split; [done |]. split; [done |]. destruct Hw. split; try done.
    destruct wf_wsrs. by split.
  - exists (wsr_RND (s_wsrs s)), None. rewrite <- Hid. done.
Qed.

(** What a commit of the whole state leaves, given the external registers and
    the wide status registers with any RND data that has arrived. *)
Definition committed (w : WSRFile) (l : LoopStack) (s : OTBNState) : OTBNState :=
  mkState (GPRs.committed (s_gprs s))
    (mkRegFile (rf_name_pfx (s_wdrs s)) (rf_width (s_wdrs s))
       (Reg.commit <$> rf_registers (s_wdrs s)) ∅)
    (WSRFile.commit w) (mkCSRFile (FlagGroups.commit (csr_flags (s_csrs s))))
    (get_next_pc s) None (s_imem_size s)
    (mkDmem (Dmem.written (s_dmem s)) [] false false (dm_load_begun (s_dmem s)))
    (s_non_insn_stall s) (s_start_stall s) (s_urnd_stall s) l
    (OTBNExtRegs.commit (s_ext_regs s)) (s_running s) (s_err_bits s) (s_pending_halt s)
    (s_new_rnd_data s) (s_urnd_reseed_complete s).

Lemma commit_insn_ok s :
  wf s → committable s →
  Dmem.wf (mkDmem (Dmem.written (s_dmem s)) [] false false (dm_load_begun (s_dmem s))) →
  ∃ l, LoopStack.commit (s_loop_stack s) = Ok l ∧
    (on_dmem (method (Dmem.commit false));; commit_insn) s = Ok ((), committed (s_wsrs s) l s) ∧
    wf (committed (s_wsrs s) l s) ∧ clean (committed (s_wsrs s) l s).
Proof.
  intros Hw Hc Hd. destruct (LoopStack.loops_commit_ok (s_loop_stack s)) as (l & El & Hl & Hle & _);
    [apply Hw | apply Hc | apply Hc |].
  destruct (GPRs.gprs_commit_eq (s_gprs s)) as [Eg Hg]; [apply Hw | apply Hc |].
  destruct (Dmem.dmem_commit_eq false (s_dmem s)) as [Ed _]; [apply Hw | apply Hc |].
  exists l. split; [done |]. split; [| split].
  - unfold commit_insn, commit_ext_regs, on_gprs, on_dmem, on_loop_stack, on_wdrs, zoom, method,
      modify, mbind, M_bind. rewrite Ed. cbn. rewrite Eg. cbn. rewrite El. cbn.
    rewrite (RegFile.commit_all 256 32) by (lia || apply Hw). done.
  - destruct Hw. split; try done.
    + apply RegFile.wf_map, RegFile.Reg_wf_commit; done.
    + by apply WSRFile.wsrs_commit_wf.
    + by apply FlagGroups.flags_commit_wf.
    + cbn. by apply get_next_pc_nonneg.
    + by apply OTBNExtRegs.ext_commit_wf.
    + by apply OTBNExtRegs.core_regs_commit.
  - split; try done; cbn.
    + destruct Hc as [_ Hc _ _ _]. by rewrite (post_insn_idem _ Hc) in Hc.
    + rewrite FlagGroups.flags_commit_eq by apply Hw. done.
Qed.

(** * The architectural state *)

(** What a program can observe, apart from the loop stack and the RND value. *)
Record same_arch (s0 s : OTBNState) : Prop := {
  sa_gpr : ∀ i, gpr s i = gpr s0 i;
  sa_call_stack : peek_call_stack s = peek_call_stack s0;
  sa_wdr : ∀ i, wdr s i = wdr s0 i;
  sa_mod : dw_value (wsr_MOD (s_wsrs s)) = dw_value (wsr_MOD (s_wsrs s0));
  sa_acc : dw_value (wsr_ACC (s_wsrs s)) = dw_value (wsr_ACC (s_wsrs s0));
  sa_flags : FlagGroups.same_vals (csr_flags (s_csrs s0)) (csr_flags (s_csrs s));
  sa_pc : s_pc s = s_pc s0;
  sa_data : dm_data (s_dmem s) = dm_data (s_dmem s0)
}.

#[global] Instance same_arch_equiv : Equivalence same_arch.
Proof.
  split.
  - by intros s.
  - intros a b []. split; try done. unfold FlagGroups.same_vals in *. by intuition.
  - intros a b c [] []. split; try congruence.
    unfold FlagGroups.same_vals in *. intuition congruence.
Qed.

Lemma same_same_arch b s0 s : same b s0 s → same_arch s0 s.
Proof. intros []. destruct same_wsrs as (? & ? & _). by split. Qed.

(** * Stopping *)

Lemma gpr_aborted g i : GPRs.value (GPRs.aborted g) i = GPRs.value g i.
Proof.
  unfold GPRs.value, GPRs.aborted. cbn. rewrite list_lookup_fmap.
  by destruct (i =? 0), (i =? 1), (rf_registers (gp_file g) !! Z.to_nat i).
Qed.

(** The state after [_abort]. *)
Definition aborted (s : OTBNState) : OTBNState :=
  mkState (GPRs.aborted (s_gprs s))
    (mkRegFile (rf_name_pfx (s_wdrs s)) (rf_width (s_wdrs s))
       (Reg.abort <$> rf_registers (s_wdrs s)) ∅)
    (WSRFile.abort (s_wsrs s)) (mkCSRFile (FlagGroups.abort (csr_flags (s_csrs s))))
    (s_pc s) None (s_imem_size s) (Dmem.abort (s_dmem s))
    (s_non_insn_stall s) (s_start_stall s) (s_urnd_stall s)
    (LoopStack.abort (s_loop_stack s)) (OTBNExtRegs.abort (s_ext_regs s)) (s_running s)
    (s_err_bits s) (s_pending_halt s) (s_new_rnd_data s) (s_urnd_reseed_complete s).

Lemma abort_eq s : wf s → _abort s = Ok ((), aborted s).
Proof.
  intros Hw. unfold _abort, on_gprs, on_wdrs, zoom, method, modify, mbind, M_bind.
  rewrite GPRs.gprs_abort_eq by apply Hw. cbn.
  by rewrite (RegFile.abort_all 256 32) by (lia || apply Hw).
Qed.

(** An abort drops everything that was staged and nothing else. *)
Lemma aborted_same_arch s : wf s → same_arch s (aborted s).
Proof.
  intros Hw. split; try done.
  - intros i. apply gpr_aborted.
  - intros i. unfold wdr, RegFile.value. cbn. rewrite list_lookup_fmap.
    by destruct (rf_registers (s_wdrs s) !! Z.to_nat i).
  - cbn. rewrite FlagGroups.flags_abort_eq by apply Hw. done.
Qed.

Lemma aborted_clean s : wf s → clean (aborted s).
Proof.
  intros Hw. split; try done. cbn. rewrite FlagGroups.flags_abort_eq by apply Hw. done.
Qed.

(** The invariant of a core that is not running.  An overflowing loop stack is
    only emptied by the next [start], so nothing is said about it. *)
Definition idle_wf (s : OTBNState) : Prop := wf (set_loop_stack LoopStack.init s).

Lemma aborted_idle s : wf s → idle_wf (aborted s).
Proof.
  intros Hw. destruct Hw. split; try done; cbn.
  - by apply GPRs.aborted_wf.
  - apply RegFile.wf_map, RegFile.Reg_wf_abort; done.
  - by apply WSRFile.wsrs_abort_wf.
  - by apply FlagGroups.flags_abort_wf.
  - by apply Dmem.dmem_abort_wf.
  - apply LoopStack.loops_init_wf.
  - by apply OTBNExtRegs.ext_abort_wf.
  - by apply OTBNExtRegs.core_regs_abort.
Qed.

(** Updates of the external registers. *)
Lemma idle_set_ext e s :
  idle_wf s → OTBNExtRegs.wf e → OTBNExtRegs.has_core_regs e → idle_wf (set_ext_regs e s).
Proof. intros [] ? ?. by split. Qed.

Lemma core_reg e n :
  OTBNExtRegs.has_core_regs e → n ∈ ["STATUS"; "INTR_STATE"; "ERR_BITS"; "START_ADDR"] →
  is_Some (er_regs e !! n).
Proof. intros H Hn. by apply (proj1 (Forall_forall _ _) H). Qed.

(** [stop] rolls back what the instruction staged, posts the error bits and the
    done interrupt, and marks the core as stopped. *)
Lemma stop_ok s :
  wf s →
  ∃ e, stop s = Ok ((), set_running false (set_ext_regs e (aborted s))) ∧
    OTBNExtRegs.wf e ∧ OTBNExtRegs.has_core_regs e ∧
    (e1 ← OTBNExtRegs.set_bits "INTR_STATE" (1 ≪ 0) (OTBNExtRegs.abort (s_ext_regs s));
     e2 ← OTBNExtRegs.clear_bits "STATUS" (1 ≪ 0) (snd e1);
     OTBNExtRegs.write "ERR_BITS" (s_err_bits s) true (snd e2)) = Ok ((), e).
Proof.
  intros Hw. pose proof (aborted_idle s Hw) as Hi.
  pose proof (wf_ext _ Hi) as He. pose proof (wf_core_regs _ Hi) as Hc. cbn in He, Hc.
  destruct (OTBNExtRegs.ext_set_bits_ok "INTR_STATE" (1 ≪ 0) (OTBNExtRegs.abort (s_ext_regs s)))
    as (e1 & E1 & He1 & _ & Hm1); [done .. | apply core_reg; [done | set_solver] |].
  pose proof (OTBNExtRegs.core_regs_mono _ _ Hm1 Hc) as Hc1.
  destruct (OTBNExtRegs.ext_clear_bits_ok "STATUS" (1 ≪ 0) e1)
    as (e2 & E2 & He2 & _ & Hm2); [done .. | apply core_reg; [done | set_solver] |].
  pose proof (OTBNExtRegs.core_regs_mono _ _ Hm2 Hc1) as Hc2.
  destruct (OTBNExtRegs.ext_write_ok "ERR_BITS" (s_err_bits s) true e2)
    as (e3 & E3 & He3 & _ & Hm3); [done | apply (wf_err_bits _ Hw) | apply core_reg; [done | set_solver] |].
  pose proof (OTBNExtRegs.core_regs_mono _ _ Hm3 Hc2) as Hc3.
  exists e3. split; [| split; [done |]; split; [done |]].
  - unfold stop, on_ext_regs, zoom, mbind, M_bind. rewrite abort_eq by done. cbn.
    rewrite E1. cbn. rewrite E2. cbn. unfold gets. cbn. rewrite E3. done.
  - rewrite E1. cbn. rewrite E2. done.
Qed.

Lemma changes_ok s : idle_wf s → ∃ l, changes s = Ok l.
Proof.
  intros Hw. unfold changes.
  destruct (GPRs.gprs_changes_ok (s_gprs s)) as [l ->]; [apply (wf_gprs _ Hw) |].
  destruct (RegFile.regfile_changes_ok 256 32 (s_wdrs s)) as [l' ->];
    [apply (wf_wdrs _ Hw) | apply (wf_wdrs_staged _ Hw) |]. by eexists.
Qed.

Lemma wf_idle s : wf s → idle_wf s.
Proof. intros []. split; try done. apply LoopStack.loops_init_wf. Qed.

(** * Between cycles *)

(** The state between two cycles of a running core. *)
Record ready (s : OTBNState) : Prop := {
  rd_wf : wf s;
  rd_clean : clean s;
  rd_halt : s_pending_halt s = false;
  rd_err : s_err_bits s = 0;
  rd_urnd : s_urnd_stall s = true → s_start_stall s = true;
  rd_start : s_start_stall s = s_non_insn_stall s;
  rd_running : s_running s = true
}.

(** The state between two cycles: running, or stopped with nothing staged. *)
Definition steady (s : OTBNState) : Prop :=
  ready s ∨ (idle_wf s ∧ clean s ∧ s_running s = false).

Definition is_load (i : insn) : bool :=
  match i with LW _ _ _ | BNLID _ _ _ _ _ => true | _ => false end.

(** Before an instruction: [pre_execute] changes nothing when it lets the
    instruction run, and otherwise records what the instruction waits for. *)
Lemma pre_execute_ok i s :
  wf s →
  (pre_execute i s = Ok (true, s) ∧ rnd_ready i s) ∨
  (pre_execute i s = Ok (false, set_dmem (Dmem.begin_load (s_dmem s)) s) ∧
   is_load i = true ∧ dm_load_ready (s_dmem s) = false) ∨
  (∃ v, pre_execute i s = Ok (false, set_wsrs (WSRFile.set_RND
      (mkRand v (rw_random_value_read (wsr_RND (s_wsrs s))) true) (s_wsrs s)) s) ∧
    is_load i = false ∧ v = rw_random_value (wsr_RND (s_wsrs s)) ∧ from_option truthy false v = false).
Proof.
  intros Hw.
  assert (Hload : ∀ j, is_load j = true → pre_execute j = load_pre_execute → rnd_ready j s →
    (pre_execute j s = Ok (true, s) ∧ rnd_ready j s) ∨
    (pre_execute j s = Ok (false, set_dmem (Dmem.begin_load (s_dmem s)) s) ∧
     is_load j = true ∧ dm_load_ready (s_dmem s) = false)).
  { intros j Hj -> Hr. unfold load_pre_execute, gets, mbind, M_bind, Dmem.in_progress_load_complete.
    destruct (dm_load_ready (s_dmem s)); [by left | by right]. }
  assert (Hrnd : (rnd_request_value s = Ok (true, s) ∧
      is_Some (rw_random_value (wsr_RND (s_wsrs s)))) ∨
    (∃ v, rnd_request_value s = Ok (false, set_wsrs (WSRFile.set_RND
      (mkRand v (rw_random_value_read (wsr_RND (s_wsrs s))) true) (s_wsrs s)) s) ∧
    v = rw_random_value (wsr_RND (s_wsrs s)) ∧ from_option truthy false v = false)).
  { unfold rnd_request_value, on_wsrs, zoom, RandWSR.request_value.
    destruct (from_option truthy false (rw_random_value (wsr_RND (s_wsrs s)))) eqn:E; [left | right].
    - split; [by destruct s as [? ? [] *] |]. by destruct (rw_random_value _).
    - by eexists. }
  destruct i; try (left; by split);
    try (match goal with |- context [pre_execute ?j s] =>
           destruct (Hload j eq_refl eq_refl I) as [? | ?]; [by left | by right; left] end).
  all: unfold pre_execute, CSRRS_pre_execute, CSRRW_pre_execute, BNWSRR_pre_execute, rnd_ready.
  all: case_match eqn:Ec; [destruct Hrnd as [[? ?] | (v & ? & ?)];
         [by left | right; right; by exists v] |].
  all: left; split; [done |]; ranges.
  - done.
  - apply andb_false_iff in Ec as [?%Z.eqb_neq | Hd]; [done |].
    apply negb_false_iff, Z.eqb_eq in Hd. done.
  - done.
Qed.

(** * Stall cycles *)

Lemma ready_begin_load s : ready s → ready (set_dmem (Dmem.begin_load (s_dmem s)) s).
Proof.
  intros [Hw Hc]. split; try done.
  - apply wf_set_dmem; [done |]. destruct (wf_dmem _ Hw). by split.
  - by destruct Hc; split.
Qed.

Lemma ready_set_RND r s :
  ready s → RandWSR.wf r → ready (set_wsrs (WSRFile.set_RND r (s_wsrs s)) s).
Proof.
  intros [Hw Hc] Hr. split; try done.
  - apply wf_set_wsrs; [done |]. destruct (wf_wsrs _ Hw). by split.
  - by destruct Hc; split.
Qed.

Lemma clean_written s : clean s → Dmem.written (s_dmem s) = dm_data (s_dmem s).
Proof. intros Hc. unfold Dmem.written. by rewrite (proj1 (cl_dmem _ Hc)). Qed.

Lemma ready_committable s : ready s →
  s_err_bits s = 0 ∧ Dmem.wf (s_dmem s) ∧ dm_err_flag (s_dmem s) = false.
Proof. intros [Hw Hc]. split; [done |]. split; [apply Hw | apply Hc]. Qed.

(** A stall cycle changes no architectural state.  While the random number
    generator is being reseeded it only waits; otherwise it ends the stall at the
    start of a run and moves the load handshake forward. *)
Lemma stall_commit_ok s :
  ready s →
  ∃ s', commit true s = Ok ((), s') ∧ ready s' ∧ same_arch s s' ∧
    s_loop_stack s' = s_loop_stack s ∧ s_imem_size s' = s_imem_size s ∧
    (if s_urnd_stall s
     then s_urnd_stall s' = negb (s_urnd_reseed_complete s) ∧ s_start_stall s' = true
     else s_start_stall s' = false ∧ s_urnd_stall s' = false ∧
          dm_load_ready (s_dmem s') = dm_load_begun (s_dmem s)) ∧
    s_urnd_reseed_complete s' = s_urnd_reseed_complete s ∧
    rw_pending_request (wsr_RND (s_wsrs s')) = rw_pending_request (wsr_RND (s_wsrs s)).
Proof.
  intros Hr. pose proof Hr as [Hw Hc Hph Herr Hurnd Hstart Hrun].
  unfold commit, gets, assertM, lift, mbind, M_bind. rewrite Hph, Herr. cbn -[take_rnd_data].
  destruct (take_rnd_data_ok s Hw) as (r & d & -> & Hpr & Hw1).
  set (s1 := set_new_rnd_data d _) in *.
  assert (Hc1 : clean s1) by (by destruct Hc; split).
  assert (Ha1 : same_arch s s1) by done.
  change (s_urnd_stall s1) with (s_urnd_stall s).
  destruct (s_urnd_stall s) eqn:Eu.
  - specialize (Hurnd eq_refl). unfold modify. eexists. split; [done |].
    change (s_urnd_reseed_complete s1) with (s_urnd_reseed_complete s).
    destruct (s_urnd_reseed_complete s) eqn:Eres.
    + split; [| by split].
      split; try done; [by destruct Hw1; split | by destruct Hc1; split].
    + split; [| by split].
      split; try done.
  - unfold modify. cbn -[Dmem.commit].
    set (s2 := if s_start_stall s then _ else _).
    assert (H2 : s_dmem s2 = s_dmem s ∧ wf s2 ∧ clean s2 ∧ same_arch s s2 ∧
      s_start_stall s2 = false ∧ s_non_insn_stall s2 = false ∧ s_urnd_stall s2 = false ∧
      s_loop_stack s2 = s_loop_stack s ∧ s_imem_size s2 = s_imem_size s ∧ s_pending_halt s2 = false ∧ s_err_bits s2 = 0 ∧
      s_running s2 = true ∧ s_urnd_reseed_complete s2 = s_urnd_reseed_complete s ∧
      rw_pending_request (wsr_RND (s_wsrs s2)) = rw_pending_request (wsr_RND (s_wsrs s))).
    { unfold s2. destruct (s_start_stall s) eqn:Est; [| by symmetry in Hstart].
      split; [done |]. split; [| split; [by destruct Hc1; split | done]].
      destruct Hw1. split; try done; cbn; [by apply OTBNExtRegs.ext_commit_wf |
        by apply OTBNExtRegs.core_regs_commit]. }
    destruct H2 as (Ed & Hw2 & Hc2 & Ha2 & ? & ? & ? & ? & ? & ? & ? & ? & ? & ?).
    unfold on_dmem, zoom, method. fold s2.
    destruct (Dmem.dmem_commit_eq true (s_dmem s2)) as (-> & Hwd & _); [apply Hw2 | apply Hc2 |].
    cbn. rewrite clean_written in * by done.
    eexists. split; [done |]. cbn. rewrite !Ed.
    split; [| split; [by rewrite <- Ed; destruct Ha2; split | done]].
    split; try done; cbn; [| | congruence | congruence].
    + rewrite <- Ed. by apply wf_set_dmem.
    + by destruct Hc2; split.
Qed.

(** * Instruction cycles *)

(** The three phases of an instruction, up to the decision to halt. *)
Definition phases (i : insn) (s s1 s2 s3 : OTBNState) : Prop :=
  pre_insn (affects_control i) s = Ok ((), s1) ∧
  execute i s1 = Ok ((), s2) ∧
  post_insn s2 = Ok ((), s3).

Lemma pre_insn_ok b s :
  wf s →
  ∃ l, pre_insn b s = Ok ((), set_loop_stack l s) ∧ wf (set_loop_stack l s) ∧
    same plain s (set_loop_stack l s) ∧ ls_stack l = ls_stack (s_loop_stack s).
Proof.
  intros Hw.
  assert (Hls : ls_stack (LoopStack.check_insn (s_pc s) b (s_loop_stack s)) =
    ls_stack (s_loop_stack s)) by (unfold LoopStack.check_insn; by case_match).
  eexists. split; [done |]. split; [| split; [| done]].
  - apply wf_set_loop_stack; [done |]. apply LoopStack.check_insn_wf, Hw.
  - split; try done; [| by left]. intros _. unfold loop_starts. cbn. by rewrite Hls.
Qed.

(** A loop instruction pushes a level that starts at the next instruction. *)
Lemma loop_start_inv k n s u s' :
  loop_start k n s = Ok (u, s') →
  s_pc_next_override s' = s_pc_next_override s ∧ loop_starts s' = s_pc s + 4 :: loop_starts s.
Proof.
  unfold loop_start, on_loop_stack, zoom, gets, mbind, M_bind, LoopStack.start_loop, LoopLevel.init.
  destruct (0 <=? s_pc s + 4), (0 <? n), (0 <? k), (0 <=? k - 1); cbn; try done.
  by intros [= <- <-].
Qed.

Lemma gpr_read_inv i s v s' :
  gpr_read i s = Ok (v, s') → ∃ g, s' = set_gprs g s.
Proof.
  unfold gpr_read, on_gprs, zoom. destruct (GPRs.read_unsigned i (s_gprs s)) as [[v' g] |];
    cbn; [| done]. intros [= <- <-]. by exists g.
Qed.

Lemma loop_insn_inv i s u s' :
  is_loop i = true → execute i s = Ok (u, s') →
  s_pc_next_override s' = s_pc_next_override s ∧
  (loop_starts s' = loop_starts s ∨ loop_starts s' = s_pc s + 4 :: loop_starts s).
Proof.
  intros Hi. destruct i; try done; cbn [execute].
  - unfold LOOP_execute. unfold mbind at 1, M_bind at 1.
    destruct (gpr_read grs s) as [[v s1] |] eqn:E; [| done].
    apply gpr_read_inv in E as [g ->]. case_match.
    + intros [= <- <-]. auto.
    + intros [? ?]%loop_start_inv. auto.
  - intros [? ?]%loop_start_inv. auto.
Qed.

(** The program counter and the starts of the active loops are in the
    instruction memory. *)
Record in_imem (s : OTBNState) : Prop := {
  im_pc : s_pc s < s_imem_size s;
  im_loops : Forall (fun a => a < s_imem_size s) (loop_starts s)
}.

Definition keeps_imem (s s' : OTBNState) : Prop :=
  s_imem_size s' = s_imem_size s ∧ (in_imem s → in_imem s').

Lemma next_pc_good s : next_pc_bad s = false → get_next_pc s < s_imem_size s.
Proof. intros [_ ?%Z.leb_gt]%orb_false_iff. done. Qed.

(** Every valid instruction gets through its phases, keeping the invariant and
    the architectural state; unless it halts the core it can be committed, and
    the next program counter is in the instruction memory. *)
Lemma phases_ok i s :
  wf s → s_pc_next_override s = None → valid i = true → rnd_ready i s →
  ∃ s1 s2 s3, phases i s s1 s2 s3 ∧ wf s3 ∧ same (mkControl (is_loop i) true) s s3 ∧
    (s_pending_halt s3 = false → committable s3 ∧
      (in_imem s → get_next_pc s3 < s_imem_size s ∧
        Forall (fun a => a < s_imem_size s) (loop_starts s3))).
Proof.
  intros Hw Hov Hv Hr.
  destruct (pre_insn_ok (affects_control i) s Hw) as (l & E1 & Hw1 & Hs1 & _).
  set (s1 := set_loop_stack l s) in *.
  destruct (execute_safe s1 i) with (s := s1)
    as (u & s2 & E2 & [Hw2 Hs2] & _); [done | by destruct i | by split |]. destruct u.
  destruct (post_insn_ok s2 Hw2) as (r & l' & s3 & Est & E3 & Hw3 & Hs3 & _ & Hl & Ho & Hc).
  destruct (LoopStack.loops_step_ok (s_pc s2) (s_loop_stack s2))
    as (r' & l'' & Est' & _ & _ & Hsts & _ & Hjump); [apply Hw2 |].
  rewrite Est in Est'. injection Est' as <- <-.
  exists s1, s2, s3. split; [done |]. split; [done |]. split.
  - transitivity s1; [by eapply same_weaken |].
    transitivity s2; by eapply same_weaken.
  - intros Hp. destruct (Hc Hp) as (Hcm & Hgood & _). split; [done |]. intros [Hpc Hls].
    apply next_pc_good in Hgood. rewrite (same_imem_size _ _ _ Hs2) in Hgood.
    change (s_imem_size s1) with (s_imem_size s) in Hgood.
    assert (Hst2 : Forall (fun a => a < s_imem_size s) (loop_starts s2)).
    { assert (Hls1 : loop_starts s1 = loop_starts s) by (by apply (same_loops _ _ _ Hs1)).
      destruct (is_loop i) eqn:Ei.
      - destruct (loop_insn_inv i s1 () s2 Ei E2) as [Ho2 [-> | ->]]; rewrite Hls1; [done |].
        constructor; [| done]. unfold get_next_pc in Hgood.
        rewrite Ho2 in Hgood. change (s_pc_next_override s1) with (s_pc_next_override s) in Hgood.
        rewrite Hov, (same_pc _ _ _ Hs2) in Hgood. done.
      - by rewrite (same_loops _ _ _ Hs2), Hls1. }
    split; [| by rewrite (same_loops _ _ _ Hs3)].
    unfold get_next_pc in *. rewrite Ho, (same_pc _ _ _ Hs3). destruct r as [a |]; [| done].
    destruct Hjump as [_ Hin]. exact (proj1 (Forall_forall _ _) Hst2 a Hin).
Qed.

(** A halted instruction: roll back, report, and commit only the report. *)
Lemma halt_ok s :
  wf s → s_pending_halt s = true →
  ∃ s' l, stop s = Ok ((), s') ∧ changes s' = Ok l ∧ s_pc s' = s_pc s ∧
    commit false s' = Ok ((), set_ext_regs (OTBNExtRegs.commit (s_ext_regs s')) s') ∧
    idle_wf (set_ext_regs (OTBNExtRegs.commit (s_ext_regs s')) s') ∧
    clean (set_ext_regs (OTBNExtRegs.commit (s_ext_regs s')) s') ∧
    same_arch s (set_ext_regs (OTBNExtRegs.commit (s_ext_regs s')) s') ∧
    s_running s' = false ∧ s_imem_size s' = s_imem_size s.
Proof.
  intros Hw Hp. destruct (stop_ok s Hw) as (e & E & He & Hc & _).
  set (s' := set_running false (set_ext_regs e (aborted s))) in *.
  assert (Hi : idle_wf s').
  { assert (Hi : idle_wf (set_ext_regs e (aborted s))) by (by apply idle_set_ext, Hc; [apply aborted_idle |]).
    by destruct Hi; split. }
  destruct (changes_ok s' Hi) as [l El]. exists s', l.
  split; [done |]. split; [done |]. split; [done |]. split.
  { unfold commit, gets, commit_ext_regs, modify, mbind, M_bind. cbn. by rewrite Hp. }
  split; [| split; [| split; [| done]]].
  - apply idle_set_ext; [done | by apply OTBNExtRegs.ext_commit_wf | by apply OTBNExtRegs.core_regs_commit].
  - pose proof (aborted_clean s Hw) as []. by split.
  - pose proof (aborted_same_arch s Hw) as []. by split.
Qed.

(** An instruction that does not halt is committed. *)
Lemma commit_ok s :
  wf s → committable s → s_pending_halt s = false → s_urnd_stall s = false →
  s_start_stall s = false → s_non_insn_stall s = false → s_running s = true →
  ∃ r d l, LoopStack.commit (s_loop_stack s) = Ok l ∧
    commit false s = Ok ((), committed (WSRFile.set_RND r (s_wsrs s)) l (set_new_rnd_data d s)) ∧
    ready (committed (WSRFile.set_RND r (s_wsrs s)) l (set_new_rnd_data d s)) ∧
    (get_next_pc s < s_imem_size s →
     Forall (fun a => a < s_imem_size s) (loop_starts s) →
     in_imem (committed (WSRFile.set_RND r (s_wsrs s)) l (set_new_rnd_data d s))).
Proof.
  intros Hw Hc Hph Hu Hst Hn Hrun. unfold commit, gets, assertM, lift, mbind, M_bind.
  rewrite Hph, (cm_err_bits _ Hc). cbn -[take_rnd_data].
  destruct (take_rnd_data_ok s Hw) as (r & d & -> & Hpr & Hw1).
  set (s1 := set_new_rnd_data d _) in *.
  change (s_urnd_stall s1) with (s_urnd_stall s). rewrite Hu. unfold modify.
  change (s_start_stall s1) with (s_start_stall s). rewrite Hst.
  assert (Hc1 : committable s1) by (by destruct Hc; split).
  destruct (Dmem.dmem_commit_eq false (s_dmem s1)) as (_ & Hwd & _); [apply Hw1 | apply Hc1 |].
  destruct (commit_insn_ok s1 Hw1 Hc1 Hwd) as (l & El & Ec & Hwc & Hcl).
  exists r, d, l. split; [done |]. split; [exact Ec |]. split.
  { split; try done; cbn; [apply Hc | by rewrite Hu | congruence]. }
  intros Hn' Hls. split; [done |].
  destruct (LoopStack.loops_commit_ok (s_loop_stack s)) as (l' & El' & _ & _ & Hst');
    [apply Hw | apply Hc | apply Hc |].
  change (s_loop_stack s1) with (s_loop_stack s) in El. rewrite El in El'. injection El' as <-.
  unfold loop_starts in *. cbn. rewrite Hst'. destruct (ls_pop_stack_on_commit _); [| done].
  destruct (ls_stack (s_loop_stack s)); [done |]. by apply Forall_cons in Hls as [_ ?].
Qed.

(** * Construction and start *)

(** What the memory sizes and the register block of otbn.hjson must satisfy. *)
Record config_ok (dmem_size : Z) (flat_regs : list (string * list Field)) : Prop := {
  cf_dmem : 0 ≤ dmem_size ≤ 1024 * 1024 ∧ dmem_size `mod` 32 = 0;
  cf_regs : OTBNExtRegs.regs_ok flat_regs;
  cf_core : Forall (fun n => n ∈ flat_regs.*1) ["STATUS"; "INTR_STATE"; "ERR_BITS"; "START_ADDR"]
}.

Lemma regfile_init_ok pfx w n :
  0 ≤ w → 0 ≤ n →
  RegFile.init pfx w n = Ok (mkRegFile pfx w (replicate (Z.to_nat n) (mkReg w 0 None)) ∅) ∧
  RegFile.wf w n (mkRegFile pfx w (replicate (Z.to_nat n) (mkReg w 0 None)) ∅).
Proof.
  intros Hw Hn. unfold RegFile.init. zbool. cbn [py_assert mbind res_bind].
  rewrite (mapR_Ok_fmap _ (fun _ => mkReg w 0 None)).
  - cbn [mbind res_bind]. rewrite (const_fmap _ _ (mkReg w 0 None)) by done. rewrite length_seqZ. split; [done |].
    split; cbn; [done | rewrite length_replicate; lia | | set_solver |].
    + apply Forall_replicate. split; [done |]. split; [by apply in_bits_0 | done].
    + intros i r [-> _]%lookup_replicate _. done.
  - intros i _. unfold Reg.init. rewrite (proj2 (fits_spec w 0 Hw) (in_bits_0 w Hw) : _ && _ = true).
    by zbool.
Qed.

Lemma init_ok imem_size dmem_size flat_regs :
  config_ok dmem_size flat_regs →
  ∃ s, init imem_size dmem_size flat_regs = Ok s ∧ idle_wf s ∧ clean s ∧ s_running s = false ∧
    s_imem_size s = imem_size ∧ length (dm_data (s_dmem s)) = Z.to_nat (dmem_size / 32).
Proof.
  intros [[Hd Hm] Hr Hc]. unfold init.
  assert (Eg : GPRs.init = Ok (mkGPRs (mkRegFile "x" 32 (replicate 32 (mkReg 32 0 None)) ∅)
    CallStackReg.init false)) by done.
  rewrite Eg. cbn [mbind res_bind]. destruct (regfile_init_ok "w" 256 32) as [-> Hwd]; [lia .. |].
  destruct (regfile_init_ok "x" 32 32) as [_ Hgf]; [lia .. |].
  cbn [mbind res_bind]. unfold Dmem.init. rewrite (proj2 (Z.ltb_ge _ _)) by lia.
  rewrite Hm. cbn [truthy negb Z.eqb mbind res_bind].
  destruct (OTBNExtRegs.ext_init_ok flat_regs Hr) as (e & -> & He & _ & Hin). cbn [mbind res_bind].
  eexists. split; [done |]. split; [| split; [done |]; split; [done |]; split; [done |]].
  - split; cbn; try done.
    + split; cbn; [by apply Forall_replicate | done].
    + apply LoopStack.loops_init_wf.
    + eapply Forall_impl; [exact Hc |]. intros n Hn. by apply Hin.
  - cbn. by rewrite length_replicate.
Qed.

(** [start] turns a stopped core into a running one that stalls first. *)
Lemma start_ok s :
  idle_wf s → clean s →
  ∃ s' a, start s = Ok ((), s') ∧ ready s' ∧ get_start_addr s = Ok a ∧ s_pc s' = a ∧
    s_urnd_stall s' = true ∧ s_start_stall s' = true ∧ s_urnd_reseed_complete s' = false ∧
    ls_stack (s_loop_stack s') = [] ∧ s_imem_size s' = s_imem_size s ∧
    s_gprs s' = s_gprs s ∧ s_wdrs s' = s_wdrs s ∧ s_dmem s' = s_dmem s.
Proof.
  intros Hi Hc. pose proof (wf_ext _ Hi) as He. pose proof (wf_core_regs _ Hi) as Hcr.
  cbn in He, Hcr.
  destruct (OTBNExtRegs.ext_set_bits_ok "STATUS" (1 ≪ 0) (s_ext_regs s))
    as (e & E & Hwe & Hce & Hm); [done .. | apply core_reg; [done | set_solver] |].
  pose proof (OTBNExtRegs.core_regs_mono _ _ Hm Hcr) as Hcr'.
  destruct (core_reg e "START_ADDR" Hcr') as [r Hr]; [set_solver |].
  destruct (core_reg _ "START_ADDR" Hcr) as [r0 Hr0]; [set_solver |].
  assert (Hread : RGReg.read true r = RGReg.read true r0).
  { apply (f_equal (fun m : gmap string (list RGField) => m !! "START_ADDR")) in Hce.
    unfold OTBNExtRegs.committed in Hce. rewrite !lookup_fmap, Hr, Hr0 in Hce.
    injection Hce as Hce. rewrite <- (RGReg.read_abort true r), Hce. apply RGReg.read_abort. }
  unfold start, on_ext_regs, zoom, get_start_addr, OTBNExtRegs.read, OTBNExtRegs._get_reg,
    modify, mbind, M_bind. rewrite E. cbn. rewrite Hr, Hr0. cbn.
  eexists _, _. split; [done |]. split; [| by rewrite Hread].
  split; try done; cbn.
  - destruct Hi. split; try done; cbn.
    apply RGReg.read_nonneg. by apply (OTBNExtRegs.wf_regs _ Hwe "START_ADDR").
  - by destruct Hc; split.
Qed.

(** * Straight-line code *)

(** Outside any loop, an instruction that is neither a jump nor a loop goes on to
    the next instruction. *)
Lemma phases_straight i s s1 s2 s3 :
  wf s → s_pc_next_override s = None → valid i = true → rnd_ready i s →
  insn_control i = plain → loop_starts s = [] → phases i s s1 s2 s3 →
  get_next_pc s3 = s_pc s + 4 ∧ loop_starts s3 = [].
Proof.
  intros Hw Hov Hv Hr Hi Hl (E1 & E2 & E3).
  destruct (pre_insn_ok (affects_control i) s Hw) as (l & E1' & Hw1 & Hs1 & _).
  rewrite E1 in E1'. injection E1' as ->.
  destruct (execute_safe (set_loop_stack l s) i) with (s := set_loop_stack l s)
    as (u & s2' & E2' & [Hw2 Hs2] & _); [done | by destruct i | by split |].
  rewrite E2 in E2'. injection E2' as <- <-. rewrite Hi in Hs2.
  destruct (post_insn_ok s2 Hw2) as (r & l' & s3' & Est & E3' & _ & Hs3 & _ & _ & Ho & _).
  rewrite E3 in E3'. injection E3' as <-.
  assert (Hl2 : loop_starts s2 = []).
  { rewrite (same_loops _ _ _ Hs2) by done. by rewrite (same_loops _ _ _ Hs1). }
  assert (Hr0 : r = None).
  { unfold LoopStack.step in Est. unfold loop_starts in Hl2.
    destruct (ls_stack (s_loop_stack s2)); [| done]. by injection Est. }
  subst r. split; [| by rewrite (same_loops _ _ _ Hs3)].
  unfold get_next_pc. rewrite Ho, (same_next _ _ _ Hs2) by done.
  change (s_pc_next_override (set_loop_stack l s)) with (s_pc_next_override s). rewrite Hov.
  rewrite (same_pc _ _ _ Hs3), (same_pc _ _ _ Hs2). done.
Qed.

(** What a stalled instruction waits for. *)
Definition has_input (i : insn) (s : OTBNState) : bool :=
  if is_load i then dm_load_ready (s_dmem s)
  else from_option truthy false (rw_random_value (wsr_RND (s_wsrs s))).

(** Once it is there, the instruction runs. *)
Lemma pre_execute_ready i s :
  wf s → has_input i s = true → pre_execute i s = Ok (true, s) ∧ rnd_ready i s.
Proof.
  intros Hw Hi. unfold has_input in Hi.
  destruct (pre_execute_ok i s Hw) as [? | [(_ & Hl & Hf) | (v & _ & Hl & Hv & Hf)]]; [done | |];
    rewrite Hl in Hi; congruence.
Qed.
