(* ===== verification/InsnSpec.v ===== *)
(** What the instructions compute: the values they stage, in ordinary modular
    arithmetic on the register contents, and what a commit makes of them. *)

From S2P Require Import Prelude Trace Reg Gpr Flags Wsr Csr Dmem.
From S2P Require Import LoopStack ExtRegs State Isa StateWf Insn InsnSafe StateStep.

Import OTBNState.

(** * Staged values *)

(** The values a commit would leave in the registers.  x0 and x1 are not plain
    registers and are left out of [next_gpr]. *)
Definition next_gpr (s : OTBNState) (i : Z) : Z := RegFile.next_value (gp_file (s_gprs s)) i.
Definition next_wdr (s : OTBNState) (i : Z) : Z := RegFile.next_value (s_wdrs s) i.

Definition flags (s : OTBNState) (fg : Z) : flag_vals :=
  fr_vals (if fg =? 0 then fg_group0 (csr_flags (s_csrs s)) else fg_group1 (csr_flags (s_csrs s))).

Definition next_flags (s : OTBNState) (fg : Z) : flag_vals :=
  let r := if fg =? 0 then fg_group0 (csr_flags (s_csrs s)) else fg_group1 (csr_flags (s_csrs s)) in
  default (fr_vals r) (fr_new_val r).

Definition mod_val (s : OTBNState) : Z := dw_value (wsr_MOD (s_wsrs s)).
Definition acc_val (s : OTBNState) : Z := dw_value (wsr_ACC (s_wsrs s)).
Definition next_acc (s : OTBNState) : Z :=
  default (acc_val s) (dw_next_value (wsr_ACC (s_wsrs s))).

(** * Register accesses, as equations *)

Section accesses.
Context (s : OTBNState) (Hw : wf s).

Lemma gpr_read_eq i :
  0 ≤ i < 32 →
  ∃ g, gpr_read i s = Ok (gpr s i, set_gprs g s) ∧ wf (set_gprs g s) ∧
    gp_file g = gp_file (s_gprs s) ∧ (∀ j, gpr (set_gprs g s) j = gpr s j).
Proof.
  intros Hi. destruct (GPRs.read_unsigned_value i (s_gprs s)) as (g & E & Hg & Hf & _ & _ & Hv);
    [apply Hw | done |].
  exists g. unfold gpr_read, on_gprs, zoom. rewrite E. split; [done |].
  split; [by apply wf_set_gprs | done].
Qed.

Lemma gpr_write_eq i v :
  2 ≤ i < 32 → in_bits 32 v →
  ∃ s', gpr_write i v s = Ok ((), s') ∧
    ∀ j, 0 ≤ j → next_gpr s' j = if decide (j = i) then v else next_gpr s j.
Proof.
  intros Hi Hv. unfold gpr_write, on_gprs, zoom, GPRs.write_unsigned.
  rewrite (proj2 (Z.eqb_neq i 0)), (proj2 (Z.eqb_neq i 1)) by lia. unfold zoom.
  destruct (RegFile.regfile_write_unsigned_ok 32 32 ltac:(lia) i v (gp_file (s_gprs s)))
    as (f & E & _ & _ & _ & Hn); [apply Hw | lia | done |].
  rewrite E. cbn. eexists. split; [done |]. done.
Qed.

Lemma wdr_read_eq i : 0 ≤ i < 32 → wdr_read i s = Ok (wdr s i, s).
Proof.
  intros Hi. unfold wdr_read, on_wdrs, zoom.
  rewrite (RegFile.read_unsigned_eq 256 32) by (done || apply Hw). by destruct s.
Qed.

Lemma wdr_bits i : 0 ≤ i < 32 → in_bits 256 (wdr s i).
Proof. intros. apply (RegFile.regfile_value_in_bits 256 32); [apply Hw | done]. Qed.

Lemma gpr_bits i : 0 ≤ i < 32 → in_bits 32 (gpr s i).
Proof. intros. apply GPRs.gprs_value_in_bits; [apply Hw | done]. Qed.

Lemma wdr_write_eq i v :
  0 ≤ i < 32 → in_bits 256 v →
  ∃ w, wdr_write i v s = Ok ((), set_wdrs w s) ∧
    ∀ j, 0 ≤ j → RegFile.next_value w j = if decide (j = i) then v else next_wdr s j.
Proof.
  intros Hi Hv. unfold wdr_write, on_wdrs, zoom.
  destruct (RegFile.regfile_write_unsigned_ok 256 32 ltac:(lia) i v (s_wdrs s))
    as (w & -> & _ & _ & _ & Hn); [apply Hw | done | done |]. by exists w.
Qed.
End accesses.

Lemma set_flags_eq fg v s :
  0 ≤ fg ≤ 1 →
  ∃ c, set_flags fg v s = Ok ((), set_csrs c s) ∧
    ∀ k, 0 ≤ k ≤ 1 → next_flags (set_csrs c s) k = if decide (k = fg) then v else next_flags s k.
Proof.
  intros Hfg. unfold set_flags, FlagGroups.setitem. zbool. cbn [py_assert mbind res_bind].
  eexists. split; [done |]. intros k Hk. unfold next_flags. cbn.
  destruct (Z.eqb_spec fg 0), (Z.eqb_spec k 0); repeat case_decide; try lia; done.
Qed.

Lemma get_flags_eq fg s :
  0 ≤ fg ≤ 1 → ∃ f, get_flags fg s = Ok (f, s) ∧ fr_vals f = flags s fg.
Proof.
  intros Hfg. unfold get_flags, FlagGroups.getitem. zbool. by eexists.
Qed.

(** * Base arithmetic *)

(** The two's complement reading of a 32-bit value. *)
Definition signed32 (v : Z) : Z := if v <? 2 ^ 31 then v else v - 2 ^ 32.

(** The destination and the result of a base ALU instruction, as a function of
    the register contents. *)
Definition alu_spec (g : Z → Z) (i : insn) : option (Z * Z) :=
  match i with
  | ADD d a b => Some (d, (g a + g b) `mod` 2 ^ 32)
  | ADDI d a imm => Some (d, (g a + imm) `mod` 2 ^ 32)
  | LUI d imm => Some (d, imm * 2 ^ 12)
  | SUB d a b => Some (d, (g a - g b) `mod` 2 ^ 32)
  | SLL d a b => Some (d, (g a * 2 ^ (g b `mod` 32)) `mod` 2 ^ 32)
  | SLLI d a sh => Some (d, (g a * 2 ^ sh) `mod` 2 ^ 32)
  | SRL d a b => Some (d, g a / 2 ^ (g b `mod` 32))
  | SRLI d a sh => Some (d, g a / 2 ^ sh)
  | SRA d a b => Some (d, (signed32 (g a) / 2 ^ (g b `mod` 32)) `mod` 2 ^ 32)
  | SRAI d a sh => Some (d, (signed32 (g a) / 2 ^ sh) `mod` 2 ^ 32)
  | AND d a b => Some (d, Z.land (g a) (g b))
  | ANDI d a imm => Some (d, Z.land (g a) (imm `mod` 2 ^ 32))
  | OR d a b => Some (d, Z.lor (g a) (g b))
  | ORI d a imm => Some (d, Z.lor (g a) (imm `mod` 2 ^ 32))
  | XOR d a b => Some (d, Z.lxor (g a) (g b))
  | XORI d a imm => Some (d, Z.lxor (g a) (imm `mod` 2 ^ 32))
  | _ => None
  end.

(** [m] returns, and all it stages in the GPRs is [v] for register [d]. *)
Definition stages_gpr (s : OTBNState) (m : M OTBNState ()) (d v : Z) : Prop :=
  ∃ s', m s = Ok ((), s') ∧
    ∀ j, 0 ≤ j → next_gpr s' j = if decide (j = d) then v else next_gpr s j.

Lemma bind_step {A B} (c : M OTBNState A) (k : A → M OTBNState B) s a s' :
  c s = Ok (a, s') → (c ≫= k) s = k a s'.
Proof. intros E. unfold mbind, M_bind. by rewrite E. Qed.

Section alu.
Context (s : OTBNState) (Hw : wf s).

(** Read one register, then go on. *)
Lemma stages_read1 a (k : Z → M OTBNState ()) d v :
  0 ≤ a < 32 →
  (∀ g, wf (set_gprs g s) → gp_file g = gp_file (s_gprs s) →
     (∀ j, gpr (set_gprs g s) j = gpr s j) → stages_gpr (set_gprs g s) (k (gpr s a)) d v) →
  stages_gpr s (x ← gpr_read a; k x) d v.
Proof.
  intros Ha Hk. destruct (gpr_read_eq s Hw a Ha) as (g & E & Hg & Hf & Hv).
  destruct (Hk g Hg Hf Hv) as (s' & E' & Hn). exists s'.
  erewrite bind_step by exact E. split; [done |]. intros j Hj. rewrite Hn by done.
  unfold next_gpr. cbn. by rewrite Hf.
Qed.

Lemma stages_write d v :
  2 ≤ d < 32 → in_bits 32 v → stages_gpr s (gpr_write d v) d v.
Proof. intros. by apply gpr_write_eq. Qed.
End alu.

Lemma stages_rr s (Hw : wf s) a b d (f : Z → Z → Z) :
  0 ≤ a < 32 → 0 ≤ b < 32 → 2 ≤ d < 32 → in_bits 32 (f (gpr s a) (gpr s b)) →
  stages_gpr s (x ← gpr_read a; y ← gpr_read b; gpr_write d (f x y)) d (f (gpr s a) (gpr s b)).
Proof.
  intros Ha Hb Hd Hf. apply stages_read1; [done .. |]. intros g Hg _ Hv.
  apply stages_read1; [done .. |]. intros g' Hg' _ _. rewrite Hv. by apply stages_write.
Qed.

Lemma stages_ri s (Hw : wf s) a d (f : Z → Z) :
  0 ≤ a < 32 → 2 ≤ d < 32 → in_bits 32 (f (gpr s a)) →
  stages_gpr s (x ← gpr_read a; gpr_write d (f x)) d (f (gpr s a)).
Proof.
  intros Ha Hd Hf. apply stages_read1; [done .. |]. intros g Hg _ _. by apply stages_write.
Qed.

(** An operation with a sign-extended immediate. *)
Lemma stages_imm s (Hw : wf s) a d imm (f : Z → Z → Z) :
  0 ≤ a < 32 → 2 ≤ d < 32 → - 2048 ≤ imm ≤ 2047 →
  in_bits 32 (f (gpr s a) (imm `mod` 2 ^ 32)) →
  stages_gpr s (x ← gpr_read a; y ← lift (to_2s_complement imm); gpr_write d (f x y))
    d (f (gpr s a) (imm `mod` 2 ^ 32)).
Proof.
  intros Ha Hd Hi Hf. apply stages_read1; [done .. |]. intros g Hg _ _.
  destruct (stages_write _ Hg d _ Hd Hf) as (s' & E & Hn). exists s'. split; [| done].
  erewrite bind_step; [exact E |]. unfold lift. by rewrite to_2s_complement_ok by lia.
Qed.

Lemma signed32_eq v : in_bits 32 v → Reg.to_signed 32 v = signed32 v.
Proof. intros. by apply (Reg.to_signed_eq 32). Qed.

(** An arithmetic right shift by a register or an immediate. *)
Lemma stages_sra s (Hw : wf s) a d (k : Z → M OTBNState ()) n :
  0 ≤ a < 32 → 0 ≤ n →
  (∀ g, wf (set_gprs g s) → gp_file g = gp_file (s_gprs s) → (∀ j, gpr (set_gprs g s) j = gpr s j) →
     stages_gpr (set_gprs g s) (k (signed32 (gpr s a))) d ((signed32 (gpr s a) / 2 ^ n) `mod` 2 ^ 32)) →
  stages_gpr s (x ← gpr_read_signed a; k x) d ((signed32 (gpr s a) / 2 ^ n) `mod` 2 ^ 32).
Proof.
  intros Ha Hn Hk.
  assert (E : ∀ t, (x ← gpr_read_signed a; k x) t
    = (x ← gpr_read a; k (Reg.to_signed 32 x)) t).
  { intros t. unfold gpr_read_signed, gpr_read, on_gprs, zoom, GPRs.read_signed, mbind, M_bind.
    by destruct (GPRs.read_unsigned a (s_gprs t)) as [[? ?] |]. }
  destruct (stages_read1 s Hw a (fun x => k (Reg.to_signed 32 x)) d
    ((signed32 (gpr s a) / 2 ^ n) `mod` 2 ^ 32) Ha) as (s' & E' & H).
  - intros g Hg Hf Hv. rewrite signed32_eq by (by apply gpr_bits). by apply Hk.
  - exists s'. by rewrite E.
Qed.

Lemma stages_write_signed s (Hw : wf s) d x n :
  2 ≤ d < 32 → 0 ≤ n → - 2 ^ 31 ≤ x < 2 ^ 31 →
  stages_gpr s (gpr_write_signed d (x ≫ n)) d ((x / 2 ^ n) `mod` 2 ^ 32).
Proof.
  intros Hd Hn Hx. pose proof (shiftr_range x n (- 2 ^ 31) (2 ^ 31) ltac:(lia) Hn Hx) as Hr.
  rewrite <- Z.shiftr_div_pow2 by done.
  destruct (Reg.of_signed_ok 32 (x ≫ n)) as [E Hb]; [lia | done |].
  destruct (stages_write s Hw d _ Hd Hb) as (s' & E' & H). exists s'. split; [| done].
  rewrite <- E'. unfold gpr_write_signed, gpr_write, on_gprs, zoom, GPRs.write_signed, lift, mbind, M_bind.
  by rewrite E.
Qed.

Lemma signed32_range v : in_bits 32 v → - 2 ^ 31 ≤ signed32 v < 2 ^ 31.
Proof. intros []. unfold signed32. zcase. Qed.

Lemma land_1f v : v .& 0x1f = v `mod` 32.
Proof. by apply (land_mask v 5). Qed.

Lemma mod32_pos v : 0 ≤ v `mod` 32.
Proof. apply Z.mod_pos_bound. lia. Qed.
#[export] Hint Resolve mod32_pos gpr_bits : otbn.
#[export] Hint Extern 1 (_ ≤ _ ∧ _ ≤ _) => lia : otbn.
#[export] Hint Extern 1 (_ ≤ _ ∧ _ < _) => lia : otbn.

Lemma alu_ok i d v s :
  wf s → valid i = true → alu_spec (gpr s) i = Some (d, v) → 2 ≤ d →
  stages_gpr s (execute i) d v.
Proof.
  intros Hw Hv Hs Hd.
  assert (Hb : ∀ a, 0 ≤ a ≤ 31 → in_bits 32 (gpr s a)) by (intros; apply gpr_bits; [done | lia]).
  assert (Hm : ∀ x, in_bits 32 (x `mod` 2 ^ 32)) by (intros; by apply Z.mod_pos_bound).
  destruct i; try done; cbn [alu_spec execute valid] in *; ranges; injection Hs as <- <-;
    autounfold with insn; cbv zeta.
  - rewrite <- land_mask by lia. apply (stages_rr s Hw grs1 grs2 grd (fun x y => (x + y) .& mask 32)); bounds.
  - rewrite <- land_mask by lia. apply (stages_ri s Hw grs1 grd (fun x => (x + imm) .& mask 32)); bounds.
  - rewrite <- Z.shiftl_mul_pow2 by lia. apply stages_write; bounds.
  - rewrite <- land_mask by lia. apply (stages_rr s Hw grs1 grs2 grd (fun x y => (x - y) .& mask 32)); bounds.
  - rewrite <- Z.shiftl_mul_pow2, <- land_mask, <- land_1f by bounds.
    apply (stages_rr s Hw grs1 grs2 grd (fun x y => (x ≪ (y .& 31)) .& mask 32)); bounds.
  - rewrite <- Z.shiftl_mul_pow2, <- land_mask by lia.
    apply (stages_ri s Hw grs1 grd (fun x => (x ≪ shamt) .& mask 32)); bounds.
  - rewrite <- Z.shiftr_div_pow2, <- land_1f by bounds.
    apply (stages_rr s Hw grs1 grs2 grd (fun x y => x ≫ (y .& 31))); bounds.
  - rewrite <- Z.shiftr_div_pow2 by lia.
    apply (stages_ri s Hw grs1 grd (fun x => x ≫ shamt)); bounds.
  - apply stages_sra; [done | lia | bounds |]. intros g Hg _ Hv.
    apply stages_read1; [done | lia |]. intros g' Hg' _ _. rewrite Hv, land_1f.
    apply stages_write_signed; [done | lia | bounds | apply signed32_range; bounds].
  - apply stages_sra; [done | lia | bounds |]. intros g Hg _ _.
    apply stages_write_signed; [done | lia | bounds | apply signed32_range; bounds].
  - apply (stages_rr s Hw grs1 grs2 grd Z.land); bounds.
  - apply (stages_imm s Hw grs1 grd imm Z.land); bounds.
  - apply (stages_rr s Hw grs1 grs2 grd Z.lor); bounds.
  - apply (stages_imm s Hw grs1 grd imm Z.lor); bounds.
  - apply (stages_rr s Hw grs1 grs2 grd Z.lxor); bounds.
  - apply (stages_imm s Hw grs1 grd imm Z.lxor); bounds.
Qed.

(** * Big number arithmetic *)

(** The M, L and Z flags of a 256-bit result. *)
Definition mlz (C : bool) (r : Z) : flag_vals :=
  mkFlags C (2 ^ 255 <=? r) (Z.odd r) (r =? 0).

(** A 256-bit value shifted by whole bytes, left for type 0 and right for 1. *)
Definition shifted (v st sb : Z) : Z :=
  if st =? 0 then (v * 2 ^ (8 * sb)) `mod` 2 ^ 256 else v / 2 ^ (8 * sb).

Definition flag_at (f : flag_vals) (k : Z) : bool :=
  if k =? 0 then fC f else if k =? 1 then fM f else if k =? 2 then fL f else fZ f.

(** The destination with its result, and the flag group with its new flags. *)
Definition bn_result : Type := option (Z * Z) * option (Z * flag_vals).

(** An addition or subtraction with its full result before truncation. *)
Definition additive (d fg full : Z) : bn_result :=
  (Some (d, full `mod` 2 ^ 256),
   Some (fg, mlz ((full <? 0) || (2 ^ 256 <=? full)) (full `mod` 2 ^ 256))).

Definition logical (d fg : Z) (C : bool) (r : Z) : bn_result :=
  (Some (d, r), Some (fg, mlz C r)).

Definition bn_spec (w : Z → Z) (fl : Z → flag_vals) (md : Z) (i : insn) : option bn_result :=
  let carry fg := Z_of_bool (fC (fl fg)) in
  match i with
  | BNADD d a b st sb fg => Some (additive d fg (w a + shifted (w b) st sb))
  | BNADDC d a b st sb fg => Some (additive d fg (w a + shifted (w b) st sb + carry fg))
  | BNADDI d a imm fg => Some (additive d fg (w a + imm))
  | BNSUB d a b st sb fg => Some (additive d fg (w a - shifted (w b) st sb))
  | BNSUBB d a b st sb fg => Some (additive d fg (w a - shifted (w b) st sb - carry fg))
  | BNSUBI d a imm fg => Some (additive d fg (w a - imm))
  | BNCMP a b st sb fg => Some (None, snd (additive 0 fg (w a - shifted (w b) st sb)))
  | BNCMPB a b st sb fg => Some (None, snd (additive 0 fg (w a - shifted (w b) st sb - carry fg)))
  | BNAND d a b st sb fg => Some (logical d fg (fC (fl fg)) (Z.land (w a) (shifted (w b) st sb)))
  | BNOR d a b st sb fg => Some (logical d fg (fC (fl fg)) (Z.lor (w a) (shifted (w b) st sb)))
  | BNXOR d a b st sb fg => Some (logical d fg (fC (fl fg)) (Z.lxor (w a) (shifted (w b) st sb)))
  | BNNOT d a st sb fg => Some (logical d fg (fC (fl fg)) (2 ^ 256 - 1 - shifted (w a) st sb))
  | BNADDM d a b =>
      let x := w a + w b in
      Some (Some (d, (if md <=? x then x - md else x) `mod` 2 ^ 256), None)
  | BNSUBM d a b =>
      let x := w a - w b in
      Some (Some (d, (if x <? 0 then x + md else x) `mod` 2 ^ 256), None)
  | BNRSHI d a b imm => Some (Some (d, ((w a * 2 ^ 256 + w b) / 2 ^ imm) `mod` 2 ^ 256), None)
  | BNSEL d a b fg k => Some (Some (d, if flag_at (fl fg) k then w a else w b), None)
  | BNMOV d a => Some (Some (d, w a), None)
  | _ => None
  end.

(** [m] returns, and all it stages in the WDRs and the flags is [r]. *)
Definition stages_bn (s : OTBNState) (m : M OTBNState ()) (r : bn_result) : Prop :=
  ∃ s', m s = Ok ((), s') ∧
    (∀ j, 0 ≤ j → next_wdr s' j =
       match fst r with
       | Some (d, v) => if decide (j = d) then v else next_wdr s j
       | None => next_wdr s j
       end) ∧
    (∀ k, 0 ≤ k ≤ 1 → next_flags s' k =
       match snd r with
       | Some (fg, f) => if decide (k = fg) then f else next_flags s k
       | None => next_flags s k
       end).

(** ** Truncation and flags *)

Lemma mlz_for_result_eq C r : in_bits 256 r → FlagReg.mlz_for_result C r = mlz C r.
Proof.
  intros [? ?]. unfold FlagReg.mlz_for_result, mlz. f_equal.
  - rewrite truthy_bit by lia. rewrite <- (Z.mod_small r (2 ^ 256)) at 1 by lia.
    destruct (Z.leb_spec (2 ^ 255) r).
    + rewrite Z.mod_small by lia. rewrite Z.testbit_true by lia.
      assert (r / 2 ^ 255 = 1) as -> by (symmetry; apply (Z.div_unique r (2 ^ 255) 1 (r - 2 ^ 255)); lia).
      done.
    + rewrite Z.mod_small by lia. by apply (testbit_in_bits 255); [split |].
  - by rewrite truthy_bit0, Z.bit0_odd.
Qed.

Lemma masked_and_flags_eq full :
  - 2 ^ 256 ≤ full < 2 * 2 ^ 256 →
  masked_and_flags full =
    (full `mod` 2 ^ 256, mlz ((full <? 0) || (2 ^ 256 <=? full)) (full `mod` 2 ^ 256)).
Proof.
  intros Hf. unfold masked_and_flags. rewrite land_mask by lia.
  assert (Hb : in_bits 256 (full `mod` 2 ^ 256)) by (by apply Z.mod_pos_bound).
  rewrite mlz_for_result_eq by done. do 2 f_equal.
  rewrite truthy_bit by lia. rewrite <- (Z.add_0_l 256) at 1.
  rewrite <- testbit_shiftr, Z.bit0_odd, Z.shiftr_div_pow2 by lia.
  destruct (Z.ltb_spec full 0).
  - by rewrite <- (Z.div_unique full (2 ^ 256) (-1) (full + 2 ^ 256)) by lia.
  - destruct (Z.leb_spec (2 ^ 256) full).
    + by rewrite <- (Z.div_unique full (2 ^ 256) 1 (full - 2 ^ 256)) by lia.
    + by rewrite Z.div_small by lia.
Qed.

Lemma not_eq v : in_bits 256 v → v .^ mask 256 = 2 ^ 256 - 1 - v.
Proof.
  intros Hv.
  assert (E : v + (v .^ mask 256) = mask 256).
  { rewrite Z.add_nocarry_lxor.
    - bitwise i. by destruct (Z.testbit v i), ((0 <=? i) && (i <? 256)).
    - bitwise i. destruct (Z.ltb_spec i 256); [zbool; bits_cases |].
      by rewrite (testbit_in_bits 256 v i) by (done || lia). }
  change (mask 256) with (2 ^ 256 - 1) in *. lia.
Qed.

Lemma concat_eq a b : 0 ≤ a → in_bits 256 b → (a ≪ 256) .| b = a * 2 ^ 256 + b.
Proof.
  intros Ha Hb. rewrite <- Z.shiftl_mul_pow2 by lia.
  pose proof (Z.add_lor_land (a ≪ 256) b) as E.
  assert (E0 : (a ≪ 256) .& b = 0); [| lia]. bitwise i.
  destruct (Z.ltb_spec i 256).
  - by rewrite (testbit_neg a) by lia.
  - rewrite (testbit_in_bits 256 b) by (done || lia). by rewrite andb_false_r.
Qed.

(** ** Building blocks *)

Section bn.
Context (s : OTBNState) (Hw : wf s).

Lemma stages_bn_bind {A} (c : M OTBNState A) (k : A → M OTBNState ()) a r :
  c s = Ok (a, s) → stages_bn s (k a) r → stages_bn s (c ≫= k) r.
Proof. intros E H. unfold stages_bn in *. by erewrite bind_step by exact E. Qed.

Lemma shift_eq v st sb :
  in_bits 256 v → 0 ≤ st ≤ 1 → 0 ≤ sb →
  lift (logical_byte_shift v st sb) s = Ok (shifted v st sb, s).
Proof.
  intros Hv Hst Hsb. destruct (logical_byte_shift_ok v st sb) as (r & E & _ & ->); [done .. |].
  unfold lift. by rewrite E.
Qed.

Lemma stages_wdr d v :
  0 ≤ d < 32 → in_bits 256 v → stages_bn s (wdr_write d v) (Some (d, v), None).
Proof.
  intros Hd Hv. destruct (wdr_write_eq s Hw d v Hd Hv) as (w & E & Hn).
  exists (set_wdrs w s). split; [done |]. split; [done | done].
Qed.

Lemma stages_flags fg f :
  0 ≤ fg ≤ 1 → stages_bn s (set_flags fg f) (None, Some (fg, f)).
Proof.
  intros Hfg. destruct (set_flags_eq fg f s Hfg) as (c & E & Hn).
  exists (set_csrs c s). split; [done |]. split; [done | done].
Qed.

Lemma stages_wdr_flags d v fg f :
  0 ≤ d < 32 → in_bits 256 v → 0 ≤ fg ≤ 1 →
  stages_bn s (wdr_write d v;; set_flags fg f) (Some (d, v), Some (fg, f)).
Proof.
  intros Hd Hv Hfg. destruct (wdr_write_eq s Hw d v Hd Hv) as (w & E & Hn).
  destruct (set_flags_eq fg f (set_wdrs w s) Hfg) as (c & E' & Hn').
  exists (set_csrs c (set_wdrs w s)). split; [by erewrite bind_step by exact E |].
  split; [done | done].
Qed.

Lemma stages_mlz d v fg :
  0 ≤ d < 32 → in_bits 256 v → 0 ≤ fg ≤ 1 →
  stages_bn s (wdr_write d v;; set_mlz_flags fg v) (logical d fg (fC (flags s fg)) v).
Proof.
  intros Hd Hv Hfg.
  destruct (stages_wdr_flags d v fg (mlz (fC (flags s fg)) v) Hd Hv Hfg) as (s' & E & Hn).
  exists s'. split; [| done]. rewrite <- E.
  destruct (wdr_write_eq s Hw d v Hd Hv) as (w & E1 & _).
  erewrite !bind_step by exact E1. unfold set_mlz_flags.
  destruct (get_flags_eq fg (set_wdrs w s) Hfg) as (f & E2 & Hf).
  erewrite bind_step by exact E2. by rewrite Hf, mlz_for_result_eq.
Qed.

Lemma shifted_bits v st sb : in_bits 256 v → 0 ≤ st ≤ 1 → 0 ≤ sb → in_bits 256 (shifted v st sb).
Proof.
  intros. destruct (logical_byte_shift_ok v st sb) as (r & _ & ? & ->); done.
Qed.

(** The tail of an addition or subtraction. *)
Lemma stages_additive d fg full :
  0 ≤ d < 32 → 0 ≤ fg ≤ 1 → - 2 ^ 256 ≤ full < 2 * 2 ^ 256 →
  stages_bn s (let '(r, f) := masked_and_flags full in wdr_write d r;; set_flags fg f)
    (additive d fg full).
Proof.
  intros. rewrite masked_and_flags_eq by done. apply stages_wdr_flags; [done | | done].
  by apply Z.mod_pos_bound.
Qed.

Lemma stages_compare fg full :
  0 ≤ fg ≤ 1 → - 2 ^ 256 ≤ full < 2 * 2 ^ 256 →
  stages_bn s (let '(_, f) := masked_and_flags full in set_flags fg f)
    (None, snd (additive 0 fg full)).
Proof. intros. rewrite masked_and_flags_eq by done. by apply stages_flags. Qed.
End bn.

Lemma carry_range f : 0 ≤ Z_of_bool f ≤ 1.
Proof. by destruct f. Qed.

Lemma get_by_idx_eq k f :
  0 ≤ k ≤ 3 → FlagReg.get_by_idx k f = Ok (flag_at (fr_vals f) k).
Proof.
  intros. assert (k = 0 ∨ k = 1 ∨ k = 2 ∨ k = 3) as [-> | [-> | [-> | ->]]] by lia; done.
Qed.

(** Run the reads and the shift at the front of a big number instruction. *)
Ltac bn_front :=
  repeat match goal with
  | |- stages_bn _ (wdr_read _ ≫= _) _ => eapply stages_bn_bind; [apply wdr_read_eq; [done | lia] |]
  | |- stages_bn _ (lift (logical_byte_shift _ _ _) ≫= _) _ =>
      eapply stages_bn_bind; [apply shift_eq; first [apply wdr_bits; first [done | lia] | lia] |]
  | |- stages_bn ?s (get_flags ?fg ≫= _) _ =>
      let f := fresh "f" in let E := fresh "E" in let Hf := fresh "Hf" in
      destruct (get_flags_eq fg s ltac:(lia)) as (f & E & Hf);
      eapply stages_bn_bind; [exact E |]; clear E; rewrite Hf
  | |- stages_bn _ (gets _ ≫= _) _ => eapply stages_bn_bind; [done |]
  end; cbv zeta.

(** The full result of an addition or subtraction is in range. *)
Ltac bn_range Hb Hsh Hcr :=
  repeat match goal with
  | |- context [shifted (wdr ?s ?a) ?st ?sb] =>
      let H := fresh in pose proof (Hsh a st sb ltac:(lia) ltac:(lia) ltac:(lia)) as H;
      generalize dependent (shifted (wdr s a) st sb); intros
  | |- context [wdr ?s ?a] =>
      let H := fresh in pose proof (Hb a ltac:(lia)) as H;
      generalize dependent (wdr s a); intros
  | |- context [Z_of_bool (fC (flags ?s ?fg))] =>
      let H := fresh in pose proof (Hcr fg) as H;
      generalize dependent (Z_of_bool (fC (flags s fg))); intros
  end; unfold in_bits in *; lia.

Lemma bn_ok i r s :
  wf s → valid i = true → bn_spec (wdr s) (flags s) (mod_val s) i = Some r →
  stages_bn s (execute i) r.
Proof.
  intros Hw Hv Hs.
  assert (Hb : ∀ a, 0 ≤ a ≤ 31 → in_bits 256 (wdr s a)) by (intros; apply wdr_bits; [done | lia]).
  assert (Hsh : ∀ a st sb, 0 ≤ a ≤ 31 → 0 ≤ st ≤ 1 → 0 ≤ sb → in_bits 256 (shifted (wdr s a) st sb))
    by (intros; apply shifted_bits; [by apply Hb | done | done]).
  pose proof (fun fg => carry_range (fC (flags s fg))) as Hcr.
  destruct i; try done; cbn [bn_spec execute valid] in *; ranges; injection Hs as <-;
    unfold BNADD_execute, BNADDC_execute, BNADDI_execute, BNADDM_execute, BNSUB_execute,
      BNSUBB_execute, BNSUBI_execute, BNSUBM_execute, BNAND_execute, BNOR_execute, BNNOT_execute,
      BNXOR_execute, BNRSHI_execute, BNSEL_execute, BNCMP_execute, BNCMPB_execute, BNMOV_execute;
    bn_front.
  all: try solve [apply stages_mlz; [done | lia | eauto 6 with otbn | lia]].
  all: try solve [first [apply stages_additive; [done | lia | lia |]
                        | apply stages_compare; [lia |]]; bn_range Hb Hsh Hcr].
  all: try solve [apply stages_wdr; [done | lia | apply Hb; lia]].
  all: try solve [rewrite land_mask by lia; apply stages_wdr; [done | lia | by apply Z.mod_pos_bound]].
  - rewrite <- not_eq by (apply Hsh; lia). apply stages_mlz; [done | lia | | lia].
    apply lxor_mask_bits; [lia | apply Hsh; lia].
  - rewrite land_mask, Z.shiftr_div_pow2, concat_eq by first [lia | apply Hb; lia].
    apply stages_wdr; [done | lia | by apply Z.mod_pos_bound].
  - destruct (get_flags_eq flag_group s) as (f & E & Hf); [lia |].
    eapply stages_bn_bind; [exact E |]. rewrite <- Hf.
    eapply stages_bn_bind; [unfold lift; by rewrite get_by_idx_eq by lia |].
    destruct (flag_at (fr_vals f) flag);
      (eapply stages_bn_bind; [apply wdr_read_eq; [done | lia] |]);
      apply stages_wdr; [done | lia | apply Hb; lia | done | lia | apply Hb; lia].
Qed.

(** ** Multiply-accumulate *)

Definition quarter (v q : Z) : Z := (v / 2 ^ (64 * q)) `mod` 2 ^ 64.

(** The accumulator after one multiply-accumulate. *)
Definition mulqacc_spec (w : Z → Z) (acc z a qa b qb sh : Z) : Z :=
  ((if truthy z then 0 else acc) + quarter (w a) qa * quarter (w b) qb * 2 ^ sh) `mod` 2 ^ 256.

Lemma mulqacc_eq z a qa b qb sh s :
  wf s → 0 ≤ a < 32 → 0 ≤ b < 32 → 0 ≤ qa ≤ 3 → 0 ≤ qb ≤ 3 → 0 ≤ sh →
  mulqacc z a qa b qb sh s = Ok (mulqacc_spec (wdr s) (acc_val s) z a qa b qb sh, s).
Proof.
  intros Hw Ha Hb Hqa Hqb Hsh. unfold mulqacc.
  erewrite bind_step by (by apply wdr_read_eq). erewrite bind_step by (by apply wdr_read_eq).
  destruct (extract_quarter_word_ok (wdr s a) qa) as (x & Ex & _ & Hx); [by apply wdr_bits | done |].
  destruct (extract_quarter_word_ok (wdr s b) qb) as (y & Ey & _ & Hy); [by apply wdr_bits | done |].
  erewrite bind_step by (unfold lift; by rewrite Ex).
  erewrite bind_step by (unfold lift; by rewrite Ey).
  erewrite bind_step by done. unfold mulqacc_spec, quarter. rewrite <- Hx, <- Hy.
  by rewrite land_mask, Z.shiftl_mul_pow2 by lia.
Qed.

Lemma write_ACC_eq v s :
  in_bits 256 v → ∃ s', on_wsrs (WSRFile.write_ACC v) s = Ok ((), s') ∧ next_acc s' = v ∧
    s_wdrs s' = s_wdrs s ∧ s_csrs s' = s_csrs s.
Proof.
  intros Hv. unfold on_wsrs, zoom, WSRFile.write_ACC, DumbWSR.write_unsigned.
  rewrite (proj2 (fits_spec 256 v ltac:(lia)) Hv : _ && _ = true). by eexists.
Qed.

(** * Commit *)

(** The staged values are what the commit leaves. *)
Record takes_effect (s s' : OTBNState) : Prop := {
  te_gpr : ∀ j, 2 ≤ j → gpr s' j = next_gpr s j;
  te_wdr : ∀ j, wdr s' j = next_wdr s j;
  te_flags : ∀ k, flags s' k = next_flags s k;
  te_acc : acc_val s' = next_acc s;
  te_data : dm_data (s_dmem s') = Dmem.written (s_dmem s)
}.

Lemma regfile_commit_value rf j :
  RegFile.value (mkRegFile (rf_name_pfx rf) (rf_width rf) (Reg.commit <$> rf_registers rf) ∅) j
  = RegFile.next_value rf j.
Proof.
  unfold RegFile.value, RegFile.next_value. cbn. rewrite list_lookup_fmap.
  by destruct (rf_registers rf !! Z.to_nat j).
Qed.

Lemma committed_takes_effect r d l s :
  wf s → takes_effect s (committed (WSRFile.set_RND r (s_wsrs s)) l (set_new_rnd_data d s)).
Proof.
  intros Hw. split.
  - intros j Hj. unfold gpr, next_gpr, GPRs.value. cbn.
    rewrite (proj2 (Z.eqb_neq j 0)), (proj2 (Z.eqb_neq j 1)) by lia.
    apply (regfile_commit_value (gp_file (s_gprs s)) j).
  - intros j. apply (regfile_commit_value (s_wdrs s) j).
  - intros k. unfold flags, next_flags. cbn. rewrite FlagGroups.flags_commit_eq by apply Hw.
    by destruct (k =? 0).
  - done.
  - done.
Qed.

(** In a clean state the staged values are the current ones. *)
Lemma clean_next s :
  wf s → clean s → (∀ j, 2 ≤ j → next_gpr s j = gpr s j) ∧ (∀ j, next_wdr s j = wdr s j) ∧
    (∀ k, next_flags s k = flags s k).
Proof.
  intros Hw Hc.
  assert (H : ∀ n w rf j, RegFile.wf w n rf → rf_pending_writes rf = ∅ →
    RegFile.next_value rf j = RegFile.value rf j).
  { intros n w rf j Hrf Hp. unfold RegFile.next_value, RegFile.value.
    destruct (rf_registers rf !! Z.to_nat j) as [r |] eqn:E; [| done]. cbn.
    rewrite (RegFile.wf_clean _ _ _ Hrf _ _ E); [done |]. rewrite Hp. set_solver. }
  split; [| split].
  - intros j Hj. unfold gpr, GPRs.value.
    rewrite (proj2 (Z.eqb_neq j 0)), (proj2 (Z.eqb_neq j 1)) by lia.
    apply (H 32 32); [apply Hw | apply Hc].
  - intros j. apply (H 32 256); [apply Hw | apply Hc].
  - intros k. unfold next_flags, flags. destruct (cl_flags _ Hc) as [E0 E1].
    destruct (k =? 0); [by rewrite E0 | by rewrite E1].
Qed.

(** What the commit of a retired instruction leaves is what [execute] staged. *)
Lemma retire_values i s s1 s2 s3 s4 :
  ready s → s_non_insn_stall s = false → valid i = true → rnd_ready i s →
  phases i s s1 s2 s3 → s_pending_halt s3 = false → commit false s3 = Ok ((), s4) →
  takes_effect s2 s4 ∧ s_pc s4 = get_next_pc s3 ∧ wf s1 ∧ same_staged s s1 ∧ same_arch s s1 ∧
  LoopStack.commit (s_loop_stack s3) = Ok (s_loop_stack s4) ∧ s_non_insn_stall s4 = false.
Proof.
  intros Hr Hn Hv Hrnd (E1 & E2 & E3) Hh Ec.
  pose proof Hr as [Hw Hcl _ _ Hu Hst Hrun].
  destruct (phases_ok i s Hw (cl_next_pc _ Hcl) Hv Hrnd)
    as (s1' & s2' & s3' & (E1' & E2' & E3') & Hw3 & Hs3 & Hcm).
  rewrite E1 in E1'. injection E1' as <-. rewrite E2 in E2'. injection E2' as <-.
  rewrite E3 in E3'. injection E3' as <-.
  destruct (pre_insn_ok (affects_control i) s Hw) as (l & E1' & Hw1 & Hs1 & _).
  rewrite E1 in E1'. injection E1' as ->.
  destruct (execute_safe (set_loop_stack l s) i) with (s := set_loop_stack l s)
    as (u & s2' & E2' & [Hw2 _] & _); [done | by destruct i | by split |].
  rewrite E2 in E2'. injection E2' as <- <-.
  destruct (post_insn_ok s2 Hw2) as (r & l' & s3' & _ & E3' & _ & _ & Hss & _).
  rewrite E3 in E3'. injection E3' as <-.
  destruct (same_stalls _ _ _ Hs3) as (En & Es & Eu).
  destruct (commit_ok s3) as (r' & d & l'' & El & Ec' & _); [done | by apply Hcm | done | | | | |].
  { rewrite Eu. destruct (s_urnd_stall s); [| done]. rewrite Hst in Hu. naive_solver. }
  { congruence. } { congruence. } { by rewrite (same_running _ _ _ Hs3). }
  rewrite Ec in Ec'. injection Ec' as ->.
  split; [| split; [done |]; split; [done |]; split; [done |];
    split; [by eapply same_same_arch |]; split; [done | cbn; congruence]].
  pose proof (committed_takes_effect r' d l'' s3 Hw3) as [T1 T2 T3 T4 T5].
  destruct Hss as [Hf _ Hwd Hws Hcs Hd].
  split; [intros j Hj; rewrite T1 by done | intros j; rewrite T2 | intros k; rewrite T3
         | rewrite T4 | rewrite T5];
    unfold next_gpr, next_wdr, next_flags, next_acc, acc_val; by rewrite ?Hf, ?Hwd, ?Hws, ?Hcs, ?Hd.
Qed.
