(* ===== verification/Stats.v ===== *)
(** Execution statistics (otbnsim/sim/stats.py, class ExecutionStats): what the
    simulator records after each instruction and before its commit.  The
    analyzer that renders them as text is not modelled. *)

From S2P Require Import Prelude Trace Gpr LoopStack ExtRegs State Insn.

(** [insn.insn.mnemonic]; the class variable of [IllegalInsn] is the dummy
    instruction of isa.py. *)
Definition mnemonic (i : insn) : string :=
  match i with
  | ADD _ _ _ => "add"
  | ADDI _ _ _ => "addi"
  | LUI _ _ => "lui"
  | SUB _ _ _ => "sub"
  | SLL _ _ _ => "sll"
  | SLLI _ _ _ => "slli"
  | SRL _ _ _ => "srl"
  | SRLI _ _ _ => "srli"
  | SRA _ _ _ => "sra"
  | SRAI _ _ _ => "srai"
  | AND _ _ _ => "and"
  | ANDI _ _ _ => "andi"
  | OR _ _ _ => "or"
  | ORI _ _ _ => "ori"
  | XOR _ _ _ => "xor"
  | XORI _ _ _ => "xori"
  | LW _ _ _ => "lw"
  | SW _ _ _ => "sw"
  | BEQ _ _ _ => "beq"
  | BNE _ _ _ => "bne"
  | JAL _ _ => "jal"
  | JALR _ _ _ => "jalr"
  | CSRRS _ _ _ => "csrrs"
  | CSRRW _ _ _ => "csrrw"
  | ECALL => "ecall"
  | LOOP _ _ => "loop"
  | LOOPI _ _ => "loopi"
  | BNADD _ _ _ _ _ _ => "bn.add"
  | BNADDC _ _ _ _ _ _ => "bn.addc"
  | BNADDI _ _ _ _ => "bn.addi"
  | BNADDM _ _ _ => "bn.addm"
  | BNMULQACC _ _ _ _ _ _ => "bn.mulqacc"
  | BNMULQACCWO _ _ _ _ _ _ _ _ => "bn.mulqacc.wo"
  | BNMULQACCSO _ _ _ _ _ _ _ _ _ => "bn.mulqacc.so"
  | BNSUB _ _ _ _ _ _ => "bn.sub"
  | BNSUBB _ _ _ _ _ _ => "bn.subb"
  | BNSUBI _ _ _ _ => "bn.subi"
  | BNSUBM _ _ _ => "bn.subm"
  | BNAND _ _ _ _ _ _ => "bn.and"
  | BNOR _ _ _ _ _ _ => "bn.or"
  | BNNOT _ _ _ _ _ => "bn.not"
  | BNXOR _ _ _ _ _ _ => "bn.xor"
  | BNRSHI _ _ _ _ => "bn.rshi"
  | BNSEL _ _ _ _ _ => "bn.sel"
  | BNCMP _ _ _ _ _ => "bn.cmp"
  | BNCMPB _ _ _ _ _ => "bn.cmpb"
  | BNLID _ _ _ _ _ => "bn.lid"
  | BNSID _ _ _ _ _ => "bn.sid"
  | BNMOV _ _ => "bn.mov"
  | BNMOVR _ _ _ _ => "bn.movr"
  | BNWSRR _ _ => "bn.wsrr"
  | BNWSRW _ _ => "bn.wsrw"
  | IllegalInsn _ => "dummy-insn"
  end.

Record func_call := mkCall { call_site : Z; caller_func : Z; callee_func : Z }.
Record loop_rec := mkLoop { loop_addr : Z; loop_len : Z; loop_iterations : Z }.

Record ExecutionStats := mkStats {
  st_program : list insn;
  st_stall_count : Z;
  st_insn_histo : gmap string Z;
  st_func_calls : list func_call;
  st_loops : list loop_rec;
  st_basic_block_histo : gmap Z Z;
  st_ext_basic_block_histo : gmap Z Z;
  st_current_basic_block_len : Z;
  st_current_ext_basic_block_len : Z
}.

(** [counter[key] += 1] *)
Definition count `{Countable K} (k : K) (m : gmap K Z) : gmap K Z :=
  <[k := default 0 (m !! k) + 1]> m.

(** [sum(counter.values())] *)
Definition total `{Countable K} (m : gmap K Z) : Z := map_fold (fun _ v acc => v + acc) 0 m.

Module ExecutionStats.
Definition init (program : list insn) : ExecutionStats :=
  mkStats program 0 ∅ [] [] ∅ ∅ 0 0.

Definition get_insn_count (st : ExecutionStats) : Z := total (st_insn_histo st).

Definition record_stall (st : ExecutionStats) : ExecutionStats :=
  mkStats (st_program st) (st_stall_count st + 1) (st_insn_histo st) (st_func_calls st)
    (st_loops st) (st_basic_block_histo st) (st_ext_basic_block_histo st)
    (st_current_basic_block_len st) (st_current_ext_basic_block_len st).

Definition _insn_at_addr (addr : Z) (st : ExecutionStats) : res insn :=
  py_assert (addr `mod` 4 =? 0);;
  py_assert (0 <=? addr);;
  of_option IndexError (st_program st !! Z.to_nat (addr ≫ 2)).

Definition is_jump (i : insn) : bool :=
  match i with JAL _ _ | JALR _ _ _ => true | _ => false end.
Definition is_branch (i : insn) : bool :=
  match i with BEQ _ _ _ | BNE _ _ _ => true | _ => false end.
Definition is_ecall (i : insn) : bool := match i with ECALL => true | _ => false end.
Definition is_LOOP (i : insn) : bool := match i with LOOP _ _ => true | _ => false end.

(** The destination register of a jump. *)
Definition jump_grd (i : insn) : option Z :=
  match i with JAL d _ | JALR d _ _ => Some d | _ => None end.

(** The body size of a loop instruction. *)
Definition loop_bodysize (i : insn) : option Z :=
  match i with LOOP _ n | LOOPI _ n => Some n | _ => None end.

(** The part of [record_insn] that logs function calls. *)
Definition record_call (i : insn) (s : OTBNState) : res (list func_call) :=
  if bool_decide (jump_grd i = Some 1) then
    caller ← match OTBNState.peek_call_stack s with
             | c :: _ => Ok c
             | [] => OTBNState.get_start_addr s
             end;
    Ok [mkCall (s_pc s) caller (OTBNState.get_next_pc s)]
  else Ok [].

(** The part of [record_insn] that logs loops. *)
Definition record_loop (i : insn) (s : OTBNState) : res (list loop_rec) :=
  match loop_bodysize i with
  | Some n =>
      py_assert (OTBNState.in_loop s);;
      top ← of_option IndexError (head (ls_stack (s_loop_stack s)));
      Ok [mkLoop (s_pc s) n (ll_loop_count top)]
  | None => Ok []
  end.

(** Is this the last instruction of the body of a LOOP (not a LOOPI)? *)
Definition finishing_loop (s : OTBNState) (st : ExecutionStats) : res bool :=
  if LoopStack.is_last_insn_in_loop_body (s_pc s) (s_loop_stack s) then
    top ← of_option IndexError (head (ls_stack (s_loop_stack s)));
    a ← LoopLevel.get_loop_insn_addr top;
    i ← _insn_at_addr a st;
    Ok (is_LOOP i)
  else Ok false.

Definition record_insn (i : insn) (s : OTBNState) (st : ExecutionStats) :
    res ExecutionStats :=
  calls ← record_call i s;
  loops ← record_loop i s;
  let last := LoopStack.is_last_insn_in_loop_body (s_pc s) (s_loop_stack s) in
  let bb_len := st_current_basic_block_len st + 1 in
  let bb_end := is_jump i || is_branch i || last || is_ecall i in
  fin ← finishing_loop s st;
  let ebb_len := st_current_ext_basic_block_len st + 1 in
  let ebb_end := is_branch i || fin || is_ecall i in
  Ok (mkStats (st_program st) (st_stall_count st)
        (count (mnemonic i) (st_insn_histo st))
        (st_func_calls st ++ calls) (st_loops st ++ loops)
        (if bb_end then count bb_len (st_basic_block_histo st) else st_basic_block_histo st)
        (if ebb_end then count ebb_len (st_ext_basic_block_histo st)
         else st_ext_basic_block_histo st)
        (if bb_end then 0 else bb_len) (if ebb_end then 0 else ebb_len)).
End ExecutionStats.

(** ** Counters *)

(** The sum of [f k * v] over a counter. *)
Definition weigh `{Countable K} (f : K → Z) (m : gmap K Z) : Z :=
  map_fold (fun k v acc => f k * v + acc) 0 m.

Section counters.
Context `{Countable K} (f : K → Z).
Implicit Types m : gmap K Z.

Lemma weigh_insert k v m : m !! k = None → weigh f (<[k := v]> m) = f k * v + weigh f m.
Proof.
  intros Hk. unfold weigh. rewrite (map_fold_insert_L _ _ k v m); [done | | done].
  intros. lia.
Qed.

Lemma weigh_delete k v m : m !! k = Some v → weigh f m = f k * v + weigh f (delete k m).
Proof.
  intros Hk. rewrite <- (weigh_insert k v (delete k m)) by apply lookup_delete_eq.
  by rewrite insert_delete_id.
Qed.

(** Counting a key adds its weight once. *)
Lemma weigh_count k m : weigh f (count k m) = weigh f m + f k.
Proof.
  unfold count. destruct (m !! k) as [v |] eqn:E; cbn.
  - rewrite <- insert_delete_eq, weigh_insert by apply lookup_delete_eq.
    rewrite (weigh_delete k v m E). lia.
  - rewrite weigh_insert by done. lia.
Qed.
End counters.

Lemma total_weigh `{Countable K} (m : gmap K Z) : total m = weigh (fun _ => 1) m.
Proof.
  unfold total, weigh. rewrite !map_fold_foldr.
  induction (map_to_list m) as [| [k v] l IH]; cbn in *; lia.
Qed.

(** ** What the statistics add up to *)

(** Every recorded instruction is counted in exactly one basic block and one
    extended basic block, finished or current. *)
Definition balanced (st : ExecutionStats) : Prop :=
  weigh (fun n => n) (st_basic_block_histo st) + st_current_basic_block_len st
    = ExecutionStats.get_insn_count st ∧
  weigh (fun n => n) (st_ext_basic_block_histo st) + st_current_ext_basic_block_len st
    = ExecutionStats.get_insn_count st.

Lemma balanced_init p : balanced (ExecutionStats.init p).
Proof. done. Qed.

Lemma balanced_stall st : balanced st → balanced (ExecutionStats.record_stall st).
Proof. done. Qed.

Lemma record_insn_balanced i s st st' :
  ExecutionStats.record_insn i s st = Ok st' → balanced st →
  balanced st' ∧
  ExecutionStats.get_insn_count st' = ExecutionStats.get_insn_count st + 1.
Proof.
  unfold ExecutionStats.record_insn. intros E [Hb He].
  destruct (ExecutionStats.record_call i s); [cbn in E | done].
  destruct (ExecutionStats.record_loop i s); [cbn in E | done].
  destruct (ExecutionStats.finishing_loop s st) as [fin |]; [cbn in E | done].
  injection E as <-. unfold balanced, ExecutionStats.get_insn_count in *. cbn.
  rewrite !total_weigh, !weigh_count in *.
  split; [| lia]. split; (case_match; [rewrite weigh_count |]); lia.
Qed.
