(* ===== verification/Sim.v ===== *)
(** The simulator (otbnsim/sim/sim.py): a core, its program and the statistics.
    The disassembly of an instruction and the printing of traces are not
    modelled. *)

From S2P Require Import Prelude Trace Reg Gpr Flags Wsr Csr Dmem.
From S2P Require Import LoopStack ExtRegs State Isa StateWf Insn InsnSafe StateStep.
From S2P Require Import InsnSpec Stats.

Record OTBNSim := mkSim {
  sim_state : OTBNState;
  sim_program : list insn;
  sim_stats : option ExecutionStats
}.

Definition _TEST_RND_DATA : Z :=
  0x9999999999999999999999999999999999999999999999999999999999999999.

Module OTBNSim.
Definition set_state (s : OTBNState) (m : OTBNSim) : OTBNSim :=
  mkSim s (sim_program m) (sim_stats m).
Definition set_stats (st : option ExecutionStats) (m : OTBNSim) : OTBNSim :=
  mkSim (sim_state m) (sim_program m) st.
Definition on_state {A} (c : M OTBNState A) : M OTBNSim A := zoom sim_state set_state c.

Definition init (imem_size dmem_size : Z) (flat_regs : list (string * list Field)) :
    res OTBNSim :=
  s ← OTBNState.init imem_size dmem_size flat_regs;
  Ok (mkSim s [] None).

Definition load_program (program : list insn) : M OTBNSim () :=
  modify (fun m => mkSim (sim_state m) program (sim_stats m)).

Definition load_data (data : list Z) : M OTBNSim () :=
  on_state (OTBNState.on_dmem (Dmem.load_le_words data)).

Definition start : M OTBNSim () :=
  modify (fun m => set_stats (Some (ExecutionStats.init (sim_program m))) m);;
  on_state OTBNState.start.

Definition record_stall : M OTBNSim () :=
  modify (fun m => set_stats (ExecutionStats.record_stall <$> sim_stats m) m).

Definition record_insn (i : insn) : M OTBNSim () := fun m =>
  match sim_stats m with
  | None => Err AssertionError
  | Some st =>
      st' ← ExecutionStats.record_insn i (sim_state m) st;
      Ok ((), set_stats (Some st') m)
  end.

Definition changes : M OTBNState (list Trace) := fun s =>
  l ← OTBNState.changes s; Ok (l, s).

(** [self.program[word_pc]]; the program counter is never negative. *)
Definition fetch : M OTBNSim insn := fun m =>
  let word_pc := s_pc (sim_state m) ≫ 2 in
  if Z.of_nat (length (sim_program m)) <=? word_pc then Err RuntimeError
  else i ← of_option IndexError (sim_program m !! Z.to_nat word_pc); Ok (i, m).

(** The branch of [step] taken on a stall cycle. *)
Definition stall_cycle (collect_stats : bool) : M OTBNSim (option insn * list Trace) :=
  on_state (OTBNState.commit true);;
  (if collect_stats then record_stall else mret ());;
  mret (None, []).

(** The branch of [step] that executes an instruction. *)
Definition insn_cycle (collect_stats : bool) (i : insn) :
    M OTBNSim (option insn * list Trace) :=
  pc_before ← gets (fun m => s_pc (sim_state m));
  on_state (OTBNState.pre_insn (affects_control i));;
  on_state (execute i);;
  on_state OTBNState.post_insn;;
  (if collect_stats then record_insn i else mret ());;
  pending_halt ← gets (fun m => s_pending_halt (sim_state m));
  (if (pending_halt : bool) then on_state OTBNState.stop else mret ());;
  l ← on_state changes;
  pc ← gets (fun m => s_pc (sim_state m));
  assertM (pc_before =? pc);;
  on_state (OTBNState.commit false);;
  mret (Some i, l).

(** [step] without the text of the trace.  For it the source calls [insn.disassemble(pc_before)] after
    the commit, which keeps the text and asserts that the same object is never disassembled at another
    address; each instruction of a program is an object of its own and is only fetched at its address. *)
Definition step (collect_stats : bool) : M OTBNSim (option insn * list Trace) :=
  running ← gets (fun m => s_running (sim_state m));
  if negb running then mret (None, [])
  else
    stats ← gets sim_stats;
    assertM (bool_decide (is_Some stats));;
    i ← fetch;
    non_insn_stall ← gets (fun m => s_non_insn_stall (sim_state m));
    sim_stalled ←
      (if (non_insn_stall : bool) then mret true
       else clear ← on_state (pre_execute i); mret (negb clear));
    if (sim_stalled : bool) then stall_cycle collect_stats else insn_cycle collect_stats i.

(** [if self.state.wsrs.RND.pending_request: ...] *)
Definition serve_rnd : M OTBNSim () :=
  pending ← gets (fun m => rw_pending_request (wsr_RND (s_wsrs (sim_state m))));
  if (pending : bool) then
    on_state (OTBNState.on_wsrs (zoom wsr_RND WSRFile.set_RND
      (OTBNState.method (RandWSR.set_unsigned _TEST_RND_DATA))))
  else mret ().

(** The loop of [run], from [insn_count]; [None] when the fuel runs out. *)
Fixpoint run_loop (fuel : nat) (collect_stats : bool) (insn_count : Z) :
    M OTBNSim (option Z) :=
  running ← gets (fun m => s_running (sim_state m));
  if negb running then mret (Some insn_count)
  else
    match fuel with
    | O => mret None
    | S fuel =>
        step collect_stats;; serve_rnd;; run_loop fuel collect_stats (insn_count + 1)
    end.

Definition run (fuel : nat) (collect_stats : bool) : M OTBNSim (option Z) :=
  on_state OTBNState.mark_urnd_reseed_complete;;
  run_loop fuel collect_stats 0.

Definition dump_data (m : OTBNSim) : res (list Z) := Dmem.dump_le_words (s_dmem (sim_state m)).
End OTBNSim.

(** * What one step can do *)

Section step.
Import OTBNState.

(** [i] is the instruction at the program counter, and it may run now. *)
Record runs_insn (m : OTBNSim) (i : insn) : Prop := {
  ri_fetch : sim_program m !! Z.to_nat (s_pc (sim_state m) ≫ 2) = Some i;
  ri_valid : valid i = true;
  ri_stall : s_non_insn_stall (sim_state m) = false;
  ri_rnd : rnd_ready i (sim_state m)
}.

(** How a step of a running simulator ends. *)
Inductive outcome (m : OTBNSim) : option insn * list Trace → OTBNSim → Prop :=
  | Stalled s' :
      ready s' → same_arch (sim_state m) s' →
      keeps_imem (sim_state m) s' →
      outcome m (None, []) (OTBNSim.set_state s' m)
  | Retired i l s1 s2 s3 s4 :
      runs_insn m i → phases i (sim_state m) s1 s2 s3 → s_pending_halt s3 = false →
      changes s3 = Ok l → commit false s3 = Ok ((), s4) → ready s4 →
      keeps_imem (sim_state m) s4 →
      outcome m (Some i, l) (OTBNSim.set_state s4 m)
  | Halted i l s1 s2 s3 s4 s5 :
      runs_insn m i → phases i (sim_state m) s1 s2 s3 → s_pending_halt s3 = true →
      stop s3 = Ok ((), s4) → changes s4 = Ok l → commit false s4 = Ok ((), s5) →
      idle_wf s5 → clean s5 → s_running s5 = false → same_arch (sim_state m) s5 →
      s_imem_size s5 = s_imem_size (sim_state m) →
      outcome m (Some i, l) (OTBNSim.set_state s5 m).

Lemma on_state_eq {A} (c : M OTBNState A) m a s :
  c (sim_state m) = Ok (a, s) → OTBNSim.on_state c m = Ok (a, OTBNSim.set_state s m).
Proof. intros E. unfold OTBNSim.on_state, zoom. by rewrite E. Qed.

Lemma bind_Ok {S A B} (c : M S A) (k : A → M S B) s a s' :
  c s = Ok (a, s') → (c ≫= k) s = k a s'.
Proof. intros E. unfold mbind, M_bind. by rewrite E. Qed.

Lemma bind_inv {S A B} (c : M S A) (k : A → M S B) s b s' :
  (c ≫= k) s = Ok (b, s') → ∃ a s1, c s = Ok (a, s1) ∧ k a s1 = Ok (b, s').
Proof. unfold mbind, M_bind. destruct (c s) as [[a s1] |]; [eauto | done]. Qed.

(** An instruction cycle returns the instruction. *)
Lemma insn_cycle_insn b i m r m' :
  OTBNSim.insn_cycle b i m = Ok (r, m') → fst r = Some i.
Proof.
  unfold OTBNSim.insn_cycle. intros E.
  do 11 (apply bind_inv in E as (? & ? & _ & E)). by injection E as <- _.
Qed.

Lemma insn_cycle_ok i m :
  ready (sim_state m) → runs_insn m i →
  ∃ r m', OTBNSim.insn_cycle false i m = Ok (r, m') ∧ outcome m r m'.
Proof.
  intros Hr Hri. pose proof Hri as [_ Hv Hn Hrnd]. destruct m as [s p st]. cbn in *.
  pose proof Hr as [Hw Hcl Hph Herr Hu Hst Hrun].
  destruct (phases_ok i s Hw (cl_next_pc _ Hcl) Hv Hrnd) as (s1 & s2 & s3 & Hphs & Hw3 & Hs3 & Hcm).
  pose proof Hphs as (E1 & E2 & E3). unfold OTBNSim.insn_cycle.
  erewrite bind_Ok by done. cbn [sim_state].
  erewrite bind_Ok by (apply on_state_eq; exact E1).
  erewrite bind_Ok by (apply on_state_eq; exact E2).
  erewrite bind_Ok by (apply on_state_eq; exact E3).
  erewrite bind_Ok by done. erewrite bind_Ok by done. cbn [sim_state OTBNSim.set_state].
  destruct (s_pending_halt s3) eqn:Eh.
  - destruct (halt_ok s3 Hw3 Eh) as (s4 & l & Es & El & Epc & Ec & Hi & Hc & Ha & Hr4 & Him).
    erewrite bind_Ok by (apply on_state_eq; exact Es).
    erewrite bind_Ok by (apply on_state_eq; unfold OTBNSim.changes; cbn; by rewrite El).
    erewrite bind_Ok by done.
    erewrite bind_Ok by (unfold assertM, lift; cbn; by rewrite Epc, (same_pc _ _ _ Hs3), Z.eqb_refl).
    erewrite bind_Ok by (apply on_state_eq; exact Ec).
    eexists _, _. split; [done |]. cbn.
    eapply (Halted (mkSim s p st)); try done.
    + transitivity s3; [by eapply same_same_arch | done].
    + cbn. by rewrite Him, (same_imem_size _ _ _ Hs3).
  - erewrite bind_Ok by done. destruct (changes_ok s3 (wf_idle _ Hw3)) as [l El].
    erewrite bind_Ok by (apply on_state_eq; unfold OTBNSim.changes; cbn; by rewrite El).
    erewrite bind_Ok by done.
    erewrite bind_Ok by (unfold assertM, lift; cbn; by rewrite (same_pc _ _ _ Hs3), Z.eqb_refl).
    destruct (same_stalls _ _ _ Hs3) as (En & Es & Eu).
    destruct (commit_ok s3) as (r & d & l' & _ & Ec & Hr4 & Him); try done; [by apply Hcm | | | | |].
    { rewrite Eu. destruct (s_urnd_stall s); [| done]. rewrite Hst in Hu. naive_solver. }
    { congruence. } { congruence. } { by rewrite (same_running _ _ _ Hs3). }
    erewrite bind_Ok by (apply on_state_eq; exact Ec).
    eexists _, _. split; [done |]. cbn. eapply (Retired (mkSim s p st)); try done.
    split; [by cbn; rewrite (same_imem_size _ _ _ Hs3) |].
    intros Hin. destruct (proj2 (Hcm eq_refl) Hin) as [? ?].
    apply Him; by rewrite (same_imem_size _ _ _ Hs3).
Qed.

Lemma stall_cycle_ok m s :
  ready s → same_arch (sim_state m) s → keeps_imem (sim_state m) s →
  ∃ r m', OTBNSim.stall_cycle false (OTBNSim.set_state s m) = Ok (r, m') ∧ outcome m r m'.
Proof.
  intros Hr Ha [Hi Hin]. destruct (stall_commit_ok s Hr) as (s' & E & Hr' & Ha' & El & Ei & _).
  unfold OTBNSim.stall_cycle. erewrite bind_Ok by (apply on_state_eq; exact E).
  eexists _, _. split; [done |]. apply (Stalled m s'); [done | by transitivity s |].
  split; [congruence |]. intros [? ?]%Hin. split; unfold loop_starts in *; rewrite Ei, ?El; [| done].
  by rewrite (sa_pc _ _ Ha').
Qed.

(** The conditions under which a running simulator can make a step. *)
Record can_step (m : OTBNSim) : Prop := {
  cs_stats : is_Some (sim_stats m);
  cs_program : Forall (fun i => valid i = true) (sim_program m);
  cs_pc : s_pc (sim_state m) ≫ 2 < Z.of_nat (length (sim_program m))
}.

Lemma fetch_ok m :
  can_step m → 0 ≤ s_pc (sim_state m) →
  ∃ i, OTBNSim.fetch m = Ok (i, m) ∧ valid i = true ∧
    sim_program m !! Z.to_nat (s_pc (sim_state m) ≫ 2) = Some i.
Proof.
  intros [_ Hp Hpc] H0. unfold OTBNSim.fetch. rewrite (proj2 (Z.leb_gt _ _)) by done.
  assert (0 ≤ s_pc (sim_state m) ≫ 2) by (by apply Z.shiftr_nonneg).
  destruct (lookup_lt_is_Some_2 (sim_program m) (Z.to_nat (s_pc (sim_state m) ≫ 2)))
    as [i Hi]; [lia |].
  exists i. rewrite Hi. split; [done |]. split; [| done]. exact (Forall_lookup_1 _ _ _ _ Hp Hi).
Qed.

Lemma step_ok m :
  ready (sim_state m) → can_step m →
  ∃ r m', OTBNSim.step false m = Ok (r, m') ∧ outcome m r m'.
Proof.
  intros Hr Hc. pose proof Hr as [Hw Hcl Hph Herr Hu Hst Hrun].
  destruct (fetch_ok m Hc) as (i & Ef & Hv & Hl); [apply (wf_pc _ Hw) |].
  unfold OTBNSim.step. erewrite bind_Ok by done. rewrite Hrun. cbn [negb].
  erewrite bind_Ok by done.
  erewrite bind_Ok by (unfold assertM, lift; by rewrite bool_decide_true by apply Hc).
  erewrite bind_Ok by exact Ef. erewrite bind_Ok by done.
  destruct (s_non_insn_stall (sim_state m)) eqn:En.
  { erewrite bind_Ok by done. destruct m as [s p st].
    by apply (stall_cycle_ok (mkSim s p st) s). }
  destruct (pre_execute_ok i (sim_state m) Hw) as [[Ep Hrnd] | [[Ep _] | (v & Ep & _ & Hv' & _)]].
  - erewrite bind_Ok; [| erewrite bind_Ok; [| apply on_state_eq; exact Ep]; done]. cbn [negb].
    replace (OTBNSim.set_state (sim_state m) m) with m by (by destruct m).
    by apply insn_cycle_ok.
  - erewrite bind_Ok; [| erewrite bind_Ok; [| apply on_state_eq; exact Ep]; done]. cbn [negb].
    apply stall_cycle_ok; [by apply ready_begin_load | done | by split; [| intros []]].
  - erewrite bind_Ok; [| erewrite bind_Ok; [| apply on_state_eq; exact Ep]; done]. cbn [negb].
    apply stall_cycle_ok; [| done | by split; [| intros []]]. apply ready_set_RND; [done |]. subst v.
    apply (WSRFile.wf_RND _ (wf_wsrs _ Hw)).
Qed.

(** ** Whole runs *)

(** The conditions under which a run never leaves the program: every
    instruction is valid and the program fills the instruction memory. *)
Record runnable (m : OTBNSim) : Prop := {
  rn_stats : is_Some (sim_stats m);
  rn_program : Forall (fun i => valid i = true) (sim_program m);
  rn_size : s_imem_size (sim_state m) = 4 * Z.of_nat (length (sim_program m));
  rn_state : (ready (sim_state m) ∧ in_imem (sim_state m)) ∨
             (idle_wf (sim_state m) ∧ clean (sim_state m) ∧ s_running (sim_state m) = false)
}.

Lemma runnable_can_step m : runnable m → ready (sim_state m) → in_imem (sim_state m) → can_step m.
Proof.
  intros [Hs Hp Hz _] Hr [Hpc _]. split; [done | done |].
  rewrite Z.shiftr_div_pow2 by lia. apply Z.div_lt_upper_bound; lia.
Qed.

Lemma step_runnable m :
  runnable m → s_running (sim_state m) = true →
  ∃ r m', OTBNSim.step false m = Ok (r, m') ∧ runnable m'.
Proof.
  intros Hrn Hrun. pose proof Hrn as [Hs Hp Hz [[Hr Hin] | (_ & _ & ?)]]; [| congruence].
  destruct (step_ok m Hr) as (r & m' & E & Ho); [by apply runnable_can_step |].
  exists r, m'. split; [done |].
  destruct Ho as [s' Hr' _ [Hi Hk] | i l s1 s2 s3 s4 _ _ _ _ _ Hr' [Hi Hk]
    | i l s1 s2 s3 s4 s5 _ Hph _ Est _ Ec Hidle Hcl Hrun' _ Hi].
  - split; try done; [cbn; congruence |]. left. auto.
  - split; try done; [cbn; congruence |]. left. auto.
  - split; try done; [cbn; congruence | by right].
Qed.

Lemma serve_rnd_runnable m :
  runnable m → ∃ m', OTBNSim.serve_rnd m = Ok ((), m') ∧ runnable m'.
Proof.
  intros Hrn. unfold OTBNSim.serve_rnd. erewrite bind_Ok by done.
  destruct (rw_pending_request _); [| by exists m].
  erewrite on_state_eq by done. eexists. split; [done |].
  destruct Hrn as [? ? ? [[Hr [? ?]] | (Hi & Hc & ?)]]; split; try done.
  - left. split; [by apply ready_set_RND | by split].
  - right. split; [| split; [by destruct Hc; split | done]].
    destruct Hi. split; try done. cbn in *. destruct wf_wsrs. by split.
Qed.

(** A run from a runnable simulator raises nothing, whatever the fuel, and
    when it ends the core has stopped. *)
Lemma run_loop_ok fuel n m :
  runnable m →
  ∃ r m', OTBNSim.run_loop fuel false n m = Ok (r, m') ∧ runnable m' ∧
    (∀ k, r = Some k → s_running (sim_state m') = false ∧ n ≤ k ≤ n + Z.of_nat fuel).
Proof.
  revert n m. induction fuel as [| fuel IH]; intros n m Hrn; cbn [OTBNSim.run_loop];
    erewrite bind_Ok by done; destruct (s_running (sim_state m)) eqn:Er; cbn [negb].
  - exists None, m. done.
  - exists (Some n), m. split; [done |]. split; [done |]. intros k [= <-]. split; [done | lia].
  - destruct (step_runnable m Hrn Er) as (r & m1 & E1 & Hrn1).
    destruct (serve_rnd_runnable m1 Hrn1) as (m2 & E2 & Hrn2).
    destruct (IH (n + 1) m2 Hrn2) as (r' & m3 & E3 & Hrn3 & Hk).
    exists r', m3. erewrite bind_Ok by exact E1. erewrite bind_Ok by exact E2.
    split; [exact E3 |]. split; [done |]. intros k Hr'.
    destruct (Hk k Hr'). split; [done | lia].
  - exists (Some n), m. split; [done |]. split; [done |]. intros k [= <-]. split; [done | lia].
Qed.


(** ** Progress *)

Lemma step_unfold m i :
  ready (sim_state m) → can_step m →
  sim_program m !! Z.to_nat (s_pc (sim_state m) ≫ 2) = Some i →
  OTBNSim.step false m =
    (sim_stalled ←
      (if s_non_insn_stall (sim_state m) then mret true
       else clear ← OTBNSim.on_state (pre_execute i); mret (negb clear));
     if (sim_stalled : bool) then OTBNSim.stall_cycle false else OTBNSim.insn_cycle false i) m.
Proof.
  intros Hr Hc Hi. destruct (fetch_ok m Hc) as (i' & Ef & _ & Hi'); [apply (wf_pc _ (rd_wf _ Hr)) |].
  rewrite Hi in Hi'. injection Hi' as <-. unfold OTBNSim.step.
  erewrite bind_Ok by done. rewrite (rd_running _ Hr). cbn [negb]. erewrite bind_Ok by done.
  erewrite bind_Ok by (unfold assertM, lift; by rewrite bool_decide_true by apply Hc).
  erewrite bind_Ok by exact Ef. by erewrite bind_Ok by done.
Qed.

(** Two simulators at the same place of the same program. *)
Record same_place (m m' : OTBNSim) : Prop := {
  sp_program : sim_program m' = sim_program m;
  sp_stats : sim_stats m' = sim_stats m;
  sp_arch : same_arch (sim_state m) (sim_state m');
  sp_loops : s_loop_stack (sim_state m') = s_loop_stack (sim_state m);
  sp_imem : s_imem_size (sim_state m') = s_imem_size (sim_state m)
}.

Lemma can_step_place m m' : same_place m m' → can_step m → can_step m'.
Proof. intros [Hp Hs Ha _ _] []. split; rewrite ?Hp, ?Hs, ?(sa_pc _ _ Ha); done. Qed.

Lemma serve_rnd_ok m :
  ready (sim_state m) →
  ∃ m', OTBNSim.serve_rnd m = Ok ((), m') ∧ ready (sim_state m') ∧ same_place m m' ∧
    s_dmem (sim_state m') = s_dmem (sim_state m) ∧
    s_non_insn_stall (sim_state m') = s_non_insn_stall (sim_state m) ∧
    s_urnd_stall (sim_state m') = s_urnd_stall (sim_state m) ∧
    s_urnd_reseed_complete (sim_state m') = s_urnd_reseed_complete (sim_state m) ∧
    (rw_pending_request (wsr_RND (s_wsrs (sim_state m))) = true →
     rw_random_value (wsr_RND (s_wsrs (sim_state m'))) = Some _TEST_RND_DATA).
Proof.
  intros Hr. unfold OTBNSim.serve_rnd. erewrite bind_Ok by done.
  destruct (rw_pending_request _); [| exists m; split; [done |]; split; [done |]; by split; [split |]].
  erewrite on_state_eq by done. eexists. split; [done |].
  split; [by apply ready_set_RND |]. split; [| done]. by split.
Qed.

(** An instruction that has to wait stalls for one cycle, after which a load has
    its data and a read of RND has asked the environment for a value. *)
Lemma blocked_stall m i :
  ready (sim_state m) → can_step m → s_non_insn_stall (sim_state m) = false →
  sim_program m !! Z.to_nat (s_pc (sim_state m) ≫ 2) = Some i →
  pre_execute i (sim_state m) ≠ Ok (true, sim_state m) →
  ∃ m1, OTBNSim.step false m = Ok ((None, []), m1) ∧ ready (sim_state m1) ∧ same_place m m1 ∧
    s_non_insn_stall (sim_state m1) = false ∧
    (if is_load i then dm_load_ready (s_dmem (sim_state m1)) = true
     else rw_pending_request (wsr_RND (s_wsrs (sim_state m1))) = true).
Proof.
  intros Hr Hc Hn Hi Hb. rewrite (step_unfold m i) by done. rewrite Hn.
  pose proof Hr as [Hw Hcl _ _ Hu Hst _].
  assert (Eu : s_urnd_stall (sim_state m) = false).
  { destruct (s_urnd_stall _); [| done]. rewrite Hst in Hu. naive_solver. }
  assert (H : ∃ s, pre_execute i (sim_state m) = Ok (false, s) ∧ ready s ∧
    same_arch (sim_state m) s ∧ s_loop_stack s = s_loop_stack (sim_state m) ∧
    s_imem_size s = s_imem_size (sim_state m) ∧ s_urnd_stall s = false ∧
    (if is_load i then dm_load_begun (s_dmem s) = true
     else rw_pending_request (wsr_RND (s_wsrs s)) = true)).
  { destruct (pre_execute_ok i (sim_state m) Hw)
      as [[? _] | [(Ep & -> & _) | (v & Ep & -> & Hv & _)]]; [done | |].
    - eexists. split; [exact Ep |]. split; [by apply ready_begin_load | done].
    - eexists. split; [exact Ep |]. split; [| done]. apply ready_set_RND; [done |].
      subst v. apply (WSRFile.wf_RND _ (wf_wsrs _ Hw)). }
  destruct H as (s & Ep & Hrs & Has & Hls & His & Hus & Hin).
  erewrite bind_Ok; [| erewrite bind_Ok; [| apply on_state_eq; exact Ep]; done]. cbn [negb].
  destruct (stall_commit_ok s Hrs) as (s' & E & Hr' & Ha' & Hl' & Hi' & Hprog & _ & Hpr).
  rewrite Hus in Hprog. destruct Hprog as (Hst' & Hu' & Hld).
  unfold OTBNSim.stall_cycle. erewrite bind_Ok by (apply on_state_eq; exact E).
  eexists. split; [done |]. split; [done |]. split; [| split; cbn].
  - split; try done; [by transitivity s | cbn; congruence | cbn; congruence].
  - by rewrite <- (rd_start _ Hr').
  - destruct (is_load i); congruence.
Qed.

(** Once the environment has answered, the instruction has what it needs. *)
Lemma blocked_once m i :
  ready (sim_state m) → can_step m → s_non_insn_stall (sim_state m) = false →
  sim_program m !! Z.to_nat (s_pc (sim_state m) ≫ 2) = Some i →
  pre_execute i (sim_state m) ≠ Ok (true, sim_state m) →
  ∃ m1 m2, OTBNSim.step false m = Ok ((None, []), m1) ∧
    OTBNSim.serve_rnd m1 = Ok ((), m2) ∧ ready (sim_state m2) ∧ same_place m m2 ∧
    s_non_insn_stall (sim_state m2) = false ∧ has_input i (sim_state m2) = true.
Proof.
  intros Hr Hc Hn Hi Hb.
  destruct (blocked_stall m i) as (m1 & E1 & Hr1 & Hp1 & Hn1 & Hin); try done.
  destruct (serve_rnd_ok m1) as (m2 & E2 & Hr2 & Hp2 & Hd2 & Hn2 & _ & _ & Hrnd); [done |].
  exists m1, m2. split; [done |]. split; [done |]. split; [done |]. split; [| split].
  - destruct Hp1, Hp2. split; try congruence; by etransitivity.
  - congruence.
  - unfold has_input. destruct (is_load i); [congruence |]. by rewrite Hrnd.
Qed.

(** An instruction that can run does run. *)
Lemma insn_retires m i :
  ready (sim_state m) → can_step m → s_non_insn_stall (sim_state m) = false →
  sim_program m !! Z.to_nat (s_pc (sim_state m) ≫ 2) = Some i →
  pre_execute i (sim_state m) = Ok (true, sim_state m) → rnd_ready i (sim_state m) →
  ∃ l m', OTBNSim.step false m = Ok ((Some i, l), m').
Proof.
  intros Hr Hc Hn Hi Hp Hrnd. rewrite (step_unfold m i) by done. rewrite Hn.
  erewrite bind_Ok; [| erewrite bind_Ok; [| apply on_state_eq; exact Hp]; done]. cbn [negb].
  replace (OTBNSim.set_state (sim_state m) m) with m by (by destruct m).
  destruct (fetch_ok m Hc) as (i' & _ & Hv & Hi'); [apply (wf_pc _ (rd_wf _ Hr)) |].
  rewrite Hi in Hi'. injection Hi' as <-.
  destruct (insn_cycle_ok i m Hr) as (r & m' & E & _); [by split |].
  destruct r as [o l]. exists l, m'. rewrite E. apply insn_cycle_insn in E. cbn in E. congruence.
Qed.

(** ** Straight-line programs *)

(** An instruction that can run and is not a jump or a loop, outside any loop:
    it stops the core or goes on to the next instruction. *)
Lemma insn_progress m i :
  ready (sim_state m) → can_step m → s_non_insn_stall (sim_state m) = false →
  sim_program m !! Z.to_nat (s_pc (sim_state m) ≫ 2) = Some i →
  pre_execute i (sim_state m) = Ok (true, sim_state m) → rnd_ready i (sim_state m) →
  insn_control i = plain → loop_starts (sim_state m) = [] →
  ∃ r m', OTBNSim.step false m = Ok (r, m') ∧
    sim_program m' = sim_program m ∧ sim_stats m' = sim_stats m ∧
    (s_running (sim_state m') = false ∨
     (i ≠ ECALL ∧ ready (sim_state m') ∧ s_non_insn_stall (sim_state m') = false ∧
      s_pc (sim_state m') = s_pc (sim_state m) + 4 ∧ loop_starts (sim_state m') = [])).
Proof.
  intros Hr Hc Hn Hi Hp Hrnd Hpl Hls. rewrite (step_unfold m i) by done. rewrite Hn.
  erewrite bind_Ok; [| erewrite bind_Ok; [| apply on_state_eq; exact Hp]; done]. cbn [negb].
  replace (OTBNSim.set_state (sim_state m) m) with m by (by destruct m).
  destruct (fetch_ok m Hc) as (i' & _ & Hv & Hi'); [apply (wf_pc _ (rd_wf _ Hr)) |].
  rewrite Hi in Hi'. injection Hi' as <-.
  destruct (insn_cycle_ok i m Hr) as (r & m' & E & Ho); [by split |].
  exists r, m'. split; [done |].
  destruct Ho as [s' | i' l s1 s2 s3 s4 Hri Hph Hh _ Hcm Hr4 _ | ? ? ? ? ? ? ? ? ? ? ? ? ? ? ? Hrun];
    [exfalso | | by split; [| split; [| left]]].
  - by apply insn_cycle_insn in E.
  - assert (i' = i) as ->.
    { pose proof (ri_fetch _ _ Hri). congruence. }
    split; [done |]. split; [done |]. right.
    destruct (retire_values i (sim_state m) s1 s2 s3 s4) as (_ & Hpc & Hw1 & _ & _ & Hl & Hn4);
      try done.
    destruct (phases_straight i (sim_state m) s1 s2 s3) as [Hnext Hl3];
      try done; [apply Hr | apply Hr |].
    split; [| split; [done |]; split; [done |]; split; [cbn; congruence |]].
    + intros ->. destruct Hph as (_ & [= <-] & E3).
      destruct (post_insn_ok (set_pending_halt true (or_err_bits 0 s1)))
        as (? & ? & s3' & _ & E3' & _ & _ & _ & _ & _ & Hx).
      { pose proof (wf_or_err_bits 0 s1 Hw1 ltac:(lia)) as []. by split. }
      rewrite E3 in E3'. injection E3' as <-. by destruct (Hx Hh) as (_ & _ & ?).
    + unfold loop_starts in *. cbn. unfold LoopStack.commit in Hl.
      destruct (ls_stack (s_loop_stack s3)); [| done].
      destruct (ls_err_flag _), (ls_pop_stack_on_commit _); cbn in Hl; try done.
      by injection Hl as <-.
Qed.

(** [N] instructions that are neither jumps nor loops, then ECALL. *)
Record straight (N : nat) (p : list insn) : Prop := {
  str_body : ∀ j i, (j < N)%nat → p !! j = Some i → insn_control i = plain;
  str_ecall : p !! N = Some ECALL;
  str_valid : Forall (fun i => valid i = true) p
}.

Lemma serve_rnd_total m :
  ∃ m', OTBNSim.serve_rnd m = Ok ((), m') ∧
    s_running (sim_state m') = s_running (sim_state m).
Proof.
  unfold OTBNSim.serve_rnd. erewrite bind_Ok by done. destruct (rw_pending_request _).
  - erewrite on_state_eq by done. by eexists.
  - by exists m.
Qed.

Lemma run_stopped fuel n m :
  s_running (sim_state m) = false → OTBNSim.run_loop fuel false n m = Ok (Some n, m).
Proof. intros E. destruct fuel; cbn [OTBNSim.run_loop]; erewrite bind_Ok by done; by rewrite E. Qed.

Lemma run_step fuel n m r m1 m2 :
  s_running (sim_state m) = true → OTBNSim.step false m = Ok (r, m1) →
  OTBNSim.serve_rnd m1 = Ok ((), m2) →
  OTBNSim.run_loop (S fuel) false n m = OTBNSim.run_loop fuel false (n + 1) m2.
Proof.
  intros Hr E1 E2. cbn [OTBNSim.run_loop]. erewrite bind_Ok by done. rewrite Hr. cbn [negb].
  erewrite bind_Ok by exact E1. by erewrite bind_Ok by exact E2.
Qed.

(** At instruction [k] of a straight-line program, past the initial stall. *)
Record at_insn (N k : nat) (m : OTBNSim) : Prop := {
  ai_straight : straight N (sim_program m);
  ai_range : (k ≤ N)%nat;
  ai_stats : is_Some (sim_stats m);
  ai_ready : ready (sim_state m);
  ai_stall : s_non_insn_stall (sim_state m) = false;
  ai_pc : s_pc (sim_state m) = 4 * Z.of_nat k;
  ai_loops : loop_starts (sim_state m) = []
}.

Lemma at_insn_fetch N k m :
  at_insn N k m → ∃ i, sim_program m !! Z.to_nat (s_pc (sim_state m) ≫ 2) = Some i ∧
    sim_program m !! k = Some i ∧ can_step m ∧ insn_control i = plain.
Proof.
  intros [[Hb He Hv] Hk Hs _ _ Hpc _]. rewrite Hpc.
  rewrite Z.shiftr_div_pow2 by lia. change (2 ^ 2) with 4.
  rewrite Z.mul_comm, Z.div_mul, Nat2Z.id by lia.
  pose proof (lookup_lt_Some _ _ _ He).
  destruct (lookup_lt_is_Some_2 (sim_program m) k) as [i Hi]; [lia |].
  exists i. split; [done |]. split; [done |]. split.
  - split; [done | done |]. rewrite Hpc, Z.shiftr_div_pow2 by lia. change (2 ^ 2) with 4.
    rewrite Z.mul_comm, Z.div_mul by lia. lia.
  - destruct (decide (k = N)) as [-> |]; [by simplify_eq |]. apply (Hb k); [lia | done].
Qed.

(** The run ends, within [b] more cycles. *)
Definition ends_within (b : Z) (m : OTBNSim) : Prop :=
  ∀ fuel n, b ≤ Z.of_nat fuel →
    ∃ c m', OTBNSim.run_loop fuel false n m = Ok (Some c, m') ∧
      s_running (sim_state m') = false ∧ c ≤ n + b.

Lemma ends_step b m r m1 m2 :
  0 ≤ b → s_running (sim_state m) = true → OTBNSim.step false m = Ok (r, m1) →
  OTBNSim.serve_rnd m1 = Ok ((), m2) → ends_within b m2 → ends_within (b + 1) m.
Proof.
  intros Hb Hr E1 E2 H fuel n Hf. destruct fuel as [| fuel]; [lia |].
  destruct (H fuel (n + 1)) as (c & m' & E & ? & ?); [lia |].
  exists c, m'. erewrite run_step by done. split; [done |]. split; [done | lia].
Qed.

Lemma ends_stopped b m : 0 ≤ b → s_running (sim_state m) = false → ends_within b m.
Proof. intros Hb E fuel n _. exists n, m. rewrite run_stopped by done. split; [done |]. split; [done | lia]. Qed.

Lemma straight_insn N k m i b :
  0 ≤ b → at_insn N k m → sim_program m !! k = Some i →
  pre_execute i (sim_state m) = Ok (true, sim_state m) → rnd_ready i (sim_state m) →
  (∀ m', (k < N)%nat → at_insn N (S k) m' → ends_within b m') →
  ends_within (b + 1) m.
Proof.
  intros Hb Ha Hi Hp Hrnd H. destruct (at_insn_fetch N k m Ha) as (i' & Hf & Hi' & Hc & Hpl).
  rewrite Hi in Hi'. injection Hi' as <-. pose proof Ha as [Hstr Hk Hst Hr Hn Hpc Hls].
  destruct (insn_progress m i) as (r & m1 & E1 & Hp1 & Hs1 & Hcase); try done.
  destruct Hcase as [Hrun | (Hne & Hr1 & Hn1 & Hpc1 & Hl1)].
  - destruct (serve_rnd_total m1) as (m2 & E2 & Er). eapply (ends_step b m r m1 m2); try done.
    + apply Hr.
    + apply ends_stopped; congruence.
  - destruct (serve_rnd_ok m1 Hr1) as (m2 & E2 & Hr2 & Hp2 & _ & Hn2 & _).
    eapply (ends_step b m r m1 m2); try done; [apply Hr |].
    assert (k ≠ N) by (intros ->; destruct Hstr; congruence).
    apply H; [lia |]. destruct Hp2 as [Hpr Hss Ha2 Hl2 _].
    split; rewrite ?Hpr, ?Hss, ?Hp1, ?Hs1; try done; [lia | congruence | |].
    + rewrite (sa_pc _ _ Ha2). lia.
    + unfold loop_starts in *. by rewrite Hl2.
Qed.

Lemma straight_any N k m b :
  0 ≤ b → at_insn N k m → (∀ m', (k < N)%nat → at_insn N (S k) m' → ends_within b m') →
  ends_within (b + 2) m.
Proof.
  intros Hb Ha H. destruct (at_insn_fetch N k m Ha) as (i & Hf & Hi & Hc & Hpl).
  pose proof Ha as [Hstr Hk Hst Hr Hn Hpc Hls]. pose proof (rd_wf _ Hr) as Hw.
  assert (Hblk : pre_execute i (sim_state m) ≠ Ok (true, sim_state m) → ends_within (b + 2) m).
  { intros Hne. destruct (blocked_once m i) as (m1 & m2 & E1 & E2 & Hr2 & Hp2 & Hn2 & Hin); try done.
    replace (b + 2) with (b + 1 + 1) by lia.
    eapply ends_step; [lia | apply Hr | done | done |].
    destruct (pre_execute_ready i (sim_state m2) (rd_wf _ Hr2) Hin) as [Hpe Hrd].
    pose proof Hp2 as [Hpr Hss Ha2 Hl2 _].
    apply (straight_insn N k m2 i); try done; [| by rewrite Hpr].
    split; rewrite ?Hpr, ?Hss; try done; [by rewrite (sa_pc _ _ Ha2) |].
    unfold loop_starts in *. by rewrite Hl2. }
  destruct (pre_execute_ok i (sim_state m) Hw) as [[Hpe Hrd] | [(E & _) | (v & E & _)]];
    [| apply Hblk; by rewrite E ..].
  intros fuel n Hf'. destruct (straight_insn N k m i b Hb Ha Hi Hpe Hrd H fuel n) as (c & m' & ? & ? & ?);
    [lia |]. exists c, m'. split; [done |]. split; [done | lia].
Qed.

(** Every instruction of a straight-line program takes at most two cycles. *)
Lemma straight_ends N d k m :
  (N - k = d)%nat → at_insn N k m → ends_within (2 * Z.of_nat d + 2) m.
Proof.
  revert k m. induction d as [| d IH]; intros k m Hd Ha.
  - apply (straight_any N k m 0); [lia | done |]. intros. lia.
  - replace (2 * Z.of_nat (S d) + 2) with (2 * Z.of_nat d + 2 + 2) by lia.
    apply (straight_any N k); [lia | done |]. intros m' Hk Ha'. apply (IH (S k)); [lia | done].
Qed.

(** ** Start-up *)

Lemma stall_step m :
  ready (sim_state m) → can_step m → s_non_insn_stall (sim_state m) = true →
  ∃ s', OTBNSim.step false m = Ok ((None, []), OTBNSim.set_state s' m) ∧
    commit true (sim_state m) = Ok ((), s').
Proof.
  intros Hr Hc Hn. destruct (fetch_ok m Hc) as (i & _ & _ & Hi); [apply (wf_pc _ (rd_wf _ Hr)) |].
  destruct (stall_commit_ok (sim_state m) Hr) as (s' & E & _).
  exists s'. split; [| done]. rewrite (step_unfold m i) by done. rewrite Hn.
  erewrite bind_Ok by done. unfold OTBNSim.stall_cycle.
  by erewrite bind_Ok by (apply on_state_eq; exact E).
Qed.

(** One cycle of the initial stall, with the environment's answer. *)
Lemma stall_cycle_place m :
  ready (sim_state m) → can_step m → s_non_insn_stall (sim_state m) = true →
  s_urnd_reseed_complete (sim_state m) = true →
  ∃ m1 m2, OTBNSim.step false m = Ok ((None, []), m1) ∧ OTBNSim.serve_rnd m1 = Ok ((), m2) ∧
    ready (sim_state m2) ∧ same_place m m2 ∧
    s_urnd_reseed_complete (sim_state m2) = true ∧ s_urnd_stall (sim_state m2) = false ∧
    s_non_insn_stall (sim_state m2) = s_urnd_stall (sim_state m).
Proof.
  intros Hr Hc Hn Hre. destruct (stall_step m Hr Hc Hn) as (s' & E1 & Ec).
  destruct (stall_commit_ok (sim_state m) Hr) as (s'' & Ec' & Hr' & Ha & Hl & Hi & Hp & Hre' & _).
  rewrite Ec in Ec'. injection Ec' as <-.
  destruct (serve_rnd_ok (OTBNSim.set_state s' m)) as (m2 & E2 & Hr2 & Hp2 & _ & Hn2 & Hu2 & Hre2 & _);
    [done |].
  eexists _, m2. split; [exact E1 |]. split; [exact E2 |]. split; [done |].
  destruct Hp2 as [? ? Ha2 Hl2 Hi2]. cbn in *. split; [| split; [| split]].
  - split; try done; [by transitivity s' | congruence | congruence].
  - congruence.
  - rewrite Hu2. rewrite Hre in Hp. destruct (s_urnd_stall (sim_state m)); naive_solver.
  - rewrite Hn2, <- (rd_start _ Hr'). destruct (s_urnd_stall (sim_state m)); naive_solver.
Qed.

(** From a freshly started core: two stall cycles, then the program. *)
Lemma startup_ends b m :
  0 ≤ b → ready (sim_state m) → can_step m →
  s_urnd_stall (sim_state m) = true → s_urnd_reseed_complete (sim_state m) = true →
  (∀ m', ready (sim_state m') → same_place m m' → s_non_insn_stall (sim_state m') = false →
     ends_within b m') →
  ends_within (b + 2) m.
Proof.
  intros Hb Hr Hc Hu Hre H. pose proof Hr as [_ _ _ _ Hus Hst Hrun].
  destruct (stall_cycle_place m) as (m1 & m2 & E1 & E2 & Hr2 & Hp2 & Hre2 & Hu2 & Hn2);
    [done | done | by rewrite <- Hst, Hus | done |]. rewrite Hu in Hn2.
  destruct (stall_cycle_place m2) as (m3 & m4 & E3 & E4 & Hr4 & Hp4 & _ & _ & Hn4);
    [done | by eapply can_step_place | done | done |]. rewrite Hu2 in Hn4.
  replace (b + 2) with (b + 1 + 1) by lia.
  eapply (ends_step (b + 1)); [lia | done | exact E1 | exact E2 |].
  eapply (ends_step b); [done | apply Hr2 | exact E3 | exact E4 |].
  apply H; [done | | done]. destruct Hp2, Hp4. split; try congruence; by etransitivity.
Qed.
End step.
