(* ===== verification/SimProps.v ===== *)
(** Properties of the simulator as a whole: runs, faults, stalls, and the effect
    of the arithmetic instructions on the architectural state. *)

From S2P Require Import Prelude Trace Reg Gpr Flags Wsr Csr Dmem.
From S2P Require Import LoopStack ExtRegs State Isa StateWf Insn InsnSafe StateStep.
From S2P Require Import InsnSpec Stats Sim.

Import OTBNState.

(** * The configuration of otbn.hjson *)

(** One-bit fields at consecutive positions. *)
Definition bit_fields (acc : string) (resval : option Z) (names : list string) : list Field :=
  imap (fun i n => mkField n 1 (Z.of_nat i) resval acc) names.

(** The registers of the block in hw/ip/otbn/data/otbn.hjson, with the interrupt
    and alert registers that reggen adds. *)
Definition otbn_regs : list (string * list Field) := [
  ("INTR_STATE", bit_fields "rw1c" (Some 0) ["done"]);
  ("INTR_ENABLE", bit_fields "rw" (Some 0) ["done"]);
  ("INTR_TEST", bit_fields "wo" (Some 0) ["done"]);
  ("ALERT_TEST", bit_fields "wo" (Some 0) ["fatal"; "recov"]);
  ("CMD", bit_fields "r0w1c" None ["start"]);
  ("STATUS", bit_fields "ro" None ["busy"]);
  ("ERR_BITS", bit_fields "ro" None ["bad_data_addr"; "bad_insn_addr"; "call_stack"; "illegal_insn";
                                "loop"; "fatal_imem"; "fatal_dmem"; "fatal_reg"]);
  ("START_ADDR", [mkField "start_addr" 32 0 (Some 0) "wo"]);
  ("FATAL_ALERT_CAUSE", bit_fields "ro" (Some 0) ["bus_integrity_error"; "imem_error"; "dmem_error"; "reg_error"]);
  ("INSN_CNT", [mkField "insn_cnt" 32 0 None "ro"])
].

Definition otbn_imem_size : Z := 4096.
Definition otbn_dmem_size : Z := 4096.

Lemma otbn_config : config_ok otbn_dmem_size otbn_regs.
Proof.
  split; [done | |]; apply (bool_decide_unpack _); by vm_compute.
Qed.

(** A core that has never run. *)
Definition blank : OTBNState :=
  mkState (mkGPRs (mkRegFile "x" 32 [] ∅) CallStackReg.init false) (mkRegFile "w" 256 [] ∅)
    WSRFile.init CSRFile.init 0 None 0 (mkDmem [] [] false false false) false false false
    LoopStack.init (mkExtRegs ∅ []) false 0 false None false.

Definition otbn_state : OTBNState :=
  match init otbn_imem_size otbn_dmem_size otbn_regs with Ok s => s | Err _ => blank end.

(** A program padded with ECALL to the size of the instruction memory. *)
Definition otbn_sim (p : list insn) : OTBNSim :=
  mkSim otbn_state (p ++ replicate (1024 - length p) ECALL) None.

Lemma otbn_state_ok :
  idle_wf otbn_state ∧ clean otbn_state ∧ s_running otbn_state = false ∧
  s_imem_size otbn_state = otbn_imem_size ∧ length (dm_data (s_dmem otbn_state)) = 128%nat.
Proof.
  destruct (init_ok otbn_imem_size otbn_dmem_size otbn_regs otbn_config)
    as (s & E & Hi & Hc & Hr & Hm & Hd).
  unfold otbn_state. by rewrite E.
Qed.

Lemma otbn_start_addr : get_start_addr otbn_state = Ok 0.
Proof. by vm_compute. Qed.

(** The state of [m] after a computation that returns. *)
Definition after {A} (c : M OTBNSim A) (m : OTBNSim) : OTBNSim :=
  match c m with Ok (_, m') => m' | Err _ => m end.

Fixpoint steps (n : nat) (m : OTBNSim) : OTBNSim :=
  match n with O => m | S n => after (OTBNSim.step false) (steps n m) end.

(** A running simulator: started, reseeded, and past the initial stall. *)
Definition otbn_running (p : list insn) : OTBNSim :=
  steps 2 (after (OTBNSim.on_state mark_urnd_reseed_complete)
             (after OTBNSim.start (otbn_sim p))).

(** ** Consequences of a step *)

Lemma step_outcome m r m' :
  ready (sim_state m) → can_step m → OTBNSim.step false m = Ok (r, m') → outcome m r m'.
Proof.
  intros Hr Hc E. destruct (step_ok m Hr Hc) as (r' & m'' & E' & Ho).
  rewrite E in E'. by injection E' as <- <-.
Qed.

Lemma start_sim_ok m :
  idle_wf (sim_state m) → clean (sim_state m) →
  ∃ s' a, OTBNSim.start m =
      Ok ((), mkSim s' (sim_program m) (Some (ExecutionStats.init (sim_program m)))) ∧
    ready s' ∧ get_start_addr (sim_state m) = Ok a ∧ s_pc s' = a ∧ s_urnd_stall s' = true ∧
    ls_stack (s_loop_stack s') = [] ∧ s_imem_size s' = s_imem_size (sim_state m).
Proof.
  intros Hi Hc. destruct (start_ok (sim_state m) Hi Hc)
    as (s' & a & E & Hr & Ha & Hpc & Hu & _ & _ & Hl & Him & _).
  exists s', a. split; [| done]. unfold OTBNSim.start. erewrite bind_Ok by done.
  by erewrite on_state_eq by exact E.
Qed.

Lemma ready_reseeded s : ready s → ready (set_urnd_reseed_complete true s).
Proof. intros [Hw Hc]. split; try done; [by destruct Hw; split | by destruct Hc; split]. Qed.

(** * Runs *)

(** The run of a program that fills the instruction memory with valid instructions. *)
Lemma run_valid_ok fuel m a :
  idle_wf (sim_state m) → clean (sim_state m) →
  Forall (fun i => valid i = true) (sim_program m) →
  s_imem_size (sim_state m) = 4 * Z.of_nat (length (sim_program m)) →
  get_start_addr (sim_state m) = Ok a → a < s_imem_size (sim_state m) →
  ∃ m1 r m', OTBNSim.start m = Ok ((), m1) ∧ OTBNSim.run fuel false m1 = Ok (r, m') ∧
    ∀ k, r = Some k → s_running (sim_state m') = false ∧ 0 ≤ k ≤ Z.of_nat fuel.
Proof.
  intros Hi Hc Hv Hz Ha Hlt.
  destruct (start_sim_ok m Hi Hc) as (s' & a' & E & Hr & Ha' & Hpc & _ & Hl & Him).
  rewrite Ha in Ha'. injection Ha' as <-.
  destruct (run_loop_ok fuel 0 (mkSim (set_urnd_reseed_complete true s') (sim_program m)
    (Some (ExecutionStats.init (sim_program m))))) as (r & m' & E' & _ & Hk).
  - split; try done; cbn; [congruence |]. left. split; [by apply ready_reseeded |].
    split; cbn; [congruence |]. unfold loop_starts. cbn. by rewrite Hl.
  - eexists _, r, m'. split; [exact E |]. split; [| done].
    unfold OTBNSim.run. erewrite bind_Ok by done. exact E'.
Qed.

(** C1: from an idle core with nothing pending, whose program consists of valid
    instructions and fills the instruction memory and whose start address lies
    inside it, starting and running without statistics raises no exception: no
    assertion of the simulator fails, no register, memory or stack access is out
    of range, whatever the instructions do and however long the run is.  If it
    ends, the core has stopped and the cycle count is at most the number of
    cycles simulated. *)
Theorem run_safe fuel m a :
  idle_wf (sim_state m) → clean (sim_state m) →
  Forall (fun i => valid i = true) (sim_program m) →
  s_imem_size (sim_state m) = 4 * Z.of_nat (length (sim_program m)) →
  get_start_addr (sim_state m) = Ok a → a < s_imem_size (sim_state m) →
  ∃ m1 r m', OTBNSim.start m = Ok ((), m1) ∧ OTBNSim.run fuel false m1 = Ok (r, m') ∧
    ∀ k, r = Some k → s_running (sim_state m') = false ∧ 0 ≤ k ≤ Z.of_nat fuel.
Proof. apply run_valid_ok. Qed.

Lemma run_safe_witness :
  ∃ m1 r m', OTBNSim.start (otbn_sim [LW 4 0 2; BNADD 1 2 3 0 4 1]) = Ok ((), m1) ∧
    OTBNSim.run 20 false m1 = Ok (r, m') ∧
    ∀ k, r = Some k → s_running (sim_state m') = false ∧ 0 ≤ k ≤ 20.
Proof.
  destruct otbn_state_ok as (Hi & Hc & _ & Hz & _).
  apply (run_safe 20 (otbn_sim [LW 4 0 2; BNADD 1 2 3 0 4 1]) 0).
  - exact Hi.
  - exact Hc.
  - apply (bool_decide_unpack _). by vm_compute.
  - vm_compute. reflexivity.
  - exact otbn_start_addr.
  - cbn [sim_state otbn_sim]. rewrite Hz. by vm_compute.
Defined.

(** C6: a straight-line program terminates.  From an idle core with nothing
    pending and start address 0, [run] without statistics on [N] instructions that are
    neither jumps nor loops, followed by ECALL, stops the core: loads and RND
    reads wait for one cycle, the start-up stall takes two, so the cycle count it
    returns is at most 2 * N + 4. *)
Theorem straight_line_terminates N fuel m :
  idle_wf (sim_state m) → clean (sim_state m) → straight N (sim_program m) →
  get_start_addr (sim_state m) = Ok 0 → (2 * N + 4 ≤ fuel)%nat →
  ∃ m1 k m', OTBNSim.start m = Ok ((), m1) ∧ OTBNSim.run fuel false m1 = Ok (Some k, m') ∧
    s_running (sim_state m') = false ∧ k ≤ 2 * Z.of_nat N + 4.
Proof.
  intros Hi Hc Hstr Ha Hf.
  destruct (start_sim_ok m Hi Hc) as (s' & a' & E & Hr & Ha' & Hpc & Hu & Hl & Him).
  rewrite Ha in Ha'. injection Ha' as <-.
  set (m1 := mkSim (set_urnd_reseed_complete true s') (sim_program m)
    (Some (ExecutionStats.init (sim_program m)))).
  assert (H : ends_within (2 * Z.of_nat N + 2 + 2) m1).
  { apply startup_ends; [lia | by apply ready_reseeded | | done | done |].
    - split; [done | apply Hstr |]. cbn. rewrite Hpc.
      pose proof (lookup_lt_Some _ _ _ (str_ecall _ _ Hstr)). change (0 ≫ 2) with 0. lia.
    - intros m' Hr' [Hp Hs Ha' Hls _] Hn. replace N with (N - 0)%nat at 1 by lia.
      apply (straight_ends N (N - 0) 0); [done |]. split; rewrite ?Hp, ?Hs; try done; try lia.
      + by rewrite (sa_pc _ _ Ha').
      + unfold loop_starts in *. rewrite Hls. cbn. by rewrite Hl. }
  destruct (H fuel 0) as (c & m' & E' & ? & ?); [lia |].
  eexists _, c, m'. split; [exact E |]. split; [| split; [done | lia]].
  unfold OTBNSim.run. erewrite bind_Ok by done. exact E'.
Qed.

Lemma straight_line_witness :
  ∃ m1 k m', OTBNSim.start (otbn_sim [LW 4 0 2; BNWSRR 3 1]) = Ok ((), m1) ∧
    OTBNSim.run 8 false m1 = Ok (Some k, m') ∧
    s_running (sim_state m') = false ∧ k ≤ 2 * Z.of_nat 2 + 4.
Proof.
  destruct otbn_state_ok as (Hi & Hc & _).
  apply (straight_line_terminates 2 8 (otbn_sim [LW 4 0 2; BNWSRR 3 1])).
  - exact Hi.
  - exact Hc.
  - split.
    + intros j i Hj. do 2 (destruct j as [| j]; [intros [= <-]; reflexivity |]). lia.
    + reflexivity.
    + apply (bool_decide_unpack _). by vm_compute.
  - exact otbn_start_addr.
  - lia.
Defined.

(** * Single steps *)

(** C11: the invariant of the simulator.  Call a simulator [runnable] when it has
    started, its program consists of valid instructions and fills the
    instruction memory, and it either runs, between two cycles, with the program
    counter and the loop addresses inside the instruction memory, or has
    stopped, idle and with nothing pending.  A [step] of a runnable simulator
    without statistics returns normally and leaves it runnable, with the same
    program. *)
Theorem step_invariant m :
  runnable m →
  ∃ r m', OTBNSim.step false m = Ok (r, m') ∧ runnable m' ∧ sim_program m' = sim_program m.
Proof.
  intros Hrn. destruct (s_running (sim_state m)) eqn:Hrun.
  - destruct (step_runnable m Hrn Hrun) as (r & m' & E & Hrn'). exists r, m'.
    split; [done |]. split; [done |]. pose proof Hrn as [_ _ _ [[Hr Hin] | (_ & _ & ?)]]; [| congruence].
    by destruct (step_outcome m r m' Hr (runnable_can_step m Hrn Hr Hin) E).
  - exists (None, []), m. unfold OTBNSim.step. erewrite bind_Ok by done. by rewrite Hrun.
Qed.

Lemma otbn_started p :
  (length p ≤ 1024)%nat →
  ∃ s', after OTBNSim.start (otbn_sim p) =
      mkSim s' (sim_program (otbn_sim p)) (Some (ExecutionStats.init (sim_program (otbn_sim p)))) ∧
    ready s' ∧ s_pc s' = 0 ∧ s_imem_size s' = 4096 ∧ s_urnd_stall s' = true ∧
    ls_stack (s_loop_stack s') = [].
Proof.
  intros Hp. destruct otbn_state_ok as (Hi & Hc & _ & Hz & _).
  destruct (start_sim_ok (otbn_sim p) Hi Hc) as (s' & a & E & Hr & Ha & Hpc & Hu & Hl & Him).
  assert (a = 0) as -> by (pose proof otbn_start_addr; cbn in Ha; congruence).
  exists s'. unfold after. rewrite E. split; [done |]. split; [done |]. split; [done |].
  split; [| done]. rewrite Him. exact Hz.
Qed.

Lemma otbn_can_step p m :
  Forall (fun i => valid i = true) p → sim_program m = p ++ replicate (1024 - length p) ECALL →
  is_Some (sim_stats m) → s_pc (sim_state m) ≫ 2 < Z.of_nat (length p) → can_step m.
Proof.
  intros Hv Hp Hs Hpc. split; [done | |].
  - rewrite Hp. apply Forall_app. split; [done |]. by apply Forall_replicate.
  - rewrite Hp, length_app. lia.
Qed.

Lemma step_invariant_witness :
  ∃ r m', OTBNSim.step false (after OTBNSim.start (otbn_sim [ADDI 2 0 5])) = Ok (r, m') ∧
    runnable m' ∧ sim_program m' = sim_program (otbn_sim [ADDI 2 0 5]).
Proof.
  destruct (otbn_started [ADDI 2 0 5]) as (s' & E & Hr & Hpc & Hz & _ & Hl).
  { cbn. lia. }
  rewrite E. apply (step_invariant (mkSim s' _ _)). split.
  - eexists. reflexivity.
  - apply (bool_decide_unpack _). by vm_compute.
  - cbn [sim_state]. rewrite Hz. by vm_compute.
  - left. split; [exact Hr |]. split; cbn [sim_state].
    + rewrite Hpc, Hz. lia.
    + unfold loop_starts. rewrite Hl. constructor.
Defined.

(** A stall cycle at start-up, without an answer from the environment. *)
Lemma after_stall m :
  ready (sim_state m) → can_step m → s_non_insn_stall (sim_state m) = true →
  s_urnd_reseed_complete (sim_state m) = true →
  ∃ s', after (OTBNSim.step false) m = OTBNSim.set_state s' m ∧ ready s' ∧
    same_arch (sim_state m) s' ∧ s_imem_size s' = s_imem_size (sim_state m) ∧
    s_urnd_reseed_complete s' = true ∧
    s_urnd_stall s' = false ∧ s_non_insn_stall s' = s_urnd_stall (sim_state m).
Proof.
  intros Hr Hc Hn Hre. destruct (stall_step m Hr Hc Hn) as (s' & E & Ec).
  destruct (stall_commit_ok (sim_state m) Hr) as (s'' & Ec' & Hr' & Ha & _ & Hi & Hp & Hre' & _).
  rewrite Ec in Ec'. injection Ec' as <-. exists s'. unfold after. rewrite E.
  split; [done |]. split; [done |]. split; [done |]. split; [done |]. rewrite Hre in Hp.
  rewrite <- (rd_start _ Hr'). destruct (s_urnd_stall (sim_state m)); naive_solver congruence.
Qed.

Lemma otbn_running_ok p :
  (0 < length p ≤ 1024)%nat → Forall (fun i => valid i = true) p →
  ∃ s, otbn_running p = mkSim s (p ++ replicate (1024 - length p) ECALL)
         (Some (ExecutionStats.init (sim_program (otbn_sim p)))) ∧
    ready s ∧ s_pc s = 0 ∧ s_non_insn_stall s = false ∧ can_step (otbn_running p).
Proof.
  intros Hp Hv. destruct (otbn_started p ltac:(lia)) as (s' & E & Hr & Hpc & _ & Hu & _).
  set (m1 := mkSim (set_urnd_reseed_complete true s') (sim_program (otbn_sim p))
    (Some (ExecutionStats.init (sim_program (otbn_sim p))))).
  assert (E1 : otbn_running p = steps 2 m1) by (unfold otbn_running; by rewrite E).
  rewrite E1. cbn [steps].
  assert (Hr1 : ready (sim_state m1)) by (by apply ready_reseeded).
  assert (Hc1 : can_step m1).
  { apply (otbn_can_step p); [done | done | by eexists |]. cbn [m1 sim_state].
    cbn. rewrite Hpc. change (0 ≫ 2) with 0. lia. }
  assert (Hst1 : s_non_insn_stall (sim_state m1) = true).
  { rewrite <- (rd_start _ Hr1). by apply (rd_urnd _ Hr1). }
  destruct (after_stall m1) as (s2 & -> & Hr2 & Ha2 & _ & Hre2 & Hu2 & Hn2); [done .. |].
  assert (Hc2 : can_step (OTBNSim.set_state s2 m1)).
  { destruct Hc1. split; [done | done |]. cbn. by rewrite (sa_pc _ _ Ha2). }
  destruct (after_stall (OTBNSim.set_state s2 m1)) as (s3 & -> & Hr3 & Ha3 & _ & _ & Hu3 & Hn3);
    [done | done | | done |].
  { cbn. rewrite Hn2. exact Hu. }
  exists s3. split; [done |]. split; [done |]. split; [| split].
  - rewrite (sa_pc _ _ Ha3). cbn. rewrite (sa_pc _ _ Ha2). exact Hpc.
  - rewrite Hn3. exact Hu2.
  - destruct Hc2. split; [done | done |]. cbn. by rewrite (sa_pc _ _ Ha3).
Qed.

(** C12: a faulting instruction does nothing.  When a step without statistics of a
    running simulator between two cycles, its program valid and the program
    counter inside it, stops the core, because of an error or of an ECALL, every
    general purpose and wide register, the call stack, MOD, ACC, the flags, the
    data memory and the program counter are what they were before the step.
    Nothing is said of the loop stack. *)
Theorem fault_has_no_effect m r m' :
  ready (sim_state m) → can_step m → OTBNSim.step false m = Ok (r, m') →
  s_running (sim_state m') = false → same_arch (sim_state m) (sim_state m').
Proof.
  intros Hr Hc E Hrun. destruct (step_outcome m r m' Hr Hc E) as [s' Hr' | ? ? ? ? ? s4 _ _ _ _ _ Hr' |].
  - pose proof (rd_running _ Hr'). cbn in Hrun. congruence.
  - pose proof (rd_running _ Hr'). cbn in Hrun. congruence.
  - done.
Qed.

(** A store to an odd address. *)
Lemma fault_witness :
  same_arch (sim_state (otbn_running [SW 2 1 0]))
    (sim_state (after (OTBNSim.step false) (otbn_running [SW 2 1 0]))).
Proof.
  destruct (otbn_running_ok [SW 2 1 0]) as (s & E & Hr & _ & _ & Hc).
  - cbn. lia.
  - apply (bool_decide_unpack _). by vm_compute.
  - apply (fault_has_no_effect _ (Some (SW 2 1 0),
      [TraceExtRegChange "INTR_STATE" "|=" 1 true 1; TraceExtRegChange "STATUS" "&= ~" 1 true 0;
       TraceExtRegChange "ERR_BITS" "=" 1 true 1])).
    + rewrite E. exact Hr.
    + exact Hc.
    + vm_compute. reflexivity.
    + vm_compute. reflexivity.
Defined.

(** * The effect of instructions *)

(** What a retired instruction did, in terms of its [execute] method. *)
Lemma retired m i l m' :
  ready (sim_state m) → can_step m → OTBNSim.step false m = Ok ((Some i, l), m') →
  s_running (sim_state m') = true →
  ∃ s1 s2 s3, valid i = true ∧ wf s1 ∧ same_arch (sim_state m) s1 ∧
    same_staged (sim_state m) s1 ∧ execute i s1 = Ok ((), s2) ∧
    takes_effect s2 (sim_state m') ∧ phases i (sim_state m) s1 s2 s3 ∧
    rnd_ready i (sim_state m) ∧ s_pc (sim_state m') = get_next_pc s3.
Proof.
  intros Hr Hc E Hrun.
  pose proof (step_outcome m _ m' Hr Hc E) as Ho. inversion Ho as [| ? ? s1 s2 s3 s4 Hri Hph Hh ? Hcm | ]; subst.
  - pose proof Hri as [_ Hv Hn Hrn].
    destruct (retire_values i (sim_state m) s1 s2 s3 s4)
      as (Ht & Hpc & Hw1 & Hss & Hsa & _); try done.
    exists s1, s2, s3. pose proof Hph as (_ & ? & _). done.
  - cbn in *. congruence.
Qed.

Lemma alu_spec_ext g g' i : (∀ j, g j = g' j) → alu_spec g i = alu_spec g' i.
Proof. intros H. destruct i; cbn; rewrite ?H; done. Qed.

Lemma bn_spec_ext w w' fl fl' md i :
  (∀ j, w j = w' j) → (∀ k, fl k = fl' k) → bn_spec w fl md i = bn_spec w' fl' md i.
Proof. intros H H'. destruct i; cbn -[additive logical]; rewrite ?H, ?H'; done. Qed.

(** What a retired ALU instruction does to the registers. *)
Lemma alu_effect m i l m' d v :
  ready (sim_state m) → can_step m → OTBNSim.step false m = Ok ((Some i, l), m') →
  s_running (sim_state m') = true →
  alu_spec (gpr (sim_state m)) i = Some (d, v) → 2 ≤ d →
  ∀ j, 2 ≤ j → gpr (sim_state m') j = if decide (j = d) then v else gpr (sim_state m) j.
Proof.
  intros Hr Hc E Hrun Hs Hd j Hj.
  destruct (retired m i l m' Hr Hc E Hrun) as (s1 & s2 & s3 & Hv & Hw1 & Ha & Hss & Ex & Ht & _).
  rewrite (te_gpr _ _ Ht) by done.
  rewrite <- (alu_spec_ext _ _ i (sa_gpr _ _ Ha)) in Hs.
  destruct (alu_ok i d v s1 Hw1 Hv Hs Hd) as (s2' & Ex' & Hn).
  rewrite Ex in Ex'. injection Ex' as <-. rewrite Hn by lia. case_decide; [done |].
  unfold next_gpr. rewrite (ss_file _ _ Hss).
  by apply (proj1 (clean_next _ (rd_wf _ Hr) (rd_clean _ Hr))).
Qed.

(** An ALU instruction is neither a jump nor a loop. *)
Lemma alu_plain g i d v : alu_spec g i = Some (d, v) → insn_control i = plain.
Proof. by destruct i. Qed.

(** Outside loops, an ALU instruction that retires is followed by the next one. *)
Lemma alu_next_pc m i l m' d v :
  ready (sim_state m) → can_step m → OTBNSim.step false m = Ok ((Some i, l), m') →
  s_running (sim_state m') = true → alu_spec (gpr (sim_state m)) i = Some (d, v) →
  loop_starts (sim_state m) = [] → s_pc (sim_state m') = s_pc (sim_state m) + 4.
Proof.
  intros Hr Hc E Hrun Hs Hl.
  destruct (retired m i l m' Hr Hc E Hrun) as (s1 & s2 & s3 & Hv & _ & _ & _ & _ & _ & Hph & Hrnd & ->).
  eapply (phases_straight i); try done; [apply (rd_wf _ Hr) | apply (rd_clean _ Hr) | by eapply alu_plain].
Qed.

(** C13: the base arithmetic instructions compute what the ISA says.  When a
    running simulator between two cycles, its program valid and the program
    counter inside it, makes a step without statistics that retires one of the
    sixteen ALU instructions with a destination other than x0 and x1 and does
    not stop the core, the destination holds the result in modular arithmetic
    (32-bit addition and subtraction, logical and arithmetic shifts, bitwise
    operations with sign-extended immediates) of the registers before the step,
    every other register from x2 on is unchanged, and outside loops the program
    counter has advanced by four. *)
Theorem alu_step m i l m' d v :
  ready (sim_state m) → can_step m → OTBNSim.step false m = Ok ((Some i, l), m') →
  s_running (sim_state m') = true →
  alu_spec (gpr (sim_state m)) i = Some (d, v) → 2 ≤ d →
  (∀ j, 2 ≤ j → gpr (sim_state m') j = if decide (j = d) then v else gpr (sim_state m) j) ∧
  (loop_starts (sim_state m) = [] → s_pc (sim_state m') = s_pc (sim_state m) + 4).
Proof. intros. split; intros; [by eapply alu_effect | by eapply alu_next_pc]. Qed.

Lemma alu_step_witness :
  let m := otbn_running [ADDI 2 0 (-3)] in
  let m' := after (OTBNSim.step false) m in
  (∀ j, 2 ≤ j → gpr (sim_state m') j = if decide (j = 2) then 2 ^ 32 - 3 else gpr (sim_state m) j) ∧
  (loop_starts (sim_state m) = [] → s_pc (sim_state m') = s_pc (sim_state m) + 4).
Proof.
  destruct (otbn_running_ok [ADDI 2 0 (-3)]) as (s & E & Hr & _ & _ & Hc).
  - cbn. lia.
  - apply (bool_decide_unpack _). by vm_compute.
  - apply (alu_step (otbn_running [ADDI 2 0 (-3)]) (ADDI 2 0 (-3))
      [TraceRegister "x02" 32 4294967293] _ 2 (2 ^ 32 - 3)).
    + rewrite E. exact Hr.
    + exact Hc.
    + vm_compute. reflexivity.
    + vm_compute. reflexivity.
    + vm_compute. reflexivity.
    + lia.
Defined.

(** The staged results of a retired big number instruction take effect. *)
Lemma bn_effect m i l m' r :
  ready (sim_state m) → can_step m → OTBNSim.step false m = Ok ((Some i, l), m') →
  s_running (sim_state m') = true →
  bn_spec (wdr (sim_state m)) (flags (sim_state m)) (mod_val (sim_state m)) i = Some r →
  (∀ j, 0 ≤ j → wdr (sim_state m') j =
     match fst r with
     | Some (d, v) => if decide (j = d) then v else wdr (sim_state m) j
     | None => wdr (sim_state m) j
     end) ∧
  (∀ k, 0 ≤ k ≤ 1 → flags (sim_state m') k =
     match snd r with
     | Some (fg, f) => if decide (k = fg) then f else flags (sim_state m) k
     | None => flags (sim_state m) k
     end).
Proof.
  intros Hr Hc E Hrun Hs.
  destruct (retired m i l m' Hr Hc E Hrun) as (s1 & s2 & s3 & Hv & Hw1 & Ha & Hss & Ex & Ht & _).
  destruct (clean_next _ (rd_wf _ Hr) (rd_clean _ Hr)) as (_ & Hcw & Hcf).
  assert (Hfl : ∀ k, flags s1 k = flags (sim_state m) k).
  { intros k. unfold flags. by rewrite (ss_csrs _ _ Hss). }
  assert (Hmod : mod_val s1 = mod_val (sim_state m)) by apply (sa_mod _ _ Ha).
  rewrite <- Hmod, <- (bn_spec_ext _ _ _ _ _ i (sa_wdr _ _ Ha) Hfl) in Hs.
  destruct (bn_ok i r s1 Hw1 Hv Hs) as (s2' & Ex' & Hnw & Hnf).
  rewrite Ex in Ex'. injection Ex' as <-. split.
  - intros j Hj. rewrite (te_wdr _ _ Ht), Hnw by done. unfold next_wdr in *.
    rewrite (ss_wdrs _ _ Hss), Hcw. done.
  - intros k Hk. rewrite (te_flags _ _ Ht), Hnf by done. unfold next_flags in *.
    rewrite (ss_csrs _ _ Hss). by rewrite <- Hcf.
Qed.

(** C14: the big number instructions compute what the ISA says.  A step that
    retires an addition, subtraction, comparison, logical operation, shift,
    selection, move or modular addition or subtraction leaves in the wide
    destination register the 256-bit result, and in the flag group the carry or
    borrow and the M, L and Z flags of the result; every other wide register and
    the other flag group are left alone. *)
Theorem bn_step m i l m' r :
  ready (sim_state m) → can_step m → OTBNSim.step false m = Ok ((Some i, l), m') →
  s_running (sim_state m') = true →
  bn_spec (wdr (sim_state m)) (flags (sim_state m)) (mod_val (sim_state m)) i = Some r →
  (∀ j, 0 ≤ j → wdr (sim_state m') j =
     match fst r with
     | Some (d, v) => if decide (j = d) then v else wdr (sim_state m) j
     | None => wdr (sim_state m) j
     end) ∧
  (∀ k, 0 ≤ k ≤ 1 → flags (sim_state m') k =
     match snd r with
     | Some (fg, f) => if decide (k = fg) then f else flags (sim_state m) k
     | None => flags (sim_state m) k
     end).
Proof. apply bn_effect. Qed.

Lemma bn_step_witness :
  wdr (sim_state (after (OTBNSim.step false) (otbn_running [BNSUBI 3 3 1 0]))) 3 = 2 ^ 256 - 1 ∧
  flags (sim_state (after (OTBNSim.step false) (otbn_running [BNSUBI 3 3 1 0]))) 0
    = mkFlags true true true false.
Proof.
  destruct (otbn_running_ok [BNSUBI 3 3 1 0]) as (s & E & Hr & _ & _ & Hc).
  - cbn. lia.
  - apply (bool_decide_unpack _). by vm_compute.
  - destruct (bn_step (otbn_running [BNSUBI 3 3 1 0]) (BNSUBI 3 3 1 0)
      [TraceFlags 0 (mkFlags true true true false); TraceRegister "w03" 256 (2 ^ 256 - 1)]
      (after (OTBNSim.step false) (otbn_running [BNSUBI 3 3 1 0]))
      (Some (3, 2 ^ 256 - 1), Some (0, mkFlags true true true false))) as [Hw Hf].
    + rewrite E. exact Hr.
    + exact Hc.
    + vm_compute. reflexivity.
    + vm_compute. reflexivity.
    + vm_compute. reflexivity.
    + split; [exact (Hw 3 ltac:(lia)) | exact (Hf 0 ltac:(lia))].
Defined.

(** ** Multiply-accumulate *)

(** BN.MULQACC multiplies the selected 64-bit quarters of its sources, shifts the
    product, adds it to the accumulator (or to zero when the option .Z is given) and keeps
    the low 256 bits; the wide registers and the flags do not change. *)
Theorem mulqacc_step m z a qa b qb sh l m' :
  ready (sim_state m) → can_step m →
  OTBNSim.step false m = Ok ((Some (BNMULQACC z a qa b qb sh), l), m') →
  s_running (sim_state m') = true →
  acc_val (sim_state m') =
    ((if truthy z then 0 else acc_val (sim_state m)) +
     (wdr (sim_state m) a / 2 ^ (64 * qa)) `mod` 2 ^ 64 *
     ((wdr (sim_state m) b / 2 ^ (64 * qb)) `mod` 2 ^ 64) * 2 ^ sh) `mod` 2 ^ 256 ∧
  (∀ j, wdr (sim_state m') j = wdr (sim_state m) j) ∧
  (∀ k, flags (sim_state m') k = flags (sim_state m) k).
Proof.
  intros Hr Hc E Hrun.
  destruct (retired m _ l m' Hr Hc E Hrun) as (s1 & s2 & s3 & Hv & Hw1 & Ha & Hss & Ex & Ht & _).
  destruct (clean_next _ (rd_wf _ Hr) (rd_clean _ Hr)) as (_ & Hcw & Hcf).
  cbn [valid] in Hv. ranges. cbn [execute] in Ex. unfold BNMULQACC_execute in Ex.
  erewrite bind_step in Ex by (apply mulqacc_eq; done || lia).
  destruct (write_ACC_eq (mulqacc_spec (wdr s1) (acc_val s1) z a qa b qb sh) s1)
    as (s2' & Ew & Hacc & Hwd & Hcs); [by apply Z.mod_pos_bound |].
  rewrite Ew in Ex. injection Ex as <-. rewrite (te_acc _ _ Ht), Hacc. split_and!.
  - unfold mulqacc_spec, quarter. unfold acc_val. by rewrite !(sa_wdr _ _ Ha), (sa_acc _ _ Ha).
  - intros j. rewrite (te_wdr _ _ Ht). unfold next_wdr in *. by rewrite Hwd, (ss_wdrs _ _ Hss).
  - intros k. rewrite (te_flags _ _ Ht). unfold next_flags in *. by rewrite Hcs, (ss_csrs _ _ Hss), <- Hcf.
Qed.

(** One step from the initial state, where the wide registers hold zero. *)
Lemma mulqacc_step_witness :
  acc_val (sim_state (after (OTBNSim.step false) (otbn_running [BNMULQACC 1 3 1 4 2 64]))) = 0.
Proof.
  destruct (otbn_running_ok [BNMULQACC 1 3 1 4 2 64]) as (s & E & Hr & _ & _ & Hc).
  - cbn. lia.
  - apply (bool_decide_unpack _). by vm_compute.
  - destruct (mulqacc_step (otbn_running [BNMULQACC 1 3 1 4 2 64]) 1 3 1 4 2 64
      [TraceWSR "ACC" 0]
      (after (OTBNSim.step false) (otbn_running [BNMULQACC 1 3 1 4 2 64]))) as [Ha _].
    + rewrite E. exact Hr.
    + exact Hc.
    + vm_compute. reflexivity.
    + vm_compute. reflexivity.
    + rewrite Ha. vm_compute. reflexivity.
Defined.

(** ** Modular arithmetic *)

Lemma addm_result a b M :
  0 ≤ a < M → 0 ≤ b < M → M < 2 ^ 256 →
  (if M <=? a + b then a + b - M else a + b) `mod` 2 ^ 256 = (a + b) `mod` M.
Proof.
  intros Ha Hb HM. destruct (Z.leb_spec M (a + b)).
  - rewrite Z.mod_small by lia. by apply (Z.mod_unique _ _ 1); [lia |]; lia.
  - by rewrite !Z.mod_small by lia.
Qed.

Lemma subm_result a b M :
  0 ≤ a < M → 0 ≤ b < M → M < 2 ^ 256 →
  (if a - b <? 0 then a - b + M else a - b) `mod` 2 ^ 256 = (a - b) `mod` M.
Proof.
  intros Ha Hb HM. destruct (Z.ltb_spec (a - b) 0).
  - rewrite Z.mod_small by lia. by apply (Z.mod_unique _ _ (-1)); [lia |]; lia.
  - by rewrite !Z.mod_small by lia.
Qed.

Lemma mod_val_bits s : wf s → in_bits 256 (mod_val s).
Proof. intros Hw. apply (WSRFile.wf_MOD _ (wf_wsrs _ Hw)). Qed.

(** BN.ADDM and BN.SUBM are addition and subtraction modulo MOD, for operands
    that are reduced already. *)
Theorem modular_step m sub d a b l m' :
  ready (sim_state m) → can_step m →
  OTBNSim.step false m = Ok ((Some (if sub : bool then BNSUBM d a b else BNADDM d a b), l), m') →
  s_running (sim_state m') = true → 0 ≤ d →
  0 ≤ wdr (sim_state m) a < mod_val (sim_state m) →
  0 ≤ wdr (sim_state m) b < mod_val (sim_state m) →
  wdr (sim_state m') d =
    (if sub then wdr (sim_state m) a - wdr (sim_state m) b
     else wdr (sim_state m) a + wdr (sim_state m) b) `mod` mod_val (sim_state m).
Proof.
  intros Hr Hc E Hrun Hd Ha Hb. pose proof (mod_val_bits _ (rd_wf _ Hr)) as [_ HM].
  destruct sub.
  - destruct (bn_effect _ _ _ _ _ Hr Hc E Hrun eq_refl) as [Hw _]. rewrite Hw by done. cbn [fst].
    rewrite decide_True by done. by apply subm_result.
  - destruct (bn_effect _ _ _ _ _ Hr Hc E Hrun eq_refl) as [Hw _]. rewrite Hw by done. cbn [fst].
    rewrite decide_True by done. by apply addm_result.
Qed.

(** A step that leaves the core running leaves it ready for the next one. *)
Lemma next_ready m :
  ready (sim_state m) → can_step m →
  s_running (sim_state (after (OTBNSim.step false) m)) = true →
  s_pc (sim_state (after (OTBNSim.step false) m)) ≫ 2 < Z.of_nat (length (sim_program m)) →
  ready (sim_state (after (OTBNSim.step false) m)) ∧ can_step (after (OTBNSim.step false) m).
Proof.
  intros Hr Hc. unfold after. destruct (step_ok m Hr Hc) as (r & m' & -> & Ho). intros Hrun Hpc.
  assert (H : ready (sim_state m') ∧ sim_program m' = sim_program m ∧ sim_stats m' = sim_stats m).
  { destruct Ho; [done | done |]. cbn in *. congruence. }
  destruct H as (Hr' & Hp & Hs). split; [done |]. destruct Hc. split; rewrite ?Hp, ?Hs; done.
Qed.

Lemma steps_ready n m :
  ready (sim_state (steps n m)) → can_step (steps n m) →
  s_running (sim_state (steps (S n) m)) = true →
  s_pc (sim_state (steps (S n) m)) ≫ 2 < Z.of_nat (length (sim_program (steps n m))) →
  ready (sim_state (steps (S n) m)) ∧ can_step (steps (S n) m).
Proof. apply next_ready. Qed.

(** Set MOD to 7, w2 to 5, and add w2 to itself. *)
Definition modular_demo : list insn := [BNADDI 1 0 7 0; BNWSRW 0 1; BNADDI 2 0 5 0; BNADDM 3 2 2].

Lemma modular_step_witness :
  wdr (sim_state (steps 4 (otbn_running modular_demo))) 3 = (5 + 5) `mod` 7.
Proof.
  destruct (otbn_running_ok modular_demo) as (s & E & Hr & _ & _ & Hc).
  - cbn. lia.
  - apply (bool_decide_unpack _). by vm_compute.
  - assert (Hr0 : ready (sim_state (otbn_running modular_demo))) by (rewrite E; exact Hr).
    destruct (steps_ready 0 (otbn_running modular_demo) Hr0 Hc) as [Hr1 Hc1];
      [by vm_compute | by vm_compute |].
    destruct (steps_ready 1 (otbn_running modular_demo) Hr1 Hc1) as [Hr2 Hc2];
      [by vm_compute | by vm_compute |].
    destruct (steps_ready 2 (otbn_running modular_demo) Hr2 Hc2) as [Hr3 Hc3];
      [by vm_compute | by vm_compute |].
    exact (modular_step (steps 3 (otbn_running modular_demo)) false 3 2 2
      [TraceRegister "w03" 256 3] (steps 4 (otbn_running modular_demo)) Hr3 Hc3
      ltac:(vm_compute; reflexivity) ltac:(vm_compute; reflexivity) ltac:(lia)
      ltac:(vm_compute; split; [discriminate | reflexivity])
      ltac:(vm_compute; split; [discriminate | reflexivity])).
Defined.

Lemma step_program m r m' :
  ready (sim_state m) → can_step m → OTBNSim.step false m = Ok (r, m') →
  sim_program m' = sim_program m.
Proof. intros Hr Hc E. by destruct (step_outcome m r m' Hr Hc E). Qed.

(** ** Multi-word addition *)

Lemma carry_add a b : in_bits 256 a → in_bits 256 b →
  a + b = (a + b) `mod` 2 ^ 256 + 2 ^ 256 * Z_of_bool (2 ^ 256 <=? a + b).
Proof.
  intros [? ?] [? ?]. destruct (Z.leb_spec (2 ^ 256) (a + b)); cbn [Z_of_bool].
  - rewrite <- (Z.mod_unique (a + b) (2 ^ 256) 1 (a + b - 2 ^ 256)) by lia. lia.
  - rewrite Z.mod_small by lia. lia.
Qed.

Lemma wide_add_result a0 a1 b0 b1 :
  in_bits 256 a0 → in_bits 256 b0 →
  ((a1 + b1 + Z_of_bool (2 ^ 256 <=? a0 + b0)) `mod` 2 ^ 256) * 2 ^ 256 + (a0 + b0) `mod` 2 ^ 256
  = ((a1 * 2 ^ 256 + a0) + (b1 * 2 ^ 256 + b0)) `mod` 2 ^ 512.
Proof.
  intros Ha Hb. pose proof (carry_add a0 b0 Ha Hb) as Hc.
  set (c := Z_of_bool (2 ^ 256 <=? a0 + b0)) in *. set (lo := (a0 + b0) `mod` 2 ^ 256) in *.
  assert (0 ≤ lo < 2 ^ 256) by (by apply Z.mod_pos_bound).
  replace (a1 * 2 ^ 256 + a0 + (b1 * 2 ^ 256 + b0)) with (2 ^ 256 * (a1 + b1 + c) + lo) by lia.
  clearbody lo c. clear Ha Hb.
  change (2 ^ 512) with (2 ^ 256 * 2 ^ 256). generalize dependent (2 ^ 256). intros B ? ?.
  rewrite Z.rem_mul_r by lia. rewrite (Z.add_comm (B * _) lo), (Z.mul_comm B (a1 + b1 + c)).
  rewrite Z.mod_add, Z.div_add by lia. rewrite (Z.mod_small lo), (Z.div_small lo) by lia.
  rewrite Z.add_0_l. ring.
Qed.

Lemma shifted_0 v : in_bits 256 v → shifted v 0 0 = v.
Proof. intros [? ?]. unfold shifted. cbn. rewrite Z.mul_1_r. by apply Z.mod_small. Qed.

(** BN.ADD followed by BN.ADDC on the same flag group is a 512-bit addition:
    the carry flag carries the carry. *)
Theorem wide_add m m' m'' fg d0 a0 b0 d1 a1 b1 l l' :
  ready (sim_state m) → can_step m → can_step m' →
  OTBNSim.step false m = Ok ((Some (BNADD d0 a0 b0 0 0 fg), l), m') →
  OTBNSim.step false m' = Ok ((Some (BNADDC d1 a1 b1 0 0 fg), l'), m'') →
  s_running (sim_state m') = true → s_running (sim_state m'') = true →
  0 ≤ d0 → 0 ≤ d1 → 0 ≤ a0 < 32 → 0 ≤ b0 < 32 → 0 ≤ a1 → 0 ≤ b1 < 32 →
  0 ≤ fg ≤ 1 → d0 ≠ d1 → d0 ≠ a1 → d0 ≠ b1 →
  wdr (sim_state m'') d1 * 2 ^ 256 + wdr (sim_state m'') d0 =
    ((wdr (sim_state m) a1 * 2 ^ 256 + wdr (sim_state m) a0) +
     (wdr (sim_state m) b1 * 2 ^ 256 + wdr (sim_state m) b0)) `mod` 2 ^ 512.
Proof.
  intros Hr Hc Hc' E E' Hrun Hrun' ? ? ? ? ? ? ? ? ? ?.
  assert (Hr' : ready (sim_state m')).
  { destruct (next_ready m Hr Hc) as [Hr' _]; unfold after in *; rewrite E in *; [done | | done].
    destruct Hc' as [_ _ Hpc]. by rewrite <- (step_program m _ m' Hr Hc E). }
  destruct (bn_effect _ _ _ _ _ Hr Hc E Hrun eq_refl) as [Hw Hf].
  destruct (bn_effect _ _ _ _ _ Hr' Hc' E' Hrun' eq_refl) as [Hw' _]. cbn [fst snd] in *.
  pose proof (wdr_bits _ (rd_wf _ Hr) a0 ltac:(done)) as Ha0.
  pose proof (wdr_bits _ (rd_wf _ Hr) b0 ltac:(done)) as Hb0.
  pose proof (wdr_bits _ (rd_wf _ Hr') b1 ltac:(done)) as Hb1.
  assert (W0 : wdr (sim_state m') d0 = (wdr (sim_state m) a0 + wdr (sim_state m) b0) `mod` 2 ^ 256).
  { rewrite Hw by done. cbn [additive fst snd]. rewrite decide_True by done. by rewrite shifted_0. }
  assert (Wa : wdr (sim_state m') a1 = wdr (sim_state m) a1)
    by (rewrite Hw by done; cbn [additive fst snd]; by rewrite decide_False).
  assert (Wb : wdr (sim_state m') b1 = wdr (sim_state m) b1)
    by (rewrite Hw by lia; cbn [additive fst snd]; by rewrite decide_False).
  assert (F : fC (flags (sim_state m') fg) = (2 ^ 256 <=? wdr (sim_state m) a0 + wdr (sim_state m) b0)).
  { rewrite Hf by done. cbn [additive mlz fst snd fC]. rewrite decide_True, (shifted_0 _ Hb0) by done. cbn [additive mlz fst snd fC].
    by rewrite (proj2 (Z.ltb_ge _ 0)) by (destruct Ha0, Hb0; lia). }
  rewrite (Hw' d1), (Hw' d0) by done. cbn [additive mlz fst snd fC].
  rewrite (decide_True (P := d1 = d1)), (decide_False (P := d0 = d1)) by done.
  rewrite W0, (shifted_0 _ Hb1), Wa, Wb, F. by apply wide_add_result.
Qed.

Definition wide_demo : list insn :=
  [BNSUBI 1 0 1 0; BNADDI 2 0 5 1; BNADD 3 1 2 0 0 0; BNADDC 4 0 0 0 0 0].

(** (2^256 - 1) + 5 as a 512-bit sum. *)
Lemma wide_add_witness :
  wdr (sim_state (steps 4 (otbn_running wide_demo))) 4 * 2 ^ 256 +
  wdr (sim_state (steps 4 (otbn_running wide_demo))) 3 = ((2 ^ 256 - 1) + 5) `mod` 2 ^ 512.
Proof.
  destruct (otbn_running_ok wide_demo) as (s & E & Hr & _ & _ & Hc).
  - cbn. lia.
  - apply (bool_decide_unpack _). by vm_compute.
  - assert (Hr0 : ready (sim_state (otbn_running wide_demo))) by (rewrite E; exact Hr).
    destruct (steps_ready 0 (otbn_running wide_demo) Hr0 Hc) as [Hr1 Hc1];
      [by vm_compute | by vm_compute |].
    destruct (steps_ready 1 (otbn_running wide_demo) Hr1 Hc1) as [Hr2 Hc2];
      [by vm_compute | by vm_compute |].
    destruct (steps_ready 2 (otbn_running wide_demo) Hr2 Hc2) as [Hr3 Hc3];
      [by vm_compute | by vm_compute |].
    exact (wide_add (steps 2 (otbn_running wide_demo)) (steps 3 (otbn_running wide_demo))
      (steps 4 (otbn_running wide_demo)) 0 3 1 2 4 0 0
      [TraceFlags 0 (mkFlags true false false false); TraceRegister "w03" 256 4]
      [TraceFlags 0 (mkFlags false false true false); TraceRegister "w04" 256 1]
      Hr2 Hc2 Hc3 ltac:(vm_compute; reflexivity) ltac:(vm_compute; reflexivity)
      ltac:(vm_compute; reflexivity) ltac:(vm_compute; reflexivity)
      ltac:(lia) ltac:(lia) ltac:(lia) ltac:(lia) ltac:(lia) ltac:(lia) ltac:(lia)
      ltac:(lia) ltac:(lia) ltac:(lia)).
Defined.

(** * Stalls *)

(** A load takes exactly two cycles.  At a load whose data is not there yet,
    the first step is a stall that changes no architectural state, and the second
    step runs the load. *)
Theorem load_takes_two_cycles m i :
  ready (sim_state m) → can_step m → s_non_insn_stall (sim_state m) = false →
  sim_program m !! Z.to_nat (s_pc (sim_state m) ≫ 2) = Some i → is_load i = true →
  dm_load_ready (s_dmem (sim_state m)) = false →
  ∃ m1 l m2, OTBNSim.step false m = Ok ((None, []), m1) ∧
    same_arch (sim_state m) (sim_state m1) ∧
    OTBNSim.step false m1 = Ok ((Some i, l), m2).
Proof.
  intros Hr Hc Hn Hi Hl Hnr.
  destruct (blocked_stall m i) as (m1 & E1 & Hr1 & Hp1 & Hn1 & Hin); try done.
  { intros Ep. destruct i; try done; cbn in Ep;
      unfold load_pre_execute, gets, mbind, M_bind, Dmem.in_progress_load_complete in Ep;
      by rewrite Hnr in Ep. }
  rewrite Hl in Hin. pose proof (can_step_place _ _ Hp1 Hc) as Hc1.
  destruct Hp1 as [Hpr _ Ha _ _].
  assert (Hi1 : sim_program m1 !! Z.to_nat (s_pc (sim_state m1) ≫ 2) = Some i)
    by (by rewrite Hpr, (sa_pc _ _ Ha)).
  destruct (pre_execute_ready i (sim_state m1)) as [Hpe Hrd];
    [apply Hr1 | unfold has_input; by rewrite Hl |].
  destruct (insn_retires m1 i) as (l & m2 & E2); try done. eauto 10.
Qed.

Lemma load_witness :
  ∃ m1 l m2, OTBNSim.step false (otbn_running [LW 4 0 2]) = Ok ((None, []), m1) ∧
    same_arch (sim_state (otbn_running [LW 4 0 2])) (sim_state m1) ∧
    OTBNSim.step false m1 = Ok ((Some (LW 4 0 2), l), m2).
Proof.
  destruct (otbn_running_ok [LW 4 0 2]) as (s & E & Hr & _ & _ & Hc).
  - cbn. lia.
  - apply (bool_decide_unpack _). by vm_compute.
  - apply (load_takes_two_cycles (otbn_running [LW 4 0 2]) (LW 4 0 2)).
    + rewrite E. exact Hr.
    + exact Hc.
    + vm_compute. reflexivity.
    + vm_compute. reflexivity.
    + reflexivity.
    + vm_compute. reflexivity.
Defined.
