(* ===== verification/ComponentProps.v ===== *)
(** Properties of the components of the simulator, each on its own. *)

From S2P Require Import Prelude BitLoops Trace Reg Gpr Flags Wsr Csr.
From S2P Require Import Dmem LoopStack ExtRegs State Isa Insn Stats SimProps.

(** * Data memory *)

(** Loading a byte string that fits into the memory and dumping the memory gives the
    padded string back, followed by the rest of the old contents. *)
Theorem dmem_load_dump data d
  (Hwf : Dmem.wf d) (Hbytes : Forall (in_bits 8) data)
  (Hfits : Z.of_nat (length data) ≤ 32 * Dmem.len d) :
  ∃ d' old, Dmem.load_le_words data d = Ok ((), d') ∧ Dmem.wf d' ∧
    Dmem.dump_le_words d = Ok old ∧
    Dmem.dump_le_words d' = Ok (Dmem.pad data ++ drop (length (Dmem.pad data)) old).
Proof.
  destruct (Dmem.load_dump_ok data d Hwf Hbytes Hfits) as (l & old & ? & _ & ?). by exists (Dmem.set_data l d), old.
Qed.

Definition small_dmem : Dmem := mkDmem [7; 8] [] false false false.

Lemma dmem_load_dump_witness :
  ∃ d' old, Dmem.load_le_words [1; 2; 3] small_dmem = Ok ((), d') ∧ Dmem.wf d' ∧
    Dmem.dump_le_words small_dmem = Ok old ∧
    Dmem.dump_le_words d' = Ok (Dmem.pad [1; 2; 3] ++ drop (length (Dmem.pad [1; 2; 3])) old).
Proof.
  apply dmem_load_dump.
  - split; repeat constructor; by vm_compute.
  - repeat constructor; by vm_compute.
  - by vm_compute.
Defined.

Lemma div4_inj a b : a `mod` 4 = 0 → b `mod` 4 = 0 → a / 4 = b / 4 → a = b.
Proof. intros. pose proof (Z.div_mod a 4). pose proof (Z.div_mod b 4). lia. Qed.

(** A 32-bit store takes effect at commit and then as on an array of words: before
    the commit every load still sees the old value; after it, a load from the stored
    address sees the new value and a load from any other aligned address the old one. *)
Theorem dmem_store_load addr v d stalled
  (Hwf : Dmem.wf d) (Hclean : dm_trace d = []) (Herr : dm_err_flag d = false)
  (Haddr : 0 ≤ addr) (Hal : Dmem.aligned_u32 addr d = true) (Hv : in_bits 32 v) :
  ∃ d1 d2, Dmem.store_u32 addr v d = Ok ((), d1) ∧ Dmem.commit stalled d1 = Ok d2 ∧
    ∀ a, 0 ≤ a → Dmem.aligned_u32 a d = true → ∃ old,
      Dmem.load_u32 a d = Ok (old, d) ∧ Dmem.load_u32 a d1 = Ok (old, d1) ∧
      Dmem.load_u32 a d2 = Ok (if a =? addr then v else old, d2).
Proof.
  pose proof Hal as Hal'. unfold Dmem.aligned_u32 in Hal'.
  apply andb_true_iff in Hal' as [Hmod%Z.eqb_eq Hlt%Z.ltb_lt].
  assert (Hs : Dmem.store_ok (Dmem.len d) (mkStore addr v false)) by done.
  rewrite Dmem.store_u32_eq, Hal by done.
  pose proof (Dmem.wf_store d _ Hwf Hs) as Hwf1.
  destruct (Dmem.dmem_commit_eq stalled _ Hwf1 Herr) as (Ec & Hwf2 & Hlen).
  eexists _, _. split_and!; [done | exact Ec |]. intros a Ha Hala. exists (default 0 (Dmem.word32 (dm_data d) (a / 4))).
  assert (Hal1 : ∀ d', length (dm_data d') = length (dm_data d) → Dmem.aligned_u32 a d' = true).
  { intros d' Hl. rewrite <- Hala. unfold Dmem.aligned_u32, Dmem.len. by rewrite Hl. }
  rewrite !Dmem.load_u32_eq by done. rewrite !Hal1 by done. split_and!; [done | done |].
  cbn [dm_data]. do 2 f_equal.
  unfold Dmem.written. cbn [Dmem.set_trace dm_trace dm_data]. rewrite Hclean. cbn [app foldl].
  rewrite Dmem.word32_u32 by (done || apply Z.div_pos; lia). cbn [st_addr st_value].
  apply andb_true_iff in Hala as [Hmoda%Z.eqb_eq _].
  destruct (Z.eqb_spec a addr) as [-> | Hne]; [by rewrite decide_True |].
  rewrite decide_False; [done |]. intros ?%div4_inj; done.
Qed.

Lemma dmem_store_load_witness :
  ∃ d1 d2, Dmem.store_u32 36 5 small_dmem = Ok ((), d1) ∧ Dmem.commit false d1 = Ok d2 ∧
    ∀ a, 0 ≤ a → Dmem.aligned_u32 a small_dmem = true → ∃ old,
      Dmem.load_u32 a small_dmem = Ok (old, small_dmem) ∧ Dmem.load_u32 a d1 = Ok (old, d1) ∧
      Dmem.load_u32 a d2 = Ok (if a =? 36 then 5 else old, d2).
Proof.
  apply dmem_store_load; try by vm_compute.
  split; repeat constructor; by vm_compute.
Defined.

(** * Registers *)

(** Writing a signed value that fits and committing makes it the value read back as
    signed, and its two's complement the value read back as unsigned. *)
Theorem reg_signed_roundtrip w r i
  (Hw : 0 < w) (Hr : Reg.wf w r) (Hi : - 2 ^ (w - 1) ≤ i < 2 ^ (w - 1)) :
  ∃ r', Reg.write_signed i r = Ok r' ∧ Reg.read_signed (Reg.commit r') = i ∧
    Reg.read_unsigned (Reg.commit r') = i `mod` 2 ^ w.
Proof.
  destruct Hr as (Hrw & _ & _). destruct (Reg.of_signed_ok w i Hw Hi) as [Es Hb].
  unfold Reg.write_signed, Reg.write_unsigned. rewrite Hrw, Es. cbn [mbind res_bind].
  rewrite (proj2 (fits_spec w _ ltac:(lia)) Hb : _ && _ = true). cbn [py_assert mbind res_bind].
  eexists. split_and!; [done | | done].
  unfold Reg.read_signed, Reg.read_unsigned, Reg.commit. cbn. rewrite Reg.to_signed_eq by done.
  assert (2 ^ w = 2 * 2 ^ (w - 1)) by (rewrite <- Z.pow_succ_r by lia; f_equal; lia).
  destruct (decide (0 ≤ i)).
  - rewrite Z.mod_small by lia. by zbool.
  - rewrite <- (Z.mod_add i 1 (2 ^ w)), Z.mod_small by lia. zbool. lia.
Qed.

Lemma reg_signed_roundtrip_witness :
  ∃ r', Reg.write_signed (-3) (mkReg 32 7 None) = Ok r' ∧ Reg.read_signed (Reg.commit r') = -3 ∧
    Reg.read_unsigned (Reg.commit r') = (-3) `mod` 2 ^ 32.
Proof.
  apply (reg_signed_roundtrip 32); [lia | split_and!; [done | by vm_compute | done] | lia].
Defined.

(** C21: Committing a register file visits only the registers written in the cycle, and
    this is the same as committing all of them: every register gets its staged value, or
    keeps its value; aborting keeps every value.  Nothing stays pending. *)
Theorem regfile_commit_all w n rf i
  (Hw : 0 ≤ w) (Hwf : RegFile.wf w n rf) (Hi : 0 ≤ i < n) :
  ∃ rf1 rf2, RegFile.commit rf = Ok rf1 ∧ RegFile.abort rf = Ok rf2 ∧
    RegFile.wf w n rf1 ∧ RegFile.wf w n rf2 ∧
    RegFile.value rf1 i = RegFile.next_value rf i ∧ RegFile.value rf2 i = RegFile.value rf i ∧
    rf_pending_writes rf1 = ∅ ∧ rf_pending_writes rf2 = ∅.
Proof.
  rewrite (RegFile.commit_all w n), (RegFile.abort_all w n) by done.
  eexists _, _. split_and!; try done.
  - apply RegFile.wf_map; [done | done | apply RegFile.Reg_wf_commit].
  - apply RegFile.wf_map; [done | done | apply RegFile.Reg_wf_abort].
  - unfold RegFile.value, RegFile.next_value. cbn. rewrite list_lookup_fmap.
    by destruct (rf_registers rf !! Z.to_nat i).
  - unfold RegFile.value. cbn. rewrite list_lookup_fmap. by destruct (rf_registers rf !! Z.to_nat i).
Qed.

(** Two 32-bit registers, with a write to the second one staged. *)
Definition small_file : RegFile := mkRegFile "x" 32 [mkReg 32 1 None; mkReg 32 2 (Some 3)] {[1]}.

Lemma regfile_commit_all_witness :
  ∃ rf1 rf2, RegFile.commit small_file = Ok rf1 ∧ RegFile.abort small_file = Ok rf2 ∧
    RegFile.wf 32 2 rf1 ∧ RegFile.wf 32 2 rf2 ∧
    RegFile.value rf1 1 = RegFile.next_value small_file 1 ∧
    RegFile.value rf2 1 = RegFile.value small_file 1 ∧
    rf_pending_writes rf1 = ∅ ∧ rf_pending_writes rf2 = ∅.
Proof.
  apply regfile_commit_all; [lia | | lia]. split; [done | done | | |].
  - repeat constructor; by vm_compute.
  - cbn [small_file rf_pending_writes]. intros i ->%elem_of_singleton. lia.
  - cbn [small_file rf_pending_writes rf_registers]. intros [| [| i]] r Hr Hn; simplify_eq/=; [done |].
    destruct Hn. by apply elem_of_singleton.
Defined.

(** * The call stack *)

Lemma write_x1_next v g g1 :
  GPRs.write_unsigned 1 v g = Ok ((), g1) → cs_next_uval (gp_x1 g1) = Some v.
Proof.
  unfold GPRs.write_unsigned. cbn [Z.eqb]. unfold CallStackReg.write_unsigned.
  intros E. cbn in E. inv_ok. by simplify_eq/=.
Qed.

Lemma read_x1 g v st :
  GPRs.wf g → cs_stack (gp_x1 g) = v :: st →
  ∃ g', GPRs.read_unsigned 1 g = Ok (v, g') ∧ GPRs.wf g' ∧ cs_stack (gp_x1 g') = v :: st ∧
    cs_saw_read (gp_x1 g') = true ∧ cs_next_uval (gp_x1 g') = cs_next_uval (gp_x1 g) ∧
    gp_err_flag g' = gp_err_flag g.
Proof.
  intros Hwf Hst. destruct (GPRs.read_unsigned_value 1 g Hwf ltac:(lia)) as (g' & E & Hwf' & _).
  assert (E' : GPRs.read_unsigned 1 g = Ok (v, GPRs.set_err (false || gp_err_flag g)
    (GPRs.set_x1 (mkCSR (cs_uval (gp_x1 g)) (cs_next_uval (gp_x1 g)) (v :: st) true) g))).
  { unfold GPRs.read_unsigned, CallStackReg.read_unsigned. cbn. by rewrite Hst. }
  exists g'. rewrite E' in *. by simplify_eq/=.
Qed.

(** The call stack register x1 is a stack of depth 8.  With fewer than 8 entries, an
    instruction that writes x1 pushes the value, the next read of x1 returns it, and the
    commit after the read leaves the stack as it was; with 8 entries, a write without a
    read raises the call stack error. *)
Theorem call_stack_lifo g v
  (Hwf : GPRs.wf g) (Herr : gp_err_flag g = false)
  (Hidle : cs_saw_read (gp_x1 g) = false) (Hv : in_bits 32 v) :
  ∃ g1, GPRs.write_unsigned 1 v g = Ok ((), g1) ∧
    if Z.of_nat (length (GPRs.peek_call_stack g)) <? 8 then
      ∃ g2 g3 g4, GPRs.commit (GPRs.post_insn g1) = Ok g2 ∧
        GPRs.peek_call_stack g2 = GPRs.peek_call_stack g ++ [v] ∧
        GPRs.read_unsigned 1 g2 = Ok (v, g3) ∧
        GPRs.commit (GPRs.post_insn g3) = Ok g4 ∧
        GPRs.peek_call_stack g4 = GPRs.peek_call_stack g
    else GPRs.err_bits (GPRs.post_insn g1) = err_bits.CALL_STACK.
Proof.
  destruct (GPRs.gprs_write_unsigned_ok 1 v g Hwf ltac:(lia) Hv) as (g1 & E & Hwf1 & He1 & _ & Hst & Hrd).
  exists g1. split; [done |]. pose proof (write_x1_next v g g1 E) as Hnx.
  pose proof (CallStackReg.wf_depth _ (GPRs.wf_x1 _ Hwf)) as Hdepth.
  unfold CallStackReg.stack_depth in Hdepth.
  assert (Hpost : CallStackReg.post_insn (gp_x1 g1) = (Z.of_nat (length (cs_stack (gp_x1 g))) =? 8)).
  { unfold CallStackReg.post_insn. by rewrite Hnx, Hrd, Hidle, Hst. }
  unfold GPRs.peek_call_stack at 1. rewrite length_reverse.
  unfold GPRs.post_insn at 1 2. rewrite Hpost. zcase.
  - zbool. destruct (GPRs.gprs_commit_eq g1 Hwf1) as [Ec Hwf2].
    { unfold GPRs.post_insn. rewrite Hpost. zbool. congruence. }
    assert (Hst2 : cs_stack (gp_x1 (GPRs.committed g1)) = v :: cs_stack (gp_x1 g)).
    { cbn. by rewrite Hnx, Hrd, Hidle, Hst. }
    destruct (read_x1 (GPRs.committed g1) v (cs_stack (gp_x1 g)) Hwf2 Hst2) as (g3 & E3 & Hwf3 & Hst3 & Hrd3 & Hnx3 & He3).
    destruct (GPRs.gprs_commit_eq g3 Hwf3) as [Ec3 _].
    { unfold GPRs.post_insn, CallStackReg.post_insn. rewrite Hnx3. cbn. cbn in He3. congruence. }
    eexists _, g3, _. split_and!; [exact Ec | | done | |].
    + unfold GPRs.peek_call_stack. by rewrite Hst2, reverse_cons.
    + unfold CallStackReg.post_insn. rewrite Hnx3. exact Ec3.
    + rewrite GPRs.committed_stack, Hrd3, Hst3, Hnx3. cbn. by rewrite app_nil_r.
  - unfold GPRs.post_insn. rewrite Hpost. by zbool.
Qed.

(** The general purpose registers after construction. *)
Definition init_gprs : GPRs :=
  mkGPRs (mkRegFile "x" 32 (replicate 32 (mkReg 32 0 None)) ∅) CallStackReg.init false.

Lemma init_gprs_wf : GPRs.wf init_gprs.
Proof.
  split; [| by repeat split; try constructor | | done].
  - split; cbn [init_gprs gp_file rf_registers rf_pending_writes]; try done.
    + by apply Forall_replicate.
    + intros i r [-> _]%lookup_replicate. done.
  - intros i Hi. by apply elem_of_empty in Hi.
Qed.

Lemma call_stack_lifo_witness :
  ∃ g1, GPRs.write_unsigned 1 9 init_gprs = Ok ((), g1) ∧
    if Z.of_nat (length (GPRs.peek_call_stack init_gprs)) <? 8 then
      ∃ g2 g3 g4, GPRs.commit (GPRs.post_insn g1) = Ok g2 ∧
        GPRs.peek_call_stack g2 = GPRs.peek_call_stack init_gprs ++ [9] ∧
        GPRs.read_unsigned 1 g2 = Ok (9, g3) ∧
        GPRs.commit (GPRs.post_insn g3) = Ok g4 ∧
        GPRs.peek_call_stack g4 = GPRs.peek_call_stack init_gprs
    else GPRs.err_bits (GPRs.post_insn g1) = err_bits.CALL_STACK.
Proof. apply call_stack_lifo; [apply init_gprs_wf | done | done | done]. Defined.

(** * Loops *)

(** Starting a loop of [n] iterations on a stack that is not full and then executing
    the last instruction of its body [n] times, with a commit after each, jumps back to
    the start of the body exactly [n - 1] times and leaves the stack as it was; on a
    full stack the loop error is raised. *)
Theorem loop_runs_count start n body l
  (Hn : 0 < n) (Hbody : 0 < body) (Hstart : 0 ≤ start) (Hclean : ls_err_flag l = false) :
  ∃ l1, LoopStack.start_loop start n body l = Ok ((), l1) ∧
    if Z.of_nat (length (ls_stack l)) =? LoopStack.stack_depth
    then LoopStack.err_bits l1 = err_bits.LOOP
    else ∃ l2, LoopStack.visits (Z.to_nat n) (start + 4 * body - 4) l1 =
        Ok (replicate (Z.to_nat (n - 1)) (Some start) ++ [None], l2) ∧
      ls_stack l2 = ls_stack l ∧ ls_err_flag l2 = false.
Proof.
  unfold LoopStack.start_loop. zbool. cbn [py_assert mbind res_bind].
  rewrite LoopLevel.level_init_ok by lia. cbn [mbind res_bind]. eexists. split; [done |].
  destruct (_ =? LoopStack.stack_depth); [done |]. rewrite Hclean. cbn [orb].
  replace (Z.to_nat n) with (S (Z.to_nat (n - 1))) by lia.
  pose proof (LoopStack.visits_level (Z.to_nat (n - 1)) (1 + (n - 1)) start (start + 4 * body - 4)) as H.
  rewrite Z2Nat.id in H by lia. by rewrite H; eexists.
Qed.

Lemma loop_runs_count_witness :
  ∃ l1, LoopStack.start_loop 8 3 2 LoopStack.init = Ok ((), l1) ∧
    if Z.of_nat (length (ls_stack LoopStack.init)) =? LoopStack.stack_depth
    then LoopStack.err_bits l1 = err_bits.LOOP
    else ∃ l2, LoopStack.visits (Z.to_nat 3) (8 + 4 * 2 - 4) l1 =
        Ok (replicate (Z.to_nat (3 - 1)) (Some 8) ++ [None], l2) ∧
      ls_stack l2 = ls_stack LoopStack.init ∧ ls_err_flag l2 = false.
Proof. apply loop_runs_count; done. Defined.

(** * Control and status registers *)

(** Writing one of the eight 32-bit CSRs that make up MOD and committing sets that
    word of MOD and no other: every MOD CSR reads back as written or as before. *)
Theorem csr_mod_words c w i j v
  (Hflags : FlagGroups.wf (csr_flags c)) (Hw : WSRFile.wf w)
  (Hi : 0 ≤ i < 8) (Hj : 0 ≤ j < 8) (Hv : in_bits 32 v) :
  ∃ w' old, CSRFile.write_unsigned (0x7d0 + i) v (c, w) = Ok ((), (c, w')) ∧
    CSRFile.read_unsigned c (0x7d0 + j) w = Ok (old, w) ∧
    CSRFile.read_unsigned c (0x7d0 + j) (WSRFile.commit w') =
      Ok (if i =? j then v else old, WSRFile.commit w').
Proof.
  assert (Hread : ∀ w, CSRFile.read_unsigned c (2000 + j) w =
    Ok (CSRFile._get_field j 32 (DumbWSR.read_unsigned (wsr_MOD w)), w)).
  { intros w0. unfold CSRFile.read_unsigned. zbool. unfold gets. by replace (2000 + j - 2000) with j by lia. }
  set (m := CSRFile.set_field i 32 v (DumbWSR.read_unsigned (wsr_MOD w))).
  assert (Hm : in_bits 256 m).
  { apply CSRFile.set_field_bits; [lia .. | done |]. apply (WSRFile.wf_MOD _ Hw). }
  assert (Hwrite : CSRFile.write_unsigned (2000 + i) v (c, w) =
    Ok ((), (c, WSRFile.set_MOD (mkDumb (dw_name (wsr_MOD w)) (dw_value (wsr_MOD w)) (Some m)) w))).
  { unfold CSRFile.write_unsigned, assertM, lift, gets, mbind, M_bind.
    rewrite (proj2 (fits_spec 32 v ltac:(lia)) Hv : _ && _ = true). cbn [py_assert mbind res_bind].
    zbool. replace (2000 + i - 2000) with i by lia. rewrite CSRFile._set_field_ok by (done || lia).
    fold m. cbn [mbind res_bind]. unfold zoom, WSRFile.write_MOD, DumbWSR.write_unsigned. cbn [fst snd].
    by rewrite (proj2 (fits_spec 256 m ltac:(lia)) Hm : _ && _ = true). }
  eexists _, _. split_and!; [exact Hwrite | apply Hread |]. rewrite Hread. do 2 f_equal.
  cbn. unfold m. rewrite CSRFile.get_set_field by (done || lia).
  destruct (Z.eqb_spec i j); by case_decide.
Qed.

Lemma csr_mod_words_witness :
  ∃ w' old, CSRFile.write_unsigned (0x7d0 + 3) 5 (CSRFile.init, WSRFile.init) = Ok ((), (CSRFile.init, w')) ∧
    CSRFile.read_unsigned CSRFile.init (0x7d0 + 3) WSRFile.init = Ok (old, WSRFile.init) ∧
    CSRFile.read_unsigned CSRFile.init (0x7d0 + 3) (WSRFile.commit w') =
      Ok (if 3 =? 3 then 5 else old, WSRFile.commit w').
Proof.
  apply csr_mod_words; [apply FlagGroups.flags_init_wf | apply WSRFile.wsrs_init_wf | lia | lia | done].
Defined.

(** Writing the flags CSR (both flag groups, 8 bits) and committing makes every flag
    read back as written, through the flags CSR and through the CSR of each group. *)
Theorem csr_flags_roundtrip c w v (Hv : in_bits 8 v) :
  ∃ c', CSRFile.write_unsigned 0x7c8 v (c, w) = Ok ((), (c', w)) ∧
    let c2 := mkCSRFile (FlagGroups.commit (csr_flags c')) in
    CSRFile.read_unsigned c2 0x7c8 w = Ok (v, w) ∧
    CSRFile.read_unsigned c2 0x7c0 w = Ok (v `mod` 16, w) ∧
    CSRFile.read_unsigned c2 0x7c1 w = Ok (v / 16, w).
Proof.
  destruct Hv as [H0 H1]. change (2 ^ 8) with 256 in H1.
  assert (v ∈ seqZ 0 256) as Hx by (apply elem_of_seqZ; lia).
  assert (Hall : Forall (fun v => ∃ c', CSRFile.write_unsigned 0x7c8 v (c, w) = Ok ((), (c', w)) ∧
    let c2 := mkCSRFile (FlagGroups.commit (csr_flags c')) in
    CSRFile.read_unsigned c2 0x7c8 w = Ok (v, w) ∧
    CSRFile.read_unsigned c2 0x7c0 w = Ok (v `mod` 16, w) ∧
    CSRFile.read_unsigned c2 0x7c1 w = Ok (v / 16, w)) (seqZ 0 256)).
  { let l := eval vm_compute in (seqZ 0 256) in change (seqZ 0 256) with l.
    repeat constructor; eexists; (split; [vm_compute; reflexivity |]); by vm_compute. }
  rewrite Forall_forall in Hall. by apply Hall.
Qed.

Lemma csr_flags_roundtrip_witness :
  ∃ c', CSRFile.write_unsigned 0x7c8 0xa5 (CSRFile.init, WSRFile.init) = Ok ((), (c', WSRFile.init)) ∧
    let c2 := mkCSRFile (FlagGroups.commit (csr_flags c')) in
    CSRFile.read_unsigned c2 0x7c8 WSRFile.init = Ok (0xa5, WSRFile.init) ∧
    CSRFile.read_unsigned c2 0x7c0 WSRFile.init = Ok (0xa5 `mod` 16, WSRFile.init) ∧
    CSRFile.read_unsigned c2 0x7c1 WSRFile.init = Ok (0xa5 / 16, WSRFile.init).
Proof. apply csr_flags_roundtrip. done. Defined.

(** * External registers *)

(** Committing the external registers when nothing was traced is skipped by the code;
    on reachable register files this is the same as committing every field, and a commit
    leaves no staged value. *)
Theorem ext_commit_all e (Hwf : OTBNExtRegs.wf e) :
  OTBNExtRegs.commit e = mkExtRegs (RGReg.commit <$> er_regs e) [] ∧
  OTBNExtRegs.wf (OTBNExtRegs.commit e) ∧
  map_Forall (fun _ r => RGReg.clean r) (er_regs (OTBNExtRegs.commit e)).
Proof.
  pose proof (OTBNExtRegs.ext_commit_wf e Hwf) as Hwf'.
  split_and!; [by apply OTBNExtRegs.ext_commit_eq | done |].
  apply (OTBNExtRegs.wf_clean _ Hwf'). by rewrite OTBNExtRegs.ext_commit_eq.
Qed.

(** One register with a field of 8 bits that has the value 3 staged. *)
Definition small_ext : OTBNExtRegs :=
  mkExtRegs {["CTRL" := [mkRGField "f" 8 0 0 false false false 3]]}
    [TraceExtRegChange "CTRL" "=" 3 false 3].

Lemma ext_commit_all_witness :
  OTBNExtRegs.commit small_ext = mkExtRegs (RGReg.commit <$> er_regs small_ext) [] ∧
  OTBNExtRegs.wf (OTBNExtRegs.commit small_ext) ∧
  map_Forall (fun _ r => RGReg.clean r) (er_regs (OTBNExtRegs.commit small_ext)).
Proof.
  apply ext_commit_all. split; [| done]. apply map_Forall_singleton.
  repeat constructor; by vm_compute.
Defined.

(** * Statistics *)

(** After recording a sequence of instructions, the histogram of mnemonics counts each
    of them once, and each is in exactly one basic block and one extended basic block,
    finished or current. *)
Theorem stats_account program events st
  (Hrun : foldM (fun st '(i, s) => ExecutionStats.record_insn i s st)
     (ExecutionStats.init program) events = Ok st) :
  ExecutionStats.get_insn_count st = Z.of_nat (length events) ∧ balanced st.
Proof.
  revert Hrun. apply (foldM_ind (fun pre st =>
    ExecutionStats.get_insn_count st = Z.of_nat (length pre) ∧ balanced st)).
  - split; [done | apply balanced_init].
  - intros pre [i s] acc acc' _ [Hc Hb] E.
    destruct (record_insn_balanced i s acc acc' E Hb) as [? Hc']. split; [| done].
    rewrite Hc', Hc, length_app. cbn. lia.
Qed.

(** An addition followed by an ECALL. *)
Definition small_program : list insn := [ADDI 2 0 1; ECALL].
Definition small_events : list (insn * OTBNState) :=
  (fun i => (i, otbn_state)) <$> small_program.
Definition small_stats : ExecutionStats :=
  match foldM (fun st '(i, s) => ExecutionStats.record_insn i s st)
          (ExecutionStats.init small_program) small_events with
  | Ok st => st
  | Err _ => ExecutionStats.init []
  end.

Lemma stats_account_witness :
  ExecutionStats.get_insn_count small_stats = 2 ∧ balanced small_stats.
Proof. apply (stats_account small_program small_events). by vm_compute. Defined.
