(* ===== verification/PyStr.v ===== *)
(** Python strings: the splitting, stripping and scanning that the parsers use, and [int(s, base)].
    Text is ASCII. *)

From Stdlib Require Import Ascii.
From S2P Require Import Prelude.

Definition is_digit (c : ascii) : bool :=
  let n := Z.of_nat (nat_of_ascii c) in (48 <=? n) && (n <=? 57).
Definition digit_val (c : ascii) : Z := Z.of_nat (nat_of_ascii c) - 48.

(** The longest prefix of digits, with the number read so far. *)
Fixpoint read_digits (acc : option Z) (s : string) : option Z * string :=
  match s with
  | String c s' =>
      if is_digit c then read_digits (Some (default 0 acc * 10 + digit_val c)) s'
      else (acc, s)
  | EmptyString => (acc, s)
  end.

(** [$]: the end of the string, or a newline there. *)
Definition at_end (s : string) : bool :=
  match s with
  | EmptyString => true
  | String c EmptyString => Ascii.eqb c "010"
  | _ => false
  end.

(** [s.split(sep)]: [cur] is the piece being read, in reverse. *)
Fixpoint split_on (sep : ascii) (cur s : string) : list string :=
  match s with
  | EmptyString => [String.rev cur]
  | String c s =>
      if Ascii.eqb c sep then String.rev cur :: split_on sep EmptyString s
      else split_on sep (String c cur) s
  end.

Definition split (sep : ascii) (s : string) : list string := split_on sep EmptyString s.

(** [str.strip()]: the ASCII characters that are white space. *)
Definition is_space (c : ascii) : bool :=
  let n := Z.of_nat (nat_of_ascii c) in
  ((9 <=? n) && (n <=? 13)) || ((28 <=? n) && (n <=? 32)).

Fixpoint lstrip (s : string) : string :=
  match s with
  | String c s' => if is_space c then lstrip s' else s
  | EmptyString => EmptyString
  end.

Definition strip (s : string) : string := String.rev (lstrip (String.rev (lstrip s))).

(** [str.lower()] *)
Definition lower_ascii (c : ascii) : ascii :=
  let n := nat_of_ascii c in
  if (65 <=? Z.of_nat n) && (Z.of_nat n <=? 90) then ascii_of_nat (n + 32) else c.

Fixpoint lower (s : string) : string :=
  match s with
  | EmptyString => EmptyString
  | String c s => String (lower_ascii c) (lower s)
  end.

(** The longest prefix of characters of a class, and the rest. *)
Fixpoint span (p : ascii → bool) (s : string) : string * string :=
  match s with
  | String c s' =>
      if p c then let '(pre, rest) := span p s' in (String c pre, rest) else (EmptyString, s)
  | EmptyString => (EmptyString, EmptyString)
  end.

Lemma read_digits_nonneg s acc n rest :
  read_digits acc s = (Some n, rest) → (∀ a, acc = Some a → 0 ≤ a) → 0 ≤ n.
Proof.
  revert acc. induction s as [| c s IH]; cbn; intros acc E Ha; [naive_solver |].
  destruct (is_digit c) eqn:Hc; [| naive_solver].
  apply IH in E; [done |]. intros a [= <-]. unfold is_digit, digit_val in *.
  apply andb_true_iff in Hc as [? _]. destruct acc as [a |]; cbn; [specialize (Ha a eq_refl) |]; lia.
Qed.

Definition digit36 (c : ascii) : option Z :=
  let n := Z.of_nat (nat_of_ascii c) in
  if (48 <=? n) && (n <=? 57) then Some (n - 48)
  else if (65 <=? n) && (n <=? 90) then Some (n - 55)
  else if (97 <=? n) && (n <=? 122) then Some (n - 87)
  else None.

(** What comes before the rest of the digits; an underscore may follow a digit or a prefix. *)
Inductive before := Nothing | Prefix | Digit | Underscore.

Fixpoint int_digits (base : Z) (b : before) (acc : Z) (s : string) : option Z :=
  match s with
  | EmptyString => match b with Digit => Some acc | _ => None end
  | String c s =>
      if Ascii.eqb c "_" then
        match b with Digit | Prefix => int_digits base Underscore acc s | _ => None end
      else
        match digit36 c with
        | Some d => if d <? base then int_digits base Digit (acc * base + d) s else None
        | None => None
        end
  end.

(** The digits after the sign in base 16: an optional prefix [0x]. *)
Definition int_hex_unsigned (s : string) : option Z :=
  match s with
  | String "0" (String x s') =>
      if Ascii.eqb x "x" || Ascii.eqb x "X" then int_digits 16 Prefix 0 s'
      else int_digits 16 Nothing 0 s
  | _ => int_digits 16 Nothing 0 s
  end.

(** [int(s, 16)] *)
Definition int_hex (s : string) : res Z :=
  of_option ValueError
    (match strip s with
     | String "-" s => Z.opp <$> int_hex_unsigned s
     | String "+" s => int_hex_unsigned s
     | s => int_hex_unsigned s
     end).

(** [int(s, 0)]: the base is taken from the prefix; a decimal number with a leading zero must
    be zero. *)
Definition int_auto_unsigned (s : string) : option Z :=
  match s with
  | String "0" (String x s') =>
      if Ascii.eqb x "x" || Ascii.eqb x "X" then int_digits 16 Prefix 0 s'
      else if Ascii.eqb x "o" || Ascii.eqb x "O" then int_digits 8 Prefix 0 s'
      else if Ascii.eqb x "b" || Ascii.eqb x "B" then int_digits 2 Prefix 0 s'
      else match int_digits 10 Nothing 0 s with Some 0 => Some 0 | _ => None end
  | _ => int_digits 10 Nothing 0 s
  end.
Definition int_auto (s : string) : res Z :=
  of_option ValueError
    (match strip s with
     | String "-" s => Z.opp <$> int_auto_unsigned s
     | String "+" s => int_auto_unsigned s
     | s => int_auto_unsigned s
     end).

(** [int(s)]: base ten, leading zeros allowed. *)
Definition int_dec (s : string) : res Z :=
  of_option ValueError
    (match strip s with
     | String "-" s => Z.opp <$> int_digits 10 Nothing 0 s
     | String "+" s => int_digits 10 Nothing 0 s
     | s => int_digits 10 Nothing 0 s
     end).
