(* ===== verification/Yaml.v ===== *)
(** Python dictionaries, parsed YAML and the checks on it
    (util/shared/yaml_parse_helpers.py). *)

From S2P Require Import Prelude.

(** * Dictionaries with string keys

    A Python [dict] iterates in insertion order; assigning to a present key
    keeps its position. *)

Definition dict (A : Type) : Type := list (string * A).

Section dict.
Context {A : Type}.
Implicit Types (d : dict A) (k : string).

(** [d.get(k)] *)
Fixpoint dget k d : option A :=
  match d with
  | [] => None
  | (k', v) :: d => if decide (k = k') then Some v else dget k d
  end.

(** [d[k] = v] *)
Fixpoint dset k (v : A) d : dict A :=
  match d with
  | [] => [(k, v)]
  | (k', v') :: d => if decide (k = k') then (k', v) :: d else (k', v') :: dset k v d
  end.

Lemma dget_dset k k' v d :
  dget k' (dset k v d) = if decide (k' = k) then Some v else dget k' d.
Proof.
  induction d as [| [k0 v0] d IH]; cbn; [done |].
  destruct (decide (k = k0)) as [-> |]; cbn; repeat case_decide; congruence.
Qed.

Lemma dget_None k d : dget k d = None ↔ k ∉ d.*1.
Proof.
  induction d as [| [k0 v0] d IH]; cbn; [split; [intros _; apply not_elem_of_nil | done] |].
  rewrite not_elem_of_cons. case_decide; naive_solver.
Qed.

Lemma dget_Some_elem k v d : dget k d = Some v → (k, v) ∈ d.
Proof.
  induction d as [| [k0 v0] d IH]; cbn; [done |].
  case_decide; intros ?; simplify_eq; [by left | right; by apply IH].
Qed.

Lemma elem_dget k v d : NoDup d.*1 → (k, v) ∈ d → dget k d = Some v.
Proof.
  induction d as [| [k0 v0] d IH]; cbn; [by intros _ ?%elem_of_nil |].
  intros [Hn Hd]%NoDup_cons [[= -> ->] | Hin]%elem_of_cons; [by rewrite decide_True |].
  rewrite decide_False; [by apply IH |]. intros ->. apply Hn.
  apply list_elem_of_fmap. by exists (k0, v).
Qed.

(** A new key goes to the end. *)
Lemma dset_fresh k v d : k ∉ d.*1 → dset k v d = d ++ [(k, v)].
Proof.
  induction d as [| [k0 v0] d IH]; cbn; [done |]. intros [? ?]%not_elem_of_cons.
  rewrite decide_False by done. by rewrite IH.
Qed.

Lemma dset_keys k v d : (dset k v d).*1 = if decide (k ∈ d.*1) then d.*1 else d.*1 ++ [k].
Proof.
  induction d as [| [k0 v0] d IH]; cbn [dset fmap list_fmap fst].
  - by rewrite decide_False by apply not_elem_of_nil.
  - destruct (decide (k = k0)) as [-> | Hk]; cbn [fmap list_fmap fst].
    + by rewrite decide_True by (by left).
    + rewrite IH. destruct (decide (k ∈ d.*1)) as [Hin | Hin].
      * by rewrite decide_True by (by right).
      * by rewrite decide_False by (by intros [? | ?]%elem_of_cons).
Qed.

Lemma dset_NoDup k v d : NoDup d.*1 → NoDup (dset k v d).*1.
Proof.
  intros Hd. rewrite dset_keys. case_decide as Hk; [done |].
  apply NoDup_app. split_and!; [done | | apply NoDup_singleton].
  intros x Hx ->%list_elem_of_singleton. done.
Qed.

Lemma elem_dget_iff k v d : NoDup d.*1 → (k, v) ∈ d ↔ dget k d = Some v.
Proof. intros. split; [by apply elem_dget | apply dget_Some_elem]. Qed.

Lemma elem_dset k v d k' v' :
  NoDup d.*1 → (k', v') ∈ dset k v d ↔ k' = k ∧ v' = v ∨ k' ≠ k ∧ (k', v') ∈ d.
Proof.
  intros Hd. rewrite !elem_dget_iff by auto using dset_NoDup. rewrite dget_dset.
  case_decide; naive_solver.
Qed.

Lemma dset_elem k v d x : x ∈ dset k v d → x = (k, v) ∨ x ∈ d.
Proof.
  induction d as [| [k0 v0] d IH]; cbn; [by intros ?%list_elem_of_singleton; left |].
  case_decide as Hk; subst; rewrite !elem_of_cons; naive_solver.
Qed.
End dict.

(** [for k, v in l: d[k] = g(k, v)] *)
Definition dset_all {A B} (g : string → A → B) (d : dict B) (l : dict A) : dict B :=
  foldl (fun d '(k, v) => dset k (g k v) d) d l.

Lemma foldM_dset {A B} (f : dict B → string * A → res (dict B)) (g : string → A → B) d l :
  (∀ d k v, (k, v) ∈ l → f d (k, v) = Ok (dset k (g k v) d)) →
  foldM f d l = Ok (dset_all g d l).
Proof.
  unfold dset_all. revert d. induction l as [| [k v] l IH]; intros d Hf; [done |]. cbn [foldM foldl].
  rewrite Hf by (by left). cbn [mbind res_bind]. apply IH. intros. apply Hf. by right.
Qed.

Lemma dget_dset_all {A B} (g : string → A → B) d (l : dict A) k :
  NoDup l.*1 →
  dget k (dset_all g d l) = match dget k l with Some v => Some (g k v) | None => dget k d end.
Proof.
  unfold dset_all. revert d. induction l as [| [k' v] l IH]; intros d Hn; [done |]. cbn [foldl dget].
  cbn in Hn. apply NoDup_cons in Hn as [Hk Hn]. rewrite IH by done.
  destruct (decide (k = k')) as [-> |].
  - rewrite (proj2 (dget_None k' l) Hk), dget_dset. by rewrite decide_True.
  - destruct (dget k l); [done |]. rewrite dget_dset. by rewrite decide_False.
Qed.

Lemma lookup_list_to_map {A} (d : dict A) k : (list_to_map d : gmap string A) !! k = dget k d.
Proof.
  induction d as [| [k' v] d IH]; cbn; [apply lookup_empty |]. case_decide as Hk.
  - subst. apply lookup_insert_eq.
  - rewrite lookup_insert_ne by done. apply IH.
Qed.

(** * Parsed YAML

    What [yaml.load] returns, as far as the type tests of the code tell values
    apart. *)

Inductive yaml :=
  | YNone
  | YBool (b : bool)
  | YInt (z : Z)
  | YStr (s : string)
  | YList (l : list yaml)
  | YDict (d : list (yaml * yaml))
  | YOther.

Fixpoint yget (k : string) (d : list (yaml * yaml)) : option yaml :=
  match d with
  | [] => None
  | (YStr k', v) :: d => if decide (k = k') then Some v else yget k d
  | _ :: d => yget k d
  end.

Definition yaml_key_allowed (allowed : list string) (k : yaml) : bool :=
  match k with YStr k => bool_decide (k ∈ allowed) | _ => false end.

Definition check_keys (obj : yaml) (required_keys optional_keys : list string)
    : res (list (yaml * yaml)) :=
  match obj with
  | YDict d =>
      let allowed := required_keys ++ optional_keys in
      py_assert (bool_decide (NoDup allowed));;
      let missing := filter (fun k => yget k d = None) required_keys in
      let unexpected := filter (fun k => yaml_key_allowed allowed k = false) d.*1 in
      match missing, unexpected with
      | [], [] => Ok d
      | _, _ => Err ValueError
      end
  | _ => Err ValueError
  end.

Definition check_str (obj : yaml) : res string :=
  match obj with YStr s => Ok s | _ => Err ValueError end.

Definition check_optional_str (obj : option yaml) : res (option string) :=
  match obj with
  | None | Some YNone => Ok None
  | Some (YStr s) => Ok (Some s)
  | Some _ => Err ValueError
  end.

Definition check_bool (obj : yaml) : res bool :=
  match obj with YBool b => Ok b | _ => Err ValueError end.

(** A Python [bool] is an [int]. *)
Definition check_int (obj : yaml) : res Z :=
  match obj with YInt z => Ok z | YBool b => Ok (Z_of_bool b) | _ => Err ValueError end.

Definition check_list (obj : yaml) : res (list yaml) :=
  match obj with YList l => Ok l | _ => Err ValueError end.

Definition get_optional_str (data : list (yaml * yaml)) (key : string) : res (option string) :=
  check_optional_str (yget key data).

Definition index_add {T} (get_key : T → string) (ret : dict T) (obj : T) : res (dict T) :=
  let key := get_key obj in
  match dget key ret with
  | Some _ => Err ValueError
  | None => Ok (dset key obj ret)
  end.

Definition index_list {T} (objs : list T) (get_key : T → string) : res (dict T) :=
  foldM (index_add get_key) [] objs.

(** The index lists the objects in order, under distinct keys. *)
Lemma index_list_ok {T} (get_key : T → string) objs d :
  index_list objs get_key = Ok d →
  d = (fun o => (get_key o, o)) <$> objs ∧ NoDup (get_key <$> objs).
Proof.
  unfold index_list. apply (foldM_ind (fun pre d =>
    d = (fun o => (get_key o, o)) <$> pre ∧ NoDup (get_key <$> pre))).
  { split; [done | constructor]. }
  clear d. intros pre o d d' _ [-> Hn]. unfold index_add.
  destruct (dget _ _) eqn:Eo; [done |]. intros [= <-].
  apply dget_None in Eo. rewrite dset_fresh by done.
  rewrite <- list_fmap_compose in Eo. split; [by rewrite fmap_app |].
  rewrite fmap_app. apply NoDup_app. split_and!; [done | | apply NoDup_singleton].
  intros x Hx ->%list_elem_of_singleton. done.
Qed.
