(* ===== verification/BitRanges.v ===== *)
(** Bit ranges of an encoding field (util/shared/bit_ranges.py): a value is split
    over a list of ranges of an instruction word, most significant part first. *)

From Stdlib Require Import Ascii.
From S2P Require Import Prelude PyStr.

Record BitRanges := mkBitRanges {
  br_mask : Z;
  br_ranges : list (Z * Z);
  br_width : Z
}.

Module BitRanges.
(** The mask of the bits [lsb] to [msb]. *)
Definition rng_mask (msb lsb : Z) : Z := (1 ≪ (msb + 1)) - (1 ≪ lsb).

(** One round of the loop of [from_list]. *)
Definition add_range (acc : Z * Z) (rng : Z * Z) : res (Z * Z) :=
  let '(mask, width) := acc in
  let '(msb, lsb) := rng in
  py_assert ((0 <=? lsb) && (lsb <=? msb) && (msb <=? 31));;
  py_assert (negb (truthy (rng_mask msb lsb .& mask)));;
  Ok (mask .| rng_mask msb lsb, width + (msb - lsb + 1)).

Definition from_list (ranges : list (Z * Z)) : res BitRanges :=
  '(mask, width) ← foldM add_range (0, 0) ranges;
  Ok (mkBitRanges mask ranges width).

(** ** Parsing *)

(** [re.match(r'([0-9]+)(?:-([0-9]+))?$', rng)] *)
Definition match_range (rng : string) : option (Z * option Z) :=
  match read_digits None rng with
  | (Some msb, rest) =>
      if at_end rest then Some (msb, None)
      else match rest with
           | String "-" rest =>
               match read_digits None rest with
               | (Some lsb, rest) => if at_end rest then Some (msb, Some lsb) else None
               | (None, _) => None
               end
           | _ => None
           end
  | (None, _) => None
  end.

(** One round of the loop of [from_yaml]. *)
Definition add_yaml_range (acc : Z * Z * list (Z * Z) * Z) (rng : string)
    : res (Z * Z * list (Z * Z) * Z) :=
  let '(overlaps, mask, ranges, width) := acc in
  '(msb, maybe_lsb) ← of_option ValueError (match_range rng);
  let lsb := default msb maybe_lsb in
  if msb <? lsb then Err ValueError
  else if 32 <=? msb then Err ValueError
  else
    let m := rng_mask msb lsb in
    Ok (overlaps .| (m .& mask), mask .| m, ranges ++ [(msb, lsb)],
        width + (msb - lsb + 1)).

Definition from_yaml (as_string : string) : res BitRanges :=
  match as_string with
  | EmptyString => Err ValueError
  | _ =>
      '(overlaps, mask, ranges, width) ←
        foldM add_yaml_range (0, 0, [], 0) (split "," as_string);
      if truthy overlaps then Err ValueError
      else Ok (mkBitRanges mask ranges width)
  end.

(** ** Encoding and decoding *)

Definition encode (value : Z) (b : BitRanges) : res Z :=
  let '(ret, bits_taken) :=
    foldl (fun '(ret, bits_taken) '(msb, lsb) =>
      let rng_width := msb - lsb + 1 in
      let value_msb := br_width b - 1 - bits_taken in
      let value_lsb := value_msb - rng_width + 1 in
      let rng_value := (value ≫ value_lsb) .& mask rng_width in
      (ret .| (rng_value ≪ lsb), bits_taken + rng_width)) (0, 0) (br_ranges b) in
  py_assert (bits_taken =? br_width b);;
  Ok ret.

Definition decode (raw : Z) (b : BitRanges) : Z :=
  foldl (fun ret '(msb, lsb) =>
    let width := msb - lsb + 1 in
    (ret ≪ width) .| ((raw ≫ lsb) .& mask width)) 0 (br_ranges b).

(** ** Well-formed ranges *)

Fixpoint width_of (rs : list (Z * Z)) : Z :=
  match rs with [] => 0 | (msb, lsb) :: rs => (msb - lsb + 1) + width_of rs end.

Fixpoint mask_of (rs : list (Z * Z)) : Z :=
  match rs with [] => 0 | (msb, lsb) :: rs => rng_mask msb lsb .| mask_of rs end.

(** In range and pairwise disjoint. *)
Fixpoint disjoint (rs : list (Z * Z)) : Prop :=
  match rs with
  | [] => True
  | (msb, lsb) :: rs =>
      0 ≤ lsb ≤ msb ∧ msb < 32 ∧ rng_mask msb lsb .& mask_of rs = 0 ∧ disjoint rs
  end.

Record wf (b : BitRanges) : Prop := {
  wf_disjoint : disjoint (br_ranges b);
  wf_width : br_width b = width_of (br_ranges b);
  wf_mask : br_mask b = mask_of (br_ranges b)
}.

(** ** Reference definitions

    [enc] and [dec] give the two loops as recursions on the list of ranges,
    without an accumulator. *)

Fixpoint enc (v : Z) (rs : list (Z * Z)) : Z :=
  match rs with
  | [] => 0
  | (msb, lsb) :: rs =>
      (((v ≫ width_of rs) .& mask (msb - lsb + 1)) ≪ lsb) .| enc v rs
  end.

Fixpoint dec (raw : Z) (rs : list (Z * Z)) : Z :=
  match rs with
  | [] => 0
  | (msb, lsb) :: rs =>
      (((raw ≫ lsb) .& mask (msb - lsb + 1)) ≪ width_of rs) .| dec raw rs
  end.

(** [raw] and [raw'] agree on the bits of the mask [m]. *)
Definition agree (m raw raw' : Z) : Prop :=
  ∀ i, 0 ≤ i → Z.testbit m i = true → Z.testbit raw i = Z.testbit raw' i.

Lemma agree_land m raw raw' : raw .& m = raw' .& m ↔ agree m raw raw'.
Proof.
  split.
  - intros E i Hi Hm. assert (E' := f_equal (fun z => Z.testbit z i) E).
    cbn beta in E'. rewrite !Z.land_spec, Hm, !andb_true_r in E'. done.
  - intros H. bitwise i. destruct (Z.testbit m i) eqn:Hm.
    + by rewrite (H i).
    + by rewrite !andb_false_r.
Qed.

Lemma testbit_rng_mask msb lsb i :
  0 ≤ lsb ≤ msb → 0 ≤ i → Z.testbit (rng_mask msb lsb) i = (lsb <=? i) && (i <=? msb).
Proof.
  intros ? ?. unfold rng_mask. rewrite !Z.shiftl_1_l.
  replace (2 ^ (msb + 1) - 2 ^ lsb) with (mask (msb - lsb + 1) ≪ lsb).
  - rewrite testbit_shiftl, testbit_mask by lia. repeat zcase; done.
  - unfold mask. rewrite Z.shiftl_1_l, Z.shiftl_mul_pow2, Z.mul_sub_distr_r by lia.
    rewrite <- Z.pow_add_r by lia. rewrite Z.mul_1_l. do 2 f_equal; lia.
Qed.

Lemma width_of_nonneg rs : disjoint rs → 0 ≤ width_of rs.
Proof.
  induction rs as [| [msb lsb] rs IH]; cbn [disjoint width_of]; [lia |].
  intros (? & ? & ? & H). specialize (IH H). lia.
Qed.

Lemma mask_of_in_bits rs : disjoint rs → in_bits 32 (mask_of rs).
Proof.
  induction rs as [| [msb lsb] rs IH]; cbn [disjoint mask_of]; [done |].
  intros (? & ? & ? & H). apply in_bits_lor; [done | | by apply IH].
  apply in_bits_testbit; [done |]. split.
  - unfold rng_mask. rewrite !Z.shiftl_1_l.
    pose proof (Z.pow_le_mono_r 2 lsb (msb + 1)). lia.
  - intros i Hi. rewrite testbit_rng_mask by lia. by zbool; rewrite ?andb_false_r.
Qed.

(** A bit of the first range is not in the others. *)
Lemma disjoint_bit msb lsb rs i :
  disjoint ((msb, lsb) :: rs) → lsb ≤ i ≤ msb → Z.testbit (mask_of rs) i = false.
Proof.
  cbn [disjoint]. intros (? & ? & E & _) ?.
  assert (E' := f_equal (fun z => Z.testbit z i) E). cbn beta in E'.
  rewrite Z.land_spec, testbit_rng_mask, Z.bits_0 in E' by lia.
  revert E'. by zbool.
Qed.

Lemma agree_cons msb lsb rs raw raw' :
  disjoint ((msb, lsb) :: rs) → agree (mask_of ((msb, lsb) :: rs)) raw raw' →
  agree (rng_mask msb lsb) raw raw' ∧ agree (mask_of rs) raw raw'.
Proof.
  intros _ H. split; intros i Hi Hm; apply H; try done; cbn [mask_of];
    rewrite Z.lor_spec, Hm; [done | apply orb_true_r].
Qed.

(** The bits of an encoded value lie in the mask. *)
Lemma enc_testbit_outside v rs i :
  disjoint rs → 0 ≤ i → Z.testbit (mask_of rs) i = false → Z.testbit (enc v rs) i = false.
Proof.
  induction rs as [| [msb lsb] rs IH]; intros Hd Hi Hm; [by rewrite Z.bits_0 |].
  pose proof Hd as (? & ? & _ & Hrs). pose proof (width_of_nonneg rs Hrs).
  cbn [enc mask_of] in *. rewrite Z.lor_spec in Hm.
  apply orb_false_iff in Hm as [Hm1 Hm2].
  rewrite testbit_rng_mask in Hm1 by lia.
  rewrite Z.lor_spec, (IH Hrs Hi Hm2), orb_false_r, testbit_shiftl by done.
  rewrite Z.land_spec, testbit_mask by lia.
  revert Hm1. repeat zcase; rewrite ?andb_false_r; done.
Qed.

(** Decoding reads the bits of the mask only. *)
Lemma dec_agree raw raw' rs :
  disjoint rs → agree (mask_of rs) raw raw' → dec raw rs = dec raw' rs.
Proof.
  induction rs as [| [msb lsb] rs IH]; intros Hd Ha; [done |].
  apply (agree_cons _ _ _ _ _ Hd) in Ha as [Ha Hb].
  pose proof Hd as (? & ? & _ & Hrs). pose proof (width_of_nonneg rs Hrs).
  cbn [dec]. f_equal; [f_equal | by apply IH].
  bitwise i. repeat zcase; rewrite ?andb_false_r; try done. f_equal.
  apply Ha; [lia |]. rewrite testbit_rng_mask by lia. by zbool.
Qed.

Lemma dec_in_bits raw rs : disjoint rs → in_bits (width_of rs) (dec raw rs).
Proof.
  induction rs as [| [msb lsb] rs IH]; intros Hd; [done |].
  pose proof Hd as (? & ? & _ & Hrs). pose proof (width_of_nonneg rs Hrs).
  cbn [dec width_of]. apply in_bits_lor; [lia | |].
  - apply in_bits_shiftl; try lia. apply in_bits_mask. lia.
  - apply (in_bits_weaken (width_of rs)); [lia | by apply IH].
Qed.

(** The first range of an encoded word holds the top part of the value. *)
Lemma enc_testbit_first v msb lsb rs i :
  disjoint ((msb, lsb) :: rs) → lsb ≤ i ≤ msb →
  Z.testbit (enc v ((msb, lsb) :: rs)) i = Z.testbit v (i - lsb + width_of rs).
Proof.
  intros Hd Hi. pose proof Hd as (? & ? & _ & Hrs).
  pose proof (width_of_nonneg rs Hrs). cbn [enc].
  rewrite Z.lor_spec, (enc_testbit_outside v rs) by (try lia; eauto using disjoint_bit).
  rewrite orb_false_r, testbit_shiftl, Z.land_spec, testbit_mask, testbit_shiftr by lia.
  zbool. apply andb_true_r.
Qed.

(** The remaining ranges are encoded as if they were alone. *)
Lemma enc_agree_rest v msb lsb rs :
  disjoint ((msb, lsb) :: rs) → agree (mask_of rs) (enc v ((msb, lsb) :: rs)) (enc v rs).
Proof.
  intros Hd i Hi Hm. pose proof Hd as (? & ? & _ & Hrs).
  pose proof (width_of_nonneg rs Hrs). cbn [enc].
  destruct (decide (lsb ≤ i ≤ msb)) as [Hin | Hout].
  - by rewrite (disjoint_bit _ _ _ _ Hd Hin) in Hm.
  - rewrite Z.lor_spec, testbit_shiftl, Z.land_spec, testbit_mask by lia.
    repeat zcase; by rewrite ?andb_false_r.
Qed.

(** A bit of the word inside the mask holds one bit of the value, whatever the
    value is. *)
Lemma enc_index rs i :
  disjoint rs → 0 ≤ i → Z.testbit (mask_of rs) i = true →
  ∃ j, 0 ≤ j < width_of rs ∧ ∀ v, Z.testbit (enc v rs) i = Z.testbit v j.
Proof.
  induction rs as [| [msb lsb] rs IH]; intros Hd Hi Hm; [by rewrite Z.bits_0 in Hm |].
  pose proof Hd as (? & ? & _ & Hrs). pose proof (width_of_nonneg rs Hrs).
  cbn [width_of]. destruct (decide (lsb ≤ i ≤ msb)) as [Hin | Hout].
  - exists (i - lsb + width_of rs). split; [lia |]. intros v. by apply enc_testbit_first.
  - cbn [mask_of] in Hm. rewrite Z.lor_spec, testbit_rng_mask in Hm by lia.
    assert (Hm' : Z.testbit (mask_of rs) i = true) by (revert Hm; repeat zcase; done).
    destruct (IH Hrs Hi Hm') as (j & ? & Hj). exists j. split; [lia |].
    intros v. rewrite <- Hj. by apply (enc_agree_rest v _ _ _ Hd).
Qed.

(** The [width_of rs] low bits of the value come back. *)
Lemma dec_enc v rs : disjoint rs → dec (enc v rs) rs = v .& mask (width_of rs).
Proof.
  induction rs as [| [msb lsb] rs IH]; intros Hd; [cbn; by rewrite Z.land_0_r |].
  pose proof Hd as (? & ? & _ & Hrs). pose proof (width_of_nonneg rs Hrs).
  cbn [dec width_of].
  rewrite (dec_agree _ _ _ Hrs (enc_agree_rest _ _ _ _ Hd)), IH by done.
  bitwise i. destruct (decide (width_of rs ≤ i < msb - lsb + 1 + width_of rs)).
  - zbool. rewrite testbit_shiftr, (enc_testbit_first _ _ _ _ _ Hd) by lia.
    rewrite !andb_true_r, andb_false_r, orb_false_r. f_equal. lia.
  - repeat zcase; rewrite ?andb_true_r, ?andb_false_r, ?orb_false_r; try done.
Qed.

(** A value of the right width is determined by its encoding. *)
Lemma enc_inj rs a b :
  disjoint rs → in_bits (width_of rs) a → in_bits (width_of rs) b →
  agree (mask_of rs) (enc a rs) (enc b rs) → a = b.
Proof.
  intros Hd Ha Hb H. apply (dec_agree _ _ _ Hd) in H. rewrite !dec_enc in H by done.
  pose proof (width_of_nonneg rs Hd). by rewrite !mask_in_bits in H by done.
Qed.

(** The bits of the mask come back. *)
Lemma enc_dec v raw rs :
  disjoint rs → v .& mask (width_of rs) = dec raw rs → enc v rs = raw .& mask_of rs.
Proof.
  induction rs as [| [msb lsb] rs IH]; intros Hd E; [by rewrite Z.land_0_r |].
  pose proof Hd as (? & ? & _ & Hrs). pose proof (width_of_nonneg rs Hrs).
  assert (Hbit : ∀ i, 0 ≤ i → Z.testbit (v .& mask (width_of ((msb, lsb) :: rs))) i =
    Z.testbit (dec raw ((msb, lsb) :: rs)) i) by (by intros; rewrite E).
  pose proof (dec_in_bits raw rs Hrs) as Hdec. cbn [dec width_of enc mask_of] in *.
  rewrite IH; [| done |].
  - bitwise i. rewrite testbit_rng_mask by lia.
    destruct (decide (lsb ≤ i ≤ msb)).
    + zbool. rewrite (disjoint_bit _ _ _ i Hd) by done.
      specialize (Hbit (i - lsb + width_of rs)). revert Hbit.
      autorewrite with testbit. rewrite (testbit_in_bits (width_of rs) (dec raw rs)) by (done || lia).
      zbool. intros Hb. rewrite !orb_false_r, !andb_true_r in Hb. 
      rewrite !andb_true_r, !andb_false_r, !orb_false_r, Hb by lia. f_equal. lia.
    + repeat zcase; rewrite ?andb_true_r, ?andb_false_r, ?orb_false_r; done.
  - bitwise i. specialize (Hbit i ltac:(lia)). revert Hbit.
    autorewrite with testbit. destruct (decide (i < width_of rs)).
    + zbool. by rewrite !andb_true_r, !andb_false_r.
    + intros _. zbool. rewrite andb_false_r.
      by rewrite (testbit_in_bits (width_of rs) (dec raw rs)) by (done || lia).
Qed.

(** ** The loops compute the reference definitions *)

Lemma decode_eq raw b : disjoint (br_ranges b) → decode raw b = dec raw (br_ranges b).
Proof.
  unfold decode. generalize (br_ranges b). clear b. intros rs Hd.
  enough (∀ acc, foldl (fun ret '(msb, lsb) =>
      (ret ≪ (msb - lsb + 1)) .| ((raw ≫ lsb) .& mask (msb - lsb + 1))) acc rs =
      (acc ≪ width_of rs) .| dec raw rs) as H by (rewrite H, Z.shiftl_0_l; done).
  induction rs as [| [msb lsb] rs IH]; intros acc; cbn [foldl dec width_of].
  - by rewrite Z.shiftl_0_r, Z.lor_0_r.
  - pose proof Hd as (? & ? & _ & Hrs). pose proof (width_of_nonneg rs Hrs).
    rewrite IH by done. rewrite Z.shiftl_lor, Z.shiftl_shiftl by lia.
    by rewrite Z.lor_assoc.
Qed.

Lemma encode_eq v b : wf b → encode v b = Ok (enc v (br_ranges b)).
Proof.
  intros [_ Hw _]. unfold encode. revert Hw. generalize (br_ranges b), (br_width b).
  intros rs W HW.
  enough (∀ acc taken, W = taken + width_of rs →
    foldl (fun '(ret, bits_taken) '(msb, lsb) =>
      (ret .| (((v ≫ (W - 1 - bits_taken - (msb - lsb + 1) + 1)) .&
         mask (msb - lsb + 1)) ≪ lsb), bits_taken + (msb - lsb + 1))) (acc, taken) rs =
      (acc .| enc v rs, W)) as H.
  { rewrite (H 0 0) by lia. cbn. by rewrite Z.eqb_refl. }
  clear HW. induction rs as [| [msb lsb] rs IH]; intros acc taken HW; cbn [foldl enc width_of] in *.
  - rewrite Z.lor_0_r. f_equal. lia.
  - rewrite IH by lia. rewrite <- Z.lor_assoc.
    by replace (W - 1 - taken - (msb - lsb + 1) + 1) with (width_of rs) by lia.
Qed.

(** ** What the constructors accept *)

Lemma land_lor_0 a b c : a .& (b .| c) = 0 ↔ a .& b = 0 ∧ a .& c = 0.
Proof. by rewrite Z.land_lor_distr_r, Z.lor_eq_0_iff. Qed.

Lemma add_range_inv m0 w0 msb lsb acc :
  add_range (m0, w0) (msb, lsb) = Ok acc →
  0 ≤ lsb ≤ msb ∧ msb < 32 ∧ rng_mask msb lsb .& m0 = 0 ∧
  acc = (m0 .| rng_mask msb lsb, w0 + (msb - lsb + 1)).
Proof.
  unfold add_range.
  destruct ((0 <=? lsb) && (lsb <=? msb) && (msb <=? 31)) eqn:Hr; [| done].
  destruct (truthy (rng_mask msb lsb .& m0)) eqn:Ht; [done |].
  apply negb_false_iff, Z.eqb_eq in Ht. rewrite !andb_true_iff in Hr.
  intros [= <-]. split_and!; lia || done.
Qed.

(** A list of ranges that passes the assertions is well formed: no bit is used
    twice, and width and mask are those of the ranges. *)
Lemma from_list_wf rs b : from_list rs = Ok b → wf b ∧ br_ranges b = rs.
Proof.
  unfold from_list.
  assert (H : ∀ m0 w0 m w, foldM add_range (m0, w0) rs = Ok (m, w) →
    disjoint rs ∧ m = m0 .| mask_of rs ∧ w = w0 + width_of rs ∧ mask_of rs .& m0 = 0).
  { induction rs as [| [msb lsb] rs IH]; intros m0 w0 m w; cbn [foldM].
    - intros [= -> ->]. cbn. by rewrite Z.lor_0_r, Z.add_0_r.
    - destruct (add_range (m0, w0) (msb, lsb)) as [acc | e] eqn:Ea; [| done].
      apply add_range_inv in Ea as (? & ? & Hr & ->). cbn.
      intros (Hd & -> & -> & [Hl Hm]%land_lor_0)%IH.
      rewrite (Z.land_comm (rng_mask _ _) (mask_of _)), Z.land_lor_distr_l, Hl, Hr, Hm.
      rewrite <- Z.lor_assoc. split_and!; done || lia. }
  destruct (foldM add_range (0, 0) rs) as [[m w] | e] eqn:E; cbn; [| done]. intros [= <-].
  apply H in E as (Hd & -> & -> & _). split; [| done]. by split.
Qed.

Lemma match_range_nonneg s msb lsb :
  match_range s = Some (msb, lsb) → 0 ≤ default msb lsb.
Proof.
  unfold match_range. intros E.
  destruct (read_digits None s) as [[n |] rest] eqn:E1; [| done].
  assert (0 ≤ n) by (by apply (read_digits_nonneg _ _ _ _ E1)).
  destruct (at_end rest); [by simplify_eq/= |]. destruct rest as [| c rest]; [done |].
  destruct (decide (c = "-"%char)) as [-> | Hc].
  - destruct (read_digits None rest) as [[k |] rest'] eqn:E2; [| done].
    destruct (at_end rest'); [| done]. simplify_eq/=.
    by apply (read_digits_nonneg _ _ _ _ E2).
  - destruct c as [[] [] [] [] [] [] [] []]; done.
Qed.

Lemma from_yaml_wf s b : from_yaml s = Ok b → wf b.
Proof.
  unfold from_yaml. destruct s as [| c s]; [done |]. generalize (split "," (String c s)).
  clear c s. intros strs.
  assert (H : ∀ o0 m0 rs0 w0 o m rs w,
    foldM add_yaml_range (o0, m0, rs0, w0) strs = Ok (o, m, rs, w) →
    ∃ rs', rs = rs0 ++ rs' ∧ m = m0 .| mask_of rs' ∧ w = w0 + width_of rs' ∧
           (o = 0 → o0 = 0 ∧ mask_of rs' .& m0 = 0 ∧ disjoint rs')).
  { induction strs as [| r strs IH]; intros o0 m0 rs0 w0 o m rs w; cbn [foldM].
    - intros [= -> -> -> ->]. exists []. cbn. rewrite Z.lor_0_r, app_nil_r, Z.add_0_r. done.
    - destruct (match_range r) as [[msb lsb] |] eqn:Er; [| by cbn; rewrite Er].
      apply match_range_nonneg in Er as Hl. cbn. rewrite Er. cbn.
      destruct (Z.ltb_spec msb (default msb lsb)); [done |]. zcase; [done |]. cbn.
      intros (rs' & -> & -> & -> & Ho)%IH. exists ((msb, default msb lsb) :: rs').
      cbn [mask_of width_of disjoint]. rewrite <- app_assoc, <- Z.lor_assoc.
      split_and!; [done | done | lia |]. intros E0.
      destruct (Ho E0) as ([-> Hm]%Z.lor_eq_0_iff & [Hm0 Hr]%land_lor_0 & Hd).
      rewrite Z.land_lor_distr_l, Hm0, Hm, (Z.land_comm (rng_mask _ _) (mask_of _)).
      split_and!; done || lia. }
  destruct (foldM add_yaml_range (0, 0, [], 0) strs) as [[[[o m] rs] w] | e] eqn:E; cbn; [| done].
  apply H in E as (rs' & -> & -> & -> & Hd).
  destruct (truthy o) eqn:Ho; [done |]. intros [= <-].
  apply negb_false_iff, Z.eqb_eq in Ho. destruct (Hd Ho) as (_ & _ & ?). by split.
Qed.
End BitRanges.
