(* ===== verification/BoolLiteral.v ===== *)
(** Boolean literals with don't-care bits (util/shared/bool_literal.py). *)

From Stdlib Require Import Ascii.
From S2P Require Import Prelude.

Record BoolLiteral := mkBoolLiteral {
  bl_ones : Z;
  bl_xs : Z;
  bl_width : Z
}.

#[global] Instance BoolLiteral_eq_dec : EqDecision BoolLiteral.
Proof. solve_decision. Defined.

Module BoolLiteral.
(** [BoolLiteral.__init__] *)
Definition init (ones xs width : Z) : res BoolLiteral :=
  py_assert (0 <? width);;
  py_assert ((ones ≫ width) =? 0);;
  py_assert ((xs ≫ width) =? 0);;
  Ok (mkBoolLiteral ones xs width).

(** One round of the loop of [from_string]. *)
Definition add_char (acc : Z * Z * Z) (char : ascii) : res (Z * Z * Z) :=
  let '(ones, xs, width) := acc in
  if Ascii.eqb char "_" then Ok acc
  else
    let ones := ones ≪ 1 in
    let xs := xs ≪ 1 in
    let width := width + 1 in
    if Ascii.eqb char "0" then Ok (ones, xs, width)
    else if Ascii.eqb char "1" then Ok (ones .| 1, xs, width)
    else if Ascii.eqb char "x" then Ok (ones, xs .| 1, width)
    else Err ValueError.

Definition from_string (as_string : string) : res BoolLiteral :=
  match as_string with
  | String "b" rest =>
      '(ones, xs, width) ← foldM add_char (0, 0, 0) (String.list_ascii_of_string rest);
      if negb (truthy width) then Err ValueError
      else init ones xs width
  | _ => Err ValueError
  end.

(** A negative shift count raises [ValueError]. *)
Definition char_for_bit (bit : Z) (b : BoolLiteral) : res ascii :=
  py_assert (bit <? bl_width b);;
  if bit <? 0 then Err ValueError
  else if truthy ((bl_ones b ≫ bit) .& 1) then Ok "1"%char
  else if truthy ((bl_xs b ≫ bit) .& 1) then Ok "x"%char
  else Ok "0"%char.

(** ** Well-formed literals *)

(** A bit is not both 1 and x. *)
Record wf (b : BoolLiteral) : Prop := {
  wf_width : 0 < bl_width b;
  wf_ones : in_bits (bl_width b) (bl_ones b);
  wf_xs : in_bits (bl_width b) (bl_xs b);
  wf_apart : bl_ones b .& bl_xs b = 0
}.

(** The digits of a literal are what is left of it without [_]. *)
Definition digits (s : list ascii) : list ascii := filter (fun c => c ≠ "_"%char) s.

(** What the loop has built after the characters [s]. *)
Definition reads (s : list ascii) (acc : Z * Z * Z) : Prop :=
  let '(ones, xs, width) := acc in
  0 ≤ ones ∧ 0 ≤ xs ∧ width = Z.of_nat (length (digits s)) ∧
  ∀ i : nat, (Z.testbit ones (Z.of_nat i), Z.testbit xs (Z.of_nat i)) =
    match reverse (digits s) !! i with
    | Some c => (Ascii.eqb c "1", Ascii.eqb c "x")
    | None => (false, false)
    end ∧ (∀ c, reverse (digits s) !! i = Some c → c = "0" ∨ c = "1" ∨ c = "x")%char.

Lemma testbit_double v i :
  Z.testbit (v ≪ 1) (Z.of_nat i) =
  match i with O => false | S i => Z.testbit v (Z.of_nat i) end.
Proof.
  rewrite testbit_shiftl by lia. destruct i as [| i]; [by rewrite testbit_neg by lia |].
  f_equal. lia.
Qed.

Lemma testbit_one (i : nat) :
  Z.testbit 1 (Z.of_nat i) = match i with O => true | S _ => false end.
Proof. by destruct i. Qed.

(** Adding a digit [c] whose bits in the two masks are [a] and [b]. *)
Lemma reads_digit s ones xs width (c : ascii) (a b : Z) :
  reads s (ones, xs, width) → c ≠ "_"%char →
  (c, a, b) = ("0"%char, 0, 0) ∨ (c, a, b) = ("1"%char, 1, 0) ∨ (c, a, b) = ("x"%char, 0, 1) →
  reads (s ++ [c]) ((ones ≪ 1) .| a, (xs ≪ 1) .| b, width + 1).
Proof.
  intros (Ho & Hx & -> & Hb) Hc Habc.
  assert (Hd : digits (s ++ [c]) = digits s ++ [c]).
  { unfold digits. by rewrite filter_app, filter_cons_True. }
  unfold reads. rewrite Hd, length_app, reverse_snoc. cbn [length].
  split_and!; [| | lia |].
  - apply Z.lor_nonneg. split; [by apply Z.shiftl_nonneg |]. naive_solver lia.
  - apply Z.lor_nonneg. split; [by apply Z.shiftl_nonneg |]. naive_solver lia.
  - intros i. rewrite !Z.lor_spec, !testbit_double, lookup_cons.
    destruct i as [| i].
    + split; [| naive_solver]. destruct Habc as [? | [? | ?]]; by simplify_eq.
    + destruct (Hb i) as [Hbit Hch]. split; [| by intros; apply Hch].
      rewrite <- Hbit. destruct Habc as [? | [? | ?]]; simplify_eq;
        by rewrite ?testbit_one, ?Z.bits_0, ?orb_false_r.
Qed.

Lemma add_char_reads s acc c acc' :
  reads s acc → add_char acc c = Ok acc' → reads (s ++ [c]) acc'.
Proof.
  destruct acc as [[ones xs] width]. intros Hr. unfold add_char.
  destruct (Ascii.eqb_spec c "_") as [-> | H_].
  { intros [= <-]. unfold reads, digits in *. by rewrite filter_app, app_nil_r. }
  pose proof (reads_digit s ones xs width c) as H.
  destruct (Ascii.eqb_spec c "0") as [-> |].
  { intros [= <-]. specialize (H 0 0 Hr H_). rewrite !Z.lor_0_r in H. auto. }
  destruct (Ascii.eqb_spec c "1") as [-> |].
  { intros [= <-]. specialize (H 1 0 Hr H_). rewrite !Z.lor_0_r in H. auto. }
  destruct (Ascii.eqb_spec c "x") as [-> |]; [| done].
  intros [= <-]. specialize (H 0 1 Hr H_). rewrite !Z.lor_0_r in H. auto.
Qed.

(** A literal that parses is well formed. *)
Lemma from_string_reads s b :
  from_string s = Ok b → ∃ rest, s = String "b" rest ∧
    reads (String.list_ascii_of_string rest) (bl_ones b, bl_xs b, bl_width b) ∧ 0 < bl_width b.
Proof.
  intros E. destruct s as [| c rest]; [done |].
  destruct (decide (c = "b"%char)) as [-> | Hc];
    [| by destruct c as [[] [] [] [] [] [] [] []]].
  exists rest. split; [done |]. cbn [from_string] in E. inv_ok.
  destruct (negb (truthy z)); [done |]. unfold init in E. inv_ok. cbn [bl_ones bl_xs bl_width].
  split; [| by apply Z.ltb_lt].
  eapply (foldM_ind reads); [| by eauto using add_char_reads | done].
  unfold reads. cbn. split_and!; try done. intros i. by rewrite Z.bits_0.
Qed.

Lemma from_string_wf s b : from_string s = Ok b → wf b.
Proof.
  intros (rest & -> & (Ho & Hx & Hw & Hb) & Hpos)%from_string_reads.
  assert (Hout : ∀ i : Z, bl_width b ≤ i → Z.testbit (bl_ones b) i = false ∧
    Z.testbit (bl_xs b) i = false).
  { intros i Hi. destruct (Hb (Z.to_nat i)) as [Hbit _].
    rewrite lookup_ge_None_2, Z2Nat.id in Hbit by (rewrite ?length_reverse; lia).
    by injection Hbit as -> ->. }
  split; [done | | |].
  - apply in_bits_testbit; [lia |]. split; [done |]. apply Hout.
  - apply in_bits_testbit; [lia |]. split; [done |]. apply Hout.
  - bitwise i. destruct (Hb (Z.to_nat i)) as [Hbit _]. rewrite Z2Nat.id in Hbit by lia.
    destruct (reverse _ !! _) as [c |]; injection Hbit as -> ->; [| done].
    by destruct (Ascii.eqb_spec c "1") as [-> |].
Qed.

(** The characters of a well-formed literal, as bits of its two masks. *)
Lemma char_for_bit_eq b i :
  0 ≤ i < bl_width b →
  char_for_bit i b = Ok (if Z.testbit (bl_ones b) i then "1"%char
                         else if Z.testbit (bl_xs b) i then "x"%char else "0"%char).
Proof.
  intros Hi. unfold char_for_bit. zbool. cbn [py_assert mbind res_bind].
  rewrite !truthy_bit by lia. by repeat case_match.
Qed.

(** A value matches a literal when it has the literal's bits where they are not x. *)
Definition matches (v : Z) (b : BoolLiteral) : bool := v .& ~. (bl_xs b) =? bl_ones b.
End BoolLiteral.
