(* ===== verification/EncodingScheme.v ===== *)
(** Encoding schemes (util/shared/encoding_scheme.py): the named bit fields of an
    instruction word, inherited from parent schemes and merged. *)

From Stdlib Require Import Ascii.
From stdpp Require Import pretty.
From S2P Require Import Prelude PyStr Yaml BitRanges BoolLiteral.

Record EncSchemeField := mkEncSchemeField {
  sf_bits : BitRanges;
  sf_value : option BoolLiteral
}.

Record EncSchemeFields := mkEncSchemeFields {
  esf_fields : dict EncSchemeField;
  esf_op_fields : gset string;
  esf_mask : Z
}.

Record EncSchemeImport := mkEncSchemeImport {
  imp_parent : string;
  imp_settings : dict BoolLiteral
}.

Record EncScheme := mkEncScheme {
  es_direct_fields : EncSchemeFields;
  es_parents : dict EncSchemeImport
}.

(** [self.resolved] is looked up but never written. *)
Record EncSchemes := mkEncSchemes {
  ess_schemes : dict EncScheme;
  ess_resolved : dict EncSchemeFields
}.

Module EncSchemeField.
(** [str(bits_yml)], of a string, an integer or a boolean. *)
Definition bits_str (yml : yaml) : option string :=
  match yml with
  | YStr s => Some s
  | YInt z => Some (pretty z)
  | YBool b => Some (if b then "True" else "False")
  | _ => None
  end.

Definition from_yaml (yml : yaml) : res EncSchemeField :=
  '(bits_yml, raw_value) ←
    match yml with
    | YDict _ =>
        yd ← check_keys yml ["bits"] ["value"];
        bits_yml ← of_option KeyError (yget "bits" yd);
        bits_yml ← of_option ValueError (bits_str bits_yml);
        raw_value ← match yget "value" yd with
                    | None | Some YNone => Ok None
                    | Some (YStr s) => Ok (Some s)
                    | Some _ => Err ValueError
                    end;
        Ok (bits_yml, raw_value)
    | _ =>
        bits_yml ← of_option ValueError (bits_str yml);
        Ok (bits_yml, None)
    end;
  bits ← BitRanges.from_yaml bits_yml;
  value ← match raw_value with
          | None => Ok None
          | Some raw_value =>
              value ← BoolLiteral.from_string raw_value;
              if br_width bits =? bl_width value then Ok (Some value) else Err ValueError
          end;
  Ok (mkEncSchemeField bits value).
End EncSchemeField.

Module EncSchemeFields.
Definition empty : EncSchemeFields := mkEncSchemeFields [] ∅ 0.

(** [fields[name] = field] and the bookkeeping that goes with it. *)
Definition add (name : string) (field : EncSchemeField) (esf : EncSchemeFields)
    : EncSchemeFields :=
  mkEncSchemeFields (dset name field (esf_fields esf))
    (if sf_value field then esf_op_fields esf else {[name]} ∪ esf_op_fields esf)
    (esf_mask esf .| br_mask (sf_bits field)).

(** One round of the loop of [from_yaml]. *)
Definition add_yaml (acc : EncSchemeFields * Z) (kv : yaml * yaml)
    : res (EncSchemeFields * Z) :=
  let '(esf, overlaps) := acc in
  match kv with
  | (YStr key, val) =>
      field ← EncSchemeField.from_yaml val;
      Ok (add key field esf, overlaps .| (esf_mask esf .& br_mask (sf_bits field)))
  | _ => Err ValueError
  end.

Definition from_yaml (yml : yaml) : res EncSchemeFields :=
  match yml with
  | YDict d =>
      '(esf, overlaps) ← foldM add_yaml (empty, 0) d;
      if truthy overlaps then Err ValueError else Ok esf
  | _ => Err ValueError
  end.

(** One round of the loop of [merge_in]. *)
Definition merge_field (self : EncSchemeFields) (nf : string * EncSchemeField)
    : res EncSchemeFields :=
  let '(name, field) := nf in
  match dget name (esf_fields self) with
  | Some _ => Err ValueError
  | None =>
      if truthy (esf_mask self .& br_mask (sf_bits field)) then Err ValueError
      else
        py_assert (if sf_value field then true
                   else bool_decide (name ∉ esf_op_fields self));;
        Ok (add name field self)
  end.

Definition merge_in (self right : EncSchemeFields) : res EncSchemeFields :=
  foldM merge_field self (esf_fields right).
End EncSchemeFields.

Module EncSchemeImport.
(** [re.match(r'([^ (]+)[ ]*(?:\(([^)]+)\))?$', as_str)].  The three classes are
    disjoint from what may follow them, so each takes its longest match. *)
Definition match_import (as_str : string) : option (string * option string) :=
  let '(parent, rest) :=
    span (fun c => negb (Ascii.eqb c " ") && negb (Ascii.eqb c "(")) as_str in
  let '(_, rest) := span (fun c => Ascii.eqb c " ") rest in
  match parent with
  | EmptyString => None
  | _ =>
      if at_end rest then Some (parent, None)
      else
        match rest with
        | String "(" rest =>
            match span (fun c => negb (Ascii.eqb c ")")) rest with
            | (EmptyString, _) => None
            | (args, String ")" rest) =>
                if at_end rest then Some (parent, Some args) else None
            | _ => None
            end
        | _ => None
        end
  end.

Definition add_arg (settings : dict BoolLiteral) (arg : string) : res (dict BoolLiteral) :=
  match split "=" (strip arg) with
  | [field_name; value] =>
      field_value ← BoolLiteral.from_string value;
      match dget field_name settings with
      | Some _ => Err ValueError
      | None => Ok (dset field_name field_value settings)
      end
  | _ => Err ValueError
  end.

(** [EncSchemeImport.__init__] *)
Definition init (yml : yaml) : res EncSchemeImport :=
  as_str ← check_str yml;
  '(parent, args) ← of_option ValueError (match_import as_str);
  settings ← match args with
             | Some args => foldM add_arg [] (split "," args)
             | None => Ok []
             end;
  Ok (mkEncSchemeImport parent settings).

(** The loop over the settings. *)
Definition set_field (esf : EncSchemeFields) (fields : dict EncSchemeField)
    (setting : string * BoolLiteral) : res (dict EncSchemeField) :=
  let '(name, literal) := setting in
  match dget name (esf_fields esf) with
  | None => Err ValueError
  | Some old_field =>
      if br_width (sf_bits old_field) =? bl_width literal
      then Ok (dset name (mkEncSchemeField (sf_bits old_field) (Some literal)) fields)
      else Err ValueError
  end.

(** The loop that copies the other fields. *)
Definition copy_field (acc : dict EncSchemeField * gset string)
    (nf : string * EncSchemeField) : dict EncSchemeField * gset string :=
  let '(fields, op_fields) := acc in
  let '(name, old_field) := nf in
  match dget name fields with
  | Some _ => (fields, op_fields)
  | None => (dset name old_field fields, {[name]} ∪ op_fields)
  end.

Definition apply_settings (imp : EncSchemeImport) (esf : EncSchemeFields)
    : res EncSchemeFields :=
  fields ← foldM (set_field esf) [] (imp_settings imp);
  let '(fields, op_fields) := foldl copy_field (fields, ∅) (esf_fields esf) in
  Ok (mkEncSchemeFields fields op_fields (esf_mask esf)).
End EncSchemeImport.

Module EncScheme.
Definition optional (o : option yaml) : option yaml :=
  match o with Some YNone => None | _ => o end.

(** [EncScheme.__init__] *)
Definition init (yml : yaml) : res EncScheme :=
  yd ← check_keys yml [] ["parents"; "fields"];
  match yd with
  | [] => Err ValueError
  | _ =>
      direct_fields ← match optional (yget "fields" yd) with
                      | Some fields_yml => EncSchemeFields.from_yaml fields_yml
                      | None => Ok EncSchemeFields.empty
                      end;
      parents ← match optional (yget "parents" yd) with
                | Some parents_yml =>
                    l ← check_list parents_yml; mapR EncSchemeImport.init l
                | None => Ok []
                end;
      parents ← index_list parents imp_parent;
      Ok (mkEncScheme direct_fields parents)
  end.
End EncScheme.

(** [for x in l: acc = f(acc, x)] where the body may raise and may run out of
    fuel ([None]). *)
Fixpoint foldO {A B} (f : B → A → option (res B)) (acc : B) (l : list A) : option (res B) :=
  match l with
  | [] => Some (Ok acc)
  | x :: l =>
      match f acc x with
      | Some (Ok acc') => foldO f acc' l
      | r => r
      end
  end.

Module EncSchemes.
Definition add_scheme (schemes : dict EncScheme) (kv : yaml * yaml) : res (dict EncScheme) :=
  match kv with
  | (YStr key, val) => s ← EncScheme.init val; Ok (dset key s schemes)
  | _ => Err ValueError
  end.

(** [EncSchemes.__init__] *)
Definition init (yml : yaml) : res EncSchemes :=
  match yml with
  | YDict d => schemes ← foldM add_scheme [] d; Ok (mkEncSchemes schemes [])
  | _ => Err ValueError
  end.

(** Merge the resolved parents, then the direct fields. *)
Definition merge_all (resolved_parents : dict EncSchemeFields) (scheme : EncScheme)
    : res EncSchemeFields :=
  merged ← foldM (fun merged '(_, pfields) => EncSchemeFields.merge_in merged pfields)
    EncSchemeFields.empty resolved_parents;
  EncSchemeFields.merge_in merged (es_direct_fields scheme).

(** One call per unit of fuel. *)
Fixpoint _resolve (fuel : nat) (self : EncSchemes) (name : string) (stack : list string)
    : option (res EncSchemeFields) :=
  match fuel with
  | O => None
  | S fuel =>
      match dget name (ess_resolved self) with
      | Some resolved => Some (Ok resolved)
      | None =>
          if decide (name ∈ stack) then Some (Err RuntimeError)
          else
            match dget name (ess_schemes self) with
            | None => Some (Err ValueError)
            | Some scheme =>
                let resolve_parent resolved_parents '(pname, pimport) :=
                  match _resolve fuel self (imp_parent pimport) (stack ++ [name]) with
                  | None => None
                  | Some resolved => Some (
                      resolved ← resolved;
                      pfields ← EncSchemeImport.apply_settings pimport resolved;
                      Ok (dset pname pfields resolved_parents))
                  end in
                match foldO resolve_parent [] (es_parents scheme) with
                | Some (Ok resolved_parents) => Some (merge_all resolved_parents scheme)
                | Some (Err e) => Some (Err e)
                | None => None
                end
            end
      end
  end.

(** The recursion goes through distinct schemes, so one call for each and one
    more are enough. *)
Definition resolve (self : EncSchemes) (name : string) : option (res EncSchemeFields) :=
  match _resolve (S (length (ess_schemes self))) self name [] with
  | Some r => Some (
      fields ← r;
      if truthy (mask 32 .& ~. (esf_mask fields)) then Err ValueError else Ok fields)
  | None => None
  end.

(** ** Termination *)

Lemma foldO_total {A B} (f : B → A → option (res B)) acc l :
  (∀ acc x, x ∈ l → f acc x ≠ None) → foldO f acc l ≠ None.
Proof.
  revert acc. induction l as [| x l IH]; intros acc Hf; cbn [foldO]; [done |].
  destruct (f acc x) as [[acc' | e] |] eqn:E; [| done | by apply Hf in E; [| left]].
  apply IH. intros. apply Hf. by right.
Qed.

(** Every call on the stack is for a different known scheme, so the depth is
    bounded by their number. *)
Lemma _resolve_total fuel self name stack :
  NoDup stack → stack ⊆ (ess_schemes self).*1 →
  (length (ess_schemes self) < fuel + length stack)%nat →
  _resolve fuel self name stack ≠ None.
Proof.
  revert name stack. induction fuel as [| fuel IH]; intros name stack Hn Hs Hf.
  - assert (length stack ≤ length (ess_schemes self).*1)%nat; [| rewrite length_fmap in *; lia].
    apply submseteq_length, NoDup_submseteq; auto.
  - cbn [_resolve]. destruct (dget name (ess_resolved self)); [done |].
    destruct (decide (name ∈ stack)) as [| Hin]; [done |].
    destruct (dget name (ess_schemes self)) as [scheme |] eqn:Es; [| done].
    match goal with |- context [foldO ?f ?acc ?l] => assert (foldO f acc l ≠ None) as Hne end.
    { apply foldO_total. intros acc [pname pimport] _.
      destruct (_resolve fuel self _ _) eqn:Er; [done |]. exfalso. revert Er. apply IH.
      - apply NoDup_app. split_and!; [done | | apply NoDup_singleton].
        intros x Hx ->%list_elem_of_singleton. done.
      - apply dget_Some_elem in Es. intros x [Hx | ->%list_elem_of_singleton]%elem_of_app; [by apply Hs |].
        apply list_elem_of_fmap. by exists (name, scheme).
      - rewrite length_app. cbn. lia. }
    by destruct (foldO _ _ _) as [[] |].
Qed.

Lemma resolve_total self name : resolve self name ≠ None.
Proof.
  unfold resolve. destruct (_resolve _ _ _ _) eqn:E; [done |]. exfalso. revert E.
  apply _resolve_total; [constructor | by intros ? ?%elem_of_nil | cbn; lia].
Qed.

(** ** Well-formed fields *)

(** A literal value is as wide as its bits. *)
Definition field_ok (f : EncSchemeField) : Prop :=
  BitRanges.wf (sf_bits f) ∧
  ∀ lit, sf_value f = Some lit → BoolLiteral.wf lit ∧ br_width (sf_bits f) = bl_width lit.

Definition all_ok (fs : dict EncSchemeField) : Prop := ∀ k f, (k, f) ∈ fs → field_ok f.

(** The fields have distinct names and disjoint bits, the mask is the set of
    their bits, and the operand fields are those without a value. *)
Record fields_wf (esf : EncSchemeFields) : Prop := {
  fw_names : NoDup (esf_fields esf).*1;
  fw_ok : all_ok (esf_fields esf);
  fw_apart : ∀ k1 f1 k2 f2, (k1, f1) ∈ esf_fields esf → (k2, f2) ∈ esf_fields esf →
    k1 ≠ k2 → br_mask (sf_bits f1) .& br_mask (sf_bits f2) = 0;
  fw_mask : ∀ i, 0 ≤ i → Z.testbit (esf_mask esf) i = true ↔
    ∃ k f, (k, f) ∈ esf_fields esf ∧ Z.testbit (br_mask (sf_bits f)) i = true;
  fw_ops : ∀ k, k ∈ esf_op_fields esf ↔ ∃ f, (k, f) ∈ esf_fields esf ∧ sf_value f = None
}.

Lemma empty_wf : fields_wf EncSchemeFields.empty.
Proof.
  split; cbn; try set_solver.
  - constructor.
  - intros k f ?%elem_of_nil. done.
  - intros i Hi. rewrite Z.bits_0. set_solver.
Qed.

Lemma land_0_bit a b i : a .& b = 0 → Z.testbit a i = true → Z.testbit b i = false.
Proof.
  intros E Ha. assert (E' := f_equal (fun z => Z.testbit z i) E). cbn beta in E'.
  by rewrite Z.land_spec, Ha, Z.bits_0 in E'.
Qed.

Lemma bits_land_0 a b :
  (∀ i, 0 ≤ i → Z.testbit a i = true → Z.testbit b i = false) → a .& b = 0.
Proof.
  intros H. bitwise i. destruct (Z.testbit a i) eqn:Ha; [| done]. by apply H.
Qed.

Lemma add_wf name field esf :
  fields_wf esf → field_ok field → dget name (esf_fields esf) = None →
  esf_mask esf .& br_mask (sf_bits field) = 0 →
  fields_wf (EncSchemeFields.add name field esf).
Proof.
  intros [Hn Hok Hap Hm Hops] Hf Hnew%dget_None Hd.
  assert (Hold : ∀ k f, (k, f) ∈ esf_fields esf →
    br_mask (sf_bits f) .& br_mask (sf_bits field) = 0).
  { intros k f Hin. apply bits_land_0. intros i Hi Hb.
    apply (land_0_bit _ _ _ Hd), Hm; eauto. }
  assert (Hne : ∀ k f, (k, f) ∈ esf_fields esf → k ≠ name).
  { intros k f Hin ->. apply Hnew, list_elem_of_fmap. by exists (name, f). }
  unfold EncSchemeFields.add. split; cbn; rewrite dset_fresh by done.
  - rewrite fmap_app. apply NoDup_app. split_and!; [done | | apply NoDup_singleton].
    intros x Hx ->%list_elem_of_singleton. done.
  - intros k f [? | [= -> ->]%list_elem_of_singleton]%elem_of_app; [eauto | done].
  - intros k1 f1 k2 f2 [H1 | [= -> ->]%list_elem_of_singleton]%elem_of_app
      [H2 | [= -> ->]%list_elem_of_singleton]%elem_of_app ?; [eauto | eauto | | done].
    rewrite Z.land_comm. eauto.
  - intros i Hi. rewrite Z.lor_spec, orb_true_iff, Hm by done. setoid_rewrite elem_of_app.
    setoid_rewrite list_elem_of_singleton. split; [naive_solver |].
    intros (k & f & [? | [= -> ->]] & ?); naive_solver.
  - intros k. setoid_rewrite elem_of_app. setoid_rewrite list_elem_of_singleton.
    destruct (sf_value field) eqn:Ev.
    + rewrite Hops. split; [naive_solver |]. intros (f & [? | [= -> ->]] & ?); naive_solver.
    + rewrite elem_of_union, elem_of_singleton, Hops. split; [naive_solver |].
      intros (f & [? | [= -> ->]] & ?); naive_solver.
Qed.

Lemma merge_in_wf self right r :
  fields_wf self → all_ok (esf_fields right) →
  EncSchemeFields.merge_in self right = Ok r → fields_wf r.
Proof.
  intros Hw Hok. unfold EncSchemeFields.merge_in.
  apply (foldM_ind (fun _ => fields_wf)); [done |].
  intros _ [name field] acc acc' Hin Hacc E. unfold EncSchemeFields.merge_field in E.
  destruct (dget name (esf_fields acc)) eqn:Eg; [done |].
  destruct (truthy _) eqn:Et; [done |]. inv_ok.
  apply negb_false_iff, Z.eqb_eq in Et. apply add_wf; eauto.
Qed.

(** ** What the constructors produce *)

Lemma field_from_yaml_ok yml f : EncSchemeField.from_yaml yml = Ok f → field_ok f.
Proof.
  unfold EncSchemeField.from_yaml. intros E. inv_ok. cbn. split; cbn.
  { by eapply BitRanges.from_yaml_wf. }
  intros lit ->. destruct o as [raw |]; [| done]. inv_ok.
  destruct (Z.eqb_spec (br_width x) (bl_width x0)); [| done]. simplify_eq.
  split; [by eapply BoolLiteral.from_string_wf | done].
Qed.

Lemma fields_from_yaml_ok yml esf :
  EncSchemeFields.from_yaml yml = Ok esf → all_ok (esf_fields esf).
Proof.
  unfold EncSchemeFields.from_yaml. destruct yml; try done. intros E. inv_ok.
  destruct (truthy z); [done |]. simplify_eq.
  apply (foldM_ind (fun _ acc => all_ok (esf_fields acc.1)) _ _ _ _) in H; [done | by intros ? ? ?%elem_of_nil |].
  intros _ [k v] [acc o] acc' _ Hacc E. cbn in E. destruct k; try done. inv_ok. cbn.
  intros k f [[= -> ->] | ?]%dset_elem; [by eapply field_from_yaml_ok | by eapply Hacc].
Qed.

Definition import_ok (imp : EncSchemeImport) : Prop :=
  ∀ k lit, (k, lit) ∈ imp_settings imp → BoolLiteral.wf lit.

Lemma import_init_ok yml imp : EncSchemeImport.init yml = Ok imp → import_ok imp.
Proof.
  unfold EncSchemeImport.init. intros E. inv_ok. unfold import_ok. cbn.
  destruct o as [args |]; [| by simplify_eq; intros ? ? ?%elem_of_nil].
  match goal with H : foldM _ _ _ = Ok _ |- _ => revert H end.
  apply (foldM_ind (fun _ d => ∀ k lit, (k, lit) ∈ d → BoolLiteral.wf lit));
    [by intros ? ? ?%elem_of_nil |].
  intros _ arg acc acc' _ Hacc E. unfold EncSchemeImport.add_arg in E.
  destruct (split "=" (strip arg)) as [| name [| value [| ? ?]]]; try done. inv_ok.
  destruct (dget name acc); [done |]. simplify_eq.
  intros k lit [[= -> ->] | ?]%dset_elem; [by eapply BoolLiteral.from_string_wf | by eapply Hacc].
Qed.

Lemma copy_fields_ok d ops fs :
  all_ok d → all_ok fs → all_ok (foldl EncSchemeImport.copy_field (d, ops) fs).1.
Proof.
  revert d ops. induction fs as [| [k f] fs IH]; intros d ops Hd Hfs; [done |].
  cbn [foldl EncSchemeImport.copy_field].
  assert (all_ok fs) by (intros ? ? ?; eapply Hfs; by right).
  destruct (dget k d); apply IH; try done.
  intros k' f' [[= -> ->] | ?]%dset_elem; [eapply Hfs; by left | by eapply Hd].
Qed.

(** Setting values keeps the bits of each field and checks the width. *)
Lemma apply_settings_ok imp esf r :
  import_ok imp → all_ok (esf_fields esf) →
  EncSchemeImport.apply_settings imp esf = Ok r → all_ok (esf_fields r).
Proof.
  intros Himp Hok. unfold EncSchemeImport.apply_settings. intros (d & Ed & E)%bind_Ok_inv.
  assert (Hd : all_ok d).
  { revert Ed. apply (foldM_ind (fun _ => all_ok)); [by intros ? ? ?%elem_of_nil |].
    intros _ [name lit] acc acc' Hin Hacc Ea. cbn in Ea.
    destruct (dget name (esf_fields esf)) as [old |] eqn:Eo; [| done].
    destruct (Z.eqb_spec (br_width (sf_bits old)) (bl_width lit)); [| done]. simplify_eq.
    apply dget_Some_elem, Hok in Eo as [? _].
    intros k f [[= -> ->] | ?]%dset_elem; [| by eapply Hacc]. split; [done |].
    cbn. intros ? [= <-]. eauto. }
  pose proof (copy_fields_ok d ∅ _ Hd Hok) as H.
  destruct (foldl _ _ _) as [fields ops]. by simplify_eq.
Qed.

Definition scheme_ok (s : EncScheme) : Prop :=
  all_ok (esf_fields (es_direct_fields s)) ∧
  ∀ k imp, (k, imp) ∈ es_parents s → import_ok imp.

Lemma mapR_elem {A B} (f : A → res B) l ys y :
  mapR f l = Ok ys → y ∈ ys → ∃ x, x ∈ l ∧ f x = Ok y.
Proof.
  revert ys. induction l as [| x l IH]; intros ys E Hy; cbn [mapR] in E.
  - simplify_eq. by apply elem_of_nil in Hy.
  - inv_ok. apply elem_of_cons in Hy as [-> | Hy]; [exists x; split; [by left | done] |].
    edestruct IH as (x' & ? & ?); [done .. |]. exists x'. split; [by right | done].
Qed.

Lemma scheme_init_ok yml s : EncScheme.init yml = Ok s → scheme_ok s.
Proof.
  unfold EncScheme.init. intros (yd & _ & E)%bind_Ok_inv. destruct yd as [| kv yd]; [done |].
  apply bind_Ok_inv in E as (direct & Ed & E). apply bind_Ok_inv in E as (ps & Ep & E).
  apply bind_Ok_inv in E as (idx & [-> _]%index_list_ok & [= <-]). split; cbn.
  - destruct (EncScheme.optional (yget "fields" _));
      [by eapply fields_from_yaml_ok | simplify_eq; by intros ? ? ?%elem_of_nil].
  - intros k imp (imp' & [= -> ->] & Hin)%list_elem_of_fmap.
    destruct (EncScheme.optional (yget "parents" _)); [| by simplify_eq; apply elem_of_nil in Hin].
    apply bind_Ok_inv in Ep as (l & _ & Ep).
    edestruct (mapR_elem _ _ _ _ Ep Hin) as (yimp & _ & Ey). by eapply import_init_ok.
Qed.

Record schemes_ok (self : EncSchemes) : Prop := {
  so_schemes : ∀ k s, dget k (ess_schemes self) = Some s → scheme_ok s;
  so_resolved : ess_resolved self = []
}.

Lemma encschemes_init_ok yml self : init yml = Ok self → schemes_ok self.
Proof.
  unfold init. destruct yml; try done. intros (schemes & E & [= <-])%bind_Ok_inv.
  split; [cbn | done].
  revert E. apply (foldM_ind (fun _ d => ∀ k s, dget k d = Some s → scheme_ok s)); [done |].
  intros _ [k v] acc acc' _ Hacc E k' s. cbn in E. destruct k; try done. inv_ok.
  rewrite dget_dset. case_decide; [| by apply Hacc]. intros [= <-]. by eapply scheme_init_ok.
Qed.

(** ** Resolved schemes *)

Lemma foldO_ind {A B} (P : B → Prop) (f : B → A → option (res B)) acc l b :
  P acc → (∀ acc x acc', x ∈ l → P acc → f acc x = Some (Ok acc') → P acc') →
  foldO f acc l = Some (Ok b) → P b.
Proof.
  revert acc. induction l as [| x l IH]; intros acc H0 Hstep; cbn [foldO].
  - by intros [= <-].
  - destruct (f acc x) as [[acc' | e] |] eqn:E; try done. apply IH.
    + eapply Hstep; [by left | done ..].
    + intros. eapply Hstep; [by right | done ..].
Qed.

Lemma merge_all_wf rps scheme r :
  (∀ k fs, (k, fs) ∈ rps → all_ok (esf_fields fs)) →
  all_ok (esf_fields (es_direct_fields scheme)) →
  merge_all rps scheme = Ok r → fields_wf r.
Proof.
  intros Hps Hd. unfold merge_all. intros (merged & Em & E)%bind_Ok_inv.
  eapply merge_in_wf; [| done | done]. revert Em.
  apply (foldM_ind (fun _ => fields_wf)); [apply empty_wf |].
  intros _ [k fs] acc acc' Hin Hacc Ea. eapply merge_in_wf; [done | by eapply Hps | done].
Qed.

Lemma _resolve_wf fuel self name stack r :
  schemes_ok self → _resolve fuel self name stack = Some (Ok r) → fields_wf r.
Proof.
  intros Hs. revert name stack r.
  induction fuel as [| fuel IH]; intros name stack r; cbn [_resolve]; [done |].
  rewrite (so_resolved _ Hs). cbn [dget]. destruct (decide (name ∈ stack)); [done |].
  destruct (dget name (ess_schemes self)) as [scheme |] eqn:Es; [| done].
  destruct (so_schemes _ Hs _ _ Es) as [Hdirect Hpar].
  destruct (foldO _ _ _) as [[rps | e] |] eqn:Ef; intros [= E].
  eapply merge_all_wf; [| done | done].
  revert Ef. apply (foldO_ind (fun rps => ∀ k fs, (k, fs) ∈ rps → all_ok (esf_fields fs)));
    [by intros ? ? ?%elem_of_nil |].
  intros acc [pname imp] acc' Hin Hacc Ea.
  destruct (_resolve fuel self _ _) as [[res' | e] |] eqn:Er; try done.
  injection Ea as Ea. cbn in Ea. inv_ok.
  intros k fs [[= -> ->] | ?]%dset_elem; [| by eapply Hacc].
  eapply apply_settings_ok; [by eapply Hpar | | done]. by apply (fw_ok _ (IH _ _ _ Er)).
Qed.

(** A resolved scheme is well formed and uses every bit of the word. *)
Lemma resolve_ok self name r :
  schemes_ok self → resolve self name = Some (Ok r) →
  fields_wf r ∧ ∀ i, 0 ≤ i < 32 → Z.testbit (esf_mask r) i = true.
Proof.
  intros Hs. unfold resolve. destruct (_resolve _ _ _ _) as [[r' |] |] eqn:E; try done. cbn.
  destruct (truthy _) eqn:Et; [done |]. intros [= <-].
  split; [by eapply _resolve_wf |]. intros i Hi.
  apply negb_false_iff, Z.eqb_eq in Et.
  assert (Ei := f_equal (fun z => Z.testbit z i) Et). revert Ei. cbn beta.
  autorewrite with testbit. zbool. intros ?%negb_false_iff. done.
Qed.
End EncSchemes.
