(* ===== verification/Encoding.v ===== *)
(** Instruction encodings (util/shared/encoding.py): the fields of a scheme with the
    literal or operand each of them holds. *)

From Stdlib Require Import Ascii.
From S2P Require Import Prelude PyStr Yaml BitRanges BoolLiteral EncodingScheme.

(** The value of a field: a literal or the name of an operand. *)
Inductive field_value :=
  | Literal (lit : BoolLiteral)
  | OpName (name : string).

#[global] Instance field_value_eq_dec : EqDecision field_value.
Proof. solve_decision. Defined.

Record EncodingField := mkEncodingField {
  ef_value : field_value;
  ef_scheme_field : EncSchemeField
}.

Record Encoding := mkEncoding {
  e_op_to_field_name : dict string;
  e_fields : dict EncodingField
}.

Module EncodingField.
(** [re.match(r'b[01x_]+$', as_str)] *)
Definition looks_literal (as_str : string) : bool :=
  match as_str with
  | String "b" rest =>
      match span (fun c => bool_decide (c ∈ ["0"; "1"; "x"; "_"]%char)) rest with
      | (EmptyString, _) => false
      | (_, rest) => at_end rest
      end
  | _ => false
  end.

Definition from_yaml (as_str : string) (scheme_field : EncSchemeField) : res EncodingField :=
  match as_str with
  | EmptyString => Err ValueError
  | _ =>
      value ← if looks_literal as_str
              then
                lit ← BoolLiteral.from_string as_str;
                if br_width (sf_bits scheme_field) =? bl_width lit
                then Ok (Literal lit) else Err ValueError
              else Ok (OpName as_str);
      Ok (mkEncodingField value scheme_field)
  end.
End EncodingField.

Module Encoding.
(** One round of the loop of [Encoding.__init__]. *)
Definition add_field (ydm : list (yaml * yaml)) (self : Encoding)
    (nf : string * EncSchemeField) : res Encoding :=
  let '(field_name, scheme_field) := nf in
  match sf_value scheme_field with
  | Some value =>
      let field := mkEncodingField (Literal value) scheme_field in
      Ok (mkEncoding (e_op_to_field_name self) (dset field_name field (e_fields self)))
  | None =>
      ef_val ← of_option KeyError (yget field_name ydm);
      ef_val ← check_str ef_val;
      field ← EncodingField.from_yaml ef_val scheme_field;
      ops ← match ef_value field with
            | OpName op =>
                match dget op (e_op_to_field_name self) with
                | Some _ => Err ValueError
                | None => Ok (dset op field_name (e_op_to_field_name self))
                end
            | Literal _ => Ok (e_op_to_field_name self)
            end;
      Ok (mkEncoding ops (dset field_name field (e_fields self)))
  end.

(** [Encoding.__init__].  [resolve] always answers ([EncSchemes.resolve_total]). *)
Definition init (yml : yaml) (schemes : EncSchemes) : res Encoding :=
  yd ← check_keys yml ["scheme"; "mapping"] [];
  scheme_name ← of_option KeyError (yget "scheme" yd);
  scheme_name ← check_str scheme_name;
  scheme_fields ← default (Err RuntimeError) (EncSchemes.resolve schemes scheme_name);
  mapping ← of_option KeyError (yget "mapping" yd);
  ydm ← check_keys mapping (elements (esf_op_fields scheme_fields)) [];
  foldM (add_field ydm) (mkEncoding [] []) (esf_fields scheme_fields).

(** The bit [idx] of a range of a literal. *)
Definition add_bit (lit : BoolLiteral) (val_lsb lsb : Z) (ms : Z * Z) (idx : Z) : res (Z * Z) :=
  let '(m0, m1) := ms in
  desc ← BoolLiteral.char_for_bit (val_lsb + idx) lit;
  Ok (if bool_decide (desc ∈ ["0"; "x"]%char) then m0 .| (1 ≪ (idx + lsb)) else m0,
      if bool_decide (desc ∈ ["1"; "x"]%char) then m1 .| (1 ≪ (idx + lsb)) else m1).

(** A range of the bits of a literal. *)
Definition add_range (lit : BoolLiteral) (width : Z) (acc : Z * Z * Z) (rng : Z * Z)
    : res (Z * Z * Z) :=
  let '(m0, m1, bits_seen) := acc in
  let '(msb, lsb) := rng in
  let val_msb := width - 1 - bits_seen in
  let val_lsb := val_msb - msb + lsb in
  let bits_seen := bits_seen + (msb - lsb + 1) in
  '(m0, m1) ← foldM (add_bit lit val_lsb lsb) (m0, m1) (seqZ 0 (msb - lsb + 1));
  Ok (m0, m1, bits_seen).

(** One round of the loop of [get_masks]. *)
Definition add_masks (ms : Z * Z) (field : EncodingField) : res (Z * Z) :=
  let '(m0, m1) := ms in
  let bits := sf_bits (ef_scheme_field field) in
  match ef_value field with
  | OpName _ => Ok (m0 .| br_mask bits, m1 .| br_mask bits)
  | Literal lit =>
      py_assert (0 <? bl_width lit);;
      py_assert (bl_width lit =? br_width bits);;
      '(m0, m1, _) ← foldM (add_range lit (br_width bits)) (m0, m1, 0) (br_ranges bits);
      Ok (m0, m1)
  end.

Definition get_masks (e : Encoding) : res (Z * Z) :=
  '(m0, m1) ← foldM add_masks (0, 0) (e_fields e).*2;
  py_assert ((m0 .| m1) =? mask 32);;
  Ok (m0, m1).

Definition get_ones_mask (e : Encoding) : res Z :=
  '(m0, m1) ← get_masks e;
  Ok (m1 .& ~. m0).

(** One round of the loop of [assemble]. *)
Definition add_operand (op_to_idx : dict Z) (val : Z) (field : EncodingField) : res Z :=
  match ef_value field with
  | Literal _ => Ok val
  | OpName name =>
      let field_val := default 0 (dget name op_to_idx) in
      let bits := sf_bits (ef_scheme_field field) in
      py_assert (0 <=? field_val);;
      if truthy (field_val ≫ br_width bits) then Err ValueError
      else
        enc ← BitRanges.encode field_val bits;
        Ok (val .| enc)
  end.

Definition assemble (e : Encoding) (op_to_idx : dict Z) : res Z :=
  val ← get_ones_mask e;
  foldM (add_operand op_to_idx) val (e_fields e).*2.

Definition extract_operands (e : Encoding) (word : Z) : dict Z :=
  foldl (fun ret field =>
    match ef_value field with
    | Literal _ => ret
    | OpName name => dset name (BitRanges.decode word (sf_bits (ef_scheme_field field))) ret
    end) [] (e_fields e).*2.

(** ** Well-formed encodings *)

Definition f_bits (f : EncodingField) : BitRanges := sf_bits (ef_scheme_field f).
Definition f_mask (f : EncodingField) : Z := br_mask (f_bits f).

Definition field_ok (f : EncodingField) : Prop :=
  BitRanges.wf (f_bits f) ∧
  ∀ lit, ef_value f = Literal lit → BoolLiteral.wf lit ∧ br_width (f_bits f) = bl_width lit.

(** The fields partition the bits of the word, and no operand is used twice. *)
Record wf (e : Encoding) : Prop := {
  wf_names : NoDup (e_fields e).*1;
  wf_field : ∀ k f, (k, f) ∈ e_fields e → field_ok f;
  wf_apart : ∀ k1 f1 k2 f2, (k1, f1) ∈ e_fields e → (k2, f2) ∈ e_fields e →
    k1 ≠ k2 → f_mask f1 .& f_mask f2 = 0;
  wf_cover : ∀ i, 0 ≤ i < 32 → ∃ k f, (k, f) ∈ e_fields e ∧ Z.testbit (f_mask f) i = true;
  wf_linear : ∀ k1 f1 k2 f2 op, (k1, f1) ∈ e_fields e → (k2, f2) ∈ e_fields e →
    ef_value f1 = OpName op → ef_value f2 = OpName op → k1 = k2;
  wf_index : ∀ op k, dget op (e_op_to_field_name e) = Some k ↔
    ∃ f, (k, f) ∈ e_fields e ∧ ef_value f = OpName op
}.

(** What the constructor has built from the scheme fields [pre]. *)
Record built (pre : dict EncSchemeField) (e : Encoding) : Prop := {
  b_names : (e_fields e).*1 = pre.*1;
  b_field : ∀ k f, (k, f) ∈ e_fields e → (k, ef_scheme_field f) ∈ pre ∧ field_ok f;
  b_index : ∀ op k, dget op (e_op_to_field_name e) = Some k ↔
    ∃ f, (k, f) ∈ e_fields e ∧ ef_value f = OpName op
}.

Lemma from_yaml_ok s sf f :
  EncSchemes.field_ok sf → EncodingField.from_yaml s sf = Ok f →
  field_ok f ∧ ef_scheme_field f = sf.
Proof.
  intros [Hb _] E. unfold EncodingField.from_yaml in E. destruct s as [| c s]; [done |].
  apply bind_Ok_inv in E as (v & Ev & [= <-]). split; [| done]. split; [done |].
  cbn. intros lit ->. destruct (EncodingField.looks_literal _); [| by simplify_eq].
  apply bind_Ok_inv in Ev as (lit' & El & Ev).
  destruct (Z.eqb_spec (br_width (sf_bits sf)) (bl_width lit')); [| done]. simplify_eq.
  split; [by eapply BoolLiteral.from_string_wf | done].
Qed.

(** Adding a field under a new name. *)
Lemma built_add pre e k sf f ops :
  built pre e → k ∉ pre.*1 → ef_scheme_field f = sf → field_ok f →
  (∀ op k', dget op ops = Some k' ↔
    dget op (e_op_to_field_name e) = Some k' ∨ k' = k ∧ ef_value f = OpName op) →
  built (pre ++ [(k, sf)]) (mkEncoding ops (dset k f (e_fields e))).
Proof.
  intros [Hn Hf Hi] Hnew <- Hok Hops. rewrite dset_fresh by (by rewrite Hn). split; cbn.
  - by rewrite !fmap_app, Hn.
  - intros k' f' [Hin | [= -> ->]%list_elem_of_singleton]%elem_of_app.
    + destruct (Hf _ _ Hin). split; [| done]. apply elem_of_app. by left.
    + split; [| done]. apply elem_of_app. right. by apply list_elem_of_singleton.
  - intros op k'. rewrite Hops, Hi. setoid_rewrite elem_of_app.
    setoid_rewrite list_elem_of_singleton. split; [naive_solver |].
    intros (f' & [? | [= -> ->]] & ?); naive_solver.
Qed.

Lemma add_field_built ydm pre e k sf e' :
  EncSchemes.field_ok sf → k ∉ pre.*1 → built pre e →
  add_field ydm e (k, sf) = Ok e' → built (pre ++ [(k, sf)]) e'.
Proof.
  intros Hsf Hnew Hb. unfold add_field. destruct (sf_value sf) as [lit |] eqn:Ev.
  - intros [= <-]. eapply built_add; try done.
    + destruct Hsf as [? Hl]. split; [done |]. cbn. intros ? [= <-]. by apply Hl.
    + cbn. naive_solver.
  - intros E. inv_ok.
    match goal with H : EncodingField.from_yaml _ _ = Ok _ |- _ =>
      apply (from_yaml_ok _ _ _ Hsf) in H as [? ?] end.
    destruct (ef_value x1) as [lit | op] eqn:Ex; simplify_eq.
    + eapply built_add; try done. rewrite Ex. naive_solver.
    + destruct (dget op (e_op_to_field_name e)) eqn:Eo; [done |]. simplify_eq.
      eapply built_add; try done. rewrite Ex. intros op' k'. rewrite dget_dset.
      case_decide; naive_solver.
Qed.

(** An encoding that the constructor accepts is well formed. *)
Lemma encoding_init_wf yml schemes e :
  EncSchemes.schemes_ok schemes → init yml schemes = Ok e → wf e.
Proof.
  intros Hs E. unfold init in E. inv_ok.
  destruct (EncSchemes.resolve schemes x1) as [r |] eqn:Er; [cbn in *; subst | done].
  destruct (EncSchemes.resolve_ok _ _ _ Hs Er) as [[Hn Hok Hap Hm _] Hall].
  apply (foldM_ind_prefix built) in E as [Hbn Hbf Hbi].
  - assert (Hnames : NoDup (e_fields e).*1) by (by rewrite Hbn).
    split; [done | by intros; eapply Hbf | | | | done].
    + intros k1 f1 k2 f2 [? _]%Hbf [? _]%Hbf ?. eauto.
    + intros i Hi. destruct (proj1 (Hm i ltac:(lia)) (Hall i Hi)) as (k & sf & Hin & Hb).
      assert (Hk : k ∈ (e_fields e).*1) by (rewrite Hbn; apply list_elem_of_fmap; by exists (k, sf)).
      apply list_elem_of_fmap in Hk as ([k' f] & -> & Hf).
      exists k', f. split; [done |]. destruct (Hbf _ _ Hf) as [Hsf _].
      cbn in Hin. apply elem_dget in Hin; [| done]. apply elem_dget in Hsf; [| done].
      unfold f_mask, f_bits. congruence.
    + intros k1 f1 k2 f2 op Hk1 Hk2 E1 E2.
      assert (dget op (e_op_to_field_name e) = Some k1) by (apply Hbi; eauto).
      assert (dget op (e_op_to_field_name e) = Some k2) by (apply Hbi; eauto). congruence.
  - split; cbn; [done | by intros * ?%elem_of_nil |]. intros op k. split; [done |].
    by intros (f & ?%elem_of_nil & _).
  - intros pre [k sf] post acc acc' Hl Hb Ha. eapply add_field_built; try done.
    + eapply Hok. rewrite Hl. apply elem_of_app. right. by left.
    + rewrite Hl, fmap_app, fmap_cons in Hn. apply NoDup_app in Hn as (_ & Hn & _).
      intros Hin. apply (Hn _ Hin). by left.
Qed.

(** ** The masks *)

Definition lor_all (l : list Z) : Z := foldr Z.lor 0 l.

Lemma testbit_lor_all l i :
  Z.testbit (lor_all l) i = true ↔ ∃ z, z ∈ l ∧ Z.testbit z i = true.
Proof.
  induction l as [| z l IH]; cbn [lor_all foldr].
  - rewrite Z.bits_0. split; [done | by intros (? & ?%elem_of_nil & _)].
  - rewrite Z.lor_spec, orb_true_iff, IH. setoid_rewrite elem_of_cons. naive_solver.
Qed.

(** The bits where a field may be 0, and where it may be 1. *)
Definition field_m0 (f : EncodingField) : Z :=
  match ef_value f with
  | OpName _ => f_mask f
  | Literal lit => BitRanges.enc (~. (bl_ones lit)) (br_ranges (f_bits f))
  end.

Definition field_m1 (f : EncodingField) : Z :=
  match ef_value f with
  | OpName _ => f_mask f
  | Literal lit => BitRanges.enc (bl_ones lit .| bl_xs lit) (br_ranges (f_bits f))
  end.

(** One more bit of a value. *)
Lemma mask_grow v n lsb :
  0 ≤ n → 0 ≤ lsb →
  (v .& mask (n + 1)) ≪ lsb =
  ((v .& mask n) ≪ lsb) .| (if Z.testbit v n then 1 ≪ (n + lsb) else 0).
Proof.
  intros Hn Hl. bitwise i.
  replace (Z.testbit (if Z.testbit v n then 1 ≪ (n + lsb) else 0) i)
    with (Z.testbit v n && (n + lsb =? i)).
  - destruct (decide (i - lsb = n)) as [<- |].
    + zbool. by rewrite andb_true_r, andb_false_r.
    + repeat zcase; rewrite ?andb_true_r, ?andb_false_r, ?orb_false_r; done.
  - destruct (Z.testbit v n); [| by rewrite Z.bits_0].
    by rewrite Z.shiftl_1_l, Z.pow2_bits_eqb by lia.
Qed.

Lemma add_bits_ok lit val_lsb lsb (n : nat) m0 m1 :
  0 ≤ val_lsb → 0 ≤ lsb → val_lsb + Z.of_nat n ≤ bl_width lit →
  foldM (add_bit lit val_lsb lsb) (m0, m1) (seqZ 0 (Z.of_nat n)) =
  Ok (m0 .| ((((~. (bl_ones lit)) ≫ val_lsb) .& mask (Z.of_nat n)) ≪ lsb),
      m1 .| ((((bl_ones lit .| bl_xs lit) ≫ val_lsb) .& mask (Z.of_nat n)) ≪ lsb)).
Proof.
  intros Hv Hl. induction n as [| n IH]; intros Hn.
  - cbn. by rewrite !Z.land_0_r, !Z.shiftl_0_l, !Z.lor_0_r.
  - rewrite seqZ_S, foldM_app, IH by lia. cbn [foldM mbind res_bind add_bit].
    rewrite Z.add_0_l, BoolLiteral.char_for_bit_eq by lia. cbn [mbind res_bind].
    replace (Z.of_nat (S n)) with (Z.of_nat n + 1) by lia. rewrite !mask_grow by lia.
    autorewrite with testbit. rewrite (Z.add_comm (Z.of_nat n) val_lsb).
    destruct (Z.testbit (bl_ones lit) _), (Z.testbit (bl_xs lit) _); cbn;
      rewrite ?Z.lor_0_r, ?Z.lor_assoc; done.
Qed.

Lemma add_ranges_ok lit W rs m0 m1 seen :
  BitRanges.disjoint rs → W = bl_width lit → W = seen + BitRanges.width_of rs → 0 ≤ seen →
  foldM (add_range lit W) (m0, m1, seen) rs =
  Ok (m0 .| BitRanges.enc (~. (bl_ones lit)) rs,
      m1 .| BitRanges.enc (bl_ones lit .| bl_xs lit) rs, W).
Proof.
  revert m0 m1 seen. induction rs as [| [msb lsb] rs IH]; intros m0 m1 seen Hd HW HW' Hs.
  - cbn in *. rewrite !Z.lor_0_r. do 2 f_equal. lia.
  - pose proof Hd as (? & ? & _ & Hrs). pose proof (BitRanges.width_of_nonneg rs Hrs).
    cbn [BitRanges.width_of BitRanges.enc foldM add_range] in *.
    replace (W - 1 - seen - msb + lsb) with (BitRanges.width_of rs) by lia.
    rewrite <- (Z2Nat.id (msb - lsb + 1)) by lia.
    rewrite add_bits_ok by lia. rewrite Z2Nat.id by lia. cbn [mbind res_bind].
    rewrite IH by (done || lia). by rewrite <- !Z.lor_assoc.
Qed.

Lemma add_masks_ok f m0 m1 :
  field_ok f → add_masks (m0, m1) f = Ok (m0 .| field_m0 f, m1 .| field_m1 f).
Proof.
  intros [[Hd Hw Hm] Hlit]. unfold add_masks, field_m0, field_m1, f_mask.
  fold (f_bits f). destruct (ef_value f) as [lit | op]; [| done].
  destruct (Hlit lit eq_refl) as [[Hpos _ _ _] HW].
  rewrite (proj2 (Z.ltb_lt _ _) Hpos). rewrite <- HW, Z.eqb_refl. cbn [py_assert mbind res_bind].
  rewrite add_ranges_ok by (done || lia). done.
Qed.

Lemma all_masks_ok fs m0 m1 :
  (∀ f, f ∈ fs → field_ok f) →
  foldM add_masks (m0, m1) fs =
  Ok (m0 .| lor_all (field_m0 <$> fs), m1 .| lor_all (field_m1 <$> fs)).
Proof.
  revert m0 m1. induction fs as [| f fs IH]; intros m0 m1 Hok; cbn [foldM fmap list_fmap lor_all foldr].
  - by rewrite !Z.lor_0_r.
  - rewrite add_masks_ok by (apply Hok; by left). cbn [mbind res_bind].
    rewrite IH by (intros; apply Hok; by right). by rewrite <- !Z.lor_assoc.
Qed.

(** ** Bits of a word, field by field *)

(** [g] sets bits of a field only. *)
Definition inside (g : EncodingField → Z) : Prop :=
  ∀ f i, field_ok f → 0 ≤ i → Z.testbit (f_mask f) i = false → Z.testbit (g f) i = false.

Definition gather (e : Encoding) (g : EncodingField → Z) : Z := lor_all (g <$> (e_fields e).*2).

(** A bit of a field is decided by that field. *)
Lemma pick e g i k f :
  wf e → inside g → 0 ≤ i → (k, f) ∈ e_fields e → Z.testbit (f_mask f) i = true →
  Z.testbit (gather e g) i = Z.testbit (g f) i.
Proof.
  intros He Hg Hi Hf Hm. apply eq_true_iff_eq. unfold gather. rewrite testbit_lor_all. split.
  - intros (z & (f' & -> & ([k' f''] & -> & Hf')%list_elem_of_fmap)%list_elem_of_fmap & Hz).
    cbn in *. destruct (decide (k = k')) as [<- | Hk].
    + apply elem_dget in Hf, Hf'; try apply (wf_names _ He). congruence.
    + destruct (Z.testbit (f_mask f'') i) eqn:Hm'.
      * pose proof (EncSchemes.land_0_bit _ _ i (wf_apart _ He _ _ _ _ Hf Hf' Hk) Hm). congruence.
      * rewrite (Hg f'' i) in Hz by (done || by eapply wf_field). done.
  - intros Hz. exists (g f). split; [| done]. apply list_elem_of_fmap. exists f.
    split; [done |]. apply list_elem_of_fmap. by exists (k, f).
Qed.

Lemma f_mask_eq f : field_ok f → f_mask f = BitRanges.mask_of (br_ranges (f_bits f)).
Proof. intros [[_ _ Hm] _]. done. Qed.

Lemma enc_inside (h : EncodingField → Z) :
  inside (fun f => BitRanges.enc (h f) (br_ranges (f_bits f))).
Proof.
  intros f i Hf Hi Hm. rewrite f_mask_eq in Hm by done. destruct Hf as [[? _ _] _].
  by apply BitRanges.enc_testbit_outside.
Qed.

Lemma field_m0_inside : inside field_m0.
Proof.
  intros f i Hf Hi Hm. unfold field_m0. destruct (ef_value f) as [lit |]; [| done].
  by apply (enc_inside (fun _ => ~. (bl_ones lit))).
Qed.

Lemma field_m1_inside : inside field_m1.
Proof.
  intros f i Hf Hi Hm. unfold field_m1. destruct (ef_value f) as [lit |]; [| done].
  by apply (enc_inside (fun _ => bl_ones lit .| bl_xs lit)).
Qed.

(** Which bit of the field's value a bit of the word is. *)
Lemma field_index f i :
  field_ok f → 0 ≤ i → Z.testbit (f_mask f) i = true →
  ∃ j, 0 ≤ j < br_width (f_bits f) ∧
       ∀ v, Z.testbit (BitRanges.enc v (br_ranges (f_bits f))) i = Z.testbit v j.
Proof.
  intros Hf Hi Hm. rewrite f_mask_eq in Hm by done. destruct Hf as [[Hd -> _] _].
  by apply BitRanges.enc_index.
Qed.

Lemma mask_bound f i : field_ok f → 32 ≤ i → Z.testbit (f_mask f) i = false.
Proof.
  intros Hf Hi. rewrite f_mask_eq by done. destruct Hf as [[Hd _ _] _].
  by apply (testbit_in_bits 32); [apply BitRanges.mask_of_in_bits |].
Qed.

(** Two words made of bits of fields agree when they agree on each field. *)
Lemma word_eq e a b :
  wf e → in_bits 32 a → in_bits 32 b →
  (∀ k f i, (k, f) ∈ e_fields e → 0 ≤ i → Z.testbit (f_mask f) i = true →
    Z.testbit a i = Z.testbit b i) → a = b.
Proof.
  intros He Ha Hb H. apply Z_bits_eq. intros i Hi. destruct (decide (i < 32)).
  - destruct (wf_cover _ He i ltac:(lia)) as (k & f & Hf & Hm). eauto.
  - by rewrite !(testbit_in_bits 32) by (done || lia).
Qed.

Lemma gather_in_bits e g : wf e → inside g → (∀ f, field_ok f → 0 ≤ g f) → in_bits 32 (gather e g).
Proof.
  intros He Hg Hpos. apply in_bits_testbit; [lia |]. split.
  - unfold gather. assert (H : ∀ f, f ∈ (e_fields e).*2 → 0 ≤ g f).
    { intros f ([k f'] & -> & Hin)%list_elem_of_fmap. by eapply Hpos, wf_field. }
    induction ((e_fields e).*2) as [| f fs IH]; cbn; [done |]. apply Z.lor_nonneg.
    split; [apply H; by left | apply IH; intros; apply H; by right].
  - intros i Hi. destruct (Z.testbit (gather e g) i) eqn:E; [| done].
    apply testbit_lor_all in E as (z & (f & -> & ([k f'] & -> & Hin)%list_elem_of_fmap)%list_elem_of_fmap & Hz).
    cbn in Hz. pose proof (wf_field _ He _ _ Hin) as Hok.
    rewrite (Hg f' i Hok) in Hz; [done | lia | by apply mask_bound].
Qed.

Lemma enc_nonneg v rs : BitRanges.disjoint rs → 0 ≤ BitRanges.enc v rs.
Proof.
  induction rs as [| [msb lsb] rs IH]; intros Hd; cbn [BitRanges.enc]; [done |].
  pose proof Hd as (? & ? & _ & Hrs). apply Z.lor_nonneg. split; [| by apply IH].
  apply Z.shiftl_nonneg, in_bits_mask. lia.
Qed.

Lemma f_mask_nonneg f : field_ok f → 0 ≤ f_mask f.
Proof. intros Hf. rewrite f_mask_eq by done. destruct Hf as [[Hd _ _] _]. by apply BitRanges.mask_of_in_bits. Qed.

Lemma field_m_nonneg f : field_ok f → 0 ≤ field_m0 f ∧ 0 ≤ field_m1 f.
Proof.
  intros Hf. pose proof (f_mask_nonneg f Hf). destruct Hf as [[Hd _ _] _].
  unfold field_m0, field_m1. destruct (ef_value f); auto using enc_nonneg.
Qed.

(** Every bit of the word may be 0 or may be 1, and no other bit is. *)
Lemma masks_cover e i :
  wf e → 0 ≤ i →
  Z.testbit (gather e field_m0) i || Z.testbit (gather e field_m1) i = (i <? 32).
Proof.
  intros He Hi. destruct (Z.ltb_spec i 32).
  - destruct (wf_cover _ He i ltac:(lia)) as (k & f & Hf & Hm).
    pose proof (wf_field _ He _ _ Hf) as Hok.
    rewrite !(pick e _ i k f) by eauto using field_m0_inside, field_m1_inside.
    unfold field_m0, field_m1. destruct (ef_value f); [| by rewrite Hm].
    destruct (field_index f i Hok Hi Hm) as (j & Hj & Hv). rewrite !Hv.
    autorewrite with testbit. by destruct (Z.testbit (bl_ones lit) j).
  - rewrite (testbit_in_bits 32 (gather e field_m0)), (testbit_in_bits 32 (gather e field_m1));
      [done | | lia | | lia];
      apply gather_in_bits; auto using field_m0_inside, field_m1_inside; apply field_m_nonneg.
Qed.

(** The masks returned are the union of those of the fields: every bit is allowed
    to be 0 or 1. *)
Lemma get_masks_ok e : wf e → get_masks e = Ok (gather e field_m0, gather e field_m1).
Proof.
  intros He. unfold get_masks. rewrite all_masks_ok.
  - cbn [mbind res_bind]. rewrite !Z.lor_0_l. fold (gather e field_m0) (gather e field_m1).
    replace (gather e field_m0 .| gather e field_m1) with (mask 32); [by rewrite Z.eqb_refl |].
    apply Z_bits_eq. intros i Hi. rewrite Z.lor_spec, masks_cover, testbit_mask by (done || lia).
    by zbool.
  - intros f ([k f'] & -> & Hin)%list_elem_of_fmap. by eapply wf_field.
Qed.

(** ** Assembling *)

(** The value each field gets, and the bits the operand loop adds. *)
Definition value_of (ops : dict Z) (f : EncodingField) : Z :=
  match ef_value f with
  | Literal lit => bl_ones lit
  | OpName name => default 0 (dget name ops)
  end.

Definition spread (ops : dict Z) (f : EncodingField) : Z :=
  BitRanges.enc (value_of ops f) (br_ranges (f_bits f)).

Definition op_part (ops : dict Z) (f : EncodingField) : Z :=
  match ef_value f with Literal _ => 0 | OpName _ => spread ops f end.

(** Each operand is given as a value that fits its field. *)
Definition fits_ops (e : Encoding) (ops : dict Z) : Prop :=
  ∀ k f op, (k, f) ∈ e_fields e → ef_value f = OpName op →
    in_bits (br_width (f_bits f)) (default 0 (dget op ops)).

Lemma spread_inside ops : inside (spread ops).
Proof. apply (enc_inside (value_of ops)). Qed.

Lemma op_part_inside ops : inside (op_part ops).
Proof.
  intros f i Hf Hi Hm. unfold op_part. destruct (ef_value f); [apply Z.bits_0 |].
  by apply spread_inside.
Qed.

Lemma spread_nonneg ops f : field_ok f → 0 ≤ spread ops f.
Proof. intros [[Hd _ _] _]. by apply enc_nonneg. Qed.

Lemma add_operand_ok ops f val :
  field_ok f → (∀ op, ef_value f = OpName op → in_bits (br_width (f_bits f)) (default 0 (dget op ops))) →
  add_operand ops val f = Ok (val .| op_part ops f).
Proof.
  intros [Hb _] Hop. unfold add_operand, op_part, spread, value_of. fold (f_bits f).
  destruct (ef_value f) as [lit | op]; [by rewrite Z.lor_0_r |].
  destruct (Hop op eq_refl) as [H0 H1]. set (v := default 0 (dget op ops)) in *.
  rewrite (proj2 (Z.leb_le 0 v) H0). cbn [py_assert mbind res_bind].
  assert (0 ≤ br_width (f_bits f)).
  { rewrite (BitRanges.wf_width _ Hb). apply BitRanges.width_of_nonneg, Hb. }
  rewrite Z.shiftr_div_pow2, Z.div_small by done. cbn [truthy negb Z.eqb].
  by rewrite BitRanges.encode_eq.
Qed.

Lemma add_operands_ok ops fs val :
  (∀ f, f ∈ fs → field_ok f ∧ ∀ op, ef_value f = OpName op →
    in_bits (br_width (f_bits f)) (default 0 (dget op ops))) →
  foldM (add_operand ops) val fs = Ok (val .| lor_all (op_part ops <$> fs)).
Proof.
  revert val. induction fs as [| f fs IH]; intros val Hok; cbn [foldM fmap list_fmap lor_all foldr].
  - by rewrite Z.lor_0_r.
  - destruct (Hok f) as [? ?]; [by left |]. rewrite add_operand_ok by done. cbn [mbind res_bind].
    rewrite IH by (intros; apply Hok; by right). by rewrite <- Z.lor_assoc.
Qed.

(** The assembled word holds in each field its literal, with 0 for x, or the value
    of its operand. *)
Lemma assemble_ok e ops :
  wf e → fits_ops e ops → assemble e ops = Ok (gather e (spread ops)).
Proof.
  intros He Hops. unfold assemble, get_ones_mask. rewrite get_masks_ok by done.
  cbn [mbind res_bind]. rewrite add_operands_ok.
  - f_equal. fold (gather e (op_part ops)). apply (word_eq e); [done | | |].
    + apply in_bits_lor; [lia | apply in_bits_land_l; [lia |] |]; apply gather_in_bits;
        eauto using field_m1_inside, op_part_inside.
      * apply field_m_nonneg.
      * intros f Hf. unfold op_part. destruct (ef_value f); [done | by apply spread_nonneg].
    + apply gather_in_bits; auto using spread_inside, spread_nonneg.
    + intros k f i Hf Hi Hm. pose proof (wf_field _ He _ _ Hf) as Hok.
      rewrite Z.lor_spec, Z.land_spec, Z.lnot_spec by done.
      rewrite !(pick e _ i k f)
        by eauto using field_m0_inside, field_m1_inside, op_part_inside, spread_inside.
      unfold field_m0, field_m1, op_part, spread, value_of.
      destruct (field_index f i Hok Hi Hm) as (j & Hj & Hv).
      destruct (ef_value f); [| by rewrite Hm].
      rewrite !Hv, Z.bits_0. autorewrite with testbit. bits_cases.
  - intros f ([k f'] & -> & Hin)%list_elem_of_fmap. split; [by eapply wf_field |].
    intros op Hv. by eapply Hops.
Qed.

(** ** Extracting *)

Lemma decode_spread e ops k f :
  wf e → (k, f) ∈ e_fields e → in_bits (br_width (f_bits f)) (value_of ops f) →
  BitRanges.decode (gather e (spread ops)) (f_bits f) = value_of ops f.
Proof.
  intros He Hf Hv. pose proof (wf_field _ He _ _ Hf) as Hok. pose proof (f_mask_eq f Hok) as Hfm.
  pose proof Hok as [[Hd Hw Hm] _]. rewrite BitRanges.decode_eq by done.
  rewrite (BitRanges.dec_agree _ (spread ops f)); [| done |].
  - unfold spread. rewrite BitRanges.dec_enc by done. rewrite <- Hw. apply mask_in_bits; [| done].
    rewrite Hw. by apply BitRanges.width_of_nonneg.
  - intros i Hi Hi'. apply (pick e _ i k f); try done; [apply spread_inside | congruence].
Qed.

Definition extract_step (word : Z) (ret : dict Z) (field : EncodingField) : dict Z :=
  match ef_value field with
  | Literal _ => ret
  | OpName name => dset name (BitRanges.decode word (sf_bits (ef_scheme_field field))) ret
  end.

Lemma extract_other word fs ret op :
  (∀ f, f ∈ fs → ef_value f ≠ OpName op) →
  dget op (foldl (extract_step word) ret fs) = dget op ret.
Proof.
  revert ret. induction fs as [| f fs IH]; intros ret Hno; [done |]. cbn [foldl].
  rewrite IH by (intros; apply Hno; by right). unfold extract_step.
  specialize (Hno f ltac:(by left)). destruct (ef_value f) as [| op']; [done |].
  rewrite dget_dset, decide_False; [done | congruence].
Qed.

Lemma extract_found word fs ret op f :
  f ∈ fs → ef_value f = OpName op → (∀ f', f' ∈ fs → ef_value f' = OpName op → f' = f) →
  dget op (foldl (extract_step word) ret fs) = Some (BitRanges.decode word (f_bits f)).
Proof.
  revert ret. induction fs as [| f0 fs IH]; intros ret Hin Hv Huniq; [by apply elem_of_nil in Hin |].
  cbn [foldl]. destruct (decide (Exists (fun f' => ef_value f' = OpName op) fs)) as [Hex | Hno].
  - apply Exists_exists in Hex as (f' & Hf' & Hv').
    assert (f' = f) as <- by (apply Huniq; [by right | done]).
    apply IH; try done. intros. apply Huniq; [by right | done].
  - assert (f = f0) as <-.
    { apply elem_of_cons in Hin as [-> | Hin]; [done |]. destruct Hno.
      apply Exists_exists. eauto. }
    rewrite extract_other by (intros f' Hf' ?; apply Hno, Exists_exists; eauto).
    unfold extract_step. rewrite Hv, dget_dset. by rewrite decide_True.
Qed.

(** The operands read from a word are the decoded operand fields. *)
Lemma dget_extract e word k f op :
  wf e → (k, f) ∈ e_fields e → ef_value f = OpName op →
  dget op (extract_operands e word) = Some (BitRanges.decode word (f_bits f)).
Proof.
  intros He Hf Hv. apply extract_found; [| done |].
  - apply list_elem_of_fmap. by exists (k, f).
  - intros f'' ([k' f'] & -> & Hf')%list_elem_of_fmap Hv'. cbn in *.
    assert (k' = k) as -> by (by eapply (wf_linear _ He)).
    apply elem_dget in Hf, Hf'; try apply (wf_names _ He). congruence.
Qed.

Lemma extract_keys word fs ret :
  NoDup ret.*1 → NoDup (foldl (extract_step word) ret fs).*1 ∧
  ∀ op, op ∈ (foldl (extract_step word) ret fs).*1 →
    op ∈ ret.*1 ∨ ∃ f, f ∈ fs ∧ ef_value f = OpName op.
Proof.
  revert ret. induction fs as [| f fs IH]; intros ret Hn; [by split; [| left] |]. cbn [foldl].
  destruct (IH (extract_step word ret f)) as [Hn' Hk].
  { unfold extract_step. destruct (ef_value f); [done | by apply dset_NoDup]. }
  split; [done |]. intros op [Hin | (f' & ? & ?)]%Hk; [| right; exists f'; split; [by right | done]].
  unfold extract_step in Hin. destruct (ef_value f) as [| op'] eqn:Hv; [by left |].
  rewrite dset_keys in Hin. case_decide; [by left |].
  apply elem_of_app in Hin as [? | ->%list_elem_of_singleton]; [by left |].
  right. exists f. split; [by left | done].
Qed.

(** The names read are those of the operand fields, each once. *)
Lemma extract_names e word :
  NoDup (extract_operands e word).*1 ∧
  ∀ op v, (op, v) ∈ extract_operands e word → ∃ k f, (k, f) ∈ e_fields e ∧ ef_value f = OpName op.
Proof.
  destruct (extract_keys word (e_fields e).*2 []) as [Hn Hk]; [constructor |].
  split; [done |]. intros op v Hin.
  assert (Hop : op ∈ (extract_operands e word).*1) by (apply list_elem_of_fmap; by exists (op, v)).
  apply Hk in Hop as [?%elem_of_nil | (f & ([k f'] & -> & Hf)%list_elem_of_fmap & Hv)]; [done |].
  eauto.
Qed.

(** ** Matching *)

(** The test of the decoder: no bit that must be 0 is set, and none that must be 1
    is clear. *)
Definition passes (m0 m1 word : Z) : bool :=
  negb (truthy (word .& (m0 .& ~. m1))) && negb (truthy ((~. word) .& (m1 .& ~. m0))).

(** Every literal field of the word matches its literal. *)
Definition literals_match (e : Encoding) (word : Z) : Prop :=
  ∀ k f lit, (k, f) ∈ e_fields e → ef_value f = Literal lit →
    BoolLiteral.matches (BitRanges.decode word (f_bits f)) lit = true.

Lemma passes_bits m0 m1 word :
  passes m0 m1 word = true ↔ ∀ i, 0 ≤ i →
    (if Z.testbit word i then Z.testbit m1 i || negb (Z.testbit m0 i)
     else Z.testbit m0 i || negb (Z.testbit m1 i)) = true.
Proof.
  unfold passes, truthy. rewrite !negb_involutive, andb_true_iff, !Z.eqb_eq. split.
  - intros [H0 H1] i Hi.
    assert (E0 := f_equal (fun z => Z.testbit z i) H0). assert (E1 := f_equal (fun z => Z.testbit z i) H1).
    revert E0 E1. cbn beta. autorewrite with testbit. by repeat destruct (Z.testbit _ i).
  - intros H. split; bitwise i; specialize (H i ltac:(lia)); revert H; by repeat destruct (Z.testbit _ i).
Qed.

(** The bit of a decoded field at the index of a bit of the word. *)
Lemma decode_index f i word :
  field_ok f → 0 ≤ i → Z.testbit (f_mask f) i = true →
  ∃ j, 0 ≤ j ∧ (∀ v, Z.testbit (BitRanges.enc v (br_ranges (f_bits f))) i = Z.testbit v j) ∧
       Z.testbit (BitRanges.decode word (f_bits f)) j = Z.testbit word i.
Proof.
  intros Hok Hi Hm. destruct (field_index f i Hok Hi Hm) as (j & Hj & Hv). exists j. split_and!; [lia | done |].
  rewrite <- Hv. pose proof (f_mask_eq f Hok) as Hfm. destruct Hok as [[Hd Hw _] _].
  rewrite BitRanges.decode_eq by done. rewrite (BitRanges.enc_dec _ word); [| done |].
  - rewrite Z.land_spec, <- Hfm, Hm. apply andb_true_r.
  - apply mask_in_bits; [by apply BitRanges.width_of_nonneg | by apply BitRanges.dec_in_bits].
Qed.

Lemma literal_match_bits lit v j :
  BoolLiteral.wf lit → 0 ≤ j →
  Z.testbit (v .& ~. (bl_xs lit)) j = Z.testbit (bl_ones lit) j ↔
  (if Z.testbit v j then Z.testbit (bl_ones lit .| bl_xs lit) j
   else negb (Z.testbit (bl_ones lit) j)) = true.
Proof.
  intros [_ _ _ Hap] Hj. pose proof (EncSchemes.land_0_bit _ _ j Hap) as Hx.
  autorewrite with testbit. destruct (Z.testbit (bl_ones lit) j); [rewrite Hx by done |];
    destruct (Z.testbit v j), (Z.testbit (bl_xs lit) j); done.
Qed.

(** The test with the masks accepts exactly the words whose literal fields match. *)
Lemma passes_iff e word :
  wf e → passes (gather e field_m0) (gather e field_m1) word = true ↔ literals_match e word.
Proof.
  intros He. rewrite passes_bits. split.
  - intros H k f lit Hf Hv. pose proof (wf_field _ He _ _ Hf) as Hok.
    pose proof (f_mask_eq f Hok) as Hfm. pose proof Hok as [[Hd Hw _] Hlit].
    destruct (Hlit _ Hv) as [Hl HW]. apply Z.eqb_eq.
    apply (BitRanges.enc_inj (br_ranges (f_bits f))); [done | | |].
    + apply in_bits_land_l; [by apply BitRanges.width_of_nonneg |].
      rewrite BitRanges.decode_eq by done. by apply BitRanges.dec_in_bits.
    + rewrite <- Hw, HW. apply Hl.
    + intros i Hi Hm. rewrite <- Hfm in Hm.
      destruct (decode_index f i word Hok Hi Hm) as (j & Hj & Henc & Hdec). rewrite !Henc.
      apply literal_match_bits; [done | lia |]. rewrite Hdec.
      specialize (H i Hi). revert H.
      rewrite !(pick e _ i k f) by eauto using field_m0_inside, field_m1_inside.
      unfold field_m0, field_m1. rewrite Hv, !Henc. autorewrite with testbit. bits_cases.
  - intros H i Hi. destruct (decide (i < 32)).
    + destruct (wf_cover _ He i ltac:(lia)) as (k & f & Hf & Hm).
      pose proof (wf_field _ He _ _ Hf) as Hok.
      rewrite !(pick e _ i k f) by eauto using field_m0_inside, field_m1_inside.
      destruct (decode_index f i word Hok Hi Hm) as (j & Hj & Henc & Hdec).
      unfold field_m0, field_m1. destruct (ef_value f) as [lit |] eqn:Hv;
        [| by rewrite Hm; destruct (Z.testbit word i)].
      specialize (H k f lit Hf Hv). apply Z.eqb_eq in H.
      assert (Hb := f_equal (fun z => Z.testbit z j) H). cbn beta in Hb.
      apply literal_match_bits in Hb; [| by apply Hok | done].
      rewrite !Henc. rewrite Hdec in Hb. revert Hb. autorewrite with testbit. bits_cases.
    + rewrite !(testbit_in_bits 32 (gather _ _)); try lia; [by destruct (Z.testbit word i) | |];
        apply gather_in_bits; auto using field_m0_inside, field_m1_inside; apply field_m_nonneg.
Qed.

(** The don't-care bits. *)
Definition x_part (f : EncodingField) : Z :=
  match ef_value f with
  | Literal lit => BitRanges.enc (bl_xs lit) (br_ranges (f_bits f))
  | OpName _ => 0
  end.

Lemma x_part_inside : inside x_part.
Proof.
  intros f i Hf Hi Hm. unfold x_part. destruct (ef_value f) as [lit |]; [| apply Z.bits_0].
  by apply (enc_inside (fun _ => bl_xs lit)).
Qed.

Lemma decode_in_bits f word :
  field_ok f → in_bits (br_width (f_bits f)) (BitRanges.decode word (f_bits f)).
Proof.
  intros [[Hd -> _] _]. rewrite BitRanges.decode_eq by done. by apply BitRanges.dec_in_bits.
Qed.

Lemma extract_fits e word : wf e → fits_ops e (extract_operands e word).
Proof.
  intros He k f op Hf Hv. rewrite (dget_extract e word k f op) by done.
  by eapply decode_in_bits, wf_field.
Qed.

(** Assembling the operands of an accepted word gives the word back, with the
    don't-care bits cleared. *)
Lemma reassemble e word :
  wf e → in_bits 32 word → literals_match e word →
  assemble e (extract_operands e word) = Ok (word .& ~. (gather e x_part)).
Proof.
  intros He Hw Hl. rewrite assemble_ok by auto using extract_fits. f_equal.
  apply (word_eq e); [done | | by apply in_bits_land_l |].
  - apply gather_in_bits; auto using spread_inside, spread_nonneg.
  - intros k f i Hf Hi Hm. pose proof (wf_field _ He _ _ Hf) as Hok.
    rewrite Z.land_spec, Z.lnot_spec by done.
    rewrite !(pick e _ i k f) by eauto using spread_inside, x_part_inside.
    destruct (decode_index f i word Hok Hi Hm) as (j & Hj & Henc & Hdec).
    unfold spread, x_part, value_of. rewrite Henc. destruct (ef_value f) as [lit | op] eqn:Hv.
    + specialize (Hl k f lit Hf Hv). apply Z.eqb_eq in Hl.
      assert (Hb := f_equal (fun z => Z.testbit z j) Hl). revert Hb. cbn beta.
      by rewrite Henc, Z.land_spec, Z.lnot_spec, Hdec by done.
    + rewrite (dget_extract e word k f op) by done. cbn [default from_option]. unfold id.
      by rewrite Hdec, Z.bits_0, andb_true_r.
Qed.

(** An assembled word is accepted. *)
Lemma assembled_matches e ops : wf e → literals_match e (gather e (spread ops)).
Proof.
  intros He k f lit Hf Hv. pose proof (wf_field _ He _ _ Hf) as Hok.
  destruct Hok as [_ Hlit]. destruct (Hlit _ Hv) as [[Hpos Ho Hx Hap] HW].
  rewrite (decode_spread e ops k f); [| done | done |]; unfold value_of; rewrite Hv.
  - apply Z.eqb_eq. bitwise i.
    pose proof (EncSchemes.land_0_bit _ _ i Hap) as Hno.
    destruct (Z.testbit (bl_ones lit) i); [by rewrite Hno | done].
  - by rewrite HW.
Qed.
End Encoding.
