(* ===== verification/Operand.v ===== *)
(** Operand types (util/shared/operand.py): the conversions between the text of an
    operand, its value and the bits that encode it. *)

From Stdlib Require Import Ascii.
From stdpp Require Import pretty.
From S2P Require Import Prelude PyList PyStr Yaml BitRanges BoolLiteral EncodingScheme Encoding.

(** The register files of [RegOperandType.TYPE_FMTS]. *)
Inductive reg_type := Gpr | Wdr.

(** The subclasses of [OperandType], with their attributes. *)
Inductive OperandType :=
  | RegOperandType (rt : reg_type) (is_dest : bool)
  | ImmOperandType (width : option Z) (enc_offset shift : Z) (signed pc_rel : bool)
  | EnumOperandType (width : Z) (items : list string)
  | OptionOperandType (width : Z) (option : string).

Record Operand := mkOperand {
  o_name : string;
  o_abbrev : option string;
  o_type : OperandType;
  o_doc : option string
}.

Module OperandType.
(** [TYPE_FMTS[reg_type]] *)
Definition reg_width (rt : reg_type) : Z := 5.
Definition reg_prefix (rt : reg_type) : ascii :=
  match rt with Gpr => "x" | Wdr => "w" end%char.

Definition width (t : OperandType) : option Z :=
  match t with
  | RegOperandType rt _ => Some (reg_width rt)
  | ImmOperandType width _ _ _ _ => width
  | EnumOperandType width _ => Some width
  | OptionOperandType width _ => Some width
  end.

(** [OperandType.__init__] *)
Definition check_width (width : option Z) : res () :=
  py_assert (match width with None => true | Some w => 0 <? w end).

(** ** Construction *)

Definition reg_make (rt : reg_type) (is_dest : bool) (scheme_field : option EncSchemeField)
    : res OperandType :=
  match scheme_field with
  | Some sf => if br_width (sf_bits sf) =? reg_width rt then Ok () else Err ValueError
  | None => Ok ()
  end;;
  check_width (Some (reg_width rt));;
  Ok (RegOperandType rt is_dest).

Definition imm_init (width : option Z) (enc_offset shift : Z) (signed pc_rel : bool)
    : res OperandType :=
  py_assert (0 <=? shift);;
  check_width width;;
  Ok (ImmOperandType width enc_offset shift signed pc_rel).

Definition imm_make (width : option Z) (enc_offset shift : Z) (signed pc_rel : bool)
    (scheme_field : option EncSchemeField) : res OperandType :=
  width ← match scheme_field with
          | Some sf =>
              let w := default (br_width (sf_bits sf)) width in
              if br_width (sf_bits sf) =? w then Ok (Some w) else Err ValueError
          | None => Ok width
          end;
  imm_init width enc_offset shift signed pc_rel.


(** [EnumOperandType.__init__] *)
Definition enum_init (items : list string) (scheme_field : option EncSchemeField)
    : res OperandType :=
  py_assert (match items with [] => false | _ => true end);;
  let min_width := bit_length (Z.of_nat (length items) - 1) in
  width ← match scheme_field with
          | None => Ok min_width
          | Some sf =>
              if br_width (sf_bits sf) <? min_width then Err ValueError
              else Ok (br_width (sf_bits sf))
          end;
  check_width (Some width);;
  Ok (EnumOperandType width (lower <$> items)).

(** [OptionOperandType.__init__] *)
Definition option_init (opt : string) (scheme_field : option EncSchemeField)
    : res OperandType :=
  width ← match scheme_field with
          | None => Ok 1
          | Some sf => py_assert (1 <=? br_width (sf_bits sf));; Ok (br_width (sf_bits sf))
          end;
  check_width (Some width);;
  Ok (OptionOperandType width (lower opt)).

(** ** Ranges *)

Definition get_max_enc_val (t : OperandType) : option Z :=
  match t with
  | EnumOperandType _ items => Some (Z.of_nat (length items) - 1)
  | OptionOperandType _ _ => Some 1
  | _ => (fun w => (1 ≪ w) - 1) <$> width t
  end.

(** [ImmOperandType.get_enc_range] *)
Definition get_enc_range (width : option Z) (signed : bool) : option (Z * Z) :=
  match width with
  | None => None
  | Some width => Some (
      if signed then
        let sgn_lo := - ((1 ≪ width) / 2) in
        (sgn_lo, Z.max (- (sgn_lo + 1)) 0)
      else (0, (1 ≪ width) - 1))
  end.

(** [ImmOperandType.get_doc_range] *)
Definition get_doc_range (width : option Z) (enc_offset shift : Z) (signed : bool)
    : option (Z * Z) :=
  '(sgn_lo, sgn_hi) ← get_enc_range width signed;
  Some ((sgn_lo + enc_offset) ≪ shift, (sgn_hi + enc_offset) ≪ shift).

(** ** Values and their encoding *)

Definition op_val_to_enc_val (t : OperandType) (op_val : Z) (cur_pc : option Z)
    : res (option Z) :=
  match t with
  | ImmOperandType None _ _ _ _ => Ok None
  | ImmOperandType (Some width) enc_offset shift signed pc_rel =>
      match (if pc_rel then (fun pc => op_val - pc) <$> cur_pc else Some op_val) with
      | None => Ok None
      | Some pc_relative_val =>
          if truthy (pc_relative_val .& mask shift) then Err ValueError
          else
            let offset_val := (pc_relative_val ≫ shift) - enc_offset in
            '(enc_lo, enc_hi) ← of_option AssertionError (get_enc_range (Some width) signed);
            if negb ((enc_lo <=? offset_val) && (offset_val <=? enc_hi)) then Err ValueError
            else
              encoded ←
                if (signed : bool) then
                  Ok (if offset_val <? 0 then (1 ≪ width) + offset_val else offset_val)
                else py_assert (0 <=? offset_val);; Ok offset_val;
              py_assert ((encoded ≫ width) =? 0);;
              Ok (Some encoded)
      end
  | _ =>
      match width t with
      | None => Ok None
      | Some w =>
          if op_val <? 0 then Err ValueError
          else if truthy (op_val ≫ w) then Err ValueError
          else Ok (Some op_val)
      end
  end.

Definition enc_val_to_op_val (t : OperandType) (enc_val cur_pc : Z) : res (option Z) :=
  match t with
  | ImmOperandType width enc_offset shift signed pc_rel =>
      let finish signed_val :=
        let shifted := (signed_val + enc_offset) ≪ shift in
        shifted + (if (pc_rel : bool) then cur_pc else 0) in
      if (signed : bool) then
        match width with
        | None => Ok None
        | Some width =>
            py_assert ((enc_val ≫ width) =? 0);;
            py_assert (1 <=? width);;
            if truthy (enc_val ≫ (width - 1)) then
              let signed_val := enc_val - (1 ≪ width) in
              py_assert (signed_val <? 0);;
              Ok (Some (finish signed_val))
            else Ok (Some (finish enc_val))
        end
      else Ok (Some (finish enc_val))
  | _ => Ok (Some enc_val)
  end.

Definition get_op_val_range (t : OperandType) (cur_pc : Z) : res (option (Z * Z)) :=
  match t with
  | ImmOperandType width enc_offset shift signed pc_rel =>
      let pc_off := if (pc_rel : bool) then cur_pc else 0 in
      Ok ('(lo, hi) ← get_doc_range width enc_offset shift signed;
          Some (lo + pc_off, hi + pc_off))
  | _ =>
      match get_max_enc_val t with
      | None => Ok None
      | Some enc_hi =>
          op_lo ← enc_val_to_op_val t 0 cur_pc;
          op_lo ← of_option AssertionError op_lo;
          op_hi ← enc_val_to_op_val t enc_hi cur_pc;
          op_hi ← of_option AssertionError op_hi;
          Ok (Some (Z.min op_lo op_hi, Z.max op_lo op_hi))
      end
  end.

(** ** Values and their text *)

(** [ImmOperandType._doc_rel_to_abs] *)
Definition doc_rel_to_abs (value : Z) : string :=
  if value <? 0 then String.append ".-" (pretty (- value))
  else if value =? 0 then "."
  else String.append ".+" (pretty value).

Fixpoint find_item (idx : Z) (s : string) (items : list string) : option Z :=
  match items with
  | [] => None
  | item :: items => if decide (s = item) then Some idx else find_item (idx + 1) s items
  end.

(** [str_to_op_val] of registers, enumerations and options. *)
Definition reg_str_to_op_val (rt : reg_type) (as_str : string) : res Z :=
  match as_str with
  | String c rest =>
      if Ascii.eqb c (reg_prefix rt) then
        match read_digits None rest with
        | (Some idx, rest) =>
            if at_end rest then
              py_assert (0 <=? idx);;
              if truthy (idx ≫ reg_width rt) then Err ValueError else Ok idx
            else Err ValueError
        | (None, _) => Err ValueError
        end
      else Err ValueError
  | EmptyString => Err ValueError
  end.

Definition enum_str_to_op_val (items : list string) (as_str : string) : res Z :=
  of_option ValueError (find_item 0 (lower as_str) items).

Definition option_str_to_op_val (option as_str : string) : res Z :=
  if decide (lower as_str = option) then Ok 1 else Err ValueError.

Definition op_val_to_str (t : OperandType) (op_val : Z) (cur_pc : option Z) : res string :=
  match t with
  | RegOperandType rt _ => Ok (String (reg_prefix rt) (pretty op_val))
  | ImmOperandType _ _ _ _ pc_rel =>
      match (pc_rel : bool), cur_pc with
      | true, Some pc => Ok (doc_rel_to_abs (op_val - pc))
      | _, _ => Ok (pretty op_val)
      end
  | EnumOperandType _ items =>
      if (op_val <? 0) || (Z.of_nat (length items) <=? op_val) then Ok "???"
      else of_option IndexError (items !! Z.to_nat op_val)
  | OptionOperandType _ option =>
      py_assert (bool_decide (op_val ∈ [0; 1]));;
      Ok (if truthy op_val then option else EmptyString)
  end.

(** ** Parsing a type *)

(** An optional number without leading zero. *)
Definition opt_width (s : string) : option Z * string :=
  match s with
  | String c _ => if is_digit c && negb (Ascii.eqb c "0") then read_digits None s else (None, s)
  | EmptyString => (None, s)
  end.

(** [(?:pfx([0-9]+))?] for a prefix of one or two characters. *)
Definition opt_number (pfx s : string) : option Z * string :=
  if String.prefix pfx s then
    match read_digits None (String.substring (String.length pfx) (String.length s) s) with
    | (Some n, rest) => (Some n, rest)
    | (None, _) => (None, s)
    end
  else (None, s).

(** The regular expression of the immediate types,
    BASE WIDTH? (+ENC_OFFSET)? (<<SHIFT)? up to the end. *)
Definition match_imm (base fmt : string) : option (option Z * Z * Z) :=
  if String.prefix base fmt then
    let s := String.substring (String.length base) (String.length fmt) fmt in
    let '(width, s) := opt_width s in
    let '(enc_offset, s) := opt_number "+" s in
    let '(shift, s) := opt_number "<<" s in
    if at_end s then Some (width, default 0 enc_offset, default 0 shift) else None
  else None.

(** [word] with a non-empty argument without closing parenthesis. *)
Definition match_call (word fmt : string) : option string :=
  if String.prefix word fmt then
    match String.substring (String.length word) (String.length fmt) fmt with
    | String "(" rest =>
        match span (fun c => negb (Ascii.eqb c ")")) rest with
        | (EmptyString, _) => None
        | (arg, String ")" rest) => if at_end rest then Some arg else None
        | _ => None
        end
    | _ => None
    end
  else None.

Definition reg_fmts : dict (reg_type * bool) :=
  [("grs", (Gpr, false)); ("grd", (Gpr, true)); ("wrs", (Wdr, false)); ("wrd", (Wdr, true))]%string.
Definition xsr_fmts : dict Z := [("csr", 12); ("wsr", 8)]%string.

Definition parse_operand_type (fmt : string) (pc_rel : bool)
    (scheme_field : option EncSchemeField) : res OperandType :=
  match dget fmt reg_fmts with
  | Some (rt, is_dest) => if pc_rel then Err ValueError else reg_make rt is_dest scheme_field
  | None =>
  match dget fmt xsr_fmts with
  | Some w => py_assert (negb pc_rel);; imm_make (Some w) 0 0 false false scheme_field
  | None =>
  match match_imm "simm" fmt with
  | Some (width, enc_offset, shift) => imm_make width enc_offset shift true pc_rel scheme_field
  | None =>
  match match_imm "uimm" fmt with
  | Some (width, enc_offset, shift) => imm_make width enc_offset shift false pc_rel scheme_field
  | None =>
  match match_call "enum" fmt with
  | Some items =>
      if pc_rel then Err ValueError else enum_init (strip <$> split "," items) scheme_field
  | None =>
  match match_call "option" fmt with
  | Some option => if pc_rel then Err ValueError else option_init (strip option) scheme_field
  | None => Err ValueError
  end end end end end end.

(** [re.match(base + r'[0-9]*$', name)] *)
Definition match_numbered (base name : string) : bool :=
  String.prefix base name &&
  at_end (span is_digit (String.substring (String.length base) (String.length name) name)).2.

Definition infer_operand_type (name : string) (pc_rel : bool)
    (scheme_field : option EncSchemeField) : res OperandType :=
  op_type_name ←
    of_option ValueError (
      if match_numbered "grs" name then Some "grs"%string
      else if bool_decide (name ∈ ["grd"; "wrd"; "csr"; "wsr"]%string) then Some name
      else if match_numbered "wrs" name then Some "wrs"%string
      else if match_numbered "imm" name || bool_decide (name = "offset"%string)
      then Some "simm"%string else None);
  parse_operand_type op_type_name pc_rel scheme_field.

Definition make_operand_type (op_type_name : option string) (pc_rel : bool)
    (operand_name : string) (scheme_field : option EncSchemeField) : res OperandType :=
  match op_type_name with
  | Some op_type_name => parse_operand_type op_type_name pc_rel scheme_field
  | None => infer_operand_type operand_name pc_rel scheme_field
  end.

(** ** Round trips *)

(** What the constructors check. *)
Definition wf (t : OperandType) : Prop :=
  (∀ w, width t = Some w → 0 < w) ∧
  match t with ImmOperandType _ _ shift _ _ => 0 ≤ shift | _ => True end.

(** The type agrees with the field that encodes it. *)
Definition of_field (sf : option EncSchemeField) (t : OperandType) : Prop :=
  wf t ∧ ∀ f, sf = Some f → width t = Some (br_width (sf_bits f)).

Lemma reg_make_ok rt d sf t : reg_make rt d sf = Ok t → of_field sf t.
Proof.
  unfold reg_make. intros E. inv_ok. split; [split; [by intros w [= <-] | done] |].
  intros f ->. destruct (Z.eqb_spec (br_width (sf_bits f)) (reg_width rt)) as [Hw |]; [| done].
  cbn. by rewrite Hw.
Qed.

Lemma imm_make_ok w off sh s pc sf t : imm_make w off sh s pc sf = Ok t → of_field sf t.
Proof.
  unfold imm_make, imm_init, check_width. intros (w' & Ew & E)%bind_Ok_inv. inv_ok.
  match goal with H : (0 <=? sh) = true |- _ => apply Z.leb_le in H end.
  split; [split; [| done] |].
  - cbn. intros w0 ->. by apply Z.ltb_lt.
  - intros f ->. cbn. destruct (Z.eqb_spec (br_width (sf_bits f)) (default (br_width (sf_bits f)) w))
      as [<- |]; [by simplify_eq | done].
Qed.

Lemma enum_init_ok items sf t : enum_init items sf = Ok t → of_field sf t.
Proof.
  unfold enum_init, check_width. intros (? & _ & E)%bind_Ok_inv.
  apply bind_Ok_inv in E as (w & Ew & E). inv_ok. split; [split; [| done] |].
  - cbn. intros ? [= <-]. by apply Z.ltb_lt.
  - intros f ->. cbn. destruct (br_width (sf_bits f) <? _); [done | by simplify_eq].
Qed.

Lemma option_init_ok o sf t : option_init o sf = Ok t → of_field sf t.
Proof.
  unfold option_init, check_width. intros (w & Ew & E)%bind_Ok_inv. inv_ok.
  split; [split; [| done] |].
  - cbn. intros ? [= <-]. by apply Z.ltb_lt.
  - intros f ->. by inv_ok.
Qed.

Lemma parse_operand_type_ok fmt pc sf t : parse_operand_type fmt pc sf = Ok t → of_field sf t.
Proof.
  unfold parse_operand_type. intros E.
  repeat (case_match; simplify_eq; inv_ok);
    eauto using reg_make_ok, imm_make_ok, enum_init_ok, option_init_ok.
Qed.

Lemma make_operand_type_ok n pc name sf t :
  make_operand_type n pc name sf = Ok t → of_field sf t.
Proof.
  unfold make_operand_type, infer_operand_type. destruct n; intros E; inv_ok;
    eauto using parse_operand_type_ok.
Qed.

(** The signed value that [width] encoded bits stand for. *)
Definition to_signed (w v : Z) : Z := if v <? 2 ^ (w - 1) then v else v - 2 ^ w.

(** The value of an immediate, as arithmetic. *)
Definition imm_value (w enc_offset shift : Z) (signed pc_rel : bool) (v pc : Z) : Z :=
  ((if signed then to_signed w v else v) + enc_offset) * 2 ^ shift + (if pc_rel then pc else 0).

Lemma truthy_shiftr w v : 0 ≤ w → 0 ≤ v → truthy (v ≫ w) = (2 ^ w <=? v).
Proof.
  intros Hw Hv. unfold truthy. rewrite Z.shiftr_div_pow2 by done.
  pose proof (Z.pow_pos_nonneg 2 w). destruct (Z.leb_spec (2 ^ w) v).
  - pose proof (Z.div_le_lower_bound v (2 ^ w) 1). zbool. done.
  - by rewrite Z.div_small by lia.
Qed.

Lemma shiftr_in_bits w v : 0 ≤ w → in_bits w v → (v ≫ w =? 0) = true.
Proof.
  intros Hw [? ?]. apply Z.eqb_eq. rewrite Z.shiftr_div_pow2 by done. by apply Z.div_small.
Qed.

Lemma pow2_half w : 0 < w → 2 ^ w = 2 * 2 ^ (w - 1).
Proof. intros. rewrite <- Z.pow_succ_r by lia. f_equal. lia. Qed.

Lemma imm_enc_val_to_op_val w enc_offset shift signed pc_rel v pc :
  0 < w → 0 ≤ shift → in_bits w v →
  enc_val_to_op_val (ImmOperandType (Some w) enc_offset shift signed pc_rel) v pc =
  Ok (Some (imm_value w enc_offset shift signed pc_rel v pc)).
Proof.
  intros Hw Hs Hv. pose proof Hv as [? ?]. unfold enc_val_to_op_val, imm_value, to_signed.
  destruct signed; [| by rewrite Z.shiftl_mul_pow2].
  rewrite shiftr_in_bits by (done || lia). cbn [py_assert mbind res_bind].
  rewrite (proj2 (Z.leb_le 1 w)) by lia. cbn [py_assert mbind res_bind].
  rewrite truthy_shiftr, Z.leb_antisym by lia. rewrite Z.shiftl_1_l.
  destruct (v <? 2 ^ (w - 1)); cbn [negb]; [by rewrite Z.shiftl_mul_pow2 |].
  rewrite (proj2 (Z.ltb_lt _ 0)) by lia. cbn [py_assert mbind res_bind].
  by rewrite Z.shiftl_mul_pow2.
Qed.

Lemma enc_range_eq w signed :
  0 < w → get_enc_range (Some w) signed =
  Some (if signed then (- 2 ^ (w - 1), 2 ^ (w - 1) - 1) else (0, 2 ^ w - 1)).
Proof.
  intros Hw. unfold get_enc_range. rewrite Z.shiftl_1_l. destruct signed; [| done].
  pose proof (Z.pow_pos_nonneg 2 (w - 1)).
  rewrite (pow2_half w), (Z.mul_comm 2), Z.div_mul by lia. do 2 f_equal. lia.
Qed.

(** Encoding an immediate: the offset from the base must be a multiple of the step
    and its quotient must lie in the encodable range. *)
Lemma imm_op_val_to_enc_val w enc_offset shift signed pc_rel v pc :
  0 < w → 0 ≤ shift →
  let rel := v - (if (pc_rel : bool) then pc else 0) in
  let q := rel / 2 ^ shift - enc_offset in
  let '(lo, hi) := if (signed : bool) then (- 2 ^ (w - 1), 2 ^ (w - 1) - 1) else (0, 2 ^ w - 1) in
  op_val_to_enc_val (ImmOperandType (Some w) enc_offset shift signed pc_rel) v (Some pc) =
  if (rel `mod` 2 ^ shift =? 0) && ((lo <=? q) && (q <=? hi))
  then Ok (Some (q `mod` 2 ^ w)) else Err ValueError.
Proof.
  intros Hw Hs rel q. unfold op_val_to_enc_val.
  replace (if pc_rel then (λ pc0, v - pc0) <$> Some pc else Some v) with (Some rel)
    by (subst rel; destruct pc_rel; cbn; f_equal; lia).
  rewrite land_mask, enc_range_eq by done. unfold truthy.
  rewrite Z.shiftr_div_pow2 by done. fold q. rewrite Z.shiftl_1_l.
  destruct (rel `mod` 2 ^ shift =? 0); cbn [negb andb]; [| by destruct signed].
  pose proof (Z.pow_pos_nonneg 2 (w - 1)). pose proof (pow2_half w Hw).
  destruct signed; cbn [of_option mbind res_bind].
  - destruct (Z.leb_spec (- 2 ^ (w - 1)) q), (Z.leb_spec q (2 ^ (w - 1) - 1)); cbn [andb negb]; try done.
    destruct (Z.ltb_spec q 0).
    + rewrite shiftr_in_bits by (unfold in_bits; lia). cbn [py_assert mbind res_bind].
      do 2 f_equal. rewrite <- (Z.mod_add q 1 (2 ^ w)), Z.mod_small by lia. lia.
    + rewrite shiftr_in_bits by (unfold in_bits; lia). cbn [py_assert mbind res_bind].
      by rewrite Z.mod_small by lia.
  - destruct (Z.leb_spec 0 q), (Z.leb_spec q (2 ^ w - 1)); cbn [andb negb py_assert mbind res_bind]; try done.
    rewrite shiftr_in_bits by (unfold in_bits; lia). cbn [py_assert mbind res_bind].
    by rewrite Z.mod_small by lia.
Qed.

Lemma to_signed_mod w q : 0 < w → - 2 ^ (w - 1) ≤ q ≤ 2 ^ (w - 1) - 1 → to_signed w (q `mod` 2 ^ w) = q.
Proof.
  intros Hw Hq. pose proof (pow2_half w Hw). pose proof (Z.pow_pos_nonneg 2 (w - 1)).
  unfold to_signed. destruct (decide (0 ≤ q)).
  - rewrite Z.mod_small by lia. by zbool.
  - rewrite <- (Z.mod_add q 1 (2 ^ w)), Z.mod_small by lia. zbool. lia.
Qed.

Lemma operandtype_to_signed_range w v :
  0 < w → in_bits w v → - 2 ^ (w - 1) ≤ to_signed w v ≤ 2 ^ (w - 1) - 1 ∧ to_signed w v `mod` 2 ^ w = v.
Proof.
  intros Hw [? ?]. pose proof (pow2_half w Hw). unfold to_signed.
  destruct (Z.ltb_spec v (2 ^ (w - 1))); (split; [lia |]).
  - apply Z.mod_small. lia.
  - rewrite <- (Z.mod_add _ 1), Z.mod_small by lia. lia.
Qed.

(** Reading back what was encoded. *)
Lemma enc_then_dec t w v e pc :
  wf t → width t = Some w → op_val_to_enc_val t v (Some pc) = Ok (Some e) →
  in_bits w e ∧ enc_val_to_op_val t e pc = Ok (Some v).
Proof.
  intros [Hpos Hshift] Hw E. specialize (Hpos w Hw).
  destruct t as [rt d | width enc_offset shift signed pc_rel | w' items | w' opt].
  2:{ cbn in Hw. subst width.
      pose proof (imm_op_val_to_enc_val w enc_offset shift signed pc_rel v pc Hpos Hshift) as HE.
      cbv zeta in HE. revert HE E. set (rel := v - _). set (q := rel / _ - _).
      intros HE E.
      assert (rel `mod` 2 ^ shift = 0 ∧ e = q `mod` 2 ^ w ∧
        if signed then - 2 ^ (w - 1) ≤ q ≤ 2 ^ (w - 1) - 1 else 0 ≤ q ≤ 2 ^ w - 1)
        as (Hrel & -> & Hq).
      { destruct signed; rewrite HE in E; destruct (Z.eqb_spec (rel `mod` 2 ^ shift) 0);
          cbn [andb] in E; try done; revert E; repeat zcase; intros; simplify_eq; lia || done. }
      assert (in_bits w (q `mod` 2 ^ w)) by (apply Z.mod_pos_bound; lia).
      split; [done |]. rewrite imm_enc_val_to_op_val by done. unfold imm_value. do 2 f_equal.
      replace (if signed then _ else _) with q
        by (destruct signed; [by rewrite to_signed_mod | by rewrite Z.mod_small by lia]).
      pose proof (Z.div_mod rel (2 ^ shift)). pose proof (Z.pow_pos_nonneg 2 shift). lia. }
  all: cbn [op_val_to_enc_val] in E; rewrite Hw in E; destruct (Z.ltb_spec v 0); [done |];
    rewrite truthy_shiftr in E by lia; revert E; zcase; [done |]; intros [= <-];
    split; [unfold in_bits; lia | done].
Qed.

(** Every encoded value is the encoding of the value it stands for. *)
Lemma dec_then_enc t w e pc :
  wf t → width t = Some w → in_bits w e →
  ∃ v, enc_val_to_op_val t e pc = Ok (Some v) ∧ op_val_to_enc_val t v (Some pc) = Ok (Some e).
Proof.
  intros [Hpos Hshift] Hw He. specialize (Hpos w Hw). pose proof He as [? ?].
  destruct t as [rt d | width enc_offset shift signed pc_rel | w' items | w' opt].
  2:{ cbn in Hw. subst width. eexists. split; [by apply imm_enc_val_to_op_val |].
      set (v := imm_value _ _ _ _ _ _ _).
      pose proof (imm_op_val_to_enc_val w enc_offset shift signed pc_rel v pc Hpos Hshift) as HE.
      cbv zeta in HE. pose proof (Z.pow_pos_nonneg 2 shift).
      assert (v - (if pc_rel then pc else 0) =
        ((if signed then to_signed w e else e) + enc_offset) * 2 ^ shift) as Ev.
      { subst v. unfold imm_value. lia. }
      rewrite Ev, Z.mod_mul, Z.div_mul, Z.add_simpl_r in HE by lia.
      destruct (operandtype_to_signed_range w e Hpos He) as [? Hmod].
      destruct signed; rewrite HE; zbool; by rewrite ?Hmod, ?Z.mod_small by lia. }
  all: exists e; split; [done |]; cbn [op_val_to_enc_val]; rewrite Hw; zbool;
    rewrite truthy_shiftr by lia; by zbool.
Qed.

(** The values an immediate can encode: those of the documented range that are a
    multiple of the step away from the base. *)
Lemma imm_range t width enc_offset shift signed pc_rel w pc v :
  t = ImmOperandType width enc_offset shift signed pc_rel → wf t → width = Some w →
  ∃ lo hi, get_op_val_range t pc = Ok (Some (lo, hi)) ∧
    let base := if (pc_rel : bool) then pc else 0 in
    ((∃ e, op_val_to_enc_val t v (Some pc) = Ok (Some e)) ↔
     lo ≤ v ≤ hi ∧ (v - base) `mod` 2 ^ shift = 0).
Proof.
  intros -> [Hpos Hshift] ->. specialize (Hpos w eq_refl).
  unfold get_op_val_range, get_doc_range. rewrite enc_range_eq by done.
  pose proof (imm_op_val_to_enc_val w enc_offset shift signed pc_rel v pc Hpos Hshift) as HE.
  cbv zeta in HE. set (base := if pc_rel then pc else 0) in *.
  pose proof (Z.pow_pos_nonneg 2 shift). pose proof (Z.div_mod (v - base) (2 ^ shift)).
  pose proof (Z.mod_pos_bound (v - base) (2 ^ shift)).
  set (q := (v - base) / 2 ^ shift) in *. set (r := (v - base) `mod` 2 ^ shift) in *.
  destruct signed; cbn [mbind option_bind]; eexists _, _; (split; [done |]); rewrite HE;
    rewrite !Z.shiftl_mul_pow2 by done; (destruct (Z.eqb_spec r 0); cbn [andb]; [| naive_solver]);
    repeat zcase; split; intros; try naive_solver nia.
Qed.
End OperandType.

Module Operand.
(** The attributes read from the YAML: name, abbreviation, type, doc, pc-rel. *)
Definition read_yaml (yml : yaml)
    : res (string * option string * option string * option string * bool) :=
  match yml with
  | YStr s => Ok (lower s, None, None, None, false)
  | YDict _ =>
      yd ← check_keys yml ["name"] ["type"; "pc-rel"; "doc"; "abbrev"];
      name ← of_option KeyError (yget "name" yd);
      name ← check_str name;
      abbrev ← get_optional_str yd "abbrev";
      op_type ← get_optional_str yd "type";
      pc_rel ← check_bool (default (YBool false) (yget "pc-rel" yd));
      doc ← get_optional_str yd "doc";
      Ok (lower name, option_map lower abbrev, op_type, doc, pc_rel)
  | _ => Err NameError
  end.

(** [Operand.__init__] *)
Definition init (yml : yaml) (insn_encoding : option Encoding) : res Operand :=
  '(name, abbrev, op_type, doc, pc_rel) ← read_yaml yml;
  enc_scheme_field ←
    match insn_encoding with
    | None => Ok None
    | Some e =>
        field_name ← of_option ValueError (dget name (e_op_to_field_name e));
        field ← of_option KeyError (dget field_name (e_fields e));
        Ok (Some (ef_scheme_field field))
    end;
  match abbrev with
  | Some a => if decide (name = a) then Err ValueError else Ok ()
  | None => Ok ()
  end;;
  op_type ← OperandType.make_operand_type op_type pc_rel name enc_scheme_field;
  Ok (mkOperand name abbrev op_type doc).

(** An operand of an encoded instruction has a field, of its type's width. *)
Lemma operand_init_ok yml e o :
  init yml (Some e) = Ok o →
  OperandType.wf (o_type o) ∧ ∃ k f, dget (o_name o) (e_op_to_field_name e) = Some k ∧
    dget k (e_fields e) = Some f ∧
    OperandType.width (o_type o) = Some (br_width (sf_bits (ef_scheme_field f))).
Proof.
  unfold init. intros (p & _ & E)%bind_Ok_inv. destruct p as [[[[name abbrev] ty] doc] pc].
  apply bind_Ok_inv in E as (sf & Esf & E). inv_ok.
  match goal with H : OperandType.make_operand_type _ _ _ _ = Ok _ |- _ =>
    apply OperandType.make_operand_type_ok in H as [? Hw] end.
  cbn. split; [done |]. eauto 10.
Qed.
End Operand.
