(* ===== verification/InsnYaml.v ===== *)
(** The instruction database (util/shared/insn_yaml.py): the part of an instruction
    that decoding uses (mnemonic, encoding and operands), and the check for ambiguous
    encodings. *)

From S2P Require Import Prelude PyStr Yaml BitRanges BoolLiteral EncodingScheme Encoding Operand.

(** The class [Insn]; the attributes for syntax and documentation are left out. *)
Record YInsn := mkYInsn {
  yi_mnemonic : string;
  yi_encoding : option Encoding;
  yi_operands : list Operand;
  yi_name_to_operand : dict Operand
}.

Module YInsn.
Definition insn_keys : list string :=
  ["group"; "rv32i"; "synopsis"; "syntax"; "doc"; "note"; "trailing-doc"; "encoding";
   "glued-ops"; "literal-pseudo-op"; "python-pseudo-op"; "lsu"; "straight-line"]%string.

Definition read_encoding (encoding_yml : option yaml) (encoding_schemes : option EncSchemes)
    : res (option Encoding) :=
  match encoding_yml with
  | None | Some YNone => Ok None
  | Some y =>
      schemes ← of_option ValueError encoding_schemes;
      e ← Encoding.init y schemes;
      Ok (Some e)
  end.

(** The loop over the abbreviations. *)
Definition check_abbrev (operand_names : gset string) (op : Operand) : res (gset string) :=
  match o_abbrev op with
  | None => Ok operand_names
  | Some a => if decide (a ∈ operand_names) then Err ValueError else Ok ({[a]} ∪ operand_names)
  end.

(** Does every operand the encoding mentions exist? *)
Definition check_missing (encoding : option Encoding) (name_to_operand : dict Operand) : res () :=
  match encoding with
  | None => Ok ()
  | Some e =>
      match filter (fun op => dget op name_to_operand = None) (e_op_to_field_name e).*1 with
      | [] => Ok ()
      | _ => Err ValueError
      end
  end.

(** [check_bool(yd.get(key, False), ...)] *)
Definition get_flag (yd : list (yaml * yaml)) (key : string) : res bool := check_bool (default (YBool false) (yget key yd)).

Definition is_str (y : yaml) : bool := match y with YStr _ => true | _ => false end.

(** [literal-pseudo-op] is a list of strings and excludes the flag for Python and an encoding. *)
Definition check_literal (lpo : option yaml) (python_pseudo_op : bool) (encoding : option Encoding) : res () :=
  match lpo with
  | None | Some YNone => Ok ()
  | Some lpo =>
      lpo_lst ← check_list lpo;
      if negb (forallb is_str lpo_lst) then Err ValueError
      else if python_pseudo_op then Err ValueError
      else if bool_decide (is_Some encoding) then Err ValueError
      else Ok ()
  end.

(** The checks of the entries that follow the operands. *)
Definition check_rest (yd : list (yaml * yaml)) (encoding : option Encoding) : res () :=
  get_flag yd "rv32i";;
  get_flag yd "glued-ops";;
  get_optional_str yd "synopsis";;
  get_optional_str yd "doc";;
  get_optional_str yd "note";;
  get_optional_str yd "trailing-doc";;
  get_optional_str yd "syntax";;
  python_pseudo_op ← get_flag yd "python-pseudo-op";
  (if (python_pseudo_op : bool) && bool_decide (is_Some encoding) then Err ValueError else Ok ());;
  check_literal (yget "literal-pseudo-op" yd) python_pseudo_op encoding.

(** [Insn.__init__]; the checks of the assembly syntax against the operands (syntax.py) and of [lsu]
    are left out, so that this accepts every description that the source accepts, and others. *)
Definition init (yml : yaml) (encoding_schemes : option EncSchemes) : res YInsn :=
  yd ← check_keys yml ["mnemonic"; "operands"]%string insn_keys;
  m ← of_option KeyError (yget "mnemonic" yd);
  mnemonic ← check_str m;
  encoding ← read_encoding (yget "encoding" yd) encoding_schemes;
  ops ← of_option KeyError (yget "operands" yd);
  ops ← check_list ops;
  operands ← mapR (fun y => Operand.init y encoding) ops;
  name_to_operand ← index_list operands o_name;
  foldM check_abbrev (list_to_set (name_to_operand.*1)) operands;;
  check_missing encoding name_to_operand;;
  check_rest yd encoding;;
  Ok (mkYInsn mnemonic encoding operands name_to_operand).

(** One round of the loop of [enc_vals_to_op_vals]. *)
Definition add_op_val (self : YInsn) (cur_pc : Z) (op_vals : dict Z) (kv : string * Z)
    : res (dict Z) :=
  let '(op_name, enc_val) := kv in
  op ← of_option KeyError (dget op_name (yi_name_to_operand self));
  op_val ← OperandType.enc_val_to_op_val (o_type op) enc_val cur_pc;
  op_val ← of_option AssertionError op_val;
  Ok (dset op_name op_val op_vals).

Definition enc_vals_to_op_vals (self : YInsn) (cur_pc : Z) (enc_vals : dict Z) : res (dict Z) :=
  foldM (add_op_val self cur_pc) [] enc_vals.

(** ** Well-formed instructions *)

(** Operands and operand fields correspond, with the same width. *)
Record encoded (i : YInsn) (e : Encoding) : Prop := {
  ie_wf : Encoding.wf e;
  ie_names : NoDup (o_name <$> yi_operands i);
  ie_dict : yi_name_to_operand i = (fun o => (o_name o, o)) <$> yi_operands i;
  ie_field : ∀ k f op, (k, f) ∈ e_fields e → ef_value f = OpName op →
    ∃ o, o ∈ yi_operands i ∧ o_name o = op;
  ie_operand : ∀ o, o ∈ yi_operands i → OperandType.wf (o_type o) ∧
    ∃ k f, (k, f) ∈ e_fields e ∧ ef_value f = OpName (o_name o) ∧
      OperandType.width (o_type o) = Some (br_width (Encoding.f_bits f))
}.

Definition ok (i : YInsn) : Prop := ∀ e, yi_encoding i = Some e → encoded i e.

Lemma read_encoding_wf y schemes e :
  (∀ s, schemes = Some s → EncSchemes.schemes_ok s) →
  read_encoding y schemes = Ok (Some e) → Encoding.wf e.
Proof.
  intros Hs. unfold read_encoding.
  destruct y as [y |]; [| done]. destruct y; try done; intros E; inv_ok;
    eapply Encoding.encoding_init_wf; eauto.
Qed.

Lemma dget_operand (ops : list Operand) o :
  NoDup (o_name <$> ops) → o ∈ ops → dget (o_name o) ((fun o => (o_name o, o)) <$> ops) = Some o.
Proof.
  intros Hn Ho. apply elem_dget.
  - by rewrite <- list_fmap_compose.
  - apply list_elem_of_fmap. by exists o.
Qed.

Lemma yinsn_init_ok yml schemes i :
  (∀ s, schemes = Some s → EncSchemes.schemes_ok s) → init yml schemes = Ok i → ok i.
Proof.
  intros Hs. unfold init. intros E. inv_ok. intros e He. cbn in He. subst.
  match goal with H : read_encoding _ _ = Ok _ |- _ => apply (read_encoding_wf _ _ _ Hs) in H as Hwf end.
  match goal with H : index_list _ _ = Ok _ |- _ => apply index_list_ok in H as [-> Hn] end.
  split; cbn; [done | done | done | |].
  - intros k f op Hf Hv. unfold check_missing in *.
    destruct (filter _ _) as [| ? ?] eqn:Ef; [| done].
    assert (Hk : dget op (e_op_to_field_name e) = Some k) by (apply (Encoding.wf_index _ Hwf); eauto).
    destruct (dget op ((λ o, (o_name o, o)) <$> x5)) as [o |] eqn:Eo.
    + apply dget_Some_elem, list_elem_of_fmap in Eo as (o' & [= -> ->] & ?). eauto.
    + assert (op ∈ filter (λ op0, dget op0 ((λ o, (o_name o, o)) <$> x5) = None)
        (e_op_to_field_name e).*1) as Hin.
      { apply list_elem_of_filter. split; [done |]. apply dget_Some_elem in Hk.
        apply list_elem_of_fmap. by exists (op, k). }
      rewrite Ef in Hin. by apply elem_of_nil in Hin.
  - intros o Ho. match goal with H : mapR _ _ = Ok _ |- _ =>
      apply (EncSchemes.mapR_elem _ _ _ _ H) in Ho as (y & _ & Hy) end.
    apply Operand.operand_init_ok in Hy as (? & k & f & Hk & Hf & Hw). split; [done |].
    apply (Encoding.wf_index _ Hwf) in Hk as (f' & Hf' & Hv).
    apply elem_dget in Hf'; [| apply Hwf]. simplify_eq.
    exists k, f'. split_and!; try done. by apply dget_Some_elem.
Qed.

(** ** Operand values of a word *)

(** Converting the encoded values of a word succeeds, and gives each operand the value
    that its field stands for. *)
Lemma enc_vals_to_op_vals_ok i e pc word :
  encoded i e →
  ∃ vals, enc_vals_to_op_vals i pc (Encoding.extract_operands e word) = Ok vals ∧
    ∀ o k f, o ∈ yi_operands i → (k, f) ∈ e_fields e → ef_value f = OpName (o_name o) →
      ∃ v, dget (o_name o) vals = Some v ∧
        OperandType.enc_val_to_op_val (o_type o) (BitRanges.decode word (Encoding.f_bits f)) pc
        = Ok (Some v).
Proof.
  intros [Hwf Hn Hd Hfield Hop]. destruct (Encoding.extract_names e word) as [Hnd Hnames].
  set (g := fun (op : string) (v : Z) => default 0 (
    o ← dget op (yi_name_to_operand i);
    match OperandType.enc_val_to_op_val (o_type o) v pc with Ok r => r | Err _ => None end)).
  assert (Hg : ∀ o k f, o ∈ yi_operands i → (k, f) ∈ e_fields e → ef_value f = OpName (o_name o) →
    OperandType.enc_val_to_op_val (o_type o) (BitRanges.decode word (Encoding.f_bits f)) pc =
      Ok (Some (g (o_name o) (BitRanges.decode word (Encoding.f_bits f))))).
  { intros o k f Ho Hf Hv. destruct (Hop o Ho) as (Hwt & k' & f' & Hf' & Hv' & Hw).
    assert (k' = k) as -> by (by eapply Encoding.wf_linear).
    apply elem_dget in Hf', Hf; try apply Hwf. simplify_eq.
    destruct (OperandType.dec_then_enc (o_type o) _ (BitRanges.decode word (Encoding.f_bits f)) pc Hwt Hw)
      as (v & Ev & _).
    { apply Encoding.decode_in_bits. eapply Encoding.wf_field; [done |]. by apply dget_Some_elem. }
    rewrite Ev. subst g. cbn beta. rewrite Hd, dget_operand by done. cbn. by rewrite Ev. }
  exists (dset_all g [] (Encoding.extract_operands e word)). split.
  - unfold enc_vals_to_op_vals. apply foldM_dset. intros d op v Hin.
    destruct (Hnames _ _ Hin) as (k & f & Hf & Hv). destruct (Hfield _ _ _ Hf Hv) as (o & Ho & <-).
    apply elem_dget in Hin; [| done]. rewrite (Encoding.dget_extract e word k f) in Hin by done.
    simplify_eq. unfold add_op_val. rewrite Hd, dget_operand by done. cbn [of_option mbind res_bind].
    by rewrite (Hg o k f).
  - intros o k f Ho Hf Hv. eexists. split; [| by eapply Hg].
    rewrite dget_dset_all by done. by rewrite (Encoding.dget_extract e word k f).
Qed.
End YInsn.

(** [itertools.combinations(l, 2)] *)
Fixpoint pairs {A} (l : list A) : list (A * A) :=
  match l with
  | [] => []
  | x :: l => ((fun y => (x, y)) <$> l) ++ pairs l
  end.

Definition add_mask (masks : dict (Z * Z)) (insn : YInsn) : res (dict (Z * Z)) :=
  match yi_encoding insn with
  | None => Ok masks
  | Some e => ms ← Encoding.get_masks e; Ok (dset (yi_mnemonic insn) ms masks)
  end.

(** The bit pattern that two mask pairs share, if there is one. *)
Definition ambiguous (a b : Z * Z) : option Z :=
  let '(m00, m01) := a in
  let '(m10, m11) := b in
  let m0 := m00 .& m10 in
  let m1 := m01 .& m11 in
  if (m0 .| m1) =? (1 ≪ 32) - 1 then Some (m1 .& ~. m0) else None.

Definition find_ambiguous_encodings (insns : list YInsn) : res (list (string * string * Z)) :=
  masks ← foldM add_mask [] insns;
  Ok (omap (fun '((mnem0, ms0), (mnem1, ms1)) =>
        (fun bits => (mnem0, mnem1, bits)) <$> ambiguous ms0 ms1) (pairs masks)).

(** [InsnsFile.__init__], with the files it names already loaded: the encoding schemes
    and the instructions of each group. *)
Record InsnsFile := mkInsnsFile {
  if_insns : list YInsn;
  if_mnemonic_to_insn : dict YInsn
}.

Module InsnsFile.
(** [except ValueError as err: raise RuntimeError(...)] *)
Definition value_to_runtime {A} (r : res A) : res A :=
  match r with Err ValueError => Err RuntimeError | _ => r end.

Definition init (schemes_yml : option yaml) (groups : list yaml) : res InsnsFile :=
  encoding_schemes ← match schemes_yml with
                     | None => Ok None
                     | Some y => s ← value_to_runtime (EncSchemes.init y); Ok (Some s)
                     end;
  grouped ← mapR (fun g => value_to_runtime (
      l ← check_list g;
      mapR (fun y => YInsn.init y encoding_schemes) l)) groups;
  match grouped with [] => Err ValueError | _ => Ok () end;;
  let insns := mjoin grouped in
  mnemonic_to_insn ← index_list insns (fun i => lower (yi_mnemonic i));
  amb ← find_ambiguous_encodings insns;
  match amb with
  | [] => Ok (mkInsnsFile insns mnemonic_to_insn)
  | _ => Err ValueError
  end.
End InsnsFile.

(** ** Ambiguity *)

(** The masks of an instruction that has an encoding. *)
Definition masks_of (i : YInsn) : option (string * (Z * Z)) :=
  (fun e => (yi_mnemonic i, (Encoding.gather e Encoding.field_m0, Encoding.gather e Encoding.field_m1)))
    <$> yi_encoding i.

Lemma masks_names_sub insns : (omap masks_of insns).*1 ⊆ yi_mnemonic <$> insns.
Proof.
  intros m ([m' ms] & -> & (i & Hi & Em)%list_elem_of_omap)%list_elem_of_fmap.
  unfold masks_of in Em. destruct (yi_encoding i); simplify_eq/=. apply list_elem_of_fmap. eauto.
Qed.

Lemma add_mask_ok pre i rest :
  YInsn.ok i → NoDup (yi_mnemonic <$> pre ++ i :: rest) →
  add_mask (omap masks_of pre) i = Ok (omap masks_of (pre ++ [i])).
Proof.
  intros Hok Hn. unfold add_mask. rewrite omap_app.
  change (omap masks_of [i]) with (match masks_of i with Some x => [x] | None => [] end).
  destruct (yi_encoding i) as [e |] eqn:Ee.
  2:{ assert (masks_of i = None) as -> by (unfold masks_of; by rewrite Ee).
      by rewrite app_nil_r. }
  assert (masks_of i = Some (yi_mnemonic i,
    (Encoding.gather e Encoding.field_m0, Encoding.gather e Encoding.field_m1))) as ->
    by (unfold masks_of; by rewrite Ee).
  rewrite Encoding.get_masks_ok by (by apply Hok). cbn [mbind res_bind]. rewrite dset_fresh; [done |].
  intros Hin%masks_names_sub. rewrite fmap_app, fmap_cons in Hn.
  apply NoDup_app in Hn as (_ & Hn & _). apply (Hn _ Hin). by left.
Qed.

Lemma all_masks insns :
  (∀ i, i ∈ insns → YInsn.ok i) → NoDup (yi_mnemonic <$> insns) →
  foldM add_mask [] insns = Ok (omap masks_of insns).
Proof.
  intros Hok Hn. enough (∀ pre rest, insns = pre ++ rest →
    foldM add_mask (omap masks_of pre) rest = Ok (omap masks_of insns)) as H by (by apply (H [])).
  intros pre rest. revert pre. induction rest as [| i rest IH]; intros pre ->.
  - by rewrite app_nil_r.
  - cbn [foldM]. rewrite (add_mask_ok pre i rest); [| | done].
    + cbn [mbind res_bind]. apply IH. by rewrite <- app_assoc.
    + apply Hok, elem_of_app. right. by left.
Qed.

Lemma pairs_elem {A} (l : list A) x y :
  x ∈ l → y ∈ l → x ≠ y → (x, y) ∈ pairs l ∨ (y, x) ∈ pairs l.
Proof.
  induction l as [| z l IH]; intros Hx Hy Hne; [by apply elem_of_nil in Hx |]. cbn [pairs].
  rewrite !elem_of_app, !list_elem_of_fmap.
  apply elem_of_cons in Hx as [-> | Hx], Hy as [-> | Hy]; naive_solver.
Qed.

Lemma ambiguous_comm a b : ambiguous a b = ambiguous b a.
Proof.
  destruct a, b. cbn. by rewrite (Z.land_comm z), (Z.land_comm z0).
Qed.

(** A word that both encodings accept makes them ambiguous. *)
Lemma both_match_ambiguous e1 e2 word :
  Encoding.wf e1 → Encoding.wf e2 →
  Encoding.literals_match e1 word → Encoding.literals_match e2 word →
  ambiguous (Encoding.gather e1 Encoding.field_m0, Encoding.gather e1 Encoding.field_m1)
    (Encoding.gather e2 Encoding.field_m0, Encoding.gather e2 Encoding.field_m1) ≠ None.
Proof.
  intros H1 H2 M1%Encoding.passes_iff M2%Encoding.passes_iff; [| done ..].
  rewrite Encoding.passes_bits in M1, M2.
  pose proof (fun i => Encoding.masks_cover _ i H1) as C1.
  pose proof (fun i => Encoding.masks_cover _ i H2) as C2.
  cbn [ambiguous]. change ((1 ≪ 32) - 1) with (mask 32).
  rewrite (proj2 (Z.eqb_eq _ _)); [done |]. apply Z_bits_eq. intros i Hi.
  specialize (M1 i Hi). specialize (M2 i Hi). specialize (C1 i Hi). specialize (C2 i Hi).
  revert M1 M2 C1 C2. autorewrite with testbit. repeat zcase; bits_cases.
Qed.

(** Instructions that passed the check have no word in common. *)
Lemma unambiguous insns i1 i2 e1 e2 word :
  (∀ i, i ∈ insns → YInsn.ok i) → NoDup (yi_mnemonic <$> insns) →
  find_ambiguous_encodings insns = Ok [] →
  i1 ∈ insns → i2 ∈ insns → yi_encoding i1 = Some e1 → yi_encoding i2 = Some e2 →
  Encoding.literals_match e1 word → Encoding.literals_match e2 word →
  yi_mnemonic i1 = yi_mnemonic i2.
Proof.
  intros Hok Hn Hamb H1 H2 E1 E2 M1 M2.
  destruct (decide (yi_mnemonic i1 = yi_mnemonic i2)) as [| Hne]; [done |]. exfalso.
  unfold find_ambiguous_encodings in Hamb. rewrite all_masks in Hamb by done.
  injection Hamb as Hamb.
  pose proof (both_match_ambiguous e1 e2 word (YInsn.ie_wf _ _ (Hok _ H1 _ E1)) (YInsn.ie_wf _ _ (Hok _ H2 _ E2)) M1 M2) as Ha.
  set (x1 := (yi_mnemonic i1, (Encoding.gather e1 Encoding.field_m0, Encoding.gather e1 Encoding.field_m1))).
  set (x2 := (yi_mnemonic i2, (Encoding.gather e2 Encoding.field_m0, Encoding.gather e2 Encoding.field_m1))).
  assert (Hx1 : x1 ∈ omap masks_of insns).
  { apply list_elem_of_omap. exists i1. split; [done |]. unfold masks_of. by rewrite E1. }
  assert (Hx2 : x2 ∈ omap masks_of insns).
  { apply list_elem_of_omap. exists i2. split; [done |]. unfold masks_of. by rewrite E2. }
  set (test := fun '((mnem0, ms0), (mnem1, ms1)) =>
    (fun bits => (mnem0, mnem1, bits)) <$> ambiguous ms0 ms1) in Hamb.
  assert (Hnone : ∀ p, p ∈ pairs (omap masks_of insns) → test p = None).
  { intros p Hp. destruct (test p) as [y |] eqn:Ey; [| done].
    assert (y ∈ omap test (pairs (omap masks_of insns))) as Hy by (apply list_elem_of_omap; eauto).
    rewrite Hamb in Hy. by apply elem_of_nil in Hy. }
  destruct (pairs_elem _ _ _ Hx1 Hx2) as [Hp | Hp]; [intros E; exact (Hne (f_equal fst E)) | |]; apply Hnone in Hp;
    cbv beta iota delta [test x1 x2] in Hp; apply fmap_None in Hp; [done |].
  by rewrite ambiguous_comm in Hp.
Qed.

(** What loading the database guarantees. *)
Record file_ok (file : InsnsFile) : Prop := {
  fo_ok : ∀ i, i ∈ if_insns file → YInsn.ok i;
  fo_names : NoDup ((fun i => lower (yi_mnemonic i)) <$> if_insns file);
  fo_index : if_mnemonic_to_insn file = (fun i => (lower (yi_mnemonic i), i)) <$> if_insns file;
  fo_amb : find_ambiguous_encodings (if_insns file) = Ok []
}.

Lemma value_to_runtime_inv {A} (r : res A) a : InsnsFile.value_to_runtime r = Ok a → r = Ok a.
Proof. by destruct r as [| []]. Qed.

Lemma file_init_ok y groups file : InsnsFile.init y groups = Ok file → file_ok file.
Proof.
  unfold InsnsFile.init. intros (schemes & Es & E)%bind_Ok_inv.
  assert (Hs : ∀ s, schemes = Some s → EncSchemes.schemes_ok s).
  { intros s ->. destruct y; [| done]. inv_ok. by eapply EncSchemes.encschemes_init_ok, value_to_runtime_inv. }
  apply bind_Ok_inv in E as (grouped & Eg & E). inv_ok.
  match goal with H : index_list _ _ = Ok _ |- _ => apply index_list_ok in H as [-> Hn] end.
  destruct x1 as [| ? ?]; [| done]. injection E as <-. split; cbn; try done.
  intros i (l & Hi & Hl)%list_elem_of_join.
  apply (EncSchemes.mapR_elem _ _ _ _ Eg) in Hl as (g & _ & Hg%value_to_runtime_inv). inv_ok.
  match goal with H : mapR _ _ = Ok _ |- _ =>
    apply (EncSchemes.mapR_elem _ _ _ _ H) in Hi as (yi & _ & Hi) end.
  by eapply YInsn.yinsn_init_ok.
Qed.

Lemma file_mnemonics file : file_ok file → NoDup (yi_mnemonic <$> if_insns file).
Proof.
  intros [_ Hn _ _]. apply (NoDup_fmap_1 lower). by rewrite <- list_fmap_compose.
Qed.
