(* ===== verification/OtbnIsa.v ===== *)
(** The instruction set of OTBN: data/enc-schemes.yml, data/base-insns.yml and
    data/bignum-insns.yml as the YAML loader returns them, less the entries for
    documentation and assembly syntax. *)

From S2P Require Import Prelude Yaml.

Definition ydict (l : list (string * yaml)) : yaml :=
  YDict ((fun '(k, v) => (YStr k, v)) <$> l).

#[local] Open Scope string_scope.

Definition enc_schemes_yml : yaml :=
  ydict [
    ("rv", ydict [("fields", ydict [("opcode", YStr "6-2"); ("uncomp", ydict [("bits", YStr "1-0");
      ("value", YStr "b11")])])]);
    ("funct3", ydict [("fields", ydict [("funct3", YStr "14-12")])]);
    ("R", ydict [("parents", YList [YStr "rv"; YStr "funct3"]); ("fields", ydict [("funct7", YStr
      "31-25"); ("rs2", YStr "24-20"); ("rs1", YStr "19-15"); ("rd", YStr "11-7")])]);
    ("I", ydict [("parents", YList [YStr "rv"; YStr "funct3"]); ("fields", ydict [("imm", YStr
      "31-20"); ("rs1", YStr "19-15"); ("rd", YStr "11-7")])]);
    ("Is", ydict [("parents", YList [YStr "rv"; YStr "funct3"]); ("fields", ydict [("arithmetic",
      YInt 30); ("shamt", YStr "24-20"); ("rs1", YStr "19-15"); ("rd", YStr "11-7"); ("unused",
      ydict [("bits", YStr "31,29-25"); ("value", YStr "b000000")])])]);
    ("S", ydict [("parents", YList [YStr "rv"; YStr "funct3"]); ("fields", ydict [("imm", YStr
      "31-25,11-7"); ("rs2", YStr "24-20"); ("rs1", YStr "19-15")])]);
    ("B", ydict [("parents", YList [YStr "rv"; YStr "funct3"]); ("fields", ydict [("imm", YStr
      "31,7,30-25,11-8"); ("rs2", YStr "24-20"); ("rs1", YStr "19-15")])]);
    ("U", ydict [("parents", YList [YStr "rv"]); ("fields", ydict [("imm", YStr "31-12"); ("rd",
      YStr "11-7")])]);
    ("J", ydict [("parents", YList [YStr "rv"]); ("fields", ydict [("imm", YStr
      "31,19-12,20,30-21"); ("rd", YStr "11-7")])]);
    ("custom0", ydict [("parents", YList [YStr "rv(opcode=b00010)"])]);
    ("custom1", ydict [("parents", YList [YStr "rv(opcode=b01010)"])]);
    ("custom2", ydict [("parents", YList [YStr "rv(opcode=b01110)"])]);
    ("custom3", ydict [("parents", YList [YStr "rv(opcode=b11110)"])]);
    ("wrd", ydict [("fields", ydict [("wrd", YStr "11-7")])]);
    ("wdr3", ydict [("parents", YList [YStr "wrd"]); ("fields", ydict [("wrs2", YStr "24-20");
      ("wrs1", YStr "19-15")])]);
    ("fg", ydict [("fields", ydict [("fg", YInt 31)])]);
    ("shift", ydict [("fields", ydict [("shift_type", YInt 30); ("shift_bits", YStr "29-25")])]);
    ("funct2", ydict [("fields", ydict [("funct2", YStr "13-12")])]);
    ("indirect", ydict [("fields", ydict [("indirect", YInt 31)])]);
    ("loop", ydict [("parents", YList [YStr "custom3"; YStr "funct3(funct3=b000)"]); ("fields",
      ydict [("bodysize", YStr "31-20"); ("grs", YStr "19-15"); ("fixed", ydict [("bits", YStr
      "11-7"); ("value", YStr "bxxxxx")])])]);
    ("loopi", ydict [("parents", YList [YStr "custom3"; YStr "funct3(funct3=b001)"]); ("fields",
      ydict [("bodysize", YStr "31-20"); ("iterations", YStr "19-15,11-7")])]);
    ("bna", ydict [("parents", YList [YStr "custom3"; YStr "wdr3"; YStr "funct3"; YStr "shift"; YStr
      "fg"])]);
    ("bnan", ydict [("parents", YList [YStr "custom3"; YStr "funct3"; YStr "shift"; YStr "fg"; YStr
      "wrd"]); ("fields", ydict [("wrs1", YStr "24-20"); ("fixed", ydict [("bits", YStr
      "19-15"); ("value", YStr "bxxxxx")])])]);
    ("bnaf", ydict [("parents", YList [YStr "custom1"; YStr "wdr3"; YStr "funct3"; YStr "shift";
      YStr "fg"])]);
    ("bnai", ydict [("parents", YList [YStr "custom1"; YStr "wrd"; YStr "funct3"; YStr "fg"]);
      ("fields", ydict [("sub", YInt 30); ("imm", YStr "29-20"); ("wrs", YStr "19-15")])]);
    ("bnam", ydict [("parents", YList [YStr "custom1"; YStr "wdr3"; YStr "funct3"]); ("fields",
      ydict [("sub", YInt 30); ("fixed", ydict [("bits", YStr "31,29-25"); ("value", YStr
      "bxxxxxx")])])]);
    ("bnaq", ydict [("parents", YList [YStr "custom2"; YStr "wdr3"; YStr "fg"]); ("fields", ydict
      [("so", YInt 30); ("wb0", YInt 29); ("qs2", YStr "28-27"); ("qs1", YStr "26-25");
      ("shift", YStr "14-13"); ("z", YInt 12)])]);
    ("bnr", ydict [("parents", YList [YStr "custom3"; YStr "wdr3"]); ("fields", ydict [("imm", YStr
      "31-25,14"); ("funct2", YStr "13-12")])]);
    ("bns", ydict [("parents", YList [YStr "custom0"; YStr "wdr3"; YStr "funct3(funct3=b000)"; YStr
      "fg"]); ("fields", ydict [("fixed", ydict [("bits", YStr "30-27"); ("value", YStr
      "bxxxx")]); ("flag", YStr "26-25")])]);
    ("bnc", ydict [("parents", YList [YStr "custom0"; YStr "wdr3(wrd=bxxxxx)"; YStr "funct3"; YStr
      "shift"; YStr "fg"])]);
    ("bnxid", ydict [("parents", YList [YStr "custom0"; YStr "funct3"]); ("fields", ydict [("imm",
      YStr "11-9,31-25"); ("rs2", YStr "24-20"); ("rs1", YStr "19-15"); ("spp", YInt 8); ("dpp",
      YInt 7)])]);
    ("bnmov", ydict [("parents", YList [YStr "custom0"; YStr "funct3(funct3=b110)"; YStr
      "indirect(indirect=b0)"]); ("fields", ydict [("fixed_top", ydict [("bits", YStr "30-20");
      ("value", YStr "bxxxxxxxxxxx")]); ("src", YStr "19-15"); ("dst", YStr "11-7")])]);
    ("bnmovr", ydict [("parents", YList [YStr "custom0"; YStr "funct3(funct3=b110)"; YStr
      "indirect(indirect=b1)"]); ("fields", ydict [("fixed_top", ydict [("bits", YStr "30-25");
      ("value", YStr "bxxxxxx")]); ("dst", YStr "24-20"); ("src", YStr "19-15"); ("spp", YInt
      9); ("dpp", YInt 7); ("unused", ydict [("bits", YStr "11-10,8"); ("value", YStr
      "bxxx")])])]);
    ("wcsr", ydict [("parents", YList [YStr "custom0"; YStr "funct3(funct3=b111)"]); ("fields",
      ydict [("write", YInt 31); ("wcsr", YStr "27-20"); ("wrs", YStr "19-15"); ("wrd", YStr
      "11-7"); ("fixed", ydict [("bits", YStr "30-28"); ("value", YStr "bxxx")])])])].

Definition base_insns_yml : yaml :=
  YList [
    ydict [("mnemonic", YStr "add"); ("operands", YList [YStr "grd"; YStr "grs1"; YStr "grs2"]);
      ("encoding", ydict [("scheme", YStr "R"); ("mapping", ydict [("funct7", YStr "b0000000");
      ("rs2", YStr "grs2"); ("rs1", YStr "grs1"); ("funct3", YStr "b000"); ("rd", YStr "grd");
      ("opcode", YStr "b01100")])])];
    ydict [("mnemonic", YStr "addi"); ("operands", YList [YStr "grd"; YStr "grs1"; YStr "imm"]);
      ("encoding", ydict [("scheme", YStr "I"); ("mapping", ydict [("imm", YStr "imm"); ("rs1",
      YStr "grs1"); ("funct3", YStr "b000"); ("rd", YStr "grd"); ("opcode", YStr "b00100")])])];
    ydict [("mnemonic", YStr "lui"); ("operands", YList [YStr "grd"; ydict [("name", YStr "imm");
      ("type", YStr "uimm")]]); ("encoding", ydict [("scheme", YStr "U"); ("mapping", ydict
      [("imm", YStr "imm"); ("rd", YStr "grd"); ("opcode", YStr "b01101")])])];
    ydict [("mnemonic", YStr "sub"); ("operands", YList [YStr "grd"; YStr "grs1"; YStr "grs2"]);
      ("encoding", ydict [("scheme", YStr "R"); ("mapping", ydict [("funct7", YStr "b0100000");
      ("rs2", YStr "grs2"); ("rs1", YStr "grs1"); ("funct3", YStr "b000"); ("rd", YStr "grd");
      ("opcode", YStr "b01100")])])];
    ydict [("mnemonic", YStr "sll"); ("operands", YList [YStr "grd"; YStr "grs1"; YStr "grs2"]);
      ("encoding", ydict [("scheme", YStr "R"); ("mapping", ydict [("funct7", YStr "b0000000");
      ("rs2", YStr "grs2"); ("rs1", YStr "grs1"); ("funct3", YStr "b001"); ("rd", YStr "grd");
      ("opcode", YStr "b01100")])])];
    ydict [("mnemonic", YStr "slli"); ("operands", YList [YStr "grd"; YStr "grs1"; ydict [("name",
      YStr "shamt"); ("type", YStr "uimm")]]); ("encoding", ydict [("scheme", YStr "Is");
      ("mapping", ydict [("arithmetic", YStr "b0"); ("shamt", YStr "shamt"); ("rs1", YStr
      "grs1"); ("funct3", YStr "b001"); ("rd", YStr "grd"); ("opcode", YStr "b00100")])])];
    ydict [("mnemonic", YStr "srl"); ("operands", YList [YStr "grd"; YStr "grs1"; YStr "grs2"]);
      ("encoding", ydict [("scheme", YStr "R"); ("mapping", ydict [("funct7", YStr "b0000000");
      ("rs2", YStr "grs2"); ("rs1", YStr "grs1"); ("funct3", YStr "b101"); ("rd", YStr "grd");
      ("opcode", YStr "b01100")])])];
    ydict [("mnemonic", YStr "srli"); ("operands", YList [YStr "grd"; YStr "grs1"; ydict [("name",
      YStr "shamt"); ("type", YStr "uimm")]]); ("encoding", ydict [("scheme", YStr "Is");
      ("mapping", ydict [("arithmetic", YStr "b0"); ("shamt", YStr "shamt"); ("rs1", YStr
      "grs1"); ("funct3", YStr "b101"); ("rd", YStr "grd"); ("opcode", YStr "b00100")])])];
    ydict [("mnemonic", YStr "sra"); ("operands", YList [YStr "grd"; YStr "grs1"; YStr "grs2"]);
      ("encoding", ydict [("scheme", YStr "R"); ("mapping", ydict [("funct7", YStr "b0100000");
      ("rs2", YStr "grs2"); ("rs1", YStr "grs1"); ("funct3", YStr "b101"); ("rd", YStr "grd");
      ("opcode", YStr "b01100")])])];
    ydict [("mnemonic", YStr "srai"); ("operands", YList [YStr "grd"; YStr "grs1"; ydict [("name",
      YStr "shamt"); ("type", YStr "uimm")]]); ("encoding", ydict [("scheme", YStr "Is");
      ("mapping", ydict [("arithmetic", YStr "b1"); ("shamt", YStr "shamt"); ("rs1", YStr
      "grs1"); ("funct3", YStr "b101"); ("rd", YStr "grd"); ("opcode", YStr "b00100")])])];
    ydict [("mnemonic", YStr "and"); ("operands", YList [YStr "grd"; YStr "grs1"; YStr "grs2"]);
      ("encoding", ydict [("scheme", YStr "R"); ("mapping", ydict [("funct7", YStr "b0000000");
      ("rs2", YStr "grs2"); ("rs1", YStr "grs1"); ("funct3", YStr "b111"); ("rd", YStr "grd");
      ("opcode", YStr "b01100")])])];
    ydict [("mnemonic", YStr "andi"); ("operands", YList [YStr "grd"; YStr "grs1"; YStr "imm"]);
      ("encoding", ydict [("scheme", YStr "I"); ("mapping", ydict [("imm", YStr "imm"); ("rs1",
      YStr "grs1"); ("funct3", YStr "b111"); ("rd", YStr "grd"); ("opcode", YStr "b00100")])])];
    ydict [("mnemonic", YStr "or"); ("operands", YList [YStr "grd"; YStr "grs1"; YStr "grs2"]);
      ("encoding", ydict [("scheme", YStr "R"); ("mapping", ydict [("funct7", YStr "b0000000");
      ("rs2", YStr "grs2"); ("rs1", YStr "grs1"); ("funct3", YStr "b110"); ("rd", YStr "grd");
      ("opcode", YStr "b01100")])])];
    ydict [("mnemonic", YStr "ori"); ("operands", YList [YStr "grd"; YStr "grs1"; YStr "imm"]);
      ("encoding", ydict [("scheme", YStr "I"); ("mapping", ydict [("imm", YStr "imm"); ("rs1",
      YStr "grs1"); ("funct3", YStr "b110"); ("rd", YStr "grd"); ("opcode", YStr "b00100")])])];
    ydict [("mnemonic", YStr "xor"); ("operands", YList [YStr "grd"; YStr "grs1"; YStr "grs2"]);
      ("encoding", ydict [("scheme", YStr "R"); ("mapping", ydict [("funct7", YStr "b0000000");
      ("rs2", YStr "grs2"); ("rs1", YStr "grs1"); ("funct3", YStr "b100"); ("rd", YStr "grd");
      ("opcode", YStr "b01100")])])];
    ydict [("mnemonic", YStr "xori"); ("operands", YList [YStr "grd"; YStr "grs1"; YStr "imm"]);
      ("encoding", ydict [("scheme", YStr "I"); ("mapping", ydict [("imm", YStr "imm"); ("rs1",
      YStr "grs1"); ("funct3", YStr "b100"); ("rd", YStr "grd"); ("opcode", YStr "b00100")])])];
    ydict [("mnemonic", YStr "lw"); ("operands", YList [YStr "grd"; ydict [("name", YStr "offset");
      ("abbrev", YStr "off")]; YStr "grs1"]); ("encoding", ydict [("scheme", YStr "I");
      ("mapping", ydict [("imm", YStr "offset"); ("rs1", YStr "grs1"); ("funct3", YStr "b010");
      ("rd", YStr "grd"); ("opcode", YStr "b00000")])])];
    ydict [("mnemonic", YStr "sw"); ("operands", YList [YStr "grs2"; ydict [("name", YStr "offset");
      ("abbrev", YStr "off")]; YStr "grs1"]); ("encoding", ydict [("scheme", YStr "S");
      ("mapping", ydict [("imm", YStr "offset"); ("rs2", YStr "grs2"); ("rs1", YStr "grs1");
      ("funct3", YStr "b010"); ("opcode", YStr "b01000")])])];
    ydict [("mnemonic", YStr "beq"); ("operands", YList [YStr "grs1"; YStr "grs2"; ydict [("name",
      YStr "offset"); ("abbrev", YStr "off"); ("pc-rel", YBool true); ("type", YStr
      "simm<<1")]]); ("encoding", ydict [("scheme", YStr "B"); ("mapping", ydict [("imm", YStr
      "offset"); ("rs2", YStr "grs2"); ("rs1", YStr "grs1"); ("funct3", YStr "b000"); ("opcode",
      YStr "b11000")])])];
    ydict [("mnemonic", YStr "bne"); ("operands", YList [YStr "grs1"; YStr "grs2"; ydict [("name",
      YStr "offset"); ("abbrev", YStr "off"); ("pc-rel", YBool true); ("type", YStr
      "simm<<1")]]); ("encoding", ydict [("scheme", YStr "B"); ("mapping", ydict [("imm", YStr
      "offset"); ("rs2", YStr "grs2"); ("rs1", YStr "grs1"); ("funct3", YStr "b001"); ("opcode",
      YStr "b11000")])])];
    ydict [("mnemonic", YStr "jal"); ("operands", YList [YStr "grd"; ydict [("name", YStr "offset");
      ("abbrev", YStr "off"); ("pc-rel", YBool true); ("type", YStr "simm<<1")]]); ("encoding",
      ydict [("scheme", YStr "J"); ("mapping", ydict [("imm", YStr "offset"); ("rd", YStr
      "grd"); ("opcode", YStr "b11011")])])];
    ydict [("mnemonic", YStr "jalr"); ("operands", YList [YStr "grd"; YStr "grs1"; YStr "offset"]);
      ("encoding", ydict [("scheme", YStr "I"); ("mapping", ydict [("imm", YStr "offset");
      ("rs1", YStr "grs1"); ("funct3", YStr "b000"); ("rd", YStr "grd"); ("opcode", YStr
      "b11001")])])];
    ydict [("mnemonic", YStr "csrrs"); ("operands", YList [YStr "grd"; YStr "csr"; YStr "grs1"]);
      ("encoding", ydict [("scheme", YStr "I"); ("mapping", ydict [("imm", YStr "csr"); ("rs1",
      YStr "grs1"); ("funct3", YStr "b010"); ("rd", YStr "grd"); ("opcode", YStr "b11100")])])];
    ydict [("mnemonic", YStr "csrrw"); ("operands", YList [YStr "grd"; YStr "csr"; YStr "grs1"]);
      ("encoding", ydict [("scheme", YStr "I"); ("mapping", ydict [("imm", YStr "csr"); ("rs1",
      YStr "grs1"); ("funct3", YStr "b001"); ("rd", YStr "grd"); ("opcode", YStr "b11100")])])];
    ydict [("mnemonic", YStr "ecall"); ("operands", YList []); ("encoding", ydict [("scheme", YStr
      "I"); ("mapping", ydict [("imm", YStr "b000000000000"); ("rs1", YStr "b00000"); ("funct3",
      YStr "b000"); ("rd", YStr "b00000"); ("opcode", YStr "b11100")])])];
    ydict [("mnemonic", YStr "loop"); ("operands", YList [ydict [("name", YStr "grs")]; ydict
      [("name", YStr "bodysize"); ("abbrev", YStr "sz"); ("type", YStr "uimm+1")]]);
      ("encoding", ydict [("scheme", YStr "loop"); ("mapping", ydict [("bodysize", YStr
      "bodysize"); ("grs", YStr "grs")])])];
    ydict [("mnemonic", YStr "loopi"); ("operands", YList [ydict [("name", YStr "iterations");
      ("type", YStr "uimm")]; ydict [("name", YStr "bodysize"); ("abbrev", YStr "sz"); ("type",
      YStr "uimm+1")]]); ("encoding", ydict [("scheme", YStr "loopi"); ("mapping", ydict
      [("bodysize", YStr "bodysize"); ("iterations", YStr "iterations")])])];
    ydict [("mnemonic", YStr "nop"); ("operands", YList [])];
    ydict [("mnemonic", YStr "li"); ("operands", YList [YStr "grd"; YStr "imm"])];
    ydict [("mnemonic", YStr "la"); ("operands", YList [YStr "grd"; YStr "imm"])];
    ydict [("mnemonic", YStr "ret"); ("operands", YList [])]].

Definition bignum_insns_yml : yaml :=
  YList [
    ydict [("mnemonic", YStr "bn.add"); ("operands", YList [ydict [("name", YStr "wrd")]; ydict
      [("name", YStr "wrs1")]; ydict [("name", YStr "wrs2")]; ydict [("name", YStr
      "shift_type"); ("abbrev", YStr "st"); ("type", YStr "enum(<<, >>)")]; ydict [("name", YStr
      "shift_bits"); ("abbrev", YStr "sb"); ("type", YStr "uimm5<<3")]; ydict [("name", YStr
      "flag_group"); ("abbrev", YStr "fg"); ("type", YStr "uimm1")]]); ("encoding", ydict
      [("scheme", YStr "bnaf"); ("mapping", ydict [("fg", YStr "flag_group"); ("shift_type",
      YStr "shift_type"); ("shift_bits", YStr "shift_bits"); ("wrs2", YStr "wrs2"); ("wrs1",
      YStr "wrs1"); ("funct3", YStr "b000"); ("wrd", YStr "wrd")])])];
    ydict [("mnemonic", YStr "bn.addc"); ("operands", YList [ydict [("name", YStr "wrd")]; ydict
      [("name", YStr "wrs1")]; ydict [("name", YStr "wrs2")]; ydict [("name", YStr
      "shift_type"); ("abbrev", YStr "st"); ("type", YStr "enum(<<, >>)")]; ydict [("name", YStr
      "shift_bits"); ("abbrev", YStr "sb"); ("type", YStr "uimm5<<3")]; ydict [("name", YStr
      "flag_group"); ("abbrev", YStr "fg"); ("type", YStr "uimm1")]]); ("encoding", ydict
      [("scheme", YStr "bnaf"); ("mapping", ydict [("fg", YStr "flag_group"); ("shift_type",
      YStr "shift_type"); ("shift_bits", YStr "shift_bits"); ("wrs2", YStr "wrs2"); ("wrs1",
      YStr "wrs1"); ("funct3", YStr "b010"); ("wrd", YStr "wrd")])])];
    ydict [("mnemonic", YStr "bn.addi"); ("operands", YList [ydict [("name", YStr "wrd")]; ydict
      [("name", YStr "wrs")]; ydict [("name", YStr "imm"); ("type", YStr "uimm")]; ydict
      [("name", YStr "flag_group"); ("abbrev", YStr "fg"); ("type", YStr "uimm1")]]);
      ("encoding", ydict [("scheme", YStr "bnai"); ("mapping", ydict [("fg", YStr "flag_group");
      ("sub", YStr "b0"); ("imm", YStr "imm"); ("wrs", YStr "wrs"); ("funct3", YStr "b100");
      ("wrd", YStr "wrd")])])];
    ydict [("mnemonic", YStr "bn.addm"); ("operands", YList [YStr "wrd"; YStr "wrs1"; YStr "wrs2"]);
      ("encoding", ydict [("scheme", YStr "bnam"); ("mapping", ydict [("sub", YStr "b0");
      ("wrs2", YStr "wrs2"); ("wrs1", YStr "wrs1"); ("funct3", YStr "b101"); ("wrd", YStr
      "wrd")])])];
    ydict [("mnemonic", YStr "bn.mulqacc"); ("operands", YList [ydict [("name", YStr "zero_acc");
      ("abbrev", YStr "za"); ("type", YStr "option(.Z)")]; ydict [("name", YStr "wrs1")]; ydict
      [("name", YStr "wrs1_qwsel"); ("abbrev", YStr "q1"); ("type", YStr "uimm2")]; ydict
      [("name", YStr "wrs2")]; ydict [("name", YStr "wrs2_qwsel"); ("abbrev", YStr "q2");
      ("type", YStr "uimm2")]; ydict [("name", YStr "acc_shift_imm"); ("abbrev", YStr "shift");
      ("type", YStr "uimm2<<6")]]); ("encoding", ydict [("scheme", YStr "bnaq"); ("mapping",
      ydict [("fg", YStr "bx"); ("so", YStr "b0"); ("wb0", YStr "b0"); ("qs2", YStr
      "wrs2_qwsel"); ("qs1", YStr "wrs1_qwsel"); ("wrs2", YStr "wrs2"); ("wrs1", YStr "wrs1");
      ("shift", YStr "acc_shift_imm"); ("z", YStr "zero_acc"); ("wrd", YStr "bxxxxx")])])];
    ydict [("mnemonic", YStr "bn.mulqacc.wo"); ("operands", YList [ydict [("name", YStr "zero_acc");
      ("abbrev", YStr "za"); ("type", YStr "option(.Z)")]; ydict [("name", YStr "wrd")]; ydict
      [("name", YStr "wrs1")]; ydict [("name", YStr "wrs1_qwsel"); ("abbrev", YStr "q1");
      ("type", YStr "uimm2")]; ydict [("name", YStr "wrs2")]; ydict [("name", YStr
      "wrs2_qwsel"); ("abbrev", YStr "q2"); ("type", YStr "uimm2")]; ydict [("name", YStr
      "acc_shift_imm"); ("abbrev", YStr "shift"); ("type", YStr "uimm2<<6")]; ydict [("name",
      YStr "flag_group"); ("abbrev", YStr "fg"); ("type", YStr "uimm1")]]); ("encoding", ydict
      [("scheme", YStr "bnaq"); ("mapping", ydict [("fg", YStr "flag_group"); ("so", YStr "b0");
      ("wb0", YStr "b1"); ("qs2", YStr "wrs2_qwsel"); ("qs1", YStr "wrs1_qwsel"); ("wrs2", YStr
      "wrs2"); ("wrs1", YStr "wrs1"); ("shift", YStr "acc_shift_imm"); ("z", YStr "zero_acc");
      ("wrd", YStr "wrd")])])];
    ydict [("mnemonic", YStr "bn.mulqacc.so"); ("operands", YList [ydict [("name", YStr "zero_acc");
      ("abbrev", YStr "za"); ("type", YStr "option(.Z)")]; ydict [("name", YStr "wrd")]; ydict
      [("name", YStr "wrd_hwsel"); ("abbrev", YStr "dh"); ("type", YStr "enum(L,U)")]; ydict
      [("name", YStr "wrs1")]; ydict [("name", YStr "wrs1_qwsel"); ("abbrev", YStr "q1");
      ("type", YStr "uimm2")]; ydict [("name", YStr "wrs2")]; ydict [("name", YStr
      "wrs2_qwsel"); ("abbrev", YStr "q2"); ("type", YStr "uimm2")]; ydict [("name", YStr
      "acc_shift_imm"); ("abbrev", YStr "shift"); ("type", YStr "uimm2<<6")]; ydict [("name",
      YStr "flag_group"); ("abbrev", YStr "fg"); ("type", YStr "uimm1")]]); ("encoding", ydict
      [("scheme", YStr "bnaq"); ("mapping", ydict [("fg", YStr "flag_group"); ("so", YStr "b1");
      ("wb0", YStr "wrd_hwsel"); ("qs2", YStr "wrs2_qwsel"); ("qs1", YStr "wrs1_qwsel");
      ("wrs2", YStr "wrs2"); ("wrs1", YStr "wrs1"); ("shift", YStr "acc_shift_imm"); ("z", YStr
      "zero_acc"); ("wrd", YStr "wrd")])])];
    ydict [("mnemonic", YStr "bn.sub"); ("operands", YList [ydict [("name", YStr "wrd")]; ydict
      [("name", YStr "wrs1")]; ydict [("name", YStr "wrs2")]; ydict [("name", YStr
      "shift_type"); ("abbrev", YStr "st"); ("type", YStr "enum(<<, >>)")]; ydict [("name", YStr
      "shift_bits"); ("abbrev", YStr "sb"); ("type", YStr "uimm5<<3")]; ydict [("name", YStr
      "flag_group"); ("abbrev", YStr "fg"); ("type", YStr "uimm1")]]); ("encoding", ydict
      [("scheme", YStr "bnaf"); ("mapping", ydict [("fg", YStr "flag_group"); ("shift_type",
      YStr "shift_type"); ("shift_bits", YStr "shift_bits"); ("wrs2", YStr "wrs2"); ("wrs1",
      YStr "wrs1"); ("funct3", YStr "b001"); ("wrd", YStr "wrd")])])];
    ydict [("mnemonic", YStr "bn.subb"); ("operands", YList [ydict [("name", YStr "wrd")]; ydict
      [("name", YStr "wrs1")]; ydict [("name", YStr "wrs2")]; ydict [("name", YStr
      "shift_type"); ("abbrev", YStr "st"); ("type", YStr "enum(<<, >>)")]; ydict [("name", YStr
      "shift_bits"); ("abbrev", YStr "sb"); ("type", YStr "uimm5<<3")]; ydict [("name", YStr
      "flag_group"); ("abbrev", YStr "fg"); ("type", YStr "uimm1")]]); ("encoding", ydict
      [("scheme", YStr "bnaf"); ("mapping", ydict [("fg", YStr "flag_group"); ("shift_type",
      YStr "shift_type"); ("shift_bits", YStr "shift_bits"); ("wrs2", YStr "wrs2"); ("wrs1",
      YStr "wrs1"); ("funct3", YStr "b011"); ("wrd", YStr "wrd")])])];
    ydict [("mnemonic", YStr "bn.subi"); ("operands", YList [ydict [("name", YStr "wrd")]; ydict
      [("name", YStr "wrs")]; ydict [("name", YStr "imm"); ("type", YStr "uimm")]; ydict
      [("name", YStr "flag_group"); ("abbrev", YStr "fg"); ("type", YStr "uimm1")]]);
      ("encoding", ydict [("scheme", YStr "bnai"); ("mapping", ydict [("fg", YStr "flag_group");
      ("sub", YStr "b1"); ("imm", YStr "imm"); ("wrs", YStr "wrs"); ("funct3", YStr "b100");
      ("wrd", YStr "wrd")])])];
    ydict [("mnemonic", YStr "bn.subm"); ("operands", YList [YStr "wrd"; YStr "wrs1"; YStr "wrs2"]);
      ("encoding", ydict [("scheme", YStr "bnam"); ("mapping", ydict [("sub", YStr "b1");
      ("wrs2", YStr "wrs2"); ("wrs1", YStr "wrs1"); ("funct3", YStr "b101"); ("wrd", YStr
      "wrd")])])];
    ydict [("mnemonic", YStr "bn.and"); ("operands", YList [ydict [("name", YStr "wrd")]; ydict
      [("name", YStr "wrs1")]; ydict [("name", YStr "wrs2")]; ydict [("name", YStr
      "shift_type"); ("abbrev", YStr "st"); ("type", YStr "enum(<<, >>)")]; ydict [("name", YStr
      "shift_bits"); ("abbrev", YStr "sb"); ("type", YStr "uimm5<<3")]; ydict [("name", YStr
      "flag_group"); ("abbrev", YStr "fg"); ("type", YStr "uimm1")]]); ("encoding", ydict
      [("scheme", YStr "bna"); ("mapping", ydict [("fg", YStr "flag_group"); ("shift_type", YStr
      "shift_type"); ("shift_bits", YStr "shift_bits"); ("wrs2", YStr "wrs2"); ("wrs1", YStr
      "wrs1"); ("funct3", YStr "b010"); ("wrd", YStr "wrd")])])];
    ydict [("mnemonic", YStr "bn.or"); ("operands", YList [ydict [("name", YStr "wrd")]; ydict
      [("name", YStr "wrs1")]; ydict [("name", YStr "wrs2")]; ydict [("name", YStr
      "shift_type"); ("abbrev", YStr "st"); ("type", YStr "enum(<<, >>)")]; ydict [("name", YStr
      "shift_bits"); ("abbrev", YStr "sb"); ("type", YStr "uimm5<<3")]; ydict [("name", YStr
      "flag_group"); ("abbrev", YStr "fg"); ("type", YStr "uimm1")]]); ("encoding", ydict
      [("scheme", YStr "bna"); ("mapping", ydict [("fg", YStr "flag_group"); ("shift_type", YStr
      "shift_type"); ("shift_bits", YStr "shift_bits"); ("wrs2", YStr "wrs2"); ("wrs1", YStr
      "wrs1"); ("funct3", YStr "b100"); ("wrd", YStr "wrd")])])];
    ydict [("mnemonic", YStr "bn.not"); ("operands", YList [ydict [("name", YStr "wrd")]; ydict
      [("name", YStr "wrs")]; ydict [("name", YStr "shift_type"); ("abbrev", YStr "st");
      ("type", YStr "enum(<<, >>)")]; ydict [("name", YStr "shift_bits"); ("abbrev", YStr "sb");
      ("type", YStr "uimm5<<3")]; ydict [("name", YStr "flag_group"); ("abbrev", YStr "fg");
      ("type", YStr "uimm1")]]); ("encoding", ydict [("scheme", YStr "bnan"); ("mapping", ydict
      [("fg", YStr "flag_group"); ("shift_type", YStr "shift_type"); ("shift_bits", YStr
      "shift_bits"); ("wrs1", YStr "wrs"); ("funct3", YStr "b101"); ("wrd", YStr "wrd")])])];
    ydict [("mnemonic", YStr "bn.xor"); ("operands", YList [ydict [("name", YStr "wrd")]; ydict
      [("name", YStr "wrs1")]; ydict [("name", YStr "wrs2")]; ydict [("name", YStr
      "shift_type"); ("abbrev", YStr "st"); ("type", YStr "enum(<<, >>)")]; ydict [("name", YStr
      "shift_bits"); ("abbrev", YStr "sb"); ("type", YStr "uimm5<<3")]; ydict [("name", YStr
      "flag_group"); ("abbrev", YStr "fg"); ("type", YStr "uimm1")]]); ("encoding", ydict
      [("scheme", YStr "bna"); ("mapping", ydict [("fg", YStr "flag_group"); ("shift_type", YStr
      "shift_type"); ("shift_bits", YStr "shift_bits"); ("wrs2", YStr "wrs2"); ("wrs1", YStr
      "wrs1"); ("funct3", YStr "b110"); ("wrd", YStr "wrd")])])];
    ydict [("mnemonic", YStr "bn.rshi"); ("operands", YList [ydict [("name", YStr "wrd")]; ydict
      [("name", YStr "wrs1")]; ydict [("name", YStr "wrs2")]; ydict [("name", YStr "imm");
      ("type", YStr "uimm")]]); ("encoding", ydict [("scheme", YStr "bnr"); ("mapping", ydict
      [("imm", YStr "imm"); ("wrs2", YStr "wrs2"); ("wrs1", YStr "wrs1"); ("funct2", YStr
      "b11"); ("wrd", YStr "wrd")])])];
    ydict [("mnemonic", YStr "bn.sel"); ("operands", YList [ydict [("name", YStr "wrd")]; ydict
      [("name", YStr "wrs1")]; ydict [("name", YStr "wrs2")]; ydict [("name", YStr
      "flag_group"); ("abbrev", YStr "fg"); ("type", YStr "uimm1")]; ydict [("name", YStr
      "flag"); ("type", YStr "enum(C, M, L, Z)")]]); ("encoding", ydict [("scheme", YStr "bns");
      ("mapping", ydict [("fg", YStr "flag_group"); ("flag", YStr "flag"); ("wrs2", YStr
      "wrs2"); ("wrs1", YStr "wrs1"); ("wrd", YStr "wrd")])])];
    ydict [("mnemonic", YStr "bn.cmp"); ("operands", YList [ydict [("name", YStr "wrs1")]; ydict
      [("name", YStr "wrs2")]; ydict [("name", YStr "shift_type"); ("abbrev", YStr "st");
      ("type", YStr "enum(<<, >>)")]; ydict [("name", YStr "shift_bits"); ("abbrev", YStr "sb");
      ("type", YStr "uimm5<<3")]; ydict [("name", YStr "flag_group"); ("abbrev", YStr "fg");
      ("type", YStr "uimm1")]]); ("encoding", ydict [("scheme", YStr "bnc"); ("mapping", ydict
      [("fg", YStr "flag_group"); ("shift_type", YStr "shift_type"); ("shift_bits", YStr
      "shift_bits"); ("wrs2", YStr "wrs2"); ("wrs1", YStr "wrs1"); ("funct3", YStr "b001")])])];
    ydict [("mnemonic", YStr "bn.cmpb"); ("operands", YList [ydict [("name", YStr "wrs1")]; ydict
      [("name", YStr "wrs2")]; ydict [("name", YStr "shift_type"); ("abbrev", YStr "st");
      ("type", YStr "enum(<<, >>)")]; ydict [("name", YStr "shift_bits"); ("abbrev", YStr "sb");
      ("type", YStr "uimm5<<3")]; ydict [("name", YStr "flag_group"); ("abbrev", YStr "fg");
      ("type", YStr "uimm1")]]); ("encoding", ydict [("scheme", YStr "bnc"); ("mapping", ydict
      [("fg", YStr "flag_group"); ("shift_type", YStr "shift_type"); ("shift_bits", YStr
      "shift_bits"); ("wrs2", YStr "wrs2"); ("wrs1", YStr "wrs1"); ("funct3", YStr "b011")])])];
    ydict [("mnemonic", YStr "bn.lid"); ("operands", YList [ydict [("name", YStr "grd"); ("type",
      YStr "grs")]; ydict [("name", YStr "grs1")]; ydict [("name", YStr "offset"); ("abbrev",
      YStr "off"); ("type", YStr "simm<<5")]; ydict [("name", YStr "grs1_inc"); ("abbrev", YStr
      "inc1"); ("type", YStr "option(++)")]; ydict [("name", YStr "grd_inc"); ("abbrev", YStr
      "incd"); ("type", YStr "option(++)")]]); ("encoding", ydict [("scheme", YStr "bnxid");
      ("mapping", ydict [("imm", YStr "offset"); ("rs2", YStr "grd"); ("rs1", YStr "grs1");
      ("spp", YStr "grs1_inc"); ("dpp", YStr "grd_inc"); ("funct3", YStr "b100")])])];
    ydict [("mnemonic", YStr "bn.sid"); ("operands", YList [ydict [("name", YStr "grs1")]; ydict
      [("name", YStr "grs2")]; ydict [("name", YStr "offset"); ("abbrev", YStr "off"); ("type",
      YStr "simm<<5")]; ydict [("name", YStr "grs1_inc"); ("type", YStr "option(++)");
      ("abbrev", YStr "inc1")]; ydict [("name", YStr "grs2_inc"); ("type", YStr "option(++)");
      ("abbrev", YStr "inc2")]]); ("encoding", ydict [("scheme", YStr "bnxid"); ("mapping",
      ydict [("imm", YStr "offset"); ("rs2", YStr "grs2"); ("rs1", YStr "grs1"); ("spp", YStr
      "grs1_inc"); ("dpp", YStr "grs2_inc"); ("funct3", YStr "b101")])])];
    ydict [("mnemonic", YStr "bn.mov"); ("operands", YList [YStr "wrd"; YStr "wrs"]); ("encoding",
      ydict [("scheme", YStr "bnmov"); ("mapping", ydict [("src", YStr "wrs"); ("dst", YStr
      "wrd")])])];
    ydict [("mnemonic", YStr "bn.movr"); ("operands", YList [ydict [("name", YStr "grd"); ("type",
      YStr "grs")]; ydict [("name", YStr "grs")]; ydict [("name", YStr "grd_inc"); ("type", YStr
      "option(++)")]; ydict [("name", YStr "grs_inc"); ("type", YStr "option(++)")]]);
      ("encoding", ydict [("scheme", YStr "bnmovr"); ("mapping", ydict [("dst", YStr "grd");
      ("src", YStr "grs"); ("spp", YStr "grs_inc"); ("dpp", YStr "grd_inc")])])];
    ydict [("mnemonic", YStr "bn.wsrr"); ("operands", YList [ydict [("name", YStr "wrd")]; ydict
      [("name", YStr "wsr")]]); ("encoding", ydict [("scheme", YStr "wcsr"); ("mapping", ydict
      [("write", YStr "b0"); ("wcsr", YStr "wsr"); ("wrs", YStr "bxxxxx"); ("wrd", YStr
      "wrd")])])];
    ydict [("mnemonic", YStr "bn.wsrw"); ("operands", YList [ydict [("name", YStr "wsr")]; ydict
      [("name", YStr "wrs")]]); ("encoding", ydict [("scheme", YStr "wcsr"); ("mapping", ydict
      [("write", YStr "b1"); ("wcsr", YStr "wsr"); ("wrs", YStr "wrs"); ("wrd", YStr
      "bxxxxx")])])]].
