(* ===== verification/Decode.v ===== *)
(** Decoding instruction words (otbnsim/sim/decode.py), and the instruction classes
    with the entries of the database they belong to. *)

From S2P Require Import Prelude PyStr Yaml BitRanges BoolLiteral EncodingScheme Encoding Operand.
From S2P Require Import InsnYaml Insn.

(** A subclass of [OTBNInsn]: what it passes to [insn_for_mnemonic], and its
    constructor. *)
Inductive insn_class :=
  | InsnClass (mnemonic : string) (num_operands : Z) (init : gmap string Z → res insn).

Definition INSN_CLASSES : list insn_class :=
  [
    InsnClass "add" 3 ADD_init;
    InsnClass "addi" 3 ADDI_init;
    InsnClass "lui" 2 LUI_init;
    InsnClass "sub" 3 SUB_init;
    InsnClass "sll" 3 SLL_init;
    InsnClass "slli" 3 SLLI_init;
    InsnClass "srl" 3 SRL_init;
    InsnClass "srli" 3 SRLI_init;
    InsnClass "sra" 3 SRA_init;
    InsnClass "srai" 3 SRAI_init;
    InsnClass "and" 3 AND_init;
    InsnClass "andi" 3 ANDI_init;
    InsnClass "or" 3 OR_init;
    InsnClass "ori" 3 ORI_init;
    InsnClass "xor" 3 XOR_init;
    InsnClass "xori" 3 XORI_init;
    InsnClass "lw" 3 LW_init;
    InsnClass "sw" 3 SW_init;
    InsnClass "beq" 3 BEQ_init;
    InsnClass "bne" 3 BNE_init;
    InsnClass "jal" 2 JAL_init;
    InsnClass "jalr" 3 JALR_init;
    InsnClass "csrrs" 3 CSRRS_init;
    InsnClass "csrrw" 3 CSRRW_init;
    InsnClass "ecall" 0 ECALL_init;
    InsnClass "loop" 2 LOOP_init;
    InsnClass "loopi" 2 LOOPI_init;
    InsnClass "bn.add" 6 BNADD_init;
    InsnClass "bn.addc" 6 BNADDC_init;
    InsnClass "bn.addi" 4 BNADDI_init;
    InsnClass "bn.addm" 3 BNADDM_init;
    InsnClass "bn.mulqacc" 6 BNMULQACC_init;
    InsnClass "bn.mulqacc.wo" 8 BNMULQACCWO_init;
    InsnClass "bn.mulqacc.so" 9 BNMULQACCSO_init;
    InsnClass "bn.sub" 6 BNSUB_init;
    InsnClass "bn.subb" 6 BNSUBB_init;
    InsnClass "bn.subi" 4 BNSUBI_init;
    InsnClass "bn.subm" 3 BNSUBM_init;
    InsnClass "bn.and" 6 BNAND_init;
    InsnClass "bn.or" 6 BNOR_init;
    InsnClass "bn.not" 5 BNNOT_init;
    InsnClass "bn.xor" 6 BNXOR_init;
    InsnClass "bn.rshi" 4 BNRSHI_init;
    InsnClass "bn.sel" 5 BNSEL_init;
    InsnClass "bn.cmp" 5 BNCMP_init;
    InsnClass "bn.cmpb" 5 BNCMPB_init;
    InsnClass "bn.lid" 5 BNLID_init;
    InsnClass "bn.sid" 5 BNSID_init;
    InsnClass "bn.mov" 2 BNMOV_init;
    InsnClass "bn.movr" 4 BNMOVR_init;
    InsnClass "bn.wsrr" 2 BNWSRR_init;
    InsnClass "bn.wsrw" 2 BNWSRW_init
  ].

(** A class with the value of its class variable [insn]. *)
Record loaded_class := mkLoadedClass {
  lc_insn : YInsn;
  lc_init : gmap string Z → res insn
}.

(** [insn_for_mnemonic]; on a mismatch the program exits. *)
Definition insn_for_mnemonic (file : InsnsFile) (mnemonic : string) (num_operands : Z)
    : option YInsn :=
  insn ← dget mnemonic (if_mnemonic_to_insn file);
  if Z.of_nat (length (yi_operands insn)) =? num_operands then Some insn else None.

Definition load_class (file : InsnsFile) (c : insn_class) : option loaded_class :=
  let '(InsnClass mnemonic num_operands init) := c in
  insn ← insn_for_mnemonic file mnemonic num_operands;
  Some (mkLoadedClass insn init).

Definition load_classes (file : InsnsFile) : option (list loaded_class) :=
  mapM (load_class file) INSN_CLASSES.

(** At most one element. *)
Definition option_list {A} (o : option A) : list A :=
  match o with Some a => [a] | None => [] end.

Module Decode.
Definition add_tuple (tuples : list (Z * Z * loaded_class)) (cls : loaded_class)
    : res (list (Z * Z * loaded_class)) :=
  match yi_encoding (lc_insn cls) with
  | None => Ok tuples
  | Some e =>
      '(m0, m1) ← Encoding.get_masks e;
      Ok (tuples ++ [(m0 .& ~. m1, m1 .& ~. m0, cls)])
  end.

Definition get_insn_masks (classes : list loaded_class)
    : res (list (Z * Z * loaded_class)) :=
  foldM add_tuple [] classes.

(** The loop of [_decode_word]: the first tuple the word passes. *)
Fixpoint find_cls (word : Z) (tuples : list (Z * Z * loaded_class)) : option loaded_class :=
  match tuples with
  | [] => None
  | (m0, m1, cls) :: tuples =>
      if truthy (word .& m0) || truthy ((~. word) .& m1) then find_cls word tuples
      else Some cls
  end.

Definition _decode_word (classes : list loaded_class) (pc word : Z) : res insn :=
  tuples ← get_insn_masks classes;
  match find_cls word tuples with
  | None => Ok (IllegalInsn word)
  | Some cls =>
      e ← of_option AssertionError (yi_encoding (lc_insn cls));
      let enc_vals := Encoding.extract_operands e word in
      op_vals ← YInsn.enc_vals_to_op_vals (lc_insn cls) pc enc_vals;
      match lc_init cls (list_to_map op_vals) with
      | Err DecodeError => Ok (IllegalInsn word)
      | r => r
      end
  end.

(** [struct.iter_unpack('<I', data)] *)
Fixpoint words_le (data : list Z) : list Z :=
  match data with
  | b0 :: b1 :: b2 :: b3 :: data =>
      (b0 + (b1 ≪ 8) + (b2 ≪ 16) + (b3 ≪ 24)) :: words_le data
  | _ => []
  end.

Definition decode_bytes (classes : list loaded_class) (base_addr : Z) (data : list Z)
    : res (list insn) :=
  py_assert ((Z.of_nat (length data) .& 3) =? 0);;
  mapR (fun '(offset, word) => _decode_word classes (base_addr + 4 * Z.of_nat offset) word)
    (imap pair (words_le data)).

(** ** Finding the class *)

(** The database gives the classes well-formed entries, and no word fits two. *)
Record classes_ok (classes : list loaded_class) : Prop := {
  co_ok : ∀ c, c ∈ classes → YInsn.ok (lc_insn c);
  co_unique : ∀ c1 c2 e1 e2 word, c1 ∈ classes → c2 ∈ classes →
    yi_encoding (lc_insn c1) = Some e1 → yi_encoding (lc_insn c2) = Some e2 →
    Encoding.literals_match e1 word → Encoding.literals_match e2 word → c1 = c2
}.

Definition tuple_of (cls : loaded_class) : option (Z * Z * loaded_class) :=
  e ← yi_encoding (lc_insn cls);
  let m0 := Encoding.gather e Encoding.field_m0 in
  let m1 := Encoding.gather e Encoding.field_m1 in
  Some (m0 .& ~. m1, m1 .& ~. m0, cls).

Lemma get_insn_masks_ok classes :
  (∀ c, c ∈ classes → YInsn.ok (lc_insn c)) → get_insn_masks classes = Ok (omap tuple_of classes).
Proof.
  intros Hok. unfold get_insn_masks.
  enough (∀ acc, foldM add_tuple acc classes = Ok (acc ++ omap tuple_of classes)) as H by apply H.
  induction classes as [| c classes IH]; intros acc; [by rewrite app_nil_r |]. cbn [foldM].
  assert (add_tuple acc c = Ok (acc ++ option_list (tuple_of c))) as ->.
  { unfold add_tuple, tuple_of. destruct (yi_encoding (lc_insn c)) as [e |] eqn:Ee.
    - rewrite Encoding.get_masks_ok by (eapply Hok; [by left | done]). done.
    - by rewrite app_nil_r. }
  cbn [mbind res_bind]. rewrite IH by (intros; apply Hok; by right).
  rewrite <- app_assoc. do 2 f_equal.
  change (omap tuple_of (c :: classes)) with
    (match tuple_of c with Some t => t :: omap tuple_of classes | None => omap tuple_of classes end).
  by destruct (tuple_of c).
Qed.

Lemma find_cls_Some word tuples cls :
  find_cls word tuples = Some cls →
  ∃ m0 m1, (m0, m1, cls) ∈ tuples ∧ truthy (word .& m0) || truthy ((~. word) .& m1) = false.
Proof.
  induction tuples as [| [[m0 m1] c] tuples IH]; cbn [find_cls]; [done |].
  destruct (truthy _ || truthy _) eqn:E.
  - intros (m0' & m1' & ? & ?)%IH. exists m0', m1'. split; [by right | done].
  - intros [= ->]. exists m0, m1. split; [by left | done].
Qed.

Lemma find_cls_None word tuples m0 m1 cls :
  find_cls word tuples = None → (m0, m1, cls) ∈ tuples →
  truthy (word .& m0) || truthy ((~. word) .& m1) = true.
Proof.
  induction tuples as [| [[m0' m1'] c] tuples IH]; cbn [find_cls]; [by intros _ ?%elem_of_nil |].
  destruct (truthy (word .& m0') || truthy (~. word .& m1')) eqn:E; [| done].
  intros Hn [[= -> -> ->] | Hin]%elem_of_cons; [done | by apply IH].
Qed.

Lemma test_passes word e :
  Encoding.wf e →
  let m0 := Encoding.gather e Encoding.field_m0 in
  let m1 := Encoding.gather e Encoding.field_m1 in
  truthy (word .& (m0 .& ~. m1)) || truthy ((~. word) .& (m1 .& ~. m0)) = false ↔
  Encoding.literals_match e word.
Proof.
  intros He m0 m1. rewrite <- Encoding.passes_iff by done. unfold Encoding.passes.
  fold m0 m1. destruct (truthy _), (truthy _); done.
Qed.

(** The class found is the one whose encoding accepts the word. *)
Lemma find_cls_iff classes word cls :
  classes_ok classes →
  find_cls word (omap tuple_of classes) = Some cls ↔
  cls ∈ classes ∧ ∃ e, yi_encoding (lc_insn cls) = Some e ∧ Encoding.literals_match e word.
Proof.
  intros [Hok Huniq].
  assert (Hsound : ∀ c, find_cls word (omap tuple_of classes) = Some c →
    c ∈ classes ∧ ∃ e, yi_encoding (lc_insn c) = Some e ∧ Encoding.literals_match e word).
  { intros c (m0 & m1 & (c' & Hc & Et)%list_elem_of_omap & Htest)%find_cls_Some.
    unfold tuple_of in Et. destruct (yi_encoding (lc_insn c')) as [e |] eqn:Ee; [| done].
    simplify_eq/=. split; [done |]. exists e. split; [done |].
    apply test_passes in Htest; [done |]. by eapply Hok. }
  split; [apply Hsound |]. intros (Hc & e & Ee & Hm).
  destruct (find_cls word _) as [c |] eqn:Ef.
  - destruct (Hsound c) as (Hc' & e' & Ee' & Hm'); [done |]. f_equal. by eapply Huniq.
  - exfalso. eapply find_cls_None in Ef.
    + erewrite (proj2 (test_passes word e _)) in Ef; done.
    + apply list_elem_of_omap. exists cls. split; [done |]. unfold tuple_of. by rewrite Ee.
  Unshelve. by eapply Hok.
Qed.

Definition class_name (c : insn_class) : string := let '(InsnClass m _ _) := c in m.

Lemma class_names_distinct : NoDup (class_name <$> INSN_CLASSES).
Proof. apply (bool_decide_unpack _). by vm_compute. Qed.

Lemma load_class_inv file C c :
  file_ok file → load_class file C = Some c →
  lc_insn c ∈ if_insns file ∧ class_name C = lower (yi_mnemonic (lc_insn c)).
Proof.
  intros [_ _ Hidx _]. destruct C as [m n init]. cbn. unfold insn_for_mnemonic.
  destruct (dget m (if_mnemonic_to_insn file)) as [i |] eqn:Em; [| done]. cbn.
  destruct (_ =? n); [| done]. intros [= <-]. rewrite Hidx in Em.
  apply dget_Some_elem, list_elem_of_fmap in Em as (i' & [= -> ->] & Hi). done.
Qed.

Definition class_init (C : insn_class) : gmap string Z → res insn :=
  let '(InsnClass _ _ init) := C in init.

Lemma load_class_init file C c : load_class file C = Some c → lc_init c = class_init C.
Proof.
  destruct C as [m n init]. cbn. destruct (insn_for_mnemonic file m n); [| done].
  by intros [= <-].
Qed.

(** The class at an index has the constructor listed there. *)
Lemma load_classes_init file classes j cls :
  load_classes file = Some classes → classes !! j = Some cls →
  ∃ C, INSN_CLASSES !! j = Some C ∧ lc_init cls = class_init C.
Proof.
  intros Hl Hj. apply mapM_Some in Hl. destruct (Forall2_lookup_r _ _ _ _ _ Hl Hj) as (C & HC & Ec).
  exists C. split; [done |]. by eapply load_class_init.
Qed.

Lemma load_classes_ok file classes :
  file_ok file → load_classes file = Some classes → classes_ok classes.
Proof.
  intros Hf Hl. apply mapM_Some in Hl.
  assert (Hin : ∀ c, c ∈ classes → ∃ j C, INSN_CLASSES !! j = Some C ∧ classes !! j = Some c ∧
    lc_insn c ∈ if_insns file ∧ class_name C = lower (yi_mnemonic (lc_insn c))).
  { intros c (j & Hj)%list_elem_of_lookup. destruct (Forall2_lookup_r _ _ _ _ _ Hl Hj) as (C & HC & Ec).
    exists j, C. split_and!; try done; by eapply load_class_inv. }
  split.
  - intros c (j & C & _ & _ & Hc & _)%Hin. by apply (fo_ok _ Hf).
  - intros c1 c2 e1 e2 word (j1 & C1 & L1 & K1 & I1 & N1)%Hin (j2 & C2 & L2 & K2 & I2 & N2)%Hin E1 E2 M1 M2.
    assert (yi_mnemonic (lc_insn c1) = yi_mnemonic (lc_insn c2)) as Heq.
    { apply (unambiguous (if_insns file) _ _ e1 e2 word); try done.
      - apply (fo_ok _ Hf).
      - by apply file_mnemonics.
      - apply (fo_amb _ Hf). }
    assert (j1 = j2) as ->; [| congruence].
    apply (NoDup_lookup (class_name <$> INSN_CLASSES) j1 j2 (class_name C1)).
    + apply class_names_distinct.
    + by rewrite list_lookup_fmap, L1.
    + rewrite list_lookup_fmap, L2. cbn. congruence.
Qed.

(** ** Decoding a word *)

(** The object the constructor makes from the operand values. *)
Definition build (cls : loaded_class) (word : Z) (op_vals : gmap string Z) : res insn :=
  match lc_init cls op_vals with
  | Err DecodeError => Ok (IllegalInsn word)
  | r => r
  end.

(** A word that an encoding accepts is decoded with its class, from the values of the
    operand fields. *)
Lemma decode_accepted classes cls e pc word :
  classes_ok classes → cls ∈ classes → yi_encoding (lc_insn cls) = Some e →
  Encoding.literals_match e word →
  ∃ m, _decode_word classes pc word = build cls word m ∧
    ∀ o k f, o ∈ yi_operands (lc_insn cls) → (k, f) ∈ e_fields e →
      ef_value f = OpName (o_name o) → ∃ v, m !! o_name o = Some v ∧
      OperandType.enc_val_to_op_val (o_type o) (BitRanges.decode word (Encoding.f_bits f)) pc
      = Ok (Some v).
Proof.
  intros Hcs Hc Ee Hm.
  destruct (YInsn.enc_vals_to_op_vals_ok (lc_insn cls) e pc word) as (vals & Ev & Hvals).
  { by apply (co_ok _ Hcs). }
  exists (list_to_map vals). split.
  - unfold _decode_word. rewrite get_insn_masks_ok by apply Hcs. cbn [mbind res_bind].
    rewrite (proj2 (find_cls_iff classes word cls Hcs)) by eauto.
    rewrite Ee. cbn [of_option mbind res_bind]. by rewrite Ev.
  - intros o k f Ho Hf Hv. setoid_rewrite lookup_list_to_map. by eapply Hvals.
Qed.

(** Any other word is an illegal instruction. *)
Lemma decode_rejected classes pc word :
  classes_ok classes →
  (∀ cls e, cls ∈ classes → yi_encoding (lc_insn cls) = Some e → ¬ Encoding.literals_match e word) →
  _decode_word classes pc word = Ok (IllegalInsn word).
Proof.
  intros Hcs Hno. unfold _decode_word. rewrite get_insn_masks_ok by apply Hcs. cbn [mbind res_bind].
  destruct (find_cls word _) as [c |] eqn:Ef; [| done].
  apply find_cls_iff in Ef as (Hc & e & Ee & Hm); [| done]. by destruct (Hno c e Hc Ee).
Qed.
End Decode.
