(* ===== verification/DecodeProps.v ===== *)
(** Properties of encoding and decoding, at the level of the whole database, and the
    instruction set of OTBN as their instance. *)

From S2P Require Import Prelude PyStr Yaml BitRanges BoolLiteral EncodingScheme Encoding Operand.
From S2P Require Import InsnYaml OtbnIsa Insn InsnSafe Decode.

(** * The OTBN instruction set *)

Definition otbn_file : InsnsFile :=
  match InsnsFile.init (Some enc_schemes_yml) [base_insns_yml; bignum_insns_yml] with
  | Ok file => file
  | Err _ => mkInsnsFile [] []
  end.

Definition otbn_classes : list loaded_class := default [] (load_classes otbn_file).

Lemma otbn_file_loads :
  InsnsFile.init (Some enc_schemes_yml) [base_insns_yml; bignum_insns_yml] = Ok otbn_file.
Proof.
  unfold otbn_file. destruct (InsnsFile.init _ _) eqn:E; [done |]. exfalso.
  assert (H : match InsnsFile.init (Some enc_schemes_yml) [base_insns_yml; bignum_insns_yml] with
    | Ok _ => True | Err _ => False end) by (by vm_compute).
  by rewrite E in H.
Qed.

Lemma otbn_classes_load : load_classes otbn_file = Some otbn_classes.
Proof.
  unfold otbn_classes. destruct (load_classes otbn_file) eqn:E; [done |]. exfalso.
  assert (H : is_Some (load_classes otbn_file)) by (apply (bool_decide_unpack _); by vm_compute).
  rewrite E in H. by destruct H.
Qed.

Lemma otbn_classes_ok : Decode.classes_ok otbn_classes.
Proof.
  apply (Decode.load_classes_ok otbn_file); [| apply otbn_classes_load].
  eapply file_init_ok, otbn_file_loads.
Qed.

#[global] Opaque otbn_file otbn_classes.

Definition no_class : loaded_class := mkLoadedClass (mkYInsn EmptyString None [] []) ECALL_init.
Definition no_encoding : Encoding := mkEncoding [] [].

(** The class and the encoding of the [j]th instruction. *)
Definition class_at (j : nat) : loaded_class := default no_class (otbn_classes !! j).
Definition encoding_at (j : nat) : Encoding := default no_encoding (yi_encoding (lc_insn (class_at j))).

Lemma class_at_elem j : (j < 52)%nat → class_at j ∈ otbn_classes.
Proof.
  intros Hj. unfold class_at. destruct (otbn_classes !! j) as [c |] eqn:E.
  - by apply list_elem_of_lookup_2 in E.
  - apply lookup_ge_None in E. assert (length otbn_classes = 52%nat) by (by vm_compute). lia.
Qed.

(** * Assembling and decoding *)

(** C15: For every database that loads, every instruction class and all operand values
    that its operand types can encode at address [pc]: assembling the encoded operands
    gives a 32-bit word, and decoding that word at [pc] calls the constructor of the same
    class with the same operand values (a DecodeError of the constructor makes it an
    illegal instruction). *)
Theorem assemble_decode schemes_yml groups file classes cls e pc (vals ops : dict Z)
  (Hfile : InsnsFile.init schemes_yml groups = Ok file)
  (Hclasses : load_classes file = Some classes)
  (Hcls : cls ∈ classes)
  (He : yi_encoding (lc_insn cls) = Some e)
  (Hops : ∀ o, o ∈ yi_operands (lc_insn cls) → ∃ v ev,
     dget (o_name o) vals = Some v ∧ dget (o_name o) ops = Some ev ∧
     OperandType.op_val_to_enc_val (o_type o) v (Some pc) = Ok (Some ev)) :
  ∃ word op_vals, Encoding.assemble e ops = Ok word ∧ in_bits 32 word ∧
    Decode._decode_word classes pc word =
      match lc_init cls op_vals with
      | Err DecodeError => Ok (IllegalInsn word)
      | r => r
      end ∧
    ∀ o, o ∈ yi_operands (lc_insn cls) → op_vals !! o_name o = dget (o_name o) vals.
Proof.
  pose proof (Decode.load_classes_ok _ _ (file_init_ok _ _ _ Hfile) Hclasses) as Hcs.
  destruct (Decode.co_ok _ Hcs _ Hcls _ He) as [Hwf _ _ Hfield Hoperand].
  assert (Henc : ∀ o k f, o ∈ yi_operands (lc_insn cls) → (k, f) ∈ e_fields e →
    ef_value f = OpName (o_name o) → ∃ v ev, dget (o_name o) vals = Some v ∧
      dget (o_name o) ops = Some ev ∧ in_bits (br_width (Encoding.f_bits f)) ev ∧
      OperandType.enc_val_to_op_val (o_type o) ev pc = Ok (Some v)).
  { intros o k f Ho Hf Hv. destruct (Hoperand o Ho) as (Hwt & k' & f' & Hf' & Hv' & Hw).
    assert (k' = k) as -> by (by eapply Encoding.wf_linear).
    apply elem_dget in Hf', Hf; try apply Hwf. simplify_eq.
    destruct (Hops o Ho) as (v & ev & Ev & Eev & Ee). exists v, ev.
    destruct (OperandType.enc_then_dec _ _ _ _ _ Hwt Hw Ee). done. }
  assert (Hfits : Encoding.fits_ops e ops).
  { intros k f op Hf Hv. destruct (Hfield _ _ _ Hf Hv) as (o & Ho & <-).
    destruct (Henc o k f Ho Hf Hv) as (v & ev & _ & -> & ? & _). done. }
  rewrite (Encoding.assemble_ok e ops Hwf Hfits).
  destruct (Decode.decode_accepted classes cls e pc (Encoding.gather e (Encoding.spread ops)) Hcs Hcls He)
    as (m & Hdec & Hm); [by apply Encoding.assembled_matches |].
  eexists _, m. split_and!; [done | | exact Hdec |].
  - apply Encoding.gather_in_bits; auto using Encoding.spread_inside, Encoding.spread_nonneg.
  - intros o Ho. destruct (Hoperand o Ho) as (_ & k & f & Hf & Hv & _).
    destruct (Hm o k f Ho Hf Hv) as (v & -> & Ev).
    destruct (Henc o k f Ho Hf Hv) as (v' & ev & -> & Eev & Hb & Ev').
    assert (Encoding.value_of ops f = ev) as Hval by (unfold Encoding.value_of; by rewrite Hv, Eev).
    rewrite (Encoding.decode_spread e ops k f), Hval in Ev by (rewrite ?Hval; done). congruence.
Qed.

(** The hypothesis on the operands, as a computation. *)
Definition encodes (pc : Z) (vals ops : dict Z) (o : Operand) : bool :=
  match dget (o_name o) vals, dget (o_name o) ops with
  | Some v, Some ev =>
      match OperandType.op_val_to_enc_val (o_type o) v (Some pc) with
      | Ok (Some ev') => ev' =? ev
      | _ => false
      end
  | _, _ => false
  end.

Lemma encodes_all pc vals ops (l : list Operand) :
  forallb (encodes pc vals ops) l = true →
  ∀ o, o ∈ l → ∃ v ev, dget (o_name o) vals = Some v ∧ dget (o_name o) ops = Some ev ∧
    OperandType.op_val_to_enc_val (o_type o) v (Some pc) = Ok (Some ev).
Proof.
  intros H o Ho. rewrite forallb_forall in H. specialize (H o (proj1 (list_elem_of_In _ _) Ho)).
  unfold encodes in H. destruct (dget _ vals) as [v |]; [| done].
  destruct (dget _ ops) as [ev |]; [| done].
  destruct (OperandType.op_val_to_enc_val _ _ _) as [[ev' |] |] eqn:E; try done.
  apply Z.eqb_eq in H as <-. eauto.
Qed.

(** BEQ x1, x2 to address 4 at address 8: the offset is encoded as -2 in 12 bits. *)
Definition beq_vals : dict Z := [("grs1", 1); ("grs2", 2); ("offset", 4)]%string.
Definition beq_ops : dict Z := [("grs1", 1); ("grs2", 2); ("offset", 0xffe)]%string.

Lemma assemble_decode_witness :
  ∃ word op_vals, Encoding.assemble (encoding_at 18) beq_ops = Ok word ∧ in_bits 32 word ∧
    Decode._decode_word otbn_classes 8 word =
      match lc_init (class_at 18) op_vals with
      | Err DecodeError => Ok (IllegalInsn word)
      | r => r
      end ∧
    ∀ o, o ∈ yi_operands (lc_insn (class_at 18)) → op_vals !! o_name o = dget (o_name o) beq_vals.
Proof.
  apply (assemble_decode (Some enc_schemes_yml) [base_insns_yml; bignum_insns_yml] otbn_file).
  - exact otbn_file_loads.
  - exact otbn_classes_load.
  - apply class_at_elem. lia.
  - by vm_compute.
  - apply encodes_all. by vm_compute.
Defined.

Example beq_word : Encoding.assemble (encoding_at 18) beq_ops = Ok 0xfe208ee3.
Proof. by vm_compute. Qed.

Example beq_decodes : Decode._decode_word otbn_classes 8 0xfe208ee3 = Ok (BEQ 1 2 4).
Proof. by vm_compute. Qed.

(** * Every word decodes *)

(** The values an operand type can take. *)
Definition val_in (t : OperandType) (pc v : Z) : Prop :=
  match t with
  | RegOperandType _ _ => 0 ≤ v < 32
  | ImmOperandType (Some w) enc_offset shift signed pc_rel =>
      ∃ q, (if signed then - 2 ^ (w - 1) ≤ q ≤ 2 ^ (w - 1) - 1 else 0 ≤ q < 2 ^ w) ∧
        v = (q + enc_offset) * 2 ^ shift + (if pc_rel then pc else 0)
  | ImmOperandType None _ _ _ _ => False
  | EnumOperandType w _ | OptionOperandType w _ => 0 ≤ v < 2 ^ w
  end.

Lemma enc_val_range t w e pc v :
  OperandType.wf t → OperandType.width t = Some w → in_bits w e →
  OperandType.enc_val_to_op_val t e pc = Ok (Some v) → val_in t pc v.
Proof.
  intros [Hpos Hsh] Hw He E. specialize (Hpos w Hw).
  destruct t as [| width off sh signed pc_rel | |]; [by simplify_eq/= | | by simplify_eq/= ..].
  cbn in Hw. subst. rewrite OperandType.imm_enc_val_to_op_val in E by done. injection E as <-.
  eexists. split; [| done]. destruct signed; [by apply OperandType.operandtype_to_signed_range | done].
Qed.

Definition operand_types (c : loaded_class) : list (string * OperandType) :=
  (fun o => (o_name o, o_type o)) <$> yi_operands (lc_insn c).

(** The operand types of the 52 classes, in the order of [INSN_CLASSES]. *)
Definition otbn_types : list (list (string * OperandType)) :=
  Eval vm_compute in operand_types <$> otbn_classes.

Lemma otbn_types_eq : operand_types <$> otbn_classes = otbn_types.
Proof. by vm_compute. Qed.

(** Operand values whose range decoding does not restrict to what the instruction
    supports: a branch to a negative address, an unknown CSR or WSR index and a loop of
    zero iterations. *)
Definition unsupported (i : insn) : bool :=
  match i with
  | BEQ _ _ target | BNE _ _ target => target <? 0
  | CSRRS _ csr _ | CSRRW _ csr _ => negb (Csr.CSRFile.known csr)
  | BNWSRR _ wsr | BNWSRW wsr _ => 2 <? wsr
  | LOOPI iterations _ => iterations =? 0
  | _ => false
  end.

(** The constructor of a class, given operand values of the right types. *)
Definition constructs (C : insn_class) (types : list (string * OperandType)) : Prop :=
  ∀ pc m, Forall (fun '(n, t) => ∃ v, m !! n = Some v ∧ val_in t pc v) types →
    match Decode.class_init C m with
    | Ok i => valid i || unsupported i = true
    | Err e => e = DecodeError
    end.

(** Read the operands of a constructor off the hypothesis and check their ranges. *)
Ltac solve_constructs :=
  intros pc m H;
  repeat (destruct (Forall_cons_1 _ _ _ H) as [(? & ? & ?) Htl]; clear H; rename Htl into H);
  cbn [Decode.class_init val_in] in *;
  repeat match goal with H : ∃ _, _ |- _ => destruct H as (? & ? & ->) end;
  match goal with |- match ?f m with _ => _ end => unfold f end;
  unfold op_val;
  repeat match goal with H : m !! _ = Some _ |- _ => rewrite H; clear H end;
  cbn [of_option mbind res_bind];
  repeat case_match; simplify_eq; try done;
  cbn [valid unsupported]; unfold is_reg, between; try (destruct (Csr.CSRFile.known _));
  change (2 ^ 3) with 8; rewrite ?Z.add_0_r, ?Z.div_mul by lia; lia.

Lemma all_construct : Forall2 constructs INSN_CLASSES otbn_types.
Proof.
  unfold INSN_CLASSES, otbn_types.
  do 52 (apply Forall2_cons; split; [solve_constructs |]). by apply Forall2_nil.
Qed.

(** Decoding with classes whose operand types are those of OTBN. *)
Lemma typed_classes_decode file classes pc word :
  Decode.classes_ok classes → load_classes file = Some classes →
  operand_types <$> classes = otbn_types →
  ∃ i, Decode._decode_word classes pc word = Ok i ∧ valid i || unsupported i = true.
Proof.
  intros Hcs Hload Htypes.
  destruct (Decode.find_cls word (omap Decode.tuple_of classes)) as [cls |] eqn:Ef.
  - apply Decode.find_cls_iff in Ef as (Hc & e & Ee & Hm); [| done].
    destruct (Decode.decode_accepted _ _ _ pc _ Hcs Hc Ee Hm) as (m & -> & Hvals).
    destruct (Decode.co_ok _ Hcs _ Hc _ Ee) as [Hwf _ _ _ Hoperand].
    apply list_elem_of_lookup in Hc as (j & Hj).
    destruct (Decode.load_classes_init _ _ _ _ Hload Hj) as (C & HC & Hinit).
    destruct (Forall2_lookup_l _ _ _ _ _ all_construct HC) as (types & Ht & Hcon).
    rewrite <- Htypes, list_lookup_fmap, Hj in Ht. injection Ht as <-.
    assert (Hgood : Forall (fun '(n, t) => ∃ v, m !! n = Some v ∧ val_in t pc v) (operand_types cls)).
    { apply Forall_forall. intros [n t] (o & [= -> ->] & Ho)%list_elem_of_fmap.
      destruct (Hoperand o Ho) as (Hwt & k & f & Hf & Hv & Hw).
      destruct (Hvals o k f Ho Hf Hv) as (v & Hv' & Ev). exists v. split; [done |].
      eapply enc_val_range; [done | done | | done]. by eapply Encoding.decode_in_bits, Encoding.wf_field. }
    specialize (Hcon pc m Hgood). rewrite <- Hinit in Hcon. unfold Decode.build.
    destruct (lc_init cls m) as [i | e']; [by exists i |]. subst. by exists (IllegalInsn word).
  - exists (IllegalInsn word). split; [| done]. apply Decode.decode_rejected; [done |].
    intros c e Hc Ee Hm.
    assert (Hfind : Decode.find_cls word (omap Decode.tuple_of classes) = Some c)
      by (apply Decode.find_cls_iff; eauto).
    congruence.
Qed.

(** C16: With the OTBN instruction set every instruction word, at every address, decodes
    without an exception, to an illegal instruction, to an instruction whose operands are in
    the ranges that it needs to execute safely, or to one of the four cases of [unsupported]:
    a branch to a negative address, a CSR or WSR access with an unknown index, and a LOOPI of
    zero iterations. *)
Theorem every_word_decodes pc word :
  ∃ i, Decode._decode_word otbn_classes pc word = Ok i ∧ valid i || unsupported i = true.
Proof.
  exact (typed_classes_decode _ _ pc word otbn_classes_ok otbn_classes_load otbn_types_eq).
Qed.
