(* ===== verification/EncodingProps.v ===== *)
(** Properties of bit ranges, literals, encoding schemes, encodings and operand types. *)

From Stdlib Require Import Ascii.
From S2P Require Import Prelude PyStr Yaml BitRanges BoolLiteral EncodingScheme Encoding Operand.
From S2P Require Import InsnYaml OtbnIsa Insn Decode DecodeProps.

(** * Bit ranges *)

(** For bit ranges that the parser accepts: encoding a value of the field's width
    sets only bits of the field's mask and decoding gives the value back; decoding any word
    gives a value of the field's width, and encoding that gives the bits of the word that
    are in the mask. *)
Theorem bit_ranges_roundtrip s b v raw
  (Hparse : BitRanges.from_yaml s = Ok b) (Hv : in_bits (br_width b) v) :
  (∃ w, BitRanges.encode v b = Ok w ∧ w .& br_mask b = w ∧ BitRanges.decode w b = v) ∧
  in_bits (br_width b) (BitRanges.decode raw b) ∧
  BitRanges.encode (BitRanges.decode raw b) b = Ok (raw .& br_mask b).
Proof.
  apply BitRanges.from_yaml_wf in Hparse as Hwf. pose proof Hwf as [Hd Hw Hm].
  assert (0 ≤ br_width b) by (rewrite Hw; by apply BitRanges.width_of_nonneg).
  rewrite !BitRanges.encode_eq, !BitRanges.decode_eq by done. split_and!.
  - eexists. split_and!; [done | |].
    + bitwise i. destruct (Z.testbit (br_mask b) i) eqn:Hb; [apply andb_true_r |].
      rewrite Hm in Hb. by rewrite BitRanges.enc_testbit_outside.
    + rewrite BitRanges.decode_eq, BitRanges.dec_enc, <- Hw by done. by apply mask_in_bits.
  - rewrite Hw. by apply BitRanges.dec_in_bits.
  - rewrite (BitRanges.enc_dec _ raw), Hm; [done | done |]. apply mask_in_bits.
    + by rewrite <- Hw.
    + by apply BitRanges.dec_in_bits.
Qed.

(** The immediate of a branch: four ranges of the word. *)
Definition branch_bits : BitRanges :=
  match BitRanges.from_yaml "31,7,30-25,11-8" with Ok b => b | Err _ => mkBitRanges 0 [] 0 end.

Lemma bit_ranges_roundtrip_witness :
  (∃ w, BitRanges.encode 0xffe branch_bits = Ok w ∧ w .& br_mask branch_bits = w ∧
     BitRanges.decode w branch_bits = 0xffe) ∧
  in_bits (br_width branch_bits) (BitRanges.decode 0xfe208ee3 branch_bits) ∧
  BitRanges.encode (BitRanges.decode 0xfe208ee3 branch_bits) branch_bits =
    Ok (0xfe208ee3 .& br_mask branch_bits).
Proof. apply (bit_ranges_roundtrip "31,7,30-25,11-8"); by vm_compute. Defined.

(** * Literals *)

(** A boolean literal that parses says of each bit what its text says: its width is
    the number of characters other than _ after the leading b, and the character for a bit
    is the one at that place, counted from the right. *)
Theorem literal_reads_back s b i
  (Hparse : BoolLiteral.from_string s = Ok b) (Hi : 0 ≤ i < bl_width b) :
  ∃ rest c, s = String "b" rest ∧
    let digits := BoolLiteral.digits (String.list_ascii_of_string rest) in
    bl_width b = Z.of_nat (length digits) ∧
    reverse digits !! Z.to_nat i = Some c ∧ BoolLiteral.char_for_bit i b = Ok c.
Proof.
  destruct (BoolLiteral.from_string_reads s b Hparse) as (rest & -> & (_ & _ & Hw & Hb) & _).
  destruct (lookup_lt_is_Some_2 (reverse (BoolLiteral.digits (String.list_ascii_of_string rest)))
    (Z.to_nat i)) as [c Hc]; [rewrite length_reverse; lia |].
  exists rest, c. split; [done |]. cbv zeta. split; [exact Hw |]. split; [exact Hc |].
  destruct (Hb (Z.to_nat i)) as [Hbit Hch]. rewrite Hc, Z2Nat.id in Hbit by lia.
  rewrite BoolLiteral.char_for_bit_eq by done. injection Hbit as -> ->.
  by destruct (Hch c Hc) as [-> | [-> | ->]].
Qed.

Definition small_literal : BoolLiteral := mkBoolLiteral 4 1 3.

Lemma literal_reads_back_witness :
  ∃ rest c, "b1_0x"%string = String "b" rest ∧
    let digits := BoolLiteral.digits (String.list_ascii_of_string rest) in
    bl_width small_literal = Z.of_nat (length digits) ∧
    reverse digits !! Z.to_nat 2 = Some c ∧ BoolLiteral.char_for_bit 2 small_literal = Ok c.
Proof. apply literal_reads_back; [by vm_compute | cbn; lia]. Defined.

(** * Encoding schemes *)

(** C19: Resolving an encoding scheme always terminates, circular inheritance included: the
    stack holds distinct known schemes, so one call for each and one more are enough. *)
Theorem resolve_terminates self name fuel (Hfuel : (length (ess_schemes self) < fuel)%nat) :
  ∃ r, EncSchemes._resolve fuel self name [] = Some r.
Proof.
  destruct (EncSchemes._resolve fuel self name []) as [r |] eqn:E; [by exists r |]. exfalso.
  revert E. apply EncSchemes._resolve_total; [constructor | by intros ? ?%elem_of_nil | cbn; lia].
Qed.

(** Two schemes that inherit from each other. *)
Definition circular_yml : yaml :=
  ydict [("a", ydict [("parents", YList [YStr "b"])]); ("b", ydict [("parents", YList [YStr "a"])])]%string.
Definition circular : EncSchemes :=
  match EncSchemes.init circular_yml with Ok s => s | Err _ => mkEncSchemes [] [] end.

Lemma resolve_terminates_witness :
  (∃ r, EncSchemes._resolve 3 circular "a" [] = Some r) ∧
  EncSchemes._resolve 3 circular "a" [] = Some (Err RuntimeError).
Proof. split; [apply resolve_terminates; apply (bool_decide_unpack _); by vm_compute | by vm_compute]. Defined.

(** C18: A scheme that resolves partitions the instruction word: its fields have distinct
    names, no two of them share a bit, together they cover all 32 bits, each literal is as
    wide as its field, and the operand fields are exactly those without a literal. *)
Theorem resolve_partitions yml self name r
  (Hinit : EncSchemes.init yml = Ok self)
  (Hres : EncSchemes.resolve self name = Some (Ok r)) :
  NoDup (esf_fields r).*1 ∧
  (∀ k1 f1 k2 f2, (k1, f1) ∈ esf_fields r → (k2, f2) ∈ esf_fields r → k1 ≠ k2 →
     br_mask (sf_bits f1) .& br_mask (sf_bits f2) = 0) ∧
  (∀ i, 0 ≤ i < 32 → ∃ k f, (k, f) ∈ esf_fields r ∧ Z.testbit (br_mask (sf_bits f)) i = true) ∧
  (∀ k f lit, (k, f) ∈ esf_fields r → sf_value f = Some lit →
     bl_width lit = br_width (sf_bits f)) ∧
  (∀ k, k ∈ esf_op_fields r ↔ ∃ f, (k, f) ∈ esf_fields r ∧ sf_value f = None).
Proof.
  destruct (EncSchemes.resolve_ok self name r (EncSchemes.encschemes_init_ok _ _ Hinit) Hres)
    as [[Hn Hok Hap Hm Hops] Hall].
  split_and!; [done | done | | | done].
  - intros i Hi. apply (Hm i ltac:(lia)). by apply Hall.
  - intros k f lit Hf Hv. destruct (Hok k f Hf) as [_ Hl]. by destruct (Hl lit Hv).
Qed.

Definition otbn_schemes : EncSchemes :=
  match EncSchemes.init enc_schemes_yml with Ok s => s | Err _ => mkEncSchemes [] [] end.
Definition bnaf_fields : EncSchemeFields :=
  match EncSchemes.resolve otbn_schemes "bnaf" with Some (Ok r) => r | _ => EncSchemeFields.empty end.

Lemma resolve_partitions_witness :
  NoDup (esf_fields bnaf_fields).*1 ∧
  (∀ k1 f1 k2 f2, (k1, f1) ∈ esf_fields bnaf_fields → (k2, f2) ∈ esf_fields bnaf_fields →
     k1 ≠ k2 → br_mask (sf_bits f1) .& br_mask (sf_bits f2) = 0) ∧
  (∀ i, 0 ≤ i < 32 →
     ∃ k f, (k, f) ∈ esf_fields bnaf_fields ∧ Z.testbit (br_mask (sf_bits f)) i = true) ∧
  (∀ k f lit, (k, f) ∈ esf_fields bnaf_fields → sf_value f = Some lit →
     bl_width lit = br_width (sf_bits f)) ∧
  (∀ k, k ∈ esf_op_fields bnaf_fields ↔
     ∃ f, (k, f) ∈ esf_fields bnaf_fields ∧ sf_value f = None).
Proof.
  apply (resolve_partitions enc_schemes_yml otbn_schemes "bnaf"); by vm_compute.
Defined.

(** * Encodings *)

Lemma loaded_wf schemes_yml groups file i e :
  InsnsFile.init schemes_yml groups = Ok file → i ∈ if_insns file → yi_encoding i = Some e →
  Encoding.wf e.
Proof. intros Hf Hi He. apply (fo_ok _ (file_init_ok _ _ _ Hf) _ Hi _ He). Qed.

(** For every encoding of a database that loads, the zeros and ones masks are computed,
    and a word passes the decoder's test with them exactly when every literal field of the
    word matches its literal (has its bits outside the x bits). *)
Theorem masks_characterise schemes_yml groups file i e word
  (Hfile : InsnsFile.init schemes_yml groups = Ok file)
  (Hi : i ∈ if_insns file) (He : yi_encoding i = Some e) :
  ∃ m0 m1, Encoding.get_masks e = Ok (m0, m1) ∧
    (truthy (word .& (m0 .& ~. m1)) || truthy ((~. word) .& (m1 .& ~. m0)) = false ↔
     ∀ k f lit, (k, f) ∈ e_fields e → ef_value f = Literal lit →
       BoolLiteral.matches (BitRanges.decode word (sf_bits (ef_scheme_field f))) lit = true).
Proof.
  pose proof (loaded_wf _ _ _ _ _ Hfile Hi He) as Hwf.
  rewrite Encoding.get_masks_ok by done. eexists _, _. split; [done |].
  by apply Decode.test_passes.
Qed.

Lemma class_insn_elem j : (j < 52)%nat → lc_insn (class_at j) ∈ if_insns otbn_file.
Proof.
  intros Hj%class_at_elem. pose proof otbn_classes_load as Hl. apply mapM_Some in Hl.
  apply list_elem_of_lookup in Hj as (n & Hn). destruct (Forall2_lookup_r _ _ _ _ _ Hl Hn) as (C & _ & Ec).
  apply (Decode.load_class_inv otbn_file C); [| done]. eapply file_init_ok, otbn_file_loads.
Qed.

Lemma masks_characterise_witness :
  ∃ m0 m1, Encoding.get_masks (encoding_at 25) = Ok (m0, m1) ∧
    (truthy (0x0010007b .& (m0 .& ~. m1)) || truthy ((~. 0x0010007b) .& (m1 .& ~. m0)) = false ↔
     ∀ k f lit, (k, f) ∈ e_fields (encoding_at 25) → ef_value f = Literal lit →
       BoolLiteral.matches (BitRanges.decode 0x0010007b (sf_bits (ef_scheme_field f))) lit = true).
Proof.
  apply (masks_characterise (Some enc_schemes_yml) [base_insns_yml; bignum_insns_yml] otbn_file
    (lc_insn (class_at 25))).
  - exact otbn_file_loads.
  - apply class_insn_elem. lia.
  - by vm_compute.
Defined.

(** A word that an encoding accepts is determined by its operands: assembling the
    operand values extracted from it gives the word back, with the don't-care bits of the
    encoding cleared. *)
Theorem extract_assemble schemes_yml groups file i e word
  (Hfile : InsnsFile.init schemes_yml groups = Ok file)
  (Hi : i ∈ if_insns file) (He : yi_encoding i = Some e) (Hword : in_bits 32 word)
  (Hm : ∀ k f lit, (k, f) ∈ e_fields e → ef_value f = Literal lit →
     BoolLiteral.matches (BitRanges.decode word (sf_bits (ef_scheme_field f))) lit = true) :
  ∃ xs, Encoding.assemble e (Encoding.extract_operands e word) = Ok (word .& ~. xs) ∧
    ∀ b, 0 ≤ b → Z.testbit xs b = true → ∃ k f lit v, (k, f) ∈ e_fields e ∧
      ef_value f = Literal lit ∧ BitRanges.encode (bl_xs lit) (sf_bits (ef_scheme_field f)) = Ok v ∧
      Z.testbit v b = true.
Proof.
  pose proof (loaded_wf _ _ _ _ _ Hfile Hi He) as Hwf.
  exists (Encoding.gather e Encoding.x_part). split; [by apply Encoding.reassemble |].
  intros b Hb (z & (f & -> & ([k f'] & -> & Hin)%list_elem_of_fmap)%list_elem_of_fmap & Hz)%Encoding.testbit_lor_all.
  cbn in Hz. unfold Encoding.x_part in Hz. destruct (ef_value f') as [lit |] eqn:Hv; [| by rewrite Z.bits_0 in Hz].
  exists k, f', lit. rewrite BitRanges.encode_eq; [by eauto |].
  destruct (Encoding.wf_field _ Hwf _ _ Hin). done.
Qed.

(** The test that the literal fields of a word match, as a computation. *)
Definition literals_matchb (e : Encoding) (word : Z) : bool :=
  forallb (fun '(_, f) =>
    match ef_value f with
    | Literal lit => BoolLiteral.matches (BitRanges.decode word (sf_bits (ef_scheme_field f))) lit
    | OpName _ => true
    end) (e_fields e).

Lemma literals_matchb_sound e word :
  literals_matchb e word = true → Encoding.literals_match e word.
Proof.
  unfold literals_matchb. rewrite forallb_forall. intros H k f lit Hf Hv.
  specialize (H (k, f) (proj1 (list_elem_of_In _ _) Hf)). cbn in H. by rewrite Hv in H.
Qed.

(** LOOP x1 with a body of two instructions and all don't-care bits set. *)
Definition loop_word : Z := 0x00108ffb.

Lemma extract_assemble_witness :
  ∃ xs, Encoding.assemble (encoding_at 25) (Encoding.extract_operands (encoding_at 25) loop_word)
      = Ok (loop_word .& ~. xs) ∧
    ∀ b, 0 ≤ b → Z.testbit xs b = true → ∃ k f lit v, (k, f) ∈ e_fields (encoding_at 25) ∧
      ef_value f = Literal lit ∧ BitRanges.encode (bl_xs lit) (sf_bits (ef_scheme_field f)) = Ok v ∧
      Z.testbit v b = true.
Proof.
  apply (extract_assemble (Some enc_schemes_yml) [base_insns_yml; bignum_insns_yml] otbn_file
    (lc_insn (class_at 25))).
  - exact otbn_file_loads.
  - apply class_insn_elem. lia.
  - by vm_compute.
  - by vm_compute.
  - apply literals_matchb_sound. by vm_compute.
Defined.

Example loop_reassembles :
  Encoding.assemble (encoding_at 25) (Encoding.extract_operands (encoding_at 25) loop_word) = Ok 0x0010807b.
Proof. by vm_compute. Qed.

(** C17: No word is accepted by the encodings of two instructions of a database that loads. *)
Theorem encodings_disjoint schemes_yml groups file i1 i2 e1 e2 word
  (Hfile : InsnsFile.init schemes_yml groups = Ok file)
  (H1 : i1 ∈ if_insns file) (H2 : i2 ∈ if_insns file)
  (E1 : yi_encoding i1 = Some e1) (E2 : yi_encoding i2 = Some e2)
  (M1 : Encoding.literals_match e1 word) (M2 : Encoding.literals_match e2 word) :
  i1 = i2.
Proof.
  pose proof (file_init_ok _ _ _ Hfile) as Hf.
  assert (yi_mnemonic i1 = yi_mnemonic i2) as Hm.
  { apply (unambiguous (if_insns file) _ _ e1 e2 word); try done.
    - apply (fo_ok _ Hf).
    - by apply file_mnemonics.
    - apply (fo_amb _ Hf). }
  apply list_elem_of_lookup in H1 as (j1 & H1). apply list_elem_of_lookup in H2 as (j2 & H2).
  assert (j1 = j2) as ->; [| congruence].
  apply (NoDup_lookup _ j1 j2 (yi_mnemonic i1) (file_mnemonics _ Hf)).
  - by rewrite list_lookup_fmap, H1.
  - by rewrite list_lookup_fmap, H2, Hm.
Qed.

Lemma encodings_disjoint_witness : lc_insn (class_at 25) = lc_insn (class_at 25).
Proof.
  apply (encodings_disjoint (Some enc_schemes_yml) [base_insns_yml; bignum_insns_yml] otbn_file
    _ _ (encoding_at 25) (encoding_at 25) loop_word).
  - exact otbn_file_loads.
  - apply class_insn_elem. lia.
  - apply class_insn_elem. lia.
  - by vm_compute.
  - by vm_compute.
  - apply literals_matchb_sound. by vm_compute.
  - apply literals_matchb_sound. by vm_compute.
Defined.

(** * Operand types *)

(** C20: For an operand type that the parser makes for a field: encoding a value either is
    refused or gives a value of the field's width that decodes to the same value, and every
    value of the field's width decodes to a value that encodes to it. *)
Theorem operand_roundtrip type_name pc_rel name field t pc v e
  (Hmake : OperandType.make_operand_type type_name pc_rel name (Some field) = Ok t)
  (He : in_bits (br_width (sf_bits field)) e) :
  (∀ ev, OperandType.op_val_to_enc_val t v (Some pc) = Ok (Some ev) →
     in_bits (br_width (sf_bits field)) ev ∧ OperandType.enc_val_to_op_val t ev pc = Ok (Some v)) ∧
  (∃ ov, OperandType.enc_val_to_op_val t e pc = Ok (Some ov) ∧
     OperandType.op_val_to_enc_val t ov (Some pc) = Ok (Some e)).
Proof.
  destruct (OperandType.make_operand_type_ok _ _ _ _ _ Hmake) as [Hwf Hw].
  specialize (Hw field eq_refl). split.
  - intros ev Hev. by eapply OperandType.enc_then_dec.
  - by eapply OperandType.dec_then_enc.
Qed.

Definition branch_field : EncSchemeField := mkEncSchemeField branch_bits None.
Definition branch_type : OperandType := ImmOperandType (Some 12) 0 1 true true.

Lemma operand_roundtrip_witness :
  (∀ ev, OperandType.op_val_to_enc_val branch_type 4 (Some 8) = Ok (Some ev) →
     in_bits 12 ev ∧ OperandType.enc_val_to_op_val branch_type ev 8 = Ok (Some 4)) ∧
  (∃ ov, OperandType.enc_val_to_op_val branch_type 0xffe 8 = Ok (Some ov) ∧
     OperandType.op_val_to_enc_val branch_type ov (Some 8) = Ok (Some 0xffe)).
Proof.
  apply (operand_roundtrip (Some "simm<<1"%string) true "offset" branch_field); by vm_compute.
Defined.

(** The range the documentation gives for an immediate operand is exact: a value can be
    encoded if and only if it lies in that range and its distance from the base (the
    program counter for a relative operand) is a multiple of the step. *)
Theorem immediate_range width enc_offset shift signed pc_rel w pc v
  (Hmake : OperandType.imm_init width enc_offset shift signed pc_rel =
     Ok (ImmOperandType width enc_offset shift signed pc_rel))
  (Hw : width = Some w) :
  let t := ImmOperandType width enc_offset shift signed pc_rel in
  let base := if (pc_rel : bool) then pc else 0 in
  ∃ lo hi, OperandType.get_op_val_range t pc = Ok (Some (lo, hi)) ∧
    ((∃ e, OperandType.op_val_to_enc_val t v (Some pc) = Ok (Some e)) ↔
     lo ≤ v ≤ hi ∧ (v - base) `mod` 2 ^ shift = 0).
Proof.
  intros t base. eapply OperandType.imm_range; [done | | done].
  unfold OperandType.imm_init, OperandType.check_width in Hmake. inv_ok.
  match goal with H : (0 <=? shift) = true |- _ => apply Z.leb_le in H end.
  split; [| done]. cbn. intros w' Hw'. simplify_eq. by apply Z.ltb_lt.
Qed.

Lemma immediate_range_witness :
  let t := ImmOperandType (Some 12) 0 1 true true in
  ∃ lo hi, OperandType.get_op_val_range t 8 = Ok (Some (lo, hi)) ∧
    ((∃ e, OperandType.op_val_to_enc_val t 4 (Some 8) = Ok (Some e)) ↔
     lo ≤ 4 ≤ hi ∧ (4 - 8) `mod` 2 ^ 1 = 0).
Proof. apply (immediate_range (Some 12) 0 1 true true 12 8 4); done. Defined.
