(* ===== verification/RomMem.v ===== *)
(** Memory images of the ROM tools (rom_ctrl/util/mem.py): chunks of words, flattening with
    random padding, the ECC bits, and the loading of ELF segments.  Text input and output
    (VMEM files) is in [Vmem]. *)

From S2P Require Import Prelude BitLoops PyList Secded SecdedCode.

Definition red_xor32 (word : Z) : Z :=
  let word := (word .& 0xffff) .^ (word ≫ 16) in
  let word := (word .& 0xff) .^ (word ≫ 8) in
  let word := (word .& 0xf) .^ (word ≫ 4) in
  let word := (word .& 0x3) .^ (word ≫ 2) in
  (word .& 0x1) .^ (word ≫ 1).

Definition add_ecc32 (word : Z) (bitmasks : list Z) : res Z :=
  py_assert (fits 32 word);;
  py_assert (Z.of_nat (length bitmasks) =? 7);;
  Ok (foldl (fun ret '(idx, bitmask) => ret .| (red_xor32 (word .^ bitmask) ≪ (32 + Z.of_nat idx)))
        word (imap pair bitmasks)).

Record MemChunk := mkChunk { mc_base_addr : Z; mc_words : list Z }.
Record MemFile := mkMemFile { mf_width : Z; mf_chunks : list MemChunk }.

Module MemChunk.
(** The address directly above the chunk. *)
Definition next_addr (c : MemChunk) : Z := mc_base_addr c + Z.of_nat (length (mc_words c)).

Section ecc.
Context (shuffle : nat → list code → list code) (fuel : nat).

(** [None] when the search for a Hsiao code runs out of fuel. *)
Definition add_ecc32 (c : MemChunk) : res (option MemChunk) :=
  codes ← gen_code shuffle fuel "hsiao" 32 7;
  match codes with
  | None => Ok None
  | Some codes =>
      bitmasks ← calc_bitmasks 32 7 codes false;
      words ← mapR (fun w => add_ecc32 w bitmasks) (mc_words c);
      Ok (Some (mkChunk (mc_base_addr c) words))
  end.
End ecc.
End MemChunk.

Module MemFile.
Definition next_addr (f : MemFile) : Z :=
  match last (mf_chunks f) with None => 0 | Some c => MemChunk.next_addr c end.

(** ** Flattening

    [getrandbits n] is the result of call number [n] of [random.getrandbits(32)] after the
    generator was seeded. *)

Section flatten.
Context (getrandbits : nat → Z).

(** [count] random words, from call number [n] on. *)
Definition padding (n : nat) (count : Z) : list Z :=
  (fun i => getrandbits (n + Z.to_nat i)%nat) <$> seqZ 0 count.

(** One chunk: the accumulator and the number of random words drawn so far. *)
Definition add_chunk (st : MemChunk * nat) (chunk : MemChunk) : res (MemChunk * nat) :=
  let '(acc, drawn) := st in
  let acc_end := MemChunk.next_addr acc in
  py_assert (acc_end <=? mc_base_addr chunk);;
  let padding_len := mc_base_addr chunk - acc_end in
  let acc := mkChunk (mc_base_addr acc) (mc_words acc ++ padding drawn padding_len) in
  py_assert (MemChunk.next_addr acc =? mc_base_addr chunk);;
  Ok (mkChunk (mc_base_addr acc) (mc_words acc ++ mc_words chunk),
      (drawn + Z.to_nat padding_len)%nat).

Definition flatten (size : Z) (f : MemFile) : res MemFile :=
  py_assert (next_addr f <=? size);;
  '(acc, drawn) ← foldM add_chunk (mkChunk 0 [], 0%nat) (mf_chunks f);
  let acc_end := MemChunk.next_addr acc in
  py_assert (acc_end =? next_addr f);;
  let padding_len := size - acc_end in
  let acc := mkChunk (mc_base_addr acc) (mc_words acc ++ padding drawn padding_len) in
  py_assert (MemChunk.next_addr acc =? size);;
  Ok (mkMemFile (mf_width f) [acc]).
End flatten.

Section ecc.
Context (shuffle : nat → list code → list code) (fuel : nat).

Definition add_ecc32 (f : MemFile) : res (option MemFile) :=
  py_assert (mf_width f <=? 32);;
  chunks ← foldM (fun acc c =>
    match acc with
    | None => Ok None
    | Some acc => c' ← MemChunk.add_ecc32 shuffle fuel c; Ok (option_map (fun c => acc ++ [c]) c')
    end) (Some []) (mf_chunks f);
  Ok (option_map (mkMemFile 39) chunks).
End ecc.

(** ** Loading ELF segments

    A program header of the ELF file with its data, as pyelftools returns it. *)

Record segment := mkSegment {
  seg_type : string;
  seg_paddr : Z;
  seg_memsz : Z;
  seg_data : list Z;
}.

(** The segments to load, with the addresses of their first and last byte. *)
Definition read_segment (base_addr : Z) (segments : list (Z * Z * list Z)) (s : segment) :
    res (list (Z * Z * list Z)) :=
  if negb (String.eqb (seg_type s) "PT_LOAD") || (seg_memsz s =? 0) then Ok segments
  else
    let seg_lma := seg_paddr s - base_addr in
    let seg_top := seg_lma + seg_memsz s - 1 in
    py_assert (seg_lma <=? seg_top);;
    if seg_lma <? 0 then Err ValueError
    else Ok (segments ++ [(seg_lma, seg_top, seg_data s)]).

(** [segments.sort(key=lambda t: t[0])] *)
Definition sort_segments (l : list (Z * Z * list Z)) : list (Z * Z * list Z) := sort_by (fun t => t.1.1) l.

(** The check that no segment starts before the end of the one below. *)
Definition check_overlap (next_addr : Z) (s : Z * Z * list Z) : res Z :=
  let '(lma, top, _) := s in
  if lma <? next_addr then Err ValueError else Ok (top + 1).

(** Merging: the list of merged segments (first word, last byte, data) and the index of the
    first word above the last one. *)
Definition merge_segment (st : list (Z * Z * list Z) * Z) (s : Z * Z * list Z) :
    res (list (Z * Z * list Z) * Z) :=
  let '(merged, next_word) := st in
  let '(lma, top, data) := s in
  let lma_word := lma / 4 in
  py_assert (next_word <=? lma_word);;
  let next_word' := 1 + top / 4 in
  match last merged with
  | Some (last_lma_word, last_top, last_data) =>
      if next_word =? lma_word then
        last_data ←
          (if last_top <? lma then
             py_assert (lma - (last_top + 1) <=? 6);;
             Ok (last_data ++ replicate (Z.to_nat (lma - (last_top + 1))) 0)
           else Ok last_data);
        Ok (removelast merged ++ [(last_lma_word, top, last_data ++ data)], next_word')
      else Ok (merged ++ [(lma_word, top, replicate (Z.to_nat (lma `mod` 4)) 0 ++ data)], next_word')
  | None => Ok (merged ++ [(lma_word, top, replicate (Z.to_nat (lma `mod` 4)) 0 ++ data)], next_word')
  end.

(** Little-endian words of a byte string; a partial word at the end is extended with zeros. *)
Definition add_byte (st : list Z * Z) (b : nat * Z) : list Z * Z :=
  let '(words, word) := st in
  let '(idx, byte) := b in
  let shift := 8 * (Z.of_nat idx `mod` 4) in
  let word := word .| (byte ≪ shift) in
  if Z.of_nat idx `mod` 4 =? 3 then (words ++ [word], 0) else (words, word).

(** The words of a merged segment.  [last_idx] is the value the loop variable has before the
    loop: unbound for the first segment, else left by the segment before, which matters when
    [data] is empty. *)
Definition words_of_bytes (last_idx : option Z) (data : list Z) : res (list Z * option Z) :=
  let '(words, word) := foldl add_byte ([], 0) (imap pair data) in
  let last_idx := match data with [] => last_idx | _ => Some (Z.of_nat (length data) - 1) end in
  idx ← of_option NameError last_idx;
  Ok (if negb (idx `mod` 4 =? 3) then words ++ [word] else words, last_idx).

Definition add_words (st : list MemChunk * option Z) (s : Z * Z * list Z) :
    res (list MemChunk * option Z) :=
  let '(chunks, last_idx) := st in
  let '(lma_word, _, data) := s in
  '(words, last_idx) ← words_of_bytes last_idx data;
  Ok (chunks ++ [mkChunk lma_word words], last_idx).

Definition load_elf32 (segments : list segment) (base_addr : Z) : res MemFile :=
  segs ← foldM (read_segment base_addr) [] segments;
  let segs := sort_segments segs in
  foldM check_overlap 0 segs;;
  '(merged, _) ← foldM merge_segment ([], 0) segs;
  '(chunks, _) ← foldM add_words ([], None) merged;
  Ok (mkMemFile 32 chunks).
End MemFile.

(** ** The reduction *)

Lemma parity_fold h w :
  0 ≤ h → in_bits (2 * h) w →
  in_bits h ((w .& mask h) .^ (w ≫ h)) ∧ parity (2 * h) w = parity h ((w .& mask h) .^ (w ≫ h)).
Proof.
  intros Hh Hw. split.
  - apply in_bits_lxor; [done | by apply in_bits_mask |].
    destruct Hw as [H0 H1]. rewrite Z.shiftr_div_pow2 by done.
    replace (2 * h) with (h + h) in H1 by lia. rewrite Z.pow_add_r in H1 by lia.
    split; [apply Z.div_pos; lia | apply Z.div_lt_upper_bound; lia].
  - unfold parity. rewrite (xsum_split (2 * h) h) by lia.
    replace (2 * h - h) with h by lia. rewrite <- xsum_xorb. apply xsum_ext. intros i Hi.
    autorewrite with testbit. zbool. rewrite andb_true_r. do 2 f_equal. lia.
Qed.

Lemma red_xor32_parity w : in_bits 32 w → red_xor32 w = Z_of_bool (parity 32 w).
Proof.
  intros H32. unfold red_xor32.
  destruct (parity_fold 16 w ltac:(lia) H32) as [H16 E]. change (2 * 16) with 32 in E. rewrite E.
  change 0xffff with (mask 16). set (w16 := _ .^ (w ≫ 16)) in *. clearbody w16. clear E.
  destruct (parity_fold 8 w16 ltac:(lia) H16) as [H8 E]. change (2 * 8) with 16 in E. rewrite E.
  change 0xff with (mask 8). set (w8 := _ .^ (w16 ≫ 8)) in *. clearbody w8. clear E.
  destruct (parity_fold 4 w8 ltac:(lia) H8) as [H4 E]. change (2 * 4) with 8 in E. rewrite E.
  change 0xf with (mask 4). set (w4 := _ .^ (w8 ≫ 4)) in *. clearbody w4. clear E.
  destruct (parity_fold 2 w4 ltac:(lia) H4) as [H2 E]. change (2 * 2) with 4 in E. rewrite E.
  change 0x3 with (mask 2). set (w2 := _ .^ (w4 ≫ 2)) in *. clearbody w2. clear E.
  destruct (parity_fold 1 w2 ltac:(lia) H2) as [H1 E]. change (2 * 1) with 2 in E. rewrite E.
  change (mask 1) with 1 in *. set (w1 := _ .^ (w2 ≫ 1)) in *. clearbody w1. clear E.
  destruct H1. assert (w1 = 0 ∨ w1 = 1) as [-> | ->] by lia; reflexivity.
Qed.

(** The check bits that [add_ecc32] computes: exclusive or instead of conjunction with the
    mask, so the word enters each of them only through its own parity. *)
Lemma add_ecc32_eq w bitmasks :
  in_bits 32 w → length bitmasks = 7%nat → Forall (in_bits 32) bitmasks →
  add_ecc32 w bitmasks =
    Ok (w .| (of_bits ((fun b => xorb (parity 32 w) (parity 32 b)) <$> bitmasks) ≪ 32)).
Proof.
  intros Hw Hlen Hb. unfold add_ecc32. rewrite (proj2 (fits_spec 32 w ltac:(lia)) Hw), Hlen.
  cbn [py_assert mbind res_bind Z.of_nat]. change (_ =? 7) with true. cbn [py_assert mbind res_bind].
  f_equal. clear Hlen. induction bitmasks as [| b bs IH] using rev_ind.
  - cbn. by rewrite Z.lor_0_r.
  - apply Forall_app in Hb as [Hbs [Hb _]%Forall_cons]. rewrite imap_app, foldl_app, (IH Hbs).
    cbn [imap foldl]. rewrite Nat.add_0_r, red_xor32_parity by (apply in_bits_lxor; [lia | done | done]).
    rewrite parity_lxor, fmap_app. cbn [fmap list_fmap]. rewrite of_bits_snoc, length_fmap.
    rewrite (add_disjoint (of_bits _)) by (apply in_bits_disjoint; [lia |];
      rewrite <- (length_fmap (fun b => xorb (parity 32 w) (parity 32 b)) bs); apply of_bits_in_bits).
    rewrite Z.shiftl_lor, Z.lor_assoc, Z.shiftl_shiftl by lia. by rewrite (Z.add_comm 32).
Qed.

(** ** Flattening *)

(** The chunks are in order, from address [a] on, and do not overlap. *)
Fixpoint ordered_from (a : Z) (cs : list MemChunk) : Prop :=
  match cs with
  | [] => True
  | c :: cs => a ≤ mc_base_addr c ∧ ordered_from (MemChunk.next_addr c) cs
  end.

Section flatten.
Context (getrandbits : nat → Z).

Lemma padding_length n count : length (MemFile.padding getrandbits n count) = Z.to_nat count.
Proof. unfold MemFile.padding. by rewrite length_fmap, length_seqZ. Qed.

(** The image [words] holds the chunk [c]. *)
Definition holds (words : list Z) (c : MemChunk) : Prop :=
  ∀ i w, mc_words c !! i = Some w → words !! (Z.to_nat (mc_base_addr c) + i)%nat = Some w.

Lemma holds_app words more c : holds words c → holds (words ++ more) c.
Proof. intros H i w Hi. apply lookup_app_l_Some. by apply H. Qed.

Lemma add_chunk_ok words drawn c :
  Z.of_nat (length words) ≤ mc_base_addr c →
  ∃ words', MemFile.add_chunk getrandbits (mkChunk 0 words, drawn) c =
      Ok (mkChunk 0 words', (drawn + Z.to_nat (mc_base_addr c - Z.of_nat (length words)))%nat) ∧
    Z.of_nat (length words') = MemChunk.next_addr c ∧ holds words' c ∧
    (∀ d, holds words d → holds words' d) ∧
    (∀ w, w ∈ words' → w ∈ words ∨ w ∈ mc_words c ∨ ∃ n, w = getrandbits n).
Proof.
  intros Hle. unfold MemFile.add_chunk, MemChunk.next_addr. cbn [mc_base_addr mc_words].
  rewrite !Z.add_0_l, length_app, padding_length. zbool. cbn [py_assert mbind res_bind].
  eexists. split; [done |]. rewrite !length_app, padding_length. split_and!.
  - lia.
  - intros i w Hi. rewrite lookup_app_r by (rewrite length_app, padding_length; lia).
    rewrite length_app, padding_length. rewrite <- Hi. f_equal. lia.
  - intros d Hd. by do 2 apply holds_app.
  - intros w [[Hw | Hw]%elem_of_app | Hw]%elem_of_app; [by left | | by right; left].
    right. right. unfold MemFile.padding in Hw. apply list_elem_of_fmap in Hw as (i & -> & _). by eexists.
Qed.

Lemma add_chunks_ok cs words drawn :
  ordered_from (Z.of_nat (length words)) cs →
  ∃ words' drawn', foldM (MemFile.add_chunk getrandbits) (mkChunk 0 words, drawn) cs =
      Ok (mkChunk 0 words', drawn') ∧
    Z.of_nat (length words') =
      match last cs with Some c => MemChunk.next_addr c | None => Z.of_nat (length words) end ∧
    Forall (holds words') cs ∧ (∀ d, holds words d → holds words' d) ∧
    (∀ w, w ∈ words' → w ∈ words ∨ (∃ c, c ∈ cs ∧ w ∈ mc_words c) ∨ ∃ n, w = getrandbits n).
Proof.
  revert words drawn. induction cs as [| c cs IH]; intros words drawn Hord; cbn [foldM].
  - eexists _, _. split; [done |]. split_and!; [done | constructor | done | by left].
  - destruct Hord as [Hle Hord].
    destruct (add_chunk_ok words drawn c Hle) as (words1 & E & Hlen1 & Hc & Hkeep & Hin). rewrite E.
    rewrite res_bind_Ok. rewrite <- Hlen1 in Hord.
    destruct (IH words1 (drawn + Z.to_nat (mc_base_addr c - Z.of_nat (length words)))%nat Hord) as (words2 & drawn2 & E2 & Hlen2 & Hcs & Hkeep2 & Hin2).
    eexists _, _. split; [exact E2 |]. split_and!.
    + rewrite Hlen2, last_cons. by destruct (last cs).
    + constructor; [by apply Hkeep2 | done].
    + intros d Hd. by apply Hkeep2, Hkeep.
    + intros w Hw. destruct (Hin2 w Hw) as [H | [(c' & ? & ?) | ?]].
      * destruct (Hin w H) as [? | [? | ?]]; [by left | | by right; right].
        right. left. exists c. split; [by left | done].
      * right. left. exists c'. split; [by right | done].
      * by right; right.
Qed.

Lemma flatten_ok size f :
  ordered_from 0 (mf_chunks f) → MemFile.next_addr f ≤ size →
  ∃ words, MemFile.flatten getrandbits size f = Ok (mkMemFile (mf_width f) [mkChunk 0 words]) ∧
    Z.of_nat (length words) = size ∧ Forall (holds words) (mf_chunks f) ∧
    (∀ w, w ∈ words → (∃ c, c ∈ mf_chunks f ∧ w ∈ mc_words c) ∨ ∃ n, w = getrandbits n).
Proof.
  intros Hord Hsize. unfold MemFile.flatten. zbool. cbn [py_assert mbind res_bind].
  destruct (add_chunks_ok (mf_chunks f) [] 0 Hord) as (words & drawn & -> & Hlen & Hh & _ & Hin).
  assert (Hn : Z.of_nat (length words) = MemFile.next_addr f) by exact Hlen.
  rewrite res_bind_Ok. unfold MemChunk.next_addr. cbn [mc_base_addr mc_words].
  rewrite !Z.add_0_l, length_app, padding_length. zbool. cbn [py_assert mbind res_bind].
  eexists. split; [done |]. split_and!.
  - rewrite length_app, padding_length. lia.
  - eapply Forall_impl; [exact Hh |]. intros c Hc. by apply holds_app.
  - intros w [Hw | Hw]%elem_of_app.
    + destruct (Hin w Hw) as [H | [? | ?]]; [by apply elem_of_nil in H | by left | by right].
    + right. unfold MemFile.padding in Hw. apply list_elem_of_fmap in Hw as (i & -> & _). by eexists.
Qed.
End flatten.
