(* ===== verification/Vmem.v ===== *)
(** VMEM files (rom_ctrl/util/mem.py): writing a memory image as text and reading it back.
    A file is the list of its lines; the C preprocessor that [load_vmem] runs first only
    strips comments, which [write_vmem] does not produce. *)

From Stdlib Require Import Ascii.
From S2P Require Import Prelude BitLoops PyList PyStr RomMem.

(** ** [format(n, '0wX')] *)

Definition hex_char (d : Z) : ascii :=
  ascii_of_nat (Z.to_nat (if d <? 10 then 48 + d else 55 + d)).

(** The digits of a number that is not negative, without leading zeros. *)
Fixpoint hex_digits (fuel : nat) (n : Z) (rest : string) : string :=
  match fuel with
  | O => rest
  | S fuel =>
      let rest := String (hex_char (n `mod` 16)) rest in
      if n / 16 =? 0 then rest else hex_digits fuel (n / 16) rest
  end.

Definition hex (n : Z) : string := hex_digits (S (Z.to_nat (Z.log2 n))) n EmptyString.

Fixpoint zeros (n : nat) (rest : string) : string :=
  match n with O => rest | S n => String "0" (zeros n rest) end.

Definition format_hex (w n : Z) : string :=
  if n <? 0 then
    let d := hex (- n) in
    String "-" (zeros (Z.to_nat (w - 1 - Z.of_nat (String.length d))) d)
  else
    let d := hex n in
    zeros (Z.to_nat (w - Z.of_nat (String.length d))) d.

(** ** Lines *)

(** [str.split()]: the maximal runs of characters that are not white space. *)
Fixpoint tokens_from (cur : string) (s : string) : list string :=
  match s with
  | EmptyString => if String.eqb cur "" then [] else [String.rev cur]
  | String c s =>
      if is_space c then
        if String.eqb cur "" then tokens_from EmptyString s
        else String.rev cur :: tokens_from EmptyString s
      else tokens_from (String c cur) s
  end.
Definition tokens (s : string) : list string := tokens_from EmptyString s.

(** [' '.join(toks)] *)
Fixpoint join_tokens (toks : list string) : string :=
  match toks with
  | [] => EmptyString
  | [t] => t
  | t :: toks => (t +:+ String " " (join_tokens toks))%string
  end.

Fixpoint all_chars (p : ascii → bool) (s : string) : bool :=
  match s with EmptyString => true | String c s => p c && all_chars p s end.

(** [[0-9a-fA-F]] *)
Definition is_hex (c : ascii) : bool :=
  match digit36 c with Some d => d <? 16 | None => false end.

(** [re.match(r'@([0-9a-fA-F]+)$', tok)] on a token, which contains no newline. *)
Definition match_addr (tok : string) : option string :=
  match tok with
  | String "@" s => if negb (String.eqb s "") && all_chars is_hex s then Some s else None
  | _ => None
  end.

(** [range(0, len, step)] for a positive step *)
Definition range_step (len step : Z) : list Z :=
  (fun i => step * i) <$> seqZ 0 ((len + step - 1) / step).

Module VmemChunk.
Definition write_line (addr_chars word_chars nwords_on_line : Z) (c : MemChunk) (start_idx : Z) :
    string :=
  let line_addr := mc_base_addr c + start_idx in
  let words := take (Z.to_nat nwords_on_line) (drop (Z.to_nat start_idx) (mc_words c)) in
  (join_tokens (String "@" (format_hex addr_chars line_addr) :: (format_hex word_chars <$> words))
   +:+ String "010" EmptyString)%string.

Definition write_vmem (width : Z) (c : MemChunk) : list string :=
  let addr_chars := Z.max 8 ((bit_length (MemChunk.next_addr c) + 3) / 4) in
  let word_chars := (width + 3) / 4 in
  let nwords_on_line := Z.max 1 ((79 - addr_chars) / (1 + word_chars)) in
  write_line addr_chars word_chars nwords_on_line c
    <$> range_step (Z.of_nat (length (mc_words c))) nwords_on_line.
End VmemChunk.

Module Vmem.
Definition write_vmem (f : MemFile) : list string :=
  mf_chunks f ≫= VmemChunk.write_vmem (mf_width f).

Definition parse_word (width : Z) (words : list Z) (word_tok : string) : res (list Z) :=
  word ← int_hex word_tok;
  if (word <? 0) || truthy (word ≫ width) then Err ValueError else Ok (words ++ [word]).

Definition _parse_line (width : Z) (line : string) : res (Z * list Z) :=
  match tokens line with
  | [] => Err AssertionError
  | tok :: toks =>
      addr ← of_option ValueError (match_addr tok);
      addr ← int_hex addr;
      words ← foldM (parse_word width) [] toks;
      Ok (addr, words)
  end.

(** One line: the finished chunks and the one being built. *)
Definition load_line (width : Z) (st : list MemChunk * option MemChunk) (line : string) :
    res (list MemChunk * option MemChunk) :=
  let '(chunks, next_chunk) := st in
  if all_chars is_space line then Ok st
  else
    '(line_addr, line_words) ← _parse_line width line;
    match line_words with
    | [] => Ok st
    | _ =>
        match next_chunk with
        | None => Ok (chunks, Some (mkChunk line_addr line_words))
        | Some c =>
            let chunk_end := MemChunk.next_addr c in
            if line_addr <? chunk_end then Err ValueError
            else if line_addr =? chunk_end then
              Ok (chunks, Some (mkChunk (mc_base_addr c) (mc_words c ++ line_words)))
            else Ok (chunks ++ [c], Some (mkChunk line_addr line_words))
        end
    end.

Definition _load_preproc (width : Z) (infile : list string) : res MemFile :=
  '(chunks, next_chunk) ← foldM (load_line width) ([], None) infile;
  Ok (mkMemFile width (chunks ++ option_list next_chunk)).
End Vmem.

(** ** Strings *)

Lemma rev_app_rev_app s a b : String.rev_app (String.rev_app s a) b = String.rev_app a (s +:+ b)%string.
Proof. revert a. induction s as [| c s IH]; intros a; cbn [String.rev_app String.append]; [done | apply IH]. Qed.

Lemma append_nil_r s : (s +:+ "")%string = s.
Proof. induction s as [| c s IH]; [done |]. change (String c (s +:+ "") = String c s)%string. by rewrite IH. Qed.

Lemma rev_rev s : String.rev (String.rev s) = s.
Proof. unfold String.rev. rewrite rev_app_rev_app. cbn. apply append_nil_r. Qed.

Lemma all_chars_rev_app p s a : all_chars p (String.rev_app s a) = all_chars p s && all_chars p a.
Proof.
  revert a. induction s as [| c s IH]; intros a; cbn [String.rev_app all_chars]; [done |].
  rewrite IH. cbn [all_chars]. by destruct (p c), (all_chars p s).
Qed.

Lemma all_chars_impl (p q : ascii → bool) s :
  (∀ c, p c = true → q c = true) → all_chars p s = true → all_chars q s = true.
Proof.
  intros H. induction s as [| c s IH]; cbn; [done |]. rewrite !andb_true_iff.
  intros [? ?]. auto.
Qed.

Definition not_space (c : ascii) : bool := negb (is_space c).

Lemma lstrip_id s : all_chars not_space s = true → lstrip s = s.
Proof.
  destruct s as [| c s]; [done |]. cbn. unfold not_space. destruct (is_space c); [done |]. done.
Qed.

Lemma strip_id s : all_chars not_space s = true → strip s = s.
Proof.
  intros H. unfold strip. rewrite (lstrip_id s) by done. rewrite lstrip_id; [apply rev_rev |].
  unfold String.rev. by rewrite all_chars_rev_app, H.
Qed.

Lemma ascii_ind_256 (P : ascii → bool) :
  forallb (fun n => P (ascii_of_nat n)) (seq 0 256) = true → ∀ c, P c = true.
Proof.
  rewrite forallb_forall. intros H c. rewrite <- (ascii_nat_embedding c).
  apply H. apply in_seq. pose proof (nat_ascii_bounded c). lia.
Qed.

Lemma hex_not_space c : is_hex c = true → not_space c = true.
Proof.
  pose proof (ascii_ind_256 (fun c => implb (is_hex c) (not_space c))) as H.
  specialize (H ltac:(by vm_compute) c). cbv beta in H. intros E. by rewrite E in H.
Qed.

(** ** Numbers *)

Lemma hex_char_digit d : 0 ≤ d < 16 → digit36 (hex_char d) = Some d ∧ is_hex (hex_char d) = true ∧
  Ascii.eqb (hex_char d) "_" = false.
Proof.
  intros Hd. assert (Hin : d ∈ seqZ 0 16) by (apply elem_of_seqZ; lia).
  change (seqZ 0 16) with [0; 1; 2; 3; 4; 5; 6; 7; 8; 9; 10; 11; 12; 13; 14; 15] in Hin.
  rewrite !elem_of_cons, elem_of_nil in Hin. destruct_or! Hin; subst; done.
Qed.

Lemma int_digit b acc d rest :
  0 ≤ d < 16 → int_digits 16 b acc (String (hex_char d) rest) = int_digits 16 Digit (acc * 16 + d) rest.
Proof.
  intros Hd. destruct (hex_char_digit d Hd) as (E & _ & E').
  cbn [int_digits]. rewrite E', E. by zbool.
Qed.

Lemma int_hex_digits fuel n rest b acc :
  (0 < fuel)%nat → 0 ≤ n < 16 ^ Z.of_nat fuel →
  ∃ len, 0 ≤ len ∧
    int_digits 16 b acc (hex_digits fuel n rest) = int_digits 16 Digit (acc * 16 ^ len + n) rest.
Proof.
  revert n rest b acc. induction fuel as [| fuel IH]; intros n rest b acc Hf Hn; [lia |].
  pose proof (Z.mod_pos_bound n 16 ltac:(lia)). pose proof (Z.div_mod n 16 ltac:(lia)).
  cbn [hex_digits]. destruct (Z.eqb_spec (n / 16) 0).
  - exists 1. split; [done |]. rewrite int_digit by lia. f_equal. lia.
  - assert (0 ≤ n / 16 < 16 ^ Z.of_nat fuel).
    { rewrite Nat2Z.inj_succ, Z.pow_succ_r in Hn by lia.
      split; [apply Z.div_pos | apply Z.div_lt_upper_bound]; lia. }
    destruct fuel as [| fuel]; [cbn in *; lia |].
    destruct (IH (n / 16) (String (hex_char (n `mod` 16)) rest) b acc) as (len & Hlen & E); [lia | done |].
    exists (len + 1). split; [lia |]. rewrite E, int_digit by lia. f_equal.
    rewrite Z.pow_add_r by lia. lia.
Qed.

Lemma hex_digits_hex fuel n rest :
  0 ≤ n → all_chars is_hex rest = true → all_chars is_hex (hex_digits fuel n rest) = true.
Proof.
  revert n rest. induction fuel as [| fuel IH]; intros n rest Hn Hr; cbn [hex_digits]; [done |].
  pose proof (Z.mod_pos_bound n 16 ltac:(lia)).
  destruct (hex_char_digit (n `mod` 16)) as (_ & Hh & _); [done |].
  assert (all_chars is_hex (String (hex_char (n `mod` 16)) rest) = true) by (cbn; by rewrite Hh).
  destruct (n / 16 =? 0); [done |]. apply IH; [apply Z.div_pos; lia | done].
Qed.

Lemma hex_digits_keep fuel n s : s ≠ ""%string → hex_digits fuel n s ≠ ""%string.
Proof.
  revert n s. induction fuel as [| fuel IH]; intros n s Hs; cbn [hex_digits]; [done |].
  destruct (n / 16 =? 0); [done |]. by apply IH.
Qed.

Lemma hex_nonempty n : hex n ≠ ""%string.
Proof. unfold hex. cbn [hex_digits]. destruct (n / 16 =? 0); [done | by apply hex_digits_keep]. Qed.

Lemma int_zeros n b s :
  int_digits 16 b 0 (zeros n s) = int_digits 16 (match n with O => b | S _ => Digit end) 0 s.
Proof.
  revert b. induction n as [| n IH]; intros b; [done |].
  cbn [zeros]. change (String "0" (zeros n s)) with (String (hex_char 0) (zeros n s)).
  rewrite int_digit, IH by lia. by destruct n.
Qed.

Lemma zeros_hex n s : all_chars is_hex s = true → all_chars is_hex (zeros n s) = true.
Proof. intros Hs. induction n; done. Qed.

Lemma zeros_nonempty n s : s ≠ ""%string → zeros n s ≠ ""%string.
Proof. by destruct n. Qed.

Lemma hex_unsigned_plain s :
  all_chars is_hex s = true → int_hex_unsigned s = int_digits 16 Nothing 0 s.
Proof.
  intros H. unfold int_hex_unsigned.
  repeat (case_match; try done). subst. cbn in H. exfalso.
  match goal with E : _ || _ = true |- _ => apply orb_true_iff in E as [E | E]; apply Ascii.eqb_eq in E; subst end;
    done.
Qed.

Lemma int_hex_plain s :
  s ≠ ""%string → all_chars is_hex s = true → int_hex s = of_option ValueError (int_digits 16 Nothing 0 s).
Proof.
  intros Hne H. unfold int_hex. rewrite strip_id by (eapply all_chars_impl; [apply hex_not_space | done]).
  f_equal. destruct s as [| c s]; [done |].
  destruct (Ascii.eqb_spec c "-"); [by subst |]. destruct (Ascii.eqb_spec c "+"); [by subst |].
  rewrite <- hex_unsigned_plain by done. by repeat case_match.
Qed.

(** What [format] writes: hexadecimal digits that [int] reads back. *)
Lemma format_hex_ok w n :
  0 ≤ n → format_hex w n ≠ ""%string ∧ all_chars is_hex (format_hex w n) = true ∧
    int_hex (format_hex w n) = Ok n.
Proof.
  intros Hn. unfold format_hex. zbool. set (z := Z.to_nat _). clearbody z.
  assert (Hh : all_chars is_hex (hex n) = true) by (by apply hex_digits_hex).
  split_and!; [by apply zeros_nonempty, hex_nonempty | by apply zeros_hex |].
  rewrite int_hex_plain by (apply zeros_nonempty, hex_nonempty || by apply zeros_hex).
  rewrite int_zeros. unfold hex.
  destruct (int_hex_digits (S (Z.to_nat (Z.log2 n))) n "" (match z with O => Nothing | S _ => Digit end) 0)
    as (len & _ & E); [lia | | by rewrite E].
  split; [done |]. destruct (decide (n = 0)) as [-> |]; [done |].
  pose proof (Z.log2_spec n ltac:(lia)) as [_ Hlt]. pose proof (Z.log2_nonneg n).
  rewrite Nat2Z.inj_succ, Z2Nat.id by done. etrans; [exact Hlt |].
  apply Z.pow_lt_mono_l; [lia | lia].
Qed.

(** ** Tokens *)

Lemma tokens_from_token cur t s :
  all_chars not_space t = true →
  tokens_from cur (t +:+ s)%string = tokens_from (String.rev_app t cur) s.
Proof.
  revert cur. induction t as [| c t IH]; intros cur Ht; [done |].
  cbn in Ht. apply andb_true_iff in Ht as [Hc Ht]. unfold not_space in Hc.
  change (tokens_from cur (String c (t +:+ s)) = tokens_from (String.rev_app t (String c cur)) s)%string.
  cbn [tokens_from]. apply negb_true_iff in Hc. rewrite Hc. by apply IH.
Qed.

Lemma rev_app_nonempty t a : t ≠ ""%string → String.rev_app t a ≠ ""%string.
Proof.
  intros Ht E. assert (Hl : all_chars (fun _ => false) (String.rev_app t a) = true) by (by rewrite E).
  rewrite all_chars_rev_app in Hl. by destruct t.
Qed.

Lemma tokens_end t c s :
  t ≠ ""%string → all_chars not_space t = true → is_space c = true →
  tokens (t +:+ String c s)%string = t :: tokens s.
Proof.
  intros Hne Ht Hc. unfold tokens. rewrite tokens_from_token by done. cbn [tokens_from].
  rewrite Hc. destruct (String.eqb_spec (String.rev_app t "") ""%string) as [E |].
  - by apply rev_app_nonempty in E.
  - by rewrite (rev_rev t : String.rev (String.rev_app t "") = t).
Qed.

Lemma append_assoc a b c : ((a +:+ b) +:+ c)%string = (a +:+ (b +:+ c))%string.
Proof. induction a as [| x a IH]; [done |]. change (String x ((a +:+ b) +:+ c) = String x (a +:+ (b +:+ c)))%string. by rewrite IH. Qed.

Lemma tokens_join toks :
  Forall (fun t => t ≠ ""%string ∧ all_chars not_space t = true) toks →
  tokens (join_tokens toks +:+ String "010" "")%string = toks.
Proof.
  induction 1 as [| t toks [Hne Ht] Hf IH]; [done |].
  destruct toks as [| t' toks].
  - cbn [join_tokens]. by apply tokens_end.
  - change (join_tokens (t :: t' :: toks)) with (t +:+ String " " (join_tokens (t' :: toks)))%string.
    rewrite append_assoc. etrans; [by apply (tokens_end t " ") |]. f_equal. exact IH.
Qed.

(** ** Reading back what was written *)

Section roundtrip.
Context (width : Z) (Hwidth : 0 ≤ width).

Lemma parse_word_ok word_chars w acc :
  in_bits width w → Vmem.parse_word width acc (format_hex word_chars w) = Ok (acc ++ [w]).
Proof.
  intros [H0 H1]. unfold Vmem.parse_word. destruct (format_hex_ok word_chars w H0) as (_ & _ & E).
  rewrite E, res_bind_Ok. zbool. by rewrite Z.shiftr_div_pow2, Z.div_small by lia.
Qed.

Lemma parse_words word_chars ws acc :
  Forall (in_bits width) ws →
  foldM (Vmem.parse_word width) acc (format_hex word_chars <$> ws) = Ok (acc ++ ws).
Proof.
  intros Hws. revert acc. induction Hws as [| w ws Hw Hws IH]; intros acc; cbn [fmap list_fmap foldM].
  - by rewrite app_nil_r.
  - rewrite parse_word_ok, res_bind_Ok, IH by done. by rewrite <- app_assoc.
Qed.

Lemma format_token w n : 0 ≤ n → format_hex w n ≠ ""%string ∧ all_chars not_space (format_hex w n) = true.
Proof.
  intros Hn. destruct (format_hex_ok w n Hn) as (? & Hh & _). split; [done |].
  eapply all_chars_impl; [apply hex_not_space | done].
Qed.

Lemma parse_written ac wc n c start :
  0 ≤ mc_base_addr c → 0 ≤ start → Forall (in_bits width) (mc_words c) →
  Vmem._parse_line width (VmemChunk.write_line ac wc n c start) =
    Ok (mc_base_addr c + start, take (Z.to_nat n) (drop (Z.to_nat start) (mc_words c))).
Proof.
  intros Hb Hs Hw. unfold Vmem._parse_line, VmemChunk.write_line.
  assert (Hw' : Forall (in_bits width) (take (Z.to_nat n) (drop (Z.to_nat start) (mc_words c))))
    by (by apply Forall_take, Forall_drop).
  rewrite tokens_join.
  - cbn [match_addr]. destruct (format_hex_ok ac (mc_base_addr c + start)) as (Hne & Hh & E); [lia |].
    rewrite (proj2 (String.eqb_neq _ _) Hne), Hh. cbn [negb andb of_option].
    rewrite res_bind_Ok, E, res_bind_Ok, parse_words by done. done.
  - constructor.
    + split; [done |]. cbn [all_chars]. rewrite (proj2 (format_token ac (mc_base_addr c + start) ltac:(lia))).
      done.
    + apply Forall_fmap. eapply Forall_impl; [exact Hw' |]. intros w [? _]. by apply format_token.
Qed.

Lemma line_not_blank ac wc n c start : all_chars is_space (VmemChunk.write_line ac wc n c start) = false.
Proof. unfold VmemChunk.write_line. by destruct (format_hex wc <$> _). Qed.

(** The chunks read so far and the one being read stay below [a]. *)
Definition below (a : Z) (prev : option MemChunk) : Prop :=
  match prev with None => True | Some p => MemChunk.next_addr p < a end.

Lemma load_chunk ac wc (n : nat) c chunks prev (j : nat) :
  (0 < n)%nat → 0 ≤ mc_base_addr c → Forall (in_bits width) (mc_words c) →
  below (mc_base_addr c) prev → (n * j < length (mc_words c) + n)%nat → (0 < j)%nat →
  foldM (Vmem.load_line width) (chunks, prev)
    (VmemChunk.write_line ac wc (Z.of_nat n) c <$> ((fun i => Z.of_nat n * i) <$> seqZ 0 (Z.of_nat j))) =
  Ok (chunks ++ option_list prev, Some (mkChunk (mc_base_addr c) (take (n * j) (mc_words c)))).
Proof.
  intros Hn Hb Hw Hprev. induction j as [| j IH]; intros Hj Hpos; [lia |].
  rewrite seqZ_S, !fmap_app, foldM_app, Z.add_0_l. cbn [fmap list_fmap].
  set (line := VmemChunk.write_line _ _ _ _ _).
  assert (Hline : Vmem._parse_line width line =
    Ok (mc_base_addr c + Z.of_nat (n * j), take n (drop (n * j) (mc_words c)))).
  { unfold line. rewrite parse_written by (done || lia). f_equal. f_equal; [lia |].
    by rewrite Nat2Z.id, <- Nat2Z.inj_mul, Nat2Z.id. }
  assert (Hblank : all_chars is_space line = false) by apply line_not_blank. clearbody line.
  assert (Hne : take n (drop (n * j) (mc_words c)) ≠ []).
  { intros E. apply (f_equal length) in E. rewrite length_take, length_drop in E. cbn in E. lia. }
  destruct j as [| j].
  - change (seqZ 0 (Z.of_nat 0)) with (@nil Z). cbn [foldM fmap list_fmap]. rewrite res_bind_Ok.
    rewrite Nat.mul_0_r, drop_0, Z.add_0_r in *. rewrite Nat.mul_1_r.
    unfold Vmem.load_line. rewrite Hblank, Hline, res_bind_Ok.
    destruct (take n (mc_words c)) as [| w ws] eqn:Et; [done |].
    destruct prev as [p |]; [| by rewrite res_bind_Ok, app_nil_r].
    cbn [below] in Hprev. zbool. by rewrite res_bind_Ok.
  - rewrite IH by lia. rewrite res_bind_Ok. cbn [foldM]. unfold Vmem.load_line at 1.
    rewrite Hblank, Hline, res_bind_Ok.
    assert (Hend : MemChunk.next_addr (mkChunk (mc_base_addr c) (take (n * S j) (mc_words c))) =
      mc_base_addr c + Z.of_nat (n * S j)).
    { unfold MemChunk.next_addr. cbn. rewrite length_take. lia. }
    destruct (take n (drop (n * S j) (mc_words c))) as [| w ws] eqn:Et; [done |].
    rewrite Hend, Z.ltb_irrefl, Z.eqb_refl. cbn [mc_base_addr mc_words]. rewrite res_bind_Ok.
    do 4 f_equal. rewrite <- Et, take_take_drop. f_equal. lia.
Qed.

Lemma load_written_chunk c chunks prev :
  0 ≤ mc_base_addr c → Forall (in_bits width) (mc_words c) → mc_words c ≠ [] →
  below (mc_base_addr c) prev →
  foldM (Vmem.load_line width) (chunks, prev) (VmemChunk.write_vmem width c) =
  Ok (chunks ++ option_list prev, Some c).
Proof.
  intros Hb Hw Hne Hprev. unfold VmemChunk.write_vmem, range_step. cbv zeta.
  set (ac := Z.max 8 _). set (wc := (width + 3) / 4). set (n := Z.max 1 _).
  assert (Hn : 1 ≤ n) by (unfold n; lia). clearbody n.
  set (len := Z.of_nat (length (mc_words c))).
  assert (Hlen : 1 ≤ len) by (unfold len; destruct (mc_words c); [done | cbn; lia]).
  set (count := (len + n - 1) / n).
  assert (Hc : n * count < len + n ∧ len ≤ n * count ∧ 1 ≤ count).
  { unfold count. pose proof (Z.mul_div_le (len + n - 1) n ltac:(lia)).
    pose proof (Z.mod_pos_bound (len + n - 1) n ltac:(lia)).
    pose proof (Z.div_mod (len + n - 1) n ltac:(lia)). split_and!; [lia | lia |].
    apply Z.div_le_lower_bound; lia. }
  clearbody count. rewrite <- (Z2Nat.id n), <- (Z2Nat.id count) by lia.
  rewrite load_chunk by (done || lia). do 3 f_equal. destruct c as [base words]. cbn in *. f_equal.
  apply take_ge. lia.
Qed.

(** A file whose chunks are not empty, in order and separated by gaps. *)
Fixpoint separated (prev : option MemChunk) (cs : list MemChunk) : Prop :=
  match cs with
  | [] => True
  | c :: cs => 0 ≤ mc_base_addr c ∧ mc_words c ≠ [] ∧ Forall (in_bits width) (mc_words c) ∧
      below (mc_base_addr c) prev ∧ separated (Some c) cs
  end.

Lemma load_written_chunks cs chunks prev :
  separated prev cs →
  ∃ chunks' prev', foldM (Vmem.load_line width) (chunks, prev) (cs ≫= VmemChunk.write_vmem width) =
    Ok (chunks', prev') ∧ chunks' ++ option_list prev' = chunks ++ option_list prev ++ cs.
Proof.
  revert chunks prev. induction cs as [| c cs IH]; intros chunks prev Hs.
  - exists chunks, prev. split; [done |]. by rewrite app_nil_r.
  - destruct Hs as (Hb & Hne & Hw & Hbelow & Hs). cbn [mbind list_bind].
    destruct (IH (chunks ++ option_list prev) (Some c) Hs) as (chunks' & prev' & E & Eq).
    exists chunks', prev'. rewrite foldM_app, load_written_chunk by done. rewrite res_bind_Ok.
    split; [exact E |]. rewrite Eq. cbn. by rewrite <- !app_assoc.
Qed.

Lemma load_written f :
  mf_width f = width → separated None (mf_chunks f) →
  Vmem._load_preproc width (Vmem.write_vmem f) = Ok f.
Proof.
  intros Hw Hs. unfold Vmem._load_preproc, Vmem.write_vmem. rewrite Hw.
  destruct (load_written_chunks (mf_chunks f) [] None Hs) as (chunks' & prev' & E & Eq).
  rewrite E, res_bind_Ok, Eq. cbn. rewrite <- Hw. by destruct f.
Qed.
End roundtrip.
