(* ===== verification/RomElf.v ===== *)
(** Loading ELF segments puts every byte at its address (rom_ctrl/util/mem.py, [load_elf32]). *)

From S2P Require Import Prelude BitLoops PyList Secded SecdedCode RomMem Vmem.

(** Byte [a] of a file of 32-bit words. *)
Definition byte_at (f : MemFile) (a b : Z) : Prop :=
  ∃ c w, c ∈ mf_chunks f ∧ mc_base_addr c ≤ a / 4 ∧
    mc_words c !! Z.to_nat (a / 4 - mc_base_addr c) = Some w ∧ limb 8 w (a `mod` 4) = b.

(** A segment that is loaded, with as many bytes of data as it takes in memory. *)
Definition loaded (s : MemFile.segment) : Prop :=
  MemFile.seg_type s = "PT_LOAD"%string ∧ MemFile.seg_memsz s ≠ 0.
Definition full (s : MemFile.segment) : Prop :=
  Z.of_nat (length (MemFile.seg_data s)) = MemFile.seg_memsz s ∧ Forall (in_bits 8) (MemFile.seg_data s).

(** ** Bytes to words *)

Lemma limb_or_high word b r j :
  0 ≤ r → in_bits (8 * r) word → in_bits 8 b → 0 ≤ j ≤ r →
  limb 8 (word .| (b ≪ (8 * r))) j = if j =? r then b else limb 8 word j.
Proof.
  intros Hr Hw Hb Hj. apply Z_bits_eq. intros i Hi. rewrite testbit_limb by lia.
  destruct (Z.ltb_spec i 8); cbn [andb].
  - autorewrite with testbit. destruct (Z.eqb_spec j r) as [-> |].
    + rewrite (testbit_in_bits (8 * r) word) by (done || lia). cbn [orb]. f_equal. lia.
    + rewrite (testbit_neg b) by lia. rewrite orb_false_r, testbit_limb by lia. by zbool.
  - destruct (j =? r); symmetry; [by apply (testbit_in_bits 8); [| lia] |].
    apply (testbit_in_bits 8); [apply limb_bits; lia | lia].
Qed.

(** The words and the partial word after the bytes [pre]. *)
Record packed (pre : list Z) (words : list Z) (word : Z) : Prop := {
  pk_length : length words = (length pre / 4)%nat;
  pk_words : Forall (in_bits 32) words;
  pk_word : in_bits (8 * (Z.of_nat (length pre) `mod` 4)) word;
  pk_bytes i b : pre !! i = Some b →
    ∃ w, (words ++ [word]) !! (i / 4)%nat = Some w ∧ limb 8 w (Z.of_nat i `mod` 4) = b;
}.

Lemma packed_nil : packed [] [] 0.
Proof. by split. Qed.

Lemma packed_snoc pre words word b :
  packed pre words word → in_bits 8 b →
  let '(words', word') := MemFile.add_byte (words, word) (length pre, b) in
  packed (pre ++ [b]) words' word'.
Proof.
  intros [Hl Hws Hw Hb] Hbyte. unfold MemFile.add_byte. set (n := length pre) in *.
  set (r := Z.of_nat n `mod` 4) in *. assert (Hr : 0 ≤ r < 4) by (apply Z.mod_pos_bound; lia).
  assert (Hn : Z.of_nat n = 4 * Z.of_nat (n / 4) + r).
  { unfold r. rewrite Nat2Z.inj_div. apply Z.div_mod. lia. }
  set (word' := word .| _).
  assert (Hw' : in_bits (8 * (r + 1)) word').
  { apply in_bits_lor; [lia | by apply (in_bits_weaken (8 * r)); [lia |] |].
    replace (8 * (r + 1)) with (8 + 8 * r) by lia. apply in_bits_shiftl; [lia | lia | done]. }
  (* every byte so far is in [words] or in [word'] *)
  assert (Hall : ∀ i x, (pre ++ [b]) !! i = Some x →
    ∃ w, (words ++ [word']) !! (i / 4)%nat = Some w ∧ limb 8 w (Z.of_nat i `mod` 4) = x).
  { intros i x Hi. apply lookup_app_Some in Hi as [Hi | [Hge Hi]].
    - pose proof (lookup_lt_Some _ _ _ Hi) as Hlt. fold n in Hlt.
      destruct (Hb i x Hi) as (w & Hlook & Hlimb).
      destruct (decide (i / 4 < n / 4)%nat) as [Hin | Hout].
      + exists w. split; [| done]. rewrite lookup_app_l in Hlook |- * by lia. done.
      + assert (Ei : (i / 4 = n / 4)%nat) by (pose proof (Nat.Div0.div_le_mono i n 4); lia).
        rewrite lookup_app_r in Hlook by lia. rewrite Ei, Hl, Nat.sub_diag in Hlook. injection Hlook as <-.
        exists word'. split; [rewrite lookup_app_r by lia; by rewrite Ei, Hl, Nat.sub_diag |].
        assert (Z.of_nat i = 4 * Z.of_nat (n / 4) + Z.of_nat i `mod` 4).
        { rewrite <- Ei, Nat2Z.inj_div. apply Z.div_mod. lia. }
        pose proof (Z.mod_pos_bound (Z.of_nat i) 4 ltac:(lia)).
        unfold word'. rewrite limb_or_high by (done || lia). by zbool.
    - apply list_lookup_singleton_Some in Hi as [Hi ->]. assert (i = n) as -> by (unfold n in *; lia).
      exists word'. split; [rewrite lookup_app_r by lia; by rewrite Hl, Nat.sub_diag |].
      fold r. unfold word'. rewrite limb_or_high by (done || lia). by rewrite Z.eqb_refl. }
  assert (Hlen : length (pre ++ [b]) = S n) by (rewrite length_app; cbn; lia).
  fold r. destruct (Z.eqb_spec r 3) as [E3 | N3].
  - assert (EQ : (S n / 4 = S (n / 4))%nat).
    { apply Nat2Z.inj. rewrite Nat2Z.inj_div, !Nat2Z.inj_succ. change (Z.of_nat 4) with 4.
      symmetry. apply (Z.div_unique _ _ _ 0); lia. }
    split.
    + rewrite Hlen, EQ, length_app, Hl. cbn [length]. lia.
    + apply Forall_app. split; [done |]. apply Forall_singleton.
      by apply (in_bits_weaken (8 * (r + 1))); [lia |].
    + rewrite Hlen. split; [done |]. apply Z.pow_pos_nonneg; [lia |].
      pose proof (Z.mod_pos_bound (Z.of_nat (S n)) 4 ltac:(lia)). lia.
    + intros i x Hi. destruct (Hall i x Hi) as (w & Hlook & ?). exists w. split; [| done].
      by apply lookup_app_l_Some.
  - assert (EQ : (S n / 4 = n / 4)%nat ∧ Z.of_nat (S n) `mod` 4 = r + 1).
    { split.
      - apply Nat2Z.inj. rewrite Nat2Z.inj_div, !Nat2Z.inj_succ. change (Z.of_nat 4) with 4.
        symmetry. apply (Z.div_unique _ _ _ (r + 1)); lia.
      - symmetry. apply (Z.mod_unique _ _ (Z.of_nat (n / 4))); lia. }
    destruct EQ as [EQ EM]. split; rewrite ?Hlen, ?EQ, ?EM; done.
Qed.

Lemma packed_all data :
  Forall (in_bits 8) data →
  let '(words, word) := foldl MemFile.add_byte ([], 0) (imap pair data) in packed data words word.
Proof.
  induction data as [| b data IH] using rev_ind; intros Hd; [apply packed_nil |].
  apply Forall_app in Hd as [Hd [Hb _]%Forall_cons]. specialize (IH Hd).
  rewrite imap_app, foldl_app. cbn [imap foldl]. rewrite Nat.add_0_r.
  destruct (foldl MemFile.add_byte ([], 0) (imap pair data)) as [words word].
  by apply packed_snoc.
Qed.

Lemma words_of_bytes_ok last_idx data :
  data ≠ [] → Forall (in_bits 8) data →
  ∃ words, MemFile.words_of_bytes last_idx data = Ok (words, Some (Z.of_nat (length data) - 1)) ∧
    Z.of_nat (length words) = (Z.of_nat (length data) + 3) / 4 ∧ Forall (in_bits 32) words ∧
    ∀ i b, data !! i = Some b → ∃ w, words !! (i / 4)%nat = Some w ∧ limb 8 w (Z.of_nat i `mod` 4) = b.
Proof.
  intros Hne Hd. unfold MemFile.words_of_bytes. pose proof (packed_all data Hd) as Hp.
  destruct (foldl MemFile.add_byte ([], 0) (imap pair data)) as [words word].
  destruct Hp as [Hl Hws Hw Hb].
  replace (match data with [] => last_idx | _ => Some (Z.of_nat (length data) - 1) end)
    with (Some (Z.of_nat (length data) - 1)) by (by destruct data).
  cbn [of_option]. rewrite res_bind_Ok.
  set (n := Z.of_nat (length data)) in *.
  assert (Hpos : 1 ≤ n) by (unfold n; destruct data; [done | cbn; lia]).
  assert (Hln : Z.of_nat (length words) = n / 4) by (rewrite Hl, Nat2Z.inj_div; done).
  pose proof (Z.mod_pos_bound n 4 ltac:(lia)). pose proof (Z.div_mod n 4 ltac:(lia)).
  assert (Hm : (n - 1) `mod` 4 = if n `mod` 4 =? 0 then 3 else n `mod` 4 - 1).
  { destruct (Z.eqb_spec (n `mod` 4) 0); symmetry.
    - apply (Z.mod_unique _ _ (n / 4 - 1)); lia.
    - apply (Z.mod_unique _ _ (n / 4)); lia. }
  assert (Hc : (n + 3) / 4 = if n `mod` 4 =? 0 then n / 4 else n / 4 + 1).
  { destruct (Z.eqb_spec (n `mod` 4) 0); symmetry.
    - apply (Z.div_unique _ _ _ 3); lia.
    - apply (Z.div_unique _ _ _ (n `mod` 4 - 1)); lia. }
  rewrite Hm, Hc. destruct (Z.eqb_spec (n `mod` 4) 0) as [E0 | N0].
  - eexists. split; [done |]. split_and!; [done | done |]. intros i b Hi.
    destruct (Hb i b Hi) as (w & Hlook & ?). exists w. split; [| done].
    pose proof (lookup_lt_Some _ _ _ Hi). rewrite lookup_app_l in Hlook; [done |].
    apply Nat2Z.inj_lt. rewrite Hln, Nat2Z.inj_div. apply Z.div_lt_upper_bound; lia.
  - rewrite (proj2 (Z.eqb_neq (n `mod` 4 - 1) 3)) by lia. cbn [negb].
    eexists. split; [done |]. split_and!; [rewrite length_app; cbn; lia | | done].
    apply Forall_app. split; [done |]. apply Forall_singleton.
    by apply (in_bits_weaken (8 * (n `mod` 4))); [lia |].
Qed.

(** ** Reading and sorting *)

(** Every pair of elements, in the order of the list, is related. *)
Fixpoint pairwise {A} (R : A → A → Prop) (l : list A) : Prop :=
  match l with
  | [] => True
  | x :: l => Forall (R x) l ∧ pairwise R l
  end.

Lemma pairwise_snoc {A} (R : A → A → Prop) l x :
  pairwise R (l ++ [x]) ↔ pairwise R l ∧ Forall (fun y => R y x) l.
Proof.
  induction l as [| y l IH]; cbn [app pairwise].
  - split; intros _; by repeat split.
  - rewrite IH, Forall_app, Forall_singleton, Forall_cons. tauto.
Qed.

(** What is known of a triple (first byte, last byte, data). *)
Definition seg_ok (s : Z * Z * list Z) : Prop :=
  0 ≤ s.1.1 ≤ s.1.2 ∧ Z.of_nat (length s.2) = s.1.2 + 1 - s.1.1 ∧ Forall (in_bits 8) s.2.

(** [s] ends in a word below the one [t] starts in. *)
Definition under (s t : Z * Z * list Z) : Prop := s.1.2 / 4 < t.1.1 / 4.

(** Two segments have no word in common. *)
Definition apart (s t : MemFile.segment) : Prop :=
  loaded s → loaded t →
  (MemFile.seg_paddr s + MemFile.seg_memsz s - 1) / 4 < MemFile.seg_paddr t / 4 ∨
  (MemFile.seg_paddr t + MemFile.seg_memsz t - 1) / 4 < MemFile.seg_paddr s / 4.

#[global] Instance loaded_dec s : Decision (loaded s).
Proof. unfold loaded. apply _. Defined.

Definition triple (base : Z) (s : MemFile.segment) : Z * Z * list Z :=
  (MemFile.seg_paddr s - base, MemFile.seg_paddr s - base + MemFile.seg_memsz s - 1, MemFile.seg_data s).

Lemma insert_segment_under s l :
  seg_ok s → Forall seg_ok l → Forall (fun t => under s t ∨ under t s) l → pairwise under l →
  pairwise under (insert_by (fun t => t.1.1) s l).
Proof.
  intros [Hs _] Hl. induction Hl as [| t l [Ht _] Hl IH]; intros Hap Hp; [done |].
  apply Forall_cons in Hap as [Hst Hap]. destruct Hp as [Htl Hp]. cbn [insert_by].
  unfold under in *. pose proof (fun a b (H : a ≤ b) => Z.div_le_mono a b 4 ltac:(lia) H) as Hmono.
  destruct (Z.ltb_spec s.1.1 t.1.1) as [Hlt | Hge].
  - assert (s.1.2 / 4 < t.1.1 / 4).
    { destruct Hst as [? | Hts]; [done |]. pose proof (Hmono s.1.1 t.1.2). lia. }
    split; [| done]. constructor; [done |]. eapply Forall_impl; [exact Htl |]. cbn. intros u Hu.
    pose proof (Hmono t.1.1 t.1.2). lia.
  - assert (t.1.2 / 4 < s.1.1 / 4).
    { destruct Hst as [Hst | ?]; [| done]. pose proof (Hmono t.1.1 s.1.2). lia. }
    split; [| by apply IH]. apply Forall_forall. intros u [-> | Hu]%insert_by_elem; [done |].
    rewrite Forall_forall in Htl. by apply Htl.
Qed.

Lemma sort_segments_ok l :
  Forall seg_ok l → pairwise (fun s t => under s t ∨ under t s) l →
  (∀ t, t ∈ MemFile.sort_segments l ↔ t ∈ l) ∧ pairwise under (MemFile.sort_segments l).
Proof.
  unfold MemFile.sort_segments, sort_by. induction l as [| s l IH] using rev_ind; intros Hok Hap.
  - by split.
  - apply Forall_app in Hok as [Hok [Hs _]%Forall_cons]. apply pairwise_snoc in Hap as [Hap Hl].
    destruct (IH Hok Hap) as [Hel Hp]. rewrite foldl_app. cbn [foldl]. split.
    + intros t. rewrite insert_by_elem, Hel, elem_of_app, list_elem_of_singleton. tauto.
    + rewrite Forall_forall in Hok, Hl. apply insert_segment_under; [done | | | done].
      * apply Forall_forall. intros t Ht. by apply Hok, Hel.
      * apply Forall_forall. intros t Ht%Hel. by apply or_comm, Hl.
Qed.

Lemma read_segment_ok base acc s :
  (loaded s → full s ∧ base ≤ MemFile.seg_paddr s) →
  MemFile.read_segment base acc s = Ok (if decide (loaded s) then acc ++ [triple base s] else acc).
Proof.
  intros Hs. unfold MemFile.read_segment. destruct (decide (loaded s)) as [Hl | Hn].
  - destruct (Hs Hl) as [[Hlen _] Hb]. destruct Hl as [Ht Hm]. rewrite Ht, String.eqb_refl.
    rewrite (proj2 (Z.eqb_neq _ _) Hm). cbn [negb orb]. by zbool.
  - destruct (String.eqb_spec (MemFile.seg_type s) "PT_LOAD"); cbn [negb orb]; [| done].
    destruct (Z.eqb_spec (MemFile.seg_memsz s) 0) as [| Hm]; [done | by destruct Hn].
Qed.

Lemma read_segments_ok base acc segs :
  Forall (fun s => loaded s → full s ∧ base ≤ MemFile.seg_paddr s) segs →
  foldM (MemFile.read_segment base) acc segs = Ok (acc ++ (triple base <$> filter loaded segs)).
Proof.
  intros Hs. revert acc. induction Hs as [| s segs Hs Hsegs IH]; intros acc; cbn [foldM].
  - by rewrite app_nil_r.
  - rewrite read_segment_ok, res_bind_Ok, IH, filter_cons by done.
    destruct (decide (loaded s)); cbn [fmap list_fmap]; [by rewrite <- app_assoc | done].
Qed.

(** ** Merging *)

(** A merged segment: first word, last byte and data. *)
Definition merged_ok (m : Z * Z * list Z) : Prop :=
  0 ≤ m.1.1 ∧ 4 * m.1.1 ≤ m.1.2 ∧ Z.of_nat (length m.2) = m.1.2 + 1 - 4 * m.1.1 ∧
  Forall (in_bits 8) m.2.

(** Byte [a] of the image is in the merged segment. *)
Definition merged_byte (m : Z * Z * list Z) (a b : Z) : Prop :=
  4 * m.1.1 ≤ a ∧ m.2 !! Z.to_nat (a - 4 * m.1.1) = Some b.

(** There is an unused word between consecutive merged segments. *)
Definition gaps (l : list (Z * Z * list Z)) : Prop :=
  ∀ k x y, l !! k = Some x → l !! S k = Some y → 1 + x.1.2 / 4 < y.1.1.

Record merge_inv (segs merged : list (Z * Z * list Z)) (next_word : Z) : Prop := {
  mi_ok : Forall merged_ok merged;
  mi_next : next_word = match last merged with None => 0 | Some m => 1 + m.1.2 / 4 end;
  mi_gaps : gaps merged;
  mi_bytes s i b : s ∈ segs → s.2 !! i = Some b →
    ∃ m, m ∈ merged ∧ merged_byte m (s.1.1 + Z.of_nat i) b;
}.

Lemma gaps_snoc l y :
  gaps l → (∀ x, last l = Some x → 1 + x.1.2 / 4 < y.1.1) → gaps (l ++ [y]).
Proof.
  intros Hg Hy k x z Hx Hz. apply lookup_app_Some in Hz as [Hz | [Hge Hz]].
  - apply (Hg k x z); [| done]. rewrite lookup_app_l in Hx; [done |]. apply lookup_lt_Some in Hz. lia.
  - apply list_lookup_singleton_Some in Hz as [Hk <-]. apply Hy. rewrite last_lookup.
    assert (Hp : pred (length l) = k) by lia. rewrite Hp. rewrite lookup_app_l in Hx by lia. done.
Qed.

Lemma gaps_replace l x y : gaps (l ++ [x]) → x.1.1 = y.1.1 → gaps (l ++ [y]).
Proof.
  intros Hg E. apply gaps_snoc.
  - intros k a b Ha Hb. apply (Hg k a b); by apply lookup_app_l_Some.
  - intros a Ha. rewrite <- E. rewrite last_lookup in Ha. pose proof (lookup_lt_Some _ _ _ Ha).
    apply (Hg (pred (length l)) a x); [by apply lookup_app_l_Some |].
    rewrite lookup_app_r by lia. by replace (S (pred (length l)) - length l)%nat with 0%nat by lia.
Qed.

(** A segment that starts a merged segment of its own, padded on the left to a word. *)
Lemma merge_push segs merged next_word s :
  merge_inv segs merged next_word → seg_ok s →
  (∀ x, last merged = Some x → 1 + x.1.2 / 4 < s.1.1 / 4) →
  merge_inv (segs ++ [s])
    (merged ++ [(s.1.1 / 4, s.1.2, replicate (Z.to_nat (s.1.1 `mod` 4)) 0 ++ s.2)]) (1 + s.1.2 / 4).
Proof.
  intros [Hok Hn Hg Hb] (Hlma & Hlen & Hbytes) Hlast. destruct s as [[lma top] data]. cbn [fst snd] in *.
  pose proof (Z.div_mod lma 4 ltac:(lia)). pose proof (Z.mod_pos_bound lma 4 ltac:(lia)).
  split.
  - apply Forall_app. split; [done |]. apply Forall_singleton. unfold merged_ok. cbn [fst snd].
    rewrite length_app, length_replicate. split_and!; [apply Z.div_pos; lia | lia | lia |].
    apply Forall_app. split; [| done]. apply Forall_replicate. done.
  - by rewrite last_snoc.
  - by apply gaps_snoc.
  - intros s i b [Hs | ->%list_elem_of_singleton]%elem_of_app Hi.
    + destruct (Hb s i b Hs Hi) as (m & Hm & ?). exists m. split; [| done]. apply elem_of_app. by left.
    + eexists. split; [apply elem_of_app; right; by apply list_elem_of_singleton |].
      split; cbn [fst snd] in *; [lia |]. rewrite lookup_app_r by (rewrite length_replicate; lia).
      rewrite length_replicate, <- Hi. f_equal. lia.
Qed.

(** A segment that starts in the word after the last merged segment: the gap is filled with
    zeros. *)
Lemma merge_bridge segs merged m next_word s :
  merge_inv segs (merged ++ [m]) next_word → seg_ok s → next_word = s.1.1 / 4 →
  m.1.2 < s.1.1 ∧ s.1.1 - (m.1.2 + 1) ≤ 6 ∧
  merge_inv (segs ++ [s])
    (merged ++ [(m.1.1, s.1.2, (m.2 ++ replicate (Z.to_nat (s.1.1 - (m.1.2 + 1))) 0) ++ s.2)])
    (1 + s.1.2 / 4).
Proof.
  intros [Hok Hn Hg Hb] (Hlma & Hlen & Hbytes) Hw. destruct s as [[lma top] data].
  rewrite last_snoc in Hn. apply Forall_app in Hok as [Hok [(Hm0 & Hm1 & Hm2 & Hm3) _]%Forall_cons].
  destruct m as [[w t] d]. cbn [fst snd] in *.
  pose proof (Z.div_mod lma 4 ltac:(lia)). pose proof (Z.mod_pos_bound lma 4 ltac:(lia)).
  pose proof (Z.div_mod t 4 ltac:(lia)). pose proof (Z.mod_pos_bound t 4 ltac:(lia)).
  split_and!; [lia | lia |]. split.
  - apply Forall_app. split; [done |]. apply Forall_singleton. unfold merged_ok. cbn [fst snd].
    rewrite !length_app, length_replicate. split_and!; [lia | lia | lia |].
    rewrite !Forall_app. split_and!; [done | by apply Forall_replicate | done].
  - by rewrite last_snoc.
  - by apply (gaps_replace _ (w, t, d)).
  - intros s i b [Hs | ->%list_elem_of_singleton]%elem_of_app Hi.
    + destruct (Hb s i b Hs Hi) as (m & [Hm | ->%list_elem_of_singleton]%elem_of_app & Hmb).
      * exists m. split; [| done]. apply elem_of_app. by left.
      * eexists. split; [apply elem_of_app; right; by apply list_elem_of_singleton |].
        destruct Hmb. split; cbn [fst snd] in *; [done |]. by do 2 apply lookup_app_l_Some.
    + eexists. split; [apply elem_of_app; right; by apply list_elem_of_singleton |].
      split; cbn [fst snd] in *; [lia |].
      rewrite lookup_app_r by (rewrite length_app, length_replicate; lia).
      rewrite length_app, length_replicate, <- Hi. f_equal. lia.
Qed.

Lemma merge_segment_ok segs merged next_word s :
  merge_inv segs merged next_word → seg_ok s → next_word ≤ s.1.1 / 4 →
  ∃ merged', MemFile.merge_segment (merged, next_word) s = Ok (merged', 1 + s.1.2 / 4) ∧
    merge_inv (segs ++ [s]) merged' (1 + s.1.2 / 4).
Proof.
  intros Hinv Hs Hle. pose proof (merge_push segs merged next_word s Hinv Hs) as Hpush.
  pose proof (mi_next _ _ _ Hinv) as Hn.
  destruct s as [[lma top] data]. unfold MemFile.merge_segment. cbn [fst snd] in *. zbool.
  cbn [py_assert]. rewrite res_bind_Ok.
  destruct merged as [| m merged _] using rev_ind.
  - cbn [last]. eexists. split; [done |]. apply Hpush. by intros ?.
  - rewrite last_snoc in Hn |- *. rewrite removelast_last.
    pose proof (merge_bridge segs merged m next_word (lma, top, data) Hinv Hs) as Hbridge.
    destruct m as [[w t] d]. cbn [fst snd] in *. destruct (Z.eqb_spec next_word (lma / 4)) as [E | N].
    + destruct (Hbridge E) as (H1 & H2 & H3). zbool. cbn [py_assert]. rewrite !res_bind_Ok. by eexists.
    + eexists. split; [done |]. apply Hpush. rewrite last_snoc. intros x [= <-]. cbn [fst snd]. lia.
Qed.

Lemma merge_segments_ok segs done merged next_word :
  merge_inv done merged next_word → Forall seg_ok segs → pairwise under segs →
  Forall (fun s => next_word ≤ s.1.1 / 4) segs →
  ∃ merged' next_word', foldM MemFile.merge_segment (merged, next_word) segs = Ok (merged', next_word') ∧
    merge_inv (done ++ segs) merged' next_word'.
Proof.
  revert done merged next_word. induction segs as [| s segs IH]; intros done merged next_word Hinv Hok Hp Hle.
  - eexists _, _. split; [done |]. by rewrite app_nil_r.
  - apply Forall_cons in Hok as [Hs Hok], Hle as [Hle _]. destruct Hp as [Hst Hp].
    destruct (merge_segment_ok done merged next_word s Hinv Hs Hle) as (merged1 & E & Hinv1).
    destruct (IH _ _ _ Hinv1 Hok Hp) as (merged2 & nw2 & E2 & Hinv2).
    { eapply Forall_impl; [exact Hst |]. unfold under. intros t Ht. cbn in *. lia. }
    exists merged2, nw2. cbn [foldM]. rewrite E, res_bind_Ok. split; [exact E2 |].
    by rewrite <- app_assoc in Hinv2.
Qed.

(** ** The chunks *)

Record chunk_of (m : Z * Z * list Z) (c : MemChunk) : Prop := {
  co_base : mc_base_addr c = m.1.1;
  co_next : MemChunk.next_addr c = 1 + m.1.2 / 4;
  co_words : Forall (in_bits 32) (mc_words c);
  co_bytes a b : merged_byte m a b →
    ∃ w, mc_words c !! Z.to_nat (a / 4 - mc_base_addr c) = Some w ∧ limb 8 w (a `mod` 4) = b;
}.

Lemma chunk_of_words last_idx m :
  merged_ok m →
  ∃ words last_idx', MemFile.words_of_bytes last_idx m.2 = Ok (words, last_idx') ∧
    chunk_of m (mkChunk m.1.1 words).
Proof.
  destruct m as [[w t] data]. intros (H0 & H1 & Hlen & Hbytes). cbn [fst snd] in *.
  destruct (words_of_bytes_ok last_idx data) as (words & E & Hl & Hw & Hb); [| done |].
  { intros ->. cbn in Hlen. lia. }
  exists words. eexists. split; [exact E |]. split; cbn [mc_base_addr mc_words fst snd]; [done | | done |].
  - unfold MemChunk.next_addr. cbn [mc_base_addr mc_words]. rewrite Hl, Hlen.
    replace (t + 1 - 4 * w + 3) with (t + (1 - w) * 4) by lia. rewrite Z.div_add by lia. lia.
  - intros a b [Ha Hlook]. cbn [fst snd] in *. destruct (Hb _ _ Hlook) as (v & Hv & Hlimb). exists v.
    rewrite Z2Nat.id in Hlimb by lia. split.
    + rewrite <- Hv. f_equal. apply Nat2Z.inj. rewrite Nat2Z.inj_div, !Z2Nat.id; [| lia |].
      * change (Z.of_nat 4) with 4. replace (a - 4 * w) with (a + (- w) * 4) by lia.
        rewrite Z.div_add by lia. lia.
      * pose proof (Z.div_le_mono (4 * w) a 4 ltac:(lia) Ha). rewrite Z.mul_comm, Z.div_mul in H by lia. lia.
    + rewrite <- Hlimb. f_equal. replace (a - 4 * w) with (a + (- w) * 4) by lia. by rewrite Z.mod_add.
Qed.

Lemma add_words_ok merged chunks last_idx :
  Forall merged_ok merged →
  ∃ chunks' last_idx', foldM MemFile.add_words (chunks, last_idx) merged = Ok (chunks ++ chunks', last_idx') ∧
    Forall2 chunk_of merged chunks'.
Proof.
  intros Hok. revert chunks last_idx. induction Hok as [| m merged Hm Hok IH]; intros chunks last_idx.
  - exists [], last_idx. cbn [foldM]. by rewrite app_nil_r.
  - destruct (chunk_of_words last_idx m Hm) as (words & last1 & E & Hc).
    destruct (IH (chunks ++ [mkChunk m.1.1 words]) last1) as (chunks2 & last2 & E2 & Hcs).
    exists (mkChunk m.1.1 words :: chunks2), last2. split; [| by constructor].
    destruct m as [[w t] d]. cbn [fst snd] in *. cbn [foldM MemFile.add_words].
    rewrite E, !res_bind_Ok, E2. by rewrite <- app_assoc.
Qed.

Lemma chunks_separated merged chunks prev :
  Forall merged_ok merged → gaps merged → Forall2 chunk_of merged chunks →
  (∀ m, head merged = Some m → below m.1.1 prev) → separated 32 prev chunks.
Proof.
  intros Hok Hg Hc. revert prev. induction Hc as [| m c merged chunks Hmc Hc IH]; intros prev Hb; [done |].
  apply Forall_cons in Hok as [(H0 & H1 & Hlen & _) Hok]. destruct Hmc as [Eb En Ew _].
  cbn [separated]. rewrite Eb. split_and!; [done | | done | by apply Hb |].
  - intros E. unfold MemChunk.next_addr in En. rewrite E, Eb in En. cbn in En.
    pose proof (Z.div_le_mono (4 * m.1.1) m.1.2 4 ltac:(lia) H1) as H.
    rewrite Z.mul_comm, Z.div_mul in H by lia. lia.
  - apply IH; [done | |].
    + intros k x y Hx Hy. by apply (Hg (S k) x y).
    + intros m' Hm'. cbn [below]. rewrite En. apply (Hg 0%nat m m'); [done |].
      by destruct merged.
Qed.

(** ** Loading *)

Lemma check_overlap_ok segs next :
  Forall seg_ok segs → pairwise under segs → Forall (fun s => next ≤ s.1.1) segs →
  ∃ next', foldM MemFile.check_overlap next segs = Ok next'.
Proof.
  intros Hok. revert next. induction Hok as [| s segs Hs Hok IH]; intros next Hp Hle.
  - by eexists.
  - destruct Hp as [Hst Hp]. apply Forall_cons in Hle as [Hle _]. cbn [foldM].
    assert (Forall (fun t => s.1.2 + 1 ≤ t.1.1) segs).
    { eapply Forall_impl; [exact Hst |]. unfold under. intros t Ht. cbn in *.
      destruct (Z.le_gt_cases t.1.1 s.1.2) as [H | ?]; [| lia].
      pose proof (Z.div_le_mono _ _ 4 ltac:(lia) H). lia. }
    destruct (IH (s.1.2 + 1) Hp) as [next' E]; [done |]. exists next'.
    destruct s as [[lma top] data]. cbn [MemFile.check_overlap fst snd] in *. zbool.
    by rewrite res_bind_Ok.
Qed.

Lemma triples_apart base segs :
  base `mod` 4 = 0 → pairwise apart segs →
  pairwise (fun s t => under s t ∨ under t s) (triple base <$> filter loaded segs).
Proof.
  intros Hbase Hap. pose proof (Z.div_mod base 4 ltac:(lia)) as Eb. rewrite Hbase in Eb.
  assert (Hd : ∀ x, (x - base) / 4 = x / 4 - base / 4).
  { intros x. replace (x - base) with (x + (- (base / 4)) * 4) by lia. rewrite Z.div_add by lia. lia. }
  assert (Ht : ∀ s, MemFile.seg_paddr s - base + MemFile.seg_memsz s - 1 =
    MemFile.seg_paddr s + MemFile.seg_memsz s - 1 - base) by (intros; lia).
  induction segs as [| s segs IH]; [done |]. destruct Hap as [Hs Hap].
  rewrite filter_cons. destruct (decide (loaded s)) as [Hl | _]; [| by apply IH].
  cbn [fmap list_fmap pairwise]. split; [| by apply IH].
  apply Forall_fmap, Forall_forall. intros t [Hlt Hin]%list_elem_of_filter.
  rewrite Forall_forall in Hs. pose proof (Hs t Hin Hl Hlt) as Hst. unfold under, triple; cbn.
  rewrite !Ht, !Hd. lia.
Qed.

Lemma load_elf32_ok segs base :
  base `mod` 4 = 0 →
  Forall (fun s => loaded s → full s ∧ base ≤ MemFile.seg_paddr s) segs → pairwise apart segs →
  ∃ f, MemFile.load_elf32 segs base = Ok f ∧ mf_width f = 32 ∧ separated 32 None (mf_chunks f) ∧
    ∀ s i b, s ∈ segs → loaded s → MemFile.seg_data s !! i = Some b →
      byte_at f (MemFile.seg_paddr s - base + Z.of_nat i) b.
Proof.
  intros Hbase Hsegs Hap. unfold MemFile.load_elf32.
  rewrite read_segments_ok, res_bind_Ok by done. cbn [app]. set (ts := triple base <$> _).
  assert (Hok : Forall seg_ok ts).
  { apply Forall_fmap, Forall_forall. intros s [Hl Hin]%list_elem_of_filter.
    rewrite Forall_forall in Hsegs. destruct (Hsegs s Hin Hl) as [[Hlen Hb] ?]. destruct Hl as [_ Hm].
    unfold seg_ok, triple; cbn. split_and!; [lia | lia | lia | done]. }
  pose proof (triples_apart base segs Hbase Hap) as Hpw.
  destruct (sort_segments_ok ts Hok Hpw) as [Hel Hp].
  assert (Hok' : Forall seg_ok (MemFile.sort_segments ts)).
  { apply Forall_forall. intros t Ht%Hel. rewrite Forall_forall in Hok. by apply Hok. }
  assert (H0 : ∀ s, s ∈ MemFile.sort_segments ts → 0 ≤ s.1.1).
  { intros s Hs. rewrite Forall_forall in Hok'. by destruct (Hok' s Hs) as [? _]; lia. }
  destruct (check_overlap_ok (MemFile.sort_segments ts) 0 Hok' Hp) as [next ->].
  { by apply Forall_forall. }
  destruct (merge_segments_ok (MemFile.sort_segments ts) [] [] 0) as (merged & nw & Em & Hinv); [| done | done | |].
  { split; [by apply Forall_nil | done | by intros ?? | by intros ????%elem_of_nil]. }
  { apply Forall_forall. intros s Hs. apply Z.div_pos; [by apply H0 | lia]. }
  rewrite res_bind_Ok, Em, res_bind_Ok. destruct Hinv as [Hmok _ Hg Hb].
  destruct (add_words_ok merged [] None Hmok) as (chunks & last_idx & Ew & Hc).
  rewrite Ew, res_bind_Ok. eexists. split; [done |]. cbn [mf_width mf_chunks app]. split_and!; [done | |].
  - by apply (chunks_separated merged).
  - intros s i b Hs Hl Hi.
    destruct (Hb (triple base s) i b) as (m & Hm & Hmb); [| done |].
    { cbn [app]. apply Hel. unfold ts. apply list_elem_of_fmap. exists s. split; [done |].
      by apply list_elem_of_filter. }
    apply list_elem_of_lookup in Hm as [k Hk].
    destruct (Forall2_lookup_l _ _ _ _ _ Hc Hk) as (c & Hck & [Eb _ _ Hbytes]).
    destruct (Hbytes _ _ Hmb) as (w & Hw & Hlimb). destruct Hmb as [Ha _]. cbn [triple fst snd] in *.
    exists c, w. split_and!; [by eapply list_elem_of_lookup_2 | | done | done].
    rewrite Eb. apply Z.div_le_lower_bound; lia.
Qed.

(** ** Chunks with gaps between them are in order *)

Lemma separated_nonneg prev cs c : separated 32 prev cs → c ∈ cs → 0 ≤ mc_base_addr c.
Proof.
  revert prev. induction cs as [| d cs IH]; intros prev Hs Hc; [by apply elem_of_nil in Hc |].
  destruct Hs as (H0 & _ & _ & _ & Hs). apply elem_of_cons in Hc as [-> | Hc]; [done | by apply (IH (Some d))].
Qed.

Lemma separated_ordered_from prev a cs :
  separated 32 prev cs → a = default 0 (MemChunk.next_addr <$> prev) → ordered_from a cs.
Proof.
  revert prev a. induction cs as [| c cs IH]; intros prev a Hs Ha; [done |].
  destruct Hs as (H0 & _ & _ & Hb & Hs). split; [| by apply (IH (Some c))].
  destruct prev; cbn in *; lia.
Qed.

Lemma separated_ordered f : separated 32 None (mf_chunks f) → ordered_from 0 (mf_chunks f).
Proof. intros Hs. by apply (separated_ordered_from None). Qed.
