(* ===== verification/RomScramble.v ===== *)
(** The scrambler of the ROM image (rom_ctrl/util/scramble_image.py, class [Scrambler]): its
    construction from the top-level configuration, the flattening of the image and the
    scrambling of addresses and data. *)

From S2P Require Import Prelude BitLoops PyList RomCipher PyStr Yaml Secded RomMem Vmem.

Definition ROM_BASE_WORD : Z := 0x8000 / 4.
Definition ROM_SIZE_WORDS : Z := 4096.

Record Scrambler := mkScrambler {
  sc_nonce : Z;
  sc_key : Z;
  sc_rom_size_words : Z;
  sc_addr_width : Z;
}.

Module Scrambler.
Definition init (nonce key rom_size_words : Z) : res Scrambler :=
  py_assert (fits 64 nonce);;
  py_assert (fits 128 key);;
  py_assert ((0 <? rom_size_words) && (rom_size_words <? 1 ≪ 64));;
  Ok (mkScrambler nonce key rom_size_words (bit_length (rom_size_words - 1))).

(** ** The configuration

    The value that [hjson.load] returns is given as a [yaml] tree. *)

Definition rom_ctrl_entry (rom_ctrls : list (list (yaml * yaml))) (entry : yaml) :
    res (list (list (yaml * yaml))) :=
  match entry with
  | YDict d =>
      match yget "type" d with
      | Some (YStr t) => Ok (if String.eqb t "rom_ctrl" then rom_ctrls ++ [d] else rom_ctrls)
      | _ => Err AssertionError
      end
  | _ => Err AssertionError
  end.
Definition _get_rom_ctrl (modules : list yaml) : res (list (yaml * yaml)) :=
  rom_ctrls ← foldM rom_ctrl_entry [] modules;
  match rom_ctrls with [d] => Ok d | _ => Err AssertionError end.

Definition add_param (named : dict yaml) (param : yaml) : res (dict yaml) :=
  match param with
  | YDict d =>
      match yget "name" d with
      | Some (YStr name) =>
          py_assert (match dget name named with None => true | Some _ => false end);;
          Ok (dset name param named)
      | _ => Err AssertionError
      end
  | _ => Err AttributeError
  end.
Definition _get_params (module : list (yaml * yaml)) : res (dict yaml) :=
  match yget "param_list" module with
  | Some (YList params) => foldM add_param [] params
  | _ => Err AssertionError
  end.

Definition _get_param_value (params : dict yaml) (name : string) (width : Z) : res Z :=
  match dget name params with
  | Some (YDict param) =>
      match yget "default" param with
      | Some (YStr default) =>
          int_val ← int_auto default;
          py_assert (fits width int_val);;
          Ok int_val
      | _ => Err AssertionError
      end
  | _ => Err AssertionError
  end.

Definition from_hjson (top : yaml) (rom_size_words : Z) : res Scrambler :=
  py_assert (0 <? rom_size_words);;
  match top with
  | YDict d =>
      match yget "module" d with
      | Some (YList modules) =>
          rom_ctrl ← _get_rom_ctrl modules;
          params ← _get_params rom_ctrl;
          nonce ← _get_param_value params "RndCnstScrNonce" 64;
          key ← _get_param_value params "RndCnstScrKey" 128;
          init nonce key rom_size_words
      | _ => Err AssertionError
      end
  | _ => Err AssertionError
  end.

(** ** Flattening

    [rng seed n] is the result of call number [n] of [random.getrandbits(32)] after
    [random.seed(seed)]. *)

Definition digest_size_words : Z := 8.

Definition flatten (rng : Z → nat → Z) (self : Scrambler) (mem : MemFile) : res MemFile :=
  let initial_len := sc_rom_size_words self - digest_size_words in
  let seed := sc_key self + sc_nonce self in
  flattened ← MemFile.flatten (rng seed) initial_len mem;
  match mf_chunks flattened with
  | [c] =>
      py_assert (Z.of_nat (length (mc_words c)) =? initial_len);;
      Ok (mkMemFile (mf_width flattened)
            [mkChunk (mc_base_addr c) (mc_words c ++ replicate (Z.to_nat digest_size_words) 0)])
  | _ => Err AssertionError
  end.

(** ** Scrambling *)

Definition word_width : Z := 40.
Definition subst_perm_rounds : Z := 2.
Definition num_rounds_half : Z := 2.

Definition data_nonce_width (self : Scrambler) : Z := 64 - sc_addr_width self.
Definition data_scr_nonce (self : Scrambler) : Z :=
  sc_nonce self .& ((1 ≪ data_nonce_width self) - 1).
Definition addr_scr_nonce (self : Scrambler) : Z := sc_nonce self ≫ data_nonce_width self.

(** The body of the loop: the word at physical address [phy_addr]. *)
Definition scramble_word (self : Scrambler) (words : list Z) (phy_addr : Z) : res Z :=
  let word_mask := (1 ≪ word_width) - 1 in
  log_addr ← subst_perm_dec phy_addr (addr_scr_nonce self) (sc_addr_width self) subst_perm_rounds;
  py_assert ((0 <=? log_addr) && (log_addr <? sc_rom_size_words self));;
  let to_scramble := (data_scr_nonce self ≪ sc_addr_width self) .| log_addr in
  keystream ← prince to_scramble (sc_key self) num_rounds_half;
  let keystream_trunc := keystream .& word_mask in
  clr_data ← py_nth words log_addr;
  py_assert ((0 <=? clr_data) && (clr_data <? word_mask));;
  let sp_scr_data := keystream_trunc .^ clr_data in
  scr_data ← subst_perm_enc sp_scr_data 0 word_width subst_perm_rounds;
  py_assert ((0 <=? scr_data) && (scr_data <? word_mask));;
  Ok scr_data.

Definition scramble40 (self : Scrambler) (mem : MemFile) : res MemFile :=
  match mf_chunks mem with
  | [c] =>
      py_assert (Z.of_nat (length (mc_words c)) =? sc_rom_size_words self);;
      py_assert (word_width <=? 64);;
      scrambled ← mapR (scramble_word self (mc_words c)) (seqZ 0 (sc_rom_size_words self));
      Ok (mkMemFile (mf_width mem) [mkChunk 0 scrambled])
  | _ => Err AssertionError
  end.
End Scrambler.

(** The script: the scrambled image of an ELF file.  [None] when the search for the ECC code
    runs out of fuel. *)
Definition main (shuffle : nat → list code → list code) (fuel : nat) (rng : Z → nat → Z)
    (top : yaml) (segments : list MemFile.segment) : res (option (list string)) :=
  scrambler ← Scrambler.from_hjson top ROM_SIZE_WORDS;
  clr_mem ← MemFile.load_elf32 segments (4 * ROM_BASE_WORD);
  clr_flat ← Scrambler.flatten rng scrambler clr_mem;
  ecc ← MemFile.add_ecc32 shuffle fuel clr_flat;
  match ecc with
  | None => Ok None
  | Some clr_flat =>
      py_assert (mf_width clr_flat =? 39);;
      scr_mem ← Scrambler.scramble40 scrambler (mkMemFile 40 (mf_chunks clr_flat));
      Ok (Some (Vmem.write_vmem scr_mem))
  end.

(** ** Reading a scrambled ROM

    The equation of the hardware, [clr[i] = PRINCE(i) ^ data_sp(scr[addr_sp(i)])]. *)
Definition read_rom (self : Scrambler) (scr : list Z) (log_addr : Z) : res Z :=
  phy_addr ← subst_perm_enc log_addr (Scrambler.addr_scr_nonce self) (sc_addr_width self) 2;
  word ← py_nth scr phy_addr;
  keystream ← prince ((Scrambler.data_scr_nonce self ≪ sc_addr_width self) .| log_addr) (sc_key self) 2;
  data ← subst_perm_dec word 0 40 2;
  Ok ((keystream .& mask 40) .^ data).

(** The word that the asserts refuse. *)
Definition all_ones (w : Z) : bool := w =? mask 40.

(** A scrambler for a ROM whose size is a power of two. *)
Record scrambler_ok (self : Scrambler) : Prop := {
  so_nonce : in_bits 64 (sc_nonce self);
  so_key : in_bits 128 (sc_key self);
  so_width : 0 ≤ sc_addr_width self ≤ 64;
  so_size : sc_rom_size_words self = 2 ^ sc_addr_width self;
}.

Lemma scrambler_init_ok nonce key k :
  in_bits 64 nonce → in_bits 128 key → 0 ≤ k < 64 →
  Scrambler.init nonce key (2 ^ k) = Ok (mkScrambler nonce key (2 ^ k) k).
Proof.
  intros Hn Hk Hs. unfold Scrambler.init.
  rewrite (proj2 (fits_spec 64 nonce ltac:(lia)) Hn), (proj2 (fits_spec 128 key ltac:(lia)) Hk).
  assert (0 < 2 ^ k) by (apply Z.pow_pos_nonneg; lia).
  assert (2 ^ k < 1 ≪ 64) by (rewrite Z.shiftl_1_l; apply Z.pow_lt_mono_r; lia).
  zbool. cbn [py_assert]. rewrite !res_bind_Ok. do 2 f_equal. unfold bit_length.
  destruct (Z.eqb_spec (2 ^ k - 1) 0) as [E | N].
  - destruct (Z.eq_dec k 0) as [| Hk0]; [done |].
    pose proof (Z.pow_le_mono_r 2 1 k ltac:(lia) ltac:(lia)). lia.
  - assert (1 ≤ k) by (destruct (Z.eq_dec k 0) as [-> |]; [done | lia]).
    rewrite Z.abs_eq by lia. replace (2 ^ k - 1) with (Z.pred (2 ^ k)) by lia.
    rewrite Z.log2_pred_pow2 by lia. lia.
Qed.

Lemma scrambler_ok_init nonce key k :
  in_bits 64 nonce → in_bits 128 key → 0 ≤ k < 64 → scrambler_ok (mkScrambler nonce key (2 ^ k) k).
Proof. by split; cbn; [| | lia |]. Qed.

Section scramble.
Context (self : Scrambler) (Hself : scrambler_ok self).

Lemma addr_nonce_bits : in_bits (sc_addr_width self) (Scrambler.addr_scr_nonce self).
Proof.
  destruct Hself as [[Hn0 Hn1] _ Hw _]. unfold Scrambler.addr_scr_nonce, Scrambler.data_nonce_width.
  rewrite Z.shiftr_div_pow2 by lia. split; [apply Z.div_pos; [lia | apply Z.pow_pos_nonneg; lia] |].
  apply Z.div_lt_upper_bound; [apply Z.pow_pos_nonneg; lia |]. rewrite <- Z.pow_add_r by lia.
  by replace (64 - sc_addr_width self + sc_addr_width self) with 64 by lia.
Qed.

Lemma to_scramble_bits log :
  in_bits (sc_addr_width self) log →
  in_bits 64 ((Scrambler.data_scr_nonce self ≪ sc_addr_width self) .| log).
Proof.
  destruct Hself as [_ _ Hw _]. intros Hl. apply in_bits_lor; [lia | | by apply (in_bits_weaken (sc_addr_width self)); [lia |]].
  replace 64 with (Scrambler.data_nonce_width self + sc_addr_width self)
    by (unfold Scrambler.data_nonce_width; lia).
  apply in_bits_shiftl; [unfold Scrambler.data_nonce_width; lia | lia |].
  apply (in_bits_mask _ (Scrambler.data_nonce_width self)). unfold Scrambler.data_nonce_width. lia.
Qed.

Context (words : list Z) (Hlen : Z.of_nat (length words) = sc_rom_size_words self)
  (Hwords : Forall (in_bits 40) words).

(** One word: the scrambled word, which reads back to the clear one, or a refusal. *)
Definition scrambles (phy v log clr : Z) : Prop :=
  in_bits (sc_addr_width self) log ∧ words !! Z.to_nat log = Some clr ∧ in_bits 40 v ∧
  subst_perm_dec phy (Scrambler.addr_scr_nonce self) (sc_addr_width self) 2 = Ok log ∧
  Scrambler.scramble_word self words phy = (if all_ones clr || all_ones v then Err AssertionError else Ok v) ∧
  ∀ scr, scr !! Z.to_nat phy = Some v → read_rom self scr log = Ok clr.

Lemma scramble_word_ok phy :
  in_bits (sc_addr_width self) phy → ∃ v log clr, scrambles phy v log clr.
Proof.
  intros Hp. pose proof addr_nonce_bits as Hn. destruct Hself as [_ Hk Hw Hs].
  destruct (subst_perm_enc_dec (sc_addr_width self) ltac:(lia) _ Hn phy 2 Hp) as (log & Ed & Hl & Ee).
  destruct (lookup_lt_is_Some_2 words (Z.to_nat log)) as [clr Hclr]; [destruct Hl; lia |].
  assert (Hc : in_bits 40 clr) by (by apply (Forall_lookup_1 _ _ _ _ Hwords Hclr)).
  destruct (perm_total _ (prince_perm (sc_key self) 2 Hk ltac:(lia)) _ (to_scramble_bits log Hl)) as (ks & Ek & _).
  destruct (subst_perm_dec_enc 40 ltac:(lia) 0 ltac:(done) ((ks .& mask 40) .^ clr) 2) as (v & Ev & Hv & Evd).
  { apply in_bits_lxor; [lia | apply in_bits_mask; lia | done]. }
  exists v, log, clr. split_and!; [done | done | done | done | |].
  - unfold Scrambler.scramble_word. change Scrambler.subst_perm_rounds with 2.
    change Scrambler.num_rounds_half with 2. change Scrambler.word_width with 40.
    rewrite Ed, res_bind_Ok. destruct Hl as [Hl0 Hl1], Hc as [Hc0 Hc1], Hv as [Hv0 Hv1]. zbool.
    cbn [py_assert]. rewrite res_bind_Ok, Ek, res_bind_Ok, (py_nth_pos _ _ clr) by done.
    rewrite res_bind_Ok. change ((1 ≪ 40) - 1) with (mask 40). rewrite Ev. unfold all_ones.
    change (mask 40) with 1099511627775 in *. change (2 ^ 40) with 1099511627776 in *.
    destruct (Z.eqb_spec clr 1099511627775) as [-> |]; [done |]. zbool. cbn [orb py_assert].
    rewrite !res_bind_Ok. destruct (Z.eqb_spec v 1099511627775) as [-> |]; [done |]. by zbool.
  - intros scr Hscr. unfold read_rom. rewrite Ee, res_bind_Ok, (py_nth_pos _ _ v) by (done || by destruct Hp).
    rewrite res_bind_Ok, Ek, res_bind_Ok, Evd, res_bind_Ok. f_equal.
    rewrite <- Z.lxor_assoc, Z.lxor_nilpotent. apply Z.lxor_0_l.
Qed.

(** Scrambling stops at the first clear or scrambled word that is refused. *)
Lemma scramble_words_ok phys :
  Forall (in_bits (sc_addr_width self)) phys →
  ∃ scr, Forall2 (fun p v => ∃ log clr, scrambles p v log clr) phys scr ∧
    (mapR (Scrambler.scramble_word self words) phys = Ok scr ∧
       Forall2 (fun p v => ∀ log clr, scrambles p v log clr → all_ones clr || all_ones v = false) phys scr ∨
     mapR (Scrambler.scramble_word self words) phys = Err AssertionError ∧
       ∃ w, (w ∈ words ∨ w ∈ scr) ∧ all_ones w = true).
Proof.
  intros Hp. induction Hp as [| p phys Hp Hps (scr & Hscr & IH)].
  - exists []. split; [constructor |]. left. split; [done | constructor].
  - destruct (scramble_word_ok p Hp) as (v & log & clr & Hv). pose proof Hv as (_ & Hlook & _ & Ed & E & _).
    exists (v :: scr). split; [constructor; [by exists log, clr | done] |]. cbn [mapR]. rewrite E.
    destruct (all_ones clr || all_ones v) eqn:Eb.
    + right. split; [done |]. apply orb_true_iff in Eb as [? | ?]; [exists clr | exists v]; split; try done.
      * left. by eapply list_elem_of_lookup_2.
      * right. by left.
    + rewrite res_bind_Ok. destruct IH as [[E2 HF] | [E2 (w & Hw & ?)]]; rewrite E2.
      * left. split; [by rewrite res_bind_Ok |]. constructor; [| done]. intros log' clr' (_ & Hlook' & _ & Ed' & _).
        rewrite Ed in Ed'. injection Ed' as <-. rewrite Hlook in Hlook'. by injection Hlook' as <-.
      * right. split; [done |]. exists w. split; [| done]. destruct Hw; [by left | right; by right].
Qed.

(** The word at the physical address of a logical one. *)
Lemma scrambled_at scr i clr :
  Forall2 (fun p v => ∃ log clr, scrambles p v log clr) (seqZ 0 (sc_rom_size_words self)) scr →
  words !! i = Some clr →
  ∃ p v, seqZ 0 (sc_rom_size_words self) !! Z.to_nat p = Some p ∧ scr !! Z.to_nat p = Some v ∧
    scrambles p v (Z.of_nat i) clr.
Proof.
  intros Hscr Hi. pose proof (lookup_lt_Some _ _ _ Hi).
  pose proof addr_nonce_bits as Hn. pose proof (so_width _ Hself) as Hw. pose proof (so_size _ Hself) as Hs.
  destruct (subst_perm_dec_enc (sc_addr_width self) ltac:(lia) _ Hn (Z.of_nat i) 2) as (p & _ & Hp & Ed);
    [unfold in_bits; lia |].
  assert (Hpp : seqZ 0 (sc_rom_size_words self) !! Z.to_nat p = Some p).
  { apply lookup_seqZ. unfold in_bits in Hp. lia. }
  destruct (Forall2_lookup_l _ _ _ _ _ Hscr Hpp) as (v & Hv & log & clr' & Hsc).
  pose proof Hsc as (_ & Hlook & _ & Ed' & _). rewrite Ed in Ed'. injection Ed' as <-.
  rewrite Nat2Z.id, Hi in Hlook. injection Hlook as <-. by exists p, v.
Qed.

Lemma scramble40_ok mem b :
  mf_chunks mem = [mkChunk b words] →
  ∃ scr, length scr = length words ∧ Forall (in_bits 40) scr ∧
    (∀ i clr, words !! i = Some clr → read_rom self scr (Z.of_nat i) = Ok clr) ∧
    Scrambler.scramble40 self mem =
      (if existsb all_ones (words ++ scr) then Err AssertionError
       else Ok (mkMemFile (mf_width mem) [mkChunk 0 scr])).
Proof.
  intros Hm. unfold Scrambler.scramble40. rewrite Hm. cbn [mc_words]. rewrite Hlen, Z.eqb_refl.
  change (py_assert true) with (@Ok () ()). rewrite res_bind_Ok.
  change (py_assert (Scrambler.word_width <=? 64)) with (@Ok () ()). rewrite res_bind_Ok.
  pose proof addr_nonce_bits as Hn. pose proof (so_width _ Hself) as Hw. pose proof (so_size _ Hself) as Hs.
  set (phys := seqZ 0 (sc_rom_size_words self)).
  assert (Hphys : Forall (in_bits (sc_addr_width self)) phys).
  { apply Forall_forall. intros p Hp%elem_of_seqZ. unfold in_bits. lia. }
  destruct (scramble_words_ok phys Hphys) as (scr & Hscr & Hres). exists scr.
  assert (Hat := fun i clr => scrambled_at scr i clr Hscr).
  split_and!.
  - rewrite <- (Forall2_length _ _ _ Hscr). unfold phys. rewrite length_seqZ. lia.
  - apply Forall_lookup_2. intros k v Hv.
    destruct (Forall2_lookup_r _ _ _ _ _ Hscr Hv) as (p & _ & log & clr & _ & _ & ? & _). done.
  - intros i clr Hi. destruct (Hat i clr Hi) as (p & v & _ & Hv & (_ & _ & _ & _ & _ & Hr)). by apply Hr.
  - destruct Hres as [[-> HF] | [-> (w & Hw' & Ew)]].
    + rewrite res_bind_Ok, existsb_app, !existsb_none; [done | |].
      * intros v Hv. apply list_elem_of_lookup in Hv as [k Hv].
        destruct (Forall2_lookup_r _ _ _ _ _ HF Hv) as (p & Hp & Hno).
        destruct (Forall2_lookup_r _ _ _ _ _ Hscr Hv) as (p' & Hp' & log & clr & Hsc).
        rewrite Hp in Hp'. injection Hp' as <-. by apply Hno, orb_false_iff in Hsc as [].
      * intros clr Hc. apply list_elem_of_lookup in Hc as [i Hi].
        destruct (Hat i clr Hi) as (p & v & Hp & Hv & Hsc).
        destruct (Forall2_lookup_l _ _ _ _ _ HF Hp) as (v' & Hv' & Hno).
        rewrite Hv in Hv'. injection Hv' as <-. by apply Hno, orb_false_iff in Hsc as [].
    + rewrite (proj2 (existsb_exists all_ones (words ++ scr))); [done |].
      exists w. split; [| done]. apply list_elem_of_In, elem_of_app. done.
Qed.
End scramble.
