(* ===== verification/RomProps.v ===== *)
(** The properties of the ROM tools and of the error correcting codes. *)

From S2P Require Import Prelude BitLoops PyList Present RomCipher Secded SecdedCode.
From S2P Require Import RomMem Vmem RomElf RomScramble.

(** A configuration that [verify] accepts has enough parity bits. *)
Lemma verify_cfg_enough k m t : verify_cfg (mkCfg k m t) = 0 → 2 ≤ k ≤ 120 ∧ 2 ≤ m ≤ 20 ∧ k + m ≤ 2 ^ (m - 1).
Proof.
  unfold verify_cfg. cbn [cfg_k cfg_m cfg_code_type]. intros H.
  assert (H0 : ∀ b, 0 ≤ Z_of_bool b) by (by intros []).
  assert (H1 : ∀ b, Z_of_bool b = 0 → b = false) by (by intros []).
  set (b1 := (k <=? 1) || (120 <? k)) in *. set (b2 := (m <=? 1) || (20 <? m)) in *.
  set (b3 := m <? min_paritysize k) in *. set (b4 := negb _) in *.
  pose proof (H0 b1). pose proof (H0 b2). pose proof (H0 b3). pose proof (H0 b4).
  pose proof (H1 b1 ltac:(lia)) as E1. pose proof (H1 b2 ltac:(lia)) as E2. pose proof (H1 b3 ltac:(lia)) as E3.
  apply orb_false_iff in E1 as [?%Z.leb_gt ?%Z.ltb_ge], E2 as [?%Z.leb_gt ?%Z.ltb_ge]. apply Z.ltb_ge in E3.
  split_and!; [lia .. |].
  assert (Hall : forallb (fun k => forallb (fun m => (m <? min_paritysize k) || (k + m <=? 2 ^ (m - 1)))
    (seqZ 2 19)) (seqZ 2 119) = true) by (by vm_compute).
  assert (Hin : ∀ x a n, a ≤ x < a + n → In x (seqZ a n)) by (intros; by apply list_elem_of_In, elem_of_seqZ).
  eapply forallb_forall in Hall; [| apply (Hin k); lia].
  eapply forallb_forall in Hall; [| apply (Hin m); lia]. cbv beta in Hall.
  apply orb_true_iff in Hall as [?%Z.ltb_lt | ?%Z.leb_le]; lia.
Qed.

(** C23: for every configuration that [verify] accepts and every way [random.shuffle] permutes
    the candidates, a Hsiao code that the generator finds has one row per data bit, and the
    masks [calc_bitmasks] computes from it make an encoder and a decoder that return the data
    when no bit is flipped, correct it and report a single error when one bit of the code word
    is flipped, and report a double error when two are. *)
Theorem hsiao_secded shuffle fuel k m :
  verify_cfg (mkCfg k m "hsiao") = 0 → (∀ n l, shuffle n l ≡ₚ l) →
  ∃ r, gen_code shuffle fuel "hsiao" k m = Ok r ∧ ∀ codes, r = Some codes →
    Z.of_nat (length codes) = k ∧ ∃ enc dec,
      calc_bitmasks k m codes false = Ok enc ∧ calc_bitmasks k m codes true = Ok dec ∧
      corrects (parity m) k m codes enc dec.
Proof.
  intros (Hk & Hm & Hkm)%verify_cfg_enough Hs.
  destruct (hsiao_code_ok shuffle fuel k m Hs ltac:(lia) ltac:(lia) Hkm) as (r & E & Hr).
  exists r. split; [exact E |]. intros codes Hc. destruct (Hr codes Hc) as [Hok Hlen].
  pose proof (hsiao_rows_fit m codes Hok) as Hfit.
  split; [done |]. eexists _, _. split_and!; [by apply enc_masks_eq; [lia |] | by apply dec_masks_eq; [lia |] |].
  by apply hsiao_corrects; [lia | lia | |].
Qed.

Lemma hsiao_secded_witness :
  gen_code (fun _ l => l) 0 "hsiao" 4 4 = Ok (Some [[0; 1; 2]; [0; 1; 3]; [0; 2; 3]; [1; 2; 3]]) ∧
  ∃ r, gen_code (fun _ l => l) 0 "hsiao" 4 4 = Ok r ∧ ∀ codes, r = Some codes →
    Z.of_nat (length codes) = 4 ∧ ∃ enc dec,
      calc_bitmasks 4 4 codes false = Ok enc ∧ calc_bitmasks 4 4 codes true = Ok dec ∧
      corrects (parity 4) 4 4 codes enc dec.
Proof.
  split; [by vm_compute |]. apply (hsiao_secded (fun _ l => l) 0 4 4); [by vm_compute | done].
Defined.

(** For every number of data bits that [verify] accepts, with the smallest number of parity
    bits, the masks of the Hamming code make an encoder and a decoder that return the data when
    no bit is flipped, correct it when one is and report a double error when two are. *)
Theorem hamming_secded shuffle fuel k :
  2 ≤ k ≤ 120 →
  let m := min_paritysize k in
  ∃ codes enc dec, gen_code shuffle fuel "hamming" k m = Ok (Some codes) ∧
    calc_bitmasks k m codes false = Ok enc ∧ calc_bitmasks k m codes true = Ok dec ∧
    corrects (fun s => Z.testbit s (m - 1)) k m codes enc dec.
Proof.
  intros Hk. destruct (hamming_corrects k Hk) as (Hfit & Hm & Hc). cbv zeta.
  eexists _, _, _. split_and!; [reflexivity | by apply enc_masks_eq; [lia |] | by apply dec_masks_eq; [lia |] |].
  exact Hc.
Qed.

Lemma hamming_secded_witness :
  min_paritysize 16 = 6 ∧
  ∃ codes enc dec, gen_code (fun _ l => l) 0 "hamming" 16 (min_paritysize 16) = Ok (Some codes) ∧
    calc_bitmasks 16 (min_paritysize 16) codes false = Ok enc ∧
    calc_bitmasks 16 (min_paritysize 16) codes true = Ok dec ∧
    corrects (fun s => Z.testbit s (min_paritysize 16 - 1)) 16 (min_paritysize 16) codes enc dec.
Proof. split; [by vm_compute |]. apply (hamming_secded (fun _ l => l) 0 16). lia. Defined.

(** With a key of 80 or 128 bits, PRESENT decrypts what it encrypts and encrypts what it
    decrypts, for every block and number of rounds. *)
Theorem present_roundtrip key rounds keylen :
  keylen = 80 ∨ keylen = 128 → in_bits keylen key → 1 ≤ rounds < 2 ^ 64 →
  ∃ p, Present.init key rounds keylen = Ok p ∧ ∀ block, in_bits 64 block →
    (∃ c, Present.encrypt block p = Ok c ∧ in_bits 64 c ∧ Present.decrypt c p = Ok block) ∧
    (∃ d, Present.decrypt block p = Ok d ∧ Present.encrypt d p = Ok block).
Proof.
  intros Hlen Hkey Hr. destruct (present_init_ok key rounds keylen Hlen Hkey Hr) as (k & ks & E & Hks & _).
  eexists. split; [exact E |]. apply Forall_cons in Hks as [Hk Hks]. intros block Hb. split.
  - rewrite encrypt_eq. eexists. split; [done |]. split; [by apply enc_with_bits |].
    by rewrite decrypt_eq, dec_enc_with.
  - rewrite decrypt_eq. eexists. split; [done |]. by rewrite encrypt_eq, enc_dec_with.
Qed.

Lemma present_roundtrip_witness :
  ∃ p, Present.init 0 32 80 = Ok p ∧ ∀ block, in_bits 64 block →
    (∃ c, Present.encrypt block p = Ok c ∧ in_bits 64 c ∧ Present.decrypt c p = Ok block) ∧
    (∃ d, Present.decrypt block p = Ok d ∧ Present.encrypt d p = Ok block).
Proof. apply (present_roundtrip 0 32 80); [by left | done | lia]. Defined.

(** The substitution and permutation network and its inverse undo each other, at every
    width, for every key and number of rounds. *)
Theorem subst_perm_roundtrip width key num_rounds data :
  0 ≤ width → in_bits width key → in_bits width data →
  (∃ c, subst_perm_enc data key width num_rounds = Ok c ∧ in_bits width c ∧
     subst_perm_dec c key width num_rounds = Ok data) ∧
  (∃ d, subst_perm_dec data key width num_rounds = Ok d ∧ in_bits width d ∧
     subst_perm_enc d key width num_rounds = Ok data).
Proof. intros. split; [by apply subst_perm_dec_enc | by apply subst_perm_enc_dec]. Qed.

Lemma subst_perm_roundtrip_witness :
  (∃ c, subst_perm_enc 0x123 0x5a5 12 2 = Ok c ∧ in_bits 12 c ∧ subst_perm_dec c 0x5a5 12 2 = Ok 0x123) ∧
  (∃ d, subst_perm_dec 0x123 0x5a5 12 2 = Ok d ∧ in_bits 12 d ∧ subst_perm_enc d 0x5a5 12 2 = Ok 0x123).
Proof. apply (subst_perm_roundtrip 12 0x5a5 2 0x123); [lia | done | done]. Defined.

(** PRINCE, reduced to up to five rounds on each side, accepts every 64-bit word and every
    128-bit key, and different words give different results: the key stream never repeats
    for different addresses. *)
Theorem prince_permutation key num_rounds_half :
  in_bits 128 key → 0 ≤ num_rounds_half ≤ 5 →
  (∀ x, in_bits 64 x → ∃ y, prince x key num_rounds_half = Ok y ∧ in_bits 64 y) ∧
  (∀ x x' y, in_bits 64 x → in_bits 64 x' →
     prince x key num_rounds_half = Ok y → prince x' key num_rounds_half = Ok y → x = x').
Proof. intros Hk Hn. by destruct (prince_perm key num_rounds_half Hk Hn). Qed.

Lemma prince_permutation_witness :
  (∀ x, in_bits 64 x → ∃ y, prince x 0x1234 5 = Ok y ∧ in_bits 64 y) ∧
  (∀ x x' y, in_bits 64 x → in_bits 64 x' → prince x 0x1234 5 = Ok y → prince x' 0x1234 5 = Ok y → x = x').
Proof. apply (prince_permutation 0x1234 5); [done | lia]. Defined.

(** C22: scrambling a ROM image whose size is a power of two.  The scrambled image has a word for
    every physical address; reading logical address [i] through the equation of the hardware
    gives clear word [i]; and [scramble40] returns this image except when a clear or a scrambled
    word has all forty bits set, which its asserts refuse. *)
Theorem scramble40_reads_back nonce key k mem b words :
  in_bits 64 nonce → in_bits 128 key → 0 ≤ k < 64 →
  mf_chunks mem = [mkChunk b words] → Z.of_nat (length words) = 2 ^ k → Forall (in_bits 40) words →
  ∃ self scr, Scrambler.init nonce key (2 ^ k) = Ok self ∧
    length scr = length words ∧ Forall (in_bits 40) scr ∧
    (∀ i clr, words !! i = Some clr → read_rom self scr (Z.of_nat i) = Ok clr) ∧
    Scrambler.scramble40 self mem =
      (if existsb all_ones (words ++ scr) then Err AssertionError
       else Ok (mkMemFile (mf_width mem) [mkChunk 0 scr])).
Proof.
  intros Hn Hk Hw Hm Hlen Hf. eexists.
  pose proof (scrambler_ok_init nonce key k Hn Hk Hw) as Hok.
  destruct (scramble40_ok _ Hok words Hlen Hf mem b Hm) as (scr & Hl & Hb & Hr & E).
  exists scr. split; [by apply scrambler_init_ok |]. done.
Qed.

Lemma scramble40_reads_back_witness :
  (∃ scr, (self ← Scrambler.init 0x123456789abcdef 0x42 2;
     Scrambler.scramble40 self (mkMemFile 40 [mkChunk 0 [0x1122334455; 7]])) = Ok scr) ∧
  ∃ self scr, Scrambler.init 0x123456789abcdef 0x42 (2 ^ 1) = Ok self ∧
    length scr = length [0x1122334455; 7] ∧ Forall (in_bits 40) scr ∧
    (∀ i clr, [0x1122334455; 7] !! i = Some clr → read_rom self scr (Z.of_nat i) = Ok clr) ∧
    Scrambler.scramble40 self (mkMemFile 40 [mkChunk 0 [0x1122334455; 7]]) =
      (if existsb all_ones ([0x1122334455; 7] ++ scr) then Err AssertionError
       else Ok (mkMemFile (mf_width (mkMemFile 40 [mkChunk 0 [0x1122334455; 7]])) [mkChunk 0 scr])).
Proof.
  split; [eexists; by vm_compute |].
  apply (scramble40_reads_back 0x123456789abcdef 0x42 1 (mkMemFile 40 [mkChunk 0 [0x1122334455; 7]]) 0);
    [done | done | lia | done | done | by repeat constructor].
Defined.

(** C24: the bytes of an ELF file reach the flattened image.  When the base address is a word
    address and the loaded segments have as many bytes of data as they take in memory, lie at
    or above the base address and use different words, loading succeeds and its chunks are in
    order with gaps between them.  If they also end below the eight words of the digest,
    flattening gives an image of the size of the ROM in which byte [i] of every loaded segment
    is at its address, every word comes from a chunk or from the random generator, and the
    last eight words are zero. *)
Theorem rom_image_bytes rng self segs base :
  base `mod` 4 = 0 → Forall (fun s => loaded s → full s ∧ base ≤ MemFile.seg_paddr s) segs →
  pairwise apart segs →
  ∃ f, MemFile.load_elf32 segs base = Ok f ∧ separated 32 None (mf_chunks f) ∧
    (MemFile.next_addr f ≤ sc_rom_size_words self - 8 →
     ∃ words, Scrambler.flatten rng self f = Ok (mkMemFile 32 [mkChunk 0 (words ++ replicate 8 0)]) ∧
       Z.of_nat (length words) = sc_rom_size_words self - 8 ∧
       (∀ w, w ∈ words → (∃ c, c ∈ mf_chunks f ∧ w ∈ mc_words c) ∨
          ∃ n, w = rng (sc_key self + sc_nonce self) n) ∧
       ∀ s i b, s ∈ segs → loaded s → MemFile.seg_data s !! i = Some b →
         let a := MemFile.seg_paddr s - base + Z.of_nat i in
         ∃ w, words !! Z.to_nat (a / 4) = Some w ∧ limb 8 w (a `mod` 4) = b).
Proof.
  intros Hbase Hsegs Hap. destruct (load_elf32_ok segs base Hbase Hsegs Hap) as (f & E & Hw & Hsep & Hbytes).
  exists f. split_and!; [done | done |]. intros Hsize.
  destruct (flatten_ok (rng (sc_key self + sc_nonce self)) _ f (separated_ordered f Hsep) Hsize)
    as (words & Ef & Hlen & Hh & Hin).
  exists words. split_and!; [| done | done |].
  - unfold Scrambler.flatten, Scrambler.digest_size_words. rewrite Ef, res_bind_Ok.
    cbn [mf_chunks mc_words mf_width mc_base_addr]. rewrite Hlen, Z.eqb_refl, Hw. done.
  - intros s i b Hs Hl Hi. destruct (Hbytes s i b Hs Hl Hi) as (c & w & Hc & Hge & Hlook & Hlimb).
    cbv zeta. exists w. split; [| done]. rewrite Forall_forall in Hh. specialize (Hh c Hc _ _ Hlook).
    rewrite <- Hh. f_equal. pose proof (separated_nonneg _ _ _ Hsep Hc). lia.
Qed.

Definition demo_segs : list MemFile.segment :=
  [MemFile.mkSegment "PT_LOAD" 0x8008 2 [0x33; 0x44]; MemFile.mkSegment "PT_NOTE" 0 1 [];
   MemFile.mkSegment "PT_LOAD" 0x8001 2 [0x11; 0x22]].

Lemma rom_image_bytes_witness :
  (f ← MemFile.load_elf32 demo_segs 0x8000; Scrambler.flatten (fun _ _ => 5) (mkScrambler 0 0 16 4) f) =
    Ok (mkMemFile 32 [mkChunk 0 [0x221100; 5; 0x4433; 5; 5; 5; 5; 5; 0; 0; 0; 0; 0; 0; 0; 0]]) ∧
  ∃ f, MemFile.load_elf32 demo_segs 0x8000 = Ok f ∧ separated 32 None (mf_chunks f) ∧
    (MemFile.next_addr f ≤ 16 - 8 →
     ∃ words, Scrambler.flatten (fun _ _ => 5) (mkScrambler 0 0 16 4) f =
         Ok (mkMemFile 32 [mkChunk 0 (words ++ replicate 8 0)]) ∧
       Z.of_nat (length words) = 16 - 8 ∧
       (∀ w, w ∈ words → (∃ c, c ∈ mf_chunks f ∧ w ∈ mc_words c) ∨ ∃ n : nat, w = 5) ∧
       ∀ s i b, s ∈ demo_segs → loaded s → MemFile.seg_data s !! i = Some b →
         let a := MemFile.seg_paddr s - 0x8000 + Z.of_nat i in
         ∃ w, words !! Z.to_nat (a / 4) = Some w ∧ limb 8 w (a `mod` 4) = b).
Proof.
  split; [by vm_compute |].
  apply (rom_image_bytes (fun _ _ => 5) (mkScrambler 0 0 16 4) demo_segs 0x8000); [done | |].
  - unfold demo_segs, full. rewrite !Forall_cons, Forall_nil. split_and!; [| by intros [] | | done];
      intros _; (split; [split; [done | apply (bool_decide_unpack _); by vm_compute] | done]).
  - unfold demo_segs, pairwise. rewrite !Forall_cons, !Forall_nil. unfold apart, loaded. cbn.
    split_and!; intros [] [] || done; [done | by right | done].
Defined.

(** Writing a memory image as VMEM text and reading the text back gives the same image, when
    its chunks are not empty, in order and separated by gaps, and its words fit the width. *)
Theorem vmem_roundtrip f :
  0 ≤ mf_width f → separated (mf_width f) None (mf_chunks f) →
  Vmem._load_preproc (mf_width f) (Vmem.write_vmem f) = Ok f.
Proof. intros Hw Hs. by apply load_written. Qed.

Lemma vmem_roundtrip_witness :
  Vmem._load_preproc 32 (Vmem.write_vmem (mkMemFile 32 [mkChunk 0 [1; 2; 3]; mkChunk 0x20 [0xdeadbeef]])) =
    Ok (mkMemFile 32 [mkChunk 0 [1; 2; 3]; mkChunk 0x20 [0xdeadbeef]]).
Proof.
  apply (vmem_roundtrip (mkMemFile 32 [mkChunk 0 [1; 2; 3]; mkChunk 0x20 [0xdeadbeef]])); [done |].
  cbn. repeat split; try done; repeat constructor; done.
Defined.

(** C25: the check bits that [add_ecc32] adds to a word do not protect the data: flipping two data
    bits of a protected word gives the protected form of another word, so two flipped bits are
    not detected, whatever the masks are. *)
Theorem add_ecc32_misses_double word bitmasks a b :
  in_bits 32 word → length bitmasks = 7%nat → Forall (in_bits 32) bitmasks →
  0 ≤ a < 32 → 0 ≤ b < 32 → a ≠ b →
  ∃ e, add_ecc32 word bitmasks = Ok e ∧
    add_ecc32 (word .^ (1 ≪ a) .^ (1 ≪ b)) bitmasks = Ok (e .^ (1 ≪ a) .^ (1 ≪ b)).
Proof.
  intros Hw Hl Hm Ha Hb Hne.
  assert (Hbit : ∀ c, 0 ≤ c < 32 → in_bits 32 (1 ≪ c)).
  { intros c Hc. rewrite Z.shiftl_1_l. split; [lia | apply Z.pow_lt_mono_r; lia]. }
  assert (Hflip : ∀ c, 0 ≤ c < 32 → parity 32 (1 ≪ c) = true).
  { intros c Hc. unfold parity. rewrite (xsum_single 32 c); [| done |].
    - rewrite testbit_shl1 by lia. apply Z.eqb_refl.
    - intros i _ Hi. rewrite testbit_shl1 by lia. by apply Z.eqb_neq. }
  rewrite !add_ecc32_eq by (repeat apply in_bits_lxor; auto; lia).
  rewrite !parity_lxor, !Hflip by done. rewrite xorb_true_r, xorb_true_r, negb_involutive.
  eexists. split; [done |]. f_equal. set (c := of_bits _).
  assert (Hlow : ∀ x i, in_bits 32 x → 32 ≤ i → Z.testbit x i = false)
    by (intros; by eapply testbit_in_bits).
  apply Z_bits_eq. intros i Hi. rewrite !Z.lor_spec, !Z.lxor_spec, Z.lor_spec, (testbit_shiftl c) by lia.
  destruct (Z.ltb_spec i 32).
  - rewrite !(testbit_neg c) by lia. by rewrite !orb_false_r.
  - rewrite !(Hlow (1 ≪ _)), Hlow by auto. by destruct (Z.testbit c (i - 32)).
Qed.

Lemma add_ecc32_misses_double_witness :
  ∃ e, add_ecc32 0x12345678 [1; 2; 3; 4; 5; 6; 7] = Ok e ∧
    add_ecc32 (0x12345678 .^ (1 ≪ 3) .^ (1 ≪ 30)) [1; 2; 3; 4; 5; 6; 7] = Ok (e .^ (1 ≪ 3) .^ (1 ≪ 30)).
Proof.
  apply (add_ecc32_misses_double 0x12345678 [1; 2; 3; 4; 5; 6; 7] 3 30);
    [done | done | by repeat constructor | lia | lia | lia].
Defined.
