(* ===== verification/RgLib.v ===== *)
(** Parsing support of the register generator (util/reggen/lib.py), and parameters (params.py).  A
    check on a value that the hjson loader returned gives the value or raises [ValueError]; the
    argument that names the object in the message is not modelled. *)

From Stdlib Require Import Ascii.
From S2P Require Import Prelude PyStr Yaml.

(** The value of a key that may be absent or [None]. *)
Definition yopt (k : string) (d : list (yaml * yaml)) : option yaml :=
  match yget k d with Some YNone => None | v => v end.

(** The truth value of an object.  [YOther] is a number with a fraction. *)
Definition ytruthy (y : yaml) : bool :=
  match y with
  | YNone => false
  | YBool b => b
  | YInt z => truthy z
  | YStr s => negb (String.eqb s "")
  | YList l => match l with [] => false | _ => true end
  | YDict d => match d with [] => false | _ => true end
  | YOther => true
  end.

Module RgLib.
Definition _VERILOG_KEYWORDS : list string :=
  ["alias"; "always"; "always_comb"; "always_ff"; "always_latch"; "and"; "assert"; "assign";
   "assume"; "automatic"; "before"; "begin"; "bind"; "bins"; "binsof"; "bit"; "break"; "buf";
   "bufif0"; "bufif1"; "byte"; "case"; "casex"; "casez"; "cell"; "chandle"; "class"; "clocking";
   "cmos"; "config"; "const"; "constraint"; "context"; "continue"; "cover"; "covergroup";
   "coverpoint"; "cross"; "deassign"; "default"; "defparam"; "design"; "disable"; "dist"; "do";
   "edge"; "else"; "end"; "endcase"; "endclass"; "endclocking"; "endconfig"; "endfunction";
   "endgenerate"; "endgroup"; "endinterface"; "endmodule"; "endpackage"; "endprimitive";
   "endprogram"; "endproperty"; "endspecify"; "endsequence"; "endtable"; "endtask"; "enum";
   "event"; "expect"; "export"; "extends"; "extern"; "final"; "first_match"; "for"; "force";
   "foreach"; "forever"; "fork"; "forkjoin"; "function"; "generate"; "genvar"; "highz0"; "highz1";
   "if"; "iff"; "ifnone"; "ignore_bins"; "illegal_bins"; "import"; "incdir"; "include"; "initial";
   "inout"; "input"; "inside"; "instance"; "int"; "integer"; "interface"; "intersect"; "join";
   "join_any"; "join_none"; "large"; "liblist"; "library"; "local"; "localparam"; "logic";
   "longint"; "macromodule"; "matches"; "medium"; "modport"; "module"; "nand"; "negedge"; "new";
   "nmos"; "nor"; "noshowcancelled"; "not"; "notif0"; "notif1"; "null"; "or"; "output"; "package";
   "packed"; "parameter"; "pmos"; "posedge"; "primitive"; "priority"; "program"; "property";
   "protected"; "pull0"; "pull1"; "pulldown"; "pullup"; "pulsestyle_onevent";
   "pulsestyle_ondetect"; "pure"; "rand"; "randc"; "randcase"; "randsequence"; "rcmos"; "real";
   "realtime"; "ref"; "reg"; "release"; "repeat"; "return"; "rnmos"; "rpmos"; "rtran"; "rtranif0";
   "rtranif1"; "scalared"; "sequence"; "shortint"; "shortreal"; "showcancelled"; "signed"; "small";
   "solve"; "specify"; "specparam"; "static"; "string"; "strong0"; "strong1"; "struct"; "super";
   "supply0"; "supply1"; "table"; "tagged"; "task"; "this"; "throughout"; "time"; "timeprecision";
   "timeunit"; "tran"; "tranif0"; "tranif1"; "tri"; "tri0"; "tri1"; "triand"; "trior"; "trireg";
   "type"; "typedef"; "union"; "unique"; "unsigned"; "use"; "uwire"; "var"; "vectored"; "virtual";
   "void"; "wait"; "wait_order"; "wand"; "weak0"; "weak1"; "while"; "wildcard"; "wire"; "with";
   "within"; "wor"; "xnor"; "xor"].

Definition is_str (y : yaml) : bool := match y with YStr _ => true | _ => false end.

Definition check_str_dict (obj : yaml) : res (list (yaml * yaml)) :=
  match obj with
  | YDict d => if forallb is_str d.*1 then Ok d else Err ValueError
  | _ => Err ValueError
  end.

Definition check_keys (obj : yaml) (required_keys optional_keys : list string) :
    res (list (yaml * yaml)) :=
  od ← check_str_dict obj;
  let allowed := required_keys ++ optional_keys in
  py_assert (bool_decide (NoDup allowed));;
  let missing := filter (fun k => yget k od = None) required_keys in
  let unexpected := filter (fun k => yaml_key_allowed allowed k = false) od.*1 in
  match missing, unexpected with
  | [], [] => Ok od
  | _, _ => Err ValueError
  end.

Definition check_str (obj : yaml) : res string :=
  match obj with YStr s => Ok s | _ => Err ValueError end.

(** [[a-zA-Z_]] and [[a-zA-Z_0-9]] *)
Definition is_alpha (c : ascii) : bool :=
  let n := Z.of_nat (nat_of_ascii c) in
  ((65 <=? n) && (n <=? 90)) || ((97 <=? n) && (n <=? 122)) || (n =? 95).
Definition is_name_char (c : ascii) : bool := is_alpha c || is_digit c.

(** [re.match(r'[a-zA-Z_][a-zA-Z_0-9]*$', s)] *)
Definition match_name (s : string) : bool :=
  match s with
  | String c s' => is_alpha c && at_end (span is_name_char s').2
  | EmptyString => false
  end.

Definition check_name (obj : yaml) : res string :=
  as_str ← check_str obj;
  if negb (match_name as_str) then Err ValueError
  else if bool_decide (as_str ∈ _VERILOG_KEYWORDS) then Err ValueError
  else Ok as_str.

Definition check_bool (obj : yaml) : res bool :=
  match obj with
  | YStr s =>
      let s := lower s in
      if String.eqb s "true" then Ok true
      else if String.eqb s "false" then Ok false
      else if String.eqb s "1" then Ok true
      else if String.eqb s "0" then Ok false
      else Err ValueError
  | YBool b => Ok b
  | _ => Err ValueError
  end.

Definition check_list (obj : yaml) : res (list yaml) :=
  match obj with YList l => Ok l | _ => Err ValueError end.

Definition check_str_list (obj : yaml) : res (list string) :=
  lst ← check_list obj;
  mapR check_str lst.

Definition check_name_list (obj : yaml) : res (list string) :=
  lst ← check_list obj;
  mapR check_name lst.

(** A Python [bool] is an [int]. *)
Definition check_int (obj : yaml) : res Z :=
  match obj with
  | YInt z => Ok z
  | YBool b => Ok (Z_of_bool b)
  | YStr s => int_auto s
  | _ => Err ValueError
  end.

Definition check_xint (obj : yaml) : res (option Z) :=
  match obj with
  | YInt z => Ok (Some z)
  | YBool b => Ok (Some (Z_of_bool b))
  | YStr s => if String.eqb s "x" then Ok None else z ← int_auto s; Ok (Some z)
  | _ => Err ValueError
  end.

Definition check_optional_str (obj : yaml) : res (option string) :=
  match obj with YNone => Ok None | _ => s ← check_str obj; Ok (Some s) end.

(** [re.search(r'_[0-9]+$', s)]: the end of the string that matches, as the first position from
    the left. *)
Definition match_suffix (s : string) : bool :=
  match s with
  | String c s' =>
      Ascii.eqb c "_" && (let '(ds, rest) := span is_digit s' in negb (String.eqb ds "") && at_end rest)
  | EmptyString => false
  end.
Fixpoint search_suffix (pos : nat) (s : string) : option nat :=
  if match_suffix s then Some pos
  else match s with EmptyString => None | String _ s => search_suffix (S pos) s end.

(** Strip trailing _number. *)
Definition get_basename (name : string) : res string :=
  match search_suffix 0 name with
  | None => Err AssertionError
  | Some start => py_assert (0 <? Z.of_nat start);; Ok (String.substring 0 start name)
  end.
End RgLib.

(** The classes of parameters.  [applied_default] is the attribute that [apply_default] sets
    on a local parameter, which nothing reads. *)
Inductive BaseParam :=
  | LocalParam (name : string) (desc : option string) (param_type value : string)
      (applied_default : option string)
  | Parameter_ (name : string) (desc : option string) (param_type default : string) (expose : bool)
  | RandParameter (name : string) (desc : option string) (param_type : string) (randcount : Z)
      (randtype : string).

Module BaseParam.
Definition name (p : BaseParam) : string :=
  match p with LocalParam n _ _ _ _ | Parameter_ n _ _ _ _ | RandParameter n _ _ _ _ => n end.
Definition param_type (p : BaseParam) : string :=
  match p with LocalParam _ _ t _ _ | Parameter_ _ _ t _ _ | RandParameter _ _ t _ _ => t end.

(** [s[:3] == 'int'] *)
Definition is_int_type (t : string) : bool := String.eqb (String.substring 0 3 t) "int".

Definition apply_default (value : string) (p : BaseParam) : res BaseParam :=
  match p with
  | RandParameter _ _ _ _ _ => Err ValueError
  | _ =>
      (if is_int_type (param_type p) then RgLib.check_int (YStr value);; Ok () else Ok ());;
      Ok (match p with
          | LocalParam n d t v _ => LocalParam n d t v (Some value)
          | Parameter_ n d t _ e => Parameter_ n d t value e
          | p => p
          end)
  end.

Definition rand_init (name : string) (desc : option string) (param_type : string) (randcount : Z)
    (randtype : string) : res BaseParam :=
  py_assert (0 <? randcount);;
  py_assert (bool_decide (randtype ∈ ["perm"; "data"]));;
  Ok (RandParameter name desc param_type randcount randtype).

Definition expand_value (p : BaseParam) : res Z :=
  match p with LocalParam _ _ _ value _ => int_auto value | _ => Err AttributeError end.
End BaseParam.

Definition PARAM_REQUIRED_FIELDS : list string := ["name"].
Definition PARAM_OPTIONAL_FIELDS : list string :=
  ["desc"; "type"; "default"; "local"; "expose"; "randcount"; "randtype"].

Definition check_opt {A} (check : yaml → res A) (o : option yaml) : res (option A) :=
  match o with None => Ok None | Some y => a ← check y; Ok (Some a) end.

(** [rd.get(k, d)] *)
Definition ydefault (k : string) (dflt : yaml) (d : list (yaml * yaml)) : yaml := default dflt (yget k d).

(** A random netlist constant. *)
Definition parse_rand (rd : list (yaml * yaml)) (name : string) (desc : option string) : res BaseParam :=
  randtype ← RgLib.check_str (ydefault "randtype" (YStr "none") rd);
  if negb (bool_decide (randtype ∈ ["perm"; "data"])) then Err ValueError
  else
    r_randcount ← of_option ValueError (yopt "randcount" rd);
    randcount ← RgLib.check_int r_randcount;
    if randcount <=? 0 then Err ValueError
    else
      r_type ← of_option ValueError (yopt "type" rd);
      param_type ← RgLib.check_str r_type;
      local ← RgLib.check_bool (ydefault "local" (YStr "false") rd);
      if (local : bool) then Err ValueError
      else match yopt "default" rd with
      | Some _ => Err ValueError
      | None =>
          expose ← RgLib.check_bool (ydefault "expose" (YStr "false") rd);
          if (expose : bool) then Err ValueError
          else BaseParam.rand_init name desc param_type randcount randtype
      end.

(** Any other parameter. *)
Definition parse_plain (rd : list (yaml * yaml)) (name : string) (desc : option string) : res BaseParam :=
  if existsb (fun fld => bool_decide (is_Some (yget fld rd))) ["randcount"; "randtype"]
  then Err ValueError
  else
    param_type ← match yopt "type" rd with None => Ok "int"%string | Some y => RgLib.check_str y end;
    local ← RgLib.check_bool (ydefault "local" (YStr "true") rd);
    expose ← RgLib.check_bool (ydefault "expose" (YStr "false") rd);
    r_default ← of_option ValueError (yopt "default" rd);
    default ← RgLib.check_str r_default;
    (if BaseParam.is_int_type param_type then RgLib.check_int (YStr default);; Ok () else Ok ());;
    if (local : bool) then
      if (expose : bool) then Err ValueError else Ok (LocalParam name desc param_type default None)
    else Ok (Parameter_ name desc param_type default expose).

Definition _parse_parameter (raw : yaml) : res BaseParam :=
  rd ← RgLib.check_keys raw PARAM_REQUIRED_FIELDS PARAM_OPTIONAL_FIELDS;
  name ← (n ← of_option KeyError (yget "name" rd); RgLib.check_str n);
  desc ← check_opt RgLib.check_str (yopt "desc" rd);
  if String.prefix "rndcnst" (lower name) && bool_decide (is_Some (yget "randtype" rd))
  then parse_rand rd name desc
  else parse_plain rd name desc.

(** The parameters by name. *)
Module Params.
Definition add (param : BaseParam) (p : dict BaseParam) : res (dict BaseParam) :=
  match dget (BaseParam.name param) p with
  | Some _ => Err AssertionError
  | None => Ok (dset (BaseParam.name param) param p)
  end.

Definition apply_defaults (defaults : list (string * string)) (p : dict BaseParam) : res (dict BaseParam) :=
  foldM (fun p '(key, value) =>
    param ← of_option KeyError (dget key p);
    param ← BaseParam.apply_default value param;
    Ok (dset key param p)) p defaults.

Definition _expand_one (p : dict BaseParam) (value : string) : res Z :=
  match int_auto value with
  | Ok z => Ok z
  | Err _ =>
      match dget value p with
      | Some (LocalParam _ _ _ _ _ as param) => BaseParam.expand_value param
      | _ => Err ValueError
      end
  end.

(** [re.split(r'([+-])', s)]: [cur] is the piece being read, in reverse. *)
Definition is_op (c : ascii) : bool := Ascii.eqb c "+" || Ascii.eqb c "-".
Fixpoint split_ops (cur s : string) : list string :=
  match s with
  | EmptyString => [String.rev cur]
  | String c s =>
      if is_op c then String.rev cur :: String c EmptyString :: split_ops EmptyString s
      else split_ops (String c cur) s
  end.

Definition expand_tok (p : dict BaseParam) (st : Z * bool) (t : nat * string) : res (Z * bool) :=
  let '(acc, is_neg) := st in
  let '(idx, tok) := t in
  if (idx =? 0)%nat && String.eqb tok "" then Ok st
  else if Nat.odd idx then Ok (acc, String.eqb tok "-")
  else
    term ← _expand_one p (strip tok);
    Ok (acc + (if is_neg then - term else term), is_neg).

Definition expand (p : dict BaseParam) (value : string) : res Z :=
  '(acc, _) ← foldM (expand_tok p) (0, false) (imap pair (split_ops EmptyString value));
  Ok acc.
End Params.

Module ReggenParams.
Definition from_raw (raw : yaml) : res (dict BaseParam) :=
  rl ← RgLib.check_list raw;
  foldM (fun ret r_param =>
    param ← _parse_parameter r_param;
    match dget (BaseParam.name param) ret with
    | Some _ => Err ValueError
    | None => Params.add param ret
    end) [] rl.

Definition is_local (param : BaseParam) : bool :=
  match param with LocalParam _ _ _ _ _ => true | _ => false end.
Definition get_localparams (p : dict BaseParam) : list BaseParam :=
  filter (fun param => is_local param = true) p.*2.
End ReggenParams.
