(* ===== verification/RgField.v ===== *)
(** Fields of a register (util/reggen: access.py, bits.py, enum_entry.py, field.py). *)

From Stdlib Require Import Ascii.
From stdpp Require Import pretty.
From S2P Require Import Prelude PyStr PyList Yaml RgLib.

(** ** Access types (access.py) *)

Inductive SwWrAccess := SwWr_WR | SwWr_NONE.
Inductive SwRdAccess := SwRd_RD | SwRd_RC | SwRd_NONE.
Inductive SwAccess := SwA_RO | SwA_RW | SwA_WO | SwA_W1C | SwA_W1S | SwA_W0C | SwA_RC | SwA_R0W1C | SwA_NONE.
Inductive HwAccess := HwA_HRO | HwA_HRW | HwA_HWO | HwA_NONE.

#[global] Instance SwWrAccess_eq : EqDecision SwWrAccess.
Proof. solve_decision. Defined.
#[global] Instance SwRdAccess_eq : EqDecision SwRdAccess.
Proof. solve_decision. Defined.

(** The permitted values without their descriptions: access, write access, read access, and
    whether the access is usual for a window. *)
Definition SWACCESS_PERMITTED : dict (SwAccess * SwWrAccess * SwRdAccess * bool) :=
  [("none", (SwA_NONE, SwWr_NONE, SwRd_NONE, false));
   ("ro", (SwA_RO, SwWr_NONE, SwRd_RD, true));
   ("rc", (SwA_RC, SwWr_WR, SwRd_RC, false));
   ("rw", (SwA_RW, SwWr_WR, SwRd_RD, true));
   ("r0w1c", (SwA_W1C, SwWr_WR, SwRd_NONE, false));
   ("rw1s", (SwA_W1S, SwWr_WR, SwRd_RD, false));
   ("rw1c", (SwA_W1C, SwWr_WR, SwRd_RD, false));
   ("rw0c", (SwA_W0C, SwWr_WR, SwRd_RD, false));
   ("wo", (SwA_WO, SwWr_WR, SwRd_NONE, true))]%string.

Definition HWACCESS_PERMITTED : dict HwAccess :=
  [("hro", HwA_HRO); ("hrw", HwA_HRW); ("hwo", HwA_HWO); ("none", HwA_NONE)]%string.

Record SWAccess := mkSWAccess { sw_key : string; sw_value : SwAccess * SwWrAccess * SwRdAccess * bool }.
Record HWAccess := mkHWAccess { hw_key : string; hw_value : HwAccess }.

Module SWAccess.
Definition init (raw : yaml) : res SWAccess :=
  key ← RgLib.check_str raw;
  value ← of_option ValueError (dget key SWACCESS_PERMITTED);
  Ok (mkSWAccess key value).

Definition dv_rights (a : SWAccess) : res string :=
  if bool_decide (sw_key a ∈ ["none"; "ro"; "rc"]) then Ok "RO"%string
  else if bool_decide (sw_key a ∈ ["rw"; "r0w1c"; "rw1s"; "rw1c"; "rw0c"]) then Ok "RW"%string
  else py_assert (String.eqb (sw_key a) "wo");; Ok "WO"%string.

Definition swrd (a : SWAccess) : SwRdAccess := (sw_value a).1.2.
Definition allows_read (a : SWAccess) : bool := negb (bool_decide (swrd a = SwRd_NONE)).
Definition allows_write (a : SWAccess) : bool := bool_decide ((sw_value a).1.1.2 = SwWr_WR).
(** [value[4]] *)
Definition ok_in_window (a : SWAccess) : bool := (sw_value a).2.
End SWAccess.

Module HWAccess.
Definition init (raw : yaml) : res HWAccess :=
  key ← RgLib.check_str raw;
  value ← of_option ValueError (dget key HWACCESS_PERMITTED);
  Ok (mkHWAccess key value).

Definition allows_read (a : HWAccess) : bool := bool_decide (hw_key a ∈ ["hro"; "hrw"]).
Definition allows_write (a : HWAccess) : bool := bool_decide (hw_key a ∈ ["hrw"; "hwo"]).
End HWAccess.

(** ** Bit ranges (bits.py) *)

Record Bits := mkBits { b_msb : Z; b_lsb : Z }.

Module Bits.
Definition init (msb lsb : Z) : res Bits :=
  py_assert ((0 <=? lsb) && (lsb <=? msb));;
  Ok (mkBits msb lsb).

Definition bitmask (b : Bits) : Z := (1 ≪ (b_msb b + 1)) - (1 ≪ b_lsb b).
Definition width (b : Bits) : Z := 1 + b_msb b - b_lsb b.
Definition max_value (b : Bits) : Z := (1 ≪ width b) - 1.
Definition extract_field (reg_val : Z) (b : Bits) : Z := (reg_val .& bitmask b) ≫ b_lsb b.

Definition _parse_str (params : dict BaseParam) (str_val : string) : res (Z * Z) :=
  match int_dec str_val with
  | Ok idx => Ok (idx, idx)
  | Err _ =>
      match split ":"%char str_val with
      | [msb; lsb] => m ← Params.expand params msb; l ← Params.expand params lsb; Ok (m, l)
      | _ => Err ValueError
      end
  end.

Definition from_raw (reg_width : Z) (params : dict BaseParam) (raw : yaml) : res Bits :=
  '(msb, lsb) ←
    match raw with
    | YInt z => Ok (z, z)
    | YBool b => Ok (Z_of_bool b, Z_of_bool b)
    | _ => s ← RgLib.check_str raw; _parse_str params s
    end;
  if msb <? lsb then Err ValueError
  else if lsb <? 0 then Err ValueError
  else if reg_width <=? msb then Err ValueError
  else init msb lsb.

Definition make_translated (bit_offset : Z) (b : Bits) : res Bits :=
  py_assert (0 <=? bit_offset);;
  init (b_msb b + bit_offset) (b_lsb b + bit_offset).

Definition as_str (b : Bits) : res string :=
  if b_lsb b =? b_msb b then Ok (pretty (b_lsb b))
  else py_assert (b_lsb b <? b_msb b);; Ok (pretty (b_msb b) +:+ ":" +:+ pretty (b_lsb b)).
End Bits.

(** ** Entries of an enumeration (enum_entry.py) *)

Record EnumEntry := mkEnumEntry { e_name : string; e_desc : string; e_value : Z }.

Module EnumEntry.
Definition init (max_val : Z) (raw : yaml) : res EnumEntry :=
  rd ← RgLib.check_keys raw ["name"; "desc"; "value"] [];
  name ← (y ← of_option KeyError (yget "name" rd); RgLib.check_str y);
  desc ← (y ← of_option KeyError (yget "desc" rd); RgLib.check_str y);
  value ← (y ← of_option KeyError (yget "value" rd); RgLib.check_int y);
  if negb ((0 <=? value) && (value <=? max_val)) then Err ValueError
  else Ok (mkEnumEntry name desc value).
End EnumEntry.

(** ** Fields (field.py) *)

Record Field := mkField {
  f_name : string;
  f_desc : option string;
  f_tags : list string;
  f_swaccess : SWAccess;
  f_hwaccess : HWAccess;
  f_hwqe : bool;
  f_hwre : bool;
  f_bits : Bits;
  f_resval : option Z;
  f_enum : option (list EnumEntry);
}.

Module Field.
Definition REQUIRED_FIELDS : list string := ["bits"].
Definition OPTIONAL_FIELDS : list string :=
  ["name"; "desc"; "swaccess"; "hwaccess"; "resval"; "enum"; "tags"].

(** The reset value of a field, given that of the register. *)
Definition read_resval (bits : Bits) (reg_resval : option Z) (raw_resval : option yaml) : res (option Z) :=
  match raw_resval with
  | None => Ok ((fun v => Bits.extract_field v bits) <$> reg_resval)
  | Some raw =>
      resval ← RgLib.check_xint raw;
      match resval with
      | None => match reg_resval with Some _ => Err ValueError | None => Ok None end
      | Some v =>
          if negb ((0 <=? v) && (v <=? Bits.max_value bits)) then Err ValueError
          else match reg_resval with
          | Some r => if negb (v =? Bits.extract_field r bits) then Err ValueError else Ok (Some v)
          | None => Ok (Some v)
          end
      end
  end.

(** One entry of the enumeration; a value may occur once. *)
Definition add_entry (max_val : Z) (enum : list EnumEntry) (raw_entry : yaml) : res (list EnumEntry) :=
  entry ← EnumEntry.init max_val raw_entry;
  if bool_decide (e_value entry ∈ e_value <$> enum) then Err ValueError
  else Ok (enum ++ [entry]).

Definition from_raw (reg_name : string) (field_idx num_fields : Z) (default_swaccess : SWAccess)
    (default_hwaccess : HWAccess) (reg_resval : option Z) (reg_width : Z) (reg_hwqe reg_hwre : bool)
    (params : dict BaseParam) (raw : yaml) : res Field :=
  rd ← RgLib.check_keys raw REQUIRED_FIELDS OPTIONAL_FIELDS;
  name ←
    match yopt "name" rd with
    | None => Ok (if 1 <? num_fields then "field" +:+ pretty (field_idx + 1) else reg_name)
    | Some raw_name => RgLib.check_name raw_name
    end;
  desc ←
    match yopt "desc" rd with
    | None => match yopt "name" rd with Some _ => Err ValueError | None => Ok None end
    | Some raw_desc => d ← RgLib.check_str raw_desc; Ok (Some d)
    end;
  tags ← RgLib.check_str_list (ydefault "tags" (YList []) rd);
  swaccess ←
    match yopt "swaccess" rd with Some raw => SWAccess.init raw | None => Ok default_swaccess end;
  hwaccess ←
    match yopt "hwaccess" rd with Some raw => HWAccess.init raw | None => Ok default_hwaccess end;
  bits ← (y ← of_option KeyError (yget "bits" rd); Bits.from_raw reg_width params y);
  resval ← read_resval bits reg_resval (yopt "resval" rd);
  enum ←
    match yopt "enum" rd with
    | None => Ok None
    | Some raw_enum =>
        raw_entries ← RgLib.check_list raw_enum;
        enum ← foldM (add_entry (Bits.max_value bits)) [] raw_entries;
        Ok (Some enum)
    end;
  Ok (mkField name desc tags swaccess hwaccess reg_hwqe reg_hwre bits resval enum).

Definition has_incomplete_enum (f : Field) : bool :=
  match f_enum f with
  | None => false
  | Some enum => negb (Z.of_nat (length enum) =? 1 + Bits.max_value (f_bits f))
  end.

Definition get_n_bits (hwext : bool) (bittype : list string) (f : Field) : Z :=
  let has t := bool_decide (t ∈ bittype) in
  let rd := HWAccess.allows_read (f_hwaccess f) in
  let wr := HWAccess.allows_write (f_hwaccess f) in
  (if has "q"%string && rd then Bits.width (f_bits f) else 0)
  + (if has "d"%string && wr then Bits.width (f_bits f) else 0)
  + (if has "qe"%string && rd then Z_of_bool (f_hwqe f) else 0)
  + (if has "re"%string && rd then Z_of_bool (f_hwre f) else 0)
  + (if has "de"%string && wr then Z_of_bool (negb hwext) else 0).

(** The description and enumeration of a copy: only the first copy has the original ones. *)
Definition copy_desc (cname : string) (creg_idx : Z) (stripped : bool) (f : Field) : option string :=
  if stripped then Some ("For " +:+ cname +:+ pretty creg_idx) else f_desc f.
Definition copy_enum (stripped : bool) (f : Field) : option (list EnumEntry) :=
  if stripped then None else f_enum f.

(** Copy number [reg_idx] in a register whose first copy is number [min_reg_idx]. *)
Definition make_copy (min_reg_idx : Z) (cname : string) (creg_idx : Z) (stripped : bool) (f : Field)
    (reg_idx : Z) : res Field :=
  let field_width := b_msb (f_bits f) + 1 in
  let name := f_name f +:+ "_" +:+ pretty reg_idx in
  let bit_offset := field_width * (reg_idx - min_reg_idx) in
  bits ← (if bit_offset =? 0 then Ok (f_bits f) else Bits.make_translated bit_offset (f_bits f));
  Ok (mkField name (copy_desc cname creg_idx stripped f) (f_tags f) (f_swaccess f) (f_hwaccess f)
        (f_hwqe f) (f_hwre f) bits (f_resval f) (copy_enum stripped f)).

Definition make_multi (reg_width min_reg_idx max_reg_idx : Z) (cname : string) (creg_idx : Z)
    (stripped : bool) (f : Field) : res (list Field) :=
  py_assert ((0 <=? min_reg_idx) && (min_reg_idx <=? max_reg_idx));;
  let num_copies := 1 + max_reg_idx - min_reg_idx in
  let field_width := b_msb (f_bits f) + 1 in
  if reg_width <? field_width * num_copies then Err ValueError
  else mapR (make_copy min_reg_idx cname creg_idx stripped f) (seqZ min_reg_idx num_copies).

Definition make_suffixed (suffix cname : string) (creg_idx : Z) (stripped : bool) (f : Field) : Field :=
  mkField (f_name f +:+ suffix) (copy_desc cname creg_idx stripped f) (f_tags f) (f_swaccess f)
    (f_hwaccess f) (f_hwqe f) (f_hwre f) (f_bits f) (f_resval f) (copy_enum stripped f).
End Field.
