(* ===== verification/RgRegister.v ===== *)
(** Registers, multi-registers and windows (util/reggen: register.py, multi_register.py,
    window.py). *)

From stdpp Require Import pretty.
From S2P Require Import Prelude PyStr PyList Yaml RgLib RgField.

(** ** Registers *)

Record Register := mkRegister {
  r_offset : Z;
  r_name : string;
  r_desc : string;
  r_swaccess : SWAccess;
  r_hwaccess : HWAccess;
  r_hwext : bool;
  r_hwqe : bool;
  r_hwre : bool;
  r_regwen : option string;
  r_tags : list string;
  r_shadowed : bool;
  r_fields : list Field;
  r_name_to_field : dict Field;
  r_resval : Z;
  r_resmask : Z;
  r_update_err_alert : option string;
  r_storage_err_alert : option string;
}.

(** [s.endswith(sfx)] *)
Definition endswith (sfx s : string) : bool :=
  (String.length sfx <=? String.length s)%nat &&
  String.eqb (String.substring (String.length s - String.length sfx) (String.length sfx) s) sfx.

Module Register.
Definition REQUIRED_FIELDS : list string := ["name"; "desc"; "fields"].
Definition OPTIONAL_FIELDS : list string :=
  ["swaccess"; "hwaccess"; "hwext"; "hwqe"; "hwre"; "regwen"; "resval"; "tags"; "shadowed";
   "update_err_alert"; "storage_err_alert"].

(** The access of a register, on the key of its [swaccess]. *)
Definition key_readable (key : string) : bool := negb (bool_decide (key ∈ ["wo"; "r0w1c"])).
Definition key_writable (key : string) : bool := negb (String.eqb key "ro").
Definition sw_readable (r : Register) : bool := key_readable (sw_key (r_swaccess r)).
Definition sw_writable (r : Register) : bool := key_writable (sw_key (r_swaccess r)).

(** The loop that is meant to check that the fields are disjoint: [bits_used] stays zero. *)
Definition check_disjoint (fields : list Field) : res () :=
  let bits_used := 0 in
  foldM (fun _ field =>
    let field_mask := Bits.bitmask (f_bits field) in
    if truthy (bits_used .& field_mask) then Err ValueError else Ok ()) () fields.

(** The reset value and mask collected from the fields. *)
Definition collect_reset (fields : list Field) : Z * Z :=
  foldl (fun '(resval, resmask) field =>
    (resval .| (default 0 (f_resval field) ≪ b_lsb (f_bits field)),
     resmask .| Bits.bitmask (f_bits field))) (0, 0) fields.

Definition init (offset : Z) (name desc : string) (swaccess : SWAccess) (hwaccess : HWAccess)
    (hwext hwqe hwre : bool) (regwen : option string) (tags : list string) (resval : option Z)
    (shadowed : bool) (fields : list Field) (update_err_alert storage_err_alert : option string) :
    res Register :=
  if hwext && String.eqb (hw_key hwaccess) "hro" && key_readable (sw_key swaccess) then Err ValueError
  else if hwext && negb hwqe && key_writable (sw_key swaccess) then Err ValueError
  else if hwre && negb hwext then Err ValueError
  else
    let sounds_shadowy := endswith "_shadowed" (lower name) in
    if shadowed && negb sounds_shadowy then Err ValueError
    else if sounds_shadowy && negb shadowed then Err ValueError
    else
      py_assert (match fields with [] => false | _ => true end);;
      let fields := sort_by (fun f => b_lsb (f_bits f)) fields in
      name_to_field ← index_list fields f_name;
      check_disjoint fields;;
      let '(field_resval, resmask) := collect_reset fields in
      if match resval with Some v => negb (field_resval =? v) | None => false end then Err ValueError
      else Ok (mkRegister offset name desc swaccess hwaccess hwext hwqe hwre regwen tags shadowed
                 fields name_to_field field_resval resmask update_err_alert storage_err_alert).

Definition from_raw (reg_width offset : Z) (params : dict BaseParam) (raw : yaml) : res Register :=
  rd ← RgLib.check_keys raw REQUIRED_FIELDS OPTIONAL_FIELDS;
  name ← (y ← of_option KeyError (yget "name" rd); RgLib.check_name y);
  desc ← (y ← of_option KeyError (yget "desc" rd); RgLib.check_str y);
  swaccess ← SWAccess.init (ydefault "swaccess" (YStr "none") rd);
  hwaccess ← HWAccess.init (ydefault "hwaccess" (YStr "hro") rd);
  hwext ← RgLib.check_bool (ydefault "hwext" (YBool false) rd);
  hwqe ← RgLib.check_bool (ydefault "hwqe" (YBool false) rd);
  hwre ← RgLib.check_bool (ydefault "hwre" (YBool false) rd);
  regwen ←
    (let raw_regwen := ydefault "regwen" (YStr "") rd in
     if negb (ytruthy raw_regwen) then Ok None else n ← RgLib.check_name raw_regwen; Ok (Some n));
  tags ← RgLib.check_str_list (ydefault "tags" (YList []) rd);
  resval ←
    match yopt "resval" rd with
    | None => Ok None
    | Some raw_resval =>
        v ← RgLib.check_int raw_resval;
        if negb (fits reg_width v) then Err ValueError else Ok (Some v)
    end;
  shadowed ← RgLib.check_bool (ydefault "shadowed" (YBool false) rd);
  raw_fields ← (y ← of_option KeyError (yget "fields" rd); RgLib.check_list y);
  match raw_fields with
  | [] => Err ValueError
  | _ =>
      fields ← mapR (fun '(idx, rf) =>
        Field.from_raw name (Z.of_nat idx) (Z.of_nat (length raw_fields)) swaccess hwaccess resval
          reg_width hwqe hwre params rf) (imap pair raw_fields);
      update_err_alert ← check_opt RgLib.check_name (yopt "update_err_alert" rd);
      storage_err_alert ← check_opt RgLib.check_name (yopt "storage_err_alert" rd);
      init offset name desc swaccess hwaccess hwext hwqe hwre regwen tags resval shadowed fields
        update_err_alert storage_err_alert
  end.

Definition next_offset (addrsep : Z) (r : Register) : Z := r_offset r + addrsep.
Definition dv_rights (r : Register) : res string := SWAccess.dv_rights (r_swaccess r).
Definition get_n_bits (bittype : list string) (r : Register) : Z :=
  foldr Z.add 0 (Field.get_n_bits (r_hwext r) bittype <$> r_fields r).
Definition get_field_list (r : Register) : list Field := r_fields r.
Definition is_homogeneous (r : Register) : bool := (length (r_fields r) =? 1)%nat.

(** One more than the highest bit of the last field. *)
Definition get_width (r : Register) : res Z :=
  f ← py_nth (r_fields r) (-1); Ok (1 + b_msb (f_bits f)).

Definition make_multi (reg_width offset creg_idx creg_count : Z) (regwen_multi compact : bool)
    (min_reg_idx max_reg_idx : Z) (cname : string) (r : Register) : res Register :=
  py_assert ((0 <=? creg_idx) && (creg_idx <? creg_count));;
  py_assert ((0 <=? min_reg_idx) && (min_reg_idx <=? max_reg_idx));;
  py_assert (compact || (min_reg_idx =? max_reg_idx));;
  let new_name := if 1 <? creg_count then r_name r +:+ "_" +:+ pretty creg_idx else r_name r in
  let new_regwen :=
    match r_regwen r with
    | Some w => if negb regwen_multi || (creg_count =? 1) then Some w else Some (w +:+ "_" +:+ pretty creg_idx)
    | None => None
    end in
  let strip_field := 0 <? creg_idx in
  new_fields ←
    (if compact then
       match r_fields r with
       | [f] => Field.make_multi reg_width min_reg_idx max_reg_idx cname creg_idx strip_field f
       | _ => Err AssertionError
       end
     else
       py_assert (creg_idx =? min_reg_idx);;
       Ok (Field.make_suffixed ("_" +:+ pretty creg_idx) cname creg_idx strip_field <$> r_fields r));
  init offset new_name (r_desc r) (r_swaccess r) (r_hwaccess r) (r_hwext r) (r_hwqe r) (r_hwre r)
    new_regwen (r_tags r) None (r_shadowed r) new_fields (r_update_err_alert r) (r_storage_err_alert r).
End Register.

(** ** Multi-registers *)

Record MultiRegister := mkMultiRegister {
  mr_offset : Z;
  mr_reg : Register;
  mr_cname : string;
  mr_regwen_multi : bool;
  mr_compact : bool;
  mr_count : Z;
  mr_regs : list Register;
}.

Module MultiRegister.
Definition REQUIRED_FIELDS : list string := ["name"; "desc"; "count"; "cname"; "fields"].
Definition OPTIONAL_FIELDS : list string := Register.OPTIONAL_FIELDS ++ ["regwen_multi"; "compact"].

(** The part of the dictionary that describes the register. *)
Definition reg_part (rd : list (yaml * yaml)) : list (yaml * yaml) :=
  filter (fun kv => yaml_key_allowed (Register.REQUIRED_FIELDS ++ Register.OPTIONAL_FIELDS) kv.1 = true) rd.

(** Number of registers in a compacted register. *)
Definition regs_per_creg (reg_width : Z) (compact : bool) (reg : Register) : res Z :=
  if compact then
    match r_fields reg with
    | [f] =>
        let width_per_reg := b_msb (f_bits f) + 1 in
        py_assert (width_per_reg <=? reg_width);;
        Ok (reg_width / width_per_reg)
    | _ => Err AssertionError
    end
  else Ok 1.

Definition make_creg (offset addrsep reg_width : Z) (reg : Register) (cname : string)
    (regwen_multi compact : bool) (count per creg_count creg_idx : Z) : res Register :=
  let min_reg_idx := per * creg_idx in
  let max_reg_idx := Z.min (min_reg_idx + per) count - 1 in
  let creg_offset := offset + creg_idx * addrsep in
  Register.make_multi reg_width creg_offset creg_idx creg_count regwen_multi compact
    min_reg_idx max_reg_idx cname reg.

Definition init (offset addrsep reg_width : Z) (params : dict BaseParam) (raw : yaml) : res MultiRegister :=
  rd ← RgLib.check_keys raw REQUIRED_FIELDS OPTIONAL_FIELDS;
  reg ← Register.from_raw reg_width offset params (YDict (reg_part rd));
  cname ← (y ← of_option KeyError (yget "cname" rd); RgLib.check_name y);
  regwen_multi ← RgLib.check_bool (ydefault "regwen_multi" (YBool false) rd);
  let default_compact := (length (r_fields reg) =? 1)%nat in
  compact ← RgLib.check_bool (ydefault "compact" (YBool default_compact) rd);
  if compact && (1 <? length (r_fields reg))%nat then Err ValueError
  else
    count_str ← (y ← of_option KeyError (yget "count" rd); RgLib.check_str y);
    count ← Params.expand params count_str;
    if count <=? 0 then Err ValueError
    else
      per ← regs_per_creg reg_width compact reg;
      let creg_count := (count + per - 1) / per in
      regs ← mapR (make_creg offset addrsep reg_width reg cname regwen_multi compact count per creg_count)
               (seqZ 0 creg_count);
      Ok (mkMultiRegister offset reg cname regwen_multi compact count regs).

Definition next_offset (addrsep : Z) (m : MultiRegister) : Z :=
  mr_offset m + Z.of_nat (length (mr_regs m)) * addrsep.
Definition get_n_bits (bittype : list string) (m : MultiRegister) : Z :=
  foldr Z.add 0 (Register.get_n_bits bittype <$> mr_regs m).
Definition get_field_list (m : MultiRegister) : list Field := mr_regs m ≫= Register.get_field_list.
Definition is_homogeneous (m : MultiRegister) : bool := Register.is_homogeneous (mr_reg m).
End MultiRegister.

(** ** Windows *)

Record Window := mkWindow {
  w_name : string;
  w_desc : string;
  w_unusual : bool;
  w_byte_write : bool;
  w_data_intg_passthru : bool;
  w_validbits : Z;
  w_items : Z;
  w_size_in_bytes : Z;
  w_offset : Z;
  w_swaccess : SWAccess;
}.

Module Window.
Definition REQUIRED_FIELDS : list string := ["name"; "desc"; "items"; "swaccess"].
Definition OPTIONAL_FIELDS : list string := ["data-intg-passthru"; "byte-write"; "validbits"; "unusual"].

Definition po2_size (size_in_bytes : Z) : Z := 1 ≪ bit_length (size_in_bytes - 1).

Definition init (name desc : string) (unusual byte_write data_intg_passthru : bool)
    (validbits items size_in_bytes offset : Z) (swaccess : SWAccess) : res Window :=
  py_assert (0 <? validbits);;
  py_assert ((0 <? items) && (items <=? size_in_bytes));;
  py_assert (negb (truthy (offset .& (po2_size size_in_bytes - 1))));;
  Ok (mkWindow name desc unusual byte_write data_intg_passthru validbits items size_in_bytes offset swaccess).

Definition from_raw (offset reg_width : Z) (params : dict BaseParam) (raw : yaml) : res Window :=
  rd ← RgLib.check_keys raw REQUIRED_FIELDS OPTIONAL_FIELDS;
  name ← (y ← of_option KeyError (yget "name" rd); RgLib.check_str y);
  desc ← (y ← of_option KeyError (yget "desc" rd); RgLib.check_str y);
  unusual ← RgLib.check_bool (ydefault "unusual" (YBool false) rd);
  byte_write ← RgLib.check_bool (ydefault "byte-write" (YBool false) rd);
  data_intg_passthru ← RgLib.check_bool (ydefault "data-intg-passthru" (YBool false) rd);
  validbits ← RgLib.check_int (ydefault "validbits" (YInt reg_width) rd);
  if validbits <=? 0 then Err ValueError
  else if reg_width <? validbits then Err ValueError
  else
    r_items ← (y ← of_option KeyError (yget "items" rd); RgLib.check_str y);
    items ← Params.expand params r_items;
    if items <=? 0 then Err ValueError
    else
      py_assert (reg_width `mod` 8 =? 0);;
      let size_in_bytes := items * (reg_width / 8) in
      py_assert (0 <? size_in_bytes);;
      let po2_size := po2_size size_in_bytes in
      if negb (po2_size =? size_in_bytes) && negb unusual then Err ValueError
      else
        let addr_mask := po2_size - 1 in
        let offset := if truthy (offset .& addr_mask) then (offset .| addr_mask) + 1 else offset in
        swaccess ← (y ← of_option KeyError (yget "swaccess" rd); SWAccess.init y);
        if negb (SWAccess.ok_in_window swaccess || unusual) then Err ValueError
        else init name desc unusual byte_write data_intg_passthru validbits items size_in_bytes offset swaccess.

Definition next_offset (addrsep : Z) (w : Window) : Z := w_offset w + w_size_in_bytes w.
End Window.
