(* ===== verification/RgBlock.v ===== *)
(** Register blocks (util/reggen: signal.py, alert.py, reg_block.py). *)

From Stdlib Require Import Ascii.
From stdpp Require Import pretty.
From S2P Require Import Prelude PyStr PyList Yaml RgLib RgField RgRegister.

(** ** Signals and alerts *)

Record Signal := mkSignal { s_name : string; s_desc : string; s_bits : Bits }.

Module Signal.
Definition from_raw (lsb : Z) (raw : yaml) : res Signal :=
  rd ← RgLib.check_keys raw ["name"; "desc"] ["width"];
  name ← (y ← of_option KeyError (yget "name" rd); RgLib.check_name y);
  desc ← (y ← of_option KeyError (yget "desc" rd); RgLib.check_str y);
  width ← RgLib.check_int (ydefault "width" (YInt 1) rd);
  if width <=? 0 then Err ValueError
  else bits ← Bits.init (lsb + width - 1) lsb; Ok (mkSignal name desc bits).

(** The signals of a list, one above the other. *)
Definition add_raw (st : list Signal * Z) (entry : yaml) : res (list Signal * Z) :=
  let '(ret, lsb) := st in
  signal ← from_raw lsb entry;
  Ok (ret ++ [signal], lsb + Bits.width (s_bits signal)).
Definition from_raw_list (raw : yaml) : res (list Signal) :=
  l ← RgLib.check_list raw;
  '(ret, _) ← foldM add_raw ([], 0) l;
  Ok ret.
End Signal.

Record Alert := mkAlert { a_signal : Signal; a_bit : Z; a_fatal : bool }.

Module Alert.
Definition init (name desc : string) (bit : Z) (fatal : bool) : res Alert :=
  bits ← Bits.init bit bit;
  Ok (mkAlert (mkSignal name desc bits) bit fatal).

Definition from_raw (lsb : Z) (raw : yaml) : res Alert :=
  rd ← RgLib.check_keys raw ["name"; "desc"] [];
  name ← (y ← of_option KeyError (yget "name" rd); RgLib.check_name y);
  desc ← (y ← of_option KeyError (yget "desc" rd); RgLib.check_str y);
  pfx ← py_nth (split "_"%char name) 0;
  if String.eqb pfx "recov" then init name desc lsb false
  else if String.eqb pfx "fatal" then init name desc lsb true
  else Err ValueError.

Definition from_raw_list (raw : yaml) : res (list Alert) :=
  l ← RgLib.check_list raw;
  mapR (fun '(idx, entry) => from_raw (Z.of_nat idx) entry) (imap pair l).
End Alert.

(** ** Register blocks *)

Inductive entry :=
  | EReg (r : Register)
  | EMulti (m : MultiRegister)
  | EWindow (w : Window).

Record RegBlock := mkRegBlock {
  rb_addrsep : Z;
  rb_reg_width : Z;
  rb_params : dict BaseParam;
  rb_offset : Z;
  rb_multiregs : list MultiRegister;
  rb_registers : list Register;
  rb_windows : list Window;
  rb_has_data_intg_passthru : bool;
  rb_flat_regs : list Register;
  rb_all_regs : list entry;
  rb_entries : list entry;
  rb_name_to_offset : dict Z;
  rb_name_to_flat_reg : dict Register;
  rb_wennames : list string;
}.

Module RegBlock.
Definition init (reg_width : Z) (params : dict BaseParam) : RegBlock :=
  mkRegBlock ((reg_width + 7) / 8) reg_width params 0 [] [] [] false [] [] [] [] [] [].

Definition set_offset (o : Z) (b : RegBlock) : RegBlock :=
  mkRegBlock (rb_addrsep b) (rb_reg_width b) (rb_params b) o (rb_multiregs b) (rb_registers b)
    (rb_windows b) (rb_has_data_intg_passthru b) (rb_flat_regs b) (rb_all_regs b) (rb_entries b)
    (rb_name_to_offset b) (rb_name_to_flat_reg b) (rb_wennames b).

(** [name in self.name_to_offset] *)
Definition has_name (n : string) (b : RegBlock) : bool := bool_decide (is_Some (dget n (rb_name_to_offset b))).

(** The asserts test the name as it is written, where the keys are in lower case. *)
Definition _add_flat_reg (reg : Register) (b : RegBlock) : res RegBlock :=
  py_assert (negb (has_name (r_name reg) b));;
  py_assert (negb (bool_decide (is_Some (dget (r_name reg) (rb_name_to_flat_reg b)))));;
  Ok (mkRegBlock (rb_addrsep b) (rb_reg_width b) (rb_params b) (rb_offset b) (rb_multiregs b)
        (rb_registers b) (rb_windows b) (rb_has_data_intg_passthru b) (rb_flat_regs b ++ [reg])
        (rb_all_regs b) (rb_entries b) (rb_name_to_offset b)
        (dset (lower (r_name reg)) reg (rb_name_to_flat_reg b)) (rb_wennames b)).

Definition set_name (n : string) (o : Z) (b : RegBlock) : RegBlock :=
  mkRegBlock (rb_addrsep b) (rb_reg_width b) (rb_params b) (rb_offset b) (rb_multiregs b)
    (rb_registers b) (rb_windows b) (rb_has_data_intg_passthru b) (rb_flat_regs b)
    (rb_all_regs b) (rb_entries b) (dset n o (rb_name_to_offset b)) (rb_name_to_flat_reg b)
    (rb_wennames b).

(** The lists that [add_register] appends to, and the offset it leaves. *)
Definition push_register (reg : Register) (b : RegBlock) : RegBlock :=
  mkRegBlock (rb_addrsep b) (rb_reg_width b) (rb_params b) (Register.next_offset (rb_addrsep b) reg)
    (rb_multiregs b) (rb_registers b ++ [reg]) (rb_windows b) (rb_has_data_intg_passthru b)
    (rb_flat_regs b) (rb_all_regs b ++ [EReg reg]) (rb_entries b ++ [EReg reg])
    (rb_name_to_offset b) (rb_name_to_flat_reg b)
    (match r_regwen reg with
     | Some w => if bool_decide (w ∈ rb_wennames b) then rb_wennames b else rb_wennames b ++ [w]
     | None => rb_wennames b
     end).

Definition add_register (reg : Register) (b : RegBlock) : res RegBlock :=
  py_assert (r_offset reg =? rb_offset b);;
  let lname := lower (r_name reg) in
  if has_name lname b then Err ValueError
  else
    b ← _add_flat_reg reg b;
    Ok (push_register reg (set_name lname (r_offset reg) b)).

Definition push_window (w : Window) (b : RegBlock) : RegBlock :=
  mkRegBlock (rb_addrsep b) (rb_reg_width b) (rb_params b) (Window.next_offset (rb_addrsep b) w)
    (rb_multiregs b) (rb_registers b) (rb_windows b ++ [w])
    (rb_has_data_intg_passthru b || w_data_intg_passthru w) (rb_flat_regs b) (rb_all_regs b)
    (rb_entries b ++ [EWindow w]) (rb_name_to_offset b) (rb_name_to_flat_reg b) (rb_wennames b).

Definition add_window (w : Window) (b : RegBlock) : res RegBlock :=
  let lname := lower (w_name w) in
  py_assert (negb (has_name lname b));;
  let b := set_name lname (w_offset w) b in
  py_assert (rb_offset b <=? w_offset w);;
  Ok (push_window w b).

Definition push_multireg (m : MultiRegister) (b : RegBlock) : RegBlock :=
  mkRegBlock (rb_addrsep b) (rb_reg_width b) (rb_params b) (MultiRegister.next_offset (rb_addrsep b) m)
    (rb_multiregs b ++ [m]) (rb_registers b) (rb_windows b) (rb_has_data_intg_passthru b)
    (rb_flat_regs b) (rb_all_regs b ++ [EMulti m]) (rb_entries b ++ [EMulti m])
    (rb_name_to_offset b) (rb_name_to_flat_reg b) (rb_wennames b).

(** ** Entries of the [registers] list *)

Definition _handle_register (body : yaml) (b : RegBlock) : res RegBlock :=
  reg ← Register.from_raw (rb_reg_width b) (rb_offset b) (rb_params b) body;
  add_register reg b.

Definition _handle_reserved (body : yaml) (b : RegBlock) : res RegBlock :=
  nreserved ← RgLib.check_int body;
  if nreserved <=? 0 then Err ValueError
  else Ok (set_offset (rb_offset b + rb_addrsep b * nreserved) b).

Definition _handle_skipto (body : yaml) (b : RegBlock) : res RegBlock :=
  skipto ← RgLib.check_int body;
  if skipto <? rb_offset b then Err ValueError
  else if truthy (skipto `mod` rb_addrsep b) then Err ValueError
  else Ok (set_offset skipto b).

Definition _handle_window (body : yaml) (b : RegBlock) : res RegBlock :=
  window ← Window.from_raw (rb_offset b) (rb_reg_width b) (rb_params b) body;
  if has_name (lower (w_name window)) b then Err ValueError
  else add_window window b.

(** One register of an expanded multi-register. *)
Definition add_creg (b : RegBlock) (reg : Register) : res RegBlock :=
  let lname := lower (r_name reg) in
  if has_name lname b then Err ValueError
  else b ← _add_flat_reg reg b; Ok (set_name lname (r_offset reg) b).

Definition _handle_multireg (body : yaml) (b : RegBlock) : res RegBlock :=
  mr ← MultiRegister.init (rb_offset b) (rb_addrsep b) (rb_reg_width b) (rb_params b) body;
  b ← foldM add_creg b (mr_regs mr);
  Ok (push_multireg mr b).

(** The type of an entry and its body: a key that names a type has to be the only key. *)
Definition find_type (entry : list (yaml * yaml)) (st : string * yaml) (t : string) : res (string * yaml) :=
  match yopt t entry with
  | None => Ok st
  | Some t_body => if negb (length entry =? 1)%nat then Err ValueError else Ok (t, t_body)
  end.

Definition add_raw (b : RegBlock) (raw : yaml) : res RegBlock :=
  entry ← RgLib.check_str_dict raw;
  '(entry_type, entry_body) ←
    foldM (find_type entry) ("register"%string, YDict entry) ["reserved"; "skipto"; "window"; "multireg"];
  if String.eqb entry_type "register" then _handle_register entry_body b
  else if String.eqb entry_type "reserved" then _handle_reserved entry_body b
  else if String.eqb entry_type "skipto" then _handle_skipto entry_body b
  else if String.eqb entry_type "window" then _handle_window entry_body b
  else if String.eqb entry_type "multireg" then _handle_multireg entry_body b
  else Err KeyError.

Definition add_raw_registers (raw : yaml) (b : RegBlock) : res RegBlock :=
  rl ← RgLib.check_list raw;
  foldM add_raw b rl.

(** ** Validation *)

(** [re.fullmatch(r'(.+_)*REGWEN(_[0-9]+)?', s)] *)
Definition no_newline (s : string) : bool := negb (existsb (Ascii.eqb "010"%char) (String.list_ascii_of_string s)).
Definition regwen_prefix (s : string) : bool :=
  String.eqb s "" || ((2 <=? String.length s)%nat && no_newline s && endswith "_" s).
Definition regwen_suffix (s : string) : bool :=
  match s with
  | EmptyString => true
  | String c ds =>
      Ascii.eqb c "_"%char && negb (String.eqb ds "") &&
      forallb is_digit (String.list_ascii_of_string ds)
  end.
Definition match_regwen (s : string) : bool :=
  let n := String.length s in
  existsb (fun i =>
    regwen_prefix (String.substring 0 i s) && String.eqb (String.substring i 6 s) "REGWEN" &&
    regwen_suffix (String.substring (i + 6) (n - (i + 6)) s)) (seq 0 (S n)).

Definition check_wenname (b : RegBlock) (wenname : string) : res () :=
  if negb (match_regwen wenname) then Err ValueError
  else
    wen_reg ← of_option ValueError (dget (lower wenname) (rb_name_to_flat_reg b));
    let sw := sw_key (r_swaccess wen_reg) in
    if negb (String.eqb sw "ro") && negb (truthy (r_resval wen_reg)) then Err ValueError
    else if String.eqb sw "rw0c" then Ok ()
    else if String.eqb sw "ro" && String.eqb (hw_key (r_hwaccess wen_reg)) "hwo" then Ok ()
    else Err ValueError.

Definition validate (b : RegBlock) : res () := foldM (fun _ w => check_wenname b w) () (rb_wennames b).

(** ** The blocks of an IP: [None] names the only block of the simple syntax. *)

Definition add_block (st : list (option string * RegBlock) * option RegBlock * RegBlock)
    (kv : yaml * yaml) : res (list (option string * RegBlock) * option RegBlock * RegBlock) :=
  let '(ret, init_block, last) := st in
  let block := match init_block with Some b => b | None => init (rb_reg_width last) (rb_params last) end in
  rb_key ← RgLib.check_str kv.1;
  rb_val ← RgLib.check_list kv.2;
  block ← add_raw_registers (YList rb_val) block;
  validate block;;
  py_assert (negb (bool_decide (Some rb_key ∈ ret.*1)));;
  Ok (ret ++ [(Some rb_key, block)], None, block).

Definition build_blocks (block : RegBlock) (raw : yaml) : res (list (option string * RegBlock)) :=
  match raw with
  | YList _ => b ← add_raw_registers raw block; Ok [(None, b)]
  | YDict d =>
      '(ret, _, _) ← foldM add_block ([], Some block, block) d;
      Ok ret
  | _ => Err ValueError
  end.

Definition get_n_bits (bittype : list string) (b : RegBlock) : Z :=
  foldr Z.add 0 (Register.get_n_bits bittype <$> rb_flat_regs b).

(** ** The list of entries, with the gaps as reserved words *)

Inductive dict_entry := Reserved (n : Z) | Entry (e : entry).

Definition entry_offset (e : entry) : Z :=
  match e with EReg r => r_offset r | EMulti m => mr_offset m | EWindow w => w_offset w end.
Definition entry_next (addrsep : Z) (e : entry) : Z :=
  match e with
  | EReg r => Register.next_offset addrsep r
  | EMulti m => MultiRegister.next_offset addrsep m
  | EWindow w => Window.next_offset addrsep w
  end.

Definition add_dict (addrsep : Z) (st : list dict_entry * Z) (e : entry) : res (list dict_entry * Z) :=
  let '(entries, offset) := st in
  let next_off := entry_offset e in
  py_assert (offset <=? next_off);;
  let res_bytes := next_off - offset in
  entries ←
    (if truthy res_bytes then
       py_assert (res_bytes `mod` addrsep =? 0);;
       Ok (entries ++ [Reserved (res_bytes / addrsep)])
     else Ok entries);
  Ok (entries ++ [Entry e], entry_next addrsep e).

Definition as_dicts (b : RegBlock) : res (list dict_entry) :=
  '(entries, _) ← foldM (add_dict (rb_addrsep b)) ([], 0) (rb_entries b);
  Ok entries.

(** ** Interrupt and alert registers *)

(** How the description of a field is made. *)
Inductive desc_fmt :=
  | FmtNone
  | FmtStr (s : string)
  | FmtFun (f : bool → string → string).

Definition signal_field (fmt : desc_fmt) (swaccess : SWAccess) (hwaccess : HWAccess) (is_testreg : bool)
    (signal : Signal) : Field :=
  let field_desc :=
    match fmt with
    | FmtNone => s_desc signal
    | FmtStr s => s
    | FmtFun f => f (1 <? Bits.width (s_bits signal)) (s_name signal)
    end in
  mkField (s_name signal) (Some (if String.eqb field_desc "" then s_desc signal else field_desc)) []
    swaccess hwaccess is_testreg false (s_bits signal) (Some 0) None.

Definition _add_intr_alert_reg (signals : list Signal) (reg_name reg_desc : string) (fmt : desc_fmt)
    (swaccess hwaccess : string) (is_testreg : bool) (reg_tags : list string) (b : RegBlock) : res RegBlock :=
  swaccess_obj ← SWAccess.init (YStr swaccess);
  hwaccess_obj ← HWAccess.init (YStr hwaccess);
  let fields := signal_field fmt swaccess_obj hwaccess_obj is_testreg <$> signals in
  reg ← Register.init (rb_offset b) reg_name reg_desc swaccess_obj hwaccess_obj is_testreg is_testreg
          false None reg_tags None false fields None None;
  add_register reg b.

Definition enable_desc (w : bool) (n : string) : string :=
  "Enable interrupt when " +:+ (if w then "corresponding bit in " else "") +:+ "!!INTR_STATE." +:+ n
  +:+ " is set.".
Definition test_desc (w : bool) (n : string) : string :=
  "Write 1 to force " +:+ (if w then "corresponding bit in " else "") +:+ "!!INTR_STATE." +:+ n +:+ " to 1.".

Definition make_intr_regs (interrupts : list Signal) (b : RegBlock) : res RegBlock :=
  py_assert (match interrupts with [] => false | _ => true end);;
  top ← py_nth interrupts (-1);
  py_assert (b_msb (s_bits top) <? rb_reg_width b);;
  b ← _add_intr_alert_reg interrupts "INTR_STATE" "Interrupt State Register" FmtNone "rw1c" "hrw" false
        ["excl:CsrNonInitTests:CsrExclWriteCheck"] b;
  b ← _add_intr_alert_reg interrupts "INTR_ENABLE" "Interrupt Enable Register" (FmtFun enable_desc)
        "rw" "hro" false [] b;
  _add_intr_alert_reg interrupts "INTR_TEST" "Interrupt Test Register" (FmtFun test_desc) "wo" "hro" true
    ["excl:CsrNonInitTests:CsrExclWrite"] b.

Definition make_alert_regs (alerts : list Alert) (b : RegBlock) : res RegBlock :=
  py_assert (match alerts with [] => false | _ => true end);;
  py_assert (Z.of_nat (length alerts) <? rb_reg_width b);;
  _add_intr_alert_reg (a_signal <$> alerts) "ALERT_TEST" "Alert Test Register"
    (FmtStr "Write 1 to trigger one alert event of this kind.") "wo" "hro" true [] b.

Definition get_addr_width (b : RegBlock) : Z := bit_length (rb_offset b - 1).
End RegBlock.
