(* ===== verification/RgIp.v ===== *)
(** IP blocks (util/reggen: inter_signal.py, bus_interfaces.py, ip_block.py): the description of
    a whole peripheral, from the tree that the hjson loader returns. *)

From stdpp Require Import pretty.
From S2P Require Import Prelude PyStr PyList Yaml RgLib RgField.
From S2P Require Import RgRegister RgBlock.

(** ** Inter-module signals *)

Record InterSignal := mkInterSignal {
  is_name : string;
  is_desc : option string;
  is_struct : string;
  is_package : option string;
  is_signal_type : string;
  is_act : string;
  is_width : Z;
  is_default : option string;
}.

Module InterSignal.
Definition init (name : string) (desc : option string) (struct : string) (package : option string)
    (signal_type act : string) (width : Z) (default : option string) : res InterSignal :=
  py_assert (0 <? width);;
  Ok (mkInterSignal name desc struct package signal_type act width default).

Definition from_raw (raw : yaml) : res InterSignal :=
  rd ← RgLib.check_keys raw ["name"; "struct"; "type"; "act"] ["desc"; "package"; "width"; "default"];
  name ← (y ← of_option KeyError (yget "name" rd); RgLib.check_name y);
  desc ← check_opt RgLib.check_str (yopt "desc" rd);
  struct ← (y ← of_option KeyError (yget "struct" rd); RgLib.check_str y);
  package ←
    match yopt "package" rd with
    | None | Some (YStr EmptyString) => Ok None
    | Some y => n ← RgLib.check_name y; Ok (Some n)
    end;
  signal_type ← (y ← of_option KeyError (yget "type" rd); RgLib.check_name y);
  act ← (y ← of_option KeyError (yget "act" rd); RgLib.check_name y);
  width ← RgLib.check_int (ydefault "width" (YInt 1) rd);
  if width <=? 0 then Err ValueError
  else
    default ← RgLib.check_optional_str (ydefault "default" YNone rd);
    init name desc struct package signal_type act width default.
End InterSignal.

(** ** Bus interfaces *)

Record BusInterfaces := mkBusInterfaces {
  bi_has_unnamed_host : bool;
  bi_named_hosts : list string;
  bi_has_unnamed_device : bool;
  bi_named_devices : list string;
}.

Module BusInterfaces.
Definition is_nil {A} (l : list A) : bool := match l with [] => true | _ => false end.

Definition init (b : BusInterfaces) : res BusInterfaces :=
  py_assert (bi_has_unnamed_device b || negb (is_nil (bi_named_devices b)));;
  py_assert (bool_decide (NoDup (bi_named_hosts b)));;
  py_assert (bool_decide (NoDup (bi_named_devices b)));;
  Ok b.

Definition add_entry (b : BusInterfaces) (raw_entry : yaml) : res BusInterfaces :=
  ed ← RgLib.check_keys raw_entry ["protocol"; "direction"] ["name"];
  protocol ← (y ← of_option KeyError (yget "protocol" ed); RgLib.check_str y);
  if negb (String.eqb protocol "tlul") then Err ValueError
  else
    direction ← (y ← of_option KeyError (yget "direction" ed); RgLib.check_str y);
    if negb (bool_decide (direction ∈ ["device"; "host"])) then Err ValueError
    else
      name ← RgLib.check_optional_str (ydefault "name" YNone ed);
      if String.eqb direction "host" then
        match name with
        | None =>
            if bi_has_unnamed_host b then Err ValueError
            else Ok (mkBusInterfaces true (bi_named_hosts b) (bi_has_unnamed_device b) (bi_named_devices b))
        | Some n =>
            if bool_decide (n ∈ bi_named_hosts b) then Err ValueError
            else Ok (mkBusInterfaces (bi_has_unnamed_host b) (bi_named_hosts b ++ [n])
                       (bi_has_unnamed_device b) (bi_named_devices b))
        end
      else
        match name with
        | None =>
            if bi_has_unnamed_device b then Err ValueError
            else Ok (mkBusInterfaces (bi_has_unnamed_host b) (bi_named_hosts b) true (bi_named_devices b))
        | Some n =>
            if bool_decide (n ∈ bi_named_devices b) then Err ValueError
            else Ok (mkBusInterfaces (bi_has_unnamed_host b) (bi_named_hosts b)
                       (bi_has_unnamed_device b) (bi_named_devices b ++ [n]))
        end.

Definition from_raw (raw : yaml) : res BusInterfaces :=
  l ← RgLib.check_list raw;
  b ← foldM add_entry (mkBusInterfaces false [] false []) l;
  if negb (bi_has_unnamed_device b || negb (is_nil (bi_named_devices b))) then Err ValueError
  else init b.

Definition has_host (b : BusInterfaces) : bool := bi_has_unnamed_host b || negb (is_nil (bi_named_hosts b)).

Definition _interfaces (b : BusInterfaces) : list (bool * option string) :=
  (if bi_has_unnamed_host b then [(true, None)] else [])
  ++ ((fun n => (true, Some n)) <$> bi_named_hosts b)
  ++ (if bi_has_unnamed_device b then [(false, None)] else [])
  ++ ((fun n => (false, Some n)) <$> bi_named_devices b).

Definition get_port_name (is_host : bool) (name : option string) (b : BusInterfaces) : string :=
  let tl_suffix := (if is_host then "tl_h" else if has_host b then "tl_d" else "tl")%string in
  match name with None => tl_suffix | Some n => n +:+ "_" +:+ tl_suffix end.

Definition get_port_names (inc_hosts inc_devices : bool) (b : BusInterfaces) : list string :=
  (fun i : bool * option string => get_port_name i.1 i.2 b) <$>
    filter (fun i : bool * option string => (if i.1 then inc_hosts else inc_devices) = true) (_interfaces b).

Definition _if_inter_signal (b : BusInterfaces) (i : bool * option string) : res InterSignal :=
  InterSignal.init (get_port_name i.1 i.2 b) None "tl" (Some "tlul_pkg"%string) "req_rsp" "rsp" 1 None.
Definition inter_signals (b : BusInterfaces) : res (list InterSignal) :=
  mapR (_if_inter_signal b) (_interfaces b).

Definition has_interface (is_host : bool) (name : option string) (b : BusInterfaces) : bool :=
  match is_host, name with
  | true, None => bi_has_unnamed_host b
  | true, Some n => bool_decide (n ∈ bi_named_hosts b)
  | false, None => bi_has_unnamed_device b
  | false, Some n => bool_decide (n ∈ bi_named_devices b)
  end.

Definition find_port_name (is_host : bool) (name : option string) (b : BusInterfaces) : res string :=
  if negb (has_interface is_host name b) then Err KeyError else Ok (get_port_name is_host name b).
End BusInterfaces.

(** ** IP blocks *)

Record IpBlock := mkIpBlock {
  ip_name : string;
  ip_regwidth : Z;
  ip_params : dict BaseParam;
  ip_reg_blocks : list (option string * RegBlock);
  ip_interrupts : list Signal;
  ip_no_auto_intr : bool;
  ip_alerts : list Alert;
  ip_no_auto_alert : bool;
  ip_scan : bool;
  ip_inter_signals : list InterSignal;
  ip_bus_interfaces : BusInterfaces;
  ip_hier_path : option string;
  ip_clock_signals : list string;
  ip_reset_signals : list string;
  ip_xputs : list Signal * list Signal * list Signal;
  ip_wakeups : list Signal;
  ip_reset_requests : list Signal;
  ip_scan_reset : bool;
  ip_scan_en : bool;
}.

Module IpBlock.
Definition REQUIRED_FIELDS : list string := ["name"; "clock_primary"; "bus_interfaces"; "registers"].
Definition OPTIONAL_FIELDS : list string :=
  ["alert_list"; "available_inout_list"; "available_input_list"; "available_output_list"; "hier_path";
   "interrupt_list"; "inter_signal_list"; "no_auto_alert_regs"; "no_auto_intr_regs"; "other_clock_list";
   "other_reset_list"; "param_list"; "regwidth"; "reset_primary"; "reset_request_list"; "scan";
   "scan_reset"; "scan_en"; "SPDX-License-Identifier"; "wakeup_list"].

(** The names of the device interfaces, and their comparison with those of the register blocks
    as sets. *)
Definition dev_if_names (b : BusInterfaces) : list (option string) :=
  (Some <$> bi_named_devices b) ++ (if bi_has_unnamed_device b then [None] else []).
Definition same_names (l k : list (option string)) : bool := bool_decide (l ⊆ k) && bool_decide (k ⊆ l).

Definition init (ip : IpBlock) : res IpBlock :=
  py_assert (negb (BusInterfaces.is_nil (ip_reg_blocks ip)));;
  py_assert (negb (BusInterfaces.is_nil (ip_clock_signals ip)));;
  py_assert (negb (BusInterfaces.is_nil (ip_reset_signals ip)));;
  py_assert (same_names (ip_reg_blocks ip).*1 (dev_if_names (ip_bus_interfaces ip)));;
  Ok ip.

Definition read_regwidth (rd : list (yaml * yaml)) : res Z :=
  match yopt "regwidth" rd with
  | None => Ok 32
  | Some y => w ← RgLib.check_int y; if w <=? 0 then Err ValueError else Ok w
  end.

(** [try: params.apply_defaults(...) except (ValueError, KeyError)] *)
Definition apply_defaults (defaults : list (string * string)) (params : dict BaseParam) : res (dict BaseParam) :=
  match Params.apply_defaults defaults params with
  | Err ValueError | Err KeyError => Err ValueError
  | r => r
  end.

Definition add_intr_regs (regwidth : Z) (interrupts : list Signal) (no_auto_intr : bool) (b : RegBlock) :
    res RegBlock :=
  if negb (BusInterfaces.is_nil interrupts) && negb no_auto_intr then
    top ← py_nth interrupts (-1);
    if regwidth <=? b_msb (s_bits top) then Err ValueError
    else RegBlock.make_intr_regs interrupts b
  else Ok b.

Definition add_alert_regs (regwidth : Z) (alerts : list Alert) (no_auto_alert : bool) (b : RegBlock) :
    res RegBlock :=
  if negb (BusInterfaces.is_nil alerts) && negb no_auto_alert then
    if regwidth <? Z.of_nat (length alerts) then Err ValueError
    else RegBlock.make_alert_regs alerts b
  else Ok b.

(** The parameter NumAlerts. *)
Definition add_num_alerts (alerts : list Alert) (params : dict BaseParam) : res (dict BaseParam) :=
  if BusInterfaces.is_nil alerts then Ok params
  else
    let n := pretty (length alerts) in
    match dget "NumAlerts" params with
    | Some (LocalParam _ _ t v _) => if String.eqb t "int" && String.eqb v n then Ok params else Err ValueError
    | Some _ => Err ValueError
    | None => Params.add (LocalParam "NumAlerts" (Some "Number of alerts"%string) "int" n None) params
    end.

(** The block and the IP share the object that holds the parameters. *)
Definition set_params (params : dict BaseParam) (b : RegBlock) : RegBlock :=
  mkRegBlock (rb_addrsep b) (rb_reg_width b) params (rb_offset b) (rb_multiregs b) (rb_registers b)
    (rb_windows b) (rb_has_data_intg_passthru b) (rb_flat_regs b) (rb_all_regs b) (rb_entries b)
    (rb_name_to_offset b) (rb_name_to_flat_reg b) (rb_wennames b).

(** The register blocks of the IP, and its signals and parameters. *)
Definition read_blocks (param_defaults : list (string * string)) (rd : list (yaml * yaml)) :
    res (Z * dict BaseParam * list Signal * bool * list Alert * bool * bool
         * list (option string * RegBlock)) :=
  regwidth ← read_regwidth rd;
  params ← ReggenParams.from_raw (ydefault "param_list" (YList []) rd);
  params ← apply_defaults param_defaults params;
  let init_block := RegBlock.init regwidth params in
  interrupts ← Signal.from_raw_list (ydefault "interrupt_list" (YList []) rd);
  alerts ← Alert.from_raw_list (ydefault "alert_list" (YList []) rd);
  no_auto_intr ← RgLib.check_bool (ydefault "no_auto_intr_regs" (YBool (BusInterfaces.is_nil interrupts)) rd);
  no_auto_alert ← RgLib.check_bool (ydefault "no_auto_alert_regs" (YBool (BusInterfaces.is_nil alerts)) rd);
  init_block ← add_intr_regs regwidth interrupts no_auto_intr init_block;
  init_block ← add_alert_regs regwidth alerts no_auto_alert init_block;
  params ← add_num_alerts alerts params;
  scan ← RgLib.check_bool (ydefault "scan" (YBool false) rd);
  raw ← of_option KeyError (yget "registers" rd);
  reg_blocks ← RegBlock.build_blocks (set_params params init_block) raw;
  Ok (regwidth, params, interrupts, no_auto_intr, alerts, no_auto_alert, scan, reg_blocks).

Definition from_raw (param_defaults : list (string * string)) (raw : yaml) : res IpBlock :=
  rd ← RgLib.check_keys raw REQUIRED_FIELDS OPTIONAL_FIELDS;
  name ← (y ← of_option KeyError (yget "name" rd); RgLib.check_name y);
  '(regwidth, params, interrupts, no_auto_intr, alerts, no_auto_alert, scan, reg_blocks)
    ← read_blocks param_defaults rd;
  r_inter_signals ← RgLib.check_list (ydefault "inter_signal_list" (YList []) rd);
  inter_signals ← mapR InterSignal.from_raw r_inter_signals;
  bus_interfaces ← (y ← of_option KeyError (yget "bus_interfaces" rd); BusInterfaces.from_raw y);
  bus_signals ← BusInterfaces.inter_signals bus_interfaces;
  hier_path ← RgLib.check_optional_str (ydefault "hier_path" YNone rd);
  clock_primary ← (y ← of_option KeyError (yget "clock_primary" rd); RgLib.check_name y);
  other_clock_list ← RgLib.check_name_list (ydefault "other_clock_list" (YList []) rd);
  reset_primary ← RgLib.check_name (ydefault "reset_primary" (YStr "rst_ni") rd);
  other_reset_list ← RgLib.check_name_list (ydefault "other_reset_list" (YList []) rd);
  inouts ← Signal.from_raw_list (ydefault "available_inout_list" (YList []) rd);
  inputs ← Signal.from_raw_list (ydefault "available_input_list" (YList []) rd);
  outputs ← Signal.from_raw_list (ydefault "available_output_list" (YList []) rd);
  wakeups ← Signal.from_raw_list (ydefault "wakeup_list" (YList []) rd);
  rst_reqs ← Signal.from_raw_list (ydefault "reset_request_list" (YList []) rd);
  scan_reset ← RgLib.check_bool (ydefault "scan_reset" (YBool false) rd);
  scan_en ← RgLib.check_bool (ydefault "scan_en" (YBool false) rd);
  if negb (same_names reg_blocks.*1 (dev_if_names bus_interfaces)) then Err ValueError
  else init (mkIpBlock name regwidth params reg_blocks interrupts no_auto_intr alerts no_auto_alert scan
               (inter_signals ++ bus_signals) bus_interfaces hier_path (clock_primary :: other_clock_list)
               (reset_primary :: other_reset_list) (inouts, inputs, outputs) wakeups rst_reqs scan_reset scan_en).

(** The names of registers and windows. *)
Definition get_rnames (ip : IpBlock) : list string :=
  remove_dups (ip_reg_blocks ip ≫= fun kb => (rb_name_to_offset kb.2).*1).
End IpBlock.
