(* ===== verification/RgSafe.v ===== *)
(** What the constructors of the register generator promise: on every input they return a
    well-formed object or raise [ValueError].  Malformed descriptions never trip an assertion. *)

From Stdlib Require Import Ascii.
From stdpp Require Import pretty sorting.
From S2P Require Import Prelude BitLoops PyStr PyList Yaml RgLib RgField.
From S2P Require Import RgRegister RgBlock.

(** [r] is a value that satisfies [P], or a [ValueError]. *)
Definition vres {A} (P : A → Prop) (r : res A) : Prop :=
  match r with Ok a => P a | Err e => e = ValueError end.

Create HintDb reggen.

Lemma vres_Ok {A} (P : A → Prop) a : P a → vres P (Ok a).
Proof. done. Qed.

Lemma vres_err {A} (P : A → Prop) : vres P (Err ValueError).
Proof. done. Qed.

Lemma vres_bind {A B} (P : A → Prop) (Q : B → Prop) (r : res A) (k : A → res B) :
  vres P r → (∀ a, P a → vres Q (k a)) → vres Q (r ≫= k).
Proof. destruct r as [a | e]; cbn; [auto | done]. Qed.

Lemma vres_weaken {A} (P P' : A → Prop) (r : res A) : vres P r → (∀ a, P a → P' a) → vres P' r.
Proof. destruct r; cbn; auto. Qed.

Lemma vres_if {A} (P : A → Prop) (b : bool) (r r' : res A) :
  (b = true → vres P r) → (b = false → vres P r') → vres P (if b then r else r').
Proof. destruct b; auto. Qed.

Lemma vres_option {A} (P : A → Prop) (o : option A) :
  (∀ a, o = Some a → P a) → vres P (of_option ValueError o).
Proof. destruct o; cbn; auto. Qed.

Lemma vres_mapR {A B} (P : A → Prop) (f : B → res A) l :
  (∀ x, x ∈ l → vres P (f x)) → vres (fun l' => Forall P l' ∧ length l' = length l) (mapR f l).
Proof.
  induction l as [| x l IH]; intros H; cbn [mapR]; [by split |].
  eapply vres_bind; [apply H; by left |]. intros a Ha.
  eapply vres_bind; [apply IH; intros; apply H; by right |]. intros l' [Hl' ?].
  split; [by constructor | cbn; lia].
Qed.

Lemma vres_mapR2 {A B} (P : B → A → Prop) (f : B → res A) l :
  (∀ x, x ∈ l → vres (P x) (f x)) → vres (Forall2 P l) (mapR f l).
Proof.
  induction l as [| x l IH]; intros H; cbn [mapR]; [by constructor |].
  eapply vres_bind; [apply H; by left |]. intros a Ha.
  eapply vres_bind; [apply IH; intros; apply H; by right |]. intros l' Hl'. by constructor.
Qed.

Lemma vres_foldM {A B} (I : list A → B → Prop) (f : B → A → res B) l b :
  I [] b → (∀ pre x b, I pre b → x ∈ l → vres (I (pre ++ [x])) (f b x)) → vres (I l) (foldM f b l).
Proof.
  intros H0 Hs. enough (∀ pre b, I pre b → vres (fun b' => I (pre ++ l) b') (foldM f b l)) as H
    by (apply (H [] b H0)).
  clear H0 b. induction l as [| x l IH]; intros pre b Hb; cbn [foldM]; [by rewrite app_nil_r |].
  eapply vres_bind; [apply Hs; [done | by left] |]. intros b' Hb'.
  eapply vres_weaken; [apply (IH ltac:(intros; apply Hs; [done | by right]) (pre ++ [x]) b' Hb') |].
  intros b'' Hb''. by rewrite <- app_assoc in Hb''.
Qed.

Lemma vres_assert b : b = true → vres (fun _ => True) (py_assert b).
Proof. by intros ->. Qed.

(** One step through a function: a call with a known postcondition, a branch or a result. *)
Ltac vstep :=
  lazymatch goal with
  | |- vres _ (mbind _ _) => eapply vres_bind; [solve [eauto with reggen] | cbn beta; intros ? ?]
  | |- vres _ (Err ValueError) => apply vres_err
  | |- vres _ (match ?x with _ => _ end) =>
      lazymatch type of x with bool => apply vres_if; intros ? | _ => destruct x eqn:? end
  | |- vres _ (Ok _) => apply vres_Ok
  end.

(** ** lib.py *)

Definition any {A} (_ : A) : Prop := True.

Lemma check_str_safe y : vres any (RgLib.check_str y).
Proof. by destruct y. Qed.
Lemma check_list_safe y : vres any (RgLib.check_list y).
Proof. by destruct y. Qed.
Lemma int_auto_safe s : vres any (int_auto s).
Proof. by apply vres_option. Qed.
Lemma check_int_safe y : vres any (RgLib.check_int y).
Proof. destruct y; cbn; try done. apply int_auto_safe. Qed.
#[export] Hint Resolve check_str_safe check_list_safe int_auto_safe check_int_safe : reggen.

Lemma check_name_safe y : vres any (RgLib.check_name y).
Proof. unfold RgLib.check_name. repeat vstep; done. Qed.
Lemma check_bool_safe y : vres any (RgLib.check_bool y).
Proof. destruct y; cbn; try done. by repeat vstep. Qed.
Lemma check_xint_safe y : vres any (RgLib.check_xint y).
Proof. destruct y; cbn; try done. by repeat vstep. Qed.
Lemma check_str_list_safe y : vres any (RgLib.check_str_list y).
Proof.
  unfold RgLib.check_str_list. vstep.
  eapply vres_weaken; [apply vres_mapR; intros; apply check_str_safe | done].
Qed.
#[export] Hint Resolve check_name_safe check_bool_safe check_xint_safe check_str_list_safe : reggen.

Lemma check_keys_safe y req opt :
  bool_decide (NoDup (req ++ opt)) = true →
  vres (fun d => ∀ k, k ∈ req → is_Some (yget k d)) (RgLib.check_keys y req opt).
Proof.
  intros Hnd. unfold RgLib.check_keys.
  eapply (vres_bind any); [unfold RgLib.check_str_dict; by repeat vstep |]. intros d _.
  eapply vres_bind; [by apply vres_assert |]. intros _ _.
  destruct (filter (fun k => yget k d = None) req) as [| k0 ks] eqn:Ef; [| done].
  destruct (filter (fun k => yaml_key_allowed _ k = false) _); [| done]. cbn. intros k Hk. destruct (yget k d) eqn:E; [done |]. exfalso.
  assert (k ∈ filter (fun k => yget k d = None) req) as Hin by (by apply list_elem_of_filter).
  rewrite Ef in Hin. by apply elem_of_nil in Hin.
Qed.

(** A key that the check found. *)
Lemma required_safe {A} (P : A → Prop) d k (check : yaml → res A) :
  is_Some (yget k d) → (∀ y, vres P (check y)) → vres P (y ← of_option KeyError (yget k d); check y).
Proof. intros [y ->] H. apply H. Qed.

(** ** params.py *)

Lemma expand_one_safe p s : vres any (Params._expand_one p s).
Proof.
  unfold Params._expand_one. pose proof (int_auto_safe s). destruct (int_auto s); [done |].
  repeat vstep; try done. apply int_auto_safe.
Qed.

Lemma expand_safe p s : vres any (Params.expand p s).
Proof.
  unfold Params.expand. eapply (vres_bind any); [| by intros [] _].
  apply (vres_foldM (fun _ => any)); [done |]. intros pre [idx tok] [acc neg] _ _. unfold Params.expand_tok.
  vstep; [done |]. vstep; [done |]. eapply vres_bind; [apply expand_one_safe |]. done.
Qed.
#[export] Hint Resolve expand_safe : reggen.

(** ** Access types and bit ranges *)

Lemma swaccess_safe y : vres any (SWAccess.init y).
Proof. unfold SWAccess.init. vstep. eapply (vres_bind any); [by apply vres_option | done]. Qed.
Lemma hwaccess_safe y : vres any (HWAccess.init y).
Proof. unfold HWAccess.init. vstep. eapply (vres_bind any); [by apply vres_option | done]. Qed.
#[export] Hint Resolve swaccess_safe hwaccess_safe : reggen.

(** The range is within a register of [w] bits. *)
Definition bits_wf (w : Z) (b : Bits) : Prop := 0 ≤ b_lsb b ≤ b_msb b ∧ b_msb b < w.

Lemma bits_init_safe w msb lsb :
  0 ≤ lsb ≤ msb → msb < w → vres (bits_wf w) (Bits.init msb lsb).
Proof. intros ??. unfold Bits.init. zbool. cbn. done. Qed.

Lemma bits_from_raw_safe w params y : vres (bits_wf w) (Bits.from_raw w params y).
Proof.
  unfold Bits.from_raw. eapply (vres_bind any).
  - destruct y; try done. cbn. unfold Bits._parse_str.
    assert (vres any (int_dec s)) by (by apply vres_option). destruct (int_dec s); [done |].
    repeat vstep; done.
  - intros [msb lsb] _. repeat vstep. by apply bits_init_safe; lia.
Qed.
#[export] Hint Resolve bits_from_raw_safe : reggen.

Lemma bits_width_pos w b : bits_wf w b → 0 < Bits.width b.
Proof. unfold bits_wf, Bits.width. lia. Qed.

Lemma testbit_bitmask b i :
  0 ≤ b_lsb b ≤ b_msb b → Z.testbit (Bits.bitmask b) i = (b_lsb b <=? i) && (i <=? b_msb b).
Proof.
  intros Hb. unfold Bits.bitmask.
  assert (E : (1 ≪ (b_msb b + 1)) - (1 ≪ b_lsb b) = mask (Bits.width b) ≪ b_lsb b).
  { unfold mask, Bits.width. rewrite !Z.shiftl_mul_pow2 by lia. rewrite Z.mul_sub_distr_r.
    rewrite !Z.mul_1_l, <- Z.pow_add_r by lia. do 2 f_equal. lia. }
  rewrite E. destruct (Z.ltb_spec i 0); [rewrite testbit_neg by done; by zbool |].
  rewrite testbit_shiftl by done. unfold Bits.width.
  destruct (Z.leb_spec (b_lsb b) i); cbn [andb].
  - rewrite testbit_mask by lia. destruct (Z.leb_spec i (b_msb b)); by zbool.
  - apply testbit_neg. lia.
Qed.

Lemma testbit_extract b v i :
  0 ≤ b_lsb b ≤ b_msb b → 0 ≤ i →
  Z.testbit (Bits.extract_field v b) i = (i <? Bits.width b) && Z.testbit v (i + b_lsb b).
Proof.
  intros Hb Hi. unfold Bits.extract_field, Bits.width. rewrite Z.shiftr_spec, Z.land_spec by done.
  rewrite testbit_bitmask by done. rewrite (proj2 (Z.leb_le (b_lsb b) (i + b_lsb b))) by lia.
  rewrite andb_comm. f_equal. cbn [andb].
  destruct (Z.leb_spec (i + b_lsb b) (b_msb b)), (Z.ltb_spec i (1 + b_msb b - b_lsb b)); lia || done.
Qed.

Lemma extract_bits w b v : bits_wf w b → in_bits (Bits.width b) (Bits.extract_field v b).
Proof.
  intros Hb. pose proof (bits_width_pos w b Hb). unfold bits_wf in Hb.
  apply in_bits_testbit; [lia |]. split.
  - apply Z.shiftr_nonneg, Z.land_nonneg. right. unfold Bits.bitmask.
    rewrite !Z.shiftl_1_l. pose proof (Z.pow_le_mono_r 2 (b_lsb b) (b_msb b + 1)). lia.
  - intros i Hi. rewrite testbit_extract by lia. by zbool.
Qed.

(** ** Fields *)

Record field_wf (w : Z) (f : Field) : Prop := {
  fw_bits : bits_wf w (f_bits f);
  fw_resval : from_option (in_bits (Bits.width (f_bits f))) True (f_resval f);
}.

Lemma read_resval_safe w b r y :
  bits_wf w b →
  vres (fun v => from_option (in_bits (Bits.width b)) True v) (Field.read_resval b r y).
Proof.
  intros Hb. unfold Field.read_resval. destruct y as [y |].
  - vstep. repeat vstep; cbn; try done.
    all: match goal with H : negb (_ && _) = false |- _ =>
      apply negb_false_iff, andb_true_iff in H as [?%Z.leb_le Hv%Z.leb_le] end.
    all: unfold Bits.max_value in Hv; rewrite Z.shiftl_1_l in Hv; unfold in_bits; lia.
  - cbn. destruct r as [v |]; cbn; [by apply (extract_bits w) | done].
Qed.

Lemma enum_entry_safe v y : vres any (EnumEntry.init v y).
Proof.
  unfold EnumEntry.init. eapply vres_bind; [apply check_keys_safe; by vm_compute |]. cbn beta. intros d Hd.
  do 3 (eapply (vres_bind any); [apply required_safe; [apply Hd; set_solver | auto with reggen] | intros ? _]).
  by vstep.
Qed.

Lemma field_from_raw_safe name idx n sw hw resval w hwqe hwre params y :
  vres (field_wf w) (Field.from_raw name idx n sw hw resval w hwqe hwre params y).
Proof.
  unfold Field.from_raw. eapply vres_bind; [apply check_keys_safe; by vm_compute |]. cbn beta. intros d Hd.
  eapply (vres_bind any); [repeat vstep; auto with reggen; done |]. intros fname _.
  eapply (vres_bind any); [repeat vstep; done |]. intros desc _.
  vstep. eapply (vres_bind any); [repeat vstep; auto with reggen; done |]. intros swa _.
  eapply (vres_bind any); [repeat vstep; auto with reggen; done |]. intros hwa _.
  eapply vres_bind; [apply required_safe; [apply Hd; set_solver | apply bits_from_raw_safe] |].
  intros bits Hbits. eapply vres_bind; [by apply (read_resval_safe w) |]. intros rv Hrv.
  eapply (vres_bind any); [| by intros enum _; split].
  repeat vstep; try done. eapply (vres_bind any); [| done].
  apply (vres_foldM (fun _ => any)); [done |]. intros pre e en _ _. unfold Field.add_entry.
  eapply vres_bind; [apply enum_entry_safe |]. intros. by vstep.
Qed.

(** ** Registers *)

Record reg_wf (w : Z) (r : Register) : Prop := {
  rw_nonempty : r_fields r ≠ [];
  rw_fields : Forall (field_wf w) (r_fields r);
  rw_sorted : StronglySorted (fun f g => b_lsb (f_bits f) ≤ b_lsb (f_bits g)) (r_fields r);
  rw_names : NoDup (f_name <$> r_fields r);
  rw_reset : (r_resval r, r_resmask r) = Register.collect_reset (r_fields r);
}.

Lemma check_disjoint_ok fields : Register.check_disjoint fields = Ok ().
Proof. unfold Register.check_disjoint. induction fields as [| f fs IH]; [done |]. exact IH. Qed.

Lemma index_list_safe {T} (key : T → string) l : vres any (index_list l key).
Proof.
  apply (vres_foldM (fun _ => any)); [done |]. intros pre x d _ _. unfold index_add. by vstep.
Qed.

(** What the constructor keeps of its arguments. *)
Lemma register_init_safe w offset name desc sw hw hwext hwqe hwre regwen tags resval shadowed fields ua sa :
  fields ≠ [] → Forall (field_wf w) fields →
  vres (fun r => reg_wf w r ∧ r_offset r = offset ∧ r_name r = name ∧ r_regwen r = regwen ∧
          r_fields r = sort_by (fun f => b_lsb (f_bits f)) fields ∧ (∀ v, resval = Some v → r_resval r = v))
    (Register.init offset name desc sw hw hwext hwqe hwre regwen tags resval shadowed fields ua sa).
Proof.
  intros Hne Hf. unfold Register.init. do 5 (vstep; [done |]).
  eapply vres_bind; [apply vres_assert; by destruct fields |]. intros _ _.
  set (sorted := sort_by _ fields). destruct (index_list sorted f_name) as [d | e] eqn:Ei.
  - apply index_list_ok in Ei as [_ Hnd]. rewrite check_disjoint_ok, !res_bind_Ok.
    destruct (Register.collect_reset sorted) as [v m] eqn:Ec. vstep; [done |].
    apply vres_Ok. cbn [r_offset r_name r_regwen r_fields r_resval].
    split_and!; try done; [split; cbn; try done |].
    + unfold sorted. intros E. pose proof (sort_by_perm (fun f => b_lsb (f_bits f)) fields) as Hp.
      rewrite E in Hp. by apply Permutation_nil in Hp.
    + unfold sorted. by rewrite sort_by_perm.
    + apply sort_by_sorted.
    + intros v' ->. match goal with H : negb _ = false |- _ =>
        apply negb_false_iff, Z.eqb_eq in H; done end.
  - pose proof (index_list_safe f_name sorted) as Hs. by rewrite Ei in Hs.
Qed.

Lemma register_from_raw_safe w offset params y :
  vres (fun r => reg_wf w r ∧ r_offset r = offset) (Register.from_raw w offset params y).
Proof.
  unfold Register.from_raw. eapply vres_bind; [apply check_keys_safe; by vm_compute |]. cbn beta. intros d Hd.
  do 2 (eapply (vres_bind any); [apply required_safe; [apply Hd; set_solver | auto with reggen] | intros ? _]).
  do 5 vstep. eapply (vres_bind any); [repeat vstep; done |]. intros regwen _. vstep.
  eapply (vres_bind any); [repeat vstep; done |]. intros resval _. vstep.
  eapply (vres_bind any); [apply required_safe; [apply Hd; set_solver | auto with reggen] | intros raw_fields _].
  destruct raw_fields as [| rf rfs]; [done |].
  eapply vres_bind.
  { apply (vres_mapR (field_wf w)). intros [idx y'] _. apply field_from_raw_safe. }
  intros fields [Hf Hlen]. do 2 (eapply (vres_bind any); [unfold check_opt; repeat vstep; done | intros ? _]).
  eapply vres_weaken; [apply (register_init_safe w); [| done] | by intros r (? & ? & _)].
  intros ->. by rewrite length_imap in Hlen.
Qed.

(** ** Copies of a field *)

Definition field_copy (min_reg_idx : Z) (cname : string) (creg_idx : Z) (stripped : bool) (f : Field)
    (reg_idx : Z) : Field :=
  let off := (b_msb (f_bits f) + 1) * (reg_idx - min_reg_idx) in
  mkField (f_name f +:+ "_" +:+ pretty reg_idx) (Field.copy_desc cname creg_idx stripped f) (f_tags f)
    (f_swaccess f) (f_hwaccess f) (f_hwqe f) (f_hwre f)
    (mkBits (b_msb (f_bits f) + off) (b_lsb (f_bits f) + off)) (f_resval f) (Field.copy_enum stripped f).

Lemma app_cancel_l (s t u : string) : s +:+ t = s +:+ u → t = u.
Proof. induction s as [| c s IH]; cbn; [done |]. intros [= ?]. auto. Qed.

Lemma copy_name_inj n (i j : Z) : n +:+ "_" +:+ pretty i = n +:+ "_" +:+ pretty j → i = j.
Proof. intros H%app_cancel_l. injection H as H. by apply (inj pretty). Qed.

Section copies.
Context (w min n : Z) (cname : string) (creg_idx : Z) (stripped : bool) (f : Field).
Context (Hf : field_wf w f) (Hn : (b_msb (f_bits f) + 1) * n ≤ w).

Definition copies : list Field := field_copy min cname creg_idx stripped f <$> seqZ min n.

Lemma copy_offset i : min ≤ i < min + n →
  0 ≤ (b_msb (f_bits f) + 1) * (i - min) ∧
  (b_msb (f_bits f) + 1) * (i - min) + (b_msb (f_bits f) + 1) ≤ w.
Proof. intros Hi. destruct Hf as [[? ?] _]. nia. Qed.

Lemma copies_wf : Forall (field_wf w) copies.
Proof.
  apply Forall_fmap, Forall_forall. intros i Hi%elem_of_seqZ. pose proof (copy_offset i Hi).
  destruct Hf as [[? ?] Hr]. split; unfold field_copy, bits_wf; cbn; [lia |].
  replace (Bits.width _) with (Bits.width (f_bits f)); [done |]. unfold Bits.width. cbn. lia.
Qed.

Lemma copies_sorted : StronglySorted (fun f g => b_lsb (f_bits f) ≤ b_lsb (f_bits g)) copies.
Proof.
  unfold copies. assert (Hs : ∀ l, StronglySorted Z.lt l → Forall (fun i => min ≤ i < min + n) l →
    StronglySorted (fun f g => b_lsb (f_bits f) ≤ b_lsb (f_bits g))
      (field_copy min cname creg_idx stripped f <$> l)).
  { induction 1 as [| i l Hl IH Hi]; intros Hr; cbn; [constructor |].
    apply Forall_cons in Hr as [Hi0 Hr]. constructor; [by apply IH |].
    apply Forall_fmap, Forall_forall. intros j Hj. rewrite Forall_forall in Hi, Hr.
    specialize (Hi j Hj). specialize (Hr j Hj). unfold field_copy; cbn.
    destruct Hf as [[? ?] _]. nia. }
  apply Hs; [apply seqZ_sorted |]. apply Forall_forall. intros i Hi%elem_of_seqZ. lia.
Qed.

Lemma copies_names : NoDup (f_name <$> copies).
Proof.
  unfold copies. rewrite <- list_fmap_compose. apply NoDup_fmap_2; [| apply NoDup_seqZ].
  intros i j. apply copy_name_inj.
Qed.

Lemma make_multi_eq max :
  0 ≤ min ≤ max → n = 1 + max - min →
  Field.make_multi w min max cname creg_idx stripped f = Ok copies.
Proof.
  intros Hm En. unfold Field.make_multi. rewrite <- En. zbool. cbn [andb py_assert]. rewrite res_bind_Ok.
  zbool. unfold copies.
  apply mapR_Ok_fmap. intros i Hi%elem_of_seqZ.
  unfold Field.make_copy, field_copy. pose proof (copy_offset i Hi).
  destruct Hf as [[? ?] _]. destruct (Z.eqb_spec ((b_msb (f_bits f) + 1) * (i - min)) 0) as [E | Ne].
  - rewrite E, !res_bind_Ok, !Z.add_0_r. by destruct (f_bits f).
  - unfold Bits.make_translated, Bits.init. zbool. cbn [andb py_assert]. by rewrite !res_bind_Ok.
Qed.
End copies.

(** ** Numbered registers *)

Lemma append_length (s t : string) : String.length (s +:+ t) = (String.length s + String.length t)%nat.
Proof. induction s as [| c s IH]; [done |]. exact (f_equal S IH). Qed.

Lemma app_cancel_r (s t u : string) : s +:+ u = t +:+ u → s = t.
Proof.
  revert t. induction s as [| c s IH]; intros [| c' t] H.
  - done.
  - apply (f_equal String.length) in H. rewrite !append_length in H. cbn in H. lia.
  - apply (f_equal String.length) in H. rewrite !append_length in H. cbn in H. lia.
  - cbn in H. injection H as -> H. f_equal. by apply IH.
Qed.

(** The fields of register number [idx] of a multi-register. *)
Definition creg_fields (compact : bool) (min max idx : Z) (cname : string) (r : Register) : list Field :=
  if compact then
    match r_fields r with [f] => copies min (1 + max - min) cname idx (0 <? idx) f | _ => [] end
  else Field.make_suffixed ("_" +:+ pretty idx) cname idx (0 <? idx) <$> r_fields r.

Definition creg_name (cnt idx : Z) (r : Register) : string :=
  if 1 <? cnt then r_name r +:+ "_" +:+ pretty idx else r_name r.

Record creg_ok (compact : bool) (w min max idx : Z) (r : Register) : Prop := {
  ck_range : 0 ≤ min ≤ max;
  ck_single : compact = false → min = max ∧ idx = min;
  ck_compact : compact = true → ∃ f, r_fields r = [f] ∧ (b_msb (f_bits f) + 1) * (1 + max - min) ≤ w;
}.

Section creg.
Context (compact : bool) (w min max idx : Z) (cname : string) (r : Register).
Context (Hr : reg_wf w r) (Hc : creg_ok compact w min max idx r).

Lemma suffixed_lsb sfx g : b_lsb (f_bits (Field.make_suffixed sfx cname idx (0 <? idx) g)) = b_lsb (f_bits g).
Proof. done. Qed.

Lemma creg_fields_wf : Forall (field_wf w) (creg_fields compact min max idx cname r).
Proof.
  unfold creg_fields. destruct compact eqn:Ec.
  - destruct (ck_compact _ _ _ _ _ _ Hc eq_refl) as (f & Ef & Hw). pose proof (rw_fields _ _ Hr) as Hf.
    rewrite Ef in Hf |- *. apply Forall_cons in Hf as [Hf _]. by apply copies_wf.
  - apply Forall_fmap. eapply Forall_impl; [apply Hr |]. intros f []. by split.
Qed.

Lemma creg_fields_nonempty : creg_fields compact min max idx cname r ≠ [].
Proof.
  unfold creg_fields. destruct compact eqn:Ec.
  - destruct (ck_compact _ _ _ _ _ _ Hc eq_refl) as (f & Ef & Hw). rewrite Ef. unfold copies.
    intros E%(f_equal length). rewrite length_fmap, length_seqZ in E. pose proof (ck_range _ _ _ _ _ _ Hc).
    cbn in E. lia.
  - intros E%fmap_nil_inv. by apply (rw_nonempty _ _ Hr).
Qed.

Lemma creg_fields_sorted :
  sort_by (fun f => b_lsb (f_bits f)) (creg_fields compact min max idx cname r) =
  creg_fields compact min max idx cname r.
Proof.
  apply sort_by_id. unfold creg_fields. destruct compact eqn:Ec.
  - destruct (ck_compact _ _ _ _ _ _ Hc eq_refl) as (f & Ef & Hw). pose proof (rw_fields _ _ Hr) as Hf.
    rewrite Ef in Hf |- *. apply Forall_cons in Hf as [Hf _]. by eapply copies_sorted.
  - pose proof (rw_sorted _ _ Hr) as Hs. induction Hs as [| f fs Hs IH Hf]; cbn; constructor; [done |].
    apply Forall_fmap. exact Hf.
Qed.

Lemma register_make_multi_safe offset cnt rwm :
  0 ≤ idx < cnt →
  vres (fun r' => reg_wf w r' ∧ r_offset r' = offset ∧ r_name r' = creg_name cnt idx r ∧
          r_fields r' = creg_fields compact min max idx cname r)
    (Register.make_multi w offset idx cnt rwm compact min max cname r).
Proof.
  intros Hidx. unfold Register.make_multi. pose proof (ck_range _ _ _ _ _ _ Hc) as Hm. zbool.
  cbn [andb py_assert]. rewrite !res_bind_Ok.
  assert (Eb : compact || (min =? max) = true).
  { destruct compact eqn:Ec; [done |]. destruct (ck_single _ _ _ _ _ _ Hc eq_refl). by apply Z.eqb_eq. }
  rewrite Eb. cbn [py_assert]. rewrite res_bind_Ok.
  eapply (vres_bind (fun l => l = creg_fields compact min max idx cname r)).
  - unfold creg_fields. destruct compact eqn:Ec.
    + destruct (ck_compact _ _ _ _ _ _ Hc eq_refl) as (f & Ef & Hw). pose proof (rw_fields _ _ Hr) as Hf.
      rewrite Ef in Hf |- *. apply Forall_cons in Hf as [Hf _]. by erewrite make_multi_eq.
    + destruct (ck_single _ _ _ _ _ _ Hc eq_refl) as [_ ->]. rewrite Z.eqb_refl. done.
  - intros l ->. eapply vres_weaken;
      [apply (register_init_safe w); [apply creg_fields_nonempty | apply creg_fields_wf] |].
    intros r' (? & ? & ? & _ & E & _). rewrite creg_fields_sorted in E. done.
Qed.
End creg.

(** ** Multi-registers *)

(** The number of registers in a compacted one. *)
Definition per_creg (w : Z) (m : MultiRegister) : Z :=
  if mr_compact m then
    match r_fields (mr_reg m) with [f] => w / (b_msb (f_bits f) + 1) | _ => 1 end
  else 1.

(** The numbers of the first and last copy in register [i]. *)
Definition creg_min (w : Z) (m : MultiRegister) (i : Z) : Z := per_creg w m * i.
Definition creg_max (w : Z) (m : MultiRegister) (i : Z) : Z :=
  Z.min (per_creg w m * i + per_creg w m) (mr_count m) - 1.

Record multi_wf (w addrsep : Z) (m : MultiRegister) : Prop := {
  mw_reg : reg_wf w (mr_reg m);
  mw_count : 0 < mr_count m;
  mw_single : mr_compact m = true → ∃ f, r_fields (mr_reg m) = [f];
  mw_per : 1 ≤ per_creg w m;
  mw_length : Z.of_nat (length (mr_regs m)) = (mr_count m + per_creg w m - 1) / per_creg w m;
  mw_regs i r : mr_regs m !! i = Some r →
    reg_wf w r ∧ r_offset r = mr_offset m + Z.of_nat i * addrsep ∧
    r_name r = creg_name (Z.of_nat (length (mr_regs m))) (Z.of_nat i) (mr_reg m) ∧
    r_fields r = creg_fields (mr_compact m) (creg_min w m (Z.of_nat i)) (creg_max w m (Z.of_nat i))
                   (Z.of_nat i) (mr_cname m) (mr_reg m);
}.

(** The ranges of copies are as [Register.make_multi] needs them. *)
Lemma creg_range_ok (compact : bool) w per count (r : Register) i :
  1 ≤ per → 0 < count → (compact = false → per = 1) →
  (compact = true → ∃ f, r_fields r = [f] ∧ (b_msb (f_bits f) + 1) * per ≤ w ∧ 0 ≤ b_msb (f_bits f)) →
  0 ≤ i < (count + per - 1) / per →
  creg_ok compact w (per * i) (Z.min (per * i + per) count - 1) i r.
Proof.
  intros Hp Hcount Hs Hcomp Hi.
  assert (per * i < count).
  { pose proof (Z.mul_div_le (count + per - 1) per ltac:(lia)). nia. }
  split; [nia | |].
  - intros E. rewrite (Hs E) in *. lia.
  - intros E. destruct (Hcomp E) as (f & Ef & Hw & ?). exists f. split; [done |]. nia.
Qed.

Lemma compact_single w reg (compact : bool) :
  reg_wf w reg → compact && (1 <? length (r_fields reg))%nat = false → compact = true →
  ∃ f, r_fields reg = [f] ∧ field_wf w f.
Proof.
  intros Hreg Hcomp ->. pose proof (rw_fields _ _ Hreg) as Hf.
  destruct (r_fields reg) as [| f [| g fs]] eqn:Ef; [by apply (rw_nonempty _ _ Hreg) in Ef | | done].
  exists f. split; [done |]. by apply Forall_cons in Hf as [? _].
Qed.

Lemma regs_per_creg_safe w reg (compact : bool) :
  (compact = true → ∃ f, r_fields reg = [f] ∧ field_wf w f) →
  vres (fun per => 1 ≤ per ∧ (compact = false → per = 1) ∧
    (compact = true → ∃ f, r_fields reg = [f] ∧ per = w / (b_msb (f_bits f) + 1) ∧
       (b_msb (f_bits f) + 1) * per ≤ w ∧ 0 ≤ b_msb (f_bits f)))
    (MultiRegister.regs_per_creg w compact reg).
Proof.
  intros Hone. unfold MultiRegister.regs_per_creg. destruct compact; [| done].
  destruct Hone as (f & -> & [[Hb1 Hb2] _]); [done |]. zbool. cbn. split_and!; [| done |].
  - apply Z.div_le_lower_bound; lia.
  - intros _. exists f. split_and!; [done | done | | lia]. apply Z.mul_div_le. lia.
Qed.

Lemma multireg_init_safe offset addrsep w params y :
  vres (fun m => multi_wf w addrsep m ∧ mr_offset m = offset) (MultiRegister.init offset addrsep w params y).
Proof.
  unfold MultiRegister.init. eapply vres_bind; [apply check_keys_safe; by vm_compute |]. cbn beta. intros d Hd.
  eapply vres_bind; [apply register_from_raw_safe |]. intros reg [Hreg _].
  eapply (vres_bind any); [apply required_safe; [apply Hd; set_solver | auto with reggen] | intros cname _].
  eapply (vres_bind any); [auto with reggen | intros rwm _].
  eapply (vres_bind any); [auto with reggen | intros compact _]. apply vres_if; intros Hcomp; [done |].
  eapply (vres_bind any); [apply required_safe; [apply Hd; set_solver | auto with reggen] | intros cs _].
  eapply (vres_bind any); [auto with reggen | intros count _].
  apply vres_if; intros Hcount; [done |]. apply Z.leb_gt in Hcount.
  pose proof (fun E => compact_single w reg compact Hreg Hcomp E) as Hone.
  eapply vres_bind; [by apply regs_per_creg_safe |].
  intros per (Hper & Hp1 & Hpc). set (cnt := (count + per - 1) / per).
  eapply vres_bind.
  { apply (vres_mapR2 (fun i r' => reg_wf w r' ∧ r_offset r' = offset + i * addrsep ∧
      r_name r' = creg_name cnt i reg ∧
      r_fields r' = creg_fields compact (per * i) (Z.min (per * i + per) count - 1) i cname reg)).
    intros i Hi%elem_of_seqZ. unfold MultiRegister.make_creg.
    apply register_make_multi_safe; [done | | lia].
    apply creg_range_ok; [done | done | done | | lia].
    intros E. destruct (Hpc E) as (f & ? & _ & ?). by exists f. }
  intros regs Hregs. split; [| done]. pose proof (Forall2_length _ _ _ Hregs) as Hlen.
  assert (0 ≤ cnt) by (apply Z.div_pos; lia). rewrite length_seqZ in Hlen.
  assert (Hpm : per_creg w (mkMultiRegister offset reg cname rwm compact count regs) = per).
  { unfold per_creg. cbn. destruct compact; [| by rewrite Hp1]. destruct (Hpc eq_refl) as (f & -> & -> & _). done. }
  split; cbn [mr_reg mr_count mr_compact mr_regs mr_offset mr_cname]; try done.
  - intros E. destruct (Hone E) as (f & ? & _). by exists f.
  - by rewrite Hpm.
  - rewrite Hpm. fold cnt. lia.
  - intros i r Hi. unfold creg_min, creg_max. rewrite Hpm. cbn [mr_count].
    destruct (Forall2_lookup_r _ _ _ _ _ Hregs Hi) as (j & Hj & HP).
    apply lookup_seqZ in Hj as [-> _]. rewrite Z.add_0_l in HP.
    replace (Z.of_nat (length regs)) with cnt by lia. done.
Qed.
