(* ===== verification/RgLayout.v ===== *)
(** The layout of a register block (entries are in order, aligned and do not overlap, names are
    distinct, the tables of a block agree with its entries), and that whole IP descriptions are
    accepted or refused with [ValueError]. *)

From Stdlib Require Import Ascii.
From stdpp Require Import pretty sorting.
From S2P Require Import Prelude BitLoops PyStr PyList Yaml RgLib RgField.
From S2P Require Import RgRegister RgBlock RgSafe.
From S2P Require Import RgIp.
Import RegBlock.

(** ** Windows *)

(** The number [o] rounded up to a multiple of [2 ^ k]. *)
Lemma round_up_eq o k :
  0 ≤ o → 0 ≤ k →
  let m := 2 ^ k - 1 in
  let o' := if truthy (o .& m) then (o .| m) + 1 else o in
  o ≤ o' ∧ o' `mod` 2 ^ k = 0.
Proof.
  intros Ho Hk. cbv zeta. assert (0 < 2 ^ k) by (apply Z.pow_pos_nonneg; lia).
  assert (Eones : 2 ^ k - 1 = Z.ones k) by (rewrite Z.ones_equiv; lia).
  rewrite Eones. unfold truthy. destruct (Z.eqb_spec (o .& Z.ones k) 0) as [E | N]; cbn [negb].
  - rewrite Z.land_ones in E by done. split; [lia | done].
  - assert (Ediv : (o .| Z.ones k) / 2 ^ k = o / 2 ^ k).
    { rewrite <- !Z.shiftr_div_pow2, Z.shiftr_lor by done.
      rewrite (Z.shiftr_div_pow2 (Z.ones k)), Z.ones_equiv, (Z.div_small (Z.pred (2 ^ k))) by lia.
      apply Z.lor_0_r. }
    assert (Emod : (o .| Z.ones k) `mod` 2 ^ k = 2 ^ k - 1).
    { rewrite <- Z.land_ones, Eones by done. apply Z_bits_eq. intros i Hi.
      rewrite Z.land_spec, Z.lor_spec. by destruct (Z.testbit o i), (Z.testbit (Z.ones k) i). }
    pose proof (Z.div_mod (o .| Z.ones k) (2 ^ k) ltac:(lia)) as E1.
    pose proof (Z.div_mod o (2 ^ k) ltac:(lia)). pose proof (Z.mod_pos_bound o (2 ^ k) ltac:(lia)).
    rewrite Ediv, Emod in E1. split; [lia |].
    replace ((o .| Z.ones k) + 1) with ((o / 2 ^ k + 1) * 2 ^ k) by lia. by apply Z.mod_mul; lia.
Qed.

Lemma bit_length_bound n : 1 ≤ n → 0 ≤ bit_length (n - 1) ∧ n ≤ 2 ^ bit_length (n - 1).
Proof.
  intros Hn. unfold bit_length. destruct (Z.eqb_spec (n - 1) 0) as [E | N]; [cbn; lia |].
  rewrite Z.abs_eq by lia. pose proof (Z.log2_nonneg (n - 1)).
  pose proof (Z.log2_spec (n - 1) ltac:(lia)) as [_ H1]. rewrite <- Z.add_1_r in H1. lia.
Qed.

(** A power of two that is not below another one is a multiple of it. *)
Lemma pow2_divide j k : 0 ≤ j → 2 ^ j ≤ 2 ^ k → 0 ≤ k → (2 ^ j | 2 ^ k).
Proof.
  intros Hj Hle Hk. assert (j ≤ k) by (by apply (Z.pow_le_mono_r_iff 2)).
  exists (2 ^ (k - j)). rewrite <- Z.pow_add_r by lia. f_equal. lia.
Qed.

(** Register width of [2 ^ j] bytes. *)
Definition width_ok (w addrsep : Z) : Prop := ∃ j, 0 ≤ j ∧ addrsep = 2 ^ j ∧ w = 8 * addrsep.

Record window_wf (addrsep offset : Z) (w : Window) : Prop := {
  ww_offset : offset ≤ w_offset w;
  ww_aligned : w_offset w `mod` addrsep = 0;
  ww_size : 0 < w_size_in_bytes w;
  ww_words : w_size_in_bytes w `mod` addrsep = 0;
  ww_po2 : w_offset w `mod` Window.po2_size (w_size_in_bytes w) = 0;
}.

Lemma window_from_raw_safe offset w addrsep params y :
  width_ok w addrsep → 0 ≤ offset → offset `mod` addrsep = 0 →
  vres (window_wf addrsep offset) (Window.from_raw offset w params y).
Proof.
  intros (j & Hj & EA & Ew) Ho Hal. assert (0 < addrsep) by (rewrite EA; apply Z.pow_pos_nonneg; lia).
  unfold Window.from_raw. eapply vres_bind; [apply check_keys_safe; by vm_compute |]. cbn beta. intros d Hd.
  do 2 (eapply (vres_bind any); [apply required_safe; [apply Hd; set_solver | auto with reggen] | intros ? _]).
  do 3 (eapply (vres_bind any); [auto with reggen | intros ? _]).
  eapply (vres_bind any); [auto with reggen | intros validbits _].
  apply vres_if; [done | intros Hv%Z.leb_gt]. apply vres_if; [done | intros _].
  eapply (vres_bind any); [apply required_safe; [apply Hd; set_solver | auto with reggen] | intros ? _].
  eapply (vres_bind any); [auto with reggen | intros items _].
  apply vres_if; [done | intros Hi%Z.leb_gt].
  assert (Ew8 : w / 8 = addrsep) by (rewrite Ew, Z.mul_comm; by apply Z.div_mul).
  eapply vres_bind; [apply vres_assert; rewrite Ew, Z.mul_comm; apply Z.eqb_eq; by apply Z.mod_mul | intros _ _].
  rewrite Ew8. set (size := items * addrsep). assert (Hsize : addrsep ≤ size ∧ items ≤ size) by (unfold size; nia).
  eapply vres_bind; [apply vres_assert; by zbool | intros _ _]. apply vres_if; [done | intros _].
  destruct (bit_length_bound size ltac:(lia)) as [Hk Hk2]. unfold Window.po2_size.
  set (k := bit_length (size - 1)) in *. rewrite Z.shiftl_1_l.
  pose proof (round_up_eq offset k Ho Hk) as Hround. cbv zeta in Hround. set (o' := if truthy _ then _ else _) in *.
  destruct Hround as [Hle Hmod]. clearbody o'.
  eapply (vres_bind any); [apply required_safe; [apply Hd; set_solver | auto with reggen] | intros ? _].
  apply vres_if; [done | intros _]. unfold Window.init, Window.po2_size. fold k. zbool. cbn [andb py_assert].
  rewrite !res_bind_Ok, Z.shiftl_1_l. replace (2 ^ k - 1) with (Z.ones k) by (rewrite Z.ones_equiv; lia).
  rewrite Z.land_ones, Hmod by done. cbn. split; cbn; [done | | lia | by apply Z.mod_mul; lia |];
    [| unfold Window.po2_size; fold k; by rewrite Z.shiftl_1_l].
  apply Z.mod_divide; [lia |]. apply Z.mod_divide in Hmod; [| apply Z.pow_nonzero; lia].
  etrans; [| exact Hmod]. rewrite EA. apply pow2_divide; lia.
Qed.

(** ** Entries *)

Definition regs_of (e : entry) : list Register :=
  match e with EReg r => [r] | EMulti m => mr_regs m | EWindow _ => [] end.

(** The name of a register, as the tables have it. *)
Definition reg_name (r : Register) : string * Z := (lower (r_name r), r_offset r).
Definition names_of (e : entry) : list (string * Z) :=
  match e with EWindow w => [(lower (w_name w), w_offset w)] | _ => reg_name <$> regs_of e end.

Definition entry_wf (w addrsep : Z) (e : entry) : Prop :=
  match e with
  | EReg r => reg_wf w r
  | EMulti m => multi_wf w addrsep m
  | EWindow x => w_offset x `mod` Window.po2_size (w_size_in_bytes x) = 0
  end.

(** The entries lie between [lo] and [hi], one after the other, on multiples of [addrsep]. *)
Fixpoint layout (addrsep lo : Z) (es : list entry) (hi : Z) : Prop :=
  match es with
  | [] => lo ≤ hi
  | e :: es =>
      lo ≤ entry_offset e ∧ entry_offset e `mod` addrsep = 0 ∧
      entry_offset e < entry_next addrsep e ∧ entry_next addrsep e `mod` addrsep = 0 ∧
      layout addrsep (entry_next addrsep e) es hi
  end.

Lemma layout_weaken addrsep lo es hi hi' : layout addrsep lo es hi → hi ≤ hi' → layout addrsep lo es hi'.
Proof. revert lo. induction es as [| e es IH]; cbn; intros lo H Hle; [lia |]. naive_solver. Qed.

Lemma layout_snoc addrsep lo es mid e :
  layout addrsep lo es mid → mid ≤ entry_offset e → entry_offset e `mod` addrsep = 0 →
  entry_offset e < entry_next addrsep e → entry_next addrsep e `mod` addrsep = 0 →
  layout addrsep lo (es ++ [e]) (entry_next addrsep e).
Proof.
  intros Hl Hm ? ? ?. revert lo Hl. induction es as [| x es IH]; cbn; intros lo Hl; [| naive_solver].
  split_and!; try done; lia.
Qed.

(** ** Tables *)

(** The tables of a block list the entries [es] and then the registers [regs]. *)
Record tables (es : list entry) (regs : list Register) (b : RegBlock) : Prop := {
  tb_flat : rb_flat_regs b = (es ≫= regs_of) ++ regs;
  tb_names : rb_name_to_offset b = (es ≫= names_of) ++ (reg_name <$> regs);
  tb_nodup : NoDup (rb_name_to_offset b).*1;
  tb_lookup : rb_name_to_flat_reg b = (fun r => (lower (r_name r), r)) <$> rb_flat_regs b;
}.

Lemma lower_idem s : lower (lower s) = lower s.
Proof.
  induction s as [| c s IH]; cbn; [done |]. f_equal; [| done]. unfold lower_ascii.
  set (n := nat_of_ascii c). destruct ((65 <=? Z.of_nat n) && (Z.of_nat n <=? 90)) eqn:E.
  - apply andb_true_iff in E as [?%Z.leb_le ?%Z.leb_le].
    rewrite nat_ascii_embedding by lia. by zbool.
  - fold n. by rewrite E.
Qed.

Lemma tables_lower es regs b n : tables es regs b → n ∈ (rb_name_to_offset b).*1 → lower n = n.
Proof.
  intros [_ -> _ _]. rewrite list_elem_of_fmap. intros ([k o] & -> & [Hk | Hk]%elem_of_app); cbn.
  - apply list_elem_of_bind in Hk as (e & Hk & _). destruct e; cbn in Hk.
    + apply list_elem_of_singleton in Hk. injection Hk as -> _. apply lower_idem.
    + apply list_elem_of_fmap in Hk as (r & [= -> _] & _). apply lower_idem.
    + apply list_elem_of_singleton in Hk. injection Hk as -> _. apply lower_idem.
  - apply list_elem_of_fmap in Hk as (r & [= -> _] & _). apply lower_idem.
Qed.

(** The names of the registers are names of the block. *)
Lemma tables_flat_names es regs b n :
  tables es regs b → n ∈ (rb_name_to_flat_reg b).*1 → n ∈ (rb_name_to_offset b).*1.
Proof.
  intros [Ef En _ El]. rewrite El, <- list_fmap_compose. intros (r & -> & Hr)%list_elem_of_fmap.
  cbn. rewrite Ef in Hr. rewrite En. apply list_elem_of_fmap. exists (reg_name r). split; [done |].
  apply elem_of_app in Hr as [Hr | Hr]; apply elem_of_app; [left | right; by apply list_elem_of_fmap_2].
  apply list_elem_of_bind in Hr as (e & Hr & He). apply list_elem_of_bind. exists e. split; [| done].
  destruct e; cbn in *; [| by apply list_elem_of_fmap_2 | by apply elem_of_nil in Hr].
  apply list_elem_of_singleton in Hr as ->. by apply list_elem_of_singleton.
Qed.

Lemma has_name_false n b : has_name n b = false → n ∉ (rb_name_to_offset b).*1.
Proof.
  unfold has_name. intros H%bool_decide_eq_false. apply dget_None. by apply eq_None_not_Some.
Qed.

Lemma has_name_not n b : n ∉ (rb_name_to_offset b).*1 → has_name n b = false.
Proof. intros H%dget_None. unfold has_name. rewrite H. by apply bool_decide_eq_false_2; intros []. Qed.

(** The parts of a block that naming a register does not change. *)
Definition same_frame (b b' : RegBlock) : Prop :=
  rb_addrsep b' = rb_addrsep b ∧ rb_reg_width b' = rb_reg_width b ∧ rb_params b' = rb_params b ∧
  rb_offset b' = rb_offset b ∧ rb_entries b' = rb_entries b.

(** Adding one register to the tables: it gets a new name, or the name is refused. *)
Lemma add_creg_safe es regs b r :
  tables es regs b →
  vres (fun b' => tables es (regs ++ [r]) b' ∧ same_frame b b') (add_creg b r).
Proof.
  intros Ht. unfold add_creg. apply vres_if; [done | intros Hn%has_name_false].
  assert (Hn' : r_name r ∉ (rb_name_to_offset b).*1).
  { intros Hin. apply Hn. by rewrite (tables_lower es regs b _ Ht Hin). }
  unfold _add_flat_reg. rewrite (has_name_not _ _ Hn'). cbn [negb py_assert]. rewrite res_bind_Ok.
  assert (Hf : ∀ n, n ∉ (rb_name_to_offset b).*1 → dget n (rb_name_to_flat_reg b) = None).
  { intros n Hx. apply dget_None. intros Hin. by apply Hx, (tables_flat_names es regs). }
  rewrite (Hf _ Hn'), bool_decide_eq_false_2 by (by intros []). cbn [negb py_assert]. rewrite !res_bind_Ok.
  destruct Ht as [Ef En Hnd El]. split; [| done].
  split; cbn [rb_flat_regs rb_name_to_offset rb_name_to_flat_reg set_name].
  - by rewrite Ef, app_assoc.
  - rewrite dset_fresh by done. by rewrite En, fmap_app, app_assoc.
  - rewrite dset_fresh, fmap_app by done. apply NoDup_app. split_and!; [done | | apply NoDup_singleton].
    intros x Hx ->%list_elem_of_singleton. done.
  - rewrite dset_fresh by (by apply dget_None, Hf). by rewrite El, fmap_app.
Qed.

Lemma add_cregs_safe es b rs :
  tables es [] b → vres (fun b' => tables es rs b' ∧ same_frame b b') (foldM add_creg b rs).
Proof.
  intros Ht. apply (vres_foldM (fun pre b' => tables es pre b' ∧ same_frame b b')); [done |].
  intros pre r b' [Ht' Hs] _. eapply vres_weaken; [by apply add_creg_safe |].
  intros b'' [Ht'' Hs']. split; [done |]. unfold same_frame in *. intuition congruence.
Qed.

(** ** Blocks *)

Record block_wf (b : RegBlock) : Prop := {
  bw_width : width_ok (rb_reg_width b) (rb_addrsep b);
  bw_offset : 0 ≤ rb_offset b ∧ rb_offset b `mod` rb_addrsep b = 0;
  bw_layout : layout (rb_addrsep b) 0 (rb_entries b) (rb_offset b);
  bw_entries : Forall (entry_wf (rb_reg_width b) (rb_addrsep b)) (rb_entries b);
  bw_tables : tables (rb_entries b) [] b;
}.

Lemma width_ok_pos w a : width_ok w a → 0 < a.
Proof. intros (j & ? & -> & _). apply Z.pow_pos_nonneg; lia. Qed.

Lemma init_block_wf j params : 0 ≤ j → block_wf (init (8 * 2 ^ j) params).
Proof.
  intros Hj. assert (0 < 2 ^ j) by (apply Z.pow_pos_nonneg; lia).
  assert (E : (8 * 2 ^ j + 7) / 8 = 2 ^ j) by (symmetry; apply (Z.div_unique _ _ _ 7); lia).
  split; cbn; rewrite ?E; try done.
  - by exists j.
  - split; cbn; by try constructor.
Qed.

Lemma tables_push es e regs b b' :
  tables es regs b → regs_of e = regs → names_of e = reg_name <$> regs →
  rb_flat_regs b' = rb_flat_regs b → rb_name_to_offset b' = rb_name_to_offset b →
  rb_name_to_flat_reg b' = rb_name_to_flat_reg b → tables (es ++ [e]) [] b'.
Proof.
  intros [Ef En Hnd El] Er Enm E1 E2 E3. split; rewrite ?E1, ?E2, ?E3; try done.
  - by rewrite bind_app, bind_singleton, Er, app_nil_r.
  - by rewrite bind_app, bind_singleton, Enm, app_nil_r.
Qed.

Lemma add_register_safe r b :
  block_wf b → reg_wf (rb_reg_width b) r → r_offset r = rb_offset b →
  vres (fun b' => block_wf b' ∧ rb_reg_width b' = rb_reg_width b) (add_register r b).
Proof.
  intros [Hw [Ho Hal] Hl He Ht] Hr Eo. pose proof (width_ok_pos _ _ Hw) as HA.
  assert (E : add_register r b = (b' ← add_creg b r; Ok (push_register r b'))).
  { unfold add_register, add_creg. rewrite Eo, Z.eqb_refl. cbn [py_assert]. rewrite res_bind_Ok.
    destruct (has_name _ _); [done |]. by destruct (_add_flat_reg r b). }
  rewrite E. eapply vres_bind; [by apply add_creg_safe |].
  intros b' [Ht' (Ea & Ew & _ & Eo' & Ee)]. apply vres_Ok.
  assert (Hn : Register.next_offset (rb_addrsep b) r = rb_offset b + rb_addrsep b)
    by (unfold Register.next_offset; by rewrite Eo).
  assert (Ha' : (rb_offset b + rb_addrsep b) `mod` rb_addrsep b = 0).
  { rewrite <- (Z.mul_1_l (rb_addrsep b)) at 1. by rewrite Z.mod_add by lia. }
  split; [| exact Ew].
  split; cbn [push_register rb_reg_width rb_addrsep rb_offset rb_entries]; rewrite ?Ea, ?Ew, ?Ee, ?Hn; try done.
  - split; [lia | done].
  - rewrite <- Hn. apply (layout_snoc _ _ _ (rb_offset b) (EReg r)); cbn; rewrite ?Hn, ?Eo; try done; lia.
  - apply Forall_app. split; [done |]. by apply Forall_singleton.
  - by apply (tables_push _ (EReg r) [r] b').
Qed.

Lemma add_window_safe w b :
  block_wf b → window_wf (rb_addrsep b) (rb_offset b) w → has_name (lower (w_name w)) b = false →
  vres (fun b' => block_wf b' ∧ rb_reg_width b' = rb_reg_width b) (add_window w b).
Proof.
  intros [Hw [Ho Hal] Hl He Ht] [Wo Wa Ws Ww] Hn. pose proof (width_ok_pos _ _ Hw) as HA.
  unfold add_window. rewrite Hn. cbn [negb py_assert set_name rb_offset]. zbool.
  cbn [py_assert]. rewrite !res_bind_Ok. apply vres_Ok. apply has_name_false in Hn.
  assert (Ha' : (w_offset w + w_size_in_bytes w) `mod` rb_addrsep b = 0).
  { rewrite Z.add_mod, Wa, Ww by lia. by apply Z.mod_0_l; lia. }
  split; [| done].
  split; cbn [push_window set_name rb_reg_width rb_addrsep rb_offset rb_entries]; unfold Window.next_offset; try done.
  - split; [lia | done].
  - apply (layout_snoc _ _ _ (rb_offset b) (EWindow w)); cbn; unfold Window.next_offset; try done; lia.
  - apply Forall_app. split; [done |]. by apply Forall_singleton.
  - destruct Ht as [Ef En Hnd El].
    split; cbn [push_window set_name rb_flat_regs rb_name_to_offset rb_name_to_flat_reg]; try done.
    + rewrite bind_app, bind_singleton. cbn [regs_of]. by rewrite Ef, !app_nil_r.
    + rewrite dset_fresh by done. rewrite bind_app, bind_singleton. cbn [names_of].
      by rewrite En, !app_nil_r.
    + rewrite dset_fresh, fmap_app by done. apply NoDup_app. split_and!; [done | | apply NoDup_singleton].
      intros x Hx ->%list_elem_of_singleton. done.
Qed.

Lemma multireg_next_safe w addrsep m :
  multi_wf w addrsep m → 0 < addrsep → mr_offset m `mod` addrsep = 0 →
  mr_offset m < MultiRegister.next_offset addrsep m ∧
  MultiRegister.next_offset addrsep m `mod` addrsep = 0.
Proof.
  intros [_ Hc _ Hp Hlen _] HA Hm. unfold MultiRegister.next_offset. rewrite Z.mod_add by lia. split; [| done].
  assert (1 ≤ (mr_count m + per_creg w m - 1) / per_creg w m) by (apply Z.div_le_lower_bound; lia). nia.
Qed.

Lemma handle_multireg_safe y b :
  block_wf b → vres (fun b' => block_wf b' ∧ rb_reg_width b' = rb_reg_width b) (_handle_multireg y b).
Proof.
  intros [Hw [Ho Hal] Hl He Ht]. pose proof (width_ok_pos _ _ Hw) as HA. unfold _handle_multireg.
  eapply vres_bind; [apply multireg_init_safe |]. intros m [Hm Eo].
  eapply vres_bind; [by apply add_cregs_safe |]. intros b' [Ht' (Ea & Ew & _ & Eo' & Ee)].
  destruct (multireg_next_safe _ _ _ Hm HA) as [Hlt Hmod]; [by rewrite Eo |]. apply vres_Ok.
  split; [| exact Ew].
  split; cbn [push_multireg rb_reg_width rb_addrsep rb_offset rb_entries]; rewrite ?Ea, ?Ew, ?Ee; try done.
  - split; [lia | done].
  - apply (layout_snoc _ _ _ (rb_offset b) (EMulti m)); cbn; rewrite ?Eo in *; try done; lia.
  - apply Forall_app. split; [done |]. by apply Forall_singleton.
  - by apply (tables_push _ (EMulti m) (mr_regs m) b').
Qed.

(** Moving the offset up to another multiple. *)
Lemma set_offset_wf o b :
  block_wf b → rb_offset b ≤ o → o `mod` rb_addrsep b = 0 → block_wf (set_offset o b).
Proof.
  intros [Hw [Ho Hal] Hl He [? ? ? ?]] Hle Hm. split; cbn; try done; [split; [lia | done] |].
  by eapply layout_weaken.
Qed.

Lemma add_raw_safe b y :
  block_wf b → vres (fun b' => block_wf b' ∧ rb_reg_width b' = rb_reg_width b) (add_raw b y).
Proof.
  intros Hb. pose proof (width_ok_pos _ _ (bw_width _ Hb)) as HA. destruct (bw_offset _ Hb) as [Ho Hal].
  unfold add_raw. eapply (vres_bind any); [unfold RgLib.check_str_dict; by repeat vstep |]. intros d _.
  eapply (vres_bind (fun st => st.1 ∈ ["register"; "reserved"; "skipto"; "window"; "multireg"]%string)).
  { apply (vres_foldM (fun _ st => st.1 ∈ ["register"; "reserved"; "skipto"; "window"; "multireg"]%string));
      [set_solver |].
    intros pre t st Hst Ht. unfold find_type. repeat vstep; [| done]. cbn. set_solver. }
  intros [t body] Ht. cbn in Ht.
  destruct (String.eqb_spec t "register").
  { unfold _handle_register. eapply vres_bind; [apply register_from_raw_safe |]. intros r [Hr Er].
    by apply add_register_safe. }
  destruct (String.eqb_spec t "reserved").
  { unfold _handle_reserved. eapply (vres_bind any); [auto with reggen | intros cnt _].
    apply vres_if; [done | intros Hcnt%Z.leb_gt]. apply vres_Ok. split; [| done].
    apply set_offset_wf; [done | nia |]. by rewrite Z.mul_comm, Z.mod_add by lia. }
  destruct (String.eqb_spec t "skipto").
  { unfold _handle_skipto. eapply (vres_bind any); [auto with reggen | intros o _].
    apply vres_if; [done | intros H1%Z.ltb_ge]. apply vres_if; [done | intros H2]. apply vres_Ok. split; [| done].
    apply set_offset_wf; [done | done |]. unfold truthy in H2. by apply negb_false_iff, Z.eqb_eq in H2. }
  destruct (String.eqb_spec t "window").
  { unfold _handle_window. eapply vres_bind; [by apply window_from_raw_safe; [apply (bw_width _ Hb) | |] |].
    intros w Hw. apply vres_if; [done | intros Hn]. by apply add_window_safe. }
  destruct (String.eqb_spec t "multireg"); [by apply handle_multireg_safe |]. set_solver.
Qed.

Lemma add_raw_registers_safe y b :
  block_wf b → vres (fun b' => block_wf b' ∧ rb_reg_width b' = rb_reg_width b) (add_raw_registers y b).
Proof.
  intros Hb. unfold add_raw_registers. eapply (vres_bind any); [auto with reggen | intros l _].
  apply (vres_foldM (fun _ b' => block_wf b' ∧ rb_reg_width b' = rb_reg_width b)); [done |].
  intros pre e b' [Hb' Ew] _. eapply vres_weaken; [by apply add_raw_safe |].
  intros b'' [? E]. by rewrite E, Ew.
Qed.

(** ** Parameters *)

Lemma check_opt_safe {A} (check : yaml → res A) o :
  (∀ y, vres any (check y)) → vres any (check_opt check o).
Proof. intros H. destruct o; cbn; [| done]. eapply vres_bind; [apply H | done]. Qed.

Lemma check_optional_str_safe y : vres any (RgLib.check_optional_str y).
Proof. by destruct y. Qed.

Lemma check_name_list_safe y : vres any (RgLib.check_name_list y).
Proof.
  unfold RgLib.check_name_list. vstep.
  eapply vres_weaken; [apply vres_mapR; intros; apply check_name_safe | done].
Qed.
#[export] Hint Resolve check_opt_safe check_optional_str_safe check_name_list_safe : reggen.

Lemma int_type_safe t v :
  vres (@any ()) (if BaseParam.is_int_type t then RgLib.check_int (YStr v);; Ok () else Ok ()).
Proof. vstep; [| done]. eapply vres_bind; [apply check_int_safe | done]. Qed.

Lemma parse_rand_safe rd name desc : vres any (parse_rand rd name desc).
Proof.
  unfold parse_rand. eapply (vres_bind any); [auto with reggen | intros rt _].
  apply vres_if; [done | intros Hrt]. apply negb_false_iff in Hrt.
  eapply (vres_bind any); [by apply vres_option | intros rc _].
  eapply (vres_bind any); [auto with reggen | intros n _]. apply vres_if; [done | intros Hn%Z.leb_gt].
  eapply (vres_bind any); [by apply vres_option | intros ty _].
  eapply (vres_bind any); [auto with reggen | intros t _].
  eapply (vres_bind any); [auto with reggen | intros local _]. apply vres_if; [done | intros _].
  destruct (yopt "default" rd); [done |].
  eapply (vres_bind any); [auto with reggen | intros expose _]. apply vres_if; [done | intros _].
  unfold BaseParam.rand_init. rewrite Hrt. by zbool.
Qed.

Lemma parse_plain_safe rd name desc : vres any (parse_plain rd name desc).
Proof.
  unfold parse_plain. apply vres_if; [done | intros _].
  eapply (vres_bind any); [repeat vstep; auto with reggen; done | intros t _].
  eapply (vres_bind any); [auto with reggen | intros local _].
  eapply (vres_bind any); [auto with reggen | intros expose _].
  eapply (vres_bind any); [by apply vres_option | intros rd' _].
  eapply (vres_bind any); [auto with reggen | intros v _].
  eapply vres_bind; [apply int_type_safe | intros _ _]. by repeat vstep.
Qed.

Lemma parse_parameter_safe y : vres any (_parse_parameter y).
Proof.
  unfold _parse_parameter. eapply vres_bind; [apply check_keys_safe; by vm_compute |]. cbn beta. intros d Hd.
  eapply (vres_bind any); [apply required_safe; [apply Hd; set_solver | auto with reggen] | intros n _].
  eapply (vres_bind any); [auto with reggen | intros desc _].
  apply vres_if; intros _; [apply parse_rand_safe | apply parse_plain_safe].
Qed.

Lemma params_from_raw_safe y : vres any (ReggenParams.from_raw y).
Proof.
  unfold ReggenParams.from_raw. eapply (vres_bind any); [auto with reggen | intros l _].
  apply (vres_foldM (fun _ => any)); [done |]. intros pre x d _ _.
  eapply vres_bind; [apply parse_parameter_safe | intros p _].
  destruct (dget (BaseParam.name p) d) eqn:E; [done |]. unfold Params.add. by rewrite E.
Qed.

Lemma apply_defaults_safe defaults p : vres any (IpBlock.apply_defaults defaults p).
Proof.
  unfold IpBlock.apply_defaults, Params.apply_defaults.
  assert (H : ∀ p, match foldM (fun p '(key, value) =>
    param ← of_option KeyError (dget key p);
    param ← BaseParam.apply_default value param; Ok (dset key param p)) p defaults with
    | Err e => e = ValueError ∨ e = KeyError | Ok _ => True end).
  { induction defaults as [| [k v] l IH]; intros q; cbn [foldM]; [done |].
    destruct (dget k q) as [param |]; cbn; [| by right].
    assert (Hs : vres any (BaseParam.apply_default v param)).
    { unfold BaseParam.apply_default. destruct param; try done.
      all: eapply vres_bind; [apply int_type_safe | done]. }
    destruct (BaseParam.apply_default v param) as [p' | e]; cbn in *; [apply IH | by left]. }
  specialize (H p). destruct (foldM _ _ _); [done |]. by destruct H as [-> | ->].
Qed.

(** ** Signals *)

Definition signals_wf (n : Z) (l : list Signal) : Prop :=
  0 ≤ n ∧ Forall (fun s => bits_wf n (s_bits s)) l ∧ (∀ s, last l = Some s → b_msb (s_bits s) + 1 = n).

Lemma signal_list_safe y :
  vres (fun l => ∃ n, signals_wf n l) (Signal.from_raw_list y).
Proof.
  unfold Signal.from_raw_list. eapply (vres_bind any); [auto with reggen | intros raws _].
  eapply (vres_bind (fun st => signals_wf st.2 st.1)); [| by intros [l n] H; exists n].
  apply (vres_foldM (fun _ st => signals_wf st.2 st.1)); [by split_and! |].
  intros pre x [l n] (Hn & Hl & _) _. cbn in Hn, Hl. unfold Signal.add_raw, Signal.from_raw.
  eapply (vres_bind (fun s => ∃ w, 0 < w ∧ s_bits s = mkBits (n + w - 1) n)).
  - eapply vres_bind; [apply check_keys_safe; by vm_compute |]. cbn beta. intros d Hd.
    do 2 (eapply (vres_bind any); [apply required_safe; [apply Hd; set_solver | auto with reggen] | intros ? _]).
    eapply (vres_bind any); [auto with reggen | intros w _]. apply vres_if; [done | intros Hw%Z.leb_gt].
    unfold Bits.init. zbool. cbn. by exists w.
  - intros s (w & Hw & Eb). apply vres_Ok. unfold signals_wf, Bits.width. cbn. rewrite Eb. cbn. split_and!.
    + lia.
    + apply Forall_app. split.
      * eapply Forall_impl; [exact Hl |]. intros t [? ?]. split; lia.
      * apply Forall_singleton. rewrite Eb. split; cbn; lia.
    + intros t. rewrite last_snoc. intros [= <-]. rewrite Eb. cbn. lia.
Qed.

Lemma split_first sep s : ∃ p ps, split sep s = p :: ps.
Proof.
  unfold split. generalize EmptyString as c. induction s as [| ch s IH]; intros c; cbn.
  - by eexists _, [].
  - destruct (Ascii.eqb ch sep); [by eexists _, _ | apply IH].
Qed.

Lemma alert_list_safe y :
  vres (fun l => (∀ i a, l !! i = Some a → s_bits (a_signal a) = mkBits (Z.of_nat i) (Z.of_nat i)) ∧
                 ∃ raws, y = YList raws ∧ length l = length raws)
    (Alert.from_raw_list y).
Proof.
  unfold Alert.from_raw_list.
  eapply (vres_bind (fun raws => y = YList raws)); [by destruct y | intros raws Ey].
  eapply vres_weaken.
  - apply (vres_mapR2 (fun x a => s_bits (a_signal a) = mkBits (Z.of_nat x.1) (Z.of_nat x.1))).
    intros [i x] _. unfold Alert.from_raw.
    eapply vres_bind; [apply check_keys_safe; by vm_compute |]. cbn beta. intros d Hd.
    do 2 (eapply (vres_bind any); [apply required_safe; [apply Hd; set_solver | auto with reggen] | intros ? _]).
    eapply (vres_bind any).
    { match goal with |- context [split "_"%char ?s] => destruct (split_first "_"%char s) as (p & ps & ->) end.
      done. }
    intros p _. unfold Alert.init, Bits.init. zbool. cbn. repeat vstep; done.
  - cbn. intros l Hl. split; [| exists raws; split; [done |]; apply Forall2_length in Hl;
      by rewrite length_imap in Hl]. intros i a Ha. destruct (Forall2_lookup_r _ _ _ _ _ Hl Ha) as (x & Hx & E).
    rewrite list_lookup_imap in Hx. apply fmap_Some in Hx as (z & _ & ->). exact E.
Qed.

(** ** Interrupt and alert registers *)

Lemma intr_alert_reg_safe signals name desc fmt sw hw is_test tags b :
  block_wf b → signals ≠ [] → Forall (fun s => bits_wf (rb_reg_width b) (s_bits s)) signals →
  vres (fun b' => block_wf b' ∧ rb_reg_width b' = rb_reg_width b)
    (RegBlock._add_intr_alert_reg signals name desc fmt sw hw is_test tags b).
Proof.
  intros Hb Hne Hs. unfold RegBlock._add_intr_alert_reg.
  eapply (vres_bind any); [auto with reggen | intros swo _].
  eapply (vres_bind any); [auto with reggen | intros hwo _].
  eapply vres_bind; [apply (register_init_safe (rb_reg_width b)) |].
  - by intros E%fmap_nil_inv.
  - apply Forall_fmap. eapply Forall_impl; [exact Hs |]. intros s Hbits. split; cbn; [done |].
    apply in_bits_0. pose proof (bits_width_pos _ _ Hbits). lia.
  - intros r (Hr & Er & _). by apply add_register_safe.
Qed.

Lemma py_last {A} (l : list A) x : last l = Some x → py_nth l (-1) = Ok x.
Proof.
  rewrite last_lookup. intros H. pose proof (lookup_lt_Some _ _ _ H). unfold py_nth. cbn.
  replace (Z.to_nat (-1 + Z.of_nat (length l))) with (pred (length l)) by lia. zbool. by rewrite H.
Qed.

Lemma add_intr_regs_safe interrupts no_auto b :
  block_wf b → (∃ n, signals_wf n interrupts) →
  vres (fun b' => block_wf b' ∧ rb_reg_width b' = rb_reg_width b)
    (IpBlock.add_intr_regs (rb_reg_width b) interrupts no_auto b).
Proof.
  intros Hb (n & Hn & Hs & Hlast). unfold IpBlock.add_intr_regs. apply vres_if; intros Hc; [| done].
  assert (Hne : interrupts ≠ []) by (by intros ->).
  destruct (last interrupts) as [top |] eqn:El; [| by apply last_None in El].
  rewrite (py_last _ top El), res_bind_Ok. apply vres_if; [done | intros Ht%Z.leb_gt].
  pose proof (Hlast top eq_refl) as En. unfold RegBlock.make_intr_regs.
  eapply vres_bind; [apply vres_assert; by destruct interrupts | intros _ _].
  rewrite (py_last _ top El), res_bind_Ok. zbool. cbn [py_assert]. rewrite res_bind_Ok.
  assert (Hw : Forall (fun s => bits_wf (rb_reg_width b) (s_bits s)) interrupts).
  { eapply Forall_impl; [exact Hs |]. intros s [? ?]. split; lia. }
  eapply vres_bind; [by apply intr_alert_reg_safe | intros b1 [Hb1 E1]].
  eapply vres_bind; [apply intr_alert_reg_safe; [done | done | by rewrite E1] | intros b2 [Hb2 E2]].
  rewrite E1 in E2. eapply vres_weaken; [apply intr_alert_reg_safe; [done | done | by rewrite E2] |].
  intros b3 [Hb3 E3]. by rewrite E3.
Qed.

Lemma add_alert_regs_safe alerts no_auto b :
  block_wf b → Z.of_nat (length alerts) ≠ rb_reg_width b →
  (∀ i a, alerts !! i = Some a → s_bits (a_signal a) = mkBits (Z.of_nat i) (Z.of_nat i)) →
  vres (fun b' => block_wf b' ∧ rb_reg_width b' = rb_reg_width b)
    (IpBlock.add_alert_regs (rb_reg_width b) alerts no_auto b).
Proof.
  intros Hb Hne Ha. unfold IpBlock.add_alert_regs. apply vres_if; intros Hc; [| done].
  apply vres_if; [done | intros Hlt%Z.ltb_ge]. unfold RegBlock.make_alert_regs.
  eapply vres_bind; [apply vres_assert; by destruct alerts | intros _ _].
  zbool. cbn [py_assert]. rewrite res_bind_Ok. apply intr_alert_reg_safe; [done | |].
  - intros E%fmap_nil_inv. by rewrite E in Hc.
  - apply Forall_fmap, Forall_lookup_2. intros i a Hi. unfold compose. rewrite (Ha i a Hi).
    apply lookup_lt_Some in Hi. split; cbn; lia.
Qed.

(** ** Register blocks *)

Lemma validate_safe b : vres any (RegBlock.validate b).
Proof.
  apply (vres_foldM (fun _ => any)); [done |]. intros pre w [] _ _. unfold RegBlock.check_wenname.
  apply vres_if; [done | intros _]. eapply (vres_bind any); [by apply vres_option | intros r _].
  by repeat vstep.
Qed.

Lemma set_params_wf p b : block_wf b → block_wf (IpBlock.set_params p b).
Proof. intros [? ? ? ? []]. by split. Qed.

Definition blocks_wf (w : Z) (l : list (option string * RegBlock)) : Prop :=
  Forall (fun kb => block_wf kb.2 ∧ rb_reg_width kb.2 = w) l.

Lemma build_blocks_safe b y :
  block_wf b → (∀ d, y = YDict d → NoDup d.*1) →
  vres (blocks_wf (rb_reg_width b)) (RegBlock.build_blocks b y).
Proof.
  intros Hb Hkeys. unfold RegBlock.build_blocks. destruct y as [| | | | l | d |]; try done.
  - eapply vres_bind; [by apply add_raw_registers_safe |]. intros b' Hb'. by apply Forall_singleton.
  - pose proof (Hkeys d eq_refl) as Hnd. clear Hkeys.
    set (I := fun (pre : list (yaml * yaml)) (st : list (option string * RegBlock) * option RegBlock * RegBlock) =>
      blocks_wf (rb_reg_width b) st.1.1 ∧ block_wf st.2 ∧ rb_reg_width st.2 = rb_reg_width b ∧
      from_option (fun i => block_wf i ∧ rb_reg_width i = rb_reg_width b) True st.1.2 ∧
      (∀ k, Some k ∈ st.1.1.*1 → YStr k ∈ pre.*1)).
    eapply (vres_bind (I d)); [| by intros [[ret i] l] (? & _)].
    enough (H : ∀ rest pre st, pre ++ rest = d → I pre st → vres (I d) (foldM RegBlock.add_block st rest))
      by (apply (H d []); [done | split_and!; [by apply Forall_nil | done | done | done | by intros k Hk%elem_of_nil]]).
    induction rest as [| [k v] rest IH]; intros pre [[ret i] l] Ed HI; cbn [foldM];
      [by rewrite app_nil_r in Ed; subst |].
    destruct HI as (Hret & Hl & El & Hi & Hk). cbn in Hret, Hl, El, Hi, Hk.
    eapply (vres_bind (I (pre ++ [(k, v)]))); [| intros st HI; apply (IH (pre ++ [(k, v)])); [| done];
      by rewrite <- app_assoc]. unfold RegBlock.add_block.
    set (blk := match i with Some b0 => b0 | None => _ end).
    assert (Hblk : block_wf blk ∧ rb_reg_width blk = rb_reg_width b).
    { unfold blk. destruct i as [i |]; [done |]. destruct (bw_width _ Hl) as (j & Hj & Ea & Ew).
      rewrite Ea in Ew. rewrite Ew. split; [by apply init_block_wf | cbn; congruence]. }
    clearbody blk. destruct Hblk as [Hblk Eblk]. destruct k as [| | | ks | | |]; try done. cbn [fst snd RgLib.check_str].
    rewrite res_bind_Ok.
    eapply (vres_bind any); [auto with reggen | intros vl _].
    eapply vres_bind; [by apply add_raw_registers_safe | intros b' [Hb' Eb']].
    eapply vres_bind; [apply validate_safe | intros [] _].
    assert (Hfresh : Some ks ∉ ret.*1).
    { intros Hin%Hk. rewrite <- Ed, fmap_app in Hnd. apply NoDup_app in Hnd as (_ & Hd & _).
      apply (Hd _ Hin). by left. }
    rewrite bool_decide_eq_false_2 by done. cbn [negb py_assert]. rewrite res_bind_Ok. apply vres_Ok.
    rewrite Eblk in Eb'. split_and!; cbn; try done.
    + apply Forall_app. split; [done |]. by apply Forall_singleton.
    + intros k. rewrite !fmap_app, !elem_of_app. intros [H%Hk | [= ->]%list_elem_of_singleton]; [by left |].
      right. by apply list_elem_of_singleton.
Qed.

(** ** Bus interfaces and inter-module signals *)

Lemma inter_signal_safe y : vres any (InterSignal.from_raw y).
Proof.
  unfold InterSignal.from_raw. eapply vres_bind; [apply check_keys_safe; by vm_compute |]. cbn beta. intros d Hd.
  eapply (vres_bind any); [apply required_safe; [apply Hd; set_solver | auto with reggen] | intros name _].
  eapply (vres_bind any); [auto with reggen | intros desc _].
  eapply (vres_bind any); [apply required_safe; [apply Hd; set_solver | auto with reggen] | intros st _].
  eapply (vres_bind any).
  { destruct (yopt "package" d) as [[| | | [] | | |] |]; try done; vstep; done. }
  intros pkg _.
  do 2 (eapply (vres_bind any); [apply required_safe; [apply Hd; set_solver | auto with reggen] | intros ? _]).
  eapply (vres_bind any); [auto with reggen | intros w _]. apply vres_if; [done | intros Hw%Z.leb_gt].
  eapply (vres_bind any); [auto with reggen | intros df _]. unfold InterSignal.init. by zbool.
Qed.

Record bus_wf (b : BusInterfaces) : Prop := {
  bi_hosts_nodup : NoDup (bi_named_hosts b);
  bi_devices_nodup : NoDup (bi_named_devices b);
}.

Lemma NoDup_snoc {A} (l : list A) x : NoDup l → x ∉ l → NoDup (l ++ [x]).
Proof.
  intros Hl Hx. apply NoDup_app. split_and!; [done | | apply NoDup_singleton].
  by intros y Hy ->%list_elem_of_singleton.
Qed.

Lemma bus_add_entry_safe b y : bus_wf b → vres bus_wf (BusInterfaces.add_entry b y).
Proof.
  intros [Hh Hd]. unfold BusInterfaces.add_entry.
  eapply vres_bind; [apply check_keys_safe; by vm_compute |]. cbn beta. intros d Hk.
  eapply (vres_bind any); [apply required_safe; [apply Hk; set_solver | auto with reggen] | intros p _].
  vstep; [done |].
  eapply (vres_bind any); [apply required_safe; [apply Hk; set_solver | auto with reggen] | intros dir _].
  vstep; [done |]. eapply (vres_bind any); [auto with reggen | intros name _].
  vstep; destruct name as [n |]; apply vres_if; intros Hn; try done; apply vres_Ok; split; cbn; try done.
  all: apply bool_decide_eq_false in Hn; by apply NoDup_snoc.
Qed.

Lemma bus_from_raw_safe y :
  vres (fun b => bus_wf b ∧ IpBlock.dev_if_names b ≠ []) (BusInterfaces.from_raw y).
Proof.
  unfold BusInterfaces.from_raw. eapply (vres_bind any); [auto with reggen | intros l _].
  eapply (vres_bind bus_wf).
  { apply (vres_foldM (fun _ => bus_wf)); [split; constructor |]. intros. by apply bus_add_entry_safe. }
  intros b [Hh Hd]. apply vres_if; [done |]. intros Hdev%negb_false_iff. unfold BusInterfaces.init.
  rewrite Hdev, !bool_decide_eq_true_2 by done. cbn. split; [done |].
  unfold IpBlock.dev_if_names. by destruct (bi_has_unnamed_device b), (bi_named_devices b).
Qed.

Lemma bus_signals_safe b : vres any (BusInterfaces.inter_signals b).
Proof. eapply vres_weaken; [by apply (vres_mapR any) | done]. Qed.

(** ** The whole description *)

Lemma regwidth_safe rd : vres (fun w => 0 < w) (IpBlock.read_regwidth rd).
Proof.
  unfold IpBlock.read_regwidth. destruct (yopt "regwidth" rd); [| done].
  eapply (vres_bind any); [auto with reggen | intros w _]. apply vres_if; [done | by intros ?%Z.leb_gt].
Qed.

Lemma num_alerts_safe alerts p : vres any (IpBlock.add_num_alerts alerts p).
Proof.
  unfold IpBlock.add_num_alerts. vstep; [done |]. destruct (dget "NumAlerts" p) as [[] |] eqn:E; try done.
  - by vstep.
  - unfold Params.add. cbn [BaseParam.name]. by rewrite E.
Qed.

(** A description that [from_raw] handles without an internal error: the register width is a
    power-of-two number of bytes, it is not the number of alerts, and the keys of the dictionary
    of register blocks are distinct, as in every dictionary. *)
Record ip_desc_ok (raw : yaml) : Prop := {
  id_width : ∀ rd w, raw = YDict rd → IpBlock.read_regwidth rd = Ok w → ∃ j, 0 ≤ j ∧ w = 8 * 2 ^ j;
  id_alerts : ∀ rd w l, raw = YDict rd → IpBlock.read_regwidth rd = Ok w →
    ydefault "alert_list" (YList []) rd = YList l → Z.of_nat (length l) ≠ w;
  id_blocks : ∀ rd d, raw = YDict rd → yget "registers" rd = Some (YDict d) → NoDup d.*1;
}.

Lemma check_keys_dict y req opt rd : RgLib.check_keys y req opt = Ok rd → y = YDict rd.
Proof.
  unfold RgLib.check_keys, RgLib.check_str_dict. destruct y as [| | | | | d |]; try done.
  destruct (forallb _ _); [| done]. cbn. destruct (py_assert _); cbn; [| done].
  repeat (destruct (filter _ _)); by intros [= ->].
Qed.

Lemma read_blocks_safe defaults rd :
  ip_desc_ok (YDict rd) → is_Some (yget "registers" rd) →
  vres (fun st => blocks_wf st.1.1.1.1.1.1.1 st.2) (IpBlock.read_blocks defaults rd).
Proof.
  intros [Hw Ha Hd] [regs Hregs]. unfold IpBlock.read_blocks.
  destruct (IpBlock.read_regwidth rd) as [w | e] eqn:Ew;
    [| pose proof (regwidth_safe rd) as H; rewrite Ew in H; exact H].
  rewrite res_bind_Ok. destruct (Hw rd w eq_refl Ew) as (j & Hj & Ej).
  eapply vres_bind; [apply params_from_raw_safe | intros p _].
  eapply vres_bind; [apply apply_defaults_safe | intros p' _].
  eapply vres_bind; [apply signal_list_safe | intros intrs Hi].
  eapply vres_bind; [apply alert_list_safe | intros alerts [Hbits (raws & Eraws & Hlen)]].
  do 2 (eapply (vres_bind any); [auto with reggen | intros ? _]).
  assert (Hb : block_wf (RegBlock.init w p') ∧ rb_reg_width (RegBlock.init w p') = w).
  { rewrite Ej. split; [by apply init_block_wf | done]. }
  destruct Hb as [Hb Eb]. generalize dependent (RegBlock.init w p'). intros b0 Hb Eb. subst w.
  rewrite <- Eb in *. eapply vres_bind; [by apply add_intr_regs_safe | intros b1 [Hb1 E1]].
  rewrite <- E1. eapply vres_bind; [apply add_alert_regs_safe; [done | | done] | intros b2 [Hb2 E2]].
  { rewrite E1, Hlen. by apply (Ha rd _ raws). }
  eapply vres_bind; [apply num_alerts_safe | intros p2 _].
  eapply (vres_bind any); [auto with reggen | intros scan _]. rewrite Hregs. cbn [of_option]. rewrite res_bind_Ok.
  eapply vres_bind; [apply (build_blocks_safe (IpBlock.set_params p2 b2)); [by apply set_params_wf |] |].
  - intros d ->. by apply (Hd rd).
  - intros bs Hbs. apply vres_Ok. cbn. by rewrite <- E2.
Qed.

Lemma same_names_nil k : k ≠ [] → IpBlock.same_names [] k = false.
Proof.
  intros Hk. unfold IpBlock.same_names. apply andb_false_iff. right. apply bool_decide_eq_false.
  intros H. destruct k as [| x k]; [done |]. by apply (elem_of_nil x), H; left.
Qed.

Definition ip_wf (ip : IpBlock) : Prop :=
  blocks_wf (ip_regwidth ip) (ip_reg_blocks ip) ∧ bus_wf (ip_bus_interfaces ip) ∧
  (∀ n, n ∈ (ip_reg_blocks ip).*1 ↔ n ∈ IpBlock.dev_if_names (ip_bus_interfaces ip)).

Lemma signals_any_safe y : vres any (Signal.from_raw_list y).
Proof. eapply vres_weaken; [apply signal_list_safe | done]. Qed.
#[export] Hint Resolve signals_any_safe bus_signals_safe : reggen.

Lemma ip_block_safe defaults raw : ip_desc_ok raw → vres ip_wf (IpBlock.from_raw defaults raw).
Proof.
  intros Hok. unfold IpBlock.from_raw.
  eapply (vres_bind (fun rd => raw = YDict rd ∧ ∀ k, k ∈ IpBlock.REQUIRED_FIELDS → is_Some (yget k rd))).
  { pose proof (check_keys_safe raw IpBlock.REQUIRED_FIELDS IpBlock.OPTIONAL_FIELDS) as Hs.
    specialize (Hs ltac:(by vm_compute)). destruct (RgLib.check_keys _ _ _) as [rd |] eqn:E; [| done].
    split; [by apply check_keys_dict in E | done]. }
  intros rd [-> Hk]. unfold IpBlock.REQUIRED_FIELDS in Hk.
  eapply (vres_bind any); [apply required_safe; [apply Hk; set_solver | auto with reggen] | intros name _].
  eapply vres_bind; [apply read_blocks_safe; [done | apply Hk; set_solver] |].
  intros [[[[[[[w p] intrs] nai] alerts] naa] scan] bs] Hbs. cbn in Hbs.
  eapply (vres_bind any); [auto with reggen | intros rs _].
  eapply (vres_bind any); [eapply vres_weaken; [by apply (vres_mapR any); intros; apply inter_signal_safe | done]
    | intros sigs _].
  eapply vres_bind; [apply required_safe; [apply Hk; set_solver | apply bus_from_raw_safe] | intros bus [Hbus Hdev]].
  do 2 (eapply (vres_bind any); [auto with reggen | intros ? _]).
  eapply (vres_bind any); [apply required_safe; [apply Hk; set_solver | auto with reggen] | intros clk _].
  do 10 (eapply (vres_bind any); [auto with reggen | intros ? _]).
  apply vres_if; [done | intros Hn%negb_false_iff]. unfold IpBlock.init. cbn.
  destruct bs as [| b bs]; [by rewrite same_names_nil in Hn |]. rewrite Hn. cbn. split_and!; [done | done |].
  apply andb_true_iff in Hn as [H1%bool_decide_eq_true H2%bool_decide_eq_true].
  intros n. split; [apply H1 | apply H2].
Qed.
