(* ===== verification/RgOtbn.v ===== *)
(** The register block of OTBN (otbn/util/shared: otbn_reggen.py, mem_layout.py): reading
    otbn.hjson with reggen, the layout of the memories, and the registers as the constructors of
    the simulator see them; and data/otbn.hjson as the hjson loader returns it. *)

From S2P Require Import Prelude BitLoops PyStr PyList Yaml OtbnIsa Vmem RgLib RgField.
From S2P Require Import RgRegister RgBlock RgIp.
From S2P Require ExtRegs.

(** [obj.reg_blocks[name]] *)
Definition find_block (name : option string) (l : list (option string * RegBlock)) : res RegBlock :=
  match filter (fun kb => kb.1 = name) l with (_, b) :: _ => Ok b | [] => Err KeyError end.

(** The description [raw] is what the hjson loader returns for otbn.hjson. *)
Definition load_registers (raw : yaml) : res (Z * RegBlock) :=
  obj ← match IpBlock.from_raw [] raw with Err ValueError => Err RuntimeError | r => r end;
  let reg_bit_width := ip_regwidth obj in
  py_assert (0 <=? reg_bit_width);;
  let reg_byte_width := (reg_bit_width + 7) / 8 in
  registers ← find_block None (ip_reg_blocks obj);
  Ok (reg_byte_width, registers).

Definition window_key (w : Window) : string :=
  if String.eqb (w_name w) "" then "Window at +0x" +:+ hex (w_offset w) else w_name w.

Definition extract_windows (regs : RegBlock) : res (dict (Z * Z)) :=
  foldM (fun windows entry =>
    let name := window_key entry in
    py_assert (negb (bool_decide (is_Some (dget name windows))));;
    Ok (dset name (w_offset entry, w_size_in_bytes entry) windows)) [] (rb_windows regs).

Definition get_memory_layout (raw : yaml) : res (dict (Z * Z)) :=
  '(_, registers) ← load_registers raw;
  windows ← extract_windows registers;
  if negb (forallb (fun name => bool_decide (is_Some (dget name windows))) ["IMEM"; "DMEM"]) then Err RuntimeError
  else if negb (length windows =? 2)%nat then Err RuntimeError
  else Ok windows.

(** What the simulator reads of a field and of the registers. *)
Definition sim_field (f : Field) : ExtRegs.Field :=
  ExtRegs.mkField (f_name f) (Bits.width (f_bits f)) (b_lsb (f_bits f)) (f_resval f) (sw_key (f_swaccess f)).
Definition sim_regs (b : RegBlock) : list (string * list ExtRegs.Field) :=
  (fun r => (r_name r, sim_field <$> r_fields r)) <$> rb_flat_regs b.

(** ** data/otbn.hjson *)

#[local] Open Scope string_scope.

Definition otbn_hjson : yaml :=
  ydict [
    ("name", YStr "otbn");
    ("clock_primary", YStr "clk_i");
    ("other_clock_list", YList [
      YStr "clk_edn_i"]);
    ("reset_primary", YStr "rst_ni");
    ("other_reset_list", YList [
      YStr "rst_edn_ni"]);
    ("bus_interfaces", YList [
      ydict [
        ("protocol", YStr "tlul");
        ("direction", YStr "device")]]);
    ("param_list", YList [
      ydict [
        ("name", YStr "Stub");
        ("type", YStr "bit");
        ("default", YStr "0");
        ("desc", YStr "Stub out the core of Otbn logic");
        ("local", YStr "false");
        ("expose", YStr "true")];
      ydict [
        ("name", YStr "RegFile");
        ("type", YStr "otbn_pkg::regfile_e");
        ("default", YStr "otbn_pkg::RegFileFF");
        ("desc", YStr "Selection of the register file implementation. See otbn_pkg.sv.");
        ("local", YStr "false");
        ("expose", YStr "true")];
      ydict [
        ("name", YStr "RndCnstUrndLfsrSeed");
        ("type", YStr "otbn_pkg::urnd_lfsr_seed_t");
        ("desc", YStr "Default seed of the PRNG used for URND.");
        ("randcount", YStr "256");
        ("randtype", YStr "data")];
      ydict [
        ("name", YStr "RndCnstUrndChunkLfsrPerm");
        ("type", YStr "otbn_pkg::urnd_chunk_lfsr_perm_t");
        ("desc", YStr "Permutation applied to the LFSR chunks of the PRNG used for URND.");
        ("randcount", YStr "64");
        ("randtype", YStr "perm")]]);
    ("interrupt_list", YList [
      ydict [
        ("name", YStr "done");
        ("desc", YStr "OTBN has completed the operation")]]);
    ("alert_list", YList [
      ydict [
        ("name", YStr "fatal");
        ("desc", YStr "A fatal error. Fatal alerts are non-recoverable and will be asserted until a hard reset.")];
      ydict [
        ("name", YStr "recov");
        ("desc", YStr "A recoverable error. Just sent once (as the processor stops).")]]);
    ("inter_signal_list", YList [
      ydict [
        ("struct", YStr "edn");
        ("type", YStr "req_rsp");
        ("name", YStr "edn_rnd");
        ("act", YStr "req");
        ("package", YStr "edn_pkg")];
      ydict [
        ("struct", YStr "edn");
        ("type", YStr "req_rsp");
        ("name", YStr "edn_urnd");
        ("act", YStr "req");
        ("package", YStr "edn_pkg")];
      ydict [
        ("name", YStr "idle");
        ("type", YStr "uni");
        ("struct", YStr "logic");
        ("width", YStr "1");
        ("act", YStr "req")];
      ydict [
        ("struct", YStr "ram_1p_cfg");
        ("package", YStr "prim_ram_1p_pkg");
        ("type", YStr "uni");
        ("name", YStr "ram_cfg");
        ("act", YStr "rcv")]]);
    ("regwidth", YStr "32");
    ("registers", YList [
      ydict [
        ("name", YStr "CMD");
        ("desc", YStr "command register");
        ("swaccess", YStr "r0w1c");
        ("hwaccess", YStr "hro");
        ("hwext", YStr "true");
        ("hwqe", YStr "true");
        ("fields", YList [
          ydict [
            ("bits", YStr "0");
            ("name", YStr "start");
            ("desc", YStr "Start the operation

The completion is signalled by the done interrupt.");
            ("tags", YList [
              YStr "excl:CsrAllTests:CsrExclWrite"])]])];
      ydict [
        ("name", YStr "STATUS");
        ("desc", YStr "Status");
        ("swaccess", YStr "ro");
        ("hwaccess", YStr "hwo");
        ("hwext", YStr "true");
        ("fields", YList [
          ydict [
            ("bits", YStr "0");
            ("name", YStr "busy");
            ("desc", YStr "OTBN is performing an operation.")]])];
      ydict [
        ("name", YStr "ERR_BITS");
        ("desc", YStr "Error bitfield. Reads as non-zero if an error was seen during OTBN
operation");
        ("swaccess", YStr "ro");
        ("hwaccess", YStr "hwo");
        ("fields", YList [
          ydict [
            ("bits", YStr "0");
            ("name", YStr "bad_data_addr");
            ("desc", YStr "A DMEM read or write occurred with an out of bounds or unaligned
address.")];
          ydict [
            ("bits", YStr "1");
            ("name", YStr "bad_insn_addr");
            ("desc", YStr "An IMEM read occurred with an out of bounds or unaligned address.")];
          ydict [
            ("bits", YStr "2");
            ("name", YStr "call_stack");
            ("desc", YStr "A instruction tried to pop from an empty call stack or push to a
full call stack.")];
          ydict [
            ("bits", YStr "3");
            ("name", YStr "illegal_insn");
            ("desc", YStr "One of the following happened:
<ul>
<li>An instruction being excuted had an invalid encoding.</li>
<li>An access occurred for an invalid CSR or WSR.</li>
<li>
A CSR or WSR access occurred that is not permitted (e.g. writing
to a read-only CSR or WSR).
</li>
</ul>")];
          ydict [
            ("bits", YStr "4");
            ("name", YStr "loop");
            ("desc", YStr "One of the following happened:
<ul>
<li>A loop was started with an iteration count of zero.</li>
<li>
The final instruction of a loop was a branch or another loop.
</li>
<li>
A new loop tried to push to a full loop stack (loop nesting
level too deep).
</li>
</ul>")];
          ydict [
            ("bits", YStr "5");
            ("name", YStr "fatal_imem");
            ("desc", YStr "A fatal failure was seen on an instruction fetch.")];
          ydict [
            ("bits", YStr "6");
            ("name", YStr "fatal_dmem");
            ("desc", YStr "A fatal failure was seen on a DMEM read.")];
          ydict [
            ("bits", YStr "7");
            ("name", YStr "fatal_reg");
            ("desc", YStr "A fatal failure was seen on a GPR or WDR read.")]])];
      ydict [
        ("name", YStr "START_ADDR");
        ("desc", YStr "Start byte address in the instruction memory");
        ("swaccess", YStr "wo");
        ("hwaccess", YStr "hro");
        ("fields", YList [
          ydict [
            ("bits", YStr "31:0");
            ("name", YStr "start_addr");
            ("resval", YInt 0);
            ("desc", YStr "Byte address in the instruction memory OTBN starts to execute from
when instructed to do so with the !!CMD.start .")]])];
      ydict [
        ("name", YStr "FATAL_ALERT_CAUSE");
        ("desc", YStr "The cause of a fatal alert.

The bits of this register correspond to errors that can cause a fatal
alert. Software can read these bits to see what went wrong. Once set,
these bits cannot be cleared.");
        ("swaccess", YStr "ro");
        ("hwaccess", YStr "hwo");
        ("fields", YList [
          ydict [
            ("bits", YStr "0");
            ("name", YStr "bus_integrity_error");
            ("resval", YInt 0);
            ("desc", YStr "Set by a failed integrity check on a bus access.
Note that this can happen even when OTBN is not running.")];
          ydict [
            ("bits", YStr "1");
            ("name", YStr "imem_error");
            ("resval", YInt 0);
            ("desc", YStr "Set on any ECC error in IMEM")];
          ydict [
            ("bits", YStr "2");
            ("name", YStr "dmem_error");
            ("resval", YInt 0);
            ("desc", YStr "Set on any ECC error in DMEM")];
          ydict [
            ("bits", YStr "3");
            ("name", YStr "reg_error");
            ("resval", YInt 0);
            ("desc", YStr "Set on any ECC error in a register file")]])];
      ydict [
        ("name", YStr "INSN_CNT");
        ("desc", YStr "Instruction Counter");
        ("swaccess", YStr "ro");
        ("hwaccess", YStr "hwo");
        ("fields", YList [
          ydict [
            ("bits", YStr "31:0");
            ("name", YStr "insn_cnt");
            ("desc", YStr "The number of instructions executed in the current or last OTBN run. 
Saturates at 2^32-1. The counter is reset to zero when a new operation
is started. Instructions triggering an error do not count as being executed.")]])];
      ydict [
        ("skipto", YStr "0x4000")];
      ydict [
        ("window", ydict [
          ("name", YStr "IMEM");
          ("items", YStr "1024");
          ("swaccess", YStr "rw");
          ("data-intg-passthru", YStr "true");
          ("byte-write", YStr "false");
          ("desc", YStr "Instruction Memory.

This register should only be accesed while OTBN is not busy, as indicated by the !!STATUS.busy flag.
Accesses while OTBN is busy are blocking.

TODO: The exact behavior is yet to be determined, see https://github.com/lowRISC/opentitan/issues/2696 for details.")])];
      ydict [
        ("skipto", YStr "0x8000")];
      ydict [
        ("window", ydict [
          ("name", YStr "DMEM");
          ("items", YStr "1024");
          ("swaccess", YStr "rw");
          ("data-intg-passthru", YStr "true");
          ("byte-write", YStr "false");
          ("desc", YStr "Data Memory.

This register should only be accesed while OTBN is not busy, as indicated by the !!STATUS.busy flag.
Accesses while OTBN is busy are blocking.

TODO: The exact behavior is yet to be determined, see https://github.com/lowRISC/opentitan/issues/2696 for details.")])]])].
