(* ===== verification/OtbnElf.v ===== *)
(** Loading an ELF file into the OTBN simulator (otbnsim/sim/elf.py).  The reader of ELF files is
    pyelftools: its list of segments is an argument, each with the fields that the loader uses. *)

From S2P Require Import Prelude BitLoops PyList Yaml RomMem Insn Sim Decode RgOtbn.

(** A block of memory: its load address and length. *)
Notation MemDesc := (Z * Z)%type (only parsing).

(** One segment of the walk in increasing order of addresses: the bytes so far and the address
    after them. *)
Definition flatten_step (st : list Z * Z) (seg : Z * list Z) : res (list Z * Z) :=
  let '(chunks, lma) := st in
  let '(seg_lma, seg_data) := seg in
  py_assert (lma <=? seg_lma);;
  let '(chunks, lma) :=
    if lma <? seg_lma then (chunks ++ replicate (Z.to_nat (seg_lma - lma)) 0, seg_lma) else (chunks, lma) in
  Ok (chunks ++ seg_data, lma + Z.of_nat (length seg_data)).

Definition _flatten_segments (segments : list (Z * list Z)) (mem_desc : MemDesc) : res (list Z) :=
  let '(block_lma, block_len) := mem_desc in
  py_assert (0 <=? block_len);;
  '(chunks, lma) ← foldM flatten_step ([], block_lma) (sort_by fst segments);
  py_assert (block_lma <=? lma);;
  let block_top := block_lma + block_len in
  py_assert (lma <=? block_top);;
  Ok chunks.

(** One segment of the file: it goes to IMEM or DMEM. *)
Definition add_segment (imem_desc dmem_desc : MemDesc) (st : list (Z * list Z) * list (Z * list Z))
    (segment : MemFile.segment) : res (list (Z * list Z) * list (Z * list Z)) :=
  let '(imem_segments, dmem_segments) := st in
  let '(imem_lma, imem_len) := imem_desc in
  let '(dmem_lma, dmem_len) := dmem_desc in
  let imem_top := imem_lma + imem_len in
  let dmem_top := dmem_lma + dmem_len in
  if negb (String.eqb (MemFile.seg_type segment) "PT_LOAD") then Ok st
  else
    let seg_lma := MemFile.seg_paddr segment in
    let seg_top := seg_lma + MemFile.seg_memsz segment in
    if (imem_lma <=? seg_lma) && (seg_lma <=? imem_top) then
      if imem_top <? seg_top then Err RuntimeError
      else Ok (imem_segments ++ [(seg_lma, MemFile.seg_data segment)], dmem_segments)
    else if (dmem_lma <=? seg_lma) && (seg_lma <=? dmem_top) then
      if dmem_top <? seg_top then Err RuntimeError
      else Ok (imem_segments, dmem_segments ++ [(seg_lma, MemFile.seg_data segment)])
    else Err RuntimeError.

Definition _get_elf_segments (file : list MemFile.segment) (imem_desc dmem_desc : MemDesc) :
    res (list (Z * list Z) * list (Z * list Z)) :=
  py_assert (imem_desc.1 <=? imem_desc.1 + imem_desc.2);;
  py_assert (dmem_desc.1 <=? dmem_desc.1 + dmem_desc.2);;
  foldM (add_segment imem_desc dmem_desc) ([], []) file.

(** [raw] is the description in otbn.hjson, [classes] the instructions the decoder knows. *)
Definition load_elf (raw : yaml) (classes : list loaded_class) (file : list MemFile.segment) :
    M OTBNSim () := fun sim =>
  mems ← get_memory_layout raw;
  imem_desc ← of_option KeyError (dget "IMEM" mems);
  dmem_desc ← of_option KeyError (dget "DMEM" mems);
  '(imem_segs, dmem_segs) ← _get_elf_segments file imem_desc dmem_desc;
  imem_bytes ← _flatten_segments imem_segs imem_desc;
  dmem_bytes ← _flatten_segments dmem_segs dmem_desc;
  py_assert (Z.of_nat (length imem_bytes) <=? imem_desc.2);;
  if truthy (Z.of_nat (length imem_bytes) .& 3) then Err RuntimeError
  else
    imem_insns ← Decode.decode_bytes classes 0 imem_bytes;
    (OTBNSim.load_program imem_insns;; OTBNSim.load_data dmem_bytes) sim.

(** The simulator as its constructors make it from otbn.hjson. *)
Definition new_sim (raw : yaml) : res OTBNSim :=
  mems ← get_memory_layout raw;
  '(_, imem_size) ← of_option KeyError (dget "IMEM" mems);
  '(_, dmem_size) ← of_option KeyError (dget "DMEM" mems);
  '(_, reg_block) ← load_registers raw;
  OTBNSim.init imem_size dmem_size (sim_regs reg_block).
