(* ===== verification/OtbnElfProps.v ===== *)
(** Loading an ELF file puts every byte of every segment at its address, and a simulator that has
    loaded a program runs it safely. *)

From stdpp Require Import sorting.
From S2P Require Import Prelude BitLoops PyList Yaml RomMem Reg Gpr Dmem ExtRegs State Isa StateWf Insn.
From S2P Require Import InsnSafe StateStep Sim SimProps Decode DecodeProps RgOtbn OtbnElf.

(** ** Flattening *)

Definition seg_top (p : Z * list Z) : Z := p.1 + Z.of_nat (length p.2).

(** The segments start at different addresses and do not overlap. *)
Definition apart (segs : list (Z * list Z)) : Prop :=
  NoDup segs.*1 ∧ ∀ p q, p ∈ segs → q ∈ segs → p.1 < q.1 → seg_top p ≤ q.1.

(** The bytes from [base] hold the segments, and zeros elsewhere. *)
Record image (segs : list (Z * list Z)) (base : Z) (bytes : list Z) : Prop := {
  im_bytes p i b : p ∈ segs → p.2 !! i = Some b → bytes !! Z.to_nat (p.1 - base + Z.of_nat i) = Some b;
  im_zero k b : bytes !! k = Some b →
    b = 0 ∨ ∃ p i, p ∈ segs ∧ p.2 !! i = Some b ∧ base + Z.of_nat k = p.1 + Z.of_nat i;
}.

(** Adding a segment in front, after a gap. *)
Lemma image_cons p segs base bytes :
  base ≤ p.1 → Forall (fun q => seg_top p ≤ q.1) segs → image segs (seg_top p) bytes →
  image (p :: segs) base (replicate (Z.to_nat (p.1 - base)) 0 ++ p.2 ++ bytes).
Proof.
  intros Hb Hall [Hs Hz]. unfold seg_top in *. split.
  - intros q i b [-> | Hq]%elem_of_cons Hi; rewrite lookup_app_r; rewrite length_replicate; try lia.
    + rewrite lookup_app_l; [| apply lookup_lt_Some in Hi; lia]. rewrite <- Hi. f_equal. lia.
    + rewrite Forall_forall in Hall. specialize (Hall q Hq). rewrite lookup_app_r by lia.
      rewrite <- (Hs q i b Hq Hi). f_equal. lia.
    + rewrite Forall_forall in Hall. specialize (Hall q Hq). lia.
  - intros k b Hk. apply lookup_app_Some in Hk as [Hk | [Hk1 Hk]].
    + apply lookup_replicate in Hk as [-> _]. by left.
    + rewrite length_replicate in Hk1, Hk. apply lookup_app_Some in Hk as [Hk | [Hk2 Hk]].
      * right. eexists p, _. split_and!; [by left | exact Hk | lia].
      * destruct (Hz _ _ Hk) as [-> | (q & i & Hq & Hi & E)]; [by left |].
        right. exists q, i. split_and!; [by right | done | lia].
Qed.

Lemma flatten_steps segs chunks cur :
  StronglySorted (fun p q : Z * list Z => p.1 ≤ q.1) segs → apart segs → Forall (fun p => cur ≤ p.1) segs →
  ∃ bytes top, foldM flatten_step (chunks, cur) segs = Ok (chunks ++ bytes, top) ∧
    Z.of_nat (length bytes) = top - cur ∧ image segs cur bytes ∧
    (∀ t, cur ≤ t → Forall (fun p => seg_top p ≤ t) segs → top ≤ t).
Proof.
  revert chunks cur. induction segs as [| p segs IH]; intros chunks cur Hs [Hnd Hap] Hc.
  { exists [], cur. rewrite app_nil_r. split_and!; [done | cbn; lia | | done].
    by split; [intros ? ? ? ?%elem_of_nil | intros ? ?]. }
  apply StronglySorted_inv in Hs as [Hs Hp]. apply Forall_cons in Hc as [Hcp Hc].
  apply NoDup_cons in Hnd as [Hni Hnd].
  assert (Hall : Forall (fun q => seg_top p ≤ q.1) segs).
  { apply Forall_forall. intros q Hq. rewrite Forall_forall in Hp. specialize (Hp q Hq).
    apply Hap; [by left | by right |]. assert (p.1 ≠ q.1); [| lia].
    intros E. apply Hni. rewrite E. by apply list_elem_of_fmap_2. }
  assert (Hap' : apart segs) by (split; [done |]; intros ? ? ? ?; apply Hap; by right).
  cbn [foldM].
  assert (E : flatten_step (chunks, cur) p =
    Ok ((chunks ++ replicate (Z.to_nat (p.1 - cur)) 0) ++ p.2, seg_top p)).
  { unfold flatten_step. destruct p as [s d]. cbn in *. zbool. cbn [py_assert]. rewrite res_bind_Ok.
    destruct (Z.ltb_spec cur s); [done |]. replace s with cur by lia.
    rewrite Z.sub_diag. cbn [replicate Z.to_nat]. by rewrite app_nil_r. }
  rewrite E, res_bind_Ok. destruct (IH ((chunks ++ replicate (Z.to_nat (p.1 - cur)) 0) ++ p.2) (seg_top p) Hs Hap' Hall)
    as (bytes & top & -> & Hlen & Him & Htop).
  eexists _, top. rewrite <- !app_assoc. split_and!; [done | | by apply image_cons |].
  - rewrite !length_app, length_replicate. unfold seg_top in *. lia.
  - intros t Ht [Hpt Hts]%Forall_cons. by apply Htop.
Qed.

Lemma apart_perm segs segs' : segs ≡ₚ segs' → apart segs → apart segs'.
Proof.
  intros Hp [Hnd Ha]. split; [by rewrite <- Hp |]. intros p q Hip Hiq. apply Ha; by rewrite Hp.
Qed.

(** Segments that are apart and inside the block are placed at their addresses. *)
Lemma flatten_segments_ok segs lma len :
  0 ≤ len → apart segs → Forall (fun p => lma ≤ p.1 ∧ seg_top p ≤ lma + len) segs →
  ∃ bytes, _flatten_segments segs (lma, len) = Ok bytes ∧ Z.of_nat (length bytes) ≤ len ∧
    image segs lma bytes.
Proof.
  intros Hl Ha Hin. pose proof (sort_by_perm fst segs) as Hp.
  assert (Hin' : Forall (fun p => lma ≤ p.1 ∧ seg_top p ≤ lma + len) (sort_by fst segs)) by (by rewrite Hp).
  destruct (flatten_steps (sort_by fst segs) [] lma) as (bytes & top & E & Hlen & Him & Htop).
  - apply sort_by_sorted.
  - by apply (apart_perm segs).
  - eapply Forall_impl; [exact Hin' |]. by intros ? [? _].
  - assert (top ≤ lma + len).
    { apply Htop; [lia |]. eapply Forall_impl; [exact Hin' |]. by intros ? [_ ?]. }
    exists bytes. unfold _flatten_segments. zbool. cbn [py_assert]. rewrite res_bind_Ok, E, res_bind_Ok. zbool.
    cbn [py_assert]. rewrite !res_bind_Ok. split_and!; [done | lia |].
    destruct Him as [Hs Hz]. split.
    + intros p i b Hip. apply Hs. by rewrite Hp.
    + intros k b Hk. destruct (Hz k b Hk) as [? | (p & i & Hip & ?)]; [by left |].
      right. exists p, i. split; [by rewrite <- Hp | done].
Qed.

(** ** Segments of the file *)

Definition is_load (s : MemFile.segment) : bool := String.eqb (MemFile.seg_type s) "PT_LOAD".

(** The segment starts in the block, or at its end; it lies in the block. *)
Definition starts_in (d : MemDesc) (s : MemFile.segment) : bool :=
  (d.1 <=? MemFile.seg_paddr s) && (MemFile.seg_paddr s <=? d.1 + d.2).
Definition fits_in (d : MemDesc) (s : MemFile.segment) : Prop :=
  d.1 ≤ MemFile.seg_paddr s ∧ MemFile.seg_paddr s + MemFile.seg_memsz s ≤ d.1 + d.2.

(** The loadable segments of a block, as addresses with data. *)
Definition select (d : MemDesc) (file : list MemFile.segment) : list (Z * list Z) :=
  (fun s => (MemFile.seg_paddr s, MemFile.seg_data s)) <$>
    filter (fun s => is_load s && starts_in d s = true) file.

(** A file whose loadable segments are in one of the two memories and do not overlap there. *)
Record file_ok (imem dmem : MemDesc) (file : list MemFile.segment) : Prop := {
  fo_fits s : s ∈ file → is_load s = true → fits_in imem s ∨ fits_in dmem s;
  fo_size s : s ∈ file → is_load s = true → Z.of_nat (length (MemFile.seg_data s)) ≤ MemFile.seg_memsz s;
  fo_bytes s : s ∈ file → is_load s = true → Forall (in_bits 8) (MemFile.seg_data s);
  fo_imem : apart (select imem file);
  fo_dmem : apart (select dmem file);
}.

(** The two memories, one above the other. *)
Definition blocks_ok (imem dmem : MemDesc) : Prop :=
  0 ≤ imem.2 ∧ 0 ≤ dmem.2 ∧ imem.1 + imem.2 < dmem.1.

Section elf.
Context (imem dmem : MemDesc) (file : list MemFile.segment).
Context (Hblocks : blocks_ok imem dmem) (Hfile : file_ok imem dmem file).

Lemma memsz_nonneg s : s ∈ file → is_load s = true → 0 ≤ MemFile.seg_memsz s.
Proof. intros Hs Hl. pose proof (fo_size _ _ _ Hfile s Hs Hl). lia. Qed.

Lemma add_segment_ok s st :
  s ∈ file → add_segment imem dmem st s = Ok (st.1 ++ select imem [s], st.2 ++ select dmem [s]).
Proof.
  intros Hs. destruct st as [l1 l2], Hblocks as (? & ? & Hgap).
  unfold add_segment, select. rewrite !filter_cons, !filter_nil. fold (is_load s).
  pose proof (fo_fits _ _ _ Hfile s Hs) as Hfits. pose proof (memsz_nonneg s Hs) as Hsz. unfold fits_in in Hfits.
  destruct imem as [il im], dmem as [dl dm]. cbn in Hfits, Hgap |- *.
  destruct (is_load s); cbn [negb andb]; [| by rewrite !decide_False, !app_nil_r by done].
  specialize (Hsz eq_refl). unfold starts_in. cbn.
  destruct (Hfits eq_refl) as [[? ?] | [? ?]]; zbool; cbn [andb].
  - rewrite decide_True, decide_False by done. cbn. by rewrite app_nil_r.
  - rewrite andb_false_r. rewrite decide_False, decide_True by done. cbn. by rewrite app_nil_r.
Qed.

Lemma get_elf_segments_ok : _get_elf_segments file imem dmem = Ok (select imem file, select dmem file).
Proof.
  destruct Hblocks as (? & ? & _). unfold _get_elf_segments. zbool. cbn [py_assert]. rewrite !res_bind_Ok.
  enough (Hl : ∀ l st, l ⊆ file →
    foldM (add_segment imem dmem) st l = Ok (st.1 ++ select imem l, st.2 ++ select dmem l)) by (by apply (Hl file)).
  induction l as [| s l IH]; intros st Hl; cbn [foldM].
  - unfold select. rewrite filter_nil. cbn. rewrite !app_nil_r. by destruct st.
  - rewrite add_segment_ok, res_bind_Ok by (apply Hl; by left).
    rewrite IH by (intros x Hx; apply Hl; by right). cbn [fst snd]. unfold select.
    rewrite <- !app_assoc, <- !fmap_app, <- !filter_app. done.
Qed.

Lemma select_elem d p :
  p ∈ select d file → ∃ s, s ∈ file ∧ is_load s = true ∧ starts_in d s = true ∧
    p = (MemFile.seg_paddr s, MemFile.seg_data s).
Proof.
  intros (s & -> & [[Hl Hs]%andb_true_iff Hin]%list_elem_of_filter)%list_elem_of_fmap. by exists s.
Qed.

Lemma select_inside d :
  d = imem ∨ d = dmem → Forall (fun p => d.1 ≤ p.1 ∧ seg_top p ≤ d.1 + d.2) (select d file).
Proof.
  intros Hd. apply Forall_forall. intros p (s & Hs & Hl & Hst & ->)%select_elem. unfold seg_top. cbn.
  apply andb_true_iff in Hst as [H1%Z.leb_le H2%Z.leb_le]. split; [done |].
  pose proof (fo_size _ _ _ Hfile s Hs Hl). destruct Hblocks as (? & ? & ?).
  destruct Hd as [-> | ->], (fo_fits _ _ _ Hfile s Hs Hl) as [[? ?] | [? ?]]; lia.
Qed.

Lemma select_bytes d base bytes :
  image (select d file) base bytes → Forall (in_bits 8) bytes.
Proof.
  intros [_ Hz]. apply Forall_lookup_2. intros k b Hk.
  destruct (Hz k b Hk) as [-> | (p & i & (s & Hs & Hl & _ & ->)%select_elem & Hi & _)]; [by apply in_bits_0 |].
  by eapply Forall_lookup_1; [apply (fo_bytes _ _ _ Hfile s Hs Hl) |].
Qed.
End elf.

(** ** The OTBN block *)

Definition otbn_imem : MemDesc := (16384, 4096).
Definition otbn_dmem : MemDesc := (32768, 4096).

Lemma otbn_layout :
  ∃ mems, get_memory_layout otbn_hjson = Ok mems ∧ dget "IMEM" mems = Some otbn_imem ∧
    dget "DMEM" mems = Some otbn_dmem.
Proof. eexists. split; [vm_compute; reflexivity |]. done. Qed.

Lemma otbn_registers : ∃ b, load_registers otbn_hjson = Ok (4, b) ∧ sim_regs b = otbn_regs.
Proof.
  assert (H : match load_registers otbn_hjson with Ok (w, b) => Some (w, sim_regs b) | Err _ => None end
              = Some (4, otbn_regs)) by (by vm_compute).
  destruct (load_registers otbn_hjson) as [[w b] | e]; [| done]. injection H as -> E. by exists b.
Qed.

(** The constructors make the simulator that the theorems on runs start from. *)
Lemma new_sim_ok : new_sim otbn_hjson = Ok (mkSim otbn_state [] None).
Proof.
  destruct otbn_registers as (b & E & Er), otbn_layout as (mems & Em & Ei & Ed).
  unfold new_sim. rewrite Em, res_bind_Ok, Ei, Ed. cbn [of_option].
  unfold otbn_imem, otbn_dmem. rewrite E. do 3 (rewrite res_bind_Ok; cbv beta iota). rewrite Er.
  destruct (StateStep.init_ok otbn_imem_size otbn_dmem_size otbn_regs otbn_config) as (s & Es & _).
  assert (otbn_state = s) as -> by (unfold otbn_state; rewrite Es; reflexivity).
  unfold OTBNSim.init, otbn_imem_size, otbn_dmem_size in *. rewrite Es, res_bind_Ok. reflexivity.
Qed.

(** ** Loading *)

Lemma words_le_length k data : length data = (4 * k)%nat → length (Decode.words_le data) = k.
Proof.
  revert data. induction k as [| k IH]; intros data H; [by destruct data |].
  destruct data as [| a [| b [| c [| d data]]]]; cbn in H; try lia. cbn [Decode.words_le length].
  rewrite IH; [done | lia].
Qed.

Lemma land3 n : truthy (n .& 3) = negb (n `mod` 4 =? 0).
Proof. change 3 with (Z.ones 2). by rewrite Z.land_ones by lia. Qed.

(** Decoding a block of words gives one instruction for each. *)
Lemma decode_bytes_ok classes data :
  Z.of_nat (length data) `mod` 4 = 0 →
  (∀ pc word, ∃ i, Decode._decode_word classes pc word = Ok i) →
  ∃ insns, Decode.decode_bytes classes 0 data = Ok insns ∧
    Forall2 (fun x i => Decode._decode_word classes (4 * Z.of_nat x.1) x.2 = Ok i)
      (imap pair (Decode.words_le data)) insns.
Proof.
  intros Hm Hdec. unfold Decode.decode_bytes. change 3 with (Z.ones 2). rewrite Z.land_ones by lia.
  change (2 ^ 2) with 4. rewrite Hm. cbn [Z.eqb py_assert]. rewrite res_bind_Ok.
  generalize (imap pair (Decode.words_le data)) as l. induction l as [| [k w] l (insns & E & Hl)].
  - exists []. split; [done | constructor].
  - destruct (Hdec (4 * Z.of_nat k) w) as (i & Ei). exists (i :: insns). cbn [mapR].
    rewrite Z.add_0_l, Ei, res_bind_Ok, E, res_bind_Ok. split; [done | by constructor].
Qed.

Section load.
Context (classes : list loaded_class).
Context (Hdec : ∀ pc word, ∃ i, Decode._decode_word classes pc word = Ok i).

(** What a file that fits leaves in the simulator. *)
Record elf_loaded (file : list MemFile.segment) (sim : OTBNSim) (imem dmem : list Z) (insns : list insn)
    (d' : Dmem) : Prop := {
  el_imem : image (select otbn_imem file) otbn_imem.1 imem;
  el_dmem : image (select otbn_dmem file) otbn_dmem.1 dmem;
  el_insns : Forall2 (fun x i => Decode._decode_word classes (4 * Z.of_nat x.1) x.2 = Ok i)
               (imap pair (Decode.words_le imem)) insns;
  el_dump : ∃ old, Dmem.dump_le_words (s_dmem (sim_state sim)) = Ok old ∧
              Dmem.dump_le_words d' = Ok (Dmem.pad dmem ++ drop (length (Dmem.pad dmem)) old);
  el_frame : ∃ l, d' = Dmem.set_data l (s_dmem (sim_state sim)) ∧ length l = length (dm_data (s_dmem (sim_state sim)));
  el_wf : Dmem.wf d';
}.

Lemma load_elf_eq file sim :
  file_ok otbn_imem otbn_dmem file → Dmem.wf (s_dmem (sim_state sim)) →
  Dmem.len (s_dmem (sim_state sim)) = 128 →
  ∃ imem dmem, Z.of_nat (length imem) ≤ 4096 ∧ Z.of_nat (length dmem) ≤ 4096 ∧
    (Z.of_nat (length imem) `mod` 4 = 0 → ∃ insns d',
       elf_loaded file sim imem dmem insns d' ∧
       load_elf otbn_hjson classes file sim =
         Ok ((), mkSim (OTBNState.set_dmem d' (sim_state sim)) insns (sim_stats sim))) ∧
    (Z.of_nat (length imem) `mod` 4 ≠ 0 →
       image (select otbn_imem file) otbn_imem.1 imem ∧ load_elf otbn_hjson classes file sim = Err RuntimeError).
Proof.
  intros Hf Hwf Hlen. assert (Hb : blocks_ok otbn_imem otbn_dmem) by done.
  destruct (flatten_segments_ok (select otbn_imem file) 16384 4096) as (imem & Ei & Hi & Him);
    [done | apply Hf | exact (select_inside otbn_imem otbn_dmem file Hb Hf otbn_imem (or_introl eq_refl)) |].
  destruct (flatten_segments_ok (select otbn_dmem file) 32768 4096) as (dmem & Ed & Hd & Hdm);
    [done | apply Hf | exact (select_inside otbn_imem otbn_dmem file Hb Hf otbn_dmem (or_intror eq_refl)) |].
  assert (Hby : Forall (in_bits 8) dmem) by (by eapply (select_bytes otbn_imem otbn_dmem file Hf)).
  exists imem, dmem. do 2 (split; [done |]).
  assert (E : load_elf otbn_hjson classes file sim =
    if negb (Z.of_nat (length imem) `mod` 4 =? 0) then Err RuntimeError
    else insns ← Decode.decode_bytes classes 0 imem; (OTBNSim.load_program insns;; OTBNSim.load_data dmem) sim).
  { destruct otbn_layout as (mems & Em & Eim & Edm).
    unfold load_elf. rewrite Em, res_bind_Ok, Eim, Edm. cbn [of_option]. rewrite !res_bind_Ok.
    rewrite (get_elf_segments_ok _ _ _ Hb Hf), res_bind_Ok. cbv beta iota.
    change (_flatten_segments (select otbn_imem file) otbn_imem) with (_flatten_segments (select otbn_imem file) (16384, 4096)).
    change (_flatten_segments (select otbn_dmem file) otbn_dmem) with (_flatten_segments (select otbn_dmem file) (32768, 4096)).
    rewrite Ei, Ed, !res_bind_Ok. cbn [otbn_imem snd]. zbool. cbn [py_assert]. rewrite res_bind_Ok. by rewrite land3. }
  rewrite E. split.
  - intros Hm. rewrite Hm. cbn [Z.eqb negb].
    destruct (decode_bytes_ok classes imem Hm Hdec) as (insns & -> & Hins). rewrite res_bind_Ok.
    destruct (Dmem.load_dump_ok dmem _ Hwf Hby ltac:(lia)) as (l & old & El & Hll & Hw' & Hold & Hnew).
    exists insns, (Dmem.set_data l (s_dmem (sim_state sim))). split; [split; [exact Him | exact Hdm | exact Hins | exists old; split; assumption |
      exists l; split; [reflexivity | assumption] | exact Hw'] |].
    erewrite bind_Ok by done. cbv beta. unfold OTBNSim.load_data, OTBNState.on_dmem, OTBNSim.on_state, zoom.
    cbn [sim_state]. rewrite El. reflexivity.
  - intros Hm. rewrite (proj2 (Z.eqb_neq _ _) Hm). split; [exact Him | reflexivity].
Qed.
End load.

Lemma otbn_decodes pc word :
  ∃ i, Decode._decode_word otbn_classes pc word = Ok i ∧ valid i || unsupported i = true.
Proof. exact (typed_classes_decode _ _ pc word otbn_classes_ok otbn_classes_load otbn_types_eq). Qed.

Lemma otbn_decodes_ok pc word : ∃ i, Decode._decode_word otbn_classes pc word = Ok i.
Proof. destruct (otbn_decodes pc word) as (i & E & _). by exists i. Qed.

Lemma idle_set_dmem d s : idle_wf s → Dmem.wf d → idle_wf (OTBNState.set_dmem d s).
Proof. intros [] ?. by split. Qed.

Lemma clean_set_dmem d s :
  clean s → dm_trace d = [] → dm_err_flag d = false → clean (OTBNState.set_dmem d s).
Proof. intros [] ? ?. by split. Qed.

(** ** A file of ECALL instructions *)

Lemma decode_ecall pc : Decode._decode_word otbn_classes pc 115 = Ok ECALL.
Proof. by vm_compute. Qed.

Definition ecall_bytes (n : nat) : list Z := concat (replicate n [115; 0; 0; 0]).

Lemma ecall_words n : Decode.words_le (ecall_bytes n) = replicate n 115.
Proof. induction n as [| n IH]; [done |]. cbn. by f_equal. Qed.

Lemma ecall_bytes_length n : length (ecall_bytes n) = (4 * n)%nat.
Proof. unfold ecall_bytes. induction n as [| n IH]; [done |]. cbn [replicate concat app length]. lia. Qed.

Definition ecall_file : list MemFile.segment :=
  [MemFile.mkSegment "PT_LOAD" 16384 4096 (ecall_bytes 1024); MemFile.mkSegment "PT_NOTE" 0 4 [];
   MemFile.mkSegment "PT_LOAD" 32768 8 [1; 2; 3]].

Lemma ecall_file_ok : file_ok otbn_imem otbn_dmem ecall_file.
Proof.
  assert (Hl : Z.of_nat (length (ecall_bytes 1024)) = 4096) by (by rewrite ecall_bytes_length).
  assert (Hb : Forall (in_bits 8) (ecall_bytes 1024)).
  { unfold ecall_bytes. generalize 1024%nat. intros n. induction n as [| n IH]; [by apply Forall_nil |].
    cbn [replicate concat app]. by repeat constructor. }
  unfold ecall_file. generalize dependent (ecall_bytes 1024). intros data Hl Hb.
  split; try (intros s Hs; repeat (apply elem_of_cons in Hs as [-> | Hs]); try (by apply elem_of_nil in Hs);
    intros Hload; try done; cbn).
  - by left.
  - by right.
  - lia.
  - by repeat constructor.
  - split; [by repeat constructor; set_solver |]. intros p q. cbn. set_solver by lia.
  - split; [by repeat constructor; set_solver |]. intros p q. cbn. set_solver by lia.
Qed.

(** One segment that fills the block. *)
Lemma image_full base data bytes :
  image [(base, data)] base bytes → (length bytes ≤ length data)%nat → bytes = data.
Proof.
  intros [Hs _] Hlen. apply list_eq. intros i. destruct (data !! i) as [b |] eqn:E.
  - rewrite <- (Hs (base, data) i b); [| by left | done]. f_equal. cbn. lia.
  - apply lookup_ge_None in E. apply lookup_ge_None. lia.
Qed.

Lemma ecall_file_loads :
  ∃ m, (m0 ← new_sim otbn_hjson; load_elf otbn_hjson otbn_classes ecall_file m0) = Ok ((), m) ∧
    length (sim_program m) = 1024%nat ∧ Forall (fun i => unsupported i = false) (sim_program m).
Proof.
  rewrite new_sim_ok, res_bind_Ok. destruct otbn_state_ok as (Hi & _ & _ & _ & Hd).
  generalize dependent otbn_state. intros s0 Hi Hd.
  destruct (load_elf_eq otbn_classes otbn_decodes_ok ecall_file (mkSim s0 [] None))
    as (imem & dmem & Hlen & _ & Hok & Hbad);
    [exact ecall_file_ok | exact (wf_dmem _ Hi) | unfold Dmem.len; cbn [sim_state]; by rewrite Hd |].
  assert (Him : image (select otbn_imem ecall_file) otbn_imem.1 imem → imem = ecall_bytes 1024).
  { intros H. apply (image_full 16384); [exact H |]. rewrite ecall_bytes_length. lia. }
  destruct (decide (Z.of_nat (length imem) `mod` 4 = 0)) as [Hm | Hm].
  - destruct (Hok Hm) as (insns & d' & Hl & E). eexists. split; [exact E |]. cbn [sim_program].
    pose proof (el_insns _ _ _ _ _ _ _ Hl) as Hins. rewrite (Him (el_imem _ _ _ _ _ _ _ Hl)), ecall_words in Hins.
    split; [apply Forall2_length in Hins; by rewrite length_imap, length_replicate in Hins |].
    apply Forall_lookup_2. intros k i Hk. destruct (Forall2_lookup_r _ _ _ _ _ Hins Hk) as (x & Hx & Ex).
    rewrite list_lookup_imap in Hx. apply fmap_Some in Hx as (w & [-> _]%lookup_replicate & ->).
    cbn [fst snd] in Ex. rewrite decode_ecall in Ex. by injection Ex as <-.
  - destruct (Hbad Hm) as [H _]. apply Him in H. exfalso. apply Hm. by rewrite H, ecall_bytes_length.
Qed.

(** * Theorems *)

(** C26: loading, into a simulator whose data memory is well-formed and has its 128 wide words, an
    ELF file whose loadable segments hold bytes, no more of them than they take in memory, each
    lie in the instruction or the data memory of otbn.hjson and do not overlap.  The bytes of the segments are placed at their addresses,
    with zeros between them; the program is the decoding of the words of the
    instruction memory, and the data memory holds the data, padded to a word, over
    what it held before.  If the size of the instructions is not a multiple of four
    the file is refused with [RuntimeError]. *)
Theorem elf_load_places file sim
  (Hf : file_ok otbn_imem otbn_dmem file) (Hwf : Dmem.wf (s_dmem (sim_state sim)))
  (Hlen : Dmem.len (s_dmem (sim_state sim)) = 128) :
  ∃ imem dmem, Z.of_nat (length imem) ≤ 4096 ∧ Z.of_nat (length dmem) ≤ 4096 ∧
    (Z.of_nat (length imem) `mod` 4 = 0 → ∃ insns d',
       elf_loaded otbn_classes file sim imem dmem insns d' ∧
       load_elf otbn_hjson otbn_classes file sim =
         Ok ((), mkSim (OTBNState.set_dmem d' (sim_state sim)) insns (sim_stats sim))) ∧
    (Z.of_nat (length imem) `mod` 4 ≠ 0 →
       image (select otbn_imem file) 16384 imem ∧
       load_elf otbn_hjson otbn_classes file sim = Err RuntimeError).
Proof. apply (load_elf_eq otbn_classes otbn_decodes_ok); assumption. Qed.

Lemma elf_load_places_witness :
  ∃ imem dmem, Z.of_nat (length imem) ≤ 4096 ∧ Z.of_nat (length dmem) ≤ 4096 ∧
    (Z.of_nat (length imem) `mod` 4 = 0 → ∃ insns d',
       elf_loaded otbn_classes ecall_file (mkSim otbn_state [] None) imem dmem insns d' ∧
       load_elf otbn_hjson otbn_classes ecall_file (mkSim otbn_state [] None) =
         Ok ((), mkSim (OTBNState.set_dmem d' otbn_state) insns None)) ∧
    (Z.of_nat (length imem) `mod` 4 ≠ 0 →
       image (select otbn_imem ecall_file) 16384 imem ∧
       load_elf otbn_hjson otbn_classes ecall_file (mkSim otbn_state [] None) = Err RuntimeError).
Proof.
  destruct otbn_state_ok as (Hi & _ & _ & _ & Hd). generalize dependent otbn_state. intros s0 Hi Hd.
  apply (elf_load_places ecall_file (mkSim s0 [] None)).
  - exact ecall_file_ok.
  - exact (wf_dmem _ Hi).
  - unfold Dmem.len. cbn [sim_state]. by rewrite Hd.
Defined.

(** C2: from the ELF file to the end of the run.  If the loadable segments of a file hold bytes,
    lie in the two memories and do not overlap, the simulator built from otbn.hjson has loaded
    it, and the loaded program fills the instruction memory and has no instruction with one of
    the [unsupported] operands, then [start] and [run] without statistics raise no exception,
    for every number of cycles; if the run ends, the core has stopped. *)
Theorem elf_run_safe file fuel m
  (Hf : file_ok otbn_imem otbn_dmem file)
  (Hload : (m0 ← new_sim otbn_hjson; load_elf otbn_hjson otbn_classes file m0) = Ok ((), m))
  (Hfull : length (sim_program m) = 1024%nat)
  (Hsup : Forall (fun i => unsupported i = false) (sim_program m)) :
  ∃ m1 r m', OTBNSim.start m = Ok ((), m1) ∧ OTBNSim.run fuel false m1 = Ok (r, m') ∧
    ∀ k, r = Some k → s_running (sim_state m') = false ∧ 0 ≤ k ≤ Z.of_nat fuel.
Proof.
  rewrite new_sim_ok, res_bind_Ok in Hload. pose proof otbn_start_addr as Ha.
  destruct otbn_state_ok as (Hi & Hc & _ & Hz & Hd). generalize dependent otbn_state. intros s0 Hload Ha Hi Hc Hz Hd.
  destruct (load_elf_eq otbn_classes otbn_decodes_ok file (mkSim s0 [] None))
    as (imem & dmem & _ & _ & Hok & Hbad); [exact Hf | exact (wf_dmem _ Hi) | unfold Dmem.len; cbn [sim_state]; by rewrite Hd |].
  destruct (decide (Z.of_nat (length imem) `mod` 4 = 0)) as [Hm | Hm];
    [| destruct (Hbad Hm) as [_ E]; rewrite Hload in E; discriminate E].
  destruct (Hok Hm) as (insns & d' & [_ _ Hins _ (l & Ed & _) Hdw] & E). rewrite Hload in E. injection E as ->.
  cbn [sim_state sim_program sim_stats] in *.
  apply (run_valid_ok fuel _ 0); cbn [sim_state sim_program].
  - by apply idle_set_dmem.
  - apply clean_set_dmem; [done | |]; rewrite Ed; apply (cl_dmem _ Hc).
  - apply Forall_lookup_2. intros k i Hk.
    destruct (Forall2_lookup_r _ _ _ _ _ Hins Hk) as (x & _ & Ex).
    destruct (otbn_decodes (4 * Z.of_nat x.1) x.2) as (i' & Ei' & Hv). rewrite Ex in Ei'. injection Ei' as <-.
    rewrite (Forall_lookup_1 _ _ _ _ Hsup Hk), orb_false_r in Hv. exact Hv.
  - rewrite Hfull. exact Hz.
  - exact Ha.
  - cbn. rewrite Hz. by vm_compute.
Qed.

Lemma elf_run_safe_witness :
  ∃ m m1 r m',
    (m0 ← new_sim otbn_hjson; load_elf otbn_hjson otbn_classes ecall_file m0) = Ok ((), m) ∧
    OTBNSim.start m = Ok ((), m1) ∧ OTBNSim.run 20 false m1 = Ok (r, m') ∧
    ∀ k, r = Some k → s_running (sim_state m') = false ∧ 0 ≤ k ≤ 20.
Proof.
  destruct ecall_file_loads as (m & E & Hl & Hs).
  destruct (elf_run_safe ecall_file 20 m ecall_file_ok E Hl Hs) as (m1 & r & m' & H).
  exists m, m1, r, m'. split; [exact E | exact H].
Defined.
