(* ===== verification/RgProps.v ===== *)
(** What the invariants of a register block give: disjoint address ranges, the copies of a
    multi-register, reset values, and the list of entries with its gaps. *)

From stdpp Require Import pretty sorting.
From S2P Require Import Prelude BitLoops PyStr PyList Yaml Vmem RgLib RgField.
From S2P Require Import RgRegister RgBlock RgIp RgSafe RgLayout.
From S2P Require Import OtbnIsa.
From S2P Require Import RgOtbn.
From S2P Require ExtRegs SimProps.

Import RegBlock.

(** ** Address ranges *)

(** The addresses that an entry takes: those of each register, or of the window. *)
Definition extents_of (addrsep : Z) (e : entry) : list (Z * Z) :=
  match e with
  | EWindow w => [(w_offset w, w_offset w + w_size_in_bytes w)]
  | _ => (fun r => (r_offset r, r_offset r + addrsep)) <$> regs_of e
  end.
Definition extents (b : RegBlock) : list (Z * Z) := rb_entries b ≫= extents_of (rb_addrsep b).

(** The ranges lie between [lo] and [hi], in order and on multiples of [addrsep]. *)
Fixpoint ranges (addrsep lo : Z) (l : list (Z * Z)) (hi : Z) : Prop :=
  match l with
  | [] => lo ≤ hi
  | p :: l => lo ≤ p.1 ∧ p.1 < p.2 ∧ p.1 `mod` addrsep = 0 ∧ p.2 `mod` addrsep = 0 ∧ ranges addrsep p.2 l hi
  end.

Lemma ranges_app a lo l mid l' hi : ranges a lo l mid → ranges a mid l' hi → ranges a lo (l ++ l') hi.
Proof.
  revert lo. induction l as [| p l IH]; cbn; intros lo H H'.
  - destruct l' as [| q l']; cbn in *; [lia |]. destruct H' as (? & H'). split; [lia | done].
  - destruct H as (? & ? & ? & ? & ?). split_and!; auto.
Qed.

Lemma ranges_le a lo l hi : ranges a lo l hi → lo ≤ hi.
Proof. revert lo. induction l as [| p l IH]; cbn; intros lo; [done |]. intros (? & ? & _ & _ & H%IH). lia. Qed.

Lemma ranges_Forall a lo l hi :
  ranges a lo l hi → Forall (fun p => lo ≤ p.1 ∧ p.1 < p.2 ∧ p.2 ≤ hi ∧ p.1 `mod` a = 0 ∧ p.2 `mod` a = 0) l.
Proof.
  revert lo. induction l as [| p l IH]; cbn; intros lo H; [by apply Forall_nil |].
  destruct H as (? & ? & ? & ? & H). pose proof (ranges_le _ _ _ _ H). apply Forall_cons. split; [lia |].
  eapply Forall_impl; [by apply IH |]. intros q. cbn. lia.
Qed.

Lemma ranges_sorted a lo l hi : ranges a lo l hi → StronglySorted (fun p q : Z * Z => p.2 ≤ q.1) l.
Proof.
  revert lo. induction l as [| p l IH]; cbn; intros lo H; [constructor |].
  destruct H as (? & ? & ? & ? & H). constructor; [by eapply IH |].
  eapply Forall_impl; [by apply (ranges_Forall a p.2 l hi) |]. intros q. cbn. lia.
Qed.

(** Consecutive registers. *)
Lemma regs_ranges a lo (regs : list Register) :
  0 < a → lo `mod` a = 0 → (∀ i r, regs !! i = Some r → r_offset r = lo + Z.of_nat i * a) →
  ranges a lo ((fun r => (r_offset r, r_offset r + a)) <$> regs) (lo + Z.of_nat (length regs) * a).
Proof.
  intros Ha. revert lo. induction regs as [| r regs IH]; intros lo Hm Hr; cbn [fmap list_fmap ranges length]; [lia |].
  pose proof (Hr 0%nat r eq_refl) as E0. rewrite Z.mul_0_l, Z.add_0_r in E0. cbn. rewrite E0.
  assert (Hm' : (lo + a) `mod` a = 0) by (rewrite <- (Z.mul_1_l a) at 1; by rewrite Z.mod_add by lia).
  split_and!; [lia | lia | done | done |].
  replace (lo + Z.of_nat (S (length regs)) * a) with (lo + a + Z.of_nat (length regs) * a) by lia.
  apply IH; [done |]. intros i r' Hi. rewrite (Hr (S i) r' Hi). lia.
Qed.

Lemma entry_ranges w a e :
  0 < a → entry_wf w a e → entry_offset e `mod` a = 0 → entry_next a e `mod` a = 0 →
  entry_offset e < entry_next a e →
  ranges a (entry_offset e) (extents_of a e) (entry_next a e).
Proof.
  intros Ha Hwf Hm Hn Hlt. destruct e as [r | m | x]; cbn in *.
  - unfold Register.next_offset in *. split_and!; try done; lia.
  - apply regs_ranges; [done | done |]. intros i r Hi. by apply (mw_regs _ _ _ Hwf).
  - unfold Window.next_offset in *. split_and!; try done; lia.
Qed.

Lemma layout_ranges w a lo es hi :
  0 < a → Forall (entry_wf w a) es → layout a lo es hi → ranges a lo (es ≫= extents_of a) hi.
Proof.
  intros Ha Hwf. revert lo. induction Hwf as [| e es He Hes IH]; intros lo; cbn [layout mbind list_bind]; [done |].
  intros (Hlo & Hm & Hlt & Hn & Hl).
  apply (ranges_app a lo (extents_of a e) (entry_next a e)); [| by apply IH].
  pose proof (entry_ranges w a e Ha He Hm Hn Hlt) as Hr. destruct (extents_of a e) as [| p l]; cbn in *; [lia |].
  destruct Hr as (? & ? & ? & ? & ?). split_and!; try done; lia.
Qed.

Lemma block_ranges b : block_wf b → ranges (rb_addrsep b) 0 (extents b) (rb_offset b).
Proof.
  intros [Hw _ Hl He _]. apply (layout_ranges (rb_reg_width b)); [by eapply width_ok_pos | done | done].
Qed.

(** ** Lookup by name *)

Lemma flat_names_nodup b : block_wf b → NoDup (lower <$> (r_name <$> rb_flat_regs b)).
Proof.
  intros [_ _ _ _ [Ef En Hnd _]]. rewrite app_nil_r in Ef, En. rewrite En in Hnd. rewrite Ef. clear -Hnd.
  eapply sublist_NoDup; [exact Hnd |]. clear Hnd.
  induction (rb_entries b) as [| e es IH]; [done |]. cbn [mbind list_bind]. rewrite !fmap_app.
  apply sublist_app; [| exact IH]. destruct e as [r | m | x]; cbn [regs_of names_of].
  - done.
  - by rewrite <- !list_fmap_compose.
  - apply sublist_nil_l.
Qed.

Lemma block_lookup b r :
  block_wf b → r ∈ rb_flat_regs b →
  dget (lower (r_name r)) (rb_name_to_offset b) = Some (r_offset r) ∧
  dget (lower (r_name r)) (rb_name_to_flat_reg b) = Some r.
Proof.
  intros Hb Hr. pose proof (flat_names_nodup b Hb) as Hfn.
  destruct Hb as [_ _ _ _ [Ef En Hnd El]]. rewrite app_nil_r in Ef, En.
  assert (Hin : (lower (r_name r), r_offset r) ∈ rb_name_to_offset b).
  { rewrite En. rewrite Ef in Hr. apply list_elem_of_bind in Hr as (e & Hre & He).
    apply list_elem_of_bind. exists e. split; [| done].
    destruct e as [r' | m | x]; cbn in *; [| | by apply elem_of_nil in Hre].
    - apply list_elem_of_singleton in Hre as ->. by apply list_elem_of_singleton.
    - apply list_elem_of_fmap. by exists r. }
  split; [by apply elem_dget |]. rewrite El. apply elem_dget; [| apply list_elem_of_fmap; by exists r].
  rewrite <- list_fmap_compose. by rewrite <- list_fmap_compose in Hfn.
Qed.

Lemma block_regs_wf b r : block_wf b → r ∈ rb_flat_regs b → reg_wf (rb_reg_width b) r.
Proof.
  intros Hb. rewrite (tb_flat _ _ _ (bw_tables _ Hb)), app_nil_r. intros (e & Hr & He)%list_elem_of_bind.
  pose proof (proj1 (Forall_forall _ _) (bw_entries _ Hb) e He) as Hw. destruct e as [r' | m | x]; cbn in *.
  - by apply list_elem_of_singleton in Hr as ->.
  - apply list_elem_of_lookup in Hr as [k Hk]. by destruct (mw_regs _ _ _ Hw k r Hk).
  - by apply elem_of_nil in Hr.
Qed.

(** ** The list of entries with its gaps *)

(** Read a list of entries and gaps as the parser does: a gap of [n] reserves [n] words, an entry
    starts at the current offset. *)
Fixpoint replay (addrsep offset : Z) (l : list dict_entry) : list (Z * entry) :=
  match l with
  | [] => []
  | Reserved n :: l => replay addrsep (offset + addrsep * n) l
  | Entry e :: l => (offset, e) :: replay addrsep (entry_next addrsep e) l
  end.

Definition at_offset (e : entry) : Z * entry := (entry_offset e, e).

Lemma replay_app a o l l' es :
  replay a o l = es → ∀ o', foldl (fun o d => match d with Reserved n => o + a * n | Entry e => entry_next a e end) o l = o' →
  replay a o (l ++ l') = es ++ replay a o' l'.
Proof.
  revert o es. induction l as [| [n | e] l IH]; intros o es H o' Ho; cbn in *; subst; [done | by apply IH |].
  by rewrite (IH (entry_next a e) _ eq_refl _ eq_refl).
Qed.

Definition dict_next (a : Z) (o : Z) (l : list dict_entry) : Z :=
  foldl (fun o d => match d with Reserved n => o + a * n | Entry e => entry_next a e end) o l.

Definition gap_pos (d : dict_entry) : Prop := match d with Reserved n => 0 < n | Entry _ => True end.

Lemma add_dicts_ok a lo es hi acc :
  0 < a → layout a lo es hi → lo `mod` a = 0 → dict_next a 0 acc = lo → Forall gap_pos acc →
  ∃ l o, foldM (add_dict a) (acc, lo) es = Ok (l, o) ∧
    replay a 0 l = replay a 0 acc ++ (at_offset <$> es) ∧ Forall gap_pos l.
Proof.
  intros Ha. revert lo acc. induction es as [| e es IH]; intros lo acc Hl Hlo Hacc Hpos; cbn [foldM].
  { exists acc, lo. by rewrite app_nil_r. }
  destruct Hl as (Hle & Hm & Hlt & Hn & Hl). set (gap := entry_offset e - lo).
  assert (Hg : gap `mod` a = 0) by (unfold gap; rewrite Zminus_mod, Hm, Hlo; done).
  set (acc' := if truthy gap then acc ++ [Reserved (gap / a)] else acc).
  assert (add_dict a (acc, lo) e = Ok (acc' ++ [Entry e], entry_next a e)) as ->.
  { unfold add_dict. zbool. cbn [py_assert]. rewrite res_bind_Ok. fold gap. rewrite Hg. unfold acc'.
    by destruct (truthy gap). }
  rewrite res_bind_Ok.
  assert (Hnext : dict_next a 0 acc' = entry_offset e ∧ replay a 0 acc' = replay a 0 acc ∧ Forall gap_pos acc').
  { unfold acc'. destruct (truthy gap) eqn:Et.
    - unfold dict_next in *. rewrite foldl_app. cbn [foldl]. rewrite Hacc. split_and!.
      + pose proof (Z_div_exact_full_2 gap a ltac:(lia) Hg). unfold gap in *. lia.
      + rewrite (replay_app a 0 acc _ _ eq_refl _ eq_refl). cbn. by rewrite app_nil_r.
      + apply Forall_app. split; [done |]. apply Forall_singleton. cbn.
        assert (a ≤ gap) by (apply Z.mod_divide in Hg as [q Hq]; [| lia];
          apply negb_true_iff, Z.eqb_neq in Et; assert (0 ≤ gap) by (unfold gap; lia); clearbody gap; assert (1 ≤ q) by nia; nia).
        apply Z.div_str_pos. lia.
    - apply negb_false_iff, Z.eqb_eq in Et. rewrite Hacc. unfold gap in Et. split_and!; [lia | done | done]. }
  destruct Hnext as (Hnext & Hrep & Hpos').
  destruct (IH (entry_next a e) (acc' ++ [Entry e])) as (l & o & El & Hr & Hpos''); [done | done | | |].
  { unfold dict_next in *. by rewrite foldl_app. }
  { apply Forall_app. split; [done |]. by apply Forall_singleton. }
  exists l, o. split; [exact El |]. rewrite Hr. split; [| done].
  rewrite (replay_app a 0 acc' [Entry e] _ eq_refl (entry_offset e)) by exact Hnext. rewrite Hrep.
  by rewrite <- app_assoc.
Qed.

Lemma as_dicts_ok b :
  block_wf b →
  ∃ l, as_dicts b = Ok l ∧ replay (rb_addrsep b) 0 l = at_offset <$> rb_entries b ∧ Forall gap_pos l.
Proof.
  intros [Hw _ Hl _ _]. unfold as_dicts. pose proof (width_ok_pos _ _ Hw) as Ha.
  destruct (add_dicts_ok (rb_addrsep b) 0 (rb_entries b) (rb_offset b) []) as (l & o & -> & Hr & Hp);
    [done | done | by apply Z.mod_0_l; lia | done | by apply Forall_nil |].
  exists l. by rewrite res_bind_Ok.
Qed.

(** ** Copies *)

(** Cutting the numbers below [count] into pieces of [per]. *)
Lemma seqZ_chunks per count (n : nat) :
  1 ≤ per → 0 ≤ count →
  (seqZ 0 (Z.of_nat n) ≫= fun i => seqZ (per * i) (Z.min (per * i + per) count - per * i)) =
  seqZ 0 (Z.min (per * Z.of_nat n) count).
Proof.
  intros Hp Hc. induction n as [| n IH].
  - cbn [Z.of_nat seqZ mbind list_bind]. rewrite Z.mul_0_r, Z.min_l by done. done.
  - replace (Z.of_nat (S n)) with (Z.of_nat n + 1) by lia. rewrite seqZ_app by lia.
    rewrite bind_app, IH. cbn [Z.add]. change (seqZ (0 + Z.of_nat n) 1) with [Z.of_nat n].
    rewrite bind_singleton. set (k := Z.of_nat n).
    destruct (Z.le_gt_cases (per * k) count).
    + rewrite (Z.min_l (per * k)) by done.
      replace (seqZ (per * k)) with (seqZ (0 + per * k)) by done.
      rewrite <- seqZ_app by (unfold k; nia). f_equal. lia.
    + rewrite (seqZ_nil (per * k)) by lia. rewrite app_nil_r. f_equal. nia.
Qed.

Lemma bind_concat {A B} (f : A → list B) l : l ≫= f = concat (f <$> l).
Proof. induction l as [| x l IH]; [done |]. cbn. by rewrite IH. Qed.

Lemma fmap_concat_bind {A B C} (g : B → C) (f : A → list B) l :
  g <$> (l ≫= f) = concat ((fun x => g <$> f x) <$> l).
Proof. induction l as [| x l IH]; [done |]. cbn [mbind list_bind fmap list_fmap concat]. by rewrite fmap_app, IH. Qed.

(** The fields of a multi-register, register by register. *)
Lemma multi_field_list w a m :
  multi_wf w a m →
  MultiRegister.get_field_list m = seqZ 0 (Z.of_nat (length (mr_regs m))) ≫= fun i =>
    creg_fields (mr_compact m) (creg_min w m i) (creg_max w m i) i (mr_cname m) (mr_reg m).
Proof.
  intros Hm. unfold MultiRegister.get_field_list, Register.get_field_list. rewrite !bind_concat. f_equal.
  apply list_eq. intros i. rewrite !list_lookup_fmap. destruct (mr_regs m !! i) as [r |] eqn:E; cbn.
  - apply lookup_lt_Some in E as Hi. rewrite lookup_seqZ_lt by lia. cbn.
    by destruct (mw_regs _ _ _ Hm i r E) as (_ & _ & _ & ->).
  - apply lookup_ge_None in E. rewrite lookup_seqZ_ge by lia. done.
Qed.

(** Name and bits of copy [i] of the field of a compact multi-register. *)
Definition copy_of (w : Z) (f : Field) (i : Z) : string * Bits :=
  let width := b_msb (f_bits f) + 1 in
  let off := width * (i `mod` (w / width)) in
  (f_name f +:+ "_" +:+ pretty i, mkBits (b_msb (f_bits f) + off) (b_lsb (f_bits f) + off)).

Lemma compact_copies w a m f :
  multi_wf w a m → mr_compact m = true → r_fields (mr_reg m) = [f] →
  (fun g => (f_name g, f_bits g)) <$> MultiRegister.get_field_list m = copy_of w f <$> seqZ 0 (mr_count m).
Proof.
  intros Hm Hc Ef. pose proof (mw_per _ _ _ Hm) as Hp. pose proof (mw_count _ _ _ Hm) as Hcount.
  pose proof (mw_length _ _ _ Hm) as Hlen.
  rewrite (multi_field_list w a m Hm). unfold creg_fields, creg_min, creg_max. rewrite Hc, Ef.
  assert (Eper : per_creg w m = w / (b_msb (f_bits f) + 1)) by (unfold per_creg; by rewrite Hc, Ef).
  set (per := per_creg w m) in *. set (n := length (mr_regs m)) in *.
  assert (Hn : Z.min (per * Z.of_nat n) (mr_count m) = mr_count m).
  { apply Z.min_r. rewrite Hlen. pose proof (Z.mul_succ_div_gt (mr_count m + per - 1) per ltac:(lia)). lia. }
  pose proof (seqZ_chunks per (mr_count m) n Hp ltac:(lia)) as Hchunks. rewrite Hn in Hchunks. rewrite <- Hchunks.
  rewrite !fmap_concat_bind. f_equal.
  apply list_fmap_ext. intros k i Hi. apply lookup_seqZ in Hi as [-> Hi]. unfold copies.
  rewrite Z.add_0_l. set (kz := Z.of_nat k) in *.
  replace (1 + (Z.min (per * kz + per) (mr_count m) - 1) - per * kz)
    with (Z.min (per * kz + per) (mr_count m) - per * kz) by lia.
  rewrite <- list_fmap_compose. apply list_fmap_ext. intros j i Hj. apply lookup_seqZ in Hj as [-> Hj].
  unfold compose, copy_of. cbn. rewrite <- Eper.
  replace ((per * kz + Z.of_nat j) `mod` per) with (Z.of_nat j) by (apply (Z.mod_unique _ _ kz); lia).
  by replace (per * kz + Z.of_nat j - per * kz) with (Z.of_nat j) by lia.
Qed.

(** ** Reset values *)

(** Two fields that share no bit; the fields of a register that are pairwise so. *)
Definition disjoint (f g : Field) : Prop := b_msb (f_bits f) < b_lsb (f_bits g) ∨ b_msb (f_bits g) < b_lsb (f_bits f).
Definition disjoint_fields (fs : list Field) : Prop :=
  ∀ i j f g, fs !! i = Some f → fs !! j = Some g → i ≠ j → disjoint f g.

Definition field_reset (f : Field) : Z := default 0 (f_resval f).

(** Bit [n] lies in the field. *)
Definition covers (n : Z) (f : Field) : bool := (b_lsb (f_bits f) <=? n) && (n <=? b_msb (f_bits f)).

Lemma collect_reset_bits w fs n :
  0 ≤ n → Forall (field_wf w) fs →
  Z.testbit (Register.collect_reset fs).1 n =
    existsb (fun f => Z.testbit (field_reset f) (n - b_lsb (f_bits f))) fs ∧
  Z.testbit (Register.collect_reset fs).2 n = existsb (covers n) fs.
Proof.
  intros Hn. unfold Register.collect_reset. induction fs as [| f fs IH] using rev_ind; intros Hf.
  { cbn [foldl existsb fst snd]. by rewrite Z.bits_0. }
  apply Forall_app in Hf as [Hfs [Hf _]%Forall_cons]. specialize (IH Hfs).
  rewrite foldl_app. cbn [foldl]. destruct (foldl _ (0, 0) fs) as [v m]. cbn [fst snd] in *.
  rewrite !existsb_app. cbn [existsb]. rewrite !orb_false_r, !Z.lor_spec.
  destruct IH as [-> ->], Hf as [[? ?] _]. split; f_equal.
  - rewrite testbit_shiftl by done. done.
  - by rewrite testbit_bitmask.
Qed.

Lemma field_reset_bits w f n : field_wf w f → Bits.width (f_bits f) ≤ n → Z.testbit (field_reset f) n = false.
Proof.
  intros [Hb Hr] Hn. pose proof (bits_width_pos _ _ Hb). unfold field_reset.
  destruct (f_resval f) as [v |]; cbn in *; [| apply Z.bits_0]. by apply (testbit_in_bits (Bits.width (f_bits f))); [| lia].
Qed.

(** A bit of the reset value that another field sets is outside of this field. *)
Lemma reset_other w f g n :
  field_wf w f → field_wf w g → disjoint f g → covers n f = true →
  Z.testbit (field_reset g) (n - b_lsb (f_bits g)) = false.
Proof.
  intros Hf Hg Hd [?%Z.leb_le ?%Z.leb_le]%andb_true_iff. destruct Hd as [Hd | Hd].
  - apply testbit_neg. lia.
  - apply (field_reset_bits w); [done |]. unfold Bits.width. lia.
Qed.

Lemma extract_reset w fs f :
  Forall (field_wf w) fs → disjoint_fields fs → f ∈ fs →
  Bits.extract_field (Register.collect_reset fs).1 (f_bits f) = field_reset f.
Proof.
  intros Hfs Hd Hin. apply list_elem_of_lookup in Hin as [i Hi]. pose proof (Forall_lookup_1 _ _ _ _ Hfs Hi) as Hf.
  destruct (fw_bits _ _ Hf) as [Hb ?]. apply Z_bits_eq. intros n Hn. rewrite testbit_extract by done.
  destruct (Z.ltb_spec n (Bits.width (f_bits f))) as [Hlt | Hge]; cbn [andb];
    [| symmetry; by apply (field_reset_bits w)].
  destruct (collect_reset_bits w fs (n + b_lsb (f_bits f)) ltac:(lia) Hfs) as [-> _].
  assert (Hc : covers (n + b_lsb (f_bits f)) f = true) by (unfold covers, Bits.width in *; zbool; by zbool).
  destruct (Z.testbit (field_reset f) n) eqn:Et.
  - apply existsb_exists. exists f. split; [by eapply list_elem_of_In, list_elem_of_lookup_2 |].
    by replace (n + b_lsb (f_bits f) - b_lsb (f_bits f)) with n by lia.
  - apply not_true_is_false. intros (g & Hg & Hbit)%existsb_exists.
    apply list_elem_of_In, list_elem_of_lookup in Hg as [j Hj].
    destruct (decide (i = j)) as [<- | Hne].
    + rewrite Hi in Hj. injection Hj as <-.
      replace (n + b_lsb (f_bits f) - b_lsb (f_bits f)) with n in Hbit by lia. congruence.
    + pose proof (Forall_lookup_1 _ _ _ _ Hfs Hj) as Hgw.
      rewrite (reset_other w f g) in Hbit; [done | done | done | by eapply Hd | done].
Qed.

(** ** Port names *)

Lemma app_suffix (s t u v : string) : String.length u = String.length v → s +:+ u = t +:+ v → u = v.
Proof.
  intros Hl. revert t. induction s as [| c s IH]; intros [| c' t] H.
  - done.
  - apply (f_equal String.length) in H. rewrite !append_length in H. cbn in H. lia.
  - apply (f_equal String.length) in H. rewrite !append_length in H. cbn in H. lia.
  - cbn in H. injection H as -> H. by eapply IH.
Qed.

Definition port_prefix (n : option string) : string := match n with None => "" | Some n => n +:+ "_" end.
Definition port_suffix (is_host : bool) (b : BusInterfaces) : string :=
  (if is_host then "tl_h" else if BusInterfaces.has_host b then "tl_d" else "tl")%string.

Lemma port_name_eq h n b : BusInterfaces.get_port_name h n b = port_prefix n +:+ port_suffix h b.
Proof. unfold BusInterfaces.get_port_name. destruct n as [n |]; [| done]. cbn [port_prefix]. by rewrite append_assoc. Qed.

Lemma port_prefix_inj n n' : port_prefix n = port_prefix n' → n = n'.
Proof.
  destruct n as [n |], n' as [n' |]; cbn; [| | | done].
  - intros ->%app_cancel_r. done.
  - intros H%(f_equal String.length). rewrite append_length in H. cbn in H. lia.
  - intros H%(f_equal String.length). rewrite append_length in H. cbn in H. lia.
Qed.

Lemma port_name_inj b (i j : bool * option string) :
  i ∈ BusInterfaces._interfaces b → j ∈ BusInterfaces._interfaces b →
  BusInterfaces.get_port_name i.1 i.2 b = BusInterfaces.get_port_name j.1 j.2 b → i = j.
Proof.
  assert (Hh : ∀ k, k ∈ BusInterfaces._interfaces b → k.1 = true → BusInterfaces.has_host b = true).
  { intros k Hk Ek. unfold BusInterfaces._interfaces in Hk. unfold BusInterfaces.has_host.
    destruct (bi_has_unnamed_host b), (bi_named_hosts b), (bi_has_unnamed_device b); cbn; try done;
      exfalso; set_solver. }
  intros Hi Hj. rewrite !port_name_eq. intros H. destruct i as [hi ni], j as [hj nj]. cbn in *.
  assert (hi = hj) as ->.
  { destruct hi, hj; try done; unfold port_suffix in H.
    - rewrite (Hh _ Hi eq_refl) in H. by apply app_suffix in H.
    - rewrite (Hh _ Hj eq_refl) in H. by apply app_suffix in H. }
  apply app_cancel_r in H. by apply port_prefix_inj in H as ->.
Qed.

Lemma interfaces_nodup b : bus_wf b → NoDup (BusInterfaces._interfaces b).
Proof.
  intros [Hh Hd]. unfold BusInterfaces._interfaces.
  assert (Ht : ∀ (h : bool) l, NoDup l → NoDup ((fun n : string => (h, Some n)) <$> l)).
  { intros h l. apply NoDup_fmap_2. by intros ? ? [= ->]. }
  pose proof (Ht true _ Hh). pose proof (Ht false _ Hd).
  apply NoDup_app. split_and!; [destruct (bi_has_unnamed_host b); [apply NoDup_singleton | constructor] | |].
  { intros x Hx Hy. destruct (bi_has_unnamed_host b), (bi_has_unnamed_device b); set_solver. }
  apply NoDup_app. split_and!; [done | intros x Hx Hy; destruct (bi_has_unnamed_device b); set_solver |].
  apply NoDup_app. split_and!; [destruct (bi_has_unnamed_device b); [apply NoDup_singleton | constructor] | | done].
  intros x Hx Hy. destruct (bi_has_unnamed_device b); set_solver.
Qed.

Lemma port_names_nodup inc_hosts inc_devices b :
  bus_wf b → NoDup (BusInterfaces.get_port_names inc_hosts inc_devices b).
Proof.
  intros Hb. unfold BusInterfaces.get_port_names. apply NoDup_fmap_2_strong.
  - intros i j [_ Hi]%list_elem_of_filter [_ Hj]%list_elem_of_filter. by apply port_name_inj.
  - by apply NoDup_filter, interfaces_nodup.
Qed.

(** ** The address map *)

(** What a register block promises: the addresses of its registers and windows are in order, apart,
    on multiples of the register size and below [rb_offset]; windows are aligned to their size,
    rounded up to a power of two; names differ in more than upper and lower case; and the tables
    give the offset and register of each name. *)
Record block_map (b : RegBlock) : Prop := {
  bm_apart : StronglySorted (fun p q : Z * Z => p.2 ≤ q.1) (extents b);
  bm_inside : Forall (fun p => 0 ≤ p.1 ∧ p.1 < p.2 ∧ p.2 ≤ rb_offset b ∧
                p.1 `mod` rb_addrsep b = 0 ∧ p.2 `mod` rb_addrsep b = 0) (extents b);
  bm_windows : ∀ w, EWindow w ∈ rb_entries b → w_offset w `mod` Window.po2_size (w_size_in_bytes w) = 0;
  bm_names : NoDup (rb_name_to_offset b).*1;
  bm_lookup : ∀ r, r ∈ rb_flat_regs b →
    dget (lower (r_name r)) (rb_name_to_offset b) = Some (r_offset r) ∧
    dget (lower (r_name r)) (rb_name_to_flat_reg b) = Some r;
}.

Lemma block_wf_map b : block_wf b → block_map b.
Proof.
  intros Hb. pose proof (block_ranges b Hb) as Hr. split.
  - by eapply ranges_sorted.
  - by apply ranges_Forall in Hr.
  - intros w Hw. pose proof (bw_entries _ Hb) as He. rewrite Forall_forall in He. exact (He _ Hw).
  - apply (bw_tables _ Hb).
  - intros r. by apply block_lookup.
Qed.

(** C3: an IP block description whose register width is a power-of-two number of bytes and not
    the number of alerts, and whose dictionary of register blocks, if it has one, has distinct
    keys, is accepted or refused with [ValueError], whatever tree the hjson file
    holds: no assertion fails and no other exception is raised.  If it is accepted, every register
    block has the address map above and the register width of the IP, there is a block for
    each device interface of the bus and for nothing else, and the names of the bus ports are distinct. *)
Theorem ip_block_map defaults raw (Hok : ip_desc_ok raw) :
  match IpBlock.from_raw defaults raw with
  | Ok ip =>
      (∀ n b, (n, b) ∈ ip_reg_blocks ip → block_map b ∧ rb_reg_width b = ip_regwidth ip) ∧
      (∀ n, n ∈ (ip_reg_blocks ip).*1 ↔ n ∈ IpBlock.dev_if_names (ip_bus_interfaces ip)) ∧
      NoDup (BusInterfaces.get_port_names true true (ip_bus_interfaces ip))
  | Err e => e = ValueError
  end.
Proof.
  pose proof (ip_block_safe defaults raw Hok) as H. destruct (IpBlock.from_raw defaults raw) as [ip | e]; [| exact H].
  destruct H as (Hb & Hbus & Hn). split_and!; [| done | by apply port_names_nodup].
  intros n b Hin. pose proof (proj1 (Forall_forall _ _) Hb _ Hin) as [Hwf Hw]. split; [by apply block_wf_map | done].
Qed.

Lemma otbn_desc_ok : ip_desc_ok otbn_hjson.
Proof.
  split; intros rd.
  - intros w E. injection E as <-. vm_compute. intros [= <-]. by exists 2.
  - intros w l E. injection E as <-. vm_compute. by intros [= <-] [= <-].
  - intros d E. injection E as <-. by vm_compute.
Qed.

Lemma ip_block_map_witness :
  match IpBlock.from_raw [] otbn_hjson with
  | Ok ip =>
      (∀ n b, (n, b) ∈ ip_reg_blocks ip → block_map b ∧ rb_reg_width b = ip_regwidth ip) ∧
      (∀ n, n ∈ (ip_reg_blocks ip).*1 ↔ n ∈ IpBlock.dev_if_names (ip_bus_interfaces ip)) ∧
      NoDup (BusInterfaces.get_port_names true true (ip_bus_interfaces ip))
  | Err e => e = ValueError
  end.
Proof. exact (ip_block_map [] otbn_hjson otbn_desc_ok). Defined.

(** The list of entries and gaps that [as_dicts] writes for a block made by
    [add_raw_registers] is produced without a failing assertion, has no empty gap, and
    says where everything is: read from offset zero, with [n] words for a gap of [n], it puts every
    entry at its offset. *)
Theorem as_dicts_replay j params raw b
  (Hj : 0 ≤ j) (Hb : RegBlock.add_raw_registers raw (RegBlock.init (8 * 2 ^ j) params) = Ok b) :
  ∃ l, RegBlock.as_dicts b = Ok l ∧ replay (2 ^ j) 0 l = at_offset <$> rb_entries b ∧ Forall gap_pos l.
Proof.
  pose proof (add_raw_registers_safe raw _ (init_block_wf j params Hj)) as H. rewrite Hb in H.
  destruct H as [Hwf Ew]. destruct (bw_width _ Hwf) as (i & Hi & Ea & Ew').
  assert (rb_addrsep b = 2 ^ j) as <-; [| by apply as_dicts_ok]. cbn in Ew. lia.
Qed.

Definition small_regs : yaml :=
  YList [ydict [("name", YStr "A"); ("desc", YStr "a"); ("fields", YList [ydict [("bits", YStr "7:0")]])];
         ydict [("skipto", YStr "0x10")];
         ydict [("window", ydict [("name", YStr "W"); ("desc", YStr "w"); ("items", YStr "8"); ("swaccess", YStr "rw")])]]%string.

Definition small_block : RegBlock :=
  match RegBlock.add_raw_registers small_regs (RegBlock.init 32 []) with Ok b => b | Err _ => RegBlock.init 32 [] end.

Lemma as_dicts_replay_witness :
  ∃ l, RegBlock.as_dicts small_block = Ok l ∧ replay 4 0 l = at_offset <$> rb_entries small_block ∧ Forall gap_pos l.
Proof. apply (as_dicts_replay 2 [] small_regs); [done | by vm_compute]. Defined.

(** ** Multi-registers *)

(** C27: a multi-register of [count] copies of one field, packed, has exactly the copies
    [name_0], ..., [name_(count-1)], in this order: with [per] the number of copies that fit into a
    register, copy [i] is field [i mod per] of its register, shifted by as many field widths.
    Every field lies inside its register, and register [k] is the [k]-th word from the offset of the
    multi-register. *)
Theorem multireg_copies offset addrsep w params raw m f
  (Hm : MultiRegister.init offset addrsep w params raw = Ok m)
  (Hc : mr_compact m = true) (Hf : r_fields (mr_reg m) = [f]) :
  (fun g => (f_name g, f_bits g)) <$> MultiRegister.get_field_list m = copy_of w f <$> seqZ 0 (mr_count m) ∧
  Forall (fun g => 0 ≤ b_lsb (f_bits g) ≤ b_msb (f_bits g) ∧ b_msb (f_bits g) < w) (MultiRegister.get_field_list m) ∧
  ∀ k r, mr_regs m !! k = Some r → r_offset r = offset + Z.of_nat k * addrsep.
Proof.
  pose proof (multireg_init_safe offset addrsep w params raw) as H. rewrite Hm in H. destruct H as [Hwf Eo].
  split_and!; [by apply (compact_copies w addrsep) | |].
  - apply Forall_forall. intros g (r & Hg & [k Hk]%list_elem_of_lookup)%list_elem_of_bind.
    destruct (mw_regs _ _ _ Hwf k r Hk) as (Hr & _). pose proof (rw_fields _ _ Hr) as Hfs.
    rewrite Forall_forall in Hfs. apply (fw_bits _ _ (Hfs g Hg)).
  - intros k r Hk. destruct (mw_regs _ _ _ Hwf k r Hk) as (_ & E & _). by rewrite E, Eo.
Qed.

Definition small_multi : yaml :=
  ydict [("name", YStr "M"); ("desc", YStr "m"); ("count", YStr "11"); ("cname", YStr "C");
         ("fields", YList [ydict [("name", YStr "F"); ("desc", YStr "f"); ("bits", YStr "6:1")]])]%string.

Lemma multireg_copies_witness :
  ∃ m f, MultiRegister.init 16 4 32 [] small_multi = Ok m ∧ length (mr_regs m) = 3%nat ∧
    (fun g => (f_name g, f_bits g)) <$> MultiRegister.get_field_list m = copy_of 32 f <$> seqZ 0 11.
Proof.
  destruct (MultiRegister.init 16 4 32 [] small_multi) as [m |] eqn:E; [| by vm_compute in E].
  pose proof (fun Hc f Hf => multireg_copies 16 4 32 [] small_multi m f E Hc Hf) as H.
  vm_compute in E. injection E as <-. eexists _, _. split; [reflexivity |]. split; [reflexivity |].
  apply H; reflexivity.
Defined.

(** ** Reset values *)

(** A register whose fields share no bits.  The reset value that the constructor
    collects, and checks against the one in the description, gives each field its reset value
    back, and the mask has the bits that some field covers. *)
Theorem register_reset w offset params raw r
  (Hr : Register.from_raw w offset params raw = Ok r) (Hd : disjoint_fields (r_fields r)) :
  (∀ f, f ∈ r_fields r → Bits.extract_field (r_resval r) (f_bits f) = default 0 (f_resval f)) ∧
  (∀ n, 0 ≤ n → Z.testbit (r_resmask r) n = existsb (covers n) (r_fields r)).
Proof.
  pose proof (register_from_raw_safe w offset params raw) as H. rewrite Hr in H. destruct H as [[_ Hf _ _ Er] _].
  pose proof (f_equal fst Er) as E1. pose proof (f_equal snd Er) as E2. cbn in E1, E2. rewrite E1, E2. split.
  - intros f Hin. by apply (extract_reset w).
  - intros n Hn. by apply (collect_reset_bits w).
Qed.

Definition two_fields (b0 b1 : string) : yaml :=
  ydict [("name", YStr "R"); ("desc", YStr "r");
         ("fields", YList [ydict [("name", YStr "A"); ("desc", YStr "a"); ("bits", YStr b0); ("resval", YInt 5)];
                           ydict [("name", YStr "B"); ("desc", YStr "b"); ("bits", YStr b1); ("resval", YInt 2)]])]%string.

Lemma register_reset_witness :
  ∃ r, Register.from_raw 32 0 [] (two_fields "3:0" "5:4") = Ok r ∧ r_resval r = 37 ∧
    (∀ f, f ∈ r_fields r → Bits.extract_field (r_resval r) (f_bits f) = default 0 (f_resval f)) ∧
    (∀ n, 0 ≤ n → Z.testbit (r_resmask r) n = existsb (covers n) (r_fields r)).
Proof.
  destruct (Register.from_raw 32 0 [] (two_fields "3:0" "5:4")) as [r |] eqn:E; [| by vm_compute in E].
  pose proof (fun Hd => register_reset 32 0 [] _ r E Hd) as H. vm_compute in E. injection E as <-.
  eexists. split; [reflexivity |]. split; [reflexivity |]. apply H.
  intros i j f g Hi Hj Hne. destruct i as [| [|]], j as [| [|]]; cbn in Hi, Hj; try done;
    injection Hi as <-; injection Hj as <-; unfold disjoint; cbn; lia.
Defined.

(** C28: the check that the fields of a register are disjoint never fails.  Two fields of the same
    name are refused, but two that overlap are accepted; here the reset values are 5 and 2, and the
    combined value 13 gives the fields 13 and 3. *)
Theorem overlapping_fields_accepted :
  (∀ fields, Register.check_disjoint fields = Ok ()) ∧
  match Register.from_raw 32 0 [] (two_fields "3:0" "3:2") with
  | Ok r => r_resval r = 13 ∧ f_resval <$> r_fields r = [Some 5; Some 2] ∧
            (fun f => Bits.extract_field (r_resval r) (f_bits f)) <$> r_fields r = [13; 3]
  | Err _ => False
  end.
Proof. split; [exact check_disjoint_ok | by vm_compute]. Qed.

(** ** The registers of the simulator *)

Lemma sim_fields_read fs regs :
  ExtRegs.RGReg.init (sim_field <$> fs) = Ok regs →
  ExtRegs.RGReg.read true regs = (Register.collect_reset fs).1.
Proof.
  unfold ExtRegs.RGReg.read, Register.collect_reset. change 0 with (0, 0).1 at 1. generalize (0, 0) as acc.
  revert regs. induction fs as [| f fs IH]; intros regs acc E; cbn [fmap list_fmap] in E; unfold ExtRegs.RGReg.init in E;
    cbn [mapR] in E; [by injection E as <- |].
  apply bind_Ok_inv in E as (g & Eg & E). apply bind_Ok_inv in E as (gs & Egs & E). injection E as <-.
  cbn [foldl]. destruct acc as [v m]. unfold ExtRegs.RGField.init in Eg.
  repeat (apply bind_Ok_inv in Eg as (? & _ & Eg)). injection Eg as <-.
  cbn [ExtRegs.RGField.read ExtRegs.fd_read_zero ExtRegs.fd_value ExtRegs.fd_lsb sim_field ExtRegs.f_resval ExtRegs.f_lsb fst].
  unfold ExtRegs.RGField.read. cbn [negb]. rewrite andb_false_r. cbn. exact (IH gs (_, _) Egs).
Qed.

Lemma ext_init_lookup flat e n fs :
  ExtRegs.OTBNExtRegs.init flat = Ok e → NoDup flat.*1 → (n, fs) ∈ flat →
  ∃ r, ExtRegs.RGReg.init fs = Ok r ∧ ExtRegs.er_regs e !! n = Some r.
Proof.
  intros E Hnd Hin. unfold ExtRegs.OTBNExtRegs.init in E. apply bind_Ok_inv in E as (m & Em & E).
  injection E as <-. cbn [ExtRegs.er_regs].
  enough (H : ∀ n fs, (n, fs) ∈ flat → ∃ r, ExtRegs.RGReg.init fs = Ok r ∧ m !! n = Some r) by (by apply H).
  clear n fs Hin. revert Em. apply (foldM_ind_prefix (fun pre (m : gmap string _) =>
    ∀ n fs, (n, fs) ∈ pre → ∃ r, ExtRegs.RGReg.init fs = Ok r ∧ m !! n = Some r)).
  - by intros n fs ?%elem_of_nil.
  - intros pre [n fs] post acc acc' El IH Es n' fs' Hin. cbn in Es.
    apply bind_Ok_inv in Es as (? & _ & Es). apply bind_Ok_inv in Es as (r & Er & Es). injection Es as <-.
    apply elem_of_app in Hin as [Hin | Hin].
    + destruct (IH n' fs' Hin) as (r' & ? & Hr'). exists r'. split; [done |].
      rewrite lookup_insert_ne; [done |]. intros <-. rewrite El, fmap_app in Hnd.
      apply NoDup_app in Hnd as (_ & Hd & _). apply (Hd n); [by apply (list_elem_of_fmap_2 fst _ (n, fs')) | by left].
    + apply list_elem_of_singleton in Hin. injection Hin as -> ->. exists r. by rewrite lookup_insert_eq.
Qed.

(** The software access types that the simulator knows. *)
Definition supported_access (f : Field) : Prop :=
  sw_key (f_swaccess f) ∈ ["rw1c"; "rw"; "wo"; "r0w1c"; "ro"]%string.

Lemma sim_regs_ok b :
  block_wf b → Forall (fun r => Forall supported_access (r_fields r)) (rb_flat_regs b) →
  ExtRegs.OTBNExtRegs.regs_ok (sim_regs b).
Proof.
  intros Hb Hs. split.
  - unfold sim_regs. rewrite <- list_fmap_compose. apply (NoDup_fmap_1 lower). 
    pose proof (flat_names_nodup b Hb) as H. by rewrite <- list_fmap_compose in H |- *.
  - apply Forall_fmap, Forall_forall. intros r Hin. cbn. apply Forall_fmap, Forall_forall. intros f Hf.
    rewrite Forall_forall in Hs. pose proof (proj1 (Forall_forall _ _) (Hs r Hin) f Hf) as Ha.
    pose proof (proj1 (Forall_forall _ _) (rw_fields _ _ (block_regs_wf b r Hb Hin)) f Hf) as [[? ?] Hv].
    cbn. split_and!; [done | cbn; unfold Bits.width; lia | cbn; lia |]. cbn. destruct (f_resval f); cbn in *; [done |].
    apply in_bits_0. unfold Bits.width. lia.
Qed.

Lemma find_block_elem n l b : find_block n l = Ok b → (n, b) ∈ l.
Proof.
  unfold find_block. destruct (filter _ l) as [| [n' b'] l'] eqn:E; [done |]. intros [= <-].
  assert (Hin : (n', b') ∈ filter (fun kb : option string * RegBlock => kb.1 = n) l) by (rewrite E; by left).
  by apply list_elem_of_filter in Hin as [<- ?].
Qed.

Lemma load_registers_wf raw bw b : ip_desc_ok raw → load_registers raw = Ok (bw, b) → block_wf b.
Proof.
  intros Hok E. unfold load_registers in E. apply bind_Ok_inv in E as (ip & Eip & E).
  apply bind_Ok_inv in E as (? & _ & E). apply bind_Ok_inv in E as (b' & Eb & E). injection E as _ ->.
  pose proof (ip_block_safe [] raw Hok) as H.
  destruct (IpBlock.from_raw [] raw) as [ip' | []]; try done. injection Eip as ->.
  destruct H as (Hb & _). apply find_block_elem in Eb. by apply (proj1 (Forall_forall _ _) Hb) in Eb as [? _].
Qed.

(** C29: the registers of the simulator are those of the block that reggen loads.  For a
    description that [load_registers] accepts, with access types that the simulator knows,
    [OTBNExtRegs] is constructed without a failing assertion, is in the state that its other
    operations expect, and every register reads as the reset value that reggen computed. *)
Theorem ext_regs_reset raw bw b
  (Hok : ip_desc_ok raw) (Hload : load_registers raw = Ok (bw, b))
  (Hacc : Forall (fun r => Forall supported_access (r_fields r)) (rb_flat_regs b)) :
  ∃ e, ExtRegs.OTBNExtRegs.init (sim_regs b) = Ok e ∧ ExtRegs.OTBNExtRegs.wf e ∧
    ExtRegs.OTBNExtRegs.changes e = [] ∧
    ∀ r, r ∈ rb_flat_regs b → ExtRegs.OTBNExtRegs.read (r_name r) true e = Ok (r_resval r).
Proof.
  pose proof (load_registers_wf raw bw b Hok Hload) as Hb. pose proof (sim_regs_ok b Hb Hacc) as Hregs.
  destruct (ExtRegs.OTBNExtRegs.ext_init_ok _ Hregs) as (e & E & Hwf & Ht & _).
  exists e. split_and!; [done | done | done |]. intros r Hr.
  destruct (ext_init_lookup _ e (r_name r) (sim_field <$> r_fields r) E (proj1 Hregs)) as (regs & Ei & El);
    [apply list_elem_of_fmap; by exists r |].
  unfold ExtRegs.OTBNExtRegs.read, ExtRegs.OTBNExtRegs._get_reg. rewrite El. cbn [of_option]. rewrite res_bind_Ok.
  rewrite (sim_fields_read _ _ Ei). pose proof (f_equal fst (rw_reset _ _ (block_regs_wf b r Hb Hr))) as Er.
  by rewrite <- Er.
Qed.

Definition otbn_block : RegBlock :=
  match load_registers otbn_hjson with Ok (_, b) => b | Err _ => RegBlock.init 32 [] end.

#[global] Instance supported_access_dec f : Decision (supported_access f).
Proof. unfold supported_access. apply _. Defined.

Lemma ext_regs_reset_witness :
  ∃ e, ExtRegs.OTBNExtRegs.init (sim_regs otbn_block) = Ok e ∧ ExtRegs.OTBNExtRegs.wf e ∧
    ExtRegs.OTBNExtRegs.changes e = [] ∧
    ∀ r, r ∈ rb_flat_regs otbn_block → ExtRegs.OTBNExtRegs.read (r_name r) true e = Ok (r_resval r).
Proof.
  apply (ext_regs_reset otbn_hjson 4).
  - exact otbn_desc_ok.
  - vm_compute. reflexivity.
  - apply (bool_decide_unpack _). vm_compute. exact I.
Defined.
