(* ===== verification/Scheduler.v ===== *)
(** The job scheduler of dvsim (util/dvsim/Scheduler.py).  A job is a [Deploy] object; objects are
    compared by identity, so a job is a number and its attributes are functions.  The launchers,
    the clock and SIGINT are the environment. *)

From S2P Require Import Prelude PyList Yaml.

Notation item := nat.

(** ** Jobs and environment *)

Record Deploy := mkDeploy {
  target : string;
  sim_cfg : string;
  dependencies : list item;
  needs_all_dependencies_passing : bool;
  weight : Z;
}.

(** [Q]ueued, [D]ispatched, [P]assed, [F]ailed, [K]illed *)
Inductive status := Q | D | P | F | K.

#[global] Instance status_eq_dec : EqDecision status.
Proof. solve_decision. Defined.

(** What the launchers, the timer and the user do: the answer of the [n]-th call of [poll] for a
    job, whether [launch] succeeds, [timer.check_time()] and [stop_now.is_set()] in iteration [n],
    and the order in which a set of configurations is visited. *)
Record env := mkEnv {
  poll : item → nat → status;
  launch : item → bool;
  check_time : nat → bool;
  stop_now : nat → bool;
  set_order : list string → list string;
  max_parallel : Z;
  max_poll : nat;
}.

(** ** State *)

(** The dictionaries that the constructor fills with a key for each target, and that never gain or
    lose a key afterwards, are maps with a default.  [s_polls] counts the calls of [poll] of each
    launcher. *)
Record Scheduler := mkScheduler {
  s_items : list item;
  s_scheduled : dict (dict (list item));
  s_targets : list string;
  s_queued : gmap string (list item);
  s_running : gmap string (list item);
  s_passed : gmap string (gset item);
  s_failed : gmap string (gset item);
  s_killed : gmap string (gset item);
  s_total : gmap string Z;
  s_last_target : Z;
  s_last_item : gmap string Z;
  s_status : gmap item status;
  s_polls : gmap item nat;
}.

Definition queued (t : string) (s : Scheduler) : list item := default [] (s_queued s !! t).
Definition running (t : string) (s : Scheduler) : list item := default [] (s_running s !! t).
Definition passed (t : string) (s : Scheduler) : gset item := default ∅ (s_passed s !! t).
Definition failed (t : string) (s : Scheduler) : gset item := default ∅ (s_failed s !! t).
Definition killed (t : string) (s : Scheduler) : gset item := default ∅ (s_killed s !! t).
Definition total (t : string) (s : Scheduler) : Z := default 0 (s_total s !! t).
Definition last_item (t : string) (s : Scheduler) : Z := default (-1) (s_last_item s !! t).
Definition polls (x : item) (s : Scheduler) : nat := default 0%nat (s_polls s !! x).

Definition set_scheduled (v : dict (dict (list item))) (s : Scheduler) : Scheduler :=
  mkScheduler (s_items s) v (s_targets s) (s_queued s) (s_running s) (s_passed s) (s_failed s)
    (s_killed s) (s_total s) (s_last_target s) (s_last_item s) (s_status s) (s_polls s).
Definition set_queued (t : string) (l : list item) (s : Scheduler) : Scheduler :=
  mkScheduler (s_items s) (s_scheduled s) (s_targets s) (<[t := l]> (s_queued s)) (s_running s)
    (s_passed s) (s_failed s) (s_killed s) (s_total s) (s_last_target s) (s_last_item s)
    (s_status s) (s_polls s).
Definition set_running (t : string) (l : list item) (s : Scheduler) : Scheduler :=
  mkScheduler (s_items s) (s_scheduled s) (s_targets s) (s_queued s) (<[t := l]> (s_running s))
    (s_passed s) (s_failed s) (s_killed s) (s_total s) (s_last_target s) (s_last_item s)
    (s_status s) (s_polls s).
Definition add_passed (t : string) (x : item) (s : Scheduler) : Scheduler :=
  mkScheduler (s_items s) (s_scheduled s) (s_targets s) (s_queued s) (s_running s)
    (<[t := passed t s ∪ {[x]}]> (s_passed s)) (s_failed s) (s_killed s) (s_total s)
    (s_last_target s) (s_last_item s) (s_status s) (s_polls s).
Definition add_failed (t : string) (x : item) (s : Scheduler) : Scheduler :=
  mkScheduler (s_items s) (s_scheduled s) (s_targets s) (s_queued s) (s_running s) (s_passed s)
    (<[t := failed t s ∪ {[x]}]> (s_failed s)) (s_killed s) (s_total s)
    (s_last_target s) (s_last_item s) (s_status s) (s_polls s).
Definition add_killed (t : string) (x : item) (s : Scheduler) : Scheduler :=
  mkScheduler (s_items s) (s_scheduled s) (s_targets s) (s_queued s) (s_running s) (s_passed s)
    (s_failed s) (<[t := killed t s ∪ {[x]}]> (s_killed s)) (s_total s)
    (s_last_target s) (s_last_item s) (s_status s) (s_polls s).
Definition set_last_target (i : Z) (s : Scheduler) : Scheduler :=
  mkScheduler (s_items s) (s_scheduled s) (s_targets s) (s_queued s) (s_running s) (s_passed s)
    (s_failed s) (s_killed s) (s_total s) i (s_last_item s) (s_status s) (s_polls s).
Definition set_last_item (t : string) (i : Z) (s : Scheduler) : Scheduler :=
  mkScheduler (s_items s) (s_scheduled s) (s_targets s) (s_queued s) (s_running s) (s_passed s)
    (s_failed s) (s_killed s) (s_total s) (s_last_target s) (<[t := i]> (s_last_item s))
    (s_status s) (s_polls s).
Definition set_status (x : item) (v : status) (s : Scheduler) : Scheduler :=
  mkScheduler (s_items s) (s_scheduled s) (s_targets s) (s_queued s) (s_running s) (s_passed s)
    (s_failed s) (s_killed s) (s_total s) (s_last_target s) (s_last_item s)
    (<[x := v]> (s_status s)) (s_polls s).
Definition count_poll (x : item) (s : Scheduler) : Scheduler :=
  mkScheduler (s_items s) (s_scheduled s) (s_targets s) (s_queued s) (s_running s) (s_passed s)
    (s_failed s) (s_killed s) (s_total s) (s_last_target s) (s_last_item s) (s_status s)
    (<[x := S (polls x s)]> (s_polls s)).

(** ** Helpers *)

(** [sum_dict_lists(d)] *)
Definition sum_dict_lists (d : dict (list item)) : Z := foldr Z.add 0 ((fun kv => Z.of_nat (length kv.2)) <$> d).
Definition running_count (s : Scheduler) : Z :=
  foldr Z.add 0 ((fun t => Z.of_nat (length (running t s))) <$> s_targets s).

Definition get_next_item {A} (arr : list A) (index : Z) : res (A * Z) :=
  let index := index + 1 in
  match py_nth arr index with
  | Ok x => Ok (x, index)
  | Err _ => x ← of_option IndexError (arr !! 0%nat); Ok (x, 0)
  end.

(** [l.remove(x)]: the first occurrence; [None] if there is none. *)
Fixpoint list_remove (x : item) (l : list item) : option (list item) :=
  match l with
  | [] => None
  | y :: l => if decide (y = x) then Some l else cons y <$> list_remove x l
  end.

(** [del d[k]] *)
Definition ddel {A} (k : string) (d : dict A) : dict A := filter (fun kv => kv.1 ≠ k) d.

(** [round(a / b)]: to the nearest integer, halves to even. *)
Definition round_div (a b : Z) : Z :=
  let q := a / b in
  let r := a `mod` b in
  if 2 * r <? b then q
  else if b <? 2 * r then q + 1
  else if Z.even q then q else q + 1.

Module Scheduler.
Section scheduler.
Context (job : item → Deploy) (e : env).

(** ** Construction *)

Definition add_item (sched : dict (dict (list item))) (x : item) : dict (dict (list item)) :=
  let target_dict := default [] (dget (target (job x)) sched) in
  let cfg_list := default [] (dget (sim_cfg (job x)) target_dict) in
  let cfg_list := if bool_decide (x ∈ cfg_list) then cfg_list else cfg_list ++ [x] in
  dset (target (job x)) (dset (sim_cfg (job x)) cfg_list target_dict) sched.

Definition add_to_scheduled (items : list item) (sched : dict (dict (list item))) : dict (dict (list item)) :=
  foldl add_item sched items.

Definition init (items : list item) : Scheduler :=
  let sched := add_to_scheduled items [] in
  let each {A} (v : A) : gmap string A := list_to_map ((fun t => (t, v)) <$> sched.*1) in
  mkScheduler items sched sched.*1 (each []) (each []) (each ∅) (each ∅) (each ∅)
    (list_to_map ((fun kv => (kv.1, sum_dict_lists kv.2)) <$> sched)) (-1) (each (-1)) ∅ ∅.

(** ** Dependencies *)

Definition _remove_from_scheduled (x : item) (s : Scheduler) : res Scheduler :=
  let t := target (job x) in
  let c := sim_cfg (job x) in
  target_dict ← of_option KeyError (dget t (s_scheduled s));
  match dget c target_dict with
  | None => Ok s
  | Some cfg_list =>
      let cfg_list := default cfg_list (list_remove x cfg_list) in
      let target_dict := match cfg_list with [] => ddel c target_dict | _ => dset c cfg_list target_dict end in
      Ok (set_scheduled (dset t target_dict (s_scheduled s)) s)
  end.

(** The key after [t]. *)
Fixpoint next_key (t : string) (keys : list string) : option string :=
  match keys with
  | [] => None
  | k :: keys => if decide (k = t) then head keys else next_key t keys
  end.

Definition _get_next_target (curr_target : option string) (s : Scheduler) : res (option string) :=
  let keys := (s_scheduled s).*1 in
  match curr_target with
  | None => t ← of_option StopIteration (head keys); Ok (Some t)
  | Some t => py_assert (bool_decide (t ∈ keys));; Ok (next_key t keys)
  end.

Definition finished (v : status) : bool := match v with P | F | K => true | _ => false end.

(** Whether a dependency is one of the jobs to run. *)
Definition known (s : Scheduler) (dep : item) : bool := bool_decide (dep ∈ s_items s).

Definition _ok_to_enqueue (s : Scheduler) (x : item) : bool :=
  forallb (fun dep =>
    negb (known s dep) || match s_status s !! dep with Some v => finished v | None => false end)
    (dependencies (job x)).

(** The loop of [_ok_to_run]: [Some] is an early return. *)
Fixpoint run_deps (s : Scheduler) (needs_all : bool) (deps : list item) : res (option bool) :=
  match deps with
  | [] => Ok None
  | dep :: deps =>
      if negb (known s dep) then run_deps s needs_all deps
      else
        dep_status ← of_option KeyError (s_status s !! dep);
        py_assert (finished dep_status);;
        if needs_all then
          if bool_decide (dep_status = P) then run_deps s needs_all deps else Ok (Some false)
        else
          if bool_decide (dep_status = P) then Ok (Some true) else run_deps s needs_all deps
  end.

Definition _ok_to_run (s : Scheduler) (x : item) : res bool :=
  let needs_all := needs_all_dependencies_passing (job x) in
  r ← run_deps s needs_all (dependencies (job x));
  Ok (default needs_all r).

(** One job of [_scheduled[target][cfg]]. *)
Definition add_successor (s : Scheduler) (x : option item) (successors : list item) (next_item : item) :
    res (list item) :=
  let accept := if _ok_to_enqueue s next_item then successors ++ [next_item] else successors in
  match x with
  | None => Ok accept
  | Some x =>
      py_assert (match dependencies (job next_item) with [] => false | _ => true end);;
      Ok (if bool_decide (x ∈ dependencies (job next_item)) then accept else successors)
  end.

Definition _get_successors (x : option item) (s : Scheduler) : res (list item) :=
  t ← _get_next_target ((fun x => target (job x)) <$> x) s;
  match t with
  | None => Ok []
  | Some t =>
      target_dict ← of_option KeyError (dget t (s_scheduled s));
      let cfgs := match x with None => set_order e target_dict.*1 | Some x => [sim_cfg (job x)] end in
      foldM (fun successors cfg =>
        cfg_list ← of_option KeyError (dget cfg target_dict);
        foldM (add_successor s x) successors cfg_list) [] cfgs
  end.

Definition enqueue (s : Scheduler) (x : item) : res Scheduler :=
  let t := target (job x) in
  py_assert (bool_decide (s_status s !! x = None));;
  py_assert (bool_decide (x ∉ queued t s));;
  let s := set_status x Q s in
  let s := set_queued t (queued t s ++ [x]) s in
  _remove_from_scheduled x s.

Definition _enqueue_successors (x : option item) (s : Scheduler) : res Scheduler :=
  l ← _get_successors x s;
  foldM enqueue s l.

(** [_cancel_item(item, cancel_successors=False)] *)
Definition cancel_one (x : item) (s : Scheduler) : res Scheduler :=
  let t := target (job x) in
  let s := add_killed t x (set_status x K s) in
  match list_remove x (queued t s) with
  | Some l => Ok (set_queued t l s)
  | None => _remove_from_scheduled x s
  end.

(** The loop of [_cancel_successors]: [items] is taken from its end.  Every turn cancels a
    scheduled job, so the number of jobs is enough fuel. *)
Fixpoint cancel_loop (fuel : nat) (items : list item) (s : Scheduler) : res Scheduler :=
  match last items with
  | None => Ok s
  | Some next_item =>
      match fuel with
      | O => Err OutOfFuel
      | S fuel =>
          s ← cancel_one next_item s;
          more ← _get_successors (Some next_item) s;
          cancel_loop fuel (take (pred (length items)) items ++ more) s
      end
  end.

Definition _cancel_successors (x : item) (s : Scheduler) : res Scheduler :=
  items ← _get_successors (Some x) s;
  cancel_loop (length (s_items s)) items s.

Definition _cancel_item (x : item) (s : Scheduler) : res Scheduler :=
  s ← cancel_one x s;
  _cancel_successors x s.

Definition _kill_item (x : item) (s : Scheduler) : res Scheduler :=
  let t := target (job x) in
  let s := add_killed t x (set_status x K s) in
  l ← of_option ValueError (list_remove x (running t s));
  _cancel_successors x (set_running t l s).

(** ** Polling *)

(** The inner loop: poll running jobs of the target while there are any and polls are left. *)
Fixpoint poll_target (t : string) (n : nat) (changed : bool) (s : Scheduler) : res (nat * bool * Scheduler) :=
  match n with
  | O => Ok (O, changed, s)
  | S n' =>
      match running t s with
      | [] => Ok (n, changed, s)
      | l =>
          '(x, i) ← get_next_item l (last_item t s);
          let s := set_last_item t i s in
          let v := poll e x (polls x s) in
          let s := count_poll x s in
          py_assert (negb (bool_decide (v = Q)));;
          if bool_decide (v = D) then poll_target t n' changed s
          else
            let s := match v with P => add_passed t x s | F => add_failed t x s | _ => add_killed t x s end in
            let s := set_running t (delete (Z.to_nat i) l) s in
            let s := set_last_item t (i - 1) s in
            let s := set_status x v s in
            s ← _enqueue_successors (Some x) s;
            poll_target t n' true s
      end
  end.

(** The outer loop over the targets in a circle. *)
Fixpoint poll_loop (fuel n : nat) (changed : bool) (s : Scheduler) : res (bool * Scheduler) :=
  match n with
  | O => Ok (changed, s)
  | S _ =>
      match fuel with
      | O => Err OutOfFuel
      | S fuel =>
          '(t, i) ← get_next_item (s_targets s) (s_last_target s);
          let s := set_last_target i s in
          '(n, changed, s) ← poll_target t n changed s;
          poll_loop fuel n changed s
      end
  end.

(** A turn through all targets polls at least one job. *)
Definition _poll (s : Scheduler) : res (bool * Scheduler) :=
  let n := Nat.min (max_poll e) (Z.to_nat (running_count s)) in
  match n with
  | O => Ok (true, s)
  | _ => poll_loop (n * S (length (s_targets s))) n false s
  end.

(** ** Dispatching *)

(** Take jobs from the queue of the target: cancel those whose dependencies did not pass. *)
Fixpoint take_jobs (fuel : nat) (t : string) (slots : Z) (to_dispatch : list item) (s : Scheduler) :
    res (list item * Scheduler) :=
  match queued t s with
  | [] => Ok (to_dispatch, s)
  | next_item :: rest =>
      if slots <=? 0 then Ok (to_dispatch, s)
      else
        match fuel with
        | O => Err OutOfFuel
        | S fuel =>
            let s := set_queued t rest s in
            ok ← _ok_to_run s next_item;
            if (ok : bool) then take_jobs fuel t (slots - 1) (to_dispatch ++ [next_item]) s
            else
              s ← cancel_one next_item s;
              s ← _enqueue_successors (Some next_item) s;
              take_jobs fuel t slots to_dispatch s
        end
  end.

Definition launch_item (t : string) (s : Scheduler) (x : item) : res Scheduler :=
  let s := set_running t (running t s ++ [x]) s in
  let s := set_status x D s in
  if launch e x then Ok s else _kill_item x s.

(** One target: the sums of the weights and of the slots so far, and the state. *)
Definition dispatch_target (slots total_weight : Z) (st : Z * Z * Scheduler) (t : string) : res (Z * Z * Scheduler) :=
  let '(sum_weight, slots_filled, s) := st in
  match queued t s with
  | [] => Ok st
  | x :: _ =>
      let sum_weight := sum_weight + weight (job x) in
      if total_weight =? 0 then Err ZeroDivisionError
      else
        let target_slots := round_div (slots * sum_weight) total_weight - slots_filled in
        if target_slots <=? 0 then Ok (sum_weight, slots_filled, s)
        else
          let slots_filled := slots_filled + target_slots in
          '(to_dispatch, s) ← take_jobs (length (queued t s)) t target_slots [] s;
          s ← foldM (launch_item t) s to_dispatch;
          Ok (sum_weight, slots_filled, s)
  end.

Definition total_weight (s : Scheduler) : Z :=
  foldr Z.add 0 ((fun t => match queued t s with x :: _ => weight (job x) | [] => 0 end) <$> s_targets s).

Definition _dispatch (s : Scheduler) : res Scheduler :=
  let slots := max_parallel e - running_count s in
  if slots <=? 0 then Ok s
  else
    '(_, _, s) ← foldM (dispatch_target slots (total_weight s)) (0, 0, s) (s_scheduled s).*1;
    Ok s.

(** ** The main loop *)

Definition _kill (s : Scheduler) : res Scheduler :=
  s ← foldM (fun s t => foldM (fun s x => _cancel_item x s) s (queued t s)) s (s_targets s);
  foldM (fun s t => foldM (fun s x => _kill_item x s) s (running t s)) s (s_targets s).

Definition _check_if_done (s : Scheduler) : bool :=
  forallb (fun t =>
    Z.of_nat (size (passed t s)) + Z.of_nat (size (failed t s)) + Z.of_nat (size (killed t s)) =? total t s)
    (s_scheduled s).*1.

(** Iteration [i] of the loop; [true] is the [break]. *)
Definition iteration (i : nat) (s : Scheduler) : res (bool * Scheduler) :=
  s ← (if stop_now e i then _kill s else Ok s);
  '(changed, s) ← _poll s;
  let changed := changed || check_time e i in
  s ← _dispatch s;
  Ok (changed && _check_if_done s, s).

(** [None] when the fuel is used up. *)
Fixpoint loop (fuel i : nat) (s : Scheduler) : res (option (gmap item status) * Scheduler) :=
  match fuel with
  | O => Ok (None, s)
  | S fuel =>
      '(done, s) ← iteration i s;
      if (done : bool) then Ok (Some (s_status s), s) else loop fuel (S i) s
  end.

Definition run (fuel : nat) (s : Scheduler) : res (option (gmap item status) * Scheduler) :=
  s ← _enqueue_successors None s;
  loop fuel 0 s.
End scheduler.
End Scheduler.
