(* ===== verification/SchedInv.v ===== *)
(** The invariant of the job scheduler: the place of every job is given by its status, a job leaves
    [_scheduled] when its dependencies are finished and not later, and a job that has run had the
    dependencies it needs. *)

From S2P Require Import Prelude BitLoops PyList Yaml Scheduler.

Import Scheduler.

Section inv.
Context (job : item → Deploy) (e : env) (items : list item).

Notation tgt x := (target (job x)).
Notation cfg x := (sim_cfg (job x)).
Notation deps x := (dependencies (job x)).
Notation statuses := (gmap item status).

(** The targets, in the order of their first job. *)
Definition targets : list string := (add_to_scheduled job items []).*1.

(** ** Plans *)

(** A plan that the scheduler can work off: the jobs of the first target depend on no job of the
    plan; any other job depends on some job, and only on jobs of the previous target and the same
    configuration; and every job of a target that is not the last one has a job that
    depends on it. *)
Record plan_ok : Prop := {
  po_nodup : NoDup items;
  po_first x d : x ∈ items → head targets = Some (tgt x) → d ∈ deps x → d ∉ items;
  po_some x : x ∈ items → head targets ≠ Some (tgt x) → ∃ d, d ∈ deps x ∧ d ∈ items;
  po_prev x d : x ∈ items → d ∈ deps x → d ∈ items →
    next_key (tgt d) targets = Some (tgt x) ∧ cfg d = cfg x;
  po_succ x t : x ∈ items → next_key (tgt x) targets = Some t →
    ∃ y, y ∈ items ∧ tgt y = t ∧ cfg y = cfg x ∧ x ∈ deps y;
  po_weight x : x ∈ items → 0 < weight (job x);
}.

(** ** Statuses *)

Definition done (st : statuses) (x : item) : Prop := ∃ v, st !! x = Some v ∧ finished v = true.
Definition deps_done (st : statuses) (x : item) : Prop := ∀ d, d ∈ deps x → d ∈ items → done st d.
Definition enabled (st : statuses) (x : item) : Prop := x ∈ items ∧ st !! x = None ∧ deps_done st x.

(** The dependencies that a job needs to run have passed. *)
Definition run_ok (st : statuses) (x : item) : Prop :=
  if needs_all_dependencies_passing (job x) then ∀ d, d ∈ deps x → d ∈ items → st !! d = Some P
  else ∃ d, d ∈ deps x ∧ d ∈ items ∧ st !! d = Some P.

Definition ran (v : status) : bool := match v with D | P | F => true | _ => false end.

(** [E]: the jobs whose dependencies are finished and that are still scheduled. *)
Record st_inv (E : list item) (st : statuses) : Prop := {
  si_dom x v : st !! x = Some v → x ∈ items ∧ deps_done st x;
  si_ran x v : st !! x = Some v → ran v = true → run_ok st x;
  si_nodup : NoDup E;
  si_enabled x : x ∈ E ↔ enabled st x;
}.

#[local] Instance done_dec st x : Decision (done st x).
Proof.
  destruct (st !! x) as [v |] eqn:E; [destruct (finished v) eqn:Ef |].
  - left. by exists v.
  - right. intros (v' & E' & Hf). rewrite E in E'. injection E' as <-. congruence.
  - right. intros (v' & E' & _). congruence.
Defined.

Section update.
Context (x : item) (v : status) (st : statuses) (Hx : ¬ done st x).

Lemma done_insert y : done (<[x := v]> st) y ↔ (y = x ∧ finished v = true) ∨ done st y.
Proof. clear job e items.
  unfold done. destruct (decide (y = x)) as [-> | Hne].
  - rewrite lookup_insert_eq. split; [intros (v' & [= <-] & Hf); by left |].
    intros [[_ Hf] | Hd]; [by exists v | done].
  - rewrite lookup_insert_ne by done. naive_solver.
Qed.

Lemma deps_done_insert y : deps_done st y → deps_done (<[x := v]> st) y.
Proof. intros H d Hd Hi. apply done_insert. right. by apply H. Qed.

Lemma deps_done_insert_inv y :
  deps_done (<[x := v]> st) y → deps_done st y ∨ (finished v = true ∧ x ∈ deps y ∧ x ∈ items).
Proof.
  intros H. destruct (decide (Exists (fun d => d ∈ items ∧ ¬ done st d) (deps y))) as [Hex | Hnex].
  - apply Exists_exists in Hex as (d & Hd & Hi & Hnd). right.
    destruct (proj1 (done_insert d) (H d Hd Hi)) as [[-> ?] | ?]; done.
  - left. intros d Hd Hi. destruct (decide (done st d)) as [| Hnd]; [done |].
    exfalso. apply Hnex, Exists_exists. by exists d.
Qed.

Lemma run_ok_insert y : run_ok st y → run_ok (<[x := v]> st) y.
Proof.
  assert (Hp : ∀ d, st !! d = Some P → <[x := v]> st !! d = Some P).
  { intros d Hd. rewrite lookup_insert_ne; [done |]. intros <-. apply Hx. by exists P. }
  unfold run_ok. destruct (needs_all_dependencies_passing _); naive_solver.
Qed.
End update.

Lemma done_ext st x : finished <$> (st !! x) = Some true → done st x.
Proof. intros (v & E & Hf)%fmap_Some. by exists v. Qed.

(** A job whose dependencies are finished goes to the queue. *)
Lemma st_enqueue E x st : st_inv (x :: E) st → st_inv E (<[x := Q]> st).
Proof.
  intros [Hd Hr Hn He]. destruct (proj1 (He x) ltac:(by left)) as (Hi & Hs & Hdd).
  assert (Hx : ¬ done st x) by (intros (v & E' & _); congruence). apply NoDup_cons in Hn as [Hnx Hn].
  split.
  - intros y v Hy. destruct (decide (y = x)) as [-> | Hne].
    + split; [done |]. by apply deps_done_insert.
    + rewrite lookup_insert_ne in Hy by done. destruct (Hd y v Hy). split; [done |]. by apply deps_done_insert.
  - intros y v Hy Hv. apply run_ok_insert; [done |]. destruct (decide (y = x)) as [-> | Hne].
    + rewrite lookup_insert_eq in Hy. by injection Hy as <-.
    + rewrite lookup_insert_ne in Hy by done. by eapply Hr.
  - done.
  - intros y. split.
    + intros Hy. destruct (proj1 (He y) ltac:(by right)) as (? & ? & ?).
      split; [done |]. split; [| by apply deps_done_insert]. rewrite lookup_insert_ne; [done | by intros ->].
    + intros (? & Hy & Hdy). destruct (decide (y = x)) as [-> | Hne]; [by rewrite lookup_insert_eq in Hy |].
      rewrite lookup_insert_ne in Hy by done.
      destruct (deps_done_insert_inv x Q st Hx y Hdy) as [Hdy' | [? _]]; [| done].
      assert (Hy' : y ∈ x :: E) by by apply He. by apply elem_of_cons in Hy' as [|].
Qed.

(** A queued job is dispatched. *)
Lemma st_dispatch E x st : st_inv E st → st !! x = Some Q → run_ok st x → st_inv E (<[x := D]> st).
Proof.
  intros [Hd Hr Hn He] Hq Hrun. assert (Hx : ¬ done st x) by (intros (v & E' & Hf); by rewrite Hq in E'; injection E' as <-).
  split; [| | done |].
  - intros y v Hy. assert (y ∈ items ∧ deps_done st y) as [? ?].
    { destruct (decide (y = x)) as [-> | Hne]; [by apply (Hd x Q) |].
      rewrite lookup_insert_ne in Hy by done. by apply (Hd y v). }
    split; [done |]. by apply deps_done_insert.
  - intros y v Hy Hv. apply run_ok_insert; [done |]. destruct (decide (y = x)) as [-> | Hne]; [done |].
    rewrite lookup_insert_ne in Hy by done. by eapply Hr.
  - intros y. rewrite He. split; intros (? & Hy & Hdy).
    + split; [done |]. split; [| by apply deps_done_insert]. rewrite lookup_insert_ne; [done | intros ->; congruence].
    + destruct (decide (y = x)) as [-> | Hne]; [by rewrite lookup_insert_eq in Hy |].
      rewrite lookup_insert_ne in Hy by done. split; [done |]. split; [done |].
      by destruct (deps_done_insert_inv x D st Hx y Hdy) as [| [? _]].
Qed.

(** The jobs that finishing [x] lets go. *)
Definition released (st : statuses) (x y : item) : Prop :=
  y ∈ items ∧ st !! y = None ∧ x ∈ deps y ∧ deps_done st y.

(** A job ends. *)
Lemma st_finish E E' l x v st :
  st_inv E st → x ∈ items → deps_done st x → ¬ done st x → finished v = true →
  (v ≠ K → st !! x = Some D) →
  NoDup E' → (∀ y, y ∈ E' ↔ y ∈ E ∧ y ≠ x) →
  NoDup l → (∀ y, y ∈ l ↔ released (<[x := v]> st) x y) →
  st_inv (E' ++ l) (<[x := v]> st).
Proof.
  intros [Hd Hr Hn He] Hi Hdx Hx Hf Hv Hn' He' Hnl Hl.
  assert (Hdisj : ∀ y, y ∈ E' → y ∉ l).
  { intros y Hy Hyl. apply He' in Hy as [(_ & _ & Hdy)%He _]. apply Hl in Hyl as (_ & _ & Hxy & _).
    apply Hx, Hdy; done. }
  split.
  - intros y w Hy. destruct (decide (y = x)) as [-> | Hne].
    + split; [done |]. by apply deps_done_insert.
    + rewrite lookup_insert_ne in Hy by done. destruct (Hd y w Hy). split; [done |]. by apply deps_done_insert.
  - intros y w Hy Hw. apply run_ok_insert; [done |]. destruct (decide (y = x)) as [-> | Hne].
    + rewrite lookup_insert_eq in Hy. injection Hy as ->. apply (Hr x D); [| done]. apply Hv. by intros ->.
    + rewrite lookup_insert_ne in Hy by done. by eapply Hr.
  - apply NoDup_app. split_and!; [done | | done]. intros y Hy Hyl. by apply (Hdisj y).
  - intros y. rewrite elem_of_app, He', Hl. split.
    + intros [[(? & Hy & Hdy)%He Hne] | (? & ? & _ & ?)]; [| done].
      split; [done |]. split; [by rewrite lookup_insert_ne | by apply deps_done_insert].
    + intros (? & Hy & Hdy). destruct (decide (y = x)) as [-> | Hne]; [by rewrite lookup_insert_eq in Hy |].
      destruct (deps_done_insert_inv x v st Hx y Hdy) as [Hdy' | (_ & ? & _)].
      * left. split; [| done]. apply He. rewrite lookup_insert_ne in Hy by done. done.
      * by right.
Qed.

(** ** [_scheduled] *)

Definition slist (sched : dict (dict (list item))) (t c : string) : list item :=
  default [] (dget t sched ≫= dget c).

(** [_scheduled] holds the jobs without a status, by target and configuration, with no empty list. *)
Record sched_rel (st : statuses) (sched : dict (dict (list item))) : Prop := {
  sr_keys : sched.*1 = targets;
  sr_list (t c : string) (x : item) : x ∈ slist sched t c ↔ x ∈ items ∧ tgt x = t ∧ cfg x = c ∧ st !! x = None;
  sr_nodup (t c : string) : NoDup (slist sched t c);
  sr_cfgs (t : string) d : dget t sched = Some d → NoDup d.*1 ∧ ∀ c, dget c d ≠ Some [];
}.

Lemma slist_dset t sched d t' c' :
  slist (dset t d sched) t' c' = if decide (t' = t) then default [] (dget c' d) else slist sched t' c'.
Proof. unfold slist. rewrite dget_dset. by destruct (decide (t' = t)). Qed.

Lemma slist_get sched t d c : dget t sched = Some d → slist sched t c = default [] (dget c d).
Proof. unfold slist. by intros ->. Qed.

Lemma sum_dset c l d :
  sum_dict_lists (dset c l d) = sum_dict_lists d - Z.of_nat (length (default [] (dget c d))) + Z.of_nat (length l).
Proof.
  unfold sum_dict_lists. induction d as [| [k v] d IH]; cbn; [lia |].
  destruct (decide _) as [E |]; cbn [fmap list_fmap foldr snd fst default]; [unfold id; lia |]. rewrite IH. lia.
Qed.

(** The dictionaries built from the jobs [l]. *)
Record built (l : list item) (sched : dict (dict (list item))) : Prop := {
  bu_nodup : NoDup sched.*1;
  bu_keys t : t ∈ sched.*1 ↔ ∃ x, x ∈ l ∧ tgt x = t;
  bu_list (t c : string) (x : item) : x ∈ slist sched t c ↔ x ∈ l ∧ tgt x = t ∧ cfg x = c;
  bu_lnodup (t c : string) : NoDup (slist sched t c);
  bu_cfgs (t : string) d : dget t sched = Some d → NoDup d.*1 ∧ ∀ c, dget c d ≠ Some [];
  bu_total (t : string) d : dget t sched = Some d →
    sum_dict_lists d = Z.of_nat (length (filter (fun x => tgt x = t) l));
}.

Lemma add_item_built l sched x : x ∉ l → built l sched → built (l ++ [x]) (add_item job sched x).
Proof.
  intros Hx [Hn Hk Hl Hln Hc Ht]. unfold add_item.
  set (td := default [] (dget (tgt x) sched)).
  assert (Hcl : default [] (dget (cfg x) td) = slist sched (tgt x) (cfg x)).
  { unfold td, slist. by destruct (dget (tgt x) sched). }
  rewrite Hcl. rewrite bool_decide_eq_false_2 by (rewrite Hl; naive_solver).
  assert (Htd : NoDup td.*1 ∧ ∀ c, dget c td ≠ Some []).
  { unfold td. destruct (dget (tgt x) sched) eqn:E; [by apply (Hc (tgt x)) |]. split; [by apply NoDup_nil_2 | done]. }
  assert (Hsl : ∀ t c, slist (dset (tgt x) (dset (cfg x) (slist sched (tgt x) (cfg x) ++ [x]) td) sched) t c =
    slist sched t c ++ (if decide (t = tgt x ∧ c = cfg x) then [x] else [])).
  { intros t c. rewrite slist_dset. destruct (decide (t = tgt x)) as [-> |].
    - rewrite dget_dset. destruct (decide (c = cfg x)) as [-> |]; [by rewrite decide_True |].
      rewrite decide_False, app_nil_r by naive_solver. unfold td, slist. by destruct (dget (tgt x) sched).
    - rewrite decide_False, app_nil_r by naive_solver. done. }
  split.
  - by apply dset_NoDup.
  - intros t. rewrite dset_keys. setoid_rewrite elem_of_app. setoid_rewrite list_elem_of_singleton.
    destruct (decide _) as [(y & Hy & Hty)%Hk | Hin]; [| rewrite elem_of_app, list_elem_of_singleton]; rewrite Hk; naive_solver.
  - intros t c y. rewrite Hsl, !elem_of_app, Hl, list_elem_of_singleton. case_decide as Hd.
    + rewrite list_elem_of_singleton. destruct Hd as [-> ->]. naive_solver.
    + split; [intros [? | []%elem_of_nil]; naive_solver |]. intros ([? | ->] & ? & ?); [naive_solver |]. exfalso. naive_solver.
  - intros t c. rewrite Hsl. apply NoDup_app. split_and!; [done | |].
    + intros y Hy. case_decide; [| by intros ?%elem_of_nil]. rewrite list_elem_of_singleton. intros ->.
      apply Hl in Hy as [? _]. done.
    + case_decide; [apply NoDup_singleton | apply NoDup_nil_2].
  - intros t d. rewrite dget_dset. case_decide; [| by apply Hc]. intros [= <-]. split; [apply dset_NoDup, Htd |].
    intros c. rewrite dget_dset. case_decide; [| by apply Htd]. by destruct (slist _ _ _).
  - intros t d. rewrite dget_dset, filter_app, length_app. case_decide as Hd.
    + intros [= <-]. subst t. rewrite sum_dset, Hcl, length_app. rewrite filter_cons_True by done.
      assert (sum_dict_lists td = Z.of_nat (length (filter (fun y => tgt y = tgt x) l))) as ->.
      { unfold td. destruct (dget (tgt x) sched) eqn:E; [by apply Ht |]. cbn.
        destruct (filter (fun y => tgt y = tgt x) l) as [| y f] eqn:Ef; [done |].
        assert (Hy : y ∈ filter (fun y => tgt y = tgt x) l) by (rewrite Ef; by left).
        apply list_elem_of_filter in Hy as [Hty Hy]. apply dget_None in E. exfalso. apply E, Hk. by exists y. }
      cbn. lia.
    + intros Hg. rewrite (Ht t d Hg). rewrite filter_cons_False by naive_solver. cbn. lia.
Qed.

Lemma built_ok l : NoDup l → built l (add_to_scheduled job l []).
Proof.
  unfold add_to_scheduled. induction l as [| x l IH] using rev_ind; intros Hn.
  - split; [apply NoDup_nil_2 | | | intros; apply NoDup_nil_2 | done | done].
    + intros t. setoid_rewrite elem_of_nil. naive_solver.
    + intros t c y. unfold slist. cbn. rewrite !elem_of_nil. naive_solver.
  - rewrite foldl_app. cbn. apply NoDup_app in Hn as (Hn & Hx & _). apply add_item_built; [| by apply IH].
    intros Hi. apply (Hx x Hi). by left.
Qed.

Section plan.
Context (Hplan : plan_ok).

Lemma targets_nodup : NoDup targets.
Proof. apply (bu_nodup items), built_ok, Hplan. Qed.

Lemma targets_elem x : x ∈ items → tgt x ∈ targets.
Proof. intros Hx. apply (bu_keys _ _ (built_ok items (po_nodup Hplan))). by exists x. Qed.

Lemma init_sched_rel : sched_rel ∅ (add_to_scheduled job items []).
Proof.
  destruct (built_ok items (po_nodup Hplan)) as [Hn Hk Hl Hln Hc Ht]. split; [done | | done | done].
  intros t c x. rewrite Hl, lookup_empty. naive_solver.
Qed.

(** *** Successive targets *)

Lemma next_key_lookup t t' keys : NoDup keys →
  next_key t keys = Some t' ↔ ∃ i, keys !! i = Some t ∧ keys !! S i = Some t'.
Proof.
  induction keys as [| k keys IH]; intros Hn; cbn [next_key]; [split; [done | by intros (i & ? & _)] |].
  apply NoDup_cons in Hn as [Hk Hn]. destruct (decide (k = t)) as [-> | Hne].
  - rewrite head_lookup. split; [intros H; by exists 0%nat |]. intros (i & Hi & Hi'). destruct i as [| i]; [done |].
    exfalso. apply Hk. apply list_elem_of_lookup. by exists i.
  - rewrite IH by done. split; [intros (i & Hi & Hi'); by exists (S i) |].
    intros (i & Hi & Hi'). destruct i as [| i]; [cbn in Hi; congruence |]. by exists i.
Qed.

Lemma next_target t t' : next_key t targets = Some t' → t' ∈ targets ∧ t' ≠ t ∧ head targets ≠ Some t'.
Proof.
  intros (i & Hi & Hi')%(next_key_lookup _ _ _ targets_nodup). split_and!.
  - apply list_elem_of_lookup. by exists (S i).
  - intros ->. pose proof (NoDup_lookup targets i (S i) t targets_nodup Hi Hi'). lia.
  - rewrite head_lookup. intros H0. pose proof (NoDup_lookup targets 0 (S i) t' targets_nodup H0 Hi'). lia.
Qed.

Lemma dep_irrefl x d : x ∈ items → d ∈ items → d ∈ deps x → tgt x ≠ tgt d ∧ x ≠ d.
Proof.
  intros Hx Hd Hdx. destruct (po_prev Hplan x d Hx Hdx Hd) as [(_ & Hne & _)%next_target _].
  split; [done | by intros ->].
Qed.

(** *** Jobs leave [_scheduled] *)

Lemma sched_get st sched t : sched_rel st sched → t ∈ targets → ∃ d, dget t sched = Some d.
Proof.
  intros Hr Ht. destruct (dget t sched) as [d |] eqn:E; [by exists d |].
  apply dget_None in E. by rewrite (sr_keys _ _ Hr) in E.
Qed.

Lemma list_remove_Some x l : x ∈ l → ∃ l1 l2, l = l1 ++ x :: l2 ∧ x ∉ l1 ∧ list_remove x l = Some (l1 ++ l2).
Proof.
  induction l as [| y l IH]; intros Hx; [by apply elem_of_nil in Hx |]. cbn.
  destruct (decide (y = x)) as [-> | Hne]; [exists [], l; split_and!; [done | apply not_elem_of_nil | done] |].
  apply elem_of_cons in Hx as [-> | Hx]; [done |]. destruct (IH Hx) as (l1 & l2 & -> & Hn & ->).
  exists (y :: l1), l2. split_and!; [done | | done]. rewrite elem_of_cons. naive_solver.
Qed.

Lemma list_remove_None x l : x ∉ l → list_remove x l = None.
Proof.
  induction l as [| y l IH]; intros Hx; [done |]. apply not_elem_of_cons in Hx as [? Hx].
  cbn. by rewrite decide_False, (IH Hx) by done.
Qed.

Lemma list_remove_nodup x l : NoDup l → x ∈ l →
  ∃ l', list_remove x l = Some l' ∧ NoDup l' ∧ ∀ y, y ∈ l' ↔ y ∈ l ∧ y ≠ x.
Proof.
  intros Hn Hx. destruct (list_remove_Some x l Hx) as (l1 & l2 & -> & Hn1 & ->). exists (l1 ++ l2). split; [done |].
  assert (Hp : l1 ++ x :: l2 ≡ₚ x :: l1 ++ l2) by by rewrite Permutation_middle.
  rewrite Hp in Hn. apply NoDup_cons in Hn as [Hnx Hn]. split; [done |].
  intros y. rewrite Hp, elem_of_cons. naive_solver.
Qed.

Lemma dget_ddel {A} k k' (d : dict A) : dget k' (ddel k d) = if decide (k' = k) then None else dget k' d.
Proof.
  unfold ddel. induction d as [| [j v] d IH]; [by destruct (decide _) |]. cbn [filter list_filter fst dget].
  destruct (decide (j ≠ k)) as [Hj | Hj].
  - cbn [dget]. destruct (decide (k' = j)) as [-> |]; [by rewrite decide_False | exact IH].
  - etransitivity; [exact IH |]. apply dec_stable in Hj as ->. by destruct (decide (k' = k)).
Qed.

Lemma ddel_NoDup {A} k (d : dict A) : NoDup d.*1 → NoDup (ddel k d).*1.
Proof.
  unfold ddel. induction d as [| [j v] d IH]; intros Hn; [done |]. cbn in Hn. apply NoDup_cons in Hn as [Hj Hn].
  cbn [filter list_filter fst]. case_decide; [| by apply IH]. cbn. apply NoDup_cons. split; [| by apply IH].
  intros (v' & -> & Hv)%list_elem_of_fmap. apply list_elem_of_filter in Hv as [_ Hv].
  apply Hj, list_elem_of_fmap. by exists v'.
Qed.

Lemma set_scheduled_id s : set_scheduled (s_scheduled s) s = s.
Proof. by destruct s. Qed.

Lemma sched_rel_ext st st' sched :
  sched_rel st sched → (∀ x, st !! x = None ↔ st' !! x = None) → sched_rel st' sched.
Proof. intros [Hk Hl Hn Hc] H. split; [done | | done | done]. intros t c x. rewrite Hl. naive_solver. Qed.

Lemma insert_None (st : statuses) x v y : <[x := v]> st !! y = None ↔ st !! y = None ∧ y ≠ x.
Proof.
  destruct (decide (y = x)) as [-> | Hne]; [rewrite lookup_insert_eq; naive_solver |].
  rewrite lookup_insert_ne by done. naive_solver.
Qed.

(** The list of the job's target and configuration is replaced by one without the job. *)
Lemma sched_rel_replace st sched x v d l l' :
  sched_rel st sched → dget (tgt x) sched = Some d → dget (cfg x) d = Some l →
  NoDup l' → (∀ y, y ∈ l' ↔ y ∈ l ∧ y ≠ x) →
  sched_rel (<[x := v]> st)
    (dset (tgt x) (match l' with [] => ddel (cfg x) d | _ => dset (cfg x) l' d end) sched).
Proof.
  intros [Hk Hl Hn Hc] Hd Hg Hn' Hl'. destruct (Hc _ _ Hd) as [Hcn Hce].
  set (d' := match l' with [] => ddel (cfg x) d | _ => dset (cfg x) l' d end).
  assert (Hd' : ∀ c, default [] (dget c d') = if decide (c = cfg x) then l' else default [] (dget c d)).
  { intros c. unfold d'. destruct l'; rewrite ?dget_ddel, ?dget_dset; by destruct (decide (c = cfg x)). }
  assert (Hs : ∀ t c, slist (dset (tgt x) d' sched) t c = if decide (t = tgt x ∧ c = cfg x) then l' else slist sched t c).
  { intros t c. rewrite slist_dset. destruct (decide (t = tgt x)) as [-> |].
    - rewrite Hd', (slist_get sched _ d) by done. destruct (decide (c = cfg x)) as [-> |]; [by rewrite decide_True |].
      by rewrite decide_False by naive_solver.
    - by rewrite decide_False by naive_solver. }
  assert (Hlx : slist sched (tgt x) (cfg x) = l) by by rewrite (slist_get sched _ d), Hg by done.
  split.
  - rewrite dset_keys, decide_True; [done |]. by apply dget_Some_elem, (list_elem_of_fmap_2 fst) in Hd.
  - intros t c y. rewrite Hs, insert_None. case_decide as Hcase.
    + destruct Hcase as [-> ->]. rewrite Hl', <- Hlx, Hl. naive_solver.
    + rewrite Hl. naive_solver.
  - intros t c. rewrite Hs. by case_decide.
  - intros t dd. rewrite dget_dset. case_decide as Ht; [| by apply Hc]. intros [= <-]. unfold d'. destruct l' as [| y l'].
    + split; [by apply ddel_NoDup |]. intros c. rewrite dget_ddel. case_decide; [done | apply Hce].
    + split; [by apply dset_NoDup |]. intros c. rewrite dget_dset. case_decide; [done | apply Hce].
Qed.

Lemma remove_ok x v s st : sched_rel st (s_scheduled s) → x ∈ items →
  ∃ sched', _remove_from_scheduled job x s = Ok (set_scheduled sched' s) ∧ sched_rel (<[x := v]> st) sched'.
Proof.
  intros Hr Hx. destruct (sched_get st _ (tgt x) Hr (targets_elem x Hx)) as [d Hd].
  unfold _remove_from_scheduled. rewrite Hd. cbn [of_option mbind res_bind].
  destruct (dget (cfg x) d) as [l |] eqn:Hg.
  - assert (Hlx : slist (s_scheduled s) (tgt x) (cfg x) = l) by by rewrite (slist_get _ _ d), Hg by done.
    assert (Hnl : NoDup l) by (rewrite <- Hlx; apply Hr). eexists. split; [done |].
    apply (sched_rel_replace st _ x v d l); [done | done | done | |]; destruct (decide (x ∈ l)) as [Hin | Hin].
    + destruct (list_remove_nodup x l Hnl Hin) as (l' & -> & ? & _). done.
    + by rewrite (list_remove_None x l Hin).
    + destruct (list_remove_nodup x l Hnl Hin) as (l' & -> & _ & ?). done.
    + rewrite (list_remove_None x l Hin). cbn. intros y. split; [| naive_solver]. intros Hy. split; [done |]. by intros ->.
  - exists (s_scheduled s). rewrite set_scheduled_id. split; [done |]. apply (sched_rel_ext st); [done |].
    intros y. rewrite insert_None. split; [| naive_solver]. intros Hy. split; [done |]. intros ->.
    assert (Hin : x ∈ slist (s_scheduled s) (tgt x) (cfg x)) by by apply (sr_list _ _ Hr).
    rewrite (slist_get _ _ d), Hg in Hin by done. by apply elem_of_nil in Hin.
Qed.

(** *** Successors *)

Lemma ok_to_enqueue_iff s x : s_items s = items → _ok_to_enqueue job s x = true ↔ deps_done (s_status s) x.
Proof.
  intros Hi. unfold _ok_to_enqueue, deps_done, known. rewrite forallb_forall, Hi. split.
  - intros H d Hd Hin. specialize (H d). rewrite bool_decide_eq_true_2 in H by done. cbn in H.
    apply list_elem_of_In in Hd. specialize (H Hd). destruct (s_status s !! d) as [v |] eqn:E; [by exists v | done].
  - intros H d Hd%list_elem_of_In. destruct (bool_decide_reflect (d ∈ items)) as [Hin |]; [| done].
    destruct (H d Hd Hin) as (v & -> & Hf). by rewrite Hf.
Qed.

Definition succ_of (s : Scheduler) (x : option item) (y : item) : bool :=
  match x with Some x => bool_decide (x ∈ deps y) | None => true end && _ok_to_enqueue job s y.

Lemma add_successors s x acc l :
  (∀ z y, x = Some z → y ∈ l → deps y ≠ []) →
  foldM (add_successor job s x) acc l = Ok (acc ++ filter (fun y => succ_of s x y) l).
Proof.
  revert acc. induction l as [| y l IH]; intros acc Hd; cbn [foldM]; [by rewrite app_nil_r |].
  assert (Hy : ∀ z, x = Some z → deps y ≠ []) by (intros z ?; apply (Hd z); [done | by left]).
  assert (add_successor job s x acc y = Ok (acc ++ filter (fun y => succ_of s x y) [y])) as ->.
  { unfold add_successor, succ_of. destruct x as [x |].
    - assert (py_assert match deps y with [] => false | _ => true end = Ok tt) as ->.
      { specialize (Hy x eq_refl). by destruct (deps y). }
      cbn [mbind res_bind]. rewrite filter_cons. case_bool_decide; cbn [andb]; [| by rewrite app_nil_r].
      destruct (_ok_to_enqueue job s y); cbn; by rewrite ?app_nil_r.
    - rewrite filter_cons. cbn [andb]. destruct (_ok_to_enqueue job s y); cbn; by rewrite ?app_nil_r. }
  cbn [mbind res_bind]. rewrite IH by (intros z w ? ?; apply (Hd z); [done | by right]).
  rewrite <- app_assoc. f_equal. f_equal. rewrite !filter_cons. by case_decide.
Qed.

Lemma filter_ok {A} (f : A → bool) (l : list A) y : y ∈ filter (fun y => f y) l ↔ f y = true ∧ y ∈ l.
Proof. rewrite list_elem_of_filter. by rewrite Is_true_true. Qed.

Lemma get_successors_ok x s :
  s_items s = items → sched_rel (s_status s) (s_scheduled s) → x ∈ items →
  (∀ y, y ∈ items → x ∈ deps y → s_status s !! y = None) →
  ∃ l, _get_successors job e (Some x) s = Ok l ∧ NoDup l ∧ ∀ y, y ∈ l ↔ released (s_status s) x y.
Proof.
  intros Hi Hr Hx Hnone. unfold _get_successors, _get_next_target. cbn [fmap option_fmap option_map].
  rewrite (sr_keys _ _ Hr), bool_decide_eq_true_2 by by apply targets_elem. cbn [py_assert mbind res_bind].
  destruct (next_key (tgt x) targets) as [t |] eqn:Ht.
  - destruct (next_target _ _ Ht) as (Htt & _ & Hh). destruct (sched_get _ _ t Hr Htt) as [d Hd].
    rewrite Hd. cbn [of_option mbind res_bind foldM].
    destruct (po_succ Hplan x t Hx Ht) as (y & Hy & Hty & Hcy & Hxy).
    assert (Hin : y ∈ slist (s_scheduled s) t (cfg x)) by (apply (sr_list _ _ Hr); auto).
    rewrite (slist_get _ _ d) in Hin by done. destruct (dget (cfg x) d) as [l |] eqn:Hg; [| by apply elem_of_nil in Hin].
    assert (Hl : slist (s_scheduled s) t (cfg x) = l) by by rewrite (slist_get _ _ d), Hg by done.
    cbn [of_option mbind res_bind]. rewrite add_successors.
    2: { intros _ z _ Hz Hnil. rewrite <- Hl in Hz. apply (sr_list _ _ Hr) in Hz as (Hz & Htz & _).
         destruct (po_some Hplan z Hz) as (dd & Hdd & _); [by rewrite Htz |]. rewrite Hnil in Hdd. by apply elem_of_nil in Hdd. }
    eexists. split; [done |]. cbn [app]. split; [apply NoDup_filter; rewrite <- Hl; apply Hr |].
    intros z. rewrite filter_ok, <- Hl, (sr_list _ _ Hr). unfold succ_of, released.
    rewrite andb_true_iff, bool_decide_eq_true, (ok_to_enqueue_iff s z Hi). split; [naive_solver |].
    intros (Hz & Hs & Hxz & Hdz). destruct (po_prev Hplan z x Hz Hxz Hx) as [Htz Hcz]. naive_solver.
  - exists []. split; [done |]. split; [apply NoDup_nil_2 |]. intros y. rewrite elem_of_nil. split; [done |].
    intros (Hy & _ & Hxy & _). destruct (po_prev Hplan y x Hy Hxy Hx) as [? _]. congruence.
Qed.
End plan.
End inv.
