(* ===== verification/SchedOps.v ===== *)
(** The operations of the job scheduler: under a plan it can work off, each of them returns and
    keeps the invariant, and no job moves backwards. *)

From S2P Require Import Prelude BitLoops PyList Yaml Scheduler SchedInv.

Import Scheduler.

Section ops.
Context (job : item → Deploy) (e : env) (items : list item) (bound : item → nat).

Notation tgt x := (target (job x)).
Notation cfg x := (sim_cfg (job x)).
Notation deps x := (dependencies (job x)).
Notation targets := (targets job items).
Notation st_inv := (st_inv job items).
Notation deps_done := (deps_done job items).
Notation sched_rel := (sched_rel job items).
Notation run_ok := (run_ok job items).

(** ** The invariant *)

(** Membership in [_queued], [_running], [_passed], [_failed] or [_killed] of a target. *)
Definition at_place (s : Scheduler) (v : status) (t : string) (x : item) : Prop :=
  match v with
  | Q => x ∈ queued t s
  | D => x ∈ running t s
  | P => x ∈ passed t s
  | F => x ∈ failed t s
  | K => x ∈ killed t s
  end.

(** The fields that no operation changes, and the bounds of the indices. *)
Record frame (s : Scheduler) : Prop := {
  fr_items : s_items s = items;
  fr_targets : s_targets s = targets;
  fr_total t : t ∈ targets → total t s = Z.of_nat (length (filter (fun x => tgt x = t) items));
  fr_item t : -1 ≤ last_item t s;
  fr_target : -1 ≤ s_last_target s < Z.of_nat (length targets);
}.

(** [Fl]: the jobs that [_dispatch] took from their queue and did not launch yet. *)
Record body (Fl : list item) (s : Scheduler) : Prop := {
  bd_frame : frame s;
  bd_sched : sched_rel (s_status s) (s_scheduled s);
  bd_place v t x : at_place s v t x ↔ tgt x = t ∧ s_status s !! x = Some v ∧ (v = Q → x ∉ Fl);
  bd_queued t : NoDup (queued t s);
  bd_running t : NoDup (running t s);
  bd_flight x : x ∈ Fl → s_status s !! x = Some Q;
  bd_fnodup : NoDup Fl;
  bd_polls x n : (n < polls x s)%nat → ¬ SchedInv.done (s_status s) x → poll e x n = D;
}.

Definition inv (Fl E : list item) (s : Scheduler) : Prop := body Fl s ∧ st_inv E (s_status s).

(** ** Progress *)

(** What is left to do for a job whose launcher reports an end by call [bound x] of [poll]. *)
Definition rank (x : item) (s : Scheduler) : nat :=
  match s_status s !! x with
  | None | Some Q => S (S (bound x))
  | Some D => S (bound x) - polls x s
  | Some _ => 0
  end.

Record adv (s s' : Scheduler) : Prop := {
  ad_rank x : (rank x s' ≤ rank x s)%nat;
  ad_passed x : s_status s !! x = Some P → s_status s' !! x = Some P;
}.

#[global] Instance adv_preorder : PreOrder adv.
Proof.
  split; [by split |]. intros s1 s2 s3 [Hr Hp] [Hr' Hp']. split; [| auto].
  intros x. etransitivity; [apply Hr' | apply Hr].
Qed.

Lemma run_ok_adv s s' x : adv s s' → run_ok (s_status s) x → run_ok (s_status s') x.
Proof. intros [_ Hp]. unfold SchedInv.run_ok. destruct (needs_all_dependencies_passing _); naive_solver. Qed.

(** ** One job moves *)

(** [x] goes to the place of [v], the others stay. *)
Definition moved (x : item) (v : status) (s s' : Scheduler) : Prop :=
  ∀ w t y, at_place s' w t y ↔ (y = x ∧ w = v ∧ t = tgt x) ∨ (y ≠ x ∧ at_place s w t y).

Lemma body_move Fl Fl' x v s s' :
  body Fl s → frame s' → s_status s' = <[x := v]> (s_status s) →
  sched_rel (s_status s') (s_scheduled s') → moved x v s s' →
  (∀ t, NoDup (queued t s') ∧ NoDup (running t s')) →
  ¬ SchedInv.done (s_status s) x → NoDup Fl' → (∀ y, y ∈ Fl' ↔ y ∈ Fl ∧ y ≠ x) →
  (∀ y, polls y s' = polls y s ∨ (y = x ∧ finished v = true)) →
  body Fl' s'.
Proof.
  intros Hb Hf Hst Hr Hm Hn Hx Hn' Hfl Hp. split; [done | done | | apply Hn | apply Hn | | done |].
  - intros w t y. rewrite (Hm w t y), Hst. destruct (decide (y = x)) as [-> | Hne].
    + rewrite lookup_insert_eq. split; [| naive_solver]. intros [(_ & -> & ->) | [? _]]; [| by destruct H].
      split; [done |]. split; [done |]. intros _ []%Hfl. done.
    + rewrite lookup_insert_ne by done. rewrite (bd_place Fl s Hb w t y), Hfl. naive_solver.
  - intros y [Hy Hne]%Hfl. rewrite Hst, lookup_insert_ne by done. by apply (bd_flight Fl s Hb).
  - intros y n Hlt Hnd. rewrite Hst in Hnd. destruct (Hp y) as [Hpy | [-> Hfin]].
    + apply (bd_polls Fl s Hb y n); [by rewrite <- Hpy |]. intros Hd. apply Hnd, (done_insert x v _ Hx). by right.
    + exfalso. apply Hnd, (done_insert x v _ Hx). by left.
Qed.

Lemma adv_move x v s s' :
  s_status s' = <[x := v]> (s_status s) → ¬ SchedInv.done (s_status s) x →
  (v = Q → s_status s !! x = None) → (v = D → s_status s !! x = Some Q) →
  (∀ y, polls y s' = polls y s ∨ (y = x ∧ finished v = true)) →
  adv s s'.
Proof.
  intros Hst Hx HQ HD Hp. split.
  - intros y. unfold rank. rewrite Hst. destruct (decide (y = x)) as [-> | Hne].
    + rewrite lookup_insert_eq. destruct v; try lia; [by rewrite HQ | rewrite HD by done; lia].
    + rewrite lookup_insert_ne by done. destruct (Hp y) as [-> | [? _]]; done.
  - intros y Hy. rewrite Hst, lookup_insert_ne; [done |]. intros <-. apply Hx. by exists P.
Qed.

(** ** Fields of an updated state *)

Lemma queued_set t l s t' : queued t' (set_queued t l s) = if decide (t' = t) then l else queued t' s.
Proof. clear job e items bound. unfold queued. cbn. destruct (decide (t' = t)) as [-> |]; [by rewrite lookup_insert_eq | by rewrite lookup_insert_ne]. Qed.

Lemma running_set t l s t' : running t' (set_running t l s) = if decide (t' = t) then l else running t' s.
Proof. clear job e items bound. unfold running. cbn. destruct (decide (t' = t)) as [-> |]; [by rewrite lookup_insert_eq | by rewrite lookup_insert_ne]. Qed.

Lemma add_place (m : gmap string (gset item)) t (u : gset item) t' x y : u = default ∅ (m !! t) →
  y ∈ default ∅ (<[t := u ∪ {[x]}]> m !! t') ↔ (y = x ∧ t' = t) ∨ y ∈ default ∅ (m !! t').
Proof. clear job e items bound.
  intros ->. destruct (decide (t' = t)) as [-> |]; [rewrite lookup_insert_eq; cbn; set_solver |].
  rewrite lookup_insert_ne by done. set_solver.
Qed.

Lemma passed_add t x s t' y : y ∈ passed t' (add_passed t x s) ↔ (y = x ∧ t' = t) ∨ y ∈ passed t' s.
Proof. clear job e items bound. by apply add_place. Qed.
Lemma failed_add t x s t' y : y ∈ failed t' (add_failed t x s) ↔ (y = x ∧ t' = t) ∨ y ∈ failed t' s.
Proof. clear job e items bound. by apply add_place. Qed.
Lemma killed_add t x s t' y : y ∈ killed t' (add_killed t x s) ↔ (y = x ∧ t' = t) ∨ y ∈ killed t' s.
Proof. clear job e items bound. by apply add_place. Qed.

Lemma at_queued t l s w t' y :
  at_place (set_queued t l s) w t' y ↔ if decide (w = Q ∧ t' = t) then y ∈ l else at_place s w t' y.
Proof. clear job e items bound.
  destruct w; cbn [at_place]; try by rewrite decide_False by naive_solver.
  rewrite queued_set. destruct (decide (t' = t)); [by rewrite decide_True | by rewrite decide_False by naive_solver].
Qed.

Lemma at_running t l s w t' y :
  at_place (set_running t l s) w t' y ↔ if decide (w = D ∧ t' = t) then y ∈ l else at_place s w t' y.
Proof. clear job e items bound.
  destruct w; cbn [at_place]; try by rewrite decide_False by naive_solver.
  rewrite running_set. destruct (decide (t' = t)); [by rewrite decide_True | by rewrite decide_False by naive_solver].
Qed.

(** The set that [_poll] adds a finished job to. *)
Definition add_ended (v : status) (t : string) (x : item) (s : Scheduler) : Scheduler :=
  match v with P => add_passed t x s | F => add_failed t x s | _ => add_killed t x s end.

Lemma at_ended v t x s w t' y : finished v = true →
  at_place (add_ended v t x s) w t' y ↔ (w = v ∧ t' = t ∧ y = x) ∨ at_place s w t' y.
Proof. clear job e items bound.
  intros Hv. destruct v; try done; destruct w; cbn [at_place add_ended];
    rewrite ?passed_add, ?failed_add, ?killed_add; naive_solver.
Qed.

(** A change of the other fields moves no job. *)
Lemma at_status x v s w t y : at_place (set_status x v s) w t y ↔ at_place s w t y.
Proof. by destruct w. Qed.
Lemma at_scheduled a s w t y : at_place (set_scheduled a s) w t y ↔ at_place s w t y.
Proof. by destruct w. Qed.
Lemma at_last_item t' i s w t y : at_place (set_last_item t' i s) w t y ↔ at_place s w t y.
Proof. by destruct w. Qed.
Lemma at_last_target i s w t y : at_place (set_last_target i s) w t y ↔ at_place s w t y.
Proof. by destruct w. Qed.
Lemma at_count x s w t y : at_place (count_poll x s) w t y ↔ at_place s w t y.
Proof. by destruct w. Qed.

Lemma frame_ext s s' :
  frame s → s_items s' = s_items s → s_targets s' = s_targets s → s_total s' = s_total s →
  s_last_item s' = s_last_item s → s_last_target s' = s_last_target s → frame s'.
Proof.
  intros [Hi Ht Hto Hit Hta] Ei Et Eto Eit Eta.
  split; [by rewrite Ei | by rewrite Et | | | by rewrite Eta].
  - intros t. unfold total. rewrite Eto. apply Hto.
  - intros t. unfold last_item. rewrite Eit. apply Hit.
Qed.

Ltac same_frame H := refine (frame_ext _ _ H _ _ _ _ _); reflexivity.

(** A job has one place, the place of its status. *)
Lemma place_only Fl s x w t : body Fl s → at_place s w t x → tgt x = t ∧ s_status s !! x = Some w.
Proof. intros Hb Hat. apply (bd_place Fl s Hb) in Hat. naive_solver. Qed.

Lemma not_done_None st x : st !! x = None → ¬ SchedInv.done st x.
Proof. intros H (v & E & _). congruence. Qed.

Lemma not_done_Some st x v : st !! x = Some v → finished v = false → ¬ SchedInv.done st x.
Proof. intros H Hf (w & E & Hw). congruence. Qed.

Section plan.
Context (Hplan : plan_ok job items).

(** *** [_enqueue_successors] *)

Lemma enqueue_ok Fl x E s : inv Fl (x :: E) s →
  ∃ s', enqueue job s x = Ok s' ∧ inv Fl E s' ∧ adv s s' ∧ s_running s' = s_running s ∧
        (∀ t, t ≠ tgt x → queued t s' = queued t s) ∧ s_last_target s' = s_last_target s.
Proof.
  intros [Hb Hs]. destruct (proj1 (si_enabled _ _ _ _ Hs x) ltac:(by left)) as (Hi & Hx & Hd).
  assert (Hno : ∀ w t, ¬ at_place s w t x) by (intros w t [_ ?]%(place_only Fl); [congruence | done]).
  unfold enqueue. rewrite (bool_decide_eq_true_2 (s_status s !! x = None)) by done. cbn [py_assert mbind res_bind].
  rewrite (bool_decide_eq_true_2 (x ∉ queued (tgt x) s)) by apply (Hno Q). cbn [py_assert mbind res_bind].
  destruct (remove_ok job items Hplan x Q (set_queued (tgt x) (queued (tgt x) s ++ [x]) (set_status x Q s)) (s_status s))
    as (sched' & Hrem & Hrel); [apply (bd_sched Fl s Hb) | done |].
  change (queued (tgt x) (set_status x Q s)) with (queued (tgt x) s). rewrite Hrem. eexists. split; [done |].
  split; [split |]; [| by apply st_enqueue |].
  - apply (body_move Fl Fl x Q s).
    + done.
    + same_frame (bd_frame Fl s Hb).
    + done.
    + exact Hrel.
    + intros w t y. rewrite at_scheduled, at_queued. case_decide as Hc.
      * destruct Hc as [-> ->]. rewrite elem_of_app, list_elem_of_singleton. specialize (Hno Q (tgt x)). cbn in *. naive_solver.
      * rewrite at_status. naive_solver.
    + intros t. change (queued t (set_scheduled _ _)) with (queued t (set_queued (tgt x) (queued (tgt x) s ++ [x]) s)).
      split; [| apply (bd_running Fl s Hb)]. rewrite queued_set. case_decide; [| apply (bd_queued Fl s Hb)].
      apply NoDup_app. split_and!; [apply (bd_queued Fl s Hb) | | apply NoDup_singleton].
      intros y Hy. rewrite list_elem_of_singleton. intros ->. by apply (Hno Q (tgt x)).
    + by apply not_done_None.
    + apply (bd_fnodup Fl s Hb).
    + intros y. split; [| naive_solver]. intros Hy. split; [done |]. intros ->. apply (bd_flight Fl s Hb) in Hy. congruence.
    + by left.
  - split; [| split; [done | split; [| done]]].
    + apply (adv_move x Q); [done | by apply not_done_None | done | done | by left].
    + intros t Ht. change (queued t (set_scheduled _ _)) with (queued t (set_queued (tgt x) (queued (tgt x) s ++ [x]) s)).
      by rewrite queued_set, decide_False.
Qed.

Lemma enqueue_all_ok Fl E s : inv Fl E s →
  ∃ s', foldM (enqueue job) s E = Ok s' ∧ inv Fl [] s' ∧ adv s s' ∧ s_running s' = s_running s ∧
        (∀ t, (∀ y, y ∈ E → tgt y ≠ t) → queued t s' = queued t s) ∧ s_last_target s' = s_last_target s.
Proof.
  revert s. induction E as [| x E IH]; intros s Hs; [by exists s |].
  destruct (enqueue_ok Fl x E s Hs) as (s1 & He & Hs1 & Ha1 & Hr1 & Hq1 & Hl1).
  destruct (IH s1 Hs1) as (s2 & Hf & Hs2 & Ha2 & Hr2 & Hq2 & Hl2).
  exists s2. cbn [foldM]. rewrite He. cbn [mbind res_bind]. split; [done |]. split; [done |].
  split; [by etransitivity |]. split; [congruence |]. split; [| congruence].
  intros t Ht. rewrite Hq2, Hq1; [done | |].
  - intros Hxt. apply (Ht x); [by left | done].
  - intros y Hy. apply Ht. by right.
Qed.

(** *** Successors of a job that ended *)

Lemma successors_ok Fl E E' x v st s :
  st_inv E st → body Fl s → s_status s = <[x := v]> st → x ∈ items → deps_done st x →
  ¬ SchedInv.done st x → finished v = true → (v ≠ K → st !! x = Some D) →
  NoDup E' → (∀ y, y ∈ E' ↔ y ∈ E ∧ y ≠ x) →
  ∃ l, _get_successors job e (Some x) s = Ok l ∧ inv Fl (E' ++ l) s ∧ ∀ y, y ∈ l → tgt y ≠ tgt x.
Proof.
  intros Hs Hb Hst Hi Hd Hx Hf Hv Hn He.
  assert (Hnone : ∀ y, y ∈ items → x ∈ deps y → s_status s !! y = None).
  { intros y Hy Hxy. rewrite Hst. apply insert_None. split; [| by apply (dep_irrefl job items Hplan)].
    destruct (st !! y) eqn:Ey; [| done]. exfalso. apply Hx. by apply (si_dom _ _ _ _ Hs y _ Ey). }
  destruct (get_successors_ok job e items Hplan x s) as (l & Hl & Hnl & Hin);
    [by apply (bd_frame Fl) | apply (bd_sched Fl s Hb) | done | done |].
  exists l. split; [done |]. split; [split; [done |] |].
  - rewrite Hst. apply (st_finish _ _ E); try done. by rewrite <- Hst.
  - intros y (Hy & _ & Hxy & _)%Hin. by apply (dep_irrefl job items Hplan).
Qed.

(** *** Cancelling *)

Lemma cancel_one_ok Fl Fl' x s :
  body Fl s → x ∈ items → s_status s !! x = None ∨ s_status s !! x = Some Q →
  NoDup Fl' → (∀ y, y ∈ Fl' ↔ y ∈ Fl ∧ y ≠ x) →
  ∃ s', cancel_one job x s = Ok s' ∧ body Fl' s' ∧ s_status s' = <[x := K]> (s_status s) ∧ adv s s' ∧
        s_running s' = s_running s ∧ (x ∉ queued (tgt x) s → s_queued s' = s_queued s).
Proof.
  intros Hb Hi Hx Hn Hfl.
  assert (Hnd : ¬ SchedInv.done (s_status s) x) by (destruct Hx; [by apply not_done_None | by eapply not_done_Some]).
  assert (Hat : ∀ w t, at_place s w t x → w = Q ∧ t = tgt x).
  { intros w t [<- Hw]%(place_only Fl); [| done]. destruct Hx; split; congruence. }
  assert (Hadv : ∀ s', s_status s' = <[x := K]> (s_status s) → s_polls s' = s_polls s → adv s s').
  { intros s' Hst Hp. apply (adv_move x K); [done | done | done | done |]. intros y. left. unfold polls. by rewrite Hp. }
  unfold cancel_one.
  change (queued (tgt x) (add_killed _ _ _)) with (queued (tgt x) s).
  destruct (decide (x ∈ queued (tgt x) s)) as [Hq | Hq].
  - destruct (list_remove_nodup x (queued (tgt x) s)) as (l & -> & Hnl & Hl); [apply (bd_queued Fl s Hb) | done |].
    eexists. split; [done |]. split; [| split; [done |]; split; [by apply Hadv |]; by split].
    apply (body_move Fl Fl' x K s); [done | | done | | | | done | done | done | by left].
    + same_frame (bd_frame Fl s Hb).
    + apply (sched_rel_ext _ _ (s_status s)); [apply (bd_sched Fl s Hb) |]. intros y. cbn. rewrite insert_None.
      split; [| naive_solver]. intros Hy. split; [done |]. intros ->.
      apply (place_only Fl s x Q (tgt x)) in Hq as [_ ?]; [congruence | done].
    + intros w t y. rewrite at_queued. case_decide as Hc.
      * destruct Hc as [-> ->]. rewrite Hl. cbn. naive_solver.
      * change (add_killed (tgt x) x (set_status x K s)) with (add_ended K (tgt x) x (set_status x K s)).
        rewrite at_ended, at_status by done. naive_solver.
    + intros t. rewrite queued_set. split; [| apply (bd_running Fl s Hb)]. case_decide; [done | apply (bd_queued Fl s Hb)].
  - rewrite (list_remove_None x _ Hq).
    destruct (remove_ok job items Hplan x K (add_killed (tgt x) x (set_status x K s)) (s_status s))
      as (sched' & -> & Hrel); [apply (bd_sched Fl s Hb) | done |].
    eexists. split; [done |]. split; [| split; [done |]; split; [by apply Hadv |]; by split].
    apply (body_move Fl Fl' x K s); [done | | done | exact Hrel | | | done | done | done | by left].
    + same_frame (bd_frame Fl s Hb).
    + intros w t y. rewrite at_scheduled.
      change (add_killed (tgt x) x (set_status x K s)) with (add_ended K (tgt x) x (set_status x K s)).
      rewrite at_ended, at_status by done. split; [| naive_solver]. intros [? | Hy]; [naive_solver |]. right.
      split; [| done]. intros ->. destruct (Hat w t Hy) as [-> ->]. by apply Hq.
    + intros t. split; [apply (bd_queued Fl s Hb) | apply (bd_running Fl s Hb)].
Qed.

(** Some jobs without a status are killed. *)
Definition cancels (s s' : Scheduler) : Prop :=
  ∀ y, s_status s' !! y = s_status s !! y ∨ (s_status s !! y = None ∧ s_status s' !! y = Some K).

#[local] Instance cancels_preorder : PreOrder cancels.
Proof. split; [by left |]. intros s1 s2 s3 H1 H2 y. destruct (H1 y), (H2 y); naive_solver congruence. Qed.

Definition nones (s : Scheduler) : nat := sum_list_with (fun x => if s_status s !! x is None then 1%nat else 0%nat) items.

Lemma sum_list_le {A} (f g : A → nat) l : (∀ x, x ∈ l → (f x ≤ g x)%nat) → (sum_list_with f l ≤ sum_list_with g l)%nat.
Proof.
  induction l as [| x l IH]; intros H; cbn; [lia |]. pose proof (H x ltac:(by left)).
  assert (sum_list_with f l ≤ sum_list_with g l)%nat by (apply IH; intros y ?; apply H; by right). lia.
Qed.

Lemma sum_list_lt {A} (f g : A → nat) l x :
  (∀ x, x ∈ l → (f x ≤ g x)%nat) → x ∈ l → (f x < g x)%nat → (sum_list_with f l < sum_list_with g l)%nat.
Proof.
  intros H Hx Hlt. induction l as [| y l IH]; [by apply elem_of_nil in Hx |]. cbn.
  pose proof (H y ltac:(by left)). assert (Hl : ∀ x, x ∈ l → (f x ≤ g x)%nat) by (intros z ?; apply H; by right).
  apply elem_of_cons in Hx as [-> | Hx]; [pose proof (sum_list_le f g l Hl); lia |].
  specialize (IH Hl Hx). lia.
Qed.

Lemma nones_insert x v s s' :
  x ∈ items → s_status s !! x = None → s_status s' = <[x := v]> (s_status s) → (nones s' < nones s)%nat.
Proof.
  intros Hi Hx Hst. apply (sum_list_lt _ _ _ x); [| done | by rewrite Hst, Hx, lookup_insert_eq; lia].
  intros y _. rewrite Hst. destruct (decide (y = x)) as [-> |]; [rewrite lookup_insert_eq; lia |].
  by rewrite lookup_insert_ne.
Qed.

Lemma cancel_loop_ok Fl fuel E s : inv Fl E s → (nones s ≤ fuel)%nat →
  ∃ s', cancel_loop job e fuel E s = Ok s' ∧ inv Fl [] s' ∧ adv s s' ∧ cancels s s' ∧
        s_running s' = s_running s ∧ s_queued s' = s_queued s.
Proof.
  revert E s. induction fuel as [| fuel IH]; intros E s [Hb Hs] Hfu;
    (destruct E as [| x E _] using rev_ind; [exists s; by split_and! |]); cbn [cancel_loop]; rewrite last_snoc;
    destruct (proj1 (si_enabled _ _ _ _ Hs x) ltac:(set_solver)) as (Hi & Hx & Hd);
    pose proof (nones_insert x K s (set_status x K s) Hi Hx eq_refl) as Hno; [lia |].
  assert (HxF : ∀ y, y ∈ Fl ↔ y ∈ Fl ∧ y ≠ x).
  { intros y. split; [| naive_solver]. intros Hy. split; [done |]. intros ->. apply (bd_flight Fl s Hb) in Hy. congruence. }
  destruct (cancel_one_ok Fl Fl x s Hb Hi ltac:(by left) (bd_fnodup Fl s Hb) HxF) as (s1 & -> & Hb1 & Hst1 & Ha1 & Hr1 & Hq1).
  pose proof (si_nodup _ _ _ _ Hs) as Hn. rewrite Permutation_app_comm in Hn. apply NoDup_cons in Hn as [HxE Hn].
  destruct (successors_ok Fl (E ++ [x]) E x K (s_status s) s1) as (l & Hl & Hs1 & _); try done.
  { by apply not_done_None. }
  { intros y. rewrite elem_of_app, list_elem_of_singleton. naive_solver. }
  cbn [mbind res_bind]. rewrite Hl. cbn [mbind res_bind].
  replace (take (pred (length (E ++ [x]))) (E ++ [x])) with E by (rewrite length_app; cbn; rewrite Nat.add_1_r; cbn; by rewrite take_app_length).
  destruct (IH (E ++ l) s1) as (s2 & -> & Hs2 & Ha2 & Hc2 & Hr2 & Hq2); [done | |].
  { assert (nones s1 = nones (set_status x K s)) as -> by (unfold nones; by rewrite Hst1). lia. }
  exists s2. split; [done |]. split; [done |]. split; [by etransitivity |]. split; [| split; [congruence |]].
  - etransitivity; [| done]. intros y. rewrite Hst1. destruct (decide (y = x)) as [-> |]; [right; by rewrite lookup_insert_eq |].
    left. by rewrite lookup_insert_ne.
  - rewrite Hq2. apply Hq1. intros Hq. apply (place_only Fl s x Q (tgt x)) in Hq as [_ ?]; [congruence | done].
Qed.

Lemma nones_items s : (nones s ≤ length items)%nat.
Proof. unfold nones. clear Hplan. induction items as [| x l IH]; cbn; [lia |]. destruct (s_status s !! x); lia. Qed.

(** A job ended: its successors are cancelled. *)
Lemma cancel_successors_ok Fl x v st s :
  st_inv [] st → body Fl s → s_status s = <[x := v]> st → x ∈ items → deps_done st x →
  ¬ SchedInv.done st x → finished v = true → (v ≠ K → st !! x = Some D) →
  ∃ s', _cancel_successors job e x s = Ok s' ∧ inv Fl [] s' ∧ adv s s' ∧ cancels s s' ∧
        s_running s' = s_running s ∧ s_queued s' = s_queued s.
Proof.
  intros Hs Hb Hst Hi Hd Hx Hf Hv. unfold _cancel_successors.
  destruct (successors_ok Fl [] [] x v st s) as (l & -> & Hs' & _); try done.
  { apply NoDup_nil_2. }
  { intros y. rewrite elem_of_nil. naive_solver. }
  cbn [mbind res_bind]. rewrite (fr_items s (bd_frame Fl s Hb)). apply cancel_loop_ok; [done | apply nones_items].
Qed.

(** A running job ends. *)
Lemma end_running Fl x v s s' l :
  body Fl s → s_status s !! x = Some D → finished v = true → s_status s' = <[x := v]> (s_status s) →
  (∀ w t y, at_place s' w t y ↔ at_place (set_running (tgt x) l (add_ended v (tgt x) x s)) w t y) →
  NoDup l → (∀ y, y ∈ l ↔ y ∈ running (tgt x) s ∧ y ≠ x) →
  s_scheduled s' = s_scheduled s → frame s' → s_queued s' = s_queued s →
  (∀ t, running t s' = if decide (t = tgt x) then l else running t s) →
  (∀ y, polls y s' = polls y s ∨ y = x) →
  body Fl s' ∧ adv s s'.
Proof.
  intros Hb Hx Hv Hst Hat Hn Hl Hsc Hf Hq Hr Hp.
  assert (Hnd : ¬ SchedInv.done (s_status s) x) by by eapply not_done_Some.
  assert (Hp' : ∀ y, polls y s' = polls y s ∨ y = x ∧ finished v = true) by naive_solver.
  split; [| apply (adv_move x v); try done; by intros ->].
  apply (body_move Fl Fl x v s); try done.
  - rewrite Hsc, Hst. apply (sched_rel_ext _ _ (s_status s)); [apply (bd_sched Fl s Hb) |]. intros y. rewrite insert_None.
    split; [| naive_solver]. intros Hy. split; [done |]. intros ->. congruence.
  - intros w t y. rewrite Hat, at_running. case_decide as Hc.
    + destruct Hc as [-> ->]. rewrite Hl. cbn. split; [naive_solver |]. intros [(-> & <- & _) | ?]; [done | naive_solver].
    + rewrite at_ended by done. split; [| naive_solver]. intros [? | Hy]; [naive_solver |]. right. split; [| done].
      intros ->. apply Hc. apply (place_only Fl) in Hy as [<- Hw]; [| done]. split; congruence.
  - intros t. unfold queued. rewrite Hq, Hr. split; [apply (bd_queued Fl s Hb) |].
    case_decide; [done | apply (bd_running Fl s Hb)].
  - apply (bd_fnodup Fl s Hb).
  - intros y. split; [| naive_solver]. intros Hy. split; [done |]. intros ->. apply (bd_flight Fl s Hb) in Hy. congruence.
Qed.

Lemma running_iff Fl s t x : body Fl s → x ∈ running t s ↔ tgt x = t ∧ s_status s !! x = Some D.
Proof. intros Hb. rewrite (bd_place Fl s Hb D t x : x ∈ running t s ↔ _). naive_solver. Qed.

Lemma kill_item_ok Fl x s : inv Fl [] s → s_status s !! x = Some D →
  ∃ s', _kill_item job e x s = Ok s' ∧ inv Fl [] s' ∧ adv s s' ∧ cancels (set_status x K s) s' ∧
        s_queued s' = s_queued s.
Proof.
  intros [Hb Hs] Hx. unfold _kill_item.
  destruct (list_remove_nodup x (running (tgt x) s)) as (l & Hrem & Hnl & Hl);
    [apply (bd_running Fl s Hb) | by apply (running_iff Fl) |].
  change (running (tgt x) (add_killed _ _ _)) with (running (tgt x) s). rewrite Hrem. cbn [of_option mbind res_bind].
  set (s1 := set_running _ _ _).
  destruct (end_running Fl x K s s1 l) as [Hb1 Ha1]; try done.
  { same_frame (bd_frame Fl s Hb). }
  { intros t. unfold s1. by rewrite running_set. }
  { by left. }
  destruct (si_dom _ _ _ _ Hs x D Hx) as [Hi Hd].
  destruct (cancel_successors_ok Fl x K (s_status s) s1) as (s2 & -> & Hs2 & Ha2 & Hc2 & _ & Hq2); try done.
  { by eapply not_done_Some. }
  exists s2. split; [done |]. split; [done |]. split; [by etransitivity |]. by split.
Qed.

Lemma cancel_item_ok Fl x s : inv Fl [] s → x ∈ queued (tgt x) s → x ∉ Fl →
  ∃ s', _cancel_item job e x s = Ok s' ∧ inv Fl [] s' ∧ adv s s' ∧ cancels (set_status x K s) s'.
Proof.
  intros [Hb Hs] Hq HxF. destruct (place_only Fl s x Q (tgt x) Hb Hq) as [_ Hx].
  destruct (si_dom _ _ _ _ Hs x Q Hx) as [Hi Hd]. unfold _cancel_item.
  destruct (cancel_one_ok Fl Fl x s Hb Hi ltac:(by right) (bd_fnodup Fl s Hb)) as (s1 & -> & Hb1 & Hst1 & Ha1 & _).
  { intros y. split; [| naive_solver]. intros Hy. split; [done | by intros ->]. }
  cbn [mbind res_bind].
  destruct (cancel_successors_ok Fl x K (s_status s) s1) as (s2 & -> & Hs2 & Ha2 & Hc2 & _); try done.
  { by eapply not_done_Some. }
  exists s2. split; [done |]. split; [done |]. split; [by etransitivity |].
  intros y. specialize (Hc2 y). by rewrite Hst1 in Hc2.
Qed.

(** *** [_dispatch] *)

Lemma launch_item_ok Fl x s : inv (x :: Fl) [] s → run_ok (s_status s) x →
  ∃ s', launch_item job e (tgt x) s x = Ok s' ∧ inv Fl [] s' ∧ adv s s' ∧ (rank x s' < rank x s)%nat.
Proof.
  intros [Hb Hs] Hrun. pose proof (bd_flight _ s Hb x ltac:(by left)) as Hx.
  pose proof (bd_fnodup _ s Hb) as [HxF Hn]%NoDup_cons. unfold launch_item.
  set (s1 := set_status x D _).
  assert (Hno : ∀ w t, ¬ at_place s w t x).
  { intros w t Hat. apply (bd_place _ s Hb) in Hat as (_ & Hw & Hq). rewrite Hx in Hw. injection Hw as <-. apply Hq; [done | by left]. }
  assert (Hb1 : body Fl s1).
  { apply (body_move (x :: Fl) Fl x D s); try done.
    - same_frame (bd_frame _ s Hb).
    - apply (sched_rel_ext _ _ (s_status s)); [apply (bd_sched _ s Hb) |]. intros y. cbn. rewrite insert_None.
      split; [| naive_solver]. intros Hy. split; [done |]. intros ->. congruence.
    - intros w t y. unfold s1. rewrite at_status, at_running. case_decide as Hc.
      + destruct Hc as [-> ->]. rewrite elem_of_app, list_elem_of_singleton. specialize (Hno D (tgt x)). cbn in *. naive_solver.
      + naive_solver.
    - intros t. change (running t s1) with (running t (set_running (tgt x) (running (tgt x) s ++ [x]) s)).
      split; [apply (bd_queued _ s Hb) |]. rewrite running_set. case_decide; [| apply (bd_running _ s Hb)].
      apply NoDup_app. split_and!; [apply (bd_running _ s Hb) | | apply NoDup_singleton].
      intros y Hy. rewrite list_elem_of_singleton. intros ->. by apply (Hno D (tgt x)).
    - by eapply not_done_Some.
    - intros y. rewrite elem_of_cons. split; [| naive_solver]. intros Hy. split; [by right |]. by intros ->.
    - by left. }
  assert (Ha1 : adv s s1) by (apply (adv_move x D); try done; [by eapply not_done_Some | by left]).
  assert (Hlt : (rank x s1 < rank x s)%nat).
  { unfold rank, s1. cbn [s_status set_status]. rewrite lookup_insert_eq, Hx. lia. }
  assert (Hs1 : inv Fl [] s1) by (split; [done | by apply st_dispatch]).
  destruct (launch e x); [by exists s1 |].
  destruct (kill_item_ok Fl x s1 Hs1) as (s2 & -> & Hs2 & Ha2 & _); [by unfold s1; cbn; rewrite lookup_insert_eq |].
  exists s2. split; [done |]. split; [done |]. split; [by etransitivity |].
  pose proof (ad_rank _ _ Ha2 x). lia.
Qed.

Lemma launch_all_ok Fl t s : inv Fl [] s → (∀ y, y ∈ Fl → tgt y = t ∧ run_ok (s_status s) y) →
  ∃ s', foldM (launch_item job e t) s Fl = Ok s' ∧ inv [] [] s' ∧ adv s s' ∧
        ∀ y, y ∈ Fl → (rank y s' < rank y s)%nat.
Proof.
  revert s. induction Fl as [| x Fl IH]; intros s Hs HF; cbn [foldM].
  - exists s. split_and!; try done. by intros y ?%elem_of_nil.
  - destruct (HF x ltac:(by left)) as [<- Hrun].
    destruct (launch_item_ok Fl x s Hs Hrun) as (s1 & -> & Hs1 & Ha1 & Hlt). cbn [mbind res_bind].
    destruct (IH s1 Hs1) as (s2 & -> & Hs2 & Ha2 & Hlt2).
    { intros y Hy. destruct (HF y ltac:(by right)) as [? ?]. split; [done |]. by apply (run_ok_adv s). }
    exists s2. split; [done |]. split; [done |]. split; [by etransitivity |].
    intros y [-> | Hy]%elem_of_cons; [pose proof (ad_rank _ _ Ha2 x); lia |].
    specialize (Hlt2 y Hy). pose proof (ad_rank _ _ Ha1 y). lia.
Qed.

Lemma run_deps_ok s needs l :
  s_items s = items → (∀ d, d ∈ l → d ∈ items → SchedInv.done (s_status s) d) →
  ∃ r, run_deps s needs l = Ok r ∧
    (default needs r = true ↔
     if needs then ∀ d, d ∈ l → d ∈ items → s_status s !! d = Some P
     else ∃ d, d ∈ l ∧ d ∈ items ∧ s_status s !! d = Some P).
Proof.
  intros Hi. induction l as [| d l IH]; intros Hd; cbn [run_deps].
  - exists None. split; [done |]. destruct needs; cbn.
    + split; [| done]. by intros _ d ?%elem_of_nil.
    + split; [done |]. by intros (d & ?%elem_of_nil & _).
  - destruct IH as (r & Hr & Hiff); [intros d' ?; apply Hd; by right |]. unfold known. rewrite Hi.
    case_bool_decide as Hin; cbn [negb].
    + destruct (Hd d ltac:(by left) Hin) as (v & Hv & Hf). rewrite Hv. cbn [of_option mbind res_bind].
      rewrite Hf. cbn [py_assert mbind res_bind]. destruct needs; case_bool_decide as HP; setoid_rewrite elem_of_cons.
      * exists r. split; [done |]. rewrite Hiff. split; [| naive_solver]. intros H d' [-> | ?]; naive_solver congruence.
      * exists (Some false). split; [done |]. cbn. split; [done |]. intros H. specialize (H d ltac:(by left) Hin). congruence.
      * exists (Some true). split; [done |]. cbn. split; [| done]. intros _. exists d. split; [by left |]. split; [done | congruence].
      * exists r. split; [done |]. rewrite Hiff. split; [naive_solver |]. intros (d' & [-> | ?] & ? & ?); [congruence | naive_solver].
    + exists r. split; [done |]. rewrite Hiff. destruct needs; setoid_rewrite elem_of_cons; naive_solver.
Qed.

Lemma ok_to_run_iff s x : s_items s = items → deps_done (s_status s) x →
  ∃ b, _ok_to_run job s x = Ok b ∧ (b = true ↔ run_ok (s_status s) x).
Proof.
  intros Hi Hd. unfold _ok_to_run, SchedInv.run_ok.
  destruct (run_deps_ok s (needs_all_dependencies_passing (job x)) (deps x) Hi Hd) as (r & -> & Hr).
  eexists. split; [done |]. done.
Qed.

(** A job is taken from its queue. *)
Lemma pop_ok Fl t x rest s : inv Fl [] s → queued t s = x :: rest →
  inv (Fl ++ [x]) [] (set_queued t rest s) ∧ tgt x = t ∧ s_status s !! x = Some Q ∧ x ∉ rest ∧ x ∉ Fl.
Proof.
  intros [Hb Hs] Hq. pose proof (bd_queued Fl s Hb t) as Hn. rewrite Hq in Hn. apply NoDup_cons in Hn as [Hxr Hn].
  assert (Hx : at_place s Q t x) by (cbn; rewrite Hq; by left).
  apply (bd_place Fl s Hb) in Hx as (Ht & Hx & HxF). specialize (HxF eq_refl).
  split; [split |]; [| done | done].
  split.
  - same_frame (bd_frame Fl s Hb).
  - apply (bd_sched Fl s Hb).
  - intros v t' y. rewrite at_queued. case_decide as Hc.
    + destruct Hc as [-> ->]. pose proof (bd_place Fl s Hb Q t y) as Hp. cbn [at_place] in Hp. rewrite Hq, elem_of_cons in Hp.
      cbn. rewrite elem_of_app, list_elem_of_singleton. destruct (decide (y = x)) as [-> |]; naive_solver.
    + rewrite (bd_place Fl s Hb v t' y). cbn. rewrite elem_of_app, list_elem_of_singleton.
      split; [| naive_solver]. intros (<- & Hy & HyF). split; [done |]. split; [done |]. intros ->.
      intros [? | ->]; [by apply HyF |]. by apply Hc.
  - intros t'. rewrite queued_set. case_decide; [done | apply (bd_queued Fl s Hb)].
  - apply (bd_running Fl s Hb).
  - intros y [Hy | ->%list_elem_of_singleton]%elem_of_app; [by apply (bd_flight Fl s Hb) | done].
  - apply NoDup_app. split_and!; [apply (bd_fnodup Fl s Hb) | | apply NoDup_singleton].
    intros y Hy ->%list_elem_of_singleton. done.
  - apply (bd_polls Fl s Hb).
Qed.

Lemma adv_same s s' : s_status s' = s_status s → s_polls s' = s_polls s → adv s s'.
Proof. intros H Hp. split; [| by rewrite H]. intros x. unfold rank, polls. by rewrite H, Hp. Qed.

(** A job that cannot run is cancelled and lets its successors go. *)
Lemma cancel_popped_ok Fl t x rest s : inv Fl [] s → queued t s = x :: rest →
  ∃ s1 s', cancel_one job x (set_queued t rest s) = Ok s1 ∧ _enqueue_successors job e (Some x) s1 = Ok s' ∧
    inv Fl [] s' ∧ adv s s' ∧ queued t s' = rest ∧ (rank x s' < rank x s)%nat.
Proof.
  intros Hs Hq. destruct (pop_ok Fl t x rest s Hs Hq) as ([Hb1 Hs1] & Ht & Hx & Hxr & HxF).
  set (s0 := set_queued t rest s) in *. destruct (si_dom _ _ _ _ Hs1 x Q Hx) as [Hi Hd].
  assert (Hq0 : queued t s0 = rest) by (unfold s0; by rewrite queued_set, decide_True).
  destruct (cancel_one_ok (Fl ++ [x]) Fl x s0 Hb1 Hi ltac:(by right)) as (s1 & Hc & Hb2 & Hst2 & Ha2 & _ & Hq2).
  { apply (bd_fnodup Fl s (proj1 Hs)). }
  { intros y. rewrite elem_of_app, list_elem_of_singleton. split; [| naive_solver]. intros Hy. split; [by left | by intros ->]. }
  destruct (successors_ok Fl [] [] x K (s_status s0) s1) as (l & Hl & Hs2 & Hlt); try done.
  { by eapply not_done_Some. }
  { apply NoDup_nil_2. }
  { intros y. rewrite elem_of_nil. naive_solver. }
  destruct (enqueue_all_ok Fl l s1 Hs2) as (s2 & He & Hs3 & Ha3 & _ & Hq3 & _).
  exists s1, s2. split; [done |]. split; [unfold _enqueue_successors; by rewrite Hl |]. split; [done |].
  assert (Ha : adv s s1) by (etransitivity; [| done]; by apply adv_same).
  split; [by etransitivity |]. split.
  - rewrite Hq3 by (intros y Hy; rewrite <- Ht; by apply Hlt). unfold queued. rewrite Hq2; [done |]. by rewrite Ht, Hq0.
  - pose proof (ad_rank _ _ Ha3 x) as Hr. unfold rank in Hr at 2. rewrite Hst2, lookup_insert_eq in Hr.
    unfold rank at 2. rewrite Hx. lia.
Qed.

Lemma take_jobs_ok fuel t slots acc s :
  inv acc [] s → (∀ y, y ∈ acc → tgt y = t ∧ run_ok (s_status s) y) → (length (queued t s) ≤ fuel)%nat →
  ∃ r s', take_jobs job e fuel t slots acc s = Ok (r, s') ∧ inv r [] s' ∧ adv s s' ∧
    (∀ y, y ∈ r → tgt y = t ∧ run_ok (s_status s') y) ∧ (∀ y, y ∈ acc → y ∈ r) ∧
    (∀ x, head (queued t s) = Some x → 0 < slots → x ∈ r ∨ (rank x s' < rank x s)%nat).
Proof.
  revert slots acc s. induction fuel as [| fuel IH]; intros slots acc s Hs Hacc Hfu;
    (destruct (queued t s) as [| x rest] eqn:Hq; [exists acc, s; destruct fuel || idtac; cbn [take_jobs]; rewrite Hq; by split_and! |]);
    cbn [length] in Hfu; [lia |]. cbn [take_jobs]. rewrite Hq.
  destruct (Z.leb_spec slots 0); [exists acc, s; split_and!; try done; intros; lia |].
  destruct (pop_ok acc t x rest s Hs Hq) as (Hs1 & Ht & Hx & Hxr & HxF).
  destruct (ok_to_run_iff (set_queued t rest s) x) as (b & -> & Hb).
  { apply (bd_frame _ _ (proj1 Hs1)). }
  { by apply (si_dom _ _ _ _ (proj2 Hs) x Q). }
  cbn [mbind res_bind]. destruct b.
  - destruct (IH (slots - 1) (acc ++ [x]) (set_queued t rest s)) as (r & s' & -> & Hs' & Ha' & Hr & Hin & _); [done | | |].
    + intros y [Hy | ->%list_elem_of_singleton]%elem_of_app; [by apply Hacc |]. split; [done | by apply Hb].
    + rewrite queued_set, decide_True by done. lia.
    + exists r, s'. split; [done |]. split; [done |]. split; [etransitivity; [| done]; by apply adv_same |]. split; [done |].
      split; [intros y Hy; apply Hin; set_solver |]. cbn. intros _ [= <-] _. left. apply Hin. set_solver.
  - destruct (cancel_popped_ok acc t x rest s Hs Hq) as (s1 & s2 & -> & He & Hs2 & Ha2 & Hq2 & Hlt). cbn [mbind res_bind].
    rewrite He. cbn [mbind res_bind].
    destruct (IH slots acc s2) as (r & s' & -> & Hs' & Ha' & Hr & Hin & _); [done | | rewrite Hq2; lia |].
    + intros y Hy. destruct (Hacc y Hy). split; [done | by apply (run_ok_adv s)].
    + exists r, s'. split; [done |]. split; [done |]. split; [by etransitivity |]. split; [done |]. split; [done |].
      cbn. intros _ [= <-] _. right. pose proof (ad_rank _ _ Ha' x). lia.
Qed.
End plan.
End ops.
