(* ===== verification/SchedLoop.v ===== *)
(** The parts of the main loop of the job scheduler: dispatching, polling, killing and the test for
    the end return and keep the invariant, and a turn that does not end the loop makes progress. *)

From S2P Require Import Prelude BitLoops PyList Yaml Scheduler SchedInv SchedOps.

Import Scheduler.

Section loops.
Context (job : item → Deploy) (e : env) (items : list item) (bound : item → nat).
Context (Hplan : plan_ok job items).

Notation tgt x := (target (job x)).
Notation deps x := (dependencies (job x)).
Notation targets := (targets job items).
Notation inv := (inv job e items).
Notation body := (body job e items).
Notation rank := (rank bound).
Notation adv := (adv bound).

(** Some job got closer to its end. *)
Definition ahead (s s' : Scheduler) : Prop := ∃ x, x ∈ items ∧ (rank x s' < rank x s)%nat.

Lemma ahead_l s1 s2 s3 : ahead s1 s2 → adv s2 s3 → ahead s1 s3.
Proof. intros (x & Hi & Hx) Ha. exists x. split; [done |]. pose proof (ad_rank _ _ _ Ha x). lia. Qed.

Lemma ahead_r s1 s2 s3 : adv s1 s2 → ahead s2 s3 → ahead s1 s3.
Proof. intros Ha (x & Hi & Hx). exists x. split; [done |]. pose proof (ad_rank _ _ _ Ha x). lia. Qed.

Lemma queued_iff s t x : body [] s → x ∈ queued t s ↔ tgt x = t ∧ s_status s !! x = Some Q.
Proof.
  intros Hb. rewrite (bd_place _ _ _ [] s Hb Q t x : x ∈ queued t s ↔ _).
  pose proof (not_elem_of_nil x). naive_solver.
Qed.

Lemma status_items E s x v : inv [] E s → s_status s !! x = Some v → x ∈ items.
Proof. intros [_ Hs] Hx. by apply (si_dom _ _ _ _ Hs x v). Qed.

(** ** Dispatching *)

Definition queue_weight (s : Scheduler) (t : string) : Z :=
  match queued t s with x :: _ => weight (job x) | [] => 0 end.

Lemma queue_weight_nonneg s t : inv [] [] s → 0 ≤ queue_weight s t.
Proof.
  intros Hs. unfold queue_weight. destruct (queued t s) as [| x l] eqn:Hq; [done |].
  apply Z.lt_le_incl, (po_weight _ _ Hplan), (status_items [] s x Q Hs), (queued_iff s t x (proj1 Hs)).
  rewrite Hq. by left.
Qed.

Lemma queue_weight_zero s t : inv [] [] s → queue_weight s t = 0 → queued t s = [].
Proof.
  intros Hs. unfold queue_weight. destruct (queued t s) as [| x l] eqn:Hq; [done |]. intros H0.
  assert (0 < weight (job x)); [| lia].
  apply (po_weight _ _ Hplan), (status_items [] s x Q Hs), (queued_iff s t x (proj1 Hs)). rewrite Hq. by left.
Qed.

Lemma dispatch_target_ok slots tw sw sf s t : inv [] [] s → tw ≠ 0 →
  ∃ sw' sf' s', dispatch_target job e slots tw (sw, sf, s) t = Ok (sw', sf', s') ∧ inv [] [] s' ∧ adv s s' ∧
    (ahead s s' ∨
     s' = s ∧ sf' = sf ∧ sw' = sw + queue_weight s t ∧
     (queued t s = [] ∨ round_div (slots * sw') tw - sf ≤ 0)).
Proof.
  intros Hs Htw. unfold dispatch_target, queue_weight. destruct (queued t s) as [| x rest] eqn:Hq.
  { exists sw, sf, s. split; [done |]. split; [done |]. split; [done |]. right. split_and!; try done; [lia | by left]. }
  rewrite (proj2 (Z.eqb_neq tw 0) Htw). destruct (Z.leb_spec (round_div (slots * (sw + weight (job x))) tw - sf) 0).
  { exists (sw + weight (job x)), sf, s. split; [done |]. split; [done |]. split; [done |]. right. split_and!; auto. }
  destruct (take_jobs_ok job e items bound Hplan (length (x :: rest)) t
    (round_div (slots * (sw + weight (job x))) tw - sf) [] s) as (r & s1 & -> & Hs1 & Ha1 & Hr & _ & Hp);
    [done | by intros y ?%elem_of_nil | by rewrite Hq |].
  cbn [mbind res_bind].
  destruct (launch_all_ok job e items bound Hplan r t s1 Hs1 Hr) as (s2 & -> & Hs2 & Ha2 & Hlt).
  cbn [mbind res_bind]. do 3 eexists. split; [done |]. split; [done |]. split; [by etransitivity |]. left.
  assert (Hx : tgt x = t ∧ s_status s !! x = Some Q) by (apply (queued_iff s t x (proj1 Hs)); rewrite Hq; by left).
  exists x. split; [apply (status_items [] s x Q Hs), Hx |].
  destruct (Hp x) as [Hin | Hlt1]; [by rewrite Hq | lia | |].
  - specialize (Hlt x Hin). pose proof (ad_rank _ _ _ Ha1 x). lia.
  - pose proof (ad_rank _ _ _ Ha2 x). lia.
Qed.

Lemma dispatch_fold_ok slots tw ts sw sf s : inv [] [] s → tw ≠ 0 →
  ∃ sw' sf' s', foldM (dispatch_target job e slots tw) (sw, sf, s) ts = Ok (sw', sf', s') ∧ inv [] [] s' ∧ adv s s'.
Proof.
  intros Hs Htw. revert sw sf s Hs. induction ts as [| t ts IH]; intros sw sf s Hs; cbn [foldM]; [by exists sw, sf, s |].
  destruct (dispatch_target_ok slots tw sw sf s t Hs Htw) as (sw1 & sf1 & s1 & -> & Hs1 & Ha1 & _). cbn [mbind res_bind].
  destruct (IH sw1 sf1 s1 Hs1) as (sw2 & sf2 & s2 & -> & Hs2 & Ha2). do 3 eexists. split; [done |].
  split; [done |]. by etransitivity.
Qed.

Lemma round_div_exact a b : 0 < b → round_div (a * b) b = a.
Proof. intros Hb. unfold round_div. rewrite Z.div_mul, Z.mod_mul by lia. by rewrite (proj2 (Z.ltb_lt _ _)) by lia. Qed.

Lemma weights_nonneg s ts : inv [] [] s → 0 ≤ foldr Z.add 0 (queue_weight s <$> ts).
Proof. intros Hs. induction ts as [| t ts IH]; cbn; [done |]. pose proof (queue_weight_nonneg s t Hs). lia. Qed.

Lemma weights_zero s ts t : inv [] [] s → foldr Z.add 0 (queue_weight s <$> ts) = 0 → t ∈ ts → queue_weight s t = 0.
Proof.
  intros Hs. induction ts as [| t' ts IH]; intros E0 Ht; [by apply elem_of_nil in Ht |]. cbn in E0.
  pose proof (weights_nonneg s ts Hs). pose proof (queue_weight_nonneg s t' Hs). unfold fmap in *.
  apply elem_of_cons in Ht as [-> | Ht]; [lia |]. apply IH; [lia | done].
Qed.

(** The last slots go to the last target with a queue. *)
Lemma dispatch_fold_ahead slots tw ts sw s : inv [] [] s → 0 < tw → 0 < slots →
  sw + foldr Z.add 0 (queue_weight s <$> ts) = tw → 0 < foldr Z.add 0 (queue_weight s <$> ts) →
  ∃ sw' sf' s', foldM (dispatch_target job e slots tw) (sw, 0, s) ts = Ok (sw', sf', s') ∧ inv [] [] s' ∧ adv s s' ∧ ahead s s'.
Proof.
  intros Hs Htw Hslots. revert sw. induction ts as [| t ts IH]; intros sw Hsum Hpos; cbn in Hsum, Hpos; [lia |].
  cbn [foldM]. destruct (dispatch_target_ok slots tw sw 0 s t Hs ltac:(lia)) as (sw1 & sf1 & s1 & -> & Hs1 & Ha1 & Hc). cbn [mbind res_bind].
  destruct Hc as [Hah | (-> & -> & -> & Hc)].
  - destruct (dispatch_fold_ok slots tw ts sw1 sf1 s1 Hs1 ltac:(lia)) as (sw2 & sf2 & s2 & -> & Hs2 & Ha2).
    do 3 eexists. split; [done |]. split; [done |]. split; [by etransitivity |]. by apply (ahead_l _ s1).
  - apply IH; [lia |]. pose proof (weights_nonneg s ts Hs) as Hnn.
    destruct (decide (foldr Z.add 0 (queue_weight s <$> ts) = 0)) as [E0 |]; [| lia]. exfalso.
    assert (Hqw : 0 < queue_weight s t) by (unfold fmap in *; lia).
    destruct Hc as [Hq | Hc]; [unfold queue_weight in Hqw; rewrite Hq in Hqw; lia |].
    assert (sw + queue_weight s t = tw) as E by (unfold fmap in *; lia). rewrite E, round_div_exact in Hc by done. lia.
Qed.

Lemma dispatch_fold_nil slots tw ts sw sf s : (∀ t, queued t s = []) →
  foldM (dispatch_target job e slots tw) (sw, sf, s) ts = Ok (sw, sf, s).
Proof.
  intros Hq. induction ts as [| t ts IH]; cbn [foldM]; [done |].
  assert (dispatch_target job e slots tw (sw, sf, s) t = Ok (sw, sf, s)) as -> by (unfold dispatch_target; by rewrite Hq). done.
Qed.

Lemma queued_outside s t : body [] s → (∀ x v, s_status s !! x = Some v → x ∈ items) → t ∉ targets → queued t s = [].
Proof.
  intros Hb Hi Ht. destruct (queued t s) as [| x l] eqn:Hq; [done |].
  destruct (proj1 (queued_iff s t x Hb) ltac:(rewrite Hq; by left)) as [<- Hx]. exfalso.
  apply Ht, targets_elem; [done |]. by apply (Hi x Q).
Qed.

(** [_dispatch] returns; with a free slot and a queued job, some job gets closer to its end. *)
Lemma dispatch_ok s : inv [] [] s →
  ∃ s', _dispatch job e s = Ok s' ∧ inv [] [] s' ∧ adv s s' ∧
    (running_count s < max_parallel e → (∃ t, queued t s ≠ []) → ahead s s') ∧
    ((∀ t, queued t s = []) → s' = s).
Proof.
  intros Hs. unfold _dispatch. destruct (Z.leb_spec (max_parallel e - running_count s) 0).
  { exists s. split_and!; try done. lia. }
  assert (Htw : total_weight job s = foldr Z.add 0 (queue_weight s <$> targets)).
  { unfold total_weight. by rewrite (fr_targets _ _ _ (bd_frame _ _ _ _ _ (proj1 Hs))). }
  rewrite (sr_keys _ _ _ _ (bd_sched _ _ _ _ _ (proj1 Hs))), Htw.
  pose proof (weights_nonneg s targets Hs) as Hnn.
  destruct (decide (foldr Z.add 0 (queue_weight s <$> targets) = 0)) as [E0 |].
  - assert (Hq : ∀ t, queued t s = []).
    { intros t. destruct (decide (t ∈ targets)) as [Ht |].
      - apply queue_weight_zero; [done |]. by apply (weights_zero s targets).
      - apply queued_outside; [apply Hs | | done]. intros x v. by apply (status_items [] s). }
    rewrite dispatch_fold_nil by done. exists s. split; [done |]. split_and!; try done. intros _ [t Ht]. by rewrite Hq in Ht.
  - destruct (dispatch_fold_ahead (max_parallel e - running_count s) (foldr Z.add 0 (queue_weight s <$> targets)) targets 0 s)
      as (sw & sf & s' & -> & Hs' & Ha & Hah); [done | lia | lia | lia | lia |].
    exists s'. split; [done |]. split; [done |]. split; [done |]. split; [done |]. intros Hq. exfalso.
    assert (foldr Z.add 0 (queue_weight s <$> targets) = 0); [| done]. clear -Hq.
    induction targets as [| t ts IH]; cbn; [done |]. unfold queue_weight at 1. rewrite Hq. done.
Qed.

(** ** Polling *)

Context (Hpoll : ∀ x n, x ∈ items → poll e x n ≠ Q).

(** Every launcher reports an end. *)
Definition ends : Prop := ∀ x, x ∈ items → finished (poll e x (bound x)) = true.

Lemma next_item_ok {A} (l : list A) i : l ≠ [] → -1 ≤ i →
  ∃ x k, get_next_item l i = Ok (x, Z.of_nat k) ∧ l !! k = Some x ∧
         Z.of_nat k = if i + 1 <? Z.of_nat (length l) then i + 1 else 0.
Proof.
  intros Hl Hi. unfold get_next_item, py_nth. rewrite !(proj2 (Z.ltb_ge (i + 1) 0)) by lia.
  destruct (l !! Z.to_nat (i + 1)) as [x |] eqn:E; cbn [of_option].
  - exists x, (Z.to_nat (i + 1)). rewrite Z2Nat.id by lia. split; [done |]. split; [done |].
    apply lookup_lt_Some in E. by rewrite (proj2 (Z.ltb_lt _ _)) by lia.
  - apply lookup_ge_None in E. destruct l as [| x l]; [done |]. exists x, 0%nat. cbn [lookup list_lookup of_option mbind res_bind].
    split; [done |]. split; [done |]. by rewrite (proj2 (Z.ltb_ge _ _)) by lia.
Qed.

Lemma delete_nodup (l : list item) k x : NoDup l → l !! k = Some x →
  NoDup (delete k l) ∧ (∀ y, y ∈ delete k l ↔ y ∈ l ∧ y ≠ x) ∧ length l = S (length (delete k l)).
Proof.
  intros Hn Hk. pose proof (delete_Permutation l k x Hk) as Hp. rewrite Hp in Hn.
  apply NoDup_cons in Hn as [Hx Hn]. split; [done |]. split; [| by rewrite Hp at 1].
  intros y. rewrite Hp at 2. rewrite elem_of_cons. naive_solver.
Qed.

Lemma frame_last_item s t i : frame job items s → -1 ≤ i → frame job items (set_last_item t i s).
Proof.
  intros [Hi Ht Hto Hit Hta] H. split; [done | done | done | | done].
  intros t'. unfold last_item. cbn. destruct (decide (t' = t)) as [-> |]; [by rewrite lookup_insert_eq |].
  rewrite lookup_insert_ne by done. apply Hit.
Qed.

Lemma polls_count x y s : polls y (count_poll x s) = if decide (y = x) then S (polls x s) else polls y s.
Proof. unfold polls. cbn. destruct (decide (y = x)) as [-> |]; [by rewrite lookup_insert_eq | by rewrite lookup_insert_ne]. Qed.

(** A job that runs has an end in front of it. *)
Lemma polls_bound s x : inv [] [] s → s_status s !! x = Some D → ends → (polls x s ≤ bound x)%nat.
Proof.
  intros Hs Hx Hend. destruct (decide (polls x s ≤ bound x)%nat) as [| Hgt]; [done |]. exfalso.
  assert (Hi : x ∈ items) by by apply (status_items [] s x D). specialize (Hend x Hi).
  rewrite (bd_polls _ _ _ _ _ (proj1 Hs) x (bound x)) in Hend; [done | lia | by eapply not_done_Some].
Qed.

(** The launcher says that the job is running. *)
Lemma polled_running s t x i : inv [] [] s → s_status s !! x = Some D → -1 ≤ i → poll e x (polls x s) = D →
  let s' := count_poll x (set_last_item t i s) in
  inv [] [] s' ∧ adv s s' ∧ (ends → ahead s s').
Proof.
  intros [Hb Hs] Hx Hi Hv s'.
  assert (Hp : ∀ y, polls y s' = if decide (y = x) then S (polls x s) else polls y s) by (intros y; unfold s'; by rewrite polls_count).
  split; [split; [| done] |].
  - destruct Hb as [Hf Hsc Hpl Hq Hr Hfl Hfn Hpo]. split; try done.
    + refine (frame_ext job items _ _ (frame_last_item s t i Hf Hi) _ _ _ _ _); reflexivity.
    + intros y n. rewrite Hp. case_decide as Hy; [| by apply Hpo]. subst y. intros Hn Hnd.
      destruct (decide (n = polls x s)) as [-> |]; [done |]. apply Hpo; [lia | done].
  - assert (Hrk : ∀ y, (rank y s' ≤ rank y s)%nat).
    { intros y. unfold SchedOps.rank. rewrite Hp. change (s_status s') with (s_status s).
      destruct (decide (y = x)) as [-> |]; [rewrite Hx; lia | done]. }
    split; [by split |]. intros Hend. exists x. split; [by apply (si_dom _ _ _ _ Hs x D) |].
    unfold SchedOps.rank. rewrite Hp, decide_True by done. change (s_status s') with (s_status s). rewrite Hx.
    pose proof (polls_bound s x (conj Hb Hs) Hx Hend).
    assert (polls x s ≠ bound x); [| lia]. intros Heq. specialize (Hend x ltac:(by apply (si_dom _ _ _ _ Hs x D))).
    by rewrite <- Heq, Hv in Hend.
Qed.

(** The launcher says that the job ended. *)
Lemma polled_end s t x k v : inv [] [] s → running t s !! k = Some x → finished v = true →
  let s1 := count_poll x (set_last_item t (Z.of_nat k) s) in
  let s2 := set_status x v (set_last_item t (Z.of_nat k - 1)
              (set_running t (delete k (running t s)) (add_ended v t x s1))) in
  ∃ s', _enqueue_successors job e (Some x) s2 = Ok s' ∧ inv [] [] s' ∧ adv s s' ∧ (ends → ahead s s') ∧
    s_last_target s' = s_last_target s ∧
    ∀ t', running t' s' = if decide (t' = t) then delete k (running t s) else running t' s.
Proof.
  intros [Hb Hs] Hk Hv s1 s2. pose proof (bd_running _ _ _ _ _ Hb t) as Hn.
  destruct (delete_nodup _ k x Hn Hk) as (Hnd & Hdel & _).
  destruct (proj1 (running_iff job e items bound [] s t x Hb)) as [<- Hx]; [by eapply list_elem_of_lookup_2 |].
  destruct (si_dom _ _ _ _ Hs x D Hx) as [Hi Hd].
  destruct (end_running job e items bound [] x v s s2 (delete k (running (tgt x) s))) as [Hb2 Ha2]; try done.
  { unfold s2, s1. destruct v; done. }
  { intros w t y. unfold s2. rewrite at_status, at_last_item, !at_running. case_decide; [done |].
    rewrite !at_ended by done. unfold s1. by rewrite at_count, at_last_item. }
  { unfold s2, s1. destruct v; done. }
  { refine (frame_ext job items (set_last_item (tgt x) (Z.of_nat k - 1) (set_last_item (tgt x) (Z.of_nat k) s)) _ _ _ _ _ _ _);
      [apply frame_last_item; [apply frame_last_item; [apply (bd_frame _ _ _ _ _ Hb) | lia] | lia] | ..]; unfold s2, s1; by destruct v. }
  { unfold s2, s1. by destruct v. }
  { intros t'. unfold s2, s1. change (running t' (set_status _ _ _)) with (running t' (set_running (tgt x) (delete k (running (tgt x) s)) (add_ended v (tgt x) x (count_poll x (set_last_item (tgt x) (Z.of_nat k) s))))).
    rewrite running_set. by destruct v. }
  { intros y. assert (polls y s2 = polls y s1) as -> by (unfold s2; by destruct v). unfold s1. rewrite polls_count. case_decide; [by right | by left]. }
  destruct (successors_ok job e items Hplan [] [] [] x v (s_status s) s2) as (l & Hl & Hs2 & _); try done.
  { unfold s2, s1. by destruct v. }
  { by eapply not_done_Some. }
  { apply NoDup_nil_2. }
  { intros y. rewrite elem_of_nil. naive_solver. }
  destruct (enqueue_all_ok job e items bound Hplan [] l s2 Hs2) as (s3 & He & Hs3 & Ha3 & Hr3 & _ & Hl3).
  exists s3. split; [unfold _enqueue_successors; by rewrite Hl |]. split; [done |]. split; [by etransitivity |]. split; [| split].
  - intros Hend. exists x. split; [done |]. pose proof (ad_rank _ _ _ Ha3 x) as Hr. unfold SchedOps.rank in Hr at 2.
    change (s_status s2) with (<[x := v]> (s_status (set_last_item (tgt x) (Z.of_nat k - 1)
              (set_running (tgt x) (delete k (running (tgt x) s)) (add_ended v (tgt x) x s1))))) in Hr.
    rewrite lookup_insert_eq in Hr. pose proof (polls_bound s x (conj Hb Hs) Hx Hend).
    unfold SchedOps.rank at 2. rewrite Hx. destruct v; try done; lia.
  - rewrite Hl3. unfold s2, s1. by destruct v.
  - intros t'. unfold running at 1. rewrite Hr3. change (running t' s2 = if decide (t' = tgt x) then delete k (running (tgt x) s) else running t' s).
    unfold s2. change (running t' (set_status _ _ _)) with (running t' (set_running (tgt x) (delete k (running (tgt x) s)) (add_ended v (tgt x) x s1))).
    rewrite running_set. unfold s1. by destruct v.
Qed.

Lemma poll_target_ok t n changed s : inv [] [] s →
  ∃ n' c' s', poll_target job e t n changed s = Ok (n', c', s') ∧ inv [] [] s' ∧ adv s s' ∧
    s_last_target s' = s_last_target s ∧ (∀ t', t' ≠ t → running t' s' = running t' s) ∧
    (n' ≤ n)%nat ∧ (length (running t s) + n' ≤ length (running t s') + n)%nat ∧
    (n' = 0%nat ∨ running t s' = []) ∧
    (n ≠ 0%nat → running t s ≠ [] → (n' < n)%nat ∧ (ends → ahead s s')).
Proof.
  revert changed s. induction n as [| n IH]; intros changed s Hs; cbn [poll_target].
  { exists 0%nat, changed, s. split_and!; try done; auto. }
  destruct (running t s) as [| y0 l0] eqn:Hrun.
  { exists (S n), changed, s. rewrite Hrun. split_and!; try done; auto. }
  rewrite <- Hrun.
  destruct (next_item_ok (running t s) (last_item t s)) as (x & k & -> & Hk & _);
    [by rewrite Hrun | apply (fr_item _ _ _ (bd_frame _ _ _ _ _ (proj1 Hs))) |].
  cbn [mbind res_bind].
  destruct (proj1 (running_iff job e items bound [] s t x (proj1 Hs))) as [Ht Hx]; [by eapply list_elem_of_lookup_2 |].
  change (polls x (set_last_item t (Z.of_nat k) s)) with (polls x s).
  pose proof (Hpoll x (polls x s) (status_items [] s x D Hs Hx)) as HnQ.
  rewrite (bool_decide_eq_false_2 (poll e x (polls x s) = Q)) by done. cbn [py_assert negb mbind res_bind].
  destruct (bool_decide_reflect (poll e x (polls x s) = D)) as [HD | HnD].
  - destruct (polled_running s t x (Z.of_nat k) Hs Hx ltac:(lia) HD) as (Hs1 & Ha1 & Hah1).
    set (s1 := count_poll x (set_last_item t (Z.of_nat k) s)) in *.
    destruct (IH changed s1 Hs1) as (n' & c' & s' & -> & Hs' & Ha' & Hl' & Hr' & Hle & Hlen & Hz & _).
    exists n', c', s'. split; [done |]. split; [done |]. split; [by etransitivity |]. split; [done |].
    change (running t s1) with (running t s) in Hlen.
    split_and!; try done; try lia. intros _ _. split; [lia |]. intros He. apply (ahead_l _ s1); auto.
  - assert (Hv : finished (poll e x (polls x s)) = true) by by destruct (poll e x (polls x s)).
    destruct (polled_end s t x k (poll e x (polls x s)) Hs Hk Hv) as (s1 & He & Hs1 & Ha1 & Hah1 & Hl1 & Hr1).
    unfold add_ended in He. rewrite Nat2Z.id, He. cbn [mbind res_bind].
    destruct (IH true s1 Hs1) as (n' & c' & s' & -> & Hs' & Ha' & Hl' & Hr' & Hle & Hlen & Hz & _).
    destruct (delete_nodup _ k x (bd_running _ _ _ _ _ (proj1 Hs) t) Hk) as (_ & _ & Hlen1).
    rewrite (Hr1 t), decide_True in Hlen by done.
    exists n', c', s'. split; [done |]. split; [done |]. split; [by etransitivity |]. split; [congruence |].
    split_and!; try done; try lia.
    + intros t' Hne. rewrite Hr', Hr1 by done. by rewrite decide_False.
    + intros _ _. split; [lia |]. intros Hend. apply (ahead_l _ s1); auto.
Qed.

Definition running_total (s : Scheduler) : nat := sum_list_with (fun t => length (running t s)) targets.

Lemma running_count_eq s : frame job items s → running_count s = Z.of_nat (running_total s).
Proof.
  intros Hf. unfold running_count, running_total. rewrite (fr_targets _ _ _ Hf).
  induction targets as [| t ts IH]; cbn; [done |]. rewrite IH. lia.
Qed.

(** Polls of one target do not take more from the number of running jobs than from the polls left. *)
Lemma running_total_poll t n n' s s' :
  NoDup targets → (∀ t', t' ≠ t → running t' s' = running t' s) → (n' ≤ n)%nat →
  (length (running t s) + n' ≤ length (running t s') + n)%nat →
  (running_total s + n' ≤ running_total s' + n)%nat.
Proof.
  unfold running_total. intros Hn Hr Hle Hlen. induction targets as [| t' ts IH]; cbn; [lia |].
  apply NoDup_cons in Hn as [Ht Hn]. specialize (IH Hn). destruct (decide (t' = t)) as [-> |]; [| rewrite Hr by done; lia].
  assert (sum_list_with (fun t => length (running t s')) ts = sum_list_with (fun t => length (running t s)) ts) as ->; [| lia].
  clear -Hr Ht. induction ts as [| u ts IH]; cbn; [done |]. apply not_elem_of_cons in Ht as [? ?].
  rewrite Hr by done. rewrite IH by done. lia.
Qed.

Lemma running_total_pos s : (0 < running_total s)%nat → ∃ k t, targets !! k = Some t ∧ running t s ≠ [].
Proof.
  unfold running_total. induction targets as [| t ts IH]; cbn; [lia |]. intros H.
  destruct (running t s) as [| y l] eqn:E.
  - destruct IH as (k & t' & ? & ?); [cbn in H; lia |]. by exists (S k), t'.
  - exists 0%nat, t. split; [done |]. by rewrite E.
Qed.

Lemma circular_distance j q N : (j < N)%nat → (q < N)%nat → ∃ k, (k < N)%nat ∧ ((S j + k) mod N = q)%nat.
Proof.
  intros Hj Hq. destruct (decide (S j ≤ q)%nat).
  - exists (q - S j)%nat. split; [lia |]. replace (S j + (q - S j))%nat with q by lia. by apply Nat.mod_small.
  - exists (q + N - S j)%nat. split; [lia |]. replace (S j + (q + N - S j))%nat with (q + 1 * N)%nat by lia.
    rewrite Nat.Div0.mod_add. by apply Nat.mod_small.
Qed.

(** The next target with a running job is [k] turns away. *)
Definition turns_away (s : Scheduler) (k : nat) : Prop :=
  (k < length targets)%nat ∧
  ∃ t, targets !! ((Z.to_nat (s_last_target s + 1) + k) mod length targets)%nat = Some t ∧ running t s ≠ [].

Lemma turns_away_ex s : frame job items s → (0 < running_total s)%nat → ∃ k, turns_away s k.
Proof.
  intros Hf (q & t & Hq & Hr)%running_total_pos. pose proof (lookup_lt_Some _ _ _ Hq) as HqN.
  pose proof (fr_target _ _ _ Hf). set (N := length targets) in *.
  destruct (decide (s_last_target s = -1)) as [E |].
  - exists q. split; [done |]. exists t. split; [| done]. rewrite E. cbn. by rewrite Nat.mod_small.
  - destruct (circular_distance (Z.to_nat (s_last_target s)) q N) as (k & Hk & Hmod); [lia | done |].
    exists k. split; [done |]. exists t. split; [| done].
    replace (Z.to_nat (s_last_target s + 1)) with (S (Z.to_nat (s_last_target s))) by lia.
    unfold N in Hmod. by rewrite Hmod.
Qed.

Lemma frame_last_target s j t : frame job items s → targets !! j = Some t → frame job items (set_last_target (Z.of_nat j) s).
Proof.
  intros [Hi Ht Hto Hit Hta] H. split; try done. cbn. apply lookup_lt_Some in H. lia.
Qed.

Lemma inv_last_target s j t : inv [] [] s → targets !! j = Some t → inv [] [] (set_last_target (Z.of_nat j) s).
Proof.
  intros [[Hf Hsc Hpl Hq Hr Hfl Hfn Hpo] Hs] Hj. split; [| done]. split; try done.
  by apply (frame_last_target s j t).
Qed.

(** The target that the outer loop visits. *)
Lemma next_target_ok s : frame job items s → targets ≠ [] →
  ∃ t j, get_next_item (s_targets s) (s_last_target s) = Ok (t, Z.of_nat j) ∧ targets !! j = Some t ∧
         j = (Z.to_nat (s_last_target s + 1) mod length targets)%nat.
Proof.
  intros Hf Hne. rewrite (fr_targets _ _ _ Hf). pose proof (fr_target _ _ _ Hf) as Hta.
  destruct (next_item_ok targets (s_last_target s) Hne ltac:(lia)) as (t & j & -> & Hj & Hjz).
  exists t, j. split; [done |]. split; [done |].
  destruct (Z.ltb_spec (s_last_target s + 1) (Z.of_nat (length targets))).
  - rewrite Nat.mod_small by lia. lia.
  - replace (Z.to_nat (s_last_target s + 1)) with (length targets) by lia. rewrite Nat.Div0.mod_same. lia.
Qed.

Lemma poll_loop_ok fuel n changed s k :
  inv [] [] s → (n ≤ running_total s)%nat →
  (n ≠ 0%nat → turns_away s k ∧ ((n - 1) * length targets + k + 1 ≤ fuel)%nat) →
  ∃ c' s', poll_loop job e fuel n changed s = Ok (c', s') ∧ inv [] [] s' ∧ adv s s' ∧
    (n ≠ 0%nat → ends → ahead s s').
Proof.
  revert n changed s k. induction fuel as [| fuel IH]; intros [| n] changed s k Hs Hn Hk; cbn [poll_loop];
    try (by exists changed, s); destruct (Hk ltac:(done)) as [(HkN & t0 & Ht0 & Hr0) Hfu]; [lia |].
  pose proof (bd_frame _ _ _ _ _ (proj1 Hs)) as Hf.
  destruct (next_target_ok s Hf) as (t & j & -> & Hj & Hjm); [by intros E; rewrite E in HkN; cbn in HkN; lia |].
  cbn [mbind res_bind]. pose proof (inv_last_target s j t Hs Hj) as Hs1.
  set (s1 := set_last_target (Z.of_nat j) s) in *.
  destruct (poll_target_ok t (S n) changed s1 Hs1) as (n' & c' & s2 & Hpt & Hs2 & Ha2 & Hl2 & Hr2 & Hle & Hlen & Hz & Hp).
  rewrite Hpt. cbn [mbind res_bind].
  assert (Ha1 : adv s s1) by by apply adv_same.
  assert (Hp2 : Z.to_nat (s_last_target s2 + 1) = S j) by (rewrite Hl2; cbn; lia).
  assert (Hn' : (n' ≤ running_total s2)%nat).
  { pose proof (running_total_poll t (S n) n' s1 s2 (targets_nodup _ _ Hplan) Hr2 Hle Hlen).
    change (running_total s1) with (running_total s) in *. lia. }
  destruct (decide (running t s = [])) as [Hrn | Hrn].
  - (* nothing to poll *)
    assert (n' = S n ∧ s2 = s1) as [-> ->].
    { cbn [poll_target] in Hpt. change (running t s1) with (running t s) in Hpt. rewrite Hrn in Hpt. by injection Hpt as <- _ <-. }
    destruct k as [| k]; [rewrite Nat.add_0_r, <- Hjm, Hj in Ht0; naive_solver |].
    destruct (IH (S n) c' s1 k Hs1 Hn') as (c2 & s3 & -> & Hs3 & Ha3 & Hp3).
    + intros _. split; [| lia]. split; [lia |]. exists t0. split; [| done]. rewrite Hp2, Hjm, <- Ht0.
      rewrite <- (Nat.Div0.add_mod_idemp_l _ (S k)). do 2 f_equal. lia.
    + exists c2, s3. split; [done |]. split; [done |]. split; [by etransitivity |]. intros _ He. apply (ahead_r _ s1); auto.
  - destruct (Hp ltac:(done) Hrn) as [Hlt Hah].
    assert (∃ k', n' ≠ 0%nat → turns_away s2 k') as [k' Hk'].
    { destruct n' as [| n']; [by exists 0%nat |].
      destruct (turns_away_ex s2) as [k' ?]; [apply (bd_frame _ _ _ _ _ (proj1 Hs2)) | lia |]. by exists k'. }
    destruct (IH n' c' s2 k' Hs2 Hn') as (c2 & s3 & -> & Hs3 & Ha3 & _).
    + intros Hnz. split; [by apply Hk' |]. destruct (Hk' Hnz) as [Hk'N _]. nia.
    + exists c2, s3. split; [done |]. split; [done |]. split; [etransitivity; [done |]; by etransitivity |].
      intros _ He. apply (ahead_r _ s1); [done |]. apply (ahead_l _ s2); auto.
Qed.

(** [_poll] returns; with a running job, some job gets closer to its end. *)
Lemma poll_ok s : inv [] [] s →
  ∃ c s', _poll job e s = Ok (c, s') ∧ inv [] [] s' ∧ adv s s' ∧
    (max_poll e ≠ 0%nat → (∃ t, running t s ≠ []) → ends → ahead s s') ∧
    ((∀ t, running t s = []) → c = true ∧ s' = s).
Proof.
  intros Hs. unfold _poll. pose proof (bd_frame _ _ _ _ _ (proj1 Hs)) as Hf.
  rewrite (running_count_eq s Hf), Nat2Z.id.
  assert (Hpos : (∃ t, running t s ≠ []) → (0 < running_total s)%nat).
  { intros [t Ht]. destruct (running t s) as [| x l] eqn:E; [done |].
    assert (Hx : tgt x = t ∧ s_status s !! x = Some D) by (apply (running_iff job e items bound [] s t x (proj1 Hs)); rewrite E; by left).
    assert (Htt : t ∈ targets) by (destruct Hx as [<- Hx]; by apply (targets_elem _ _ Hplan), (status_items [] s x D)).
    apply list_elem_of_lookup in Htt as [k Hk]. unfold running_total. clear -Hk E.
    revert k Hk. induction targets as [| u ts IH]; intros k Hk; [done |]. cbn. destruct k as [| k]; [injection Hk as ->; rewrite E; cbn; lia |].
    specialize (IH k Hk). lia. }
  destruct (Nat.min (max_poll e) (running_total s)) as [| n] eqn:En.
  - exists true, s. split; [done |]. split; [done |]. split; [done |]. split; [| done]. intros Hm Hr. specialize (Hpos Hr). lia.
  - destruct (turns_away_ex s Hf ltac:(lia)) as [k Hk].
    destruct (poll_loop_ok (S n * S (length (s_targets s))) (S n) false s k Hs ltac:(lia)) as (c & s' & -> & Hs' & Ha & Hp).
    + intros _. split; [done |]. destruct Hk as [HkN _]. rewrite (fr_targets _ _ _ Hf). nia.
    + exists c, s'. split; [done |]. split; [done |]. split; [done |]. split; [auto |]. intros Hr. exfalso.
      destruct (running_total_pos s ltac:(lia)) as (q & t & _ & Ht). by rewrite Hr in Ht.
Qed.

(** ** The end *)

Definition all_done (s : Scheduler) : Prop := ∀ x, x ∈ items → SchedInv.done (s_status s) x.

(** Nothing is queued and nothing runs: every job ended, target after target. *)
Lemma idle_done s : inv [] [] s → (∀ x, s_status s !! x ≠ Some Q) → (∀ x, s_status s !! x ≠ Some D) → all_done s.
Proof.
  intros [Hb Hs] HQ HD.
  assert (Hstep : ∀ x, x ∈ items → deps_done job items (s_status s) x → SchedInv.done (s_status s) x).
  { intros x Hx Hd. destruct (s_status s !! x) as [v |] eqn:Ev.
    - exists v. split; [done |]. specialize (HQ x). specialize (HD x). destruct v; naive_solver.
    - exfalso. apply (not_elem_of_nil x), (si_enabled _ _ _ _ Hs x). done. }
  enough (H : ∀ i t x, targets !! i = Some t → x ∈ items → tgt x = t → SchedInv.done (s_status s) x).
  { intros x Hx. pose proof (targets_elem job items Hplan x Hx) as [i Hi]%list_elem_of_lookup. by apply (H i (tgt x)). }
  induction i as [| i IH]; intros t x Ht Hx Hxt; apply Hstep; try done; intros d Hd Hdi.
  - exfalso. apply (po_first _ _ Hplan x d Hx); [by rewrite head_lookup, Hxt | done | done].
  - destruct (po_prev _ _ Hplan x d Hx Hd Hdi) as [Hk _].
    apply (next_key_lookup _ _ _ (targets_nodup _ _ Hplan)) in Hk as (j & Hj & Hj').
    rewrite Hxt in Hj'. pose proof (NoDup_lookup _ _ _ _ (targets_nodup _ _ Hplan) Ht Hj') as [= <-].
    by apply (IH (tgt d) d).
Qed.

Lemma done_idle s x : inv [] [] s → all_done s → s_status s !! x ≠ Some Q ∧ s_status s !! x ≠ Some D.
Proof.
  intros Hs Hd. assert (H : ∀ v, s_status s !! x = Some v → finished v = true).
  { intros v Hv. destruct (Hd x) as (w & Hw & Hf); [by apply (status_items [] s x v) | congruence]. }
  split; intros Hv; by apply H in Hv.
Qed.

Lemma no_queue s : body [] s → (∀ x, s_status s !! x ≠ Some Q) → ∀ t, queued t s = [].
Proof.
  intros Hb H t. destruct (queued t s) as [| x l] eqn:E; [done |]. exfalso. apply (H x), (queued_iff s t x Hb). rewrite E. by left.
Qed.

Lemma no_running s : body [] s → (∀ x, s_status s !! x ≠ Some D) → ∀ t, running t s = [].
Proof.
  intros Hb H t. destruct (running t s) as [| x l] eqn:E; [done |]. exfalso.
  apply (H x), (running_iff job e items bound [] s t x Hb). rewrite E. by left.
Qed.

(** *** [_check_if_done] *)

Definition ended (t : string) (s : Scheduler) : gset item := passed t s ∪ failed t s ∪ killed t s.

Lemma ended_iff s t x : body [] s → x ∈ ended t s ↔ tgt x = t ∧ SchedInv.done (s_status s) x.
Proof.
  intros Hb. unfold ended, SchedInv.done. rewrite !elem_of_union.
  rewrite (bd_place _ _ _ _ _ Hb P t x : x ∈ passed t s ↔ _), (bd_place _ _ _ _ _ Hb F t x : x ∈ failed t s ↔ _),
    (bd_place _ _ _ _ _ Hb K t x : x ∈ killed t s ↔ _).
  split; [naive_solver |]. intros (Ht & v & Hv & Hf). destruct v; naive_solver.
Qed.

Lemma ended_size s t : body [] s →
  size (ended t s) = (size (passed t s) + size (failed t s) + size (killed t s))%nat.
Proof.
  intros Hb. unfold ended.
  assert (Hdisj : ∀ v w x, v ≠ w → at_place s v t x → at_place s w t x → False).
  { intros v w x Hne [_ Hv]%(place_only job e items bound [] s) [_ Hw]%(place_only job e items bound [] s); [congruence | done | done]. }
  rewrite !size_union; [done | |].
  - intros x Hp Hf. by apply (Hdisj P F x).
  - intros x [Hp | Hf]%elem_of_union Hk; [by apply (Hdisj P K x) | by apply (Hdisj F K x)].
Qed.

Lemma total_size s t : body [] s → t ∈ targets →
  total t s = Z.of_nat (size (list_to_set (filter (fun x => tgt x = t) items) : gset item)).
Proof.
  intros Hb Ht. rewrite (fr_total _ _ _ (bd_frame _ _ _ _ _ Hb) t Ht), size_list_to_set; [done |].
  apply NoDup_filter, (po_nodup _ _ Hplan).
Qed.

Lemma check_done_iff s : inv [] [] s → _check_if_done s = true ↔ all_done s.
Proof.
  intros Hs. destruct Hs as [Hb Hst] eqn:EHs. clear EHs. unfold _check_if_done. rewrite (sr_keys _ _ _ _ (bd_sched _ _ _ _ _ Hb)).
  assert (Hsub : ∀ t, ended t s ⊆ list_to_set (filter (fun x => tgt x = t) items)).
  { intros t x [Ht (v & Hv & _)]%(ended_iff s t x Hb). apply elem_of_list_to_set, list_elem_of_filter.
    split; [done |]. by apply (status_items [] s x v). }
  assert (Hcnt : ∀ t, t ∈ targets →
    (Z.of_nat (size (passed t s)) + Z.of_nat (size (failed t s)) + Z.of_nat (size (killed t s)) =? total t s) = true ↔
    ended t s = list_to_set (filter (fun x => tgt x = t) items)).
  { intros t Ht. rewrite Z.eqb_eq, (total_size s t Hb Ht). pose proof (ended_size s t Hb) as Hsz. split.
    - intros Heq. apply set_eq, set_subseteq_antisymm; [apply Hsub |].
      assert (ended t s ≡ list_to_set (filter (fun x => tgt x = t) items)) as <- by (apply set_subseteq_size_equiv; [apply Hsub | lia]). done.
    - intros <-. lia. }
  rewrite forallb_forall. split.
  - intros H x Hx. pose proof (targets_elem job items Hplan x Hx) as Ht.
    apply (ended_iff s (tgt x) x Hb). rewrite (proj1 (Hcnt _ Ht) (H _ (proj1 (list_elem_of_In _ _) Ht))).
    apply elem_of_list_to_set, list_elem_of_filter. done.
  - intros H t Ht%list_elem_of_In. apply Hcnt; [done |]. apply set_eq, set_subseteq_antisymm; [apply Hsub |].
    intros x [<- Hx]%elem_of_list_to_set%list_elem_of_filter. apply ended_iff; [done |]. auto.
Qed.

(** ** Killing *)

Definition only_kills (s s' : Scheduler) : Prop :=
  ∀ y, s_status s' !! y = s_status s !! y ∨ s_status s' !! y = Some K.

#[local] Instance only_kills_preorder : PreOrder only_kills.
Proof. split; [by left |]. intros s1 s2 s3 H1 H2 y. destruct (H1 y), (H2 y); naive_solver congruence. Qed.

(** One of the two loops of [_kill]: [f] ends the jobs with status [v] that [pl] lists. *)
Section sweep.
Context (f : Scheduler → item → res Scheduler) (v : status) (pl : string → Scheduler → list item).
Context (Hf : ∀ x s, inv [] [] s → s_status s !! x = Some v →
  ∃ s', f s x = Ok s' ∧ inv [] [] s' ∧ adv s s' ∧ cancels (set_status x K s) s').
Context (Hpl : ∀ s t x, inv [] [] s → x ∈ pl t s ↔ tgt x = t ∧ s_status s !! x = Some v).
Context (Hnodup : ∀ s t, inv [] [] s → NoDup (pl t s)) (HvK : v ≠ K).

Lemma sweep_items l s : inv [] [] s → NoDup l → (∀ x, x ∈ l → s_status s !! x = Some v) →
  ∃ s', foldM f s l = Ok s' ∧ inv [] [] s' ∧ adv s s' ∧ only_kills s s' ∧ ∀ x, x ∈ l → s_status s' !! x = Some K.
Proof.
  revert s. induction l as [| x l IH]; intros s Hs Hn Hl; cbn [foldM].
  { exists s. split_and!; try done. by intros x ?%elem_of_nil. }
  apply NoDup_cons in Hn as [Hx Hn]. destruct (Hf x s Hs) as (s1 & -> & Hs1 & Ha1 & Hc1); [apply Hl; by left |].
  cbn [mbind res_bind].
  assert (Hk1 : only_kills s s1).
  { intros y. destruct (Hc1 y) as [Hy | [_ Hy]]; [| by right]. rewrite Hy. cbn.
    destruct (decide (y = x)) as [-> |]; [right; by rewrite lookup_insert_eq | left; by rewrite lookup_insert_ne]. }
  assert (Hx1 : s_status s1 !! x = Some K).
  { destruct (Hc1 x) as [Hy | [_ Hy]]; [| done]. rewrite Hy. cbn. by rewrite lookup_insert_eq. }
  destruct (IH s1 Hs1 Hn) as (s2 & -> & Hs2 & Ha2 & Hk2 & Hl2).
  { intros y Hy. assert (y ≠ x) by by intros ->. destruct (Hc1 y) as [Hy1 | [Hy1 _]]; cbn in Hy1;
      rewrite lookup_insert_ne in Hy1 by done; rewrite (Hl y ltac:(by right)) in Hy1; done. }
  exists s2. split; [done |]. split; [done |]. split; [by etransitivity |]. split; [by etransitivity |].
  intros y [-> | Hy]%elem_of_cons; [| by apply Hl2]. destruct (Hk2 x) as [-> |]; done.
Qed.

Lemma sweep_targets ts s : inv [] [] s →
  ∃ s', foldM (fun s t => foldM f s (pl t s)) s ts = Ok s' ∧ inv [] [] s' ∧ adv s s' ∧ only_kills s s' ∧
    ∀ x, tgt x ∈ ts → s_status s' !! x ≠ Some v.
Proof.
  revert s. induction ts as [| t ts IH]; intros s Hs; cbn [foldM].
  { exists s. split_and!; try done. by intros x ?%elem_of_nil. }
  destruct (sweep_items (pl t s) s Hs (Hnodup s t Hs)) as (s1 & -> & Hs1 & Ha1 & Hk1 & Hl1); [intros x Hx; by apply Hpl in Hx as [] |].
  cbn [mbind res_bind]. destruct (IH s1 Hs1) as (s2 & -> & Hs2 & Ha2 & Hk2 & Hl2).
  exists s2. split; [done |]. split; [done |]. split; [by etransitivity |]. split; [by etransitivity |].
  intros x [Hx | Hx]%elem_of_cons; [| by apply Hl2]. intros Hv.
  assert (Hv1 : s_status s1 !! x = Some v) by (destruct (Hk2 x); congruence).
  assert (Hv0 : s_status s !! x = Some v) by (destruct (Hk1 x); congruence).
  assert (s_status s1 !! x = Some K) by by apply Hl1, Hpl. congruence.
Qed.
End sweep.

(** [_kill] ends every job. *)
Lemma kill_ok s : inv [] [] s → ∃ s', _kill job e s = Ok s' ∧ inv [] [] s' ∧ adv s s' ∧ only_kills s s' ∧ all_done s'.
Proof.
  intros Hs. unfold _kill.
  destruct (sweep_targets (fun s x => _cancel_item job e x s) Q queued) with (ts := s_targets s) (s := s)
    as (s1 & -> & Hs1 & Ha1 & Hk1 & Hq1); [| | | done | done |].
  { intros x s' Hs' Hx. apply (cancel_item_ok job e items bound Hplan [] x s' Hs'); [by apply (queued_iff s' _ _ (proj1 Hs')) |].
    apply not_elem_of_nil. }
  { intros s' t x Hs'. by apply queued_iff, Hs'. }
  { intros s' t Hs'. apply (bd_queued _ _ _ _ _ (proj1 Hs')). }
  cbn [mbind res_bind].
  destruct (sweep_targets (fun s x => _kill_item job e x s) D running) with (ts := s_targets s1) (s := s1)
    as (s2 & -> & Hs2 & Ha2 & Hk2 & Hq2); [| | | done | done |].
  { intros x s' Hs' Hx. destruct (kill_item_ok job e items bound Hplan [] x s' Hs' Hx) as (s'' & ? & ? & ? & ? & _). by exists s''. }
  { intros s' t x Hs'. by apply (running_iff job e items bound []), Hs'. }
  { intros s' t Hs'. apply (bd_running _ _ _ _ _ (proj1 Hs')). }
  exists s2. split; [done |]. split; [done |]. split; [by etransitivity |]. split; [by etransitivity |].
  assert (Htg : ∀ x w, s_status s2 !! x = Some w → tgt x ∈ targets).
  { intros x w Hw. by apply (targets_elem job items Hplan), (status_items [] s2 x w). }
  rewrite (fr_targets _ _ _ (bd_frame _ _ _ _ _ (proj1 Hs))) in Hq1.
  rewrite (fr_targets _ _ _ (bd_frame _ _ _ _ _ (proj1 Hs1))) in Hq2.
  apply idle_done; [done | |].
  - intros x Hx. destruct (Hk2 x) as [Hx1 |]; [| congruence]. apply (Hq1 x); [by apply (Htg x Q) | congruence].
  - intros x Hx. apply (Hq2 x); [by apply (Htg x D) | done].
Qed.

(** ** The main loop *)

Definition todo (s : Scheduler) : nat := sum_list_with (fun x => rank x s) items.

Lemma todo_ahead s s' : adv s s' → ahead s s' → (todo s' < todo s)%nat.
Proof. intros Ha (x & Hi & Hx). apply (sum_list_lt _ _ _ x); [| done | done]. intros y _. apply Ha. Qed.

Lemma todo_adv s s' : adv s s' → (todo s' ≤ todo s)%nat.
Proof. intros Ha. apply sum_list_le. intros y _. apply Ha. Qed.

(** Nothing runs and not every job has ended: the slots are free and a job is queued. *)
Lemma idle_dispatch s : inv [] [] s → (∀ x, s_status s !! x ≠ Some D) → ¬ all_done s →
  running_count s = 0 ∧ ∃ t, queued t s ≠ [].
Proof.
  intros Hs Hnr Hnd. split.
  - rewrite (running_count_eq s (bd_frame _ _ _ _ _ (proj1 Hs))). unfold running_total.
    pose proof (no_running s (proj1 Hs) Hnr) as Hr.
    assert (sum_list_with (fun t => length (running t s)) targets = 0%nat) as ->; [| done].
    clear -Hr. induction targets as [| t ts IH]; cbn; [done |]. by rewrite Hr, IH.
  - destruct (decide (Exists (fun x => s_status s !! x = Some Q) items)) as [Hq | Hnq].
    + apply Exists_exists in Hq as (x & _ & Hx). exists (tgt x).
      assert (Hin : x ∈ queued (tgt x) s) by by apply (queued_iff s _ x (proj1 Hs)).
      intros E. rewrite E in Hin. by apply elem_of_nil in Hin.
    + exfalso. apply Hnd, idle_done; [done | | done].
      intros x Hx. apply Hnq, Exists_exists. exists x. split; [by apply (status_items [] s x Q) | done].
Qed.

(** A turn of the loop returns.  It ends the loop when every job had ended before, or after an
    interrupt; if it does not end the loop, some job got closer to its end. *)
Lemma iteration_ok i s : inv [] [] s →
  ∃ b s', iteration job e i s = Ok (b, s') ∧ inv [] [] s' ∧ adv s s' ∧
    (b = true → all_done s') ∧
    (all_done s ∨ stop_now e i = true → b = true) ∧
    (ends → 0 < max_parallel e → max_poll e ≠ 0%nat → b = false → ahead s s').
Proof.
  intros Hs. unfold iteration.
  assert (∃ s0, (if stop_now e i then _kill job e s else Ok s) = Ok s0 ∧ inv [] [] s0 ∧ adv s s0 ∧
    (stop_now e i = true → all_done s0) ∧ (all_done s → all_done s0)) as (s0 & -> & Hs0 & Ha0 & Hd0 & Hd0').
  { destruct (stop_now e i); [| by exists s]. destruct (kill_ok s Hs) as (s' & ? & ? & ? & _ & ?). exists s'. split_and!; try done. }
  cbn [mbind res_bind]. destruct (poll_ok s0 Hs0) as (c & s1 & -> & Hs1 & Ha1 & Hp1 & Hr1). cbn [mbind res_bind].
  destruct (dispatch_ok s1 Hs1) as (s2 & -> & Hs2 & Ha2 & Hp2 & Hr2). cbn [mbind res_bind].
  exists ((c || check_time e i) && _check_if_done s2), s2. split; [done |]. split; [done |].
  assert (Ha : adv s s2) by (etransitivity; [done |]; by etransitivity). split; [done |].
  split; [| split].
  - intros [_ Hc]%andb_true_iff. by apply check_done_iff.
  - intros Hor. assert (Hd : all_done s0) by (destruct Hor; auto).
    pose proof (no_running s0 (proj1 Hs0) (fun x => proj2 (done_idle s0 x Hs0 Hd))) as Hr0.
    pose proof (no_queue s0 (proj1 Hs0) (fun x => proj1 (done_idle s0 x Hs0 Hd))) as Hq0.
    destruct (Hr1 Hr0) as [-> ->]. rewrite (Hr2 Hq0). cbn. by apply check_done_iff.
  - intros Hend Hmp Hmax Hb. destruct (decide (_check_if_done s0 = true)) as [Hd | Hnd].
    + exfalso. assert (Hall : all_done s0) by by apply check_done_iff.
      pose proof (no_running s0 (proj1 Hs0) (fun x => proj2 (done_idle s0 x Hs0 Hall))) as Hr0.
      pose proof (no_queue s0 (proj1 Hs0) (fun x => proj1 (done_idle s0 x Hs0 Hall))) as Hq0.
      destruct (Hr1 Hr0) as [-> ->]. rewrite (Hr2 Hq0), Hd in Hb. done.
    + destruct (decide (Exists (fun t => running t s0 ≠ []) targets)) as [Hex | Hnex].
      * apply Exists_exists in Hex as (t & _ & Ht). apply (ahead_r _ s0); [done |]. apply (ahead_l _ s1); [| done].
        apply Hp1; [done | by exists t | done].
      * assert (Hnr : ∀ x, s_status s0 !! x ≠ Some D).
        { intros x Hx. apply Hnex, Exists_exists. exists (tgt x).
          split; [by apply (targets_elem job items Hplan), (status_items [] s0 x D) |].
          assert (Hin : x ∈ running (tgt x) s0) by by apply (running_iff job e items bound [] s0 _ x (proj1 Hs0)).
          intros E. rewrite E in Hin. by apply elem_of_nil in Hin. }
        destruct (Hr1 (no_running s0 (proj1 Hs0) Hnr)) as [-> ->]. apply (ahead_r _ s0); [done |].
        destruct (idle_dispatch s0 Hs0 Hnr) as [Hrc Hq]; [by rewrite <- check_done_iff |]. apply Hp2; [lia | done].
Qed.
End loops.
