(* ===== verification/SchedProps.v ===== *)
(** The job scheduler of dvsim runs every job of a plan it can work off. *)

From S2P Require Import Prelude BitLoops PyList Yaml Scheduler SchedInv SchedOps SchedLoop.

Import Scheduler.

(** What the scheduler relies on: no launcher answers a poll with ["Q"], and iterating over a set
    visits each of its elements once. *)
Record env_ok (e : env) : Prop := {
  eo_poll x n : poll e x n ≠ Q;
  eo_order l : set_order e l ≡ₚ l;
}.

Section run.
Context (job : item → Deploy) (e : env) (items : list item) (bound : item → nat).
Context (Hplan : plan_ok job items) (Hne : items ≠ []) (He : env_ok e).

Notation tgt x := (target (job x)).
Notation cfg x := (sim_cfg (job x)).
Notation targets := (targets job items).
Notation inv := (inv job e items).

(** ** Construction *)

Lemma each_lookup {A} (v : A) (l : list string) t : default v ((list_to_map ((fun t => (t, v)) <$> l) : gmap string A) !! t) = v.
Proof.
  destruct (_ !! t) as [w |] eqn:E; [| done]. apply elem_of_list_to_map_2, list_elem_of_fmap in E as (t' & [= _ ->] & _). done.
Qed.

Lemma init_total t : t ∈ targets → total t (init job items) = Z.of_nat (length (filter (fun x => tgt x = t) items)).
Proof.
  intros Ht. pose proof (built_ok job items (po_nodup _ _ Hplan)) as Hbu.
  destruct (sched_get job items ∅ (add_to_scheduled job items []) t) as [d Hd]; [by apply init_sched_rel | done |].
  unfold total, init. cbn [s_total]. rewrite <- (bu_total _ _ _ Hbu t d Hd).
  assert (list_to_map ((fun kv => (kv.1, sum_dict_lists kv.2)) <$> add_to_scheduled job items []) !! t = Some (sum_dict_lists d)) as ->; [| done].
  apply elem_of_list_to_map_1.
  - rewrite <- list_fmap_compose. apply (bu_nodup _ _ _ Hbu).
  - apply list_elem_of_fmap. exists (t, d). split; [done |]. by apply dget_Some_elem.
Qed.

Lemma init_body : body job e items [] (init job items).
Proof.
  split; cbn [s_status s_scheduled init].
  - split; [done | done | apply init_total | |].
    + intros t. unfold last_item, init. cbn [s_last_item]. by rewrite each_lookup.
    + cbn. lia.
  - by apply init_sched_rel.
  - intros v t x. rewrite lookup_empty. split; [| naive_solver].
    destruct v; cbn; unfold queued, running, passed, failed, killed; cbn; rewrite each_lookup; set_solver.
  - intros t. unfold queued. cbn. rewrite each_lookup. apply NoDup_nil_2.
  - intros t. unfold running. cbn. rewrite each_lookup. apply NoDup_nil_2.
  - by intros x ?%elem_of_nil.
  - apply NoDup_nil_2.
  - intros x n. unfold polls, init. cbn [s_polls]. rewrite lookup_empty. cbn. lia.
Qed.

(** ** The first target *)

Lemma add_all_successors s d cfgs acc : (∀ c, c ∈ cfgs → c ∈ d.*1) →
  foldM (fun successors c => cfg_list ← of_option KeyError (dget c d); foldM (add_successor job s None) successors cfg_list) acc cfgs =
  Ok (acc ++ (cfgs ≫= fun c => filter (fun y => succ_of job s None y) (default [] (dget c d)))).
Proof.
  revert acc. induction cfgs as [| c cfgs IH]; intros acc Hc; cbn [foldM mbind list_bind]; [by rewrite app_nil_r |].
  destruct (dget c d) as [l |] eqn:E; [| apply dget_None in E; exfalso; apply E, Hc; by left].
  cbn [of_option mbind res_bind default]. rewrite add_successors by done. cbn [mbind res_bind].
  rewrite IH by (intros c' ?; apply Hc; by right). by rewrite <- app_assoc.
Qed.

Lemma first_enabled x : x ∈ items → deps_done job items ∅ x ↔ head targets = Some (tgt x).
Proof.
  intros Hx. split.
  - intros Hd. destruct (decide (head targets = Some (tgt x))) as [| Hh]; [done |].
    destruct (po_some _ _ Hplan x Hx Hh) as (d & Hdd & Hdi). by destruct (Hd d Hdd Hdi) as (v & Hv & _).
  - intros Hh d Hd Hdi. by destruct (po_first _ _ Hplan x d Hx Hh Hd).
Qed.

Lemma init_successors : ∃ l, _get_successors job e None (init job items) = Ok l ∧ inv [] l (init job items).
Proof.
  unfold _get_successors, _get_next_target. cbn [fmap option_fmap option_map s_scheduled init].
  assert (∃ x0, x0 ∈ items) as [x0 Hi0] by (clear -Hne; destruct items as [| x l]; [done | exists x; by left]).
  pose proof (targets_elem job items Hplan x0 Hi0) as Hx0.
  pose proof (init_sched_rel job items Hplan) as Hr.
  change ((add_to_scheduled job items []).*1) with targets.
  destruct (head targets) as [t |] eqn:Eh; [| by destruct targets; [apply elem_of_nil in Hx0 |]].
  cbn [of_option mbind res_bind].
  assert (Ht : t ∈ targets) by (destruct targets; [done |]; injection Eh as ->; by left).
  destruct (sched_get job items ∅ _ t Hr Ht) as [d Hd]. rewrite Hd. cbn [of_option mbind res_bind].
  pose proof (eo_order e He d.*1) as Hperm.
  rewrite add_all_successors by (intros c; by rewrite Hperm). eexists. split; [done |]. split; [apply init_body |].
  cbn [app s_status init].
  assert (Hin : ∀ c x, x ∈ default [] (dget c d) ↔ x ∈ items ∧ tgt x = t ∧ cfg x = c).
  { intros c x. rewrite <- (slist_get _ t d) by done. rewrite (sr_list _ _ _ _ Hr), lookup_empty. naive_solver. }
  assert (Hok : ∀ x, succ_of job (init job items) None x = true ↔ deps_done job items ∅ x).
  { intros x. unfold succ_of. cbn [andb]. by rewrite (ok_to_enqueue_iff job items). }
  split; [done | done | |].
  - apply NoDup_bind.
    + intros c1 c2 y _ _ [_ (_ & _ & <-)%Hin]%filter_ok [_ (_ & _ & <-)%Hin]%filter_ok. done.
    + intros c _. apply NoDup_filter. rewrite <- (slist_get _ t d) by done. apply Hr.
    + rewrite Hperm. by apply (sr_cfgs _ _ _ _ Hr t).
  - intros x. rewrite list_elem_of_bind. unfold enabled. rewrite lookup_empty. split.
    + intros (c & Hx & Hc). apply filter_ok in Hx as [Hd' (Hx & _)%Hin]. by apply Hok in Hd'.
    + intros (Hx & _ & Hdd). assert (Htx : tgt x = t) by (apply first_enabled in Hdd; [congruence | done]).
      exists (cfg x). split; [apply filter_ok; split; [by apply Hok | by apply Hin] |]. rewrite Hperm.
        destruct (dget (cfg x) d) as [l |] eqn:E; [by apply dget_Some_elem, (list_elem_of_fmap_2 fst) in E |].
        assert (Hx' : x ∈ default [] (dget (cfg x) d)) by by apply Hin. rewrite E in Hx'. by apply elem_of_nil in Hx'.
Qed.

Lemma enqueue_first_ok : ∃ s, _enqueue_successors job e None (init job items) = Ok s ∧ inv [] [] s ∧ adv bound (init job items) s.
Proof.
  destruct init_successors as (l & Hl & Hs). unfold _enqueue_successors. rewrite Hl. cbn [mbind res_bind].
  destruct (enqueue_all_ok job e items bound Hplan [] l _ Hs) as (s & ? & ? & ? & _). by exists s.
Qed.

(** ** The loop *)

Lemma loop_ok fuel i s : inv [] [] s →
  ∃ r s', loop job e fuel i s = Ok (r, s') ∧ inv [] [] s' ∧
    (∀ st, r = Some st → st = s_status s' ∧ all_done items s') ∧
    (r = None →
      (∀ k, (k < fuel)%nat → stop_now e (i + k) = false) ∧
      (ends e items bound → 0 < max_parallel e → max_poll e ≠ 0%nat →
       (todo items bound s' + fuel ≤ todo items bound s)%nat)).
Proof.
  revert i s. induction fuel as [| fuel IH]; intros i s Hs; cbn [loop].
  { exists None, s. split; [done |]. split; [done |]. split; [done |]. intros _. split; [intros k Hk; lia | intros; lia]. }
  destruct (iteration_ok job e items bound Hplan (fun x n _ => eo_poll e He x n) i s Hs)
    as (b & s1 & -> & Hs1 & Ha1 & Hd1 & Hb1 & Hp1). cbn [mbind res_bind].
  destruct b.
  { exists (Some (s_status s1)), s1. split; [done |]. split; [done |]. split; [| done]. intros st [= <-]. split; [done | by apply Hd1]. }
  destruct (IH (S i) s1 Hs1) as (r & s' & -> & Hs' & Hr & Hn). exists r, s'. split; [done |]. split; [done |]. split; [done |].
  intros Hnone. destruct (Hn Hnone) as [Hstop Hlt]. split.
  - intros [| k] Hk; [rewrite Nat.add_0_r; destruct (stop_now e i); [by specialize (Hb1 (or_intror eq_refl)) | done] |].
    rewrite <- (Hstop k) by lia. f_equal. lia.
  - intros Hend Hmp Hmax. specialize (Hlt Hend Hmp Hmax).
    pose proof (todo_ahead items bound s s1 Ha1 (Hp1 Hend Hmp Hmax eq_refl)). lia.
Qed.

Lemma run_from_init fuel :
  ∃ r s', run job e fuel (init job items) = Ok (r, s') ∧ inv [] [] s' ∧
    (∀ st, r = Some st → st = s_status s' ∧ all_done items s') ∧
    (r = None →
      (∀ k, (k < fuel)%nat → stop_now e k = false) ∧
      (ends e items bound → 0 < max_parallel e → max_poll e ≠ 0%nat →
       (fuel ≤ sum_list_with (fun x => bound x + 2)%nat items)%nat)).
Proof.
  destruct enqueue_first_ok as (s & Hst & Hs & Ha). unfold run. rewrite Hst. cbn [mbind res_bind].
  destruct (loop_ok fuel 0 s Hs) as (r & s' & -> & Hs' & Hr & Hn). exists r, s'. split; [done |]. split; [done |]. split; [done |].
  intros Hnone. destruct (Hn Hnone) as [Hstop Hlt]. split; [done |]. intros Hend Hmp Hmax. specialize (Hlt Hend Hmp Hmax).
  pose proof (todo_adv items bound _ s Ha) as Hle.
  assert (todo items bound (init job items) = sum_list_with (fun x => bound x + 2)%nat items) as Ht; [| lia].
  assert (Hrk : ∀ x, rank bound x (init job items) = (bound x + 2)%nat).
  { intros x. unfold rank. cbn [s_status init]. rewrite lookup_empty. lia. }
  assert (Hl : ∀ l, sum_list_with (fun x => rank bound x (init job items)) l = sum_list_with (fun x => bound x + 2)%nat l); [| apply Hl].
  intros l. induction l as [| x l IH]; cbn [sum_list_with]; [done |]. by rewrite IH, Hrk.
Qed.

Lemma consistent_ok s : inv [] [] s →
  (∀ v t x, at_place s v t x ↔ target (job x) = t ∧ s_status s !! x = Some v) ∧
  (∀ x v, s_status s !! x = Some v → ran v = true → run_ok job items (s_status s) x).
Proof.
  intros [Hb Hs]. split.
  - intros v t x. rewrite (bd_place _ _ _ _ _ Hb). pose proof (not_elem_of_nil x). naive_solver.
  - intros x v. apply (si_ran _ _ _ _ Hs).
Qed.
End run.

(** ** Theorems *)

(** C4: the scheduler never fails on a plan it can work off, whatever the launchers answer,
    whenever the user interrupts it and however long it runs: no assertion, key, index or division
    error.  Its sets agree with [item_to_status]; a job that was started had the dependencies it
    needs; and when the loop ends, every job has passed, failed or been killed. *)
Theorem scheduler_safe job e items fuel : plan_ok job items → items ≠ [] → env_ok e →
  ∃ r s', Scheduler.run job e fuel (Scheduler.init job items) = Ok (r, s') ∧
    (∀ v t x, at_place s' v t x ↔ target (job x) = t ∧ s_status s' !! x = Some v) ∧
    (∀ x v, s_status s' !! x = Some v → ran v = true → run_ok job items (s_status s') x) ∧
    (∀ st, r = Some st → st = s_status s' ∧
      ∀ x, x ∈ items → ∃ v, st !! x = Some v ∧ Scheduler.finished v = true).
Proof.
  intros Hp Hne He. destruct (run_from_init job e items (fun _ => 0%nat) Hp Hne He fuel) as (r & s' & Hr & Hs' & Hd & _).
  exists r, s'. split; [done |]. destruct (consistent_ok job e items (fun _ => 0%nat) s' Hs') as [Hpl Hrun]. split; [done |]. split; [done |].
  intros st Hst. destruct (Hd st Hst) as [-> Hall]. by split.
Qed.

(** C5: the scheduler ends: on a non-empty plan it can work off ([plan_ok]), with launchers that
    never answer that a job is queued, if every launcher reports the end of its job at poll
    [bound x] and at least one job may run and be polled, the loop ends within [2 + bound x] turns per
    job and one more, with a final status for every job. *)
Theorem scheduler_ends job e items bound : plan_ok job items → items ≠ [] → env_ok e →
  (∀ x, x ∈ items → Scheduler.finished (poll e x (bound x)) = true) → 0 < max_parallel e → max_poll e ≠ 0%nat →
  ∃ st s', Scheduler.run job e (S (sum_list_with (fun x => bound x + 2)%nat items)) (Scheduler.init job items) = Ok (Some st, s') ∧
    ∀ x, x ∈ items → ∃ v, st !! x = Some v ∧ Scheduler.finished v = true.
Proof.
  intros Hp Hne He Hend Hmp Hmax.
  destruct (run_from_init job e items bound Hp Hne He (S (sum_list_with (fun x => bound x + 2)%nat items)))
    as ([st |] & s' & Hr & _ & Hd & Hn).
  - exists st, s'. split; [done |]. destruct (Hd st eq_refl) as [-> Hall]. done.
  - destruct (Hn eq_refl) as [_ Hle]. specialize (Hle Hend Hmp Hmax). lia.
Qed.

(** C30: on a non-empty plan the scheduler can work off ([plan_ok]), with launchers that never answer
    that a job is queued, an interrupt in turn [i] ends the loop in that turn at the latest, with
    every job passed, failed or killed, even when no launcher ever reports an end. *)
Theorem scheduler_interrupt job e items i : plan_ok job items → items ≠ [] → env_ok e → stop_now e i = true →
  ∃ st s', Scheduler.run job e (S i) (Scheduler.init job items) = Ok (Some st, s') ∧
    ∀ x, x ∈ items → ∃ v, st !! x = Some v ∧ Scheduler.finished v = true.
Proof.
  intros Hp Hne He Hstop.
  destruct (run_from_init job e items (fun _ => 0%nat) Hp Hne He (S i)) as ([st |] & s' & Hr & _ & Hd & Hn).
  - exists st, s'. split; [done |]. destruct (Hd st eq_refl) as [-> Hall]. done.
  - destruct (Hn eq_refl) as [Hf _]. rewrite Hf in Hstop by lia. done.
Qed.

(** ** Examples *)

(** Two builds and their tests, the coverage merge of all tests. *)
Definition plan_jobs (x : item) : Deploy :=
  match x with
  | 0%nat => mkDeploy "build" "uart" [] true 5
  | 1%nat => mkDeploy "run" "uart" [0%nat] true 1
  | 2%nat => mkDeploy "run" "uart" [0%nat] true 1
  | _ => mkDeploy "cov_merge" "uart" [1%nat; 2%nat] false 10
  end.
Definition plan_items : list item := [0; 1; 2; 3]%nat.

(** Job 1 fails, the others pass, each at its second poll. *)
Definition plan_env (stop : nat → bool) : env :=
  mkEnv (fun x n => match n with 0%nat => D | _ => if decide (x = 1%nat) then F else P end)
    (fun _ => true) (fun _ => false) stop (fun l => l) 2 4.

Ltac each_item := repeat match goal with
  | H : _ ∈ [] |- _ => by apply elem_of_nil in H
  | H : _ ∈ _ :: _ |- _ => apply elem_of_cons in H as [-> | H]
  end.

Lemma plan_items_ok : plan_ok plan_jobs plan_items.
Proof.
  split.
  - by apply (bool_decide_unpack _).
  - intros x d Hx. unfold plan_items in Hx. each_item; intros Hh Hd; try discriminate Hh; cbn in Hd; each_item.
  - intros x Hx. unfold plan_items in Hx. each_item; intros Hh; [by destruct Hh | | |].
    + exists 0%nat. split; [by left | by apply (bool_decide_unpack _)].
    + exists 0%nat. split; [by left | by apply (bool_decide_unpack _)].
    + exists 1%nat. split; [by left | by apply (bool_decide_unpack _)].
  - intros x d Hx. unfold plan_items in Hx. each_item; cbn [plan_jobs dependencies]; intros Hd _; each_item; done.
  - intros x t Hx. unfold plan_items in Hx. each_item; intros [= <-].
    + exists 1%nat. split_and!; by apply (bool_decide_unpack _).
    + exists 3%nat. split_and!; by apply (bool_decide_unpack _).
    + exists 3%nat. split_and!; by apply (bool_decide_unpack _).
  - intros x Hx. unfold plan_items in Hx. by each_item.
Qed.

Lemma plan_env_ok stop : env_ok (plan_env stop).
Proof. split; [| done]. intros x [| n]; cbn; [done |]. by case_decide. Qed.

Lemma scheduler_safe_witness : ∃ r s', Scheduler.run plan_jobs (plan_env (fun _ => false)) 3 (Scheduler.init plan_jobs plan_items) = Ok (r, s') ∧
    (∀ v t x, at_place s' v t x ↔ target (plan_jobs x) = t ∧ s_status s' !! x = Some v) ∧
    (∀ x v, s_status s' !! x = Some v → ran v = true → run_ok plan_jobs plan_items (s_status s') x) ∧
    (∀ st, r = Some st → st = s_status s' ∧
      ∀ x, x ∈ plan_items → ∃ v, st !! x = Some v ∧ Scheduler.finished v = true).
Proof. apply (scheduler_safe plan_jobs (plan_env (fun _ => false)) plan_items 3); [apply plan_items_ok | done | apply plan_env_ok]. Defined.

Lemma scheduler_ends_witness :
  ∃ st s', Scheduler.run plan_jobs (plan_env (fun _ => false)) 13 (Scheduler.init plan_jobs plan_items) = Ok (Some st, s') ∧
    ∀ x, x ∈ plan_items → ∃ v, st !! x = Some v ∧ Scheduler.finished v = true.
Proof.
  apply (scheduler_ends plan_jobs (plan_env (fun _ => false)) plan_items (fun _ => 1%nat));
    [apply plan_items_ok | done | apply plan_env_ok | | done | done].
  intros x _. cbn. by case_decide.
Defined.

Lemma scheduler_interrupt_witness :
  ∃ st s', Scheduler.run plan_jobs (plan_env (fun i => bool_decide (i = 2%nat))) 3 (Scheduler.init plan_jobs plan_items) = Ok (Some st, s') ∧
    ∀ x, x ∈ plan_items → ∃ v, st !! x = Some v ∧ Scheduler.finished v = true.
Proof.
  apply (scheduler_interrupt plan_jobs (plan_env (fun i => bool_decide (i = 2%nat))) plan_items 2);
    [apply plan_items_ok | done | apply plan_env_ok | done].
Defined.

(** The results: the failed test does not keep the merge from running. *)
Definition results (items : list item) (r : res (option (gmap item status) * Scheduler)) : option (list (option status)) :=
  match r with Ok (Some st, _) => Some ((fun x => st !! x) <$> items) | _ => None end.

Example plan_result :
  results plan_items (Scheduler.run plan_jobs (plan_env (fun _ => false)) 13 (Scheduler.init plan_jobs plan_items)) =
  Some [Some P; Some F; Some P; Some P].
Proof. vm_compute. reflexivity. Qed.

(** *** A job that nothing depends on *)

(** Two builds of a configuration and a test of one of them. *)
Definition orphan_jobs (x : item) : Deploy :=
  match x with
  | 0%nat | 1%nat => mkDeploy "build" "uart" [] true 5
  | _ => mkDeploy "run" "uart" [0%nat] true 1
  end.

(** Without a job that depends on it, a job of a target that is not the last can end the
    scheduler with a [KeyError]: the test is queued when the first build passes, which removes the
    configuration from the target's dictionary, and the end of the second build looks it up. *)
Example orphan_key_error :
  Scheduler.run orphan_jobs (plan_env (fun _ => false)) 13 (Scheduler.init orphan_jobs [0; 1; 2]%nat) = Err KeyError.
Proof. vm_compute. reflexivity. Qed.

(** *** More jobs than [max_parallel] *)

Definition crowd_jobs (x : item) : Deploy :=
  match x with
  | 0%nat | 1%nat => mkDeploy "build" "uart" [] true 1
  | 2%nat => mkDeploy "run" "uart" [0%nat] true 3
  | 3%nat => mkDeploy "run" "uart" [1%nat] true 3
  | 4%nat => mkDeploy "run" "uart" [0%nat; 1%nat] false 3
  | 5%nat => mkDeploy "cov_merge" "uart" [2%nat; 3%nat] false 3
  | _ => mkDeploy "cov_merge" "uart" [4%nat] true 3
  end.
Definition crowd_items : list item := [0; 1; 2; 3; 4; 5; 6]%nat.

(** One job at a time; build 1 fails. *)
Definition crowd_env : env :=
  mkEnv (fun x n => match n with 0%nat => D | _ => if decide (x = 1%nat) then F else P end)
    (fun _ => true) (fun _ => false) (fun _ => false) (fun l => l) 1 4.

(** [_dispatch] can start more jobs than [max_parallel] allows: the slots of a target are a share
    of [total_weight], which is computed before a cancelled job queues its successors in a target
    that had no queue. *)
Example max_parallel_exceeded :
  ∃ s', Scheduler.run crowd_jobs crowd_env 7 (Scheduler.init crowd_jobs crowd_items) = Ok (None, s') ∧
    max_parallel crowd_env < running_count s'.
Proof. eexists. split; [vm_compute; reflexivity |]. vm_compute. reflexivity. Qed.
