(* ===== verification/KnownMem.v ===== *)
(** What memory has known values (otbn/dv/rig/rig/known_mem.py): the random instruction generator
    tracks ranges of addresses and picks targets for loads and stores. *)

From stdpp Require Import sorting.
From S2P Require Import Prelude PyList.

Notation range := (Z * Z)%type.

(** ** The extended Euclidean algorithm *)

(** The [while] loop; every turn brings [r_nxt] closer to zero. *)
Fixpoint euclid_loop (fuel : nat) (r r_nxt s s_nxt t t_nxt : Z) : res (Z * Z * Z) :=
  if r_nxt =? 0 then Ok (r, s, t)
  else
    match fuel with
    | O => Err OutOfFuel
    | S fuel =>
        let q := r / r_nxt in
        euclid_loop fuel r_nxt (r - q * r_nxt) s_nxt (s - q * s_nxt) t_nxt (t - q * t_nxt)
    end.

Definition _extended_euclidean_algorithm (a b : Z) : res (Z * Z * Z) :=
  '(r, s, t) ← euclid_loop (Z.to_nat (Z.abs b)) a b 1 0 0 1;
  Ok (if r <? 0 then (- r, - s, - t) else (r, s, t)).

(** ** Intersection *)

(** Python's order of [((lo, hi), is_b)]. *)
Definition paired_le (x y : range * bool) : Prop :=
  x.1.1 < y.1.1 ∨ x.1.1 = y.1.1 ∧ (x.1.2 < y.1.2 ∨ x.1.2 = y.1.2 ∧ (x.2 = false ∨ y.2 = true)).

#[global] Instance paired_le_dec x y : Decision (paired_le x y).
Proof. unfold paired_le. apply _. Defined.

(** One turn: the last range of each list, and the result so far. *)
Definition intersect_step (st : option range * option range * list range) (x : range * bool) :
    option range * option range * list range :=
  let '(arng, brng, ret) := st in
  let '((lo, hi), is_b) := x in
  if (is_b : bool) then
    (arng, Some (lo, hi),
     match arng with
     | Some (a0, a1) => if (a0 <=? hi) && (lo <=? a1) then ret ++ [(Z.max a0 lo, Z.min a1 hi)] else ret
     | None => ret
     end)
  else
    (Some (lo, hi), brng,
     match brng with
     | Some (b0, b1) => if (b0 <=? hi) && (lo <=? b1) then ret ++ [(Z.max lo b0, Z.min hi b1)] else ret
     | None => ret
     end).

Definition _intersect_ranges (a b : list range) : list range :=
  let paired := ((fun r => (r, false)) <$> a) ++ ((fun r => (r, true)) <$> b) in
  let '(_, _, ret) := foldl intersect_step (None, None, []) (merge_sort paired_le paired) in
  ret.

(** ** The class *)

Record KnownMem := mkKnownMem {
  top_addr : Z;
  known_ranges : list range;
}.

Module KnownMem.

Definition init (top_addr : Z) : res KnownMem :=
  py_assert (0 <? top_addr);;
  Ok (mkKnownMem top_addr []).

Definition copy (m : KnownMem) : res KnownMem :=
  ret ← init (top_addr m);
  Ok (mkKnownMem (top_addr ret) (known_ranges m)).

Definition merge (m other : KnownMem) : res KnownMem :=
  py_assert (top_addr m =? top_addr other);;
  Ok (mkKnownMem (top_addr m) (_intersect_ranges (known_ranges m) (known_ranges other))).

(** The loop over the ranges: the last index whose range starts at or below the address, the first
    whose range starts above. *)
Fixpoint find_around (addr : Z) (idx : nat) (below : option nat) (ranges : list range) : option nat * option nat :=
  match ranges with
  | [] => (below, None)
  | (lo, hi) :: ranges =>
      if lo <=? addr then find_around addr (S idx) (Some idx) ranges else (below, Some idx)
  end.

Definition touch_addr (m : KnownMem) (addr : Z) : res KnownMem :=
  py_assert ((0 <=? addr) && (addr <? top_addr m));;
  let l := known_ranges m in
  let set v := mkKnownMem (top_addr m) v in
  let get (i : nat) := of_option IndexError (l !! i) in
  let '(last_idx_below, first_idx_above) := find_around addr 0 None l in
  match last_idx_below with
  | None =>
      let disjoint := Ok (set ((addr, addr + 1) :: l)) in
      match first_idx_above with
      | Some first =>
          '(lo, hi) ← get first;
          py_assert (addr <? lo);;
          if addr =? lo - 1 then Ok (set (<[first := (lo - 1, hi)]> l)) else disjoint
      | None => disjoint
      end
  | Some last =>
      '(left_lo, left_hi) ← get last;
      if addr <? left_hi then Ok m
      else
        let left := take last l in
        if addr =? left_hi then
          match first_idx_above with
          | None => Ok (set (left ++ [(left_lo, left_hi + 1)]))
          | Some first =>
              py_assert (bool_decide (first = (last + 1)%nat));;
              '(right_lo, right_hi) ← get first;
              py_assert (addr <? right_lo);;
              if addr =? right_lo - 1 then Ok (set (left ++ [(left_lo, right_hi)] ++ drop (first + 1) l))
              else Ok (set (left ++ [(left_lo, left_hi + 1)] ++ drop first l))
          end
        else
          match first_idx_above with
          | None => Ok (set (l ++ [(addr, addr + 1)]))
          | Some first =>
              let left_inc := take first l in
              py_assert (bool_decide (first = (last + 1)%nat));;
              '(right_lo, right_hi) ← get first;
              py_assert (addr <? right_lo);;
              if addr =? right_lo - 1 then Ok (set (left_inc ++ [(right_lo - 1, right_hi)] ++ drop (first + 1) l))
              else Ok (set (left_inc ++ [(addr, addr + 1)] ++ drop first l))
          end
  end.

Definition touch_range (m : KnownMem) (base width : Z) : res KnownMem :=
  py_assert (0 <=? width);;
  py_assert ((0 <=? base) && (base <=? top_addr m - width));;
  foldM (fun m off => touch_addr m (base + off)) m (seqZ 0 width).

(** ** Targets of loads and stores *)

Section pick.
(** The answers of [random.choices] (the index of the choice) and [random.randrange]. *)
Context (choices : list Z → nat) (randrange : Z → Z → Z).

(** The range of [k] that a range of bytes allows. *)
Definition k_range (width addr_align j0 minus_u k_min k_max : Z) (r : range) : option range :=
  let '(byte_lo, byte_top) := r in
  let base_hi := byte_top - width in
  if base_hi <? byte_lo then None
  else
    let word_lo := (byte_lo + addr_align - 1) / addr_align in
    let word_hi := base_hi / addr_align in
    if word_hi <? word_lo then None
    else
      let k_hi := (word_hi - j0) / minus_u in
      let k_lo := (word_lo - j0 + (minus_u - 1)) / minus_u in
      if k_hi <? k_lo then None
      else if (k_max <? k_lo) || (k_hi <? k_min) then None
      else Some (Z.max k_lo k_min, Z.min k_hi k_max).

Definition pick_lsu_target (m : KnownMem) (loads_value : bool) (base_addr : Z) (offset_range : range)
    (offset_align width addr_align : Z) : res (option Z) :=
  py_assert (offset_range.1 <=? offset_range.2);;
  py_assert (1 <=? offset_align);;
  py_assert (1 <=? width);;
  py_assert (1 <=? addr_align);;
  '(gcd, x0, y0) ← _extended_euclidean_algorithm (- offset_align) addr_align;
  py_assert (gcd =? - offset_align * x0 + addr_align * y0);;
  py_assert (0 <? gcd);;
  if negb (base_addr mod gcd =? 0) then Ok None
  else
    let scale_factor := base_addr / gcd in
    let i0 := x0 * scale_factor in
    let j0 := y0 * scale_factor in
    let minus_u := offset_align / gcd in
    let v := addr_align / gcd in
    py_assert (0 <? v);;
    py_assert (0 <? minus_u);;
    let bv := - offset_align * v in
    let k_max := (- offset_range.2 + offset_align * i0) / bv in
    let k_min := (- offset_range.1 + offset_align * i0 + (bv - 1)) / bv in
    if k_max <? k_min then Ok None
    else
      let byte_ranges := if loads_value then known_ranges m else [(0, top_addr m - 1)] in
      let k_ranges := omap (k_range width addr_align j0 minus_u k_min k_max) byte_ranges in
      let k_weights := (fun r => r.2 - r.1 + 1) <$> k_ranges in
      match k_ranges with
      | [] => Ok None
      | _ =>
          '(k_lo, k_hi) ← of_option IndexError (k_ranges !! choices k_weights);
          let k := randrange k_lo (k_hi + 1) in
          let i := i0 + k * v in
          let j := j0 + k * minus_u in
          let offset := offset_align * i in
          let addr := addr_align * j in
          py_assert (addr =? base_addr + offset);;
          Ok (Some addr)
      end.
End pick.
End KnownMem.
