(* ===== verification/RigProgram.v ===== *)
(** The program that the random instruction generator builds (otbn/dv/rig/rig/program.py, class
    Program): sections of instructions in the instruction memory, adding to them, the space at an
    address, and the choice of branch targets.  Lists of instructions are copied before they are
    changed, so values stand for objects. *)

From stdpp Require Import sorting.
From S2P Require Import Prelude PyList.

Record Program (I : Type) := mkProgram {
  imem_lma : Z;
  imem_size : Z;
  dmem_lma : Z;
  dmem_size : Z;
  _sections : list (Z * list I);
  space : Z;
}.
Arguments mkProgram {_}.
Arguments imem_lma {_}.
Arguments imem_size {_}.
Arguments dmem_lma {_}.
Arguments dmem_size {_}.
Arguments _sections {_}.
Arguments space {_}.

(** ** Dictionaries keyed by an address *)

Section zdict.
Context {A : Type}.

Fixpoint zget (k : Z) (d : list (Z * A)) : option A :=
  match d with
  | [] => None
  | (k', v) :: d => if k' =? k then Some v else zget k d
  end.

(** [d[k] = v]: a new key goes to the end. *)
Fixpoint zset (k : Z) (v : A) (d : list (Z * A)) : list (Z * A) :=
  match d with
  | [] => [(k, v)]
  | (k', v') :: d => if k' =? k then (k, v) :: d else (k', v') :: zset k v d
  end.

Definition zdel (k : Z) (d : list (Z * A)) : list (Z * A) := filter (fun kv => kv.1 ≠ k) d.
End zdict.

Module Program.
Section program.
Context {I : Type}.

Definition section_len (insns : list I) : Z := 4 * Z.of_nat (length insns).

Definition set_sections (d : list (Z * list I)) (sp : Z) (p : Program I) : Program I :=
  mkProgram (imem_lma p) (imem_size p) (dmem_lma p) (dmem_size p) d sp.

Definition init (imem_lma imem_size dmem_lma dmem_size : Z) : res (Program I) :=
  py_assert (Z.land imem_size 3 =? 0);;
  Ok (mkProgram imem_lma imem_size dmem_lma dmem_size [] (imem_size / 4)).

Definition copy (p : Program I) : res (Program I) :=
  ret ← init (imem_lma p) (imem_size p) (dmem_lma p) (dmem_size p);
  Ok (set_sections (_sections p) (space p) ret).

(** The loop of [add_insns]: [next_above], [sec_above] and [prev_sec_base]. *)
Definition around_step (addr : Z) (st : Z * option (list I) * option Z) (s : Z * list I) :
    Z * option (list I) * option Z :=
  let '(next_above, sec_above, prev_sec_base) := st in
  let '(section_base, section_insns) := s in
  if addr <=? section_base then
    if section_base <? next_above then (section_base, Some section_insns, prev_sec_base) else st
  else
    match prev_sec_base with
    | None => (next_above, sec_above, Some section_base)
    | Some b => if b <? section_base then (next_above, sec_above, Some section_base) else st
    end.

(** A new section at [addr], joined with the section above it if they touch. *)
Definition add_section (addr : Z) (insns : list I) (next_above : Z) (sec_above : option (list I))
    (d : list (Z * list I)) : list (Z * list I) :=
  match sec_above with
  | Some above =>
      if addr + section_len insns =? next_above then zdel next_above (zset addr (insns ++ above) d)
      else zset addr insns d
  | None => zset addr insns d
  end.

(** The section [prev] at [base] grows. *)
Definition grow_section (base : Z) (prev : list I) (addr : Z) (insns : list I) (next_above : Z)
    (sec_above : option (list I)) (d : list (Z * list I)) : list (Z * list I) :=
  match sec_above with
  | Some above =>
      if addr + section_len insns =? next_above then zdel next_above (zset base (prev ++ insns ++ above) d)
      else zset base (prev ++ insns) d
  | None => zset base (prev ++ insns) d
  end.

Definition add_insns (addr : Z) (insns : list I) (p : Program I) : res (Program I) :=
  py_assert (Z.land addr 3 =? 0);;
  py_assert (addr <=? imem_size p);;
  py_assert (Z.of_nat (length insns) <=? space p);;
  let sp := space p - Z.of_nat (length insns) in
  let sec_top := addr + section_len insns in
  let d := _sections p in
  let '(next_above, sec_above, prev_sec_base) := foldl (around_step addr) (imem_size p, None, None) d in
  py_assert (addr <? next_above);;
  py_assert (sec_top <=? next_above);;
  match prev_sec_base with
  | Some base =>
      prev_sec ← of_option KeyError (zget base d);
      let prev_sec_top := base + section_len prev_sec in
      py_assert (prev_sec_top <=? addr);;
      if prev_sec_top =? addr then Ok (set_sections (grow_section base prev_sec addr insns next_above sec_above d) sp p)
      else Ok (set_sections (add_section addr insns next_above sec_above d) sp p)
  | None => Ok (set_sections (add_section addr insns next_above sec_above d) sp p)
  end.

(** The loop of [get_insn_space_at]; [None] is [return 0]. *)
Fixpoint space_loop (addr sp : Z) (d : list (Z * list I)) : option Z :=
  match d with
  | [] => Some sp
  | (sec_start, sec_insns) :: d =>
      if addr <? sec_start + section_len sec_insns then
        let sp := Z.min sp (sec_start - addr) in
        if sp <=? 0 then None else space_loop addr sp d
      else space_loop addr sp d
  end.

Definition get_insn_space_at (addr : Z) (p : Program I) : Z :=
  let sp := imem_size p - addr in
  if sp <=? 0 then 0
  else match space_loop addr sp (_sections p) with None => 0 | Some sp => Z.max 0 (sp / 4) end.

(** ** Branch targets *)

Section pick.
(** The answers of the two calls of [random.choices] (the index of a gap; one of the three parts of
    the gap) and the offset that [int(0.5 + random.random() * rng_len)] gives between two bounds. *)
Context (choose_gap : list (Z * Z) → nat) (choose_part : Z → nat) (choose_off : Z → Z → Z).

Definition round_up4 (x : Z) : Z := Z.land (x + 3) (Z.lnot 3).
Definition round_down4 (x : Z) : Z := Z.land x (Z.lnot 3).

(** Python's order of the pairs (base, length). *)
Definition pair_le (x y : Z * Z) : Prop := x.1 < y.1 ∨ x.1 = y.1 ∧ x.2 ≤ y.2.
#[global] Instance pair_le_dec x y : Decision (pair_le x y).
Proof. unfold pair_le. apply _. Defined.

Definition gap_between (gap_vma top : Z) (tgt_min tgt_max : option Z) : list (Z * Z) :=
  let gap_lo := match tgt_min with Some m => Z.max gap_vma m | None => gap_vma end in
  let gap_hi := match tgt_max with Some m => Z.min top m | None => top end in
  if gap_lo <=? gap_hi then [(gap_lo, gap_hi - gap_lo + 1)] else [].

Definition gap_step (min_len : Z) (tgt_min tgt_max : option Z) (st : Z * list (Z * Z)) (s : Z * Z) : res (Z * list (Z * Z)) :=
  let '(gap_vma, gap_list) := st in
  let '(section_base, section_insns) := s in
  py_assert (gap_vma <=? section_base);;
  let counted := match tgt_min with None => true | Some m => m <? section_base end &&
                 match tgt_max with None => true | Some m => gap_vma <=? m end in
  let gaps := if counted then gap_between gap_vma (section_base - 4 * min_len) tgt_min tgt_max else [] in
  Ok (section_base + 4 * section_insns, gap_list ++ gaps).

Definition gaps (p : Program I) (cur_pc min_len : Z) (tgt_min tgt_max : option Z) : res (list (Z * Z)) :=
  let section_list := ((fun s : Z * list I => (s.1, Z.of_nat (length s.2))) <$> _sections p) ++ [(cur_pc, 1)] in
  '(gap_vma, gap_list) ← foldM (gap_step min_len tgt_min tgt_max) (0, []) (merge_sort pair_le section_list);
  Ok (gap_list ++ gap_between gap_vma (imem_size p - 4 * min_len) tgt_min tgt_max).

(** The three parts of a gap. *)
Definition endpts (max_insn_off : Z) : list (Z * Z) :=
  [(0, max_insn_off / 10); (max_insn_off / 10, max_insn_off * 9 / 10); (max_insn_off * 9 / 10, max_insn_off)].

(** What a target leaves of a gap. *)
Definition split_gap (min_len tgt : Z) (gap : Z * Z) : list (Z * Z) :=
  let '(gap_lo, gap_len) := gap in
  let gap_top := gap_lo + gap_len in
  let left_top := Z.min gap_top (tgt - 4 * min_len) in
  let right_lo := Z.max gap_lo (tgt + 4 * min_len) in
  (if gap_lo <? left_top then [(gap_lo, left_top - gap_lo)] else []) ++
  (if right_lo <? gap_top then [(right_lo, gap_top - right_lo)] else []).

Definition pick_one (min_len : Z) (gap_list : list (Z * Z)) : res Z :=
  '(gap_vma, gap_len) ← of_option IndexError (gap_list !! choose_gap gap_list);
  let max_insn_off := (gap_len - 1) / 4 - (min_len - 1) in
  py_assert (0 <=? max_insn_off);;
  '(min_off, max_off) ← of_option IndexError (endpts max_insn_off !! choose_part max_insn_off);
  py_assert (min_off <=? max_off);;
  let insn_off := choose_off min_off max_off in
  py_assert ((min_off <=? insn_off) && (insn_off <=? max_off));;
  py_assert (4 * insn_off <=? gap_len);;
  Ok (gap_vma + 4 * insn_off).

Fixpoint pick_targets (count : nat) (min_len : Z) (gap_list : list (Z * Z)) (ret : list Z) : res (option (list Z)) :=
  match count with
  | O => Ok (Some ret)
  | S count =>
      match gap_list with
      | [] => Ok None
      | _ =>
          tgt ← pick_one min_len gap_list;
          pick_targets count min_len (gap_list ≫= split_gap min_len tgt) (ret ++ [tgt])
      end
  end.

Definition pick_branch_targets (p : Program I) (cur_pc min_len : Z) (count : nat) (tgt_min tgt_max : option Z) :
    res (option (list Z)) :=
  let tgt_min := round_up4 <$> tgt_min in
  let tgt_max := round_down4 <$> tgt_max in
  gap_list ← gaps p cur_pc min_len tgt_min tgt_max;
  ret ← pick_targets count min_len gap_list [];
  match ret with
  | None => Ok None
  | Some ret => py_assert (bool_decide (length ret = count));; Ok (Some ret)
  end.

Definition pick_branch_target (p : Program I) (cur_pc min_len : Z) (tgt_min tgt_max : option Z) : res (option Z) :=
  tgts ← pick_branch_targets p cur_pc min_len 1 tgt_min tgt_max;
  match tgts with
  | None => Ok None
  | Some tgts =>
      py_assert (bool_decide (length tgts = 1%nat));;
      t ← of_option IndexError (head tgts);
      Ok (Some t)
  end.
End pick.
End program.
End Program.
