(* ===== verification/RigProgramFacts.v ===== *)
(** Ranges of known addresses: the lists are chains of disjoint ranges, and touching and merging are
    union and intersection of the sets of addresses. *)

From stdpp Require Import sorting.
From S2P Require Import Prelude BitLoops PyList KnownMem.
From S2P Require Import RigProgram.

(** ** Chains of ranges *)

(** Ranges in order between [b] and [e]; they may be empty or touch. *)
Fixpoint chain (b : Z) (l : list range) (e : Z) : Prop :=
  match l with
  | [] => b ≤ e
  | r :: l => b ≤ r.1 ≤ r.2 ∧ chain r.2 l e
  end.

Definition covers (l : list range) (p : Z) : Prop := Exists (fun r => r.1 ≤ p < r.2) l.

Lemma chain_le b l e : chain b l e → b ≤ e.
Proof. revert b. induction l as [| r l IH]; intros b; cbn; [done |]. intros [? ?%IH]. lia. Qed.

Lemma chain_app b l1 l2 e : chain b (l1 ++ l2) e ↔ ∃ m, chain b l1 m ∧ chain m l2 e.
Proof.
  revert b. induction l1 as [| r l1 IH]; intros b; cbn.
  - split; [intros H; exists b; split; [lia | done] |]. intros (m & Hb & Hm). destruct l2; cbn in *; [lia |]. split; [lia | apply Hm].
  - rewrite IH. naive_solver.
Qed.

Lemma chain_weaken b b' l e e' : chain b l e → b' ≤ b → e ≤ e' → chain b' l e'.
Proof. revert b b'. induction l as [| r l IH]; intros b b'; cbn; [lia |]. intros [? Hl] ? ?. split; [lia |]. by apply (IH r.2). Qed.

Lemma covers_app l1 l2 p : covers (l1 ++ l2) p ↔ covers l1 p ∨ covers l2 p.
Proof. apply Exists_app. Qed.

Lemma covers_cons r l p : covers (r :: l) p ↔ r.1 ≤ p < r.2 ∨ covers l p.
Proof. apply Exists_cons. Qed.

Lemma covers_nil p : covers [] p ↔ False.
Proof. apply Exists_nil. Qed.

Lemma covers_chain b l e p : chain b l e → covers l p → b ≤ p < e.
Proof.
  revert b. induction l as [| r l IH]; intros b; cbn; [intros _ H; by apply covers_nil in H |].
  intros [Hr Hl] [? | Hc]%covers_cons; [apply chain_le in Hl; lia |]. specialize (IH _ Hl Hc). lia.
Qed.

(** ** [touch_addr] *)

Lemma find_around_split addr l i b : ∃ l1 l2, l = l1 ++ l2 ∧ Forall (fun r : range => r.1 ≤ addr) l1 ∧
  match l2 with [] => True | r :: _ => addr < r.1 end ∧
  KnownMem.find_around addr i b l =
    (match l1 with [] => b | _ => Some (i + length l1 - 1)%nat end, match l2 with [] => None | _ => Some (i + length l1)%nat end).
Proof.
  revert i b. induction l as [| [lo hi] l IH]; intros i b; cbn [KnownMem.find_around].
  { exists [], []. split_and!; try done. }
  destruct (Z.leb_spec lo addr).
  - destruct (IH (S i) (Some i)) as (l1 & l2 & -> & H1 & H2 & ->). exists ((lo, hi) :: l1), l2.
    split; [done |]. split; [by apply Forall_cons |]. split; [done |]. cbn [length]. f_equal.
    + destruct l1; f_equal; cbn [length]; lia.
    + destruct l2; f_equal; lia.
  - exists [], ((lo, hi) :: l). split_and!; try done. cbn [length]. by rewrite Nat.add_0_r.
Qed.

Definition km_wf (m : KnownMem) : Prop := 0 < top_addr m ∧ chain 0 (known_ranges m) (top_addr m).
Definition knows (m : KnownMem) (p : Z) : Prop := covers (known_ranges m) p.

(** The result [l'] of touching [addr] in the ranges [l]. *)
Definition touched (top addr : Z) (l l' : list range) : Prop :=
  chain 0 l' top ∧ ∀ p, covers l' p ↔ covers l p ∨ p = addr.

Ltac ranges := repeat match goal with
  | |- context [chain _ (_ ++ _) _] => rewrite chain_app
  | |- context [covers (_ ++ _) _] => rewrite covers_app
  | |- context [covers (_ :: _) _] => rewrite covers_cons
  | |- context [covers [] _] => rewrite covers_nil
  end; cbn [chain fst snd] in *.

(** Below all ranges. *)
Lemma touch_first top addr l : 0 ≤ addr < top → chain 0 l top → match l with [] => True | r :: _ => addr < r.1 end →
  touched top addr l ((addr, addr + 1) :: l).
Proof.
  intros Ha Hc Hl. split; [| intros p; ranges; intuition lia].
  destruct l as [| r l]; ranges; [lia |]. intuition lia.
Qed.

Lemma touch_glue_first top addr lo hi l : 0 ≤ addr < top → chain 0 ((lo, hi) :: l) top → addr = lo - 1 →
  touched top addr ((lo, hi) :: l) ((lo - 1, hi) :: l).
Proof. intros Ha Hc ->. split; [ranges; intuition lia |]. intros p. ranges. destruct Hc. intuition lia. Qed.

(** After the range that ends at or below the address. *)
Lemma touch_last top addr l1 ll lh : 0 ≤ addr < top → chain 0 (l1 ++ [(ll, lh)]) top → lh ≤ addr →
  (addr = lh → touched top addr (l1 ++ [(ll, lh)]) (l1 ++ [(ll, lh + 1)])) ∧
  touched top addr (l1 ++ [(ll, lh)]) (l1 ++ [(ll, lh)] ++ [(addr, addr + 1)]).
Proof.
  intros Ha (m & Hc1 & Hc2)%chain_app Hle. cbn in Hc2.
  split; [intros -> |]; (split; [apply chain_app; exists m; split; [done |]; cbn; lia |]); intros p; ranges; intuition lia.
Qed.

Lemma touch_between top addr l1 ll lh rl rh l2 : 0 ≤ addr < top →
  chain 0 (l1 ++ (ll, lh) :: (rl, rh) :: l2) top → lh ≤ addr < rl →
  let l := l1 ++ (ll, lh) :: (rl, rh) :: l2 in
  (addr = lh → addr = rl - 1 → touched top addr l (l1 ++ [(ll, rh)] ++ l2)) ∧
  (addr = lh → touched top addr l (l1 ++ [(ll, lh + 1)] ++ (rl, rh) :: l2)) ∧
  (addr = rl - 1 → touched top addr l ((l1 ++ [(ll, lh)]) ++ [(rl - 1, rh)] ++ l2)) ∧
  touched top addr l ((l1 ++ [(ll, lh)]) ++ [(addr, addr + 1)] ++ (rl, rh) :: l2).
Proof.
  intros Ha (m & Hc1 & Hc2)%chain_app Hle l. cbn in Hc2. destruct Hc2 as (? & ? & Hc2). unfold l.
  split_and!; intros; (split; [rewrite <- ?app_assoc; apply chain_app; exists m; split; [done |]; cbn; intuition lia |]);
    intros p; ranges; intuition lia.
Qed.

(** The slices of the list around two neighbours. *)
Lemma slices {A} (l1 : list A) x y l2 : let l := (l1 ++ [x]) ++ y :: l2 in
  l !! (length l1 + 1)%nat = Some y ∧ drop (length l1 + 1) l = y :: l2 ∧
  drop (length l1 + 1 + 1) l = l2 ∧ take (length l1 + 1) l = l1 ++ [x].
Proof.
  intros l. assert (Hl : (length l1 + 1)%nat = length (l1 ++ [x])) by by rewrite length_app.
  assert (Hd : drop (length l1 + 1) l = y :: l2) by by apply drop_app_length'. split_and!.
  - by apply list_lookup_middle.
  - done.
  - by rewrite <- drop_drop, Hd.
  - by apply take_app_length'.
Qed.

Lemma touch_addr_ok m addr : km_wf m → 0 ≤ addr < top_addr m →
  ∃ m', KnownMem.touch_addr m addr = Ok m' ∧ km_wf m' ∧ top_addr m' = top_addr m ∧
    ∀ p, knows m' p ↔ knows m p ∨ p = addr.
Proof.
  intros [Ht Hc] Ha. destruct m as [top l]. cbn [top_addr known_ranges] in *.
  enough (∃ l', KnownMem.touch_addr (mkKnownMem top l) addr = Ok (mkKnownMem top l') ∧ touched top addr l l')
    as (l' & -> & Hc' & Hk).
  { eexists. split; [done |]. split; [by split |]. by split. }
  unfold KnownMem.touch_addr. cbn [top_addr known_ranges].
  rewrite (proj2 (Z.leb_le 0 addr)), (proj2 (Z.ltb_lt addr top)) by lia. cbn [andb py_assert mbind res_bind].
  destruct (find_around_split addr l 0 None) as (l1 & l2 & -> & H1 & H2 & ->).
  destruct l1 as [| [ll lh] l1 _] using rev_ind.
  - cbn [app length Nat.add] in *. destruct l2 as [| [lo hi] l2]; [eexists; split; [done |]; by apply touch_first |].
    cbn [fst lookup list_lookup of_option mbind res_bind] in *. rewrite (proj2 (Z.ltb_lt addr lo)) by done. cbn [py_assert mbind res_bind].
    destruct (Z.eqb_spec addr (lo - 1)); (eexists; split; [done |]); [by apply touch_glue_first | by apply touch_first].
  - assert (Hlast : (0 + length (l1 ++ [(ll, lh)]) - 1)%nat = length l1) by (rewrite length_app; cbn; lia).
    assert (match l1 ++ [(ll, lh)] with [] => None | _ :: _ => Some (0 + length (l1 ++ [(ll, lh)]) - 1)%nat end = Some (length l1)) as ->.
    { rewrite Hlast. by destruct l1. }
    apply Forall_app in H1 as [_ H1]. apply Forall_cons in H1 as [Hll _]. cbn in Hll.
    assert (Hget : ((l1 ++ [(ll, lh)]) ++ l2) !! length l1 = Some (ll, lh)) by (rewrite <- app_assoc; by apply list_lookup_middle).
    rewrite Hget. cbn [of_option mbind res_bind].
    destruct (Z.ltb_spec addr lh).
    { eexists. split; [done |]. split; [done |]. intros p. split; [auto |]. intros [? | ->]; [done |]. ranges. cbn. intuition lia. }
    assert (Htake : take (length l1) ((l1 ++ [(ll, lh)]) ++ l2) = l1) by (rewrite <- app_assoc; by rewrite take_app_length).
    rewrite Htake. destruct l2 as [| [rl rh] l2].
    + rewrite app_nil_r in *. destruct (touch_last top addr l1 ll lh Ha Hc ltac:(done)) as [Hg Hd].
      destruct (Z.eqb_spec addr lh); (eexists; split; [done |]); [by apply Hg |]. by rewrite <- app_assoc.
    + assert (Hfirst : (0 + length (l1 ++ [(ll, lh)]))%nat = (length l1 + 1)%nat) by (rewrite length_app; cbn; lia). rewrite Hfirst.
      rewrite <- app_assoc in Hc. cbn [app] in Hc. cbn [fst] in H2.
      destruct (touch_between top addr l1 ll lh rl rh l2 Ha Hc ltac:(lia)) as (Hb1 & Hb2 & Hb3 & Hb4).
      destruct (slices l1 (ll, lh) (rl, rh) l2) as (Hget2 & Hd0 & Hd1 & Ht0).
      rewrite Hget2, Hd0, Hd1, Ht0. rewrite (bool_decide_eq_true_2 (_ = _)) by done. cbn [py_assert of_option mbind res_bind].
      rewrite (proj2 (Z.ltb_lt addr rl)) by done. cbn [py_assert mbind res_bind].
      rewrite <- ?app_assoc in *. cbn [app] in *.
      destruct (Z.eqb_spec addr lh), (Z.eqb_spec addr (rl - 1)); (eexists; split; [done |]); rewrite <- ?app_assoc; cbn [app]; auto.
Qed.

Lemma touch_range_ok m base width : km_wf m → 0 ≤ width → 0 ≤ base → base + width ≤ top_addr m →
  ∃ m', KnownMem.touch_range m base width = Ok m' ∧ km_wf m' ∧ top_addr m' = top_addr m ∧
    ∀ p, knows m' p ↔ knows m p ∨ base ≤ p < base + width.
Proof.
  intros Hm Hw Hb Ht. unfold KnownMem.touch_range.
  rewrite (proj2 (Z.leb_le 0 width)), (proj2 (Z.leb_le 0 base)), (proj2 (Z.leb_le base (top_addr m - width))) by lia.
  cbn [andb py_assert mbind res_bind].
  enough (H : ∀ n : nat, Z.of_nat n ≤ width → ∃ m', foldM (fun m off => KnownMem.touch_addr m (base + off)) m (seqZ 0 (Z.of_nat n)) = Ok m' ∧
    km_wf m' ∧ top_addr m' = top_addr m ∧ ∀ p, knows m' p ↔ knows m p ∨ base ≤ p < base + Z.of_nat n).
  { specialize (H (Z.to_nat width)). rewrite Z2Nat.id in H by done. by apply H. }
  induction n as [| n IH]; intros Hn.
  - exists m. split; [done |]. split; [done |]. split; [done |]. intros p. intuition lia.
  - destruct IH as (m1 & H1 & Hm1 & Ht1 & Hk1); [lia |]. rewrite seqZ_S, foldM_app, H1. cbn [mbind res_bind foldM].
    destruct (touch_addr_ok m1 (base + (0 + Z.of_nat n)) Hm1) as (m2 & -> & Hm2 & Ht2 & Hk2); [rewrite Ht1; lia |].
    exists m2. split; [done |]. split; [done |]. split; [congruence |]. intros p. rewrite Hk2, Hk1. intuition lia.
Qed.

(** ** [merge] *)

#[global] Instance paired_le_trans : Transitive paired_le.
Proof. intros [[a b] c] [[a' b'] c'] [[a'' b''] c'']. unfold paired_le. cbn. intuition (subst; auto with lia). Qed.

#[global] Instance paired_le_total : Total paired_le.
Proof.
  intros [[a b] c] [[a' b'] c']. unfold paired_le. cbn.
  destruct (Z.lt_total a a') as [| [-> |]]; [lia | | lia]. destruct (Z.lt_total b b') as [| [-> |]]; [lia | | lia].
  destruct c, c'; intuition auto.
Qed.

#[global] Instance paired_le_antisymm : AntiSymm (=) paired_le.
Proof.
  intros [[a b] c] [[a' b'] c']. unfold paired_le. cbn. intros H1 H2.
  assert (a = a') as -> by lia. assert (b = b') as -> by lia. f_equal. destruct c, c'; intuition (done || lia).
Qed.

(** The ranges of one of the two lists. *)
Definition side (b : bool) (xs : list (range * bool)) : list range := fst <$> filter (fun x => x.2 = b) xs.

Lemma side_app b xs ys : side b (xs ++ ys) = side b xs ++ side b ys.
Proof. unfold side. by rewrite filter_app, fmap_app. Qed.

Lemma side_tag b b' l : side b ((fun r => (r, b')) <$> l) = if decide (b' = b) then l else [].
Proof.
  unfold side. induction l as [| r l IH]; [by destruct (decide _) |]. rewrite fmap_cons, filter_cons. cbn [snd].
  destruct (decide (b' = b)); [rewrite fmap_cons |]; by rewrite IH.
Qed.

Lemma chain_sorted b l e t : chain b l e → StronglySorted paired_le ((fun r => (r, t)) <$> l).
Proof.
  revert b. induction l as [| r l IH]; intros b; cbn; [constructor |]. intros [Hr Hl]. constructor; [by apply (IH r.2) |].
  clear IH. apply Forall_fmap. assert (Hge : Forall (fun r' : range => r.2 ≤ r'.1 ≤ r'.2) l).
  { clear Hr. revert Hl. generalize r.2 as c. induction l as [| r' l IH]; intros c; cbn; [constructor |].
    intros [? Hl]. constructor; [lia |]. specialize (IH _ Hl). eapply Forall_impl; [done |]. intros r0 ?. cbn in *. lia. }
  eapply Forall_impl; [done |]. intros r' ?. unfold paired_le. cbn in *. destruct (decide (r.1 = r'.1)); [| left; lia]. right. split; [done |].
  destruct (decide (r.2 = r'.2)); [| left; lia]. right. split; [done |]. by destruct t; auto.
Qed.

Lemma StronglySorted_filter_le (xs : list (range * bool)) b :
  StronglySorted paired_le xs → StronglySorted paired_le (filter (fun x => x.2 = b) xs).
Proof.
  induction 1 as [| x xs Hs IH Hx]; [constructor |]. rewrite filter_cons. case_decide; [| done].
  constructor; [done |]. apply Forall_forall. intros y [_ Hy]%list_elem_of_filter. by apply (proj1 (Forall_forall _ _) Hx).
Qed.

Lemma side_sorted b a l e t xs : chain b a e → StronglySorted paired_le xs →
  filter (fun x => x.2 = t) xs ≡ₚ filter (fun x => x.2 = t) l →
  filter (fun x => x.2 = t) l = (fun r => (r, t)) <$> a → side t xs = a.
Proof.
  intros Hc Hs Hp Hl. unfold side.
  assert (filter (fun x => x.2 = t) xs = (fun r => (r, t)) <$> a) as ->.
  { apply (StronglySorted_unique paired_le); [by apply StronglySorted_filter_le | by apply (chain_sorted b _ e) | by rewrite <- Hl]. }
  rewrite <- list_fmap_compose. cbn. by apply list_fmap_id.
Qed.

Definition top_of (l : list range) : Z := default 0 (snd <$> last l).

Lemma chain_top l e : chain 0 l e → top_of l ≤ e.
Proof.
  destruct l as [| r l _] using rev_ind; [done |]. intros (m & _ & Hr)%chain_app. unfold top_of. rewrite last_snoc. cbn in *. lia.
Qed.

(** A range [(lo, hi)] of one list meets the last range of the other list [O] and no earlier one. *)
Definition meet (lo hi : Z) (o : option range) (ret : list range) : list range :=
  match o with
  | Some (b0, b1) => if (b0 <=? hi) && (lo <=? b1) then ret ++ [(Z.max lo b0, Z.min hi b1)] else ret
  | None => ret
  end.

Lemma meet_covers O e ret lo hi p : chain 0 O e → Forall (fun r : range => r.1 ≤ lo) O →
  covers (meet lo hi (last O) ret) p ↔ covers ret p ∨ (lo ≤ p < hi ∧ covers O p).
Proof.
  destruct O as [| [b0 b1] O _] using rev_ind; intros Hc Hlo; [cbn; rewrite covers_nil; naive_solver |].
  rewrite last_snoc. cbn [meet]. apply chain_app in Hc as (m & Hm & Hb). cbn in Hb.
  apply Forall_app in Hlo as [_ [Hb0 _]%Forall_cons]. cbn in Hb0.
  assert (HO : covers O p → p < b0) by (intros H; pose proof (covers_chain _ _ _ _ Hm H); lia).
  destruct (Z.leb_spec b0 hi), (Z.leb_spec lo b1); cbn [andb]; ranges; intuition lia.
Qed.

Lemma meet_chain O e ret lo hi m : chain 0 O e → chain 0 ret m → m ≤ lo ≤ hi → m ≤ top_of O →
  ∃ m', chain 0 (meet lo hi (last O) ret) m' ∧ m' ≤ hi ∧ m' ≤ top_of O.
Proof.
  unfold top_of. destruct O as [| [b0 b1] O _] using rev_ind; intros Hc Hr Hm Ht; [exists m; cbn in *; split; [done | lia] |].
  rewrite last_snoc in *. cbn [meet fmap option_fmap option_map default snd] in *. apply chain_app in Hc as (n & _ & Hb). cbn in Hb.
  unfold id in *. destruct (Z.leb_spec b0 hi), (Z.leb_spec lo b1); cbn [andb]; try (exists m; split; [done | lia]).
  exists (Z.min hi b1). split; [| lia]. apply chain_app. exists m. split; [done |]. cbn. lia.
Qed.

Lemma intersect_fold xs topA topB :
  StronglySorted paired_le xs → chain 0 (side false xs) topA → chain 0 (side true xs) topB →
  ∃ ret, foldl intersect_step (None, None, []) xs = (last (side false xs), last (side true xs), ret) ∧
    (∀ p, covers ret p ↔ covers (side false xs) p ∧ covers (side true xs) p) ∧
    ∃ m, chain 0 ret m ∧ m ≤ top_of (side false xs) ∧ m ≤ top_of (side true xs).
Proof.
  revert topA topB. induction xs as [| [[lo hi] t] xs IH] using rev_ind; intros topA topB Hs Ha Hb.
  { exists []. split; [done |]. split; [intros p; cbn; rewrite covers_nil; naive_solver |]. by exists 0. }
  apply StronglySorted_app in Hs as (Hle & Hs & _).
  assert (Hlo : ∀ c, Forall (fun r : range => r.1 ≤ lo) (side c xs)).
  { intros c. apply Forall_fmap, Forall_forall. intros y [_ Hy]%list_elem_of_filter. specialize (Hle y _ Hy ltac:(by left)).
    unfold paired_le in Hle. cbn in *. lia. }
  rewrite !side_app in *. rewrite foldl_app.
  assert (Ht : side t [((lo, hi), t)] = [(lo, hi)] ∧ side (negb t) [((lo, hi), t)] = []) by by destruct t.
  destruct t; cbn [negb] in Ht; destruct Ht as [Ht1 Ht2]; rewrite Ht1, Ht2, ?app_nil_r in *.
  - apply chain_app in Hb as (mb & Hb & Hx). cbn in Hx. destruct (IH _ _ Hs Ha Hb) as (ret & -> & Hk & m & Hm & HmA & HmB).
    pose proof (chain_top _ _ Hb). exists (meet lo hi (last (side false xs)) ret). rewrite last_snoc. split; [| split].
    + cbn. destruct (last (side false xs)) as [[a0 a1] |]; cbn; [| done]. by rewrite (Z.max_comm a0), (Z.min_comm a1).
    + intros p. rewrite (meet_covers _ topA) by done. rewrite Hk. ranges. intuition auto.
    + destruct (meet_chain _ topA ret lo hi m Ha Hm) as (m' & ? & ? & ?); [lia | done |]. exists m'.
      split; [done |]. split; [done |]. unfold top_of. by rewrite last_snoc.
  - apply chain_app in Ha as (ma & Ha & Hx). cbn in Hx. destruct (IH _ _ Hs Ha Hb) as (ret & -> & Hk & m & Hm & HmA & HmB).
    pose proof (chain_top _ _ Ha). exists (meet lo hi (last (side true xs)) ret). rewrite last_snoc. split; [| split].
    + done.
    + intros p. rewrite (meet_covers _ topB) by done. rewrite Hk. ranges. intuition auto.
    + destruct (meet_chain _ topB ret lo hi m Hb Hm) as (m' & ? & ? & ?); [lia | done |]. exists m'.
      split; [done |]. split; [| done]. unfold top_of. by rewrite last_snoc.
Qed.

Lemma intersect_ok a b e : chain 0 a e → chain 0 b e →
  chain 0 (_intersect_ranges a b) e ∧ ∀ p, covers (_intersect_ranges a b) p ↔ covers a p ∧ covers b p.
Proof.
  intros Ha Hb. unfold _intersect_ranges. set (paired := ((fun r => (r, false)) <$> a) ++ ((fun r => (r, true)) <$> b)).
  pose proof (merge_sort_Permutation paired_le paired) as Hp. pose proof (StronglySorted_merge_sort paired_le paired) as Hs.
  assert (Hsub : ∀ t, filter (fun x => x.2 = t) (merge_sort paired_le paired) ≡ₚ filter (fun x => x.2 = t) paired) by (intros t; by rewrite Hp).
  assert (Htag : ∀ t t' (l : list range), filter (fun x : range * bool => x.2 = t) ((fun r => (r, t')) <$> l) = if decide (t' = t) then (fun r => (r, t')) <$> l else []).
  { intros t t' l. induction l as [| r l IH]; [by destruct (decide _) |]. rewrite fmap_cons, filter_cons. cbn [snd].
    destruct (decide (t' = t)); by rewrite IH. }
  assert (HA : side false (merge_sort paired_le paired) = a).
  { apply (side_sorted 0 a paired e); [done | done | apply Hsub |]. unfold paired. by rewrite filter_app, !Htag, app_nil_r. }
  assert (HB : side true (merge_sort paired_le paired) = b).
  { apply (side_sorted 0 b paired e); [done | done | apply Hsub |]. unfold paired. by rewrite filter_app, !Htag. }
  destruct (intersect_fold (merge_sort paired_le paired) e e) as (ret & -> & Hk & m & Hm & HmA & _); [done | by rewrite HA | by rewrite HB |].
  rewrite HA, HB in *. split; [| done]. pose proof (chain_top _ _ Ha). by apply (chain_weaken 0 _ _ m); [| | lia].
Qed.

Lemma merge_ok m other : km_wf m → km_wf other → top_addr other = top_addr m →
  ∃ m', KnownMem.merge m other = Ok m' ∧ km_wf m' ∧ top_addr m' = top_addr m ∧ ∀ p, knows m' p ↔ knows m p ∧ knows other p.
Proof.
  intros [Ht Hm] [_ Ho] E. rewrite E in Ho. unfold KnownMem.merge. rewrite E, Z.eqb_refl. cbn [py_assert mbind res_bind].
  destruct (intersect_ok _ _ _ Hm Ho) as [Hc Hk]. eexists. split; [done |]. split; [by split |]. by split.
Qed.

(** ** The extended Euclidean algorithm *)

Lemma euclid_loop_ok a b fuel r r' s s' t t' :
  Z.abs r' ≤ Z.of_nat fuel → r = a * s + b * t → r' = a * s' + b * t' →
  ∃ g x y, euclid_loop fuel r r' s s' t t' = Ok (g, x, y) ∧ g = a * x + b * y ∧ Z.abs g = Z.gcd r r'.
Proof.
  revert r r' s s' t t'. induction fuel as [| fuel IH]; intros r r' s s' t t' Hf Hr Hr'; cbn [euclid_loop];
    destruct (Z.eqb_spec r' 0) as [E |]; try (exists r, s, t; split; [done |]; split; [done |]; by rewrite E, Z.gcd_0_r); [lia |].
  assert (Hmod : r - r / r' * r' = r mod r') by (rewrite Z.mod_eq by done; lia).
  destruct (IH r' (r - r / r' * r') s' (s - r / r' * s') t' (t - r / r' * t')) as (g & x & y & -> & Hg & Habs).
  - rewrite Hmod. destruct (decide (0 < r')); [pose proof (Z.mod_pos_bound r r'); lia | pose proof (Z.mod_neg_bound r r'); lia].
  - done.
  - rewrite Hr, Hr'. ring.
  - exists g, x, y. split; [done |]. split; [done |]. rewrite Habs, Hmod, Z.gcd_comm, Z.gcd_mod by done. apply Z.gcd_comm.
Qed.

Lemma euclid_ok a b : ∃ x y, _extended_euclidean_algorithm a b = Ok (Z.gcd a b, x, y) ∧ Z.gcd a b = a * x + b * y.
Proof.
  unfold _extended_euclidean_algorithm.
  destruct (euclid_loop_ok a b (Z.to_nat (Z.abs b)) a b 1 0 0 1) as (g & x & y & -> & Hg & Habs); [lia | lia | lia |].
  cbn [mbind res_bind]. destruct (Z.ltb_spec g 0).
  - exists (- x), (- y). assert (Z.gcd a b = - g) as -> by lia. split; [done |]. lia.
  - exists x, y. assert (Z.gcd a b = g) as -> by lia. by split.
Qed.

(** ** Targets of loads and stores *)

Lemma div_neg_le n d k : d < 0 → n / d ≤ k → d * k < n - d.
Proof. intros Hd Hk. pose proof (Z.div_mod n d ltac:(lia)). pose proof (Z.mod_neg_bound n d Hd). nia. Qed.

Lemma le_div_neg n d k : d < 0 → k ≤ n / d → n ≤ d * k.
Proof. intros Hd Hk. pose proof (Z.div_mod n d ltac:(lia)). pose proof (Z.mod_neg_bound n d Hd). nia. Qed.

Lemma ceil_le n d k : 0 < d → (n + (d - 1)) / d ≤ k → n ≤ d * k.
Proof. intros Hd Hk. pose proof (Z.div_mod (n + (d - 1)) d ltac:(lia)). pose proof (Z.mod_pos_bound (n + (d - 1)) d Hd). nia. Qed.

Lemma le_floor n d k : 0 < d → k ≤ n / d → d * k ≤ n.
Proof. intros Hd Hk. pose proof (Z.div_mod n d ltac:(lia)). pose proof (Z.mod_pos_bound n d Hd). nia. Qed.

Lemma k_range_ok width aa j0 mu k_min k_max r k_lo k_hi k :
  0 < aa → 0 < mu → KnownMem.k_range width aa j0 mu k_min k_max r = Some (k_lo, k_hi) →
  k_lo ≤ k_hi ∨ k_max < k_min →
  k_lo ≤ k ≤ k_hi → k_min ≤ k ≤ k_max ∧ r.1 ≤ aa * (j0 + k * mu) ∧ aa * (j0 + k * mu) + width ≤ r.2.
Proof.
  intros Haa Hmu. destruct r as [lo top]. unfold KnownMem.k_range. cbn [fst snd].
  destruct (Z.ltb_spec (top - width) lo); [done |].
  destruct (Z.ltb_spec ((top - width) / aa) ((lo + aa - 1) / aa)); [done |].
  set (kh := ((top - width) / aa - j0) / mu). set (kl := ((lo + aa - 1) / aa - j0 + (mu - 1)) / mu).
  destruct (Z.ltb_spec kh kl); [done |]. destruct (_ || _); [done |].
  intros [= <- <-] _ Hk. split; [lia |].
  assert (Hl : (lo + aa - 1) / aa - j0 ≤ mu * k) by (apply ceil_le; [done |]; fold kl; lia).
  assert (Hh : mu * k ≤ (top - width) / aa - j0) by (apply le_floor; [done |]; fold kh; lia).
  replace (lo + aa - 1) with (lo + (aa - 1)) in Hl by lia.
  pose proof (ceil_le lo aa (j0 + k * mu) Haa ltac:(lia)).
  pose proof (le_floor (top - width) aa (j0 + k * mu) Haa ltac:(lia)). lia.
Qed.

Lemma k_range_nonempty width aa j0 mu k_min k_max r k_lo k_hi :
  k_min ≤ k_max → KnownMem.k_range width aa j0 mu k_min k_max r = Some (k_lo, k_hi) → k_lo ≤ k_hi.
Proof.
  intros Hk. destruct r as [lo top]. unfold KnownMem.k_range. destruct (_ <? lo); [done |]. destruct (_ <? _ / aa); [done |].
  set (kh := (_ - j0) / mu). set (kl := (_ - j0 + (mu - 1)) / mu).
  destruct (Z.ltb_spec kh kl); [done |]. destruct (Z.ltb_spec k_max kl), (Z.ltb_spec kh k_min); cbn [orb]; try done.
  intros [= <- <-]. lia.
Qed.

(** What the answers of the random module satisfy. *)
Record random_ok (choices : list Z → nat) (randrange : Z → Z → Z) : Prop := {
  ro_choices ws : ws ≠ [] → (choices ws < length ws)%nat;
  ro_randrange lo hi : lo < hi → lo ≤ randrange lo hi < hi;
}.

Lemma bezout_target oa aa g x0 y0 u v sf k base :
  g = - oa * x0 + aa * y0 → oa = u * g → aa = v * g → base = sf * g →
  aa * (y0 * sf + k * u) = base + oa * (x0 * sf + k * v).
Proof.
  intros Hg Hu Hv Hb. assert (E : aa * u = oa * v) by (rewrite Hu, Hv; ring).
  replace (aa * (y0 * sf + k * u)) with (sf * (aa * y0) + k * (aa * u)) by ring. rewrite E, Hb, Hg. ring.
Qed.

Section pick.
Context (choices : list Z → nat) (randrange : Z → Z → Z) (Hrand : random_ok choices randrange).

(** The choice among the ranges. *)
Lemma choice_ok (rs : list range) : rs ≠ [] → Forall (fun r => r.1 ≤ r.2) rs →
  ∃ k_lo k_hi, rs !! choices ((fun r => r.2 - r.1 + 1) <$> rs) = Some (k_lo, k_hi) ∧ (k_lo, k_hi) ∈ rs ∧
    k_lo ≤ randrange k_lo (k_hi + 1) ≤ k_hi.
Proof.
  intros Hne Hrs. pose proof (ro_choices _ _ Hrand ((fun r : range => r.2 - r.1 + 1) <$> rs)) as Hc.
  rewrite length_fmap in Hc. destruct (lookup_lt_is_Some_2 rs (choices ((fun r => r.2 - r.1 + 1) <$> rs))) as [[k_lo k_hi] E].
  { apply Hc. by destruct rs. }
  exists k_lo, k_hi. rewrite E. split; [done |]. assert (Hin : (k_lo, k_hi) ∈ rs) by by eapply list_elem_of_lookup_2.
  split; [done |]. assert (k_lo ≤ k_hi) by by apply (proj1 (Forall_forall _ _) Hrs (k_lo, k_hi)).
  pose proof (ro_randrange _ _ Hrand k_lo (k_hi + 1)). lia.
Qed.

Lemma pick_ok m loads base offs oa width aa :
  km_wf m → offs.1 ≤ offs.2 → 1 ≤ oa → 1 ≤ width → 1 ≤ aa →
  ∃ r, KnownMem.pick_lsu_target choices randrange m loads base offs oa width aa = Ok r ∧
    ∀ addr, r = Some addr →
      offs.1 + 2 ≤ addr - base ≤ offs.2 ∧ (oa | addr - base) ∧ (aa | addr) ∧
      ∃ rg, rg ∈ (if loads then known_ranges m else [(0, top_addr m - 1)]) ∧ rg.1 ≤ addr ∧ addr + width ≤ rg.2.
Proof.
  intros Hm Hoff Hoa Hw Haa. unfold KnownMem.pick_lsu_target.
  rewrite !(proj2 (Z.leb_le _ _)) by done. cbn [py_assert mbind res_bind].
  destruct (euclid_ok (- oa) aa) as (x0 & y0 & -> & Hg). cbn [mbind res_bind]. set (g := Z.gcd (- oa) aa) in *.
  assert (Hgpos : 0 < g) by (pose proof (Z.gcd_nonneg (- oa) aa); assert (g ≠ 0) by (intros E; apply Z.gcd_eq_0_r in E; lia); unfold g; unfold g in *; lia).
  rewrite (proj2 (Z.eqb_eq g (- oa * x0 + aa * y0))), (proj2 (Z.ltb_lt 0 g)) by done. cbn [py_assert mbind res_bind].
  destruct (Z.eqb_spec (base mod g) 0) as [Hb |]; cbn [negb]; [| by exists None].
  assert (Hdo : (g | oa)) by (apply Z.divide_opp_r, Z.gcd_divide_l). assert (Hda : (g | aa)) by apply Z.gcd_divide_r.
  clearbody g. destruct Hdo as [u Hu], Hda as [v Hv]. apply Z.mod_divide in Hb as [sf Hsf]; [| lia].
  assert (oa / g = u) as -> by (rewrite Hu; apply Z.div_mul; lia). assert (aa / g = v) as -> by (rewrite Hv; apply Z.div_mul; lia).
  assert (base / g = sf) as -> by (rewrite Hsf; apply Z.div_mul; lia).
  assert (Hvp : 0 < v) by nia. assert (Hup : 0 < u) by nia. rewrite !(proj2 (Z.ltb_lt 0 _)) by done. cbn [py_assert mbind res_bind].
  set (k_max := (- offs.2 + oa * (x0 * sf)) / (- oa * v)). set (k_min := (- offs.1 + oa * (x0 * sf) + (- oa * v - 1)) / (- oa * v)).
  destruct (Z.ltb_spec k_max k_min); [by exists None |].
  set (rs := omap _ _). assert (Hrs : Forall (fun r => r.1 ≤ r.2) rs).
  { apply Forall_forall. intros [k_lo k_hi] (r & Hr & Hkr)%list_elem_of_omap. by apply k_range_nonempty in Hkr. }
  destruct (decide (rs = [])) as [-> | Hne]; [by exists None |].
  destruct (choice_ok rs Hne Hrs) as (k_lo & k_hi & Hget & Hin & Hk).
  set (k := randrange k_lo (k_hi + 1)) in *.
  apply list_elem_of_omap in Hin as (rg & Hrg & Hkr).
  destruct (k_range_ok width aa (y0 * sf) u k_min k_max rg k_lo k_hi k ltac:(lia) Hup Hkr) as ([Hkmin Hkmax] & Hlo & Hhi); [left; lia | done |].
  assert (Haddr : aa * (y0 * sf + k * u) = base + oa * (x0 * sf + k * v)) by exact (bezout_target oa aa g x0 y0 u v sf k base Hg Hu Hv Hsf).
  destruct rs as [| r0 rs0] eqn:Ers; [done |]. rewrite Hget. cbn [of_option mbind res_bind]. fold k.
  rewrite (proj2 (Z.eqb_eq _ _) Haddr). cbn [py_assert mbind res_bind]. eexists. split; [done |]. intros addr [= <-].
  assert (Hbv : - oa * v < 0) by nia.
  pose proof (div_neg_le _ _ k Hbv Hkmin). pose proof (le_div_neg _ _ k Hbv Hkmax).
  split; [rewrite Haddr; lia |]. split; [exists (x0 * sf + k * v); rewrite Haddr; lia |].
  split; [exists (y0 * sf + k * u); lia |]. exists rg. split; [done |]. by split.
Qed.
End pick.

(** ** Dictionaries *)

Section zdict.
Context {A : Type}.
Implicit Types d : list (Z * A).

Lemma zget_elem k v d : zget k d = Some v → (k, v) ∈ d.
Proof.
  induction d as [| [k' v'] d IH]; cbn; [done |]. destruct (Z.eqb_spec k' k) as [-> |]; [intros [= ->]; by left | right; auto].
Qed.

Lemma elem_zget k v d : NoDup d.*1 → (k, v) ∈ d → zget k d = Some v.
Proof.
  induction d as [| [k' v'] d IH]; cbn; intros Hn Hin; [by apply elem_of_nil in Hin |]. apply NoDup_cons in Hn as [Hk Hn].
  apply elem_of_cons in Hin as [[= -> ->] | Hin]; [by rewrite Z.eqb_refl |].
  destruct (Z.eqb_spec k' k) as [-> |]; [| by apply IH]. exfalso. apply Hk. by apply (list_elem_of_fmap_2 fst) in Hin.
Qed.

Lemma zset_elem k v d b l : NoDup d.*1 → (b, l) ∈ zset k v d ↔ (b = k ∧ l = v) ∨ (b ≠ k ∧ (b, l) ∈ d).
Proof.
  induction d as [| [k' v'] d IH]; cbn; intros Hn.
  - rewrite list_elem_of_singleton, elem_of_nil. naive_solver.
  - apply NoDup_cons in Hn as [Hk Hn]. destruct (Z.eqb_spec k' k) as [-> | Hne]; rewrite !elem_of_cons.
    + assert (Hb : (b, l) ∈ d → b ≠ k) by (intros Hin%(list_elem_of_fmap_2 fst); by intros ->). naive_solver.
    + rewrite (IH Hn). naive_solver.
Qed.

Lemma zset_keys k v d : NoDup d.*1 → NoDup (zset k v d).*1 ∧ ∀ b, b ∈ (zset k v d).*1 → b = k ∨ b ∈ d.*1.
Proof.
  induction d as [| [k' v'] d IH]; cbn; intros Hn.
  - split; [apply NoDup_singleton |]. intros b ->%list_elem_of_singleton. by left.
  - apply NoDup_cons in Hn as [Hk Hn]. destruct (IH Hn) as [IHn IHk]. destruct (Z.eqb_spec k' k) as [-> | Hne]; cbn.
    + split; [by apply NoDup_cons |]. auto.
    + split; [apply NoDup_cons; split; [| done]; by intros [| ]%IHk |].
      intros b [-> | Hb]%elem_of_cons; [right; by left |]. apply IHk in Hb as [| ]; [by left | right; by right].
Qed.

Lemma zdel_elem k d b l : (b, l) ∈ zdel k d ↔ b ≠ k ∧ (b, l) ∈ d.
Proof. unfold zdel. by rewrite list_elem_of_filter. Qed.

Lemma zdel_keys k d : NoDup d.*1 → NoDup (zdel k d).*1.
Proof.
  unfold zdel. induction d as [| [k' v'] d IH]; intros Hn; [done |]. cbn in Hn. apply NoDup_cons in Hn as [Hk Hn].
  rewrite filter_cons. case_decide; [| by apply IH]. cbn. apply NoDup_cons. split; [| by apply IH].
  intros ([b l] & -> & [_ Hin]%list_elem_of_filter)%list_elem_of_fmap. apply Hk. by apply (list_elem_of_fmap_2 fst) in Hin.
Qed.
End zdict.

Section program.
Context {I : Type}.
Implicit Types (d : list (Z * list I)) (p : Program I).

Notation len l := (4 * Z.of_nat (length l)).

(** ** The invariant *)

(** Sections are not empty, word aligned, inside the memory and do not touch. *)
Record sections_wf (size : Z) d : Prop := {
  sw_nodup : NoDup d.*1;
  sw_fits b l : (b, l) ∈ d → 0 ≤ b ∧ b mod 4 = 0 ∧ l ≠ [] ∧ b + len l ≤ size;
  sw_apart b l b' l' : (b, l) ∈ d → (b', l') ∈ d → b < b' → b + len l < b';
}.

Definition prog_wf p : Prop := imem_size p mod 4 = 0 ∧ sections_wf (imem_size p) (_sections p).

(** The instruction at an address, and the addresses in use. *)
Definition insn_at d (a : Z) (x : I) : Prop := ∃ b l i, (b, l) ∈ d ∧ l !! i = Some x ∧ a = b + 4 * Z.of_nat i.
Definition used d (a : Z) : Prop := ∃ b l, (b, l) ∈ d ∧ b ≤ a < b + len l.

Lemma length_pos (l : list I) : l ≠ [] → 0 < len l.
Proof. destruct l; [done | cbn; lia]. Qed.

(** ** The neighbours of an address *)

(** The first section at or above [addr], and the last one below, among the sections in [S]. *)
Definition above_of (S : Z → list I → Prop) (addr size na : Z) (sa : option (list I)) : Prop :=
  na ≤ size ∧
  match sa with
  | None => na = size ∧ ∀ b l, S b l → b < addr
  | Some l => S na l ∧ addr ≤ na ∧ ∀ b l, S b l → addr ≤ b → na ≤ b
  end.

Definition below_of (S : Z → list I → Prop) (addr : Z) (pb : option Z) : Prop :=
  match pb with
  | None => ∀ b l, S b l → addr ≤ b
  | Some b0 => (∃ l, S b0 l) ∧ b0 < addr ∧ ∀ b l, S b l → b < addr → b ≤ b0
  end.

Lemma around_step_ok (S : Z → list I → Prop) addr size na sa pb b0 l0 : b0 < size →
  above_of S addr size na sa → below_of S addr pb →
  let S' b l := S b l ∨ (b = b0 ∧ l = l0) in
  let '(na', sa', pb') := Program.around_step addr (na, sa, pb) (b0, l0) in
  above_of S' addr size na' sa' ∧ below_of S' addr pb'.
Proof.
  intros Hb0 [Hna Ha] Hp S'. unfold above_of, below_of, S'. cbn [Program.around_step]. destruct (Z.leb_spec addr b0).
  - assert (Hp' : below_of S' addr pb).
    { unfold below_of, S' in *. destruct pb as [c |]; [destruct Hp as ((l & ?) & ? & Hp); split; [exists l; by left |]; split; [done |] |];
        intros b l' [? | [-> _]]; eauto; lia. }
    destruct (Z.ltb_spec b0 na); (split; [split; [lia |] | exact Hp']).
    + split; [by right |]. split; [done |]. intros b l [Hb | [-> _]]; [| lia]. intros Hge.
      destruct sa; [destruct Ha as (_ & _ & Ha); specialize (Ha b l Hb Hge) | destruct Ha as [_ Ha]; specialize (Ha b l Hb)]; lia.
    + destruct sa; [| lia]. destruct Ha as (? & ? & Ha). split; [by left |]. split; [done |].
      intros b l' [Hb | [-> _]]; [by apply (Ha b l') | lia].
  - assert (Ha' : above_of S' addr size na sa).
    { split; [done |]. unfold S'. destruct sa; [destruct Ha as (? & ? & Ha); split; [by left |]; split; [done |] | destruct Ha as [? Ha]; split; [done |]];
        intros b l' [? | [-> _]]; try lia; [by apply (Ha b l') | by apply (Ha b l')]. }
    assert (Hnew : (match pb with Some c => c | None => b0 - 1 end < b0) →
      (∃ l, S' b0 l) ∧ b0 < addr ∧ ∀ b l, S' b l → b < addr → b ≤ b0).
    { intros Hlt. split; [exists l0; by right |]. split; [done |]. intros b l [Hb | [-> _]] Hba; [| lia].
      destruct pb as [c |]; [destruct Hp as (_ & _ & Hp); specialize (Hp b l Hb Hba) | specialize (Hp b l Hb)]; lia. }
    destruct pb as [c |]; [destruct (Z.ltb_spec c b0) |]; (split; [exact Ha' |]).
    + by apply Hnew.
    + destruct Hp as ((l & ?) & ? & Hp). split; [exists l; by left |]. split; [done |]. intros b l' [Hb | [-> _]] Hlt; [by apply (Hp b l') | lia].
    + apply Hnew. lia.
Qed.

Lemma around_ok addr size d na sa pb : (∀ b l, (b, l) ∈ d → b < size) →
  foldl (Program.around_step addr) (size, None, None) d = (na, sa, pb) →
  above_of (fun b l => (b, l) ∈ d) addr size na sa ∧ below_of (fun b l => (b, l) ∈ d) addr pb.
Proof.
  revert na sa pb. induction d as [| [b0 l0] d IH] using rev_ind; intros na sa pb Hsz.
  { cbn. intros [= <- <- <-]. split; [split; [lia |]; split; [done |] |]; by intros b l ?%elem_of_nil. }
  rewrite foldl_app. cbn [foldl]. destruct (foldl _ _ d) as [[na1 sa1] pb1] eqn:E.
  destruct (IH na1 sa1 pb1) as [Ha Hp]; [intros b l ?; apply (Hsz b l); set_solver | done |].
  pose proof (around_step_ok _ addr size na1 sa1 pb1 b0 l0 (Hsz b0 l0 ltac:(set_solver)) Ha Hp) as Hst.
  intros Heq. rewrite Heq in Hst. destruct Hst as [Ha' Hp'].
  assert (Hin : ∀ b l, (b, l) ∈ d ++ [(b0, l0)] ↔ (b, l) ∈ d ∨ (b = b0 ∧ l = l0)).
  { intros b l. rewrite elem_of_app, list_elem_of_singleton. naive_solver. }
  split.
  - destruct Ha' as [Hle Ha']. split; [done |]. destruct sa; [rewrite Hin |]; [destruct Ha' as (? & ? & Ha'); split; [done |]; split; [done |] | destruct Ha' as [? Ha']; split; [done |]];
      intros b l'; rewrite Hin; apply Ha'.
  - unfold below_of in *. destruct pb; [destruct Hp' as ((l & ?) & ? & Hp'); split; [exists l; by apply Hin |]; split; [done |] |];
      intros b l'; rewrite Hin; apply Hp'.
Qed.

(** ** Adding instructions *)

(** The instructions [insns] at [addr], with the section [pre] that ends there and the section [post]
    that starts where they end, if there are such sections. *)
Record joins d addr (pre insns post : list I) (d' : list (Z * list I)) : Prop := {
  jo_pre : (pre = [] ∧ ∀ l, (addr, l) ∉ d) ∨ (addr - len pre, pre) ∈ d;
  jo_post : post = [] ∨ (addr + len insns, post) ∈ d;
  jo_nodup : NoDup d'.*1;
  jo_elem b l : (b, l) ∈ d' ↔
    (b = addr - len pre ∧ l = pre ++ insns ++ post) ∨
    ((b, l) ∈ d ∧ b ≠ addr - len pre ∧ (post ≠ [] → b ≠ addr + len insns));
}.

Lemma joins_wf size d addr pre insns post d' :
  sections_wf size d → joins d addr pre insns post d' → insns ≠ [] →
  0 ≤ addr → addr mod 4 = 0 → addr + len insns ≤ size →
  (∀ b l, (b, l) ∈ d → b < addr → b = addr - len pre ∨ b + len l < addr - len pre) →
  (∀ b l, (b, l) ∈ d → addr ≤ b → (post ≠ [] ∧ b = addr + len insns) ∨ addr + len insns + len post < b) →
  sections_wf size d'.
Proof.
  intros [Hn Hf Hap] [Hpre Hpost Hn' He] Hne Ha0 Ha4 Hsz Hlo Hhi. pose proof (length_pos _ Hne) as Hlen.
  assert (Hnew : len (pre ++ insns ++ post) = len pre + len insns + len post) by (rewrite !length_app; lia).
  assert (Hside : ∀ b l, (b, l) ∈ d → b ≠ addr - len pre → (post ≠ [] → b ≠ addr + len insns) →
    b + len l < addr - len pre ∨ addr + len insns + len post < b).
  { intros b l Hin Hb1 Hb2. destruct (decide (b < addr)); [left; destruct (Hlo b l Hin); [lia | done | done] |].
    right. destruct (Hhi b l Hin) as [[Hp Hb] |]; [lia | by destruct (Hb2 Hp) | done]. }
  split; [done | |].
  - intros b l [[-> ->] | (Hin & _ & _)]%He; [| by apply Hf]. rewrite Hnew. split_and!.
    + destruct Hpre as [[-> _] | Hin]; [cbn; lia | by apply (Hf _ pre)].
    + destruct Hpre as [[-> _] | Hin]; [cbn; by rewrite Z.sub_0_r | by apply (Hf _ pre)].
    + destruct insns; [done |]. by destruct pre.
    + destruct Hpost as [-> | Hin]; [cbn; lia |]. pose proof (Hf _ post Hin). lia.
  - intros b l b' l' [[-> ->] | (Hin & Hb1 & Hb2)]%He [[-> ->] | (Hin' & Hb1' & Hb2')]%He Hlt.
    + lia.
    + rewrite Hnew. destruct (Hside b' l' Hin' Hb1' Hb2') as [| ?]; [pose proof (Hf b' l' Hin') as (_ & _ & Hl' & _); pose proof (length_pos _ Hl'); lia | lia].
    + destruct (Hside b l Hin Hb1 Hb2) as [? | ?]; [done | lia].
    + by apply (Hap b l b' l').
Qed.

Lemma lookup_app3 (pre insns post : list I) i x : (pre ++ insns ++ post) !! i = Some x ↔
  pre !! i = Some x ∨ (∃ k, i = (length pre + k)%nat ∧ insns !! k = Some x) ∨
  (∃ k, i = (length pre + length insns + k)%nat ∧ post !! k = Some x).
Proof.
  rewrite lookup_app_Some, lookup_app_Some. split.
  - intros [? | (? & [? | (? & ?)])]; [by left | |].
    + right. left. exists (i - length pre)%nat. split; [lia | done].
    + right. right. exists (i - length pre - length insns)%nat. split; [lia | done].
  - intros [? | [(k & -> & Hk) | (k & -> & Hk)]]; [by left | |].
    + right. split; [lia |]. left. by replace (length pre + k - length pre)%nat with k by lia.
    + right. split; [lia |]. right. split; [lia |]. by replace (length pre + length insns + k - length pre - length insns)%nat with k by lia.
Qed.

Lemma joins_at size d addr pre insns post d' a x : sections_wf size d → joins d addr pre insns post d' →
  insn_at d' a x ↔ insn_at d a x ∨ ∃ k, insns !! k = Some x ∧ a = addr + 4 * Z.of_nat k.
Proof.
  intros [Hn Hf Hap] [Hpre Hpost Hn' He]. unfold insn_at. split.
  - intros (b & l & i & [[-> ->] | (Hin & _ & _)]%He & Hi & ->); [| left; by exists b, l, i].
    apply lookup_app3 in Hi as [Hi | [(k & -> & Hk) | (k & -> & Hk)]].
    + left. destruct Hpre as [[-> _] | Hin]; [done |]. by exists (addr - len pre), pre, i.
    + right. exists k. split; [done | lia].
    + left. destruct Hpost as [-> | Hin]; [done |]. exists (addr + len insns), post, k. split; [done |]. split; [done | lia].
  - intros [(b & l & i & Hin & Hi & ->) | (k & Hk & ->)].
    + destruct (decide (b = addr - len pre ∧ pre ≠ [])) as [[-> Hp] |].
      { destruct Hpre as [[-> _] | Hin']; [done |]. pose proof (elem_zget _ _ _ Hn Hin). pose proof (elem_zget _ _ _ Hn Hin').
        assert (l = pre) as -> by congruence. exists (addr - len pre), (pre ++ insns ++ post), i.
        split; [apply He; by left |]. split; [| done]. apply lookup_app3. by left. }
      destruct (decide (b = addr + len insns ∧ post ≠ [])) as [[-> Hp] |].
      { destruct Hpost as [-> | Hin']; [done |]. pose proof (elem_zget _ _ _ Hn Hin). pose proof (elem_zget _ _ _ Hn Hin').
        assert (l = post) as -> by congruence. exists (addr - len pre), (pre ++ insns ++ post), (length pre + length insns + i)%nat.
        split; [apply He; by left |]. split; [| lia]. apply lookup_app3. right. right. by exists i. }
      destruct (decide (b = addr - len pre)) as [Hb | Hb].
      { assert (pre = []) as -> by (destruct pre; [done |]; naive_solver). cbn in Hb. rewrite Z.sub_0_r in Hb. subst b.
        destruct Hpre as [[_ Hfree] | Hin']; [by destruct (Hfree l) | by apply Hf in Hin' as (_ & _ & ? & _)]. }
      exists b, l, i. split; [apply He; right; split; [done |]; split; [done |]; naive_solver | done].
    + exists (addr - len pre), (pre ++ insns ++ post), (length pre + k)%nat. split; [apply He; by left |]. split; [| lia].
      apply lookup_app3. right. left. by exists k.
Qed.

Lemma joins_set d addr base pre insns : NoDup d.*1 → base = addr - len pre →
  (pre = [] ∧ ∀ l, (addr, l) ∉ d) ∨ (base, pre) ∈ d → joins d addr pre insns [] (zset base (pre ++ insns) d).
Proof.
  intros Hn -> Hpre. split; [done | by left | by apply zset_keys |].
  intros b l. rewrite zset_elem, app_nil_r by done. naive_solver.
Qed.

Lemma joins_set_del d addr base pre insns post : NoDup d.*1 → base = addr - len pre → insns ≠ [] → post ≠ [] →
  (pre = [] ∧ ∀ l, (addr, l) ∉ d) ∨ (base, pre) ∈ d → (addr + len insns, post) ∈ d →
  joins d addr pre insns post (zdel (addr + len insns) (zset base (pre ++ insns ++ post) d)).
Proof.
  intros Hn -> Hi Hp Hpre Hpost. pose proof (length_pos _ Hi). split; [done | by right | by apply zdel_keys, zset_keys |].
  intros b l. rewrite zdel_elem, zset_elem by done. split.
  - intros (Hb & [? | [? ?]]); [by left | by right].
  - intros [[-> ->] | (? & ? & Hb)]; [split; [lia | by left] |]. split; [by apply Hb | by right].
Qed.

(** No section overlaps the [n] words at [addr]. *)
Definition free d addr (n : Z) : Prop := ∀ b l, (b, l) ∈ d → b + len l ≤ addr ∨ addr + 4 * n ≤ b.

Lemma land3_mod a : Z.land a 3 = a mod 4.
Proof. change 3 with (Z.ones 2). by rewrite Z.land_ones. Qed.

Section add.
Context (p : Program I) (addr : Z) (insns : list I).
Context (Hp : prog_wf p) (Hne : insns ≠ []) (Ha : 0 ≤ addr).
Notation d := (_sections p).
Notation n := (Z.of_nat (length insns)).

(** The conditions under which the instructions fit. *)
Definition fits : Prop := addr mod 4 = 0 ∧ n ≤ space p ∧ addr + 4 * n ≤ imem_size p ∧ free d addr n.

Lemma sections_below b l : (b, l) ∈ d → b < imem_size p.
Proof. intros Hin. destruct Hp as [_ [_ Hf _]]. destruct (Hf b l Hin) as (_ & _ & Hl & Hb). pose proof (length_pos _ Hl). lia. Qed.

(** The result with a section that may precede and one that may follow. *)
Lemma add_joined pre post d' : joins d addr pre insns post d' → fits →
  (∀ b l, (b, l) ∈ d → b < addr → b = addr - len pre ∨ b + len l < addr - len pre) →
  (∀ b l, (b, l) ∈ d → addr ≤ b → (post ≠ [] ∧ b = addr + len insns) ∨ addr + len insns + len post < b) →
  let p' := Program.set_sections d' (space p - n) p in
  prog_wf p' ∧ ∀ a x, insn_at d' a x ↔ insn_at d a x ∨ ∃ k, insns !! k = Some x ∧ a = addr + 4 * Z.of_nat k.
Proof.
  intros Hj (Ha4 & _ & Hsz & _) Hlo Hhi p'. destruct Hp as [Hs Hw]. split; [split; [done |] |].
  - by apply (joins_wf _ d addr pre insns post).
  - intros a x. by apply (joins_at (imem_size p) d addr pre insns post).
Qed.

(** What the search finds when the instructions fit, or not. *)
Lemma neighbours : ∃ na sa pb, foldl (Program.around_step addr) (imem_size p, None, None) d = (na, sa, pb) ∧
  above_of (fun b l => (b, l) ∈ d) addr (imem_size p) na sa ∧ below_of (fun b l => (b, l) ∈ d) addr pb.
Proof.
  destruct (foldl _ _ d) as [[na sa] pb] eqn:E. exists na, sa, pb. split; [done |]. apply around_ok; [apply sections_below | done].
Qed.

Lemma fits_above na sa : above_of (fun b l => (b, l) ∈ d) addr (imem_size p) na sa → fits → addr + 4 * n ≤ na.
Proof.
  intros [Hna Hab] (_ & _ & Hsz & Hfree). destruct sa as [l |]; [| lia]. destruct Hab as (Hin & Hge & _).
  destruct (Hfree na l Hin) as [? |]; [| done]. destruct Hp as [_ [_ Hf _]]. destruct (Hf na l Hin) as (_ & _ & Hl & _).
  pose proof (length_pos _ Hl). lia.
Qed.

Lemma above_apart na sa b l : above_of (fun b l => (b, l) ∈ d) addr (imem_size p) na sa →
  (b, l) ∈ d → addr ≤ b → ∃ la, sa = Some la ∧ (na, la) ∈ d ∧ na ≤ b ∧ (b = na ∨ na + len la < b).
Proof.
  intros [_ Hab] Hin Hge. destruct sa as [la |]; [| destruct Hab as [_ Hab]; specialize (Hab b l Hin); lia].
  destruct Hab as (Hna & _ & Hmin). specialize (Hmin b l Hin Hge). exists la. split_and!; [done | done | done |].
  destruct (decide (b = na)); [by left |]. right. destruct Hp as [_ [_ _ Hap]]. apply (Hap na la b l); [done | done | lia].
Qed.

Lemma below_apart b0 l0 b l : (b0, l0) ∈ d → below_of (fun b l => (b, l) ∈ d) addr (Some b0) → (b, l) ∈ d → b < addr →
  b = b0 ∨ b + len l < b0.
Proof.
  intros Hin0 (_ & _ & Hmax) Hin Hlt. specialize (Hmax b l Hin Hlt). destruct (decide (b = b0)); [by left |]. right.
  destruct Hp as [_ [_ _ Hap]]. apply (Hap b l b0 l0); [done | done | lia].
Qed.

Lemma addr_unused l : fits → (addr, l) ∉ d.
Proof.
  intros (_ & _ & _ & Hfree) Hin. pose proof (length_pos _ Hne). destruct Hp as [_ [_ Hf _]].
  destruct (Hf addr l Hin) as (_ & _ & Hl & _). pose proof (length_pos _ Hl). destruct (Hfree addr l Hin); lia.
Qed.

(** The sections after a new section without or with a join above. *)
Lemma add_above base pre na sa :
  above_of (fun b l => (b, l) ∈ d) addr (imem_size p) na sa → fits → base = addr - len pre →
  (pre = [] ∧ ∀ l, (addr, l) ∉ d) ∨ (base, pre) ∈ d →
  let new := match sa with
    | Some above => if addr + len insns =? na then (above, zdel na (zset base (pre ++ insns ++ above) d)) else ([], zset base (pre ++ insns) d)
    | None => ([], zset base (pre ++ insns) d)
    end in
  joins d addr pre insns new.1 new.2 ∧
  ∀ b l, (b, l) ∈ d → addr ≤ b → (new.1 ≠ [] ∧ b = addr + len insns) ∨ addr + len insns + len new.1 < b.
Proof.
  intros Hab Hfits Hbase Hpre new. pose proof (fits_above na sa Hab Hfits) as Hle. destruct Hp as [_ [Hn Hf Hap]].
  assert (Hhi : ∀ b l, (b, l) ∈ d → addr ≤ b → na ≠ addr + len insns → addr + len insns + len ([] : list I) < b).
  { intros b l Hin Hge Hna. destruct (above_apart na sa b l Hab Hin Hge) as (la & _ & _ & ? & _). cbn. lia. }
  unfold new. destruct sa as [above |]; [| split; [by apply joins_set |]; intros b l Hin Hge; destruct Hab as [_ [_ Hab]]; specialize (Hab b l Hin); lia].
  destruct (Z.eqb_spec (addr + len insns) na) as [E |]; cbn [fst snd]; [| split; [by apply joins_set |]; intros b l Hin Hge; right; apply (Hhi b l); auto].
  destruct Hab as [Hab1 Hab2]. destruct (Hab2) as (Hin & _ & _). destruct (Hf na above Hin) as (_ & _ & Hl & _).
  rewrite <- E in *. split; [by apply joins_set_del |]. intros b l Hin' Hge.
  destruct (above_apart (addr + len insns) (Some above) b l (conj Hab1 Hab2) Hin' Hge) as (la & [= <-] & _ & _ & [-> |]); [by left | by right].
Qed.

(** The program after adding. *)
Definition added (p' : Program I) : Prop :=
  prog_wf p' ∧ imem_size p' = imem_size p ∧ space p' = space p - n ∧
  ∀ a x, insn_at (_sections p') a x ↔ insn_at d a x ∨ ∃ k, insns !! k = Some x ∧ a = addr + 4 * Z.of_nat k.

Lemma grow_ok base pre na sa :
  above_of (fun b l => (b, l) ∈ d) addr (imem_size p) na sa → fits → base = addr - len pre →
  (pre = [] ∧ ∀ l, (addr, l) ∉ d) ∨ (base, pre) ∈ d →
  (∀ b l, (b, l) ∈ d → b < addr → b = addr - len pre ∨ b + len l < addr - len pre) →
  added (Program.set_sections (Program.grow_section base pre addr insns na sa d) (space p - n) p).
Proof.
  intros Hab Hfits Hbase Hpre Hlo. destruct (add_above base pre na sa Hab Hfits Hbase Hpre) as [Hj Hhi].
  assert (Program.grow_section base pre addr insns na sa d = (match sa with
    | Some above => if addr + len insns =? na then (above, zdel na (zset base (pre ++ insns ++ above) d)) else ([], zset base (pre ++ insns) d)
    | None => ([], zset base (pre ++ insns) d)
    end).2) as ->.
  { unfold Program.grow_section, Program.section_len. destruct sa; [by destruct (_ =? _) | done]. }
  destruct (add_joined _ _ _ Hj Hfits Hlo Hhi) as [Hw Hat]. by split.
Qed.

Lemma add_insns_ok : fits → ∃ p', Program.add_insns addr insns p = Ok p' ∧ added p'.
Proof.
  intros Hfits. destruct (Hfits) as (Ha4 & Hsp & Hsz & Hfree). pose proof (length_pos _ Hne) as Hlen.
  unfold Program.add_insns. rewrite land3_mod, Ha4. cbn [Z.eqb py_assert mbind res_bind].
  rewrite (proj2 (Z.leb_le addr (imem_size p))), (proj2 (Z.leb_le n (space p))) by lia. cbn [py_assert mbind res_bind].
  destruct neighbours as (na & sa & pb & -> & Hab & Hbe). pose proof (fits_above na sa Hab Hfits) as Hle.
  unfold Program.section_len. rewrite (proj2 (Z.ltb_lt addr na)), (proj2 (Z.leb_le (addr + len insns) na)) by lia. cbn [py_assert mbind res_bind].
  assert (Hadd : (∀ b l, (b, l) ∈ d → b < addr → b + len l < addr) →
    added (Program.set_sections (Program.add_section addr insns na sa d) (space p - n) p)).
  { intros Hlo. apply (grow_ok addr [] na sa); [done | done | cbn; lia | left; split; [done |]; intros l; by apply addr_unused |].
    intros b l Hin Hlt. right. cbn. rewrite Z.sub_0_r. by apply Hlo. }
  destruct pb as [b0 |].
  - destruct (Hbe) as ((l0 & Hin0) & Hlt0 & _). destruct Hp as [_ [Hn _ _]]. rewrite (elem_zget _ _ _ Hn Hin0). cbn [of_option mbind res_bind].
    destruct (Hfree b0 l0 Hin0) as [Htop |]; [| lia]. rewrite (proj2 (Z.leb_le _ _) Htop). cbn [py_assert mbind res_bind].
    destruct (Z.eqb_spec (b0 + len l0) addr) as [E |]; (eexists; split; [done |]).
    + apply (grow_ok b0 l0 na sa); [done | done | lia | by right |]. intros b l Hin Hlt.
      destruct (below_apart b0 l0 b l Hin0 Hbe Hin Hlt) as [-> |]; [left; lia | right; lia].
    + apply Hadd. intros b l Hin Hlt. destruct (below_apart b0 l0 b l Hin0 Hbe Hin Hlt) as [-> |]; [| lia].
      pose proof (elem_zget _ _ _ Hn Hin). pose proof (elem_zget _ _ _ Hn Hin0). assert (l = l0) as -> by congruence. lia.
  - eexists. split; [done |]. apply Hadd. intros b l Hin Hlt. specialize (Hbe b l Hin). lia.
Qed.

(** Instructions that do not fit fail an assertion. *)
Lemma add_insns_err : ¬ fits → Program.add_insns addr insns p = Err AssertionError.
Proof.
  intros Hnf. pose proof (length_pos _ Hne) as Hlen. unfold Program.add_insns. rewrite land3_mod.
  destruct (Z.eqb_spec (addr mod 4) 0) as [Ha4 |]; [| done]. cbn [py_assert mbind res_bind].
  destruct (Z.leb_spec addr (imem_size p)); [| done]. cbn [py_assert mbind res_bind].
  destruct (Z.leb_spec n (space p)) as [Hsp |]; [| done]. cbn [py_assert mbind res_bind].
  destruct neighbours as (na & sa & pb & -> & Hab & Hbe). unfold Program.section_len.
  destruct (Z.ltb_spec addr na); [| done]. cbn [py_assert mbind res_bind].
  destruct (Z.leb_spec (addr + len insns) na) as [Hle |]; [| done]. cbn [py_assert mbind res_bind].
  assert (Hhi : ∀ b l, (b, l) ∈ d → addr ≤ b → addr + 4 * n ≤ b).
  { intros b l Hin Hge. destruct (above_apart na sa b l Hab Hin Hge) as (_ & _ & _ & ? & _). lia. }
  destruct pb as [b0 |].
  - destruct (Hbe) as ((l0 & Hin0) & Hlt0 & _). destruct (Hp) as [_ [Hn _ _]]. rewrite (elem_zget _ _ _ Hn Hin0). cbn [of_option mbind res_bind].
    destruct (Z.leb_spec (b0 + len l0) addr); [| done]. exfalso. apply Hnf. split_and!; [done | done | destruct Hab; lia |].
    intros b l Hin. destruct (decide (addr ≤ b)); [right; by apply (Hhi b l) |]. left.
    destruct (below_apart b0 l0 b l Hin0 Hbe Hin ltac:(lia)) as [-> |]; [| lia].
    pose proof (elem_zget _ _ _ Hn Hin). pose proof (elem_zget _ _ _ Hn Hin0). assert (l = l0) as -> by congruence. lia.
  - exfalso. apply Hnf. split_and!; [done | done | destruct Hab; lia |].
    intros b l Hin. right. apply (Hhi b l Hin). by apply (Hbe b l).
Qed.
End add.

(** ** The space at an address *)

Lemma space_loop_ok d addr sp n : (∀ b l, (b, l) ∈ d → l ≠ []) → 0 < sp → 0 < n →
  n ≤ default 0 (Program.space_loop addr sp d) ↔ n ≤ sp ∧ ∀ b l, (b, l) ∈ d → b + len l ≤ addr ∨ addr + n ≤ b.
Proof.
  intros Hne. revert sp. induction d as [| [b0 l0] d IH]; intros sp Hsp Hn; cbn [Program.space_loop].
  { cbn. split; [| naive_solver]. intros H. split; [done |]. by intros b l ?%elem_of_nil. }
  assert (Hcons : (∀ b l, (b, l) ∈ (b0, l0) :: d → b + len l ≤ addr ∨ addr + n ≤ b) ↔
    (b0 + len l0 ≤ addr ∨ addr + n ≤ b0) ∧ ∀ b l, (b, l) ∈ d → b + len l ≤ addr ∨ addr + n ≤ b).
  { split; [intros H; split; [apply (H b0 l0); by left | intros b l ?; apply (H b l); by right] |].
    intros [H0 H] b l [[= -> ->] | ?]%elem_of_cons; auto. }
  rewrite Hcons. assert (Hne' : ∀ b l, (b, l) ∈ d → l ≠ []) by (intros b l ?; apply (Hne b l); by right).
  unfold Program.section_len. destruct (Z.ltb_spec addr (b0 + len l0)).
  - destruct (Z.leb_spec (Z.min sp (b0 - addr)) 0); [cbn; split; [lia |]; intros (? & ? & _); lia |].
    rewrite (IH Hne') by lia. split; [intros [? ?]; split; [lia |]; split; [lia | done] |]. intros (? & ? & ?). split; [lia | done].
  - rewrite (IH Hne') by lia. split; [intros [? ?]; split; [lia |]; split; [lia | done] |]. intros (? & ? & ?). by split.
Qed.

Lemma insn_space_ok p addr n : prog_wf p → 0 < n →
  n ≤ Program.get_insn_space_at addr p ↔ addr + 4 * n ≤ imem_size p ∧ free (_sections p) addr n.
Proof.
  intros [_ [_ Hf _]] Hn. unfold Program.get_insn_space_at, free. destruct (Z.leb_spec (imem_size p - addr) 0); [split; [lia | intros [? _]; lia] |].
  pose proof (space_loop_ok (_sections p) addr (imem_size p - addr) (4 * n)) as Hl.
  transitivity (4 * n ≤ imem_size p - addr ∧ ∀ b l, (b, l) ∈ _sections p → b + len l ≤ addr ∨ addr + 4 * n ≤ b); [| intuition lia].
  rewrite <- Hl; [| intros b l ?; by apply (Hf b l) | lia | lia].
  destruct (Program.space_loop _ _ _) as [sp |]; cbn; [| lia]. unfold id. pose proof (Z.div_mod sp 4). pose proof (Z.mod_pos_bound sp 4). lia.
Qed.

(** ** Branch targets *)

Lemma round_down4_eq x : Program.round_down4 x = 4 * (x / 4).
Proof.
  unfold Program.round_down4. rewrite <- Z.ldiff_land. change 3 with (Z.ones 2). rewrite Z.ldiff_ones_r by lia.
  rewrite Z.shiftl_mul_pow2, Z.shiftr_div_pow2 by lia. change (2 ^ 2) with 4. lia.
Qed.

Lemma round4_bounds x : x ≤ Program.round_up4 x ∧ Program.round_up4 x mod 4 = 0 ∧ Program.round_down4 x ≤ x.
Proof.
  change (Program.round_up4 x) with (Program.round_down4 (x + 3)). rewrite !round_down4_eq.
  pose proof (Z.div_mod x 4). pose proof (Z.div_mod (x + 3) 4). pose proof (Z.mod_pos_bound x 4). pose proof (Z.mod_pos_bound (x + 3) 4).
  split_and!; [lia | | lia]. rewrite Z.mul_comm. apply Z.mod_mul. lia.
Qed.

Section targets.
Context (min_len size : Z) (Hml : 1 ≤ min_len) (tgt_min tgt_max : option Z).
Context (Hmin : ∀ m, tgt_min = Some m → m mod 4 = 0).
Implicit Types xs : list (Z * Z).

(** A target [t] with room for [min_len] instructions beside the sections [xs]. *)
Definition target_ok xs (t : Z) : Prop :=
  0 ≤ t ∧ t + 4 * min_len ≤ size ∧ (∀ m, tgt_min = Some m → m ≤ t) ∧ (∀ m, tgt_max = Some m → t ≤ m) ∧
  ∀ x, x ∈ xs → x.1 + 4 * x.2 ≤ t ∨ t + 4 * min_len ≤ x.1.

Definition in_gap (g : Z * Z) (t : Z) : Prop := g.1 ≤ t < g.1 + g.2.

(** A gap starts at a word and all its addresses are targets that satisfy [R]. *)
Definition gap_ok (R : Z → Prop) (g : Z * Z) : Prop := g.1 mod 4 = 0 ∧ 0 < g.2 ∧ ∀ t, in_gap g t → R t.

Lemma gap_between_ok R v top : v mod 4 = 0 →
  (∀ t, v ≤ t ≤ top → (∀ m, tgt_min = Some m → m ≤ t) → (∀ m, tgt_max = Some m → t ≤ m) → R t) →
  Forall (gap_ok R) (Program.gap_between v top tgt_min tgt_max).
Proof.
  intros Hv HR. unfold Program.gap_between. case_match eqn:E; [| constructor]. apply Z.leb_le in E. apply Forall_singleton.
  split; [| split; [cbn; lia |]].
  - cbn. destruct tgt_min as [m |]; [| done]. destruct (Z.max_spec v m) as [[_ ->] | [_ ->]]; [by apply Hmin | done].
  - intros t [Hlo Hhi]. cbn in *. apply HR.
    + destruct tgt_min, tgt_max; lia.
    + intros m ->. lia.
    + intros m ->. lia.
Qed.

(** The sections in order, apart from each other. *)
Definition apart xs : Prop := StronglySorted (fun x y => x.1 + 4 * x.2 ≤ y.1) xs ∧ ∀ x, x ∈ xs → x.1 mod 4 = 0 ∧ 0 ≤ x.2 ∧ x.1 + 4 * x.2 ≤ size.

Lemma apart_cons x xs : apart (x :: xs) → apart xs ∧ (∀ y, y ∈ xs → x.1 + 4 * x.2 ≤ y.1) ∧ x.1 mod 4 = 0 ∧ 0 ≤ x.2 ∧ x.1 + 4 * x.2 ≤ size.
Proof.
  intros [Hs Hx]. apply StronglySorted_inv in Hs as [Hs Hle]. split; [split; [done |]; intros y ?; apply Hx; by right |].
  split; [intros y; by apply (proj1 (Forall_forall _ _) Hle) | apply Hx; by left].
Qed.

Lemma gaps_fold_ok xs v gl : apart xs → 0 ≤ v → v mod 4 = 0 → v ≤ size → (∀ x, x ∈ xs → v ≤ x.1) →
  ∃ v' gl', foldM (Program.gap_step min_len tgt_min tgt_max) (v, gl) xs = Ok (v', gl ++ gl') ∧
    Forall (gap_ok (fun t => v ≤ t ∧ target_ok xs t)) gl' ∧ v ≤ v' ≤ size ∧ v' mod 4 = 0 ∧ ∀ x, x ∈ xs → x.1 + 4 * x.2 ≤ v'.
Proof.
  revert v gl. induction xs as [| [b n] xs IH]; intros v gl Hap Hv0 Hv4 Hvs Hle; cbn [foldM].
  { exists v, []. rewrite app_nil_r. split; [done |]. split; [constructor |]. split; [lia |]. split; [done |]. by intros x ?%elem_of_nil. }
  destruct (apart_cons _ _ Hap) as (Hap' & Hnext & Hb4 & Hn & Hbs). cbn [fst snd] in *.
  pose proof (Hle (b, n) ltac:(by left)) as Hvb. cbn in Hvb.
  cbn [Program.gap_step]. rewrite (proj2 (Z.leb_le v b) Hvb). cbn [py_assert mbind res_bind].
  assert (H4 : (b + 4 * n) mod 4 = 0) by (rewrite Z.mul_comm, Z.mod_add by lia; done).
  set (gs := if _ && _ then _ else _).
  destruct (IH (b + 4 * n) (gl ++ gs) Hap') as (v' & gl' & -> & Hgl & Hv' & Hv'4 & Hend); [lia | done | lia | done |].
  exists v', (gs ++ gl'). split; [by rewrite app_assoc |]. split; [| split; [lia |]; split; [done |]].
  - apply Forall_app. split.
    + unfold gs. destruct (_ && _); [| constructor]. apply gap_between_ok; [done |]. intros t Ht Hmn Hmx. split; [lia |].
      split_and!; try done; [lia | lia |]. intros x [-> | Hx]%elem_of_cons; [right; cbn; lia |]. specialize (Hnext x Hx). lia.
    + eapply Forall_impl; [done |]. intros g (Hg4 & Hg0 & Hg). split; [done |]. split; [done |]. intros t Ht.
      destruct (Hg t Ht) as (Hbt & Ht0 & Hts & Hmn & Hmx & Hxs). split; [lia |]. split_and!; try done.
      intros x [-> | Hx]%elem_of_cons; [left; cbn; lia | by apply Hxs].
  - intros x [-> | Hx]%elem_of_cons; [cbn; lia | by apply Hend].
Qed.

(** *** Choosing *)

Context (choose_gap : list (Z * Z) → nat) (choose_part : Z → nat) (choose_off : Z → Z → Z).

(** What the answers of the random module satisfy. *)
Record choose_ok : Prop := {
  co_gap gl : gl ≠ [] → (choose_gap gl < length gl)%nat;
  co_part n : (choose_part n < 3)%nat;
  co_off lo hi : lo ≤ hi → lo ≤ choose_off lo hi ≤ hi;
}.
Context (Hchoose : choose_ok).

Lemma endpts_ok n i lo hi : 0 ≤ n → Program.endpts n !! i = Some (lo, hi) → 0 ≤ lo ≤ hi ∧ hi ≤ n.
Proof.
  intros Hn. pose proof (Z.div_mod n 10). pose proof (Z.mod_pos_bound n 10). pose proof (Z.div_mod (n * 9) 10). pose proof (Z.mod_pos_bound (n * 9) 10).
  destruct i as [| [| [| i]]]; intros [= <- <-]; lia.
Qed.

Lemma pick_one_ok R gl : gl ≠ [] → Forall (gap_ok R) gl →
  (∃ t, Program.pick_one choose_gap choose_part choose_off min_len gl = Ok t ∧ R t ∧ t mod 4 = 0) ∨
  (1 < min_len ∧ Program.pick_one choose_gap choose_part choose_off min_len gl = Err AssertionError).
Proof.
  intros Hne Hgl. unfold Program.pick_one.
  destruct (lookup_lt_is_Some_2 gl (choose_gap gl)) as [[g len] Hg]; [by apply Hchoose |]. rewrite Hg. cbn [of_option mbind res_bind].
  assert (Hgap : gap_ok R (g, len)) by by eapply Forall_lookup_1. destruct Hgap as (Hg4 & Hlen & HR). cbn in Hg4, Hlen.
  pose proof (Z.div_mod (len - 1) 4). pose proof (Z.mod_pos_bound (len - 1) 4).
  destruct (Z.leb_spec 0 ((len - 1) / 4 - (min_len - 1))) as [Hmax |]; [| right; split; [lia | done]]. left. cbn [py_assert mbind res_bind].
  set (mo := (len - 1) / 4 - (min_len - 1)) in *.
  destruct (lookup_lt_is_Some_2 (Program.endpts mo) (choose_part mo)) as [[lo hi] He]; [apply Hchoose |]. rewrite He. cbn [of_option mbind res_bind].
  destruct (endpts_ok mo _ lo hi Hmax He) as [Hlo Hhi]. pose proof (co_off Hchoose lo hi ltac:(lia)) as Hoff.
  rewrite (proj2 (Z.leb_le lo hi)), (proj2 (Z.leb_le lo _)), (proj2 (Z.leb_le _ hi)) by lia. cbn [andb py_assert mbind res_bind].
  rewrite (proj2 (Z.leb_le _ len)) by lia. cbn [py_assert mbind res_bind]. eexists. split; [done |]. split.
  - apply HR. unfold in_gap. cbn. lia.
  - rewrite Z.mul_comm, Z.mod_add by lia. done.
Qed.

Lemma split_gap_ok R t gl : t mod 4 = 0 → Forall (gap_ok R) gl →
  Forall (gap_ok (fun u => R u ∧ 4 * min_len ≤ Z.abs (u - t))) (gl ≫= Program.split_gap min_len t).
Proof.
  intros Ht Hgl. apply Forall_bind. eapply Forall_impl; [done |]. intros [g n] (Hg4 & Hn & HR). cbn in Hg4, Hn.
  unfold Program.split_gap. cbn. apply Forall_app. split; (case_match eqn:E; [| constructor]); apply Z.ltb_lt in E; apply Forall_singleton.
  - split; [done |]. split; [cbn; lia |]. intros u [Hu1 Hu2]. cbn in Hu1, Hu2. split; [| lia]. apply HR. split; cbn; lia.
  - split; [cbn; destruct (Z.max_spec g (t + 4 * min_len)) as [[_ ->] | [_ ->]]; [| done]; rewrite Z.mul_comm, Z.mod_add by lia; done |].
    split; [cbn; lia |]. intros u [Hu1 Hu2]. cbn in Hu1, Hu2. split; [| lia]. apply HR. split; cbn; lia.
Qed.

(** Targets that keep their distance. *)
Definition distant (ret : list Z) : Prop := ∀ i j t u, ret !! i = Some t → ret !! j = Some u → i ≠ j → 4 * min_len ≤ Z.abs (t - u).

Lemma distant_snoc ret t : distant ret → (∀ u, u ∈ ret → 4 * min_len ≤ Z.abs (t - u)) → distant (ret ++ [t]).
Proof.
  intros Hd Ht i j x y Hi Hj Hij. apply lookup_app_Some in Hi, Hj.
  destruct Hi as [Hi | [Hi1 Hi2]], Hj as [Hj | [Hj1 Hj2]].
  - by apply (Hd i j).
  - apply list_lookup_singleton_Some in Hj2 as [? <-]. pose proof (Ht x ltac:(by eapply list_elem_of_lookup_2)). lia.
  - apply list_lookup_singleton_Some in Hi2 as [? <-]. apply Ht. by eapply list_elem_of_lookup_2.
  - apply list_lookup_singleton_Some in Hi2 as [? <-], Hj2 as [? <-]. lia.
Qed.

Lemma pick_targets_ok (R : Z → Prop) count gl ret :
  Forall (gap_ok (fun t => R t ∧ ∀ u, u ∈ ret → 4 * min_len ≤ Z.abs (t - u))) gl →
  Forall (fun t => R t ∧ t mod 4 = 0) ret → distant ret →
  (∃ r, Program.pick_targets choose_gap choose_part choose_off count min_len gl ret = Ok r ∧
    ∀ l, r = Some l → length l = (length ret + count)%nat ∧ Forall (fun t => R t ∧ t mod 4 = 0) l ∧ distant l) ∨
  (1 < min_len ∧ Program.pick_targets choose_gap choose_part choose_off count min_len gl ret = Err AssertionError).
Proof.
  revert gl ret. induction count as [| count IH]; intros gl ret Hgl Hret Hd; cbn [Program.pick_targets].
  { left. exists (Some ret). split; [done |]. intros l [= <-]. by rewrite Nat.add_0_r. }
  destruct gl as [| g gl]; [left; by exists None |].
  destruct (pick_one_ok _ (g :: gl) ltac:(done) Hgl) as [(t & -> & [HR Hdist] & Ht4) | [? ->]]; [| by right]. cbn [mbind res_bind].
  destruct (IH ((g :: gl) ≫= Program.split_gap min_len t) (ret ++ [t])) as [(r & E & Hr) | [? E]]; [| | | | right; split; [done | exact E]].
  - pose proof (split_gap_ok _ t _ Ht4 Hgl) as Hs. eapply Forall_impl; [exact Hs |]. intros g' (? & ? & Hg'). split; [done |]. split; [done |].
    intros u Hu. destruct (Hg' u Hu) as [[HRu Hdu] Hut]. split; [done |]. intros w [Hw | ->%list_elem_of_singleton]%elem_of_app; [by apply Hdu | done].
  - apply Forall_app. split; [done |]. by apply Forall_singleton.
  - by apply distant_snoc.
  - left. exists r. split; [exact E |]. intros l Hl. destruct (Hr l Hl) as (Hlen & ?). split; [rewrite Hlen, length_app; cbn; lia | done].
Qed.
End targets.
End program.
