(* ===== verification/RigProps.v ===== *)
(** Properties of the data structures of the random instruction generator: known memory, targets of
    loads and stores, the sections of the program and branch targets. *)

From stdpp Require Import sorting.
From S2P Require Import Prelude BitLoops PyList KnownMem RigProgramFacts RigProgram.

(** ** Known memory *)

(** C32: the ranges of [KnownMem] stand for a set of addresses: marking a range adds its addresses,
    merging keeps the addresses known to both, for memories built from these operations; neither
    fails an assertion. *)
Theorem known_mem_sets m other base width : km_wf m → km_wf other → top_addr other = top_addr m →
  0 ≤ width → 0 ≤ base → base + width ≤ top_addr m →
  (∃ m', KnownMem.touch_range m base width = Ok m' ∧ km_wf m' ∧ top_addr m' = top_addr m ∧
    ∀ p, knows m' p ↔ knows m p ∨ base ≤ p < base + width) ∧
  (∃ m', KnownMem.merge m other = Ok m' ∧ km_wf m' ∧ top_addr m' = top_addr m ∧
    ∀ p, knows m' p ↔ knows m p ∧ knows other p).
Proof. intros Hm Ho Ht Hw Hb Hbw. split; [by apply touch_range_ok | by apply merge_ok]. Qed.

Definition mem_a : KnownMem := mkKnownMem 64 [(0, 5); (8, 20)].
Definition mem_b : KnownMem := mkKnownMem 64 [(3, 10); (20, 24)].

Lemma known_mem_sets_witness :
  (∃ m', KnownMem.touch_range mem_a 4 4 = Ok m' ∧ km_wf m' ∧ top_addr m' = 64 ∧
    ∀ p, knows m' p ↔ knows mem_a p ∨ 4 ≤ p < 4 + 4) ∧
  (∃ m', KnownMem.merge mem_a mem_b = Ok m' ∧ km_wf m' ∧ top_addr m' = 64 ∧
    ∀ p, knows m' p ↔ knows mem_a p ∧ knows mem_b p).
Proof.
  apply (known_mem_sets mem_a mem_b 4 4); [| | done | done | done | done]; (split; [done | cbn; lia]).
Defined.

(** Two ranges are glued, and touching ranges leave an empty one behind. *)
Example touch_glues : known_ranges <$> (match KnownMem.touch_range mem_a 4 4 with Ok m => Some m | _ => None end) = Some [(0, 20)].
Proof. vm_compute. reflexivity. Qed.
Example merge_empty_range : known_ranges <$> (match KnownMem.merge mem_a mem_b with Ok m => Some m | _ => None end) = Some [(3, 5); (8, 10); (20, 20)].
Proof. vm_compute. reflexivity. Qed.

(** C33: a target for a load or store is a legal one: the address is aligned and is the base plus an
    aligned offset in the range; a load only reads known bytes and a store stays in the memory.
    The bounds are not exact: the two smallest offsets of the range and, for stores, the last
    addresses of the memory are never chosen. *)
Theorem lsu_target_sound choices randrange m loads base offs oa width aa :
  random_ok choices randrange → km_wf m → offs.1 ≤ offs.2 → 1 ≤ oa → 1 ≤ width → 1 ≤ aa →
  ∃ r, KnownMem.pick_lsu_target choices randrange m loads base offs oa width aa = Ok r ∧
    ∀ addr, r = Some addr →
      offs.1 + 2 ≤ addr - base ≤ offs.2 ∧ (oa | addr - base) ∧ (aa | addr) ∧
      0 ≤ addr ∧ addr + width ≤ top_addr m ∧
      (if loads then ∀ p, addr ≤ p < addr + width → knows m p else addr + width < top_addr m).
Proof.
  intros Hr Hm Hoff Hoa Hw Haa.
  destruct (pick_ok choices randrange Hr m loads base offs oa width aa Hm Hoff Hoa Hw Haa) as (r & Hp & Hr').
  exists r. split; [done |]. intros addr Haddr. destruct (Hr' addr Haddr) as (? & ? & ? & rg & Hin & Hlo & Hhi).
  destruct Hm as [Ht Hc]. destruct loads.
  - assert (Hcov : ∀ p, rg.1 ≤ p < rg.2 → knows m p) by (intros p Hp'; apply Exists_exists; by exists rg).
    pose proof (covers_chain _ _ _ _ Hc (Hcov addr ltac:(lia))). pose proof (covers_chain _ _ _ _ Hc (Hcov (addr + width - 1) ltac:(lia))).
    split; [done |]. split; [done |]. split; [done |]. split; [lia |]. split; [lia |]. intros p Hp'. apply Hcov. lia.
  - apply list_elem_of_singleton in Hin as ->. cbn in *. split; [done |]. split; [done |]. split; [done |]. lia.
Qed.

Lemma lsu_target_sound_witness :
  ∃ r, KnownMem.pick_lsu_target (fun _ => 0%nat) (fun lo _ => lo) mem_a true 0 (-16, 16) 4 4 4 = Ok r ∧
    ∀ addr, r = Some addr →
      -16 + 2 ≤ addr - 0 ≤ 16 ∧ (4 | addr - 0) ∧ (4 | addr) ∧ 0 ≤ addr ∧ addr + 4 ≤ 64 ∧
      ∀ p, addr ≤ p < addr + 4 → knows mem_a p.
Proof.
  apply (lsu_target_sound (fun _ => 0%nat) (fun lo _ => lo) mem_a true 0 (-16, 16) 4 4 4); [| | done | done | done | done].
  - split; [intros ws Hws; destruct ws; [done | cbn; lia] | intros; lia].
  - split; [done | cbn; lia].
Defined.

(** The only legal target is refused: the last word, and the smallest offset. *)
Example store_last_word :
  KnownMem.pick_lsu_target (fun _ => 0%nat) (fun lo _ => lo) (mkKnownMem 4 []) false 0 (-4, 4) 4 4 4 = Ok None.
Proof. vm_compute. reflexivity. Qed.
Example load_lowest_offset :
  KnownMem.pick_lsu_target (fun _ => 0%nat) (fun lo _ => lo) (mkKnownMem 8 [(0, 4)]) true 0 (0, 4) 4 4 4 = Ok None.
Proof. vm_compute. reflexivity. Qed.

(** ** Sections *)

Section sections.
Context {I : Type}.
Implicit Types p : Program I.

Lemma fits_space p addr (insns : list I) : prog_wf p → insns ≠ [] →
  fits p addr insns ↔ addr mod 4 = 0 ∧ Z.of_nat (length insns) ≤ space p ∧ Z.of_nat (length insns) ≤ Program.get_insn_space_at addr p.
Proof.
  intros Hp Hne. unfold fits. rewrite (insn_space_ok p addr (Z.of_nat (length insns)) Hp); [naive_solver |]. destruct insns; [done | cbn; lia].
Qed.
End sections.

(** C34: adding instructions at an address succeeds exactly when the address is a word address with
    enough space by [get_insn_space_at] and the budget allows it, and fails an assertion otherwise.
    Afterwards the instructions are at their addresses, all others are where they were, and the
    sections are apart again (touching sections have been joined). *)
Theorem program_add {I} (p : Program I) addr insns : prog_wf p → insns ≠ [] → 0 ≤ addr →
  let n := Z.of_nat (length insns) in
  if bool_decide (addr mod 4 = 0 ∧ n ≤ space p ∧ n ≤ Program.get_insn_space_at addr p) then
    ∃ p', Program.add_insns addr insns p = Ok p' ∧ prog_wf p' ∧ imem_size p' = imem_size p ∧ space p' = space p - n ∧
      ∀ a x, insn_at (_sections p') a x ↔ insn_at (_sections p) a x ∨ ∃ k, insns !! k = Some x ∧ a = addr + 4 * Z.of_nat k
  else Program.add_insns addr insns p = Err AssertionError.
Proof.
  intros Hp Hne Ha n. pose proof (fits_space p addr insns Hp Hne) as Hiff. case_bool_decide as Hc.
  - destruct (add_insns_ok p addr insns Hp Hne Ha (proj2 Hiff Hc)) as (p' & -> & Hadd). by exists p'.
  - apply add_insns_err; [done | done |]. by rewrite Hiff.
Qed.

(** Two sections with a gap of two words. *)
Definition two_sections : Program nat := mkProgram 0 64 0 64 [(0, [10; 11]%nat); (16, [12]%nat)] 13.

Lemma two_sections_wf : prog_wf two_sections.
Proof.
  split; [done |]. split.
  - by apply (bool_decide_unpack _).
  - intros b l Hin. cbn in Hin. repeat (apply elem_of_cons in Hin as [[= -> ->] | Hin]; [cbn; split_and!; done |]). by apply elem_of_nil in Hin.
  - intros b l b' l' Hin Hin'. cbn in Hin, Hin'.
    repeat (apply elem_of_cons in Hin as [[= -> ->] | Hin]); [| | by apply elem_of_nil in Hin];
      repeat (apply elem_of_cons in Hin' as [[= -> ->] | Hin']); try (by apply elem_of_nil in Hin'); cbn; lia.
Qed.

Lemma program_add_witness :
  ∃ p', Program.add_insns 8 [20; 21]%nat two_sections = Ok p' ∧ prog_wf p' ∧ imem_size p' = 64 ∧ space p' = 13 - 2 ∧
      ∀ a x, insn_at (_sections p') a x ↔ insn_at (_sections two_sections) a x ∨ ∃ k, [20; 21]%nat !! k = Some x ∧ a = 8 + 4 * Z.of_nat k.
Proof. apply (program_add two_sections 8 [20; 21]%nat); [apply two_sections_wf | done | done]. Defined.

Example sections_joined :
  _sections <$> (match Program.add_insns 8 [20; 21]%nat two_sections with Ok p => Some p | _ => None end) = Some [(0, [10; 11; 20; 21; 12]%nat)].
Proof. vm_compute. reflexivity. Qed.

(** ** Branch targets *)

#[global] Instance pair_le_trans : Transitive Program.pair_le.
Proof. intros [a b] [a' b'] [a'' b'']. unfold Program.pair_le. cbn. lia. Qed.
#[global] Instance pair_le_total : Total Program.pair_le.
Proof. intros [a b] [a' b']. unfold Program.pair_le. cbn. lia. Qed.

Lemma sorted_apart (ys : list (Z * Z)) : StronglySorted Program.pair_le ys → NoDup ys.*1 →
  (∀ x y, x ∈ ys → y ∈ ys → x.1 < y.1 → x.1 + 4 * x.2 ≤ y.1) → StronglySorted (fun x y => x.1 + 4 * x.2 ≤ y.1) ys.
Proof.
  induction 1 as [| x ys Hs IH Hle]; intros Hn Hap; [constructor |]. cbn in Hn. apply NoDup_cons in Hn as [Hx Hn]. constructor.
  - apply IH; [done |]. intros y z ? ?. apply Hap; by right.
  - apply Forall_forall. intros y Hy. apply Hap; [by left | by right |].
    pose proof (proj1 (Forall_forall _ _) Hle y Hy) as Hxy. unfold Program.pair_le in Hxy.
    assert (x.1 ≠ y.1) by (intros E; apply Hx; rewrite E; by apply list_elem_of_fmap_2). lia.
Qed.

(** The sections and the instruction at [cur_pc], in order. *)
Lemma section_list_apart {I} (p : Program I) cur_pc : prog_wf p → 0 ≤ cur_pc → cur_pc mod 4 = 0 → cur_pc + 4 ≤ imem_size p →
  free (_sections p) cur_pc 1 →
  let xs := merge_sort Program.pair_le (((fun s : Z * list I => (s.1, Z.of_nat (length s.2))) <$> _sections p) ++ [(cur_pc, 1)]) in
  apart (imem_size p) xs ∧ ∀ x, x ∈ xs ↔ x = (cur_pc, 1) ∨ ∃ b l, (b, l) ∈ _sections p ∧ x = (b, Z.of_nat (length l)).
Proof.
  intros [_ [Hn Hf Hap]] Hc0 Hc4 Hcs Hfree xs.
  assert (Hin : ∀ x, x ∈ xs ↔ x = (cur_pc, 1) ∨ ∃ b l, (b, l) ∈ _sections p ∧ x = (b, Z.of_nat (length l))).
  { intros x. unfold xs. rewrite merge_sort_Permutation, elem_of_app, list_elem_of_singleton, list_elem_of_fmap. split.
    - intros [([b l] & -> & ?) | ->]; [right; by exists b, l | by left].
    - intros [-> | (b & l & ? & ->)]; [by right | left; by exists (b, l)]. }
  split; [| done]. split.
  - apply sorted_apart; [apply StronglySorted_merge_sort; apply _ | |].
    + unfold xs. rewrite merge_sort_Permutation, fmap_app, <- list_fmap_compose. cbn.
      apply NoDup_app. split_and!; [exact Hn | | apply NoDup_singleton].
      intros b ([b' l] & Eb & Hbl)%list_elem_of_fmap Ec%list_elem_of_singleton. cbn in Eb. subst b b'.
      destruct (Hf _ _ Hbl) as (_ & _ & Hl & _). pose proof (length_pos _ Hl). destruct (Hfree _ _ Hbl); cbn in *; lia.
    + intros x y [-> | (b & l & Hbl & ->)]%Hin [-> | (b' & l' & Hbl' & ->)]%Hin; cbn; intros Hlt.
      * lia.
      * destruct (Hfree _ _ Hbl'); [| lia]. destruct (Hf _ _ Hbl') as (_ & _ & Hl & _). pose proof (length_pos _ Hl). lia.
      * destruct (Hfree _ _ Hbl); lia.
      * pose proof (Hap _ _ _ _ Hbl Hbl' Hlt). lia.
  - intros x [-> | (b & l & Hbl & ->)]%Hin; cbn; [lia |]. destruct (Hf _ _ Hbl) as (? & ? & _ & ?). lia.
Qed.

Lemma gaps_ok {I} (p : Program I) cur_pc min_len tgt_min tgt_max : prog_wf p → 1 ≤ min_len →
  (∀ m, tgt_min = Some m → m mod 4 = 0) →
  0 ≤ cur_pc → cur_pc mod 4 = 0 → cur_pc + 4 ≤ imem_size p → free (_sections p) cur_pc 1 →
  ∃ gl, Program.gaps p cur_pc min_len tgt_min tgt_max = Ok gl ∧
    Forall (gap_ok (fun t => target_ok min_len (imem_size p) tgt_min tgt_max
      (merge_sort Program.pair_le (((fun s : Z * list I => (s.1, Z.of_nat (length s.2))) <$> _sections p) ++ [(cur_pc, 1)])) t)) gl.
Proof.
  intros Hp Hml Hmin Hc0 Hc4 Hcs Hfree. unfold Program.gaps.
  destruct (section_list_apart p cur_pc Hp Hc0 Hc4 Hcs Hfree) as [Hap Hin]. set (xs := merge_sort _ _) in *.
  assert (Hge : ∀ x, x ∈ xs → 0 ≤ x.1).
  { intros x [-> | (b & l & Hbl & ->)]%Hin; [done |]. destruct Hp as [_ [_ Hf _]]. by destruct (Hf b l Hbl). }
  destruct (gaps_fold_ok min_len (imem_size p) tgt_min tgt_max Hmin xs 0 [] Hap) as (v & gl & -> & Hgl & Hv & Hv4 & Hend); [done | done | lia | done |].
  cbn [mbind res_bind app]. eexists. split; [done |]. apply Forall_app. split.
  - eapply Forall_impl; [done |]. intros g (? & ? & Hg). split; [done |]. split; [done |]. intros t Ht. by destruct (Hg t Ht).
  - apply gap_between_ok; [done | done |]. intros t Ht Hmn Hmx. split_and!; try done; [lia | lia |].
    intros x Hx. left. specialize (Hend x Hx). lia.
Qed.

(** C35: branch targets are usable: [pick_branch_targets] gives up or returns the requested number of
    word addresses in the given range, each with room for [min_len] instructions clear of the
    sections, of the branch itself and of the other targets.  Only for [min_len] above one can it
    fail, with an assertion. *)
Theorem branch_targets {I} choose_gap choose_part choose_off (p : Program I) cur_pc min_len count tgt_min tgt_max :
  choose_ok choose_gap choose_part choose_off → prog_wf p → 1 ≤ min_len →
  0 ≤ cur_pc → cur_pc mod 4 = 0 → cur_pc + 4 ≤ imem_size p → free (_sections p) cur_pc 1 →
  (∃ r, Program.pick_branch_targets choose_gap choose_part choose_off p cur_pc min_len count tgt_min tgt_max = Ok r ∧
    ∀ ts, r = Some ts → length ts = count ∧ distant min_len ts ∧
      ∀ t, t ∈ ts → t mod 4 = 0 ∧ 0 ≤ t ∧ t + 4 * min_len ≤ imem_size p ∧
        (∀ m, tgt_min = Some m → m ≤ t) ∧ (∀ m, tgt_max = Some m → t ≤ m) ∧
        free (_sections p) t min_len ∧ (cur_pc + 4 ≤ t ∨ t + 4 * min_len ≤ cur_pc)) ∨
  (1 < min_len ∧ Program.pick_branch_targets choose_gap choose_part choose_off p cur_pc min_len count tgt_min tgt_max = Err AssertionError).
Proof.
  intros Hch Hp Hml Hc0 Hc4 Hcs Hfree. unfold Program.pick_branch_targets.
  destruct (gaps_ok p cur_pc min_len (Program.round_up4 <$> tgt_min) (Program.round_down4 <$> tgt_max)) as (gl & -> & Hgl); try done.
  { intros m (x & -> & ->)%fmap_Some. apply round4_bounds. }
  cbn [mbind res_bind]. destruct (section_list_apart p cur_pc Hp Hc0 Hc4 Hcs Hfree) as [_ Hin]. set (xs := merge_sort _ _) in *.
  destruct (pick_targets_ok min_len Hml choose_gap choose_part choose_off Hch
    (target_ok min_len (imem_size p) (Program.round_up4 <$> tgt_min) (Program.round_down4 <$> tgt_max) xs) count gl [])
    as [(r & -> & Hr) | [? ->]]; [| by apply Forall_nil | by intros i | | by right].
  { eapply Forall_impl; [done |]. intros g (? & ? & Hg). split; [done |]. split; [done |]. intros t Ht. split; [by apply Hg |]. by intros u ?%elem_of_nil. }
  left. cbn [mbind res_bind]. destruct r as [ts |]; [| by exists None]. destruct (Hr ts eq_refl) as (Hlen & Hts & Hd). cbn in Hlen.
  rewrite bool_decide_eq_true_2 by done. exists (Some ts). split; [done |]. intros _ [= <-]. split; [done |]. split; [done |].
  intros t Ht. apply (proj1 (Forall_forall _ _) Hts) in Ht as [(Ht0 & Hts' & Hmn & Hmx & Hx) Ht4]. split_and!; try done.
  - intros m ->. specialize (Hmn _ eq_refl). pose proof (round4_bounds m). lia.
  - intros m ->. specialize (Hmx _ eq_refl). pose proof (round4_bounds m). lia.
  - intros b l Hbl. specialize (Hx (b, Z.of_nat (length l))). cbn in Hx. apply Hx, Hin. right. by exists b, l.
  - specialize (Hx (cur_pc, 1)). cbn in Hx. apply Hx, Hin. by left.
Qed.

Lemma branch_targets_witness :
  (∃ r, Program.pick_branch_targets (fun _ => 0%nat) (fun _ => 0%nat) (fun lo _ => lo) two_sections 32 1 2 (Some 5) None = Ok r ∧
    ∀ ts, r = Some ts → length ts = 2%nat ∧ distant 1 ts ∧
      ∀ t, t ∈ ts → t mod 4 = 0 ∧ 0 ≤ t ∧ t + 4 * 1 ≤ 64 ∧ (∀ m, Some 5 = Some m → m ≤ t) ∧ (∀ m, None = Some m → t ≤ m) ∧
        free (_sections two_sections) t 1 ∧ (32 + 4 ≤ t ∨ t + 4 * 1 ≤ 32)) ∨
  (1 < 1 ∧ Program.pick_branch_targets (fun _ => 0%nat) (fun _ => 0%nat) (fun lo _ => lo) two_sections 32 1 2 (Some 5) None = Err AssertionError).
Proof.
  apply (branch_targets (fun _ => 0%nat) (fun _ => 0%nat) (fun lo _ => lo) two_sections 32 1 2 (Some 5) None);
    [| apply two_sections_wf | done | done | done | done |].
  - split; [intros gl Hgl; destruct gl; [done | cbn; lia] | lia | lia].
  - intros b l Hin. cbn in Hin. repeat (apply elem_of_cons in Hin as [[= -> ->] | Hin]; [cbn; lia |]). by apply elem_of_nil in Hin.
Defined.

(** Room for exactly two instructions: the assertion on [max_insn_off] fails. *)
Example two_insns_assertion :
  Program.pick_branch_targets (I := nat) (fun _ => 0%nat) (fun _ => 0%nat) (fun lo _ => lo) (mkProgram 0 12 0 64 [] 3) 0 2 1 None None = Err AssertionError.
Proof. vm_compute. reflexivity. Qed.
