(* ===== verification/RigModel.v ===== *)
(** The abstract machine of the random instruction generator (otbn/dv/rig/rig/model.py): which
    registers and memory have architectural values, and which values are known.  Also the
    instructions it follows (program.py, class ProgInsn; util/shared/lsu_desc.py). *)

From S2P Require Import Prelude PyStr PyList Yaml Operand InsnYaml KnownMem.

#[local] Open Scope string_scope.
#[local] Open Scope stdpp_scope.
#[local] Open Scope list_scope.
#[local] Open Scope Z_scope.

#[global] Instance reg_type_eq_dec : EqDecision reg_type.
Proof. solve_decision. Defined.
#[global] Instance reg_type_countable : Countable reg_type.
Proof.
  refine (inj_countable' (fun rt => match rt with Gpr => true | Wdr => false end) (fun b => if (b : bool) then Gpr else Wdr) _).
  by intros [].
Defined.

(** ** Instructions *)

Record LSUDesc := mkLSUDesc {
  lsu_type : string;
  lsu_target : list string;
  idx_width : Z;
}.

Module LSUDesc.
Definition TYPES : list string := ["mem-load"; "mem-store"; "csr"; "wsr-load"; "wsr-store"].

Definition read_target (target : yaml) : res (list string) :=
  match target with
  | YStr s => Ok [s]
  | YList l => mapR check_str l
  | _ => Err ValueError
  end.

Definition from_yaml (yml : yaml) : res LSUDesc :=
  yd ← check_keys yml ["type"; "target"] ["bytes"];
  lsu_type ← of_option KeyError (yget "type" yd);
  lsu_type ← check_str lsu_type;
  if bool_decide (lsu_type ∉ TYPES) then Err ValueError
  else
    target ← of_option KeyError (yget "target" yd);
    target_parts ← read_target target;
    idx_width ←
      (if String.prefix "mem-" lsu_type then
         match yget "bytes" yd with
         | None => Err ValueError
         | Some b => check_int b
         end
       else
         match yget "bytes" yd with
         | None => Ok 1
         | Some _ => Err ValueError
         end);
    Ok (mkLSUDesc lsu_type target_parts idx_width).
End LSUDesc.

(** An instruction of the database with its load/store description. *)
Record RInsn := mkRInsn {
  ri_insn : YInsn;
  ri_lsu : option LSUDesc;
}.
Definition ri_mnemonic (i : RInsn) : string := yi_mnemonic (ri_insn i).
Definition ri_types (i : RInsn) : list OperandType := o_type <$> yi_operands (ri_insn i).

Record ProgInsn := mkProgInsn {
  pi_insn : RInsn;
  pi_operands : list Z;
  pi_lsu_info : option (string * Z);
}.

Module ProgInsn.
(** The syntax of an instruction is never missing. *)
Definition init (insn : RInsn) (operands : list Z) (lsu_info : option (string * Z)) : res ProgInsn :=
  py_assert (bool_decide (length (ri_types insn) = length operands));;
  py_assert (eqb (bool_decide (lsu_info = None)) (match ri_lsu insn with None => true | _ => false end));;
  Ok (mkProgInsn insn operands lsu_info).

(** JSON values have the types of parsed YAML; a tuple is written as a list. *)
Definition to_json (p : ProgInsn) : yaml :=
  YList [YStr (ri_mnemonic (pi_insn p)); YList (YInt <$> pi_operands p);
         match pi_lsu_info p with None => YNone | Some (t, a) => YList [YStr t; YInt a] end].

(** A bool is an int of Python. *)
Definition read_nat (y : yaml) : res Z :=
  match y with
  | YInt z => if z <? 0 then Err ValueError else Ok z
  | YBool b => Ok (Z_of_bool b)
  | _ => Err ValueError
  end.

Definition read_lsu_info (y : yaml) : res (option (string * Z)) :=
  match y with
  | YNone => Ok None
  | YList [YStr mem_type; addr] =>
      if bool_decide (mem_type ∈ ["dmem"; "csr"; "wsr"]) then
        a ← read_nat addr; Ok (Some (mem_type, a))
      else Err ValueError
  | _ => Err ValueError
  end.

Definition from_json (mnemonic_to_insn : dict RInsn) (json : yaml) : res ProgInsn :=
  match json with
  | YList [YStr mnemonic; YList operands; json_lsu_info] =>
      op_vals ← mapR read_nat operands;
      lsu_info ← read_lsu_info json_lsu_info;
      insn ← of_option ValueError (dget mnemonic mnemonic_to_insn);
      if negb (eqb (bool_decide (lsu_info = None)) (match ri_lsu insn with None => true | _ => false end)) then Err ValueError
      else if bool_decide (length (ri_types insn) ≠ length op_vals) then Err ValueError
      else init insn op_vals lsu_info
  | _ => Err ValueError
  end.
End ProgInsn.

(** ** The call stack *)

(** The top is at the end of [elts_at_top]; [None] is a value that is not known. *)
Record CallStack := mkCallStack {
  min_depth : Z;
  max_depth : Z;
  elts_at_top : list (option Z);
}.

Module CallStack.
Definition init : CallStack := mkCallStack 0 0 [].

(** The elements on which the two lists agree, from the end. *)
Fixpoint common (a b : list (option Z)) : list (option Z) :=
  match a, b with
  | x :: a, y :: b => if bool_decide (x = y) then x :: common a b else []
  | _, _ => []
  end.

Definition merge (s other : CallStack) : res CallStack :=
  let lo := Z.min (min_depth s) (min_depth other) in
  let hi := Z.max (max_depth s) (max_depth other) in
  let new_top := reverse (common (reverse (elts_at_top s)) (reverse (elts_at_top other))) in
  py_assert (lo <=? hi);;
  py_assert (Z.of_nat (length new_top) <=? hi);;
  Ok (mkCallStack lo hi new_top).

Definition empty (s : CallStack) : res bool :=
  py_assert (0 <=? min_depth s);;
  Ok (min_depth s =? 0).

Definition full (s : CallStack) : res bool :=
  py_assert (max_depth s <=? 8);;
  Ok (max_depth s =? 8).

Definition pop (s : CallStack) : res CallStack :=
  py_assert (0 <? min_depth s);;
  Ok (mkCallStack (min_depth s - 1) (max_depth s - 1) (take (pred (length (elts_at_top s))) (elts_at_top s))).

Definition peek (s : CallStack) : res (option Z) :=
  py_assert (0 <? min_depth s);;
  Ok (default None (last (elts_at_top s))).

Definition write (s : CallStack) (value : option Z) (update : bool) : res CallStack :=
  if update then
    py_assert (0 <? min_depth s);;
    match last (elts_at_top s) with
    | Some top =>
        py_assert (bool_decide (top = None) || bool_decide (top = value));;
        Ok (mkCallStack (min_depth s) (max_depth s) (take (pred (length (elts_at_top s))) (elts_at_top s) ++ [value]))
    | None => Ok (mkCallStack (min_depth s) (max_depth s) [value])
    end
  else
    f ← full s;
    py_assert (negb f);;
    Ok (mkCallStack (min_depth s + 1) (max_depth s + 1) (elts_at_top s ++ [value])).

Definition forget_value (s : CallStack) : CallStack :=
  mkCallStack (min_depth s) (max_depth s) (replicate (length (elts_at_top s)) None).
End CallStack.

(** ** The model *)

(** The values of the registers of a file that have an architectural value; [None] is not known. *)
Notation regfile := (gmap Z (option Z)).

Record Model := mkModel {
  initial_fuel : Z;
  m_fuel : Z;
  m_dmem_size : Z;
  known_regs : gmap reg_type regfile;
  const_regs : gmap reg_type (gset Z);
  const_stack : list (gmap reg_type (gset Z));
  call_stack : CallStack;
  loop_depth : Z;
  known_mem : dict KnownMem;
  m_pc : Z;
}.

Definition set_fuel (v : Z) (m : Model) : Model :=
  mkModel (initial_fuel m) v (m_dmem_size m) (known_regs m) (const_regs m) (const_stack m) (call_stack m) (loop_depth m) (known_mem m) (m_pc m).
Definition set_known_regs (v : gmap reg_type regfile) (m : Model) : Model :=
  mkModel (initial_fuel m) (m_fuel m) (m_dmem_size m) v (const_regs m) (const_stack m) (call_stack m) (loop_depth m) (known_mem m) (m_pc m).
Definition set_const_regs (v : gmap reg_type (gset Z)) (m : Model) : Model :=
  mkModel (initial_fuel m) (m_fuel m) (m_dmem_size m) (known_regs m) v (const_stack m) (call_stack m) (loop_depth m) (known_mem m) (m_pc m).
Definition set_const_stack (v : list (gmap reg_type (gset Z))) (m : Model) : Model :=
  mkModel (initial_fuel m) (m_fuel m) (m_dmem_size m) (known_regs m) (const_regs m) v (call_stack m) (loop_depth m) (known_mem m) (m_pc m).
Definition set_call_stack (v : CallStack) (m : Model) : Model :=
  mkModel (initial_fuel m) (m_fuel m) (m_dmem_size m) (known_regs m) (const_regs m) (const_stack m) v (loop_depth m) (known_mem m) (m_pc m).
Definition set_known_mem (v : dict KnownMem) (m : Model) : Model :=
  mkModel (initial_fuel m) (m_fuel m) (m_dmem_size m) (known_regs m) (const_regs m) (const_stack m) (call_stack m) (loop_depth m) v (m_pc m).

Module Model.

Definition init (dmem_size reset_addr fuel : Z) : res Model :=
  py_assert (0 <=? fuel);;
  csrs ← KnownMem.init 4096;
  wsrs ← KnownMem.init 4096;
  dmem ← KnownMem.init dmem_size;
  csrs ← KnownMem.touch_addr csrs 0x7c0;
  csrs ← KnownMem.touch_addr csrs 0x7c1;
  csrs ← KnownMem.touch_addr csrs 0x7c8;
  csrs ← KnownMem.touch_range csrs 0x7d0 8;
  csrs ← KnownMem.touch_addr csrs 0xfc0;
  wsrs ← KnownMem.touch_addr wsrs 0;
  wsrs ← KnownMem.touch_addr wsrs 1;
  wsrs ← KnownMem.touch_addr wsrs 2;
  Ok (mkModel fuel fuel dmem_size {[Gpr := {[0 := Some 0]}]} ∅ [] CallStack.init 0
        [("dmem", dmem); ("csr", csrs); ("wsr", wsrs)] reset_addr).

(** The [pc] of the model is passed as reset address. *)
Definition copy (m : Model) : res Model :=
  ret ← init (m_dmem_size m) (m_pc m) (initial_fuel m);
  mems ← mapR (fun kv : string * KnownMem => k ← KnownMem.copy kv.2; Ok (kv.1, k)) (known_mem m);
  Ok (mkModel (initial_fuel ret) (m_fuel m) (m_dmem_size ret) (known_regs m) (const_regs m) (const_stack m)
        (call_stack m) (loop_depth m) mems (m_pc ret)).

(** *** Merging *)

Definition merge_value (svalue ovalue : option Z) : option Z :=
  match ovalue, svalue with
  | Some o, Some s => if bool_decide (s ≠ o) then None else Some s
  | _, _ => None
  end.

(** The registers that both files have. *)
Definition merge_file (sregs oregs : regfile) : regfile :=
  base.merge (fun s o => match s, o with Some s, Some o => Some (merge_value s o) | _, _ => None end) sregs oregs.

(** Each register type is handled on its own. *)
Definition _merge_known_regs (self other : gmap reg_type regfile) : gmap reg_type regfile :=
  base.merge (fun s o => match s, o with Some s, Some o => Some (merge_file s o) | _, _ => None end) self other.

Definition _merge_const_regs (self other : gmap reg_type (gset Z)) : gmap reg_type (gset Z) :=
  base.merge (fun s o => match s, o with None, None => None | _, _ => Some (default ∅ s ∪ default ∅ o) end) self other.

Definition merge_mems (self other : dict KnownMem) : res (dict KnownMem) :=
  mapR (fun kv : string * KnownMem =>
    o ← of_option KeyError (dget kv.1 other);
    k ← KnownMem.merge kv.2 o;
    Ok (kv.1, k)) self.

Definition merge (m other : Model) : res Model :=
  py_assert (initial_fuel m =? initial_fuel other);;
  let fuel := Z.min (m_fuel m) (m_fuel other) in
  py_assert (m_dmem_size m =? m_dmem_size other);;
  let regs := _merge_known_regs (known_regs m) (known_regs other) in
  let consts := _merge_const_regs (const_regs m) (const_regs other) in
  py_assert (bool_decide (const_stack m = const_stack other));;
  cs ← CallStack.merge (call_stack m) (call_stack other);
  py_assert (loop_depth m =? loop_depth other);;
  mems ← merge_mems (known_mem m) (known_mem other);
  py_assert (m_pc m =? m_pc other);;
  Ok (mkModel (initial_fuel m) fuel (m_dmem_size m) regs consts (const_stack m) cs (loop_depth m) mems (m_pc m)).

(** *** Registers *)

Definition is_const (rt : reg_type) (idx : Z) (m : Model) : bool :=
  match const_regs m !! rt with
  | None => false
  | Some cr => bool_decide (idx ∈ cr)
  end.

Definition is_gpr (rt : reg_type) (idx i : Z) : bool := bool_decide (rt = Gpr) && (idx =? i).

Definition read_reg (rt : reg_type) (idx : Z) (m : Model) : res Model :=
  if is_gpr rt idx 1 then
    py_assert (negb (is_const Gpr 1 m));;
    cs ← CallStack.pop (call_stack m);
    Ok (set_call_stack cs m)
  else Ok m.

Definition write_reg (rt : reg_type) (idx : Z) (value : option Z) (update : bool) (m : Model) : res Model :=
  py_assert (negb (is_const rt idx m));;
  if is_gpr rt idx 0 then Ok m
  else if is_gpr rt idx 1 then
    cs ← CallStack.write (call_stack m) value update;
    Ok (set_call_stack cs m)
  else Ok (set_known_regs (<[rt := <[idx := value]> (default ∅ (known_regs m !! rt))]> (known_regs m)) m).

(** [setdefault] adds the register type. *)
Definition setdefault (rt : reg_type) (m : Model) : Model :=
  set_known_regs (<[rt := default ∅ (known_regs m !! rt)]> (known_regs m)) m.

Definition get_reg (rt : reg_type) (idx : Z) (m : Model) : res (option Z * Model) :=
  if is_gpr rt idx 1 then v ← CallStack.peek (call_stack m); Ok (v, m)
  else Ok (default None (default ∅ (known_regs m !! rt) !! idx), setdefault rt m).

Definition touch_mem (mem_type : string) (base width : Z) (m : Model) : res Model :=
  match dget mem_type (known_mem m) with
  | None => Err AssertionError
  | Some k =>
      k ← KnownMem.touch_range k base width;
      Ok (set_known_mem (dset mem_type k (known_mem m)) m)
  end.

Definition regs_with_known_vals (rt : reg_type) (m : Model) : res (list (Z * Z)) :=
  match known_regs m !! rt with
  | None => Ok []
  | Some kr =>
      let ret := omap (fun kv : Z * option Z => (fun v => (kv.1, v)) <$> kv.2) (map_to_list kr) in
      if bool_decide (rt = Gpr) then
        py_assert (bool_decide (kr !! 1 = None));;
        e ← CallStack.empty (call_stack m);
        if (e : bool) then Ok ret
        else
          x1 ← CallStack.peek (call_stack m);
          match x1 with
          | Some v => if is_const Gpr 1 m then Ok ret else Ok (ret ++ [(1, v)])
          | None => Ok ret
          end
      else Ok ret
  end.

Definition all_regs_with_known_vals (m : Model) : res (gmap reg_type (list (Z * Z))) :=
  foldM (fun ret rt =>
    kv ← regs_with_known_vals rt m;
    Ok (match kv with [] => ret | _ => <[rt := kv]> ret end)) ∅ (map_to_list (known_regs m)).*1.

Definition regs_with_architectural_vals (rt : reg_type) (m : Model) : res (list Z * Model) :=
  let m := setdefault rt m in
  let kr := default ∅ (known_regs m !! rt) in
  let arch_regs := (map_to_list kr).*1 in
  if bool_decide (rt = Gpr) then
    py_assert (bool_decide (kr !! 1 = None));;
    e ← CallStack.empty (call_stack m);
    Ok (if e || is_const Gpr 1 m then (arch_regs, m) else (arch_regs ++ [1], m))
  else Ok (arch_regs, m).

Definition push_const (m : Model) : Z * Model :=
  let st := const_stack m ++ [const_regs m] in
  (Z.of_nat (length st), set_const_stack st m).

Definition pop_const (token : Z) (m : Model) : res Model :=
  py_assert (1 <=? token);;
  py_assert (Z.of_nat (length (const_stack m)) =? token);;
  regs ← of_option IndexError (last (const_stack m));
  Ok (set_const_regs regs (set_const_stack (take (pred (length (const_stack m))) (const_stack m)) m)).

Definition mark_const (rt : reg_type) (idx : Z) (m : Model) : Model :=
  if is_gpr rt idx 0 then m
  else set_const_regs (<[rt := default ∅ (const_regs m !! rt) ∪ {[idx]}]> (const_regs m)) m.

Definition forget_value (rt : reg_type) (idx : Z) (m : Model) : Model :=
  if is_gpr rt idx 0 then m
  else if is_gpr rt idx 1 then set_call_stack (CallStack.forget_value (call_stack m)) m
  else
    let kr := default ∅ (known_regs m !! rt) in
    set_known_regs (<[rt := match kr !! idx with Some _ => <[idx := None]> kr | None => kr end]> (known_regs m)) m.

(** *** Random choices *)

Section pick.
(** The answers of [random.choice] (the index), [random.randint], and those of known memory. *)
Context (choice : nat → nat) (randint : Z → Z → Z) (choices : list Z → nat) (randrange : Z → Z → Z).

Definition random_choice {A} (l : list A) : res A := of_option IndexError (l !! choice (length l)).

Definition pick_reg_operand_value (rt : reg_type) (is_dest : bool) (m : Model) : res (option Z) :=
  if negb is_dest then
    match known_regs m !! rt with
    | None => Ok None
    | Some kr =>
        if bool_decide (kr = ∅) then Ok None
        else
          let known_list := (map_to_list kr).*1 in
          known_list ←
            (if bool_decide (rt = Gpr) then
               py_assert (bool_decide (kr !! 1 = None));;
               e ← CallStack.empty (call_stack m);
               Ok (if e || is_const Gpr 1 m then known_list else known_list ++ [1])
             else Ok known_list);
          v ← random_choice known_list;
          Ok (Some v)
    end
  else
    let all_regs : gset Z := list_to_set (seqZ 0 (1 ≪ OperandType.reg_width rt)) in
    let good_regs := all_regs ∖ default ∅ (const_regs m !! rt) in
    good_regs ←
      (if bool_decide (rt = Gpr) then
         f ← CallStack.full (call_stack m);
         Ok (if (f : bool) then good_regs ∖ {[1]} else good_regs)
       else Ok good_regs);
    v ← random_choice (elements good_regs);
    Ok (Some v).

Definition pick_operand_value (t : OperandType) (m : Model) : res (option Z) :=
  match t with
  | RegOperandType rt is_dest => pick_reg_operand_value rt is_dest m
  | _ =>
      op_rng ← OperandType.get_op_val_range t (m_pc m);
      match op_rng with
      | None => Ok (Some 0)
      | Some (lo, hi) =>
          let shift := match t with ImmOperandType _ _ shift _ _ => shift | _ => 0 end in
          let align := 1 ≪ shift in
          let sh_lo := (lo + align - 1) / align in
          let sh_hi := hi / align in
          if sh_hi <? sh_lo then Err ValueError
          else OperandType.op_val_to_enc_val t (randint sh_lo sh_hi ≪ shift) (Some (m_pc m))
      end
  end.

(** The loop over the operands of a load or store; [None] gives up. *)
Fixpoint pick_indices (base_align : Z) (known : dict (list (Z * Z))) (reg_indices : dict Z) (reg_sum : Z) :
    res (option (dict Z * Z)) :=
  match known with
  | [] => Ok (Some (reg_indices, reg_sum))
  | (name, indices) :: known =>
      let aligned_regs := filter (fun iv : Z * Z => iv.2 mod base_align = 0) indices in
      match aligned_regs with
      | [] => Ok None
      | _ =>
          '(idx, value) ← random_choice aligned_regs;
          pick_indices base_align known (dset name idx reg_indices) (reg_sum + value)
      end
  end.

Definition pick_lsu_target (mem_type : string) (loads_value : bool) (known : dict (list (Z * Z))) (imm_rng : Z * Z)
    (imm_shift byte_width : Z) (m : Model) : res (option (Z * Z * dict Z)) :=
  match dget mem_type (known_mem m) with
  | None => Err AssertionError
  | Some mem =>
      py_assert (imm_rng.1 <=? imm_rng.2);;
      py_assert (0 <=? imm_shift);;
      let base_align := Z.gcd byte_width (1 ≪ imm_shift) in
      r ← pick_indices base_align known [] 0;
      match r with
      | None => Ok None
      | Some (reg_indices, reg_sum) =>
          addr ← KnownMem.pick_lsu_target choices randrange mem loads_value reg_sum imm_rng (1 ≪ imm_shift) byte_width byte_width;
          match addr with
          | None => Ok None
          | Some addr => Ok (Some (addr, addr - reg_sum, reg_indices))
          end
      end
  end.
End pick.

(** *** Following an instruction *)

(** The registers that the operands read (a set) and write (a list). *)
Definition seen_reads (p : ProgInsn) : list (reg_type * Z) :=
  remove_dups (omap (fun tv : OperandType * Z =>
    match tv.1 with RegOperandType rt false => Some (rt, tv.2) | _ => None end) (zip (ri_types (pi_insn p)) (pi_operands p))).
Definition seen_writes (p : ProgInsn) : list (reg_type * Z) :=
  omap (fun tv : OperandType * Z =>
    match tv.1 with RegOperandType rt true => Some (rt, tv.2) | _ => None end) (zip (ri_types (pi_insn p)) (pi_operands p)).

Definition _generic_update_for_insn (p : ProgInsn) (m : Model) : res Model :=
  py_assert (bool_decide (length (ri_types (pi_insn p)) = length (pi_operands p)));;
  m ← foldM (fun m r => read_reg r.1 r.2 m) m (seen_reads p);
  m ← foldM (fun m w => write_reg w.1 w.2 None false m) m (seen_writes p);
  match pi_lsu_info p with
  | None => Ok m
  | Some (mem_type, addr) =>
      match ri_lsu (pi_insn p) with
      | None => Err AssertionError
      | Some lsu => touch_mem mem_type addr (idx_width lsu) m
      end
  end.

Definition is_mnemonic (s : string) (p : ProgInsn) : res () :=
  py_assert (bool_decide (ri_mnemonic (pi_insn p) = s));;
  py_assert (bool_decide (length (ri_types (pi_insn p)) = length (pi_operands p))).

Definition update_for_lui (p : ProgInsn) (m : Model) : res Model :=
  is_mnemonic "lui" p;;
  match ri_types (pi_insn p), pi_operands p with
  | [RegOperandType Gpr true; ImmOperandType _ _ _ false _], [rd; imm] =>
      m ← _generic_update_for_insn p m;
      py_assert (0 <=? imm);;
      write_reg Gpr rd (Some (imm ≪ 12)) true m
  | _, _ => Err RuntimeError
  end.

Definition update_for_addi (p : ProgInsn) (m : Model) : res Model :=
  is_mnemonic "addi" p;;
  match ri_types (pi_insn p), pi_operands p with
  | [RegOperandType Gpr true; RegOperandType Gpr false; ImmOperandType _ _ _ true _ as imm_op], [rd; rs; imm] =>
      '(src_val, m) ← get_reg Gpr rs m;
      result ←
        match src_val with
        | None => Ok None
        | Some src_val =>
            imm_val ← OperandType.enc_val_to_op_val imm_op imm (m_pc m);
            imm_val ← of_option AssertionError imm_val;
            Ok (Some (Z.land (src_val + imm_val) ((1 ≪ 32) - 1)))
        end;
      m ← _generic_update_for_insn p m;
      write_reg Gpr rd result true m
  | _, _ => Err RuntimeError
  end.

Definition _inc_gpr (gpr : Z) (gpr_val : option Z) (delta mask : Z) (m : Model) : res Model :=
  write_reg Gpr gpr ((fun v => Z.land (v + delta) mask) <$> gpr_val) false m.

(** [grd_inc] and [grs1_inc] of the indirect instructions: the first that is set applies. *)
Definition inc_one (r1 : Z) (v1 : option Z) (delta1 mask1 inc1 r2 : Z) (v2 : option Z) (delta2 mask2 inc2 : Z) (m : Model) : res Model :=
  if truthy inc1 then _inc_gpr r1 v1 delta1 mask1 m
  else if truthy inc2 then _inc_gpr r2 v2 delta2 mask2 m
  else Ok m.

Definition write_indirect (grd_val : option Z) (m : Model) : res Model :=
  match grd_val with
  | Some v => write_reg Wdr (Z.land v 31) None false m
  | None => Ok m
  end.

Definition update_for_bnlid (p : ProgInsn) (m : Model) : res Model :=
  is_mnemonic "bn.lid" p;;
  match ri_types (pi_insn p), pi_operands p with
  | [t1; t2; t3; t4; t5], [grd; grs1; _; grs1_inc; grd_inc] =>
      match t1, t2, t3, t4, t5 with
      | RegOperandType Gpr false, RegOperandType Gpr false, ImmOperandType _ _ _ true _, OptionOperandType _ _, OptionOperandType _ _ =>
          '(grd_val, m) ← get_reg Gpr grd m;
          '(grs1_val, m) ← get_reg Gpr grs1 m;
          m ← _generic_update_for_insn p m;
          m ← write_indirect grd_val m;
          inc_one grs1 grs1_val 32 ((1 ≪ 32) - 1) grs1_inc grd grd_val 1 31 grd_inc m
      | _, _, _, _, _ => Err RuntimeError
      end
  | _, _ => Err ValueError
  end.

Definition update_for_bnsid (p : ProgInsn) (m : Model) : res Model :=
  is_mnemonic "bn.sid" p;;
  match ri_types (pi_insn p), pi_operands p with
  | [t1; t2; t3; t4; t5], [grs1; grs2; _; grs1_inc; grs2_inc] =>
      match t1, t2, t3, t4, t5 with
      | RegOperandType Gpr false, RegOperandType Gpr false, ImmOperandType _ _ _ true _, OptionOperandType _ _, OptionOperandType _ _ =>
          '(grs1_val, m) ← get_reg Gpr grs1 m;
          '(grs2_val, m) ← get_reg Gpr grs2 m;
          m ← _generic_update_for_insn p m;
          inc_one grs1 grs1_val 32 ((1 ≪ 32) - 1) grs1_inc grs2 grs2_val 1 31 grs2_inc m
      | _, _, _, _, _ => Err RuntimeError
      end
  | _, _ => Err ValueError
  end.

Definition update_for_bnmovr (p : ProgInsn) (m : Model) : res Model :=
  is_mnemonic "bn.movr" p;;
  match ri_types (pi_insn p), pi_operands p with
  | [t1; t2; t3; t4], [grd; grs; grd_inc; grs_inc] =>
      match t1, t2, t3, t4 with
      | RegOperandType Gpr false, RegOperandType Gpr false, OptionOperandType _ _, OptionOperandType _ _ =>
          '(grd_val, m) ← get_reg Gpr grd m;
          '(grs_val, m) ← get_reg Gpr grs m;
          m ← _generic_update_for_insn p m;
          m ← write_indirect grd_val m;
          inc_one grd grd_val 1 31 grd_inc grs grs_val 1 31 grs_inc m
      | _, _, _, _ => Err RuntimeError
      end
  | _, _ => Err ValueError
  end.

Definition consume_fuel (m : Model) : res Model :=
  py_assert (0 <? m_fuel m);;
  Ok (set_fuel (m_fuel m - 1) m).

Definition update_for_insn (p : ProgInsn) (m : Model) : res Model :=
  let mnem := ri_mnemonic (pi_insn p) in
  m ←
    (if bool_decide (mnem = "lui") then update_for_lui p m
     else if bool_decide (mnem = "addi") then update_for_addi p m
     else if bool_decide (mnem = "bn.lid") then update_for_bnlid p m
     else if bool_decide (mnem = "bn.sid") then update_for_bnsid p m
     else if bool_decide (mnem = "bn.movr") then update_for_bnmovr p m
     else _generic_update_for_insn p m);
  consume_fuel m.
End Model.
