(* ===== verification/RigModelProps.v ===== *)
(** What the abstract machine of the random instruction generator guarantees: the machines it
    describes, and that the merge of two models, for code that is reached on two paths, describes
    the machines of both. *)

From S2P Require Import Prelude BitLoops PyStr PyList Yaml Operand InsnYaml KnownMem RigProgramFacts RigModel.

(** ** Machines *)

(** The values of the registers that have one (other than x1), the call stack with its top at the
    end, and the addresses of each memory that have a value. *)
Record machine := mkMachine {
  mc_reg : reg_type → Z → option Z;
  mc_stack : list Z;
  mc_mem : string → Z → Prop;
}.

(** A known value is the actual one. *)
Definition val_ok (e : option Z) (v : Z) : Prop := ∀ w, e = Some w → v = w.

(** ** The call stack *)

Record cs_wf (s : CallStack) : Prop := {
  cw_depth : 0 ≤ min_depth s ≤ max_depth s ∧ max_depth s ≤ 8;
  cw_elts : Z.of_nat (length (elts_at_top s)) ≤ min_depth s;
}.

Definition cs_in (s : CallStack) (st : list Z) : Prop :=
  min_depth s ≤ Z.of_nat (length st) ≤ max_depth s ∧
  ∃ low top, st = low ++ top ∧ Forall2 val_ok (elts_at_top s) top.

Lemma common_prefix a b : ∃ x y, a = CallStack.common a b ++ x ∧ b = CallStack.common a b ++ y.
Proof.
  revert b. induction a as [| v a IH]; intros b; [by exists [], b |]. destruct b as [| w b]; [by exists (v :: a), [] |].
  cbn. case_bool_decide as E; [| by exists (v :: a), (w :: b)]. subst w. destruct (IH b) as (x & y & Ha & Hb).
  exists x, y. cbn. by rewrite <- Ha, <- Hb.
Qed.

Lemma common_suffix a b : let c := reverse (CallStack.common (reverse a) (reverse b)) in
  (∃ x, a = x ++ c) ∧ (∃ y, b = y ++ c).
Proof.
  intros c. destruct (common_prefix (reverse a) (reverse b)) as (x & y & Ha & Hb).
  split; [exists (reverse x) | exists (reverse y)]; unfold c; rewrite <- reverse_app; [rewrite <- Ha | rewrite <- Hb]; by rewrite reverse_involutive.
Qed.

Lemma cs_in_suffix s lo hi x c st : cs_in s st → elts_at_top s = x ++ c → lo ≤ min_depth s → max_depth s ≤ hi → cs_in (mkCallStack lo hi c) st.
Proof.
  intros [Hd (low & top & -> & Hf)] E Hlo Hhi. split; [cbn; lia |]. rewrite E in Hf. apply Forall2_app_inv_l in Hf as (t1 & t2 & _ & H2 & ->).
  exists (low ++ t1), t2. cbn. by rewrite <- app_assoc.
Qed.

Lemma cs_merge_ok s o : cs_wf s → cs_wf o →
  ∃ s', CallStack.merge s o = Ok s' ∧ cs_wf s' ∧ ∀ st, cs_in s st ∨ cs_in o st → cs_in s' st.
Proof.
  intros [Hs1 Hs2] [Ho1 Ho2]. unfold CallStack.merge.
  destruct (common_suffix (elts_at_top s) (elts_at_top o)) as [[x Hx] [y Hy]]. set (c := reverse _) in *.
  assert (Hcs : (length c ≤ length (elts_at_top s))%nat) by (rewrite Hx, length_app; lia).
  assert (Hco : (length c ≤ length (elts_at_top o))%nat) by (rewrite Hy, length_app; lia).
  rewrite !(proj2 (Z.leb_le _ _)) by lia. cbn [py_assert mbind res_bind]. eexists. split; [done |]. split; [split; cbn; lia |].
  intros st [H | H]; [apply (cs_in_suffix s _ _ x) | apply (cs_in_suffix o _ _ y)]; try done; lia.
Qed.

Lemma cs_pop_ok s : cs_wf s → 0 < min_depth s →
  ∃ s', CallStack.pop s = Ok s' ∧ cs_wf s' ∧ ∀ st, cs_in s st → ∃ st0 v, st = st0 ++ [v] ∧ cs_in s' st0.
Proof.
  intros [H1 H2] Hm. unfold CallStack.pop. rewrite (proj2 (Z.ltb_lt _ _) Hm). cbn [py_assert mbind res_bind]. eexists. split; [done |].
  split; [split; cbn; [lia |]; rewrite length_take; lia |]. intros st [Hd (low & top & -> & Hf)]. cbn [elts_at_top].
  destruct (elts_at_top s) as [| v l _] using rev_ind.
  - apply Forall2_nil_inv_l in Hf as ->. rewrite app_nil_r in *. destruct low as [| w low _] using rev_ind; [cbn in Hd; lia |].
    exists low, w. split; [done |]. split; [rewrite length_app in Hd; cbn in *; lia |]. exists low, []. cbn. by rewrite app_nil_r.
  - apply Forall2_app_inv_l in Hf as (t1 & t2 & Hf1 & Hf2 & ->). apply Forall2_cons_inv_l in Hf2 as (w & t3 & Hw & Hf3 & ->).
    apply Forall2_nil_inv_l in Hf3 as ->. exists (low ++ t1), w. split; [by rewrite <- app_assoc |].
    split; [rewrite !length_app in *; cbn in *; lia |]. exists low, t1. split; [done |].
    rewrite length_app. cbn [length]. rewrite Nat.add_1_r. cbn [pred]. by rewrite take_app_length.
Qed.

Lemma cs_write_ok s value : cs_wf s → max_depth s < 8 →
  ∃ s', CallStack.write s value false = Ok s' ∧ cs_wf s' ∧ ∀ st v, cs_in s st → val_ok value v → cs_in s' (st ++ [v]).
Proof.
  intros [H1 H2] Hm. unfold CallStack.write, CallStack.full. rewrite (proj2 (Z.leb_le _ 8)) by lia. cbn [py_assert mbind res_bind].
  rewrite (proj2 (Z.eqb_neq _ 8)) by lia. cbn [negb py_assert mbind res_bind]. eexists. split; [done |].
  split; [split; cbn; [lia |]; rewrite length_app; cbn; lia |]. intros st v [Hd (low & top & -> & Hf)] Hv.
  split; [rewrite !length_app in *; cbn in *; lia |]. exists low, (top ++ [v]). split; [by rewrite <- app_assoc |].
  apply Forall2_app; [done |]. by repeat constructor.
Qed.

(** A second write of the same instruction refines the first. *)
Lemma cs_write_refine s s1 value : CallStack.write s None false = Ok s1 → 0 ≤ min_depth s →
  CallStack.write s1 value true = CallStack.write s value false.
Proof.
  unfold CallStack.write. intros Hw Hm. apply bind_Ok_inv in Hw as (f & Hf & Hw). rewrite Hf. cbn [mbind res_bind] in *.
  destruct f; [done |]. cbn [negb py_assert mbind res_bind] in *. injection Hw as <-. cbn [min_depth max_depth elts_at_top].
  rewrite (proj2 (Z.ltb_lt _ _)) by lia. cbn [py_assert mbind res_bind]. rewrite last_snoc.
  rewrite bool_decide_eq_true_2 by done. cbn [orb py_assert mbind res_bind]. do 2 f_equal.
  rewrite length_app. cbn [length]. rewrite Nat.add_1_r. cbn [pred]. by rewrite take_app_length.
Qed.

(** ** The model *)

Record model_wf (m : Model) : Prop := {
  mw_stack : cs_wf (call_stack m);
  mw_x1 kr : known_regs m !! Gpr = Some kr → kr !! 1 = None;
  mw_mem t k : (t, k) ∈ known_mem m → km_wf k;
  mw_memdup : NoDup (known_mem m).*1;
}.

(** The machine [c] is one that the model describes. *)
Record describes (m : Model) (c : machine) : Prop := {
  de_reg rt kr i e : known_regs m !! rt = Some kr → kr !! i = Some e → ∃ v, mc_reg c rt i = Some v ∧ val_ok e v;
  de_stack : cs_in (call_stack m) (mc_stack c);
  de_mem t k p : (t, k) ∈ known_mem m → knows k p → mc_mem c t p;
}.

(** *** Merging *)

Definition same_shape (m o : Model) : Prop :=
  initial_fuel m = initial_fuel o ∧ m_dmem_size m = m_dmem_size o ∧ const_stack m = const_stack o ∧
  loop_depth m = loop_depth o ∧ m_pc m = m_pc o ∧
  Forall2 (fun x y => x.1 = y.1 ∧ top_addr x.2 = top_addr y.2) (known_mem m) (known_mem o).

Lemma merge_mems_ok a b b0 : Forall2 (fun x y : string * KnownMem => x.1 = y.1 ∧ top_addr x.2 = top_addr y.2) a b →
  (∀ t k, (t, k) ∈ a → km_wf k) → (∀ t k, (t, k) ∈ b → km_wf k ∧ dget t b0 = Some k) →
  ∃ c, mapR (fun kv : string * KnownMem => o ← of_option KeyError (dget kv.1 b0); k ← KnownMem.merge kv.2 o; Ok (kv.1, k)) a = Ok c ∧
    c.*1 = a.*1 ∧ (∀ t k, (t, k) ∈ c → km_wf k) ∧
    ∀ t k p, (t, k) ∈ c → knows k p → (∃ k', (t, k') ∈ a ∧ knows k' p) ∧ (∃ k', (t, k') ∈ b ∧ knows k' p).
Proof.
  induction 1 as [| [t k] [t' k'] a b [Ht Htop] H IH]; intros Ha Hb; cbn [mapR].
  { exists []. split_and!; try done; by intros t k ?%elem_of_nil || (intros t k p ?%elem_of_nil). }
  cbn [fst snd] in *. subst t'. destruct (Hb t k' ltac:(by left)) as [Hk' Hg]. rewrite Hg. cbn [of_option mbind res_bind].
  destruct (merge_ok k k') as (km & -> & Hkm & _ & Hkn); [by apply (Ha t); left | done | done |]. cbn [mbind res_bind].
  destruct IH as (c & -> & Hkeys & Hwf & Hc); [intros; eapply Ha; by right | intros; apply Hb; by right |]. cbn [mbind res_bind].
  exists ((t, km) :: c). split; [done |]. split; [cbn; by rewrite Hkeys |]. split.
  - intros t1 k1 [[= -> ->] | Hin]%elem_of_cons; [done | by apply (Hwf t1)].
  - intros t1 k1 p [[= -> ->] | Hin]%elem_of_cons Hp.
    + apply Hkn in Hp as [? ?]. split; [exists k | exists k']; (split; [by left | done]).
    + destruct (Hc t1 k1 p Hin Hp) as [(x & ? & ?) (y & ? & ?)]. split; [exists x | exists y]; (split; [by right | done]).
Qed.

Lemma merge_regs_ok (a b : gmap reg_type regfile) rt kr i e :
  Model._merge_known_regs a b !! rt = Some kr → kr !! i = Some e →
  ∃ ka kb ea eb, a !! rt = Some ka ∧ b !! rt = Some kb ∧ ka !! i = Some ea ∧ kb !! i = Some eb ∧
    (∀ v, val_ok ea v ∨ val_ok eb v → val_ok e v).
Proof.
  unfold Model._merge_known_regs. rewrite lookup_merge. destruct (a !! rt) as [ka |], (b !! rt) as [kb |]; cbn; try done.
  intros [= <-]. unfold Model.merge_file. rewrite lookup_merge. destruct (ka !! i) as [ea |] eqn:Ea, (kb !! i) as [eb |] eqn:Eb; cbn; try done.
  intros [= <-]. exists ka, kb, ea, eb. split_and!; try done. intros v Hv w.
  unfold Model.merge_value. destruct eb as [eb |], ea as [ea |]; try done. case_bool_decide as E; [done |]. subst eb.
  intros [= <-]. destruct Hv as [Hv | Hv]; by apply Hv.
Qed.

Lemma model_merge_ok m o : model_wf m → model_wf o → same_shape m o →
  ∃ m', Model.merge m o = Ok m' ∧ model_wf m' ∧ ∀ c, describes m c ∨ describes o c → describes m' c.
Proof.
  intros [Ms Mx Mm Md] [Os Ox Om Od] (E1 & E2 & E3 & E4 & E5 & E6). unfold Model.merge.
  rewrite (proj2 (Z.eqb_eq _ _) E1). cbn [py_assert mbind res_bind]. rewrite (proj2 (Z.eqb_eq _ _) E2). cbn [py_assert mbind res_bind].
  rewrite bool_decide_eq_true_2 by done. cbn [py_assert mbind res_bind].
  destruct (cs_merge_ok _ _ Ms Os) as (cs & -> & Hcs & Hin). cbn [mbind res_bind]. rewrite (proj2 (Z.eqb_eq _ _) E4). cbn [py_assert mbind res_bind].
  unfold Model.merge_mems. destruct (merge_mems_ok (known_mem m) (known_mem o) (known_mem o) E6) as (mems & -> & Hkeys & Hwf & Hmem); [done | |].
  { intros t k Hin'. split; [by apply (Om t) |]. by apply elem_dget_iff. }
  cbn [mbind res_bind]. rewrite (proj2 (Z.eqb_eq _ _) E5). cbn [py_assert mbind res_bind]. eexists. split; [done |]. split.
  - split; cbn; [done | | done | by rewrite Hkeys]. intros kr Hkr. destruct (kr !! 1) as [e |] eqn:E; [| done].
    destruct (merge_regs_ok _ _ _ _ _ _ Hkr E) as (ka & kb & ea & eb & Ha & _ & Hea & _). rewrite (Mx ka Ha) in Hea. done.
  - intros c Hc. split; cbn.
    + intros rt kr i e Hkr He. destruct (merge_regs_ok _ _ _ _ _ _ Hkr He) as (ka & kb & ea & eb & Ha & Hb & Hea & Heb & Hv).
      destruct Hc as [[Hreg _ _] | [Hreg _ _]]; [destruct (Hreg rt ka i ea Ha Hea) as (v & ? & ?) | destruct (Hreg rt kb i eb Hb Heb) as (v & ? & ?)]; exists v; auto.
    + apply Hin. destruct Hc as [[_ Hst _] | [_ Hst _]]; auto.
    + intros t k p Hk Hp. destruct (Hmem t k p Hk Hp) as [(k1 & ? & ?) (k2 & ? & ?)].
      destruct Hc as [[_ _ Hm'] | [_ _ Hm']]; [by apply (Hm' t k1) | by apply (Hm' t k2)].
Qed.

#[local] Open Scope string_scope.
#[local] Open Scope stdpp_scope.
#[local] Open Scope list_scope.
#[local] Open Scope Z_scope.

Definition knows_reg (m : Model) (rt : reg_type) (i w : Z) : Prop :=
  ∃ kr, known_regs m !! rt = Some kr ∧ kr !! i = Some (Some w).

Lemma merge_value_Some a b w : Model.merge_value a b = Some w ↔ a = Some w ∧ b = Some w.
Proof. unfold Model.merge_value. destruct a as [a |], b as [b |]; try naive_solver. case_bool_decide; naive_solver. Qed.

Lemma merge_known (a b : gmap reg_type regfile) rt i w :
  (∃ kr, Model._merge_known_regs a b !! rt = Some kr ∧ kr !! i = Some (Some w)) ↔
  (∃ kr, a !! rt = Some kr ∧ kr !! i = Some (Some w)) ∧ (∃ kr, b !! rt = Some kr ∧ kr !! i = Some (Some w)).
Proof.
  unfold Model._merge_known_regs. setoid_rewrite lookup_merge. destruct (a !! rt) as [ka |], (b !! rt) as [kb |]; cbn; try naive_solver.
  assert (Hx : ∀ k : regfile, (∃ kr, Some k = Some kr ∧ kr !! i = Some (Some w)) ↔ k !! i = Some (Some w)) by naive_solver.
  rewrite !Hx. unfold Model.merge_file. rewrite lookup_merge.
  destruct (ka !! i) as [ea |], (kb !! i) as [eb |]; cbn; try naive_solver.
  rewrite !(inj_iff Some). apply merge_value_Some.
Qed.

Lemma merge_fields m o m' : Model.merge m o = Ok m' →
  known_regs m' = Model._merge_known_regs (known_regs m) (known_regs o) ∧
  const_regs m' = Model._merge_const_regs (const_regs m) (const_regs o) ∧ m_fuel m' = Z.min (m_fuel m) (m_fuel o).
Proof.
  unfold Model.merge. intros H. repeat (apply bind_Ok_inv in H as (? & ? & H)). by injection H as <-.
Qed.

Lemma merge_const m o m' rt i : Model.merge m o = Ok m' → Model.is_const rt i m' = Model.is_const rt i m || Model.is_const rt i o.
Proof.
  intros (_ & Hc & _)%merge_fields. unfold Model.is_const. rewrite Hc. unfold Model._merge_const_regs. rewrite lookup_merge.
  destruct (const_regs m !! rt), (const_regs o !! rt); cbn; rewrite ?orb_false_r;
    rewrite <- ?bool_decide_or; try apply bool_decide_ext; set_solver.
Qed.

(** C31: two models of the same shape can be merged: the merge describes every machine that either of
    them describes, knows exactly the register values on which both agree, keeps every constant
    register of both, and has the fuel of the lower one. *)
Theorem model_merge_sound m o : model_wf m → model_wf o → same_shape m o →
  ∃ m', Model.merge m o = Ok m' ∧ model_wf m' ∧ (∀ c, describes m c ∨ describes o c → describes m' c) ∧
    (∀ rt i w, knows_reg m' rt i w ↔ knows_reg m rt i w ∧ knows_reg o rt i w) ∧
    (∀ rt i, Model.is_const rt i m' = Model.is_const rt i m || Model.is_const rt i o) ∧
    m_fuel m' = Z.min (m_fuel m) (m_fuel o).
Proof.
  intros Hm Ho Hs. destruct (model_merge_ok m o Hm Ho Hs) as (m' & E & Hw & Hd). exists m'.
  pose proof (merge_fields m o m' E) as (Hr & _ & Hf). split_and!; try done.
  - intros rt i w. unfold knows_reg. rewrite Hr. apply merge_known.
  - intros rt i. by apply merge_const.
Qed.

(** A machine at reset, and one that has written 7 to x2 and 8 bytes of data memory. *)
Definition path_a : Model :=
  mkModel 10 10 64 {[Gpr := {[0 := Some 0]}]} ∅ [] CallStack.init 0 [("dmem", mkKnownMem 64 [(0, 4)])] 16.
Definition path_b : Model :=
  mkModel 10 8 64 {[Gpr := {[0 := Some 0; 2 := Some 7]}]} {[Gpr := {[2]}]} [] CallStack.init 0 [("dmem", mkKnownMem 64 [(0, 8)])] 16.

Lemma model_merge_sound_witness :
  ∃ m', Model.merge path_a path_b = Ok m' ∧ model_wf m' ∧ (∀ c, describes path_a c ∨ describes path_b c → describes m' c) ∧
    (∀ rt i w, knows_reg m' rt i w ↔ knows_reg path_a rt i w ∧ knows_reg path_b rt i w) ∧
    (∀ rt i, Model.is_const rt i m' = Model.is_const rt i path_a || Model.is_const rt i path_b) ∧ m_fuel m' = 8.
Proof.
  apply (model_merge_sound path_a path_b).
  - split; [by split | | | apply NoDup_singleton].
    + intros kr. cbn. rewrite lookup_singleton_eq. by intros [= <-].
    + intros t k [= -> ->]%list_elem_of_singleton. split; [done | cbn; lia].
  - split; [by split | | | apply NoDup_singleton].
    + intros kr. cbn. rewrite lookup_singleton_eq. by intros [= <-].
    + intros t k [= -> ->]%list_elem_of_singleton. split; [done | cbn; lia].
  - split_and!; try done. by repeat constructor.
Defined.
