(* ===== verification/RigSim.v ===== *)
(** The abstract machine of the random instruction generator against the simulator: the values that
    it claims to know are the ones that the simulator computes. *)

From S2P Require Import Prelude PyStr PyList Yaml Operand InsnYaml OtbnIsa Trace State StateWf Insn InsnSafe StateStep InsnSpec.
From S2P Require Import Sim SimProps Decode DecodeProps KnownMem RigModel.

#[local] Open Scope string_scope.
#[local] Open Scope stdpp_scope.
#[local] Open Scope list_scope.
#[local] Open Scope Z_scope.

(** ** From an instruction of the generator to one of the simulator *)

(** The instruction that the decoder constructs from the encoded operands. *)
Definition decoded (cls : loaded_class) (pc : Z) (enc : list Z) : res insn :=
  op_vals ← YInsn.enc_vals_to_op_vals (lc_insn cls) pc (zip (o_name <$> yi_operands (lc_insn cls)) enc);
  lc_init cls (list_to_map op_vals).

(** An instruction that is not a load or store. *)
Definition prog_insn (cls : loaded_class) (enc : list Z) : ProgInsn := mkProgInsn (mkRInsn (lc_insn cls) None) enc None.

(** How the model treats an ALU instruction that the simulator reads as [i]. *)
Inductive alu_like (p : ProgInsn) (pc d : Z) : insn → Prop :=
  | like_lui imm w e sh pr :
      ri_mnemonic (pi_insn p) = "lui" → pi_operands p = [d; imm] →
      ri_types (pi_insn p) = [RegOperandType Gpr true; ImmOperandType w e sh false pr] → alu_like p pc d (LUI d imm)
  | like_addi rs imm v w e sh pr :
      ri_mnemonic (pi_insn p) = "addi" → pi_operands p = [d; rs; imm] →
      ri_types (pi_insn p) = [RegOperandType Gpr true; RegOperandType Gpr false; ImmOperandType w e sh true pr] →
      OperandType.enc_val_to_op_val (ImmOperandType w e sh true pr) imm pc = Ok (Some v) → alu_like p pc d (ADDI d rs v)
  | like_other i :
      ri_mnemonic (pi_insn p) ∉ ["lui"; "addi"; "bn.lid"; "bn.sid"; "bn.movr"] → alu_like p pc d i.

(** The parts of a class that decoding and the model look at. *)
Definition class_view (cls : loaded_class) : string * list Operand * dict Operand :=
  let y := lc_insn cls in (yi_mnemonic y, yi_operands y, yi_name_to_operand y).

Lemma class_at_init j C : INSN_CLASSES !! j = Some C → lc_init (class_at j) = Decode.class_init C.
Proof.
  intros Hj. destruct (otbn_classes !! j) as [cls |] eqn:E.
  - destruct (Decode.load_classes_init _ _ j cls otbn_classes_load E) as (C' & Hj' & Hi). unfold class_at. rewrite E. cbn. congruence.
  - apply lookup_ge_None in E. assert (length otbn_classes = length INSN_CLASSES) as Hl by (by vm_compute).
    apply lookup_lt_Some in Hj. lia.
Qed.

Ltac alu_class :=
  match goal with
  | H : decoded (class_at ?j) ?pc ?enc = Ok ?i |- _ =>
      let v := eval vm_compute in (class_view (class_at j)) in
      let y := fresh "y" in
      let E := fresh "E" in
      let Hi := fresh "Hi" in
      lazymatch v with
      | (?mn, ?ops, ?nto) =>
          assert (E : ∃ en, lc_insn (class_at j) = mkYInsn mn en ops nto) by (vm_compute; eexists; reflexivity);
          destruct E as [? E]
      end;
      let C := eval cbn in (INSN_CLASSES !! j) in
      match C with Some ?C => pose proof (class_at_init j C eq_refl) as Hi end;
      unfold decoded in H; rewrite Hi, E in H; unfold prog_insn; rewrite E in *; clear E Hi
  end.

Lemma alu_decoded j pc enc i : (j < 16)%nat → length enc = length (yi_operands (lc_insn (class_at j))) → decoded (class_at j) pc enc = Ok i →
  let p := prog_insn (class_at j) enc in
  ∃ d, Model.seen_writes p = [(Gpr, d)] ∧ (∀ g, ∃ v, alu_spec g i = Some (d, v)) ∧ alu_like p pc d i.
Proof.
  intros Hj Hl Hd; cbv zeta.
  destruct j as [| [| [| [| [| [| [| [| [| [| [| [| [| [| [| [| j]]]]]]]]]]]]]]]]; [.. | lia].
  all: alu_class; cbn in Hl; destruct enc as [| d [| a [| b [|]]]]; try done; clear Hl.
  all: apply bind_Ok_inv in Hd as (ov & Hov & Hd); unfold YInsn.enc_vals_to_op_vals, YInsn.add_op_val in Hov.
  all: lazy -[OperandType.enc_val_to_op_val] in Hov.
  all: repeat match type of Hov with context [OperandType.enc_val_to_op_val (RegOperandType ?t ?d) ?v ?pc] =>
    change (OperandType.enc_val_to_op_val (RegOperandType t d) v pc) with (Ok (Some v)) in Hov; lazy -[OperandType.enc_val_to_op_val] in Hov end.
  all: try (match type of Hov with context [OperandType.enc_val_to_op_val ?t ?v ?pc] =>
    destruct (OperandType.enc_val_to_op_val t v pc) as [[w |] |] eqn:Ew end; lazy in Hov; try done).
  all: injection Hov as <-; vm_compute in Hd; injection Hd as <-; exists d.
  all: split; [done |]; split; [intros g; eexists; done |].
  all: try (apply like_other; by apply (bool_decide_unpack _)).
  - by eapply like_addi.
  - cbn in Ew. rewrite Z.shiftl_0_r in Ew. injection Ew as <-. rewrite !Z.add_0_r. by eapply like_lui.
Qed.

(** ** The model follows the simulator *)

(** The values that the model knows (x1, the call stack, aside) are those of the simulator. *)
Definition tracks (m : Model) (g : Z → Z) : Prop :=
  ∀ kr i w, known_regs m !! Gpr = Some kr → kr !! i = Some (Some w) → 0 ≤ i → i ≠ 1 → g i = w.

Lemma is_gpr_ne d i : d ≠ i → Model.is_gpr Gpr d i = false.
Proof. intros H. unfold Model.is_gpr. by rewrite (proj2 (Z.eqb_neq _ _) H), andb_false_r. Qed.

(** The model after a write of a register. *)
Definition written (m : Model) (d : Z) (v : option Z) : Model :=
  set_known_regs (<[Gpr := <[d := v]> (default ∅ (known_regs m !! Gpr))]> (known_regs m)) m.

Lemma write_reg_eq m d v u : 2 ≤ d → Model.is_const Gpr d m = false →
  Model.write_reg Gpr d v u m = Ok (written m d v).
Proof. intros Hd Hc. unfold Model.write_reg. rewrite Hc. cbn [negb py_assert mbind res_bind]. by rewrite !is_gpr_ne by lia. Qed.

Lemma read_reg_skip rt i m : (rt, i) ≠ (Gpr, 1) → Model.read_reg rt i m = Ok m.
Proof.
  intros H. unfold Model.read_reg, Model.is_gpr. destruct (bool_decide (rt = Gpr) && (i =? 1)) eqn:E; [| done].
  apply andb_true_iff in E as [->%bool_decide_eq_true ->%Z.eqb_eq]. done.
Qed.

Lemma reads_skip m rs : (Gpr, 1) ∉ rs → foldM (fun m (r : reg_type * Z) => Model.read_reg r.1 r.2 m) m rs = Ok m.
Proof.
  induction rs as [| [rt i] rs IH]; intros H; [done |]. apply not_elem_of_cons in H as [Hne Hrs]. cbn [foldM fst snd].
  rewrite read_reg_skip by congruence. by apply IH.
Qed.

Lemma generic_eq p m d : length (ri_types (pi_insn p)) = length (pi_operands p) → pi_lsu_info p = None →
  (Gpr, 1) ∉ Model.seen_reads p → Model.seen_writes p = [(Gpr, d)] → 2 ≤ d → Model.is_const Gpr d m = false →
  Model._generic_update_for_insn p m = Ok (written m d None).
Proof.
  intros Hl Hi Hr Hw Hd Hc. unfold Model._generic_update_for_insn. rewrite bool_decide_eq_true_2 by done. cbn [py_assert mbind res_bind].
  rewrite reads_skip by done. cbn [mbind res_bind]. rewrite Hw. cbn [foldM fst snd]. rewrite write_reg_eq by done. cbn [mbind res_bind].
  by rewrite Hi.
Qed.

Lemma written_twice m d v w : written (written m d v) d w = written m d w.
Proof. unfold written. cbn. by rewrite lookup_insert_eq, insert_insert_eq; cbn; rewrite insert_insert_eq. Qed.

Lemma tracks_written m g g' d v : tracks m g → (∀ w, v = Some w → g' d = w) → (∀ j, 0 ≤ j → j ≠ 1 → j ≠ d → g' j = g j) →
  tracks (written m d v) g'.
Proof.
  intros Ht Hv Hg kr i w. unfold written. cbn. rewrite lookup_insert_eq. intros [= <-] Hi Hi0 Hi1. destruct (decide (i = d)) as [-> | Hne].
  - rewrite lookup_insert_eq in Hi. injection Hi as ->. by apply Hv.
  - rewrite lookup_insert_ne in Hi by done. rewrite Hg by done. destruct (known_regs m !! Gpr) as [kr |] eqn:E; [| done].
    by apply (Ht kr).
Qed.

Lemma written_setdefault m d v : written (Model.setdefault Gpr m) d v = written m d v.
Proof. unfold written, Model.setdefault. cbn. by rewrite lookup_insert_eq, insert_insert_eq. Qed.

(** What the model records for the destination of an ALU instruction. *)
Section alu.
Context (p : ProgInsn) (m : Model) (d : Z).
Context (Hlen : length (ri_types (pi_insn p)) = length (pi_operands p)) (Hlsu : pi_lsu_info p = None).
Context (Hreads : (Gpr, 1) ∉ Model.seen_reads p) (Hwrites : Model.seen_writes p = [(Gpr, d)]).
Context (Hd : 2 ≤ d) (Hconst : Model.is_const Gpr d m = false).

Lemma update_lui imm w e sh pr : ri_mnemonic (pi_insn p) = "lui" → pi_operands p = [d; imm] →
  ri_types (pi_insn p) = [RegOperandType Gpr true; ImmOperandType w e sh false pr] → 0 ≤ imm →
  Model.update_for_lui p m = Ok (written m d (Some (imm ≪ 12))).
Proof.
  intros Hm Ho Ht Hi. unfold Model.update_for_lui, Model.is_mnemonic. rewrite !bool_decide_eq_true_2 by done. cbn [py_assert mbind res_bind].
  rewrite Ht, Ho. rewrite (generic_eq p m d) by done. cbn [mbind res_bind]. rewrite (proj2 (Z.leb_le _ _) Hi). cbn [py_assert mbind res_bind].
  rewrite write_reg_eq by done. by rewrite written_twice.
Qed.

Lemma update_addi rs imm v w e sh pr : ri_mnemonic (pi_insn p) = "addi" → pi_operands p = [d; rs; imm] →
  ri_types (pi_insn p) = [RegOperandType Gpr true; RegOperandType Gpr false; ImmOperandType w e sh true pr] →
  OperandType.enc_val_to_op_val (ImmOperandType w e sh true pr) imm (m_pc m) = Ok (Some v) →
  rs ≠ 1 ∧
  Model.update_for_addi p m =
    Ok (written m d ((fun x => (x + v) `mod` 2 ^ 32) <$> default None (default ∅ (known_regs m !! Gpr) !! rs))).
Proof.
  intros Hm Ho Ht Hv. assert (Hrs : rs ≠ 1).
  { intros ->. apply Hreads. unfold Model.seen_reads. rewrite Ht, Ho. cbn. by apply list_elem_of_singleton. }
  split; [done |]. unfold Model.update_for_addi, Model.is_mnemonic. rewrite !bool_decide_eq_true_2 by done. cbn [py_assert mbind res_bind].
  rewrite Ht, Ho. unfold Model.get_reg. rewrite is_gpr_ne by done. cbn [mbind res_bind].
  destruct (default None (default ∅ (known_regs m !! Gpr) !! rs)) as [x |]; cbn [fmap option_fmap option_map].
  - change (m_pc (Model.setdefault Gpr m)) with (m_pc m). rewrite Hv. cbn [of_option mbind res_bind].
    rewrite (generic_eq p (Model.setdefault Gpr m) d) by done. cbn [mbind res_bind]. rewrite write_reg_eq by done.
    rewrite written_twice, written_setdefault. do 3 f_equal. by apply (land_mask (x + v) 32).
  - cbn [mbind res_bind]. rewrite (generic_eq p (Model.setdefault Gpr m) d) by done. cbn [mbind res_bind]. rewrite write_reg_eq by done.
    by rewrite written_twice, written_setdefault.
Qed.

Lemma update_alu i g : 0 < m_fuel m → alu_like p (m_pc m) d i → valid i = true → tracks m g →
  ∃ v, Model.update_for_insn p m = Ok (set_fuel (m_fuel m - 1) (written m d v)) ∧
    ∀ w x, v = Some w → alu_spec g i = Some (d, x) → x = w.
Proof.
  intros Hf Hi Hv Ht. unfold Model.update_for_insn, Model.consume_fuel.
  destruct Hi as [imm w e sh pr Hm Ho Hty | rs imm v w e sh pr Hm Ho Hty Hev | i Hm].
  - rewrite Hm. ranges.
    rewrite bool_decide_eq_true_2 by done. rewrite (update_lui imm w e sh pr) by (done || lia). cbn [mbind res_bind].
    change (m_fuel (written _ _ _)) with (m_fuel m). rewrite (proj2 (Z.ltb_lt _ _) Hf). eexists. split; [done |].
    intros w' x [= <-]. cbn. intros [= <-]. rewrite Z.shiftl_mul_pow2 by lia. done.
  - rewrite Hm. ranges.
    destruct (update_addi rs imm v w e sh pr Hm Ho Hty Hev) as [Hrs ->].
    rewrite bool_decide_eq_false_2, bool_decide_eq_true_2 by done. cbn [mbind res_bind].
    change (m_fuel (written _ _ _)) with (m_fuel m). rewrite (proj2 (Z.ltb_lt _ _) Hf). eexists. split; [done |].
    intros w' x Hw. cbn. intros [= <-]. destruct (known_regs m !! Gpr) as [kr |] eqn:Ek; [| done]. cbn in Hw.
    destruct (kr !! rs) as [[y |] |] eqn:Ey; try done. injection Hw as <-. rewrite (Ht kr rs y) by (done || lia). done.
  - rewrite !bool_decide_eq_false_2 by (intros E; apply Hm; rewrite E; set_solver). rewrite (generic_eq p m d) by done. cbn [mbind res_bind].
    change (m_fuel (written _ _ _)) with (m_fuel m). rewrite (proj2 (Z.ltb_lt _ _) Hf). by eexists.
Qed.
End alu.

(** C7: when a running simulator between two cycles, its program valid and the program counter inside
    it, retires one of the sixteen ALU instructions in a step without statistics, and the instruction
    reads no x1 and has a destination from x2 on that the model does not hold constant, then a model
    with fuel left whose known register values are those of the simulator follows the instruction
    without an exception, its known values are those of the simulator again, and it has used one unit
    of fuel. *)
Theorem model_follows_sim sim sim' l model j enc i :
  ready (sim_state sim) → can_step sim → OTBNSim.step false sim = Ok ((Some i, l), sim') → s_running (sim_state sim') = true →
  let p := prog_insn (class_at j) enc in
  (j < 16)%nat → length enc = length (yi_operands (lc_insn (class_at j))) → decoded (class_at j) (m_pc model) enc = Ok i →
  (Gpr, 1) ∉ Model.seen_reads p → (∀ rt d, (rt, d) ∈ Model.seen_writes p → 2 ≤ d ∧ Model.is_const rt d model = false) →
  0 < m_fuel model → tracks model (gpr (sim_state sim)) →
  ∃ model', Model.update_for_insn p model = Ok model' ∧ tracks model' (gpr (sim_state sim')) ∧ m_fuel model' = m_fuel model - 1.
Proof.
  intros Hr Hc E Hrun p Hj Hl Hdec Hreads Hws Hf Ht.
  destruct (alu_decoded j (m_pc model) enc i Hj Hl Hdec) as (d & Hw & Hspec & Hlike). fold p in Hw, Hlike.
  destruct (Hws Gpr d) as [Hd Hconst]; [rewrite Hw; by left |].
  destruct (retired sim i l sim' Hr Hc E Hrun) as (_ & _ & _ & Hv & _).
  assert (Hlen : length (ri_types (pi_insn p)) = length (pi_operands p)).
  { unfold p, ri_types. cbn [prog_insn pi_insn pi_operands ri_insn]. by rewrite length_fmap. }
  destruct (update_alu p model d Hlen eq_refl Hreads Hw Hd Hconst i (gpr (sim_state sim)) Hf Hlike Hv Ht) as (v & -> & Hval).
  destruct (Hspec (gpr (sim_state sim))) as [x Hx]. pose proof (alu_effect sim i l sim' d x Hr Hc E Hrun Hx Hd) as Heff.
  eexists. split; [done |]. split; [| done]. apply (tracks_written model (gpr (sim_state sim))); [done | |].
  - intros w ->. rewrite Heff by done. rewrite decide_True by done. by apply Hval.
  - intros k Hk0 Hk1 Hkd. destruct (decide (k = 0)) as [-> | Hk]; [done |]. rewrite Heff by lia. by rewrite decide_False.
Qed.

(** The model of a fresh machine with the reset address 0. *)
Definition fresh : Model :=
  match Model.init 4096 0 10 with Ok m => m | Err _ => mkModel 0 0 0 ∅ ∅ [] CallStack.init 0 [] 0 end.

Lemma fresh_regs : known_regs fresh = {[Gpr := {[0 := Some 0]}]}.
Proof. by vm_compute. Qed.

(** [addi x2, x0, -3]: afterwards the model knows x2. *)
Lemma model_follows_sim_witness :
  let sim' := after (OTBNSim.step false) (otbn_running [ADDI 2 0 (-3)]) in
  ∃ model', Model.update_for_insn (prog_insn (class_at 1) [2; 0; 0xffd]) fresh = Ok model' ∧
    tracks model' (gpr (sim_state sim')) ∧ m_fuel model' = m_fuel fresh - 1.
Proof.
  destruct (otbn_running_ok [ADDI 2 0 (-3)]) as (s & E & Hr & _ & _ & Hc).
  - cbn. lia.
  - apply (bool_decide_unpack _). by vm_compute.
  - apply (model_follows_sim (otbn_running [ADDI 2 0 (-3)]) _ [TraceRegister "x02" 32 4294967293] fresh 1 [2; 0; 0xffd] (ADDI 2 0 (-3))).
    + rewrite E. exact Hr.
    + exact Hc.
    + vm_compute. reflexivity.
    + vm_compute. reflexivity.
    + lia.
    + vm_compute. reflexivity.
    + vm_compute. reflexivity.
    + apply (bool_decide_unpack _). vm_compute. reflexivity.
    + assert (H : Model.seen_writes (prog_insn (class_at 1) [2; 0; 0xffd]) = [(Gpr, 2)]) by (by vm_compute).
      rewrite H. intros rt d [= -> ->]%list_elem_of_singleton. split; [lia | by vm_compute].
    + vm_compute. reflexivity.
    + intros kr i w. rewrite fresh_regs, lookup_singleton_eq. intros [= <-] [<- [= <-]]%lookup_singleton_Some. done.
Defined.

Example fresh_knows_x2 :
  match Model.update_for_insn (prog_insn (class_at 1) [2; 0; 0xffd]) fresh with
  | Ok m => (fun kr : regfile => kr !! 2) <$> known_regs m !! Gpr = Some (Some (Some (2 ^ 32 - 3)))
  | Err _ => False
  end.
Proof. by vm_compute. Qed.
