(* ===== verification/OtpCommon.v ===== *)
(** Functions shared by the OTP tools (util/design/lib/common.py), and Python's [random] as the tools
    use it: the answers depend on the seed and on the number of calls since it was set. *)

From Stdlib Require Import Ascii String.
From S2P Require Import Prelude PyStr PyList Yaml.

#[local] Open Scope string_scope.
#[local] Open Scope stdpp_scope.
#[local] Open Scope list_scope.
#[local] Open Scope Z_scope.

(** ** Values of parsed hjson *)

(** [d.setdefault(k, v); d[k]] on an object that must be a dictionary. *)
Definition as_dict (y : yaml) : res (list (yaml * yaml)) :=
  match y with YDict d => Ok d | _ => Err AttributeError end.
Definition setdefault (k : string) (v : yaml) (d : list (yaml * yaml)) : yaml := default v (yget k d).

(** [for x in y] and [len(y)] *)
Definition py_iter (y : yaml) : res (list yaml) :=
  match y with
  | YList l => Ok l
  | YDict d => Ok d.*1
  | YStr s => Ok ((fun c => YStr (String c EmptyString)) <$> list_ascii_of_string s)
  | _ => Err TypeError
  end.

Definition isdecimal (s : string) : bool :=
  match s with EmptyString => false | _ => forallb is_digit (list_ascii_of_string s) end.

Module Common.

Definition check_bool (x : yaml) : res bool :=
  match x with
  | YBool b => Ok b
  | YStr s =>
      if negb (bool_decide (lower s ∈ ["true"; "false"])) then Err RuntimeError
      else Ok (bool_decide (lower s = "true"))
  | _ => Err AttributeError
  end.

Definition check_int (x : yaml) : res Z :=
  match x with
  | YInt z => Ok z
  | YBool b => Ok (Z_of_bool b)
  | YStr s => if negb (isdecimal s) then Err RuntimeError else int_dec s
  | _ => Err AttributeError
  end.

(** ** Bit strings

    A string of '0' and '1' is a list of booleans, the leftmost character first. *)

(** [int(w, 2)] *)
Definition int2 (w : list bool) : Z := foldl (fun acc b => 2 * acc + Z_of_bool b) 0 w.
Definition int_base2 (w : list bool) : res Z := match w with [] => Err ValueError | _ => Ok (int2 w) end.

(** [format(n, '0' + str(width) + 'b')] for [n] that is not negative *)
Definition format_bin (width n : Z) : list bool :=
  let len := Z.max width (Z.max 1 (bit_length n)) in
  (fun i => Z.testbit n (len - 1 - i)) <$> seqZ 0 len.

(** [w.count('1')] *)
Definition count1 (w : list bool) : Z := Z.of_nat (length (filter (fun b => b = true) w)).

Definition get_hd (word1 word2 : list bool) : res Z :=
  if bool_decide (length word1 ≠ length word2) then Err RuntimeError
  else
    n1 ← int_base2 word1;
    n2 ← int_base2 word2;
    Ok (count1 (format_bin 0 (n1 .^ n2))).

(** *** Error correction *)

Record secded := mkSecded { data_width : Z; ecc_width : Z; ecc_matrix : list (list Z) }.

(** [bit ^= int(codeword[pos(k)])] for the positions in [fanin] *)
Definition xor_fanin (codeword : list bool) (pos : Z → Z) (bit : bool) (fanin : list Z) : res bool :=
  foldM (fun bit k => b ← py_nth codeword (pos k); Ok (xorb bit b)) bit fanin.

Definition syndrome_bit (c : secded) (codeword : list bool) (j : nat) (fanin : list Z) : res bool :=
  if ecc_width c <=? Z.of_nat j then Err IndexError
  else
    bit ← py_nth codeword (ecc_width c - 1 - Z.of_nat j);
    xor_fanin codeword (fun k => ecc_width c + data_width c - 1 - k) bit fanin.

Definition is_valid_codeword (c : secded) (codeword : list bool) : res bool :=
  if negb (Z.of_nat (length codeword) =? data_width c + ecc_width c) then Err RuntimeError
  else
    syndrome ← mapR (fun jf => syndrome_bit c codeword jf.1 jf.2) (imap pair (ecc_matrix c));
    Ok (forallb negb syndrome).

Definition ecc_step (c : secded) (codeword : list bool) (jf : nat * list Z) : res (list bool) :=
  bit ← xor_fanin codeword (fun k => data_width c + Z.of_nat jf.1 - 1 - k) false jf.2;
  Ok (bit :: codeword).

Definition ecc_encode (c : secded) (dataword : list bool) : res (list bool) :=
  if negb (Z.of_nat (length dataword) =? data_width c) then Err RuntimeError
  else foldM (ecc_step c) dataword (imap pair (ecc_matrix c)).

Fixpoint scatter_bits (mask bits : list bool) : res (list bool) :=
  match mask with
  | [] => Ok []
  | true :: mask => w ← scatter_bits mask bits; Ok (true :: w)
  | false :: mask =>
      match bits with
      | [] => Err IndexError
      | b :: bits => w ← scatter_bits mask bits; Ok (b :: w)
      end
  end.

(** *** Statistics; the bars for the log are left out *)

Record hd_stats := mkStats { st_hist : list Z; st_min_hd : Z; st_max_hd : Z; st_min_hw : Z; st_max_hw : Z }.

Definition add_distance (j : list bool) (st : hd_stats) (k : list bool) : res hd_stats :=
  dist ← get_hd j k;
  n ← py_nth (st_hist st) dist;
  Ok (mkStats (<[Z.to_nat dist := n + 1]> (st_hist st)) (Z.min dist (st_min_hd st)) (Z.max dist (st_max_hd st)) (st_min_hw st) (st_max_hw st)).

Fixpoint histogram_loop (words : list (list bool)) (st : hd_stats) : res hd_stats :=
  match words with
  | [] => Ok st
  | j :: words =>
      let st := mkStats (st_hist st) (st_min_hd st) (st_max_hd st) (Z.min (count1 j) (st_min_hw st)) (Z.max (count1 j) (st_max_hw st)) in
      st ← foldM (add_distance j) st words;
      histogram_loop words st
  end.

Definition hd_histogram (existing_words : list (list bool)) : res hd_stats :=
  match existing_words with
  | [] => Err IndexError
  | w :: _ =>
      let n := Z.of_nat (length w) in
      histogram_loop existing_words (mkStats (replicate (S (length w)) 0) n 0 n 0)
  end.

End Common.

(** ** Random numbers *)

(** The state of the generator: the seed and the calls since. *)
Record rng := mkRng { rng_seed : Z; rng_pos : nat }.

(** The answers: some bits, or the index of an element of a list of some length. *)
Record Random := mkRandom { rnd_bits : rng → Z → Z; rnd_index : rng → nat → nat }.

Record random_ok (rnd : Random) : Prop := {
  rnd_bits_ok g w : 0 ≤ w → 0 ≤ rnd_bits rnd g w < 2 ^ w;
  rnd_index_ok g n : (0 < n)%nat → (rnd_index rnd g n < n)%nat;
}.

Definition next_rng (g : rng) : rng := mkRng (rng_seed g) (S (rng_pos g)).

Section random.
Context (rnd : Random).

Definition seed (s : Z) : M rng () := modify (fun _ => mkRng s 0).
Definition getrandbits (w : Z) : M rng Z :=
  fun g => if w <? 0 then Err ValueError else Ok (rnd_bits rnd g w, next_rng g).
Definition choice {A} (l : list A) : M rng A :=
  fun g => a ← of_option IndexError (l !! rnd_index rnd g (length l)); Ok (a, next_rng g).

(** [y >= 2**num_bits]; for a negative exponent the power is a fraction. *)
Definition out_of_range (v num_bits : Z) : bool := if num_bits <? 0 then 1 <=? v else 2 ^ num_bits <=? v.

(** The value that is stored at [key]. *)
Definition random_or_hexvalue (d : list (yaml * yaml)) (key : string) (num_bits : Z) : M rng Z :=
  match setdefault key (YStr "0x0") d with
  | YStr s =>
      if bool_decide (s = "<random>") then getrandbits num_bits
      else lift (match int_hex s with
                 | Ok v => if out_of_range v num_bits then Err RuntimeError else Ok v
                 | Err _ => Err RuntimeError
                 end)
  | _ => raise TypeError
  end.
End random.

(** [for x in l: acc = f(acc, x)] and [[f(x) for x in l]] with random numbers. *)
Fixpoint foldS {S A B} (f : B → A → M S B) (acc : B) (l : list A) : M S B :=
  match l with
  | [] => mret acc
  | x :: l => acc' ← f acc x; foldS f acc' l
  end.
Fixpoint mapS {S A B} (f : A → M S B) (l : list A) : M S (list B) :=
  match l with
  | [] => mret []
  | x :: l => y ← f x; ys ← mapS f l; mret (y :: ys)
  end.
