(* ===== verification/LcStEnc.v ===== *)
(** The encoding of life cycle states (util/design/lib/LcStEnc.py): pairs of code words such that the
    second one only sets bits of the first, from which the states are put together. *)

From Stdlib Require Import Ascii.
From stdpp Require Import pretty.
From S2P Require Import Prelude PyStr PyList Yaml OtpCommon.

#[local] Open Scope string_scope.
#[local] Open Scope stdpp_scope.
#[local] Open Scope list_scope.
#[local] Open Scope Z_scope.

Import Common.

Definition LC_SEED_DIVERSIFIER : Z := 1939944205722120255.

Definition LC_STATE_TYPES : dict (list string) :=
  [("lc_state", ["0"; "A{}"; "B{}"]); ("lc_cnt", ["0"; "C{}"; "D{}"]); ("lc_id_state", ["0"; "E{}"; "F{}"])].

(** [fmt.format(j)] *)
Fixpoint format_idx (fmt : string) (j : nat) : string :=
  match fmt with
  | String "{"%char (String "}"%char rest) => String.append (pretty j) rest
  | String c rest => String c (format_idx rest j)
  | EmptyString => EmptyString
  end.

(** The code and the constraints on its words. *)
Record lc_config := mkLcConfig { lc_secded : secded; min_hw : Z; max_hw : Z; min_hd : Z }.

(** ** Words *)

Definition _is_incremental_codeword (word1 word2 : list bool) : res bool :=
  if bool_decide (length word1 ≠ length word2) then Err RuntimeError
  else
    n1 ← int_base2 word1;
    n2 ← int_base2 word2;
    Ok ((n1 .& n2) =? n1).

(** The loop over [words] with its [break]: no word is too close. *)
Fixpoint all_far (config : lc_config) (w : list bool) (words : list (list bool)) : res bool :=
  match words with
  | [] => Ok true
  | w' :: words =>
      hd ← get_hd w w';
      if hd <? min_hd config then Ok false else all_far config w words
  end.

Definition incr_candidate (config : lc_config) (base_ecc : list bool) (existing_words : list (list bool)) (base_data : list bool)
    (free_bits : Z) (incr_cands : list (list bool)) (k : Z) : res (list (list bool)) :=
  incr_cand ← scatter_bits base_data (format_bin free_bits k);
  incr_cand_ecc ← ecc_encode (lc_secded config) incr_cand;
  incremental ← _is_incremental_codeword base_ecc incr_cand_ecc;
  if (incremental : bool) then
    if count1 incr_cand_ecc <=? max_hw config then
      far ← all_far config incr_cand_ecc (existing_words ++ [base_ecc]);
      Ok (if (far : bool) then incr_cands ++ [incr_cand_ecc] else incr_cands)
    else Ok incr_cands
  else Ok incr_cands.

Definition _get_incremental_codewords (config : lc_config) (base_ecc : list bool) (existing_words : list (list bool)) :
    res (list (list bool)) :=
  let base_data := drop (Z.to_nat (ecc_width (lc_secded config))) base_ecc in
  let free_bits := Z.of_nat (length (filter (fun b => b = false) base_data)) in
  foldM (incr_candidate config base_ecc existing_words base_data free_bits) [] (seqZ 1 (2 ^ free_bits - 1)).

Section words.
Context (rnd : Random).

(** One round of the loop; [None] starts over. *)
Definition try_word_pair (config : lc_config) (existing_words : list (list bool)) : M rng (option (list bool * list bool)) :=
  let width := data_width (lc_secded config) in
  base ← getrandbits rnd width;
  base_cand_ecc ← lift (ecc_encode (lc_secded config) (format_bin width base));
  let pop_cnt := count1 base_cand_ecc in
  if (min_hw config <=? pop_cnt) && (pop_cnt <=? max_hw config) then
    far ← lift (all_far config base_cand_ecc existing_words);
    if (far : bool) then
      incr_cands_ecc ← lift (_get_incremental_codewords config base_cand_ecc existing_words);
      match incr_cands_ecc with
      | [] => mret None
      | _ => incr_cand_ecc ← choice rnd incr_cands_ecc; mret (Some (base_cand_ecc, incr_cand_ecc))
      end
    else mret None
  else mret None.

(** The pair, and [existing_words] with the pair at its end. *)
Fixpoint _get_new_state_word_pair (fuel : nat) (config : lc_config) (existing_words : list (list bool)) :
    M rng (list bool * list bool * list (list bool)) :=
  match fuel with
  | O => raise OutOfFuel
  | S fuel =>
      pair ← try_word_pair config existing_words;
      match pair with
      | Some (base, incr) => mret (base, incr, existing_words ++ [base; incr])
      | None => _get_new_state_word_pair fuel config existing_words
      end
  end.

Fixpoint _validate_words (config : lc_config) (words : list (list bool)) : res () :=
  match words with
  | [] => Ok ()
  | w :: words =>
      valid ← is_valid_codeword (lc_secded config) w;
      if negb valid then Err RuntimeError
      else if (count1 w <? min_hw config) || (max_hw config <? count1 w) then Err RuntimeError
      else
        far ← all_far config w words;
        if negb far then Err RuntimeError else _validate_words config words
  end.

(** *** All the words *)

Definition new_pair (fuel : nat) (config : lc_config) (st : list (list bool * list bool) * list (list bool)) (k : Z) :
    M rng (list (list bool * list bool) * list (list bool)) :=
  let '(genwords, existing_words) := st in
  '(base, incr, existing_words) ← _get_new_state_word_pair fuel config existing_words;
  mret (genwords ++ [(base, incr)], existing_words).

Definition gen_type (fuel : nat) (config : lc_config) (num_words : dict Z)
    (st : dict (list (list bool * list bool)) * list (list bool)) (typ : string) :
    M rng (dict (list (list bool * list bool)) * list (list bool)) :=
  let '(genwords, existing_words) := st in
  num ← lift (of_option KeyError (dget typ num_words));
  '(pairs, existing_words) ← foldS (new_pair fuel config) ([], existing_words) (seqZ 0 num);
  mret (dset typ pairs genwords, existing_words).

Definition _generate_words (fuel : nat) (config : lc_config) (num_words : dict Z) :
    M rng (dict (list (list bool * list bool)) * hd_stats) :=
  '(genwords, existing_words) ← foldS (gen_type fuel config num_words) ([], []) LC_STATE_TYPES.*1;
  lift (_validate_words config existing_words);;
  stats ← lift (hd_histogram existing_words);
  mret (genwords, stats).
End words.

(** ** Validation of the configuration *)

(** A row of the matrix; rows that are not lists are refused. *)
Definition read_row (total_width : Z) (row : yaml) : res (list Z) :=
  match row with
  | YList l =>
      mapR (fun e => e ← check_int e; if (e <? 0) || (total_width <=? e) then Err RuntimeError else Ok e) l
  | _ => Err TypeError
  end.

Definition _validate_secded (config : list (yaml * yaml)) : res secded :=
  y ← of_option KeyError (yget "secded" config);
  d ← as_dict y;
  data_width ← check_int (setdefault "data_width" (YInt 0) d);
  ecc_width ← check_int (setdefault "ecc_width" (YInt 0) d);
  let total_width := data_width + ecc_width in
  if negb (data_width mod 8 =? 0) then Err RuntimeError
  else
    match setdefault "ecc_matrix" (YList [YList []]) d with
    | YList rows =>
        if negb (ecc_width =? Z.of_nat (length rows)) then Err RuntimeError
        else
          ecc_matrix ← mapR (read_row total_width) rows;
          Ok (mkSecded data_width ecc_width ecc_matrix)
    | _ => Err TypeError
    end.

Definition _validate_constraints (config : list (yaml * yaml)) (sd : secded) : res lc_config :=
  min_hw ← check_int (setdefault "min_hw" (YInt 0) config);
  max_hw ← check_int (setdefault "max_hw" (YInt 0) config);
  min_hd ← check_int (setdefault "min_hd" (YInt 0) config);
  let total_width := data_width sd + ecc_width sd in
  if (total_width <=? min_hw) || (total_width <? max_hw) || (max_hw <=? min_hw) then Err RuntimeError
  else if max_hw - min_hw + 1 <? min_hd then Err RuntimeError
  else Ok (mkLcConfig sd min_hw max_hw min_hd).

Section tokens.
Context (rnd : Random).
(** [cSHAKE128] with the custom string of the life cycle controller: the bytes of the token, as a
    number, and the number of bytes to the first bytes of the output. *)
Context (cshake128 : Z → Z → Z).

Definition read_token (token_size : Z) (token : yaml) : M rng (string * Z * Z) :=
  let num_bytes := token_size / 8 in
  d ← lift (as_dict token);
  value ← random_or_hexvalue rnd d "value" token_size;
  name ← lift (of_option KeyError (yget "name" d));
  match name with
  | YStr name =>
      if num_bytes <? 0 then raise ValueError
      else if value <? 0 then raise OverflowError
      else mret (name, value, cshake128 value num_bytes)
  | _ => raise TypeError
  end.

(** The names and values of the tokens, followed by those of the hashed tokens.  The message about
    a size that is not a whole number of bytes names a token, before there is one. *)
Definition _validate_tokens (config : list (yaml * yaml)) : M rng (Z * list (string * Z)) :=
  token_size ← lift (check_int (setdefault "token_size" (YInt 128) config));
  if negb (token_size mod 8 =? 0) then raise NameError
  else
    y ← lift (of_option KeyError (yget "tokens" config));
    l ← lift (py_iter y);
    tokens ← mapS (read_token token_size) l;
    match y with
    | YList _ =>
        mret (token_size, ((fun t => (t.1.1, t.1.2)) <$> tokens) ++ ((fun t => (String.append t.1.1 "Hashed", t.2)) <$> tokens))
    | _ => raise TypeError
    end.
End tokens.

Definition legal_values (fmts : list string) (j : nat) : list yaml := (fun fmt => YStr (format_idx fmt j)) <$> fmts.

Definition yaml_in (y : yaml) (l : list yaml) : bool :=
  match y with
  | YStr s => existsb (fun y' => match y' with YStr s' => bool_decide (s = s') | _ => false end) l
  | _ => false
  end.

Definition check_state (fmts : list string) (num : Z) (entries : list yaml) : res () :=
  if negb (num =? Z.of_nat (length entries)) then Err RuntimeError
  else if forallb (fun je : nat * yaml => yaml_in je.2 (legal_values fmts je.1)) (imap pair entries) then Ok () else Err RuntimeError.

Definition read_state (fmts : list string) (num : Z) (kv : yaml * yaml) : res (string * list yaml) :=
  match kv.1 with
  | YStr k => entries ← py_iter kv.2; check_state fmts num entries;; Ok (k, entries)
  | _ => Err TypeError
  end.

(** The states of one type, with their entries, and the number of words.  A number of words that
    the configuration itself gives for a type without states is not followed. *)
Definition check_type (config : list (yaml * yaml)) (tf : string * list string) :
    res (string * dict (list yaml) * option Z) :=
  let '(typ, fmts) := tf in
  y ← of_option KeyError (yget typ config);
  d ← as_dict y;
  match d with
  | [] => Ok (typ, [], None)
  | (_, first) :: _ =>
      entries ← py_iter first;
      let num := Z.of_nat (length entries) in
      states ← mapR (read_state fmts num) d;
      Ok (typ, states, Some num)
  end.

Definition _validate_state_declarations (config : list (yaml * yaml)) : res (list (string * dict (list yaml) * option Z)) :=
  mapR (check_type config) LC_STATE_TYPES.

(** ** The class *)

Record LcStEnc := mkLcStEnc {
  le_seed : Z;
  le_config : lc_config;
  le_token_size : Z;
  le_tokens : list (string * Z);
  le_states : dict (dict (list yaml));
  le_genwords : dict (list (list bool * list bool));
  le_stats : hd_stats;
}.

Module LcStEnc.

Definition states_of (decls : list (string * dict (list yaml) * option Z)) : dict (dict (list yaml)) :=
  (fun d => (d.1.1, d.1.2)) <$> decls.
Definition num_words_of (decls : list (string * dict (list yaml) * option Z)) : dict Z :=
  omap (fun d => (fun n => (d.1.1, n)) <$> d.2) decls.

Definition required : list string := ["seed"; "secded"; "tokens"] ++ LC_STATE_TYPES.*1.

Definition init (rnd : Random) (cshake128 : Z → Z → Z) (fuel : nat) (y : yaml) : M rng LcStEnc :=
  config ← lift (as_dict y);
  if negb (forallb (fun k => match yget k config with Some _ => true | None => false end) required) then raise RuntimeError
  else
    s ← lift (of_option KeyError (yget "seed" config));
    s ← lift (check_int s);
    seed (LC_SEED_DIVERSIFIER + s);;
    sd ← lift (_validate_secded config);
    cfg ← lift (_validate_constraints config sd);
    '(token_size, tokens) ← _validate_tokens rnd cshake128 config;
    decls ← lift (_validate_state_declarations config);
    '(genwords, stats) ← _generate_words rnd fuel cfg (num_words_of decls);
    mret (mkLcStEnc s cfg token_size tokens (states_of decls) genwords stats).

(** The number of the format that an entry has. *)
Fixpoint entry_idx (fmts : list string) (j : nat) (entry : yaml) : option nat :=
  match fmts with
  | [] => None
  | fmt :: fmts => if yaml_in entry [YStr (format_idx fmt j)] then Some O else S <$> entry_idx fmts j entry
  end.

(** The data portion of a word. *)
Definition state_word (l : LcStEnc) (name : string) (fmts : list string) (je : nat * yaml) : res Z :=
  idx ← of_option KeyError (entry_idx fmts je.1 je.2);
  match idx with
  | O => Ok 0
  | S idx =>
      pairs ← of_option KeyError (dget name (le_genwords l));
      pair ← py_nth pairs (Z.of_nat je.1);
      word ← of_option IndexError ([pair.1; pair.2] !! idx);
      int_base2 (drop (Z.to_nat (ecc_width (lc_secded (le_config l)))) word)
  end.

Definition encode (l : LcStEnc) (name state : string) : res Z :=
  fmts ← of_option RuntimeError (dget name LC_STATE_TYPES);
  states ← of_option KeyError (dget name (le_states l));
  entries ← of_option RuntimeError (dget state states);
  words ← mapR (state_word l name fmts) (imap pair entries);
  Ok (foldl (fun outval kw => outval + (kw.2 ≪ (data_width (lc_secded (le_config l)) * Z.of_nat kw.1))) 0 (imap pair words)).
End LcStEnc.
