(* ===== verification/LcStEncFacts.v ===== *)
(** Bit strings of the OTP tools: numbers and bit strings, distances, and the error correcting code. *)

From stdpp Require Import sorting.
From S2P Require Import Prelude BitLoops PyList Yaml OtpCommon.
From S2P Require Import LcStEnc.
From S2P Require Import BitLoops.

Import Common.

(** ** Numbers and bit strings *)

(** The character at distance [k] from the right end. *)
Definition rbit (w : list bool) (k : Z) : bool := default false (reverse w !! Z.to_nat k).

Lemma rbit_snoc w b k : 0 ≤ k → rbit (w ++ [b]) k = if k =? 0 then b else rbit w (k - 1).
Proof.
  intros Hk. unfold rbit. rewrite reverse_snoc. destruct (k =? 0) eqn:E.
  - by apply Z.eqb_eq in E as ->.
  - apply Z.eqb_neq in E. replace (Z.to_nat k) with (S (Z.to_nat (k - 1))) by lia. done.
Qed.

Lemma rbit_app e w k : 0 ≤ k < Z.of_nat (length w) → rbit (e ++ w) k = rbit w k.
Proof. intros Hk. unfold rbit. rewrite reverse_app, lookup_app_l; [done |]. rewrite length_reverse. lia. Qed.

Lemma rbit_cons_top b w : rbit (b :: w) (Z.of_nat (length w)) = b.
Proof. unfold rbit. rewrite reverse_cons, Nat2Z.id, <- (length_reverse w), lookup_app_r, Nat.sub_diag by done. done. Qed.

Lemma rbit_lookup w i : (i < length w)%nat → w !! i = Some (rbit w (Z.of_nat (length w) - 1 - Z.of_nat i)).
Proof.
  intros Hi. unfold rbit. replace (Z.to_nat _) with (length w - S i)%nat by lia.
  rewrite reverse_lookup by lia. replace (length w - S (length w - S i))%nat with i by lia.
  destruct (lookup_lt_is_Some_2 w i Hi) as [b ->]. done.
Qed.

Lemma py_nth_rbit w i k : i = Z.of_nat (length w) - 1 - k → 0 ≤ k < Z.of_nat (length w) → py_nth w i = Ok (rbit w k).
Proof.
  intros -> Hk. apply py_nth_pos; [lia |]. rewrite rbit_lookup by lia. do 2 f_equal. lia.
Qed.

Lemma int2_snoc w b : int2 (w ++ [b]) = 2 * int2 w + Z_of_bool b.
Proof. unfold int2. by rewrite foldl_app. Qed.

Lemma int2_testbit w k : 0 ≤ k → Z.testbit (int2 w) k = rbit w k.
Proof.
  revert k. induction w as [| b w IH] using rev_ind; intros k Hk.
  { unfold int2, rbit. cbn. by rewrite Z.bits_0. }
  rewrite int2_snoc, rbit_snoc by done. destruct (k =? 0) eqn:E.
  - apply Z.eqb_eq in E as ->. destruct b; [apply Z.testbit_odd_0 | rewrite Z.add_0_r; apply Z.testbit_even_0].
  - apply Z.eqb_neq in E. rewrite <- IH by lia. replace k with (Z.succ (k - 1)) at 1 by lia.
    destruct b; [apply Z.testbit_odd_succ | rewrite Z.add_0_r; apply Z.testbit_even_succ]; lia.
Qed.

Lemma rbit_outside w k : Z.of_nat (length w) ≤ k → rbit w k = false.
Proof. intros Hk. unfold rbit. rewrite lookup_ge_None_2; [done |]. rewrite length_reverse. lia. Qed.

Lemma int2_nonneg w : 0 ≤ int2 w.
Proof. induction w as [| b w IH] using rev_ind; [done |]. rewrite int2_snoc. destruct b; cbn; lia. Qed.

Lemma int2_in_bits w : in_bits (Z.of_nat (length w)) (int2 w).
Proof.
  induction w as [| b w IH] using rev_ind; [done |]. rewrite int2_snoc, length_app, Nat2Z.inj_add. unfold in_bits in *.
  cbn [length]. rewrite Z.pow_add_r by lia. change (2 ^ Z.of_nat 1) with 2. destruct b; cbn; lia.
Qed.

Lemma rbit_ext w w' : length w = length w' → (∀ k, 0 ≤ k < Z.of_nat (length w) → rbit w k = rbit w' k) → w = w'.
Proof.
  intros Hl H. apply list_eq_same_length with (length w); [done | done |]. intros i x y Hi Hx Hy.
  rewrite rbit_lookup in Hx, Hy by lia. rewrite <- Hl, <- H in Hy by lia. congruence.
Qed.

Lemma int2_inj w w' : length w = length w' → int2 w = int2 w' → w = w'.
Proof. intros Hl E. apply rbit_ext; [done |]. intros k Hk. by rewrite <- !int2_testbit, E by lia. Qed.

Lemma rbit_zip f w w' k : length w = length w' → 0 ≤ k < Z.of_nat (length w) → rbit (zip_with f w w') k = f (rbit w k) (rbit w' k).
Proof.
  intros Hl Hk. assert (Hlz : length (zip_with f w w') = length w) by (rewrite length_zip_with; lia).
  pose proof (rbit_lookup w (length w - 1 - Z.to_nat k) ltac:(lia)) as H1.
  pose proof (rbit_lookup w' (length w - 1 - Z.to_nat k) ltac:(lia)) as H2.
  pose proof (rbit_lookup (zip_with f w w') (length w - 1 - Z.to_nat k) ltac:(lia)) as H3.
  rewrite lookup_zip_with, H1, H2 in H3. cbn in H3. injection H3 as H3.
  rewrite Hlz, <- Hl in H3. replace (Z.of_nat (length w) - 1 - Z.of_nat (length w - 1 - Z.to_nat k)) with k in H3 by lia. done.
Qed.

Lemma int2_zip (op : Z → Z → Z) f w w' : (∀ a b k, Z.testbit (op a b) k = f (Z.testbit a k) (Z.testbit b k)) → f false false = false →
  (∀ a b, 0 ≤ a → 0 ≤ b → 0 ≤ op a b) → length w = length w' → op (int2 w) (int2 w') = int2 (zip_with f w w').
Proof.
  intros Hop Hf Hnn Hl. apply Z_bits_eq. intros k Hk. rewrite Hop, !int2_testbit by done.
  destruct (decide (k < Z.of_nat (length w))); [by rewrite rbit_zip by lia |].
  rewrite !rbit_outside; [done | rewrite length_zip_with; lia | lia | lia].
Qed.

(** *** Writing numbers *)

Lemma bit_length_spec n w : 0 ≤ w → in_bits w n → bit_length n ≤ w.
Proof.
  intros Hw [H0 Hlt]. unfold bit_length. destruct (n =? 0) eqn:E; [done |]. apply Z.eqb_neq in E.
  rewrite Z.abs_eq by done. apply Z.log2_lt_pow2 in Hlt; lia.
Qed.

Lemma length_format_bin w n : 1 ≤ w → in_bits w n → Z.of_nat (length (format_bin w n)) = w.
Proof.
  intros Hw Hn. unfold format_bin. rewrite length_fmap, length_seqZ. pose proof (bit_length_spec n w ltac:(lia) Hn). lia.
Qed.

Lemma rbit_format len n k : 0 ≤ k < len → rbit ((fun i => Z.testbit n (len - 1 - i)) <$> seqZ 0 len) k = Z.testbit n k.
Proof.
  intros Hk. set (w := _ <$> _). assert (Hl : Z.of_nat (length w) = len) by (unfold w; rewrite length_fmap, length_seqZ; lia).
  pose proof (rbit_lookup w (length w - 1 - Z.to_nat k) ltac:(lia)) as H.
  replace (Z.of_nat (length w) - 1 - Z.of_nat (length w - 1 - Z.to_nat k)) with k in H by lia.
  assert (H' : w !! (length w - 1 - Z.to_nat k)%nat = Some (Z.testbit n k)).
  { unfold w at 2. rewrite list_lookup_fmap, lookup_seqZ_lt by lia. cbn. do 2 f_equal. lia. }
  congruence.
Qed.

Lemma rbit_format_bin w n k : 0 ≤ k → 0 ≤ n → rbit (format_bin w n) k = Z.testbit n k.
Proof.
  intros Hk Hn. unfold format_bin. set (len := Z.max w _). destruct (decide (k < len)) as [H | H]; [by rewrite rbit_format by lia |].
  rewrite rbit_outside by (rewrite length_fmap, length_seqZ; lia). symmetry. unfold len, bit_length in H.
  destruct (n =? 0) eqn:E; [apply Z.eqb_eq in E as ->; apply Z.bits_0 |]. rewrite Z.abs_eq in H by done. apply Z.bits_above_log2; lia.
Qed.

Lemma int2_format_bin w n : 0 ≤ n → int2 (format_bin w n) = n.
Proof. intros Hn. apply Z_bits_eq. intros k Hk. by rewrite int2_testbit, rbit_format_bin. Qed.

(** ** Weight and distance *)

Lemma count1_cons b w : count1 (b :: w) = Z_of_bool b + count1 w.
Proof. unfold count1. rewrite filter_cons. destruct b; cbn; [rewrite decide_True by done | rewrite decide_False by done]; cbn [length]; lia. Qed.
Lemma count1_app w w' : count1 (w ++ w') = count1 w + count1 w'.
Proof. unfold count1. rewrite filter_app, length_app. lia. Qed.
Lemma count1_bounds w : 0 ≤ count1 w ≤ Z.of_nat (length w).
Proof. induction w as [| b w IH]; [done |]. rewrite count1_cons. cbn [length]. destruct b; cbn; lia. Qed.

Lemma int2_false w : int2 (false :: w) = int2 w.
Proof. done. Qed.

Lemma bit_length_top w : bit_length (int2 (true :: w)) = Z.of_nat (S (length w)).
Proof.
  assert (Hb : Z.testbit (int2 (true :: w)) (Z.of_nat (length w)) = true) by (rewrite int2_testbit by lia; apply rbit_cons_top).
  pose proof (int2_in_bits (true :: w)) as [H0 Hlt]. cbn [length] in Hlt.
  assert (Hpos : 0 < int2 (true :: w)).
  { destruct (decide (int2 (true :: w) = 0)) as [E | E]; [rewrite E, Z.bits_0 in Hb; done | lia]. }
  unfold bit_length. rewrite (proj2 (Z.eqb_neq _ 0)) by lia. rewrite Z.abs_eq by lia.
  assert (Z.log2 (int2 (true :: w)) < Z.of_nat (S (length w))) by (by apply Z.log2_lt_pow2).
  destruct (decide (Z.log2 (int2 (true :: w)) < Z.of_nat (length w))) as [H' |]; [| lia].
  rewrite Z.bits_above_log2 in Hb by lia. done.
Qed.

(** Leading zeros do not count. *)
Lemma count1_int2 w : count1 (format_bin 0 (int2 w)) = count1 w.
Proof.
  induction w as [| b w IH]; [done |]. destruct b; [| by rewrite int2_false, IH, count1_cons].
  f_equal. apply rbit_ext.
  - unfold format_bin. rewrite length_fmap, length_seqZ, bit_length_top. cbn [length]. lia.
  - intros k [Hk _]. by rewrite rbit_format_bin, int2_testbit by (done || apply int2_nonneg).
Qed.

Definition hd (w w' : list bool) : Z := count1 (zip_with xorb w w').

Lemma int_base2_eq w : w ≠ [] → int_base2 w = Ok (int2 w).
Proof. by destruct w. Qed.

Lemma get_hd_eq w w' : length w = length w' → w ≠ [] → get_hd w w' = Ok (hd w w').
Proof.
  intros Hl Hw. unfold get_hd. rewrite bool_decide_eq_false_2 by (by intros []). rewrite !int_base2_eq by (by destruct w, w').
  cbn [mbind res_bind]. f_equal. rewrite (int2_zip Z.lxor xorb) by (done || apply Z.lxor_spec || (intros; by apply Z.lxor_nonneg)).
  apply count1_int2.
Qed.

Lemma hd_zero w w' : length w = length w' → hd w w' = 0 → w = w'.
Proof.
  revert w'. induction w as [| b w IH]; intros w' Hl H; [by destruct w' |]. destruct w' as [| b' w']; [done |]. unfold hd in *.
  cbn [zip_with] in H. rewrite count1_cons in H. pose proof (count1_bounds (zip_with xorb w w')). destruct b, b'; cbn in H, Hl; try lia; f_equal; apply IH; lia.
Qed.

(** *** Words that only set bits *)

Definition extends (w w' : list bool) : Prop := Forall2 (fun b b' => b = true → b' = true) w w'.

#[global] Instance extends_dec w w' : Decision (extends w w') := ltac:(unfold extends; apply _).

Lemma extends_and w w' : length w = length w' → zip_with andb w w' = w ↔ extends w w'.
Proof.
  unfold extends. revert w'. induction w as [| b w IH]; intros w' Hl; [destruct w'; [| done]; split; [constructor | done] |].
  destruct w' as [| b' w']; [done |]. cbn [zip_with]. rewrite Forall2_cons, <- IH by (cbn in Hl; lia). split.
  - intros [= Hb Hw]. split; [| done]. by destruct b, b'.
  - intros [Hb Hw]. rewrite Hw. f_equal. destruct b, b'; try done. by specialize (Hb eq_refl).
Qed.

Lemma extends_count w w' : extends w w' → count1 w ≤ count1 w'.
Proof. induction 1 as [| b b' w w' Hb H IH]; [done |]. rewrite !count1_cons. destruct b, b'; cbn in *; lia || by specialize (Hb eq_refl). Qed.

Lemma extends_drop n w w' : extends w w' → extends (drop n w) (drop n w').
Proof. apply Forall2_drop. Qed.

Lemma extends_land w w' : extends w w' → int2 w .& int2 w' = int2 w.
Proof.
  intros H. pose proof (Forall2_length _ _ _ H) as Hl.
  rewrite (int2_zip Z.land andb) by (done || apply Z.land_spec || (intros; apply Z.land_nonneg; by left)).
  by rewrite (proj2 (extends_and w w' Hl) H).
Qed.

(** ** The error correcting code *)

(** Every parity bit is computed from data bits and earlier parity bits. *)
Record causal (c : secded) : Prop := {
  ca_data : 0 < data_width c;
  ca_rows : Z.of_nat (length (ecc_matrix c)) = ecc_width c;
  ca_fanin j row k : ecc_matrix c !! j = Some row → k ∈ row → 0 ≤ k < data_width c + Z.of_nat j;
}.

(** The exclusive or of the bits of [w] at some positions from the right. *)
Definition parity (w : list bool) (b : bool) (fanin : list Z) : bool := foldl (fun b k => xorb b (rbit w k)) b fanin.

Lemma xor_fanin_ok w pos b fanin : (∀ k, k ∈ fanin → pos k = Z.of_nat (length w) - 1 - k ∧ 0 ≤ k < Z.of_nat (length w)) →
  xor_fanin w pos b fanin = Ok (parity w b fanin).
Proof.
  unfold xor_fanin, parity. revert b. induction fanin as [| k fanin IH]; intros b H; [done |]. cbn [foldM foldl].
  destruct (H k ltac:(by left)) as [Hp Hk]. rewrite (py_nth_rbit w (pos k) k Hp Hk). cbn [mbind res_bind]. apply IH.
  intros k' ?. apply H. by right.
Qed.

Lemma parity_ext w w' b fanin : (∀ k, k ∈ fanin → rbit w k = rbit w' k) → parity w b fanin = parity w' b fanin.
Proof.
  unfold parity. revert b. induction fanin as [| k fanin IH]; intros b H; [done |]. cbn [foldl]. rewrite (H k) by (by left).
  apply IH. intros; apply H; by right.
Qed.

Lemma parity_start w b fanin : parity w b fanin = xorb b (parity w false fanin).
Proof.
  unfold parity. revert b. induction fanin as [| k fanin IH]; intros b; cbn [foldl]; [by rewrite xorb_false_r |].
  rewrite IH, (IH (xorb false _)). by rewrite xorb_false_l, xorb_assoc.
Qed.

(** The parity bit of a row, in a word that has the bits it depends on. *)
Definition checks (w : list bool) (top : Z) (row : list Z) : Prop := rbit w top = parity w false row.

Lemma ecc_step_eq c w n row : Z.of_nat (length w) = data_width c + Z.of_nat n → (∀ k, k ∈ row → 0 ≤ k < Z.of_nat (length w)) →
  ecc_step c w (n, row) = Ok (parity w false row :: w).
Proof.
  intros Hl Hrow. unfold ecc_step. cbn [fst snd]. rewrite (xor_fanin_ok w _ false row); [done |].
  intros k Hk. specialize (Hrow k Hk). lia.
Qed.

Lemma ecc_steps c rows n w : Z.of_nat (length w) = data_width c + Z.of_nat n →
  (∀ j row k, rows !! j = Some row → k ∈ row → 0 ≤ k < data_width c + Z.of_nat (n + j)) →
  ∃ e, foldM (ecc_step c) w (imap (fun j row => ((n + j)%nat, row)) rows) = Ok (e ++ w) ∧ length e = length rows ∧
    ∀ j row, rows !! j = Some row → checks (e ++ w) (data_width c + Z.of_nat (n + j)) row.
Proof.
  revert n w. induction rows as [| row rows IH]; intros n w Hl Hr; [by exists [] |].
  cbn [imap foldM]. rewrite Nat.add_0_r.
  assert (Hrow : ∀ k, k ∈ row → 0 ≤ k < Z.of_nat (length w)).
  { intros k Hk. specialize (Hr O row k eq_refl Hk). lia. }
  rewrite ecc_step_eq by done. cbn [mbind res_bind]. set (b := parity w false row).
  destruct (IH (S n) (b :: w)) as (e & E & Hle & He); [cbn [length]; lia | |].
  { intros j row' k Hj Hk. specialize (Hr (S j) row' k Hj Hk). lia. }
  exists (e ++ [b]). rewrite <- app_assoc. cbn [app]. split.
  { rewrite <- E. f_equal. apply imap_ext. intros j row' _. cbn. do 2 f_equal. lia. }
  split; [rewrite length_app; cbn; lia |]. intros [| j] row' Hj.
  - injection Hj as <-. unfold checks. rewrite Nat.add_0_r, <- Hl, rbit_app, rbit_cons_top by (cbn [length]; lia).
    unfold b. apply parity_ext. intros k Hk. specialize (Hrow k Hk).
    rewrite rbit_app by (cbn [length]; lia). symmetry. by apply (rbit_app [b]).
  - specialize (He j row' Hj). by replace (n + S j)%nat with (S n + j)%nat by lia.
Qed.

Section code.
Context (c : secded) (Hc : causal c).

Lemma ecc_encode_ok w : Z.of_nat (length w) = data_width c →
  ∃ e, ecc_encode c w = Ok (e ++ w) ∧ Z.of_nat (length e) = ecc_width c ∧
    ∀ j row, ecc_matrix c !! j = Some row → checks (e ++ w) (data_width c + Z.of_nat j) row.
Proof.
  intros Hl. unfold ecc_encode. rewrite (proj2 (Z.eqb_eq _ _) Hl). cbn [negb].
  destruct (ecc_steps c (ecc_matrix c) 0 w) as (e & E & Hle & He); [lia | |].
  { intros j row k. apply (ca_fanin c Hc). }
  exists e. split; [exact E |]. split; [pose proof (ca_rows c Hc); lia | exact He].
Qed.

Lemma valid_checks w : Z.of_nat (length w) = data_width c + ecc_width c →
  (∀ j row, ecc_matrix c !! j = Some row → checks w (data_width c + Z.of_nat j) row) → is_valid_codeword c w = Ok true.
Proof.
  intros Hl Hch. unfold is_valid_codeword. rewrite (proj2 (Z.eqb_eq _ _) Hl). cbn [negb].
  assert (Hs : ∀ l, (∀ j row, (j, row) ∈ l → ecc_matrix c !! j = Some row) →
    mapR (fun jf => syndrome_bit c w jf.1 jf.2) l = Ok (replicate (length l) false)).
  { induction l as [| [j row] l IH]; intros Hl'; [done |]. cbn [mapR fst snd].
    pose proof (Hl' j row ltac:(by left)) as Hj. pose proof (lookup_lt_Some _ _ _ Hj) as Hlt. pose proof (ca_rows c Hc) as Hr.
    assert (Hsb : syndrome_bit c w j row = Ok false).
    { unfold syndrome_bit. rewrite (proj2 (Z.leb_gt _ _)) by lia. pose proof (ca_data c Hc).
      rewrite (py_nth_rbit w _ (data_width c + Z.of_nat j)) by lia. cbn [mbind res_bind]. rewrite xor_fanin_ok.
      - f_equal. rewrite parity_start, (Hch j row Hj). apply xorb_nilpotent.
      - intros k Hk. pose proof (ca_fanin c Hc j row k Hj Hk). lia. }
    rewrite Hsb. cbn [mbind res_bind]. by rewrite IH by (intros; apply Hl'; by right). }
  rewrite Hs. 2: { intros j row (i & ? & [= -> ->] & Hi)%elem_of_lookup_imap. done. }
  cbn [mbind res_bind]. f_equal. apply forallb_forall. intros b Hb%list_elem_of_In%elem_of_replicate_inv. by subst b.
Qed.

(** The data bits determine the code word. *)
Lemma codeword_ext w w' : Z.of_nat (length w) = data_width c + ecc_width c → length w' = length w →
  (∀ j row, ecc_matrix c !! j = Some row → checks w (data_width c + Z.of_nat j) row) →
  (∀ j row, ecc_matrix c !! j = Some row → checks w' (data_width c + Z.of_nat j) row) →
  (∀ k, 0 ≤ k < data_width c → rbit w k = rbit w' k) → w = w'.
Proof.
  intros Hl Hl' Hch Hch' Hd. pose proof (ca_rows c Hc) as Hr. apply rbit_ext; [done |]. intros k [Hk Hlt]. revert k Hk Hlt.
  refine (Zlt_0_ind _ _). intros k IH Hk Hlt. destruct (decide (k < data_width c)) as [H | H]; [by apply Hd |].
  destruct (lookup_lt_is_Some_2 (ecc_matrix c) (Z.to_nat (k - data_width c))) as [row Hrow]; [lia |].
  pose proof (Hch _ _ Hrow) as Hb. pose proof (Hch' _ _ Hrow) as Hb'. unfold checks in Hb, Hb'.
  replace (data_width c + Z.of_nat (Z.to_nat (k - data_width c))) with k in Hb, Hb' by lia.
  rewrite Hb, Hb'. apply parity_ext. intros k' Hk'. pose proof (ca_fanin c Hc _ _ _ Hrow Hk'). apply IH; lia.
Qed.

(** The zero word is a code word. *)
Lemma rbit_zero n k : rbit (replicate n false) k = false.
Proof.
  unfold rbit. destruct (reverse (replicate n false) !! Z.to_nat k) as [b |] eqn:E; [| done].
  apply list_elem_of_lookup_2, elem_of_reverse, elem_of_replicate_inv in E. by subst b.
Qed.

Lemma zero_checks n j row : ecc_matrix c !! j = Some row → checks (replicate n false) (data_width c + Z.of_nat j) row.
Proof.
  intros _. unfold checks. rewrite rbit_zero. symmetry. unfold parity. induction row as [| k row IH]; [done |]. cbn [foldl].
  by rewrite rbit_zero.
Qed.
End code.

(** ** Scattering *)

Lemma scatter_ok mask bits : length (filter (fun b => b = false) mask) = length bits →
  ∃ w, scatter_bits mask bits = Ok w ∧ length w = length mask.
Proof.
  revert bits. induction mask as [| [] mask IH]; intros bits Hl; [by exists [] | |].
  - rewrite filter_cons_False in Hl by done. destruct (IH bits Hl) as (w & E & Hw). exists (true :: w). cbn. rewrite E. cbn. by rewrite Hw.
  - rewrite filter_cons_True in Hl by done. destruct bits as [| b bits]; [done |]. destruct (IH bits) as (w & E & Hw); [cbn in Hl; lia |].
    exists (b :: w). cbn. rewrite E. cbn. by rewrite Hw.
Qed.

Import Common.

(** ** Computations that may run out of fuel *)

Definition runs {S A} (m : M S A) (Q : A → Prop) : Prop :=
  ∀ g, m g = Err OutOfFuel ∨ ∃ a g', m g = Ok (a, g') ∧ Q a.

Lemma runs_ret {S A} (a : A) (Q : A → Prop) : Q a → runs (mret a : M S A) Q.
Proof. intros H g. right. by exists a, g. Qed.
Lemma runs_bind {S A B} (m : M S A) (k : A → M S B) Q R : runs m Q → (∀ a, Q a → runs (k a) R) → runs (m ≫= k) R.
Proof.
  intros Hm Hk g. unfold mbind, M_bind. destruct (Hm g) as [-> | (a & g' & -> & Ha)]; [by left |]. by apply Hk.
Qed.
Lemma runs_lift {S A} (r : res A) (Q : A → Prop) a : r = Ok a → Q a → runs (lift r : M S A) Q.
Proof. intros -> H g. right. by exists a, g. Qed.
Lemma runs_weaken {S A} (m : M S A) (Q R : A → Prop) : runs m Q → (∀ a, Q a → R a) → runs m R.
Proof. intros Hm H g. destruct (Hm g) as [? | (a & g' & ? & ?)]; [by left | right; exists a, g'; auto]. Qed.

(** A loop: [I] holds of the accumulator after the elements seen so far. *)
Lemma runs_foldS {S A B} (f : B → A → M S B) (I : list A → B → Prop) l0 l acc :
  (∀ l1 x acc, I l1 acc → runs (f acc x) (I (l1 ++ [x]))) → I l0 acc → runs (foldS f acc l) (I (l0 ++ l)).
Proof.
  intros Hf. revert l0 acc. induction l as [| x l IH]; intros l0 acc Hacc; cbn [foldS].
  - rewrite app_nil_r. by apply runs_ret.
  - eapply runs_bind; [by apply Hf |]. intros acc' Hacc'. specialize (IH _ _ Hacc'). by rewrite <- app_assoc in IH.
Qed.

(** ** Words *)

Section words.
Context (cfg : lc_config) (Hc : causal (lc_secded cfg)).
Notation sd := (lc_secded cfg).

Definition total : Z := data_width sd + ecc_width sd.

(** A code word with all its parity bits right. *)
Definition codeword (w : list bool) : Prop :=
  Z.of_nat (length w) = total ∧ ∀ j row, ecc_matrix sd !! j = Some row → checks w (data_width sd + Z.of_nat j) row.

Definition word_ok (w : list bool) : Prop := codeword w ∧ min_hw cfg ≤ count1 w ≤ max_hw cfg.

Definition far (w w' : list bool) : Prop := min_hd cfg ≤ hd w w'.
#[global] Instance far_dec w w' : Decision (far w w') := ltac:(unfold far; apply _).

Lemma total_pos : 0 < data_width sd ∧ 0 ≤ ecc_width sd ∧ data_width sd ≤ total.
Proof. pose proof (ca_data _ Hc). pose proof (ca_rows _ Hc). unfold total. lia. Qed.

Lemma codeword_nonempty w : codeword w → w ≠ [].
Proof. intros [Hl _] ->. pose proof total_pos. cbn in Hl. lia. Qed.

Lemma all_far_ok w words : codeword w → Forall codeword words →
  all_far cfg w words = Ok (bool_decide (Forall (far w) words)).
Proof.
  intros Hw. induction 1 as [| w' words Hw' Hws IH]; [by rewrite bool_decide_eq_true_2 by constructor |]. cbn [all_far].
  rewrite get_hd_eq by (by apply codeword_nonempty || (destruct Hw, Hw'; lia)). cbn [mbind res_bind].
  destruct (Z.ltb_spec (hd w w') (min_hd cfg)).
  - rewrite bool_decide_eq_false_2; [done |]. intros [Hf _]%Forall_cons. unfold far in Hf. lia.
  - rewrite IH. f_equal. apply bool_decide_ext. rewrite Forall_cons. unfold far at 2. naive_solver.
Qed.

Lemma encode_codeword w : Z.of_nat (length w) = data_width sd →
  ∃ e, ecc_encode sd w = Ok (e ++ w) ∧ Z.of_nat (length e) = ecc_width sd ∧ codeword (e ++ w).
Proof.
  intros Hl. destruct (ecc_encode_ok sd Hc w Hl) as (e & E & He & Hch). exists e. split; [done |]. split; [done |].
  split; [| done]. rewrite length_app. unfold total. lia.
Qed.

Lemma incremental_ok w w' : codeword w → codeword w' → _is_incremental_codeword w w' = Ok (bool_decide (extends w w')).
Proof.
  intros Hw Hw'. assert (Hl : length w = length w') by (destruct Hw, Hw'; lia). unfold _is_incremental_codeword.
  rewrite bool_decide_eq_false_2 by (by intros []). rewrite !int_base2_eq by (by apply codeword_nonempty). cbn [mbind res_bind]. f_equal.
  rewrite (int2_zip Z.land andb) by (done || apply Z.land_spec || (intros; apply Z.land_nonneg; by left)).
  rewrite (bool_decide_ext _ _ (symmetry (extends_and w w' Hl))). apply eq_true_iff_eq. rewrite Z.eqb_eq, bool_decide_eq_true.
  split; [| by intros ->]. intros E. apply int2_inj; [rewrite length_zip_with; lia | done].
Qed.

(** The candidates for the second word of a pair. *)
Definition candidate (base : list bool) (existing : list (list bool)) (w : list bool) : Prop :=
  codeword w ∧ extends base w ∧ count1 w ≤ max_hw cfg ∧ Forall (far w) (existing ++ [base]).

Lemma candidates_ok base existing : codeword base → Forall codeword existing →
  ∃ l, _get_incremental_codewords cfg base existing = Ok l ∧ Forall (candidate base existing) l.
Proof.
  intros Hb Hex. unfold _get_incremental_codewords. set (data := drop _ base). set (free := Z.of_nat _). cbv zeta.
  assert (Hdl : Z.of_nat (length data) = data_width sd).
  { unfold data. rewrite length_drop. destruct Hb as [Hl _]. pose proof total_pos. unfold total in *. lia. }
  assert (Hfold : ∀ l acc, (∀ k, k ∈ l → 1 ≤ k < 2 ^ free) → Forall (candidate base existing) acc →
    ∃ l', foldM (incr_candidate cfg base existing data free) acc l = Ok l' ∧ Forall (candidate base existing) l').
  { induction l as [| k l IH]; intros acc Hl Hacc; [by exists acc |]. cbn [foldM].
    destruct (Hl k ltac:(by left)) as [Hk1 Hk2].
    assert (1 ≤ free). { destruct (decide (free = 0)) as [E |]; [rewrite E in Hk2; cbn in Hk2; lia | lia]. }
    destruct (scatter_ok data (format_bin free k)) as (w & Ew & Hlw).
    { apply Nat2Z.inj. rewrite length_format_bin by (done || split; lia). done. }
    destruct (encode_codeword w) as (e & Ee & _ & Hcw); [lia |].
    assert (Hstep : ∃ acc', incr_candidate cfg base existing data free acc k = Ok acc' ∧ Forall (candidate base existing) acc').
    { unfold incr_candidate. rewrite Ew. cbn [mbind res_bind]. rewrite Ee. cbn [mbind res_bind]. rewrite incremental_ok by done.
      cbn [mbind res_bind]. case_bool_decide as Hext; [| by exists acc]. destruct (Z.leb_spec (count1 (e ++ w)) (max_hw cfg)); [| by exists acc].
      rewrite all_far_ok by (done || (apply Forall_app; split; [done | by constructor])). cbn [mbind res_bind].
      case_bool_decide as Hfar; eexists; (split; [done |]); [| done]. apply Forall_app. split; [done |].
      constructor; [by split_and! | constructor]. }
    destruct Hstep as (acc' & -> & Hacc'). cbn [mbind res_bind]. apply IH; [| done]. intros k' ?. apply Hl. by right. }
  apply Hfold; [| constructor]. intros k Hk%elem_of_seqZ. lia.
Qed.

(** Words that are all code words within the limits and far from each other. *)
Definition words_ok (words : list (list bool)) : Prop := Forall word_ok words ∧ StronglySorted far words.

Lemma hd_sym w w' : hd w w' = hd w' w.
Proof. unfold hd. f_equal. revert w'. induction w as [| b w IH]; intros [| b' w']; cbn; try done. by rewrite IH, xorb_comm. Qed.

Lemma StronglySorted_app_iff {A} (R : A → A → Prop) l l' :
  StronglySorted R (l ++ l') ↔ StronglySorted R l ∧ StronglySorted R l' ∧ ∀ x y, x ∈ l → y ∈ l' → R x y.
Proof.
  induction l as [| x l IH]; cbn.
  - split; [intros H; split_and!; [constructor | done | by intros x y ?%elem_of_nil] | naive_solver].
  - split.
    + intros H. inversion H as [| ? ? Hs Hf]; subst. apply IH in Hs as (? & ? & Hxy). apply Forall_app in Hf as [? Hf]. split_and!; try done.
      * by constructor.
      * intros a b [-> | ?]%elem_of_cons ?; [by apply (proj1 (Forall_forall _ _) Hf) | by apply Hxy].
    + intros (Hs & ? & Hxy). inversion Hs; subst. constructor.
      * apply IH. split_and!; try done. intros a b ? ?. apply Hxy; [by right | done].
      * apply Forall_app. split; [done |]. apply Forall_forall. intros b ?. apply Hxy; [by left | done].
Qed.

Lemma words_ok_pair existing base incr : words_ok existing → word_ok base → Forall (far base) existing →
  candidate base existing incr → words_ok (existing ++ [base; incr]) ∧ extends base incr.
Proof.
  intros [Hw Hs] Hb Hbf (Hi & Hext & Hmax & Hif). apply Forall_app in Hif as [Hif [Hib _]%Forall_cons]. split; [| done]. split.
  - apply Forall_app. split; [done |]. constructor; [done |]. constructor; [| done]. split; [done |].
    pose proof (extends_count _ _ Hext). destruct Hb. lia.
  - apply StronglySorted_app_iff. split; [done |]. split.
    + apply SSorted_cons; [apply SSorted_cons; constructor |]. constructor; [| constructor]. unfold far in *. by rewrite hd_sym.
    + intros x y Hx [-> | ->%list_elem_of_singleton]%elem_of_cons; unfold far; rewrite hd_sym;
        [by apply (proj1 (Forall_forall _ _) Hbf) | by apply (proj1 (Forall_forall _ _) Hif)].
Qed.

(** *** Drawing a pair *)

Section draw.
Context (rnd : Random) (Hrnd : random_ok rnd).

Lemma words_codewords words : words_ok words → Forall codeword words.
Proof. intros [H _]. eapply Forall_impl; [done |]. by intros w [? _]. Qed.

Lemma runs_getrandbits w (Q : Z → Prop) : 0 ≤ w → (∀ n, in_bits w n → Q n) → runs (getrandbits rnd w) Q.
Proof.
  intros Hw HQ g. right. unfold getrandbits. rewrite (proj2 (Z.ltb_ge _ _) Hw). eexists _, _. split; [done |]. apply HQ. by apply rnd_bits_ok.
Qed.

Lemma runs_choice {A} (l : list A) (Q : A → Prop) : l ≠ [] → Forall Q l → runs (choice rnd l) Q.
Proof.
  intros Hl HQ g. right. unfold choice. assert (Hlt : (rnd_index rnd g (length l) < length l)%nat).
  { apply rnd_index_ok; [done |]. destruct l; [done | cbn; lia]. }
  destruct (lookup_lt_is_Some_2 l _ Hlt) as [a Ha]. rewrite Ha. cbn. eexists _, _. split; [done |].
  eapply Forall_lookup_1; done.
Qed.

Lemma try_ok existing : words_ok existing →
  runs (try_word_pair rnd cfg existing) (fun r => match r with
    | None => True
    | Some (base, incr) => words_ok (existing ++ [base; incr]) ∧ extends base incr
    end).
Proof.
  intros Hex. pose proof total_pos as (Hd & _). pose proof (words_codewords _ Hex) as Hcw. unfold try_word_pair.
  eapply runs_bind; [apply (runs_getrandbits _ (fun n => in_bits (data_width sd) n)); [lia | done] |]. intros n Hn. cbn beta.
  destruct (encode_codeword (format_bin (data_width sd) n)) as (e & E & _ & Hcb); [apply length_format_bin; [lia | done] |].
  eapply runs_bind; [by apply (runs_lift _ (fun w => w = e ++ format_bin (data_width sd) n) _ E) |]. intros base ->. set (base := e ++ _) in *.
  destruct (_ && _) eqn:Ehw; [| by apply runs_ret]. apply andb_true_iff in Ehw as [Hlo%Z.leb_le Hhi%Z.leb_le].
  eapply runs_bind; [by apply (runs_lift _ (fun b => b = bool_decide (Forall (far base) existing)) _ (all_far_ok base existing Hcb Hcw)) |].
  intros b ->. case_bool_decide as Hfar; [| by apply runs_ret].
  destruct (candidates_ok base existing Hcb Hcw) as (l & El & Hl).
  eapply runs_bind; [by apply (runs_lift _ (fun l' => l' = l) _ El) |]. intros ? ->.
  destruct l as [| w l]; [by apply runs_ret |].
  eapply runs_bind; [apply (runs_choice (w :: l) (candidate base existing)); done |]. intros incr Hi. apply runs_ret. by apply words_ok_pair.
Qed.

Lemma new_pair_ok fuel existing : words_ok existing →
  runs (_get_new_state_word_pair rnd fuel cfg existing) (fun r => let '(base, incr, existing') := r in
    existing' = existing ++ [base; incr] ∧ words_ok existing' ∧ extends base incr).
Proof.
  intros Hex. induction fuel as [| fuel IH]; cbn [_get_new_state_word_pair]; [by left |].
  eapply runs_bind; [by apply try_ok |]. intros [[base incr] |] H; [| done]. by apply runs_ret.
Qed.

(** *** All words *)

Lemma validate_words_ok words : words_ok words → _validate_words cfg words = Ok ().
Proof.
  intros [Hw Hs]. induction Hw as [| w words [Hcw Hhw] Hws IH]; [done |]. cbn [_validate_words].
  inversion Hs as [| ? ? Hs' Hf]; subst. pose proof Hcw as [Hl Hch].
  rewrite (valid_checks sd Hc w) by done. cbn [mbind res_bind negb].
  rewrite (proj2 (Z.ltb_ge _ _)), (proj2 (Z.ltb_ge (max_hw cfg) _)) by lia. cbn [orb].
  rewrite all_far_ok by (done || (apply (Forall_impl word_ok); [done | by intros ? [? _]])). cbn [mbind res_bind].
  rewrite bool_decide_eq_true_2 by done. cbn [negb]. by apply IH.
Qed.

Lemma histogram_ok words st : Forall codeword words → Z.of_nat (length (st_hist st)) = total + 1 → ∃ st', histogram_loop words st = Ok st'.
Proof.
  intros Hw. revert st. induction Hw as [| w words Hcw Hws IH]; intros st Hst; [by exists st |]. cbn [histogram_loop].
  assert (Hadd : ∀ l st, Forall codeword l → Z.of_nat (length (st_hist st)) = total + 1 →
    ∃ st', foldM (add_distance w) st l = Ok st' ∧ Z.of_nat (length (st_hist st')) = total + 1).
  { intros l. induction l as [| w' l IHl]; intros st0 Hl Hst0; [by exists st0 |]. apply Forall_cons in Hl as [Hw' Hl]. cbn [foldM].
    assert (Hle : length w = length w') by (destruct Hcw, Hw'; lia).
    assert (Hd : 0 ≤ hd w w' ≤ total).
    { unfold hd. pose proof (count1_bounds (zip_with xorb w w')) as Hb. rewrite length_zip_with in Hb. destruct Hcw. lia. }
    destruct (lookup_lt_is_Some_2 (st_hist st0) (Z.to_nat (hd w w'))) as [n Hn]; [lia |].
    assert (Hstep : ∃ st1, add_distance w st0 w' = Ok st1 ∧ length (st_hist st1) = length (st_hist st0)).
    { unfold add_distance. rewrite get_hd_eq by (done || by apply codeword_nonempty). cbn [mbind res_bind].
      rewrite (py_nth_pos _ _ n) by (done || lia). cbn [mbind res_bind]. eexists. split; [done |]. apply length_insert. }
    destruct Hstep as (st1 & -> & Hst1). cbn [mbind res_bind]. apply IHl; [done | lia]. }
  destruct (Hadd words (mkStats (st_hist st) (st_min_hd st) (st_max_hd st) (Z.min (count1 w) (st_min_hw st)) (Z.max (count1 w) (st_max_hw st))) Hws Hst)
    as (st1 & -> & Hst1). cbn [mbind res_bind]. by apply IH.
Qed.

(** The words that were generated, in order. *)
Definition flat (pairs : list (list bool * list bool)) : list (list bool) := pairs ≫= (fun p => [p.1; p.2]).

Lemma flat_app p q : flat (p ++ q) = flat p ++ flat q.
Proof. apply bind_app. Qed.

Lemma type_ok fuel n existing : 0 ≤ n → words_ok existing →
  runs (foldS (new_pair rnd fuel cfg) ([], existing) (seqZ 0 n)) (fun r =>
    Z.of_nat (length r.1) = n ∧ r.2 = existing ++ flat r.1 ∧ words_ok r.2 ∧ Forall (fun p => extends p.1 p.2) r.1).
Proof.
  intros Hn Hex. eapply runs_weaken.
  - apply (runs_foldS _ (fun l r => length r.1 = length l ∧ r.2 = existing ++ flat r.1 ∧ words_ok r.2 ∧ Forall (fun p => extends p.1 p.2) r.1) []);
      [| split_and!; [done | by rewrite app_nil_r | done | constructor]].
    intros l k [pairs ex] (Hl & Hf & Hw & Hp). cbn in Hl, Hf, Hw, Hp. unfold new_pair. eapply runs_bind; [by apply new_pair_ok |].
    intros [[base incr] ex'] (-> & Hw' & Hext). apply runs_ret. cbn. split_and!; [rewrite !length_app; cbn; lia | | done |].
    + by rewrite Hf, flat_app, <- app_assoc.
    + apply Forall_app. split; [done |]. by repeat constructor.
  - cbn. intros [pairs ex] (Hl & Hrest). cbn in *. rewrite length_seqZ in Hl. split; [lia | done].
Qed.

(** Each type has its number of pairs, and all words together are as they should be. *)
Record generated (nums : dict Z) (gen : dict (list (list bool * list bool))) : Prop := {
  ge_nums typ pairs : (typ, pairs) ∈ gen → dget typ nums = Some (Z.of_nat (length pairs));
  ge_words : words_ok (gen ≫= (fun tp => flat tp.2));
  ge_pairs typ pairs : (typ, pairs) ∈ gen → Forall (fun p => extends p.1 p.2) pairs;
}.

Lemma gen_types_ok fuel nums types gen : NoDup (gen.*1 ++ types) → (∀ typ, typ ∈ types → ∃ n, dget typ nums = Some n ∧ 0 ≤ n) →
  generated nums gen →
  runs (foldS (gen_type rnd fuel cfg nums) (gen, gen ≫= (fun tp => flat tp.2)) types) (fun r =>
    r.1.*1 = gen.*1 ++ types ∧ r.2 = (r.1 ≫= (fun tp => flat tp.2)) ∧ generated nums r.1).
Proof.
  revert gen. induction types as [| typ types IH]; intros gen Hnd Hnum Hgen; cbn [foldS]; [apply runs_ret; by rewrite app_nil_r |].
  destruct (Hnum typ ltac:(by left)) as (n & Hn & Hn0).
  apply (runs_bind _ _ (fun r => ∃ pairs, r = (gen ++ [(typ, pairs)], (gen ++ [(typ, pairs)]) ≫= (fun tp => flat tp.2)) ∧
    generated nums (gen ++ [(typ, pairs)]))).
  - unfold gen_type. eapply runs_bind; [apply (runs_lift _ (fun m => m = n) n); [by rewrite Hn | done] |]. intros ? ->.
    eapply runs_bind; [apply type_ok; [done | apply Hgen] |]. intros [pairs ex'] (Hl & Hex & Hw & Hp). cbn in Hl, Hex, Hw, Hp. apply runs_ret.
    assert (Hfresh : typ ∉ gen.*1) by (apply NoDup_app in Hnd as (_ & Hnd & _); intros ?; by apply (Hnd typ); [| left]).
    assert (Hflat : (gen ++ [(typ, pairs)]) ≫= (fun tp => flat tp.2) = ex') by (rewrite bind_app; cbn; by rewrite app_nil_r, Hex).
    exists pairs. rewrite dset_fresh by done. split; [by rewrite Hflat |]. destruct Hgen as [G1 G2 G3]. split.
    + intros t q [? | [= -> ->]%list_elem_of_singleton]%elem_of_app; [by apply G1 |]. rewrite Hn. f_equal. lia.
    + by rewrite Hflat.
    + intros t q [? | [= -> ->]%list_elem_of_singleton]%elem_of_app; [by apply (G3 t) | done].
  - intros ? (pairs & -> & Hg). eapply runs_weaken; [apply IH; [| intros; apply Hnum; by right | done] |].
    + rewrite fmap_app. cbn. by rewrite <- app_assoc.
    + intros r. rewrite fmap_app. cbn. by rewrite <- app_assoc.
Qed.

Lemma generate_ok fuel nums : (∀ typ, typ ∈ LC_STATE_TYPES.*1 → ∃ n, dget typ nums = Some n ∧ 0 ≤ n) →
  (∃ typ n, typ ∈ LC_STATE_TYPES.*1 ∧ dget typ nums = Some n ∧ 0 < n) →
  runs (_generate_words rnd fuel cfg nums) (fun r => r.1.*1 = LC_STATE_TYPES.*1 ∧ generated nums r.1).
Proof.
  intros Hnum (typ & n & Htyp & Hn & Hpos). unfold _generate_words. eapply runs_bind.
  { apply (gen_types_ok fuel nums LC_STATE_TYPES.*1 []); [apply (bool_decide_unpack _); by vm_compute | done |].
    split; [by intros ? ? ?%elem_of_nil | split; constructor | by intros ? ? ?%elem_of_nil]. }
  intros [gen ex] (Hk & Hex & Hg). change (gen.*1 = LC_STATE_TYPES.*1) in Hk. cbn in Hex, Hg. pose proof (ge_words _ _ Hg) as Hw. rewrite <- Hex in Hw.
  eapply runs_bind; [by apply (runs_lift _ (fun _ => True) _ (validate_words_ok ex Hw)) |]. intros _ _.
  assert (Hst : ∃ st, hd_histogram ex = Ok st).
  { unfold hd_histogram. destruct ex as [| w ws] eqn:Ee.
    - exfalso. rewrite <- Hk in Htyp. apply list_elem_of_fmap in Htyp as ([t pairs] & -> & Hin). cbn in Hn.
      pose proof (ge_nums _ _ Hg t pairs Hin) as Hn'. rewrite Hn in Hn'. injection Hn' as ->. destruct pairs as [| p pairs]; [done |].
      assert (p.1 ∈ gen ≫= (fun tp => flat tp.2)) as Hp; [| rewrite <- Hex in Hp; by apply elem_of_nil in Hp].
      apply list_elem_of_bind. exists (t, p :: pairs). split; [by left | done].
    - apply histogram_ok; [by apply words_codewords |]. cbn [st_hist]. rewrite length_replicate.
      destruct Hw as [[[Hl _] _]%Forall_cons _]. destruct Hl. lia. }
  destruct Hst as [st Hst]. eapply runs_bind; [by apply (runs_lift _ (fun _ => True) _ Hst) |]. intros st' _. by apply runs_ret.
Qed.
End draw.
End words.

Import Common.

(** ** Joining the words *)

Lemma limbs_join_cons n u us : 0 < n → in_bits n u → Forall (in_bits n) us → limbs_join n (u :: us) = u + limbs_join n us * 2 ^ n.
Proof.
  intros Hn Hu Hus. cbn [limbs_join foldr]. fold (limbs_join n us). rewrite <- Z.shiftl_mul_pow2, Z.add_comm by lia. symmetry. apply add_disjoint.
  apply Z_bits_eq. intros i Hi. rewrite Z.land_spec, Z.bits_0, testbit_shiftl by lia.
  destruct (decide (i < n)); [by rewrite testbit_neg by lia |]. rewrite (testbit_in_bits n u) by (done || lia). apply andb_false_r.
Qed.

Lemma join_from n words k acc : 0 < n → Forall (in_bits n) words →
  foldl (fun outval (kw : nat * Z) => outval + (kw.2 ≪ (n * Z.of_nat kw.1))) acc (imap (fun i w => ((k + i)%nat, w)) words) =
  acc + limbs_join n words * 2 ^ (n * Z.of_nat k).
Proof.
  intros Hn. revert k acc. induction words as [| w words IH]; intros k acc Hw; [cbn; lia |].
  apply Forall_cons in Hw as [Hw Hws]. rewrite limbs_join_cons by done. cbn [imap foldl fst snd]. rewrite Nat.add_0_r.
  rewrite (imap_ext _ (fun i w => ((S k + i)%nat, w))) by (intros i x _; cbn; f_equal; lia). rewrite IH by done.
  rewrite Z.shiftl_mul_pow2 by lia. replace (n * Z.of_nat (S k)) with (n + n * Z.of_nat k) by lia. rewrite Z.pow_add_r by lia. lia.
Qed.

Lemma join_words n words : 0 < n → Forall (in_bits n) words →
  foldl (fun outval (kw : nat * Z) => outval + (kw.2 ≪ (n * Z.of_nat kw.1))) 0 (imap pair words) = limbs_join n words.
Proof.
  intros Hn Hw. pose proof (join_from n words 0 0 Hn Hw) as H. cbn [Nat.add] in H. change (fun i w : _ => (i, w)) with (@pair nat Z) in H.
  rewrite H, Z.mul_0_r. cbn. lia.
Qed.

Lemma join_land n us us' : 0 < n → Forall (in_bits n) us → Forall (in_bits n) us' → Forall2 (fun u u' => u .& u' = u) us us' →
  limbs_join n us .& limbs_join n us' = limbs_join n us.
Proof.
  intros Hn Hu Hu' H. apply Z_bits_eq. intros i Hi. rewrite Z.land_spec, !testbit_limbs_join by done.
  destruct (us !! Z.to_nat (i / n)) as [u |] eqn:E; [| done]. destruct (Forall2_lookup_l _ _ _ _ _ H E) as (u' & -> & Hl). cbn [from_option].
  by rewrite <- Z.land_spec, Hl.
Qed.

Lemma join_inj n us us' : 0 < n → Forall (in_bits n) us → Forall (in_bits n) us' → length us = length us' →
  limbs_join n us = limbs_join n us' → us = us'.
Proof. intros Hn Hu Hu' Hl E. rewrite <- (limbs_split_join n Hn us Hu), <- (limbs_split_join n Hn us' Hu'). by rewrite E, Hl. Qed.

(** ** The words of a state *)

Section words.
Context (cfg : lc_config) (Hc : causal (lc_secded cfg)).
Notation sd := (lc_secded cfg).

(** The data of a word, as a number. *)
Definition word_data (w : list bool) : Z := int2 (drop (Z.to_nat (ecc_width sd)) w).

(** The word of a pair at a level: nothing, the first word or the second one. *)
Definition level_word (p : list bool * list bool) (lv : nat) : Z :=
  match lv with O => 0 | S O => word_data p.1 | _ => word_data p.2 end.

Record pair_ok (p : list bool * list bool) : Prop := {
  po_fst : word_ok cfg p.1;
  po_snd : word_ok cfg p.2;
  po_ext : extends p.1 p.2;
  po_far : far cfg p.1 p.2;
}.

Lemma drop_data w : codeword cfg w → Z.of_nat (length (drop (Z.to_nat (ecc_width sd)) w)) = data_width sd.
Proof. intros [Hl _]. rewrite length_drop. pose proof (total_pos cfg Hc). unfold total in *. lia. Qed.

Lemma word_data_bits w : codeword cfg w → in_bits (data_width sd) (word_data w).
Proof. intros Hw. rewrite <- (drop_data w Hw). apply int2_in_bits. Qed.

Lemma word_data_rbit w k : codeword cfg w → 0 ≤ k < data_width sd → Z.testbit (word_data w) k = rbit w k.
Proof.
  intros Hw Hk. unfold word_data. rewrite int2_testbit by lia. pose proof (drop_data w Hw).
  rewrite <- (take_drop (Z.to_nat (ecc_width sd)) w) at 2. symmetry. apply rbit_app. lia.
Qed.

Lemma word_data_inj w w' : codeword cfg w → codeword cfg w' → word_data w = word_data w' → w = w'.
Proof.
  intros Hw Hw' E. pose proof Hw as [Hl Hch]. pose proof Hw' as [Hl' Hch']. apply (codeword_ext sd Hc); try done; [lia |].
  intros k Hk. by rewrite <- !word_data_rbit, E by done.
Qed.

Lemma word_data_nonzero w : word_ok cfg w → 0 < min_hw cfg → word_data w ≠ 0.
Proof.
  intros [Hw Hhw] Hmin E. pose proof Hw as [Hl Hch]. assert (Hz : w = replicate (length w) false).
  - apply (codeword_ext sd Hc); [done | by rewrite length_replicate | done | apply zero_checks |].
    intros k Hk. by rewrite rbit_zero, <- word_data_rbit, E, Z.bits_0 by done.
  - assert (H0 : count1 w = 0); [| lia]. rewrite Hz. clear. unfold count1. induction (length w) as [| n IH]; [done |]. cbn [replicate].
    by rewrite filter_cons_False by done.
Qed.

Lemma level_bits p lv : pair_ok p → in_bits (data_width sd) (level_word p lv).
Proof.
  intros [[Hf _] [Hs _] _ _]. destruct lv as [| [|]]; cbn; [| by apply word_data_bits..].
  pose proof (total_pos cfg Hc). split; [done | by apply Z.pow_pos_nonneg; lia].
Qed.

Lemma level_land p lv lv' : pair_ok p → (lv ≤ lv')%nat → level_word p lv .& level_word p lv' = level_word p lv.
Proof.
  intros [_ _ Hext _] Hle. destruct lv as [| [| lv]]; cbn; [done | |].
  - destruct lv' as [| [| lv']]; [lia | apply Z.land_diag |]. cbn. by apply extends_land, extends_drop.
  - destruct lv' as [| [| lv']]; [lia | lia | apply Z.land_diag].
Qed.

Lemma level_inj p lv lv' : pair_ok p → 0 < min_hw cfg → 0 < min_hd cfg → (lv ≤ 2)%nat → (lv' ≤ 2)%nat →
  level_word p lv = level_word p lv' → lv = lv'.
Proof.
  intros [Hf Hs Hext Hfar] Hhw Hhd H2 H2' E.
  pose proof (word_data_nonzero p.1 Hf Hhw) as N1. pose proof (word_data_nonzero p.2 Hs Hhw) as N2.
  assert (N3 : word_data p.1 ≠ word_data p.2).
  { intros E'. apply word_data_inj in E'; [| by destruct Hf | by destruct Hs]. unfold far, hd in Hfar. rewrite E' in Hfar.
    assert (Hz : ∀ w, count1 (zip_with xorb w w) = 0); [| rewrite Hz in Hfar; lia].
    induction w as [| b w IH]; [done |]. cbn [zip_with]. rewrite count1_cons, IH, xorb_nilpotent. done. }
  destruct lv as [| [| [|]]], lv' as [| [| [|]]]; cbn in E; try done; try lia; congruence.
Qed.
End words.
