(* ===== verification/LcProps.v ===== *)
(** Properties of the life cycle encodings: the words that are generated, and the encoding of the
    declared states. *)

From stdpp Require Import sorting.
From S2P Require Import Prelude BitLoops PyList Yaml OtpCommon LcStEnc LcStEncFacts.

#[local] Open Scope string_scope.
#[local] Open Scope stdpp_scope.
#[local] Open Scope list_scope.
#[local] Open Scope Z_scope.

Import Common.

(** ** Generated pairs *)

Lemma gen_pair_ok cfg nums gen typ pairs p : generated cfg nums gen → (typ, pairs) ∈ gen → p ∈ pairs → pair_ok cfg p.
Proof.
  intros [_ [Hw Hs] Hp] Hin Hp'. apply list_elem_of_split in Hin as (g1 & g2 & ->). pose proof Hp' as (p1 & p2 & ->)%list_elem_of_split.
  assert (E : (g1 ++ (typ, p1 ++ p :: p2) :: g2) ≫= (fun tp => flat tp.2) =
    ((g1 ≫= (fun tp => flat tp.2)) ++ flat p1) ++ [p.1; p.2] ++ (flat p2 ++ (g2 ≫= (fun tp => flat tp.2)))).
  { rewrite bind_app. cbn [mbind list_bind snd]. rewrite flat_app. cbn [flat mbind list_bind app]. by rewrite <- !app_assoc. }
  rewrite E in Hw, Hs. apply Forall_app in Hw as [_ [H1 [H2 _]%Forall_cons]%Forall_cons].
  apply StronglySorted_app_iff in Hs as (_ & Hs & _). apply StronglySorted_inv in Hs as [_ [Hf _]%Forall_cons].
  split; try done. specialize (Hp typ (p1 ++ p :: p2) ltac:(apply elem_of_app; right; by left)). by apply (proj1 (Forall_forall _ _) Hp).
Qed.

Lemma M_bind_inv {S A B} (m : M S A) (k : A → M S B) g b g' : (m ≫= k) g = Ok (b, g') → ∃ a g1, m g = Ok (a, g1) ∧ k a g1 = Ok (b, g').
Proof. unfold mbind, M_bind. destruct (m g) as [[a g1] |]; [| done]. intros H. by exists a, g1. Qed.

Lemma lift_inv {S A} (r : res A) (g : S) a g' : lift r g = Ok (a, g') → r = Ok a ∧ g' = g.
Proof. unfold lift. destruct r; [| done]. cbn. by intros [= -> ->]. Qed.

Lemma gen_types_nums rnd fuel cfg nums types st g st' g' : foldS (gen_type rnd fuel cfg nums) st types g = Ok (st', g') →
  ∀ typ, typ ∈ types → is_Some (dget typ nums).
Proof.
  revert st g. induction types as [| typ types IH]; intros st g H t Ht; [by apply elem_of_nil in Ht |]. cbn [foldS] in H.
  apply M_bind_inv in H as (st1 & g1 & H1 & H2). apply elem_of_cons in Ht as [-> | Ht]; [| by apply (IH st1 g1 H2)].
  unfold gen_type in H1. destruct st as [gen ex]. apply M_bind_inv in H1 as (n & g2 & H1 & _). apply lift_inv in H1 as [H1 _].
  destruct (dget typ nums); [done |]. done.
Qed.

Lemma generate_inv rnd fuel cfg nums g gen st g' : random_ok rnd → causal (lc_secded cfg) → (∀ typ n, dget typ nums = Some n → 0 ≤ n) →
  _generate_words rnd fuel cfg nums g = Ok ((gen, st), g') → gen.*1 = LC_STATE_TYPES.*1 ∧ generated cfg nums gen.
Proof.
  intros Hr Hc Hn H. unfold _generate_words in H. apply M_bind_inv in H as ([gen' ex] & g1 & H1 & H2).
  apply M_bind_inv in H2 as (? & g2 & _ & H2). apply M_bind_inv in H2 as (? & g3 & _ & H2). injection H2 as -> _ _.
  destruct (gen_types_ok cfg Hc rnd Hr fuel nums LC_STATE_TYPES.*1 []) with (g := g) as [E | (r & g4 & E & Hk & _ & Hg)].
  - apply (bool_decide_unpack _). by vm_compute.
  - intros typ Ht. destruct (gen_types_nums _ _ _ _ _ _ _ _ _ H1 typ Ht) as [n Hn']. exists n. split; [done | by apply (Hn typ)].
  - split; [by intros ? ? ?%elem_of_nil | split; constructor | by intros ? ? ?%elem_of_nil].
  - change ([] ≫= _) with (@nil (list bool)) in E. rewrite H1 in E. done.
  - change ([] ≫= _) with (@nil (list bool)) in E. rewrite H1 in E. injection E as <- <-. done.
Qed.

(** ** Declared states *)

Definition level_of (fmts : list string) (j : nat) (e : yaml) : nat := default O (LcStEnc.entry_idx fmts j e).
(** How far each word of a state is: not written, written once, written twice. *)
Definition levels (fmts : list string) (entries : list yaml) : list nat := imap (level_of fmts) entries.

Lemma entry_idx_legal fmts j e : yaml_in e (legal_values fmts j) = true → ∃ i, LcStEnc.entry_idx fmts j e = Some i ∧ (i < length fmts)%nat.
Proof.
  induction fmts as [| fmt fmts IH]; intros H; [by destruct e |]. cbn [LcStEnc.entry_idx].
  destruct (yaml_in e [YStr (format_idx fmt j)]) eqn:E; [exists O; split; [done | cbn; lia] |].
  destruct IH as (i & -> & Hi); [| exists (S i); split; [done | cbn; lia]].
  destruct e; try done. cbn in *. rewrite orb_false_r in E. by rewrite E in H.
Qed.

(** The entries of a state are legal and as many as the pairs of words. *)
Definition entries_ok (fmts : list string) (num : Z) (entries : list yaml) : Prop :=
  Z.of_nat (length entries) = num ∧ ∀ j e, entries !! j = Some e → ∃ i, LcStEnc.entry_idx fmts j e = Some i ∧ (i < length fmts)%nat.

Lemma check_state_ok fmts num entries : check_state fmts num entries = Ok () → entries_ok fmts num entries.
Proof.
  unfold check_state. destruct (Z.eqb_spec num (Z.of_nat (length entries))) as [-> |]; [| done]. cbn [negb].
  destruct (forallb _ _) eqn:E; [| done]. intros _. split; [done |]. intros j e He. apply entry_idx_legal.
  rewrite forallb_forall in E. apply (E (j, e)). apply list_elem_of_In, elem_of_lookup_imap. by exists j, e.
Qed.

Record lc_wf (l : LcStEnc) : Prop := {
  lw_causal : causal (lc_secded (le_config l));
  lw_pairs name pairs p : dget name (le_genwords l) = Some pairs → p ∈ pairs → pair_ok (le_config l) p;
  lw_states name fmts states : dget name LC_STATE_TYPES = Some fmts → dget name (le_states l) = Some states →
    states ≠ [] → ∃ pairs, dget name (le_genwords l) = Some pairs ∧
    ∀ s entries, (s, entries) ∈ states → entries_ok fmts (Z.of_nat (length pairs)) entries;
}.

Lemma check_states_ok fmts num d states : mapR (read_state fmts num) d = Ok states → ∀ s entries, (s, entries) ∈ states → entries_ok fmts num entries.
Proof.
  revert states. induction d as [| [k v] d IH]; intros states H; cbn [mapR] in H; [injection H as <-; by intros s e ?%elem_of_nil |].
  apply bind_Ok_inv in H as ([k' e'] & H1 & H). apply bind_Ok_inv in H as (ss & H2 & [= <-]).
  intros s entries [[= -> ->] | Hin]%elem_of_cons; [| by apply (IH ss H2 s)].
  unfold read_state in H1. cbn [fst snd] in H1. destruct k; try done. apply bind_Ok_inv in H1 as (e & _ & H1).
  apply bind_Ok_inv in H1 as ([] & H1 & [= _ ->]). by apply check_state_ok.
Qed.

(** What the declarations of a type give: no states and no number, or states of as many entries. *)
Definition decl_ok (tf : string * list string) (r : string * dict (list yaml) * option Z) : Prop :=
  r.1.1 = tf.1 ∧ match r.2 with
  | None => r.1.2 = []
  | Some n => 0 ≤ n ∧ ∀ s entries, (s, entries) ∈ r.1.2 → entries_ok tf.2 n entries
  end.

Lemma check_type_ok config tf r : check_type config tf = Ok r → decl_ok tf r.
Proof.
  destruct tf as [typ fmts]. unfold check_type. intros H. apply bind_Ok_inv in H as (y & _ & H). apply bind_Ok_inv in H as (d & _ & H).
  destruct d as [| [k first] d]; [by injection H as <- |]. apply bind_Ok_inv in H as (entries & _ & H).
  apply bind_Ok_inv in H as (states & H1 & [= <-]). split; [done |]. cbn. split; [lia |]. by apply (check_states_ok _ _ _ _ H1).
Qed.

Lemma decls_ok config decls : _validate_state_declarations config = Ok decls → Forall2 decl_ok LC_STATE_TYPES decls.
Proof.
  unfold _validate_state_declarations. revert decls. induction LC_STATE_TYPES as [| tf l IH]; intros decls H; cbn [mapR] in H; [by injection H as <- |].
  apply bind_Ok_inv in H as (r & H1 & H). apply bind_Ok_inv in H as (rs & H2 & [= <-]). constructor; [by apply (check_type_ok config) | by apply IH].
Qed.

Lemma types_nodup : NoDup LC_STATE_TYPES.*1.
Proof. apply (bool_decide_unpack _). by vm_compute. Qed.

Lemma decls_states types decls name fmts states : NoDup types.*1 → Forall2 decl_ok types decls →
  dget name types = Some fmts → dget name (LcStEnc.states_of decls) = Some states → states ≠ [] →
  ∃ n, dget name (LcStEnc.num_words_of decls) = Some n ∧ 0 ≤ n ∧ ∀ s entries, (s, entries) ∈ states → entries_ok fmts n entries.
Proof.
  intros Hnd H. revert Hnd. induction H as [| [typ fs] [[t ss] o] types decls [E Hd] H IH]; intros Hnd Hf Hs Hne; [done |].
  cbn in E, Hd, Hnd. subst t. apply NoDup_cons in Hnd as [Hn Hnd]. cbn in Hf, Hs.
  destruct (decide (name = typ)) as [-> | Hneq].
  - injection Hf as ->. injection Hs as ->. destruct o as [n |]; [| done]. exists n. cbn. by rewrite decide_True.
  - destruct (IH Hnd Hf Hs Hne) as (n & Hn' & Hrest). exists n. split; [| done]. destruct o; cbn; [by rewrite decide_False | done].
Qed.

Lemma num_words_nonneg types decls typ n : Forall2 decl_ok types decls → dget typ (LcStEnc.num_words_of decls) = Some n → 0 ≤ n.
Proof.
  induction 1 as [| tf [[t ss] o] types decls [_ Hd] _ IH]; [done |]. destruct o as [m |]; cbn; [| done]. case_decide; [| done].
  intros [= <-]. apply Hd.
Qed.

(** An object that the constructor returns is well formed, for a matrix as it should be. *)
Lemma lc_init_wf rnd h fuel y g l g' : random_ok rnd → LcStEnc.init rnd h fuel y g = Ok (l, g') → causal (lc_secded (le_config l)) → lc_wf l.
Proof.
  intros Hr H Hc. unfold LcStEnc.init in H. apply M_bind_inv in H as (config & g1 & _ & H). destruct (negb _); [done |].
  do 3 apply M_bind_inv in H as (? & ? & _ & H). apply M_bind_inv in H as (sd & ? & _ & H). apply M_bind_inv in H as (cfg & ? & _ & H).
  apply M_bind_inv in H as ([ts toks] & ? & _ & H). apply M_bind_inv in H as (decls & g2 & Hd%lift_inv & H). destruct Hd as [Hd _].
  apply M_bind_inv in H as ([gen st] & g3 & Hgen & H). injection H as <- _. cbn in Hc. apply decls_ok in Hd.
  destruct (generate_inv _ _ _ _ _ _ _ _ Hr Hc (fun typ n => num_words_nonneg _ _ typ n Hd) Hgen) as [Hk Hg]. split; cbn [le_config le_genwords le_states].
  - done.
  - intros name pairs p Hp%dget_Some_elem Hin. by apply (gen_pair_ok cfg _ gen name pairs p Hg).
  - intros name fmts states Hf Hs Hne. destruct (decls_states _ _ _ _ _ types_nodup Hd Hf Hs Hne) as (n & Hn & _ & He).
    destruct (dget name gen) as [pairs |] eqn:Ep.
    + exists pairs. split; [done |]. apply dget_Some_elem in Ep. pose proof (ge_nums _ _ _ Hg _ _ Ep) as Hn'. rewrite Hn in Hn'. by injection Hn' as <-.
    + apply dget_None in Ep. rewrite Hk in Ep. by apply dget_Some_elem, (list_elem_of_fmap_2 fst) in Hf.
Qed.

(** ** The encoding *)

Lemma state_word_eq l name fmts pairs j e p i : length fmts = 3%nat → dget name (le_genwords l) = Some pairs → pairs !! j = Some p →
  LcStEnc.entry_idx fmts j e = Some i → (i < 3)%nat → p.1 ≠ [] → p.2 ≠ [] →
  (∀ w, w = p.1 ∨ w = p.2 → drop (Z.to_nat (ecc_width (lc_secded (le_config l)))) w ≠ []) →
  LcStEnc.state_word l name fmts (j, e) = Ok (level_word (le_config l) p i).
Proof.
  intros Hf Hg Hp He Hi _ _ Hd. unfold LcStEnc.state_word. cbn [fst snd]. rewrite He. cbn [of_option mbind res_bind].
  destruct i as [| i]; [done |]. rewrite Hg. cbn [of_option mbind res_bind]. rewrite (py_nth_nat _ _ _ Hp). cbn [mbind res_bind].
  destruct i as [| [|]]; [| | lia]; cbn [lookup list_lookup of_option mbind res_bind]; apply int_base2_eq, Hd; auto.
Qed.

Lemma mapR_words {A} (f : nat * A → res Z) (g : nat → A → Z) l k : (∀ j e, l !! j = Some e → f ((k + j)%nat, e) = Ok (g (k + j)%nat e)) →
  mapR f (imap (fun j e => ((k + j)%nat, e)) l) = Ok (imap (fun j e => g (k + j)%nat e) l).
Proof.
  revert k. induction l as [| e l IH]; intros k H; [done |]. cbn [imap mapR]. rewrite (H O e eq_refl). cbn [mbind res_bind].
  rewrite (imap_ext _ (fun j e => ((S k + j)%nat, e))) by (intros j x _; cbn; f_equal; lia).
  rewrite (IH (S k)). 2: { intros j e' Hj. specialize (H (S j) e' Hj). by replace (S k + j)%nat with (k + S j)%nat by lia. }
  cbn [mbind res_bind]. do 2 f_equal. apply imap_ext. intros j x _. cbn. f_equal. lia.
Qed.

(** The words of a state, from the levels of its entries. *)
Definition level_words (l : LcStEnc) (pairs : list (list bool * list bool)) (lvs : list nat) : list Z :=
  zip_with (level_word (le_config l)) pairs lvs.

Lemma lc_encode_eq l name fmts states s entries : lc_wf l → dget name LC_STATE_TYPES = Some fmts → dget name (le_states l) = Some states →
  dget s states = Some entries →
  ∃ pairs, dget name (le_genwords l) = Some pairs ∧ length pairs = length entries ∧ Forall (pair_ok (le_config l)) pairs ∧
    (∀ lv, lv ∈ levels fmts entries → (lv ≤ 2)%nat) ∧
    LcStEnc.encode l name s = Ok (limbs_join (data_width (lc_secded (le_config l))) (level_words l pairs (levels fmts entries))).
Proof.
  intros [Hc Hp Hst] Hf Hs He. pose proof (total_pos _ Hc) as (Hdw & _).
  destruct (Hst name fmts states Hf Hs) as (pairs & Hg & Hen); [intros ->; done |].
  destruct (Hen s entries (dget_Some_elem _ _ _ He)) as [Hlen Hidx]. apply Nat2Z.inj in Hlen.
  assert (Hf3 : length fmts = 3%nat).
  { apply dget_Some_elem in Hf. revert Hf. unfold LC_STATE_TYPES. rewrite !elem_of_cons. intros [[= -> ->] | [[= -> ->] | [[= -> ->] | ?%elem_of_nil]]]; done. }
  assert (Hpo : Forall (pair_ok (le_config l)) pairs) by (apply Forall_forall; intros p; by apply (Hp name)).
  exists pairs. split; [done |]. split; [done |]. split; [done |]. split.
  { intros lv (j & e & -> & Hj)%elem_of_lookup_imap. unfold level_of. destruct (Hidx j e Hj) as (i & -> & Hi). cbn. lia. }
  unfold LcStEnc.encode. rewrite Hf, Hs. cbn [of_option mbind res_bind]. rewrite He. cbn [of_option mbind res_bind].
  pose proof (mapR_words (LcStEnc.state_word l name fmts)
    (fun j e => level_word (le_config l) (default ([], []) (pairs !! j)) (level_of fmts j e)) entries 0) as Hm. cbn [Nat.add] in Hm.
  change (fun j e => (j, e)) with (@pair nat yaml) in Hm. rewrite Hm.
  - cbn [mbind res_bind]. f_equal. rewrite join_words; [| done |].
    + f_equal. apply list_eq. intros j. unfold level_words, levels. rewrite lookup_zip_with, !list_lookup_imap.
      destruct (entries !! j) as [e |] eqn:Ej; cbn.
      * destruct (lookup_lt_is_Some_2 pairs j) as [p ->]; [apply lookup_lt_Some in Ej; lia | done].
      * rewrite (lookup_ge_None_2 pairs); [done | apply lookup_ge_None in Ej; lia].
    + apply Forall_forall. intros v (j & e & -> & Hj)%elem_of_lookup_imap.
      destruct (lookup_lt_is_Some_2 pairs j) as [p Ep]; [apply lookup_lt_Some in Hj; lia |]. rewrite Ep. cbn.
      apply level_bits; [done |]. by apply (Forall_lookup_1 _ _ _ _ Hpo Ep).
  - intros j e Hj. destruct (Hidx j e Hj) as (i & Ei & Hi).
    destruct (lookup_lt_is_Some_2 pairs j) as [p Ep]; [apply lookup_lt_Some in Hj; lia |]. rewrite Ep. cbn. unfold level_of. rewrite Ei. cbn.
    pose proof (Forall_lookup_1 _ _ _ _ Hpo Ep) as [[H1 _] [H2 _] _ _].
    apply (state_word_eq l name fmts pairs); try done; [lia | by apply (codeword_nonempty _ Hc).. |].
    intros w Hw E. assert (Hcw : codeword (le_config l) w) by (destruct Hw as [-> | ->]; done).
    pose proof (drop_data _ Hc w Hcw) as Hdd. rewrite E in Hdd. cbn in Hdd. lia.
Qed.

(** ** Properties *)

(** C10: whatever the random numbers are (within their ranges), if the rows of the matrix refer to data bits
    and earlier parity bits, no number of pairs is negative and at least one is positive, [_generate_words]
    searches on beyond its fuel or returns, and raises nothing.  The words that it returns pass the checks
    that follow their generation: every word is a valid code word with its weight within the limits, any
    two words have the minimum distance, the second word of a pair only sets bits of the first one, and
    each type has its number of pairs.  (The search itself ends only with luck.) *)
Theorem lc_words_generated rnd fuel cfg nums g : random_ok rnd → causal (lc_secded cfg) →
  (∀ typ, typ ∈ LC_STATE_TYPES.*1 → ∃ n, dget typ nums = Some n ∧ 0 ≤ n) →
  (∃ typ n, typ ∈ LC_STATE_TYPES.*1 ∧ dget typ nums = Some n ∧ 0 < n) →
  _generate_words rnd fuel cfg nums g = Err OutOfFuel ∨
  ∃ gen stats g', _generate_words rnd fuel cfg nums g = Ok ((gen, stats), g') ∧ gen.*1 = LC_STATE_TYPES.*1 ∧
    (∀ typ pairs, (typ, pairs) ∈ gen → dget typ nums = Some (Z.of_nat (length pairs)) ∧ ∀ p, p ∈ pairs → extends p.1 p.2) ∧
    let words := gen ≫= (fun tp => flat tp.2) in
    (∀ w, w ∈ words → is_valid_codeword (lc_secded cfg) w = Ok true ∧ min_hw cfg ≤ count1 w ≤ max_hw cfg) ∧
    StronglySorted (fun w w' => ∃ d, get_hd w w' = Ok d ∧ min_hd cfg ≤ d) words.
Proof.
  intros Hr Hc Hn Hp. destruct (generate_ok cfg Hc rnd Hr fuel nums Hn Hp g) as [? | ([gen stats] & g' & E & Hk & Hg)]; [by left | right].
  exists gen, stats, g'. split; [done |]. split; [done |]. pose proof (ge_words _ _ _ Hg) as [Hw Hs]. cbn in Hk, Hw, Hs. split.
  { intros typ pairs Hin. split; [by apply (ge_nums _ _ _ Hg) |]. apply Forall_forall. by apply (ge_pairs _ _ _ Hg typ). }
  cbv zeta. split.
  - intros w Hin. apply (proj1 (Forall_forall _ _) Hw) in Hin as [[Hl Hch] Hhw]. split; [by apply valid_checks | done].
  - clear -Hw Hs Hc. induction Hs as [| w ws Hs IH Hf]; [constructor |]. apply Forall_cons in Hw as [[Hcw _] Hws]. constructor; [by apply IH |].
    apply Forall_forall. intros w' Hin. exists (hd w w'). split; [| by apply (proj1 (Forall_forall _ _) Hf)].
    apply (proj1 (Forall_forall _ _) Hws) in Hin as [Hcw' _]. apply get_hd_eq; [destruct Hcw, Hcw'; lia | by apply (codeword_nonempty _ Hc)].
Qed.

(** A code of eight data bits and one parity bit, and random numbers. *)
Definition small_secded : secded := mkSecded 8 1 [[0; 1; 2; 3; 4; 5; 6; 7]].
Definition small_config : lc_config := mkLcConfig small_secded 1 8 2.
Definition small_nums : dict Z := [("lc_state", 2); ("lc_cnt", 1); ("lc_id_state", 1)].
Definition some_random : Random := mkRandom (fun g w => (Z.of_nat (rng_pos g) * 37 + 5) `mod` 2 ^ w) (fun _ _ => 0%nat).

Lemma some_random_ok : random_ok some_random.
Proof. split; [intros g w Hw; apply Z.mod_pos_bound; by apply Z.pow_pos_nonneg | intros g n Hn; exact Hn]. Qed.

(** A matrix given with the number of data bits is as the code needs it. *)
Definition causalb (c : secded) : bool :=
  (0 <? data_width c) && (Z.of_nat (length (ecc_matrix c)) =? ecc_width c) &&
  forallb (fun jr : nat * list Z => forallb (fun k => (0 <=? k) && (k <? data_width c + Z.of_nat jr.1)) jr.2) (imap pair (ecc_matrix c)).

Lemma causalb_sound c : causalb c = true → causal c.
Proof.
  unfold causalb. intros [[H1%Z.ltb_lt H2%Z.eqb_eq]%andb_true_iff H3]%andb_true_iff. split; [done | done |]. intros j row k Hj Hk.
  rewrite forallb_forall in H3. specialize (H3 (j, row)). cbn in H3. rewrite forallb_forall in H3.
  assert (Hk' : (0 <=? k) && (k <? data_width c + Z.of_nat j) = true).
  { apply H3; [apply list_elem_of_In, elem_of_lookup_imap; by exists j, row | by apply list_elem_of_In]. }
  apply andb_true_iff in Hk' as [?%Z.leb_le ?%Z.ltb_lt]. done.
Qed.

Lemma lc_words_generated_witness :
  _generate_words some_random 20 small_config small_nums (mkRng 0 0) = Err OutOfFuel ∨
  ∃ gen stats g', _generate_words some_random 20 small_config small_nums (mkRng 0 0) = Ok ((gen, stats), g') ∧ gen.*1 = LC_STATE_TYPES.*1 ∧
    (∀ typ pairs, (typ, pairs) ∈ gen → dget typ small_nums = Some (Z.of_nat (length pairs)) ∧ ∀ p, p ∈ pairs → extends p.1 p.2) ∧
    let words := gen ≫= (fun tp => flat tp.2) in
    (∀ w, w ∈ words → is_valid_codeword small_secded w = Ok true ∧ 1 ≤ count1 w ≤ 8) ∧
    StronglySorted (fun w w' => ∃ d, get_hd w w' = Ok d ∧ 2 ≤ d) words.
Proof.
  apply (lc_words_generated some_random 20 small_config small_nums (mkRng 0 0)); [apply some_random_ok | by apply causalb_sound | |].
  - intros typ Ht. unfold LC_STATE_TYPES in Ht. cbn in Ht.
    repeat (apply elem_of_cons in Ht as [-> | Ht]; [eexists; split; [vm_compute; reflexivity | done] |]). by apply elem_of_nil in Ht.
  - exists "lc_state", 2. split; [apply (bool_decide_unpack _); by vm_compute | done].
Defined.

(** The search ends with these numbers. *)
Example small_words_found :
  match _generate_words some_random 20 small_config small_nums (mkRng 0 0) with
  | Ok (gen, _, _) => dget "lc_cnt" gen = Some [(format_bin 9 153, format_bin 9 411)]
  | Err _ => False
  end.
Proof. by vm_compute. Qed.

(** A parity bit that refers to a later one: the words that are generated are refused. *)
Example later_parity_bit :
  _generate_words some_random 20 (mkLcConfig (mkSecded 8 2 [[9]; []]) 1 8 1) small_nums (mkRng 0 0) = Err RuntimeError.
Proof. by vm_compute. Qed.

(** The matrix of lc_ctrl_state.hjson. *)
Example lc_ctrl_matrix : causal (mkSecded 16 6
  [[0; 1; 3; 4; 6; 8; 10; 11; 13; 15]; [0; 2; 3; 5; 6; 9; 10; 12; 13]; [1; 2; 3; 7; 8; 9; 10; 14; 15]; [4; 5; 6; 7; 8; 9; 10];
   [11; 12; 13; 14; 15]; seqZ 0 21]).
Proof. by apply causalb_sound. Qed.

Lemma join_land_iff n us us' : 0 < n → Forall (in_bits n) us → Forall (in_bits n) us' → length us = length us' →
  limbs_join n us .& limbs_join n us' = limbs_join n us ↔ Forall2 (fun u u' => u .& u' = u) us us'.
Proof.
  intros Hn Hu Hu' Hl. split; [| by apply join_land]. intros E. apply Forall2_same_length_lookup. split; [done |]. intros i u u' Hi Hi'.
  apply Z_bits_eq. intros k Hk. destruct (decide (k < n)) as [Hkn | Hkn].
  - assert (Hb : Z.testbit (limbs_join n us .& limbs_join n us') (n * Z.of_nat i + k) = Z.testbit (limbs_join n us) (n * Z.of_nat i + k)) by (by rewrite E).
    rewrite Z.land_spec, !testbit_limbs_join in Hb by (done || lia).
    replace (n * Z.of_nat i + k) with (k + Z.of_nat i * n) in Hb by lia. rewrite Z.div_add, Z.mod_add, Z.div_small, Z.mod_small in Hb by lia.
    rewrite Z.add_0_l, Nat2Z.id, Hi, Hi' in Hb. cbn in Hb. by rewrite Z.land_spec.
  - rewrite Z.land_spec, (testbit_in_bits n u) by (by apply (Forall_lookup_1 _ _ _ _ Hu Hi) || lia). done.
Qed.

Lemma level_land_iff cfg (Hc : causal (lc_secded cfg)) p lv lv' : pair_ok cfg p → 0 < min_hw cfg → 0 < min_hd cfg → (lv ≤ 2)%nat → (lv' ≤ 2)%nat →
  level_word cfg p lv .& level_word cfg p lv' = level_word cfg p lv ↔ (lv ≤ lv')%nat.
Proof.
  intros Hp Hhw Hhd H2 H2'. split; [| by apply level_land]. intros E. destruct (decide (lv ≤ lv')%nat) as [| Hlt]; [done |]. exfalso.
  assert (E' : level_word cfg p lv' .& level_word cfg p lv = level_word cfg p lv') by (apply level_land; [done | lia]).
  rewrite Z.land_comm, E in E'. apply (level_inj cfg Hc) in E'; try done. lia.
Qed.

(** The codes of two states, and when one only sets bits of the other. *)
Lemma lc_encode_reach rnd h fuel y g l g' name fmts states s1 e1 s2 e2 :
  random_ok rnd → LcStEnc.init rnd h fuel y g = Ok (l, g') → causal (lc_secded (le_config l)) →
  0 < min_hw (le_config l) → 0 < min_hd (le_config l) →
  dget name LC_STATE_TYPES = Some fmts → dget name (le_states l) = Some states →
  dget s1 states = Some e1 → dget s2 states = Some e2 →
  ∃ v1 v2, LcStEnc.encode l name s1 = Ok v1 ∧ LcStEnc.encode l name s2 = Ok v2 ∧
    (v1 .& v2 = v1 ↔ Forall2 le (levels fmts e1) (levels fmts e2)).
Proof.
  intros Hr Hi Hc Hhw Hhd Hf Hs H1 H2. pose proof (lc_init_wf _ _ _ _ _ _ _ Hr Hi Hc) as Hwf.
  pose proof (total_pos _ Hc) as (Hdw & _).
  destruct (lc_encode_eq l name fmts states s1 e1 Hwf Hf Hs H1) as (pairs & Hg & Hl1 & Hp & Hlv1 & E1).
  destruct (lc_encode_eq l name fmts states s2 e2 Hwf Hf Hs H2) as (pairs' & Hg' & Hl2 & _ & Hlv2 & E2).
  rewrite Hg in Hg'. injection Hg' as <-. eexists _, _. split; [done |]. split; [done |].
  assert (Hlen : ∀ e, length (levels fmts e) = length e) by (intros e; apply length_imap).
  assert (Hbits : ∀ lvs, Forall (in_bits (data_width (lc_secded (le_config l)))) (level_words l pairs lvs)).
  { intros lvs. apply Forall_forall. intros v (i & Hv)%list_elem_of_lookup. apply lookup_zip_with_Some in Hv as (p & lv & -> & Hpi & _).
    apply level_bits; [done |]. by apply (Forall_lookup_1 _ _ _ _ Hp Hpi). }
  rewrite join_land_iff; [| done | done | done | unfold level_words; rewrite !length_zip_with, !Hlen; lia].
  rewrite !Forall2_same_length_lookup, !Hlen. unfold level_words. rewrite !length_zip_with, !Hlen. split; intros [_ H]; (split; [lia |]); intros i.
  - intros lv lv' Hi1 Hi2. destruct (lookup_lt_is_Some_2 pairs i) as [p Hpi]; [apply lookup_lt_Some in Hi1; rewrite Hlen in Hi1; lia |].
    apply (level_land_iff _ Hc p); try done; [by apply (Forall_lookup_1 _ _ _ _ Hp Hpi) | apply Hlv1; by eapply list_elem_of_lookup_2 |
      apply Hlv2; by eapply list_elem_of_lookup_2 |].
    apply (H i); apply lookup_zip_with_Some; eauto.
  - intros u u' (p & lv & -> & Hpi & Hi1)%lookup_zip_with_Some (p' & lv' & -> & Hpi' & Hi2)%lookup_zip_with_Some. rewrite Hpi in Hpi'. injection Hpi' as <-.
    apply (level_land_iff _ Hc p); try done; [by apply (Forall_lookup_1 _ _ _ _ Hp Hpi) | apply Hlv1; by eapply list_elem_of_lookup_2 |
      apply Hlv2; by eapply list_elem_of_lookup_2 | by apply (H i)].
Qed.

Lemma Forall2_le_eq (l l' : list nat) : Forall2 le l l' → Forall2 le l' l → l = l'.
Proof.
  intros H. induction H as [| x y l l' Hxy _ IH]; [done |]. intros [Hyx H']%Forall2_cons. f_equal; [lia | by apply IH].
Qed.

(** C36: the encoded life cycle states can be reached by setting bits exactly as the declarations say: for
    an object that the constructor returned with a matrix whose rows refer to data bits and earlier parity
    bits and with positive minimum weight and distance, encoding any two states declared for one type
    succeeds, the number of one state only sets bits of the other if and only if no entry goes back (from
    the second word of a pair to the first, or from a word to none), and the numbers are equal if and only
    if the entries choose the same words.  (Two states may be declared with the same entries.) *)
Theorem lc_encode_order rnd h fuel y g l g' name fmts states s1 e1 s2 e2 :
  random_ok rnd → LcStEnc.init rnd h fuel y g = Ok (l, g') → causal (lc_secded (le_config l)) →
  0 < min_hw (le_config l) → 0 < min_hd (le_config l) →
  dget name LC_STATE_TYPES = Some fmts → dget name (le_states l) = Some states →
  dget s1 states = Some e1 → dget s2 states = Some e2 →
  ∃ v1 v2, LcStEnc.encode l name s1 = Ok v1 ∧ LcStEnc.encode l name s2 = Ok v2 ∧
    (v1 .& v2 = v1 ↔ Forall2 le (levels fmts e1) (levels fmts e2)) ∧
    (v1 = v2 ↔ levels fmts e1 = levels fmts e2).
Proof.
  intros Hr Hi Hc Hhw Hhd Hf Hs H1 H2.
  destruct (lc_encode_reach rnd h fuel y g l g' name fmts states s1 e1 s2 e2) as (v1 & v2 & E1 & E2 & H12); try done.
  destruct (lc_encode_reach rnd h fuel y g l g' name fmts states s2 e2 s1 e1) as (v2' & v1' & E2' & E1' & H21); try done.
  rewrite E1 in E1'. rewrite E2 in E2'. injection E1' as <-. injection E2' as <-. exists v1, v2. do 3 (split; [done |]). split.
  - intros ->. apply Forall2_le_eq; [apply H12 | apply H21]; apply Z.land_diag.
  - intros E. rewrite E in H12, H21. pose proof (proj2 H12 ltac:(by apply Forall2_same_length_lookup_2; [| naive_solver])) as Ha.
    pose proof (proj2 H21 ltac:(by apply Forall2_same_length_lookup_2; [| naive_solver])) as Hb. rewrite Z.land_comm in Hb. congruence.
Qed.

(** A description with three states. *)
Definition small_desc : yaml :=
  YDict [(YStr "seed", YInt 1);
         (YStr "secded", YDict [(YStr "data_width", YInt 8); (YStr "ecc_width", YInt 1); (YStr "ecc_matrix", YList [YList (YInt <$> seqZ 0 8)])]);
         (YStr "min_hw", YInt 1); (YStr "max_hw", YInt 8); (YStr "min_hd", YInt 2);
         (YStr "tokens", YList [YDict [(YStr "name", YStr "Zero"); (YStr "value", YStr "0x0")]]);
         (YStr "lc_state", YDict [(YStr "RAW", YList [YStr "0"; YStr "0"]); (YStr "TEST", YList [YStr "B0"; YStr "A1"]);
                                  (YStr "DEV", YList [YStr "A0"; YStr "B1"]); (YStr "SCRAP", YList [YStr "B0"; YStr "B1"])]);
         (YStr "lc_cnt", YDict [(YStr "0", YList [YStr "0"]); (YStr "1", YList [YStr "C0"])]);
         (YStr "lc_id_state", YDict [(YStr "IdBlank", YList [YStr "E0"])])].

Definition small_init : res (LcStEnc * rng) := LcStEnc.init some_random (fun _ _ => 0) 20 small_desc (mkRng 0 0).
Definition small_object : LcStEnc :=
  match small_init with
  | Ok (l, _) => l
  | Err _ => mkLcStEnc 0 small_config 0 [] [] [] (mkStats [] 0 0 0 0)
  end.

Lemma small_init_ok : ∃ g', small_init = Ok (small_object, g').
Proof. unfold small_object. destruct small_init as [[l g'] |] eqn:E; [by exists g' |]. by vm_compute in E. Qed.

Lemma lc_encode_order_witness :
  ∃ v1 v2, LcStEnc.encode small_object "lc_state" "TEST" = Ok v1 ∧ LcStEnc.encode small_object "lc_state" "SCRAP" = Ok v2 ∧
    (v1 .& v2 = v1 ↔ Forall2 le (levels ["0"; "A{}"; "B{}"] [YStr "B0"; YStr "A1"]) (levels ["0"; "A{}"; "B{}"] [YStr "B0"; YStr "B1"])) ∧
    (v1 = v2 ↔ levels ["0"; "A{}"; "B{}"] [YStr "B0"; YStr "A1"] = levels ["0"; "A{}"; "B{}"] [YStr "B0"; YStr "B1"]).
Proof.
  destruct small_init_ok as (g' & E).
  apply (lc_encode_order some_random (fun _ _ => 0) 20 small_desc (mkRng 0 0) small_object g' "lc_state" ["0"; "A{}"; "B{}"]
    (default [] (dget "lc_state" (le_states small_object))) "TEST" [YStr "B0"; YStr "A1"] "SCRAP" [YStr "B0"; YStr "B1"]).
  - apply some_random_ok.
  - exact E.
  - apply causalb_sound. vm_compute. reflexivity.
  - vm_compute. reflexivity.
  - vm_compute. reflexivity.
  - reflexivity.
  - vm_compute. reflexivity.
  - vm_compute. reflexivity.
  - vm_compute. reflexivity.
Defined.

(** From TEST to SCRAP bits are set, from DEV to TEST they would have to be cleared. *)
Example small_transitions :
  match LcStEnc.encode small_object "lc_state" "TEST", LcStEnc.encode small_object "lc_state" "DEV", LcStEnc.encode small_object "lc_state" "SCRAP" with
  | Ok test, Ok dev, Ok scrap => test .& scrap = test ∧ dev .& test ≠ dev
  | _, _, _ => False
  end.
Proof. vm_compute. split; [reflexivity | discriminate]. Qed.

(** A size of tokens that is not a whole number of bytes: there is no token to name in the message. *)
Example odd_token_size : _validate_tokens some_random (fun _ _ => 0) [(YStr "token_size", YInt 12)] (mkRng 0 0) = Err NameError.
Proof. reflexivity. Qed.
