(* ===== verification/OtpMemMap.v ===== *)
(** The memory map of the OTP (util/design/lib/OtpMemMap.py): partitions with their items, digests and
    scrambling constants, from the parsed description.  The names of partitions and items are strings
    (others are refused where they become keys), and a key is selected by a string. *)

From S2P Require Import Prelude PyStr PyList Yaml OtpCommon.

#[local] Open Scope string_scope.
#[local] Open Scope stdpp_scope.
#[local] Open Scope list_scope.
#[local] Open Scope Z_scope.

Import Common.

Definition DIGEST_SUFFIX : string := "_DIGEST".
Definition DIGEST_SIZE : Z := 8.
Definition OTP_SEED_DIVERSIFIER : Z := 177149201092001677687.

Record Otp := mkOtp { otp_depth : Z; otp_width : Z; otp_size : Z; otp_addr_width : Z; otp_byte_addr_width : Z }.

Record Scrambling := mkScrambling {
  key_size : Z;
  iv_size : Z;
  cnst_size : Z;
  sc_keys : list (yaml * Z);
  sc_digests : list (yaml * Z * Z);
}.

(** The offset is what the description has or the default, and may still be text; [oi_value] is set by
    the image. *)
Record OtpItem := mkOtpItem {
  oi_name : string;
  oi_size : Z;
  oi_isdigest : yaml;
  oi_offset : yaml;
  oi_inv_default : Z;
  oi_value : option yaml;
}.

Record OtpPart := mkOtpPart {
  op_name : string;
  op_variant : string;
  op_offset : yaml;
  op_size : Z;
  op_secret : bool;
  op_sw_digest : bool;
  op_hw_digest : bool;
  op_bkout_type : bool;
  op_write_lock : string;
  op_read_lock : string;
  op_key_sel : string;
  op_lock : yaml;
  op_items : list OtpItem;
}.

Definition set_items (its : list OtpItem) (p : OtpPart) : OtpPart :=
  mkOtpPart (op_name p) (op_variant p) (op_offset p) (op_size p) (op_secret p) (op_sw_digest p) (op_hw_digest p)
    (op_bkout_type p) (op_write_lock p) (op_read_lock p) (op_key_sel p) (op_lock p) its.
Definition set_lock (y : yaml) (p : OtpPart) : OtpPart :=
  mkOtpPart (op_name p) (op_variant p) (op_offset p) (op_size p) (op_secret p) (op_sw_digest p) (op_hw_digest p)
    (op_bkout_type p) (op_write_lock p) (op_read_lock p) (op_key_sel p) y (op_items p).
Definition set_value (v : Z) (i : OtpItem) : OtpItem :=
  mkOtpItem (oi_name i) (oi_size i) (oi_isdigest i) (oi_offset i) (oi_inv_default i) (Some (YInt v)).

Definition read_name (y : yaml) : res string := match y with YStr s => Ok s | _ => Err TypeError end.

(** An object used in arithmetic. *)
Definition as_int (y : yaml) : res Z :=
  match y with YInt z => Ok z | YBool b => Ok (Z_of_bool b) | _ => Err TypeError end.

(** [ceil(log2(n))]; rounding of the floating point logarithm is not modelled. *)
Definition ceil_log2 (n : Z) : res Z := if n <=? 0 then Err ValueError else Ok (Z.log2_up n).

Module OtpMemMap.
Section random.
Context (rnd : Random).

Definition _validate_otp (otp : yaml) : res Otp :=
  d ← as_dict otp;
  depth ← check_int (setdefault "depth" (YStr "1024") d);
  width ← check_int (setdefault "width" (YStr "2") d);
  let size := depth * width in
  addr_width ← ceil_log2 depth;
  byte_addr_width ← ceil_log2 size;
  Ok (mkOtp depth width size addr_width byte_addr_width).

Definition validate_key (key_size : Z) (key : yaml) : M rng (yaml * Z) :=
  d ← lift (as_dict key);
  let d' := match yget "value" d with Some _ => d | None => (YStr "value", YStr "<random>") :: d end in
  value ← random_or_hexvalue rnd d' "value" (key_size * 8);
  mret (setdefault "name" (YStr "unknown_key_name") d, value).

Definition validate_digest (iv_size cnst_size : Z) (dig : yaml) : M rng (yaml * Z * Z) :=
  d ← lift (as_dict dig);
  let default_random k := match yget k d with Some _ => d | None => (YStr k, YStr "<random>") :: d end in
  iv_value ← random_or_hexvalue rnd (default_random "iv_value") "iv_value" (iv_size * 8);
  cnst_value ← random_or_hexvalue rnd (default_random "cnst_value") "cnst_value" (cnst_size * 8);
  mret (setdefault "name" (YStr "unknown_key_name") d, iv_value, cnst_value).

Definition _validate_scrambling (scr : yaml) : M rng Scrambling :=
  d ← lift (as_dict scr);
  key_size ← lift (check_int (setdefault "key_size" (YStr "16") d));
  iv_size ← lift (check_int (setdefault "iv_size" (YStr "8") d));
  cnst_size ← lift (check_int (setdefault "cnst_size" (YStr "16") d));
  keys ← lift (of_option RuntimeError (yget "keys" d));
  digests ← lift (of_option RuntimeError (yget "digests" d));
  keys ← lift (py_iter keys);
  keys ← mapS (validate_key key_size) keys;
  digests ← lift (py_iter digests);
  digests ← mapS (validate_digest iv_size cnst_size) digests;
  mret (mkScrambling key_size iv_size cnst_size keys digests).

(** ** Partitions *)

Definition lock_values : list string := ["digest"; "csr"; "none"].
Definition as_text (y : yaml) : res string := match y with YStr s => Ok s | _ => Err AttributeError end.

(** The partition without its items, and the items.  The name is read by the caller. *)
Definition _validate_part (part : yaml) (offset : Z) (key_names : list string) : res (yaml * (string → OtpPart) * yaml) :=
  d ← as_dict part;
  let get k v := setdefault k v d in
  secret ← check_bool (get "secret" (YStr "false"));
  sw_digest ← check_bool (get "sw_digest" (YStr "false"));
  hw_digest ← check_bool (get "hw_digest" (YStr "false"));
  bkout_type ← of_option KeyError (yget "bkout_type" d);
  bkout_type ← check_bool bkout_type;
  size ← check_int (get "size" (YStr "0"));
  variant ← match get "variant" (YStr "Unbuffered") with
            | YStr v => if bool_decide (v ∈ ["Unbuffered"; "Buffered"; "LifeCycle"]) then Ok v else Err RuntimeError
            | _ => Err RuntimeError
            end;
  key_sel ← match get "key_sel" (YStr "NoKey") with
            | YStr k => if bool_decide (k ∈ "NoKey" :: key_names) then Ok k else Err RuntimeError
            | _ => Err RuntimeError
            end;
  if secret && bool_decide (key_sel = "NoKey") then Err RuntimeError
  else
    write_lock ← as_text (get "write_lock" (YStr "none"));
    if negb (bool_decide (lower write_lock ∈ lock_values)) then Err RuntimeError
    else
      read_lock ← as_text (get "read_lock" (YStr "none"));
      if negb (bool_decide (lower read_lock ∈ lock_values)) then Err RuntimeError
      else if sw_digest && hw_digest then Err RuntimeError
      else if bool_decide (variant = "Unbuffered") && negb sw_digest then Err RuntimeError
      else if (negb sw_digest && negb hw_digest) &&
              (bool_decide (lower write_lock = "digest") || bool_decide (lower read_lock = "digest")) then Err RuntimeError
      else
        off ← check_int (get "offset" (YInt offset));
        if negb (off mod 8 =? 0) then Err RuntimeError
        else if negb (size mod 8 =? 0) then Err RuntimeError
        else
          items ← of_option KeyError (yget "items" d);
          py_iter items;;
          Ok (get "name" (YStr "unknown_name"),
              (fun name => mkOtpPart name variant (get "offset" (YInt offset)) size secret sw_digest hw_digest bkout_type
                             write_lock read_lock key_sel (get "lock" (YBool false)) []),
              items).

Definition _validate_item (item : yaml) (offset : Z) : M rng (yaml * (string → OtpItem)) :=
  d ← lift (as_dict item);
  size ← lift (check_int (setdefault "size" (YStr "0") d));
  inv_default ← random_or_hexvalue rnd d "inv_default" (size * 8);
  mret (setdefault "name" (YStr "unknown_name") d,
        fun name => mkOtpItem name size (setdefault "isdigest" (YStr "false") d) (setdefault "offset" (YInt offset) d)
                      inv_default (yget "value" d)).

(** The loop over the items: the offset and the items so far.  The dictionary of the names has the
    positions in the list. *)
Definition add_item (st : Z * list OtpItem) (item : yaml) : M rng (Z * list OtpItem) :=
  let '(offset, items) := st in
  '(name, mk) ← _validate_item item offset;
  name ← lift (read_name name);
  if bool_decide (name ∈ oi_name <$> items) then raise RuntimeError
  else mret (offset + oi_size (mk name), items ++ [mk name]).

(** Not enough space: the message subtracts the offset of the partition. *)
Definition no_space {A} (part : OtpPart) : res A := as_int (op_offset part);; Err RuntimeError.

Definition add_digest (part : OtpPart) (st : Z * list OtpItem) : M rng (Z * list OtpItem) :=
  let '(offset, items) := st in
  let digest_name := String.append (op_name part) DIGEST_SUFFIX in
  if bool_decide (digest_name ∈ oi_name <$> items) then raise RuntimeError
  else
    part_offset ← lift (check_int (op_offset part));
    let canonical_offset := part_offset + op_size part - DIGEST_SIZE in
    inv_default ← getrandbits rnd (DIGEST_SIZE * 8);
    if canonical_offset <? offset then lift (no_space part)
    else
      mret (canonical_offset + DIGEST_SIZE,
            items ++ [mkOtpItem digest_name DIGEST_SIZE (YStr "True") (YInt canonical_offset) inv_default None]).

(** Names to positions. *)
Definition item_dict (items : list OtpItem) : dict nat := imap (fun k i => (oi_name i, k)) items.

Definition key_names (keys : list (yaml * Z)) : list string :=
  omap (fun k => match k.1 with YStr s => Some s | _ => None end) keys.

Definition add_part (key_names : list string) (st : Z * list OtpPart) (part : yaml) : M rng (Z * list OtpPart) :=
  let '(offset, parts) := st in
  '(name, mk, items) ← lift (_validate_part part offset key_names);
  name ← lift (read_name name);
  if bool_decide (name ∈ op_name <$> parts) then raise RuntimeError
  else
    match items with
    | YList items =>
        let p := mk name in
        st ← foldS add_item (offset, []) items;
        '(offset, items) ← (if op_sw_digest p || op_hw_digest p then add_digest p st else mret st);
        part_offset ← lift (check_int (op_offset p));
        if part_offset + op_size p <? offset then lift (no_space p)
        else mret (part_offset + op_size p, parts ++ [set_items items p])
    | _ => raise RuntimeError
    end.

Definition part_dict (parts : list OtpPart) : dict (nat * dict nat) := imap (fun j p => (op_name p, (j, item_dict (op_items p)))) parts.

Definition _validate_mmap (otp : Otp) (scr : Scrambling) (partitions : yaml) : M rng (list OtpPart) :=
  match partitions with
  | YList l =>
      '(offset, parts) ← foldS (add_part (key_names (sc_keys scr))) (0, []) l;
      if otp_size otp <? offset then raise RuntimeError else mret parts
  | _ => raise RuntimeError
  end.
End random.

Record OtpMemMap := mkOtpMemMap {
  om_seed : Z;
  om_otp : Otp;
  om_scrambling : Scrambling;
  om_partitions : list OtpPart;
  om_part_dict : dict (nat * dict nat);
}.

Definition init (rnd : Random) (y : yaml) : M rng OtpMemMap :=
  config ← lift (as_dict y);
  s ← lift (of_option RuntimeError (yget "seed" config));
  s ← lift (check_int s);
  seed (OTP_SEED_DIVERSIFIER + s);;
  otp ← lift (of_option RuntimeError (yget "otp" config));
  scr ← lift (of_option RuntimeError (yget "scrambling" config));
  partitions ← lift (of_option RuntimeError (yget "partitions" config));
  otp ← lift (_validate_otp otp);
  scr ← _validate_scrambling rnd scr;
  parts ← _validate_mmap rnd otp scr partitions;
  mret (mkOtpMemMap s otp scr parts (part_dict parts)).

(** The partition with its position. *)
Definition get_part (part_name : string) (m : OtpMemMap) : res (option (nat * OtpPart)) :=
  match dget part_name (om_part_dict m) with
  | None => Ok None
  | Some (j, _) => p ← of_option IndexError (om_partitions m !! j); Ok (Some (j, p))
  end.

(** The item with the positions of its partition and itself. *)
Definition get_item (part_name item_name : string) (m : OtpMemMap) : res (option (nat * nat * OtpItem)) :=
  match dget part_name (om_part_dict m) with
  | None => Ok None
  | Some (j, items) =>
      match dget item_name items with
      | None => Ok None
      | Some k =>
          p ← of_option IndexError (om_partitions m !! j);
          i ← of_option IndexError (op_items p !! k);
          Ok (Some (j, k, i))
      end
  end.
End OtpMemMap.
