(* ===== verification/OtpMapFacts.v ===== *)
(** The layout of an OTP memory map that the constructor accepts. *)

From S2P Require Import Prelude BitLoops PyStr PyList Yaml OtpCommon LcStEncFacts LcProps OtpMemMap.

#[local] Open Scope string_scope.
#[local] Open Scope stdpp_scope.
#[local] Open Scope list_scope.
#[local] Open Scope Z_scope.

Import Common OtpMemMap.

Lemma foldS_inv {S A B} (f : B → A → M S B) (I : B → Prop) l acc g acc' g' :
  (∀ x acc g acc' g', x ∈ l → I acc → f acc x g = Ok (acc', g') → I acc') → I acc → foldS f acc l g = Ok (acc', g') → I acc'.
Proof.
  revert acc g. induction l as [| x l IH]; intros acc g Hf HI H; cbn [foldS] in H; [by injection H as <- _ |].
  apply M_bind_inv in H as (acc1 & g1 & H1 & H2). apply (IH acc1 g1); [| | done].
  - intros y b h b' h' Hy. apply Hf. by right.
  - eapply (Hf x); [by left | done | done].
Qed.

(** ** Layouts *)

(** Items one after the other. *)
Fixpoint consecutive (lo : Z) (items : list OtpItem) (hi : Z) : Prop :=
  match items with
  | [] => lo = hi
  | i :: items => oi_offset i = YInt lo ∧ consecutive (lo + oi_size i) items hi
  end.

Definition has_digest (p : OtpPart) : bool := op_sw_digest p || op_hw_digest p.

Record part_layout (o : Z) (p : OtpPart) : Prop := {
  pl_offset : op_offset p = YInt o;
  pl_align : (8 | o) ∧ (8 | op_size p);
  pl_names : NoDup (oi_name <$> op_items p);
  pl_items : ∃ its mid, consecutive o its mid ∧
    if has_digest p then
      mid ≤ o + op_size p - 8 ∧
      ∃ d, op_items p = its ++ [d] ∧ oi_name d = String.append (op_name p) DIGEST_SUFFIX ∧
        oi_offset d = YInt (o + op_size p - 8) ∧ oi_size d = 8
    else op_items p = its ∧ mid ≤ o + op_size p;
}.

(** Partitions one after the other. *)
Fixpoint parts_layout (o : Z) (parts : list OtpPart) (hi : Z) : Prop :=
  match parts with
  | [] => o = hi
  | p :: parts => part_layout o p ∧ parts_layout (o + op_size p) parts hi
  end.

Lemma consecutive_snoc lo items i hi : consecutive lo items hi → oi_offset i = YInt hi → consecutive lo (items ++ [i]) (hi + oi_size i).
Proof. revert lo. induction items as [| j items IH]; intros lo; cbn; [by intros -> -> | intros [? ?] ?; split; [done | by apply IH]]. Qed.

Lemma parts_layout_snoc o parts p hi : parts_layout o parts hi → part_layout hi p → parts_layout o (parts ++ [p]) (hi + op_size p).
Proof. revert o. induction parts as [| q parts IH]; intros o; cbn; [by intros -> ? | intros [? ?] ?; split; [done | by apply IH]]. Qed.

(** ** Descriptions without explicit offsets *)

Definition plain_item (y : yaml) : Prop := ∀ d, y = YDict d → yget "offset" d = None.
Definition plain_part (y : yaml) : Prop :=
  ∀ d, y = YDict d → yget "offset" d = None ∧ ∀ its, yget "items" d = Some (YList its) → Forall plain_item its.
Definition plain (y : yaml) : Prop := ∀ d l, y = YDict d → yget "partitions" d = Some (YList l) → Forall plain_part l.

Section random.
Context (rnd : Random).

Lemma as_dict_inv y d : as_dict y = Ok d → y = YDict d.
Proof. destruct y; cbn; try done. by intros [= ->]. Qed.

Lemma add_item_inv lo st y g st' g' : plain_item y → consecutive lo st.2 st.1 ∧ NoDup (oi_name <$> st.2) →
  add_item rnd st y g = Ok (st', g') → consecutive lo st'.2 st'.1 ∧ NoDup (oi_name <$> st'.2).
Proof.
  intros Hp [Hc Hn] H. destruct st as [offset items]. cbn in Hc, Hn. unfold add_item in H. apply M_bind_inv in H as ([name mk] & g1 & H1 & H).
  unfold _validate_item in H1. apply M_bind_inv in H1 as (d & ? & H1%lift_inv & H2). destruct H1 as [H1%as_dict_inv ->].
  apply M_bind_inv in H2 as (size & ? & _ & H2). apply M_bind_inv in H2 as (inv & ? & _ & [= <- <- _]).
  apply M_bind_inv in H as (nm & ? & _ & H). case_bool_decide as Hin; [done |]. injection H as <- _. cbn. split.
  - apply (consecutive_snoc _ _ (mkOtpItem _ _ _ _ _ _)); [done |]. cbn. unfold setdefault. by rewrite (Hp d H1).
  - rewrite fmap_app. apply NoDup_app. split_and!; [done | | apply NoDup_singleton]. intros z Hz ->%list_elem_of_singleton. done.
Qed.

(** The checks before a result were all passed. *)
Ltac passes H := repeat match type of H with (if ?b then Err _ else _) = Ok _ => destruct b; [done |] end.

Lemma validate_part_inv y offset names name mk items : _validate_part y offset names = Ok (name, mk, items) →
  ∃ d, y = YDict d ∧ yget "items" d = Some items ∧ ∀ n, let p := mk n in
    op_name p = n ∧ op_offset p = setdefault "offset" (YInt offset) d ∧ op_items p = [] ∧ (8 | op_size p) ∧
    ∃ off, check_int (op_offset p) = Ok off ∧ (8 | off).
Proof.
  unfold _validate_part. intros H. apply bind_Ok_inv in H as (d & Hd%as_dict_inv & H). exists d. split; [done |]. cbv zeta in H.
  repeat (apply bind_Ok_inv in H as (? & _ & H)). passes H. apply bind_Ok_inv in H as (? & _ & H). passes H.
  apply bind_Ok_inv in H as (? & _ & H). passes H.
  apply bind_Ok_inv in H as (off & Hoff & H). destruct (negb (off mod 8 =? 0)) eqn:E1; [done |].
  match type of H with (if ?b then _ else _) = _ => destruct b eqn:E2; [done |] end.
  apply bind_Ok_inv in H as (its & Hits & H). apply bind_Ok_inv in H as (? & _ & H). injection H as <- <- <-.
  apply negb_false_iff, Z.eqb_eq in E1, E2. split; [by apply of_option_inv in Hits |]. intros n. cbn. split_and!; try done.
  - by apply Z.mod_divide.
  - exists off. split; [done | by apply Z.mod_divide].
Qed.
End random.

Section random2.
Context (rnd : Random).

Lemma plain_offset y d offset : plain_part y → y = YDict d → setdefault "offset" (YInt offset) d = YInt offset.
Proof. intros Hp Hy. unfold setdefault. by rewrite (proj1 (Hp d Hy)). Qed.

Lemma add_items_inv o l g st g' : Forall plain_item l → foldS (add_item rnd) (o, []) l g = Ok (st, g') →
  consecutive o st.2 st.1 ∧ NoDup (oi_name <$> st.2).
Proof.
  intros Hl H. eapply (foldS_inv _ (fun st => consecutive o st.2 st.1 ∧ NoDup (oi_name <$> st.2))); [| | done].
  - intros y acc h acc' h' Hy. apply add_item_inv. by apply (proj1 (Forall_forall _ _) Hl).
  - split; [done | constructor].
Qed.

Lemma no_space_Ok {A} p (a : A) : no_space p ≠ Ok a.
Proof. unfold no_space. by destruct (as_int (op_offset p)). Qed.

Lemma add_part_inv names offset parts y g st' g' : plain_part y → add_part rnd names (offset, parts) y g = Ok (st', g') →
  ∃ p, part_layout offset p ∧ op_name p ∉ op_name <$> parts ∧ st' = (offset + op_size p, parts ++ [p]).
Proof.
  intros Hy H. unfold add_part in H. apply M_bind_inv in H as ([[nm mk] itsy] & g1 & H1%lift_inv & H). destruct H1 as [H1 ->].
  apply validate_part_inv in H1 as (d & -> & Hits & Hmk). apply M_bind_inv in H as (name & g2 & _ & H).
  destruct (bool_decide _) eqn:Enm; [done |]. apply bool_decide_eq_false in Enm. destruct itsy as [| | | | its | |]; try done.
  specialize (Hmk name). cbv zeta in Hmk. set (p := mk name) in *. destruct Hmk as (Hn & Ho & _ & Hs8 & off & Hoff & H8).
  rewrite (plain_offset _ d offset Hy eq_refl) in Ho. rewrite Ho in Hoff. injection Hoff as <-.
  apply M_bind_inv in H as ([mid items] & g3 & Hfold & H). apply add_items_inv in Hfold as [Hc Hnd]; [| by apply (Hy d eq_refl)]. cbn in Hc, Hnd.
  apply M_bind_inv in H as ([hi items'] & g4 & Hdig & H). apply M_bind_inv in H as (po & g5 & Hpo%lift_inv & H). destruct Hpo as [Hpo ->].
  rewrite Ho in Hpo. injection Hpo as <-. destruct (Z.ltb_spec (offset + op_size p) hi) as [| Hhi]; [by apply lift_inv in H as [H%no_space_Ok _] |].
  injection H as <- _. exists (set_items items' p). split; [| split; [change (op_name p ∉ op_name <$> parts); by rewrite Hn | done]].
  change (op_sw_digest p || op_hw_digest p) with (has_digest p) in Hdig. split; cbn [op_offset op_size op_items set_items op_name]; [done | done | |].
  - destruct (has_digest p); [| by injection Hdig as <- <- _]. unfold add_digest in Hdig. case_bool_decide as Hin; [done |].
    apply M_bind_inv in Hdig as (? & ? & _ & Hdig). apply M_bind_inv in Hdig as (? & ? & _ & Hdig).
    destruct (_ <? _); [by apply lift_inv in Hdig as [Hdig%no_space_Ok _] |]. injection Hdig as _ <- _.
    rewrite fmap_app. apply NoDup_app. split_and!; [done | | apply NoDup_singleton]. intros z Hz ->%list_elem_of_singleton. done.
  - change (has_digest (set_items items' p)) with (has_digest p). exists items, mid. split; [done |].
    destruct (has_digest p); [| injection Hdig as <- <- _; done]. unfold add_digest in Hdig. case_bool_decide as Hin; [done |].
    apply M_bind_inv in Hdig as (po & ? & Hpo%lift_inv & Hdig). destruct Hpo as [Hpo ->]. rewrite Ho in Hpo. injection Hpo as <-.
    apply M_bind_inv in Hdig as (inv & ? & _ & Hdig).
    destruct (Z.ltb_spec (offset + op_size p - DIGEST_SIZE) mid); [by apply lift_inv in Hdig as [Hdig%no_space_Ok _] |].
    injection Hdig as <- <- _. unfold DIGEST_SIZE in *. split; [lia |]. eexists. split_and!; done.
Qed.

(** An accepted map without explicit offsets. *)
Definition map_layout (m : OtpMemMap) : Prop :=
  ∃ hi, parts_layout 0 (om_partitions m) hi ∧ hi ≤ otp_size (om_otp m) ∧ NoDup (op_name <$> om_partitions m) ∧
    om_part_dict m = part_dict (om_partitions m).

Lemma init_layout y g m g' : OtpMemMap.init rnd y g = Ok (m, g') → plain y → map_layout m.
Proof.
  intros H Hp. unfold OtpMemMap.init in H. apply M_bind_inv in H as (config & ? & Hcfg%lift_inv & H). destruct Hcfg as [->%as_dict_inv ->].
  do 5 apply M_bind_inv in H as (? & ? & _ & H). apply M_bind_inv in H as (partitions & ? & Hparts%lift_inv & H). destruct Hparts as [Hparts%of_option_inv ->].
  apply M_bind_inv in H as (otp & ? & _ & H). apply M_bind_inv in H as (scr & ? & _ & H). apply M_bind_inv in H as (parts & ? & Hv & H).
  injection H as <- _. unfold map_layout. cbn. unfold _validate_mmap in Hv. destruct partitions as [| | | | l | |]; try done.
  apply M_bind_inv in Hv as ([hi parts'] & ? & Hfold & Hv). destruct (Z.ltb_spec (otp_size otp) hi); [done |]. injection Hv as <- _.
  pose proof (Hp _ l eq_refl Hparts) as Hl.
  assert (HI : parts_layout 0 (hi, parts').2 (hi, parts').1 ∧ NoDup (op_name <$> (hi, parts').2)).
  { eapply (foldS_inv _ (fun st => parts_layout 0 st.2 st.1 ∧ NoDup (op_name <$> st.2))); [| | exact Hfold]; [| split; [done | constructor]].
    intros z [o ps] h acc' h' Hz [Hlay Hnd] Hadd. cbn in Hlay, Hnd.
    apply add_part_inv in Hadd as (p & Hpl & Hfresh & ->); [| by apply (proj1 (Forall_forall _ _) Hl)]. cbn. split; [by apply parts_layout_snoc |].
    rewrite fmap_app. apply NoDup_app. split_and!; [done | | apply NoDup_singleton]. intros n Hn ->%list_elem_of_singleton. done. }
  cbn in HI. destruct HI. exists hi. done.
Qed.
End random2.

(** ** Looking up *)

Lemma dget_imap_from {A B} (f : A → string) (h : nat → A → B) (l : list A) n j x : NoDup (f <$> l) → l !! j = Some x →
  dget (f x) (imap (fun k a => (f a, h (n + k)%nat a)) l) = Some (h (n + j)%nat x).
Proof.
  revert n j. induction l as [| a l IH]; intros n j Hnd Hj; [done |]. cbn in Hnd. apply NoDup_cons in Hnd as [Ha Hnd]. cbn [imap dget].
  destruct j as [| j].
  - injection Hj as ->. rewrite decide_True by done. done.
  - cbn in Hj. rewrite decide_False. 2: { intros E. apply Ha. rewrite <- E. apply list_elem_of_fmap_2. by eapply list_elem_of_lookup_2. }
    rewrite (imap_ext _ (fun k a => (f a, h (S n + k)%nat a))) by (intros k b _; cbn; do 2 f_equal; lia).
    rewrite (IH (S n) j Hnd Hj). do 2 f_equal. lia.
Qed.

Lemma dget_imap {A B} (f : A → string) (h : nat → A → B) (l : list A) j x : NoDup (f <$> l) → l !! j = Some x →
  dget (f x) (imap (fun k a => (f a, h k a)) l) = Some (h j x).
Proof. apply (dget_imap_from f h l 0). Qed.

Lemma dget_imap_None {A B} (f : A → string) (h : nat → A → B) (l : list A) name : name ∉ f <$> l → dget name (imap (fun k a => (f a, h k a)) l) = None.
Proof.
  intros Hn. apply dget_None. intros ([k v] & E & (i & a & [= -> ->] & Ha)%elem_of_lookup_imap)%list_elem_of_fmap. cbn in E. subst name.
  apply Hn, list_elem_of_fmap_2. by eapply list_elem_of_lookup_2.
Qed.

Lemma get_part_ok m name : map_layout m →
  OtpMemMap.get_part name m = Ok (list_find (fun p => op_name p = name) (om_partitions m)).
Proof.
  intros (hi & _ & _ & Hnd & Hd). unfold OtpMemMap.get_part. rewrite Hd. unfold part_dict.
  destruct (list_find _ _) as [[j p] |] eqn:E.
  - apply list_find_Some in E as (Hj & <- & _).
    rewrite (dget_imap op_name (fun j p => (j, item_dict (op_items p))) _ j p Hnd Hj). by rewrite Hj.
  - rewrite (dget_imap_None op_name (fun j p => (j, item_dict (op_items p)))); [done |]. intros (p & -> & Hp)%list_elem_of_fmap.
    apply list_find_None in E. apply (proj1 (Forall_forall _ _) E p Hp). done.
Qed.

Lemma parts_layout_elem o parts hi p : parts_layout o parts hi → p ∈ parts → ∃ o', part_layout o' p.
Proof.
  revert o. induction parts as [| q parts IH]; intros o H Hp; [by apply elem_of_nil in Hp |]. destruct H as [Hq H].
  apply elem_of_cons in Hp as [-> | Hp]; [by exists o | by apply (IH _ H)].
Qed.

Lemma get_item_ok m pname iname : map_layout m →
  OtpMemMap.get_item pname iname m = Ok (
    jp ← list_find (fun p => op_name p = pname) (om_partitions m);
    ki ← list_find (fun i => oi_name i = iname) (op_items jp.2);
    Some (jp.1, ki.1, ki.2)).
Proof.
  intros (hi & Hlay & _ & Hnd & Hd). unfold OtpMemMap.get_item. rewrite Hd. unfold part_dict.
  destruct (list_find (fun p => op_name p = pname) _) as [[j p] |] eqn:E; cbn [mbind option_bind].
  - apply list_find_Some in E as (Hj & <- & _).
    rewrite (dget_imap op_name (fun j p => (j, item_dict (op_items p))) _ j p Hnd Hj). cbn [fst snd].
    destruct (parts_layout_elem _ _ _ p Hlay ltac:(by eapply list_elem_of_lookup_2)) as (o' & Hp). unfold item_dict.
    destruct (list_find (fun i => oi_name i = iname) _) as [[k i] |] eqn:E'; cbn [mbind option_bind].
    + apply list_find_Some in E' as (Hk & <- & _). rewrite (dget_imap oi_name (fun k _ => k) _ k i (pl_names _ _ Hp) Hk).
      rewrite Hj. cbn [of_option mbind res_bind]. by rewrite Hk.
    + rewrite (dget_imap_None oi_name (fun k _ => k)); [done |]. intros (i & -> & Hi)%list_elem_of_fmap.
      apply list_find_None in E'. by apply (proj1 (Forall_forall _ _) E' i Hi).
  - rewrite (dget_imap_None op_name (fun j p => (j, item_dict (op_items p)))); [done |]. intros (p & -> & Hp)%list_elem_of_fmap.
    apply list_find_None in E. by apply (proj1 (Forall_forall _ _) E p Hp).
Qed.

(** ** Ranges *)

Definition size_ok (i : OtpItem) : Prop := 0 ≤ oi_size i.

(** The bytes of an item, in a partition that starts at [o]. *)
Definition in_item (i : OtpItem) (a : Z) : Prop := ∃ o, oi_offset i = YInt o ∧ o ≤ a < o + oi_size i.

Lemma consecutive_bounds lo items hi : Forall size_ok items → consecutive lo items hi → lo ≤ hi.
Proof.
  intros H. revert lo. induction H as [| i items Hi H IH]; intros lo; cbn; [lia |]. intros [_ Hc]. unfold size_ok in Hi. specialize (IH _ Hc). lia.
Qed.

(** Items in order, with gaps, between two addresses. *)
Fixpoint ordered (lo : Z) (items : list OtpItem) (hi : Z) : Prop :=
  match items with
  | [] => lo ≤ hi
  | i :: items => ∃ o, oi_offset i = YInt o ∧ lo ≤ o ∧ 0 ≤ oi_size i ∧ ordered (o + oi_size i) items hi
  end.

Lemma consecutive_ordered lo items mid tail hi : Forall size_ok items → consecutive lo items mid → ordered mid tail hi → ordered lo (items ++ tail) hi.
Proof.
  intros H. revert lo. induction H as [| i items Hi H IH]; intros lo; cbn; [by intros -> |]. intros [Ho Hc] Ht.
  exists lo. split_and!; [done | done | done |]. by apply IH.
Qed.

Lemma part_ordered o p : part_layout o p → Forall size_ok (op_items p) → ordered o (op_items p) (o + op_size p).
Proof.
  intros [_ _ _ (its & mid & Hc & H)] Hs. destruct (has_digest p).
  - destruct H as (Hm & d & E & _ & Ho & H8). rewrite E in *. apply Forall_app in Hs as [Hs _]. apply (consecutive_ordered _ _ mid); [done | done |].
    cbn. exists (o + op_size p - 8). rewrite H8. split_and!; [done | lia | lia | lia].
  - destruct H as [E H]. rewrite E in *. rewrite <- (app_nil_r its). by apply (consecutive_ordered _ _ mid).
Qed.

Lemma ordered_le lo items hi : ordered lo items hi → lo ≤ hi.
Proof. revert lo. induction items as [| j items IH]; intros lo; cbn; [done |]. intros (o & _ & ? & ? & H). specialize (IH _ H). lia. Qed.

Lemma ordered_in lo items hi i a : ordered lo items hi → i ∈ items → in_item i a → lo ≤ a < hi.
Proof.
  revert lo. induction items as [| j items IH]; intros lo H Hi Ha; [by apply elem_of_nil in Hi |]. destruct H as (o & Ho & Hlo & Hsz & H).
  apply elem_of_cons in Hi as [-> | Hi].
  - destruct Ha as (o' & Ho' & Ha). rewrite Ho in Ho'. injection Ho' as <-. apply ordered_le in H. lia.
  - specialize (IH _ H Hi Ha). lia.
Qed.

Lemma ordered_disjoint lo items hi k k' i i' a : ordered lo items hi → items !! k = Some i → items !! k' = Some i' → in_item i a → in_item i' a → k = k'.
Proof.
  revert lo k k'. induction items as [| j items IH]; intros lo k k' H Hk Hk' Ha Ha'; [done |]. destruct H as (o & Ho & Hlo & Hsz & H).
  assert (Hlt : ∀ i, in_item i a → i ∈ items → o + oi_size j ≤ a) by (intros z Hz Hin; by apply (ordered_in _ _ _ z a H Hin)).
  assert (Hj : in_item j a → a < o + oi_size j) by (intros (o' & Ho' & ?); rewrite Ho in Ho'; injection Ho' as <-; lia).
  destruct k as [| k], k' as [| k']; [done | | |].
  - injection Hk as ->. specialize (Hlt i' Ha' ltac:(by eapply list_elem_of_lookup_2)). specialize (Hj Ha). lia.
  - injection Hk' as ->. specialize (Hlt i Ha ltac:(by eapply list_elem_of_lookup_2)). specialize (Hj Ha'). lia.
  - f_equal. by apply (IH _ k k' H).
Qed.

(** Partitions whose items have sizes are apart as well. *)
Definition parts_sized (parts : list OtpPart) : Prop := Forall (fun p => Forall size_ok (op_items p)) parts.

Lemma parts_layout_lookup o parts hi j p : parts_layout o parts hi → parts_sized parts → parts !! j = Some p →
  ∃ o', part_layout o' p ∧ o ≤ o' ∧ o' + op_size p ≤ hi.
Proof.
  assert (Hle : ∀ parts o, parts_layout o parts hi → parts_sized parts → o ≤ hi).
  { clear. induction parts as [| p parts IH]; intros o; cbn; [lia |]. intros [Hp Hl] [Hs Hss]%Forall_cons.
    specialize (IH _ Hl Hss). pose proof (ordered_le _ _ _ (part_ordered o p Hp Hs)). lia. }
  revert o j. induction parts as [| q parts IH]; intros o j; cbn; [done |]. intros [Hq Hl] [Hs Hss]%Forall_cons Hj.
  pose proof (ordered_le _ _ _ (part_ordered o q Hq Hs)) as Hqs. destruct j as [| j].
  - injection Hj as ->. exists o. split; [done |]. split; [lia | by eapply Hle].
  - destruct (IH _ _ Hl Hss Hj) as (o' & ? & ? & ?). exists o'. split; [done | lia].
Qed.

Lemma parts_apart o parts hi j j' p p' b b' a : parts_layout o parts hi → parts_sized parts →
  parts !! j = Some p → parts !! j' = Some p' → op_offset p = YInt b → op_offset p' = YInt b' →
  b ≤ a < b + op_size p → b' ≤ a < b' + op_size p' → j' = j.
Proof.
  revert o j j'. induction parts as [| q parts IH]; intros o j j'; cbn; [done |]. intros [Hq Hl] [_ Hss]%Forall_cons Hj Hj' Hb Hb' Ha Ha'.
  assert (Hlater : ∀ j p b, parts !! j = Some p → op_offset p = YInt b → o + op_size q ≤ b).
  { intros i r c Hi Hc. destruct (parts_layout_lookup _ _ _ _ _ Hl Hss Hi) as (o' & Hpl & ? & _). rewrite (pl_offset _ _ Hpl) in Hc. congruence. }
  destruct j as [| j], j' as [| j']; cbn in Hj, Hj'; [done | | |].
  - injection Hj as ->. rewrite (pl_offset _ _ Hq) in Hb. injection Hb as <-. specialize (Hlater _ _ _ Hj' Hb'). lia.
  - injection Hj' as ->. rewrite (pl_offset _ _ Hq) in Hb'. injection Hb' as <-. specialize (Hlater _ _ _ Hj Hb). lia.
  - f_equal. by eapply IH.
Qed.
