(* ===== verification/OtpMemImg.v ===== *)
(** The memory image of the OTP (util/design/lib/OtpMemImg.py): the values of the items are merged into the
    memory map, and the partitions are scrambled, locked and written as the lines of a hex file.  The
    descriptions are dictionaries, and the log is left out. *)

From stdpp Require Import pretty.
From S2P Require Import Prelude PyStr PyList Yaml Present Vmem OtpCommon LcStEnc OtpMemMap.

#[local] Open Scope string_scope.
#[local] Open Scope stdpp_scope.
#[local] Open Scope list_scope.
#[local] Open Scope Z_scope.

Import Common OtpMemMap.

Definition OTP_IMG_SEED_DIVERSIFIER : Z := 1941661965323525198146.

(** ** Lists and values *)

(** [l[i] = v] *)
Definition py_set {A} (l : list A) (i : Z) (v : A) : res (list A) :=
  let j := if i <? 0 then i + Z.of_nat (length l) else i in
  if (j <? 0) || (Z.of_nat (length l) <=? j) then Err IndexError else Ok (<[Z.to_nat j := v]> l).

(** [l[lo:hi] = v] *)
Definition slice_index (len i : Z) : Z := if i <? 0 then Z.max 0 (i + len) else Z.min i len.
Definition slice_assign {A} (l : list A) (lo hi : Z) (v : list A) : list A :=
  let len := Z.of_nat (length l) in
  let lo := slice_index len lo in
  let hi := Z.max lo (slice_index len hi) in
  take (Z.to_nat lo) l ++ v ++ drop (Z.to_nat hi) l.

(** [if y:] *)
Definition py_truth (y : yaml) : bool :=
  match y with
  | YNone => false
  | YBool b => b
  | YInt z => truthy z
  | YStr s => negb (String.eqb s "")
  | YList l => negb (bool_decide (length l = 0%nat))
  | YDict d => negb (bool_decide (length d = 0%nat))
  | YOther => true
  end.

(** [str(y)]; the text of a container is not modelled. *)
Definition py_str (y : yaml) : res string :=
  match y with
  | YNone => Ok "None"
  | YBool b => Ok (if b then "True" else "False")
  | YInt z => Ok (pretty z)
  | YStr s => Ok s
  | _ => Err RuntimeError
  end.

(** The key of a lookup: a list or a dictionary cannot be one, and the keys are strings. *)
Definition lookup_key (y : yaml) : res (option string) :=
  match y with
  | YStr s => Ok (Some s)
  | YList _ | YDict _ => Err TypeError
  | _ => Ok None
  end.

(** [del d[k]] for the keys. *)
Definition without (ks : list string) (d : list (yaml * yaml)) : list (yaml * yaml) :=
  filter (fun kv => yaml_key_allowed ks kv.1 = false) d.

(** ** Scrambling *)

Definition _present_64bit_encrypt (plain key : Z) : res Z :=
  py_assert ((0 <=? plain) && (plain <? 2 ^ 64));;
  py_assert ((0 <=? key) && (key <? 2 ^ 128));;
  cipher ← Present.init key 32 128;
  Present.encrypt plain cipher.

(** The loop of the digest: the state and [last_b64]. *)
Definition digest_step (st : Z * option Z) (b64 : Z) : res (Z * option Z) :=
  let '(state, last_b64) := st in
  match last_b64 with
  | None => Ok (state, Some b64)
  | Some last_b64 =>
      let b128 := last_b64 + (b64 ≪ 64) in
      e ← _present_64bit_encrypt state b128;
      Ok (state .^ e, None)
  end.

Definition _present_64bit_digest (data_blocks : list Z) (iv const : Z) : res Z :=
  data_blocks ← (if Nat.odd (length data_blocks) then b ← py_nth data_blocks (-1); Ok (data_blocks ++ [b]) else Ok data_blocks);
  '(state, last_b64) ← foldM digest_step (iv, None)
    (data_blocks ++ [const .& 0xFFFFFFFFFFFFFFFF; (const ≫ 64) .& 0xFFFFFFFFFFFFFFFF]);
  py_assert (bool_decide (last_b64 = None));;
  Ok state.

(** ** Hex files *)

(** A word with the distinct annotations of its bytes. *)
Definition word_byte (data : list Z) (annotation : list string) (base : Z) (st : Z * list string) (j : Z) : res (Z * list string) :=
  let idx := base + j in
  b ← py_nth data idx;
  ann ← py_nth annotation idx;
  Ok (st.1 + (b ≪ (j * 8)), if bool_decide (ann ∈ st.2) then st.2 else st.2 ++ [ann]).

(** [format(n, '0wx')] *)
Definition format_hex_lower (w n : Z) : string := lower (format_hex w n).

(** The number on a line, and its comment. *)
Definition hexfile_word (sd : secded) (data : list Z) (annotation : list string) (k : Z) : res (Z * string) :=
  let bytes_per_word := data_width sd / 8 in
  '(word, word_ann) ← foldM (word_byte data annotation (k * bytes_per_word)) (0, []) (seqZ 0 bytes_per_word);
  let annotation_str := " // " +:+ format_hex_lower 6 (k * bytes_per_word) +:+ ": " +:+ String.concat ", " word_ann in
  word_bin ← ecc_encode sd (format_bin (data_width sd) word);
  n ← int_base2 word_bin;
  Ok (n, annotation_str).

Definition bytes_per_word_ecc (sd : secded) : Z := (data_width sd + ecc_width sd + 7) / 8.

Definition hexfile_line (sd : secded) (w : Z * string) : string := format_hex_lower (bytes_per_word_ecc sd * 2) w.1 +:+ w.2.

Definition hexfile_header (sd : secded) (num_words : Z) : string :=
  "// OTP memory hexfile with " +:+ pretty num_words +:+ " x " +:+ pretty (bytes_per_word_ecc sd * 8) +:+ "bit layout".

(** The words of the file; dividing by a width of zero raises. *)
Definition hexfile_words (sd : secded) (data : list Z) (annotation : list string) : res (list (Z * string)) :=
  py_assert (data_width sd mod 8 =? 0);;
  py_assert (data_width sd <=? 64);;
  if data_width sd =? 0 then Err ZeroDivisionError
  else mapR (hexfile_word sd data annotation) (seqZ 0 (Z.of_nat (length data) * 8 / data_width sd)).

Definition _to_hexfile_with_ecc (data : list Z) (annotation : list string) (sd : secded) : res (list string) :=
  words ← hexfile_words sd data annotation;
  Ok (hexfile_header sd (Z.of_nat (length data) * 8 / data_width sd) :: (hexfile_line sd <$> words)).

Definition _check_unused_keys (dict_to_check : list (yaml * yaml)) : res () :=
  match dict_to_check with [] => Ok () | _ => Err RuntimeError end.

(** ** The image *)

Record OtpMemImg := mkOtpMemImg { mi_map : OtpMemMap; mi_lc : LcStEnc }.

(** The bytes of a partition, their comments, and whether an item has a value for them. *)
Record part_bytes := mkBytes { by_data : list Z; by_annotation : list string; by_defined : list bool }.

Module OtpMemImg.

Definition update_part (j : nat) (f : OtpPart → OtpPart) (img : OtpMemImg) : OtpMemImg :=
  let m := mi_map img in
  mkOtpMemImg (mkOtpMemMap (om_seed m) (om_otp m) (om_scrambling m) (alter f j (om_partitions m)) (om_part_dict m)) (mi_lc img).

Definition hex_value (v : Z) : yaml := YStr ("0x" +:+ format_hex 0 v).

(** The name of the partition, the items to merge and the image. *)
Definition merge_part_data (part : yaml) (img : OtpMemImg) : res (string * list yaml * OtpMemImg) :=
  part ← as_dict part;
  items ← match setdefault "items" (YList []) part with YList l => Ok l | _ => Err RuntimeError end;
  key ← lookup_key (setdefault "name" (YStr "unknown_name") part);
  name ← of_option RuntimeError key;
  mmap_part ← get_part name (mi_map img);
  '(j, mmap_part) ← of_option RuntimeError mmap_part;
  lock ← check_bool (setdefault "lock" (YStr "false") part);
  if lock && negb (op_hw_digest mmap_part) then Err RuntimeError
  else
    let img := update_part j (set_lock (YBool lock)) img in
    if bool_decide (name = "LIFE_CYCLE") then
      count ← check_int (setdefault "count" (YInt 0) part);
      let state := setdefault "state" (YStr "RAW") part in
      match items with
      | [] =>
          if (lock : bool) then Err RuntimeError
          else
            state_str ← py_str state;
            if (count =? 0) && negb (match state with YStr s => bool_decide (s = "RAW") | _ => false end) then Err RuntimeError
            else
              state ← LcStEnc.encode (mi_lc img) "lc_state" state_str;
              count ← LcStEnc.encode (mi_lc img) "lc_cnt" (pretty count);
              let items := [YDict [(YStr "name", YStr "LC_STATE"); (YStr "value", hex_value state)];
                            YDict [(YStr "name", YStr "LC_TRANSITION_CNT"); (YStr "value", hex_value count)]] in
              _check_unused_keys (without ["state"; "count"; "items"; "name"; "lock"] part);;
              Ok (name, items, img)
      | _ => Err RuntimeError
      end
    else
      _check_unused_keys (without ["items"; "name"; "lock"] part);;
      Ok (name, items, img).

(** [int_hex] reads the value back, so its text matters only in the log; a negative size is not a
    width for a format. *)
Definition merge_item_data (rnd : Random) (part_name : string) (img : OtpMemImg) (item : yaml) : M rng OtpMemImg :=
  d ← lift (as_dict item);
  key ← lift (lookup_key (setdefault "name" (YStr "unknown_name") d));
  name ← lift (of_option RuntimeError key);
  mmap_item ← lift (get_item part_name name (mi_map img));
  '(j, k, mmap_item) ← lift (of_option RuntimeError mmap_item);
  let item_size := oi_size mmap_item in
  value ← random_or_hexvalue rnd d "value" (item_size * 8);
  if item_size <? 0 then raise ValueError
  else
    let img := update_part j (fun p => set_items (alter (set_value value) k (op_items p)) p) img in
    lift (_check_unused_keys (without ["name"; "value"] d));;
    mret img.

Definition merge_part (rnd : Random) (img : OtpMemImg) (part : yaml) : M rng OtpMemImg :=
  '(name, items, img) ← lift (merge_part_data part img);
  foldS (merge_item_data rnd name) img items.

(** The test vector of the smoke test. *)
Definition smoke_test : res () :=
  enc_test ← _present_64bit_encrypt 0x0123456789abcdef 0x0123456789abcdef0123456789abcdef;
  py_assert (enc_test =? 0x0e9d28685e671dd6).

Definition init (rnd : Random) (cshake128 : Z → Z → Z) (fuel : nat) (lc_state_config otp_mmap_config : yaml)
    (img_config : list (yaml * yaml)) : M rng OtpMemImg :=
  m ← OtpMemMap.init rnd otp_mmap_config;
  lc ← LcStEnc.init rnd cshake128 fuel lc_state_config;
  lift smoke_test;;
  if negb (otp_width (om_otp m) * 8 =? data_width (lc_secded (le_config lc))) then raise RuntimeError
  else
    s ← lift (of_option RuntimeError (yget "seed" img_config));
    s ← lift (check_int s);
    seed (OTP_IMG_SEED_DIVERSIFIER + s);;
    partitions ← lift (of_option RuntimeError (yget "partitions" img_config));
    partitions ← lift (py_iter partitions);
    img ← foldS (merge_part rnd) (mkOtpMemImg m lc) partitions;
    lift (_check_unused_keys (without ["seed"; "partitions"] img_config));;
    mret img.

Definition override_data (rnd : Random) (img_config : list (yaml * yaml)) (img : OtpMemImg) : M rng OtpMemImg :=
  partitions ← lift (of_option RuntimeError (yget "partitions" img_config));
  partitions ← lift (match partitions with YList l => Ok l | _ => Err RuntimeError end);
  img ← foldS (merge_part rnd) img partitions;
  lift (of_option KeyError (yget "seed" img_config));;
  lift (_check_unused_keys (without ["seed"; "partitions"] img_config));;
  mret img.

(** ** Streaming out *)

Definition place_byte (part : OtpPart) (item : OtpItem) (st : part_bytes) (k : Z) : res part_bytes :=
  offset ← as_int (oi_offset item);
  part_offset ← as_int (op_offset part);
  let idx := offset - part_offset + k in
  annotation ← py_set (by_annotation st) idx (op_name part +:+ ": " +:+ oi_name item);
  match oi_value item with
  | None => Ok (mkBytes (by_data st) annotation (by_defined st))
  | Some v =>
      v ← as_int v;
      data ← py_set (by_data st) idx ((v ≫ (8 * k)) .& 0xFF);
      d ← py_nth (by_defined st) idx;
      py_assert (negb d);;
      defined ← py_set (by_defined st) idx true;
      Ok (mkBytes data annotation defined)
  end.

Definition place_item (part : OtpPart) (st : part_bytes) (item : OtpItem) : res part_bytes :=
  foldM (place_byte part item) st (seqZ 0 (oi_size item)).

Definition place_items (part : OtpPart) : res part_bytes :=
  let n := Z.to_nat (op_size part) in
  foldM (place_item part) (mkBytes (replicate n 0) (replicate n "unallocated") (replicate n false)) (op_items part).

(** [data_blocks] and [data_block_defined] *)
Definition add_byte (st : list Z * list bool) (kb : nat * (Z * bool)) : list Z * list bool :=
  let '(k, (b, d)) := kb in
  if (k mod 8 =? 0)%nat then (st.1 ++ [b], st.2 ++ [d])
  else (alter (fun x => x + (b ≪ (8 * Z.of_nat (k mod 8)))) (k / 8)%nat st.1, alter (fun x => x || d) (k / 8)%nat st.2).

Definition to_blocks (st : part_bytes) : list Z * list bool :=
  foldl add_byte ([], []) (imap pair (zip (by_data st) (by_defined st))).

Definition key_named (key_sel : string) (k : yaml * Z) : bool :=
  match k.1 with YStr n => bool_decide (n = key_sel) | _ => false end.

Definition scramble_block (key : Z) (bd : Z * bool) : res Z :=
  if bd.2 then _present_64bit_encrypt bd.1 key else Ok bd.1.

Definition scramble (scr : Scrambling) (part : OtpPart) (data_blocks : list Z) (data_block_defined : list bool) : res (list Z) :=
  if op_secret part then
    key ← of_option RuntimeError (List.find (key_named (op_key_sel part)) (sc_keys scr));
    mapR (scramble_block key.2) (zip data_blocks data_block_defined)
  else Ok data_blocks.

Definition lock_digest (scr : Scrambling) (part : OtpPart) (data_blocks : list Z) : res (list Z) :=
  if op_hw_digest part then
    b ← py_nth data_blocks (-1);
    if negb (b =? 0) then Err RuntimeError
    else if py_truth (op_lock part) then
      '(_, iv, const) ← py_nth (sc_digests scr) 0;
      let payload := take (length data_blocks - 1) data_blocks in
      digest ← _present_64bit_digest payload iv const;
      Ok (payload ++ [digest])
    else Ok data_blocks
  else Ok data_blocks.

Definition block_bytes (block : Z) : list Z := (fun k => (block ≫ (8 * k)) .& 0xFF) <$> seqZ 0 8.

Definition streamout_partition (scr : Scrambling) (part : OtpPart) : res (list Z * list string) :=
  py_assert (op_size part mod 8 =? 0);;
  st ← place_items part;
  py_assert (length (by_data st) mod 8 =? 0)%nat;;
  let '(data_blocks, data_block_defined) := to_blocks st in
  data_blocks ← scramble scr part data_blocks data_block_defined;
  data_blocks ← lock_digest scr part data_blocks;
  let data := data_blocks ≫= block_bytes in
  py_assert (Z.of_nat (length data) =? op_size part);;
  Ok (data, by_annotation st).

Definition add_partition (scr : Scrambling) (size : Z) (st : list Z * list string) (part : OtpPart) : res (list Z * list string) :=
  '(part_data, part_annotation) ← streamout_partition scr part;
  idx_low ← as_int (op_offset part);
  py_assert (idx_low <=? size);;
  let idx_high := idx_low + op_size part in
  Ok (slice_assign st.1 idx_low idx_high part_data, slice_assign st.2 idx_low idx_high part_annotation).

(** The whole memory before the check bits are added. *)
Definition stream_bytes (img : OtpMemImg) : res (list Z * list string) :=
  let size := otp_size (om_otp (mi_map img)) in
  '(data, annotation) ← foldM (add_partition (om_scrambling (mi_map img)) size)
    (replicate (Z.to_nat size) 0, replicate (Z.to_nat size) "") (om_partitions (mi_map img));
  py_assert (Z.of_nat (length data) <=? size);;
  py_assert (Z.of_nat (length annotation) <=? size);;
  py_assert (length data =? length annotation)%nat;;
  Ok (data, annotation).

Definition streamout_hexfile (img : OtpMemImg) : res (list string) :=
  '(data, annotation) ← stream_bytes img;
  _to_hexfile_with_ecc data annotation (lc_secded (le_config (mi_lc img))).
End OtpMemImg.
