(* ===== verification/OtpProps.v ===== *)
(** The layout of the OTP memory map, and the image that is streamed out of it. *)

From S2P Require Import Prelude BitLoops PyList PyStr Yaml Present Vmem OtpCommon LcStEncFacts LcStEnc LcProps OtpMemMap OtpMapFacts OtpMemImg.

#[local] Open Scope string_scope.
#[local] Open Scope stdpp_scope.
#[local] Open Scope list_scope.
#[local] Open Scope Z_scope.

Import Common OtpMemMap OtpMemImg.

(** ** Placing the items *)

(** The byte that an item with a value has at an address. *)
Definition item_byte (i : OtpItem) (a : Z) : option Z :=
  match oi_offset i, oi_value i with
  | YInt o, Some (YInt v) => if (o <=? a) && (a <? o + oi_size i) then Some ((v ≫ (8 * (a - o))) .& 0xFF) else None
  | _, _ => None
  end.

(** The byte of the last item that has one. *)
Definition byte_of (items : list OtpItem) (a : Z) : option Z :=
  foldl (fun acc i => match item_byte i a with Some b => Some b | None => acc end) None items.

(** Values are absent or integers. *)
Definition value_ok (i : OtpItem) : Prop := oi_value i = None ∨ ∃ v, oi_value i = Some (YInt v).

Lemma item_byte_bits i a b : item_byte i a = Some b → in_bits 8 b.
Proof.
  unfold item_byte. repeat case_match; try done. intros [= <-]. exact (in_bits_mask _ 8 ltac:(lia)).
Qed.

Lemma byte_of_snoc items i a : byte_of (items ++ [i]) a = match item_byte i a with Some b => Some b | None => byte_of items a end.
Proof. unfold byte_of. by rewrite foldl_snoc. Qed.

Lemma byte_of_Some items a b : byte_of items a = Some b → ∃ i, i ∈ items ∧ item_byte i a = Some b.
Proof.
  induction items as [| i items IH] using rev_ind; [done |]. rewrite byte_of_snoc. destruct (item_byte i a) eqn:E.
  - intros [= <-]. exists i. split; [| done]. apply elem_of_app. right. by left.
  - intros (j & Hj & ?)%IH. exists j. split; [| done]. apply elem_of_app. by left.
Qed.

Lemma byte_of_bits items a : in_bits 8 (default 0 (byte_of items a)).
Proof. destruct (byte_of items a) as [b |] eqn:E; cbn; [| done]. apply byte_of_Some in E as (i & _ & E). by eapply item_byte_bits. Qed.

Lemma item_byte_in i a b : item_byte i a = Some b → in_item i a.
Proof.
  unfold item_byte, in_item. destruct (oi_offset i) as [| | o | | | |]; try done. destruct (oi_value i) as [[] |]; try done.
  intros H. exists o. split; [done |]. destruct (_ && _) eqn:E in H; [| done]. apply andb_true_iff in E as [?%Z.leb_le ?%Z.ltb_lt]. lia.
Qed.

Section place.
Context (part : OtpPart) (po n : Z) (Hpo : op_offset part = YInt po) (Hn : 0 ≤ n).

(** The bytes that are placed, by index. *)
Record holds (st : part_bytes) (F : Z → option Z) : Prop := {
  ho_data : by_data st = (fun j => default 0 (F j)) <$> seqZ 0 n;
  ho_defined : by_defined st = (fun j => bool_decide (is_Some (F j))) <$> seqZ 0 n;
  ho_annotation : Z.of_nat (length (by_annotation st)) = n;
}.

Lemma py_set_in {A} (l : list A) i v : 0 ≤ i < Z.of_nat (length l) → py_set l i v = Ok (<[Z.to_nat i := v]> l).
Proof. intros Hi. unfold py_set. by zbool. Qed.

Lemma insert_fmap {A} (G G' : Z → A) i v : 0 ≤ i < n → G' i = v → (∀ j, j ≠ i → G' j = G j) →
  <[Z.to_nat i := v]> (G <$> seqZ 0 n) = G' <$> seqZ 0 n.
Proof.
  intros Hi Hv HG. apply list_eq. intros k. destruct (decide (k = Z.to_nat i)) as [-> | Hk].
  - rewrite list_lookup_insert_eq by (rewrite length_fmap, length_seqZ; lia). rewrite list_lookup_fmap, (lookup_seqZ_lt 0 n) by lia. cbn.
    rewrite <- Hv. do 2 f_equal. lia.
  - rewrite list_lookup_insert_ne, !list_lookup_fmap by done. destruct (seqZ 0 n !! k) as [j |] eqn:E; [| done]. cbn.
    apply lookup_seqZ in E as [-> _]. rewrite HG; [done |]. lia.
Qed.

Definition update (F : Z → option Z) (idx b : Z) : Z → option Z := fun j => if decide (j = idx) then Some b else F j.

Lemma holds_ext st F F' : (∀ j, 0 ≤ j < n → F j = F' j) → holds st F → holds st F'.
Proof.
  intros HF [Hd Hf Ha]. constructor; [rewrite Hd | rewrite Hf | done]; apply list_fmap_ext; intros i x [-> Hx]%lookup_seqZ; by rewrite HF by lia.
Qed.

Lemma place_byte_ok item o st F k : oi_offset item = YInt o → value_ok item → 0 ≤ o - po + k < n → F (o - po + k) = None → holds st F →
  ∃ st', place_byte part item st k = Ok st' ∧
    holds st' (match oi_value item with Some (YInt v) => update F (o - po + k) ((v ≫ (8 * k)) .& 0xFF) | _ => F end).
Proof.
  intros Ho Hv Hk HF [Hd Hdef Ha]. unfold place_byte. rewrite Ho, Hpo. cbn [as_int mbind res_bind].
  rewrite (py_set_in (by_annotation st)) by lia. cbn [mbind res_bind]. set (idx := o - po + k) in *.
  destruct Hv as [-> | (v & ->)]; cbn [as_int mbind res_bind]; [eexists; split; [done |]; constructor; cbn; [done | done | by rewrite length_insert] |].
  assert (Hlen : length (seqZ 0 n) = Z.to_nat n) by apply length_seqZ.
  rewrite (py_set_in (by_data st)) by (rewrite Hd, length_fmap; lia). cbn [mbind res_bind].
  assert (Hnth : py_nth (by_defined st) idx = Ok false).
  { apply py_nth_pos; [lia |]. rewrite Hdef, list_lookup_fmap, (lookup_seqZ_lt 0 n) by lia. cbn. by rewrite Z.add_0_l, Z2Nat.id, HF by lia. }
  rewrite Hnth. cbn [mbind res_bind negb py_assert]. rewrite py_set_in by (rewrite Hdef, length_fmap; lia). cbn [mbind res_bind].
  eexists. split; [done |]. constructor; cbn; [| | by rewrite length_insert].
  - rewrite Hd. apply insert_fmap; [done | unfold update; by rewrite decide_True | intros j Hj; unfold update; by rewrite decide_False].
  - rewrite Hdef. apply insert_fmap; [done | unfold update; by rewrite decide_True by done | intros j Hj; unfold update; by rewrite decide_False].
Qed.

Lemma place_item_ok item o st F : oi_offset item = YInt o → value_ok item → size_ok item → 0 ≤ o - po → o - po + oi_size item ≤ n →
  (∀ j, o - po ≤ j → F j = None) → holds st F →
  ∃ st', place_item part st item = Ok st' ∧ holds st' (fun j => match item_byte item (po + j) with Some b => Some b | None => F j end).
Proof.
  intros Ho Hv Hs Hlo Hhi HF Hst. unfold size_ok in Hs. unfold place_item. rewrite <- (Z2Nat.id (oi_size item)) by done.
  set (G (m : Z) j := match oi_value item with
                      | Some (YInt v) => if (o - po <=? j) && (j <? o - po + m) then Some ((v ≫ (8 * (j - (o - po)))) .& 0xFF) else F j
                      | _ => F j end).
  enough (∀ m : nat, Z.of_nat m ≤ oi_size item → ∃ st', foldM (place_byte part item) st (seqZ 0 (Z.of_nat m)) = Ok st' ∧ holds st' (G (Z.of_nat m))) as H.
  { destruct (H (Z.to_nat (oi_size item))) as (st' & E & Hst'); [lia |]. exists st'. split; [done |]. revert Hst'. apply holds_ext. intros j Hj.
    rewrite Z2Nat.id by done. unfold G, item_byte. rewrite Ho. destruct Hv as [-> | (v & ->)]; [done |].
    replace (o <=? po + j) with (o - po <=? j) by (apply eq_true_iff_eq; rewrite !Z.leb_le; lia).
    replace (po + j <? o + oi_size item) with (j <? o - po + oi_size item) by (apply eq_true_iff_eq; rewrite !Z.ltb_lt; lia).
    replace (po + j - o) with (j - (o - po)) by lia. by destruct (_ && _). }
  induction m as [| m IH]; intros Hm.
  - exists st. split; [done |]. revert Hst. apply holds_ext. intros j Hj. unfold G. repeat case_match; try done.
    match goal with H : _ && _ = true |- _ => apply andb_true_iff in H as [?%Z.leb_le ?%Z.ltb_lt] end. lia.
  - destruct IH as (st1 & E1 & H1); [lia |]. rewrite seqZ_S, foldM_app, E1. cbn [mbind res_bind foldM].
    destruct (place_byte_ok item o st1 (G (Z.of_nat m)) (0 + Z.of_nat m)) as (st2 & E2 & H2); [done | done | lia | | done |].
    { unfold G. rewrite (HF (o - po + (0 + Z.of_nat m))) by lia. repeat case_match; try done.
      match goal with H : _ && _ = true |- _ => apply andb_true_iff in H as [?%Z.leb_le ?%Z.ltb_lt] end. lia. }
    exists st2. split; [by rewrite E2 |]. revert H2. apply holds_ext. intros j Hj. unfold G, update.
    destruct (oi_value item) as [[] |]; try done. case_decide as Hd.
    + subst j. zbool. cbn. do 4 f_equal. lia.
    + destruct (Z.leb_spec (o - po) j), (Z.ltb_spec j (o - po + Z.of_nat m)), (Z.ltb_spec j (o - po + Z.of_nat (S m))); cbn; try done; lia.
Qed.

Lemma place_items_from items lo pre st : ordered lo items (po + n) → po ≤ lo → Forall value_ok items →
  (∀ a, lo ≤ a → byte_of pre a = None) → holds st (fun j => byte_of pre (po + j)) →
  ∃ st', foldM (place_item part) st items = Ok st' ∧ holds st' (fun j => byte_of (pre ++ items) (po + j)).
Proof.
  revert lo pre st. induction items as [| i items IH]; intros lo pre st Hord Hlo Hv Hpre Hst; [exists st; by rewrite app_nil_r |].
  destruct Hord as (o & Ho & Hle & Hs & Hord). apply Forall_cons in Hv as [Hvi Hv].
  assert (o + oi_size i ≤ po + n) by (by eapply ordered_le).
  destruct (place_item_ok i o st (fun j => byte_of pre (po + j)) Ho Hvi Hs ltac:(lia) ltac:(lia)) as (st1 & E1 & H1).
  { intros j Hj. apply Hpre. lia. }
  { done. }
  cbn [foldM]. rewrite E1. cbn [mbind res_bind]. replace (pre ++ i :: items) with ((pre ++ [i]) ++ items) by (by rewrite <- app_assoc).
  apply (IH (o + oi_size i)); [done | lia | done | |].
  - intros a Ha. rewrite byte_of_snoc, Hpre by lia. destruct (item_byte i a) eqn:E; [| done].
    apply item_byte_in in E as (o' & Ho' & ?). rewrite Ho in Ho'. injection Ho' as <-. lia.
  - revert H1. apply holds_ext. intros j _. by rewrite byte_of_snoc.
Qed.
End place.

Lemma place_items_ok p po : op_offset p = YInt po → 0 ≤ op_size p → ordered po (op_items p) (po + op_size p) → Forall value_ok (op_items p) →
  ∃ st, place_items p = Ok st ∧ holds (op_size p) st (fun j => byte_of (op_items p) (po + j)).
Proof.
  intros Hpo Hn Hord Hv. unfold place_items. apply (place_items_from p po (op_size p) Hpo _ po []); try done.
  constructor; cbn; [| | rewrite length_replicate; lia].
  - apply list_eq. intros k. rewrite list_lookup_fmap. destruct (decide (Z.of_nat k < op_size p)).
    + rewrite (lookup_seqZ_lt 0), lookup_replicate_2 by lia. done.
    + rewrite (lookup_seqZ_ge 0) by lia. cbn. apply lookup_replicate_None. lia.
  - apply list_eq. intros k. rewrite list_lookup_fmap. destruct (decide (Z.of_nat k < op_size p)).
    + rewrite (lookup_seqZ_lt 0), lookup_replicate_2 by lia. done.
    + rewrite (lookup_seqZ_ge 0) by lia. cbn. apply lookup_replicate_None. lia.
Qed.

(** ** Blocks *)

Definition le_bytes : list Z → Z := limbs_join 8.

Lemma add_byte_first B V k b d : (k mod 8 = 0)%nat → add_byte (B, V) (k, (b, d)) = (B ++ [b], V ++ [d]).
Proof. intros Hk. unfold add_byte. by rewrite (proj2 (Nat.eqb_eq _ _) Hk). Qed.

Lemma add_byte_next B V x v r b d : (0 < r < 8)%nat → length V = length B →
  add_byte (B ++ [x], V ++ [v]) ((8 * length B + r)%nat, (b, d)) = (B ++ [x + b * 2 ^ (8 * Z.of_nat r)], V ++ [v || d]).
Proof.
  intros Hr HV. unfold add_byte. rewrite (Nat.mul_comm 8), Nat.add_comm, Nat.Div0.mod_add, Nat.mod_small by lia. rewrite (proj2 (Nat.eqb_neq _ _)) by lia.
  rewrite Nat.div_add, Nat.div_small by lia. cbn [fst snd Nat.add]. rewrite Z.shiftl_mul_pow2 by lia.
  rewrite alter_app_r_alt, Nat.sub_diag by lia. rewrite <- HV, (alter_app_r_alt _ V), Nat.sub_diag by lia. done.
Qed.

(** The rest of a block. *)
Lemma add_bytes_next l B V x v r : (0 < r)%nat → (r + length l ≤ 8)%nat → length V = length B → Forall (in_bits 8) l.*1 →
  foldl add_byte (B ++ [x], V ++ [v]) (imap (fun k y => ((8 * length B + r + k)%nat, y)) l) =
  (B ++ [x + le_bytes l.*1 * 2 ^ (8 * Z.of_nat r)], V ++ [v || existsb id l.*2]).
Proof.
  intros Hr Hl HV. revert x v r Hr Hl. induction l as [| [b d] l IH]; intros x v r Hr Hl Hb.
  { cbn. by rewrite Z.add_0_r, orb_false_r. }
  cbn [length] in Hl. apply Forall_cons in Hb as [Hb Hbs]. cbn [imap foldl]. rewrite Nat.add_0_r, add_byte_next by (done || lia).
  rewrite (imap_ext _ (fun k y => ((8 * length B + S r + k)%nat, y))) by (intros i y _; cbn; f_equal; lia). rewrite IH by (done || lia).
  cbn [fmap list_fmap fst snd existsb id]. unfold le_bytes. rewrite limbs_join_cons by (done || lia). rewrite orb_assoc. do 3 f_equal.
  replace (8 * Z.of_nat (S r)) with (8 + 8 * Z.of_nat r) by lia. rewrite Z.pow_add_r by lia. lia.
Qed.

Lemma add_block l B V : length l = 8%nat → length V = length B → Forall (in_bits 8) l.*1 →
  foldl add_byte (B, V) (imap (fun k y => ((8 * length B + k)%nat, y)) l) = (B ++ [le_bytes l.*1], V ++ [existsb id l.*2]).
Proof.
  destruct l as [| [b d] l]; [done |]. intros [= Hl] HV [Hb Hbs]%Forall_cons. cbn [imap foldl].
  rewrite add_byte_first by (rewrite Nat.add_0_r, Nat.mul_comm; apply Nat.Div0.mod_mul).
  rewrite (imap_ext _ (fun k y => ((8 * length B + 1 + k)%nat, y))) by (intros i y _; cbn; f_equal; lia).
  rewrite add_bytes_next by (done || lia). cbn [fmap list_fmap fst snd existsb id]. unfold le_bytes. by rewrite limbs_join_cons by (done || lia).
Qed.

(** [m] blocks from the functions that give the bytes. *)
Lemma add_blocks D V (m q : nat) : (∀ j, in_bits 8 (D j)) →
  foldl add_byte ((fun i => le_bytes (D <$> seqZ (8 * i) 8)) <$> seqZ 0 (Z.of_nat q), (fun i => existsb V (seqZ (8 * i) 8)) <$> seqZ 0 (Z.of_nat q))
    (imap (fun k y => ((8 * q + k)%nat, y)) ((fun j => (D j, V j)) <$> seqZ (8 * Z.of_nat q) (8 * Z.of_nat m))) =
  ((fun i => le_bytes (D <$> seqZ (8 * i) 8)) <$> seqZ 0 (Z.of_nat (q + m)), (fun i => existsb V (seqZ (8 * i) 8)) <$> seqZ 0 (Z.of_nat (q + m))).
Proof.
  intros HD. revert q. induction m as [| m IH]; intros q; [by rewrite Nat.add_0_r |].
  replace (8 * Z.of_nat (S m)) with (8 + 8 * Z.of_nat m) by lia. rewrite seqZ_app by lia. rewrite fmap_app, imap_app, foldl_app.
  set (B := _ <$> seqZ 0 (Z.of_nat q)) at 1. set (W := _ <$> seqZ 0 (Z.of_nat q)).
  assert (HB : length B = q) by (unfold B; rewrite length_fmap, length_seqZ; lia).
  assert (HW : length W = length B) by (rewrite HB; unfold W; rewrite length_fmap, length_seqZ; lia).
  assert (Hblock : foldl add_byte (B, W) (imap (fun k y => ((8 * q + k)%nat, y)) ((fun j => (D j, V j)) <$> seqZ (8 * Z.of_nat q) 8)) =
    (B ++ [le_bytes (D <$> seqZ (8 * Z.of_nat q) 8)], W ++ [existsb V (seqZ (8 * Z.of_nat q) 8)])).
  { rewrite <- HB, add_block; [| by rewrite length_fmap, length_seqZ | done |].
    - rewrite <- !list_fmap_compose. rewrite HB. reflexivity.
    - rewrite <- list_fmap_compose. apply Forall_fmap, Forall_true. intros j. apply HD. }
  rewrite Hblock. specialize (IH (S q)). rewrite !seqZ_S, !fmap_app in IH. rewrite !Z.add_0_l in IH. cbn [fmap list_fmap] in IH. fold B W in IH.
  replace (8 * Z.of_nat (S q)) with (8 * Z.of_nat q + 8) in IH by lia. replace (q + S m)%nat with (S q + m)%nat by lia. rewrite <- IH. f_equal.
  apply imap_ext. intros i y _. cbn. rewrite length_fmap, length_seqZ. f_equal. lia.
Qed.

(** The blocks of a partition, and whether an item has a value in them. *)
Definition plain_block (F : Z → option Z) (i : Z) : Z := le_bytes ((fun j => default 0 (F j)) <$> seqZ (8 * i) 8).
Definition block_defined (F : Z → option Z) (i : Z) : bool := existsb (fun j => bool_decide (is_Some (F j))) (seqZ (8 * i) 8).

Lemma zip_fmap_both {A B C} (f : A → B) (g : A → C) l : zip (f <$> l) (g <$> l) = (fun x => (f x, g x)) <$> l.
Proof. induction l as [| x l IH]; [done |]. cbn. by rewrite IH. Qed.

Lemma to_blocks_ok st F m : 0 ≤ m → holds (8 * m) st F → (∀ j, in_bits 8 (default 0 (F j))) →
  to_blocks st = (plain_block F <$> seqZ 0 m, block_defined F <$> seqZ 0 m).
Proof.
  intros Hm [Hd Hdef _] HF. unfold to_blocks. rewrite Hd, Hdef, zip_fmap_both. rewrite <- (Z2Nat.id m) by done.
  exact (add_blocks (fun j => default 0 (F j)) (fun j => bool_decide (is_Some (F j))) (Z.to_nat m) 0 HF).
Qed.

(** ** Scrambling *)

(** Decryption with the same key. *)
Definition present_dec (c key : Z) : res Z := cipher ← Present.init key 32 128; Present.decrypt c cipher.

Lemma enc_ok plain key : in_bits 64 plain → in_bits 128 key →
  ∃ c, _present_64bit_encrypt plain key = Ok c ∧ in_bits 64 c ∧ present_dec c key = Ok plain.
Proof.
  intros [Hp1 Hp2] Hk. pose proof Hk as [Hk1 Hk2]. unfold _present_64bit_encrypt, present_dec. zbool. cbn [py_assert mbind res_bind].
  destruct (present_init_ok key 32 128) as (k & ks & -> & [Hb Hbs]%Forall_cons & _); [by right | done | lia |]. cbn [mbind res_bind].
  rewrite encrypt_eq. eexists. split; [done |]. split; [by apply enc_with_bits |]. rewrite decrypt_eq. by rewrite dec_enc_with.
Qed.

Lemma digest_pairs l s (m : nat) : length l = (2 * m)%nat → Forall (in_bits 64) l → in_bits 64 s →
  ∃ s', foldM digest_step (s, None) l = Ok (s', None) ∧ in_bits 64 s'.
Proof.
  revert l s. induction m as [| m IH]; intros l s Hl Hb Hs; [destruct l; [by exists s | done] |].
  destruct l as [| a [| b l]]; cbn in Hl; try lia. apply Forall_cons in Hb as [Ha Hb]. apply Forall_cons in Hb as [Hbb Hb].
  destruct (enc_ok s (a + (b ≪ 64))) as (c & Ec & Hc & _); [done | |].
  { pose proof (limbs_join_cons 64 a [b] ltac:(lia) Ha (proj2 (Forall_singleton _ _) Hbb)) as E. pose proof (limbs_join_bits 64 ltac:(lia) [a; b] 2) as H.
    rewrite E in H. replace (limbs_join 64 [b]) with b in H by (cbn; by rewrite Z.lor_0_r || done). rewrite Z.shiftl_mul_pow2 by lia. apply H; [by rewrite !Forall_cons, Forall_nil | done]. }
  cbn [foldM digest_step mbind res_bind]. rewrite Ec. cbn [mbind res_bind]. apply IH; [lia | done |]. apply in_bits_lxor; [lia | done | done].
Qed.

Lemma digest_ok blocks iv const : Forall (in_bits 64) blocks → in_bits 64 iv →
  ∃ d, _present_64bit_digest blocks iv const = Ok d ∧ in_bits 64 d.
Proof.
  intros Hb Hiv. unfold _present_64bit_digest.
  assert (∃ blocks' m, (if Nat.odd (length blocks) then b ← py_nth blocks (-1); Ok (blocks ++ [b]) else Ok blocks) = Ok blocks' ∧
    length blocks' = (2 * m)%nat ∧ Forall (in_bits 64) blocks') as (bs & m & -> & Hl & Hbs).
  { destruct (Nat.odd (length blocks)) eqn:Eo.
    - apply Nat.odd_spec in Eo as (m & Em). destruct (reverse blocks) as [| b rest] eqn:Er.
      { apply (f_equal length) in Er. rewrite length_reverse in Er. cbn in Er. lia. }
      assert (Hlk : reverse blocks !! 0%nat = Some b) by by rewrite Er. pose proof (py_nth_neg blocks 0 b Hlk) as Hnth.
      change (- Z.of_nat 0 - 1) with (-1) in Hnth. rewrite Hnth. exists (blocks ++ [b]), (S m).
      split; [done |]. split; [rewrite length_app; cbn; lia |]. apply Forall_app. split; [done |]. apply Forall_singleton.
      rewrite Forall_forall in Hb. apply Hb. rewrite reverse_lookup in Hlk by lia. by eapply list_elem_of_lookup_2.
    - exists blocks. assert (He : Nat.even (length blocks) = true) by (by rewrite <- Nat.negb_odd, Eo). apply Nat.even_spec in He as (m & Em). by exists m. }
  cbn [mbind res_bind].
  destruct (digest_pairs (bs ++ [const .& 0xFFFFFFFFFFFFFFFF; (const ≫ 64) .& 0xFFFFFFFFFFFFFFFF]) iv (S m)) as (s' & Es & Hs'); [rewrite length_app; cbn; lia | | done |].
  - apply Forall_app. split; [done |]. repeat constructor; apply (in_bits_mask _ 64); lia.
  - rewrite Es. by exists s'.
Qed.

Lemma mapR_Forall2 {A B} (f : A → res B) (P : A → B → Prop) l : (∀ x, x ∈ l → ∃ y, f x = Ok y ∧ P x y) → ∃ ys, mapR f l = Ok ys ∧ Forall2 P l ys.
Proof.
  induction l as [| x l IH]; intros H; [by exists [] |]. destruct (H x) as (y & Ey & Py); [by left |].
  destruct IH as (ys & Eys & Pys); [intros; apply H; by right |]. exists (y :: ys). cbn [mapR]. rewrite Ey. cbn [mbind res_bind]. rewrite Eys. by split; [| constructor].
Qed.

(** ** Partitions *)

Definition part_key (scr : Scrambling) (p : OtpPart) : Z := default 0 (snd <$> List.find (key_named (op_key_sel p)) (sc_keys scr)).

(** A partition at [o] that can be streamed out: a key for the scrambling, and for the digest an initial
    value and no value in the description. *)
Record part_ok (scr : Scrambling) (o : Z) (p : OtpPart) : Prop := {
  po_layout : part_layout o p;
  po_sizes : Forall size_ok (op_items p);
  po_values : Forall value_ok (op_items p);
  po_size : 0 ≤ op_size p;
  po_key : op_secret p = true → is_Some (List.find (key_named (op_key_sel p)) (sc_keys scr)) ∧ in_bits 128 (part_key scr p);
  po_digest : op_hw_digest p = true → (∀ d, last (op_items p) = Some d → oi_value d = None) ∧
    ∃ name iv const, sc_digests scr !! 0%nat = Some (name, iv, const) ∧ in_bits 64 iv;
}.

(** Reading the image of a partition back: a block, and the block as it was before the scrambling. *)
Definition read_block (data : list Z) (i : Z) : Z := le_bytes (take 8 (drop (Z.to_nat (8 * i)) data)).
Definition descramble (scr : Scrambling) (p : OtpPart) (F : Z → option Z) (i b : Z) : res Z :=
  if op_secret p && block_defined F i then present_dec b (part_key scr p) else Ok b.

Lemma plain_block_bits F i : (∀ j, in_bits 8 (default 0 (F j))) → in_bits 64 (plain_block F i).
Proof.
  intros HF. apply (limbs_join_bits 8 ltac:(lia) _ 8); [apply Forall_fmap, Forall_true; intros j; apply HF | by rewrite length_fmap, length_seqZ].
Qed.

Lemma block_bytes_split b : block_bytes b = limbs_split 8 8 b.
Proof. reflexivity. Qed.

Lemma read_block_ok blocks i b : Forall (in_bits 64) blocks → blocks !! i = Some b → read_block (blocks ≫= block_bytes) (Z.of_nat i) = b.
Proof.
  intros Hb. revert i. induction Hb as [| c blocks Hc Hb IH]; intros [| i] Hi; try done; cbn [mbind list_bind]; unfold read_block.
  - injection Hi as <-. rewrite Z.mul_0_r. change (Z.to_nat 0) with 0%nat. rewrite drop_0. rewrite take_app_le, take_ge by (rewrite block_bytes_split, limbs_split_length by lia; lia).
    rewrite block_bytes_split. apply (limbs_join_split 8 ltac:(lia) 8); [lia | done].
  - rewrite drop_app_ge by (rewrite block_bytes_split, limbs_split_length by lia; lia). rewrite block_bytes_split, limbs_split_length by lia.
    rewrite <- (IH i Hi). unfold read_block. do 3 f_equal. lia.
Qed.

Lemma length_block_bytes blocks : length (blocks ≫= block_bytes) = (8 * length blocks)%nat.
Proof. induction blocks as [| b blocks IH]; [done |]. rewrite bind_cons, length_app, block_bytes_split, limbs_split_length, IH by lia. cbn [length]. lia. Qed.

Lemma block_bytes_bits blocks : Forall (in_bits 8) (blocks ≫= block_bytes).
Proof. induction blocks as [| b blocks IH]; [constructor |]. cbn [mbind list_bind]. apply Forall_app. split; [apply limbs_split_bits; lia | exact IH]. Qed.

Section partition.
Context (scr : Scrambling) (o : Z) (p : OtpPart) (Hp : part_ok scr o p).

(** The byte an item has at an index. *)
Definition part_byte (j : Z) : option Z := byte_of (op_items p) (o + j).

Lemma part_byte_bits j : in_bits 8 (default 0 (part_byte j)).
Proof. apply byte_of_bits. Qed.

Let m : Z := op_size p / 8.

Lemma part_size : op_size p = 8 * m ∧ 0 ≤ m.
Proof.
  destruct (pl_align _ _ (po_layout _ _ _ Hp)) as [_ [q Hq]]. pose proof (po_size _ _ _ Hp). unfold m. rewrite Hq, Z.div_mul by lia. lia.
Qed.

Lemma part_items_ordered : ordered o (op_items p) (o + op_size p).
Proof. apply part_ordered; [apply Hp | apply Hp]. Qed.

(** A block after the scrambling. *)
Record scrambled (i b : Z) : Prop := {
  sb_plain : descramble scr p part_byte i b = Ok (plain_block part_byte i);
  sb_bits : in_bits 64 b;
  sb_undefined : block_defined part_byte i = false → b = plain_block part_byte i;
}.

Lemma scramble_ok : ∃ blocks, scramble scr p (plain_block part_byte <$> seqZ 0 m) (block_defined part_byte <$> seqZ 0 m) = Ok blocks ∧
  Forall2 scrambled (seqZ 0 m) blocks.
Proof.
  pose proof (fun i => plain_block_bits part_byte i part_byte_bits) as Hb. unfold scramble. destruct (op_secret p) eqn:Es.
  - destruct (po_key _ _ _ Hp Es) as [[[kn kv] Hk] Hkb]. rewrite Hk. cbn [of_option mbind res_bind snd]. rewrite zip_fmap_both.
    assert (Ekv : part_key scr p = kv) by (unfold part_key; by rewrite Hk). rewrite Ekv in Hkb.
    destruct (mapR_Forall2 (scramble_block kv) (fun x b => ∀ i, x = (plain_block part_byte i, block_defined part_byte i) → scrambled i b)
      ((fun i => (plain_block part_byte i, block_defined part_byte i)) <$> seqZ 0 m)) as (blocks & E & H).
    + intros x (i & -> & _)%list_elem_of_fmap. unfold scramble_block. cbn [fst snd]. destruct (block_defined part_byte i) eqn:Ed.
      * destruct (enc_ok (plain_block part_byte i) kv (Hb i) Hkb) as (c & Ec & Hc & Hdec). exists c. split; [done |]. intros i' [= Ei Ei'].
        constructor; [| done | by rewrite <- Ei'; congruence]. unfold descramble. rewrite Es, <- Ei', Ekv, <- Ei. exact Hdec.
      * exists (plain_block part_byte i). split; [done |]. intros i' [= Ei Ei']. rewrite Ei. constructor; [| apply Hb | done].
        unfold descramble. rewrite <- Ei'. by rewrite andb_false_r.
    + exists blocks. split; [done |]. apply Forall2_fmap_l in H. eapply Forall2_impl; [exact H |]. intros i b Hi. by apply Hi.
  - eexists. split; [done |]. apply Forall2_fmap_r, Forall_Forall2_diag, Forall_true. intros i. constructor; [| apply Hb | done].
    unfold descramble. by rewrite Es.
Qed.

(** The block of a hardware digest has no values. *)
Lemma digest_block : op_hw_digest p = true → 1 ≤ m ∧ block_defined part_byte (m - 1) = false ∧ plain_block part_byte (m - 1) = 0.
Proof.
  intros Hh. destruct part_size as [Hn Hm]. destruct (pl_items _ _ (po_layout _ _ _ Hp)) as (its & mid & Hc & H). pose proof (po_sizes _ _ _ Hp) as Hs.
  assert (Hd : has_digest p = true) by (unfold has_digest; by rewrite Hh, orb_true_r). rewrite Hd in H. destruct H as (Hmid & d & Ei & _ & Hdo & Hd8).
  rewrite Ei in Hs. apply Forall_app in Hs as [Hs _]. pose proof (consecutive_bounds _ _ _ Hs Hc) as Hle.
  assert (Hnone : ∀ j, op_size p - 8 ≤ j → part_byte j = None).
  { intros j Hj. unfold part_byte. rewrite Ei, byte_of_snoc. destruct (po_digest _ _ _ Hp Hh) as [Hv _].
    specialize (Hv d). rewrite Ei, last_snoc in Hv. assert (Hib : item_byte d (o + j) = None) by (unfold item_byte; by rewrite Hdo, Hv). rewrite Hib.
    destruct (byte_of its (o + j)) as [b |] eqn:E; [| done]. exfalso. apply byte_of_Some in E as (i & Hi & Hb%item_byte_in).
    pose proof (consecutive_ordered o its mid [] mid Hs Hc (Z.le_refl mid)) as Hord. rewrite app_nil_r in Hord. pose proof (ordered_in _ _ _ _ _ Hord Hi Hb). lia. }
  split; [lia |]. split.
  - apply existsb_none. intros j Hj%elem_of_seqZ. by rewrite Hnone by lia.
  - unfold plain_block. rewrite (list_fmap_ext _ (fun _ => 0)); [reflexivity |]. intros k j [-> Hj]%lookup_seqZ. by rewrite Hnone by lia.
Qed.

(** The digest of a locked partition. *)
Definition digest_of (payload : list Z) (d : Z) : Prop :=
  if py_truth (op_lock p) then
    ∃ name iv const, sc_digests scr !! 0%nat = Some (name, iv, const) ∧ _present_64bit_digest payload iv const = Ok d
  else d = 0.

Lemma lock_ok blocks : Forall2 scrambled (seqZ 0 m) blocks → ∃ blocks', lock_digest scr p blocks = Ok blocks' ∧ length blocks' = length blocks ∧
  Forall (in_bits 64) blocks' ∧
  if op_hw_digest p then take (length blocks - 1) blocks' = take (length blocks - 1) blocks ∧
    ∃ d, blocks' !! (length blocks - 1)%nat = Some d ∧ digest_of (take (length blocks - 1) blocks) d
  else blocks' = blocks.
Proof.
  intros H. pose proof (Forall2_length _ _ _ H) as Hl. rewrite length_seqZ in Hl.
  assert (Hb : Forall (in_bits 64) blocks) by (apply (Forall2_Forall_r _ _ _ _ H), Forall_true; intros i b [_ Hb _]; exact Hb).
  unfold lock_digest. destruct (op_hw_digest p) eqn:Eh; [| by exists blocks]. destruct (digest_block Eh) as (Hm & Hdef & Hz).
  destruct (Forall2_lookup_l _ _ _ (length blocks - 1) (m - 1) H) as (b & Hbl & Hsb); [apply lookup_seqZ; lia |].
  assert (b = 0) as -> by (rewrite <- Hz; by apply (sb_undefined _ _ Hsb)).
  assert (Hnth : py_nth blocks (-1) = Ok 0).
  { apply (py_nth_neg blocks 0 0). rewrite reverse_lookup by lia. exact Hbl. }
  rewrite Hnth. cbn [mbind res_bind negb Z.eqb].
  assert (Htake : blocks = take (length blocks - 1) blocks ++ [0]).
  { rewrite <- (take_S_r _ _ _ Hbl). symmetry. apply take_ge. lia. }
  assert (Hlt : length (take (length blocks - 1) blocks) = (length blocks - 1)%nat) by (rewrite length_take; lia).
  destruct (py_truth (op_lock p)) eqn:El.
  - destruct (po_digest _ _ _ Hp Eh) as [_ (nm & iv & const & Hdg & Hiv)].
    assert (Hd0 : py_nth (sc_digests scr) 0 = Ok (nm, iv, const)) by exact (py_nth_nat _ 0 _ Hdg). rewrite Hd0. cbn [mbind res_bind].
    destruct (digest_ok (take (length blocks - 1) blocks) iv const) as (d & Ed & Hd); [by apply Forall_take | done |]. rewrite Ed. cbn [mbind res_bind].
    eexists. split; [done |]. split_and!.
    + rewrite length_app, Hlt. cbn. lia.
    + apply Forall_app. split; [by apply Forall_take | by apply Forall_singleton].
    + rewrite take_app_le, take_take by lia. f_equal. lia.
    + exists d. split; [rewrite lookup_app_r, Hlt, Nat.sub_diag by lia; done |]. unfold digest_of. rewrite El. by exists nm, iv, const.
  - exists blocks. split_and!; try done. exists 0. split; [done |]. unfold digest_of. by rewrite El.
Qed.
End partition.

Lemma byte_of_item lo items hi i a b : ordered lo items hi → i ∈ items → item_byte i a = Some b → byte_of items a = Some b.
Proof.
  intros Hord Hi Hb. destruct (byte_of items a) as [b' |] eqn:E.
  - apply byte_of_Some in E as (i' & Hi' & Hb'). apply list_elem_of_lookup in Hi as (k & Hk). apply list_elem_of_lookup in Hi' as (k' & Hk').
    assert (k = k') as <- by (eapply (ordered_disjoint lo items hi); eauto using item_byte_in). rewrite Hk in Hk'. injection Hk' as <-. congruence.
  - exfalso. clear Hord. revert E. induction items as [| j items IH] using rev_ind; [by apply elem_of_nil in Hi |]. rewrite byte_of_snoc.
    apply elem_of_app in Hi as [Hi | ->%list_elem_of_singleton]; [| by rewrite Hb]. destruct (item_byte j a); [done | by apply IH].
Qed.

(** What is in the image of a partition. *)
Record read_back (scr : Scrambling) (o : Z) (p : OtpPart) (data : list Z) (annotation : list string) : Prop := {
  rb_length : Z.of_nat (length data) = op_size p ∧ Z.of_nat (length annotation) = op_size p;
  rb_bytes : Forall (in_bits 8) data;
  (** the blocks hold the items once they are descrambled, except for the one of a hardware digest, *)
  rb_blocks i : 0 ≤ i < op_size p / 8 → (op_hw_digest p = true → i ≠ op_size p / 8 - 1) →
    descramble scr p (part_byte o p) i (read_block data i) = Ok (plain_block (part_byte o p) i);
  (** which is computed from the blocks before it if the partition is locked; *)
  rb_digest : op_hw_digest p = true →
    digest_of scr p (read_block data <$> seqZ 0 (op_size p / 8 - 1)) (read_block data (op_size p / 8 - 1));
  (** every byte of a value is there, and no other. *)
  rb_item i a v k : i ∈ op_items p → oi_offset i = YInt a → oi_value i = Some (YInt v) → 0 ≤ k < oi_size i →
    part_byte o p (a - o + k) = Some ((v ≫ (8 * k)) .& 0xFF);
  rb_other j b : part_byte o p j = Some b → ∃ i, i ∈ op_items p ∧ in_item i (o + j);
}.

Lemma streamout_ok scr o p : part_ok scr o p → ∃ data annotation, streamout_partition scr p = Ok (data, annotation) ∧ read_back scr o p data annotation.
Proof.
  intros Hp. destruct (part_size scr o p Hp) as [Hn Hm]. set (m := op_size p / 8) in *. pose proof (part_items_ordered scr o p Hp) as Hord.
  destruct (place_items_ok p o (pl_offset _ _ (po_layout _ _ _ Hp)) (po_size _ _ _ Hp) Hord (po_values _ _ _ Hp)) as (st & Est & Hst).
  change (fun j => byte_of (op_items p) (o + j)) with (part_byte o p) in Hst. pose proof Hst as [Hdata _ Hann].
  unfold streamout_partition. rewrite (proj2 (Z.eqb_eq _ _)) by (rewrite Hn, Z.mul_comm, Z.mod_mul by lia; done). cbn [py_assert mbind res_bind].
  rewrite Est. cbn [mbind res_bind]. assert (Hlen : length (by_data st) = (8 * Z.to_nat m)%nat) by (rewrite Hdata, length_fmap, length_seqZ; lia).
  rewrite Hlen, (Nat.mul_comm 8), Nat.Div0.mod_mul. cbn [Nat.eqb py_assert mbind res_bind].
  rewrite Hn in Hst. rewrite (to_blocks_ok st (part_byte o p) m Hm Hst (part_byte_bits o p)).
  destruct (scramble_ok scr o p Hp) as (blocks & Eb & Hb). fold m in Eb, Hb. rewrite Eb. cbn [mbind res_bind].
  destruct (lock_ok scr o p Hp blocks Hb) as (blocks' & Eb' & Hl' & Hbits & Hlast). rewrite Eb'. cbn [mbind res_bind].
  pose proof (Forall2_length _ _ _ Hb) as Hl. rewrite length_seqZ in Hl.
  rewrite length_block_bytes, (proj2 (Z.eqb_eq _ _)) by lia. cbn [py_assert mbind res_bind].
  assert (Hread : ∀ i b, 0 ≤ i → blocks' !! Z.to_nat i = Some b → read_block (blocks' ≫= block_bytes) i = b).
  { intros i b Hi Hib. rewrite <- (Z2Nat.id i) by done. by apply read_block_ok. }
  eexists _, _. split; [done |]. constructor.
  - rewrite length_block_bytes. lia.
  - apply block_bytes_bits.
  - fold m. intros i Hi Hne. destruct (Forall2_lookup_l _ _ _ (Z.to_nat i) i Hb) as (b & Hbi & Hsb); [apply lookup_seqZ; lia |].
    assert (Hbi' : blocks' !! Z.to_nat i = Some b).
    { destruct (op_hw_digest p); [| by subst]. specialize (Hne eq_refl). destruct Hlast as [Ht _].
      rewrite <- (lookup_take_lt blocks' (length blocks - 1)), Ht, lookup_take_lt by lia. done. }
    rewrite (Hread i b) by (done || lia). apply Hsb.
  - fold m. intros Hh. rewrite Hh in Hlast. destruct Hlast as (Ht & d & Hd & Hdig). replace (length blocks - 1)%nat with (Z.to_nat (m - 1)) in * by lia.
    destruct (digest_block scr o p Hp Hh) as [Hm1 _]. fold m in Hm1. rewrite (Hread (m - 1) d) by (done || lia).
    replace (read_block _ <$> seqZ 0 (m - 1)) with (take (Z.to_nat (m - 1)) blocks); [done |]. rewrite <- Ht. apply list_eq. intros k.
    rewrite list_lookup_fmap. destruct (decide (Z.of_nat k < m - 1)).
    + rewrite lookup_take_lt, (lookup_seqZ_lt 0) by lia. destruct (lookup_lt_is_Some_2 blocks' k) as [b Hk]; [lia |]. rewrite Hk. cbn.
      rewrite (Hread _ b); [done | lia |]. by rewrite Z.add_0_l, Nat2Z.id.
    + rewrite lookup_take_ge, (lookup_seqZ_ge 0) by lia. done.
  - intros i a v k Hi Ha Hv Hk. unfold part_byte. eapply byte_of_item; [exact Hord | exact Hi |]. unfold item_byte. rewrite Ha, Hv.
    replace (o + (a - o + k)) with (a + k) by lia. zbool. cbn. do 3 f_equal. lia.
  - intros j b (i & Hi & Hb'%item_byte_in)%byte_of_Some. by exists i.
Qed.

(** ** The whole memory *)

(** An image that can be streamed out. *)
Record image_ok (img : OtpMemImg) : Prop := {
  io_layout : map_layout (mi_map img);
  io_parts p o : p ∈ om_partitions (mi_map img) → op_offset p = YInt o → part_ok (om_scrambling (mi_map img)) o p;
}.

Lemma slice_assign_next {A} (pre : list A) n k v x : length v = n → (n ≤ k)%nat →
  slice_assign (pre ++ replicate k x) (Z.of_nat (length pre)) (Z.of_nat (length pre) + Z.of_nat n) v = (pre ++ v) ++ replicate (k - n) x.
Proof.
  intros Hv Hk. unfold slice_assign, slice_index. rewrite length_app, length_replicate. zbool.
  rewrite !Z.min_l, Z.max_r by lia. rewrite Nat2Z.id, take_app_length.
  rewrite drop_app_ge by lia. rewrite drop_replicate, app_assoc. do 2 f_equal. lia.
Qed.

Lemma add_partition_eq scr size st p o data ann : streamout_partition scr p = Ok (data, ann) → op_offset p = YInt o → o ≤ size →
  add_partition scr size st p = Ok (slice_assign st.1 o (o + op_size p) data, slice_assign st.2 o (o + op_size p) ann).
Proof. intros E Ho Hle. unfold add_partition. rewrite E, Ho. cbn [as_int mbind res_bind]. by rewrite (proj2 (Z.leb_le _ _)) by lia. Qed.

(** The partitions one after the other, and zeros. *)
Lemma stream_from scr size parts o hi pre (preA : list string) : 0 ≤ o → parts_layout o parts hi → hi ≤ size →
  (∀ p o, p ∈ parts → op_offset p = YInt o → part_ok scr o p) → Z.of_nat (length pre) = o → Z.of_nat (length preA) = o →
  ∃ outs, foldM (add_partition scr size) (pre ++ replicate (Z.to_nat (size - o)) 0, preA ++ replicate (Z.to_nat (size - o)) "") parts =
    Ok ((pre ++ concat outs.*1) ++ replicate (Z.to_nat (size - hi)) 0, (preA ++ concat outs.*2) ++ replicate (Z.to_nat (size - hi)) "") ∧
    o ≤ hi ∧ Z.of_nat (length (concat outs.*1)) = hi - o ∧ Z.of_nat (length (concat outs.*2)) = hi - o ∧
    Forall2 (fun p out => streamout_partition scr p = Ok out ∧ ∃ o, op_offset p = YInt o ∧ read_back scr o p out.1 out.2) parts outs.
Proof.
  revert o pre preA. induction parts as [| p parts IH]; intros o pre preA Ho Hlay Hhi Hok Hl HlA; cbn [parts_layout] in Hlay.
  { subst hi. exists []. cbn. rewrite !app_nil_r. split_and!; (done || lia || constructor). }
  destruct Hlay as [Hlp Hlay]. pose proof (Hok p o ltac:(by left) (pl_offset _ _ Hlp)) as Hp. pose proof (po_size _ _ _ Hp) as Hsz.
  destruct (streamout_ok scr o p Hp) as (data & ann & E & Hrb). pose proof (rb_length _ _ _ _ _ Hrb) as [Hld Hla].
  assert (Hle : o + op_size p ≤ hi).
  { clear -Hlay Hok. revert Hlay. generalize (o + op_size p). induction parts as [| q parts IH]; intros o'; cbn; [lia |]. intros [Hq Hlay].
    pose proof (po_size _ _ _ (Hok q o' ltac:(by right; left) (pl_offset _ _ Hq))). apply IH in Hlay; [lia |].
    intros r ? Hr. apply Hok. apply elem_of_cons in Hr as [-> | Hr]; [by left | by right; right]. }
  destruct (IH (o + op_size p) (pre ++ data) (preA ++ ann)) as (outs & Eo & Hb & H1 & H2 & Hall); [lia | done | done | | rewrite length_app; lia.. |].
  { intros q ? Hq. apply Hok. by right. }
  exists ((data, ann) :: outs). cbn [foldM]. rewrite (add_partition_eq _ _ _ p o data ann) by (done || apply Hlp || lia). cbn [mbind res_bind fst snd].
  replace (slice_assign (pre ++ _) _ _ _) with ((pre ++ data) ++ replicate (Z.to_nat (size - (o + op_size p))) 0).
  2: { rewrite <- Hl, <- Hld, slice_assign_next by lia. do 2 f_equal. lia. }
  replace (slice_assign (preA ++ _) _ _ _) with ((preA ++ ann) ++ replicate (Z.to_nat (size - (o + op_size p))) "").
  2: { rewrite <- HlA, <- Hla, slice_assign_next by lia. do 2 f_equal. lia. }
  rewrite Eo. cbn [fmap list_fmap concat fst snd]. rewrite !length_app, <- !app_assoc. split_and!; [done | lia | lia | lia |].
  constructor; [| done]. split; [done |]. exists o. split; [apply Hlp | done].
Qed.

Lemma stream_bytes_ok img : image_ok img → ∃ outs n, stream_bytes img = Ok (concat outs.*1 ++ replicate n 0, concat outs.*2 ++ replicate n "") ∧
  Z.of_nat (length (concat outs.*1) + n) = otp_size (om_otp (mi_map img)) ∧ length (concat outs.*1) = length (concat outs.*2) ∧
  Forall2 (fun p out => streamout_partition (om_scrambling (mi_map img)) p = Ok out ∧
    ∃ o, op_offset p = YInt o ∧ read_back (om_scrambling (mi_map img)) o p out.1 out.2) (om_partitions (mi_map img)) outs.
Proof.
  intros [(hi & Hlay & Hhi & _ & _) Hparts]. set (size := otp_size (om_otp (mi_map img))) in *.
  destruct (stream_from (om_scrambling (mi_map img)) size _ 0 hi [] [] (Z.le_refl 0) Hlay Hhi Hparts eq_refl eq_refl) as (outs & E & Hb & H1 & H2 & Hall).
  cbn [app] in E. rewrite Z.sub_0_r in E. exists outs, (Z.to_nat (size - hi)). unfold stream_bytes. fold size. rewrite E. cbn [mbind res_bind].
  rewrite !length_app, !length_replicate. rewrite !(proj2 (Z.leb_le _ _)) by lia. rewrite (proj2 (Nat.eqb_eq _ _)) by lia. cbn [py_assert mbind res_bind].
  split_and!; [done | lia | lia | done].
Qed.

(** ** The hex file *)

Lemma le_bytes_snoc l b : Forall (in_bits 8) l → in_bits 8 b → le_bytes (l ++ [b]) = le_bytes l + b * 2 ^ (8 * Z.of_nat (length l)).
Proof.
  intros Hl Hb. unfold le_bytes. induction Hl as [| c l Hc Hl IH]; [cbn [app length]; rewrite limbs_join_cons by (done || lia); cbn; lia |].
  cbn [app length]. rewrite !limbs_join_cons, IH by (done || lia || (apply Forall_app; split; [done | by apply Forall_singleton])).
  replace (8 * Z.of_nat (S (length l))) with (8 + 8 * Z.of_nat (length l)) by lia. rewrite Z.pow_add_r by lia. lia.
Qed.

Section hexfile.
Context (sd : secded) (Hsd : causal sd) (bpw : nat) (Hw : data_width sd = 8 * Z.of_nat bpw) (data : list Z) (annotation : list string).
Context (Hdata : Forall (in_bits 8) data) (Hann : length annotation = length data).

Lemma word_bytes_ok (base j : nat) : (base + j ≤ length data)%nat →
  ∃ anns, foldM (word_byte data annotation (Z.of_nat base)) (0, []) (seqZ 0 (Z.of_nat j)) = Ok (le_bytes (take j (drop base data)), anns).
Proof.
  induction j as [| j IH]; intros Hj; [by exists [] |]. destruct IH as (anns & E); [lia |]. rewrite seqZ_S, foldM_app, E. cbn [mbind res_bind foldM].
  destruct (lookup_lt_is_Some_2 data (base + j)) as [b Hb]; [lia |]. destruct (lookup_lt_is_Some_2 annotation (base + j)) as [a Ha]; [lia |].
  unfold word_byte. replace (Z.of_nat base + (0 + Z.of_nat j)) with (Z.of_nat (base + j)) by lia.
  rewrite (py_nth_nat _ _ _ Hb), (py_nth_nat _ _ _ Ha). cbn [mbind res_bind fst snd]. eexists. do 2 f_equal.
  assert (Hd : drop base data !! j = Some b) by (by rewrite lookup_drop).
  rewrite (take_S_r _ _ _ Hd), le_bytes_snoc; [| by apply Forall_take, Forall_drop | by apply (Forall_lookup_1 _ _ _ _ Hdata Hb)].
  rewrite Z.shiftl_mul_pow2 by lia. rewrite length_take, length_drop. do 3 f_equal. lia.
Qed.

(** A word of the file: a valid code word with the bytes as its data. *)
Definition word_of (k : nat) (n : Z) : Prop :=
  in_bits (data_width sd + ecc_width sd) n ∧ is_valid_codeword sd (format_bin (data_width sd + ecc_width sd) n) = Ok true ∧
  n mod 2 ^ data_width sd = le_bytes (take bpw (drop (k * bpw) data)).

Lemma hexfile_word_ok (k : nat) : (0 < bpw)%nat → (k * bpw + bpw ≤ length data)%nat →
  ∃ n comment, hexfile_word sd data annotation (Z.of_nat k) = Ok (n, comment) ∧ word_of k n.
Proof.
  intros Hbpw Hk. unfold hexfile_word. rewrite Hw. rewrite (Z.mul_comm 8), Z.div_mul by lia. rewrite <- Nat2Z.inj_mul.
  destruct (word_bytes_ok (k * bpw) bpw Hk) as (anns & E). rewrite E. cbn [mbind res_bind].
  set (word := le_bytes _). assert (Hword : in_bits (data_width sd) word).
  { rewrite Hw. apply limbs_join_bits; [lia | by apply Forall_take, Forall_drop |]. rewrite length_take. lia. }
  rewrite (Z.mul_comm _ 8), <- Hw. pose proof (length_format_bin (data_width sd) word ltac:(lia) Hword) as Hlen.
  destruct (ecc_encode_ok sd Hsd _ Hlen) as (e & Ee & He & Hch). rewrite Ee. cbn [mbind res_bind].
  set (w := format_bin _ word) in *. assert (Hlw : Z.of_nat (length (e ++ w)) = data_width sd + ecc_width sd) by (rewrite length_app; lia).
  rewrite int_base2_eq. 2: { intros H%(f_equal length). rewrite H in Hlw. cbn in Hlw. lia. }
  cbn [mbind res_bind]. eexists _, _. split; [done |]. pose proof (int2_in_bits (e ++ w)) as Hbits. rewrite Hlw in Hbits. split; [done |]. split.
  - replace (format_bin _ (int2 (e ++ w))) with (e ++ w); [by apply valid_checks |]. apply int2_inj.
    + apply Nat2Z.inj. rewrite length_format_bin by (done || lia). done.
    + rewrite int2_format_bin; [done | apply Hbits].
  - apply Z_bits_eq. intros i Hi. destruct (decide (i < data_width sd)).
    + rewrite Z.mod_pow2_bits_low, int2_testbit, rbit_app by lia. unfold w. apply rbit_format_bin; [done | apply Hword].
    + rewrite Z.mod_pow2_bits_high by lia. symmetry. apply (testbit_in_bits (data_width sd)); [done | lia].
Qed.

Lemma hexfile_words_ok (m : nat) : (0 < bpw ≤ 8)%nat → length data = (m * bpw)%nat →
  ∃ words, hexfile_words sd data annotation = Ok words ∧ Forall2 (fun k w => word_of k w.1) (seq 0 m) words.
Proof.
  intros Hbpw Hl. unfold hexfile_words. assert (H8 : data_width sd mod 8 = 0) by (rewrite Hw, Z.mul_comm; apply Z.mod_mul; lia). rewrite (proj2 (Z.eqb_eq _ _) H8).
  rewrite (proj2 (Z.leb_le _ _)), (proj2 (Z.eqb_neq _ _)) by lia. cbn [py_assert mbind res_bind].
  replace (Z.of_nat (length data) * 8 / data_width sd) with (Z.of_nat m) by (rewrite Hl, Hw; apply Z.div_unique_exact; lia).
  destruct (mapR_Forall2 (hexfile_word sd data annotation) (fun k w => ∃ k', k = Z.of_nat k' ∧ word_of k' w.1) (seqZ 0 (Z.of_nat m))) as (words & E & H).
  { intros k Hk%elem_of_seqZ. destruct (hexfile_word_ok (Z.to_nat k)) as (n & c & E & Hn); [lia | nia |]. rewrite Z2Nat.id in E by lia.
    exists (n, c). split; [done |]. exists (Z.to_nat k). split; [lia | done]. }
  exists words. split; [done |]. unfold seqZ in H. rewrite Nat2Z.id in H. apply Forall2_fmap_l in H. eapply Forall2_impl; [exact H |].
  intros k w (k' & Ek & Hk'). cbn in Ek. by replace k with k' by lia.
Qed.
End hexfile.

(** ** Merging *)

(** A partition without its lock and the values of its items. *)
Definition shape (p : OtpPart) : OtpPart := set_lock YNone (set_items (set_value 0 <$> op_items p) p).

Lemma consecutive_shape (its its' : list OtpItem) lo hi : set_value 0 <$> its = set_value 0 <$> its' → consecutive lo its hi → consecutive lo its' hi.
Proof.
  revert its' lo. induction its as [| i its IH]; intros [| i' its'] lo E; try done. injection E as E1 E2 E3 E4 E5 E. cbn.
  intros [Ho Hc]. rewrite <- E2, <- E4. split; [done | by apply IH].
Qed.

Lemma names_shape (its its' : list OtpItem) : set_value 0 <$> its = set_value 0 <$> its' → oi_name <$> its = oi_name <$> its'.
Proof. intros E%(f_equal (fmap oi_name)). by rewrite <- !list_fmap_compose in E. Qed.

Lemma part_layout_shape o p p' : shape p = shape p' → part_layout o p → part_layout o p'.
Proof.
  destruct p as [n v off sz se sw hw bk wl rl ks lk items], p' as [n' v' off' sz' se' sw' hw' bk' wl' rl' ks' lk' items'].
  intros [= -> -> -> -> -> -> -> -> -> -> -> E]. cbn in E. intros [Ho Ha Hn (its & mid & Hc & H)]. cbn in *. split; cbn; [done | done | by rewrite <- (names_shape _ _ E) |].
  unfold has_digest in *. cbn in *. destruct (sw' || hw').
  - destruct H as (Hm & d & -> & Hdn & Hdo & Hds). rewrite fmap_app in E. symmetry in E.
    apply fmap_app_inv in E as (its' & ds & Eits & Eds & ->). destruct ds as [| d' [|]]; try done. injection Eds as E1 E2 E3 E4 E5.
    exists its', mid. split; [by eapply consecutive_shape |]. split; [done |]. exists d'. rewrite <- E1, <- E2, <- E4. done.
  - destruct H as [-> H]. exists items', mid. split; [by eapply consecutive_shape | done].
Qed.

Lemma parts_layout_shape (parts parts' : list OtpPart) o hi : shape <$> parts = shape <$> parts' → parts_layout o parts hi → parts_layout o parts' hi.
Proof.
  revert parts' o. induction parts as [| p parts IH]; intros [| p' parts'] o E; try done. cbn in E. apply (inj2 cons) in E as [E Es]. intros [Hp Hl].
  split; [by apply (part_layout_shape o p) |]. replace (op_size p') with (op_size p); [by apply IH | exact (f_equal op_size E)].
Qed.

(** What merging keeps. *)
Record same_map (img img' : OtpMemImg) : Prop := {
  sm_lc : mi_lc img' = mi_lc img;
  sm_otp : om_otp (mi_map img') = om_otp (mi_map img);
  sm_scrambling : om_scrambling (mi_map img') = om_scrambling (mi_map img);
  sm_dict : om_part_dict (mi_map img') = om_part_dict (mi_map img);
  sm_parts : shape <$> om_partitions (mi_map img') = shape <$> om_partitions (mi_map img);
}.

#[export] Instance same_map_preorder : PreOrder same_map.
Proof. split; [by intros img; split | intros a b c [] []; split; congruence]. Qed.

Lemma item_dict_names items items' : oi_name <$> items = oi_name <$> items' → item_dict items = item_dict items'.
Proof.
  intros E. apply list_eq. intros k. unfold item_dict. rewrite !list_lookup_imap. apply (f_equal (.!! k)) in E. rewrite !list_lookup_fmap in E.
  destruct (items !! k), (items' !! k); try done. injection E as E. cbn. by rewrite E.
Qed.

Lemma map_layout_same img img' : same_map img img' → map_layout (mi_map img) → map_layout (mi_map img').
Proof.
  intros [_ Eo _ Ed Es] (hi & Hl & Hhi & Hn & Hd). exists hi. rewrite Eo, Ed.
  assert (En : op_name <$> om_partitions (mi_map img') = op_name <$> om_partitions (mi_map img)).
  { apply (f_equal (fmap op_name)) in Es. by rewrite <- !list_fmap_compose in Es. }
  split_and!; [by eapply parts_layout_shape | done | by rewrite En |]. rewrite Hd. unfold part_dict, item_dict.
  clear -Es. apply list_eq. intros k. rewrite !list_lookup_imap. apply (f_equal (.!! k)) in Es. rewrite !list_lookup_fmap in Es.
  destruct (_ !! k) as [p' |], (_ !! k) as [p |]; try done. cbn in Es |- *. injection Es as En _ _ _ _ _ _ _ _ _ _ E. rewrite En. do 3 f_equal.
  by apply item_dict_names, names_shape.
Qed.

Lemma same_update j f img : (∀ p, shape (f p) = shape p) → same_map img (update_part j f img).
Proof.
  intros Hf. constructor; try done. cbn. apply list_eq. intros k. rewrite !list_lookup_fmap. destruct (decide (j = k)) as [-> |].
  - rewrite list_lookup_alter_eq. destruct (_ !! k); [| done]. cbn. by rewrite Hf.
  - by rewrite list_lookup_alter_ne.
Qed.

Lemma shape_item v k p : shape (set_items (alter (set_value v) k (op_items p)) p) = shape p.
Proof.
  unfold shape. cbn. assert (E : set_value 0 <$> alter (set_value v) k (op_items p) = set_value 0 <$> op_items p); [| by rewrite E].
  apply list_eq. intros i. rewrite !list_lookup_fmap. destruct (decide (k = i)) as [-> |].
  - rewrite list_lookup_alter_eq. by destruct (_ !! i).
  - by rewrite list_lookup_alter_ne.
Qed.

Lemma merge_part_data_same part img name items img' : merge_part_data part img = Ok (name, items, img') → same_map img img'.
Proof.
  unfold merge_part_data. intros H. do 3 apply bind_Ok_inv in H as (? & _ & H). apply bind_Ok_inv in H as (nm & _ & H). apply bind_Ok_inv in H as (mp & _ & H).
  apply bind_Ok_inv in H as ([j p] & _ & H). apply bind_Ok_inv in H as (lock & _ & H). destruct (lock && _); [done |].
  assert (Hu : same_map img (update_part j (set_lock (YBool lock)) img)) by (apply same_update; done). cbv zeta in H.
  case_bool_decide.
  - apply bind_Ok_inv in H as (count & _ & H). destruct x0 as [| y l]; [| done]. destruct lock; [done |].
    apply bind_Ok_inv in H as (str & _ & H). destruct (_ && _); [done |]. apply bind_Ok_inv in H as (? & _ & H). apply bind_Ok_inv in H as (? & _ & H).
    apply bind_Ok_inv in H as (? & _ & H). by injection H as _ _ <-.
  - apply bind_Ok_inv in H as (? & _ & H). by injection H as _ _ <-.
Qed.

Section merge.
Context (rnd : Random).

Lemma merge_item_inv pname img d g img' g' : merge_item_data rnd pname img (YDict d) g = Ok (img', g') →
  ∃ name j k i v, setdefault "name" (YStr "unknown_name") d = YStr name ∧ get_item pname name (mi_map img) = Ok (Some (j, k, i)) ∧
    0 ≤ oi_size i ∧ random_or_hexvalue rnd d "value" (oi_size i * 8) g = Ok (v, g') ∧ without ["name"; "value"] d = [] ∧
    img' = update_part j (fun p => set_items (alter (set_value v) k (op_items p)) p) img.
Proof.
  intros H. unfold merge_item_data in H. apply M_bind_inv in H as (d' & g1 & Hd%lift_inv & H). destruct Hd as [[= <-] ->].
  apply M_bind_inv in H as (key & g2 & Hk%lift_inv & H). destruct Hk as [Hk ->]. apply M_bind_inv in H as (name & g3 & Hn%lift_inv & H).
  destruct Hn as [->%of_option_inv ->]. apply M_bind_inv in H as (found & g4 & Hf%lift_inv & H). destruct Hf as [Hf ->].
  apply M_bind_inv in H as ([[j k] i] & g5 & Hi%lift_inv & H). destruct Hi as [->%of_option_inv ->].
  apply M_bind_inv in H as (v & g6 & Hv & H). destruct (Z.ltb_spec (oi_size i) 0); [done |].
  apply M_bind_inv in H as ([] & g7 & Hc%lift_inv & H). destruct Hc as [Hc ->]. injection H as <- <-.
  exists name, j, k, i, v. split_and!; try done.
  - unfold lookup_key in Hk. destruct (setdefault _ _ _); try done. by injection Hk as ->.
  - unfold _check_unused_keys in Hc. by destruct (without _ _).
Qed.

Lemma merge_item_same pname img item g img' g' : merge_item_data rnd pname img item g = Ok (img', g') → same_map img img'.
Proof.
  intros H. destruct item as [| | | | | d |]; try done. apply merge_item_inv in H as (? & j & k & ? & v & _ & _ & _ & _ & _ & ->).
  apply same_update. intros p. apply shape_item.
Qed.

Lemma merge_part_same img part g img' g' : merge_part rnd img part g = Ok (img', g') → same_map img img'.
Proof.
  intros H. unfold merge_part in H. apply M_bind_inv in H as ([[name items] img1] & g1 & H1%lift_inv & H). destruct H1 as [H1%merge_part_data_same ->].
  eapply (foldS_inv _ (same_map img)); [| exact H1 | exact H]. intros y acc h acc' h' _ Ha Hm%merge_item_same. by etrans.
Qed.

Lemma merge_parts_same img parts g img' g' : foldS (merge_part rnd) img parts g = Ok (img', g') → same_map img img'.
Proof.
  intros H. eapply (foldS_inv _ (same_map img)); [| reflexivity | exact H]. intros y acc h acc' h' _ Ha Hm%merge_part_same. by etrans.
Qed.

Lemma validate_otp_size y otp : _validate_otp y = Ok otp → otp_size otp = otp_depth otp * otp_width otp ∧ 0 < otp_depth otp.
Proof.
  unfold _validate_otp. intros H. apply bind_Ok_inv in H as (d & _ & H). apply bind_Ok_inv in H as (depth & _ & H).
  apply bind_Ok_inv in H as (width & _ & H). cbv zeta in H. apply bind_Ok_inv in H as (aw & Ha & H). apply bind_Ok_inv in H as (bw & _ & H).
  injection H as <-. cbn. split; [done |]. unfold ceil_log2 in Ha. destruct (Z.leb_spec depth 0); [done | lia].
Qed.

Lemma map_init_size y g m g' : OtpMemMap.init rnd y g = Ok (m, g') → otp_size (om_otp m) = otp_depth (om_otp m) * otp_width (om_otp m) ∧ 0 < otp_depth (om_otp m).
Proof.
  intros H. unfold OtpMemMap.init in H. do 7 apply M_bind_inv in H as (? & ? & _ & H). apply M_bind_inv in H as (otp & ? & Ho%lift_inv & H).
  destruct Ho as [Ho%validate_otp_size ->]. do 2 apply M_bind_inv in H as (? & ? & _ & H). by injection H as <- _.
Qed.

(** An image that the constructor returns. *)
Lemma image_init_inv h fuel lc mmap cfg g img g' : OtpMemImg.init rnd h fuel lc mmap cfg g = Ok (img, g') →
  ∃ m g1, OtpMemMap.init rnd mmap g = Ok (m, g1) ∧ same_map (mkOtpMemImg m (mi_lc img)) img ∧
    otp_width (om_otp m) * 8 = data_width (lc_secded (le_config (mi_lc img))).
Proof.
  intros H. unfold init in H. apply M_bind_inv in H as (m & g1 & Hm & H). apply M_bind_inv in H as (l & g2 & Hl & H).
  apply M_bind_inv in H as (? & ? & _ & H). destruct (Z.eqb_spec (otp_width (om_otp m) * 8) (data_width (lc_secded (le_config l)))) as [Hw |]; [| done]. cbn [negb] in H.
  do 5 apply M_bind_inv in H as (? & ? & _ & H). apply M_bind_inv in H as (img1 & g3 & Hf & H). apply M_bind_inv in H as (? & ? & _ & H). injection H as <- _.
  apply merge_parts_same in Hf. exists m, g1. pose proof (sm_lc _ _ Hf) as El. cbn in El. rewrite El. done.
Qed.

Lemma override_inv cfg img g img' g' : override_data rnd cfg img g = Ok (img', g') → same_map img img'.
Proof.
  intros H. unfold override_data in H. do 2 apply M_bind_inv in H as (? & ? & _ & H). apply M_bind_inv in H as (img1 & g3 & Hf & H).
  do 2 apply M_bind_inv in H as (? & ? & _ & H). injection H as <- _. by apply merge_parts_same in Hf.
Qed.
End merge.

(** ** Scrambling keys *)

Lemma validate_part_key y offset names name mk items : _validate_part y offset names = Ok (name, mk, items) →
  ∀ n, op_secret (mk n) = true → op_key_sel (mk n) ∈ names.
Proof.
  unfold _validate_part. intros H. apply bind_Ok_inv in H as (d & _ & H). cbv zeta in H. apply bind_Ok_inv in H as (secret & _ & H).
  do 6 apply bind_Ok_inv in H as (? & _ & H). apply bind_Ok_inv in H as (key_sel & Hk & H).
  destruct (secret && bool_decide (key_sel = "NoKey")) eqn:Es; [done |].
  apply bind_Ok_inv in H as (? & _ & H). destruct (negb _); [done |]. apply bind_Ok_inv in H as (? & _ & H).
  repeat match type of H with (if ?b then Err _ else _) = Ok _ => destruct b; [done |] end.
  apply bind_Ok_inv in H as (? & _ & H). repeat match type of H with (if ?b then Err _ else _) = Ok _ => destruct b; [done |] end.
  do 2 apply bind_Ok_inv in H as (? & _ & H). injection H as _ <- _. cbn. intros _ ->. cbn in Es. apply bool_decide_eq_false in Es.
  destruct (setdefault "key_sel" _ d); try done. case_bool_decide as Hin; [| done]. injection Hk as ->. by apply elem_of_cons in Hin as [|].
Qed.

Lemma mmap_keys rnd otp scr y g parts g' : _validate_mmap rnd otp scr y g = Ok (parts, g') →
  Forall (fun p => op_secret p = true → op_key_sel p ∈ key_names (sc_keys scr)) parts.
Proof.
  intros H. unfold _validate_mmap in H. destruct y as [| | | | l | |]; try done. apply M_bind_inv in H as ([hi parts'] & ? & Hf & H).
  destruct (_ <? _); [done |]. injection H as <- _.
  change (Forall (fun p => op_secret p = true → op_key_sel p ∈ key_names (sc_keys scr)) (hi, parts').2).
  eapply (foldS_inv _ (fun st => Forall (fun p => op_secret p = true → op_key_sel p ∈ key_names (sc_keys scr)) st.2)); [| | exact Hf]; [| constructor].
  intros z [o ps] h acc' h' _ Hps Hadd. unfold add_part in Hadd. apply M_bind_inv in Hadd as ([[nm mk] its] & ? & Hv%lift_inv & Hadd). destruct Hv as [Hv ->].
  apply M_bind_inv in Hadd as (name & ? & _ & Hadd). destruct (bool_decide _); [done |]. destruct its; try done.
  apply M_bind_inv in Hadd as (st & ? & _ & Hadd). apply M_bind_inv in Hadd as ([o' items] & ? & _ & Hadd). apply M_bind_inv in Hadd as (po & ? & _ & Hadd).
  destruct (_ <? _); [by apply lift_inv in Hadd as [Hadd%no_space_Ok _] |]. injection Hadd as <- _. cbn in Hps |- *.
  apply Forall_app. split; [done |]. apply Forall_singleton. exact (validate_part_key _ _ _ _ _ _ Hv name).
Qed.

Lemma key_found keys k : k ∈ key_names keys → ∃ nk, List.find (key_named k) keys = Some nk ∧ nk ∈ keys.
Proof.
  unfold key_names. intros ((y & v) & Hin & Hs)%list_elem_of_omap. cbn in Hs. destruct y; try done. injection Hs as ->.
  destruct (List.find (key_named k) keys) as [nk |] eqn:E.
  - exists nk. split; [done |]. apply find_some in E as [E _]. by apply list_elem_of_In.
  - exfalso. apply list_elem_of_In in Hin. pose proof (find_none _ _ E _ Hin) as Hn. unfold key_named in Hn. cbn in Hn. by rewrite bool_decide_eq_true_2 in Hn.
Qed.

(** What the descriptions must be besides what the constructor checks: sizes are not negative, values are
    numbers, the block of a hardware digest is left alone, and the constants have their widths. *)
Record inputs_ok (img : OtpMemImg) : Prop := {
  in_parts p : p ∈ om_partitions (mi_map img) → 0 ≤ op_size p ∧ Forall size_ok (op_items p) ∧ Forall value_ok (op_items p);
  in_keys k : k ∈ sc_keys (om_scrambling (mi_map img)) → in_bits 128 k.2;
  in_digest p : p ∈ om_partitions (mi_map img) → op_hw_digest p = true → (∀ d, last (op_items p) = Some d → oi_value d = None) ∧
    ∃ name iv const, sc_digests (om_scrambling (mi_map img)) !! 0%nat = Some (name, iv, const) ∧ in_bits 64 iv;
}.

Lemma image_init_ok rnd h fuel lc mmap cfg g img g' : OtpMemImg.init rnd h fuel lc mmap cfg g = Ok (img, g') → plain mmap → inputs_ok img → image_ok img.
Proof.
  intros H Hp [Hin Hkeys Hdig]. apply image_init_inv in H as (m & g1 & Hm & Hsame & _).
  pose proof (map_layout_same _ _ Hsame (init_layout rnd _ _ _ _ Hm Hp)) as Hlay. split; [done |]. intros p o Hpin Ho.
  destruct (Hin p Hpin) as (Hs & Hi & Hv). destruct Hlay as (hi & Hlay & _). destruct (parts_layout_elem _ _ _ p Hlay Hpin) as (o' & Hpl).
  assert (o = o') as <- by (pose proof (pl_offset _ _ Hpl); congruence). constructor; try done; [| by apply Hdig].
  intros Hsec. assert (Hk : op_key_sel p ∈ key_names (sc_keys (om_scrambling (mi_map img)))).
  { rewrite (sm_scrambling _ _ Hsame). cbn. unfold OtpMemMap.init in Hm. do 8 apply M_bind_inv in Hm as (? & ? & _ & Hm).
    apply M_bind_inv in Hm as (scr & ? & _ & Hm). apply M_bind_inv in Hm as (parts & ? & Hval%mmap_keys & Hm). injection Hm as <- _. cbn.
    apply list_elem_of_lookup in Hpin as (j & Hj). pose proof (f_equal (.!! j) (sm_parts _ _ Hsame)) as E. cbn in E. rewrite !list_lookup_fmap, Hj in E. cbn in E.
    destruct (parts !! j) as [q |] eqn:Eq; [| done]. apply (inj Some) in E. assert (Ek : op_key_sel p = op_key_sel q) by exact (f_equal op_key_sel E).
    assert (Es : op_secret p = op_secret q) by exact (f_equal op_secret E). rewrite Ek. apply (Forall_lookup_1 _ _ _ _ Hval Eq). congruence. }
  apply key_found in Hk as (nk & Hf & Hnk). unfold part_key. rewrite Hf. split; [done | by apply Hkeys].
Qed.

Lemma list_alter_eq_insert {A} (f : A → A) (l : list A) j x : l !! j = Some x → alter f j l = <[j := f x]> l.
Proof. revert j. induction l as [| y l IH]; intros [| j] H; try done; [by injection H as -> |]. cbn. f_equal. by apply IH. Qed.

(** ** Properties *)

(** C37: A memory map that the constructor accepts, from a description without explicit offsets, has its
    partitions one after the other within the memory, with offsets and sizes of whole 64-bit words, their
    items in order and the digest, where there is one, as the last block; the names of the partitions are
    distinct, so are those of the items of a partition, and the lookups find exactly what is there.  If no
    item has a negative size, which the constructor does not check, every item lies within its partition
    and no two items of the map share a byte. *)
Theorem otp_map_layout rnd y g m g' : OtpMemMap.init rnd y g = Ok (m, g') → plain y →
  (∃ hi, parts_layout 0 (om_partitions m) hi ∧ hi ≤ otp_size (om_otp m)) ∧
  NoDup (op_name <$> om_partitions m) ∧ (∀ p, p ∈ om_partitions m → NoDup (oi_name <$> op_items p)) ∧
  (∀ name, OtpMemMap.get_part name m = Ok (list_find (fun p => op_name p = name) (om_partitions m))) ∧
  (∀ pname iname, OtpMemMap.get_item pname iname m = Ok (
     jp ← list_find (fun p => op_name p = pname) (om_partitions m);
     ki ← list_find (fun i => oi_name i = iname) (op_items jp.2);
     Some (jp.1, ki.1, ki.2))) ∧
  (parts_sized (om_partitions m) →
   ∀ j p k i a, om_partitions m !! j = Some p → op_items p !! k = Some i → in_item i a →
    (∃ o, op_offset p = YInt o ∧ o ≤ a < o + op_size p) ∧
    ∀ j' p' k' i', om_partitions m !! j' = Some p' → op_items p' !! k' = Some i' → in_item i' a → j' = j ∧ k' = k).
Proof.
  intros H Hp. pose proof (init_layout rnd y g m g' H Hp) as Hm. pose proof Hm as (hi & Hlay & Hhi & Hnd & _). split; [by exists hi |]. split; [done |].
  split. { intros p (o & Hpl)%(parts_layout_elem _ _ _ p Hlay). apply (pl_names _ _ Hpl). }
  split; [intros name; by apply get_part_ok |]. split; [intros pname iname; by apply get_item_ok |]. intros Hs.
  assert (Hitem : ∀ j p k i a, om_partitions m !! j = Some p → op_items p !! k = Some i → in_item i a →
    ∃ o, part_layout o p ∧ ordered o (op_items p) (o + op_size p) ∧ o ≤ a < o + op_size p).
  { intros j p k i a Hj Hk Ha. destruct (parts_layout_lookup _ _ _ _ _ Hlay Hs Hj) as (o & Hpl & _). exists o.
    pose proof (part_ordered o p Hpl (Forall_lookup_1 _ _ _ _ Hs Hj)) as Hord.
    split; [done |]. split; [done |]. eapply ordered_in; [exact Hord | by eapply list_elem_of_lookup_2 | done]. }
  intros j p k i a Hj Hk Ha. destruct (Hitem j p k i a Hj Hk Ha) as (o & Hpl & Hord & Hin). split; [by exists o; split; [apply Hpl |] |].
  intros j' p' k' i' Hj' Hk' Ha'. destruct (Hitem j' p' k' i' a Hj' Hk' Ha') as (o' & Hpl' & _ & Hin').
  assert (j' = j) as -> by (by eapply (parts_apart 0 _ hi j j' p p' o o' a); try done; [apply (pl_offset _ _ Hpl) | apply (pl_offset _ _ Hpl')]).
  split; [done |]. rewrite Hj in Hj'. injection Hj' as <-. by eapply (ordered_disjoint o _ _ k' k i' i a).
Qed.

(** Streaming out a partition that is placed, has its key and an empty digest raises nothing and what it returns reads back: descrambled with the
    key of the partition the blocks hold exactly the bytes of the items, the block of a hardware digest
    is the digest of the scrambled blocks before it if the partition is locked and zero otherwise, and
    blocks without a value are not scrambled. *)
Theorem otp_partition_readback scr o p : part_ok scr o p →
  ∃ data annotation, streamout_partition scr p = Ok (data, annotation) ∧ read_back scr o p data annotation.
Proof. apply streamout_ok. Qed.

(** C8: An image that the constructor returns, from a memory map without explicit offsets, with values that
    are numbers, sizes that are not negative, keys and an initialisation vector of 128 and 64 bits and no
    value for a hardware digest ([inputs_ok]), and with a matrix whose rows refer to data bits and earlier
    parity bits and words of at most 64 data bits, is written without an exception: the memory is the partitions one after the other, each of which reads back, and
    zeros; line [k] of the file is a valid code word whose data are the bytes of word [k]. *)
Theorem otp_image_file rnd h fuel lc mmap cfg g img g' : OtpMemImg.init rnd h fuel lc mmap cfg g = Ok (img, g') → plain mmap → inputs_ok img →
  let sd := lc_secded (le_config (mi_lc img)) in
  causal sd → data_width sd ≤ 64 →
  ∃ outs n words, let data := concat outs.*1 ++ replicate n 0 in
    stream_bytes img = Ok (data, concat outs.*2 ++ replicate n "") ∧ Z.of_nat (length data) = otp_size (om_otp (mi_map img)) ∧
    Forall2 (fun p out => streamout_partition (om_scrambling (mi_map img)) p = Ok out ∧
      ∃ o, op_offset p = YInt o ∧ read_back (om_scrambling (mi_map img)) o p out.1 out.2) (om_partitions (mi_map img)) outs ∧
    streamout_hexfile img = Ok (hexfile_header sd (otp_depth (om_otp (mi_map img))) :: (hexfile_line sd <$> words)) ∧
    Forall2 (fun k w => word_of sd (Z.to_nat (otp_width (om_otp (mi_map img)))) data k w.1) (seq 0 (Z.to_nat (otp_depth (om_otp (mi_map img))))) words.
Proof.
  intros H Hp Hin sd Hc H64. pose proof (image_init_ok _ _ _ _ _ _ _ _ _ H Hp Hin) as Hok.
  apply image_init_inv in H as (m & g1 & Hm & Hsame & Hw). fold sd in Hw. pose proof (map_init_size _ _ _ _ _ Hm) as [Hsz Hd].
  pose proof (sm_otp _ _ Hsame) as Eo. cbn in Eo. rewrite Eo. set (otp := om_otp m) in *. pose proof (ca_data _ Hc) as Hdw.
  destruct (stream_bytes_ok img Hok) as (outs & n & Es & Hl & Hla & Hall). rewrite Eo in Hl.
  set (data := concat outs.*1 ++ replicate n 0) in *. set (ann := concat outs.*2 ++ replicate n "") in *.
  assert (Hlen : length data = (Z.to_nat (otp_depth otp) * Z.to_nat (otp_width otp))%nat).
  { unfold data. rewrite length_app, length_replicate. apply Nat2Z.inj. rewrite Hl, Hsz, Nat2Z.inj_mul, !Z2Nat.id by lia. done. }
  assert (Hbits : Forall (in_bits 8) data).
  { apply Forall_app. split; [| by apply Forall_replicate]. clear -Hall. induction Hall as [| p out ps outs (_ & o & _ & Hrb) _ IH]; [constructor |].
    cbn. apply Forall_app. split; [apply Hrb | exact IH]. }
  destruct (hexfile_words_ok sd Hc (Z.to_nat (otp_width otp)) ltac:(lia) data ann Hbits) with (m := Z.to_nat (otp_depth otp)) as (words & Ew & Hwords);
    [unfold ann, data; rewrite !length_app, !length_replicate; lia | lia | done |].
  exists outs, n, words. cbv zeta. split_and!; [done | unfold data; rewrite length_app, length_replicate; done | done | | done].
  unfold streamout_hexfile. rewrite Es. cbn [mbind res_bind]. unfold _to_hexfile_with_ecc. fold sd. rewrite Ew. cbn [mbind res_bind]. do 3 f_equal.
  rewrite Hlen, Nat2Z.inj_mul, !Z2Nat.id, <- Hw by lia. symmetry. apply Z.div_unique_exact; lia.
Qed.

(** Merging an item that is accepted gives exactly that item of the map the value that [random_or_hexvalue]
    reads from the description, which is below the range of the item but may be negative, and keeps the
    layout; the description has no other keys. *)
Theorem otp_item_merged rnd pname img d g img' g' : random_ok rnd → map_layout (mi_map img) → merge_item_data rnd pname img (YDict d) g = Ok (img', g') →
  ∃ name j p k i v, setdefault "name" (YStr "unknown_name") d = YStr name ∧
    list_find (fun p => op_name p = pname) (om_partitions (mi_map img)) = Some (j, p) ∧
    list_find (fun i => oi_name i = name) (op_items p) = Some (k, i) ∧
    random_or_hexvalue rnd d "value" (oi_size i * 8) g = Ok (v, g') ∧ v < 2 ^ (8 * oi_size i) ∧
    om_partitions (mi_map img') = <[j := set_items (<[k := set_value v i]> (op_items p)) p]> (om_partitions (mi_map img)) ∧
    without ["name"; "value"] d = [] ∧ map_layout (mi_map img').
Proof.
  intros Hrnd Hm H. pose proof (map_layout_same _ _ (merge_item_same _ _ _ _ _ _ _ H) Hm) as Hm'.
  apply merge_item_inv in H as (name & j & k & i & v & Hn & Hf & Hs & Hv & Hk & ->). rewrite get_item_ok in Hf by done.
  destruct (list_find _ (om_partitions _)) as [[j' p] |] eqn:Ep; [| done]. cbn [mbind option_bind fst snd] in Hf.
  destruct (list_find _ (op_items p)) as [[k' i'] |] eqn:Ei; [| done]. injection Hf as -> -> ->.
  apply list_find_Some in Ep as (Hj & Hpn & Hpf). pose proof Ei as (Hki & _ & _)%list_find_Some.
  exists name, j, p, k, i, v. split_and!; try done.
  - revert Hv. unfold random_or_hexvalue. destruct (setdefault "value" _ d); try done. case_bool_decide.
    + unfold getrandbits. rewrite (proj2 (Z.ltb_ge _ _)) by lia. intros [= <- _]. rewrite (Z.mul_comm 8). apply (rnd_bits_ok _ Hrnd). lia.
    + intros [Hv _]%lift_inv. destruct (int_hex s) as [z |]; [| done]. unfold out_of_range in Hv. rewrite (proj2 (Z.ltb_ge _ _)) in Hv by lia.
      destruct (Z.leb_spec (2 ^ (oi_size i * 8)) z); [done |]. injection Hv as <-. by rewrite (Z.mul_comm 8).
  - cbn. rewrite (list_alter_eq_insert _ _ j p) by done. do 2 f_equal. by rewrite (list_alter_eq_insert _ _ k i).
Qed.

(** ** A small memory *)

Definition inputs_okb (img : OtpMemImg) : bool :=
  let scr := om_scrambling (mi_map img) in
  forallb (fun p => (0 <=? op_size p) &&
    forallb (fun i => (0 <=? oi_size i) && match oi_value i with None | Some (YInt _) => true | _ => false end) (op_items p)) (om_partitions (mi_map img)) &&
  forallb (fun k : yaml * Z => (0 <=? k.2) && (k.2 <? 2 ^ 128)) (sc_keys scr) &&
  match sc_digests scr with (_, iv, _) :: _ => (0 <=? iv) && (iv <? 2 ^ 64) | [] => false end &&
  forallb (fun p => negb (op_hw_digest p) ||
    match last (op_items p) with Some d => match oi_value d with None => true | _ => false end | None => true end) (om_partitions (mi_map img)).

Lemma inputs_okb_sound img : inputs_okb img = true → inputs_ok img.
Proof.
  unfold inputs_okb. intros [[[H1 H2]%andb_true_iff H3]%andb_true_iff H4]%andb_true_iff. rewrite forallb_forall in H1, H2, H4. constructor.
  - intros p Hp%list_elem_of_In. apply H1, andb_true_iff in Hp as [?%Z.leb_le Hi]. rewrite forallb_forall in Hi. split; [done |].
    split; apply Forall_forall; intros i Hin%list_elem_of_In; apply Hi, andb_true_iff in Hin as [?%Z.leb_le Hv]; [done |]. unfold value_ok.
    destruct (oi_value i) as [[] |]; try done; [right; by eexists | by left].
  - intros k Hk%list_elem_of_In. apply H2, andb_true_iff in Hk as [?%Z.leb_le ?%Z.ltb_lt]. by split.
  - intros p Hp%list_elem_of_In Hh. apply H4 in Hp. rewrite Hh in Hp. cbn in Hp. split.
    + intros d Hd. rewrite Hd in Hp. by destruct (oi_value d).
    + destruct (sc_digests _) as [| [[nm iv] c] ds]; [done |]. apply andb_true_iff in H3 as [?%Z.leb_le ?%Z.ltb_lt]. exists nm, iv, c. by split.
Qed.

Definition yd (l : list (string * yaml)) : yaml := YDict ((fun kv => (YStr kv.1, kv.2)) <$> l).

(** Forty bytes: a secret partition with a digest and the life cycle. *)
Definition small_mmap : yaml :=
  yd [("seed", YStr "7"); ("otp", yd [("depth", YInt 40); ("width", YInt 1)]);
      ("scrambling", yd [("key_size", YInt 16); ("iv_size", YInt 8); ("cnst_size", YInt 16);
         ("keys", YList [yd [("name", YStr "Secret0Key"); ("value", YStr "0x0123456789abcdef0123456789abcdef")]]);
         ("digests", YList [yd [("name", YStr "CnstyDigest"); ("iv_value", YStr "0x90C7F21F6224F027");
                                ("cnst_value", YStr "0xF98C48B1F93772844A22D4B78FE0266F")]])]);
      ("partitions", YList [
         yd [("name", YStr "SECRET0"); ("variant", YStr "Buffered"); ("secret", YBool true); ("hw_digest", YBool true); ("bkout_type", YStr "false");
             ("size", YInt 24); ("key_sel", YStr "Secret0Key"); ("write_lock", YStr "Digest"); ("read_lock", YStr "Digest");
             ("items", YList [yd [("name", YStr "TOKEN"); ("size", YInt 6)]; yd [("name", YStr "SPARE"); ("size", YInt 8); ("inv_default", YStr "<random>")]])];
         yd [("name", YStr "LIFE_CYCLE"); ("variant", YStr "LifeCycle"); ("bkout_type", YStr "false"); ("size", YInt 8);
             ("items", YList [yd [("name", YStr "LC_TRANSITION_CNT"); ("size", YInt 1)]; yd [("name", YStr "LC_STATE"); ("size", YInt 2)]])]])].

Definition small_cfg : list (yaml * yaml) :=
  [(YStr "seed", YStr "3");
   (YStr "partitions", YList [
      yd [("name", YStr "SECRET0"); ("lock", YStr "true"); ("items", YList [yd [("name", YStr "TOKEN"); ("value", YStr "0x112233445566")]])];
      yd [("name", YStr "LIFE_CYCLE"); ("state", YStr "TEST"); ("count", YInt 1)]])].

Lemma small_plain : plain small_mmap.
Proof.
  intros d l [= <-] [= <-]. rewrite !Forall_cons, Forall_nil.
  split_and!; [intros d [= <-]; split; [done |]; intros its [= <-]; rewrite !Forall_cons, Forall_nil; split_and!; [intros d' [= <-]; done.. | done].. | done].
Qed.

Definition small_map_init : res (OtpMemMap * rng) := OtpMemMap.init some_random small_mmap (mkRng 0 0).
Definition small_map : OtpMemMap :=
  match small_map_init with
  | Ok (m, _) => m
  | Err _ => mkOtpMemMap 0 (mkOtp 0 0 0 0 0) (mkScrambling 0 0 0 [] []) [] []
  end.
Definition small_image_init : res (OtpMemImg * rng) :=
  OtpMemImg.init some_random (fun _ _ => 0) 20 small_desc small_mmap small_cfg (mkRng 0 0).
Definition small_image : OtpMemImg := match small_image_init with Ok (img, _) => img | Err _ => mkOtpMemImg small_map small_object end.

Lemma small_map_ok : ∃ g', small_map_init = Ok (small_map, g').
Proof. unfold small_map. destruct small_map_init as [[m g'] |] eqn:E; [by exists g' |]. by vm_compute in E. Qed.
Lemma small_image_ok : ∃ g', small_image_init = Ok (small_image, g').
Proof. unfold small_image. destruct small_image_init as [[m g'] |] eqn:E; [by exists g' |]. by vm_compute in E. Qed.
Lemma small_inputs_ok : inputs_ok small_image.
Proof. apply inputs_okb_sound. by vm_compute. Qed.

Lemma small_part_ok : ∃ p, om_partitions (mi_map small_image) !! 0%nat = Some p ∧ part_ok (om_scrambling (mi_map small_image)) 0 p ∧
  op_name p = "SECRET0" ∧ py_truth (op_lock p) = true.
Proof.
  destruct small_image_ok as (g' & E). pose proof (image_init_ok _ _ _ _ _ _ _ _ _ E small_plain small_inputs_ok) as [_ Hok].
  assert (Hf : (fun p => (op_offset p, op_name p, py_truth (op_lock p))) <$> om_partitions (mi_map small_image) !! 0%nat = Some (YInt 0, "SECRET0", true))
    by (vm_compute; reflexivity).
  clear E. revert Hok Hf. generalize (om_scrambling (mi_map small_image)) (om_partitions (mi_map small_image)). intros scr [| p parts] Hok; [discriminate |].
  intros [= Ho Hn Hl]. exists p. split; [done |]. split; [| done]. apply Hok; [by left | done].
Qed.

Lemma small_map_sized : parts_sized (om_partitions small_map).
Proof. apply (bool_decide_unpack _). by vm_compute. Qed.

Lemma otp_map_layout_witness : ∃ m, op_name <$> om_partitions m = ["SECRET0"; "LIFE_CYCLE"] ∧ (∃ hi, parts_layout 0 (om_partitions m) hi ∧ hi ≤ otp_size (om_otp m)) ∧
  ∀ j p k i a, om_partitions m !! j = Some p → op_items p !! k = Some i → in_item i a → ∃ o, op_offset p = YInt o ∧ o ≤ a < o + op_size p.
Proof.
  destruct small_map_ok as (g' & E). exists small_map. split; [by vm_compute |].
  destruct (otp_map_layout some_random small_mmap (mkRng 0 0) small_map g' E small_plain) as (Hl & _ & _ & _ & _ & Hi).
  split; [exact Hl |]. intros j p k i a Hj Hk Ha. exact (proj1 (Hi small_map_sized j p k i a Hj Hk Ha)).
Defined.

Lemma otp_partition_readback_witness : ∃ scr p, op_name p = "SECRET0" ∧ py_truth (op_lock p) = true ∧
  ∃ data annotation, streamout_partition scr p = Ok (data, annotation) ∧ read_back scr 0 p data annotation.
Proof.
  destruct small_part_ok as (p & _ & Hp & Hn & Hl). exists (om_scrambling (mi_map small_image)), p. split; [exact Hn |]. split; [exact Hl |].
  exact (otp_partition_readback _ 0 p Hp).
Defined.

Lemma otp_image_file_witness : ∃ words, streamout_hexfile small_image =
  Ok ("// OTP memory hexfile with 40 x 16bit layout" :: (hexfile_line (mkSecded 8 1 [seqZ 0 8]) <$> words)).
Proof.
  destruct small_image_ok as (g' & E).
  destruct (otp_image_file some_random (fun _ _ => 0) 20 small_desc small_mmap small_cfg (mkRng 0 0) small_image g' E small_plain small_inputs_ok)
    as (outs & n & words & _ & _ & _ & H & _).
  - apply causalb_sound. vm_compute. reflexivity.
  - by vm_compute.
  - exists words. rewrite H. vm_compute. reflexivity.
Defined.

(** The text of the first lines. *)
Example small_file : take 3 <$> streamout_hexfile small_image =
  Ok ["// OTP memory hexfile with 40 x 16bit layout"; "007d // 000000: SECRET0: TOKEN"; "00a5 // 000001: SECRET0: TOKEN"].
Proof. vm_compute. reflexivity. Qed.

Definition token_desc : list (yaml * yaml) := [(YStr "name", YStr "TOKEN"); (YStr "value", YStr "0xffffffffffff")].

Lemma otp_item_merged_witness : ∃ img' g', merge_item_data some_random "SECRET0" (mkOtpMemImg small_map small_object) (YDict token_desc) (mkRng 0 0) = Ok (img', g') ∧
  map_layout (mi_map img').
Proof.
  destruct small_map_ok as (g0 & E). pose proof (init_layout _ _ _ _ _ E small_plain) as Hm.
  destruct (merge_item_data some_random "SECRET0" (mkOtpMemImg small_map small_object) (YDict token_desc) (mkRng 0 0)) as [[img' g'] |] eqn:Em; [| by vm_compute in Em].
  exists img', g'. split; [reflexivity |].
  destruct (otp_item_merged some_random "SECRET0" (mkOtpMemImg small_map small_object) token_desc (mkRng 0 0) img' g' some_random_ok Hm Em)
    as (? & ? & ? & ? & ? & ? & _ & _ & _ & _ & _ & _ & _ & H). exact H.
Defined.

(** A value that does not fit is refused, and a negative one is accepted. *)
Example token_too_large : merge_item_data some_random "SECRET0" small_image (yd [("name", YStr "TOKEN"); ("value", YStr "0x1000000000000")]) (mkRng 0 0) = Err RuntimeError.
Proof. vm_compute. reflexivity. Qed.
Example token_negative : ∃ img' g', merge_item_data some_random "SECRET0" small_image (yd [("name", YStr "TOKEN"); ("value", YStr "-0x1")]) (mkRng 0 0) = Ok (img', g').
Proof. eexists _, _. vm_compute. reflexivity. Qed.

(** Only a partition with a hardware digest can be locked. *)
Example lock_refused : merge_part_data (yd [("name", YStr "LIFE_CYCLE"); ("lock", YBool true)]) small_image = Err RuntimeError.
Proof. vm_compute. reflexivity. Qed.

(** An additional configuration without a seed. *)
Example override_without_seed : override_data some_random [(YStr "partitions", YList [])] small_image (mkRng 0 0) = Err KeyError.
Proof. vm_compute. reflexivity. Qed.

(** With an explicit offset for the partition its first item is still placed after the partition before
    it, and its bytes end up at the other end of the partition. *)
Definition offset_mmap : yaml :=
  yd [("seed", YInt 1); ("otp", yd [("depth", YInt 32); ("width", YInt 1)]); ("scrambling", yd [("keys", YList []); ("digests", YList [])]);
      ("partitions", YList [yd [("name", YStr "P"); ("variant", YStr "Buffered"); ("bkout_type", YStr "false"); ("size", YInt 16); ("offset", YInt 8);
        ("items", YList [yd [("name", YStr "A"); ("size", YInt 1); ("value", YInt 0x5A)]])]])].
Example offset_ignored :
  match OtpMemMap.init some_random offset_mmap (mkRng 0 0) with
  | Ok (m, _) => mapR (fun p => out ← streamout_partition (om_scrambling m) p; Ok out.1) (om_partitions m) = Ok [replicate 8 0 ++ [0x5A] ++ replicate 7 0]
  | Err _ => False
  end.
Proof. vm_compute. reflexivity. Qed.
