(* ===== verification/Tlgen.v ===== *)
(** The crossbar generator (util/tlgen: item.py, xbar.py, elaborate.py): a crossbar is a graph of nodes
    and edges that elaboration extends with FIFOs and sockets.  The objects that the lists of the source
    share are numbered: a node is its position in [nodes], an edge its position in [edges]. *)

From Stdlib Require Import Ascii.
From stdpp Require Import pretty.
From S2P Require Import Prelude PyList Yaml.

#[local] Open Scope string_scope.
#[local] Open Scope stdpp_scope.
#[local] Open Scope list_scope.
#[local] Open Scope Z_scope.

Inductive NodeType := HOST | DEVICE | ASYNC_FIFO | SOCKET_1N | SOCKET_M1.
#[export] Instance NodeType_eq_dec : EqDecision NodeType.
Proof. solve_decision. Defined.

Record Edge := mkEdge { us_of : nat; ds_of : nat }.

(** The settings of the FIFOs are attributes that only sockets made by the elaboration have; [n_xbar] is the
    attribute [xbar] of a device. *)
Record Node := mkNode {
  n_name : string;
  node_type : NodeType;
  clocks : list string;
  resets : list string;
  addr_range : list (Z * Z);
  n_us : list nat;
  n_ds : list nat;
  pipeline : bool;
  pipeline_byp : bool;
  hdepth : option Z;
  hpass : option Z;
  ddepth : option Z;
  dpass : option Z;
  n_xbar : option yaml;
}.

Definition set_us (l : list nat) (n : Node) : Node :=
  mkNode (n_name n) (node_type n) (clocks n) (resets n) (addr_range n) l (n_ds n) (pipeline n) (pipeline_byp n) (hdepth n) (hpass n) (ddepth n) (dpass n) (n_xbar n).
Definition set_ds (l : list nat) (n : Node) : Node :=
  mkNode (n_name n) (node_type n) (clocks n) (resets n) (addr_range n) (n_us n) l (pipeline n) (pipeline_byp n) (hdepth n) (hpass n) (ddepth n) (dpass n) (n_xbar n).
Definition set_host_fifo (pass depth : Z) (n : Node) : Node :=
  mkNode (n_name n) (node_type n) (clocks n) (resets n) (addr_range n) (n_us n) (n_ds n) (pipeline n) (pipeline_byp n)
    (Some depth) (Some pass) (ddepth n) (dpass n) (n_xbar n).
Definition set_device_fifo (pass depth : Z) (n : Node) : Node :=
  mkNode (n_name n) (node_type n) (clocks n) (resets n) (addr_range n) (n_us n) (n_ds n) (pipeline n) (pipeline_byp n)
    (hdepth n) (hpass n) (Some depth) (Some pass) (n_xbar n).

Module Node.
Definition init (name : string) (node_type : NodeType) (clock reset : string) : Node :=
  mkNode name node_type [clock] [reset] [] [] [] false true None None None None None.

Fixpoint esc_chars (s : string) : string :=
  match s with
  | EmptyString => EmptyString
  | String "."%char s => String "_" (String "_" (esc_chars s))
  | String c s => String c (esc_chars s)
  end.
Definition esc_name (n : Node) : string := esc_chars (n_name n).
End Node.

Record Xbar := mkXbar {
  xb_clock : string;
  xb_reset : string;
  xb_name : string;
  nodes : list Node;
  edges : list Edge;
  xb_clocks : list string;
  xb_resets : list string;
}.

Definition set_graph (ns : list Node) (es : list Edge) (x : Xbar) : Xbar :=
  mkXbar (xb_clock x) (xb_reset x) (xb_name x) ns es (xb_clocks x) (xb_resets x).

(** The object that a number stands for. *)
Definition node_at (x : Xbar) (n : nat) : res Node := of_option IndexError (nodes x !! n).
Definition edge_at (x : Xbar) (e : nat) : res Edge := of_option IndexError (edges x !! e).

Module Xbar.

(** [[n for n in self.nodes if p(n)]] *)
Definition nodes_with (p : Node → bool) (x : Xbar) : list nat :=
  filter (fun n => from_option p false (nodes x !! n) = true) (seq 0 (length (nodes x))).
Definition of_type (t : NodeType) : Xbar → list nat := nodes_with (fun nd => bool_decide (node_type nd = t)).
Definition hosts : Xbar → list nat := of_type HOST.
Definition devices : Xbar → list nat := of_type DEVICE.
Definition socket_1ns : Xbar → list nat := of_type SOCKET_1N.

(** An edge has no attribute [ns]. *)
Definition get_edges_from_node (x : Xbar) (n : nat) : res (list nat) :=
  match edges x with [] => Ok [] | _ => Err AttributeError end.

(** [raise] without an exception is a RuntimeError. *)
Definition get_node (name : string) (x : Xbar) : res nat :=
  match nodes_with (fun nd => bool_decide (n_name nd = name)) x with
  | [n] => Ok n
  | _ => Err RuntimeError
  end.

(** [node.ds[i].ds] *)
Definition below (x : Xbar) (nd : Node) (i : Z) : res nat :=
  e ← py_nth (n_ds nd) i;
  ed ← edge_at x e;
  Ok (ds_of ed).

Fixpoint get_downstream_device (fuel : nat) (x : Xbar) (n : nat) : res nat :=
  match fuel with
  | O => Err OutOfFuel
  | S fuel =>
      nd ← node_at x n;
      if decide (node_type nd = DEVICE) then Ok n
      else m ← below x nd 0; get_downstream_device fuel x m
  end.

Definition get_downstream_device_from_edge (fuel : nat) (x : Xbar) (e : nat) : res nat :=
  ed ← edge_at x e;
  get_downstream_device fuel x (ds_of ed).

Definition get_leaf_from_s1n (fuel : nat) (x : Xbar) (n : nat) (idx : Z) : res nat :=
  nd ← node_at x n;
  m ← below x nd idx;
  get_downstream_device fuel x m.

Fixpoint get_s1n_if_exist (fuel : nat) (x : Xbar) (n : nat) : res nat :=
  match fuel with
  | O => Err OutOfFuel
  | S fuel =>
      nd ← node_at x n;
      if decide (node_type nd = DEVICE) then Ok n
      else if decide (node_type nd = SOCKET_1N) then Ok n
      else m ← below x nd 0; get_s1n_if_exist fuel x m
  end.

Definition get_leaf_from_node (fuel : nat) (x : Xbar) (n : nat) (idx : Z) : res nat :=
  s ← get_s1n_if_exist fuel x n;
  node_at x s;;
  get_leaf_from_s1n fuel x s idx.

Definition get_devices_from_host (fuel : nat) (x : Xbar) (host : nat) : res (list nat) :=
  s ← get_s1n_if_exist fuel x host;
  nd ← node_at x s;
  mapR (get_downstream_device_from_edge fuel x) (n_ds nd).

(** A node has no attribute [address_from]. *)
Definition get_addr (device : nat) : res (Z * Z) := Err AttributeError.

Definition name_of (x : Xbar) (n : nat) : option string := n_name <$> nodes x !! n.

Definition connect_nodes (u_node d_node : string) (x : Xbar) : res (bool * Xbar) :=
  upNode ← get_node u_node x;
  dnNode ← get_node d_node x;
  if existsb (fun e => bool_decide (name_of x (us_of e) = name_of x upNode ∧ name_of x (ds_of e) = name_of x dnNode)) (edges x)
  then Ok (false, x)
  else
    let e := length (edges x) in
    let add_ds nd := set_ds (n_ds nd ++ [e]) nd in
    let add_us nd := set_us (n_us nd ++ [e]) nd in
    Ok (true, set_graph (alter add_us dnNode (alter add_ds upNode (nodes x))) (edges x ++ [mkEdge upNode dnNode]) x).

(** [for e in l: e.us = m] and [for e in l: e.ds = m] *)
Definition redirect_us (m : nat) (l : list nat) (es : list Edge) : list Edge := foldl (fun es e => alter (fun ed => mkEdge m (ds_of ed)) e es) es l.
Definition redirect_ds (m : nat) (l : list nat) (es : list Edge) : list Edge := foldl (fun es e => alter (fun ed => mkEdge (us_of ed) m) e es) es l.

(** The new node takes over the edges below the node, or those above it. *)
Definition insert_below (new_node : Node) (n : nat) (x : Xbar) : res Xbar :=
  nd ← node_at x n;
  let m := length (nodes x) in
  let e := length (edges x) in
  let new_node := set_us [e] (set_ds (n_ds nd) new_node) in
  Ok (set_graph (alter (set_ds [e]) n (nodes x) ++ [new_node]) (redirect_us m (n_ds nd) (edges x ++ [mkEdge n m])) x).

Definition insert_above (new_node : Node) (n : nat) (x : Xbar) : res Xbar :=
  nd ← node_at x n;
  let m := length (nodes x) in
  let e := length (edges x) in
  let new_node := set_us (n_us nd) (set_ds [e] new_node) in
  Ok (set_graph (alter (set_us [e]) n (nodes x) ++ [new_node]) (redirect_ds m (n_us nd) (edges x ++ [mkEdge m n])) x).

Definition insert_node (new_node : Node) (n : nat) (x : Xbar) : res Xbar :=
  nd ← node_at x n;
  match node_type new_node, node_type nd with
  | ASYNC_FIFO, HOST => insert_below new_node n x
  | ASYNC_FIFO, DEVICE => insert_above new_node n x
  | ASYNC_FIFO, _ => Err RuntimeError
  | SOCKET_M1, _ => insert_above new_node n x
  | SOCKET_1N, _ => insert_below new_node n x
  | _, _ => Ok x
  end.

(** The tree below a node, for a comment. *)
Fixpoint spaces (n : nat) (s : string) : string := match n with O => s | S n => String " " (spaces n s) end.
Definition newline : string := String (Ascii.ascii_of_nat 10) EmptyString.

Fixpoint repr_tree (fuel : nat) (x : Xbar) (n : nat) (indent : nat) : res string :=
  match fuel with
  | O => Err OutOfFuel
  | S fuel =>
      nd ← node_at x n;
      let out := "// " +:+ (if decide (indent = O) then "" else spaces indent "-> ") +:+ n_name nd in
      if decide (node_type nd = DEVICE) then Ok out
      else
        foldM (fun out e =>
          ed ← edge_at x e;
          sub ← repr_tree fuel x (ds_of ed) (indent + 2);
          Ok (out +:+ newline +:+ sub)) out (n_ds nd)
  end.
End Xbar.

(** ** Elaboration *)

Module Elaborate.
Import Xbar.

(** [prefix + str(len(xbar.nodes))] *)
Definition new_name (prefix : string) (x : Xbar) : string := prefix +:+ pretty (length (nodes x)).

Definition first (l : list string) : res string := py_nth l 0.

Definition async_fifo (nd : Node) (x : Xbar) : res Node :=
  clock ← first (clocks nd);
  reset ← first (resets nd);
  let new_node := Node.init (new_name "asf_" x) ASYNC_FIFO (xb_clock x) (xb_reset x) in
  let '(cs, rs) := if decide (node_type nd = HOST) then ([clock; xb_clock x], [reset; xb_reset x])
                   else ([xb_clock x; clock], [xb_reset x; reset]) in
  Ok (mkNode (n_name new_node) ASYNC_FIFO cs rs (addr_range new_node) (n_us new_node) (n_ds new_node)
        (pipeline new_node) (pipeline_byp new_node) None None None None None).

Definition socket_m1 (nd : Node) (x : Xbar) : Node :=
  set_device_fifo 1 0 (set_host_fifo (2 ^ Z.of_nat (length (n_us nd)) - 1) 0
    (Node.init (new_name "sm1_" x) SOCKET_M1 (xb_clock x) (xb_reset x))).

Definition socket_1n (nd : Node) (x : Xbar) : Node :=
  set_device_fifo (2 ^ Z.of_nat (length (n_ds nd)) - 1) 0 (set_host_fifo 1 0
    (Node.init (new_name "s1n_" x) SOCKET_1N (xb_clock x) (xb_reset x))).

(** The clock is another one than that of the crossbar. *)
Definition other_clock (nd : Node) (x : Xbar) : res bool :=
  if decide (node_type nd = ASYNC_FIFO) then Ok false
  else clock ← first (clocks nd); Ok (negb (String.eqb clock (xb_clock x))).

Fixpoint process_node (fuel : nat) (n : nat) (x : Xbar) : res Xbar :=
  match fuel with
  | O => Err OutOfFuel
  | S fuel =>
      nd ← node_at x n;
      let m := length (nodes x) in
      other ← other_clock nd x;
      if (other : bool) then
        new_node ← async_fifo nd x;
        x ← insert_node new_node n x;
        process_node fuel m x
      else if bool_decide (node_type nd ≠ SOCKET_M1) && (1 <? length (n_us nd))%nat then
        x ← insert_node (socket_m1 nd x) n x;
        process_node fuel m x
      else if bool_decide (node_type nd ≠ SOCKET_1N) && (1 <? length (n_ds nd))%nat then
        x ← insert_node (socket_1n nd x) n x;
        new_node ← node_at x m;
        foldM (fun x e => ed ← edge_at x e; process_node fuel (ds_of ed) x) x (n_ds new_node)
      else Ok x
  end.

(** *** Pipelining *)

Inductive fifo_kind := FullFifo | FifoPassthru | FullPassthru.
Definition fifo_of (nd : Node) : fifo_kind :=
  if pipeline nd then if pipeline_byp nd then FifoPassthru else FullFifo else FullPassthru.

Definition attribute (o : option Z) : res Z := of_option AttributeError o.

(** [l.index(e)] for an edge *)
Definition index_of (l : list nat) (e : nat) : res Z :=
  of_option ValueError ((fun p => Z.of_nat (fst p)) <$> list_find (e =.) l).

(** The settings of one of the ports of a side with several. *)
Definition port_fifo (k : fifo_kind) (idx pass depth : Z) : Z * Z :=
  match k with
  | FullFifo => (pass .& Z.lnot (1 ≪ idx), depth .| (2 ≪ (idx * 4)))
  | FifoPassthru => (pass .| (1 ≪ idx), depth .| (2 ≪ (idx * 4)))
  | FullPassthru => (pass .| (1 ≪ idx), depth .& Z.lnot (0xF ≪ (idx * 4)))
  end.
(** The settings of the side with one port. *)
Definition single_fifo (k : fifo_kind) : Z * Z := match k with FullFifo | FifoPassthru => (0, 2) | FullPassthru => (1, 0) end.

Definition update_node (n : nat) (f : Node → Node) (x : Xbar) : Xbar := set_graph (alter f n (nodes x)) (edges x) x.

Definition pipeline_host (x : Xbar) (h : nat) : res Xbar :=
  host ← node_at x h;
  e ← py_nth (n_ds host) 0;
  ed ← edge_at x e;
  dnode ← node_at x (ds_of ed);
  match node_type dnode with
  | SOCKET_1N => let '(pass, depth) := single_fifo (fifo_of host) in Ok (update_node (ds_of ed) (set_host_fifo pass depth) x)
  | SOCKET_M1 =>
      idx ← index_of (n_us dnode) e;
      pass ← attribute (hpass dnode);
      depth ← attribute (hdepth dnode);
      let '(pass, depth) := port_fifo (fifo_of host) idx pass depth in
      Ok (update_node (ds_of ed) (set_host_fifo pass depth) x)
  | _ => Ok x
  end.

Definition pipeline_device (x : Xbar) (d : nat) : res Xbar :=
  device ← node_at x d;
  e ← py_nth (n_us device) 0;
  ed ← edge_at x e;
  unode ← node_at x (us_of ed);
  match node_type unode with
  | SOCKET_1N =>
      idx ← index_of (n_ds unode) e;
      pass ← attribute (dpass unode);
      depth ← attribute (ddepth unode);
      let '(pass, depth) := port_fifo (fifo_of device) idx pass depth in
      Ok (update_node (us_of ed) (set_device_fifo pass depth) x)
  | SOCKET_M1 => let '(pass, depth) := single_fifo (fifo_of device) in Ok (update_node (us_of ed) (set_device_fifo pass depth) x)
  | _ => Ok x
  end.

Definition process_pipeline (x : Xbar) : res Xbar :=
  x ← foldM pipeline_host x (hosts x);
  foldM pipeline_device x (devices x).

Definition elaborate (fuel : nat) (x : Xbar) : res (bool * Xbar) :=
  if (length (nodes x) <=? 1)%nat || (length (edges x) =? 0)%nat then Ok (false, x)
  else
    x ← foldM (fun x h => process_node fuel h x) x (hosts x);
    x ← process_pipeline x;
    Ok (true, x).
End Elaborate.
