(* ===== verification/TlValidate.v ===== *)
(** The description of a crossbar (util/tlgen/lib.py, util/tlgen/validate.py and the checks of
    util/reggen/validate.py that they use): checking the keys, merging address ranges, and building the nodes
    and edges.  A description is a parsed hjson object, the keys of which are strings. *)

From Stdlib Require Import Ascii String Sorted.
From S2P Require Import Prelude PyList PyStr Yaml Vmem OtpCommon Tlgen.

#[local] Open Scope string_scope.
#[local] Open Scope stdpp_scope.
#[local] Open Scope list_scope.
#[local] Open Scope Z_scope.

Definition hjson : Type := list (yaml * yaml).

(** ** Python values *)

(** [d[k]] *)
Definition key (k : string) (d : hjson) : res yaml := of_option KeyError (yget k d).
Definition subscript (k : string) (y : yaml) : res yaml := match y with YDict d => key k d | _ => Err TypeError end.

(** [d[k] = v] *)
Fixpoint yset (k : string) (v : yaml) (d : hjson) : hjson :=
  match d with
  | [] => [(YStr k, v)]
  | (YStr k', v') :: d => if decide (k = k') then (YStr k', v) :: d else (YStr k', v') :: yset k v d
  | kv :: d => kv :: yset k v d
  end.

(** [int(y, 0)] and [y.lower()] *)
Definition int0 (y : yaml) : res Z := match y with YStr s => int_auto s | _ => Err TypeError end.
Definition py_lower (y : yaml) : res string := match y with YStr s => Ok (lower s) | _ => Err AttributeError end.

(** ["0x{:x}".format(v)] *)
Definition hex_str (v : Z) : yaml := YStr ("0x" +:+ lower (format_hex 0 v)).

(** The truth of a value. *)
Definition truthy (y : yaml) : bool :=
  match y with
  | YNone => false
  | YBool b => b
  | YInt z => negb (z =? 0)
  | YStr s => negb (bool_decide (s = ""))
  | YList l => negb (length l =? 0)%nat
  | YDict d => negb (length d =? 0)%nat
  | YOther => true
  end.

(** [y == s] for a string [s] *)
Definition yaml_is (y s : yaml) : bool := match y, s with YStr a, YStr b => String.eqb a b | _, _ => false end.

(** [list(d.keys())] *)
Definition str_keys (d : hjson) : list string := omap (fun kv => match kv.1 with YStr s => Some s | _ => None end) d.

(** ** Merging address ranges (lib.py) *)

Module Lib.

Fixpoint is_pow2_loop (fuel : nat) (t v : Z) : res bool :=
  match fuel with
  | O => Err OutOfFuel
  | S fuel => if t <=? v then if t =? v then Ok true else is_pow2_loop fuel (t * 2) v else Ok false
  end.
Definition is_pow2 (fuel : nat) (y : yaml) : res bool :=
  match y with
  | YInt v => is_pow2_loop fuel 1 v
  | YBool b => is_pow2_loop fuel 1 (Z_of_bool b)
  | _ => Ok false
  end.

(** [int(e[k], 0)] *)
Definition field (k : string) (e : yaml) : res Z := y ← subscript k e; int0 y.

(** [sorted(l, key=lambda k: int(k['base_addr'], 0))] *)
Definition sort_entries (l : list yaml) : res (list yaml) :=
  ks ← mapR (fun e => b ← field "base_addr" e; Ok (b, e)) l;
  Ok (sort_by fst ks).*2.

(** [[x for x in xbar["nodes"] if x["type"] == "device" and not x["name"] == name]] *)
Definition other_devices (xbar : hjson) (name : yaml) : res (list yaml) :=
  nodes ← key "nodes" xbar;
  l ← py_iter nodes;
  foldM (fun acc x =>
    t ← subscript "type" x;
    if yaml_is t (YStr "device") then
      n ← subscript "name" x;
      if yaml_is n name then Ok acc else Ok (acc ++ [x])
    else Ok acc) [] l.

(** The range [from <= x < to] and one entry do not meet. *)
Definition entry_clear (from_addr to_addr : Z) (addr : yaml) : res bool :=
  b_addr ← field "base_addr" addr;
  size ← field "size_byte" addr;
  Ok ((b_addr + size <=? from_addr) || (to_addr <=? b_addr)).

(** [for addr in l: if ...: continue; return False] *)
Fixpoint entries_clear (from_addr to_addr : Z) (l : list yaml) : res bool :=
  match l with
  | [] => Ok true
  | addr :: l => c ← entry_clear from_addr to_addr addr; if (c : bool) then entries_clear from_addr to_addr l else Ok false
  end.

Fixpoint nodes_clear (from_addr to_addr : Z) (l : list yaml) : res bool :=
  match l with
  | [] => Ok true
  | node :: l =>
      match node with
      | YDict d =>
          match yget "addr_range" d with
          | None => nodes_clear from_addr to_addr l
          | Some (YList addrs) => c ← entries_clear from_addr to_addr addrs; if (c : bool) then nodes_clear from_addr to_addr l else Ok false
          | Some _ => Err AssertionError
          end
      | _ => Err TypeError
      end
  end.

Definition no_device_in_range (xbar : hjson) (name f t : yaml) : res bool :=
  f_base ← field "base_addr" f;
  f_size ← field "size_byte" f;
  to_addr ← field "base_addr" t;
  l ← other_devices xbar name;
  nodes_clear (f_base + f_size) to_addr l.

(** [-1] is [None]. *)
Definition get_next_base_addr (addr : yaml) (xbar : hjson) (name : yaml) : res (option yaml) :=
  value ← match addr with
          | YStr s => int_auto s
          | YInt v => Ok v
          | YBool b => Ok (Z_of_bool b)
          | _ => Err AssertionError
          end;
  device_list ← other_devices xbar name;
  addrs ← foldM (fun acc r =>
    match subscript "addr_range" r with
    | Ok l => l ← py_iter l; Ok (acc ++ l)
    | Err KeyError => Err SystemExit
    | Err e => Err e
    end) [] device_list;
  sorted_list ← sort_entries addrs;
  gte_list ← foldM (fun acc x => b ← field "base_addr" x; Ok (if value <? b then acc ++ [x] else acc)) [] sorted_list;
  Ok (head gte_list).

(** [leading_one] *)
Fixpoint lowest_one (fuel : nat) (leading_one base_addr : Z) : res Z :=
  match fuel with
  | O => Err OutOfFuel
  | S fuel => if (base_addr .& leading_one) =? 0 then lowest_one fuel (leading_one ≪ 1) base_addr else Ok leading_one
  end.

Fixpoint pow2_loop (fuel : nat) (i min_size : Z) : res Z :=
  match fuel with
  | O => Err OutOfFuel
  | S fuel => let i := i ≪ 1 in if min_size <=? i then Ok i else pow2_loop fuel i min_size
  end.

Definition find_pow2_size (addr : yaml) (min_size next_value : Z) : res Z :=
  base_addr ← field "base_addr" addr;
  let diff := next_value - base_addr in
  diff ← (if base_addr =? 0 then Ok diff
          else
            leading_one ← lowest_one (S (Z.to_nat (Z.log2 (Z.abs base_addr)))) 1 base_addr;
            Ok (if leading_one <=? diff then leading_one else diff));
  i ← pow2_loop (S (Z.to_nat (Z.log2 min_size))) 1 min_size;
  let i := if diff <? i then min_size else i in
  py_assert (4096 <=? i);;
  Ok i.

(** [e["size_byte"] = "0x{:x}".format(size)] *)
Definition set_size (size : Z) (e : yaml) : yaml := match e with YDict d => YDict (yset "size_byte" (hex_str size) d) | _ => e end.

(** One turn of the loop; the last entry of the result is updated in place. *)
Definition merge_step (xbar : hjson) (name : res yaml) (result : list yaml) (e : yaml) : res (list yaml) :=
  match last result with
  | None => Ok [e]
  | Some r =>
      let result' := removelast result in
      e_base ← field "base_addr" e;
      r_base ← field "base_addr" r;
      r_size ← field "size_byte" r;
      if e_base =? r_base + r_size then
        e_size ← field "size_byte" e;
        Ok (result' ++ [set_size (r_size + e_size) r])
      else
        name ← name;
        clear ← no_device_in_range xbar name r e;
        if (clear : bool) then
          e_addr ← subscript "base_addr" e;
          smallest_addr_gte ← get_next_base_addr e_addr xbar name;
          next_value ← match smallest_addr_gte with None => Ok 0x100000000 | Some a => field "base_addr" a end;
          e_size ← field "size_byte" e;
          size_byte ← find_pow2_size r (e_base + e_size - r_base) next_value;
          Ok (result' ++ [set_size size_byte r])
        else Ok (result ++ [e])
  end.

Definition simplify_addr (dev xbar : hjson) : res (list yaml) :=
  addrs ← key "addr_range" dev;
  l ← py_iter addrs;
  newlist ← sort_entries l;
  foldM (merge_step xbar (key "name" dev)) [] newlist.
End Lib.

(** ** Checking the keys (validate.py) *)

Module Validate.

Definition one_of (chars : string) (c : ascii) : bool := existsb (Ascii.eqb c) (list_ascii_of_string chars).

(** [y in chars] for a string [chars]: whether [y] is a part of it. *)
Definition part_of (y : yaml) (chars : string) : res bool :=
  match y with YStr s => Ok (bool_decide (is_Some (String.index 0 s chars))) | _ => Err TypeError end.

(** [check_int] of a list of at least three elements the first of which is ["0"], by its second element:
    the message for a bad character and the conversion of the whole fail on a list. *)
Definition check_int_list (c : yaml) : res (Z * bool) :=
  bin ← part_of c "bB";
  oct ← part_of c "oO";
  hex ← part_of c "xX";
  if (bin || oct || hex : bool) then Err TypeError else Ok (0, true).

(** [check_int]: the value and whether there was an error; a list has no [isdecimal]. *)
Definition check_int (x : yaml) : res (Z * bool) :=
  match x with
  | YInt z => Ok (z, false)
  | YBool b => Ok (Z_of_bool b, false)
  | YStr EmptyString => Err IndexError
  | YStr (String "0" (String c (String c' rest)) as s) =>
      let validch := if one_of "bB" c then Some "01" else if one_of "oO" c then Some "01234567"
                     else if one_of "xX" c then Some "0123456789abcdefABCDEF" else None in
      match validch with
      | None => Ok (0, true)
      | Some chars =>
          if forallb (one_of chars) (list_ascii_of_string (String c' rest)) then n ← int_auto s; Ok (n, false) else Ok (0, true)
      end
  | YStr s => if isdecimal s then n ← int_auto s; Ok (n, false) else Ok (0, true)
  | YList [] => Err IndexError
  | YList (YStr "0" :: c :: _ :: _) => check_int_list c
  | YList _ => Err AttributeError
  | YDict _ => Err KeyError
  | YNone | YOther => Err TypeError
  end.

Definition check_bool (x : yaml) : res (bool * bool) :=
  match x with
  | YBool b => Ok (b, false)
  | YStr s => if bool_decide (lower s ∈ ["true"; "false"]) then Ok (bool_decide (lower s = "true"), false) else Ok (false, true)
  | _ => Err AttributeError
  end.

(** The control tables: the type of a key, and the table for the elements of a list of groups. *)
Inductive control := Control (required optional added : list (string * (string * option control))).

Definition addr_control : control := Control [("base_addr", ("d", None)); ("size_byte", ("d", None))] [] [].
Definition node_control : control :=
  Control [("name", ("s", None)); ("stub", ("pb", None)); ("type", ("s", None))]
    [("clock", ("s", None)); ("reset", ("s", None)); ("pipeline", ("pb", None)); ("pipeline_byp", ("pb", None));
     ("inst_type", ("s", None)); ("xbar", ("pb", None)); ("addr_range", ("lg", Some addr_control))] [].
Definition root_control : control :=
  Control [("name", ("s", None)); ("clock", ("s", None)); ("reset", ("s", None)); ("connections", ("g", None));
           ("clock_connections", ("g", None)); ("nodes", ("lg", Some node_control))]
    [("type", ("s", None)); ("clock_group", ("s", None)); ("clock_srcs", ("g", None)); ("domain", ("s", None))]
    [("reset_connections", ("g", None))].

Definition checker_of (k : string) (c : control) : option (string * option control) :=
  let '(Control required optional added) := c in
  match dget k required with
  | Some t => Some t
  | None => match dget k optional with Some t => Some t | None => dget k added end
  end.

Definition flag (error : Z) (err : bool) : Z := if err then error + 1 else error.

(** The number of errors; the fuel bounds the depth of the control tables. *)
Fixpoint check_keys (fuel : nat) (c : control) (obj : yaml) : res Z :=
  match fuel with
  | O => Err OutOfFuel
  | S fuel =>
      match obj with
      | YDict d =>
          let '(Control required _ _) := c in
          let missing := length (filter (fun k => yget k d = None) required.*1) in
          foldM (fun error kv =>
            match kv.1 with
            | YStr k =>
                match checker_of k c with
                | None => Ok error
                | Some ("lg", Some sub) => l ← py_iter kv.2; errs ← mapR (check_keys fuel sub) l; Ok (error + foldr Z.add 0 errs)
                | Some ("g", Some sub) => err ← check_keys fuel sub kv.2; Ok (error + err)
                | Some ("d", _) => r ← check_int kv.2; Ok (flag error r.2)
                | Some ("pb", _) => r ← check_bool kv.2; Ok (flag error r.2)
                | Some ("l", _) => Ok (flag error (match kv.2 with YList _ => false | _ => true end))
                | Some _ => Ok error
                end
            | _ => Err TypeError
            end) (Z.of_nat missing) d
      | YList _ | YStr _ => Err AttributeError
      | _ => Err TypeError
      end
  end.

(** [None] with the number of errors above zero. *)
Definition validate_hjson (obj : hjson) : res (option hjson) :=
  let obj := match yget "type" obj with None => yset "type" (YStr "xbar") obj | Some _ => obj end in
  match yget "name" obj with
  | None => Ok None
  | Some _ => error ← check_keys 3 root_control (YDict obj); Ok (if 0 <? error then None else Some obj)
  end.

(** ** Building the crossbar *)

Definition get_nodetype (t : string) : res NodeType :=
  if decide (t = "host") then Ok HOST
  else if decide (t = "device") then Ok DEVICE
  else if decide (t = "async_fifo") then Ok ASYNC_FIFO
  else if decide (t = "socket_1n") then Ok SOCKET_1N
  else if decide (t = "socket_m1") then Ok SOCKET_M1
  else Err RuntimeError.

Definition checkNameExist (name : yaml) (x : Xbar) : res bool := n ← py_lower name; Ok (existsb (fun nd => String.eqb n (n_name nd)) (nodes x)).

Definition isOverlap (range1 range2 : Z * Z) : bool := negb ((range2.2 <? range1.1) || (range1.2 <? range2.1)).
Definition checkAddressOverlap (addr : Z * Z) (ranges : list (Z * Z)) : bool := existsb (fun x => isOverlap x addr) ranges.

(** [nodeobj[k].lower() if k in nodeobj.keys() else default] *)
Definition lower_or (k : string) (default : string) (nodeobj : hjson) : res string :=
  match yget k nodeobj with Some v => py_lower v | None => Ok default end.

(** The entries of a device, and the ranges of all devices so far. *)
Definition add_range (st : list (Z * Z) * list (Z * Z)) (addr : yaml) : res (list (Z * Z) * list (Z * Z)) :=
  let '(addr_range, addr_ranges) := st in
  address_from ← Lib.field "base_addr" addr;
  size ← Lib.field "size_byte" addr;
  let addr_entry := (address_from, address_from + size - 1) in
  if checkAddressOverlap addr_entry addr_ranges then Err SystemExit
  else Ok (addr_range ++ [addr_entry], addr_ranges ++ [addr_entry]).

(** [True if v.lower() in ["true", "1"] else False] of hosts and devices *)
Definition pipeline_flag (k : string) (default : bool) (t : NodeType) (nodeobj : hjson) : res bool :=
  if bool_decide (t = DEVICE ∨ t = HOST) then
    match yget k nodeobj with Some v => s ← py_lower v; Ok (bool_decide (s ∈ ["true"; "1"])) | None => Ok default end
  else Ok default.

(** The description, the nodes of which get their merged ranges, the crossbar and the ranges. *)
Record vstate := mkV { v_nodes : list yaml; v_xbar : Xbar; v_ranges : list (Z * Z) }.

Definition add_node (x : Xbar) (n : Node) : Xbar := set_graph (nodes x ++ [n]) (edges x) x.

(** The attributes of a device; the description of the node may change. *)
Definition device_attrs (obj nodeobj : hjson) (addr_ranges : list (Z * Z)) : res (yaml * hjson * list (Z * Z) * list (Z * Z)) :=
  xbar ← key "xbar" nodeobj;
  nodeobj ← (if truthy xbar then l ← Lib.simplify_addr nodeobj obj; Ok (yset "addr_range" (YList l) nodeobj) else Ok nodeobj);
  addrs ← key "addr_range" nodeobj;
  l ← py_iter addrs;
  r ← foldM add_range ([], addr_ranges) l;
  Ok (xbar, nodeobj, r.1, r.2).

Definition node_step (obj : hjson) (st : vstate) (i : nat) : res vstate :=
  let x := v_xbar st in
  node ← py_nth (v_nodes st) (Z.of_nat i);
  nodeobj ← as_dict node;
  name ← key "name" nodeobj;
  exist ← checkNameExist name x;
  if (exist : bool) then Err SystemExit
  else
    clock ← lower_or "clock" (xb_clock x) nodeobj;
    reset ← lower_or "reset" (xb_reset x) nodeobj;
    if negb (bool_decide (clock ∈ xb_clocks x)) then Err SystemExit
    else if negb (bool_decide (reset ∈ xb_resets x)) then Err SystemExit
    else
      t ← key "type" nodeobj;
      t ← py_lower t;
      t ← get_nodetype t;
      name ← py_lower name;
      let n := Node.init name t clock reset in
      r ← (if bool_decide (t = DEVICE) then
             r ← device_attrs (yset "nodes" (YList (v_nodes st)) obj) nodeobj (v_ranges st);
             let '(xbar, nodeobj, addr_range, addr_ranges) := r in Ok (Some xbar, nodeobj, addr_range, addr_ranges)
           else Ok (None, nodeobj, [], v_ranges st));
      let '(xbar, nodeobj', addr_range, addr_ranges) := r in
      pipe ← pipeline_flag "pipeline" false t nodeobj;
      byp ← pipeline_flag "pipeline_byp" true t nodeobj;
      Ok (mkV (<[i := YDict nodeobj']> (v_nodes st))
            (add_node x (mkNode (n_name n) t (clocks n) (resets n) addr_range [] [] pipe byp None None None None xbar))
            addr_ranges).

Definition connect (host : string) (x : Xbar) (device : yaml) : res Xbar :=
  d ← py_lower device;
  r ← Xbar.connect_nodes (lower host) d x;
  Ok r.2.

(** [None] for a description that does not pass the checks. *)
Definition validate (obj : hjson) : res (option Xbar) :=
  name ← key "name" obj;
  name ← py_lower name;
  clock ← key "clock" obj;
  clock ← py_lower clock;
  reset ← key "reset" obj;
  reset ← py_lower reset;
  checked ← validate_hjson obj;
  match checked with
  | None => Ok None
  | Some obj =>
      cs ← key "clock_connections" obj;
      cs ← as_dict cs;
      rs ← key "reset_connections" obj;
      rs ← as_dict rs;
      let x := mkXbar clock reset name [] [] (str_keys cs) (str_keys rs) in
      ns ← key "nodes" obj;
      l ← py_iter ns;
      st ← foldM (node_step obj) (mkV l x []) (seq 0 (length l));
      conns ← key "connections" obj;
      conns ← as_dict conns;
      x ← foldM (fun x host =>
        devices ← key host conns;
        ds ← py_iter devices;
        foldM (connect host) x ds) (v_xbar st) (str_keys conns);
      Ok (Some x)
  end.
End Validate.

(** ** Numbers written and read back *)

Lemma lower_hex c : is_hex c = true → is_hex (lower_ascii c) = true ∧ digit36 (lower_ascii c) = digit36 c ∧
  Ascii.eqb (lower_ascii c) "_" = false ∧ Ascii.eqb c "_" = false ∧ is_Some (digit36 c).
Proof.
  pose proof (ascii_ind_256 (fun c => implb (is_hex c) (is_hex (lower_ascii c) && bool_decide (digit36 (lower_ascii c) = digit36 c) &&
    negb (Ascii.eqb (lower_ascii c) "_") && negb (Ascii.eqb c "_") && bool_decide (is_Some (digit36 c))))) as H.
  specialize (H ltac:(by vm_compute) c). cbv beta in H. intros E. rewrite E in H. cbn [implb] in H.
  rewrite !andb_true_iff, !negb_true_iff, !bool_decide_eq_true in H. tauto.
Qed.

Lemma int_digits_lower s b acc : all_chars is_hex s = true → int_digits 16 b acc (lower s) = int_digits 16 b acc s.
Proof.
  revert b acc. induction s as [| c s IH]; intros b acc; [done |]. cbn [all_chars lower int_digits]. intros [Hc Hs]%andb_true_iff.
  destruct (lower_hex c Hc) as (_ & -> & -> & -> & _). destruct (digit36 c); [| done]. case_match; [by apply IH | done].
Qed.

Lemma all_chars_lower s : all_chars is_hex s = true → all_chars is_hex (lower s) = true.
Proof.
  induction s as [| c s IH]; [done |]. cbn. intros [Hc Hs]%andb_true_iff. destruct (lower_hex c Hc) as (-> & _). by apply IH.
Qed.

Lemma int0_hex_str n : 0 ≤ n → int0 (hex_str n) = Ok n.
Proof.
  intros Hn. destruct (format_hex_ok 0 n Hn) as (Hne & Hall & Hint). rewrite int_hex_plain in Hint by done.
  unfold hex_str, int0, int_auto. set (s := format_hex 0 n) in *. change ("0x" +:+ lower s) with (String "0" (String "x" (lower s))).
  rewrite strip_id.
  2: { cbn. eapply all_chars_impl; [apply hex_not_space |]. by apply all_chars_lower. }
  cbn match. unfold int_auto_unsigned. cbn [Ascii.eqb Bool.eqb andb orb]. rewrite int_digits_lower by done.
  destruct s as [| c s]; [done |]. cbn in Hall. apply andb_true_iff in Hall as [Hc _]. destruct (lower_hex c Hc) as (_ & _ & _ & Hu & _).
  cbn [int_digits] in Hint |- *. by rewrite Hu in Hint |- *.
Qed.

(** ** Powers of two *)

Lemma is_pow2_loop_ok fuel k v : 0 ≤ k → v < 2 ^ (k + Z.of_nat fuel) →
  ∃ b, Lib.is_pow2_loop (S fuel) (2 ^ k) v = Ok b ∧ (b = true ↔ ∃ n, k ≤ n ∧ v = 2 ^ n).
Proof.
  revert k. induction fuel as [| fuel IH]; intros k Hk Hv; (destruct (decide (2 ^ k ≤ v)) as [Hle | Hle];
    [| exists false; cbn [Lib.is_pow2_loop]; rewrite (proj2 (Z.leb_gt _ _)) by lia; split; [done |]; split; [done |];
       intros (n & Hn & ->); pose proof (Z.pow_le_mono_r 2 k n ltac:(lia) Hn); lia]).
  - rewrite Z.add_0_r in Hv. lia.
  - change (Lib.is_pow2_loop (S (S fuel)) (2 ^ k) v) with (if 2 ^ k <=? v then if 2 ^ k =? v then Ok true else Lib.is_pow2_loop (S fuel) (2 ^ k * 2) v else Ok false).
    rewrite (proj2 (Z.leb_le _ _) Hle). destruct (Z.eqb_spec (2 ^ k) v) as [<- | Hne]; [exists true; split; [done |]; split; [intros _; by exists k | done] |].
    replace (2 ^ k * 2) with (2 ^ (k + 1)) by (rewrite Z.pow_add_r by lia; lia). destruct (IH (k + 1)) as (b & Hb & Hiff); [lia | by replace (k + 1 + Z.of_nat fuel) with (k + Z.of_nat (S fuel)) by lia |].
    exists b. split; [done |]. rewrite Hiff. split; intros (n & Hn & ->); [exists n; split; [lia | done] |]. exists n. split; [| done]. destruct (decide (k = n)); [by subst | lia].
Qed.

(** The templates test whether an address range has a size that is a power of two. *)
Lemma is_pow2_ok v : ∃ b, Lib.is_pow2 (S (S (Z.to_nat (Z.log2 v)))) (YInt v) = Ok b ∧ (b = true ↔ ∃ n, 0 ≤ n ∧ v = 2 ^ n).
Proof.
  apply (is_pow2_loop_ok (S (Z.to_nat (Z.log2 v))) 0); [done |]. destruct (decide (0 < v)) as [Hv |].
  - pose proof (Z.log2_spec v Hv) as [_ H]. pose proof (Z.log2_nonneg v). replace (0 + Z.of_nat (S (Z.to_nat (Z.log2 v)))) with (Z.succ (Z.log2 v)) by lia. done.
  - pose proof (Z.pow_pos_nonneg 2 (0 + Z.of_nat (S (Z.to_nat (Z.log2 v)))) ltac:(lia) ltac:(lia)). lia.
Qed.

(** ** The size of a merged range *)

(** An entry with its base address and size. *)
Definition entry (e : yaml) (r : Z * Z) : Prop := Lib.field "base_addr" e = Ok r.1 ∧ Lib.field "size_byte" e = Ok r.2.

Lemma divide_zero_bits a k : 0 ≤ k → (∀ i, 0 ≤ i < k → Z.testbit a i = false) → (2 ^ k | a).
Proof.
  intros Hk H. apply Z.mod_divide; [lia |]. rewrite <- Z.land_ones by done. apply Z.bits_inj_0. intros i. rewrite Z.land_spec.
  destruct (decide (0 ≤ i)); [| rewrite Z.testbit_neg_r by lia; done]. destruct (decide (i < k)); [by rewrite H | by rewrite Z.ones_spec_high, andb_false_r by lia].
Qed.

Lemma land_pow2_zero a k : 0 ≤ k → (a .& 2 ^ k =? 0) = negb (Z.testbit a k).
Proof.
  intros Hk. destruct (Z.testbit a k) eqn:E; cbn.
  - apply Z.eqb_neq. intros H. assert (Z.testbit (a .& 2 ^ k) k = true) by (rewrite Z.land_spec, E, Z.pow2_bits_true by done; done). rewrite H, Z.bits_0 in H0. done.
  - apply Z.eqb_eq. apply Z.bits_inj_0. intros i. rewrite Z.land_spec. destruct (decide (i = k)) as [-> |]; [by rewrite E |].
    rewrite Z.pow2_bits_false by done. apply andb_false_r.
Qed.

Lemma lowest_one_ok fuel k j a : 0 ≤ k → (∀ i, 0 ≤ i < k → Z.testbit a i = false) → Z.testbit a j = true → k ≤ j < k + Z.of_nat fuel →
  ∃ n, 0 ≤ n ∧ Lib.lowest_one fuel (2 ^ k) a = Ok (2 ^ n) ∧ (2 ^ n | a).
Proof.
  revert k. induction fuel as [| fuel IH]; intros k Hk Hlow Hj Hr; [lia |]. cbn [Lib.lowest_one]. rewrite land_pow2_zero by done. destruct (Z.testbit a k) eqn:E; cbn [negb].
  - exists k. split_and!; [done | done | by apply divide_zero_bits].
  - replace (2 ^ k ≪ 1) with (2 ^ (k + 1)) by (rewrite Z.shiftl_mul_pow2, Z.pow_add_r by lia; lia). apply IH; [lia | | done |].
    + intros i Hi. destruct (decide (i = k)) as [-> |]; [done | apply Hlow; lia].
    + assert (j ≠ k) by congruence. lia.
Qed.

Lemma pow2_loop_ok fuel j m : 0 ≤ j → m ≤ 2 ^ (j + Z.of_nat fuel) → (0 < fuel)%nat →
  ∃ n, j < n ∧ Lib.pow2_loop fuel (2 ^ j) m = Ok (2 ^ n) ∧ m ≤ 2 ^ n.
Proof.
  revert j. induction fuel as [| fuel IH]; intros j Hj Hm Hf; [lia |]. cbn [Lib.pow2_loop].
  replace (2 ^ j ≪ 1) with (2 ^ (j + 1)) by (rewrite Z.shiftl_mul_pow2, Z.pow_add_r by lia; lia).
  destruct (Z.leb_spec m (2 ^ (j + 1))); [by exists (j + 1); split_and!; [lia | |] |].
  destruct fuel as [| fuel]; [exfalso; revert H; apply Z.le_ngt; etrans; [exact Hm |]; apply Z.pow_le_mono_r; lia |].
  destruct (IH (j + 1)) as (n & Hn & E & Hle); [lia | etrans; [exact Hm |]; apply Z.pow_le_mono_r; lia | lia |]. exists n. split_and!; [lia | done | done].
Qed.

Lemma pow2_divide_le n k : 0 ≤ n → 0 ≤ k → 2 ^ n ≤ 2 ^ k → (2 ^ n | 2 ^ k).
Proof. intros Hn Hk H. apply Z.pow_le_mono_r_iff in H; [| lia | lia]. exists (2 ^ (k - n)). rewrite <- Z.pow_add_r by lia. f_equal. lia. Qed.

Lemma find_pow2_size_ok e r m next : entry e r → 0 ≤ r.1 → 4096 ≤ m →
  ∃ i, Lib.find_pow2_size e m next = Ok i ∧ m ≤ i ∧ (i = m ∨ (∃ n, 0 ≤ n ∧ i = 2 ^ n ∧ (i | r.1) ∧ r.1 + i ≤ next)).
Proof.
  intros [Hb _] H0 Hm. unfold Lib.find_pow2_size. rewrite Hb. cbn [mbind res_bind]. set (b := r.1) in *.
  destruct (pow2_loop_ok (S (Z.to_nat (Z.log2 m))) 0 m) as (n & Hn & Hloop & Hle); [lia | | lia |].
  { pose proof (Z.log2_spec m ltac:(lia)) as [_ Hlt]. pose proof (Z.log2_nonneg m). rewrite Nat2Z.inj_succ, Z2Nat.id by done. replace (0 + Z.succ (Z.log2 m)) with (Z.succ (Z.log2 m)) by lia. lia. }
  change (2 ^ 0) with 1 in Hloop.
  assert (Hdiff : ∃ diff, (if b =? 0 then Ok (next - b) else leading_one ← Lib.lowest_one (S (Z.to_nat (Z.log2 (Z.abs b)))) 1 b;
    Ok (if leading_one <=? next - b then leading_one else next - b)) = Ok diff ∧ diff ≤ next - b ∧ (2 ^ n ≤ diff → (2 ^ n | b))).
  { destruct (Z.eqb_spec b 0) as [-> | Hb0]; [exists (next - 0); split_and!; [done | lia | intros; apply Z.divide_0_r] |].
    destruct (lowest_one_ok (S (Z.to_nat (Z.log2 (Z.abs b)))) 0 (Z.log2 b) b) as (j & Hj & Hlo & Hdiv); [lia | lia | apply Z.bit_log2; lia | |].
    { pose proof (Z.log2_nonneg b). rewrite Z.abs_eq by lia. lia. }
    change (2 ^ 0) with 1 in Hlo. rewrite Hlo. cbn [mbind res_bind]. eexists. split; [done |].
    destruct (Z.leb_spec (2 ^ j) (next - b)); (split; [lia |]); intros Hin; (etrans; [| exact Hdiv]); apply pow2_divide_le; lia. }
  destruct Hdiff as (diff & -> & Hd1 & Hd2). cbn [mbind res_bind]. rewrite Hloop. cbn [mbind res_bind]. destruct (Z.ltb_spec diff (2 ^ n)).
  - exists m. rewrite (proj2 (Z.leb_le _ _) Hm). cbn. split_and!; [done | lia | by left].
  - exists (2 ^ n). rewrite (proj2 (Z.leb_le _ _)) by lia. cbn. split_and!; [done | done | right]. exists n. split_and!; [lia | done | auto | lia].
Qed.

(** ** Entries and devices *)

Definition ok_or {A} (a : A) (r : res A) : A := match r with Ok a => a | Err _ => a end.
Definition base_of (e : yaml) : Z := ok_or 0 (Lib.field "base_addr" e).
Definition size_of (e : yaml) : Z := ok_or 0 (Lib.field "size_byte" e).
Definition end_of (e : yaml) : Z := base_of e + size_of e.

Definition is_entry (e : yaml) : Prop := entry e (base_of e, size_of e).
Definition holds (e : yaml) (a : Z) : Prop := base_of e ≤ a < end_of e.
#[export] Instance holds_dec e a : Decision (holds e a).
Proof. unfold holds. apply _. Defined.

(** A device with a list of entries. *)
Definition dev_ok (d : yaml) : Prop := ∃ dd l, d = YDict dd ∧ yget "addr_range" dd = Some (YList l) ∧ Forall is_entry l.
Definition dev_entries (d : yaml) : list yaml :=
  match d with YDict dd => match yget "addr_range" dd with Some (YList l) => l | _ => [] end | _ => [] end.

Lemma entry_is e r : entry e r → is_entry e ∧ base_of e = r.1 ∧ size_of e = r.2.
Proof. intros [H1 H2]. unfold is_entry, base_of, size_of. rewrite H1, H2. cbn. split_and!; [split; [by rewrite H1 | by rewrite H2] | done | done]. Qed.

Lemma yget_yset_eq k v d : yget k (yset k v d) = Some v.
Proof. induction d as [| [[| | | k' | | |] v'] d IH]; cbn; [by rewrite decide_True | done .. | | done | done | done]. destruct (decide (k = k')); cbn; [by rewrite decide_True | by rewrite decide_False]. Qed.

Lemma yget_yset_ne k k' v d : k ≠ k' → yget k (yset k' v d) = yget k d.
Proof.
  intros Hne. induction d as [| [[| | | k0 | | |] v'] d IH]; cbn; [by rewrite decide_False | done .. | | done | done | done].
  destruct (decide (k' = k0)) as [-> |]; cbn; [by rewrite !decide_False |]. by rewrite IH.
Qed.

Lemma set_size_entry e n : is_entry e → 0 ≤ n → is_entry (Lib.set_size n e) ∧ base_of (Lib.set_size n e) = base_of e ∧ size_of (Lib.set_size n e) = n.
Proof.
  intros [Hb Hs] Hn. apply (entry_is _ (base_of e, n)). unfold entry. destruct e as [| | | | | d |]; try done. cbn [Lib.set_size fst snd]. unfold Lib.field, subscript, key in *. split.
  - by rewrite yget_yset_ne.
  - rewrite yget_yset_eq. cbn. by apply int0_hex_str.
Qed.

(** *** What the functions on the other devices compute *)

Lemma entries_clear_ok f t l : Forall is_entry l → Lib.entries_clear f t l = Ok (forallb (fun e => (end_of e <=? f) || (t <=? base_of e)) l).
Proof.
  induction 1 as [| e l [Hb Hs] _ IH]; [done |]. cbn [Lib.entries_clear forallb]. unfold Lib.entry_clear. rewrite Hb, Hs. cbn [mbind res_bind fst snd].
  fold (end_of e). rewrite IH. by destruct (_ || _).
Qed.

Lemma nodes_clear_ok f t devs : Forall dev_ok devs → Lib.nodes_clear f t devs = Ok (forallb (fun e => (end_of e <=? f) || (t <=? base_of e)) (devs ≫= dev_entries)).
Proof.
  induction 1 as [| d devs (dd & l & -> & Hd & Hl) _ IH]; [done |]. cbn [Lib.nodes_clear]. rewrite Hd, (entries_clear_ok f t l Hl). cbn [mbind res_bind].
  cbn [mbind list_bind]. cbn [dev_entries]. rewrite Hd, forallb_app, IH. by destruct (forallb _ l).
Qed.

Lemma sort_entries_ok l : Forall is_entry l → ∃ l', Lib.sort_entries l = Ok l' ∧ l' ≡ₚ l ∧ StronglySorted (fun a b => base_of a ≤ base_of b) l'.
Proof.
  intros Hl. unfold Lib.sort_entries. rewrite (mapR_Ok_fmap _ (fun e => (base_of e, e))).
  2: { intros e He. rewrite Forall_forall in Hl. destruct (Hl e He) as [-> _]. done. }
  cbn [mbind res_bind]. set (ks := (fun e => (base_of e, e)) <$> l). exists (sort_by fst ks).*2. split_and!; [done | |].
  - rewrite (sort_by_perm fst ks). unfold ks. by rewrite <- list_fmap_compose, list_fmap_id.
  - assert (Hks : Forall (fun k : Z * yaml => k.1 = base_of k.2) (sort_by fst ks)).
    { apply Forall_forall. intros k Hk%sort_by_elem. unfold ks in Hk. apply list_elem_of_fmap in Hk as (e & -> & _). done. }
    pose proof (sort_by_sorted fst ks) as Hs. revert Hks. induction Hs as [| k ks' Hs IH Hk]; [constructor |]. intros [Hk1 Hks]%Forall_cons. cbn. constructor; [by apply IH |].
    apply Forall_fmap, Forall_forall. intros k' Hk'. rewrite Forall_forall in Hk, Hks. cbn. rewrite <- Hk1, <- (Hks k' Hk'). by apply Hk.
Qed.

Lemma dev_entries_ok devs : Forall dev_ok devs → Forall is_entry (devs ≫= dev_entries).
Proof.
  induction 1 as [| d devs (dd & l & -> & Hd & Hl) _ IH]; [by apply Forall_nil |]. cbn. rewrite Hd. apply Forall_app. split; [exact Hl | exact IH].
Qed.

Lemma collect_entries devs acc : Forall dev_ok devs → foldM (fun acc r => match subscript "addr_range" r with
  | Ok l => l ← py_iter l; Ok (acc ++ l) | Err KeyError => Err SystemExit | Err e => Err e end) acc devs = Ok (acc ++ (devs ≫= dev_entries)).
Proof.
  intros H. revert acc. induction H as [| d devs (dd & l & -> & Hd & Hl) _ IH]; intros acc; [by rewrite app_nil_r |].
  cbn [foldM subscript]. unfold key. rewrite Hd. cbn [of_option py_iter mbind res_bind]. rewrite IH. cbn [list_bind dev_entries]. by rewrite Hd, <- app_assoc.
Qed.

Section others.
Context (xbar : hjson) (name : yaml) (devs : list yaml) (Hdevs : Lib.other_devices xbar name = Ok devs) (Hok : Forall dev_ok devs).

Definition others : list yaml := devs ≫= dev_entries.

Lemma others_entries : Forall is_entry others.
Proof. by apply dev_entries_ok. Qed.

Lemma no_device_ok f t : is_entry f → is_entry t →
  Lib.no_device_in_range xbar name f t = Ok (forallb (fun e => (end_of e <=? end_of f) || (base_of t <=? base_of e)) others).
Proof.
  intros [Hb Hs] [Hb' _]. unfold Lib.no_device_in_range. rewrite Hb, Hs, Hb'. cbn [mbind res_bind fst snd]. rewrite Hdevs. cbn [mbind res_bind]. by rewrite nodes_clear_ok.
Qed.

Lemma next_base_ok e a : is_entry e → subscript "base_addr" e = Ok a → ∃ o, Lib.get_next_base_addr a xbar name = Ok o ∧
  match o with
  | None => ∀ r, r ∈ others → base_of r ≤ base_of e
  | Some n => is_entry n ∧ ∀ r, r ∈ others → base_of e < base_of r → base_of n ≤ base_of r
  end.
Proof.
  intros [Hb _] Ha. unfold Lib.field in Hb. rewrite Ha in Hb. cbn [mbind res_bind fst] in Hb. destruct a as [| | | s | | |]; try done. cbn [int0] in Hb.
  unfold Lib.get_next_base_addr. rewrite Hb. cbn [mbind res_bind]. rewrite Hdevs. cbn [mbind res_bind].
  rewrite collect_entries by done. fold others. cbn [mbind res_bind app]. destruct (sort_entries_ok others others_entries) as (l' & -> & Hp & Hs). cbn [mbind res_bind].
  assert (Hgte : ∀ l acc, Forall is_entry l → foldM (fun acc x => b ← Lib.field "base_addr" x; Ok (if base_of e <? b then acc ++ [x] else acc)) acc l =
    Ok (acc ++ filter (fun x => base_of e < base_of x) l)).
  { clear. intros l. induction l as [| x l IH]; intros acc Hl; [by rewrite app_nil_r |]. apply Forall_cons in Hl as [[Hx _] Hl]. cbn [foldM]. rewrite Hx. cbn [mbind res_bind fst].
    rewrite IH by done. rewrite filter_cons. destruct (Z.ltb_spec (base_of e) (base_of x)).
    - rewrite decide_True by done. by rewrite <- app_assoc.
    - rewrite decide_False by lia. done. }
  rewrite Hgte by (rewrite Hp; apply others_entries). cbn [mbind res_bind app]. eexists. split; [done |].
  assert (Hin : ∀ r, r ∈ others ↔ r ∈ l') by (intros r; by rewrite Hp). destruct (filter _ l') as [| n rest] eqn:Ef; cbn [head].
  - intros r Hr%Hin. destruct (decide (base_of e < base_of r)); [| lia]. assert (r ∈ filter (fun x => base_of e < base_of x) l') by by apply list_elem_of_filter. rewrite Ef in H. by apply elem_of_nil in H.
  - split.
    + assert (Hn : n ∈ filter (fun x => base_of e < base_of x) l') by (rewrite Ef; by left). apply list_elem_of_filter in Hn as [_ Hn%Hin]. pose proof others_entries as He. rewrite Forall_forall in He. by apply He.
    + intros r Hr%Hin Hlt. assert (Hrf : r ∈ n :: rest) by (rewrite <- Ef; by apply list_elem_of_filter). apply elem_of_cons in Hrf as [-> | Hrf]; [lia |].
      assert (Hsf : StronglySorted (fun a b => base_of a ≤ base_of b) (n :: rest)).
      { rewrite <- Ef. clear - Hs. induction Hs as [| x l Hs IH Hx]; [constructor |]. rewrite filter_cons. case_decide; [| done]. constructor; [done |].
        apply Forall_forall. intros y [_ Hy]%list_elem_of_filter. rewrite Forall_forall in Hx. by apply Hx. }
      apply StronglySorted_inv in Hsf as [_ Hall]. rewrite Forall_forall in Hall. by apply Hall.
Qed.
End others.

(** ** Merging *)

Lemma elem_of_snoc {A} (l : list A) a b : b ∈ l ++ [a] ↔ b ∈ l ∨ b = a.
Proof. by rewrite elem_of_app, list_elem_of_singleton. Qed.

(** No address belongs to two entries. *)
Definition apart (l : list yaml) : Prop := ∀ a, (length (filter (fun e => holds e a) l) ≤ 1)%nat.

(** Entries one after the other. *)
Definition in_order (l : list yaml) : Prop := StronglySorted (fun x y => end_of x ≤ base_of y) l.

Lemma in_order_snoc l e : in_order (l ++ [e]) ↔ in_order l ∧ ∀ x, x ∈ l → end_of x ≤ base_of e.
Proof.
  unfold in_order. induction l as [| y l IH]; cbn.
  - split; [intros _; split; [constructor | by intros x ?%elem_of_nil] | intros _; constructor; [constructor | by apply Forall_nil]].
  - split.
    + intros [Hs Hy]%StronglySorted_inv. apply IH in Hs as [Hs Hx]. apply Forall_app in Hy as [Hy [Hye _]%Forall_cons]. split; [by constructor |].
      intros x [-> | Hin]%elem_of_cons; auto.
    + intros [[Hs Hy]%StronglySorted_inv Hx]. constructor; [apply IH; split; [done | intros x Hin; apply Hx; by right] |].
      apply Forall_app. split; [done |]. apply Forall_singleton, Hx. by left.
Qed.

Lemma in_order_prefix l1 l2 : in_order (l1 ++ l2) → in_order l1.
Proof.
  unfold in_order. induction l1 as [| y q IH]; [constructor |]. intros [Hq Hy]%StronglySorted_inv. constructor; [by apply IH |]. by apply Forall_app in Hy as [? _].
Qed.

Lemma in_order_apart l : Forall (fun e => 0 ≤ size_of e) l → in_order l → apart l.
Proof.
  intros Hsz Hs a. induction Hs as [| e l Hs IH He]; [cbn; lia |]. apply Forall_cons in Hsz as [Hse Hsz]. rewrite filter_cons. case_decide as Ha; [| by apply IH].
  destruct (filter (fun e => holds e a) l) as [| x xs] eqn:Ef; [cbn; lia |]. exfalso.
  assert (Hin : x ∈ filter (fun e => holds e a) l) by (rewrite Ef; by left). apply list_elem_of_filter in Hin as [Hxa Hx].
  rewrite Forall_forall in He, Hsz. specialize (He x Hx). unfold holds in *. lia.
Qed.

Lemma apart_in_order l : Forall (fun e => 0 < size_of e) l → StronglySorted (fun a b => base_of a ≤ base_of b) l → apart l → in_order l.
Proof.
  intros Hsz Hs. induction Hs as [| e l Hs IH He]; intros Hap; [constructor |]. apply Forall_cons in Hsz as [Hse Hsz]. constructor.
  - apply IH; [done |]. intros a. specialize (Hap a). rewrite filter_cons in Hap. case_decide; cbn in Hap; lia.
  - apply Forall_forall. intros x Hx. destruct (decide (end_of e ≤ base_of x)); [done |]. exfalso. rewrite Forall_forall in He, Hsz. specialize (He x Hx). specialize (Hsz x Hx). cbn in Hsz.
    specialize (Hap (base_of x)). rewrite filter_cons in Hap. rewrite decide_True in Hap by (unfold holds; lia).
    assert (Hin : x ∈ filter (fun e => holds e (base_of x)) l) by (apply list_elem_of_filter; split; [unfold holds, end_of; lia | done]).
    destruct (filter _ l) as [| y ys]; [by apply elem_of_nil in Hin |]. cbn in Hap. lia.
Qed.

Section merge.
Context (xbar : hjson) (name : yaml) (devs : list yaml) (Hdevs : Lib.other_devices xbar name = Ok devs) (Hok : Forall dev_ok devs).

Definition good (e : yaml) : Prop := is_entry e ∧ 0 ≤ base_of e ∧ 4096 ≤ size_of e.

(** The addresses of the other devices. *)
Definition foreign (a : Z) : Prop := ∃ o, o ∈ others devs ∧ holds o a.

(** What the loop has made of the entries [pre]. *)
Record merged (pre result : list yaml) : Prop := {
  mg_good : Forall good result;
  mg_order : in_order result;
  mg_cover e a : e ∈ pre → holds e a → ∃ r, r ∈ result ∧ holds r a;
  mg_clear r a : r ∈ result → holds r a → ¬ foreign a;
  mg_last : match last result with None => pre = [] | Some r => ∃ p, p ∈ pre ∧ base_of r = base_of p end;
}.

(** The last entry is replaced by one that reaches at least to the end of [e]. *)
Lemma merged_grow pre rs r e n : merged pre (rs ++ [r]) → good e → (∀ p, p ∈ pre → good p ∧ end_of p ≤ base_of e) → end_of e ≤ base_of r + n →
  (∀ a, base_of r ≤ a < base_of r + n → ¬ foreign a) → merged (pre ++ [e]) (rs ++ [Lib.set_size n r]).
Proof.
  intros [Hg Ho Hc Hcl Hl] He Hpre Hn Hfree. rewrite last_snoc in Hl. destruct Hl as (p & Hp & Hbp). destruct (Hpre p Hp) as [(_ & _ & Hps) Hpe].
  apply Forall_app in Hg as [Hgs [(Hr & Hr0 & Hrs) _]%Forall_cons]. destruct He as (_ & _ & Hes). unfold end_of in *.
  destruct (set_size_entry r n Hr) as (Hr' & Hb' & Hs'); [lia |]. set (r' := Lib.set_size n r) in *. apply in_order_snoc in Ho as [Ho Hor]. split.
  - apply Forall_app. split; [done |]. apply Forall_singleton. split_and!; [done | lia | lia].
  - apply in_order_snoc. split; [done |]. intros x Hx. rewrite Hb'. by apply Hor.
  - intros q a Hq Ha. assert (Hr'a : base_of r ≤ a → a < base_of r + n → holds r' a) by (unfold holds, end_of; lia).
    apply elem_of_snoc in Hq as [Hq | ->].
    + destruct (Hc q a Hq Ha) as (x & Hx & Hxa). apply elem_of_snoc in Hx as [Hx | ->]; [exists x; split; [apply elem_of_snoc; by left | done] |].
      exists r'. split; [apply elem_of_snoc; by right |]. destruct (Hpre q Hq) as [_ Hqe]. unfold holds, end_of in *. apply Hr'a; lia.
    + exists r'. split; [apply elem_of_snoc; by right |]. unfold holds, end_of in *. apply Hr'a; lia.
  - intros x a Hx Ha. apply elem_of_snoc in Hx as [Hx | ->]; [apply (Hcl x); [apply elem_of_snoc; by left | done] |].
    apply Hfree. unfold holds, end_of in Ha. rewrite Hb', Hs' in Ha. done.
  - rewrite last_snoc. exists p. split; [apply elem_of_snoc; by left | lia].
Qed.

Lemma merge_step_ok pre result e : merged pre result → good e → (∀ p, p ∈ pre → good p ∧ end_of p ≤ base_of e) → (∀ a, holds e a → ¬ foreign a) →
  ∃ result', Lib.merge_step xbar (Ok name) result e = Ok result' ∧ merged (pre ++ [e]) result'.
Proof.
  intros Hm He Hpre Hfree. pose proof He as (Hent & He0 & Hes). unfold Lib.merge_step. destruct result as [| r rs _] using rev_ind.
  { cbn [last]. exists [e]. split; [done |]. destruct Hm as [_ _ _ _ Hl]. cbn in Hl. subst pre. split.
    - by apply Forall_singleton.
    - constructor; [constructor | by apply Forall_nil].
    - intros q a ->%list_elem_of_singleton Ha. exists e. split; [by left | done].
    - intros x a ->%list_elem_of_singleton. apply Hfree.
    - cbn. exists e. split; [by left | done]. }
  rewrite last_snoc, removelast_last. pose proof (mg_good _ _ Hm) as Hg. apply Forall_app in Hg as [_ [(Hr & Hr0 & Hrs) _]%Forall_cons].
  pose proof (mg_last _ _ Hm) as Hl. rewrite last_snoc in Hl. destruct Hl as (p & Hp & Hbp). destruct (Hpre p Hp) as [(_ & _ & Hps) Hpe].
  assert (Hrfree : ∀ a, holds r a → ¬ foreign a) by (intros a; apply (mg_clear _ _ Hm); apply elem_of_snoc; by right).
  destruct Hent as [Hb Hs]. destruct Hr as [Hrb Hrsz]. rewrite Hb, Hrb, Hrsz. cbn [mbind res_bind fst snd]. fold (end_of r). unfold end_of in Hpe. destruct (Z.eqb_spec (base_of e) (end_of r)) as [Heq | Hneq].
  - rewrite Hs. cbn [mbind res_bind fst snd]. eexists. split; [done |]. apply merged_grow; [done | done | done | unfold end_of in *; lia |].
    intros a Ha. destruct (decide (a < end_of r)); [apply Hrfree; unfold holds; lia | apply Hfree; unfold holds, end_of in *; lia].
  - rewrite (no_device_ok xbar name devs Hdevs Hok r e) by (done || by split). cbn [mbind res_bind]. destruct (forallb _ _) eqn:Eclear.
    + rewrite forallb_forall in Eclear. assert (Hsub : ∃ a, subscript "base_addr" e = Ok a).
      { unfold Lib.field in Hb. destruct (subscript _ _) as [a |]; [by exists a | done]. }
      destruct Hsub as (a & Ha). rewrite Ha. cbn [mbind res_bind]. destruct (next_base_ok xbar name devs Hdevs Hok e a) as (o & -> & Ho); [by split | done |]. cbn [mbind res_bind].
      set (next := match o with None => Ok 4294967296 | Some a0 => Lib.field "base_addr" a0 end).
      assert (Hnext : ∃ nv, next = Ok nv ∧ ∀ r, r ∈ others devs → base_of e < base_of r → base_of r < nv → False).
      { unfold next. destruct o as [n |]; [destruct Ho as [[Hn _] Ho]; rewrite Hn; exists (base_of n) | exists 4294967296]; (split; [done |]); intros o' Hin H1 H2; specialize (Ho o' Hin); [specialize (Ho H1) |]; lia. }
      destruct Hnext as (nv & -> & Hnv). cbn [mbind res_bind]. rewrite Hs. cbn [mbind res_bind fst snd].
      destruct (find_pow2_size_ok r (base_of r, size_of r) (base_of e + size_of e - base_of r) nv) as (i & -> & Hi & Hcase); [by split | done | lia |].
      cbn [mbind res_bind fst]. eexists. split; [done |]. apply merged_grow; [done | done | done | unfold end_of; lia |].
      intros b Hbr (o' & Ho' & Hhold). destruct (decide (holds r b)) as [Hrb' | Hnr]; [apply (Hrfree b Hrb'); by exists o' |].
      destruct (decide (holds e b)) as [Heb | Hne]; [apply (Hfree b Heb); by exists o' |].
      pose proof (proj1 (list_elem_of_In _ _) Ho') as HIn. specialize (Eclear o' HIn). unfold holds, end_of in *.
      destruct (decide (b < base_of e)); [apply orb_true_iff in Eclear as [E%Z.leb_le | E%Z.leb_le]; lia |].
      destruct Hcase as [-> | (k & _ & _ & _ & Hin)]; [lia |]. cbn in Hin. destruct (decide (base_of e < base_of o')); [apply (Hnv o' Ho'); lia |].
      apply (Hfree (base_of e)); [lia |]. exists o'. split; [done |]. unfold holds, end_of. lia.
    + eexists. split; [done |]. rewrite <- not_true_iff_false, forallb_forall in Eclear. destruct Hm as [Hg Hord Hc Hcl Hl].
      assert (Hend : end_of r ≤ base_of e).
      { destruct (decide (end_of r ≤ base_of e)); [done |]. exfalso. apply Eclear. intros o' Ho'%list_elem_of_In. destruct (decide (end_of o' ≤ end_of r)); [by rewrite (proj2 (Z.leb_le _ _)) |].
        destruct (decide (base_of e ≤ base_of o')); [rewrite (proj2 (Z.leb_le (base_of e) _)) by done; apply orb_true_r |]. exfalso.
        apply (Hfree (base_of e)); [unfold holds, end_of; lia |]. exists o'. split; [done |]. unfold holds. lia. }
      apply in_order_snoc in Hord as Hord'. destruct Hord' as [_ Hor]. split.
      * apply Forall_app. split; [done | by apply Forall_singleton].
      * apply in_order_snoc. split; [done |]. intros x [Hx | ->]%elem_of_snoc; [| done]. specialize (Hor x Hx). unfold end_of in *. lia.
      * intros q a [Hq | ->]%elem_of_snoc Ha; [destruct (Hc q a Hq Ha) as (x & ? & ?); exists x; split; [apply elem_of_snoc; by left | done] |].
        exists e. split; [apply elem_of_snoc; by right | done].
      * intros x a [Hx | ->]%elem_of_snoc Ha; [by apply (Hcl x) | by apply Hfree].
      * rewrite last_snoc. exists e. split; [apply elem_of_snoc; by right | done].
Qed.
End merge.
