(* ===== verification/TlFacts.v ===== *)
(** The graph of a crossbar and what elaboration does to it: edges are subdivided, so that paths between the
    nodes that were there before stay. *)

From S2P Require Import Prelude BitLoops PyList Tlgen.

#[local] Open Scope stdpp_scope.
#[local] Open Scope list_scope.

Import Xbar.

(** ** Graphs *)

(** The lists of the nodes and the ends of the edges say the same. *)
Record graph_ok (x : Xbar) : Prop := {
  g_ends e u v : edges x !! e = Some (mkEdge u v) → (u < length (nodes x))%nat ∧ (v < length (nodes x))%nat;
  g_ds n nd e : nodes x !! n = Some nd → e ∈ n_ds nd ↔ ∃ v, edges x !! e = Some (mkEdge n v);
  g_us n nd e : nodes x !! n = Some nd → e ∈ n_us nd ↔ ∃ u, edges x !! e = Some (mkEdge u n);
  g_nodup n nd : nodes x !! n = Some nd → NoDup (n_ds nd) ∧ NoDup (n_us nd);
}.

Definition step (x : Xbar) (u v : nat) : Prop := ∃ e, edges x !! e = Some (mkEdge u v).

(** A node apart from its edges and the settings of its FIFOs. *)
Definition same_node (nd nd' : Node) : Prop :=
  n_name nd' = n_name nd ∧ node_type nd' = node_type nd ∧ clocks nd' = clocks nd ∧ resets nd' = resets nd ∧ addr_range nd' = addr_range nd ∧
  pipeline nd' = pipeline nd ∧ pipeline_byp nd' = pipeline_byp nd.

#[export] Instance same_node_preorder : PreOrder same_node.
Proof. split; [by intros nd | intros a b c (?&?&?&?&?&?&?) (?&?&?&?&?&?&?); unfold same_node; split_and!; congruence]. Qed.

(** [x'] subdivides the edges of [x]: [f] sends a new node to the node it was put next to. *)
Record subdivides (f : nat → nat) (x x' : Xbar) : Prop := {
  sd_old v : (v < length (nodes x))%nat → f v = v;
  sd_len : (length (nodes x) ≤ length (nodes x'))%nat;
  sd_range v : (v < length (nodes x'))%nat → (f v < length (nodes x))%nat;
  sd_edge e u v : edges x !! e = Some (mkEdge u v) → ∃ u' v', edges x' !! e = Some (mkEdge u' v') ∧ f u' = u ∧ f v' = v;
  sd_new e u v : edges x' !! e = Some (mkEdge u v) → edges x !! e = None → f u = f v;
  sd_path u v : step x u v → rtc (step x') u v;
  sd_node n nd : nodes x !! n = Some nd → ∃ nd', nodes x' !! n = Some nd' ∧ same_node nd nd';
}.

Lemma subdivides_refl x : subdivides id x x.
Proof.
  split; try done.
  - intros e u v H. by exists u, v.
  - intros e u v H H'. by rewrite H in H'.
  - intros u v H. by apply rtc_once.
  - intros n nd H. exists nd. split; [done | reflexivity].
Qed.

Lemma subdivides_trans f g x y z : subdivides f x y → subdivides g y z → subdivides (f ∘ g) x z.
Proof.
  intros A B. split; cbn.
  - intros v Hv. rewrite (sd_old _ _ _ B) by (pose proof (sd_len _ _ _ A); lia). by apply A.
  - pose proof (sd_len _ _ _ A). pose proof (sd_len _ _ _ B). lia.
  - intros v Hv. apply A. by apply B.
  - intros e u v H. apply (sd_edge _ _ _ A) in H as (u1 & v1 & H & <- & <-). apply (sd_edge _ _ _ B) in H as (u2 & v2 & H & <- & <-). by exists u2, v2.
  - intros e u v H Hn. destruct (edges y !! e) as [[u1 v1] |] eqn:E; [| f_equal; by apply (sd_new _ _ _ B e)].
    pose proof (sd_new _ _ _ A e u1 v1 E Hn) as Hf. apply (sd_edge _ _ _ B) in E as (u2 & v2 & E & <- & <-). rewrite H in E. by injection E as <- <-.
  - intros u v H. apply (sd_path _ _ _ A) in H. clear A. induction H as [u | u w v Hs _ IH]; [done |]. etrans; [by apply (sd_path _ _ _ B) | done].
  - intros n nd H. apply (sd_node _ _ _ A) in H as (nd1 & H & H1). apply (sd_node _ _ _ B) in H as (nd2 & H & H2). exists nd2. split; [done | by etrans].
Qed.

(** Paths between old nodes. *)
Lemma subdivides_reach f x x' a b : subdivides f x x' → (a < length (nodes x))%nat → (b < length (nodes x))%nat →
  rtc (step x) a b ↔ rtc (step x') a b.
Proof.
  intros H Ha Hb. split.
  - clear Ha Hb. induction 1 as [u | u w v Hs _ IH]; [done |]. etrans; [by apply (sd_path _ _ _ H) | done].
  - intros Hr. rewrite <- (sd_old _ _ _ H a Ha), <- (sd_old _ _ _ H b Hb). clear Ha Hb. induction Hr as [u | u w v [e He] _ IH]; [done |].
    etrans; [| done]. destruct (edges x !! e) as [[u0 v0] |] eqn:E.
    + apply (sd_edge _ _ _ H) in E as Ee. destruct Ee as (u' & v' & E' & <- & <-). rewrite He in E'. injection E' as <- <-. apply rtc_once. by exists e.
    + by rewrite (sd_new _ _ _ H e u w He E).
Qed.

(** ** Inserting a node *)

Lemma redirect_us_lookup m l es e :
  redirect_us m l es !! e = if bool_decide (e ∈ l) then (fun ed => mkEdge m (ds_of ed)) <$> es !! e else es !! e.
Proof.
  unfold redirect_us. revert es. induction l as [| i l IH]; intros es; cbn [foldl]; [by rewrite bool_decide_eq_false_2 by apply not_elem_of_nil |].
  rewrite IH. destruct (decide (e = i)) as [-> | Hne].
  - rewrite list_lookup_alter_eq, (bool_decide_eq_true_2 (i ∈ i :: l)) by (by left). case_bool_decide; [| done]. by destruct (es !! i).
  - rewrite list_lookup_alter_ne by done. rewrite (bool_decide_ext (e ∈ i :: l) (e ∈ l)); [done |]. rewrite elem_of_cons. naive_solver.
Qed.

Lemma redirect_ds_lookup m l es e :
  redirect_ds m l es !! e = if bool_decide (e ∈ l) then (fun ed => mkEdge (us_of ed) m) <$> es !! e else es !! e.
Proof.
  unfold redirect_ds. revert es. induction l as [| i l IH]; intros es; cbn [foldl]; [by rewrite bool_decide_eq_false_2 by apply not_elem_of_nil |].
  rewrite IH. destruct (decide (e = i)) as [-> | Hne].
  - rewrite list_lookup_alter_eq, (bool_decide_eq_true_2 (i ∈ i :: l)) by (by left). case_bool_decide; [| done]. by destruct (es !! i).
  - rewrite list_lookup_alter_ne by done. rewrite (bool_decide_ext (e ∈ i :: l) (e ∈ l)); [done |]. rewrite elem_of_cons. naive_solver.
Qed.

Lemma redirect_us_length m l es : length (redirect_us m l es) = length es.
Proof. unfold redirect_us. revert es. induction l as [| i l IH]; intros es; [done |]. cbn [foldl]. by rewrite IH, length_alter. Qed.
Lemma redirect_ds_length m l es : length (redirect_ds m l es) = length es.
Proof. unfold redirect_ds. revert es. induction l as [| i l IH]; intros es; [done |]. cbn [foldl]. by rewrite IH, length_alter. Qed.

(** The graph after an insertion: [n] is the old node, [m] the new one and [e0] the edge between them. *)
Record inserted (below : bool) (new : Node) (n : nat) (nd : Node) (x x' : Xbar) : Prop := {
  ins_clock : xb_clock x' = xb_clock x ∧ xb_reset x' = xb_reset x;
  ins_len : length (nodes x') = S (length (nodes x)) ∧ length (edges x') = S (length (edges x));
  ins_new : nodes x' !! length (nodes x) =
    Some (if below then set_us [length (edges x)] (set_ds (n_ds nd) new) else set_us (n_us nd) (set_ds [length (edges x)] new));
  ins_at : nodes x' !! n = Some (if below then set_ds [length (edges x)] nd else set_us [length (edges x)] nd);
  ins_other i : i ≠ n → (i < length (nodes x))%nat → nodes x' !! i = nodes x !! i;
  ins_edge : edges x' !! length (edges x) = Some (if below then mkEdge n (length (nodes x)) else mkEdge (length (nodes x)) n);
  ins_edges i : (i < length (edges x))%nat → edges x' !! i =
    if below then if bool_decide (i ∈ n_ds nd) then (fun ed => mkEdge (length (nodes x)) (ds_of ed)) <$> edges x !! i else edges x !! i
    else if bool_decide (i ∈ n_us nd) then (fun ed => mkEdge (us_of ed) (length (nodes x))) <$> edges x !! i else edges x !! i;
}.

Lemma node_at_ok x n nd : nodes x !! n = Some nd → node_at x n = Ok nd.
Proof. intros H. unfold node_at. by rewrite H. Qed.
Lemma edge_at_ok x e ed : edges x !! e = Some ed → edge_at x e = Ok ed.
Proof. intros H. unfold edge_at. by rewrite H. Qed.

Lemma insert_below_ok new n nd x : graph_ok x → nodes x !! n = Some nd → ∃ x', insert_below new n x = Ok x' ∧ inserted true new n nd x x'.
Proof.
  intros Hg Hn. pose proof (lookup_lt_Some _ _ _ Hn) as Hlt. unfold insert_below. rewrite (node_at_ok _ _ _ Hn). cbn [mbind res_bind].
  eexists. split; [done |]. split; cbn [nodes edges set_graph xb_clock xb_reset].
  - done.
  - rewrite length_app, length_alter, redirect_us_length, length_app. cbn. lia.
  - rewrite lookup_app_r, length_alter, Nat.sub_diag by (rewrite length_alter; lia). done.
  - rewrite lookup_app_l, list_lookup_alter_eq, Hn by (rewrite length_alter; lia). done.
  - intros i Hi Hil. rewrite lookup_app_l, list_lookup_alter_ne by (done || rewrite length_alter; lia). done.
  - rewrite redirect_us_lookup, lookup_app_r, Nat.sub_diag by lia. rewrite bool_decide_eq_false_2; [done |].
    intros Hin. apply (g_ds _ Hg n nd) in Hin as (v & Hv); [| done]. apply lookup_lt_Some in Hv. lia.
  - intros i Hi. rewrite redirect_us_lookup, lookup_app_l by done. done.
Qed.

Lemma insert_above_ok new n nd x : graph_ok x → nodes x !! n = Some nd → ∃ x', insert_above new n x = Ok x' ∧ inserted false new n nd x x'.
Proof.
  intros Hg Hn. pose proof (lookup_lt_Some _ _ _ Hn) as Hlt. unfold insert_above. rewrite (node_at_ok _ _ _ Hn). cbn [mbind res_bind].
  eexists. split; [done |]. split; cbn [nodes edges set_graph xb_clock xb_reset].
  - done.
  - rewrite length_app, length_alter, redirect_ds_length, length_app. cbn. lia.
  - rewrite lookup_app_r, length_alter, Nat.sub_diag by (rewrite length_alter; lia). done.
  - rewrite lookup_app_l, list_lookup_alter_eq, Hn by (rewrite length_alter; lia). done.
  - intros i Hi Hil. rewrite lookup_app_l, list_lookup_alter_ne by (done || rewrite length_alter; lia). done.
  - rewrite redirect_ds_lookup, lookup_app_r, Nat.sub_diag by lia. rewrite bool_decide_eq_false_2; [done |].
    intros Hin. apply (g_us _ Hg n nd) in Hin as (v & Hv); [| done]. apply lookup_lt_Some in Hv. lia.
  - intros i Hi. rewrite redirect_ds_lookup, lookup_app_l by done. done.
Qed.

Section inserted.
Context (b : bool) (new : Node) (n : nat) (nd : Node) (x x' : Xbar) (Hg : graph_ok x) (Hn : nodes x !! n = Some nd) (H : inserted b new n nd x x').

Let M := length (nodes x).
Let E := length (edges x).

Definition moved (ed : Edge) : Edge :=
  if b then mkEdge (if decide (us_of ed = n) then M else us_of ed) (ds_of ed) else mkEdge (us_of ed) (if decide (ds_of ed = n) then M else ds_of ed).
Definition between : Edge := if b then mkEdge n M else mkEdge M n.

Lemma n_lt : (n < M)%nat.
Proof. by apply lookup_lt_Some in Hn. Qed.

Lemma old_edge e ed : edges x !! e = Some ed → edges x' !! e = Some (moved ed).
Proof.
  intros He. pose proof (lookup_lt_Some _ _ _ He) as Hlt. rewrite (ins_edges _ _ _ _ _ _ H e Hlt), He. destruct ed as [u v]. unfold moved. cbn [us_of ds_of].
  destruct b.
  - rewrite (bool_decide_ext _ (u = n)); [by case_decide; case_bool_decide |]. rewrite (g_ds _ Hg n nd e Hn), He. naive_solver.
  - rewrite (bool_decide_ext _ (v = n)); [by case_decide; case_bool_decide |]. rewrite (g_us _ Hg n nd e Hn), He. naive_solver.
Qed.

Lemma edge_inv e ed : edges x' !! e = Some ed → (e = E ∧ ed = between) ∨ ∃ ed0, edges x !! e = Some ed0 ∧ ed = moved ed0.
Proof.
  intros He. pose proof (lookup_lt_Some _ _ _ He) as Hlt. rewrite (proj2 (ins_len _ _ _ _ _ _ H)) in Hlt. destruct (decide (e = E)) as [-> | Hne].
  - left. split; [done |]. unfold E in He. rewrite (ins_edge _ _ _ _ _ _ H) in He. unfold between. destruct b; by injection He as <-.
  - right. destruct (lookup_lt_is_Some_2 (edges x) e) as [ed0 He0]; [unfold E in *; lia |]. exists ed0. split; [done |].
    apply old_edge in He0. congruence.
Qed.

Lemma new_edge : edges x' !! E = Some between.
Proof. unfold E. rewrite (ins_edge _ _ _ _ _ _ H). unfold between. by destruct b. Qed.

Lemma no_edge : edges x !! E = None.
Proof. apply lookup_ge_None. done. Qed.

(** The nodes of the new graph. *)
Lemma node_cases i ni : nodes x' !! i = Some ni →
  (i = M ∧ ni = if b then set_us [E] (set_ds (n_ds nd) new) else set_us (n_us nd) (set_ds [E] new)) ∨
  (i = n ∧ ni = if b then set_ds [E] nd else set_us [E] nd) ∨ (i ≠ n ∧ (i < M)%nat ∧ nodes x !! i = Some ni).
Proof.
  intros Hi. pose proof (lookup_lt_Some _ _ _ Hi) as Hlt. rewrite (proj1 (ins_len _ _ _ _ _ _ H)) in Hlt. destruct (decide (i = M)) as [-> | HM].
  - left. split; [done |]. unfold M in Hi. rewrite (ins_new _ _ _ _ _ _ H) in Hi. by injection Hi as <-.
  - right. destruct (decide (i = n)) as [-> | Hne].
    + left. split; [done |]. rewrite (ins_at _ _ _ _ _ _ H) in Hi. by injection Hi as <-.
    + right. split; [done |]. assert (i < M)%nat by (unfold M in *; lia). split; [done |]. by rewrite <- (ins_other _ _ _ _ _ _ H i).
Qed.

(** Where an edge starts and where it ends. *)
Lemma starts e u : (∃ v, edges x' !! e = Some (mkEdge u v)) ↔
  (e = E ∧ u = us_of between) ∨ ∃ u0 v0, edges x !! e = Some (mkEdge u0 v0) ∧ u = if b then if decide (u0 = n) then M else u0 else u0.
Proof.
  split.
  - intros (v & [[-> He] | ([u0 v0] & He0 & He)]%edge_inv); [left; split; [done | by rewrite <- He] | right; exists u0, v0; split; [done |]].
    unfold moved in He. destruct b; by injection He.
  - intros [[-> ->] | (u0 & v0 & He & ->)].
    + exists (ds_of between). rewrite new_edge. by destruct between.
    + apply old_edge in He. rewrite He. unfold moved. destruct b; by eexists.
Qed.

Lemma ends e v : (∃ u, edges x' !! e = Some (mkEdge u v)) ↔
  (e = E ∧ v = ds_of between) ∨ ∃ u0 v0, edges x !! e = Some (mkEdge u0 v0) ∧ v = if b then v0 else if decide (v0 = n) then M else v0.
Proof.
  split.
  - intros (u & [[-> He] | ([u0 v0] & He0 & He)]%edge_inv); [left; split; [done | by rewrite <- He] | right; exists u0, v0; split; [done |]].
    unfold moved in He. destruct b; by injection He.
  - intros [[-> ->] | (u0 & v0 & He & ->)].
    + exists (us_of between). rewrite new_edge. by destruct between.
    + apply old_edge in He. rewrite He. unfold moved. destruct b; by eexists.
Qed.

Lemma elem_ds i ni e : nodes x !! i = Some ni → e ∈ n_ds ni ↔ ∃ v, edges x !! e = Some (mkEdge i v).
Proof. apply Hg. Qed.
Lemma elem_us i ni e : nodes x !! i = Some ni → e ∈ n_us ni ↔ ∃ u, edges x !! e = Some (mkEdge u i).
Proof. apply Hg. Qed.

Lemma inserted_graph_ok : graph_ok x'.
Proof.
  pose proof n_lt as Hlt. pose proof (g_ends _ Hg) as Hends. split.
  - intros e u v [[-> He] | ([u0 v0] & He0 & He)]%edge_inv; rewrite (proj1 (ins_len _ _ _ _ _ _ H)); fold M.
    + unfold between in He. destruct b; injection He as Hu Hv; subst u v; lia.
    + apply Hends in He0 as [Hu0 Hv0]. fold M in Hu0, Hv0. unfold moved in He. cbn in He. destruct b; injection He as Hu Hv; subst u v; case_decide; lia.
  - intros i ni e Hi. rewrite starts. unfold between. apply node_cases in Hi as [[-> ->] | [[-> ->] | (Hne & Hil & Hi)]].
    + destruct b; cbn.
      * rewrite (elem_ds _ _ _ Hn). split.
        -- intros (v & Hv). right. exists n, v. by rewrite decide_True.
        -- intros [[_ ?] | (u0 & v0 & He & Hu)]; [lia |]. case_decide; [subst u0; by exists v0 | apply Hends in He; fold M in He; lia].
      * rewrite list_elem_of_singleton. split; [by left |]. intros [[? _] | (u0 & v0 & He & <-)]; [done |]. apply Hends in He. fold M in He. lia.
    + destruct b; cbn.
      * rewrite list_elem_of_singleton. split; [by left |]. intros [[? _] | (u0 & v0 & He & Hu)]; [done |]. case_decide; lia.
      * rewrite (elem_ds _ _ _ Hn). split.
        -- intros (v & Hv). right. by exists n, v.
        -- intros [[_ ?] | (u0 & v0 & He & ->)]; [lia |]. by exists v0.
    + rewrite (elem_ds _ _ _ Hi). destruct b; cbn.
      * split.
        -- intros (v & Hv). right. exists i, v. by rewrite decide_False.
        -- intros [[_ ?] | (u0 & v0 & He & Hu)]; [done |]. case_decide; [lia | subst u0; by exists v0].
      * split.
        -- intros (v & Hv). right. by exists i, v.
        -- intros [[_ ?] | (u0 & v0 & He & ->)]; [lia |]. by exists v0.
  - intros i ni e Hi. rewrite ends. unfold between. apply node_cases in Hi as [[-> ->] | [[-> ->] | (Hne & Hil & Hi)]].
    + destruct b; cbn.
      * rewrite list_elem_of_singleton. split; [by left |]. intros [[? _] | (u0 & v0 & He & <-)]; [done |]. apply Hends in He. fold M in He. lia.
      * rewrite (elem_us _ _ _ Hn). split.
        -- intros (v & Hv). right. exists v, n. by rewrite decide_True.
        -- intros [[_ ?] | (u0 & v0 & He & Hu)]; [lia |]. case_decide; [subst v0; by exists u0 | apply Hends in He; fold M in He; lia].
    + destruct b; cbn.
      * rewrite (elem_us _ _ _ Hn). split.
        -- intros (v & Hv). right. by exists v, n.
        -- intros [[_ ?] | (u0 & v0 & He & ->)]; [lia |]. by exists u0.
      * rewrite list_elem_of_singleton. split; [by left |]. intros [[? _] | (u0 & v0 & He & Hu)]; [done |]. case_decide; lia.
    + rewrite (elem_us _ _ _ Hi). destruct b; cbn.
      * split.
        -- intros (v & Hv). right. by exists v, i.
        -- intros [[_ ?] | (u0 & v0 & He & ->)]; [lia |]. by exists u0.
      * split.
        -- intros (v & Hv). right. exists v, i. by rewrite decide_False.
        -- intros [[_ ?] | (u0 & v0 & He & Hu)]; [done |]. case_decide; [lia | subst v0; by exists u0].
  - intros i ni Hi. destruct (g_nodup _ Hg n nd Hn). apply node_cases in Hi as [[-> ->] | [[-> ->] | (Hne & Hil & Hi)]];
      [destruct b; cbn; split; (done || apply NoDup_singleton).. | by apply (g_nodup _ Hg i)].
Qed.

Definition collapse (v : nat) : nat := if decide (v = M) then n else v.

Lemma collapse_moved ed : edges x !! E = None → (us_of ed < M)%nat → (ds_of ed < M)%nat →
  collapse (us_of (moved ed)) = us_of ed ∧ collapse (ds_of (moved ed)) = ds_of ed.
Proof.
  intros _ Hu Hv. unfold collapse, moved. destruct b; cbn; repeat case_decide; subst; try done; lia.
Qed.

Lemma inserted_subdivides : subdivides collapse x x'.
Proof.
  pose proof n_lt as Hlt. pose proof (g_ends _ Hg) as Hends. split.
  - intros v Hv. unfold collapse. fold M in Hv. rewrite decide_False; [done | lia].
  - rewrite (proj1 (ins_len _ _ _ _ _ _ H)). lia.
  - intros v Hv. rewrite (proj1 (ins_len _ _ _ _ _ _ H)) in Hv. unfold collapse. fold M in Hv |- *. case_decide; lia.
  - intros e u v He. pose proof (Hends _ _ _ He) as [Hu Hv]. apply old_edge in He as He'. destruct (moved (mkEdge u v)) as [u' v'] eqn:Em.
    exists u', v'. split; [done |]. pose proof (collapse_moved (mkEdge u v) no_edge Hu Hv) as Hc. by rewrite Em in Hc.
  - intros e u v He Hno. apply edge_inv in He as [[-> He] | (ed0 & He0 & _)]; [| congruence].
    unfold between in He. unfold collapse. destruct b; injection He as Hu Hv; subst u v; repeat case_decide; (done || lia).
  - intros u v (e & He). apply old_edge in He as He'. pose proof new_edge as Hb. unfold between in Hb. unfold moved in He'. cbn in He'. destruct b; cbn in *.
    + case_decide; [subst u; eapply rtc_l; [by exists E | apply rtc_once; by exists e] | apply rtc_once; by exists e].
    + case_decide; [subst v; eapply rtc_l; [by exists e | apply rtc_once; by exists E] | apply rtc_once; by exists e].
  - intros i ni Hi. destruct (decide (i = n)) as [-> | Hne].
    + rewrite Hn in Hi. injection Hi as <-. rewrite (ins_at _ _ _ _ _ _ H). destruct b; eexists; (split; [done |]); by unfold same_node.
    + exists ni. rewrite (ins_other _ _ _ _ _ _ H) by (done || by apply lookup_lt_Some in Hi). split; [done | reflexivity].
Qed.
End inserted.

(** ** Elaboration *)

(** Hosts that are connected to devices. *)
Record bipartite (x : Xbar) : Prop := {
  bp_graph : graph_ok x;
  bp_node n nd : nodes x !! n = Some nd → (node_type nd = HOST ∨ node_type nd = DEVICE) ∧ (∃ c, clocks nd = [c]) ∧ (∃ r, resets nd = [r]);
  bp_edge e u v nu nv : edges x !! e = Some (mkEdge u v) → nodes x !! u = Some nu → nodes x !! v = Some nv →
    node_type nu = HOST ∧ node_type nv = DEVICE;
  bp_host n nd : nodes x !! n = Some nd → node_type nd = HOST → n_ds nd ≠ [];
}.

Definition type_at (x : Xbar) (n : nat) : option NodeType := node_type <$> nodes x !! n.

Section elaboration.
Context (x0 : Xbar) (Hx0 : bipartite x0).

(** The clock at the lower side and at the upper side of a node; hosts [H] and devices [D] that wait to be
    processed are treated as if they had the clock of the crossbar. *)
Definition out_clock (H : gset nat) (x : Xbar) (u : nat) : option string :=
  if decide (u ∈ H) then Some (xb_clock x0) else nodes x !! u ≫= fun nd => last (clocks nd).
Definition in_clock (D : gset nat) (x : Xbar) (v : nat) : option string :=
  if decide (v ∈ D) then Some (xb_clock x0) else nodes x !! v ≫= fun nd => head (clocks nd).

(** How many edges a node has above and below. *)
Definition arity_ok (t : NodeType) (us ds : list nat) : Prop :=
  match t with
  | HOST => us = [] ∧ length ds = 1%nat
  | DEVICE => (length us ≤ 1)%nat ∧ ds = []
  | ASYNC_FIFO => length us = 1%nat ∧ length ds = 1%nat
  | SOCKET_1N => length us = 1%nat ∧ (1 < length ds)%nat
  | SOCKET_M1 => (1 < length us)%nat ∧ length ds = 1%nat
  end.

Definition clocks_ok (nd : Node) : Prop :=
  match node_type nd with
  | ASYNC_FIFO => ∃ a b, clocks nd = [a; b]
  | SOCKET_1N | SOCKET_M1 => clocks nd = [xb_clock x0]
  | _ => ∃ c, clocks nd = [c]
  end.

Definition fifo_ok (nd : Node) : Prop :=
  node_type nd = SOCKET_1N ∨ node_type nd = SOCKET_M1 → is_Some (hpass nd) ∧ is_Some (hdepth nd) ∧ is_Some (dpass nd) ∧ is_Some (ddepth nd).

(** The order of the types along a path; [f] tells the FIFOs of hosts from those of devices. *)
Definition rank (f : nat → nat) (x : Xbar) (n : nat) : nat :=
  match type_at x n with
  | Some HOST => 5
  | Some ASYNC_FIFO => if decide (type_at x0 (f n) = Some HOST) then 4 else 1
  | Some SOCKET_1N => 3
  | Some SOCKET_M1 => 2
  | _ => 0
  end.

(** A state of the elaboration: [Z] are the nodes whose processing goes on. *)
Record elab (f : nat → nat) (H D Z : gset nat) (x : Xbar) : Prop := {
  el_graph : graph_ok x;
  el_sub : subdivides f x0 x;
  el_clock : xb_clock x = xb_clock x0;
  el_node n nd : nodes x !! n = Some nd → clocks_ok nd ∧ fifo_ok nd ∧ resets nd ≠ [];
  el_arity n nd : nodes x !! n = Some nd → n ∉ H → n ∉ D → n ∉ Z → arity_ok (node_type nd) (n_us nd) (n_ds nd);
  el_host h : h ∈ H → ∃ nd nd0, nodes x !! h = Some nd ∧ nodes x0 !! h = Some nd0 ∧ node_type nd = HOST ∧ n_us nd = [] ∧ n_ds nd = n_ds nd0;
  el_device d : d ∈ D → ∃ nd nd0, nodes x !! d = Some nd ∧ nodes x0 !! d = Some nd0 ∧ node_type nd = DEVICE ∧ n_us nd = n_us nd0 ∧ n_ds nd = [];
  el_cross e u v : edges x !! e = Some (mkEdge u v) → out_clock H x u = in_clock D x v;
  el_rank e u v : edges x !! e = Some (mkEdge u v) → (rank f x v < rank f x u)%nat;
  el_side n t : type_at x n = Some t →
    match t with
    | HOST | DEVICE => (n < length (nodes x0))%nat
    | SOCKET_1N => type_at x0 (f n) = Some HOST
    | SOCKET_M1 => type_at x0 (f n) = Some DEVICE
    | ASYNC_FIFO => True
    end;
}.

Lemma type_old f x n t : subdivides f x0 x → type_at x0 n = Some t → type_at x n = Some t.
Proof.
  intros Hs Ht. unfold type_at in *. destruct (nodes x0 !! n) as [nd |] eqn:E; [| done]. injection Ht as <-.
  apply (sd_node _ _ _ Hs) in E as (nd' & -> & (_ & Ht & _)). cbn. by rewrite Ht.
Qed.

Lemma type_x0 n : (n < length (nodes x0))%nat → type_at x0 n = Some HOST ∨ type_at x0 n = Some DEVICE.
Proof.
  intros Hn. unfold type_at. destruct (lookup_lt_is_Some_2 _ _ Hn) as [nd E]. rewrite E. cbn. apply (bp_node _ Hx0) in E as ([-> | ->] & _); auto.
Qed.

Lemma edge_types e u v : edges x0 !! e = Some (mkEdge u v) → type_at x0 u = Some HOST ∧ type_at x0 v = Some DEVICE.
Proof.
  intros He. pose proof (g_ends _ (bp_graph _ Hx0) _ _ _ He) as [Hu Hv]. destruct (lookup_lt_is_Some_2 _ _ Hu) as [nu Eu]. destruct (lookup_lt_is_Some_2 _ _ Hv) as [nv Ev].
  unfold type_at. rewrite Eu, Ev. cbn. destruct (bp_edge _ Hx0 _ _ _ _ _ He Eu Ev) as [-> ->]. done.
Qed.

(** The ends of an edge that was there from the start. *)
Lemma old_ranks f H D Z x e u v : elab f H D Z x → (e < length (edges x0))%nat → edges x !! e = Some (mkEdge u v) →
  (rank f x v ≤ 2 ∧ 3 ≤ rank f x u)%nat.
Proof.
  intros Hel Hlt He. destruct (lookup_lt_is_Some_2 _ _ Hlt) as [[u0 v0] He0]. destruct (sd_edge _ _ _ (el_sub _ _ _ _ _ Hel) _ _ _ He0) as (u' & v' & He' & Hu & Hv).
  rewrite He in He'. injection He' as <- <-. apply edge_types in He0 as [Tu Tv]. rewrite <- Hu in Tu. rewrite <- Hv in Tv.
  pose proof (g_ends _ (el_graph _ _ _ _ _ Hel) _ _ _ He) as [Lu Lv].
  assert (Hold : ∀ w t t', type_at x w = Some t → (w < length (nodes x0))%nat → type_at x0 (f w) = Some t' → t = t').
  { intros w t t' Hw Hl Ht. rewrite (sd_old _ _ _ (el_sub _ _ _ _ _ Hel)) in Ht by done. apply (type_old f x) in Ht; [congruence | apply Hel]. }
  unfold rank. rewrite Tu, Tv. cbn. pose proof (el_side _ _ _ _ _ Hel) as Hside. split.
  - destruct (type_at x v) as [[] |] eqn:E; try lia.
    + specialize (Hside _ _ E). by pose proof (Hold _ _ _ E Hside Tv).
    + rewrite decide_False by done. lia.
    + specialize (Hside _ _ E). cbn in Hside. congruence.
  - destruct (type_at x u) as [[] |] eqn:E; try lia; try (specialize (Hside _ _ E); cbn in Hside).
    + by pose proof (Hold _ _ _ E Hside Tu).
    + rewrite decide_True by done. lia.
    + congruence.
    + unfold type_at in E. destruct (lookup_lt_is_Some_2 _ _ Lu) as [nd E']. by rewrite E' in E.
Qed.

Section insert.
Context (f : nat → nat) (H D Z : gset nat) (x x' : Xbar) (b : bool) (new : Node) (n : nat) (nd : Node).
Context (Hel : elab f H D Z x) (Hn : nodes x !! n = Some nd) (Hins : inserted b new n nd x x').

Let M := length (nodes x).
Let f' : nat → nat := f ∘ collapse n x.

Lemma ins_same i : (i < M)%nat → type_at x' i = type_at x i ∧ (∀ A (g : list string → option A), (nodes x' !! i ≫= fun nd => g (clocks nd)) = nodes x !! i ≫= fun nd => g (clocks nd)) ∧ f' i = f i.
Proof.
  intros Hi. assert (Hf : f' i = f i) by (unfold f', compose, collapse; rewrite decide_False; [done | unfold M in Hi; lia]). split_and!; [| | done].
  - unfold type_at. destruct (decide (i = n)) as [-> | Hne]; [| by rewrite (ins_other _ _ _ _ _ _ Hins)].
    rewrite (ins_at _ _ _ _ _ _ Hins), Hn. by destruct b.
  - intros A g. destruct (decide (i = n)) as [-> | Hne]; [| by rewrite (ins_other _ _ _ _ _ _ Hins)].
    rewrite (ins_at _ _ _ _ _ _ Hins), Hn. by destruct b.
Qed.

Lemma ins_rank i : (i < M)%nat → rank f' x' i = rank f x i.
Proof. intros Hi. destruct (ins_same i Hi) as (Ht & _ & Hf). unfold rank. by rewrite Ht, Hf. Qed.

Lemma ins_f_new : f' M = f n.
Proof. unfold f', compose, collapse. by rewrite decide_True. Qed.

Lemma ins_new_node : ∃ nm, nodes x' !! M = Some nm ∧ node_type nm = node_type new ∧ clocks nm = clocks new.
Proof. unfold M. rewrite (ins_new _ _ _ _ _ _ Hins). eexists. split; [done |]. by destruct b. Qed.

(** Numbers in the sets are numbers of nodes. *)
Lemma waiting_lt i : i ∈ H ∪ D → (i < M)%nat.
Proof.
  intros [Hi | Hi]%elem_of_union; [apply (el_host _ _ _ _ _ Hel) in Hi as (? & ? & Hi & _) | apply (el_device _ _ _ _ _ Hel) in Hi as (? & ? & Hi & _)];
    by apply lookup_lt_Some in Hi.
Qed.

Lemma n_M : (n < M)%nat.
Proof. by apply lookup_lt_Some in Hn. Qed.

Lemma ins_clocks_new A (g : list string → option A) : (nodes x' !! M ≫= fun nd => g (clocks nd)) = g (clocks new).
Proof. destruct ins_new_node as (nm & -> & _ & E). cbn. by rewrite E. Qed.

Lemma ins_type_new : type_at x' M = Some (node_type new).
Proof. destruct ins_new_node as (nm & E & Et & _). unfold type_at. rewrite E. cbn. by rewrite Et. Qed.
End insert.

Section insert_below.
Context (f : nat → nat) (H D Z : gset nat) (x x' : Xbar) (new : Node) (n : nat) (nd : Node).
Context (Hel : elab f H D Z x) (Hn : nodes x !! n = Some nd) (Hins : inserted true new n nd x x').
Context (Hok : clocks_ok new ∧ fifo_ok new ∧ resets new ≠ []) (Hout : last (clocks new) = out_clock H x n) (Hbet : head (clocks new) = last (clocks nd)).
Context (Hold : ∀ e, e ∈ n_ds nd → (e < length (edges x0))%nat) (Hside : type_at x0 (f n) = Some HOST).
Context (Hnew : (node_type new = ASYNC_FIFO ∧ node_type nd = HOST ∧ n ∈ H) ∨
  (node_type new = SOCKET_1N ∧ (1 < length (n_ds nd))%nat ∧ ((node_type nd = HOST ∧ n ∈ H) ∨ (node_type nd = ASYNC_FIFO ∧ n ∈ Z ∧ n ∉ H ∧ length (n_us nd) = 1%nat)))).

Let M := length (nodes x).
Let f' : nat → nat := f ∘ collapse n x.

Lemma below_newT : type_at x' M = Some (node_type new).
Proof. by eapply ins_type_new. Qed.
Lemma below_newF : f' M = f n.
Proof. apply ins_f_new. Qed.
Lemma below_newC A (g : list string → option A) : (nodes x' !! M ≫= fun nd => g (clocks nd)) = g (clocks new).
Proof. by eapply ins_clocks_new. Qed.
Lemma below_same i : (i < M)%nat → type_at x' i = type_at x i ∧
  (∀ A (g : list string → option A), (nodes x' !! i ≫= fun nd => g (clocks nd)) = nodes x !! i ≫= fun nd => g (clocks nd)) ∧ f' i = f i ∧ rank f' x' i = rank f x i.
Proof.
  intros Hi. destruct (ins_same f x x' true new n nd Hn Hins i Hi) as (? & ? & ?). split_and!; try done. by eapply ins_rank.
Qed.

Lemma below_type : node_type nd ≠ DEVICE.
Proof. destruct Hnew as [(_ & -> & _) | (_ & _ & [[-> _] | [-> _]])]; done. Qed.

Lemma below_ranks : (rank f' x' M < rank f x n ∧ 3 ≤ rank f' x' M)%nat.
Proof.
  unfold rank. rewrite below_newT, below_newF. assert (type_at x n = Some (node_type nd)) as -> by (unfold type_at; by rewrite Hn).
  destruct Hnew as [(-> & -> & _) | (-> & _ & [[-> _] | [-> _]])]; rewrite ?decide_True by done; lia.
Qed.

Lemma below_elab : elab f' (H ∖ {[n]}) D (if decide (node_type new = ASYNC_FIFO) then Z ∪ {[M]} else Z ∖ {[n]}) x'.
Proof.
  pose proof (n_M x n nd Hn) as HnM. pose proof (waiting_lt f H D Z x Hel) as Hwait.
  assert (HMH : M ∉ H) by (intros HM; apply (Nat.lt_irrefl M), Hwait, elem_of_union; by left).
  assert (HMD : M ∉ D) by (intros HM; apply (Nat.lt_irrefl M), Hwait, elem_of_union; by right).
  assert (HnD : n ∉ D). { intros HD. apply (el_device _ _ _ _ _ Hel) in HD as (nd' & _ & E & _ & Ht & _). rewrite Hn in E. injection E as <-. by apply below_type. }
  pose proof (el_graph _ _ _ _ _ Hel) as Hg. split.
  - by eapply inserted_graph_ok.
  - eapply subdivides_trans; [apply Hel | by eapply inserted_subdivides].
  - rewrite (proj1 (ins_clock _ _ _ _ _ _ Hins)). apply Hel.
  - intros i ni [[-> ->] | [[-> ->] | (_ & _ & Hi)]]%(node_cases _ _ _ _ _ _ Hins); [exact Hok | exact (el_node _ _ _ _ _ Hel _ _ Hn) | by apply (el_node _ _ _ _ _ Hel i)].
  - intros i ni [[-> ->] | [[-> ->] | (Hne & Hil & Hi)]]%(node_cases _ _ _ _ _ _ Hins) HiH HiD HiZ.
    + destruct Hnew as [(Et & _) | (Et & Hlen & _)]; [rewrite decide_True in HiZ by done; set_solver |]. cbn. rewrite Et. done.
    + cbn. destruct Hnew as [(_ & -> & HH) | (_ & _ & [[-> HH] | (-> & _ & _ & Hus)])]; [| | done];
        apply (el_host _ _ _ _ _ Hel) in HH as (nd' & _ & E & _ & _ & Hus & _); rewrite Hn in E; injection E as <-; done.
    + apply (el_arity _ _ _ _ _ Hel i); [done | set_solver | done |]. case_decide; set_solver.
  - intros h [Hh Hne%not_elem_of_singleton]%elem_of_difference. pose proof (el_host _ _ _ _ _ Hel h Hh) as (ndh & nd0 & E & Hrest).
    exists ndh, nd0. rewrite (ins_other _ _ _ _ _ _ Hins) by (done || by apply lookup_lt_Some in E). done.
  - intros d Hd. pose proof (el_device _ _ _ _ _ Hel d Hd) as (ndd & nd0 & E & Hrest). exists ndd, nd0.
    rewrite (ins_other _ _ _ _ _ _ Hins); [done | set_solver | by apply lookup_lt_Some in E].
  - intros e u v [[-> He] | ([u0 v0] & He0 & He)]%(edge_inv _ _ _ _ _ _ Hg Hn Hins).
    + injection He as -> ->. unfold out_clock, in_clock. rewrite decide_False by set_solver. rewrite decide_False by done.
      fold M. rewrite (below_newC _ head), Hbet. destruct (below_same n HnM) as (_ & Hgn & _). rewrite (Hgn _ last). by rewrite Hn.
    + unfold moved in He. cbn in He. injection He as -> ->. pose proof (g_ends _ Hg _ _ _ He0) as [Lu Lv]. fold M in Lu, Lv.
      pose proof (el_cross _ _ _ _ _ Hel _ _ _ He0) as Hc. destruct (below_same v0 Lv) as (_ & Hgv & _).
      assert (Hin : in_clock D x' v0 = in_clock D x v0) by (unfold in_clock; by rewrite (Hgv _ head)). rewrite Hin, <- Hc. case_decide as Hu.
      * subst u0. unfold out_clock at 1. rewrite decide_False by set_solver. fold M. by rewrite (below_newC _ last).
      * destruct (below_same u0 Lu) as (_ & Hgu & _). unfold out_clock. rewrite (Hgu _ last).
        destruct (decide (u0 ∈ H)); [by rewrite decide_True by set_solver | by rewrite decide_False by set_solver].
  - pose proof below_ranks as [R1 R2]. intros e u v [[-> He] | ([u0 v0] & He0 & He)]%(edge_inv _ _ _ _ _ _ Hg Hn Hins).
    + injection He as -> ->. fold M. destruct (below_same n HnM) as (_ & _ & _ & ->). done.
    + unfold moved in He. cbn in He. injection He as -> ->. pose proof (g_ends _ Hg _ _ _ He0) as [Lu Lv]. fold M in Lu, Lv.
      destruct (below_same v0 Lv) as (_ & _ & _ & ->). case_decide as Hu.
      * subst u0. assert (e < length (edges x0))%nat by (apply Hold, (g_ds _ Hg n nd); [done | by exists v0]).
        pose proof (old_ranks _ _ _ _ _ e n v0 Hel ltac:(done) He0). fold M. lia.
      * destruct (below_same u0 Lu) as (_ & _ & _ & ->). by apply (el_rank _ _ _ _ _ Hel e).
  - intros i t Ht. destruct (decide (i < M)%nat) as [Hi | Hi].
    + destruct (below_same i Hi) as (E & _ & Ef & _). rewrite E in Ht. pose proof (el_side _ _ _ _ _ Hel i t Ht) as Hs.
      destruct t; try done; by rewrite Ef.
    + assert (i = M) as ->. { unfold type_at in Ht. destruct (nodes x' !! i) as [ni |] eqn:Ei; [| done]. apply lookup_lt_Some in Ei. rewrite (proj1 (ins_len _ _ _ _ _ _ Hins)) in Ei. unfold M in *. lia. }
      rewrite below_newT in Ht. injection Ht as <-. destruct Hnew as [(-> & _) | (-> & _)]; [done |]. by rewrite below_newF.
Qed.
End insert_below.

Section insert_above.
Context (f : nat → nat) (H D Z : gset nat) (x x' : Xbar) (new : Node) (n : nat) (nd : Node).
Context (Hel : elab f H D Z x) (Hn : nodes x !! n = Some nd) (Hins : inserted false new n nd x x').
Context (Hok : clocks_ok new ∧ fifo_ok new ∧ resets new ≠ []) (Hin : head (clocks new) = in_clock D x n) (Hbet : last (clocks new) = head (clocks nd)).
Context (Hold : ∀ e, e ∈ n_us nd → (e < length (edges x0))%nat) (Hside : type_at x0 (f n) = Some DEVICE).
Context (Hnew : (node_type new = ASYNC_FIFO ∧ node_type nd = DEVICE ∧ n ∈ D) ∨
  (node_type new = SOCKET_M1 ∧ (1 < length (n_us nd))%nat ∧ ((node_type nd = DEVICE ∧ n ∈ D) ∨ (node_type nd = ASYNC_FIFO ∧ n ∈ Z ∧ n ∉ D ∧ length (n_ds nd) = 1%nat)))).

Let M := length (nodes x).
Let f' : nat → nat := f ∘ collapse n x.

Lemma above_newT : type_at x' M = Some (node_type new).
Proof. by eapply ins_type_new. Qed.
Lemma above_newF : f' M = f n.
Proof. apply ins_f_new. Qed.
Lemma above_newC A (g : list string → option A) : (nodes x' !! M ≫= fun nd => g (clocks nd)) = g (clocks new).
Proof. by eapply ins_clocks_new. Qed.
Lemma above_same i : (i < M)%nat → type_at x' i = type_at x i ∧
  (∀ A (g : list string → option A), (nodes x' !! i ≫= fun nd => g (clocks nd)) = nodes x !! i ≫= fun nd => g (clocks nd)) ∧ f' i = f i ∧ rank f' x' i = rank f x i.
Proof.
  intros Hi. destruct (ins_same f x x' false new n nd Hn Hins i Hi) as (? & ? & ?). split_and!; try done. by eapply ins_rank.
Qed.

Lemma above_type : node_type nd ≠ HOST.
Proof. destruct Hnew as [(_ & -> & _) | (_ & _ & [[-> _] | [-> _]])]; done. Qed.

Lemma above_ranks : (rank f x n < rank f' x' M ∧ rank f' x' M ≤ 2)%nat.
Proof.
  unfold rank. rewrite above_newT, above_newF. assert (type_at x n = Some (node_type nd)) as -> by (unfold type_at; by rewrite Hn).
  destruct Hnew as [(-> & -> & _) | (-> & _ & [[-> _] | [-> _]])]; rewrite ?decide_False by (rewrite Hside; done); lia.
Qed.

Lemma above_elab : elab f' H (D ∖ {[n]}) (if decide (node_type new = ASYNC_FIFO) then Z ∪ {[M]} else Z ∖ {[n]}) x'.
Proof.
  pose proof (n_M x n nd Hn) as HnM. pose proof (waiting_lt f H D Z x Hel) as Hwait.
  assert (HMH : M ∉ H) by (intros HM; apply (Nat.lt_irrefl M), Hwait, elem_of_union; by left).
  assert (HMD : M ∉ D) by (intros HM; apply (Nat.lt_irrefl M), Hwait, elem_of_union; by right).
  assert (HnH : n ∉ H). { intros HH. apply (el_host _ _ _ _ _ Hel) in HH as (nd' & _ & E & _ & Ht & _). rewrite Hn in E. injection E as <-. by apply above_type. }
  pose proof (el_graph _ _ _ _ _ Hel) as Hg. split.
  - by eapply inserted_graph_ok.
  - eapply subdivides_trans; [apply Hel | by eapply inserted_subdivides].
  - rewrite (proj1 (ins_clock _ _ _ _ _ _ Hins)). apply Hel.
  - intros i ni [[-> ->] | [[-> ->] | (_ & _ & Hi)]]%(node_cases _ _ _ _ _ _ Hins); [exact Hok | exact (el_node _ _ _ _ _ Hel _ _ Hn) | by apply (el_node _ _ _ _ _ Hel i)].
  - intros i ni [[-> ->] | [[-> ->] | (Hne & Hil & Hi)]]%(node_cases _ _ _ _ _ _ Hins) HiH HiD HiZ.
    + destruct Hnew as [(Et & _) | (Et & Hlen & _)]; [rewrite decide_True in HiZ by done; set_solver |]. cbn. rewrite Et. done.
    + cbn. destruct Hnew as [(_ & -> & HD) | (_ & _ & [[-> HD] | (-> & _ & _ & Hds)])]; [| | done];
        apply (el_device _ _ _ _ _ Hel) in HD as (nd' & _ & E & _ & _ & _ & Hds); rewrite Hn in E; injection E as <-; done.
    + apply (el_arity _ _ _ _ _ Hel i); [done | done | set_solver |]. case_decide; set_solver.
  - intros h Hh. pose proof (el_host _ _ _ _ _ Hel h Hh) as (ndh & nd0 & E & Hrest). exists ndh, nd0.
    rewrite (ins_other _ _ _ _ _ _ Hins); [done | set_solver | by apply lookup_lt_Some in E].
  - intros d [Hd Hne%not_elem_of_singleton]%elem_of_difference. pose proof (el_device _ _ _ _ _ Hel d Hd) as (ndd & nd0 & E & Hrest).
    exists ndd, nd0. rewrite (ins_other _ _ _ _ _ _ Hins) by (done || by apply lookup_lt_Some in E). done.
  - intros e u v [[-> He] | ([u0 v0] & He0 & He)]%(edge_inv _ _ _ _ _ _ Hg Hn Hins).
    + injection He as -> ->. unfold out_clock, in_clock. rewrite decide_False by done. rewrite decide_False by set_solver.
      fold M. rewrite (above_newC _ last), Hbet. destruct (above_same n HnM) as (_ & Hgn & _). rewrite (Hgn _ head). by rewrite Hn.
    + unfold moved in He. cbn in He. injection He as -> ->. pose proof (g_ends _ Hg _ _ _ He0) as [Lu Lv]. fold M in Lu, Lv.
      pose proof (el_cross _ _ _ _ _ Hel _ _ _ He0) as Hc. destruct (above_same u0 Lu) as (_ & Hgu & _).
      assert (Ho : out_clock H x' u0 = out_clock H x u0) by (unfold out_clock; by rewrite (Hgu _ last)). rewrite Ho, Hc. case_decide as Hv.
      * subst v0. unfold in_clock at 2. rewrite decide_False by set_solver. fold M. by rewrite (above_newC _ head).
      * destruct (above_same v0 Lv) as (_ & Hgv & _). unfold in_clock. rewrite (Hgv _ head).
        destruct (decide (v0 ∈ D)); [by rewrite decide_True by set_solver | by rewrite decide_False by set_solver].
  - pose proof above_ranks as [R1 R2]. intros e u v [[-> He] | ([u0 v0] & He0 & He)]%(edge_inv _ _ _ _ _ _ Hg Hn Hins).
    + injection He as -> ->. fold M. destruct (above_same n HnM) as (_ & _ & _ & ->). done.
    + unfold moved in He. cbn in He. injection He as -> ->. pose proof (g_ends _ Hg _ _ _ He0) as [Lu Lv]. fold M in Lu, Lv.
      destruct (above_same u0 Lu) as (_ & _ & _ & ->). case_decide as Hv.
      * subst v0. assert (e < length (edges x0))%nat by (apply Hold, (g_us _ Hg n nd); [done | by exists u0]).
        pose proof (old_ranks _ _ _ _ _ e u0 n Hel ltac:(done) He0). fold M. lia.
      * destruct (above_same v0 Lv) as (_ & _ & _ & ->). by apply (el_rank _ _ _ _ _ Hel e).
  - intros i t Ht. destruct (decide (i < M)%nat) as [Hi | Hi].
    + destruct (above_same i Hi) as (E & _ & Ef & _). rewrite E in Ht. pose proof (el_side _ _ _ _ _ Hel i t Ht) as Hs.
      destruct t; try done; by rewrite Ef.
    + assert (i = M) as ->. { unfold type_at in Ht. destruct (nodes x' !! i) as [ni |] eqn:Ei; [| done]. apply lookup_lt_Some in Ei. rewrite (proj1 (ins_len _ _ _ _ _ _ Hins)) in Ei. unfold M in *. lia. }
      rewrite above_newT in Ht. injection Ht as <-. destruct Hnew as [(-> & _) | (-> & _)]; [done |]. by rewrite above_newF.
Qed.
End insert_above.

(** *** Processing a node *)

Lemma other_clock_ok f H D Z x n nd : elab f H D Z x → nodes x !! n = Some nd → ∃ c, clocks nd ≠ [] ∧ head (clocks nd) = Some c ∧
  Elaborate.other_clock nd x = Ok (bool_decide (node_type nd ≠ ASYNC_FIFO ∧ c ≠ xb_clock x0)).
Proof.
  intros Hel Hn. destruct (el_node _ _ _ _ _ Hel n nd Hn) as (Hc & _ & _). unfold Elaborate.other_clock. rewrite (el_clock _ _ _ _ _ Hel).
  assert (Hh : ∃ c l, clocks nd = c :: l).
  { unfold clocks_ok in Hc. destruct (node_type nd); [destruct Hc as (c & ->) | destruct Hc as (c & ->) | destruct Hc as (c & c' & ->) | rewrite Hc | rewrite Hc]; eauto. }
  destruct Hh as (c & l & Hcl). exists c. rewrite Hcl. split; [done |]. split; [done |]. destruct (decide (node_type nd = ASYNC_FIFO)) as [E | E].
  - rewrite bool_decide_eq_false_2; [done | by intros []].
  - assert (Hf : Elaborate.first (c :: l) = Ok c) by exact (py_nth_nat (c :: l) 0 c eq_refl). rewrite Hf. cbn [mbind res_bind]. f_equal.
    destruct (String.eqb_spec c (xb_clock x0)); cbn; [by rewrite bool_decide_eq_false_2 by naive_solver | by rewrite bool_decide_eq_true_2].
Qed.

Lemma process_settled f H D Z x n nd k : elab f H D Z x → nodes x !! n = Some nd →
  node_type nd = ASYNC_FIFO ∨ head (clocks nd) = Some (xb_clock x0) → arity_ok (node_type nd) (n_us nd) (n_ds nd) →
  Elaborate.process_node (S k) n x = Ok x.
Proof.
  intros Hel Hn Hc Har. cbn [Elaborate.process_node]. rewrite (node_at_ok _ _ _ Hn). cbn [mbind res_bind].
  destruct (other_clock_ok _ _ _ _ _ _ _ Hel Hn) as (c & _ & Hh & ->). rewrite (bool_decide_eq_false_2 (_ ∧ _)) by (rewrite Hh in Hc; intros [H1 H2]; destruct Hc as [Hc | Hc]; [done |]; by injection Hc). cbn [mbind res_bind].
  unfold arity_ok in Har. destruct (node_type nd) eqn:E; rewrite ?E.
  - destruct Har as [-> ->]. done.
  - destruct Har as [Hus ->]. destruct (n_us nd) as [| ? [| ? ?]]; cbn in *; (done || lia).
  - destruct Har as [-> ->]. done.
  - destruct Har as [-> _]. done.
  - destruct Har as [_ ->]. done.
Qed.

Lemma elab_settle f H D Z x n nd : elab f H D Z x → nodes x !! n = Some nd → arity_ok (node_type nd) (n_us nd) (n_ds nd) → elab f H D (Z ∖ {[n]}) x.
Proof.
  intros [] Hn Har. split; try done. intros i ni Hi HiH HiD HiZ. destruct (decide (i = n)) as [-> | Hne]; [by rewrite Hn in Hi; injection Hi as <- |].
  apply (el_arity0 i); try done. set_solver.
Qed.

(** A host or a device with the clock of the crossbar needs no FIFO. *)
Lemma release_device f H D Z x n nd : elab f H D Z x → nodes x !! n = Some nd → n ∈ D → head (clocks nd) = Some (xb_clock x0) → (length (n_us nd) ≤ 1)%nat →
  elab f H (D ∖ {[n]}) Z x.
Proof.
  intros Hel Hn HD Hc Hus. pose proof (el_device _ _ _ _ _ Hel n HD) as (nd' & _ & E & _ & Ht & _ & Hds). rewrite Hn in E. injection E as <-.
  destruct Hel as [G1 G2 G3 G4 G5 G6 G7 G8 G9 G10]. split; try done.
  - intros i ni Hi HiH HiD HiZ. destruct (decide (i = n)) as [-> | Hne]; [rewrite Hn in Hi; injection Hi as <-; by rewrite Ht |]. apply (G5 i); try done. set_solver.
  - intros d Hd. apply G7. set_solver.
  - intros e u v He. rewrite (G8 _ _ _ He). unfold in_clock. destruct (decide (v = n)) as [-> | Hne].
    + rewrite decide_True by done. rewrite decide_False by set_solver. by rewrite Hn.
    + destruct (decide (v ∈ D)); [by rewrite decide_True by set_solver | by rewrite decide_False by set_solver].
Qed.

Lemma release_host f H D Z x n nd : elab f H D Z x → nodes x !! n = Some nd → n ∈ H → last (clocks nd) = Some (xb_clock x0) → length (n_ds nd) = 1%nat →
  elab f (H ∖ {[n]}) D Z x.
Proof.
  intros Hel Hn HH Hc Hds. pose proof (el_host _ _ _ _ _ Hel n HH) as (nd' & _ & E & _ & Ht & Hus & _). rewrite Hn in E. injection E as <-.
  destruct Hel as [G1 G2 G3 G4 G5 G6 G7 G8 G9 G10]. split; try done.
  - intros i ni Hi HiH HiD HiZ. destruct (decide (i = n)) as [-> | Hne]; [rewrite Hn in Hi; injection Hi as <-; by rewrite Ht |]. apply (G5 i); try done. set_solver.
  - intros h Hh. apply G6. set_solver.
  - intros e u v He. rewrite <- (G8 _ _ _ He). unfold out_clock. destruct (decide (u = n)) as [-> | Hne].
    + rewrite decide_False by set_solver. rewrite decide_True by done. by rewrite Hn.
    + destruct (decide (u ∈ H)); [by rewrite decide_True by set_solver | by rewrite decide_False by set_solver].
Qed.

(** *** The socket of a host *)

Definition host_port (f : nat → nat) (x : Xbar) (h : nat) (l : list nat) : Prop :=
  ∃ s ns, nodes x !! s = Some ns ∧ node_type ns = SOCKET_1N ∧ n_ds ns = l ∧ f s = h ∧
    ∃ e nh, nodes x !! h = Some nh ∧ node_type nh = HOST ∧ n_ds nh = [e] ∧
      (edges x !! e = Some (mkEdge h s) ∨
       ∃ a na e', edges x !! e = Some (mkEdge h a) ∧ nodes x !! a = Some na ∧ node_type na = ASYNC_FIFO ∧ n_ds na = [e'] ∧ edges x !! e' = Some (mkEdge a s) ∧ f a = h).

Definition ports (f : nat → nat) (x : Xbar) (P : gset nat) : Prop :=
  ∀ h nd0, h ∈ P → nodes x0 !! h = Some nd0 → (1 < length (n_ds nd0))%nat → f h = h ∧ host_port f x h (n_ds nd0).

Lemma ports_inserted f x x' P b new n nd : graph_ok x → nodes x !! n = Some nd → inserted b new n nd x x' → f n ∉ P → ports f x P → ports (f ∘ collapse n x) x' P.
Proof.
  intros Hg Hn Hins HfP Hp h nd0 Hh Hnd0 Hlen. destruct (Hp h nd0 Hh Hnd0 Hlen) as (Hfh & s & ns & Es & Ts & Ds & Fs & e & nh & Eh & Th & Dh & Hpath).
  assert (Hkeep : ∀ i ni, nodes x !! i = Some ni → f i = h → nodes x' !! i = Some ni ∧ (f ∘ collapse n x) i = h ∧ i ≠ n).
  { intros i ni Hi Hf. assert (Hne : i ≠ n) by (intros ->; congruence). pose proof (lookup_lt_Some _ _ _ Hi) as Hlt. split_and!; [| | done].
    - by rewrite (ins_other _ _ _ _ _ _ Hins).
    - unfold compose, collapse. by rewrite decide_False by lia. }
  assert (Hedge : ∀ i u v, edges x !! i = Some (mkEdge u v) → u ≠ n → v ≠ n → edges x' !! i = Some (mkEdge u v)).
  { intros i u v Hi Hu Hv. rewrite (old_edge _ _ _ _ _ _ Hg Hn Hins _ _ Hi). unfold moved. cbn. destruct b; by rewrite decide_False. }
  destruct (Hkeep _ _ Es Fs) as (Es' & Fs' & Ns). destruct (Hkeep _ _ Eh Hfh) as (Eh' & Fh' & Nh). split; [done |].
  exists s, ns. split_and!; try done. exists e, nh. split_and!; try done. destruct Hpath as [He | (a & na & e' & He & Ea & Ta & Da & He' & Fa)]; [left; by apply Hedge |].
  right. destruct (Hkeep _ _ Ea Fa) as (Ea' & Fa' & Na). exists a, na, e'. split_and!; try done; by apply Hedge.
Qed.

End elaboration.

(** What processing a device leaves alone. *)
Record kept (x x' : Xbar) : Prop := {
  kp_edge e u v : edges x !! e = Some (mkEdge u v) → ∃ v', edges x' !! e = Some (mkEdge u v');
  kp_node n nd : nodes x !! n = Some nd → ∃ nd', nodes x' !! n = Some nd' ∧ same_node nd nd' ∧ n_ds nd' = n_ds nd;
}.

#[export] Instance kept_preorder : PreOrder kept.
Proof.
  split.
  - intros x. split; [by intros e u v H; exists v |]. intros n nd H. by exists nd.
  - intros x y z A B. split.
    + intros e u v H. apply (kp_edge _ _ A) in H as (v1 & H). by apply (kp_edge _ _ B) in H.
    + intros n nd H. apply (kp_node _ _ A) in H as (nd1 & H & S1 & D1). apply (kp_node _ _ B) in H as (nd2 & H & S2 & D2).
      exists nd2. split_and!; [done | by etrans | congruence].
Qed.

Lemma kept_above new n nd x x' : graph_ok x → nodes x !! n = Some nd → inserted false new n nd x x' → kept x x'.
Proof.
  intros Hg Hn Hins. split.
  - intros e u v He. rewrite (old_edge _ _ _ _ _ _ Hg Hn Hins _ _ He). by eexists.
  - intros i ni Hi. destruct (decide (i = n)) as [-> | Hne].
    + rewrite Hn in Hi. injection Hi as <-. rewrite (ins_at _ _ _ _ _ _ Hins). by eexists.
    + rewrite (ins_other _ _ _ _ _ _ Hins) by (done || by apply lookup_lt_Some in Hi). by exists ni.
Qed.
