(* ===== verification/TlElab.v ===== *)
(** The elaboration of a crossbar whose hosts are connected to its devices: what processing a device, a
    host and the crossbar does. *)

From S2P Require Import Prelude BitLoops PyList Tlgen TlFacts.

#[local] Open Scope stdpp_scope.
#[local] Open Scope list_scope.

Import Xbar.

(** [set_solver] without the hypotheses that do not speak of sets. *)
Ltac sets :=
  repeat match goal with
  | H : ?T |- _ => lazymatch T with ?x ∈ (_ : gset _) => fail | ?x ∉ (_ : gset _) => fail | _ ⊆ (_ : gset _) => fail | _ =@{nat} _ => fail | gset _ => fail | nat => fail | _ => clear H end
  end; set_solver.

Section elaboration.
Context (x0 : Xbar) (Hx0 : bipartite x0).

Lemma elab_sets f H D Z H' D' Z' x : elab x0 f H D Z x → H ≡ H' → D ≡ D' → Z ≡ Z' → elab x0 f H' D' Z' x.
Proof. intros ? E1%leibniz_equiv E2%leibniz_equiv E3%leibniz_equiv. by subst. Qed.

Lemma elab_lt f H D Z x n : elab x0 f H D Z x → n ∈ H ∪ D → (n < length (nodes x))%nat.
Proof. intros. by eapply waiting_lt. Qed.

(** *** Devices *)

Lemma device_start f H D Z x d nd : elab x0 f H D Z x → d ∈ D → nodes x !! d = Some nd →
  node_type nd = DEVICE ∧ n_ds nd = [] ∧ f d = d ∧ type_at x0 d = Some DEVICE ∧ (∀ e, e ∈ n_us nd → (e < length (edges x0))%nat).
Proof.
  intros Hel Hd Hn. destruct (el_device _ _ _ _ _ _ Hel d Hd) as (nd' & nd0 & E & E0 & Ht & Hus & Hds). rewrite Hn in E. injection E as <-.
  assert (Ht0 : type_at x0 d = Some DEVICE).
  { unfold type_at. rewrite E0. cbn. destruct (sd_node _ _ _ (el_sub _ _ _ _ _ _ Hel) _ _ E0) as (nd' & E' & (_ & Ht' & _)). rewrite Hn in E'. injection E' as <-. congruence. }
  split_and!; try done.
  - apply (sd_old _ _ _ (el_sub _ _ _ _ _ _ Hel)). by apply lookup_lt_Some in E0.
  - intros e He. rewrite Hus in He. apply (g_us _ (bp_graph _ Hx0) d nd0 e E0) in He as (u & He). by apply lookup_lt_Some in He.
Qed.

Lemma process_socket_m1 f H D Z x n nd k : elab x0 f H D Z x → nodes x !! n = Some nd → head (clocks nd) = Some (xb_clock x0) → (1 < length (n_us nd))%nat →
  (∀ e, e ∈ n_us nd → (e < length (edges x0))%nat) → type_at x0 (f n) = Some DEVICE →
  (node_type nd = DEVICE ∧ n ∈ D) ∨ (node_type nd = ASYNC_FIFO ∧ n ∈ Z ∧ n ∉ D ∧ length (n_ds nd) = 1%nat) →
  ∃ x', Elaborate.process_node (2 + k) n x = Ok x' ∧ inserted false (Elaborate.socket_m1 nd x) n nd x x' ∧
    elab x0 (f ∘ collapse n x) H (D ∖ {[n]}) (Z ∖ {[n]}) x'.
Proof.
  intros Hel Hn Hc Hus Hold Hside Hcase. change (2 + k)%nat with (S (S k)). cbn [Elaborate.process_node]. rewrite (node_at_ok _ _ _ Hn). cbn [mbind res_bind].
  destruct (other_clock_ok _ _ _ _ _ _ _ _ Hel Hn) as (c & _ & Hh & ->). rewrite Hh in Hc. injection Hc as ->.
  rewrite (bool_decide_eq_false_2 (_ ∧ _)) by (by intros []). cbn [mbind res_bind].
  assert (Ht : node_type nd ≠ SOCKET_M1) by (destruct Hcase as [[-> _] | [-> _]]; done). rewrite (bool_decide_eq_true_2 (node_type nd ≠ SOCKET_M1)) by done.
  rewrite (proj2 (Nat.ltb_lt _ _) Hus). cbn [andb]. unfold insert_node. rewrite (node_at_ok _ _ _ Hn). cbn [mbind res_bind].
  destruct (insert_above_ok (Elaborate.socket_m1 nd x) n nd x (el_graph _ _ _ _ _ _ Hel) Hn) as (x' & Hi & Hins).
  change (node_type (Elaborate.socket_m1 nd x)) with SOCKET_M1. cbn match. rewrite Hi. cbn [mbind res_bind].
  assert (Hel' : elab x0 (f ∘ collapse n x) H (D ∖ {[n]}) (Z ∖ {[n]}) x').
  { apply (above_elab x0 Hx0 f H D Z x x' (Elaborate.socket_m1 nd x) n nd); try done.
    - split_and!; [| intros _; cbn; split_and!; by eexists | done]. unfold clocks_ok. cbn. by rewrite (el_clock _ _ _ _ _ _ Hel).
    - cbn. rewrite (el_clock _ _ _ _ _ _ Hel). unfold in_clock. case_decide; [done |]. by rewrite Hn.
    - cbn. rewrite Hh. by rewrite (el_clock _ _ _ _ _ _ Hel).
    - by right. }
  exists x'. split_and!; [| done | done].
  eapply (process_settled x0 _ H _ _ x' _ _ k Hel'); [apply Hins | right; cbn; by rewrite (el_clock _ _ _ _ _ _ Hel) | done].
Qed.

Lemma process_async_above f H D Z x n nd c k : elab x0 f H D Z x → nodes x !! n = Some nd → n ∈ D → head (clocks nd) = Some c → c ≠ xb_clock x0 →
  ∃ x1 new, inserted false new n nd x x1 ∧ node_type new = ASYNC_FIFO ∧ head (clocks new) = Some (xb_clock x0) ∧
    elab x0 (f ∘ collapse n x) H (D ∖ {[n]}) (Z ∪ {[length (nodes x)]}) x1 ∧
    Elaborate.process_node (S k) n x = Elaborate.process_node k (length (nodes x)) x1.
Proof.
  intros Hel Hn HD Hh Hc. destruct (device_start _ _ _ _ _ _ _ Hel HD Hn) as (Ht & Hds & Hf & Hside & Hold).
  destruct (el_node _ _ _ _ _ _ Hel n nd Hn) as (Hcl & _ & Hr). unfold clocks_ok in Hcl. rewrite Ht in Hcl. destruct Hcl as (c' & Hcl).
  rewrite Hcl in Hh. injection Hh as ->. destruct (resets nd) as [| r rs] eqn:Er; [done |].
  pose (new := mkNode (Elaborate.new_name "asf_" x) ASYNC_FIFO [xb_clock x; c] [xb_reset x; r] [] [] [] false true None None None None None).
  assert (Hnew : Elaborate.async_fifo nd x = Ok new).
  { unfold Elaborate.async_fifo. rewrite Hcl, Er. assert (Elaborate.first [c] = Ok c) as -> by exact (py_nth_nat [c] 0 c eq_refl).
    assert (Elaborate.first (r :: rs) = Ok r) as -> by exact (py_nth_nat (r :: rs) 0 r eq_refl). cbn [mbind res_bind]. by rewrite Ht. }
  destruct (insert_above_ok new n nd x (el_graph _ _ _ _ _ _ Hel) Hn) as (x1 & Hi & Hins). exists x1, new. split_and!; [done | done | by cbn; rewrite (el_clock _ _ _ _ _ _ Hel) | |].
  - apply (above_elab x0 Hx0 f H D Z x x1 new n nd); try done.
    + split_and!; [| by intros [] | done]. by exists (xb_clock x), c.
    + cbn. rewrite (el_clock _ _ _ _ _ _ Hel). unfold in_clock. by rewrite decide_True.
    + cbn. by rewrite Hcl.
    + by rewrite Hf.
    + by left.
  - cbn [Elaborate.process_node]. rewrite (node_at_ok _ _ _ Hn). cbn [mbind res_bind].
    destruct (other_clock_ok _ _ _ _ _ _ _ _ Hel Hn) as (c' & _ & Hh & ->). rewrite Hcl in Hh. injection Hh as <-.
    rewrite (bool_decide_eq_true_2 (_ ∧ _)) by (rewrite Ht; done). cbn [mbind res_bind]. rewrite Hnew. cbn [mbind res_bind].
    unfold insert_node. rewrite (node_at_ok _ _ _ Hn). cbn [mbind res_bind]. rewrite Ht. change (node_type new) with ASYNC_FIFO. cbn match. by rewrite Hi.
Qed.

Lemma process_device f H D x P n nd k : elab x0 f H D ∅ x → ports x0 f x P → (∀ p, p ∈ P → type_at x0 p = Some HOST) →
  n ∈ D → nodes x !! n = Some nd → n_us nd ≠ [] →
  ∃ f' x', Elaborate.process_node (3 + k) n x = Ok x' ∧ elab x0 f' H (D ∖ {[n]}) ∅ x' ∧ ports x0 f' x' P ∧ kept x x'.
Proof.
  intros Hel HP HPt HD Hn Hne. destruct (device_start _ _ _ _ _ _ _ Hel HD Hn) as (Ht & Hds & Hf & Hside & Hold).
  assert (HfP : f n ∉ P) by (intros HP'%HPt; rewrite Hf in HP'; congruence).
  destruct (other_clock_ok _ _ _ _ _ _ _ _ Hel Hn) as (c & _ & Hh & _). pose proof (el_graph _ _ _ _ _ _ Hel) as Hg. destruct (decide (c = xb_clock x0)) as [-> | Hc].
  - destruct (decide (1 < length (n_us nd))%nat) as [Hus | Hus].
    + destruct (process_socket_m1 f H D ∅ x n nd (1 + k) Hel Hn Hh Hus Hold) as (x' & Hp & Hins & Hel'); [by rewrite Hf | by left |].
      exists (f ∘ collapse n x), x'. split_and!; [exact Hp | eapply elab_sets; [done | done | done | sets] | by eapply ports_inserted | by eapply kept_above].
    + exists f, x. split_and!; [| eapply release_device; done || lia | done | reflexivity].
      assert (Hel' : elab x0 f H (D ∖ {[n]}) ∅ x) by (eapply release_device; done || lia).
      eapply (process_settled x0 _ _ _ _ x n nd (2 + k) Hel'); [done | by right |]. rewrite Ht. split; [lia | done].
  - destruct (process_async_above f H D ∅ x n nd c (2 + k) Hel Hn HD Hh Hc) as (x1 & new & Hins & Htn & Hhn & Hel1 & Hp). change (3 + k)%nat with (S (2 + k)). rewrite Hp.
    set (M := length (nodes x)) in *. pose proof (ins_new _ _ _ _ _ _ Hins) as HM. cbn match in HM. fold M in HM.
    set (nm := set_us (n_us nd) (set_ds [length (edges x)] new)) in HM.
    assert (HfM : (f ∘ collapse n x) M = n) by (unfold compose; rewrite <- Hf at 2; f_equal; unfold collapse; by rewrite decide_True).
    assert (HP1 : ports x0 (f ∘ collapse n x) x1 P) by (by eapply ports_inserted). assert (HK1 : kept x x1) by (by eapply kept_above).
    assert (HMD : M ∉ D) by (intros HM'; apply (Nat.lt_irrefl M), (elab_lt f H D ∅ x M Hel); sets).
    destruct (decide (1 < length (n_us nd))%nat) as [Hus | Hus].
    + destruct (process_socket_m1 _ _ _ _ x1 M nm k Hel1 HM) as (x' & Hp' & Hins' & Hel'); [done | done | done | by rewrite HfM | right; split_and!; [done | sets | sets | done] |].
      exists ((f ∘ collapse n x) ∘ collapse M x1), x'. split_and!; [exact Hp' | eapply elab_sets; [done | done | sets | sets] | |].
      * eapply (ports_inserted x0 _ x1 x' P); [apply Hel1 | done | done | by rewrite HfM, <- Hf | done].
      * etrans; [done |]. eapply kept_above; [apply Hel1 | done | done].
    + assert (Har : arity_ok (node_type nm) (n_us nm) (n_ds nm)).
      { unfold nm. cbn. rewrite Htn. split; [| done]. destruct (n_us nd) as [| ? [|]]; cbn in *; (done || lia). }
      exists (f ∘ collapse n x), x1. split_and!; [| | done | done].
      * eapply (process_settled x0 _ _ _ _ x1 M nm (1 + k) Hel1); [done | by left | done].
      * eapply elab_sets; [eapply (elab_settle x0 Hx0 _ _ _ _ x1 M nm Hel1); done | done | done | sets].
Qed.
(** The nodes below a socket. *)
Lemma process_below f H D x P s ns l k : elab x0 f H D ∅ x → ports x0 f x P → (∀ p, p ∈ P → type_at x0 p = Some HOST) →
  nodes x !! s = Some ns → node_type ns = SOCKET_1N → (∀ e, e ∈ l → e ∈ n_ds ns) →
  ∃ f' D' x', foldM (fun x e => ed ← edge_at x e; Elaborate.process_node (3 + k) (ds_of ed) x) x l = Ok x' ∧
    elab x0 f' H D' ∅ x' ∧ ports x0 f' x' P ∧ D' ⊆ D ∧ (∀ e u d, e ∈ l → edges x0 !! e = Some (mkEdge u d) → d ∉ D').
Proof.
  intros Hel HP HPt. revert f D x ns Hel HP. induction l as [| e l IH]; intros f D x ns Hel HP Hs Ts Hl.
  - exists f, D, x. split_and!; try done. intros e u d []%elem_of_nil.
  - pose proof (el_graph _ _ _ _ _ _ Hel) as Hg. destruct (proj1 (g_ds _ Hg s ns e Hs) (Hl e ltac:(by left))) as (v & He).
    destruct (lookup_lt_is_Some_2 _ _ (proj2 (g_ends _ Hg _ _ _ He))) as (nv & Ev). assert (Hev : e ∈ n_us nv) by (apply (g_us _ Hg v nv e Ev); by exists s).
    cbn [foldM]. rewrite (edge_at_ok _ _ _ He). cbn [mbind res_bind ds_of].
    assert (Hd : ∀ u d, d ∈ D → edges x0 !! e = Some (mkEdge u d) → v = d).
    { intros u d Hd He0. destruct (el_device _ _ _ _ _ _ Hel d Hd) as (nd & nd0 & E & E0 & _ & Hus & _).
      assert (Hin : e ∈ n_us nd) by (rewrite Hus; apply (g_us _ (bp_graph _ Hx0) d nd0 e E0); by exists u).
      apply (g_us _ Hg d nd e E) in Hin as (u' & He'). rewrite He in He'. by injection He'. }
    destruct (decide (v ∈ D)) as [HvD | HvD].
    + destruct (process_device f H D x P v nv k Hel HP HPt HvD Ev) as (f1 & x1 & -> & Hel1 & HP1 & HK); [by intros E; rewrite E in Hev; apply elem_of_nil in Hev |].
      cbn [mbind res_bind]. destruct (kp_node _ _ HK s ns Hs) as (ns1 & Hs1 & (_ & Ts1 & _) & Dss1).
      destruct (IH f1 (D ∖ {[v]}) x1 ns1 Hel1 HP1 Hs1) as (f' & D' & x' & Hf & Hel' & HP' & Hsub & Hdone); [congruence | intros e' He'; rewrite Dss1; apply Hl; by right |].
      exists f', D', x'. split_and!; [done | done | done | sets |]. intros e' u d [-> | He']%elem_of_cons He0 HdD; [| by eapply Hdone].
      assert (v = d) by (eapply Hd; [sets | done]). sets.
    + assert (HsH : s ∉ H). { intros Hh. apply (el_host _ _ _ _ _ _ Hel) in Hh as (nd & _ & E & _ & Ht & _). congruence. }
      assert (HvH : v ∉ H).
      { intros Hh. apply (el_host _ _ _ _ _ _ Hel) in Hh as (nd & _ & E & _ & _ & Hus & _). rewrite Ev in E. injection E as <-. rewrite Hus in Hev. by apply elem_of_nil in Hev. }
      pose proof (el_cross _ _ _ _ _ _ Hel _ _ _ He) as Hc. unfold out_clock, in_clock in Hc. rewrite !decide_False, Hs, Ev in Hc by done. cbn in Hc.
      destruct (el_node _ _ _ _ _ _ Hel s ns Hs) as (Hcl & _). unfold clocks_ok in Hcl. rewrite Ts in Hcl. rewrite Hcl in Hc. cbn in Hc.
      assert (Hp : Elaborate.process_node (3 + k) v x = Ok x).
      { apply (process_settled x0 f H D ∅ x v nv (2 + k) Hel Ev); [by right | apply (el_arity _ _ _ _ _ _ Hel v nv); done || sets]. }
      rewrite Hp.
      cbn [mbind res_bind]. destruct (IH f D x ns Hel HP Hs Ts) as (f' & D' & x' & Hf & Hel' & HP' & Hsub & Hdone); [intros e' He'; apply Hl; by right |].
      exists f', D', x'. split_and!; [done | done | done | done |]. intros e' u d [-> | He']%elem_of_cons He0 HdD; [| by eapply Hdone].
      assert (v = d) by (eapply Hd; [sets | done]). sets.
Qed.

(** *** Hosts *)

Lemma host_start f H D Z x h nd : elab x0 f H D Z x → h ∈ H → nodes x !! h = Some nd →
  node_type nd = HOST ∧ n_us nd = [] ∧ f h = h ∧ type_at x0 h = Some HOST ∧ n_ds nd ≠ [] ∧
  (∃ nd0, nodes x0 !! h = Some nd0 ∧ n_ds nd = n_ds nd0) ∧ (∀ e, e ∈ n_ds nd → (e < length (edges x0))%nat).
Proof.
  intros Hel Hh Hn. destruct (el_host _ _ _ _ _ _ Hel h Hh) as (nd' & nd0 & E & E0 & Ht & Hus & Hds). rewrite Hn in E. injection E as <-.
  assert (Ht0 : node_type nd0 = HOST).
  { destruct (sd_node _ _ _ (el_sub _ _ _ _ _ _ Hel) _ _ E0) as (nd' & E' & (_ & Ht' & _)). rewrite Hn in E'. injection E' as <-. congruence. }
  split_and!; try done.
  - apply (sd_old _ _ _ (el_sub _ _ _ _ _ _ Hel)). by apply lookup_lt_Some in E0.
  - unfold type_at. rewrite E0. cbn. by rewrite Ht0.
  - rewrite Hds. by apply (bp_host _ Hx0 h nd0).
  - by exists nd0.
  - intros e He. rewrite Hds in He. apply (g_ds _ (bp_graph _ Hx0) h nd0 e E0) in He as (v & He). by apply lookup_lt_Some in He.
Qed.

Lemma process_socket_1n f H D Z x n nd k : elab x0 f H D Z x → nodes x !! n = Some nd → last (clocks nd) = Some (xb_clock x0) →
  node_type nd = ASYNC_FIFO ∨ head (clocks nd) = Some (xb_clock x0) → (1 < length (n_ds nd))%nat →
  (∀ e, e ∈ n_ds nd → (e < length (edges x0))%nat) → type_at x0 (f n) = Some HOST →
  (node_type nd = HOST ∧ n ∈ H) ∨ (node_type nd = ASYNC_FIFO ∧ n ∈ Z ∧ n ∉ H ∧ length (n_us nd) = 1%nat) →
  ∃ x', inserted true (Elaborate.socket_1n nd x) n nd x x' ∧ elab x0 (f ∘ collapse n x) (H ∖ {[n]}) D (Z ∖ {[n]}) x' ∧
    Elaborate.process_node (S k) n x = foldM (fun x e => ed ← edge_at x e; Elaborate.process_node k (ds_of ed) x) x' (n_ds nd).
Proof.
  intros Hel Hn Hlast Hc Hds Hold Hside Hcase.
  destruct (insert_below_ok (Elaborate.socket_1n nd x) n nd x (el_graph _ _ _ _ _ _ Hel) Hn) as (x' & Hi & Hins). exists x'. split_and!; [done | |].
  - apply (below_elab x0 Hx0 f H D Z x x' (Elaborate.socket_1n nd x) n nd); try done.
    + split_and!; [| intros _; cbn; split_and!; by eexists | done]. unfold clocks_ok. cbn. by rewrite (el_clock _ _ _ _ _ _ Hel).
    + cbn. rewrite (el_clock _ _ _ _ _ _ Hel). unfold out_clock. case_decide; [done |]. by rewrite Hn.
    + cbn. rewrite Hlast. by rewrite (el_clock _ _ _ _ _ _ Hel).
    + by right.
  - cbn [Elaborate.process_node]. rewrite (node_at_ok _ _ _ Hn). cbn [mbind res_bind].
    destruct (other_clock_ok _ _ _ _ _ _ _ _ Hel Hn) as (c & _ & Hh & ->).
    rewrite (bool_decide_eq_false_2 (_ ∧ _)) by (rewrite Hh in Hc; intros [H1 H2]; destruct Hc as [Hc | Hc]; [done |]; by injection Hc). cbn [mbind res_bind].
    assert (Hus : (1 <? length (n_us nd))%nat = false).
    { apply Nat.ltb_ge. destruct Hcase as [[_ HnH] | (_ & _ & _ & ->)]; [| done]. destruct (host_start _ _ _ _ _ _ _ Hel HnH Hn) as (_ & -> & _). cbn. lia. }
    rewrite Hus, andb_false_r. assert (Ht : node_type nd ≠ SOCKET_1N) by (destruct Hcase as [[-> _] | [-> _]]; done).
    rewrite (bool_decide_eq_true_2 (node_type nd ≠ SOCKET_1N)) by done. rewrite (proj2 (Nat.ltb_lt _ _) Hds). cbn [andb].
    unfold insert_node. rewrite (node_at_ok _ _ _ Hn). cbn [mbind res_bind]. change (node_type (Elaborate.socket_1n nd x)) with SOCKET_1N. cbn match.
    rewrite Hi. cbn [mbind res_bind]. rewrite (node_at_ok _ _ _ (ins_new _ _ _ _ _ _ Hins)). done.
Qed.
Lemma process_async_below f H D Z x n nd c k : elab x0 f H D Z x → nodes x !! n = Some nd → n ∈ H → head (clocks nd) = Some c → c ≠ xb_clock x0 →
  ∃ x1 new, inserted true new n nd x x1 ∧ node_type new = ASYNC_FIFO ∧ last (clocks new) = Some (xb_clock x0) ∧
    elab x0 (f ∘ collapse n x) (H ∖ {[n]}) D (Z ∪ {[length (nodes x)]}) x1 ∧
    Elaborate.process_node (S k) n x = Elaborate.process_node k (length (nodes x)) x1.
Proof.
  intros Hel Hn HH Hh Hc. destruct (host_start _ _ _ _ _ _ _ Hel HH Hn) as (Ht & Hus & Hf & Hside & _ & _ & Hold).
  destruct (el_node _ _ _ _ _ _ Hel n nd Hn) as (Hcl & _ & Hr). unfold clocks_ok in Hcl. rewrite Ht in Hcl. destruct Hcl as (c' & Hcl).
  rewrite Hcl in Hh. injection Hh as ->. destruct (resets nd) as [| r rs] eqn:Er; [done |].
  pose (new := mkNode (Elaborate.new_name "asf_" x) ASYNC_FIFO [c; xb_clock x] [r; xb_reset x] [] [] [] false true None None None None None).
  assert (Hnew : Elaborate.async_fifo nd x = Ok new).
  { unfold Elaborate.async_fifo. rewrite Hcl, Er. assert (Elaborate.first [c] = Ok c) as -> by exact (py_nth_nat [c] 0 c eq_refl).
    assert (Elaborate.first (r :: rs) = Ok r) as -> by exact (py_nth_nat (r :: rs) 0 r eq_refl). cbn [mbind res_bind]. by rewrite Ht. }
  destruct (insert_below_ok new n nd x (el_graph _ _ _ _ _ _ Hel) Hn) as (x1 & Hi & Hins). exists x1, new. split_and!; [done | done | by cbn; rewrite (el_clock _ _ _ _ _ _ Hel) | |].
  - apply (below_elab x0 Hx0 f H D Z x x1 new n nd); try done.
    + split_and!; [| by intros [] | done]. by exists c, (xb_clock x).
    + cbn. rewrite (el_clock _ _ _ _ _ _ Hel). unfold out_clock. by rewrite decide_True.
    + cbn. by rewrite Hcl.
    + by rewrite Hf.
    + by left.
  - cbn [Elaborate.process_node]. rewrite (node_at_ok _ _ _ Hn). cbn [mbind res_bind].
    destruct (other_clock_ok _ _ _ _ _ _ _ _ Hel Hn) as (c' & _ & Hh & ->). rewrite Hcl in Hh. injection Hh as <-.
    rewrite (bool_decide_eq_true_2 (_ ∧ _)) by (rewrite Ht; done). cbn [mbind res_bind]. rewrite Hnew. cbn [mbind res_bind].
    unfold insert_node. rewrite (node_at_ok _ _ _ Hn). cbn [mbind res_bind]. rewrite Ht. change (node_type new) with ASYNC_FIFO. cbn match. by rewrite Hi.
Qed.

Lemma ports_union f x P h nd0 : ports x0 f x P → nodes x0 !! h = Some nd0 → ((1 < length (n_ds nd0))%nat → f h = h ∧ host_port f x h (n_ds nd0)) →
  ports x0 f x (P ∪ {[h]}).
Proof.
  intros HP E0 Hh h' nd' [Hin | ->%elem_of_singleton]%elem_of_union E' Hlen; [by apply (HP h' nd') |]. rewrite E0 in E'. injection E' as <-. by apply Hh.
Qed.

(** The state after a host [h], or the FIFO [n] of it, has been processed. *)
Definition host_done (f : nat → nat) (H D : gset nat) (P : gset nat) (n h : nat) (l : list nat) (r : res Xbar) : Prop :=
  ∃ f' D' x', r = Ok x' ∧ elab x0 f' (H ∖ {[n]}) D' ∅ x' ∧ ports x0 f' x' (P ∪ {[h]}) ∧ D' ⊆ D ∧
    ((1 < length l)%nat → ∀ e u d, e ∈ l → edges x0 !! e = Some (mkEdge u d) → d ∉ D').

(** A node that the edges of a host start at: the host, or the FIFO below it. *)
Definition host_end (f : nat → nat) (H Z : gset nat) (x : Xbar) (h n : nat) (nd : Node) : Prop :=
  f h = h ∧ f n = h ∧ nodes x !! n = Some nd ∧ last (clocks nd) = Some (xb_clock x0) ∧ (∃ nd0, nodes x0 !! h = Some nd0 ∧ n_ds nd = n_ds nd0) ∧
  type_at x0 h = Some HOST ∧ (∀ e, e ∈ n_ds nd → (e < length (edges x0))%nat) ∧
  ((n = h ∧ node_type nd = HOST ∧ n ∈ H ∧ head (clocks nd) = Some (xb_clock x0)) ∨
   (n ≠ h ∧ node_type nd = ASYNC_FIFO ∧ n ∈ Z ∧ n ∉ H ∧ length (n_us nd) = 1%nat ∧
    ∃ e nh, nodes x !! h = Some nh ∧ node_type nh = HOST ∧ n_ds nh = [e] ∧ edges x !! e = Some (mkEdge h n))).

Lemma host_port_inserted f H Z x x' h n nd new : graph_ok x → host_end f H Z x h n nd → node_type new = SOCKET_1N → inserted true new n nd x x' →
  (f ∘ collapse n x) h = h ∧ host_port (f ∘ collapse n x) x' h (n_ds nd).
Proof.
  intros Hg (Hfh & Hfn & Hn & _ & _ & _ & _ & Hcase) Htn Hins. set (M := length (nodes x)). pose proof (n_M x n nd Hn) as HnM. fold M in HnM.
  assert (HhM : (h < M)%nat) by (destruct Hcase as [(<- & _) | (_ & _ & _ & _ & _ & e & nh & E & _)]; [done | by apply lookup_lt_Some in E]).
  assert (Hc : ∀ i, (i < M)%nat → (f ∘ collapse n x) i = f i) by (intros i Hi; unfold compose, collapse; by rewrite decide_False by (unfold M in Hi; lia)).
  split; [by rewrite Hc |]. pose proof (ins_new _ _ _ _ _ _ Hins) as HM. cbn match in HM. fold M in HM. eexists M, _. split_and!; [exact HM | exact Htn | done | |].
  { unfold compose, collapse. fold M. by rewrite decide_True. }
  pose proof (ins_at _ _ _ _ _ _ Hins) as Hat. pose proof (ins_edge _ _ _ _ _ _ Hins) as Hed. fold M in Hed.
  destruct Hcase as [(-> & Ht & _) | (Hne & Ht & _ & _ & _ & e & nh & E & Th & Dh & He)].
  - exists (length (edges x)). eexists. split_and!; [exact Hat | done | done | by left].
  - exists e, nh. split_and!; [rewrite (ins_other _ _ _ _ _ _ Hins); done | done | done | right]. exists n. eexists. exists (length (edges x)).
    split_and!; [| exact Hat | done | done | done | by rewrite Hc].
    rewrite (old_edge _ _ _ _ _ _ Hg Hn Hins _ _ He). unfold moved. cbn. by rewrite decide_False.
Qed.

Lemma process_host_end f H D Z x P h n nd k : elab x0 f H D Z x → ports x0 f x P → (∀ p, p ∈ P ∪ {[h]} → type_at x0 p = Some HOST) → h ∉ P →
  host_end f H Z x h n nd → Z ⊆ {[n]} → n_ds nd ≠ [] → host_done f H D P n h (n_ds nd) (Elaborate.process_node (4 + k) n x).
Proof.
  intros Hel HP HPt HhP Hend HZ Hds. pose proof Hend as (Hfh & Hfn & Hn & Hlast & (nd0 & E0 & Eds) & Hside & Hold & Hcase).
  assert (HZ0 : Z ∖ {[n]} ≡ ∅) by (clear - HZ; sets).
  assert (Hhd : node_type nd = ASYNC_FIFO ∨ head (clocks nd) = Some (xb_clock x0)) by (destruct Hcase as [(_ & _ & _ & ?) | (_ & ? & _)]; auto).
  destruct (decide (1 < length (n_ds nd))%nat) as [Hlen | Hlen].
  - assert (Hcase' : (node_type nd = HOST ∧ n ∈ H) ∨ (node_type nd = ASYNC_FIFO ∧ n ∈ Z ∧ n ∉ H ∧ length (n_us nd) = 1%nat)) by (clear - Hcase; tauto).
    destruct (process_socket_1n f H D Z x n nd (3 + k) Hel Hn Hlast Hhd Hlen Hold ltac:(by rewrite Hfn) Hcase') as (x1 & Hins & Hel1 & Hp).
    change (4 + k)%nat with (S (3 + k)). unfold host_done. rewrite Hp.
    pose proof (host_port_inserted f H Z x x1 h n nd (Elaborate.socket_1n nd x) (el_graph _ _ _ _ _ _ Hel) Hend eq_refl Hins) as Hport.
    assert (HP1 : ports x0 (f ∘ collapse n x) x1 (P ∪ {[h]})).
    { apply (ports_union _ _ _ _ nd0); [| done | intros _; by rewrite <- Eds]. eapply (ports_inserted x0 f x x1 P); [apply Hel | exact Hn | exact Hins | by rewrite Hfn | done]. }
    pose proof (ins_new _ _ _ _ _ _ Hins) as HM. cbn match in HM.
    destruct (process_below (f ∘ collapse n x) (H ∖ {[n]}) D x1 (P ∪ {[h]}) (length (nodes x)) _ (n_ds nd) k
      (elab_sets _ _ _ _ _ _ _ _ Hel1 (reflexivity _) (reflexivity _) HZ0) HP1 HPt HM eq_refl ltac:(done))
      as (f' & D' & x' & Hf' & Hel' & HP' & Hsub & Hdone). exists f', D', x'. split_and!; [exact Hf' | done | done | done | by intros _].
  - assert (Hl1 : length (n_ds nd) = 1%nat) by (destruct (n_ds nd) as [| ? [|]]; cbn in *; (done || lia)).
    assert (Hx : Elaborate.process_node (4 + k) n x = Ok x ∧ elab x0 f (H ∖ {[n]}) D ∅ x).
    { destruct Hcase as [(-> & Ht & HH & Hhead) | (Hne & Ht & HnZ & HnH & Hus & _)].
      - pose proof (release_host x0 Hx0 f H D Z x h nd Hel Hn HH Hlast Hl1) as Hel1. destruct (host_start _ _ _ _ _ _ _ Hel HH Hn) as (_ & Hus & _).
        assert (Har : arity_ok (node_type nd) (n_us nd) (n_ds nd)) by (by rewrite Ht).
        split; [by apply (process_settled x0 _ _ _ _ x h nd (3 + k) Hel1); auto |]. eapply elab_sets; [exact (elab_settle x0 Hx0 _ _ _ _ x h nd Hel1 Hn Har) | done | done | done].
      - assert (Har : arity_ok (node_type nd) (n_us nd) (n_ds nd)) by (by rewrite Ht).
        split; [by apply (process_settled x0 _ _ _ _ x n nd (3 + k) Hel); auto |].
        eapply elab_sets; [exact (elab_settle x0 Hx0 _ _ _ _ x n nd Hel Hn Har) | symmetry; apply difference_disjoint; clear - HnH; sets | done | done]. }
    destruct Hx as [Hx Hel1]. exists f, D, x. split_and!; [done | done | | done | intros; lia].
    apply (ports_union _ _ _ _ nd0); [done | done | rewrite <- Eds; lia].
Qed.

Lemma process_host f H D x P h nd k : elab x0 f H D ∅ x → ports x0 f x P → (∀ p, p ∈ P → type_at x0 p = Some HOST) → h ∈ H → h ∉ P →
  nodes x !! h = Some nd → host_done f H D P h h (n_ds nd) (Elaborate.process_node (5 + k) h x).
Proof.
  intros Hel HP HPt HH HhP Hn. destruct (host_start _ _ _ _ _ _ _ Hel HH Hn) as (Ht & Hus & Hf & Hside & Hds & Hnd0 & Hold).
  assert (HPt' : ∀ p, p ∈ P ∪ {[h]} → type_at x0 p = Some HOST) by (intros p [Hp | ->%elem_of_singleton]%elem_of_union; [by apply HPt | done]).
  destruct (el_node _ _ _ _ _ _ Hel h nd Hn) as (Hcl & _). unfold clocks_ok in Hcl. rewrite Ht in Hcl. destruct Hcl as (c & Hcl).
  destruct (decide (c = xb_clock x0)) as [-> | Hc].
  - change (5 + k)%nat with (4 + S k)%nat. apply (process_host_end f H D ∅ x P h h nd (S k)); try done.
    split_and!; try done; [by rewrite Hcl | left; by rewrite Hcl].
  - destruct (process_async_below f H D ∅ x h nd c (4 + k) Hel Hn HH) as (x1 & new & Hins & Htn & Hln & Hel1 & Hp); [by rewrite Hcl | done |].
    change (5 + k)%nat with (S (4 + k)). rewrite Hp. set (M := length (nodes x)) in *. pose proof (ins_new _ _ _ _ _ _ Hins) as HM. cbn match in HM. fold M in HM.
    pose proof (n_M x h nd Hn) as HhM. fold M in HhM. pose proof (elab_lt f H D ∅ x M Hel) as HMlt. fold M in HMlt.
    assert (HMH : M ∉ H) by (intros HM'; by apply (Nat.lt_irrefl M), HMlt, elem_of_union_l).
    assert (Hfh : (f ∘ collapse h x) h = h) by (unfold compose, collapse; fold M; by rewrite decide_False by lia).
    assert (HfM : (f ∘ collapse h x) M = h) by (unfold compose, collapse; fold M; by rewrite decide_True).
    set (nm := set_us [length (edges x)] (set_ds (n_ds nd) new)) in HM.
    assert (Hend : host_end (f ∘ collapse h x) (H ∖ {[h]}) (∅ ∪ {[M]}) x1 h M nm).
    { split_and!; try done. right. split_and!; [lia | done | sets | sets | done |]. exists (length (edges x)). eexists.
      split_and!; [apply (ins_at _ _ _ _ _ _ Hins) | done | done | apply (ins_edge _ _ _ _ _ _ Hins)]. }
    destruct (process_host_end (f ∘ collapse h x) (H ∖ {[h]}) D (∅ ∪ {[M]}) x1 P h M nm k Hel1) as (f' & D' & x' & Hr & Hel' & Hrest); try done.
    + eapply (ports_inserted x0 f x x1 P); [apply Hel | exact Hn | exact Hins | by rewrite Hf | done].
    + sets.
    + exists f', D', x'. split_and!; [exact Hr | | apply Hrest ..]. eapply elab_sets; [exact Hel' | apply difference_disjoint; sets | done | done].
Qed.
(** *** All hosts *)

Lemma elem_of_type t x n : n ∈ of_type t x ↔ type_at x n = Some t.
Proof.
  unfold of_type, nodes_with, type_at. rewrite list_elem_of_filter. split.
  - intros [Hp _]. destruct (nodes x !! n) as [nd |]; [| done]. cbn in *. apply bool_decide_eq_true in Hp. by rewrite Hp.
  - intros Ht. destruct (nodes x !! n) as [nd |] eqn:E; [| done]. cbn in *. injection Ht as Ht. split; [by apply bool_decide_eq_true |].
    apply lookup_lt_Some in E. apply elem_of_seq. lia.
Qed.

Lemma of_type_NoDup t x : NoDup (of_type t x).
Proof. apply NoDup_filter, NoDup_seq. Qed.

Lemma type_inv n t : type_at x0 n = Some t → ∃ nd, nodes x0 !! n = Some nd ∧ node_type nd = t.
Proof. unfold type_at. intros H. apply fmap_Some in H as (nd & -> & ->). by eexists. Qed.

Lemma host_no_us n nd : nodes x0 !! n = Some nd → node_type nd = HOST → n_us nd = [].
Proof.
  intros E Ht. destruct (n_us nd) as [| e l] eqn:Eu; [done |]. destruct (proj1 (g_us _ (bp_graph _ Hx0) n nd e E)) as (u & He); [rewrite Eu; by left |].
  apply (edge_types x0 Hx0) in He as [_ Hv]. unfold type_at in Hv. rewrite E in Hv. cbn in Hv. congruence.
Qed.

Lemma device_no_ds n nd : nodes x0 !! n = Some nd → node_type nd = DEVICE → n_ds nd = [].
Proof.
  intros E Ht. destruct (n_ds nd) as [| e l] eqn:Eu; [done |]. destruct (proj1 (g_ds _ (bp_graph _ Hx0) n nd e E)) as (u & He); [rewrite Eu; by left |].
  apply (edge_types x0 Hx0) in He as [Hv _]. unfold type_at in Hv. rewrite E in Hv. cbn in Hv. congruence.
Qed.

Lemma elab_start : elab x0 id (list_to_set (hosts x0)) (list_to_set (devices x0)) ∅ x0.
Proof.
  assert (Hset : ∀ t n, n ∈ (list_to_set (of_type t x0) : gset nat) ↔ type_at x0 n = Some t) by (intros t n; rewrite elem_of_list_to_set; apply elem_of_type).
  pose proof (bp_graph _ Hx0) as Hg. split; try done.
  - apply subdivides_refl.
  - intros n nd E. destruct (bp_node _ Hx0 n nd E) as (Ht & (c & Hc) & (r & Hr)). split_and!; [| | by rewrite Hr].
    + unfold clocks_ok. destruct Ht as [-> | ->]; by exists c.
    + intros [? | ?]; destruct Ht; congruence.
  - intros n nd E HH HD _. exfalso. destruct (bp_node _ Hx0 n nd E) as ([Ht | Ht] & _); [apply HH | apply HD]; apply Hset; unfold type_at; rewrite E; cbn; by rewrite Ht.
  - intros h (nd & E & Ht)%Hset%type_inv. exists nd, nd. split_and!; try done. by eapply host_no_us.
  - intros d (nd & E & Ht)%Hset%type_inv. exists nd, nd. split_and!; try done. by eapply device_no_ds.
  - intros e u v [Hu Hv]%(edge_types x0 Hx0). unfold out_clock, in_clock. by rewrite !decide_True by (by apply Hset).
  - intros e u v [Hu Hv]%(edge_types x0 Hx0). unfold rank. rewrite Hu, Hv. lia.
  - intros n t Ht. pose proof Ht as (nd & E & _)%type_inv. apply lookup_lt_Some in E as Hlt. destruct (type_x0 x0 Hx0 n Hlt) as [Ht' | Ht']; rewrite Ht in Ht'; injection Ht' as ->; done.
Qed.

Lemma process_hosts k l f H D x P : elab x0 f H D ∅ x → ports x0 f x P → (∀ p, p ∈ P → type_at x0 p = Some HOST) → NoDup l →
  (∀ h, h ∈ l → h ∈ H ∧ h ∉ P) →
  ∃ f' D' x', foldM (fun x h => Elaborate.process_node (5 + k) h x) x l = Ok x' ∧ elab x0 f' (H ∖ list_to_set l) D' ∅ x' ∧
    ports x0 f' x' (P ∪ list_to_set l) ∧ D' ⊆ D ∧
    (∀ h nd0 e d, h ∈ l → nodes x0 !! h = Some nd0 → (1 < length (n_ds nd0))%nat → edges x0 !! e = Some (mkEdge h d) → d ∉ D').
Proof.
  intros Hel HP HPt Hnd Hl. revert f H D x P Hel HP HPt Hl. induction Hnd as [| h l Hnin Hnd IH]; intros f H D x P Hel HP HPt Hl.
  - exists f, D, x. split_and!; [done | eapply elab_sets; [done | cbn; sets | done | done] | | done | by intros h nd0 e d []%elem_of_nil].
    intros h nd0 Hh. apply HP. cbn in Hh. sets.
  - destruct (Hl h ltac:(by left)) as [HH HhP]. destruct (el_host _ _ _ _ _ _ Hel h HH) as (nd & nd0 & E & E0 & Ht & _ & Eds).
    destruct (process_host f H D x P h nd k Hel HP HPt HH HhP E) as (f1 & D1 & x1 & Hp & Hel1 & HP1 & Hs1 & Hd1). cbn [foldM]. rewrite Hp. cbn [mbind res_bind].
    destruct (host_start _ _ _ _ _ _ _ Hel HH E) as (_ & _ & _ & Hside & _).
    destruct (IH f1 (H ∖ {[h]}) D1 x1 (P ∪ {[h]}) Hel1 HP1) as (f' & D' & x' & Hf & Hel' & HP' & Hsub & Hdone).
    + intros p [Hp' | ->%elem_of_singleton]%elem_of_union; [by apply HPt | done].
    + intros h' Hh'. destruct (Hl h' ltac:(by right)). assert (h' ≠ h) by congruence. split; [by apply elem_of_difference; rewrite elem_of_singleton | by rewrite not_elem_of_union, not_elem_of_singleton].
    + exists f', D', x'. split_and!; [done | eapply elab_sets; [done | cbn; sets | done | done] | | sets |].
      * intros h' nd' Hh'. apply HP'. cbn in Hh'. sets.
      * intros h' nd' e d [Hh' | Hh']%elem_of_cons E' Hlen He; [| by eapply Hdone]. subst h'. rewrite E0 in E'. injection E' as <-. intros Hd%Hsub.
        revert Hd. apply (Hd1 ltac:(by rewrite Eds) e h d); [| done]. rewrite Eds. apply (g_ds _ (bp_graph _ Hx0) h nd0 e E0). by exists d.
Qed.
End elaboration.

(** ** Pipelining *)

(** [y] is [x] apart from the settings of the FIFOs. *)
Record tuned (x y : Xbar) : Prop := {
  tu_clock : xb_clock y = xb_clock x;
  tu_edges : edges y = edges x;
  tu_len : length (nodes y) = length (nodes x);
  tu_node n nd : nodes x !! n = Some nd → ∃ nd', nodes y !! n = Some nd' ∧ same_node nd nd' ∧ n_us nd' = n_us nd ∧ n_ds nd' = n_ds nd ∧ (fifo_ok nd → fifo_ok nd');
}.

#[export] Instance tuned_preorder : PreOrder tuned.
Proof.
  split.
  - intros x. split; try done. intros n nd H. exists nd. split_and!; (done || reflexivity).
  - intros x y z A B. split; [rewrite (tu_clock _ _ B); apply A | rewrite (tu_edges _ _ B); apply A | rewrite (tu_len _ _ B); apply A |].
    intros n nd H. apply (tu_node _ _ A) in H as (nd1 & H & S1 & U1 & D1 & F1). apply (tu_node _ _ B) in H as (nd2 & H & S2 & U2 & D2 & F2).
    exists nd2. split_and!; [done | by etrans | congruence | congruence | auto].
Qed.

Lemma tuned_inv x y n nd' : tuned x y → nodes y !! n = Some nd' →
  ∃ nd, nodes x !! n = Some nd ∧ same_node nd nd' ∧ n_us nd' = n_us nd ∧ n_ds nd' = n_ds nd ∧ (fifo_ok nd → fifo_ok nd').
Proof.
  intros H E. destruct (lookup_lt_is_Some_2 (nodes x) n) as [nd En]; [rewrite <- (tu_len _ _ H); by apply lookup_lt_Some in E |].
  exists nd. split; [done |]. apply (tu_node _ _ H) in En as (nd1 & E' & Hrest). rewrite E in E'. by injection E' as ->.
Qed.

Lemma update_host_fifo x n p d : tuned x (Elaborate.update_node n (set_host_fifo p d) x).
Proof.
  split; cbn; [done | done | by rewrite length_alter |]. intros i nd Hi. destruct (decide (i = n)) as [-> | Hne].
  - rewrite list_lookup_alter_eq, Hi. eexists. split; [done |]. split_and!; try done. intros Hf Ht. destruct (Hf Ht) as (_ & _ & ? & ?). cbn. split_and!; (done || by eexists).
  - rewrite list_lookup_alter_ne, Hi by done. exists nd. split_and!; (done || reflexivity).
Qed.

Lemma update_device_fifo x n p d : tuned x (Elaborate.update_node n (set_device_fifo p d) x).
Proof.
  split; cbn; [done | done | by rewrite length_alter |]. intros i nd Hi. destruct (decide (i = n)) as [-> | Hne].
  - rewrite list_lookup_alter_eq, Hi. eexists. split; [done |]. split_and!; try done. intros Hf Ht. destruct (Hf Ht) as (? & ? & _ & _). cbn. split_and!; (done || by eexists).
  - rewrite list_lookup_alter_ne, Hi by done. exists nd. split_and!; (done || reflexivity).
Qed.

Lemma graph_ok_tuned x y : tuned x y → graph_ok x → graph_ok y.
Proof.
  intros H Hg. split.
  - intros e u v. rewrite (tu_edges _ _ H), (tu_len _ _ H). apply Hg.
  - intros n nd' e (nd & E & _ & _ & -> & _)%(tuned_inv _ _ _ _ H). rewrite (tu_edges _ _ H). by apply Hg.
  - intros n nd' e (nd & E & _ & -> & _ & _)%(tuned_inv _ _ _ _ H). rewrite (tu_edges _ _ H). by apply Hg.
  - intros n nd' (nd & E & _ & -> & -> & _)%(tuned_inv _ _ _ _ H). by apply (g_nodup _ Hg n).
Qed.

Lemma index_of_ok l e : e ∈ l → ∃ i, Elaborate.index_of l e = Ok i.
Proof.
  intros H. destruct (list_find_elem_of (e =.) l e H eq_refl) as [[i y] Hf]. unfold Elaborate.index_of. rewrite Hf. by eexists.
Qed.

(** What pipelining relies on. *)
Definition tunable (x : Xbar) : Prop := graph_ok x ∧ ∀ n nd, nodes x !! n = Some nd → fifo_ok nd.

Lemma tunable_tuned x y : tuned x y → tunable x → tunable y.
Proof.
  intros H [Hg Hf]. split; [by eapply graph_ok_tuned |]. intros n nd' (nd & E & _ & _ & _ & Hok)%(tuned_inv _ _ _ _ H). by eapply Hok, Hf.
Qed.

Lemma fifo_attributes nd : fifo_ok nd → node_type nd = SOCKET_1N ∨ node_type nd = SOCKET_M1 →
  ∃ a b c d, hpass nd = Some a ∧ hdepth nd = Some b ∧ dpass nd = Some c ∧ ddepth nd = Some d.
Proof. intros Hf Ht. destruct (Hf Ht) as ((a & ?) & (b & ?) & (c & ?) & (d & ?)). by exists a, b, c, d. Qed.

Lemma pipeline_host_ok x h nd : tunable x → nodes x !! h = Some nd → n_ds nd ≠ [] → ∃ y, Elaborate.pipeline_host x h = Ok y ∧ tuned x y.
Proof.
  intros [Hg Hf] Hn Hds. unfold Elaborate.pipeline_host. rewrite (node_at_ok _ _ _ Hn). cbn [mbind res_bind].
  destruct (n_ds nd) as [| e l] eqn:Ed; [done |]. assert (py_nth (e :: l) 0 = Ok e) as -> by exact (py_nth_nat (e :: l) 0 e eq_refl). cbn [mbind res_bind].
  destruct (proj1 (g_ds _ Hg h nd e Hn)) as (v & He); [rewrite Ed; by left |]. rewrite (edge_at_ok _ _ _ He). cbn [mbind res_bind ds_of].
  destruct (lookup_lt_is_Some_2 _ _ (proj2 (g_ends _ Hg _ _ _ He))) as (nv & Ev). rewrite (node_at_ok _ _ _ Ev). cbn [mbind res_bind].
  destruct (node_type nv) eqn:Et; [exists x; split; [done | reflexivity] .. | |].
  - destruct (Elaborate.single_fifo _) as [p d]. eexists. split; [done | apply update_host_fifo].
  - destruct (index_of_ok (n_us nv) e) as (i & ->); [apply (g_us _ Hg v nv e Ev); by exists h |].
    destruct (fifo_attributes nv (Hf _ _ Ev)) as (a & b & c & d & -> & -> & _); [by right |]. cbn [mbind res_bind Elaborate.attribute of_option].
    destruct (Elaborate.port_fifo _ _ _ _) as [p q]. eexists. split; [done | apply update_host_fifo].
Qed.

Lemma pipeline_device_ok x d nd : tunable x → nodes x !! d = Some nd → n_us nd ≠ [] → ∃ y, Elaborate.pipeline_device x d = Ok y ∧ tuned x y.
Proof.
  intros [Hg Hf] Hn Hus. unfold Elaborate.pipeline_device. rewrite (node_at_ok _ _ _ Hn). cbn [mbind res_bind].
  destruct (n_us nd) as [| e l] eqn:Ed; [done |]. assert (py_nth (e :: l) 0 = Ok e) as -> by exact (py_nth_nat (e :: l) 0 e eq_refl). cbn [mbind res_bind].
  destruct (proj1 (g_us _ Hg d nd e Hn)) as (u & He); [rewrite Ed; by left |]. rewrite (edge_at_ok _ _ _ He). cbn [mbind res_bind us_of].
  destruct (lookup_lt_is_Some_2 _ _ (proj1 (g_ends _ Hg _ _ _ He))) as (nu & Eu). rewrite (node_at_ok _ _ _ Eu). cbn [mbind res_bind].
  destruct (node_type nu) eqn:Et; [exists x; split; [done | reflexivity] .. | |].
  - destruct (index_of_ok (n_ds nu) e) as (i & ->); [apply (g_ds _ Hg u nu e Eu); by exists d |].
    destruct (fifo_attributes nu (Hf _ _ Eu)) as (a & b & c & q & _ & _ & -> & ->); [by left |]. cbn [mbind res_bind Elaborate.attribute of_option].
    destruct (Elaborate.port_fifo _ _ _ _) as [p r]. eexists. split; [done | apply update_device_fifo].
  - destruct (Elaborate.single_fifo _) as [p q]. eexists. split; [done | apply update_device_fifo].
Qed.

Lemma tune_all (g : Xbar → nat → res Xbar) l x : tunable x →
  (∀ y n, tunable y → tuned x y → n ∈ l → ∃ z, g y n = Ok z ∧ tuned y z) → ∃ z, foldM g x l = Ok z ∧ tuned x z.
Proof.
  revert x. induction l as [| n l IH]; intros x Hx Hg; [exists x; split; [done | reflexivity] |].
  destruct (Hg x n Hx (reflexivity x)) as (y & Hy & Hxy); [by left |]. cbn [foldM]. rewrite Hy. cbn [mbind res_bind].
  destruct (IH y) as (z & Hz & Hyz); [by eapply tunable_tuned | | exists z; split; [done | by etrans]].
  intros y' n' Hy' Hyy' Hn'. apply Hg; [done | by etrans | by right].
Qed.

Lemma process_pipeline_ok x : tunable x → (∀ n nd, nodes x !! n = Some nd → (node_type nd = HOST → n_ds nd ≠ []) ∧ (node_type nd = DEVICE → n_us nd ≠ [])) →
  ∃ y, Elaborate.process_pipeline x = Ok y ∧ tuned x y.
Proof.
  intros Hx Hends.
  assert (Hat : ∀ y n t, tuned x y → type_at y n = Some t → ∃ nd, nodes y !! n = Some nd ∧ (t = HOST → n_ds nd ≠ []) ∧ (t = DEVICE → n_us nd ≠ [])).
  { intros y n t Hxy Ht. unfold type_at in Ht. apply fmap_Some in Ht as (nd' & E' & ->). exists nd'. split; [done |].
    apply (tuned_inv _ _ _ _ Hxy) in E' as (nd & E & (_ & -> & _) & -> & -> & _). by apply Hends in E. }
  assert (Htype : ∀ y z n, tuned y z → type_at z n = type_at y n).
  { intros y z n Hyz. unfold type_at. destruct (nodes y !! n) as [nd |] eqn:E.
    - apply (tu_node _ _ Hyz) in E as (nd' & -> & (_ & Et & _) & _). cbn. by rewrite Et.
    - apply lookup_ge_None in E. rewrite <- (tu_len _ _ Hyz) in E. by rewrite (proj2 (lookup_ge_None _ _) E). }
  unfold Elaborate.process_pipeline.
  destruct (tune_all Elaborate.pipeline_host (hosts x) x Hx) as (y & -> & Hxy).
  - intros y n Hy Hxy Hn%elem_of_type. destruct (Hat y n HOST Hxy) as (nd & E & Hds & _); [by rewrite (Htype x) |]. by apply (pipeline_host_ok y n nd Hy E), Hds.
  - cbn [mbind res_bind]. destruct (tune_all Elaborate.pipeline_device (devices y) y) as (z & -> & Hyz); [by eapply tunable_tuned | | exists z; split; [done | by etrans]].
    intros z n Hz Hyz Hn%elem_of_type. destruct (Hat z n DEVICE) as (nd & E & _ & Hus); [by etrans | by rewrite (Htype y) |]. by apply (pipeline_device_ok z n nd Hz E), Hus.
Qed.

Section tuned_elab.
Context (x0 : Xbar) (Hx0 : bipartite x0).

Lemma type_tuned x y n : tuned x y → type_at y n = type_at x n.
Proof.
  intros Hyz. unfold type_at. destruct (nodes x !! n) as [nd |] eqn:E.
  - apply (tu_node _ _ Hyz) in E as (nd' & -> & (_ & Et & _) & _). cbn. by rewrite Et.
  - apply lookup_ge_None in E. rewrite <- (tu_len _ _ Hyz) in E. by rewrite (proj2 (lookup_ge_None _ _) E).
Qed.

Lemma clocks_tuned x y n A (g : list string → option A) : tuned x y → (nodes y !! n ≫= fun nd => g (clocks nd)) = nodes x !! n ≫= fun nd => g (clocks nd).
Proof.
  intros Hyz. destruct (nodes x !! n) as [nd |] eqn:E.
  - apply (tu_node _ _ Hyz) in E as (nd' & -> & (_ & _ & Ec & _) & _). cbn. by rewrite Ec.
  - apply lookup_ge_None in E. rewrite <- (tu_len _ _ Hyz) in E. by rewrite (proj2 (lookup_ge_None _ _) E).
Qed.

Lemma subdivides_tuned f x y : subdivides f x0 x → tuned x y → subdivides f x0 y.
Proof.
  intros Hs Ht. split.
  - apply Hs.
  - rewrite (tu_len _ _ Ht). apply Hs.
  - intros v. rewrite (tu_len _ _ Ht). apply Hs.
  - intros e u v. rewrite (tu_edges _ _ Ht). apply Hs.
  - intros e u v. rewrite (tu_edges _ _ Ht). apply Hs.
  - intros u v Huv. apply (sd_path _ _ _ Hs) in Huv. clear - Huv Ht. induction Huv as [u | u w v [e He] _ IH]; [done |].
    eapply rtc_l; [exists e; by rewrite (tu_edges _ _ Ht) | done].
  - intros n nd E. apply (sd_node _ _ _ Hs) in E as (nd1 & E & S1). apply (tu_node _ _ Ht) in E as (nd2 & E & S2 & _). exists nd2. split; [done | by etrans].
Qed.

Lemma elab_tuned f D x y : elab x0 f ∅ D ∅ x → tuned x y → elab x0 f ∅ D ∅ y.
Proof.
  intros Hel Ht. destruct Hel as [G1 G2 G3 G4 G5 G6 G7 G8 G9 G10]. split.
  - by eapply graph_ok_tuned.
  - by eapply subdivides_tuned.
  - by rewrite (tu_clock _ _ Ht).
  - intros n nd' (nd & E & (_ & Et & Ec & Er & _) & _ & _ & Hf)%(tuned_inv _ _ _ _ Ht). destruct (G4 _ _ E) as (Hc & Hfo & Hr). split_and!; [| auto | congruence].
    unfold clocks_ok in *. by rewrite Et, Ec.
  - intros n nd' (nd & E & (_ & Et & _) & -> & -> & _)%(tuned_inv _ _ _ _ Ht). rewrite Et. by apply G5.
  - intros h []%elem_of_empty.
  - intros d Hd. apply G7 in Hd as (nd & nd0 & E & E0 & Htd & Hus & Hds). apply (tu_node _ _ Ht) in E as (nd' & E & (_ & Et & _) & Eu & Ed & _).
    exists nd', nd0. split_and!; congruence.
  - intros e u v He. rewrite (tu_edges _ _ Ht) in He. apply G8 in He. unfold out_clock, in_clock in *.
    by rewrite (clocks_tuned _ _ u _ last Ht), (clocks_tuned _ _ v _ head Ht).
  - intros e u v He. rewrite (tu_edges _ _ Ht) in He. apply G9 in He. unfold rank in *. by rewrite !(type_tuned _ _ _ Ht).
  - intros n t. rewrite (type_tuned _ _ _ Ht). apply G10.
Qed.

Lemma ports_tuned f x y P : ports x0 f x P → tuned x y → ports x0 f y P.
Proof.
  intros HP Ht h nd0 Hh E Hlen. destruct (HP h nd0 Hh E Hlen) as (Hf & s & ns & Es & Ts & Ds & Fs & e & nh & Eh & Th & Dh & Hpath). split; [done |].
  destruct (tu_node _ _ Ht _ _ Es) as (ns' & Es' & (_ & Ts' & _) & _ & Ds' & _). destruct (tu_node _ _ Ht _ _ Eh) as (nh' & Eh' & (_ & Th' & _) & _ & Dh' & _).
  exists s, ns'. split_and!; [done | congruence | congruence | done |]. exists e, nh'. split_and!; [done | congruence | congruence |].
  destruct Hpath as [He | (a & na & e' & He & Ea & Ta & Da & He' & Fa)]; [left; by rewrite (tu_edges _ _ Ht) |].
  destruct (tu_node _ _ Ht _ _ Ea) as (na' & Ea' & (_ & Ta' & _) & _ & Da' & _).
  right. exists a, na', e'. rewrite (tu_edges _ _ Ht). split_and!; (done || congruence).
Qed.

(** *** The whole elaboration *)

(** A device that shares no host with another one. *)
Definition lone (d : nat) : Prop := ∀ h nd e, nodes x0 !! h = Some nd → edges x0 !! e = Some (mkEdge h d) → length (n_ds nd) = 1%nat.

Lemma elaborate_elab k : edges x0 ≠ [] → (∀ d nd, nodes x0 !! d = Some nd → node_type nd = DEVICE → n_us nd ≠ []) →
  ∃ f D x, Elaborate.elaborate (5 + k) x0 = Ok (true, x) ∧ elab x0 f ∅ D ∅ x ∧ ports x0 f x (list_to_set (hosts x0)) ∧ (∀ d, d ∈ D → lone d).
Proof.
  intros He0 Hdev. pose proof (bp_graph _ Hx0) as Hg0. unfold Elaborate.elaborate.
  assert (Hlen : (length (nodes x0) <=? 1)%nat = false).
  { apply Nat.leb_gt. destruct (edges x0) as [| [u v] es] eqn:Ee; [done |]. assert (He : edges x0 !! 0%nat = Some (mkEdge u v)) by by rewrite Ee.
    pose proof (g_ends _ Hg0 _ _ _ He) as [Hu Hv]. apply (edge_types x0 Hx0) in He as [Tu Tv]. destruct (decide (u = v)) as [-> |]; [congruence | lia]. }
  rewrite Hlen. assert ((length (edges x0) =? 0)%nat = false) as -> by (apply Nat.eqb_neq; by destruct (edges x0)). cbn [orb].
  destruct (process_hosts x0 Hx0 k (hosts x0) id (list_to_set (hosts x0)) (list_to_set (devices x0)) x0 ∅ (elab_start x0 Hx0)) as (f & D & x1 & Hf & Hel & HP & Hsub & Hdone).
  { intros h nd0 []%elem_of_empty. }
  { intros p []%elem_of_empty. }
  { apply of_type_NoDup. }
  { intros h Hh. split; [by apply elem_of_list_to_set | apply not_elem_of_empty]. }
  rewrite Hf. cbn [mbind res_bind]. assert (Hel1 : elab x0 f ∅ D ∅ x1) by (eapply elab_sets; [exact Hel | apply difference_diag | done | done]).
  destruct (process_pipeline_ok x1) as (y & -> & Hy).
  - split; [apply Hel1 |]. intros n nd E. by destruct (el_node _ _ _ _ _ _ Hel1 n nd E) as (_ & ? & _).
  - intros n nd E. split.
    + intros Ht Hds. assert (HnD : n ∉ D). { intros HD. apply (el_device _ _ _ _ _ _ Hel1) in HD as (nd' & _ & E' & _ & Ht' & _). congruence. }
      pose proof (el_arity _ _ _ _ _ _ Hel1 n nd E (not_elem_of_empty n) HnD (not_elem_of_empty n)) as Har. rewrite Ht, Hds in Har. by destruct Har.
    + intros Ht Hus. pose proof (el_side _ _ _ _ _ _ Hel1 n DEVICE) as Hlt. cbn in Hlt. unfold type_at in Hlt at 1. rewrite E in Hlt. cbn in Hlt. rewrite Ht in Hlt. specialize (Hlt eq_refl).
      destruct (lookup_lt_is_Some_2 _ _ Hlt) as [nd0 E0]. destruct (sd_node _ _ _ (el_sub _ _ _ _ _ _ Hel1) _ _ E0) as (nd' & E' & (_ & Ht' & _)). rewrite E in E'. injection E' as <-.
      destruct (n_us nd0) as [| e l] eqn:Eu; [by eapply (Hdev n nd0 E0); [congruence |] |]. destruct (proj1 (g_us _ Hg0 n nd0 e E0)) as (u & He); [rewrite Eu; by left |].
      assert (Hun : u ≠ n). { intros ->. apply (edge_types x0 Hx0) in He as [Tu Tv]. congruence. }
      assert (Hr : rtc (step x1) u n) by (apply (sd_path _ _ _ (el_sub _ _ _ _ _ _ Hel1)); by exists e).
      apply rtc_inv_r in Hr as [-> | (w & _ & e' & He')]; [done |]. assert (Hin : e' ∈ n_us nd) by (apply (g_us _ (el_graph _ _ _ _ _ _ Hel1) n nd e' E); by exists w).
      rewrite Hus in Hin. by apply elem_of_nil in Hin.
  - cbn [mbind res_bind]. exists f, D, y. split_and!; [done | by eapply elab_tuned | eapply ports_tuned; [| done] |].
    + intros h nd0 Hh. apply HP. by apply elem_of_union_r.
    + intros d Hd h nd e E He. assert (Hin : e ∈ n_ds nd) by (apply (g_ds _ Hg0 h nd e E); by exists d).
      destruct (n_ds nd) as [| e1 [| e2 l]] eqn:Ed; [by apply elem_of_nil in Hin | done |]. exfalso. revert Hd. apply (Hdone h nd e); [| done | rewrite Ed; cbn; lia | done].
      apply elem_of_type. by apply (edge_types x0 Hx0) in He as [? _].
Qed.
End tuned_elab.
