(* ===== verification/TlProps.v ===== *)
(** What elaboration makes of a crossbar whose hosts are connected to its devices, and where it falls
    short. *)

From S2P Require Import Prelude BitLoops PyList PyStr Yaml OtpCommon Tlgen TlValidate TlFacts TlElab.

#[local] Open Scope string_scope.
#[local] Open Scope stdpp_scope.
#[local] Open Scope list_scope.
#[local] Open Scope Z_scope.

Import Xbar.

(** ** Connecting nodes *)

Lemma nodes_with_lt p x n : n ∈ nodes_with p x → (n < length (nodes x))%nat.
Proof. unfold nodes_with. rewrite list_elem_of_filter, elem_of_seq. lia. Qed.

Lemma get_node_inv name x n : get_node name x = Ok n → ∃ nd, nodes x !! n = Some nd.
Proof.
  unfold get_node. destruct (nodes_with _ x) as [| m [|]] eqn:E; [done | | done]. intros [= ->].
  apply lookup_lt_is_Some_2, (nodes_with_lt (fun nd => bool_decide (n_name nd = name))). rewrite E. by left.
Qed.

(** The edges of a crossbar to which one has been added. *)
Lemma edge_snoc (es : list Edge) ed e ed' : (es ++ [ed]) !! e = Some ed' ↔ es !! e = Some ed' ∨ (e = length es ∧ ed' = ed).
Proof.
  destruct (decide (e < length es)%nat) as [H | H].
  - rewrite lookup_app_l by done. split; [by left |]. intros [? | [-> _]]; [done | lia].
  - rewrite lookup_app_r by lia. rewrite (proj2 (lookup_ge_None es e)) by lia. split.
    + intros He. right. destruct (e - length es)%nat as [| i] eqn:Ei; [| done]. injection He as <-. split; [lia | done].
    + intros [? | [-> ->]]; [done |]. by rewrite Nat.sub_diag.
Qed.

Lemma connect_nodes_ok u d x r x' : graph_ok x → connect_nodes u d x = Ok (r, x') → graph_ok x' ∧
  xb_clock x' = xb_clock x ∧ xb_clocks x' = xb_clocks x ∧ length (nodes x') = length (nodes x) ∧
  (∀ n nd', nodes x' !! n = Some nd' → ∃ nd, nodes x !! n = Some nd ∧ same_node nd nd') ∧
  (x' = x ∨ ∃ un dn, get_node u x = Ok un ∧ get_node d x = Ok dn ∧ edges x' = edges x ++ [mkEdge un dn]).
Proof.
  intros Hg H. unfold connect_nodes in H. destruct (get_node u x) as [un |] eqn:Eu; [| done]. destruct (get_node d x) as [dn |] eqn:Ed; [| done].
  cbn [mbind res_bind] in H. case_match; injection H as <- <-; [by split_and!; [done | done | done | done | intros n nd' E; exists nd'; split; [done | reflexivity] | left] |].
  apply get_node_inv in Eu as Hu. apply get_node_inv in Ed as Hd. destruct Hu as (nu & Hu), Hd as (nd & Hd). set (e := length (edges x)). cbn [nodes edges set_graph].
  set (ns := alter _ dn (alter _ un (nodes x))).
  assert (Hfresh : ∀ n v, edges x !! e = Some (mkEdge n v) → False) by (intros n v E; apply lookup_lt_Some in E; unfold e in E; lia).
  assert (Hns : ∀ n nd', ns !! n = Some nd' → ∃ nd0, nodes x !! n = Some nd0 ∧ same_node nd0 nd' ∧
    n_ds nd' = n_ds nd0 ++ (if decide (n = un) then [e] else []) ∧ n_us nd' = n_us nd0 ++ (if decide (n = dn) then [e] else [])).
  { intros n nd'. unfold ns. intros E. destruct (decide (n = dn)) as [Hnd | Hnd]; destruct (decide (n = un)) as [Hnu | Hnu]; try rewrite <- Hnd in E; try rewrite <- Hnu in E;
      repeat (rewrite list_lookup_alter_eq in E || rewrite list_lookup_alter_ne in E by done);
      destruct (nodes x !! n) as [nd0 |]; try done; cbn in E; injection E as <-; exists nd0; rewrite ?app_nil_r; split_and!; (done || reflexivity). }
  split_and!; [split; cbn [nodes edges set_graph] | done | done | unfold ns; by rewrite !length_alter | | right; by exists un, dn].
  - intros i a b [H' | [-> [= -> ->]]]%edge_snoc; unfold ns; rewrite !length_alter; [by apply Hg in H' |].
    split; by eapply lookup_lt_Some.
  - intros n nd' i E. apply Hns in E as (nd0 & E & _ & -> & _). setoid_rewrite edge_snoc. case_decide as Hn; rewrite ?app_nil_r, ?elem_of_snoc, (g_ds _ Hg n nd0 i E).
    + subst un. split; [intros [(v & ?) | ->]; [exists v; by left | exists dn; by right] | intros (v & [? | [-> _]]); [left; by exists v | by right]].
    + split; [intros (v & ?); exists v; by left | intros (v & [? | [_ [= -> _]]]); [by exists v | done]].
  - intros n nd' i E. apply Hns in E as (nd0 & E & _ & _ & ->). setoid_rewrite edge_snoc. case_decide as Hn; rewrite ?app_nil_r, ?elem_of_snoc, (g_us _ Hg n nd0 i E).
    + subst dn. split; [intros [(v & ?) | ->]; [exists v; by left | exists un; by right] | intros (v & [? | [-> _]]); [left; by exists v | by right]].
    + split; [intros (v & ?); exists v; by left | intros (v & [? | [_ [= _ ->]]]); [by exists v | done]].
  - intros n nd' E. apply Hns in E as (nd0 & E & _ & -> & ->). destruct (g_nodup _ Hg n nd0 E) as [N1 N2].
    assert (e ∉ n_ds nd0) by (intros (v & ?)%(g_ds _ Hg n nd0 e E); by eapply Hfresh).
    assert (e ∉ n_us nd0) by (intros (v & ?)%(g_us _ Hg n nd0 e E); by eapply Hfresh).
    split; case_decide; rewrite ?app_nil_r; try done; (apply NoDup_app; split_and!; [done | set_solver | apply NoDup_singleton]).
  - intros n nd' E. apply Hns in E as (nd0 & E & Hs & _). by exists nd0.
Qed.

(** *** Names *)

Definition named (x : Xbar) (n : nat) (s : string) : Prop := n_name <$> nodes x !! n = Some s.

Lemma get_node_named name x n : get_node name x = Ok n → named x n name ∧ ∀ m, named x m name → m = n.
Proof.
  unfold get_node. set (p := fun nd => bool_decide (n_name nd = name)). destruct (nodes_with p x) as [| m [|]] eqn:E; [done | | done]. intros [= ->].
  assert (Hin : ∀ m, m ∈ nodes_with p x ↔ named x m name).
  { intros m. unfold nodes_with, named. rewrite list_elem_of_filter, elem_of_seq. destruct (nodes x !! m) as [nd |] eqn:Em; cbn.
    - apply lookup_lt_Some in Em. unfold p. rewrite bool_decide_eq_true. split; [by intros [-> _] | intros [= ->]; split; [done | lia]].
    - by split; [intros [? _] |]. }
  rewrite E in Hin. split; [apply Hin; by left |]. intros m Hm%Hin. by apply list_elem_of_singleton in Hm.
Qed.

Lemma named_same x x' n s : length (nodes x') = length (nodes x) → (∀ n nd', nodes x' !! n = Some nd' → ∃ nd, nodes x !! n = Some nd ∧ same_node nd nd') →
  named x' n s ↔ named x n s.
Proof.
  intros Hlen Hn. unfold named. destruct (nodes x' !! n) as [nd' |] eqn:E.
  - apply Hn in E as (nd & -> & (En & _)). cbn. by rewrite En.
  - apply lookup_ge_None in E. rewrite Hlen in E. by rewrite (proj2 (lookup_ge_None _ _) E).
Qed.

(** The edge of a connection is there afterwards, and no other edge is new. *)
Lemma connect_nodes_step u d x r x' : graph_ok x → connect_nodes u d x = Ok (r, x') →
  ∃ un dn, named x un u ∧ named x dn d ∧ ∀ a b, step x' a b ↔ step x a b ∨ (a = un ∧ b = dn).
Proof.
  intros Hg H. unfold connect_nodes in H. destruct (get_node u x) as [un |] eqn:Eu; [| done]. destruct (get_node d x) as [dn |] eqn:Ed; [| done].
  cbn [mbind res_bind] in H. apply get_node_named in Eu as [Nu Uu], Ed as [Nd Ud]. exists un, dn. split_and!; [done | done |]. case_match eqn:Eex; injection H as <- <-; intros a b.
  - split; [by left |]. intros [? | [-> ->]]; [done |]. apply existsb_exists in Eex as ([u1 d1] & Hin%list_elem_of_In & Hex%bool_decide_eq_true). cbn in Hex.
    apply list_elem_of_lookup in Hin as (e & He). unfold name_of in Hex. exists e. rewrite He. unfold named in *. destruct Hex as [H1 H2]. rewrite Nu in H1. rewrite Nd in H2.
    by rewrite (Uu u1 H1), (Ud d1 H2).
  - unfold step. cbn [edges set_graph]. setoid_rewrite edge_snoc. split.
    + intros (e & [He | [_ [= -> ->]]]); [left; by exists e | by right].
    + intros [(e & He) | [-> ->]]; [exists e; by left | eexists; by right].
Qed.

(** *** Connecting a list of pairs *)

Definition connect_pair (x : Xbar) (c : string * string) : res Xbar := r ← connect_nodes c.1 c.2 x; Ok r.2.

(** [x] is [x0] with the connections [l]. *)
Record linked (x0 x : Xbar) (l : list (string * string)) : Prop := {
  lk_graph : graph_ok x;
  lk_clock : xb_clock x = xb_clock x0;
  lk_clocks : xb_clocks x = xb_clocks x0;
  lk_len : length (nodes x) = length (nodes x0);
  lk_node n nd' : nodes x !! n = Some nd' → ∃ nd, nodes x0 !! n = Some nd ∧ same_node nd nd';
  lk_step a b : step x a b ↔ step x0 a b ∨ ∃ c, c ∈ l ∧ named x0 a c.1 ∧ named x0 b c.2;
  lk_named c : c ∈ l → ∃ a b, named x0 a c.1 ∧ named x0 b c.2;
}.

Lemma connect_pairs x0 l x : graph_ok x0 → (∀ s a b, named x0 a s → named x0 b s → a = b) → foldM connect_pair x0 l = Ok x → linked x0 x l.
Proof.
  intros Hg Huniq. apply (foldM_ind (fun l x => linked x0 x l)).
  - split; [done | done | done | done | intros n nd E; exists nd; split; [done | reflexivity] | | by intros c []%elem_of_nil].
    intros a b. split; [by left | intros [? | (c & []%elem_of_nil & _)]; done].
  - intros pre c x1 x2 _ [G1 C1 CS1 L1 N1 S1 M1]. unfold connect_pair. destruct (connect_nodes c.1 c.2 x1) as [[r x'] |] eqn:E; [| done]. cbn. intros [= <-].
    destruct (connect_nodes_ok _ _ _ _ _ G1 E) as (G2 & C2 & CS2 & L2 & N2 & _). destruct (connect_nodes_step _ _ _ _ _ G1 E) as (un & dn & Nu & Nd & S2).
    rewrite (named_same x0 x1) in Nu, Nd by done. split; [done | congruence | congruence | congruence | | |].
    + intros n nd' (nd1 & E1 & H1)%N2. apply N1 in E1 as (nd & E0 & H0). exists nd. split; [done | by etrans].
    + intros a b. rewrite S2, S1. setoid_rewrite elem_of_snoc. split.
      * intros [[? | (c' & ? & ? & ?)] | [-> ->]]; [by left | right; exists c'; auto | right; exists c; auto].
      * intros [? | (c' & [? | ->] & Ha & Hb)]; [by left; left | left; right; by exists c' |]. right. split; [by apply (Huniq c.1) | by apply (Huniq c.2)].
    + intros c' [? | ->]%elem_of_snoc; [by apply M1 | by exists un, dn].
Qed.

(** *** The connections of a description *)

(** The pairs of names that a description lists. *)
Definition listed (obj : hjson) : res (list (string * string)) :=
  conns ← key "connections" obj;
  conns ← as_dict conns;
  ls ← mapR (fun host =>
    devices ← key host conns;
    ds ← py_iter devices;
    mapR (fun d => d ← py_lower d; Ok (lower host, d)) ds) (str_keys conns);
  Ok (concat ls).

Lemma connect_devices host x ds x' : foldM (Validate.connect host) x ds = Ok x' →
  ∃ l, mapR (fun d => d ← py_lower d; Ok (lower host, d)) ds = Ok l ∧ foldM connect_pair x l = Ok x'.
Proof.
  revert x. induction ds as [| d ds IH]; intros x; cbn [foldM mapR]; [by exists [] |].
  change (Validate.connect host x d) with (d' ← py_lower d; r ← connect_nodes (lower host) d' x; Ok r.2). destruct (py_lower d) as [s |]; [| done]. cbn [mbind res_bind].
  destruct (connect_nodes (lower host) s x) as [[r x1] |] eqn:E; [| done]. cbn [mbind res_bind]. intros (l & Hl & Hf)%IH. exists ((lower host, s) :: l). rewrite Hl. split; [done |].
  cbn [foldM]. change (connect_pair x (lower host, s)) with (r ← connect_nodes (lower host) s x; Ok r.2). by rewrite E.
Qed.

Lemma connect_hosts (conns : hjson) hosts x x' :
  foldM (fun x host => devices ← key host conns; ds ← py_iter devices; foldM (Validate.connect host) x ds) x hosts = Ok x' →
  ∃ ls, mapR (fun host => devices ← key host conns; ds ← py_iter devices; mapR (fun d => d ← py_lower d; Ok (lower host, d)) ds) hosts = Ok ls ∧
    foldM connect_pair x (concat ls) = Ok x'.
Proof.
  revert x. induction hosts as [| h hosts IH]; intros x; cbn [foldM mapR]; [by exists [] |]. destruct (key h conns) as [dv |]; [| done]. cbn [mbind res_bind].
  destruct (py_iter dv) as [ds |]; [| done]. cbn [mbind res_bind]. destruct (foldM (Validate.connect h) x ds) as [x1 |] eqn:E; [| done]. cbn [mbind res_bind].
  apply connect_devices in E as (l & -> & Hl). intros (ls & -> & Hls)%IH. exists (l :: ls). split; [done |]. cbn [concat]. rewrite foldM_app, Hl. done.
Qed.

(** *** The nodes of a description *)

(** A node that is not connected yet. *)
Definition fresh_node (nd : Node) : Prop := n_us nd = [] ∧ n_ds nd = [] ∧ (∃ c, clocks nd = [c]) ∧ (∃ r, resets nd = [r]).

(** No address is in two ranges. *)
Definition ranges_apart (l : list (Z * Z)) : Prop := ∀ i j p q a, l !! i = Some p → l !! j = Some q → p.1 ≤ a ≤ p.2 → q.1 ≤ a ≤ q.2 → i = j.

Lemma ranges_apart_snoc l p : ranges_apart l → Validate.checkAddressOverlap p l = false → ranges_apart (l ++ [p]).
Proof.
  intros Hl Hp. assert (Hno : ∀ i q a, l !! i = Some q → q.1 ≤ a ≤ q.2 → p.1 ≤ a ≤ p.2 → False).
  { intros i q a Hq Ha1 Ha2. apply list_elem_of_lookup_2, list_elem_of_In in Hq. unfold Validate.checkAddressOverlap in Hp. apply not_true_iff_false in Hp. apply Hp, existsb_exists.
    exists q. split; [done |]. unfold Validate.isOverlap. apply negb_true_iff, orb_false_iff. split; apply Z.ltb_ge; lia. }
  assert (Hsnoc : ∀ i q, (l ++ [p]) !! i = Some q → l !! i = Some q ∨ (i = length l ∧ q = p)).
  { intros i q Hq. apply lookup_app_Some in Hq as [Hq | [Hi Hq]]; [by left | right]. destruct (i - length l)%nat as [|] eqn:Ei; [| done]. injection Hq as <-. split; [lia | done]. }
  intros i j q1 q2 a Hi Hj H1 H2. apply Hsnoc in Hi as [Hi | [-> ->]], Hj as [Hj | [-> ->]]; [by eapply Hl | exfalso; by eapply Hno | exfalso; by eapply Hno | done].
Qed.

Lemma add_ranges l0 rs l own rs' : foldM Validate.add_range (l0, rs) l = Ok (own, rs') → ranges_apart rs → ranges_apart rs' ∧ ∃ new, own = l0 ++ new ∧ rs' = rs ++ new.
Proof.
  revert l0 rs. induction l as [| e l IH]; intros l0 rs; cbn [foldM]; [intros [= <- <-] ?; split; [done | exists []; by rewrite !app_nil_r] |].
  change (Validate.add_range (l0, rs) e) with (address_from ← Lib.field "base_addr" e; size ← Lib.field "size_byte" e;
    if Validate.checkAddressOverlap (address_from, address_from + size - 1) rs then Err SystemExit
    else Ok (l0 ++ [(address_from, address_from + size - 1)], rs ++ [(address_from, address_from + size - 1)])).
  destruct (Lib.field "base_addr" e) as [b |]; [| done]. destruct (Lib.field "size_byte" e) as [s |]; [| done]. cbn [mbind res_bind].
  destruct (Validate.checkAddressOverlap _ _) eqn:E; [done |]. cbn [mbind res_bind]. intros H Hap.
  destruct (IH _ _ H (ranges_apart_snoc _ _ Hap E)) as (? & new & -> & ->). split; [done |]. exists ((b, b + s - 1) :: new). by rewrite <- !app_assoc.
Qed.

(** What the nodes of the description have become. *)
Record built (x0 : Xbar) (st : Validate.vstate) : Prop := {
  bt_edges : edges (Validate.v_xbar st) = [];
  bt_same : xb_clock (Validate.v_xbar st) = xb_clock x0 ∧ xb_clocks (Validate.v_xbar st) = xb_clocks x0;
  bt_fresh : Forall fresh_node (nodes (Validate.v_xbar st));
  bt_clocks : Forall (fun nd => ∃ c, clocks nd = [c] ∧ c ∈ xb_clocks x0) (nodes (Validate.v_xbar st));
  bt_names : NoDup (n_name <$> nodes (Validate.v_xbar st));
  bt_ranges : Validate.v_ranges st = concat (addr_range <$> nodes (Validate.v_xbar st)) ∧ ranges_apart (Validate.v_ranges st);
}.

Lemma node_step_built x0 obj st i st' : built x0 st → Validate.node_step obj st i = Ok st' → built x0 st'.
Proof.
  intros Hb H. unfold Validate.node_step in H. apply bind_Ok_inv in H as (node & _ & H). apply bind_Ok_inv in H as (d & _ & H). apply bind_Ok_inv in H as (nm & _ & H).
  apply bind_Ok_inv in H as (ex & Hex & H). destruct ex; [done |]. apply bind_Ok_inv in H as (c & _ & H). apply bind_Ok_inv in H as (r & _ & H).
  destruct (bool_decide (c ∈ _)) eqn:Ec; [| done]. destruct (bool_decide (r ∈ _)) eqn:Er; [| done]. cbn [negb] in H.
  apply bind_Ok_inv in H as (t & _ & H). apply bind_Ok_inv in H as (tl & _ & H). apply bind_Ok_inv in H as (ty & _ & H). apply bind_Ok_inv in H as (s & Hs & H).
  apply bind_Ok_inv in H as ([[[xb d'] own] rs] & Hd & H). apply bind_Ok_inv in H as (pipe & _ & H). apply bind_Ok_inv in H as (byp & _ & H). injection H as <-.
  destruct Hb as [B1 B2 B3 B4 B5 [B6 B7]]. apply bool_decide_eq_true in Ec.
  assert (Hrs : rs = Validate.v_ranges st ++ own ∧ ranges_apart rs).
  { destruct (bool_decide (ty = DEVICE)); [| by injection Hd as _ _ <- <-; rewrite app_nil_r].
    apply bind_Ok_inv in Hd as ([[[xv d1] own1] rs1] & Hd & Hd'). injection Hd' as _ <- <- <-. unfold Validate.device_attrs in Hd.
    apply bind_Ok_inv in Hd as (? & _ & Hd). apply bind_Ok_inv in Hd as (? & _ & Hd). apply bind_Ok_inv in Hd as (? & _ & Hd). apply bind_Ok_inv in Hd as (? & _ & Hd).
    apply bind_Ok_inv in Hd as ([own2 rs2] & Hf & Hd). injection Hd as _ _ <- <-. by destruct (add_ranges _ _ _ _ _ Hf B7) as (? & new & -> & ->). }
  destruct Hrs as [-> Hap]. split; cbn [Validate.v_xbar Validate.v_ranges nodes edges set_graph Validate.add_node xb_clock xb_clocks]; try done.
  - apply Forall_app. split; [done |]. apply Forall_singleton. split_and!; [done | done | by eexists | by eexists].
  - apply Forall_app. split; [done |]. apply Forall_singleton. exists c. split; [done |]. destruct B2 as [_ <-]. done.
  - rewrite fmap_app. cbn. apply NoDup_app. split_and!; [done | | apply NoDup_singleton]. intros y Hy ->%list_elem_of_singleton.
    unfold Validate.checkNameExist in Hex. rewrite Hs in Hex. cbn in Hex. injection Hex as Hex. apply list_elem_of_fmap in Hy as (nd & Hn & Hin).
    apply not_true_iff_false in Hex. apply Hex, existsb_exists. exists nd. split; [by apply list_elem_of_In | by apply String.eqb_eq].
  - rewrite fmap_app, concat_app, <- B6. cbn. by rewrite app_nil_r.
Qed.

Lemma validate_hjson_key obj obj' k : k ≠ "type" → Validate.validate_hjson obj = Ok (Some obj') → yget k obj' = yget k obj.
Proof.
  intros Hk H. unfold Validate.validate_hjson in H. destruct (yget "name" _); [| done]. apply bind_Ok_inv in H as (err & _ & H). destruct (0 <? err); [done |].
  injection H as <-. destruct (yget "type" obj); [done |]. by apply yget_yset_ne.
Qed.

Lemma built_graph x0 st : built x0 st → graph_ok (Validate.v_xbar st).
Proof.
  intros [B1 _ B3 _ _ _]. assert (Hf : ∀ n nd, nodes (Validate.v_xbar st) !! n = Some nd → n_us nd = [] ∧ n_ds nd = []).
  { intros n nd E. rewrite Forall_forall in B3. apply list_elem_of_lookup_2 in E. destruct (B3 nd E) as (? & ? & _). done. }
  split; rewrite ?B1; try done.
  - intros n nd e E. destruct (Hf n nd E) as [_ ->]. split; [by intros ?%elem_of_nil | by intros (v & ?)].
  - intros n nd e E. destruct (Hf n nd E) as [-> _]. split; [by intros ?%elem_of_nil | by intros (v & ?)].
  - intros n nd E. destruct (Hf n nd E) as [-> ->]. split; constructor.
Qed.

Lemma built_unique x0 st s a b : built x0 st → named (Validate.v_xbar st) a s → named (Validate.v_xbar st) b s → a = b.
Proof.
  intros [_ _ _ _ B5 _] Ha Hb. unfold named in *. rewrite <- list_lookup_fmap in Ha, Hb. by apply (NoDup_lookup _ _ _ _ B5 Ha Hb).
Qed.

Lemma validate_inv obj x : Validate.validate obj = Ok (Some x) → ∃ x0 st l, built x0 st ∧ xb_clocks x = xb_clocks x0 ∧
  listed obj = Ok l ∧ linked (Validate.v_xbar st) x l.
Proof.
  intros H. unfold Validate.validate in H. apply bind_Ok_inv in H as (? & _ & H). apply bind_Ok_inv in H as (name & _ & H). apply bind_Ok_inv in H as (? & _ & H).
  apply bind_Ok_inv in H as (clock & _ & H). apply bind_Ok_inv in H as (? & _ & H). apply bind_Ok_inv in H as (reset & _ & H).
  apply bind_Ok_inv in H as ([obj' |] & Hchk & H); [| done]. apply bind_Ok_inv in H as (? & _ & H). apply bind_Ok_inv in H as (cs & _ & H). apply bind_Ok_inv in H as (? & _ & H).
  apply bind_Ok_inv in H as (rs & _ & H). apply bind_Ok_inv in H as (? & _ & H). apply bind_Ok_inv in H as (l & _ & H). apply bind_Ok_inv in H as (st & Hst & H).
  apply bind_Ok_inv in H as (conns & Hconns & H). apply bind_Ok_inv in H as (cd & Hcd & H). apply bind_Ok_inv in H as (x' & Hx & H). injection H as ->.
  set (xi := mkXbar clock reset name [] [] (str_keys cs) (str_keys rs)) in *.
  assert (Hb : built xi st).
  { revert Hst. apply (foldM_ind (fun _ st => built xi st)).
    - split; [done | done | by apply Forall_nil | by apply Forall_nil | apply NoDup_nil_2 |]. split; [done |]. by intros i j p q a.
    - intros pre i st1 st2 _ Hb1. by apply node_step_built. }
  apply connect_hosts in Hx as (ls & Hls & Hx). exists xi, st, (concat ls). assert (Hl : linked (Validate.v_xbar st) x (concat ls)) by (apply connect_pairs; [by apply (built_graph xi) | intros s a b; by apply (built_unique xi) | done]).
  split_and!; [done | rewrite (lk_clocks _ _ _ Hl); apply Hb | | done].
  unfold listed. assert (key "connections" obj = Ok conns) as ->.
  { unfold key in *. by rewrite (validate_hjson_key obj obj') in Hconns by done. }
  cbn [mbind res_bind]. rewrite Hcd. cbn [mbind res_bind]. by rewrite Hls.
Qed.

(** ** Elaborated crossbars *)

Section elaborated.
Context (x0 : Xbar) (Hx0 : bipartite x0).

(** Between nodes that were there from the start the only paths are edges. *)
Lemma bipartite_path h d : h ≠ d → rtc (step x0) h d → step x0 h d.
Proof.
  intros Hne Hr. apply rtc_inv in Hr as [-> | (w & (e & He) & Hr)]; [done |]. apply rtc_inv in Hr as [-> | (w' & (e' & He') & _)]; [by exists e |].
  apply (edge_types x0 Hx0) in He as [_ Tw]. apply (edge_types x0 Hx0) in He' as [Tw' _]. congruence.
Qed.

(** The way down from a node on the side of the devices. *)
Lemma downstream_device f D x : elab x0 f ∅ D ∅ x → ∀ r v, (rank x0 f x v < r)%nat → (r ≤ 3)%nat → (v < length (nodes x))%nat →
  (∀ d, d ∈ D → lone x0 d) → get_downstream_device r x v = Ok (f v).
Proof.
  intros Hel r. induction r as [| r IH]; intros v Hr Hr3 Hv HD; [lia |]. destruct (lookup_lt_is_Some_2 _ _ Hv) as [nv Ev].
  cbn [get_downstream_device]. rewrite (node_at_ok _ _ _ Ev). cbn [mbind res_bind]. pose proof (el_graph _ _ _ _ _ _ Hel) as Hg.
  assert (Htv : type_at x v = Some (node_type nv)) by (unfold type_at; by rewrite Ev). pose proof (el_side _ _ _ _ _ _ Hel v _ Htv) as Hs. case_decide as Ht.
  - rewrite Ht in Hs. by rewrite (sd_old _ _ _ (el_sub _ _ _ _ _ _ Hel)).
  - assert (HvD : v ∉ D). { intros H%(el_device _ _ _ _ _ _ Hel). destruct H as (nd & _ & E & _ & Htd & _). congruence. }
    pose proof (el_arity _ _ _ _ _ _ Hel v nv Ev (not_elem_of_empty v) HvD (not_elem_of_empty v)) as Har.
    assert (Hds : ∃ e, n_ds nv = [e]).
    { unfold rank in Hr. rewrite Htv in Hr. destruct (node_type nv); try lia; cbn in Har; destruct Har as [_ Har]; destruct (n_ds nv) as [| e [|]]; try done; by exists e. }
    destruct Hds as (e & Hds). unfold below. rewrite Hds. assert (py_nth [e] 0 = Ok e) as -> by exact (py_nth_nat [e] 0 e eq_refl). cbn [mbind res_bind].
    destruct (proj1 (g_ds _ Hg v nv e Ev)) as (w & He); [rewrite Hds; by left |]. rewrite (edge_at_ok _ _ _ He). cbn [mbind res_bind ds_of].
    pose proof (el_rank _ _ _ _ _ _ Hel _ _ _ He) as Hrk. rewrite IH; [| lia | lia | apply (g_ends _ Hg _ _ _ He) | done]. f_equal. symmetry.
    apply (sd_new _ _ _ (el_sub _ _ _ _ _ _ Hel) e v w He). apply lookup_ge_None. destruct (decide (e < length (edges x0))%nat) as [Hlt |]; [| lia].
    pose proof (old_ranks x0 Hx0 _ _ _ _ _ e v w Hel Hlt He). lia.
Qed.

Lemma downstream_more k r x v d : get_downstream_device r x v = Ok d → get_downstream_device (r + k) x v = Ok d.
Proof.
  revert v. induction r as [| r IH]; intros v; [done |]. cbn [get_downstream_device Nat.add]. destruct (node_at x v) as [nd |]; [| done].
  cbn [mbind res_bind]. case_decide; [done |]. destruct (below x nd 0) as [m |]; [| done]. apply IH.
Qed.

Lemma devices_below f D x k e u v : elab x0 f ∅ D ∅ x → (∀ d, d ∈ D → lone x0 d) → edges x0 !! e = Some (mkEdge u v) →
  get_downstream_device_from_edge (3 + k) x e = Ok v.
Proof.
  intros Hel HD He. destruct (sd_edge _ _ _ (el_sub _ _ _ _ _ _ Hel) _ _ _ He) as (u' & v' & He' & _ & Hv).
  unfold get_downstream_device_from_edge. rewrite (edge_at_ok _ _ _ He'). cbn [mbind res_bind ds_of]. apply (downstream_more k 3). rewrite <- Hv.
  apply lookup_lt_Some in He as Hlt. pose proof (old_ranks x0 Hx0 _ _ _ _ _ e u' v' Hel Hlt He'). pose proof (g_ends _ (el_graph _ _ _ _ _ _ Hel) _ _ _ He').
  apply (downstream_device f D x Hel); [lia | lia | lia | done].
Qed.

Lemma s1n_of_host f x h l k : host_port f x h l → ∃ s ns, get_s1n_if_exist (3 + k) x h = Ok s ∧ nodes x !! s = Some ns ∧ n_ds ns = l.
Proof.
  intros (s & ns & Es & Ts & Ds & _ & e & nh & Eh & Th & Dh & Hpath). exists s, ns. split_and!; [| done | done].
  assert (Hbelow : ∀ nd e u v, n_ds nd = [e] → edges x !! e = Some (mkEdge u v) → below x nd 0 = Ok v).
  { intros nd i u v Hd Hi. unfold below. rewrite Hd. assert (py_nth [i] 0 = Ok i) as -> by exact (py_nth_nat [i] 0 i eq_refl). cbn [mbind res_bind]. by rewrite (edge_at_ok _ _ _ Hi). }
  assert (Hs : ∀ k, get_s1n_if_exist (S k) x s = Ok s) by (intros k'; cbn; rewrite (node_at_ok _ _ _ Es); cbn; by rewrite Ts).
  assert (Hstep : ∀ r n nd m, nodes x !! n = Some nd → node_type nd ≠ DEVICE → node_type nd ≠ SOCKET_1N → below x nd 0 = Ok m →
    get_s1n_if_exist (S r) x n = get_s1n_if_exist r x m).
  { intros r n nd m En H1 H2 Hm. cbn [get_s1n_if_exist]. rewrite (node_at_ok _ _ _ En). cbn [mbind res_bind]. by rewrite !decide_False, Hm by done. }
  change (3 + k)%nat with (S (S (S k))). destruct Hpath as [He | (a & na & e' & He & Ea & Ta & Da & He' & _)].
  - rewrite (Hstep _ h nh s Eh); [apply Hs | by rewrite Th | by rewrite Th | by apply (Hbelow nh e h)].
  - rewrite (Hstep _ h nh a Eh); [| by rewrite Th | by rewrite Th | by apply (Hbelow nh e h)].
    rewrite (Hstep _ a na s Ea); [apply Hs | by rewrite Ta | by rewrite Ta | by apply (Hbelow na e' a)].
Qed.
End elaborated.

(** The crossbars that the elaboration is meant for: hosts and devices, each connected. *)
Record elaborable (x0 : Xbar) : Prop := {
  eb_bipartite : bipartite x0;
  eb_edges : edges x0 ≠ [];
  eb_device d nd : nodes x0 !! d = Some nd → node_type nd = DEVICE → n_us nd ≠ [];
}.

(** C38: A crossbar with at least one edge, all of whose nodes are hosts connected to devices or devices
    connected to hosts, each with one clock and one reset and with the edge lists of the nodes in agreement
    with the edges ([elaborable]), is elaborated without an exception, with fuel 5 or more.  In the result
    FIFOs have one edge on either side, 1:N and M:1 sockets join one edge and several and run on the clock
    of the crossbar, a host has exactly one edge and a device at most one, and every edge joins equal clocks
    (the second clock of a FIFO is the one below it); the devices all of whose hosts have no other device are
    excepted, they may keep several edges and a clock of their own.  There are no cycles, and no path leads
    through two 1:N sockets. *)
Theorem elaborate_legal x0 k : elaborable x0 → ∃ x, Elaborate.elaborate (5 + k) x0 = Ok (true, x) ∧
  (∀ n nd, nodes x !! n = Some nd → (node_type nd = DEVICE → ¬ lone x0 n) → arity_ok (node_type nd) (n_us nd) (n_ds nd)) ∧
  (∀ e u v nu nv, edges x !! e = Some (mkEdge u v) → nodes x !! u = Some nu → nodes x !! v = Some nv → (node_type nv = DEVICE → ¬ lone x0 v) →
    ∃ c, last (clocks nu) = Some c ∧ head (clocks nv) = Some c) ∧
  (∀ n nd, nodes x !! n = Some nd → node_type nd = SOCKET_1N ∨ node_type nd = SOCKET_M1 → clocks nd = [xb_clock x0]) ∧
  (∀ u v, tc (step x) u v → u ≠ v ∧ (type_at x u = Some SOCKET_1N → type_at x v ≠ Some SOCKET_1N)).
Proof.
  intros [Hb He Hd]. destruct (elaborate_elab x0 Hb k He Hd) as (f & D & x & Hx & Hel & _ & HD). exists x.
  assert (HnD : ∀ n nd, nodes x !! n = Some nd → (node_type nd = DEVICE → ¬ lone x0 n) → n ∉ D).
  { intros n nd En Hl Hn. destruct (el_device _ _ _ _ _ _ Hel n Hn) as (nd' & _ & E & _ & Ht & _). rewrite En in E. injection E as <-. by apply Hl, HD. }
  split_and!; [done | | | |].
  - intros n nd En Hl. apply (el_arity _ _ _ _ _ _ Hel n nd En); [apply not_elem_of_empty | by eapply HnD | apply not_elem_of_empty].
  - intros e u v nu nv Ee Eu Ev Hl. pose proof (el_cross _ _ _ _ _ _ Hel _ _ _ Ee) as Hc. unfold out_clock, in_clock in Hc.
    rewrite (decide_False (P := u ∈ ∅)), Eu in Hc by apply not_elem_of_empty. rewrite decide_False, Ev in Hc by (by eapply HnD). cbn in Hc.
    destruct (other_clock_ok _ _ _ _ _ _ _ _ Hel Ev) as (c & _ & Hh & _). exists c. split; [congruence | done].
  - intros n nd En Ht. destruct (el_node _ _ _ _ _ _ Hel n nd En) as (Hcl & _). unfold clocks_ok in Hcl. by destruct Ht as [Ht | Ht]; rewrite Ht in Hcl.
  - intros u v Huv. assert (Hr : (rank x0 f x v < rank x0 f x u)%nat).
    { induction Huv as [u v (e & Hs) | u w v (e & Hs) _ IH]; apply (el_rank _ _ _ _ _ _ Hel) in Hs; lia. }
    split; [intros ->; lia |]. intros Hu Hv'. unfold rank in Hr. rewrite Hu, Hv' in Hr. lia.
Qed.

(** C39: For an [elaborable] crossbar and a host with at least two devices, elaboration with fuel 5 or more
    succeeds, and [get_devices_from_host] with fuel 3 or more finds below the socket of the host exactly its
    devices, in the order in which they were connected, whatever FIFOs and sockets lie in between. *)
Theorem elaborated_devices x0 k h nd : elaborable x0 → nodes x0 !! h = Some nd → node_type nd = HOST → (1 < length (n_ds nd))%nat →
  ∃ x l, Elaborate.elaborate (5 + k) x0 = Ok (true, x) ∧ get_devices_from_host (3 + k) x h = Ok l ∧
    Forall2 (fun e d => edges x0 !! e = Some (mkEdge h d)) (n_ds nd) l.
Proof.
  intros [Hb He Hd] Hn Ht Hlen. destruct (elaborate_elab x0 Hb k He Hd) as (f & D & x & Hx & Hel & HP & HD).
  destruct (HP h nd) as [_ Hport]; [apply elem_of_list_to_set, elem_of_type; unfold type_at; by rewrite Hn; cbn; rewrite Ht | done | done |].
  destruct (s1n_of_host f x h _ k Hport) as (s & ns & Hs & Es & Ds). exists x, (default 0%nat ∘ (fun e => ds_of <$> edges x0 !! e) <$> n_ds nd).
  assert (Hends : ∀ e, e ∈ n_ds nd → ∃ d, edges x0 !! e = Some (mkEdge h d)) by (intros e; apply (g_ds _ (bp_graph _ Hb) h nd e Hn)).
  split_and!; [done | |].
  - unfold get_devices_from_host. rewrite Hs. cbn [mbind res_bind]. rewrite (node_at_ok _ _ _ Es). cbn [mbind res_bind]. rewrite Ds.
    apply mapR_Ok_fmap. intros e Hin. destruct (Hends e Hin) as (d & Ee).
    cbn. rewrite Ee. cbn. by apply (devices_below x0 Hb f D x k e h d Hel HD).
  - apply Forall2_fmap_r, Forall_Forall2_diag, Forall_forall. intros e Hin. destruct (Hends e Hin) as (d & Ee). cbn. by rewrite Ee.
Qed.

(** ** From a description to a crossbar *)

(** Every node is a host that is connected to devices or a device that is connected to hosts. *)
Definition well_connected (x : Xbar) (l : list (string * string)) : Prop := Forall (fun nd =>
  (node_type nd = HOST ∧ n_name nd ∈ l.*1 ∧ n_name nd ∉ l.*2) ∨ (node_type nd = DEVICE ∧ n_name nd ∈ l.*2 ∧ n_name nd ∉ l.*1)) (nodes x).

#[export] Instance well_connected_dec x l : Decision (well_connected x l).
Proof. apply _. Defined.

Section linked.
Context (xi : Xbar) (st : Validate.vstate) (x : Xbar) (l : list (string * string)).
Context (Hb : built xi st) (Hl : linked (Validate.v_xbar st) x l).

Lemma linked_named n s : named x n s ↔ named (Validate.v_xbar st) n s.
Proof. apply named_same; apply Hl. Qed.

Lemma linked_step a b na nb : nodes x !! a = Some na → nodes x !! b = Some nb → step x a b ↔ (n_name na, n_name nb) ∈ l.
Proof.
  intros Ea Eb. rewrite (lk_step _ _ _ Hl). setoid_rewrite <- linked_named. unfold named. rewrite Ea, Eb. cbn. unfold step. rewrite (bt_edges _ _ Hb). split.
  - intros [(e & ?) | ([c1 c2] & Hc & [= ->] & [= ->])]; done.
  - intros Hc. right. by exists (n_name na, n_name nb).
Qed.

Lemma linked_names c : c ∈ l → ∃ a b, named x a c.1 ∧ named x b c.2 ∧ step x a b.
Proof.
  intros Hc. destruct (lk_named _ _ _ Hl c Hc) as (a & b & Ha & Hb'). exists a, b. rewrite !linked_named. split_and!; [done | done |].
  apply (lk_step _ _ _ Hl). right. by exists c.
Qed.

Lemma linked_unique a b s : named x a s → named x b s → a = b.
Proof. rewrite !linked_named. by eapply built_unique. Qed.

Lemma linked_elaborable : well_connected x l → nodes x ≠ [] → elaborable x.
Proof.
  intros Hw' Hne. pose proof (lk_graph _ _ _ Hl) as Hg. pose proof (fun n nd E => proj1 (Forall_lookup _ _) Hw' n nd E) as Hw. cbv beta in Hw.
  assert (Hhost : ∀ n nd, nodes x !! n = Some nd → node_type nd = HOST → ∃ b, step x n b).
  { intros n nd E Ht. destruct (Hw n nd E) as [(_ & Hin & _) | [Ht' _]]; [| congruence]. apply list_elem_of_fmap in Hin as (c & Hn & Hc).
    destruct (linked_names c Hc) as (a & b & Ha & _ & Hs). exists b. replace n with a; [done |]. apply (linked_unique _ _ c.1 Ha). unfold named. rewrite E. cbn. by rewrite Hn. }
  assert (Hdev : ∀ n nd, nodes x !! n = Some nd → node_type nd = DEVICE → ∃ a, step x a n).
  { intros n nd E Ht. destruct (Hw n nd E) as [[Ht' _] | (_ & Hin & _)]; [congruence |]. apply list_elem_of_fmap in Hin as (c & Hn & Hc).
    destruct (linked_names c Hc) as (a & b & _ & Hb' & Hs). exists a. replace n with b; [done |]. apply (linked_unique _ _ c.2 Hb'). unfold named. rewrite E. cbn. by rewrite Hn. }
  split; [split; [done | | |] | |].
  - intros n nd E. split; [destruct (Hw n nd E) as [[? _] | [? _]]; auto |]. apply (lk_node _ _ _ Hl) in E as (nd0 & E & (_ & _ & -> & -> & _)).
    pose proof (bt_fresh _ _ Hb) as Hf. rewrite Forall_forall in Hf. apply list_elem_of_lookup_2 in E. by destruct (Hf nd0 E) as (_ & _ & ? & ?).
  - intros e u v nu nv He Eu Ev. assert (Hs : step x u v) by by exists e. rewrite (linked_step u v nu nv Eu Ev) in Hs.
    assert (H1 : n_name nu ∈ l.*1) by (apply list_elem_of_fmap; by exists (n_name nu, n_name nv)).
    assert (H2 : n_name nv ∈ l.*2) by (apply list_elem_of_fmap; by exists (n_name nu, n_name nv)).
    destruct (Hw u nu Eu) as [(? & _) | (_ & _ & ?)]; [| done]. destruct (Hw v nv Ev) as [(_ & _ & ?) | (? & _)]; done.
  - intros n nd E Ht Hds. destruct (Hhost n nd E Ht) as (b & e & He). assert (Hin : e ∈ n_ds nd) by (apply (g_ds _ Hg n nd e E); by exists b). rewrite Hds in Hin. by apply elem_of_nil in Hin.
  - intros He. destruct (nodes x) as [| nd ns] eqn:En; [done |]. assert (E : nodes x !! 0%nat = Some nd) by (by rewrite En). unfold step in *. rewrite En in *.
    destruct (Hw 0%nat nd) as [[Ht _] | [Ht _]]; [done | |]; [destruct (Hhost 0%nat nd E Ht) as (b & e & Hst) | destruct (Hdev 0%nat nd E Ht) as (b & e & Hst)]; by rewrite He in Hst.
  - intros d nd E Ht Hus. destruct (Hdev d nd E Ht) as (b & e & He). assert (Hin : e ∈ n_us nd) by (apply (g_us _ Hg d nd e E); by exists b). rewrite Hus in Hin. by apply elem_of_nil in Hin.
Qed.
End linked.

Lemma validated_elaborable obj x l : Validate.validate obj = Ok (Some x) → listed obj = Ok l → well_connected x l → nodes x ≠ [] →
  elaborable x ∧ ∀ a b na nb, nodes x !! a = Some na → nodes x !! b = Some nb → step x a b ↔ (n_name na, n_name nb) ∈ l.
Proof.
  intros Hv Hlist Hw Hne. destruct (validate_inv obj x Hv) as (xi & st & l' & Hb & _ & Hl' & Hl). rewrite Hlist in Hl'. injection Hl' as <-.
  split; [exact (linked_elaborable xi st x l Hb Hl Hw Hne) | intros a b na nb; exact (linked_step xi st x l Hb Hl a b na nb)].
Qed.

(** C9: If [validate] accepts a description and builds a crossbar with at least one node, whose nodes are all
    hosts that are connected to devices or devices that are connected to hosts, then the crossbar is
    elaborated without an exception, with fuel 5 or more; every node is still there, with its name, type,
    clock, reset and addresses, and a path leads from one of these nodes to another one exactly if the
    description connects them. *)
Theorem description_elaborated obj x l k : Validate.validate obj = Ok (Some x) → listed obj = Ok l → well_connected x l → nodes x ≠ [] →
  ∃ y, Elaborate.elaborate (5 + k) x = Ok (true, y) ∧ (∀ n nd, nodes x !! n = Some nd → ∃ nd', nodes y !! n = Some nd' ∧ same_node nd nd') ∧
    (∀ a b na nb, nodes x !! a = Some na → nodes x !! b = Some nb → a ≠ b → rtc (step y) a b ↔ (n_name na, n_name nb) ∈ l).
Proof.
  intros Hv Hlist Hw Hne. destruct (validated_elaborable obj x l Hv Hlist Hw Hne) as [[Hbi He Hd] Hstep].
  destruct (elaborate_elab x Hbi k He Hd) as (f & D & y & Hy & Hel & _). exists y. pose proof (el_sub _ _ _ _ _ _ Hel) as Hs.
  split_and!; [done | apply Hs |]. intros a b na nb Ea Eb Hab. rewrite <- (Hstep a b na nb Ea Eb).
  rewrite <- (subdivides_reach f x y a b Hs) by (by eapply lookup_lt_Some). split; [by apply bipartite_path | apply rtc_once].
Qed.

(** In a crossbar built from a description the names of the nodes are distinct, every node has one of the
    clocks of the description, and no address belongs to two address ranges. *)
Theorem validated_unambiguous obj x : Validate.validate obj = Ok (Some x) → NoDup (n_name <$> nodes x) ∧
  Forall (fun nd => ∃ c, clocks nd = [c] ∧ c ∈ xb_clocks x) (nodes x) ∧ ranges_apart (concat (addr_range <$> nodes x)).
Proof.
  intros Hv. destruct (validate_inv obj x Hv) as (xi & st & l & Hb & Hc & _ & Hl). set (v := Validate.v_xbar st) in *.
  assert (Heq : ∀ A (g : Node → A), (∀ nd nd', same_node nd nd' → g nd' = g nd) → g <$> nodes x = g <$> nodes v).
  { intros A g Hg. apply list_eq. intros n. rewrite !list_lookup_fmap. destruct (nodes x !! n) as [nd |] eqn:E.
    - apply (lk_node _ _ _ Hl) in E as (nd0 & -> & Hs). cbn. f_equal. by apply Hg.
    - apply lookup_ge_None in E. rewrite (lk_len _ _ _ Hl) in E. by rewrite (proj2 (lookup_ge_None _ _) E). }
  rewrite (Heq _ n_name), (Heq _ addr_range) by (by intros nd nd' (? & ? & ? & ? & ? & ? & ?)). split_and!; [apply Hb | |].
  - apply Forall_forall. intros nd Hin. apply list_elem_of_lookup in Hin as (n & E). apply (lk_node _ _ _ Hl) in E as (nd0 & E & (_ & _ & -> & _)).
    pose proof (bt_clocks _ _ Hb) as Hf. rewrite Forall_forall in Hf. apply list_elem_of_lookup_2 in E. rewrite Hc. by apply Hf.
  - destruct (bt_ranges _ _ Hb) as [Hr Hap]. fold v in Hr. by rewrite <- Hr.
Qed.

(** C40: If the address ranges of a device have non-negative bases and sizes of at least 4 KiB, overlap neither
    each other nor a range of another device, and every other device has a list of ranges that can be read,
    merging them raises nothing: the result is a list of ranges of the same kind, in order and apart, which
    covers every address of the device and takes no address of another device. *)
Theorem simplify_addr_sound xbar dev name devs l : yget "name" dev = Some name → yget "addr_range" dev = Some (YList l) →
  Lib.other_devices xbar name = Ok devs → Forall dev_ok devs → Forall good l → apart l → (∀ e a, e ∈ l → holds e a → ¬ foreign devs a) →
  ∃ result, Lib.simplify_addr dev xbar = Ok result ∧ Forall good result ∧ in_order result ∧
    (∀ e a, e ∈ l → holds e a → ∃ r, r ∈ result ∧ holds r a) ∧ (∀ r a, r ∈ result → holds r a → ¬ foreign devs a).
Proof.
  intros Hname Haddr Hdevs Hok Hgood Hap Hfree. unfold Lib.simplify_addr, key. rewrite Haddr, Hname. cbn [mbind res_bind of_option py_iter].
  destruct (sort_entries_ok l) as (l' & -> & Hp & Hs); [eapply Forall_impl; [exact Hgood | by intros e (? & _)] |]. cbn [mbind res_bind].
  assert (Hgood' : Forall good l') by by rewrite Hp. assert (Hord : in_order l').
  { apply apart_in_order; [eapply Forall_impl; [exact Hgood' | intros e (_ & _ & ?); lia] | done |]. intros a. by rewrite Hp. }
  assert (Hin : ∀ e, e ∈ l ↔ e ∈ l') by (intros e; by rewrite Hp).
  assert (Hall : ∀ pre suf result, l' = pre ++ suf → merged devs pre result → ∃ result', foldM (Lib.merge_step xbar (Ok name)) result suf = Ok result' ∧ merged devs l' result').
  { intros pre suf. revert pre. induction suf as [| e suf IH]; intros pre result Heq Hm; [rewrite app_nil_r in Heq; subst; by exists result |].
    assert (He : e ∈ l') by (rewrite Heq; apply elem_of_app; right; by left). rewrite Forall_forall in Hgood'.
    destruct (merge_step_ok xbar name devs Hdevs Hok pre result e Hm (Hgood' e He)) as (r1 & Hr1 & Hm1).
    - intros p Hpin. split; [apply Hgood'; rewrite Heq; apply elem_of_app; by left |]. rewrite Heq, (cons_middle e pre suf), (app_assoc pre [e] suf) in Hord.
      apply in_order_prefix, in_order_snoc in Hord as [_ Ho]. by apply Ho.
    - intros a. apply Hfree. by apply Hin.
    - cbn [foldM]. rewrite Hr1. cbn [mbind res_bind]. apply (IH (pre ++ [e])); [by rewrite <- app_assoc | done]. }
  destruct (Hall [] l' []) as (result & -> & [G1 G2 G3 G4 _]); [done | |].
  { split; [by apply Forall_nil | constructor | by intros e a ?%elem_of_nil | by intros r a ?%elem_of_nil | done]. }
  exists result. split_and!; [done | done | done | intros e a He%Hin; by apply G3 | done].
Qed.

(** ** A small crossbar *)

Definition kv (k : string) (v : yaml) : yaml * yaml := (YStr k, v).
Definition range_desc (base size : string) : yaml := YDict [kv "base_addr" (YStr base); kv "size_byte" (YStr size)].
Definition node_desc (name type clock reset : string) (more : hjson) : yaml :=
  YDict ([kv "name" (YStr name); kv "type" (YStr type); kv "clock" (YStr clock); kv "reset" (YStr reset); kv "stub" (YBool false)] ++ more).
Definition peri_desc (ranges : list yaml) : yaml := node_desc "peri" "device" "clk_io" "rst_io" [kv "xbar" (YBool true); kv "addr_range" (YList ranges)].
Definition xbar_desc (nodes : list yaml) (conns : hjson) : hjson :=
  [kv "name" (YStr "main"); kv "clock" (YStr "clk_main"); kv "reset" (YStr "rst_main");
   kv "clock_connections" (YDict [kv "clk_main" YNone; kv "clk_io" YNone]); kv "reset_connections" (YDict [kv "rst_main" YNone; kv "rst_io" YNone]);
   kv "nodes" (YList nodes); kv "connections" (YDict conns)].

Definition cpu_desc : yaml := node_desc "cpu" "host" "clk_main" "rst_main" [kv "pipeline" (YStr "false")].
Definition dbg_desc : yaml := node_desc "Dbg" "host" "clk_io" "rst_io" [].
Definition rom_desc : yaml := node_desc "rom" "device" "clk_main" "rst_main" [kv "xbar" (YBool false); kv "addr_range" (YList [range_desc "0x8000" "0x4000"])].
Definition peri_ranges : list yaml := [range_desc "0x40020000" "0x1000"; range_desc "0x40000000" "0x1000"; range_desc "0x40001000" "0x1000"].

Definition small_desc : hjson :=
  xbar_desc [cpu_desc; dbg_desc; rom_desc; peri_desc peri_ranges] [kv "cpu" (YList [YStr "rom"; YStr "peri"]); kv "dbg" (YList [YStr "peri"; YStr "rom"])].
Definition small_conns : list (string * string) := [("cpu", "rom"); ("cpu", "peri"); ("dbg", "peri"); ("dbg", "rom")].
Definition small_xbar : Xbar := Eval vm_compute in match Validate.validate small_desc with Ok (Some x) => x | _ => mkXbar "" "" "" [] [] [] [] end.

Lemma small_valid : Validate.validate small_desc = Ok (Some small_xbar) ∧ listed small_desc = Ok small_conns ∧ well_connected small_xbar small_conns ∧ nodes small_xbar ≠ [].
Proof. split_and!; [by vm_compute | by vm_compute | apply (bool_decide_unpack _); by vm_compute | done]. Qed.

Lemma small_elaborable : elaborable small_xbar.
Proof. destruct small_valid as (H1 & H2 & H3 & H4). by apply (validated_elaborable small_desc small_xbar small_conns). Qed.

Lemma description_elaborated_witness : ∃ y, Elaborate.elaborate 5 small_xbar = Ok (true, y) ∧
  (∀ n nd, nodes small_xbar !! n = Some nd → ∃ nd', nodes y !! n = Some nd' ∧ same_node nd nd') ∧
  (∀ a b na nb, nodes small_xbar !! a = Some na → nodes small_xbar !! b = Some nb → a ≠ b → rtc (step y) a b ↔ (n_name na, n_name nb) ∈ small_conns).
Proof. destruct small_valid as (H1 & H2 & H3 & H4). exact (description_elaborated small_desc small_xbar small_conns 0 H1 H2 H3 H4). Defined.

Lemma validated_unambiguous_witness : NoDup (n_name <$> nodes small_xbar) ∧
  Forall (fun nd => ∃ c, clocks nd = [c] ∧ c ∈ xb_clocks small_xbar) (nodes small_xbar) ∧ ranges_apart (concat (addr_range <$> nodes small_xbar)).
Proof. destruct small_valid as (H1 & _). exact (validated_unambiguous small_desc small_xbar H1). Defined.

Lemma elaborate_legal_witness : ∃ x, Elaborate.elaborate 5 small_xbar = Ok (true, x) ∧
  (∀ n nd, nodes x !! n = Some nd → (node_type nd = DEVICE → ¬ lone small_xbar n) → arity_ok (node_type nd) (n_us nd) (n_ds nd)) ∧
  (∀ e u v nu nv, edges x !! e = Some (mkEdge u v) → nodes x !! u = Some nu → nodes x !! v = Some nv → (node_type nv = DEVICE → ¬ lone small_xbar v) →
    ∃ c, last (clocks nu) = Some c ∧ head (clocks nv) = Some c) ∧
  (∀ n nd, nodes x !! n = Some nd → node_type nd = SOCKET_1N ∨ node_type nd = SOCKET_M1 → clocks nd = [xb_clock small_xbar]) ∧
  (∀ u v, tc (step x) u v → u ≠ v ∧ (type_at x u = Some SOCKET_1N → type_at x v ≠ Some SOCKET_1N)).
Proof. exact (elaborate_legal small_xbar 0 small_elaborable). Defined.

(** The device of the second host comes first there. *)
Lemma elaborated_devices_witness : ∃ x l, Elaborate.elaborate 5 small_xbar = Ok (true, x) ∧ get_devices_from_host 3 x 1 = Ok l ∧
  Forall2 (fun e d => edges small_xbar !! e = Some (mkEdge 1 d)) [2%nat; 3%nat] l.
Proof.
  refine (elaborated_devices small_xbar 0 1 (default (Node.init "" HOST "" "") (nodes small_xbar !! 1%nat)) small_elaborable _ _ _); [by vm_compute | by vm_compute | vm_compute; lia].
Defined.

(** *** Merged ranges *)

Definition peri_object : hjson := match peri_desc peri_ranges with YDict d => d | _ => [] end.

Lemma peri_ranges_ok : Forall good peri_ranges ∧ apart peri_ranges ∧ (∀ e a, e ∈ peri_ranges → holds e a → ¬ foreign [rom_desc] a).
Proof.
  assert (Hl : Forall good peri_ranges) by (repeat (apply Forall_cons; split); [split_and!; [split; by vm_compute | by vm_compute | by vm_compute] .. | by apply Forall_nil]).
  set (sorted := [range_desc "0x40000000" "0x1000"; range_desc "0x40001000" "0x1000"; range_desc "0x40020000" "0x1000"]).
  assert (Hp : sorted ≡ₚ peri_ranges) by (unfold sorted, peri_ranges; symmetry; apply (Permutation_cons_append [_; _])). split_and!; [done | |].
  - intros a. rewrite <- Hp. revert a. apply in_order_apart; [eapply Forall_impl; [rewrite Hp; exact Hl | intros e (_ & _ & ?); lia] |].
    unfold in_order, sorted. repeat (constructor || (apply Forall_cons; split) || apply Forall_nil; try done); by vm_compute.
  - intros e a He Ha (o & Ho & Hoa). assert (Ho' : o = range_desc "0x8000" "0x4000") by (apply list_elem_of_singleton; exact Ho). subst o.
    assert (Hr : a < 0xC000) by (unfold holds in Hoa; replace (end_of (range_desc "0x8000" "0x4000")) with 0xC000 in Hoa by (by vm_compute); lia).
    assert (Hb : Forall (fun e => 0x40000000 ≤ base_of e) peri_ranges) by (repeat (apply Forall_cons; split); [by vm_compute .. | by apply Forall_nil]).
    rewrite Forall_forall in Hb. specialize (Hb e He). unfold holds in Ha. lia.
Qed.

Lemma simplify_addr_sound_witness : ∃ result, Lib.simplify_addr peri_object small_desc = Ok result ∧ Forall good result ∧ in_order result ∧
  (∀ e a, e ∈ peri_ranges → holds e a → ∃ r, r ∈ result ∧ holds r a) ∧ (∀ r a, r ∈ result → holds r a → ¬ foreign [rom_desc] a).
Proof.
  destruct peri_ranges_ok as (H1 & H2 & H3). refine (simplify_addr_sound small_desc peri_object (YStr "peri") [rom_desc] peri_ranges _ _ _ _ H1 H2 H3); [by vm_compute .. |].
  apply Forall_singleton. eexists _, _. split_and!; [done | by vm_compute |]. apply Forall_singleton. split; by vm_compute.
Defined.

(** The ranges are merged to a power of two. *)
Example peri_merged : Lib.simplify_addr peri_object small_desc = Ok [range_desc "0x40000000" "0x40000"].
Proof. by vm_compute. Qed.

(** ** Where the generator falls short *)

Definition elaborated (obj : hjson) : res (list NodeType * list Edge) :=
  o ← Validate.validate obj;
  match o with
  | None => Err ValueError
  | Some x => r ← Elaborate.elaborate 5 x; Ok (node_type <$> nodes r.2, edges r.2)
  end.

(** Hosts without a second device: the device they share gets no socket, and none of them a FIFO to the
    clock of the device, since devices are only processed below a socket of a host. *)
Definition lone_desc : hjson :=
  xbar_desc [cpu_desc; node_desc "cpu2" "host" "clk_main" "rst_main" []; peri_desc peri_ranges] [kv "cpu" (YList [YStr "peri"]); kv "cpu2" (YList [YStr "peri"])].
Lemma lone_device_unsocketed : elaborated lone_desc = Ok ([HOST; HOST; DEVICE], [mkEdge 0 2; mkEdge 1 2]) ∧
  (r ← (o ← Validate.validate lone_desc; of_option ValueError o); Ok (clocks <$> nodes r)) = Ok [["clk_main"]; ["clk_main"]; ["clk_io"]].
Proof. split; by vm_compute. Qed.

(** The devices of a host with one device are not found. *)
Lemma single_device_not_found : (o ← Validate.validate lone_desc; x ← of_option ValueError o; r ← Elaborate.elaborate 5 x; get_devices_from_host 5 r.2 0) = Ok [].
Proof. by vm_compute. Qed.

(** A device without a host. *)
Lemma unconnected_device_error :
  elaborated (xbar_desc [cpu_desc; rom_desc; peri_desc peri_ranges] [kv "cpu" (YList [YStr "rom"])]) = Err IndexError.
Proof. by vm_compute. Qed.

(** Nested ranges: the upper part of the outer one is lost. *)
Lemma nested_range_lost : Lib.simplify_addr [kv "name" (YStr "peri"); kv "addr_range" (YList [range_desc "0x0" "0x3000"; range_desc "0x1000" "0x1000"])]
  (xbar_desc [] []) = Ok [range_desc "0x0" "0x2000"].
Proof. by vm_compute. Qed.

(** Numbers and booleans that pass the checks of the keys. *)
Lemma number_address_error : Validate.check_keys 1 Validate.addr_control (YDict [kv "base_addr" (YInt 32768); kv "size_byte" (YInt 4096)]) = Ok 0 ∧
  Validate.validate (xbar_desc [cpu_desc; node_desc "rom" "device" "clk_main" "rst_main" [kv "xbar" (YBool false);
    kv "addr_range" (YList [YDict [kv "base_addr" (YInt 32768); kv "size_byte" (YInt 4096)]])]] []) = Err TypeError.
Proof. split; by vm_compute. Qed.
Lemma boolean_pipeline_error : Validate.validate (xbar_desc [node_desc "cpu" "host" "clk_main" "rst_main" [kv "pipeline" (YBool false)]] []) = Err AttributeError.
Proof. by vm_compute. Qed.
Lemma optional_xbar_error : Validate.validate (xbar_desc [node_desc "rom" "device" "clk_main" "rst_main" [kv "addr_range" (YList [])]] []) = Err KeyError.
Proof. by vm_compute. Qed.

(** Methods that read attributes which no object has. *)
Lemma missing_attributes x n : edges x ≠ [] → get_edges_from_node x n = Err AttributeError ∧ get_addr n = Err AttributeError.
Proof. intros He. split; [| done]. unfold get_edges_from_node. by destruct (edges x). Qed.
